(* ===== verification/_CoqProject ===== *)
-Q . S2P
Prelude.v
Memory.v
Kservice.v
Blocks.v
Mem.v
Heap.v
Strings.v
CFloat.v
FloatExact.v
Gpio.v
Pwm.v
Scan.v
Printf.v
Globals.v
Lora.v
Raspberry.v
Sensors.v
Energy.v
AutoCruise.v
Manager.v
RingBuffer.v
Kernel.v
Scheduler.v
Timer.v
Thread.v
Tick.v
SoftTimer.v
Ipc.v
Gentle.v
Mutex.v
Event.v
Mailbox.v
Chain.v
LinkedList.v
Object.v
Layout.v
Device.v
Serial.v
SerialUse.v
Receiver.v
MessageQueue.v
Mempool.v
Create.v
Idle.v
Life.v
LifeCalls.v
LifeThreads.v
LifeCreate.v
LifeIdle.v
LifeRun.v
Startup.v
SystemLife.v
Ports.v
System.v
