(* ===== verification/Prelude.v ===== *)
(** * Verification of the USV control firmware (STM32F103 + RT-Thread 4.0.2)

    The program steers an unmanned boat that takes water samples.  Its own code
    is src/applications/: one thread per device (remote control, on-board
    computer, GPS, radar, water probe, battery gauge), two threads that slew the
    motor and winch outputs, and the manager thread that supervises the links and
    decides.  The threads share the global variables of manager.c, read their
    serial ports through the driver framework in src/rt-thread/components/drivers/,
    and run on the RT-Thread kernel in src/rt-thread/src/: scheduler, timers,
    waiting and IPC objects, the object container, the heap and the kernel's own C
    library.  All of these are modelled.

    ** Modelling conventions

    - C integers are [Z]; every store into an n-bit object goes through [u8],
      [u16], [u32], [s16] or [s32] below, so overflow is as on the target.
    - [float] and [double] expressions are evaluated with the roundings of the C
      expressions over the Standard Library's [SpecFloat] (CFloat.v).
    - [None] is a failed assertion or a memory error (an access outside an array,
      a string without terminator); a theorem that a call returns [Some] says that
      it does neither.
    - State is passed explicitly.  A thread's endless loop is one turn as a
      function; what the environment supplies (received bytes, clock readings,
      samples, the memory behind a variable, libm, a port's registers) are
      arguments or the fields of a class ([Libm], [UartOps]).
    - Code that runs with interrupts disabled is one step.  A call that gives up
      the processor is cut there: a [_begin] (or the call itself, answering
      [Waits]) up to the scheduling, and an [_end] or [_resume] that goes on in
      whatever state the system has reached by then.  A call with several critical
      sections (message queues, serial reads, burials) is cut between them.  The
      heap's calls are serialised by its semaphore, so each is one step.
    - The kernel's lists of threads and timers are sequences (Kernel.v), which
      LinkedList.v justifies for the pointers of [rt_list_t]; the heap, the object
      container, the pools, the strings and the stacks live in byte-addressed
      memory (Memory.v).  Static objects lie below the heap.
    - Hooks, call backs and cleanup functions are code of other parts: the call is
      recorded with its argument, or executed where the callee is modelled too.

    ** Files and the code they model

    Shared: Prelude.v (integers, arrays, kernel constants, tactics), Memory.v (bytes
    and words), CFloat.v and FloatExact.v (binary32/64 arithmetic, exactness on
    integers), Scan.v ([atoi] and [sscanf] of the C library as far as the receivers
    use them).

    The application (src/applications/):
    - Globals.v: the shared variables of manager.c as one record.
    - Gpio.v (gpio.c): LEDs, relays, valves; [draw] as the sequence of its writes.
    - Pwm.v (motor_pwm.c, gear_pwm.c): the two slewing threads, [set_pwm].
    - Lora.v (lora.c), Raspberry.v (raspberry.c): the two command receivers, byte
      by byte, and the reporting thread ([rasp_send_step], cut at its delays).
    - Sensors.v (gps.c, compass.c, water.c): the binary sensor streams.
    - Energy.v (energy_adc.c, wdt_usv.c): battery gauge and watchdog start.
    - AutoCruise.v (auto_cruise.c): bearing, distance and heading controller.
    - Manager.v (manager.c): one turn of the manager, on all of the above.
    - Ports.v (the init_ and thread_ functions of the five files with a serial
      port): bringing up a port and its threads while the system, and the thread
      that reads the port, run.
    - System.v (main.c): all threads together, taking turns in any order.

    Devices (src/rt-thread/components/drivers/, src/rt-thread/src/device.c):
    - RingBuffer.v (ringbuffer.c): the byte ring buffer.
    - Device.v (device.c): the registry and the calls through a driver's entries,
      which are the class [Driver].
    - Serial.v (serial.c): the serial driver, an instance of [Driver], over a port
      of class [UartOps]; SerialUse.v: readers, writers, interrupts and the other
      clients of the heap around one serial device.
    - Receiver.v (the reading loops of the application): interrupt, semaphore and
      reading thread.

    The kernel's state (src/rt-thread/src/):
    - Kernel.v: control blocks, lists, the shared state record [Kernel].
    - Scheduler.v (scheduler.c, [__rt_ffs] of kservice.c and of the processor
      port): ready lists, priority bitmap, [rt_schedule], the scheduler lock.
    - Timer.v, Thread.v (timer.c, thread.c): timer lists in deadline order, the
      thread operations.  Tick.v (clock.c, [rt_timer_check]): the tick interrupt;
      the kernel as a transition system.  SoftTimer.v: the timer thread.
    - Ipc.v, Mutex.v, Event.v, Mailbox.v, MessageQueue.v (ipc.c), Mempool.v
      (mempool.c): wait lists and semaphores, mutexes, event sets, mailboxes,
      message queues, memory pools.  Gentle.v: what all these leave alone.

    Memory and objects (src/rt-thread/src/):
    - Kservice.v, Strings.v, Printf.v (kservice.c): block and string functions,
      [rt_vsnprintf].
    - Blocks.v (an allocator as a list of blocks), Mem.v (mem.c: the same as linked
      headers in memory), Heap.v (any number of clients).
    - Chain.v, LinkedList.v (rtservice.h): linked lists in memory.
    - Object.v (object.c): the object container; Layout.v: the memory every object
      and every pool or stack owns.

    The whole kernel: Create.v (the init, detach, create and delete calls of
    ipc.c, mempool.c, timer.c and thread.c on the kernel, the container and the heap
    together, and the first stack frame of cpuport.c), Idle.v (idle.c, irq.c), and,
    with the invariant [sys_state], Life.v, LifeCalls.v, LifeThreads.v, LifeCreate.v,
    LifeIdle.v, LifeRun.v (the calls one by one).  Startup.v: [rtthread_startup]
    (components.c) with the board's set-up (src/drivers/board.c, drv_common.c,
    drv_usart.c), the console (kservice.c) and the three first threads.  SystemLife.v:
    what holds from there on.

    [sys_state container begun] has one parameter for the phase: until the scheduler
    is started ([begun] is [False]) no thread runs, and the same lemmas about calls
    serve the start-up and the running system.

    How the parts interact: [rtthread_startup] leaves the state in which SystemLife.v
    and Ports.v begin ([boots], [booted_port]); the application's functions of Ports.v call [perform],
    which runs Create.v's semaphore and thread calls and Serial.v's device on the one
    heap of the state [Sys]; Serial.v's interrupt ends in [Ipc.rt_sem_release], which
    resumes the thread in the [Kernel] that the calls of LifeRun.v share; what the
    threads then compute from the bytes is Lora.v, Raspberry.v and Sensors.v.

    ** What the theorems show

    - Kernel safety: the invariant [kernel_ok] ([sched_ok]: the bitmap has exactly
      the bits of the non-empty ready lists, a thread is in at most one list and
      its state says which; [timers_ok]: thread timers are armed only for
      suspended threads and in deadline order) is kept by every operation, and no
      operation called under its conditions fails an assertion
      ([kernel_runs_safely], by induction over [kernel_reach]).
    - Kernel behaviour: the best thread runs ([schedule_picks_best]), round robin
      among equals ([tick_round_robin]), sleeping threads wake exactly on time
      ([sleep_wakes_on_time]), yielding and [rt_thread_delay_until] as the code has
      them ([yield_keeps_processor], [delay_until_oversleeps]); the soft timers that
      are due fire, in order ([soft_check_fires_due]), and the one case in which the
      walk does not end ([soft_stop_spins]).
    - IPC objects, each over all states reachable by its calls and by [rest_step]s
      of the rest of the system (which may take waiters off by time-out): tokens
      are conserved ([semaphore_counts]), mutual exclusion, priority inheritance
      and hand-over ([mutex_exclusion], [mutex_inheritance], [mutex_handover]), a
      send serves the waiters as the relation [delivery] says, flag by flag, and leaves nobody
      waiting in vain ([event_send_spec], [event_no_lost_wakeup]), mailboxes and
      message queues refine bounded queues ([mailbox_fifo],
      [message_queue_refines]) and lose no wake-up ([mailbox_no_lost_wakeup]),
      memory pools hand out disjoint blocks ([mempool_serves]).
    - The heap: it refines the list of blocks ([heap_refines_blocks]), clients get
      disjoint blocks and keep their data ([heap_serves_clients],
      [heap_keeps_data]), its search ends ([malloc_search_terminates]); the corner
      cases in which it does not behave ([huge_requests_wrap],
      [realloc_hides_memory]).
    - The C library: memory and string functions against functions on lists
      ([memory_functions_equivalent], [string_functions_equivalent]); [rt_vsnprintf]
      against a grammar of formats and the text each directive gives (Module Format of
      Printf.v: [vsnprintf_prints], [sprintf_atoi_roundtrip]); the two-way and one-way
      lists of rtservice.h against lists of addresses ([list_functions_refine]).
    - Kernel objects: the container keeps every class a ring of objects of its type
      ([objects_typed]), and its calls answer as stated on every branch, refusals
      and failed assertions included ([object_calls_answer]).  From reset, everything before the
      first thread succeeds but, perhaps, the allocation of main, and leaves the
      invariant ([system_comes_up]); from there on no thread waits
      on an object that is gone, no two objects, pools or stacks overlap, deleting
      wakes every waiter, the idle thread returns the memory of the dead
      ([system_stays_sound], [delete_wakes_and_frees], [create_thread_makes],
      [idle_buries_the_dead], [stack_frame_bounds]).
    - Devices: the registry's answers ([device_registry]); a serial device refines a
      reference-counted byte queue that keeps the newest bytes
      ([serial_refines_queue]); a reading thread never sleeps on a byte that is
      there ([receiver_no_lost_wakeup]); the start-up functions lead there whatever
      comes in between, the reading thread itself included once it is started
      ([ports_come_up]), with the exception that two of them have
      ([early_byte_stops]).  The ring buffer refines a bounded queue, under all its
      calls but for the block overwrite that overtakes the reader and loses
      everything ([ringbuffer_refines_queue]).
    - The receivers: no byte sequence makes them write outside their buffers,
      except in the cases stated exactly ([lora_rec_byte_safe],
      [rasp_field_overflow], [sensor_loops_safe]), and
      well-formed frames have exactly the effect of their fields ([lora_joystick_frame],
      [rasp_command], [gps_decodes], [radar_decodes] and others).
    - The whole application ([firmware_safe]): whatever the order of the threads'
      turns and the input, the motor outputs stay in range, the pump runs exactly
      when one valve is open, and only the two command receivers and the sender can
      make a memory error, in the cases named; the sender's is that it prints the
      received frame as a format, without arguments (raspberry.c, lora_send), run here
      through [Printf.formatted].
    - Control: outputs stay in range and reach their targets ([motor_reach_safe],
      [motor_left_settles], [gear_reaches]), the manager's supervision, joystick law
      and pump interlocks ([manager_supervision], [manager_joystick],
      [manager_pump]), and a sampling order runs to completion
      ([sampling_completes]).

    ** Bounds and fuel

    Loops over lists are structural.  The others have fuel, and the theorems say
    how much is enough: [timer_check_loop] and [soft_timer_loop] one more than the
    number of armed timers of the kind (a periodic timer of zero ticks would keep
    them going), [rt_ipc_list_resume_all] the length of its list, traversals of
    the container (the number of devices, threads or timers registered) and of message chains one more than the number of their nodes, string loops
    one more than the length of the string, the format loop the length of the
    format, the heap's loops ([while]) the number of blocks, the receive interrupt
    one more than the number of bytes the port holds, the idle loop the number of
    the dead.  Timer arguments are below [RT_TICK_HALF], the bound the code asserts;
    sizes are below [SIZE_LIMIT] where a sum would wrap, and [huge_requests_wrap]
    says what happens above.  [LifeRun.run] starts thread timers only; application
    timers are in Tick.v and SoftTimer.v.

    ** Not modelled

    The board drivers and vendor libraries (register accesses; a port is the
    class [UartOps]), context switch and exception entry (assembly), the linker's
    table of initialisation functions that main's thread runs (the board's table is
    the list of devices its functions register), the device frameworks without state the
    boat depends on (pin, pwm, adc, watchdog: pin and pwm outputs are the calls the
    application makes), work queues and pipes, other allocators, signals and SMP
    (not configured), the shell, file systems and network (not used).  In the
    application: the loops check_gps_ascii and check_compass, which no thread
    runs, and the disabled sender of lora.c. *)

From Stdlib Require Export ZArith Lia Bool Ascii.
From stdpp Require Export base numbers list gmap.

#[export] Set Warnings "-postfix-notation-not-level-1".

Declare Scope c_scope.
Delimit Scope c_scope with C.
#[global] Open Scope Z_scope.

(** ** Record update: [r <| f := v |>]

    A record declares how it is rebuilt from its projections ([Rebuild]); the
    setter of a projection is derived from that term by abstracting the
    projection out of it. *)

Class Rebuild (R : Type) := rebuild : R -> R.
Class Setter {R T : Type} (p : R -> T) := modify : (T -> T) -> R -> R.

Ltac derive_setter :=
  lazymatch goal with
  | |- @Setter ?R ?T ?p =>
      let e := eval cbv beta delta [rebuild] in (@rebuild R _) in
      let e := eval hnf in e in
      lazymatch eval pattern p in e with
      | ?g _ =>
          let b := eval cbv beta in
            (fun (f : T -> T) (r : R) => g (fun r0 => f (p r0)) r) in
          exact b
      end
  end.
#[export] Hint Extern 0 (Setter _) => derive_setter : typeclass_instances.

Notation "r '<|' p ':=' v '|>'" := (modify (p:=p) (fun _ => v) r)
  (at level 12, left associativity, p at level 11, v at level 99) : c_scope.
#[global] Open Scope c_scope.

(** ** C integers: a value of a w-bit type is the [Z] it denotes; conversion
    to an unsigned type is reduction modulo [2^w], conversion to a signed type
    is the two's-complement representative (what GCC documents for ARM). *)

Definition u8  (z : Z) : Z := z mod 256.
Definition u16 (z : Z) : Z := z mod 65536.
Definition u32 (z : Z) : Z := z mod 4294967296.
Definition s8  (z : Z) : Z := (z + 128) mod 256 - 128.
Definition s16 (z : Z) : Z := (z + 32768) mod 65536 - 32768.
Definition s32 (z : Z) : Z := (z + 2147483648) mod 4294967296 - 2147483648.

Definition INT_MIN : Z := -2147483648.
Definition INT_MAX : Z := 2147483647.

(** [fits_int z]: the exact value of a signed [int] computation is
    representable, so the C expression has no overflow. *)
Definition fits_int (z : Z) : bool := (INT_MIN <=? z) && (z <=? INT_MAX).

Lemma u8_small z : 0 <= z < 256 -> u8 z = z.
Proof. apply Z.mod_small. Qed.
Lemma u16_small z : 0 <= z < 65536 -> u16 z = z.
Proof. apply Z.mod_small. Qed.
Lemma u32_small z : 0 <= z < 4294967296 -> u32 z = z.
Proof. apply Z.mod_small. Qed.
Lemma u8_range z : 0 <= u8 z < 256.
Proof. apply Z.mod_pos_bound; lia. Qed.
Lemma u16_range z : 0 <= u16 z < 65536.
Proof. apply Z.mod_pos_bound; lia. Qed.
Lemma u32_range z : 0 <= u32 z < 4294967296.
Proof. apply Z.mod_pos_bound; lia. Qed.
Lemma s32_small z : INT_MIN <= z <= INT_MAX -> s32 z = z.
Proof. unfold s32, INT_MIN, INT_MAX. intros; rewrite Z.mod_small; lia. Qed.
Lemma s32_range z : INT_MIN <= s32 z <= INT_MAX.
Proof.
  unfold s32, INT_MIN, INT_MAX.
  pose proof (Z.mod_pos_bound (z + 2147483648) 4294967296); lia.
Qed.
Lemma u32_add_mod a b : u32 (u32 a + b) = u32 (a + b).
Proof. unfold u32. rewrite Zplus_mod_idemp_l. reflexivity. Qed.
Lemma u32_sub_mod_l a b : u32 (u32 a - b) = u32 (a - b).
Proof. unfold u32. rewrite Zminus_mod_idemp_l. reflexivity. Qed.
Lemma u32_sub_mod_r a b : u32 (a - u32 b) = u32 (a - b).
Proof. unfold u32. rewrite Zminus_mod_idemp_r. reflexivity. Qed.
Lemma u32_s32 z : u32 (s32 z) = u32 z.
Proof.
  unfold u32, s32. rewrite Zminus_mod_idemp_l. f_equal; lia.
Qed.

(** [c_mod] makes every [uN]/[sN] of the goal and context available to [lia]. *)
Ltac c_mod :=
  unfold u8, u16, u32, s8, s16, s32, INT_MIN, INT_MAX in *;
  Z.div_mod_to_equations; lia.

(** ** Characters and C strings: a [char] of the ARM ABI is unsigned, a byte
    0..255; a C string is the list of its bytes up to the terminator. *)

Definition chr (a : ascii) : Z := Z.of_N (N_of_ascii a).
#[global] Arguments chr a%_char.

Definition NUL : Z := 0.

Definition is_digit (c : Z) : bool := (chr "0" <=? c) && (c <=? chr "9").

(** ** Outcomes of C code with undefined behaviour: [None] is a memory error. *)

(** [buf_set b i v]: the store [b[i] = v] into an array of [length b]
    elements; out of the array it is a memory error. *)
Definition buf_set {A} (b : list A) (i : Z) (v : A) : option (list A) :=
  if (0 <=? i) && (i <? Z.of_nat (length b)) then Some (<[Z.to_nat i := v]> b)
  else None.

Definition buf_get {A} (b : list A) (i : Z) : option A :=
  if 0 <=? i then b !! Z.to_nat i else None.

Lemma buf_set_Some {A} (b : list A) i v :
  0 <= i < Z.of_nat (length b) -> buf_set b i v = Some (<[Z.to_nat i := v]> b).
Proof.
  intros H. unfold buf_set.
  destruct (Z.leb_spec 0 i), (Z.ltb_spec i (Z.of_nat (length b))); simpl; try lia.
  reflexivity.
Qed.

Lemma buf_set_None {A} (b : list A) i v :
  i < 0 \/ Z.of_nat (length b) <= i -> buf_set b i v = None.
Proof.
  intros H. unfold buf_set.
  destruct (Z.leb_spec 0 i), (Z.ltb_spec i (Z.of_nat (length b))); simpl;
    reflexivity || lia.
Qed.

Lemma buf_set_inv {A} (b b' : list A) i v :
  buf_set b i v = Some b' ->
  0 <= i < Z.of_nat (length b) /\ b' = <[Z.to_nat i := v]> b.
Proof.
  unfold buf_set.
  destruct (Z.leb_spec 0 i), (Z.ltb_spec i (Z.of_nat (length b))); simpl;
    intros [= <-]; auto.
Qed.

Lemma buf_set_length {A} (b b' : list A) i v :
  buf_set b i v = Some b' -> length b' = length b.
Proof. intros [_ ->]%buf_set_inv. apply length_insert. Qed.

(** Prefixes of an array after a store. *)
Lemma take_insert_snoc {A} (b : list A) n x :
  (n < length b)%nat -> take (S n) (<[n := x]> b) = take n b ++ [x].
Proof.
  revert b. induction n as [|n IH]; intros [|a b] H; cbn in H; try lia.
  - reflexivity.
  - cbn. f_equal. apply IH. lia.
Qed.

Lemma insert_two_take (b : list Z) (n : nat) x y :
  (S n < length b)%nat ->
  <[S n := y]> (<[n := x]> b) = take n b ++ x :: y :: drop (S (S n)) b.
Proof.
  revert b. induction n as [|n IH]; intros [|a b] H; cbn in H; try lia.
  - destruct b as [|a' b]; cbn in H; [lia|reflexivity].
  - cbn. f_equal. apply IH. lia.
Qed.

(** ** Kernel constants (rtdef.h) *)

Definition RT_EOK : Z := 0.
Definition RT_ERROR : Z := 1.
Definition RT_ETIMEOUT : Z := 2.
Definition RT_EFULL : Z := 3.
Definition RT_EEMPTY : Z := 4.
Definition RT_ENOMEM : Z := 5.
Definition RT_ENOSYS : Z := 6.
Definition RT_EBUSY : Z := 7.
Definition RT_EIO : Z := 8.
Definition RT_EINTR : Z := 9.
Definition RT_EINVAL : Z := 10.

Definition RT_TICK_MAX : Z := 4294967295.
Definition RT_TICK_PER_SECOND : Z := 1000.
Definition RT_ALIGN_SIZE : Z := 4.
Definition RT_WAITING_FOREVER : Z := -1.

(** [RT_ALIGN(size, align)] and [RT_ALIGN_DOWN] on 32-bit unsigned operands. *)
Definition RT_ALIGN (size align : Z) : Z :=
  Z.land (u32 (u32 (size + align) - 1)) (Z.lxor 4294967295 (align - 1)).
Definition RT_ALIGN_DOWN (size align : Z) : Z :=
  Z.land size (Z.lxor 4294967295 (align - 1)).

(** Masking the [e] low bits is rounding down to a multiple of 2^[e]. *)
Lemma land_mask e z : 0 <= e <= 32 -> 0 <= z < 4294967296 ->
  Z.land z (Z.shiftl (Z.ones (32 - e)) e) = z - z mod 2 ^ e.
Proof.
  intros He Hz. assert (0 < 2 ^ e) by (apply Z.pow_pos_nonneg; lia).
  replace (z - z mod 2 ^ e) with (Z.shiftl (Z.shiftr z e) e).
  2:{ rewrite Z.shiftl_mul_pow2, Z.shiftr_div_pow2 by lia. pose proof (Z.div_mod z (2 ^ e) ltac:(lia)). lia. }
  apply Z.bits_inj'. intros n Hn. rewrite Z.land_spec, !Z.shiftl_spec by lia.
  destruct (Z.lt_ge_cases n e) as [Hlt|Hge].
  - rewrite !(Z.testbit_neg_r _ (n - e)) by lia. apply andb_false_r.
  - rewrite Z.shiftr_spec by lia. replace (n - e + e) with n by lia.
    destruct (Z.lt_ge_cases n 32) as [H32|H32].
    + rewrite Z.ones_spec_low by lia. apply andb_true_r.
    + rewrite (Z.bits_above_log2 z n); [reflexivity|lia|].
      destruct (Z.eq_dec z 0) as [->|]; [simpl; lia|].
      apply Z.log2_lt_pow2; [lia|].
      apply Z.lt_le_trans with (2 ^ 32); [lia|]. apply Z.pow_le_mono_r; lia.
Qed.

Lemma land_mask4 z : 0 <= z < 4294967296 -> Z.land z 4294967292 = z - z mod 4.
Proof. exact (land_mask 2 z ltac:(lia)). Qed.

Lemma RT_ALIGN_DOWN_8 z : 0 <= z < 4294967296 -> RT_ALIGN_DOWN z 8 = z - z mod 8.
Proof. exact (land_mask 3 z ltac:(lia)). Qed.

Lemma RT_ALIGN_DOWN_4 z :
  0 <= z < 4294967296 -> RT_ALIGN_DOWN z RT_ALIGN_SIZE = z - z mod 4.
Proof. intros. apply land_mask4; assumption. Qed.

Lemma RT_ALIGN_4 z :
  0 <= z <= 4294967292 -> RT_ALIGN z RT_ALIGN_SIZE = (z + 3) - (z + 3) mod 4.
Proof.
  intros. unfold RT_ALIGN, RT_ALIGN_SIZE.
  change (Z.lxor 4294967295 (4 - 1)) with 4294967292.
  replace (u32 (u32 (z + 4) - 1)) with (z + 3) by c_mod.
  apply land_mask4; lia.
Qed.

Lemma RT_ALIGN_mod4 z : RT_ALIGN z RT_ALIGN_SIZE mod 4 = 0 /\ 0 <= RT_ALIGN z RT_ALIGN_SIZE <= 4294967292.
Proof.
  unfold RT_ALIGN, RT_ALIGN_SIZE. change (Z.lxor 4294967295 (4 - 1)) with 4294967292.
  pose proof (u32_range (u32 (z + 4) - 1)) as Hr. rewrite land_mask4 by exact Hr.
  generalize dependent (u32 (u32 (z + 4) - 1)). intros x Hr. Z.div_mod_to_equations. lia.
Qed.

(** Reading a list that was cut. *)
Lemma nth_take {A} n (l : list A) i d : (i < n)%nat -> nth i (take n l) d = nth i l d.
Proof.
  revert l i. induction n as [|n IH]; intros l i H; [lia|].
  destruct l as [|x l]; [reflexivity|]. destruct i as [|i]; [reflexivity|]. cbn. apply IH. lia.
Qed.

(** ** Loops: [while c b s] runs [b] while [c] holds, at most [fuel] times; [None]
    when the fuel runs out. *)
Fixpoint while {S : Type} (fuel : nat) (cond : S -> bool) (body : S -> S) (s : S) : option S :=
  match fuel with
  | O => None
  | Datatypes.S fuel => if cond s then while fuel cond body (body s) else Some s
  end.

(** A loop with an invariant [I] and a measure [mu] that decreases ends in a
    state where [I] holds and the condition does not. *)
Lemma while_total {S} (I : S -> Prop) (mu : S -> Z) cond body :
  (forall s, I s -> cond s = true -> I (body s) /\ 0 <= mu (body s) < mu s) ->
  forall fuel s, I s -> mu s < Z.of_nat fuel -> 0 <= mu s ->
  exists s', while fuel cond body s = Some s' /\ I s' /\ cond s' = false.
Proof.
  intros Hstep fuel. induction fuel as [|fuel IH]; intros s HI Hmu Hpos; [lia|].
  cbn [while]. destruct (cond s) eqn:Hc; [|eauto].
  destruct (Hstep s HI Hc). apply IH; auto; lia.
Qed.

(** ** Automation shared by the components *)

Create HintDb usv.
#[export] Hint Resolve u8_range u16_range u32_range s32_range : usv.
Create Rewrite HintDb usv_int.
Create Rewrite HintDb usv_kernel.
#[export] Hint Rewrite u8_small u16_small u32_small s32_small using lia : usv_int.

(** [split_ands] splits the conjunctions of the goal; [bsimp] turns the boolean
    comparisons of the hypotheses and the goal into propositions. *)
Ltac split_ands := repeat match goal with |- _ /\ _ => split end.

Ltac bool_cases :=
  repeat (match goal with
  | |- context [Z.leb ?a ?b] => destruct (Z.leb_spec a b)
  | |- context [Z.ltb ?a ?b] => destruct (Z.ltb_spec a b)
  | |- context [Z.eqb ?a ?b] => destruct (Z.eqb_spec a b)
  | H : context [Z.leb ?a ?b] |- _ => destruct (Z.leb_spec a b)
  | H : context [Z.ltb ?a ?b] |- _ => destruct (Z.ltb_spec a b)
  | H : context [Z.eqb ?a ?b] |- _ => destruct (Z.eqb_spec a b)
  end; cbv beta iota delta [negb andb orb] in * ); simpl in *.

(** [chars] evaluates the comparisons between character literals. *)
Ltac chars :=
  repeat match goal with
  | |- context [chr ?a =? chr ?b] =>
      let v := eval vm_compute in (chr a =? chr b) in change (chr a =? chr b) with v
  | H : context [chr ?a =? chr ?b] |- _ =>
      let v := eval vm_compute in (chr a =? chr b) in change (chr a =? chr b) with v in H
  end; cbn [andb orb negb] in *; cbv iota in *.
