(* ===== verification/Memory.v ===== *)
(** * Byte-addressed memory

    The memory the C code of the kernel library, the heap and the pools reads and
    writes: a byte per address, 16- and 32-bit accesses in the processor's
    little-endian order, and the block operations every memory function is
    compared with.  Addresses are the integers of [rt_ubase_t]. *)

From S2P Require Import Prelude.

(** A byte per address; [load8] reads it as [rt_uint8_t]. *)
Definition Memory := Z -> Z.

Definition load8 (m : Memory) (a : Z) : Z := u8 (m a).
Definition store8 (m : Memory) (a v : Z) : Memory := fun x => if x =? a then u8 v else m x.

Definition load16 (m : Memory) (a : Z) : Z := load8 m a + 256 * load8 m (a + 1).
Definition store16 (m : Memory) (a v : Z) : Memory := store8 (store8 m a v) (a + 1) (v / 256).

Definition load32 (m : Memory) (a : Z) : Z := load16 m a + 65536 * load16 m (a + 2).
Definition store32 (m : Memory) (a v : Z) : Memory :=
  store16 (store16 m a v) (a + 2) (v / 65536).

(** ** Reading what was written, and elsewhere *)

Lemma load8_range m a : 0 <= load8 m a < 256.
Proof. apply u8_range. Qed.
Lemma load16_range m a : 0 <= load16 m a < 65536.
Proof. unfold load16. pose proof (load8_range m a). pose proof (load8_range m (a + 1)). lia. Qed.
Lemma load32_range m a : 0 <= load32 m a < 4294967296.
Proof. unfold load32. pose proof (load16_range m a). pose proof (load16_range m (a + 2)). lia. Qed.

Lemma load8_store8 m a b v : load8 (store8 m a v) b = if b =? a then u8 v else load8 m b.
Proof. unfold load8, store8. destruct (b =? a); [c_mod|reflexivity]. Qed.

Lemma load8_store16 m a b v :
  load8 (store16 m a v) b =
  if b =? a then u8 v else if b =? a + 1 then u8 (v / 256) else load8 m b.
Proof.
  unfold store16. rewrite !load8_store8.
  destruct (Z.eqb_spec b a), (Z.eqb_spec b (a + 1)); reflexivity || lia.
Qed.

Lemma load8_store32 m a b v :
  load8 (store32 m a v) b =
  if (a <=? b) && (b <? a + 4) then u8 (v / 2 ^ (8 * (b - a))) else load8 m b.
Proof.
  unfold store32. rewrite !load8_store16.
  destruct (Z.leb_spec a b), (Z.ltb_spec b (a + 4)); cbn [andb].
  1: assert (b - a = 0 \/ b - a = 1 \/ b - a = 2 \/ b - a = 3) as Hd by lia;
     destruct Hd as [Hd|[Hd|[Hd|Hd]]]; rewrite Hd;
     replace b with (a + (b - a)) by lia; rewrite Hd.
  all: repeat match goal with |- context [?x =? ?y] => destruct (Z.eqb_spec x y); try lia end.
  all: try reflexivity.
  - rewrite Z.pow_0_r, Z.div_1_r. reflexivity.
  - change (2 ^ (8 * 3)) with (65536 * 256). rewrite Z.div_div by lia. reflexivity.
Qed.

Lemma load16_store16 m a v : load16 (store16 m a v) a = u16 v.
Proof.
  unfold load16. rewrite !load8_store16.
  destruct (Z.eqb_spec a a); [|lia]. destruct (Z.eqb_spec (a + 1) a); [lia|].
  destruct (Z.eqb_spec (a + 1) (a + 1)); [|lia]. c_mod.
Qed.

Lemma load8_store16_other m a b v : b < a \/ a + 2 <= b -> load8 (store16 m a v) b = load8 m b.
Proof.
  intros. rewrite load8_store16.
  destruct (Z.eqb_spec b a); [lia|]. destruct (Z.eqb_spec b (a + 1)); [lia|]. reflexivity.
Qed.

Lemma load8_store32_other m a b v : b < a \/ a + 4 <= b -> load8 (store32 m a v) b = load8 m b.
Proof.
  intros. rewrite load8_store32.
  destruct (Z.leb_spec a b), (Z.ltb_spec b (a + 4)); reflexivity || lia.
Qed.

Lemma load16_store16_other m a b v : b + 2 <= a \/ a + 2 <= b -> load16 (store16 m a v) b = load16 m b.
Proof. intros. unfold load16. rewrite !load8_store16_other by lia. reflexivity. Qed.
Lemma load16_store32_other m a b v : b + 2 <= a \/ a + 4 <= b -> load16 (store32 m a v) b = load16 m b.
Proof. intros. unfold load16. rewrite !load8_store32_other by lia. reflexivity. Qed.
Lemma load32_store16_other m a b v : b + 4 <= a \/ a + 2 <= b -> load32 (store16 m a v) b = load32 m b.
Proof. intros. unfold load32. rewrite !load16_store16_other by lia. reflexivity. Qed.
Lemma load32_store32_other m a b v : b + 4 <= a \/ a + 4 <= b -> load32 (store32 m a v) b = load32 m b.
Proof. intros. unfold load32. rewrite !load16_store32_other by lia. reflexivity. Qed.

Lemma load32_store32 m a v : load32 (store32 m a v) a = u32 v.
Proof.
  unfold load32, store32. rewrite load16_store16_other by lia. rewrite !load16_store16. c_mod.
Qed.

(** ** Equality byte by byte *)

Definition mem_eq (m m' : Memory) : Prop := forall a, load8 m a = load8 m' a.

#[export] Instance mem_eq_equiv : Equivalence mem_eq.
Proof.
  split.
  - intros m a. reflexivity.
  - intros m m' H a. symmetry. apply H.
  - intros m1 m2 m3 H1 H2 a. rewrite (H1 a). apply H2.
Qed.

#[export] Instance load8_proper : Proper (mem_eq ==> eq ==> eq) load8.
Proof. intros m m' H a ? <-. apply H. Qed.
#[export] Instance load16_proper : Proper (mem_eq ==> eq ==> eq) load16.
Proof. intros m m' H a ? <-. unfold load16. rewrite H. reflexivity. Qed.
#[export] Instance load32_proper : Proper (mem_eq ==> eq ==> eq) load32.
Proof. intros m m' H a ? <-. unfold load32. rewrite H. reflexivity. Qed.
#[export] Instance store8_proper : Proper (mem_eq ==> eq ==> eq ==> mem_eq) store8.
Proof. intros m m' H a ? <- v ? <- b. rewrite !load8_store8, (H b). reflexivity. Qed.
#[export] Instance store16_proper : Proper (mem_eq ==> eq ==> eq ==> mem_eq) store16.
Proof. intros m m' H a ? <- v ? <-. unfold store16. rewrite H. reflexivity. Qed.
#[export] Instance store32_proper : Proper (mem_eq ==> eq ==> eq ==> mem_eq) store32.
Proof. intros m m' H a ? <- v ? <-. unfold store32. rewrite H. reflexivity. Qed.

(** [same_on m m' lo hi]: the memories agree on the addresses [lo .. hi - 1]. *)
Definition same_on (m m' : Memory) (lo hi : Z) : Prop :=
  forall a, lo <= a < hi -> load8 m a = load8 m' a.

Lemma same_on_load16 m m' a : same_on m m' a (a + 2) -> load16 m a = load16 m' a.
Proof. intros H. unfold load16. rewrite !H by lia. reflexivity. Qed.
Lemma same_on_load32 m m' a : same_on m m' a (a + 4) -> load32 m a = load32 m' a.
Proof.
  intros H. unfold load32. rewrite (same_on_load16 m m' a), (same_on_load16 m m' (a + 2)); auto;
    intros b Hb; apply H; lia.
Qed.

(** ** Block operations *)

(** The bytes [a .. a + n - 1]. *)
Definition bytes_at (m : Memory) (a : Z) (n : nat) : list Z :=
  map (fun i => load8 m (a + Z.of_nat i)) (seq 0 n).

(** The memory after [n] bytes from [src] were copied to [dst], all of them read
    before any is written. *)
Definition mem_copy (m : Memory) (dst src n : Z) : Memory :=
  fun a => if (dst <=? a) && (a <? dst + n) then m (src + (a - dst)) else m a.

(** The memory after [n] bytes from [dst] were set to [c]. *)
Definition mem_fill (m : Memory) (dst c n : Z) : Memory :=
  fun a => if (dst <=? a) && (a <? dst + n) then c else m a.

Lemma load8_copy m dst src n a :
  load8 (mem_copy m dst src n) a =
  if (dst <=? a) && (a <? dst + n) then load8 m (src + (a - dst)) else load8 m a.
Proof. unfold load8, mem_copy. destruct (_ && _); reflexivity. Qed.
Lemma load8_fill m dst c n a :
  load8 (mem_fill m dst c n) a = if (dst <=? a) && (a <? dst + n) then u8 c else load8 m a.
Proof. unfold load8, mem_fill. destruct (_ && _); reflexivity. Qed.

Lemma copy_other m dst src n a : a < dst \/ dst + n <= a -> load8 (mem_copy m dst src n) a = load8 m a.
Proof.
  intros. rewrite load8_copy. destruct (Z.leb_spec dst a), (Z.ltb_spec a (dst + n)); reflexivity || lia.
Qed.
Lemma fill_other m dst c n a : a < dst \/ dst + n <= a -> load8 (mem_fill m dst c n) a = load8 m a.
Proof.
  intros. rewrite load8_fill. destruct (Z.leb_spec dst a), (Z.ltb_spec a (dst + n)); reflexivity || lia.
Qed.

#[export] Instance mem_copy_proper : Proper (mem_eq ==> eq ==> eq ==> eq ==> mem_eq) mem_copy.
Proof.
  intros m m' H d ? <- s ? <- n ? <- a. rewrite !load8_copy, !(H _). reflexivity.
Qed.

Lemma bytes_at_length m a n : length (bytes_at m a n) = n.
Proof. unfold bytes_at. rewrite length_map, length_seq. reflexivity. Qed.
Lemma bytes_at_ext m m' a a' n :
  (forall i, 0 <= i < Z.of_nat n -> load8 m (a + i) = load8 m' (a' + i)) ->
  bytes_at m a n = bytes_at m' a' n.
Proof.
  intros H. apply map_ext_in. intros i Hi. apply in_seq in Hi. apply H. lia.
Qed.
Lemma bytes_at_copy m dst src n :
  bytes_at (mem_copy m dst src (Z.of_nat n)) dst n = bytes_at m src n.
Proof.
  apply bytes_at_ext. intros i Hi. rewrite load8_copy.
  destruct (Z.leb_spec dst (dst + i)), (Z.ltb_spec (dst + i) (dst + Z.of_nat n)); try lia.
  cbn [andb]. f_equal. lia.
Qed.
Lemma bytes_at_app m a n k : bytes_at m a (n + k) = bytes_at m a n ++ bytes_at m (a + Z.of_nat n) k.
Proof.
  unfold bytes_at. rewrite seq_app, map_app. f_equal. cbn [plus].
  rewrite <- (Nat.add_0_r n) at 1. rewrite <- (fmap_add_seq n 0 k).
  change (Nat.add n <$> seq 0 k) with (map (Nat.add n) (seq 0 k)). rewrite map_map. apply map_ext. intros i. f_equal. lia.
Qed.
