(* ===== verification/Kservice.v ===== *)
(** * Kernel service library: memory and string functions (kservice.c)

    The functions as they are built with [RT_USING_TINY_SIZE] off: [rt_memset] and
    [rt_memcpy] with their word loops.  Pointers walk through the byte memory; a
    loop over a C string takes its fuel as an argument, because a string without
    terminator has no last byte.  The theorems compare every function with the
    block operation it stands for. *)

From S2P Require Import Prelude Memory.

(** ** rt_memset *)

Definition LBLOCKSIZE : Z := 4.

(** The state of the loops: memory, the pointer that advances, bytes left. *)
Record Fill := mk_fill { fl_mem : Memory; fl_ptr : Z; fl_count : Z }.

Definition set_byte (d : Z) (f : Fill) : Fill :=
  mk_fill (store8 (fl_mem f) (fl_ptr f) d) (fl_ptr f + 1) (fl_count f - 1).
Definition set_word (buffer : Z) (f : Fill) : Fill :=
  mk_fill (store32 (fl_mem f) (fl_ptr f) buffer) (fl_ptr f + LBLOCKSIZE) (fl_count f - LBLOCKSIZE).
Definition set_block (buffer : Z) (f : Fill) : Fill :=
  set_word buffer (set_word buffer (set_word buffer (set_word buffer f))).

Definition memset_words (f : Fill) (buffer : Z) : option Fill :=
  f ← while (S (Z.to_nat (fl_count f))) (fun f => LBLOCKSIZE * 4 <=? fl_count f) (set_block buffer) f;
  while (S (Z.to_nat (fl_count f))) (fun f => LBLOCKSIZE <=? fl_count f) (set_word buffer) f.

(** [rt_memset(s, c, count)]; the pointer it returns is [s]. *)
Definition rt_memset (m : Memory) (s c count : Z) : option Memory :=
  let d := Z.land c 255 in
  let f := mk_fill m s count in
  f ← (if negb (count <? LBLOCKSIZE) && (Z.land s (LBLOCKSIZE - 1) =? 0)
       then
         let buffer := Z.lor (Z.shiftl d 8) d in
         let buffer := Z.lor buffer (Z.shiftl buffer 16) in
         memset_words f buffer
       else Some f);
  fl_mem <$> while (S (Z.to_nat (fl_count f))) (fun f => negb (fl_count f =? 0)) (set_byte d) f.

(** ** rt_memcpy *)

Definition LITTLEBLOCKSIZE : Z := 4.
Definition BIGBLOCKSIZE : Z := 16.

Record Copy := mk_copy { cp_mem : Memory; cp_dst : Z; cp_src : Z; cp_len : Z }.

Definition copy_byte (f : Copy) : Copy :=
  mk_copy (store8 (cp_mem f) (cp_dst f) (load8 (cp_mem f) (cp_src f)))
          (cp_dst f + 1) (cp_src f + 1) (cp_len f - 1).
Definition copy_word (f : Copy) : Copy :=
  mk_copy (store32 (cp_mem f) (cp_dst f) (load32 (cp_mem f) (cp_src f)))
          (cp_dst f + LITTLEBLOCKSIZE) (cp_src f + LITTLEBLOCKSIZE) (cp_len f - LITTLEBLOCKSIZE).
Definition copy_block (f : Copy) : Copy := copy_word (copy_word (copy_word (copy_word f))).

Definition memcpy_words (f : Copy) : option Copy :=
  f ← while (S (Z.to_nat (cp_len f))) (fun f => BIGBLOCKSIZE <=? u32 (cp_len f)) copy_block f;
  while (S (Z.to_nat (cp_len f))) (fun f => LITTLEBLOCKSIZE <=? u32 (cp_len f)) copy_word f.

(** [rt_memcpy(dst, src, count)]: [len] is an [int], compared as unsigned with
    the block sizes. *)
Definition rt_memcpy (m : Memory) (dst src count : Z) : option Memory :=
  let len := s32 count in
  let f := mk_copy m dst src len in
  f ← (if negb (u32 len <? BIGBLOCKSIZE) &&
          (Z.lor (Z.land src (LITTLEBLOCKSIZE - 1)) (Z.land dst (LITTLEBLOCKSIZE - 1)) =? 0)
       then memcpy_words f else Some f);
  cp_mem <$> while (S (Z.to_nat (cp_len f))) (fun f => negb (cp_len f =? 0)) copy_byte f.

(** ** rt_memmove, rt_memcmp *)

(** The backward loop: [*(--tmp) = *(--s)]. *)
Definition copy_back (f : Copy) : Copy :=
  mk_copy (store8 (cp_mem f) (cp_dst f - 1) (load8 (cp_mem f) (cp_src f - 1)))
          (cp_dst f - 1) (cp_src f - 1) (cp_len f - 1).

Definition rt_memmove (m : Memory) (dest src n : Z) : option Memory :=
  let more f := negb (cp_len f =? 0) in
  if (src <? dest) && (dest <? src + n)
  then cp_mem <$> while (S (Z.to_nat n)) more copy_back (mk_copy m (dest + n) (src + n) n)
  else cp_mem <$> while (S (Z.to_nat n)) more copy_byte (mk_copy m dest src n).

(** [rt_memcmp]: structural in the count. *)
Fixpoint rt_memcmp (m : Memory) (cs ct : Z) (count : nat) : Z :=
  match count with
  | O => 0
  | S count =>
      let res := load8 m cs - load8 m ct in
      if negb (res =? 0) then res else rt_memcmp m (cs + 1) (ct + 1) count
  end.

(** ** Filling: the word loops write what the byte loop would *)

Section Fill.
Context (m0 : Memory) (s d count buffer : Z).
Hypothesis Hd : 0 <= d < 256.
Hypothesis Hbuf : buffer = d * 16843009.

(** The loops have filled the bytes before the pointer. *)
Definition filled (f : Fill) : Prop :=
  fl_ptr f = s + (count - fl_count f) /\ 0 <= fl_count f <= count /\
  mem_eq (fl_mem f) (mem_fill m0 s d (count - fl_count f)).

Lemma set_byte_filled f : filled f -> 0 < fl_count f -> filled (set_byte d f).
Proof.
  intros (Hp & Hc & Hm) Hpos. unfold filled; split_ands; cbn; try lia.
  intros a. rewrite load8_store8, load8_fill, (Hm a), load8_fill, Hp.
  bool_cases; try lia; reflexivity.
Qed.

Lemma word_byte j : 0 <= j < 4 -> u8 (buffer / 2 ^ (8 * j)) = u8 d.
Proof.
  intros Hj. rewrite Hbuf.
  assert (j = 0 \/ j = 1 \/ j = 2 \/ j = 3) as [->|[->|[->| ->]]] by lia;
    [change (2 ^ (8 * 0)) with 1 | change (2 ^ (8 * 1)) with 256
    | change (2 ^ (8 * 2)) with 65536 | change (2 ^ (8 * 3)) with 16777216]; c_mod.
Qed.

Lemma set_word_filled f : filled f -> LBLOCKSIZE <= fl_count f -> filled (set_word buffer f).
Proof.
  intros (Hp & Hc & Hm) Hpos. unfold LBLOCKSIZE in *. unfold filled; split_ands; cbn; unfold LBLOCKSIZE; try lia.
  intros a. rewrite load8_store32, load8_fill, (Hm a), load8_fill, Hp.
  destruct (Z.leb_spec (s + (count - fl_count f)) a) as [H1|H1],
    (Z.ltb_spec a (s + (count - fl_count f) + 4)) as [H2|H2]; cbn [andb].
  1: rewrite word_byte by lia.
  all: bool_cases; try lia; reflexivity.
Qed.

Lemma set_block_filled f : filled f -> LBLOCKSIZE * 4 <= fl_count f -> filled (set_block buffer f).
Proof.
  unfold LBLOCKSIZE. intros H Hpos. unfold set_block.
  repeat (apply set_word_filled; [|unfold LBLOCKSIZE; cbn; unfold LBLOCKSIZE; lia]). exact H.
Qed.

Lemma memset_words_filled f :
  filled f -> exists f', memset_words f buffer = Some f' /\ filled f'.
Proof.
  intros Hf. unfold memset_words.
  destruct (while_total filled fl_count (fun f => LBLOCKSIZE * 4 <=? fl_count f)
    (set_block buffer)) with (fuel := S (Z.to_nat (fl_count f))) (s := f) as (f1 & -> & H1 & _);
    [| assumption | lia | apply Hf |].
  { intros f1 H1 Hc%Z.leb_le. split; [apply set_block_filled; assumption|].
    unfold LBLOCKSIZE in Hc. cbn. unfold LBLOCKSIZE. lia. }
  cbn [mbind option_bind].
  destruct (while_total filled fl_count (fun f => LBLOCKSIZE <=? fl_count f)
    (set_word buffer)) with (fuel := S (Z.to_nat (fl_count f1))) (s := f1) as (f2 & -> & H2 & _);
    [| assumption | lia | apply H1 | eauto].
  intros f2 H2 Hc%Z.leb_le. split; [apply set_word_filled; assumption|].
  unfold LBLOCKSIZE in *. cbn. unfold LBLOCKSIZE. lia.
Qed.

Lemma memset_bytes_filled f :
  filled f ->
  exists m', fl_mem <$> while (S (Z.to_nat (fl_count f))) (fun f => negb (fl_count f =? 0)) (set_byte d) f
    = Some m' /\ mem_eq m' (mem_fill m0 s d count).
Proof.
  intros Hf.
  destruct (while_total filled fl_count (fun f => negb (fl_count f =? 0)) (set_byte d))
    with (fuel := S (Z.to_nat (fl_count f))) (s := f) as (f1 & -> & (Hp & Hc & Hm) & Hend);
    [| assumption | lia | apply Hf |].
  { intros f1 H1 Hc. destruct (Z.eqb_spec (fl_count f1) 0); [discriminate|].
    destruct H1 as (H1 & H2 & H3). split; [|cbn; lia].
    apply set_byte_filled; [repeat split|lia]; assumption || lia. }
  destruct (Z.eqb_spec (fl_count f1) 0) as [E|]; [|discriminate].
  exists (fl_mem f1). split; [reflexivity|]. rewrite E, Z.sub_0_r in Hm. exact Hm.
Qed.
End Fill.

(** The word the fill loop stores has the byte four times. *)
Lemma fill_word d : 0 <= d < 256 ->
  let b := Z.lor (Z.shiftl d 8) d in Z.lor b (Z.shiftl b 16) = d * 16843009.
Proof.
  intros Hd. cbv zeta.
  assert (E : forall n x y, 0 <= n -> 0 <= y < 2 ^ n -> Z.lor (Z.shiftl x n) y = x * 2 ^ n + y).
  { intros n x y Hn Hy. rewrite <- Z.shiftl_mul_pow2 by lia. symmetry. apply Z.add_nocarry_lor.
    apply Z.bits_inj'. intros i Hi. rewrite Z.land_spec, Z.bits_0, Z.shiftl_spec by lia.
    destruct (Z.lt_ge_cases i n); [rewrite Z.testbit_neg_r by lia; reflexivity|].
    rewrite <- (Z.mod_small y (2 ^ n)), Z.mod_pow2_bits_high by lia. apply andb_false_r. }
  rewrite (E 8 d d) by lia. change (2 ^ 8) with 256.
  rewrite Z.lor_comm, E by lia. change (2 ^ 16) with 65536. lia.
Qed.

Lemma rt_memset_spec m s c count :
  0 <= count ->
  exists m', rt_memset m s c count = Some m' /\ mem_eq m' (mem_fill m s c count).
Proof.
  intros Hcount. unfold rt_memset.
  assert (Hd : 0 <= Z.land c 255 < 256).
  { change 255 with (Z.ones 8). rewrite Z.land_ones by lia. apply Z.mod_pos_bound. lia. }
  assert (Hu : u8 (Z.land c 255) = u8 c).
  { change 255 with (Z.ones 8). rewrite Z.land_ones by lia. unfold u8. apply Z.mod_mod. lia. }
  assert (Hinit : filled m s (Z.land c 255) count (mk_fill m s count)).
  { unfold filled; split_ands; cbn; try lia. intros a. rewrite load8_fill, Z.sub_diag.
    bool_cases; reflexivity || lia. }
  assert (Hfill : mem_eq (mem_fill m s (Z.land c 255) count) (mem_fill m s c count)).
  { intros a. rewrite !load8_fill, Hu. reflexivity. }
  destruct (negb _ && _); cbn [mbind option_bind].
  - destruct (memset_words_filled m s (Z.land c 255) count _ Hd (fill_word _ Hd) _ Hinit)
      as (f1 & -> & H1). cbn [mbind option_bind].
    destruct (memset_bytes_filled m s (Z.land c 255) count f1 H1) as (m' & E & Hm').
    exists m'. split; [exact E|]. rewrite Hm'. exact Hfill.
  - destruct (memset_bytes_filled m s (Z.land c 255) count _ Hinit) as (m' & E & Hm').
    exists m'. split; [exact E|]. rewrite Hm'. exact Hfill.
Qed.

(** ** Copying: forward while nothing unread is overwritten *)

Section Copy.
Context (m0 : Memory) (dst src n : Z).
Hypothesis Hover : dst <= src \/ src + n <= dst.

(** [i] bytes are copied. *)
Definition copied (f : Copy) : Prop :=
  let i := n - cp_len f in
  cp_dst f = dst + i /\ cp_src f = src + i /\ 0 <= cp_len f <= n /\
  mem_eq (cp_mem f) (mem_copy m0 dst src i).

(** The bytes not copied yet are still those of the start. *)
Lemma copied_source f a :
  copied f -> cp_src f <= a < src + n -> load8 (cp_mem f) a = load8 m0 a.
Proof.
  intros (_ & Hs & Hl & Hm) Ha. rewrite (Hm a). apply copy_other. lia.
Qed.

Lemma copy_byte_copied f : copied f -> 0 < cp_len f -> copied (copy_byte f).
Proof.
  intros Hf Hpos. pose proof (copied_source f (cp_src f) Hf) as Hsrc.
  destruct Hf as (Hd & Hs & Hl & Hm). unfold copied; cbn. split_ands; try lia.
  intros a. rewrite load8_store8, load8_copy, Hsrc, (Hm a), load8_copy, Hd by lia.
  rewrite (u8_small (load8 _ _)) by apply load8_range.
  bool_cases; try lia; reflexivity || (f_equal; lia).
Qed.

Lemma load32_byte m a j :
  0 <= j < 4 -> u8 (load32 m a / 2 ^ (8 * j)) = load8 m (a + j).
Proof.
  intros Hj. unfold load32, load16. replace (a + 2 + 1) with (a + 3) by lia.
  pose proof (load8_range m a). pose proof (load8_range m (a + 1)).
  pose proof (load8_range m (a + 2)). pose proof (load8_range m (a + 3)).
  assert (j = 0 \/ j = 1 \/ j = 2 \/ j = 3) as [->|[->|[->| ->]]] by lia;
    [change (2 ^ (8 * 0)) with 1; rewrite Z.add_0_r | change (2 ^ (8 * 1)) with 256
    | change (2 ^ (8 * 2)) with 65536 | change (2 ^ (8 * 3)) with 16777216]; c_mod.
Qed.

Lemma copy_word_copied f : copied f -> LITTLEBLOCKSIZE <= cp_len f -> copied (copy_word f).
Proof.
  unfold LITTLEBLOCKSIZE. intros Hf Hpos.
  assert (Hsrc : forall j, 0 <= j < 4 -> load8 (cp_mem f) (cp_src f + j) = load8 m0 (cp_src f + j)).
  { intros j Hj. apply copied_source; [exact Hf|]. destruct Hf as (_ & Hs & Hl & _). lia. }
  destruct Hf as (Hd & Hs & Hl & Hm). unfold copied; cbn; unfold LITTLEBLOCKSIZE.
  split_ands; try lia.
  intros a. rewrite load8_store32, load8_copy, (Hm a), load8_copy, Hd.
  destruct (Z.leb_spec (dst + (n - cp_len f)) a) as [H1|H1],
    (Z.ltb_spec a (dst + (n - cp_len f) + 4)) as [H2|H2]; cbn [andb].
  1: rewrite load32_byte, Hsrc by lia.
  all: bool_cases; try lia; reflexivity || (f_equal; lia).
Qed.

Lemma copy_block_copied f : copied f -> BIGBLOCKSIZE <= cp_len f -> copied (copy_block f).
Proof.
  unfold BIGBLOCKSIZE. intros H Hpos. unfold copy_block.
  repeat (apply copy_word_copied; [|unfold LITTLEBLOCKSIZE; cbn; unfold LITTLEBLOCKSIZE; lia]).
  exact H.
Qed.

Hypothesis Hn : 0 <= n <= INT_MAX.

Lemma copied_len f : copied f -> u32 (cp_len f) = cp_len f.
Proof. intros (_ & _ & Hl & _). apply u32_small. unfold INT_MAX in Hn. lia. Qed.

Lemma memcpy_words_copied f :
  copied f -> exists f', memcpy_words f = Some f' /\ copied f'.
Proof.
  intros Hf. unfold memcpy_words.
  destruct (while_total copied cp_len (fun f => BIGBLOCKSIZE <=? u32 (cp_len f)) copy_block)
    with (fuel := S (Z.to_nat (cp_len f))) (s := f) as (f1 & -> & H1 & _);
    [| assumption | lia | apply Hf |].
  { intros f1 H1 Hc%Z.leb_le. rewrite copied_len in Hc by assumption.
    split; [apply copy_block_copied; assumption|].
    unfold BIGBLOCKSIZE in Hc. cbn. unfold LITTLEBLOCKSIZE. lia. }
  cbn [mbind option_bind].
  destruct (while_total copied cp_len (fun f => LITTLEBLOCKSIZE <=? u32 (cp_len f)) copy_word)
    with (fuel := S (Z.to_nat (cp_len f1))) (s := f1) as (f2 & -> & H2 & _);
    [| assumption | lia | apply H1 | eauto].
  intros f2 H2 Hc%Z.leb_le. rewrite copied_len in Hc by assumption.
  split; [apply copy_word_copied; assumption|].
  unfold LITTLEBLOCKSIZE in *. cbn. unfold LITTLEBLOCKSIZE. lia.
Qed.

Lemma memcpy_bytes_copied f :
  copied f ->
  exists m', cp_mem <$> while (S (Z.to_nat (cp_len f))) (fun f => negb (cp_len f =? 0)) copy_byte f
    = Some m' /\ mem_eq m' (mem_copy m0 dst src n).
Proof.
  intros Hf.
  destruct (while_total copied cp_len (fun f => negb (cp_len f =? 0)) copy_byte)
    with (fuel := S (Z.to_nat (cp_len f))) (s := f) as (f1 & -> & (_ & _ & Hc & Hm) & Hend);
    [| assumption | lia | apply Hf |].
  { intros f1 H1 Hc. destruct (Z.eqb_spec (cp_len f1) 0); [discriminate|].
    pose proof H1 as (_ & _ & H2 & _). split; [|cbn; lia].
    apply copy_byte_copied; [assumption|lia]. }
  destruct (Z.eqb_spec (cp_len f1) 0) as [E|]; [|discriminate].
  exists (cp_mem f1). split; [reflexivity|]. rewrite E, Z.sub_0_r in Hm. exact Hm.
Qed.

Lemma copied_init : copied (mk_copy m0 dst src n).
Proof.
  unfold copied; cbn. split_ands; try lia. intros a. rewrite load8_copy, Z.sub_diag.
  bool_cases; reflexivity || lia.
Qed.

Lemma rt_memcpy_spec :
  exists m', rt_memcpy m0 dst src n = Some m' /\ mem_eq m' (mem_copy m0 dst src n).
Proof.
  unfold rt_memcpy. rewrite s32_small by (unfold INT_MIN; lia).
  destruct (negb _ && _); cbn [mbind option_bind].
  - destruct (memcpy_words_copied _ copied_init) as (f1 & -> & H1). cbn [mbind option_bind].
    exact (memcpy_bytes_copied f1 H1).
  - exact (memcpy_bytes_copied _ copied_init).
Qed.
End Copy.

(** The backward loop has moved the bytes from the end. *)
Definition moved (m0 : Memory) (dst src n : Z) (f : Copy) : Prop :=
  cp_dst f = dst + cp_len f /\ cp_src f = src + cp_len f /\ 0 <= cp_len f <= n /\
  mem_eq (cp_mem f) (mem_copy m0 (dst + cp_len f) (src + cp_len f) (n - cp_len f)).

Lemma copy_back_moved m0 dst src n f :
  src < dst -> moved m0 dst src n f -> 0 < cp_len f -> moved m0 dst src n (copy_back f).
Proof.
  intros Hlt (Hd & Hs & Hl & Hm) Hpos. unfold moved; cbn. split_ands; try lia.
  assert (Hsrc : load8 (cp_mem f) (cp_src f - 1) = load8 m0 (cp_src f - 1)).
  { rewrite (Hm _), copy_other by lia. reflexivity. }
  intros a. rewrite load8_store8, load8_copy, Hsrc, (Hm a), load8_copy, Hd.
  rewrite (u8_small (load8 _ _)) by apply load8_range.
  bool_cases; try lia; reflexivity || (f_equal; lia).
Qed.

Lemma memmove_back m dst src n :
  src < dst -> 0 <= n ->
  exists m', cp_mem <$> while (S (Z.to_nat n)) (fun f => negb (cp_len f =? 0)) copy_back
      (mk_copy m (dst + n) (src + n) n) = Some m' /\ mem_eq m' (mem_copy m dst src n).
Proof.
  intros Hlt Hn.
  destruct (while_total (moved m dst src n) cp_len (fun f => negb (cp_len f =? 0)) copy_back)
    with (fuel := S (Z.to_nat n)) (s := mk_copy m (dst + n) (src + n) n)
    as (f1 & -> & (_ & _ & Hc & Hm) & Hend).
  - intros f1 H1 Hc. destruct (Z.eqb_spec (cp_len f1) 0); [discriminate|].
    pose proof H1 as (_ & _ & H2 & _). split; [|cbn; lia].
    apply copy_back_moved; auto; lia.
  - unfold moved; cbn. split_ands; try lia. intros a. rewrite load8_copy.
    bool_cases; reflexivity || lia.
  - cbn; lia.
  - exact Hn.
  - destruct (Z.eqb_spec (cp_len f1) 0) as [E|]; [|discriminate].
    exists (cp_mem f1). split; [reflexivity|].
    rewrite E, Z.sub_0_r, !Z.add_0_r in Hm. exact Hm.
Qed.

Lemma rt_memmove_spec m dst src n :
  0 <= n <= INT_MAX ->
  exists m', rt_memmove m dst src n = Some m' /\ mem_eq m' (mem_copy m dst src n).
Proof.
  intros Hn. unfold rt_memmove.
  destruct (Z.ltb_spec src dst), (Z.ltb_spec dst (src + n)); cbn [andb].
  1: apply memmove_back; lia.
  all: apply (memcpy_bytes_copied m dst src n) with (f := mk_copy m dst src n);
    [lia | apply copied_init; lia].
Qed.

(** Copying and setting memory, whatever the alignment and the size. *)
(** C28: [rt_memset], [rt_memcpy] and [rt_memmove] return, and leave exactly the
    memory of a copy that reads everything before it writes: word loops, byte
    loops and the backward loop make no difference, at any alignment; [rt_memcpy]
    needs that the destination does not start inside the source. *)
Theorem memory_functions_equivalent m dst src c n :
  0 <= n <= INT_MAX ->
  (exists m', rt_memset m dst c n = Some m' /\ mem_eq m' (mem_fill m dst c n)) /\
  (exists m', rt_memmove m dst src n = Some m' /\ mem_eq m' (mem_copy m dst src n)) /\
  (dst <= src \/ src + n <= dst ->
   exists m', rt_memcpy m dst src n = Some m' /\ mem_eq m' (mem_copy m dst src n)).
Proof.
  intros Hn. split_ands.
  - apply rt_memset_spec. lia.
  - apply rt_memmove_spec. exact Hn.
  - intros Hover. apply rt_memcpy_spec; assumption.
Qed.
Lemma memory_functions_equivalent_witness :
  (0 <= 37 <= INT_MAX /\ (1000 <= 1003 \/ 1003 + 37 <= 1000)) /\
  exists m', rt_memcpy (fun a => a) 1000 1003 37 = Some m' /\
             mem_eq m' (mem_copy (fun a => a) 1000 1003 37).
Proof.
  assert (Hn : 0 <= 37 <= INT_MAX) by (unfold INT_MAX; lia).
  split; [split; [exact Hn | left; lia]|].
  destruct (memory_functions_equivalent (fun a => a) 1000 1003 0 37 Hn) as (_ & _ & H).
  apply H. left. lia.
Defined.
