(* ===== verification/Blocks.v ===== *)
(** * Block lists: the abstract heap

    A heap as the list of its blocks in address order, each with the offset of its
    header, the offset of the next block and whether it is in use.  The operations
    are what an allocator promises: taking a block (with the rest split off),
    cutting one, and releasing one with the free neighbours merged; Mem.v proves
    that the linked headers in memory implement them. *)

From S2P Require Import Prelude.

Record block := Blk { off : Z; fin : Z; busy : bool }.
#[export] Instance block_eq_dec : EqDecision block.
Proof. solve_decision. Defined.

(** The size of a block header. *)
Definition HDR : Z := 12.
Definition room (b : block) : Z := fin b - (off b + HDR).

(** The blocks follow one another from [o] to [E], four-byte aligned, each with
    space for at least a word of data. *)
Fixpoint contiguous (o : Z) (bs : list block) (E : Z) : Prop :=
  match bs with
  | [] => o = E
  | b :: bs => off b = o /\ o + 16 <= fin b /\ fin b mod 4 = 0 /\ contiguous (fin b) bs E
  end.

(** Of two neighbours at least one is in use. *)
Fixpoint alternating (bs : list block) : Prop :=
  match bs with
  | b1 :: (b2 :: _) as bs => (busy b1 = true \/ busy b2 = true) /\ alternating bs
  | _ => True
  end.
Arguments alternating !bs /.

Definition total_used (bs : list block) : Z :=
  foldr (fun b n => if busy b then fin b - off b + n else n) 0 bs.

(** Neighbouring free blocks merged. *)
Fixpoint coalesce (bs : list block) : list block :=
  match bs with
  | [] => []
  | b :: bs =>
      match coalesce bs with
      | c :: cs => if busy b || busy c then b :: c :: cs else Blk (off b) (fin c) false :: cs
      | [] => [b]
      end
  end.

(** [on_block f o bs] replaces the block at offset [o]. *)
Definition on_block (f : block -> list block) (o : Z) (bs : list block) : list block :=
  flat_map (fun b => if off b =? o then f b else [b]) bs.

(** The block with [n] data bytes in use, and the rest free. *)
Definition cut (n : Z) (b : block) : list block :=
  [Blk (off b) (off b + HDR + n) true; Blk (off b + HDR + n) (fin b) false].
(** Taken for [n] bytes: cut only when the rest can hold twelve. *)
Definition taken (n : Z) (b : block) : list block :=
  if n + HDR + 12 <=? room b then cut n b else [Blk (off b) (fin b) true].
Definition cleared (b : block) : list block := [Blk (off b) (fin b) false].

Definition release (o : Z) (bs : list block) : list block := coalesce (on_block cleared o bs).
Definition shrink (n o : Z) (bs : list block) : list block := coalesce (on_block (cut n) o bs).

(** ** Contiguity *)

Lemma contiguous_le o bs E : contiguous o bs E -> o <= E.
Proof.
  revert o. induction bs as [|b bs IH]; intros o; [cbn; lia|].
  intros (_ & H & _ & Hr). specialize (IH _ Hr). lia.
Qed.

(** The end is determined by the list. *)
Lemma contiguous_fun o bs x y : contiguous o bs x -> contiguous o bs y -> x = y.
Proof.
  revert o. induction bs as [|c bs IH]; intros o; [cbn; congruence|].
  intros (_ & _ & _ & Hx) (_ & _ & _ & Hy). eauto.
Qed.

Lemma contiguous_app o l r E :
  contiguous o (l ++ r) E <-> exists mid, contiguous o l mid /\ contiguous mid r E.
Proof.
  revert o. induction l as [|b l IH]; intros o; cbn.
  - split; [eauto|]. intros (mid & -> & H). exact H.
  - rewrite IH. split.
    + intros (H1 & H2 & H3 & mid & H4 & H5). eauto 8.
    + intros (mid & (H1 & H2 & H3 & H4) & H5). eauto 8.
Qed.

Lemma contiguous_bounds o bs E b :
  contiguous o bs E -> b ∈ bs -> o <= off b /\ off b + 16 <= fin b /\ fin b <= E.
Proof.
  revert o. induction bs as [|c bs IH]; intros o; [intros _ H; inversion H|].
  intros (H1 & H2 & H3 & Hr) [-> | Hb]%list_elem_of_In.
  - pose proof (contiguous_le _ _ _ Hr). lia.
  - apply list_elem_of_In in Hb. destruct (IH _ Hr Hb) as (? & ? & ?). lia.
Qed.

(** A block of a contiguous list and its surroundings. *)
Lemma contiguous_mid o l b r E :
  contiguous o (l ++ b :: r) E <->
  contiguous o l (off b) /\ off b + 16 <= fin b /\ fin b mod 4 = 0 /\ contiguous (fin b) r E.
Proof.
  rewrite contiguous_app. split.
  - intros (mid & H1 & <- & H). tauto.
  - intros (H1 & H2 & H3 & H4). exists (off b). cbn. tauto.
Qed.

Lemma contiguous_aligned o bs E b :
  o mod 4 = 0 -> contiguous o bs E -> b ∈ bs -> off b mod 4 = 0 /\ fin b mod 4 = 0.
Proof.
  revert o. induction bs as [|c bs IH]; intros o Ho; [intros _ H; inversion H|].
  intros (H1 & H2 & H3 & Hr) [-> | Hb]%list_elem_of_In; [subst o; tauto|].
  apply list_elem_of_In in Hb. eauto.
Qed.

Lemma contiguous_end o bs E : o mod 4 = 0 -> contiguous o bs E -> E mod 4 = 0.
Proof.
  revert o. induction bs as [|c bs IH]; intros o Ho; [cbn; congruence|].
  intros (_ & _ & H3 & Hr). eauto.
Qed.

(** Two blocks of the list are the same or disjoint. *)
Lemma contiguous_disjoint o bs E b c :
  contiguous o bs E -> b ∈ bs -> c ∈ bs -> b = c \/ fin b <= off c \/ fin c <= off b.
Proof.
  intros H Hb Hc. apply list_elem_of_split in Hb as (l & r & ->).
  apply contiguous_mid in H as (Hl & _ & _ & Hr).
  apply elem_of_app in Hc as [Hc | Hc].
  - destruct (contiguous_bounds _ _ _ _ Hl Hc). lia.
  - apply elem_of_cons in Hc as [-> | Hc]; [auto|].
    destruct (contiguous_bounds _ _ _ _ Hr Hc). lia.
Qed.

Lemma contiguous_off_inj o bs E b c :
  contiguous o bs E -> b ∈ bs -> c ∈ bs -> off b = off c -> b = c.
Proof.
  intros H Hb Hc He.
  destruct (contiguous_disjoint _ _ _ _ _ H Hb Hc) as [|[]]; [assumption| |];
    pose proof (contiguous_bounds _ _ _ _ H Hb); pose proof (contiguous_bounds _ _ _ _ H Hc); lia.
Qed.

Lemma on_block_other f o bs : (forall b, b ∈ bs -> off b <> o) -> on_block f o bs = bs.
Proof.
  induction bs as [|b bs IH]; intros H; [reflexivity|]. cbn.
  destruct (Z.eqb_spec (off b) o) as [E|_]; [exfalso; apply (H b); [left|exact E]|].
  cbn. f_equal. apply IH. intros c Hc. apply H. right. exact Hc.
Qed.

Lemma on_block_app f o l r : on_block f o (l ++ r) = on_block f o l ++ on_block f o r.
Proof. apply flat_map_app. Qed.

(** Only the block at the offset is replaced. *)
Lemma on_block_mid f a l b r E :
  contiguous a (l ++ b :: r) E -> on_block f (off b) (l ++ b :: r) = l ++ f b ++ r.
Proof.
  intros (Hl & Hb & _ & Hr)%contiguous_mid. rewrite on_block_app. cbn. rewrite Z.eqb_refl.
  change (flat_map _ r) with (on_block f (off b) r).
  rewrite !on_block_other; [reflexivity | |]; intros c Hc.
  - pose proof (contiguous_bounds _ _ _ _ Hr Hc). lia.
  - pose proof (contiguous_bounds _ _ _ _ Hl Hc). lia.
Qed.

(** ** Merging *)

Lemma alternating_cons b bs :
  alternating (b :: bs) <->
  match bs with c :: _ => busy b = true \/ busy c = true | [] => True end /\ alternating bs.
Proof. destruct bs; cbn; tauto. Qed.

Lemma alternating_tail b bs : alternating (b :: bs) -> alternating bs.
Proof. rewrite alternating_cons. tauto. Qed.

Lemma alternating_app l b r :
  alternating (l ++ b :: r) <-> alternating (l ++ [b]) /\ alternating (b :: r).
Proof.
  induction l as [|c l IH].
  - cbn [app]. split; [|tauto]. intros H. split; [cbn; trivial | exact H].
  - change ((c :: l) ++ b :: r) with (c :: (l ++ b :: r)).
    change ((c :: l) ++ [b]) with (c :: (l ++ [b])).
    rewrite !(alternating_cons c), IH. destruct l; cbn [app]; tauto.
Qed.

(** Only whether a block is in use matters for its neighbours. *)
Lemma alternating_head b c r : busy b = busy c -> alternating (b :: r) -> alternating (c :: r).
Proof. rewrite !alternating_cons. intros ->. tauto. Qed.
Lemma alternating_last l b c : busy b = busy c -> alternating (l ++ [b]) -> alternating (l ++ [c]).
Proof.
  intros Hb. induction l as [|d l IH]; [cbn; tauto|].
  change ((d :: l) ++ [b]) with (d :: (l ++ [b])).
  change ((d :: l) ++ [c]) with (d :: (l ++ [c])).
  rewrite !alternating_cons. intros [H1 H2]. split; [|auto].
  destruct l; cbn [app] in *; [rewrite <- Hb|]; exact H1.
Qed.
Lemma alternating_busy l b r :
  busy b = true -> alternating l -> alternating r -> alternating (l ++ b :: r).
Proof.
  intros Hb Hl Hr. induction l as [|c l IH].
  - cbn [app]. apply alternating_cons. destruct r; auto.
  - cbn [app]. apply alternating_cons. split.
    + destruct l as [|d l]; cbn [app]; [auto|]. apply alternating_cons in Hl. tauto.
    + apply IH. eapply alternating_tail. exact Hl.
Qed.
Lemma alternating_app_l l r : alternating (l ++ r) -> alternating l.
Proof.
  induction l as [|b l IH]; [cbn; trivial|]. cbn [app]. rewrite !alternating_cons.
  intros [H1 H2]. split; [destruct l; auto|auto].
Qed.
Lemma alternating_app_r l r : alternating (l ++ r) -> alternating r.
Proof. induction l; [trivial|]. intros H%alternating_tail. auto. Qed.

Lemma coalesce_id bs : alternating bs -> coalesce bs = bs.
Proof.
  induction bs as [|b bs IH]; [reflexivity|]. rewrite alternating_cons. intros [H1 H2].
  cbn [coalesce]. rewrite (IH H2). destruct bs as [|c bs]; [reflexivity|].
  destruct H1 as [-> | ->]; [reflexivity|]. rewrite orb_true_r. reflexivity.
Qed.

Lemma coalesce_alternating bs : alternating (coalesce bs).
Proof.
  induction bs as [|b bs IH]; [exact I|]. cbn [coalesce].
  destruct (coalesce bs) as [|c cs]; [exact I|].
  destruct (busy b) eqn:Hb, (busy c) eqn:Hc; cbn [orb].
  1-3: apply alternating_cons; auto.
  eapply alternating_head; [|exact IH]. exact Hc.
Qed.

Lemma coalesce_app l r : coalesce (l ++ r) = coalesce (l ++ coalesce r).
Proof.
  induction l as [|b l IH]; cbn [app coalesce].
  - symmetry. apply coalesce_id, coalesce_alternating.
  - rewrite IH. reflexivity.
Qed.

Lemma coalesce_contiguous o bs E : contiguous o bs E -> contiguous o (coalesce bs) E.
Proof.
  revert o. induction bs as [|b bs IH]; intros o; [trivial|].
  intros (H1 & H2 & H3 & Hr). specialize (IH _ Hr). cbn [coalesce].
  destruct (coalesce bs) as [|c cs]; [cbn in *; tauto|].
  destruct (_ || _); cbn in *; [tauto|]. destruct IH as (E1 & E2 & E3 & E4). split_ands; auto; lia.
Qed.

Lemma coalesce_used bs : total_used (coalesce bs) = total_used bs.
Proof.
  induction bs as [|b bs IH]; [reflexivity|]. cbn [coalesce total_used foldr].
  unfold total_used in IH. rewrite <- IH. destruct (coalesce bs) as [|c cs]; [reflexivity|].
  destruct (busy b) eqn:Hb, (busy c) eqn:Hc; cbn; rewrite ?Hb, ?Hc; reflexivity.
Qed.

Lemma total_used_app l r : total_used (l ++ r) = total_used l + total_used r.
Proof.
  induction l as [|b l IH]; [reflexivity|]. cbn [app total_used foldr].
  unfold total_used in IH. rewrite IH. unfold total_used. destruct (busy b); lia.
Qed.

Lemma total_used_bounds o bs E : contiguous o bs E -> 0 <= total_used bs <= E - o.
Proof.
  revert o. induction bs as [|b bs IH]; intros o; [cbn; lia|].
  intros (H1 & H2 & _ & Hr). pose proof (IH _ Hr) as H. cbn [total_used foldr].
  unfold total_used in H. destruct (busy b); lia.
Qed.

(** A heap with all blocks free is one block. *)
Lemma all_free_single o bs E :
  contiguous o bs E -> alternating bs -> (forall b, b ∈ bs -> busy b = false) -> o < E ->
  bs = [Blk o E false].
Proof.
  intros Hc Ha Hfree Hlt. destruct bs as [|b [|c bs]]; [cbn in Hc; lia| |].
  - destruct b as [o' f bu]. cbn in Hc. destruct Hc as (<- & _ & _ & <-).
    specialize (Hfree (Blk o' f bu)). cbn in Hfree. rewrite Hfree by constructor. reflexivity.
  - exfalso. destruct Ha as [[H|H] _].
    + rewrite Hfree in H by repeat constructor. discriminate.
    + rewrite Hfree in H by repeat constructor. discriminate.
Qed.

(** ** Taking, cutting and clearing a block *)

Lemma cut_contiguous n b :
  off b mod 4 = 0 -> n mod 4 = 0 -> 4 <= n -> n + HDR + 4 <= room b -> fin b mod 4 = 0 ->
  contiguous (off b) (cut n b) (fin b).
Proof.
  unfold room, HDR. intros H1 H2 H3 H4 H5. cbn. unfold HDR.
  split_ands; try reflexivity; try lia. Z.div_mod_to_equations. lia.
Qed.

Lemma taken_contiguous n b :
  off b mod 4 = 0 -> n mod 4 = 0 -> 4 <= n <= room b -> fin b mod 4 = 0 ->
  contiguous (off b) (taken n b) (fin b).
Proof.
  intros H1 H2 H3 H4. unfold taken.
  destruct (Z.leb_spec (n + HDR + 12) (room b)).
  - apply cut_contiguous; auto; unfold HDR in *; lia.
  - cbn. unfold room, HDR in *. split_ands; auto; lia.
Qed.

(** The block taken: its offset, and where its space ends. *)
Definition taken_head (n : Z) (b : block) : block :=
  Blk (off b) (if n + HDR + 12 <=? room b then off b + HDR + n else fin b) true.

Lemma taken_cons n b : 0 <= n -> exists rest, taken n b = taken_head n b :: rest /\
  Forall (fun c => busy c = false /\ off b < off c /\ fin c = fin b) rest.
Proof.
  intros Hn. unfold taken, taken_head. destruct (Z.leb_spec (n + HDR + 12) (room b)).
  - exists [Blk (off b + HDR + n) (fin b) false]. split; [reflexivity|].
    constructor; [|constructor]. cbn. unfold HDR, room in *. split_ands; reflexivity || lia.
  - exists []. split; [reflexivity|constructor].
Qed.

(** A free block between busy neighbours is taken; the rest borders on a busy one. *)
Lemma taken_alternating l b r n :
  busy b = false -> alternating (l ++ b :: r) -> alternating (l ++ taken n b ++ r).
Proof.
  intros Hb H. pose proof (alternating_app_l _ _ H) as Hl.
  apply alternating_app_r in H. apply alternating_cons in H as [Hn Hr].
  assert (Hrest : forall x, alternating (Blk (off b + HDR + n) x false :: r)).
  { intros x. apply alternating_cons. split; [|exact Hr].
    destruct r; [exact I|]. destruct Hn; [congruence|auto]. }
  unfold taken. destruct (_ <=? _); cbn [app cut]; apply alternating_busy; auto.
Qed.

Lemma total_used_mid l mid r :
  total_used (l ++ mid ++ r) = total_used l + total_used mid + total_used r.
Proof. rewrite !total_used_app. lia. Qed.

Lemma taken_used n b :
  0 <= n -> total_used (taken n b) = fin (taken_head n b) - off b.
Proof.
  intros Hn. unfold taken, taken_head. destruct (_ <=? _); cbn; lia.
Qed.
