(* ===== verification/Mem.v ===== *)
(** * The heap (mem.c)

    The small memory allocator: the heap is a chain of blocks, each a 12-byte
    [struct heap_mem] (magic, used, next, prev; next and prev are offsets from
    [heap_ptr]) followed by its data, and a last header [heap_end] that is always
    in use.  The headers lie in the byte memory, next to the data of the clients,
    so a client that writes past its block would destroy them; the theorems show
    that one that does not cannot.

    A pointer is its address, [0] is [RT_NULL].  The semaphore [heap_sem] is taken
    with [RT_WAITING_FOREVER] and released around the part of each call that uses
    the chain: one call is one step here, except [rt_realloc], which releases the
    semaphore before it moves a block and is the composition of three. *)

From S2P Require Import Prelude Memory Kservice Blocks.

Definition HEAP_MAGIC : Z := 7840.  (* 0x1ea0 *)
Definition MIN_SIZE : Z := 12.
Definition MIN_SIZE_ALIGNED : Z := RT_ALIGN MIN_SIZE RT_ALIGN_SIZE.
Definition SIZEOF_STRUCT_MEM : Z := RT_ALIGN 12 RT_ALIGN_SIZE.

(** ** Block headers *)

Record heap_mem := mk_heap_mem {
  magic : Z;  (* rt_uint16_t *)
  used : Z;   (* rt_uint16_t *)
  next : Z;   (* rt_size_t *)
  prev : Z    (* rt_size_t *)
}.
#[export] Instance heap_mem_rebuild : Rebuild heap_mem :=
  fun r => mk_heap_mem (magic r) (used r) (next r) (prev r).

(** The header at address [a], and the stores into its fields. *)
Definition header (m : Memory) (a : Z) : heap_mem :=
  mk_heap_mem (load16 m a) (load16 m (a + 2)) (load32 m (a + 4)) (load32 m (a + 8)).
Definition set_magic (m : Memory) (a v : Z) : Memory := store16 m a v.
Definition set_used (m : Memory) (a v : Z) : Memory := store16 m (a + 2) v.
Definition set_next (m : Memory) (a v : Z) : Memory := store32 m (a + 4) v.
Definition set_prev (m : Memory) (a v : Z) : Memory := store32 m (a + 8) v.

(** ** The static variables, with the memory they point into *)

Record Heap := mk_heap {
  memory : Memory;
  heap_ptr : Z;
  heap_end : Z;
  lfree : Z;             (* pointer to the lowest free block *)
  mem_size_aligned : Z;  (* rt_size_t *)
  used_mem : Z;
  max_mem : Z
}.
#[export] Instance heap_rebuild : Rebuild Heap :=
  fun r => mk_heap (memory r) (heap_ptr r) (heap_end r) (lfree r) (mem_size_aligned r)
                   (used_mem r) (max_mem r).

Definition hdr (h : Heap) (a : Z) : heap_mem := header (memory h) a.
(** Stores into the header at [a]. *)
Definition put (h : Heap) (f : Memory -> Memory) : Heap := h <| memory := f (memory h) |>.
Definition put_magic (h : Heap) (a v : Z) : Heap := put h (fun m => set_magic m a v).
Definition put_used (h : Heap) (a v : Z) : Heap := put h (fun m => set_used m a v).
Definition put_next (h : Heap) (a v : Z) : Heap := put h (fun m => set_next m a v).
Definition put_prev (h : Heap) (a v : Z) : Heap := put h (fun m => set_prev m a v).
(** [&heap_ptr[o]] *)
Definition entry (h : Heap) (o : Z) : Z := heap_ptr h + o.

(** [used_mem += n], with the maximum. *)
Definition count_used (h : Heap) (n : Z) : Heap :=
  let h := h <| used_mem := u32 (used_mem h + n) |> in
  if max_mem h <? used_mem h then h <| max_mem := used_mem h |> else h.

Section Operations.
(** The nesting of interrupts when the call is made. *)
Context (rt_interrupt_nest : Z).

Definition plug_forward (h : Heap) (mem : Z) : Heap :=
  let nmem := entry h (next (hdr h mem)) in
  if negb (mem =? nmem) && (used (hdr h nmem) =? 0) && negb (nmem =? heap_end h) then
    let h := if lfree h =? nmem then h <| lfree := mem |> else h in
    let h := put_next h mem (next (hdr h nmem)) in
    put_prev h (entry h (next (hdr h nmem))) (u32 (mem - heap_ptr h))
  else h.

Definition plug_backward (h : Heap) (mem : Z) : Heap :=
  let pmem := entry h (prev (hdr h mem)) in
  if negb (pmem =? mem) && (used (hdr h pmem) =? 0) then
    let h := if lfree h =? mem then h <| lfree := pmem |> else h in
    let h := put_next h pmem (next (hdr h mem)) in
    put_prev h (entry h (next (hdr h mem))) (u32 (pmem - heap_ptr h))
  else h.

Definition plug_holes (h : Heap) (mem : Z) : option Heap :=
  if (heap_ptr h <=? mem) && (mem <? heap_end h) && (used (hdr h mem) =? 0)
  then Some (plug_backward (plug_forward h mem) mem)
  else None.

Definition rt_system_heap_init (h : Heap) (begin_addr end_addr : Z) : option Heap :=
  let begin_align := RT_ALIGN begin_addr RT_ALIGN_SIZE in
  let end_align := RT_ALIGN_DOWN end_addr RT_ALIGN_SIZE in
  if negb (rt_interrupt_nest =? 0) then None
  else if (2 * SIZEOF_STRUCT_MEM <? end_align) &&
          (begin_align <=? u32 (end_align - 2 * SIZEOF_STRUCT_MEM)) then
    let h := h <| mem_size_aligned := u32 (end_align - begin_align - 2 * SIZEOF_STRUCT_MEM) |> in
    let h := h <| heap_ptr := begin_align |> in
    let mem := heap_ptr h in
    let last := u32 (mem_size_aligned h + SIZEOF_STRUCT_MEM) in
    let h := put_magic h mem HEAP_MAGIC in
    let h := put_next h mem last in
    let h := put_prev h mem 0 in
    let h := put_used h mem 0 in
    let h := h <| heap_end := entry h (next (hdr h mem)) |> in
    let h := put_magic h (heap_end h) HEAP_MAGIC in
    let h := put_used h (heap_end h) 1 in
    let h := put_next h (heap_end h) last in
    let h := put_prev h (heap_end h) last in
    Some (h <| lfree := heap_ptr h |>)
  else Some h.

(** Enough for the loops over the chain: a block has more than one byte. *)
Definition chain_fuel (h : Heap) : nat := Z.to_nat (mem_size_aligned h) + 20.

(** The search loop of [rt_malloc]: at [ptr] it stops when the block fits or
    the remaining heap is too small. *)
Definition block_fits (h : Heap) (size ptr : Z) : bool :=
  let mem := entry h ptr in
  (used (hdr h mem) =? 0) && (size <=? u32 (next (hdr h mem) - u32 (ptr + SIZEOF_STRUCT_MEM))).

Definition malloc_search (h : Heap) (size : Z) : option Z :=
  while (chain_fuel h)
    (fun ptr => (ptr <? u32 (mem_size_aligned h - size)) && negb (block_fits h size ptr))
    (fun ptr => next (hdr h (entry h ptr)))
    (u32 (lfree h - heap_ptr h)).

(** The block at [ptr] is taken, and split when the rest can hold a block. *)
Definition malloc_take (h : Heap) (size ptr : Z) : Heap :=
  let mem := entry h ptr in
  if u32 (size + SIZEOF_STRUCT_MEM + MIN_SIZE_ALIGNED) <=?
     u32 (next (hdr h mem) - u32 (ptr + SIZEOF_STRUCT_MEM)) then
    let ptr2 := u32 (ptr + SIZEOF_STRUCT_MEM + size) in
    let mem2 := entry h ptr2 in
    let h := put_magic h mem2 HEAP_MAGIC in
    let h := put_used h mem2 0 in
    let h := put_next h mem2 (next (hdr h mem)) in
    let h := put_prev h mem2 ptr in
    let h := put_next h mem ptr2 in
    let h := put_used h mem 1 in
    let h := if negb (next (hdr h mem2) =? u32 (mem_size_aligned h + SIZEOF_STRUCT_MEM))
             then put_prev h (entry h (next (hdr h mem2))) ptr2
             else h in
    count_used h (u32 (size + SIZEOF_STRUCT_MEM))
  else
    let h := put_used h mem 1 in
    count_used h (u32 (next (hdr h mem) - (mem - heap_ptr h))).

(** [while (lfree->used && lfree != heap_end) lfree = &heap_ptr[lfree->next];] *)
Definition lfree_search (h : Heap) : option Z :=
  while (chain_fuel h)
    (fun p => negb (used (hdr h p) =? 0) && negb (p =? heap_end h))
    (fun p => entry h (next (hdr h p)))
    (lfree h).

Definition rt_malloc (h : Heap) (size : Z) : option (Heap * Z) :=
  if size =? 0 then Some (h, 0)
  else if negb (rt_interrupt_nest =? 0) then None
  else
    let size := RT_ALIGN size RT_ALIGN_SIZE in
    if mem_size_aligned h <? size then Some (h, 0)
    else
      let size := if size <? MIN_SIZE_ALIGNED then MIN_SIZE_ALIGNED else size in
      ptr ← malloc_search h size;
      if ptr <? u32 (mem_size_aligned h - size) then
        let mem := entry h ptr in
        let h := malloc_take h size ptr in
        let h := put_magic h mem HEAP_MAGIC in
        h ← (if mem =? lfree h then
               p ← lfree_search h;
               if (p =? heap_end h) || (used (hdr h p) =? 0) then Some (h <| lfree := p |>)
               else None
             else Some h);
        if (mem + SIZEOF_STRUCT_MEM + size <=? heap_end h) &&
           ((mem + SIZEOF_STRUCT_MEM) mod RT_ALIGN_SIZE =? 0) &&
           (Z.land mem (RT_ALIGN_SIZE - 1) =? 0)
        then Some (h, mem + SIZEOF_STRUCT_MEM)
        else None
      else Some (h, 0).

(** The block becomes free, before its neighbours are looked at. *)
Definition free_mark (h : Heap) (mem : Z) : Heap :=
  let h := put_used h mem 0 in
  let h := put_magic h mem HEAP_MAGIC in
  let h := if mem <? lfree h then h <| lfree := mem |> else h in
  h <| used_mem := u32 (used_mem h - u32 (next (hdr h mem) - (mem - heap_ptr h))) |>.

Definition rt_free (h : Heap) (rmem : Z) : option Heap :=
  if rmem =? 0 then Some h
  else if negb (rt_interrupt_nest =? 0) then None
  else if negb (Z.land rmem (RT_ALIGN_SIZE - 1) =? 0) then None
  else if negb ((heap_ptr h <=? rmem) && (rmem <? heap_end h)) then None
  else
    let mem := rmem - SIZEOF_STRUCT_MEM in
    if (used (hdr h mem) =? 0) || negb (magic (hdr h mem) =? HEAP_MAGIC) then None
    else
      plug_holes (free_mark h mem) mem.

(** The block at [mem] keeps [newsize] bytes, the rest becomes a free block. *)
Definition realloc_mark (h : Heap) (mem newsize : Z) : Heap :=
  let ptr := u32 (mem - heap_ptr h) in
  let size := u32 (next (hdr h mem) - ptr - SIZEOF_STRUCT_MEM) in
  let h := h <| used_mem := u32 (used_mem h - u32 (size - newsize)) |> in
  let ptr2 := u32 (ptr + SIZEOF_STRUCT_MEM + newsize) in
  let mem2 := entry h ptr2 in
  let h := put_magic h mem2 HEAP_MAGIC in
  let h := put_used h mem2 0 in
  let h := put_next h mem2 (next (hdr h mem)) in
  let h := put_prev h mem2 ptr in
  let h := put_next h mem ptr2 in
  if negb (next (hdr h mem2) =? u32 (mem_size_aligned h + SIZEOF_STRUCT_MEM))
  then put_prev h (entry h (next (hdr h mem2))) ptr2
  else h.

(** The part of [rt_realloc] that cuts a block in two under the semaphore. *)
Definition realloc_split (h : Heap) (mem newsize : Z) : option Heap :=
  let ptr2 := u32 (u32 (mem - heap_ptr h) + SIZEOF_STRUCT_MEM + newsize) in
  plug_holes (realloc_mark h mem newsize) (entry h ptr2).

Definition rt_realloc (h : Heap) (rmem newsize : Z) : option (Heap * Z) :=
  if negb (rt_interrupt_nest =? 0) then None
  else
    let newsize := RT_ALIGN newsize RT_ALIGN_SIZE in
    if mem_size_aligned h <? newsize then Some (h, 0)
    else if newsize =? 0 then h ← rt_free h rmem; Some (h, 0)
    else if rmem =? 0 then rt_malloc h newsize
    else if (rmem <? heap_ptr h) || (heap_end h <=? rmem) then Some (h, rmem)
    else
      let mem := rmem - SIZEOF_STRUCT_MEM in
      let ptr := u32 (mem - heap_ptr h) in
      let size := u32 (next (hdr h mem) - ptr - SIZEOF_STRUCT_MEM) in
      if size =? newsize then Some (h, rmem)
      else if u32 (newsize + SIZEOF_STRUCT_MEM + MIN_SIZE) <? size then
        h ← realloc_split h mem newsize;
        Some (h, rmem)
      else
        '(h, nmem) ← rt_malloc h newsize;
        if negb (nmem =? 0) then
          m ← rt_memcpy (memory h) nmem rmem (if size <? newsize then size else newsize);
          h ← rt_free (h <| memory := m |>) rmem;
          Some (h, nmem)
        else Some (h, nmem).

Definition rt_calloc (h : Heap) (count size : Z) : option (Heap * Z) :=
  '(h, p) ← rt_malloc h (u32 (count * size));
  if negb (p =? 0) then
    m ← rt_memset (memory h) p 0 (u32 (count * size));
    Some (h <| memory := m |>, p)
  else Some (h, p).
End Operations.

(** [rt_memory_info]: total, used and maximum. *)
Definition rt_memory_info (h : Heap) : Z * Z * Z := (mem_size_aligned h, used_mem h, max_mem h).

(** ** Headers after a store *)

Lemma header_range m a :
  0 <= used (header m a) < 65536 /\ 0 <= next (header m a) < 4294967296 /\
  0 <= prev (header m a) < 4294967296.
Proof. cbn. split_ands; apply load16_range || apply load32_range. Qed.

Lemma header_frame m m' a : same_on m m' a (a + 12) -> header m a = header m' a.
Proof.
  intros H. unfold header.
  f_equal; (apply same_on_load16 || apply same_on_load32); intros b Hb; apply H; lia.
Qed.

(** [a] and [b] are headers that do not overlap. *)
Definition apart (a b : Z) : Prop := a + 12 <= b \/ b + 12 <= a.

Lemma header_set_magic m a v : header (set_magic m a v) a = header m a <| magic := u16 v |>.
Proof.
  unfold header, set_magic, modify; cbn.
  rewrite load16_store16, !load32_store16_other, load16_store16_other by lia. reflexivity.
Qed.
Lemma header_set_used m a v : header (set_used m a v) a = header m a <| used := u16 v |>.
Proof.
  unfold header, set_used, modify; cbn.
  rewrite load16_store16, !load32_store16_other, load16_store16_other by lia. reflexivity.
Qed.
Lemma header_set_next m a v : header (set_next m a v) a = header m a <| next := u32 v |>.
Proof.
  unfold header, set_next, modify; cbn.
  rewrite load32_store32, !load16_store32_other, load32_store32_other by lia. reflexivity.
Qed.
Lemma header_set_prev m a v : header (set_prev m a v) a = header m a <| prev := u32 v |>.
Proof.
  unfold header, set_prev, modify; cbn.
  rewrite load32_store32, !load16_store32_other, load32_store32_other by lia. reflexivity.
Qed.

Lemma header_set_magic_other m a b v : apart a b -> header (set_magic m a v) b = header m b.
Proof. intros H. apply header_frame. intros c Hc. apply load8_store16_other. unfold apart in H. lia. Qed.
Lemma header_set_used_other m a b v : apart a b -> header (set_used m a v) b = header m b.
Proof. intros H. apply header_frame. intros c Hc. apply load8_store16_other. unfold apart in H. lia. Qed.
Lemma header_set_next_other m a b v : apart a b -> header (set_next m a v) b = header m b.
Proof. intros H. apply header_frame. intros c Hc. apply load8_store32_other. unfold apart in H. lia. Qed.
Lemma header_set_prev_other m a b v : apart a b -> header (set_prev m a v) b = header m b.
Proof. intros H. apply header_frame. intros c Hc. apply load8_store32_other. unfold apart in H. lia. Qed.

(** The stores change no byte outside their field. *)
Lemma set_magic_data m a v b : b < a \/ a + 2 <= b -> load8 (set_magic m a v) b = load8 m b.
Proof. intros. apply load8_store16_other. lia. Qed.
Lemma set_used_data m a v b : b < a + 2 \/ a + 4 <= b -> load8 (set_used m a v) b = load8 m b.
Proof. intros. apply load8_store16_other. lia. Qed.
Lemma set_next_data m a v b : b < a + 4 \/ a + 8 <= b -> load8 (set_next m a v) b = load8 m b.
Proof. intros. apply load8_store32_other. lia. Qed.
Lemma set_prev_data m a v b : b < a + 8 \/ a + 12 <= b -> load8 (set_prev m a v) b = load8 m b.
Proof. intros. apply load8_store32_other. lia. Qed.

#[global] Arguments header : simpl never.
#[global] Arguments hdr : simpl never.
#[global] Arguments put : simpl never.

(** A store changes the memory only. *)
Lemma memory_put h f : memory (put h f) = f (memory h). Proof. reflexivity. Qed.
Lemma heap_ptr_put h f : heap_ptr (put h f) = heap_ptr h. Proof. reflexivity. Qed.
Lemma heap_end_put h f : heap_end (put h f) = heap_end h. Proof. reflexivity. Qed.
Lemma lfree_put h f : lfree (put h f) = lfree h. Proof. reflexivity. Qed.
Lemma size_put h f : mem_size_aligned (put h f) = mem_size_aligned h. Proof. reflexivity. Qed.
Lemma used_mem_put h f : used_mem (put h f) = used_mem h. Proof. reflexivity. Qed.
Lemma max_mem_put h f : max_mem (put h f) = max_mem h. Proof. reflexivity. Qed.

(** [fields] evaluates the fields of a heap after stores. *)
Ltac fields :=
  unfold put_magic, put_used, put_next, put_prev, entry, hdr;
  repeat rewrite ?memory_put, ?heap_ptr_put, ?heap_end_put, ?lfree_put, ?size_put, ?used_mem_put, ?max_mem_put;
  cbv beta.

(** ** The chain of headers represents a block list *)

Definition expected (p : Z) (b : block) : heap_mem :=
  mk_heap_mem HEAP_MAGIC (Z.b2z (busy b)) (fin b) p.

(** The headers of [bs], the first with previous block [p]. *)
Fixpoint laid_out (m : Memory) (base p : Z) (bs : list block) : Prop :=
  match bs with
  | [] => True
  | b :: bs => header m (base + off b) = expected p b /\ laid_out m base (off b) bs
  end.

(** The header before the place where [bs] ends. *)
Definition last_off (p : Z) (bs : list block) : Z := List.last (map off bs) p.

Lemma last_off_snoc p l b : last_off p (l ++ [b]) = off b.
Proof. unfold last_off. rewrite map_app. apply last_last. Qed.

Lemma last_off_cons p b l : last_off p (b :: l) = last_off (off b) l.
Proof.
  unfold last_off. cbn [map]. generalize (map off l) (off b). clear.
  intros l o. revert o p. induction l as [|x l IH]; intros o p; [reflexivity|].
  change (List.last (x :: l) p = List.last (x :: l) o). destruct l; [reflexivity|].
  cbn [List.last] in *. rewrite (IH x p), (IH x o). reflexivity.
Qed.

Lemma laid_out_app m base p l r :
  laid_out m base p (l ++ r) <-> laid_out m base p l /\ laid_out m base (last_off p l) r.
Proof.
  revert p. induction l as [|b l IH]; intros p.
  - cbn. tauto.
  - cbn [app laid_out]. rewrite IH, last_off_cons. tauto.
Qed.

Lemma laid_out_mid m base p l b r :
  laid_out m base p (l ++ b :: r) <->
  laid_out m base p l /\ header m (base + off b) = expected (last_off p l) b /\
  laid_out m base (off b) r.
Proof. rewrite laid_out_app. cbn. tauto. Qed.

Lemma laid_out_frame m m' base p bs :
  (forall b, b ∈ bs -> header m' (base + off b) = header m (base + off b)) ->
  laid_out m base p bs -> laid_out m' base p bs.
Proof.
  revert p. induction bs as [|b bs IH]; intros p H; [trivial|]. cbn.
  rewrite (H b) by constructor. intros [H1 H2]. split; [exact H1|].
  apply IH; [|exact H2]. intros c Hc. apply H. constructor. exact Hc.
Qed.

Lemma laid_out_lookup m base p bs b :
  laid_out m base p bs -> b ∈ bs ->
  magic (header m (base + off b)) = HEAP_MAGIC /\
  used (header m (base + off b)) = Z.b2z (busy b) /\ next (header m (base + off b)) = fin b.
Proof.
  revert p. induction bs as [|c bs IH]; intros p; [intros _ H; inversion H|].
  intros [H1 H2] Hb. apply elem_of_cons in Hb as [-> | Hb]; [|eauto].
  rewrite H1. auto.
Qed.

(** The statics and the memory hold the blocks [bs]. *)
Record shape (h : Heap) (bs : list block) : Prop := {
  sh_ptr : 0 < heap_ptr h;
  sh_aligned : heap_ptr h mod 4 = 0;
  sh_min : 12 <= mem_size_aligned h;
  sh_space : heap_ptr h + mem_size_aligned h + 24 <= 4294967296;
  sh_end : heap_end h = heap_ptr h + (mem_size_aligned h + HDR);
  sh_last : used (hdr h (heap_end h)) = 1 /\ next (hdr h (heap_end h)) = mem_size_aligned h + HDR;
  sh_blocks : contiguous 0 bs (mem_size_aligned h + HDR);
  sh_headers : laid_out (memory h) (heap_ptr h) 0 bs
}.

(** The data of the blocks in use are the same in both memories. *)
Definition keeps (base : Z) (bs : list block) (m m' : Memory) : Prop :=
  forall b, b ∈ bs -> busy b = true -> same_on m m' (base + off b + HDR) (base + fin b).

Lemma keeps_trans base bs m1 m2 m3 : keeps base bs m1 m2 -> keeps base bs m2 m3 -> keeps base bs m1 m3.
Proof. intros H1 H2 b Hb Hu a Ha. rewrite (H1 b Hb Hu a Ha). apply (H2 b Hb Hu a Ha). Qed.
Lemma keeps_mono base bs bs' m m' :
  (forall b, b ∈ bs' -> busy b = true -> b ∈ bs) -> keeps base bs m m' -> keeps base bs' m m'.
Proof. intros Hs H b Hb Hu. auto. Qed.
Lemma keeps_app base l r m m' : keeps base l m m' -> keeps base r m m' -> keeps base (l ++ r) m m'.
Proof. intros H1 H2 b [Hb|Hb]%elem_of_app; auto. Qed.
Lemma keeps_free base bs m m' : (forall b, b ∈ bs -> busy b = false) -> keeps base bs m m'.
Proof. intros H b Hb Hu. rewrite H in Hu by assumption. discriminate. Qed.

(** The blocks of the middle are replaced: the memory changes between [o] and [o']
    and in the [prev] field of the header that follows. *)
Lemma shape_edit h h' l mid mid' r o o' :
  shape h (l ++ mid ++ r) ->
  heap_ptr h' = heap_ptr h -> heap_end h' = heap_end h -> mem_size_aligned h' = mem_size_aligned h ->
  contiguous 0 l o -> contiguous o mid o' -> contiguous o mid' o' ->
  (forall a, a < heap_ptr h + o \/ heap_ptr h + o' <= a ->
     a < heap_ptr h + o' + 8 \/ heap_ptr h + o' + 12 <= a -> load8 (memory h) a = load8 (memory h') a) ->
  laid_out (memory h') (heap_ptr h) (last_off 0 l) mid' ->
  (r = [] \/ prev (hdr h' (heap_ptr h + o')) = last_off (last_off 0 l) mid') ->
  keeps (heap_ptr h) mid' (memory h) (memory h') ->
  shape h' (l ++ mid' ++ r) /\ keeps (heap_ptr h) (l ++ mid' ++ r) (memory h) (memory h').
Proof.
  intros Hs Eptr Eend Esize Hl Hm Hm' Hout Hlaid Hprev Hkeep.
  destruct Hs as [H1 H2 H3 H4 H5 H6 Hb Hh]. set (base := heap_ptr h) in *.
  set (E := mem_size_aligned h + HDR) in *.
  apply laid_out_app in Hh as [Hhl Hh]. apply laid_out_app in Hh as [Hhm Hhr].
  assert (Hr : contiguous o' r E).
  { apply contiguous_app in Hb as (o1 & Hl1 & Hb). apply contiguous_app in Hb as (o2 & Hm1 & Hb).
    rewrite (contiguous_fun _ _ _ _ Hl1 Hl) in Hm1.
    rewrite (contiguous_fun _ _ _ _ Hm1 Hm) in Hb. exact Hb. }
  pose proof (contiguous_le _ _ _ Hl). pose proof (contiguous_le _ _ _ Hm).
  pose proof (contiguous_le _ _ _ Hr).
  (* bytes of a header that is not the one after the middle *)
  assert (Hfar : forall x, x + 12 <= o \/ o' + 12 <= x -> header (memory h') (base + x) = header (memory h) (base + x)).
  { intros x Hx. symmetry. apply header_frame. intros a Ha. apply Hout; lia. }
  assert (Hnear : header (memory h') (base + o') = header (memory h) (base + o')
                    <| prev := prev (hdr h' (base + o')) |>).
  { unfold hdr, header, modify; cbn.
    f_equal; [apply same_on_load16|apply same_on_load16|apply same_on_load32];
      intros a Ha; symmetry; apply Hout; lia. }
  split.
  - split; rewrite ?Eptr, ?Eend, ?Esize; auto.
    + unfold hdr. rewrite H5. destruct (Z.eq_dec E o') as [Heq|Hne].
      * rewrite Heq, Hnear. cbn. rewrite <- Heq, <- H5. exact H6.
      * assert (o' + 16 <= E).
        { destruct r as [|c r]; [cbn in Hr; congruence|]. destruct Hr as (_ & Hc & _ & Hr).
          pose proof (contiguous_le _ _ _ Hr). lia. }
        rewrite Hfar by lia. rewrite <- H5. exact H6.
    + apply contiguous_app. exists o. split; [exact Hl|]. apply contiguous_app. eauto.
    + apply laid_out_app. split.
      { eapply laid_out_frame; [|exact Hhl]. intros b Hbl. apply Hfar.
        pose proof (contiguous_bounds _ _ _ _ Hl Hbl). lia. }
      apply laid_out_app. split; [exact Hlaid|].
      destruct r as [|c r]; [exact I|]. destruct Hprev as [?|Hprev]; [discriminate|].
      destruct Hr as (Eo & Hc & _ & Hr). destruct Hhr as [Hh1 Hh2]. cbn [laid_out].
      rewrite Eo, Hnear. split.
      { rewrite Hprev, <- Eo, Hh1. reflexivity. }
      eapply laid_out_frame; [|rewrite Eo in Hh2; exact Hh2]. intros b Hbr. apply Hfar.
      pose proof (contiguous_bounds _ _ _ _ Hr Hbr). lia.
  - apply keeps_app; [|apply keeps_app; [exact Hkeep|]]; intros b Hbi Hu a Ha; apply Hout.
    1-2: pose proof (contiguous_bounds _ _ _ _ Hl Hbi); unfold HDR in Ha; lia.
    1-2: pose proof (contiguous_bounds _ _ _ _ Hr Hbi); unfold HDR in Ha; lia.
Qed.

(** ** Reading the chain *)

Lemma shape_bounds h bs b :
  shape h bs -> b ∈ bs ->
  0 <= off b /\ off b + 16 <= fin b /\ fin b <= mem_size_aligned h + HDR /\
  off b mod 4 = 0 /\ fin b mod 4 = 0.
Proof.
  intros Hs Hb. pose proof (contiguous_bounds _ _ _ _ (sh_blocks _ _ Hs) Hb).
  pose proof (contiguous_aligned 0 _ _ _ eq_refl (sh_blocks _ _ Hs) Hb). tauto.
Qed.

Lemma shape_header h l b r :
  shape h (l ++ b :: r) -> hdr h (heap_ptr h + off b) = expected (last_off 0 l) b.
Proof. intros Hs. pose proof (sh_headers _ _ Hs) as H. apply laid_out_mid in H. apply H. Qed.

Lemma shape_lookup h bs b :
  shape h bs -> b ∈ bs ->
  magic (hdr h (heap_ptr h + off b)) = HEAP_MAGIC /\
  used (hdr h (heap_ptr h + off b)) = Z.b2z (busy b) /\ next (hdr h (heap_ptr h + off b)) = fin b.
Proof. intros Hs Hb. eapply laid_out_lookup; [apply (sh_headers _ _ Hs)|exact Hb]. Qed.

(** The address after a block is the next header or [heap_end]. *)
Lemma shape_next h l b r :
  shape h (l ++ b :: r) ->
  match r with
  | n :: _ => off n = fin b /\ hdr h (heap_ptr h + fin b) = expected (off b) n
  | [] => heap_ptr h + fin b = heap_end h
  end.
Proof.
  intros Hs. pose proof (sh_blocks _ _ Hs) as Hc. apply contiguous_mid in Hc as (_ & _ & _ & Hr).
  destruct r as [|n r].
  - cbn in Hr. rewrite Hr. symmetry. apply (sh_end _ _ Hs).
  - destruct Hr as (E & _). split; [exact E|]. rewrite <- E.
    pose proof (sh_headers _ _ Hs) as Hh. apply laid_out_mid in Hh as (_ & _ & Hh & _). exact Hh.
Qed.

Lemma elem_mid {A} (l : list A) b r : b ∈ l ++ b :: r.
Proof. apply elem_of_app. right. left. Qed.

(** [hdrs] evaluates headers after stores into other headers. *)
Ltac hdrs :=
  repeat first
    [ rewrite header_set_magic | rewrite header_set_used
    | rewrite header_set_next | rewrite header_set_prev
    | rewrite header_set_magic_other by (unfold apart, HDR in *; lia)
    | rewrite header_set_used_other by (unfold apart, HDR in *; lia)
    | rewrite header_set_next_other by (unfold apart, HDR in *; lia)
    | rewrite header_set_prev_other by (unfold apart, HDR in *; lia) ].
(** [datas] drops the stores that do not touch the address. *)
Ltac datas :=
  repeat first
    [ rewrite set_magic_data by (unfold HDR in *; lia)
    | rewrite set_used_data by (unfold HDR in *; lia)
    | rewrite set_next_data by (unfold HDR in *; lia)
    | rewrite set_prev_data by (unfold HDR in *; lia) ].

(** [hfields] evaluates the fields of a header. *)
Ltac hfields := unfold modify; cbn [magic used next prev expected rebuild heap_mem_rebuild].
(** ... and [statics] those of a heap, after an update of a static variable. *)
Ltac statics :=
  unfold modify;
  cbn [memory heap_ptr heap_end lfree mem_size_aligned used_mem max_mem rebuild heap_rebuild].

(** ** plug_holes *)

(** What a step of [plug_holes] leaves alone. *)
Definition same_stats (h h' : Heap) : Prop :=
  heap_ptr h' = heap_ptr h /\ heap_end h' = heap_end h /\
  mem_size_aligned h' = mem_size_aligned h /\ used_mem h' = used_mem h /\ max_mem h' = max_mem h.

Lemma plug_forward_none h l b r :
  shape h (l ++ b :: r) -> match r with n :: _ => busy n = true | [] => True end ->
  plug_forward h (heap_ptr h + off b) = h.
Proof.
  intros Hs Hn. unfold plug_forward, entry.
  rewrite (shape_header _ _ _ _ Hs). cbn [next expected].
  pose proof (shape_next _ _ _ _ Hs) as Hnext. destruct r as [|n r].
  - rewrite Hnext, Z.eqb_refl. cbn [negb]. rewrite andb_false_r. reflexivity.
  - destruct Hnext as [_ ->]. cbn [used expected]. rewrite Hn. cbn.
    rewrite andb_false_r. reflexivity.
Qed.

Lemma plug_forward_merge h l b n r :
  shape h (l ++ b :: n :: r) -> busy b = false -> busy n = false ->
  let h' := plug_forward h (heap_ptr h + off b) in
  let bs := l ++ Blk (off b) (fin n) false :: r in
  shape h' bs /\ keeps (heap_ptr h) bs (memory h) (memory h') /\ same_stats h h' /\
  lfree h' = if lfree h =? heap_ptr h + off n then heap_ptr h + off b else lfree h.
Proof.
  intros Hs Hb Hn. cbv zeta.
  pose proof (shape_header _ _ _ _ Hs) as Hh. pose proof (shape_next _ _ _ _ Hs) as [En Hnext].
  assert (Hn_in : n ∈ l ++ b :: n :: r) by (apply elem_of_app; right; right; left).
  pose proof (shape_bounds _ _ _ Hs (elem_mid _ _ _)) as Bb.
  pose proof (shape_bounds _ _ _ Hs Hn_in) as Bn.
  pose proof (sh_ptr _ _ Hs). pose proof (sh_space _ _ Hs). pose proof (sh_end _ _ Hs).
  set (h' := plug_forward h (heap_ptr h + off b)).
  assert (Hm : memory h' = set_prev (set_next (memory h) (heap_ptr h + off b) (fin n))
                             (heap_ptr h + fin n) (off b) /\
          same_stats h h' /\
          lfree h' = if lfree h =? heap_ptr h + off n then heap_ptr h + off b else lfree h).
  { unfold h', plug_forward, entry. rewrite Hh. cbn [next expected]. rewrite Hnext.
    cbn [used expected]. rewrite Hn, En. cbn [Z.b2z].
    replace (heap_ptr h + off b =? heap_ptr h + fin b) with false by (symmetry; apply Z.eqb_neq; lia).
    replace (heap_ptr h + fin b =? heap_end h) with false by (symmetry; apply Z.eqb_neq; lia).
    cbn [negb andb Z.eqb].
    unfold hdr in Hnext.
    destruct (lfree h =? heap_ptr h + fin b); fields; statics;
      hdrs; rewrite Hnext; cbn [next expected];
      replace (heap_ptr h + off b - heap_ptr h) with (off b) by lia;
      rewrite (u32_small (off b)) by (unfold HDR in *; lia);
      repeat split; reflexivity. }
  clearbody h'. destruct Hm as (Hm & (E1 & E2 & E3 & E4 & E5) & Hl).
  change (l ++ b :: n :: r) with (l ++ [b; n] ++ r) in Hs.
  change (l ++ Blk (off b) (fin n) false :: r) with (l ++ [Blk (off b) (fin n) false] ++ r).
  pose proof (sh_blocks _ _ Hs) as Hc. apply contiguous_mid in Hc as (Hcl & _ & _ & Hcr).
  destruct Hcr as (_ & _ & _ & Hcr).
  destruct (shape_edit h h' l [b; n] [Blk (off b) (fin n) false] r (off b) (fin n) Hs)
    as [Hs' Hk]; auto.
  - cbn. split_ands; reflexivity || lia.
  - cbn. split_ands; reflexivity || lia.
  - intros a Ha1 Ha2. rewrite Hm. datas. reflexivity.
  - cbn [laid_out off]. split; [|exact I]. rewrite Hm. hdrs. unfold hdr in Hh. rewrite Hh.
    unfold modify, expected; cbn. rewrite Hb, u32_small by (unfold HDR in *; lia). reflexivity.
  - right. unfold hdr. rewrite Hm. hdrs. cbn. rewrite u32_small by (unfold HDR in *; lia).
    reflexivity.
  - apply keeps_free. intros c Hc. apply list_elem_of_singleton in Hc as ->. reflexivity.
  - repeat split; auto. all: apply Hs'.
Qed.

Lemma plug_backward_none h l b r :
  shape h (l ++ b :: r) -> (l = [] -> off b = 0) ->
  match rev l with q :: _ => busy q = true | [] => True end ->
  plug_backward h (heap_ptr h + off b) = h.
Proof.
  intros Hs H0 Hq. unfold plug_backward, entry.
  rewrite (shape_header _ _ _ _ Hs). cbn [prev expected].
  induction l as [|q l _] using rev_ind.
  - cbn. rewrite (H0 eq_refl), Z.eqb_refl. reflexivity.
  - rewrite last_off_snoc. rewrite rev_app_distr in Hq. cbn in Hq. rewrite <- app_assoc in Hs.
    destruct (shape_lookup _ _ q Hs (elem_mid _ _ _)) as (_ & -> & _).
    rewrite Hq. cbn. rewrite andb_false_r. reflexivity.
Qed.

Lemma plug_backward_merge h l q b r :
  shape h (l ++ q :: b :: r) -> busy b = false -> busy q = false ->
  let h' := plug_backward h (heap_ptr h + off b) in
  let bs := l ++ Blk (off q) (fin b) false :: r in
  shape h' bs /\ keeps (heap_ptr h) bs (memory h) (memory h') /\ same_stats h h' /\
  lfree h' = if lfree h =? heap_ptr h + off b then heap_ptr h + off q else lfree h.
Proof.
  intros Hs Hb Hq. cbv zeta.
  pose proof (shape_header _ _ _ _ Hs) as Hhq. pose proof (shape_next _ _ _ _ Hs) as [En Hh].
  assert (Hb_in : b ∈ l ++ q :: b :: r) by (apply elem_of_app; right; right; left).
  pose proof (shape_bounds _ _ _ Hs (elem_mid _ _ _)) as Bq.
  pose proof (shape_bounds _ _ _ Hs Hb_in) as Bb.
  pose proof (sh_ptr _ _ Hs). pose proof (sh_space _ _ Hs). pose proof (sh_end _ _ Hs).
  set (h' := plug_backward h (heap_ptr h + off b)).
  assert (Hm : memory h' = set_prev (set_next (memory h) (heap_ptr h + off q) (fin b))
                             (heap_ptr h + fin b) (off q) /\
          same_stats h h' /\
          lfree h' = if lfree h =? heap_ptr h + off b then heap_ptr h + off q else lfree h).
  { unfold h', plug_backward, entry. rewrite <- En in Hh. rewrite Hh. cbn [prev expected].
    rewrite Hhq. cbn [used expected]. rewrite Hq. cbn [Z.b2z].
    replace (heap_ptr h + off q =? heap_ptr h + off b) with false by (symmetry; apply Z.eqb_neq; lia).
    cbn [negb andb Z.eqb].
    unfold hdr in Hh.
    destruct (lfree h =? heap_ptr h + off b); fields; statics;
      hdrs; rewrite Hh; cbn [next expected];
      replace (heap_ptr h + off q - heap_ptr h) with (off q) by lia;
      rewrite (u32_small (off q)) by (unfold HDR in *; lia);
      repeat split; reflexivity. }
  clearbody h'. destruct Hm as (Hm & (E1 & E2 & E3 & E4 & E5) & Hl).
  change (l ++ q :: b :: r) with (l ++ [q; b] ++ r) in Hs.
  change (l ++ Blk (off q) (fin b) false :: r) with (l ++ [Blk (off q) (fin b) false] ++ r).
  pose proof (sh_blocks _ _ Hs) as Hc. apply contiguous_mid in Hc as (Hcl & _ & _ & Hcr).
  destruct Hcr as (_ & _ & _ & Hcr).
  destruct (shape_edit h h' l [q; b] [Blk (off q) (fin b) false] r (off q) (fin b) Hs)
    as [Hs' Hk]; auto.
  - cbn. split_ands; reflexivity || lia.
  - cbn. split_ands; reflexivity || lia.
  - intros a Ha1 Ha2. rewrite Hm. datas. reflexivity.
  - cbn [laid_out off]. split; [|exact I]. rewrite Hm. hdrs. unfold hdr in Hhq. rewrite Hhq.
    unfold modify, expected; cbn. rewrite Hq, u32_small by (unfold HDR in *; lia). reflexivity.
  - right. unfold hdr. rewrite Hm. hdrs. cbn. rewrite u32_small by (unfold HDR in *; lia).
    reflexivity.
  - apply keeps_free. intros c Hc. apply list_elem_of_singleton in Hc as ->. reflexivity.
  - repeat split; auto. all: apply Hs'.
Qed.

(** [lfree] is a free block, or the end of the heap. *)
Definition lfree_ok (h : Heap) (bs : list block) : Prop :=
  lfree h = heap_end h \/ exists b, b ∈ bs /\ busy b = false /\ lfree h = heap_ptr h + off b.
(** ... and no free block is below it. *)
Definition lfree_lowest (h : Heap) (bs : list block) : Prop :=
  forall b, b ∈ bs -> busy b = false -> lfree h <= heap_ptr h + off b.

(** One step of [plug_holes]: [bs] becomes [bs'], [lfree] follows its block. *)
Definition plugged (h h' : Heap) (bs bs' : list block) : Prop :=
  shape h' bs' /\ keeps (heap_ptr h) bs' (memory h) (memory h') /\ same_stats h h' /\
  (lfree_ok h bs -> lfree_ok h' bs') /\ lfree h' <= lfree h.

Lemma plugged_refl h bs : shape h bs -> plugged h h bs bs.
Proof.
  intros H. unfold plugged. split_ands; auto; try lia.
  - intros b _ _ a _. reflexivity.
  - repeat split.
Qed.

(** Merging two free neighbours moves [lfree] with them. *)
Lemma merged_lfree h h' l x y r m :
  same_stats h h' -> off x < off y -> m = Blk (off x) (fin y) false ->
  lfree h' = (if lfree h =? heap_ptr h + off y then heap_ptr h + off x else lfree h) ->
  (lfree_ok h (l ++ x :: y :: r) -> lfree_ok h' (l ++ m :: r)) /\ lfree h' <= lfree h.
Proof.
  intros (E1 & E2 & _) Hlt Em Hl. split; [|destruct (Z.eqb_spec (lfree h) (heap_ptr h + off y)); lia].
  intros Hok. unfold lfree_ok. rewrite E1, E2, Hl.
  assert (Hmid : m ∈ l ++ m :: r) by apply elem_mid.
  destruct (Z.eqb_spec (lfree h) (heap_ptr h + off y)) as [E|Hne].
  - right. exists m. rewrite Em in *. auto.
  - destruct Hok as [He | (b & Hb & Hf & Eb)]; [auto|]. right.
    apply elem_of_app in Hb as [Hb|Hb]; [exists b; split_ands; auto; apply elem_of_app; auto|].
    apply elem_of_cons in Hb as [-> | Hb].
    { exists m. rewrite Em in *. auto. }
    apply elem_of_cons in Hb as [-> | Hb]; [congruence|].
    exists b. split_ands; auto. apply elem_of_app. right. right. exact Hb.
Qed.

Lemma plug_forward_spec h l b r :
  shape h (l ++ b :: r) -> busy b = false -> alternating r ->
  exists c r', coalesce (b :: r) = c :: r' /\ off c = off b /\ busy c = false /\
  plugged h (plug_forward h (heap_ptr h + off b)) (l ++ b :: r) (l ++ c :: r').
Proof.
  intros Hs Hb Ha. destruct r as [|n r].
  - exists b, []. split_ands; auto.
    rewrite plug_forward_none with (l := l) (r := []) by auto. apply plugged_refl, Hs.
  - cbn [coalesce]. change (match coalesce r with [] => [n] | c :: cs => if busy n || busy c then n :: c :: cs else Blk (off n) (fin c) false :: cs end) with (coalesce (n :: r)).
    rewrite (coalesce_id _ Ha), Hb. cbn [orb]. destruct (busy n) eqn:Hn.
    + exists b, (n :: r). split_ands; auto.
      rewrite plug_forward_none with (l := l) (r := n :: r) by auto. apply plugged_refl, Hs.
    + exists (Blk (off b) (fin n) false), r. split_ands; auto.
      destruct (plug_forward_merge h l b n r Hs Hb Hn) as (H1 & H2 & H3 & H4).
      pose proof (shape_next _ _ _ _ Hs) as [En _].
      pose proof (shape_bounds _ _ _ Hs (elem_mid _ _ _)) as Bb.
      destruct (merged_lfree h _ l b n r _ H3 ltac:(lia) eq_refl H4) as [H5 H6].
      repeat split; auto; try apply H1; apply H3.
Qed.

Lemma plug_backward_spec h l b r :
  shape h (l ++ b :: r) -> busy b = false -> alternating l -> alternating (b :: r) ->
  plugged h (plug_backward h (heap_ptr h + off b)) (l ++ b :: r) (coalesce (l ++ b :: r)).
Proof.
  intros Hs Hb Hl Hr. induction l as [|q l _] using rev_ind.
  - cbn [app]. rewrite coalesce_id by exact Hr.
    rewrite plug_backward_none with (l := []) (r := r); auto; [apply plugged_refl, Hs|].
    intros _. pose proof (sh_blocks _ _ Hs) as H. cbn in H. tauto.
  - destruct (busy q) eqn:Hq.
    + rewrite coalesce_id.
      2: { rewrite <- app_assoc. cbn [app]. apply alternating_app. split; [exact Hl|].
           apply alternating_cons. auto. }
      rewrite plug_backward_none with (l := l ++ [q]) (r := r); auto; [apply plugged_refl, Hs| |].
      * intros E. destruct l; discriminate E.
      * rewrite rev_app_distr. exact Hq.
    + rewrite <- app_assoc in *. cbn [app] in *.
      rewrite coalesce_app.
      assert (E : coalesce (q :: b :: r) = Blk (off q) (fin b) false :: r).
      { change (coalesce (q :: b :: r)) with
          (match coalesce (b :: r) with
           | [] => [q] | c :: cs => if busy q || busy c then q :: c :: cs
                                    else Blk (off q) (fin c) false :: cs end).
        rewrite (coalesce_id _ Hr), Hq, Hb. reflexivity. }
      rewrite E. rewrite coalesce_id.
      2: { apply alternating_app. split.
           - eapply alternating_last; [|exact Hl]. exact Hq.
           - eapply alternating_head; [|exact Hr]. exact Hb. }
      destruct (plug_backward_merge h l q b r Hs Hb Hq) as (H1 & H2 & H3 & H4).
      pose proof (shape_next _ _ _ _ Hs) as [En _].
      pose proof (shape_bounds _ _ _ Hs (elem_mid _ _ _)) as Bq.
      destruct (merged_lfree h _ l q b r _ H3 ltac:(lia) eq_refl H4) as [H5 H6].
      repeat split; auto; try apply H1; apply H3.
Qed.

Lemma same_stats_trans h1 h2 h3 : same_stats h1 h2 -> same_stats h2 h3 -> same_stats h1 h3.
Proof. unfold same_stats. intuition congruence. Qed.

(** Merging keeps the blocks in use. *)
Lemma coalesce_busy bs b : busy b = true -> b ∈ coalesce bs <-> b ∈ bs.
Proof.
  intros Hu. induction bs as [|c bs IH]; [reflexivity|]. cbn [coalesce].
  rewrite (elem_of_cons bs), <- IH.
  destruct (coalesce bs) as [|d ds]; [rewrite elem_of_cons; reflexivity|].
  destruct (busy c) eqn:Hc, (busy d) eqn:Hd; cbn [orb]; rewrite !elem_of_cons; try tauto.
  split; [intros [-> | H]; [discriminate|auto]|].
  intros [-> | [-> | H]]; [congruence|congruence|auto].
Qed.

(** The free blocks after merging start where free blocks started. *)
Lemma coalesce_free bs b :
  b ∈ coalesce bs -> busy b = false -> exists c, c ∈ bs /\ busy c = false /\ off c = off b.
Proof.
  revert b. induction bs as [|c bs IH]; intros b Hb Hu; [inversion Hb|]. cbn [coalesce] in Hb.
  destruct (coalesce bs) as [|d ds].
  - apply list_elem_of_singleton in Hb as ->. exists c. split_ands; auto. left.
  - destruct (busy c) eqn:Hc, (busy d) eqn:Hd; cbn [orb] in Hb.
    1-3: apply elem_of_cons in Hb as [-> | Hb];
      [try congruence; exists c; split_ands; auto; left
      |destruct (IH b Hb Hu) as (e & He & ?); exists e; split; [right; exact He|assumption]].
    apply elem_of_cons in Hb as [-> | Hb]; [exists c; split_ands; auto; left|].
    destruct (IH b ltac:(right; exact Hb) Hu) as (e & He & ?).
    exists e; split; [right; exact He|assumption].
Qed.

Lemma plug_holes_spec h l b r :
  shape h (l ++ b :: r) -> busy b = false -> alternating l -> alternating r ->
  exists h', plug_holes h (heap_ptr h + off b) = Some h' /\
    plugged h h' (l ++ b :: r) (coalesce (l ++ b :: r)).
Proof.
  intros Hs Hb Hl Hr. unfold plug_holes.
  pose proof (shape_bounds _ _ _ Hs (elem_mid _ _ _)) as Bb. pose proof (sh_end _ _ Hs).
  rewrite (shape_header _ _ _ _ Hs). cbn [used expected]. rewrite Hb.
  destruct (Z.leb_spec (heap_ptr h) (heap_ptr h + off b)); [|lia].
  destruct (Z.ltb_spec (heap_ptr h + off b) (heap_end h)); [|lia]. cbn [andb Z.b2z Z.eqb].
  eexists. split; [reflexivity|].
  destruct (plug_forward_spec h l b r Hs Hb Hr) as (c & r' & Ec & Eo & Hc & Hf).
  destruct Hf as (Hs1 & Hk1 & Hst1 & Hlf1 & Hle1).
  assert (Ha : alternating (c :: r')) by (rewrite <- Ec; apply coalesce_alternating).
  pose proof (plug_backward_spec _ l c r' Hs1 Hc Hl Ha) as (Hs2 & Hk2 & Hst2 & Hlf2 & Hle2).
  pose proof Hst1 as (Ep & _). rewrite Ep, Eo in Hs2, Hk2, Hst2, Hlf2, Hle2.
  assert (E : coalesce (l ++ b :: r) = coalesce (l ++ c :: r')).
  { rewrite (coalesce_app l (b :: r)), Ec. reflexivity. }
  rewrite E. unfold plugged. split_ands.
  - exact Hs2.
  - eapply keeps_trans; [|exact Hk2]. eapply keeps_mono; [|exact Hk1].
    intros d Hd Hu. apply (coalesce_busy _ _ Hu). exact Hd.
  - eapply same_stats_trans; eassumption.
  - auto.
  - lia.
Qed.

(** ** The invariant of the heap *)

Record heap_ok (h : Heap) (bs : list block) : Prop := {
  ok_shape : shape h bs;
  ok_alternating : alternating bs;
  ok_lfree : lfree_ok h bs;
  ok_used : used_mem h = total_used bs;
  ok_max : used_mem h <= max_mem h <= mem_size_aligned h + HDR
}.

(** The address the client gets for a block. *)
Definition data (h : Heap) (b : block) : Z := heap_ptr h + off b + SIZEOF_STRUCT_MEM.

(** What the calls do not change. *)
Definition same_heap (h h' : Heap) : Prop :=
  heap_ptr h' = heap_ptr h /\ heap_end h' = heap_end h /\ mem_size_aligned h' = mem_size_aligned h.

Lemma SIZEOF_eq : SIZEOF_STRUCT_MEM = HDR. Proof. reflexivity. Qed.

Lemma data_aligned h bs b : shape h bs -> b ∈ bs -> data h b mod 4 = 0.
Proof.
  intros Hs Hb. pose proof (shape_bounds _ _ _ Hs Hb). pose proof (sh_aligned _ _ Hs).
  unfold data. rewrite SIZEOF_eq. unfold HDR. Z.div_mod_to_equations. lia.
Qed.

Lemma land3 z : Z.land z 3 = z mod 4.
Proof. change 3 with (Z.ones 2). rewrite Z.land_ones by lia. reflexivity. Qed.

Lemma used_bounds h bs : shape h bs -> 0 <= total_used bs <= mem_size_aligned h + HDR.
Proof. intros Hs. pose proof (total_used_bounds _ _ _ (sh_blocks _ _ Hs)). lia. Qed.

(** The blocks merged at the end of a call: only [lfree] may have moved down. *)
Lemma coalesced_lowest h bs :
  (forall c, c ∈ bs -> busy c = false -> lfree h <= heap_ptr h + off c) -> lfree_lowest h (coalesce bs).
Proof.
  intros H b Hb Hu. destruct (coalesce_free _ _ Hb Hu) as (c & Hc & Hf & <-). auto.
Qed.

(** ** rt_free *)

(** The header is marked free; [lfree] and the counter follow. *)
Lemma free_mark_fields h mem :
  memory (free_mark h mem) = set_magic (set_used (memory h) mem 0) mem HEAP_MAGIC /\
  same_heap h (free_mark h mem) /\ lfree (free_mark h mem) = Z.min (lfree h) mem /\
  used_mem (free_mark h mem) = u32 (used_mem h - u32 (next (hdr h mem) - (mem - heap_ptr h))) /\
  max_mem (free_mark h mem) = max_mem h.
Proof.
  unfold free_mark. fields.
  destruct (Z.ltb_spec mem (lfree h)); statics;
    fields; split_ands; try (repeat split; reflexivity); try lia; cbn [memory]; hdrs; reflexivity.
Qed.

Lemma free_mark_spec h l b r :
  shape h (l ++ b :: r) -> busy b = true ->
  let h' := free_mark h (heap_ptr h + off b) in
  let bs := l ++ Blk (off b) (fin b) false :: r in
  shape h' bs /\ keeps (heap_ptr h) bs (memory h) (memory h') /\
  (used_mem h = total_used (l ++ b :: r) -> used_mem h' = total_used bs /\ total_used bs <= used_mem h).
Proof.
  intros Hs Hbusy. cbv zeta.
  pose proof (shape_header _ _ _ _ Hs) as Hh. pose proof (shape_next _ _ _ _ Hs) as Hn.
  pose proof (shape_bounds _ _ _ Hs (elem_mid _ _ _)) as Bb.
  pose proof (sh_space _ _ Hs). pose proof (sh_ptr _ _ Hs).
  pose proof (sh_blocks _ _ Hs) as Hc. apply contiguous_mid in Hc as (Hcl & _ & _ & Hcr).
  pose proof (total_used_bounds _ _ _ Hcl). pose proof (total_used_bounds _ _ _ Hcr).
  destruct (free_mark_fields h (heap_ptr h + off b)) as (Em & (E1 & E2 & E3) & _ & Eu & _).
  set (h' := free_mark h (heap_ptr h + off b)) in *. clearbody h'.
  change (l ++ b :: r) with (l ++ [b] ++ r) in *.
  change (l ++ Blk (off b) (fin b) false :: r) with (l ++ [Blk (off b) (fin b) false] ++ r).
  destruct (shape_edit h h' l [b] [Blk (off b) (fin b) false] r (off b) (fin b) Hs)
    as [Hs' Hk']; auto.
  - cbn. split_ands; reflexivity || lia.
  - cbn. split_ands; reflexivity || lia.
  - intros a Ha1 Ha2. rewrite Em. datas. reflexivity.
  - cbn [laid_out off]. split; [|exact I]. rewrite Em. hdrs. unfold hdr in Hh. rewrite Hh.
    reflexivity.
  - destruct r as [|n r]; [auto|]. right. destruct Hn as [En Hn]. unfold hdr in *.
    rewrite Em. hdrs. rewrite Hn. reflexivity.
  - apply keeps_free. intros c Hc. apply list_elem_of_singleton in Hc as ->. reflexivity.
  - split; [exact Hs'|]. split; [exact Hk'|]. rewrite !total_used_mid. unfold total_used at 2 5 8. cbn [foldr busy]. rewrite Hbusy.
    intros Hu. rewrite Eu, Hh, Hu. cbn [next expected]. unfold HDR in *.
    rewrite (u32_small (fin b - _)), u32_small by lia. lia.
Qed.

Lemma rt_free_spec h bs b :
  heap_ok h bs -> b ∈ bs -> busy b = true ->
  exists h', rt_free 0 h (data h b) = Some h' /\ heap_ok h' (release (off b) bs) /\
    keeps (heap_ptr h) (release (off b) bs) (memory h) (memory h') /\ same_heap h h' /\
    max_mem h' = max_mem h /\ lfree h' <= heap_ptr h + off b /\
    (lfree_lowest h bs -> lfree_lowest h' (release (off b) bs)).
Proof.
  intros [Hs Ha Hlf Hu Hmax] Hb Hbusy.
  pose proof (data_aligned _ _ _ Hs Hb) as Hal. pose proof (shape_bounds _ _ _ Hs Hb) as Bb.
  pose proof (sh_ptr _ _ Hs). pose proof (sh_space _ _ Hs). pose proof (sh_end _ _ Hs).
  destruct (shape_lookup _ _ _ Hs Hb) as (Hmagic & Hused & Hnext).
  apply list_elem_of_split in Hb as (l & r & ->).
  unfold rt_free, RT_ALIGN_SIZE. change (4 - 1) with 3. rewrite land3, Hal.
  unfold data in *. rewrite SIZEOF_eq in *. unfold HDR in *.
  replace (heap_ptr h + off b + 12 - 12) with (heap_ptr h + off b) by lia.
  destruct (Z.eqb_spec (heap_ptr h + off b + 12) 0); [lia|].
  destruct (Z.leb_spec (heap_ptr h) (heap_ptr h + off b + 12)); [|lia].
  destruct (Z.ltb_spec (heap_ptr h + off b + 12) (heap_end h)); [|lia].
  rewrite Hused, Hmagic, Hbusy, Z.eqb_refl. cbn [Z.b2z negb orb andb Z.eqb].
  destruct (free_mark_spec h l b r Hs Hbusy) as (Hs1 & Hk1 & Hu1). specialize (Hu1 Hu).
  destruct (free_mark_fields h (heap_ptr h + off b)) as (_ & (E1 & E2 & E3) & Hl1 & _ & Em1).
  set (h1 := free_mark h (heap_ptr h + off b)) in *. clearbody h1.
  assert (Hal' : alternating l /\ alternating r).
  { split; [eapply alternating_app_l; exact Ha|].
    eapply alternating_tail, alternating_app_r; exact Ha. }
  destruct (plug_holes_spec h1 l (Blk (off b) (fin b) false) r Hs1 eq_refl (proj1 Hal') (proj2 Hal'))
    as (h' & Eh' & Hs' & Hk' & (S1 & S2 & S3 & S4 & S5) & Hlf' & Hle').
  cbn [off] in Eh'. rewrite E1 in Eh', Hk'. rewrite Eh'.
  assert (Erel : release (off b) (l ++ b :: r) = coalesce (l ++ Blk (off b) (fin b) false :: r)).
  { unfold release. rewrite (on_block_mid _ _ _ _ _ _ (sh_blocks _ _ Hs)). reflexivity. }
  rewrite Erel. set (bs1 := l ++ Blk (off b) (fin b) false :: r) in *.
  exists h'. split; [reflexivity|]. split_ands.
  - split.
    + exact Hs'.
    + apply coalesce_alternating.
    + apply Hlf'. unfold lfree_ok. rewrite Hl1, E1, E2.
      destruct (Z.min_spec (lfree h) (heap_ptr h + off b)) as [[Hlt ->]|[Hge ->]].
      * destruct Hlf as [Hlf | (c & Hc & Hf & Ec)]; [lia|]. right. exists c. split_ands; auto.
        unfold bs1. apply elem_of_app. apply elem_of_app in Hc as [Hc|Hc]; [auto|].
        apply elem_of_cons in Hc as [-> | Hc]; [congruence|]. right. right. exact Hc.
      * right. exists (Blk (off b) (fin b) false). split_ands; auto. apply elem_mid.
    + rewrite S4, coalesce_used. apply Hu1.
    + rewrite S4, S5, S3, E3, Em1. unfold HDR in *. lia.
  - eapply keeps_trans; [|exact Hk']. eapply keeps_mono; [|exact Hk1].
    intros c Hc Hcu. apply (coalesce_busy _ _ Hcu). exact Hc.
  - repeat split; congruence.
  - congruence.
  - lia.
  - intros Hlow. apply coalesced_lowest. intros c Hc Hf. rewrite S1, E1.
    apply Z.le_trans with (lfree h1); [exact Hle'|]. rewrite Hl1.
    unfold bs1 in Hc. apply elem_of_app in Hc as [Hc|Hc].
    + assert (lfree h <= heap_ptr h + off c); [|lia]. apply Hlow; auto. apply elem_of_app. auto.
    + apply elem_of_cons in Hc as [-> | Hc]; [cbn; lia|].
      assert (lfree h <= heap_ptr h + off c); [|lia]. apply Hlow; auto. apply elem_of_app. right. right. exact Hc.
Qed.

(** ** rt_malloc: the search *)

(** A free block with room for [size] bytes. *)
Definition fits (size : Z) (b : block) : bool := negb (busy b) && (size <=? room b).

(** The blocks the search of [rt_malloc] accepts: not below [lfree], large enough,
    and starting below the limit of the loop. *)
Definition candidate (h : Heap) (size : Z) (b : block) : bool :=
  (lfree h <=? heap_ptr h + off b) && fits size b && (off b <? mem_size_aligned h - size).

Lemma block_fits_eq h bs b size :
  shape h bs -> b ∈ bs -> block_fits h size (off b) = fits size b.
Proof.
  intros Hs Hb. pose proof (shape_bounds _ _ _ Hs Hb). pose proof (sh_space _ _ Hs).
  pose proof (sh_ptr _ _ Hs).
  destruct (shape_lookup _ _ _ Hs Hb) as (_ & Hu & Hn).
  unfold block_fits, entry, fits, room. rewrite Hu, Hn, SIZEOF_eq. unfold HDR in *.
  rewrite (u32_small (off b + 12)), u32_small by lia.
  destruct (busy b); reflexivity.
Qed.

(** An offset of the chain: a block or the end. *)
Definition chain_at (h : Heap) (bs : list block) (o : Z) : Prop :=
  o = mem_size_aligned h + HDR \/ exists b, b ∈ bs /\ off b = o.

Lemma lfree_chain h bs : shape h bs -> lfree_ok h bs ->
  chain_at h bs (lfree h - heap_ptr h) /\ heap_ptr h <= lfree h <= heap_end h.
Proof.
  intros Hs Hlf. pose proof (sh_end _ _ Hs). pose proof (sh_min _ _ Hs).
  destruct Hlf as [E | (b & Hb & _ & E)].
  - split; [left; lia|]. unfold HDR in *. lia.
  - pose proof (shape_bounds _ _ _ Hs Hb). split; [|lia]. right. exists b. split; [exact Hb|lia].
Qed.

Lemma chain_next h bs b :
  shape h bs -> b ∈ bs -> chain_at h bs (fin b) /\ (forall c, c ∈ bs -> off c < fin b -> off c <= off b).
Proof.
  intros Hs Hb. split.
  - apply list_elem_of_split in Hb as (l & r & ->).
    pose proof (shape_next _ _ _ _ Hs) as Hn. pose proof (sh_end _ _ Hs).
    destruct r as [|n r]; [left; lia|]. destruct Hn as [En _]. right. exists n. split; [|exact En].
    apply elem_of_app. right. right. left.
  - intros c Hc Hlt. destruct (contiguous_disjoint _ _ _ _ _ (sh_blocks _ _ Hs) Hb Hc) as [<-|[]]; try lia.
    pose proof (shape_bounds _ _ _ Hs Hc). lia.
Qed.

Lemma chain_range h bs o : shape h bs -> chain_at h bs o -> 0 <= o <= mem_size_aligned h + HDR.
Proof.
  intros Hs [-> | (b & Hb & <-)].
  - pose proof (sh_min _ _ Hs). unfold HDR. lia.
  - pose proof (shape_bounds _ _ _ Hs Hb). lia.
Qed.

(** The loop ends, at the first acceptable block or beyond all of them. *)
Lemma malloc_search_spec h bs size :
  shape h bs -> lfree_ok h bs -> 0 < size <= mem_size_aligned h ->
  exists ptr, malloc_search h size = Some ptr /\ chain_at h bs ptr /\
    (forall b, b ∈ bs -> off b < ptr -> candidate h size b = false) /\
    (ptr < mem_size_aligned h - size ->
     exists b, b ∈ bs /\ off b = ptr /\ candidate h size b = true).
Proof.
  intros Hs Hlf Hsize. destruct (lfree_chain _ _ Hs Hlf) as [Hstart Hrange].
  pose proof (sh_space _ _ Hs) as Hsp. pose proof (sh_end _ _ Hs) as Hend.
  pose proof (sh_ptr _ _ Hs). pose proof (sh_min _ _ Hs) as Hmin.
  unfold malloc_search. rewrite (u32_small (lfree h - heap_ptr h)) by (unfold HDR in *; lia).
  rewrite (u32_small (mem_size_aligned h - size)) by lia.
  set (I ptr := chain_at h bs ptr /\ lfree h - heap_ptr h <= ptr /\
    forall b, b ∈ bs -> off b < ptr -> candidate h size b = false).
  assert (Hcand : forall b, b ∈ bs -> lfree h - heap_ptr h <= off b -> off b < mem_size_aligned h - size ->
            candidate h size b = block_fits h size (off b)).
  { intros b Hb Hlo Hhi. rewrite (block_fits_eq h bs b size Hs Hb). unfold candidate.
    destruct (Z.leb_spec (lfree h) (heap_ptr h + off b)); [|lia].
    destruct (Z.ltb_spec (off b) (mem_size_aligned h - size)); [|lia].
    cbn [andb]. apply andb_true_r. }
  destruct (while_total I (fun ptr => mem_size_aligned h + HDR - ptr)
    (fun ptr => (ptr <? mem_size_aligned h - size) && negb (block_fits h size ptr))
    (fun ptr => next (hdr h (entry h ptr)))) with
    (fuel := chain_fuel h) (s := lfree h - heap_ptr h) as (ptr & E & (Hc & Hlo & Hfirst) & Hstop).
  - intros ptr (Hc & Hlo & Hfirst) [Hlt%Z.ltb_lt Hnf%negb_true_iff]%andb_prop.
    destruct Hc as [-> | (b & Hb & <-)]; [unfold HDR in *; lia|].
    destruct (shape_lookup _ _ _ Hs Hb) as (_ & _ & Hn). unfold entry. rewrite Hn.
    destruct (chain_next _ _ _ Hs Hb) as [Hcn Hbetween].
    pose proof (shape_bounds _ _ _ Hs Hb). split; [|lia]. unfold I. split_ands; [exact Hcn | lia |].
    intros c Hcin Hclt. destruct (Z.eq_dec (off c) (off b)) as [Eo|Hne].
    + rewrite (contiguous_off_inj _ _ _ _ _ (sh_blocks _ _ Hs) Hcin Hb Eo).
      rewrite Hcand by (auto; lia). exact Hnf.
    + apply Hfirst; [exact Hcin|]. specialize (Hbetween _ Hcin Hclt). lia.
  - unfold I. split_ands; [exact Hstart | lia |]. intros b Hb Hlt. unfold candidate.
    destruct (Z.leb_spec (lfree h) (heap_ptr h + off b)); [lia|]. reflexivity.
  - unfold chain_fuel, HDR in *. lia.
  - apply (chain_range _ _ _ Hs) in Hstart. lia.
  - exists ptr. split_ands; auto. intros Hlt. apply Z.ltb_lt in Hlt as Hlt'.
    rewrite Hlt' in Hstop. apply negb_false_iff in Hstop.
    destruct Hc as [-> | (b & Hb & <-)]; [unfold HDR in *; lia|].
    exists b. split_ands; auto. rewrite Hcand; auto.
Qed.

(** ... which is what a search of the list finds. *)
Lemma search_find h bs size ptr :
  shape h bs ->
  (forall b, b ∈ bs -> off b < ptr -> candidate h size b = false) ->
  (ptr < mem_size_aligned h - size -> exists b, b ∈ bs /\ off b = ptr /\ candidate h size b = true) ->
  if ptr <? mem_size_aligned h - size
  then exists b l r, List.find (candidate h size) bs = Some b /\ off b = ptr /\ bs = l ++ b :: r /\
         busy b = false /\ size <= room b
  else List.find (candidate h size) bs = None.
Proof.
  intros Hs Hbefore Hat. destruct (Z.ltb_spec ptr (mem_size_aligned h - size)) as [Hlt|Hge].
  - destruct (Hat Hlt) as (b & Hb & Eo & Hc). apply list_elem_of_split in Hb as (l & r & ->).
    exists b, l, r. split_ands; auto.
    + pose proof (sh_blocks _ _ Hs) as Hct. apply contiguous_mid in Hct as (Hcl & _).
      assert (Hl : forall c, c ∈ l -> candidate h size c = false).
      { intros c Hcl'. apply Hbefore; [apply elem_of_app; auto|].
        pose proof (contiguous_bounds _ _ _ _ Hcl Hcl'). lia. }
      clear -Hl Hc. induction l as [|c l IH]; cbn; [rewrite Hc; reflexivity|].
      rewrite Hl by left. apply IH. intros d Hd. apply Hl. right. exact Hd.
    + unfold candidate, fits in Hc. destruct (busy b); [|reflexivity].
      cbn in Hc. rewrite andb_false_r in Hc. discriminate.
    + unfold candidate, fits in Hc. destruct (Z.leb_spec size (room b)); [lia|].
      rewrite !andb_false_r in Hc. discriminate.
  - destruct (List.find (candidate h size) bs) as [b|] eqn:E; [|reflexivity].
    apply List.find_some in E as [Hb Hc]. apply list_elem_of_In in Hb.
    rewrite Hbefore in Hc; [discriminate | exact Hb |].
    unfold candidate in Hc. destruct (Z.ltb_spec (off b) (mem_size_aligned h - size)); [lia|].
    rewrite andb_false_r in Hc. discriminate.
Qed.

(** ** rt_malloc: taking the block *)

Lemma count_used_fields h n :
  memory (count_used h n) = memory h /\ same_heap h (count_used h n) /\ lfree (count_used h n) = lfree h /\
  used_mem (count_used h n) = u32 (used_mem h + n) /\
  max_mem (count_used h n) = Z.max (max_mem h) (u32 (used_mem h + n)).
Proof.
  unfold count_used, modify; cbn. unfold modify; cbn.
  destruct (Z.ltb_spec (max_mem h) (u32 (used_mem h + n))); cbn; repeat split; lia.
Qed.

(** The stores of a split that makes [b] end at [o2], used. *)
Definition split_memory (m : Memory) (base : Z) (b : block) (o2 : Z) (relink : bool) : Memory :=
  let m := set_magic m (base + o2) HEAP_MAGIC in
  let m := set_used m (base + o2) 0 in
  let m := set_next m (base + o2) (fin b) in
  let m := set_prev m (base + o2) (off b) in
  let m := set_next m (base + off b) o2 in
  let m := set_used m (base + off b) 1 in
  if relink then set_prev m (base + fin b) o2 else m.

Lemma split_shape h h' l b r n :
  shape h (l ++ b :: r) -> 4 <= n -> n mod 4 = 0 -> n + HDR + 4 <= room b ->
  (forall a, load8 (memory h') a = load8 (split_memory (memory h) (heap_ptr h) b (off b + HDR + n)
                            (negb (fin b =? mem_size_aligned h + HDR))) a) ->
  same_heap h h' ->
  shape h' (l ++ cut n b ++ r) /\ keeps (heap_ptr h) (l ++ cut n b ++ r) (memory h) (memory h').
Proof.
  intros Hs Hn1 Hn2 Hroom Em (E1 & E2 & E3). unfold room in Hroom.
  pose proof (shape_header _ _ _ _ Hs) as Hh. pose proof (shape_next _ _ _ _ Hs) as Hnx.
  pose proof (shape_bounds _ _ _ Hs (elem_mid _ _ _)) as Bb.
  pose proof (sh_space _ _ Hs). pose proof (sh_ptr _ _ Hs).
  pose proof (sh_blocks _ _ Hs) as Hc. apply contiguous_mid in Hc as (Hcl & _ & _ & Hcr).
  change (l ++ b :: r) with (l ++ [b] ++ r) in Hs. unfold HDR in *.
  set (o2 := off b + 12 + n) in *.
  assert (Hhdr : forall a, header (memory h') a = header (split_memory (memory h) (heap_ptr h) b o2
                            (negb (fin b =? mem_size_aligned h + 12))) a).
  { intros a. apply header_frame. intros c _. apply Em. }
  apply (shape_edit h h' l [b] (cut n b) r (off b) (fin b) Hs); auto.
  - cbn. split_ands; reflexivity || lia.
  - apply cut_contiguous; unfold room, HDR; lia || tauto.
  - intros a Ha1 Ha2. rewrite Em. unfold split_memory. destruct (negb _); datas; reflexivity.
  - cbn [laid_out off cut]. fold o2. rewrite !Hhdr. unfold split_memory, HDR. fold o2.
    unfold hdr in Hh. split_ands; [| |exact I]; destruct (negb _); hdrs;
      rewrite ?Hh; unfold modify, expected; cbn; rewrite ?u32_small by lia; reflexivity.
  - destruct r as [|m r]; [auto|]. right. destruct Hnx as [En Hnx]. unfold hdr in *. rewrite Hhdr.
    assert (fin b + 16 <= mem_size_aligned h + 12).
    { destruct Hcr as (Hc1 & Hc2 & _ & Hcr). pose proof (contiguous_le _ _ _ Hcr). lia. }
    destruct (Z.eqb_spec (fin b) (mem_size_aligned h + 12)); [lia|]. cbn [negb].
    unfold split_memory. hdrs. cbn. unfold last_off; cbn. rewrite u32_small by lia. reflexivity.
  - intros c Hc Hu a Ha. rewrite Em. unfold split_memory.
    apply elem_of_cons in Hc as [-> | Hc].
    + cbn in Ha. unfold HDR in Ha. fold o2 in Ha. destruct (negb _); datas; reflexivity.
    + apply list_elem_of_singleton in Hc as ->. discriminate.
Qed.

(** Storing the value that is there. *)
Lemma set_magic_same m a v c : load16 m a = v -> load8 (set_magic m a v) c = load8 m c.
Proof.
  intros <-. unfold set_magic. rewrite load8_store16. unfold load16.
  pose proof (load8_range m a). pose proof (load8_range m (a + 1)).
  destruct (Z.eqb_spec c a) as [->|]; [c_mod|].
  destruct (Z.eqb_spec c (a + 1)) as [->|]; [c_mod|reflexivity].
Qed.

(** The whole effect of taking the block, with the magic number. *)
Definition taken_heap (h : Heap) (size ptr : Z) : Heap :=
  let h' := malloc_take h size ptr in
  put_magic h' (entry h ptr) HEAP_MAGIC.

Lemma take_split_fields h l b r size :
  shape h (l ++ b :: r) -> 12 <= size -> size + HDR + 12 <= room b ->
  let h' := malloc_take h size (off b) in
  memory h' = split_memory (memory h) (heap_ptr h) b (off b + HDR + size)
                (negb (fin b =? mem_size_aligned h + HDR)) /\
  same_heap h h' /\ lfree h' = lfree h /\ used_mem h' = u32 (used_mem h + (size + HDR)) /\
  max_mem h' = Z.max (max_mem h) (u32 (used_mem h + (size + HDR))).
Proof.
  intros Hs Hsize Hroom. cbv zeta. pose proof (shape_header _ _ _ _ Hs) as Hh.
  pose proof (shape_bounds _ _ _ Hs (elem_mid _ _ _)) as Bb. unfold room in Hroom.
  pose proof (sh_space _ _ Hs). pose proof (sh_ptr _ _ Hs).
  unfold malloc_take, entry, MIN_SIZE_ALIGNED, MIN_SIZE. rewrite SIZEOF_eq, Hh. cbn [next expected].
  change (RT_ALIGN 12 RT_ALIGN_SIZE) with 12. unfold HDR in *.
  rewrite (u32_small (off b + 12)), (u32_small (size + 12 + 12)), (u32_small (fin b - _)),
    (u32_small (off b + 12 + size)), (u32_small (size + 12)) by lia.
  destruct (Z.leb_spec (size + 12 + 12) (fin b - (off b + 12))); [|lia].
  unfold same_heap.
  match goal with |- context [count_used ?x _] =>
    destruct (count_used_fields x (size + 12)) as (-> & (-> & -> & ->) & -> & -> & ->) end.
  unfold hdr in Hh. fields. hdrs. rewrite Hh.
  hfields. rewrite (u32_small (fin b)), (u32_small (mem_size_aligned h + 12)) by lia.
  unfold split_memory, HDR.
  destruct (negb (fin b =? mem_size_aligned h + 12)); fields; repeat split.
Qed.

Lemma take_whole_fields h l b r size :
  shape h (l ++ b :: r) -> 12 <= size <= room b -> room b < size + HDR + 12 ->
  let h' := malloc_take h size (off b) in
  memory h' = set_used (memory h) (heap_ptr h + off b) 1 /\
  same_heap h h' /\ lfree h' = lfree h /\ used_mem h' = u32 (used_mem h + (fin b - off b)) /\
  max_mem h' = Z.max (max_mem h) (u32 (used_mem h + (fin b - off b))).
Proof.
  intros Hs Hsize Hroom. cbv zeta. pose proof (shape_header _ _ _ _ Hs) as Hh.
  pose proof (shape_bounds _ _ _ Hs (elem_mid _ _ _)) as Bb. unfold room in Hroom, Hsize.
  pose proof (sh_space _ _ Hs). pose proof (sh_ptr _ _ Hs).
  unfold malloc_take, entry, MIN_SIZE_ALIGNED, MIN_SIZE. rewrite SIZEOF_eq, Hh. cbn [next expected].
  change (RT_ALIGN 12 RT_ALIGN_SIZE) with 12. unfold HDR in *.
  rewrite (u32_small (off b + 12)), (u32_small (size + 12 + 12)), (u32_small (fin b - _)) by lia.
  destruct (Z.leb_spec (size + 12 + 12) (fin b - (off b + 12))); [lia|].
  unfold same_heap.
  match goal with |- context [count_used ?x ?n] =>
    destruct (count_used_fields x n) as (-> & (-> & -> & ->) & -> & -> & ->) end.
  unfold hdr in Hh. fields. hdrs. rewrite Hh. hfields.
  replace (heap_ptr h + off b - heap_ptr h) with (off b) by lia.
  rewrite (u32_small (fin b - off b)) by lia. repeat split.
Qed.

Lemma taken_heap_spec h l b r size :
  shape h (l ++ b :: r) -> busy b = false -> size mod 4 = 0 -> 12 <= size <= room b ->
  used_mem h = total_used (l ++ b :: r) ->
  let h' := taken_heap h size (off b) in
  let bs := l ++ taken size b ++ r in
  shape h' bs /\ keeps (heap_ptr h) bs (memory h) (memory h') /\ same_heap h h' /\
  lfree h' = lfree h /\ used_mem h' = total_used bs /\ max_mem h' = Z.max (max_mem h) (used_mem h').
Proof.
  intros Hs Hfree Hal Hsize Hu. cbv zeta.
  pose proof (shape_header _ _ _ _ Hs) as Hh. pose proof (shape_next _ _ _ _ Hs) as Hnx.
  pose proof (shape_bounds _ _ _ Hs (elem_mid _ _ _)) as Bb.
  pose proof (sh_space _ _ Hs). pose proof (sh_ptr _ _ Hs).
  pose proof (sh_blocks _ _ Hs) as Hc. apply contiguous_mid in Hc as (Hcl & _ & _ & Hcr).
  pose proof (total_used_bounds _ _ _ Hcl). pose proof (total_used_bounds _ _ _ Hcr).
  assert (Hun : used_mem h + (fin (taken_head size b) - off b) = total_used (l ++ taken size b ++ r)
                /\ total_used (l ++ taken size b ++ r) <= mem_size_aligned h + HDR).
  { change (l ++ b :: r) with (l ++ [b] ++ r) in Hu. rewrite total_used_mid in Hu |- *.
    rewrite taken_used by lia. unfold total_used at 2 in Hu. cbn [foldr] in Hu. rewrite Hfree in Hu.
    split; [lia|]. unfold taken_head, room in *; cbn [fin].
    destruct (Z.leb_spec (size + HDR + 12) (fin b - (off b + HDR))); unfold HDR in *; lia. }
  assert (Htot : u32 (total_used (l ++ taken size b ++ r)) = total_used (l ++ taken size b ++ r)).
  { apply u32_small. unfold HDR in *. split; [|lia].
    rewrite total_used_mid, taken_used by lia. unfold taken_head, room, HDR in *. cbn [fin].
    destruct (_ <=? _); lia. }
  unfold taken_heap, entry. unfold taken, taken_head in *.
  destruct (Z.leb_spec (size + HDR + 12) (room b)) as [Hsplit|Hwhole].
  - destruct (take_split_fields h l b r size Hs ltac:(lia) Hsplit) as (Em & (E1 & E2 & E3) & El & Eu & Ex).
    cbn [fin] in Hun. replace (off b + HDR + size - off b) with (size + HDR) in Hun by lia.
    set (h1 := malloc_take h size (off b)) in *. clearbody h1.
    destruct (split_shape h (put_magic h1 (heap_ptr h + off b) HEAP_MAGIC)
      l b r size Hs) as [Hs' Hk']; auto; try (unfold HDR in *; lia).
    + intros a. fields. rewrite set_magic_same, Em; [reflexivity|].
      rewrite Em. change (load16 ?m ?a) with (magic (header m a)).
      unfold split_memory, hdr, room, HDR in *. destruct (negb _); hdrs; rewrite Hh; reflexivity.
    + repeat split; assumption.
    + fields. split_ands; auto; [repeat split; auto | |].
      * rewrite Eu. rewrite (proj1 Hun). exact Htot.
      * rewrite Ex, Eu. reflexivity.
  - destruct (take_whole_fields h l b r size Hs ltac:(lia) Hwhole)
      as (Em & (E1 & E2 & E3) & El & Eu & Ex).
    set (h1 := malloc_take h size (off b)) in *. clearbody h1. cbn [fin] in Hun.
    change (l ++ b :: r) with (l ++ [b] ++ r) in Hs.
    destruct (shape_edit h (put_magic h1 (heap_ptr h + off b) HEAP_MAGIC)
      l [b] [Blk (off b) (fin b) true] r (off b) (fin b) Hs) as [Hs' Hk'];
      auto; fields.
    + cbn. split_ands; reflexivity || lia.
    + cbn. split_ands; reflexivity || lia.
    + intros a Ha1 Ha2. rewrite Em. datas. reflexivity.
    + cbn [laid_out off]. split; [|exact I]. rewrite Em. hdrs. unfold hdr in Hh. rewrite Hh. reflexivity.
    + destruct r as [|n r]; [auto|]. right. destruct Hnx as [En Hnx]. unfold hdr in *; cbn.
      rewrite Em. hdrs. rewrite Hnx. reflexivity.
    + intros c Hcc Huu a Ha. apply list_elem_of_singleton in Hcc as ->. cbn in Ha.
      rewrite Em. datas. reflexivity.
    + fields. split_ands; auto; [repeat split; auto | |].
      * rewrite Eu. rewrite (proj1 Hun). exact Htot.
      * rewrite Ex, Eu. reflexivity.
Qed.

(** ** rt_malloc: the next free block becomes [lfree] *)

Lemma lfree_search_spec h bs :
  shape h bs -> chain_at h bs (lfree h - heap_ptr h) ->
  exists p, lfree_search h = Some p /\
    (p = heap_end h \/ exists b, b ∈ bs /\ busy b = false /\ p = heap_ptr h + off b) /\
    (forall b, b ∈ bs -> lfree h <= heap_ptr h + off b < p -> busy b = true).
Proof.
  intros Hs Hstart. pose proof (sh_end _ _ Hs) as Hend.
  set (I p := chain_at h bs (p - heap_ptr h) /\ lfree h <= p /\
    forall b, b ∈ bs -> lfree h <= heap_ptr h + off b < p -> busy b = true).
  assert (Hblock : forall p, chain_at h bs (p - heap_ptr h) -> p <> heap_end h ->
            exists b, b ∈ bs /\ p = heap_ptr h + off b /\ used (hdr h p) = Z.b2z (busy b) /\
                      next (hdr h p) = fin b).
  { intros p [E | (b & Hb & E)] Hne; [lia|]. exists b. assert (Ep : p = heap_ptr h + off b) by lia.
    subst p. destruct (shape_lookup _ _ _ Hs Hb) as (_ & ? & ?). auto. }
  unfold lfree_search.
  destruct (while_total I (fun p => heap_end h - p)
    (fun p => negb (used (hdr h p) =? 0) && negb (p =? heap_end h))
    (fun p => entry h (next (hdr h p)))) with (fuel := chain_fuel h) (s := lfree h)
    as (p & E & (Hc & _ & Hbusy) & Hstop).
  - intros p (Hc & Hlo & Hbusy) [Hu%negb_true_iff Hne%negb_true_iff]%andb_prop.
    apply Z.eqb_neq in Hne, Hu. destruct (Hblock p Hc Hne) as (b & Hb & Ep & Eu & En).
    rewrite Eu in Hu. destruct (busy b) eqn:Hbb; [|cbn in Hu; lia].
    destruct (chain_next _ _ _ Hs Hb) as [Hcn Hbetween]. pose proof (shape_bounds _ _ _ Hs Hb).
    unfold entry. rewrite En. split; [|lia]. unfold I.
    replace (heap_ptr h + fin b - heap_ptr h) with (fin b) by lia. split_ands; [exact Hcn | lia |].
    intros c Hcin [Hclo Hclt]. destruct (Z.eq_dec (off c) (off b)) as [Eo|Hne'].
    + rewrite (contiguous_off_inj _ _ _ _ _ (sh_blocks _ _ Hs) Hcin Hb Eo). exact Hbb.
    + apply Hbusy; [exact Hcin|]. specialize (Hbetween _ Hcin ltac:(lia)). lia.
  - unfold I. split_ands; [exact Hstart | lia |]. intros b _ Hb. lia.
  - pose proof (chain_range _ _ _ Hs Hstart). unfold chain_fuel, HDR in *.
    pose proof (sh_min _ _ Hs). lia.
  - pose proof (chain_range _ _ _ Hs Hstart). lia.
  - exists p. split_ands; auto. destruct (Z.eq_dec p (heap_end h)) as [|Hne]; [auto|]. right.
    destruct (Hblock p Hc Hne) as (b & Hb & Ep & Eu & _). exists b. split_ands; auto.
    destruct (Z.eqb_spec p (heap_end h)); [lia|]. rewrite andb_true_r, Eu in Hstop.
    destruct (busy b); [discriminate|reflexivity].
Qed.

(** ** rt_malloc *)

(** The size a request is rounded to. *)
Definition request (size : Z) : Z := Z.max MIN_SIZE_ALIGNED (RT_ALIGN size RT_ALIGN_SIZE).

Lemma request_aligned size : request size mod 4 = 0 /\ 12 <= request size.
Proof.
  unfold request. change MIN_SIZE_ALIGNED with 12. destruct (RT_ALIGN_mod4 size) as [Hm _].
  destruct (Z.max_spec 12 (RT_ALIGN size RT_ALIGN_SIZE)) as [[Hle ->]|[_ ->]];
    [split; [exact Hm | lia] | split; [reflexivity | lia]].
Qed.

(** The block the search finds for a request, if the request is accepted at all. *)
Definition malloc_block (h : Heap) (size : Z) (bs : list block) : option block :=
  if mem_size_aligned h <? RT_ALIGN size RT_ALIGN_SIZE then None
  else List.find (candidate h (request size)) bs.

(** [lfree] after the block [b] was taken. *)
Lemma lfree_after h h' l b r n :
  shape h (l ++ b :: r) -> lfree_ok h (l ++ b :: r) -> busy b = false -> 0 <= n ->
  lfree h <= heap_ptr h + off b ->
  shape h' (l ++ taken n b ++ r) -> same_heap h h' -> lfree h' = lfree h ->
  exists h'', (if entry h (off b) =? lfree h' then
                 p ← lfree_search h';
                 if (p =? heap_end h') || (used (hdr h' p) =? 0) then Some (h' <| lfree := p |>) else None
               else Some h') = Some h'' /\
    (exists p, h'' = h' <| lfree := p |>) /\ lfree_ok h'' (l ++ taken n b ++ r) /\
    (lfree_lowest h (l ++ b :: r) -> lfree_lowest h'' (l ++ taken n b ++ r)).
Proof.
  intros Hs Hlf Hfree Hn Hlo Hs' (E1 & E2 & E3) El. unfold entry.
  destruct (taken_cons n b Hn) as (rest & Et & Hrest). rewrite Et in *.
  pose proof (sh_blocks _ _ Hs) as Hc. apply contiguous_mid in Hc as (Hcl & _ & _ & Hcr).
  assert (Hnew : forall c, c ∈ l ++ (taken_head n b :: rest) ++ r -> busy c = false ->
            (c ∈ l ++ b :: r /\ off c <> off b) \/ off b < off c).
  { intros c Hcin Hcf. apply elem_of_app in Hcin as [Hcin|Hcin].
    - left. split; [apply elem_of_app; auto|]. pose proof (contiguous_bounds _ _ _ _ Hcl Hcin). lia.
    - cbn [app] in Hcin. apply elem_of_cons in Hcin as [-> | Hcin]; [discriminate|].
      apply elem_of_app in Hcin as [Hcin|Hcin].
      + right. rewrite Forall_forall in Hrest. apply Hrest. exact Hcin.
      + left. split; [apply elem_of_app; right; right; exact Hcin|].
        pose proof (contiguous_bounds _ _ _ _ Hcr Hcin).
        pose proof (shape_bounds _ _ _ Hs (elem_mid _ _ _)). lia. }
  destruct (Z.eqb_spec (heap_ptr h + off b) (lfree h')) as [Ea|Hne].
  - destruct (lfree_search_spec h' _ Hs') as (p & -> & Hp & Hbusy).
    { right. exists (taken_head n b). split; [apply elem_of_app; right; left|]. cbn. lia. }
    cbn [mbind option_bind].
    assert (Hcond : (p =? heap_end h') || (used (hdr h' p) =? 0) = true).
    { destruct Hp as [-> | (c & Hcin & Hcf & ->)]; [rewrite Z.eqb_refl; reflexivity|].
      destruct (shape_lookup _ _ _ Hs' Hcin) as (_ & -> & _). rewrite Hcf. apply orb_true_r. }
    rewrite Hcond. eexists. split; [reflexivity|]. split; [eauto|]. split.
    + destruct Hp as [-> | (c & Hcin & Hcf & ->)]; [left; reflexivity|]. right. exists c. auto.
    + intros Hlow c Hcin Hcf. unfold modify; cbn.
      destruct (Z.lt_ge_cases (heap_ptr h' + off c) p) as [Hlt|]; [|lia].
      assert (lfree h' <= heap_ptr h' + off c); [|rewrite Hbusy in Hcf; auto; discriminate].
      destruct (Hnew c Hcin Hcf) as [[Hold _]|]; [|lia].
      rewrite El, E1. apply Hlow; auto.
  - exists h'. split_ands; [reflexivity | exists (lfree h'); destruct h'; reflexivity | |].
    + destruct Hlf as [Hlf | (c & Hcin & Hcf & Ec)]; [left; congruence|]. right.
      exists c. rewrite El, E1. split_ands; auto.
      apply elem_of_app in Hcin as [Hcin|Hcin]; [apply elem_of_app; auto|].
      apply elem_of_cons in Hcin as [-> | Hcin]; [lia|].
      apply elem_of_app. right. apply elem_of_app. auto.
    + intros Hlow c Hcin Hcf. rewrite El, E1. destruct (Hnew c Hcin Hcf) as [[Hold _]|]; [auto|lia].
Qed.

Lemma rt_malloc_spec h bs size :
  heap_ok h bs -> 0 < size ->
  match malloc_block h size bs with
  | None => rt_malloc 0 h size = Some (h, 0)
  | Some b =>
      b ∈ bs /\ busy b = false /\ request size <= room b /\
      let bs' := on_block (taken (request size)) (off b) bs in
      exists h', rt_malloc 0 h size = Some (h', data h b) /\ heap_ok h' bs' /\
        keeps (heap_ptr h) bs' (memory h) (memory h') /\ same_heap h h' /\ max_mem h <= max_mem h' /\
        (lfree_lowest h bs -> lfree_lowest h' bs')
  end.
Proof.
  intros [Hs Ha Hlf Hu Hmax] Hpos. destruct (request_aligned size) as [Hr1 Hr2].
  pose proof (sh_min _ _ Hs) as Hmin. pose proof (sh_space _ _ Hs). pose proof (sh_ptr _ _ Hs).
  unfold malloc_block, rt_malloc. destruct (Z.eqb_spec size 0); [lia|]. cbn [Z.eqb negb].
  destruct (Z.ltb_spec (mem_size_aligned h) (RT_ALIGN size RT_ALIGN_SIZE)) as [|Hle]; [reflexivity|].
  change (if ?x <? MIN_SIZE_ALIGNED then _ else _) with (if x <? 12 then 12 else x).
  assert (Ereq : (if RT_ALIGN size RT_ALIGN_SIZE <? 12 then 12 else RT_ALIGN size RT_ALIGN_SIZE) = request size).
  { unfold request. change MIN_SIZE_ALIGNED with 12.
    destruct (Z.ltb_spec (RT_ALIGN size RT_ALIGN_SIZE) 12); lia. }
  rewrite Ereq. assert (Hreq : 12 <= request size <= mem_size_aligned h).
  { unfold request in *. change MIN_SIZE_ALIGNED with 12 in *. lia. }
  destruct (malloc_search_spec h bs (request size) Hs Hlf ltac:(lia)) as (ptr & -> & _ & Hbefore & Hat).
  cbn [mbind option_bind]. rewrite (u32_small (mem_size_aligned h - request size)) by lia.
  pose proof (search_find h bs (request size) ptr Hs Hbefore Hat) as Hfind.
  destruct (Z.ltb_spec ptr (mem_size_aligned h - request size)) as [Hlt|]; [|rewrite Hfind; reflexivity].
  destruct Hfind as (b & l & r & -> & Eo & -> & Hfree & Hroom). subst ptr.
  assert (Hlo : lfree h <= heap_ptr h + off b).
  { destruct (Hat Hlt) as (b' & _ & Eo' & Hc). unfold candidate in Hc. rewrite Eo' in Hc.
    destruct (Z.leb_spec (lfree h) (heap_ptr h + off b)); [assumption|discriminate]. }
  split; [apply elem_mid|]. split; [exact Hfree|]. split; [exact Hroom|]. cbv zeta.
  rewrite (on_block_mid _ _ _ _ _ _ (sh_blocks _ _ Hs)).
  destruct (taken_heap_spec h l b r (request size) Hs Hfree Hr1 ltac:(lia) Hu)
    as (Hs1 & Hk1 & Hsame & El & Eu & Ex).
  unfold taken_heap in *. set (h1 := put_magic _ _ _) in *.
  destruct (lfree_after h h1 l b r (request size) Hs Hlf Hfree ltac:(lia) Hlo Hs1 Hsame El)
    as (h2 & -> & (p & Eh2) & Hlf2 & Hlow2). cbn [mbind option_bind].
  clearbody h1. destruct Hsame as (E1 & E2 & E3). subst h2.
  pose proof (shape_bounds _ _ _ Hs (elem_mid _ _ _)) as Bb. pose proof (sh_end _ _ Hs) as Hend.
  pose proof (data_aligned _ _ _ Hs (elem_mid _ _ _)) as Hal. pose proof (sh_aligned _ _ Hs).
  unfold room, data, entry in *. rewrite SIZEOF_eq in *.
  assert (Hasserts : (heap_ptr h + off b + HDR + request size <=? heap_end h1) &&
    ((heap_ptr h + off b + HDR) mod RT_ALIGN_SIZE =? 0) &&
    (Z.land (heap_ptr h + off b) (RT_ALIGN_SIZE - 1) =? 0) = true).
  { unfold RT_ALIGN_SIZE. change (4 - 1) with 3. rewrite land3, Hal.
    destruct (Z.leb_spec (heap_ptr h + off b + HDR + request size) (heap_end h1)); [|lia].
    destruct (Z.eqb_spec ((heap_ptr h + off b) mod 4) 0) as [|Hno]; [reflexivity|].
    exfalso. apply Hno. Z.div_mod_to_equations. lia. }
  change (heap_end (h1 <| lfree := p |>)) with (heap_end h1). rewrite Hasserts.
  eexists. split; [reflexivity|]. split_ands; auto.
  - split; auto.
    + destruct Hs1. split; auto.
    + apply taken_alternating; assumption.
    + change (used_mem h1 <= max_mem h1 <= mem_size_aligned h1 + HDR). rewrite Ex, Eu, E3.
      pose proof (used_bounds _ _ Hs1). rewrite E3 in *. lia.
  - repeat split; assumption.
  - change (max_mem h <= max_mem h1). lia.
Qed.

(** ** What the calls mean for the blocks in use *)

(** [outside_data h bs a]: no client owns the byte at [a]. *)
Definition outside_data (h : Heap) (bs : list block) (a : Z) : Prop :=
  forall b, b ∈ bs -> busy b = true -> a < data h b \/ heap_ptr h + fin b <= a.

(** Clients may write into their blocks and below the heap. *)
Lemma heap_write h bs m :
  heap_ok h bs -> (forall a, heap_ptr h <= a -> outside_data h bs a -> load8 m a = load8 (memory h) a) ->
  heap_ok (h <| memory := m |>) bs.
Proof.
  intros [Hs Ha Hlf Hu Hmax] Hw. split; auto. pose proof (sh_end _ _ Hs) as Hend.
  assert (Hhdr : forall b, b ∈ bs -> header m (heap_ptr h + off b) = header (memory h) (heap_ptr h + off b)).
  { intros b Hb. pose proof (shape_bounds _ _ _ Hs Hb).
    apply header_frame. intros a Hr. apply Hw; [lia|]. intros c Hc _. pose proof (shape_bounds _ _ _ Hs Hc).
    unfold data. rewrite SIZEOF_eq. unfold HDR.
    destruct (contiguous_disjoint _ _ _ _ _ (sh_blocks _ _ Hs) Hb Hc) as [<-|[]]; lia. }
  destruct Hs. split; auto.
  - cbn. assert (Ee : header m (heap_end h) = header (memory h) (heap_end h)).
    { unfold HDR in *. apply header_frame. intros a Hr. apply Hw; [lia|]. intros c Hc _.
      pose proof (contiguous_bounds _ _ _ _ sh_blocks0 Hc). lia. }
    unfold hdr in *. cbn. rewrite Ee. exact sh_last0.
  - cbn. eapply laid_out_frame; [|exact sh_headers0]. exact Hhdr.
Qed.

Lemma client_write h bs m :
  heap_ok h bs -> (forall a, outside_data h bs a -> load8 m a = load8 (memory h) a) ->
  heap_ok (h <| memory := m |>) bs.
Proof. intros Hok Hw. apply heap_write; auto. Qed.

(** The blocks in use after the operations. *)
Lemma in_on_block f o bs c :
  c ∈ on_block f o bs <-> exists b, b ∈ bs /\ if off b =? o then c ∈ f b else c = b.
Proof.
  unfold on_block. rewrite !list_elem_of_In, in_flat_map.
  split; intros (b & Hb & Hc); exists b; rewrite list_elem_of_In in *; (split; [assumption|]);
    destruct (off b =? o); rewrite <- ?list_elem_of_In in *; auto.
  - apply list_elem_of_singleton in Hc. exact Hc.
  - apply list_elem_of_singleton. exact Hc.
Qed.

Lemma busy_release o bs E b c :
  contiguous 0 bs E -> b ∈ bs -> o = off b -> busy c = true ->
  c ∈ release o bs <-> c ∈ bs /\ c <> b.
Proof.
  intros Hc Hb -> Hu. unfold release. rewrite (coalesce_busy _ _ Hu), in_on_block. split.
  - intros (d & Hd & H). destruct (Z.eqb_spec (off d) (off b)) as [E'|Hne].
    + apply list_elem_of_singleton in H as ->. discriminate.
    + subst d. split; [exact Hd|]. intros ->. congruence.
  - intros [Hin Hne]. exists c. split; [exact Hin|].
    destruct (Z.eqb_spec (off c) (off b)) as [E'|]; [|reflexivity].
    exfalso. apply Hne. eapply contiguous_off_inj; eauto.
Qed.

Lemma busy_taken n bs E b c :
  contiguous 0 bs E -> b ∈ bs -> busy b = false -> 0 <= n -> busy c = true ->
  c ∈ on_block (taken n) (off b) bs <-> c = taken_head n b \/ c ∈ bs.
Proof.
  intros Hc Hb Hf Hn Hu. rewrite in_on_block.
  destruct (taken_cons n b Hn) as (rest & Et & Hrest). split.
  - intros (d & Hd & H). destruct (Z.eqb_spec (off d) (off b)) as [E'|Hne]; [|subst d; auto].
    rewrite (contiguous_off_inj _ _ _ _ _ Hc Hd Hb E'), Et in H.
    apply elem_of_cons in H as [-> | H]; [auto|].
    rewrite Forall_forall in Hrest. destruct (Hrest _ H) as [H1 _]. congruence.
  - intros [-> | Hin].
    + exists b. rewrite Z.eqb_refl, Et. split; [exact Hb | left].
    + exists c. split; [exact Hin|]. destruct (Z.eqb_spec (off c) (off b)) as [E'|]; [|reflexivity].
      rewrite (contiguous_off_inj _ _ _ _ _ Hc Hin Hb E') in Hu. congruence.
Qed.

Lemma busy_shrink n bs E b c :
  contiguous 0 bs E -> b ∈ bs -> busy c = true ->
  c ∈ shrink n (off b) bs <-> c = Blk (off b) (off b + HDR + n) true \/ (c ∈ bs /\ c <> b).
Proof.
  intros Hc Hb Hu. unfold shrink. rewrite (coalesce_busy _ _ Hu), in_on_block. split.
  - intros (d & Hd & H). destruct (Z.eqb_spec (off d) (off b)) as [E'|Hne].
    + rewrite (contiguous_off_inj _ _ _ _ _ Hc Hd Hb E') in H.
      apply elem_of_cons in H as [-> | H]; [auto|].
      apply list_elem_of_singleton in H as ->. discriminate.
    + subst d. right. split; [exact Hd|]. intros ->. congruence.
  - intros [-> | [Hin Hne]].
    + exists b. rewrite Z.eqb_refl. split; [exact Hb | left].
    + exists c. split; [exact Hin|]. destruct (Z.eqb_spec (off c) (off b)) as [E'|]; [|reflexivity].
      exfalso. apply Hne. eapply contiguous_off_inj; eauto.
Qed.

Lemma same_heap_trans h1 h2 h3 : same_heap h1 h2 -> same_heap h2 h3 -> same_heap h1 h3.
Proof. unfold same_heap. intuition congruence. Qed.
Lemma same_heap_data h h' b : same_heap h h' -> data h' b = data h b.
Proof. intros (E & _). unfold data. rewrite E. reflexivity. Qed.
Create HintDb heap.
#[export] Hint Resolve same_heap_trans same_stats_trans keeps_trans : heap.

(** ** rt_realloc: cutting a block *)

Lemma set_used_same m a v c : load16 m (a + 2) = v -> load8 (set_used m a v) c = load8 m c.
Proof. intros H. apply (set_magic_same m (a + 2) v c H). Qed.

Lemma realloc_mark_fields h l b r n :
  shape h (l ++ b :: r) -> busy b = true -> 4 <= n -> n + HDR + 4 <= room b ->
  let h' := realloc_mark h (heap_ptr h + off b) n in
  (forall a, load8 (memory h') a =
     load8 (split_memory (memory h) (heap_ptr h) b (off b + HDR + n)
             (negb (fin b =? mem_size_aligned h + HDR))) a) /\
  same_heap h h' /\ lfree h' = lfree h /\ used_mem h' = u32 (used_mem h - (room b - n)) /\
  max_mem h' = max_mem h.
Proof.
  intros Hs Hbusy Hn Hroom. cbv zeta. pose proof (shape_header _ _ _ _ Hs) as Hh.
  pose proof (shape_bounds _ _ _ Hs (elem_mid _ _ _)) as Bb. unfold room in *.
  pose proof (sh_space _ _ Hs). pose proof (sh_ptr _ _ Hs).
  unfold realloc_mark, entry. rewrite SIZEOF_eq, Hh. cbn [next expected]. unfold HDR in *.
  replace (heap_ptr h + off b - heap_ptr h) with (off b) by lia.
  rewrite (u32_small (off b)), (u32_small (fin b - off b - 12)), (u32_small (off b + 12 + n)),
    (u32_small (fin b - off b - 12 - n)) by lia.
  unfold hdr in Hh. fields. statics.
  hdrs. rewrite Hh. hfields. rewrite (u32_small (fin b)), (u32_small (mem_size_aligned h + 12)) by lia.
  unfold split_memory, HDR.
  match goal with |- context [set_used ?m (heap_ptr h + off b) 1] => set (M := m) end.
  assert (Hm : mem_eq M (set_used M (heap_ptr h + off b) 1)).
  { intros c. symmetry. apply set_used_same. unfold M.
    change (load16 ?m (?a + 2)) with (used (header m a)). hdrs. rewrite Hh. cbn. rewrite Hbusy. reflexivity. }
  destruct (negb (fin b =? mem_size_aligned h + 12)); fields; cbn [memory heap_ptr heap_end lfree mem_size_aligned used_mem max_mem];
    split_ands; try (repeat split; reflexivity).
  - intros a. exact (store32_proper _ _ Hm _ _ eq_refl _ _ eq_refl a).
  - f_equal; lia.
  - intros a. exact (Hm a).
  - f_equal; lia.
Qed.

Lemma alternating_parts l b r : alternating (l ++ b :: r) -> alternating l /\ alternating r.
Proof.
  intros Ha. split; [eapply alternating_app_l; exact Ha|].
  eapply alternating_tail, alternating_app_r; exact Ha.
Qed.

Lemma realloc_split_spec h bs b n :
  heap_ok h bs -> b ∈ bs -> busy b = true -> 4 <= n -> n mod 4 = 0 -> n + HDR + 12 < room b ->
  exists h', realloc_split h (heap_ptr h + off b) n = Some h' /\ heap_ok h' (shrink n (off b) bs) /\
    keeps (heap_ptr h) (shrink n (off b) bs) (memory h) (memory h') /\ same_heap h h'.
Proof.
  intros [Hs Ha Hlf Hu Hmax] Hb Hbusy Hn Hn4 Hroom. pose proof (shape_bounds _ _ _ Hs Hb) as Bb.
  pose proof (sh_ptr _ _ Hs). pose proof (sh_space _ _ Hs).
  apply list_elem_of_split in Hb as (l & r & ->).
  destruct (realloc_mark_fields h l b r n Hs Hbusy Hn ltac:(unfold HDR in *; lia))
    as (Em & (E1 & E2 & E3) & El & Eu & Ex).
  unfold realloc_split. set (h1 := realloc_mark h (heap_ptr h + off b) n) in *. clearbody h1.
  destruct (split_shape h h1 l b r n Hs Hn Hn4 ltac:(unfold HDR in *; lia) Em (conj E1 (conj E2 E3)))
    as [Hs1 Hk1].
  set (b1 := Blk (off b) (off b + HDR + n) true). set (b2 := Blk (off b + HDR + n) (fin b) false).
  assert (Esplit : l ++ cut n b ++ r = (l ++ [b1]) ++ b2 :: r) by (rewrite <- app_assoc; reflexivity).
  rewrite Esplit in *. destruct (alternating_parts _ _ _ Ha) as [Hal Har].
  assert (Eaddr : entry h (u32 (u32 (heap_ptr h + off b - heap_ptr h) + SIZEOF_STRUCT_MEM + n)) =
                  heap_ptr h1 + off b2).
  { unfold entry, room in *. rewrite SIZEOF_eq, E1. cbn. unfold HDR in *.
    replace (heap_ptr h + off b - heap_ptr h) with (off b) by lia.
    rewrite (u32_small (off b)), u32_small by lia. reflexivity. }
  rewrite Eaddr.
  destruct (plug_holes_spec h1 (l ++ [b1]) b2 r Hs1 eq_refl) as (h' & -> & Hs' & Hk' & Hst & Hlf' & _);
    [apply alternating_busy; auto; exact I | exact Har |].
  assert (Eshrink : shrink n (off b) (l ++ b :: r) = coalesce ((l ++ [b1]) ++ b2 :: r)).
  { unfold shrink. rewrite (on_block_mid _ _ _ _ _ _ (sh_blocks _ _ Hs)), Esplit. reflexivity. }
  rewrite Eshrink. destruct Hst as (S1 & S2 & S3 & S4 & S5).
  assert (Hused : used_mem h1 = total_used ((l ++ [b1]) ++ b2 :: r)).
  { rewrite Eu, Hu, <- Esplit. change (l ++ b :: r) with (l ++ [b] ++ r). rewrite !total_used_mid.
    pose proof (sh_blocks _ _ Hs) as Hc. apply contiguous_mid in Hc as (Hcl & _ & _ & Hcr).
    pose proof (total_used_bounds _ _ _ Hcl). pose proof (total_used_bounds _ _ _ Hcr).
    unfold total_used at 2 5. cbn [foldr busy cut off fin]. rewrite Hbusy. unfold room, HDR in *.
    rewrite u32_small; lia. }
  exists h'. split; [reflexivity|]. split_ands.
  - split; [exact Hs' | apply coalesce_alternating | | |].
    + apply Hlf'. destruct Hlf as [Hlf | (c & Hc & Hf & Ec)]; [left; congruence|]. right.
      exists c. rewrite El, E1. split_ands; auto. rewrite <- Esplit.
      apply elem_of_app in Hc as [Hc|Hc]; [apply elem_of_app; auto|].
      apply elem_of_cons in Hc as [-> | Hc]; [congruence|].
      apply elem_of_app. right. apply elem_of_app. auto.
    + rewrite S4, coalesce_used. exact Hused.
    + rewrite S4, S5, S3, E3, Ex. pose proof (used_bounds _ _ Hs) as Hub. rewrite <- Hu in Hub.
      rewrite Eu in *. unfold room, HDR in *.
      assert (fin b - (off b + 12) - n <= used_mem h); [|rewrite u32_small; lia].
      rewrite Hu. change (l ++ b :: r) with (l ++ [b] ++ r). rewrite total_used_mid.
      pose proof (sh_blocks _ _ Hs) as Hc. apply contiguous_mid in Hc as (Hcl & _ & _ & Hcr).
      pose proof (total_used_bounds _ _ _ Hcl). pose proof (total_used_bounds _ _ _ Hcr).
      unfold total_used at 2. cbn [foldr]. rewrite Hbusy. lia.
  - rewrite E1 in Hk'. eapply keeps_trans; [|exact Hk']. eapply keeps_mono; [|exact Hk1].
    intros c Hc Hcu. apply (coalesce_busy _ _ Hcu). exact Hc.
  - repeat split; congruence.
Qed.

(** ** The client's view of a call *)

Lemma keeps_data h bs' m' d :
  keeps (heap_ptr h) bs' (memory h) m' -> d ∈ bs' -> busy d = true ->
  same_on (memory h) m' (data h d) (heap_ptr h + fin d).
Proof. intros Hk Hd Hu. exact (Hk d Hd Hu). Qed.

Lemma rt_calloc_spec h bs count size :
  heap_ok h bs -> 0 < u32 (count * size) <= INT_MAX ->
  match malloc_block h (u32 (count * size)) bs with
  | None => rt_calloc 0 h count size = Some (h, 0)
  | Some b =>
      let bs' := on_block (taken (request (u32 (count * size)))) (off b) bs in
      exists h', rt_calloc 0 h count size = Some (h', data h b) /\ heap_ok h' bs' /\ same_heap h h' /\
        (forall d, d ∈ bs -> busy d = true -> same_on (memory h) (memory h') (data h d) (heap_ptr h + fin d)) /\
        (forall i, 0 <= i < u32 (count * size) -> load8 (memory h') (data h b + i) = 0) /\
        (lfree_lowest h bs -> lfree_lowest h' bs')
  end.
Proof.
  intros Hok Hsize. pose proof (rt_malloc_spec h bs (u32 (count * size)) Hok ltac:(lia)) as Hm.
  unfold rt_calloc. set (sz := u32 (count * size)) in *.
  destruct (malloc_block h sz bs) as [b|]; [|rewrite Hm; reflexivity].
  destruct Hm as (Hb & Hfree & Hroom & h1 & -> & Hok1 & Hk1 & Hsame & Hmax1 & Hlow1).
  cbn [mbind option_bind]. pose proof (ok_shape _ _ Hok) as Hs.
  pose proof (sh_ptr _ _ Hs). pose proof (shape_bounds _ _ _ Hs Hb) as Bb.
  destruct (request_aligned sz) as [_ Hreq].
  assert (Hsz : sz <= request sz).
  { unfold request. pose proof (RT_ALIGN_4 sz) as E. rewrite E by (unfold INT_MAX in *; lia).
    Z.div_mod_to_equations. lia. }
  destruct (Z.eqb_spec (data h b) 0) as [E|_].
  { unfold data in E. rewrite SIZEOF_eq in E. unfold HDR in E. lia. }
  cbn [negb]. destruct (rt_memset_spec (memory h1) (data h b) 0 sz ltac:(lia)) as (m & -> & Hfill).
  cbn [mbind option_bind fmap option_fmap option_map]. exists (h1 <| memory := m |>).
  split; [reflexivity|].
  assert (Hin : taken_head (request sz) b ∈ on_block (taken (request sz)) (off b) bs).
  { apply (busy_taken _ _ _ _ _ (sh_blocks _ _ Hs)); auto; lia. }
  assert (Hend : heap_ptr h + fin (taken_head (request sz) b) >= data h b + sz).
  { unfold data, taken_head, room in *. rewrite SIZEOF_eq. cbn [fin].
    destruct (_ <=? _); unfold HDR in *; lia. }
  split_ands.
  - apply client_write; [exact Hok1|]. intros a Ha. rewrite (Hfill a). apply fill_other.
    specialize (Ha _ Hin eq_refl). rewrite (same_heap_data _ _ _ Hsame) in Ha.
    destruct Hsame as (E & _). rewrite E in Ha.
    change (data h (taken_head (request sz) b)) with (data h b) in Ha. lia.
  - destruct Hsame as (E1 & E2 & E3). repeat split; assumption.
  - intros d Hd Hu a Ha. cbn. rewrite (Hfill a), fill_other.
    + apply (keeps_data _ _ _ d Hk1); auto.
      apply (busy_taken (request sz) _ _ b d (sh_blocks _ _ Hs) Hb Hfree ltac:(lia) Hu). auto.
    + assert (Hne : d <> b) by congruence. pose proof (shape_bounds _ _ _ Hs Hd) as Bd.
      destruct (contiguous_disjoint _ _ _ _ _ (sh_blocks _ _ Hs) Hb Hd) as [|[]]; [congruence| |];
        unfold data, room in *; rewrite SIZEOF_eq in *; unfold HDR in *; lia.
  - intros i Hi. cbn. rewrite (Hfill _), load8_fill.
    destruct (Z.leb_spec (data h b) (data h b + i)), (Z.ltb_spec (data h b + i) (data h b + sz)); try lia.
    reflexivity.
  - exact Hlow1.
Qed.

Lemma rt_system_heap_init_spec h begin_addr end_addr :
  0 < begin_addr <= 4294967200 -> 0 <= end_addr < 4294967296 ->
  used_mem h = 0 -> max_mem h = 0 -> begin_addr + 40 <= end_addr - 3 ->
  exists h', rt_system_heap_init 0 h begin_addr end_addr = Some h' /\
    heap_ok h' [Blk 0 (mem_size_aligned h' + HDR) false] /\
    lfree_lowest h' [Blk 0 (mem_size_aligned h' + HDR) false] /\
    begin_addr <= heap_ptr h' < begin_addr + 4 /\ end_addr - 4 < heap_end h' + HDR <= end_addr.
Proof.
  intros Hb He Hu Hx Hroom. unfold rt_system_heap_init. rewrite SIZEOF_eq. cbn [Z.eqb negb]. unfold HDR.
  rewrite RT_ALIGN_DOWN_4, RT_ALIGN_4 by lia.
  set (ba := begin_addr + 3 - (begin_addr + 3) mod 4). set (ea := end_addr - end_addr mod 4).
  assert (Hba : begin_addr <= ba < begin_addr + 4 /\ ba mod 4 = 0).
  { unfold ba. clear. Z.div_mod_to_equations. lia. }
  assert (Hea : end_addr - 4 < ea <= end_addr /\ ea mod 4 = 0).
  { unfold ea. clear. Z.div_mod_to_equations. lia. }
  clearbody ba ea. rewrite (u32_small (ea - 2 * 12)), (u32_small (ea - ba - 2 * 12)) by lia.
  destruct (Z.ltb_spec (2 * 12) ea); [|lia]. destruct (Z.leb_spec ba (ea - 2 * 12)); [|lia].
  cbn [andb]. set (msa := ea - ba - 2 * 12). assert (Emsa : msa = ea - ba - 24) by reflexivity. clearbody msa.
  fields. statics. fields. statics. rewrite (u32_small (msa + 12)) by lia. hdrs. hfields.
  rewrite (u32_small (msa + 12)) by lia.
  eexists. split; [reflexivity|].
  assert (Hm4 : (msa + 12) mod 4 = 0) by (rewrite Emsa; Z.div_mod_to_equations; lia).
  split_ands; statics; fields; statics; try lia.
  - split; statics; fields; statics; try lia.
    + split; statics; fields; statics; try lia.
      * reflexivity.
      * hdrs. hfields. rewrite (u32_small (msa + 12)) by lia. split; reflexivity.
      * cbn. unfold HDR. split_ands; reflexivity || lia.
      * split; [|exact I]. cbn [off]. rewrite Z.add_0_r. hdrs. unfold expected, modify; cbn.
        rewrite (u32_small (msa + 12)) by lia. reflexivity.
    + exact I.
    + right. exists (Blk 0 (msa + 12) false). cbn. split_ands; [left | reflexivity | lia].
    + exact Hu.
    + rewrite Hu, Hx. unfold HDR. lia.
  - intros b Hin%list_elem_of_singleton Hf. subst b. cbn. lia.
Qed.

(** ** rt_realloc *)

Lemma RT_ALIGN_bounds n :
  0 <= n <= 4294967292 ->
  n <= RT_ALIGN n RT_ALIGN_SIZE < n + 4 /\ RT_ALIGN n RT_ALIGN_SIZE mod 4 = 0.
Proof. intros H. rewrite RT_ALIGN_4 by exact H. Z.div_mod_to_equations. lia. Qed.

(** The last part of [rt_realloc]: the data move to the new block, the old one is
    released. *)
Lemma realloc_move h bs b c h1 n :
  heap_ok h bs -> b ∈ bs -> busy b = true -> c ∈ bs -> busy c = false -> 12 <= n <= room c ->
  let bs1 := on_block (taken n) (off c) bs in
  heap_ok h1 bs1 -> keeps (heap_ptr h) bs1 (memory h) (memory h1) -> same_heap h h1 ->
  forall len, 0 <= len <= room b -> len <= n -> len <= INT_MAX ->
  exists m h', rt_memcpy (memory h1) (data h c) (data h b) len = Some m /\
    rt_free 0 (h1 <| memory := m |>) (data h b) = Some h' /\
    heap_ok h' (release (off b) bs1) /\ same_heap h h' /\
    (forall i, 0 <= i < len -> load8 (memory h') (data h c + i) = load8 (memory h) (data h b + i)) /\
    (forall d, d ∈ bs -> busy d = true -> d <> b ->
       same_on (memory h) (memory h') (data h d) (heap_ptr h + fin d)).
Proof.
  intros Hok Hb Hbusy Hc Hfree Hn bs1 Hok1 Hk1 Hsame len Hlen1 Hlen2 Hlen3.
  pose proof (ok_shape _ _ Hok) as Hs. pose proof (sh_blocks _ _ Hs) as Hbs.
  pose proof (shape_bounds _ _ _ Hs Hb) as Bb. pose proof (shape_bounds _ _ _ Hs Hc) as Bc.
  assert (Hin : forall d, busy d = true -> d ∈ bs1 <-> d = taken_head n c \/ d ∈ bs).
  { intros d Hd. apply (busy_taken n bs _ c d Hbs Hc Hfree ltac:(lia) Hd). }
  assert (Hhead : data h c + n <= heap_ptr h + fin (taken_head n c) <= heap_ptr h + fin c /\
                  data h (taken_head n c) = data h c).
  { unfold data, taken_head, room in *. rewrite SIZEOF_eq. cbn [fin off].
    destruct (Z.leb_spec (n + HDR + 12) (fin c - (off c + HDR))); unfold HDR in *; lia. }
  assert (Hapart : forall d, d ∈ bs -> busy d = true ->
            heap_ptr h + fin d <= data h c \/ heap_ptr h + fin c <= data h d).
  { intros d Hd Hu. pose proof (shape_bounds _ _ _ Hs Hd).
    destruct (contiguous_disjoint _ _ _ _ _ Hbs Hc Hd) as [<-|[]]; [congruence| |];
      unfold data; rewrite SIZEOF_eq; unfold HDR; lia. }
  assert (Hbroom : data h b + room b = heap_ptr h + fin b).
  { unfold data, room. rewrite SIZEOF_eq. unfold HDR. lia. }
  destruct (rt_memcpy_spec (memory h1) (data h c) (data h b) len) as (m & -> & Hcopy);
    [destruct (Hapart b Hb Hbusy); lia | lia |].
  exists m. assert (Hw : heap_ok (h1 <| memory := m |>) bs1).
  { apply client_write; [exact Hok1|]. intros a Ha. rewrite (Hcopy a). apply copy_other.
    specialize (Ha (taken_head n c) (proj2 (Hin (taken_head n c) eq_refl) (or_introl eq_refl)) eq_refl).
    rewrite (same_heap_data _ _ _ Hsame) in Ha. destruct Hsame as (E1 & _). rewrite E1 in Ha. lia. }
  assert (Hb1 : b ∈ bs1) by (apply Hin; auto).
  destruct (rt_free_spec _ _ _ Hw Hb1 Hbusy) as (h' & Ef & Hok' & Hk' & Hsame' & _).
  assert (Ed : forall d, data (h1 <| memory := m |>) d = data h d).
  { intros d. unfold data; cbn. destruct Hsame as (-> & _). reflexivity. }
  rewrite Ed in Ef. exists h'. split; [reflexivity|]. split; [exact Ef|]. split; [exact Hok'|].
  split; [destruct Hsame as (E1 & E2 & E3), Hsame' as (F1 & F2 & F3); repeat split; cbn in *; congruence|].
  assert (Hrel : forall d, d ∈ bs1 -> busy d = true -> d <> b ->
            same_on m (memory h') (data h d) (heap_ptr h + fin d)).
  { intros d Hd Hu Hne. pose proof (keeps_data (h1 <| memory := m |>) _ _ d Hk') as K.
    rewrite Ed in K. cbn in K. destruct Hsame as (E1 & _). rewrite E1 in K. apply K; [|exact Hu].
    apply (busy_release _ _ _ b d (sh_blocks _ _ (ok_shape _ _ Hok1)) Hb1 eq_refl Hu). auto. }
  split.
  - intros i Hi. rewrite <- (Hrel (taken_head n c)).
    + rewrite (Hcopy _), load8_copy.
      destruct (Z.leb_spec (data h c) (data h c + i)), (Z.ltb_spec (data h c + i) (data h c + len)); try lia.
      cbn [andb]. replace (data h b + (data h c + i - data h c)) with (data h b + i) by lia.
      symmetry. apply (keeps_data _ _ _ b Hk1); auto. lia.
    + apply Hin; auto.
    + reflexivity.
    + intros E. pose proof (f_equal off E) as Eo. cbn in Eo.
      rewrite (contiguous_off_inj _ _ _ _ _ Hbs Hc Hb Eo) in Hfree. congruence.
    + destruct Hhead as [Hh ->]. lia.
  - intros d Hd Hu Hne a Ha. rewrite <- (Hrel d) by (auto; apply Hin; auto).
    rewrite (Hcopy a), copy_other by (destruct (Hapart d Hd Hu); lia).
    apply (keeps_data _ _ _ d Hk1); auto. apply Hin; auto.
Qed.

(** What [rt_realloc] of a live block promises: the old block kept when there is
    no room, otherwise a block with the size asked for and the old contents. *)
Definition realloc_result (h : Heap) (bs : list block) (b : block) (a : Z) (h' : Heap) (p : Z) : Prop :=
  (p = 0 /\ h' = h) \/
  exists c bs', heap_ok h' bs' /\ same_heap h h' /\ c ∈ bs' /\ busy c = true /\ (c ∈ bs -> c = b) /\
    p = data h c /\ a <= room c /\
    (forall i, 0 <= i < Z.min a (room b) -> load8 (memory h') (p + i) = load8 (memory h) (data h b + i)) /\
    (forall d, busy d = true -> d ∈ bs' <-> d = c \/ (d ∈ bs /\ d <> b)) /\
    (forall d, d ∈ bs -> busy d = true -> d <> b ->
       same_on (memory h) (memory h') (data h d) (heap_ptr h + fin d)).

(** How the call starts for a block in use. *)
Lemma rt_realloc_start h bs b newsize :
  heap_ok h bs -> b ∈ bs -> RT_ALIGN newsize RT_ALIGN_SIZE <> 0 ->
  let a := RT_ALIGN newsize RT_ALIGN_SIZE in
  rt_realloc 0 h (data h b) newsize =
  if mem_size_aligned h <? a then Some (h, 0)
  else if room b =? a then Some (h, data h b)
  else if a + HDR + 12 <? room b then h1 ← realloc_split h (heap_ptr h + off b) a; Some (h1, data h b)
  else '(h1, nmem) ← rt_malloc 0 h a;
       if negb (nmem =? 0) then
         m ← rt_memcpy (memory h1) nmem (data h b) (Z.min (room b) a);
         h2 ← rt_free 0 (h1 <| memory := m |>) (data h b);
         Some (h2, nmem)
       else Some (h1, nmem).
Proof.
  intros Hok Hb Ha. cbv zeta. set (a := RT_ALIGN newsize RT_ALIGN_SIZE) in *.
  pose proof (ok_shape _ _ Hok) as Hs. pose proof (shape_bounds _ _ _ Hs Hb) as Bb.
  pose proof (sh_ptr _ _ Hs). pose proof (sh_space _ _ Hs). pose proof (sh_end _ _ Hs).
  destruct (shape_lookup _ _ _ Hs Hb) as (_ & _ & Hn).
  unfold rt_realloc. fold a. cbn [Z.eqb negb].
  destruct (Z.ltb_spec (mem_size_aligned h) a) as [|Hle]; [reflexivity|].
  destruct (Z.eqb_spec a 0) as [|_]; [contradiction|].
  unfold data in *. rewrite SIZEOF_eq. unfold HDR in *.
  destruct (Z.eqb_spec (heap_ptr h + off b + 12) 0); [lia|].
  destruct (Z.ltb_spec (heap_ptr h + off b + 12) (heap_ptr h)); [lia|].
  destruct (Z.leb_spec (heap_end h) (heap_ptr h + off b + 12)); [lia|]. cbn [orb].
  replace (heap_ptr h + off b + 12 - 12) with (heap_ptr h + off b) by lia. rewrite Hn.
  replace (heap_ptr h + off b - heap_ptr h) with (off b) by lia.
  assert (0 <= a <= 4294967292) by apply RT_ALIGN_mod4.
  rewrite (u32_small (off b)), (u32_small (fin b - off b - 12)), (u32_small (a + 12 + MIN_SIZE))
    by (unfold MIN_SIZE; lia).
  replace (fin b - off b - 12) with (room b) by (unfold room, HDR; lia). unfold MIN_SIZE.
  replace (if room b <? a then room b else a) with (Z.min (room b) a)
    by (destruct (Z.ltb_spec (room b) a); lia).
  reflexivity.
Qed.

Lemma rt_realloc_spec h bs b newsize :
  heap_ok h bs -> b ∈ bs -> busy b = true -> 0 < newsize <= 4294967292 ->
  mem_size_aligned h <= INT_MAX ->
  exists h' p, rt_realloc 0 h (data h b) newsize = Some (h', p) /\
    realloc_result h bs b (RT_ALIGN newsize RT_ALIGN_SIZE) h' p.
Proof.
  intros Hok Hb Hbusy Hsize Hmax.
  destruct (RT_ALIGN_bounds newsize ltac:(lia)) as [Hal Hal4].
  rewrite (rt_realloc_start h bs b newsize Hok Hb) by lia. cbv zeta.
  set (a := RT_ALIGN newsize RT_ALIGN_SIZE) in *. assert (Ha4 : 4 <= a).
  { clearbody a. Z.div_mod_to_equations. lia. }
  pose proof (ok_shape _ _ Hok) as Hs. pose proof (shape_bounds _ _ _ Hs Hb) as Bb.
  pose proof (sh_ptr _ _ Hs) as Hptr.
  destruct (Z.ltb_spec (mem_size_aligned h) a) as [|Hle]; [do 2 eexists; split; [reflexivity|left; auto]|].
  destruct (Z.eqb_spec (room b) a) as [Er|Hne].
  { do 2 eexists. split; [reflexivity|]. right. exists b, bs. split_ands; auto; try lia.
    - repeat split.
    - intros d Hd. split; [|intros [->|[? _]]; auto]. intros Hin.
      destruct (decide (d = b)); auto.
    - intros d _ _ _ x _. reflexivity. }
  destruct (Z.ltb_spec (a + HDR + 12) (room b)) as [Hcut|Hgrow].
  - destruct (realloc_split_spec h bs b a Hok Hb Hbusy Ha4 Hal4 Hcut) as (h' & -> & Hok' & Hk & Hsame).
    cbn [mbind option_bind]. do 2 eexists. split; [reflexivity|]. right.
    assert (Hin : forall d, busy d = true ->
      d ∈ shrink a (off b) bs <-> d = Blk (off b) (off b + HDR + a) true \/ (d ∈ bs /\ d <> b)).
    { intros d Hd. apply (busy_shrink a bs _ b d (sh_blocks _ _ Hs) Hb Hd). }
    exists (Blk (off b) (off b + HDR + a) true), (shrink a (off b) bs).
    split; [exact Hok'|]. split; [exact Hsame|]. split; [apply Hin; auto|]. split; [reflexivity|].
    split; [intros Hx; apply (contiguous_off_inj _ _ _ _ _ (sh_blocks _ _ Hs) Hx Hb eq_refl)|].
    split; [reflexivity|]. split; [unfold room, HDR; cbn; lia|]. split; [|split; [exact Hin|]].
    + intros i Hi. symmetry.
      apply (keeps_data _ _ _ (Blk (off b) (off b + HDR + a) true) Hk); [apply Hin; auto | reflexivity |].
      unfold data. cbn. rewrite SIZEOF_eq. lia.
    + intros d Hd Hu Hne'. apply (keeps_data _ _ _ d Hk); auto. apply Hin; auto.
  - pose proof (rt_malloc_spec h bs a Hok ltac:(lia)) as Hm.
    destruct (malloc_block h a bs) as [c|].
    2: { rewrite Hm. cbn [mbind option_bind]. do 2 eexists. split; [reflexivity|left; auto]. }
    destruct Hm as (Hc & Hfree & Hroom & h1 & -> & Hok1 & Hk1 & Hsame & _). cbn [mbind option_bind].
    destruct (request_aligned a) as [_ Hreq].
    assert (Hra : a <= request a).
    { unfold request. pose proof (RT_ALIGN_mod4 newsize) as Hr. fold a in Hr.
      destruct (RT_ALIGN_bounds a ltac:(lia)). lia. }
    assert (Hnz : negb (data h c =? 0) = true).
    { apply negb_true_iff, Z.eqb_neq. pose proof (shape_bounds _ _ _ Hs Hc). unfold data.
      rewrite SIZEOF_eq. unfold HDR. lia. }
    rewrite Hnz.
    destruct (realloc_move h bs b c h1 (request a) Hok Hb Hbusy Hc Hfree ltac:(lia) Hok1 Hk1 Hsame
      (Z.min (room b) a)) as (m & h' & -> & E & Hok' & Hsame' & Hmoved & Hothers);
      [unfold room, HDR; lia | lia | lia |].
    cbn [mbind option_bind]. rewrite E. cbn [mbind option_bind]. do 2 eexists. split; [reflexivity|]. right.
    assert (Hb1 : b ∈ on_block (taken (request a)) (off c) bs).
    { apply (busy_taken (request a) bs _ c b (sh_blocks _ _ Hs) Hc Hfree ltac:(lia) Hbusy). auto. }
    assert (Hne' : taken_head (request a) c <> b).
    { intros E'. pose proof (f_equal off E') as Eo. cbn in Eo.
      rewrite (contiguous_off_inj _ _ _ _ _ (sh_blocks _ _ Hs) Hc Hb Eo) in Hfree. congruence. }
    assert (Hin : forall d, busy d = true ->
      d ∈ release (off b) (on_block (taken (request a)) (off c) bs) <->
      d = taken_head (request a) c \/ (d ∈ bs /\ d <> b)).
    { intros d Hd.
      rewrite (busy_release _ _ _ b d (sh_blocks _ _ (ok_shape _ _ Hok1)) Hb1 eq_refl Hd).
      rewrite (busy_taken (request a) bs _ c d (sh_blocks _ _ Hs) Hc Hfree ltac:(lia) Hd).
      split; [tauto|]. intros [-> | ?]; tauto. }
    exists (taken_head (request a) c), (release (off b) (on_block (taken (request a)) (off c) bs)).
    split; [exact Hok'|]. split; [exact Hsame'|]. split; [apply Hin; auto|]. split; [reflexivity|].
    split; [intros Hx; pose proof (contiguous_off_inj _ _ _ _ _ (sh_blocks _ _ Hs) Hx Hc eq_refl) as Ex;
            rewrite <- Ex in Hfree; discriminate|].
    split; [reflexivity|]. split; [|split; [|split; [exact Hin | exact Hothers]]].
    + unfold taken_head, room, HDR in *; cbn [fin off].
      destruct (Z.leb_spec (request a + 12 + 12) (fin c - (off c + 12))); lia.
    + intros i Hi. apply Hmoved. lia.
Qed.
