(* ===== verification/Heap.v ===== *)
(** * The heap and its clients

    Clients call the heap in any order and write into the blocks they own.  The
    state is the heap together with the pointers the clients hold and the sizes
    they asked for; a step is one call or one write.  The theorems say what the
    clients may rely on in every state such steps reach. *)

From S2P Require Import Prelude Memory Kservice Blocks Mem.

(** The pointers in the hands of clients, with the requested sizes. *)
Abbreviation Live := (gmap Z Z).

(** The greatest size [RT_ALIGN] does not wrap around. *)
Definition SIZE_LIMIT : Z := 4294967292.

(** A byte of a block a client owns. *)
Definition owned_byte (live : Live) (a : Z) : Prop :=
  exists p n, live !! p = Some n /\ p <= a < p + n.

Inductive heap_call : Heap * Live -> Heap * Live -> Prop :=
| call_malloc h live size h' p :
    0 < size <= SIZE_LIMIT -> rt_malloc 0 h size = Some (h', p) ->
    heap_call (h, live) (h', if p =? 0 then live else <[p := size]> live)
| call_calloc h live count size h' p :
    0 < count * size <= INT_MAX -> rt_calloc 0 h count size = Some (h', p) ->
    heap_call (h, live) (h', if p =? 0 then live else <[p := count * size]> live)
| call_free h live p n h' :
    live !! p = Some n -> rt_free 0 h p = Some h' ->
    heap_call (h, live) (h', delete p live)
| call_realloc h live p n size h' p' :
    live !! p = Some n -> 0 < size <= SIZE_LIMIT -> rt_realloc 0 h p size = Some (h', p') ->
    heap_call (h, live) (h', if p' =? 0 then live else <[p' := size]> (delete p live)).

Inductive client_step : Heap * Live -> Heap * Live -> Prop :=
| step_call s s' : heap_call s s' -> client_step s s'
| step_write h live m :
    (forall a, ~ owned_byte live a -> load8 m a = load8 (memory h) a) ->
    client_step (h, live) (h <| memory := m |>, live).

(** The states reached from a freshly initialised heap. *)
Definition heap_reach (h0 : Heap) : Heap * Live -> Prop := rtc client_step (h0, ∅).

(** ** The clients' pointers are the blocks in use *)

Record owned (h : Heap) (bs : list block) (live : Live) : Prop := {
  ow_block : forall p n, live !! p = Some n ->
    exists b, b ∈ bs /\ busy b = true /\ p = data h b /\ 0 < n <= room b;
  ow_live : forall b, b ∈ bs -> busy b = true -> exists n, live !! data h b = Some n
}.

Record state_ok (h : Heap) (bs : list block) (live : Live) : Prop := {
  st_heap : heap_ok h bs;
  st_owned : owned h bs live;
  st_size : mem_size_aligned h <= INT_MAX;
  st_empty : live = ∅ -> lfree h = heap_ptr h
}.

Lemma data_inj h bs b c :
  shape h bs -> b ∈ bs -> c ∈ bs -> data h b = data h c -> b = c.
Proof.
  intros Hs Hb Hc E. eapply contiguous_off_inj; [apply (sh_blocks _ _ Hs) | | |]; auto.
  unfold data in E. lia.
Qed.

Lemma data_pos h bs b : shape h bs -> b ∈ bs -> 0 < data h b.
Proof.
  intros Hs Hb. pose proof (shape_bounds _ _ _ Hs Hb). pose proof (sh_ptr _ _ Hs).
  unfold data. rewrite SIZEOF_eq. unfold HDR. lia.
Qed.

(** A call that takes block [b] (or none) away and adds [c] with [n] bytes. *)
Lemma owned_update h h' bs bs' live b c n :
  shape h bs -> shape h' bs' -> same_heap h h' -> owned h bs live ->
  (forall d, busy d = true -> d ∈ bs' <-> Some d = c \/ (d ∈ bs /\ Some d <> b)) ->
  (forall x, b = Some x -> x ∈ bs /\ busy x = true) ->
  (forall x, c = Some x -> busy x = true /\ 0 < n <= room x) ->
  owned h' bs' (match c with
                | Some x => <[data h x := n]> (match b with Some y => delete (data h y) live | None => live end)
                | None => match b with Some y => delete (data h y) live | None => live end
                end).
Proof.
  intros Hs Hs' Hsame [H1 H2] Hin Hb Hc.
  set (live1 := match b with Some y => delete (data h y) live | None => live end).
  assert (K1 : forall p m, live1 !! p = Some m -> exists d, d ∈ bs /\ busy d = true /\ p = data h d /\
                0 < m <= room d /\ Some d <> b).
  { intros p m Hp. assert (Hp' : live !! p = Some m).
    { unfold live1 in Hp. destruct b; [apply lookup_delete_Some in Hp; tauto | exact Hp]. }
    destruct (H1 p m Hp') as (d & Hd & Hu & -> & Hm). exists d. split_ands; auto; try lia.
    intros <-. unfold live1 in Hp. rewrite lookup_delete_eq in Hp. discriminate. }
  assert (K2 : forall d, d ∈ bs -> busy d = true -> Some d <> b -> exists m, live1 !! data h d = Some m).
  { intros d Hd Hu Hne. destruct (H2 d Hd Hu) as [m Hm]. exists m. unfold live1.
    destruct b as [y|]; [|exact Hm]. apply lookup_delete_Some. split; [|exact Hm].
    intros E. destruct (Hb y eq_refl) as [Hy _].
    rewrite (data_inj _ _ _ _ Hs Hy Hd E) in Hne. congruence. }
  clearbody live1. split.
  - intros p m Hp. destruct c as [x|].
    + apply lookup_insert_Some in Hp as [[<- <-] | [Hne Hp]].
      * destruct (Hc x eq_refl) as [Hx Hn]. exists x. rewrite (same_heap_data _ _ _ Hsame).
        split_ands; auto; try lia. apply Hin; auto.
      * destruct (K1 p m Hp) as (d & Hd & Hu & -> & Hm & Hdb). exists d.
        rewrite (same_heap_data _ _ _ Hsame). split_ands; auto; try lia. apply Hin; auto.
    + destruct (K1 p m Hp) as (d & Hd & Hu & -> & Hm & Hdb). exists d.
      rewrite (same_heap_data _ _ _ Hsame). split_ands; auto; try lia. apply Hin; auto.
  - intros d Hd Hu. rewrite (same_heap_data _ _ _ Hsame). apply Hin in Hd; [|exact Hu].
    destruct c as [x|].
    + destruct (decide (data h x = data h d)) as [E|Hne]; [exists n; rewrite E; apply lookup_insert_eq|].
      rewrite lookup_insert_ne by exact Hne.
      destruct Hd as [Ed | [Hd Hdb]]; [congruence|]. apply K2; auto.
    + destruct Hd as [? | [Hd Hdb]]; [discriminate|]. apply K2; auto.
Qed.

(** With nothing in use the heap is one block, and [lfree] is at its start. *)
Lemma empty_single h bs : heap_ok h bs -> owned h bs ∅ -> bs = [Blk 0 (mem_size_aligned h + HDR) false].
Proof.
  intros Hok How. pose proof (ok_shape _ _ Hok) as Hs. pose proof (sh_min _ _ Hs).
  apply all_free_single; [apply (sh_blocks _ _ Hs) | apply Hok | | unfold HDR; lia].
  intros b Hb. destruct (busy b) eqn:Hu; [|reflexivity].
  destruct (ow_live _ _ _ How b Hb Hu) as [n Hn]. rewrite lookup_empty in Hn. discriminate.
Qed.

Lemma empty_lfree h bs : heap_ok h bs -> owned h bs ∅ -> lfree h < heap_end h -> lfree h = heap_ptr h.
Proof.
  intros Hok How Hlt. pose proof (empty_single _ _ Hok How) as E.
  destruct (ok_lfree _ _ Hok) as [El | (b & Hb & _ & El)]; [lia|].
  rewrite E in Hb. apply list_elem_of_singleton in Hb as ->. rewrite El. apply Z.add_0_r.
Qed.

(** ** Every step keeps the invariant *)

Lemma malloc_block_busy h bs b size :
  shape h bs -> b ∈ bs -> busy b = false -> 12 <= size ->
  forall d, busy d = true ->
    d ∈ on_block (taken size) (off b) bs <-> Some d = Some (taken_head size b) \/ (d ∈ bs /\ Some d <> None).
Proof.
  intros Hs Hb Hf Hn d Hd.
  rewrite (busy_taken size bs _ b d (sh_blocks _ _ Hs) Hb Hf ltac:(lia) Hd).
  split; [intros [->|]; [auto|right; split; [assumption|discriminate]]
         |intros [E|[? _]]; [left; congruence|auto]].
Qed.

Lemma request_le n : 0 < n <= SIZE_LIMIT -> n <= request n.
Proof.
  intros H. destruct (RT_ALIGN_bounds n) as [Hb _]; [unfold SIZE_LIMIT in H; lia|].
  unfold request. lia.
Qed.

Lemma taken_head_room size b : size <= room b -> size <= room (taken_head size b).
Proof.
  unfold taken_head, room, HDR. cbn [off fin]. intros H.
  destruct (Z.leb_spec (size + 12 + 12) (fin b - (off b + 12))); lia.
Qed.

Lemma call_ok h live h' live' bs :
  state_ok h bs live -> heap_call (h, live) (h', live') -> exists bs', state_ok h' bs' live'.
Proof.
  intros [Hok How Hmax Hempty] Hstep. pose proof (ok_shape _ _ Hok) as Hs.
  inversion Hstep as [h0 l0 size h1 p Hsize E | h0 l0 count size h1 p Hsize E | h0 l0 p n h1 Hp E
    | h0 l0 p n size h1 p' Hp Hsize E]; subst.
  - pose proof (rt_malloc_spec h bs size Hok ltac:(lia)) as Hm.
    destruct (malloc_block h size bs) as [b|].
    + destruct Hm as (Hb & Hf & Hroom & h1 & E1 & Hok1 & _ & Hsame & _ & _).
      rewrite E1 in E. injection E as <- <-.
      destruct (request_aligned size) as [_ Hreq]. pose proof (data_pos _ _ _ Hs Hb).
      destruct (Z.eqb_spec (data h b) 0); [lia|].
      eexists. split; [exact Hok1 | | destruct Hsame as (_ & _ & ->); exact Hmax |].
      1: apply (owned_update h h1 bs _ live None (Some (taken_head (request size) b)) size); auto.
      * apply Hok1.
      * apply (malloc_block_busy h); auto.
      * discriminate.
      * intros x [= <-]. split; [reflexivity|]. pose proof (taken_head_room _ _ Hroom).
        pose proof (request_le size Hsize). lia.
      * intros Ee. destruct (insert_non_empty _ _ _ Ee).
    + rewrite Hm in E. injection E as <- <-. exists bs. split; auto.
  - assert (Ecs : u32 (count * size) = count * size) by (apply u32_small; unfold INT_MAX in *; lia).
    pose proof (rt_calloc_spec h bs count size Hok) as Hm. rewrite Ecs in Hm. specialize (Hm Hsize).
    destruct (malloc_block h (count * size) bs) as [b|] eqn:Hblock.
    + pose proof (rt_malloc_spec h bs (count * size) Hok ltac:(lia)) as Hm'. rewrite Hblock in Hm'.
      destruct Hm' as (Hb & Hf & Hroom & _).
      destruct Hm as (h1 & E1 & Hok1 & Hsame & _).
      rewrite E1 in E. injection E as <- <-.
      destruct (request_aligned (count * size)) as [_ Hreq]. pose proof (data_pos _ _ _ Hs Hb).
      destruct (Z.eqb_spec (data h b) 0); [lia|].
      eexists. split; [exact Hok1 | | destruct Hsame as (_ & _ & ->); exact Hmax |].
      1: apply (owned_update h h1 bs _ live None (Some (taken_head (request (count * size)) b)) (count * size)); auto.
      * apply Hok1.
      * apply (malloc_block_busy h); auto.
      * discriminate.
      * intros x [= <-]. split; [reflexivity|]. pose proof (taken_head_room _ _ Hroom).
        pose proof (request_le (count * size) ltac:(unfold SIZE_LIMIT, INT_MAX in *; lia)). lia.
      * intros Ee. destruct (insert_non_empty _ _ _ Ee).
    + rewrite Hm in E. injection E as <- <-. exists bs. split; auto.
  - destruct (ow_block _ _ _ How _ _ Hp) as (b & Hb & Hu & -> & Hn).
    destruct (rt_free_spec h bs b Hok Hb Hu) as (h1 & E1 & Hok1 & _ & Hsame & _ & Hlf & _).
    rewrite E1 in E. injection E as <-.
    assert (How1 : owned h1 (release (off b) bs) (delete (data h b) live)).
    2: { eexists. split; [exact Hok1 | exact How1 | destruct Hsame as (_ & _ & ->); exact Hmax |].
         intros Ee. rewrite Ee in How1. apply (empty_lfree _ _ Hok1 How1).
         pose proof (shape_bounds _ _ _ Hs Hb). pose proof (sh_end _ _ Hs).
         destruct Hsame as (_ & -> & _). lia. }
    apply (owned_update h h1 bs _ live (Some b) None 0); auto; try discriminate.
    + apply Hok1.
    + intros d Hd. rewrite (busy_release _ _ _ b d (sh_blocks _ _ Hs) Hb eq_refl Hd).
      split; [intros [? ?]; right; split; [assumption|congruence] | intros [?|[? ?]]; [discriminate|]].
      split; [assumption|congruence].
    + intros x [= <-]. auto.
  - destruct (ow_block _ _ _ How _ _ Hp) as (b & Hb & Hu & -> & Hn).
    destruct (rt_realloc_spec h bs b size Hok Hb Hu Hsize Hmax) as (h1 & q & E1 & Hr).
    rewrite E1 in E. injection E as <- <-.
    destruct Hr as [[-> ->] | (c & bs' & Hok1 & Hsame & Hc & Hcu & _ & -> & Hroom & _ & Hin & _)].
    { exists bs. split; auto. }
    pose proof (data_pos _ _ _ (ok_shape _ _ Hok1) Hc) as Hpos. rewrite (same_heap_data _ _ _ Hsame) in Hpos.
    destruct (Z.eqb_spec (data h c) 0); [lia|].
    exists bs'. split; [exact Hok1 | | destruct Hsame as (_ & _ & ->); exact Hmax |].
    1: apply (owned_update h h1 bs bs' live (Some b) (Some c) size); auto.
    + apply Hok1.
    + intros d Hd. rewrite (Hin d Hd). intuition congruence.
    + intros x [= <-]. auto.
    + intros x [= <-]. split; [exact Hcu|]. destruct (RT_ALIGN_bounds size) as [Ha _]; [unfold SIZE_LIMIT in Hsize; lia|]. lia.
    + intros Ee. destruct (insert_non_empty _ _ _ Ee).
Qed.

(** Clients may write into the bytes they own, and the rest of the program below the heap. *)
Lemma state_write h bs live m :
  state_ok h bs live ->
  (forall a, heap_ptr h <= a -> ~ owned_byte live a -> load8 m a = load8 (memory h) a) ->
  state_ok (h <| memory := m |>) bs live.
Proof.
  intros [Hok How Hmax Hempty] Hw. split; [|destruct How; split; assumption|exact Hmax|exact Hempty].
  apply heap_write; [exact Hok|]. intros a Hlow Ha. apply Hw; [exact Hlow|]. intros (p & n & Hp & Hr).
  destruct (ow_block _ _ _ How _ _ Hp) as (b & Hb & Hu & -> & Hn).
  specialize (Ha b Hb Hu). unfold data, room in *. rewrite SIZEOF_eq in *. unfold HDR in *. lia.
Qed.

Lemma step_ok s s' bs :
  state_ok s.1 bs s.2 -> client_step s s' -> exists bs', state_ok s'.1 bs' s'.2.
Proof.
  intros Hst Hstep. destruct Hstep as [[h live] [h' live'] Hcall | h live m Hw]; [eapply call_ok; eassumption|].
  exists bs. apply state_write; [exact Hst|]. intros a _ Ha. apply Hw, Ha.
Qed.

(** ** From the start *)

(** The arguments [rt_system_heap_init] is called with: room for a block, and the
    static counters still zero. *)
Record heap_start (s : Heap) (begin_addr end_addr : Z) : Prop := {
  hs_used : used_mem s = 0;
  hs_max : max_mem s = 0;
  hs_begin : 0 < begin_addr <= 4294967200;
  hs_end : 0 <= end_addr < 4294967296;
  hs_room : begin_addr + 43 <= end_addr;
  hs_small : end_addr - begin_addr <= INT_MAX
}.

Lemma start_ok s b e :
  heap_start s b e ->
  exists h0, rt_system_heap_init 0 s b e = Some h0 /\
    (exists bs, state_ok h0 bs ∅) /\ b <= heap_ptr h0 /\ heap_end h0 + HDR <= e.
Proof.
  intros [Hu Hm Hb He Hroom Hsmall].
  destruct (rt_system_heap_init_spec s b e Hb He Hu Hm ltac:(lia)) as (h0 & E & Hok & Hlow & Hp & Hend).
  exists h0. split_ands; auto; try lia. eexists. split; [exact Hok | | |].
  - split; [intros p n Hx; rewrite lookup_empty in Hx; discriminate|].
    intros x Hx%list_elem_of_singleton Hbusy. subst x. discriminate.
  - pose proof (sh_end _ _ (ok_shape _ _ Hok)). unfold HDR in *. lia.
  - intros _. apply Z.le_antisymm.
    + specialize (Hlow _ (list_elem_of_here _ _) eq_refl). cbn in Hlow. lia.
    + destruct (lfree_chain _ _ (ok_shape _ _ Hok) (ok_lfree _ _ Hok)). lia.
Qed.

Lemma rtc_state_ok s s' :
  rtc client_step s s' -> (exists bs, state_ok s.1 bs s.2) ->
  (exists bs, state_ok s'.1 bs s'.2) /\ same_heap s.1 s'.1.
Proof.
  induction 1 as [s | s1 s2 s3 Hstep Hrest IH]; intros [bs Hst]; [split; [eauto | repeat split]|].
  destruct (step_ok _ _ _ Hst Hstep) as [bs' Hst']. destruct (IH (ex_intro _ _ Hst')) as [H1 H2].
  split; [exact H1|]. eapply same_heap_trans; [|exact H2].
  clear -Hst Hstep. destruct Hstep as [s1 s2 Hcall | h live m Hw]; [|repeat split].
  destruct Hst as [Hok How Hmax _].
  destruct Hcall as [h live size h' p Hsize E | h live count size h' p Hsize E | h live p n h' Hp E
    | h live p n size h' p' Hp Hsize E]; cbn [fst snd] in *.
  - pose proof (rt_malloc_spec h bs size Hok ltac:(lia)) as Hm. destruct (malloc_block h size bs).
    + destruct Hm as (_ & _ & _ & h1 & E1 & _ & _ & Hsame & _). rewrite E1 in E. injection E as <- <-. exact Hsame.
    + rewrite Hm in E. injection E as <- <-. repeat split.
  - assert (Ecs : u32 (count * size) = count * size) by (apply u32_small; unfold INT_MAX in *; lia).
    pose proof (rt_calloc_spec h bs count size Hok) as Hm. rewrite Ecs in Hm. specialize (Hm Hsize).
    destruct (malloc_block h (count * size) bs).
    + destruct Hm as (h1 & E1 & _ & Hsame & _). rewrite E1 in E. injection E as <- <-. exact Hsame.
    + rewrite Hm in E. injection E as <- <-. repeat split.
  - destruct (ow_block _ _ _ How _ _ Hp) as (b & Hb & Hu & -> & _).
    destruct (rt_free_spec h bs b Hok Hb Hu) as (h1 & E1 & _ & _ & Hsame & _).
    rewrite E1 in E. injection E as <-. exact Hsame.
  - destruct (ow_block _ _ _ How _ _ Hp) as (b & Hb & Hu & -> & _).
    destruct (rt_realloc_spec h bs b size Hok Hb Hu Hsize Hmax) as (h1 & q & E1 & Hr).
    rewrite E1 in E. injection E as <- <-.
    destruct Hr as [[_ ->] | (c & bs' & _ & Hsame & _)]; [repeat split | exact Hsame].
Qed.

(** The region of a live pointer lies in the data of its block. *)
Lemma live_region h bs live p n :
  state_ok h bs live -> live !! p = Some n ->
  p mod 4 = 0 /\ heap_ptr h + HDR <= p /\ p + n <= heap_end h.
Proof.
  intros [Hok How _ _] Hp. pose proof (ok_shape _ _ Hok) as Hs.
  destruct (ow_block _ _ _ How _ _ Hp) as (b & Hb & _ & -> & Hn).
  pose proof (shape_bounds _ _ _ Hs Hb). pose proof (sh_end _ _ Hs).
  split; [exact (data_aligned _ _ _ Hs Hb)|]. unfold data, room in *. rewrite SIZEOF_eq. lia.
Qed.

Lemma live_apart h bs live p n q m :
  state_ok h bs live -> live !! p = Some n -> live !! q = Some m -> p <> q ->
  p + n + HDR <= q \/ q + m + HDR <= p.
Proof.
  intros [Hok How _ _] Hp Hq Hne. pose proof (ok_shape _ _ Hok) as Hs.
  destruct (ow_block _ _ _ How _ _ Hp) as (b & Hb & _ & -> & Hn).
  destruct (ow_block _ _ _ How _ _ Hq) as (c & Hc & _ & -> & Hm).
  destruct (contiguous_disjoint _ _ _ _ _ (sh_blocks _ _ Hs) Hb Hc) as [<-|[]]; [congruence| |];
    unfold data, room in *; rewrite SIZEOF_eq in *; unfold HDR in *; lia.
Qed.

(** A heap without blocks in use serves every request below its size. *)
Lemma empty_malloc h bs size :
  state_ok h bs ∅ -> 0 < size <= SIZE_LIMIT -> request size < mem_size_aligned h ->
  exists h', rt_malloc 0 h size = Some (h', heap_ptr h + HDR).
Proof.
  intros [Hok How _ Hlf] Hsize Hreq. pose proof (empty_single _ _ Hok How) as E. subst bs.
  pose proof (rt_malloc_spec h _ size Hok ltac:(lia)) as Hm.
  destruct (RT_ALIGN_bounds size) as [Ha _]; [unfold SIZE_LIMIT in Hsize; lia|].
  assert (Hb : malloc_block h size [Blk 0 (mem_size_aligned h + HDR) false] =
               Some (Blk 0 (mem_size_aligned h + HDR) false)).
  { unfold malloc_block. assert (Hle : RT_ALIGN size RT_ALIGN_SIZE <= request size) by apply Z.le_max_r.
    destruct (Z.ltb_spec (mem_size_aligned h) (RT_ALIGN size RT_ALIGN_SIZE)); [lia|].
    cbn [List.find]. unfold candidate, fits, room; cbn [off fin busy negb andb].
    rewrite (Hlf eq_refl), Z.add_0_r, Z.leb_refl. cbn [andb].
    destruct (Z.leb_spec (request size) (mem_size_aligned h + HDR - (0 + HDR))); [|lia].
    destruct (Z.ltb_spec 0 (mem_size_aligned h - request size)); [|lia]. reflexivity. }
  rewrite Hb in Hm. destruct Hm as (_ & _ & _ & h' & E & _). exists h'. rewrite E.
  unfold data; cbn. rewrite SIZEOF_eq. f_equal. f_equal. lia.
Qed.

Lemma reach_ok s b e h0 h live :
  heap_start s b e -> rt_system_heap_init 0 s b e = Some h0 -> heap_reach h0 (h, live) ->
  (exists bs, state_ok h bs live) /\ b <= heap_ptr h /\ heap_end h + HDR <= e.
Proof.
  intros Hs E Hr. destruct (start_ok s b e Hs) as (h0' & E' & Hok & Hp & He).
  rewrite E in E'. injection E' as <-.
  destruct (rtc_state_ok _ _ Hr Hok) as [Hok' (E1 & E2 & _)]. cbn in *. rewrite E1, E2. auto.
Qed.

(** C14: whatever the clients do with the heap (allocate, clear, resize, release,
    write into their own memory), every pointer they hold is aligned, lies with all
    the bytes asked for inside the memory given to [rt_system_heap_init], and does
    not overlap another one; every further call returns without failed assertion
    and without looping; and when everything is released, the counter is zero and
    all the memory can be allocated in one piece again. *)
Theorem heap_serves_clients s b e h0 h live :
  heap_start s b e -> rt_system_heap_init 0 s b e = Some h0 -> heap_reach h0 (h, live) ->
  (forall p n, live !! p = Some n -> p mod 4 = 0 /\ b <= p /\ p + n <= e) /\
  (forall p n q m, live !! p = Some n -> live !! q = Some m -> p <> q -> p + n <= q \/ q + m <= p) /\
  (forall size, 0 < size <= SIZE_LIMIT -> is_Some (rt_malloc 0 h size)) /\
  (forall count size, 0 < count * size <= INT_MAX -> is_Some (rt_calloc 0 h count size)) /\
  (forall p n, live !! p = Some n -> is_Some (rt_free 0 h p)) /\
  (forall p n size, live !! p = Some n -> 0 < size <= SIZE_LIMIT -> is_Some (rt_realloc 0 h p size)) /\
  (live = ∅ -> used_mem h = 0 /\
    forall size, 0 < size <= SIZE_LIMIT -> request size < mem_size_aligned h ->
      exists h', rt_malloc 0 h size = Some (h', heap_ptr h + HDR)).
Proof.
  intros Hs E Hr. destruct (reach_ok s b e h0 h live Hs E Hr) as ([bs Hst] & Hp & He).
  pose proof Hst as [Hok How Hmax Hlf]. split_ands.
  - intros p n Hl. destruct (live_region _ _ _ _ _ Hst Hl) as (? & ? & ?). unfold HDR in *. lia.
  - intros p n q m Hl Hq Hne. pose proof (live_apart _ _ _ _ _ _ _ Hst Hl Hq Hne). unfold HDR in *. lia.
  - intros size Hsize. pose proof (rt_malloc_spec h bs size Hok ltac:(lia)) as Hm.
    destruct (malloc_block h size bs); [destruct Hm as (_ & _ & _ & h' & -> & _)|rewrite Hm]; eauto.
  - intros count size Hsize.
    assert (Ecs : u32 (count * size) = count * size) by (apply u32_small; unfold INT_MAX in *; lia).
    pose proof (rt_calloc_spec h bs count size Hok) as Hm. rewrite Ecs in Hm. specialize (Hm Hsize).
    destruct (malloc_block h (count * size) bs); [destruct Hm as (h' & -> & _)|rewrite Hm]; eauto.
  - intros p n Hl. destruct (ow_block _ _ _ How _ _ Hl) as (x & Hx & Hu & -> & _).
    destruct (rt_free_spec h bs x Hok Hx Hu) as (h' & -> & _). eauto.
  - intros p n size Hl Hsize. destruct (ow_block _ _ _ How _ _ Hl) as (x & Hx & Hu & -> & _).
    destruct (rt_realloc_spec h bs x size Hok Hx Hu Hsize Hmax) as (h' & q & -> & _). eauto.
  - intros ->. split.
    + rewrite (ok_used _ _ Hok), (empty_single _ _ Hok How). reflexivity.
    + intros size Hsize Hreq. exact (empty_malloc h bs size Hst Hsize Hreq).
Qed.

(** ** The data of the clients *)

Lemma same_on_mono m m' lo hi lo' hi' : lo <= lo' -> hi' <= hi -> same_on m m' lo hi -> same_on m m' lo' hi'.
Proof. intros H1 H2 H a Ha. apply H. lia. Qed.

Lemma call_keeps h bs live h' live' q n m :
  state_ok h bs live -> heap_call (h, live) (h', live') -> live !! q = Some n -> live' !! q = Some m ->
  same_on (memory h) (memory h') q (q + Z.min n m).
Proof.
  intros [Hok How Hmax _] Hcall Hq Hq'. pose proof (ok_shape _ _ Hok) as Hs.
  destruct (ow_block _ _ _ How _ _ Hq) as (d & Hd & Hdu & Ed & Hn).
  assert (Hregion : q + Z.min n m <= heap_ptr h + fin d).
  { rewrite Ed. unfold data, room in *. rewrite SIZEOF_eq in *. lia. }
  inversion Hcall as [h0 l0 size h1 p Hsize E | h0 l0 count size h1 p Hsize E | h0 l0 p k h1 Hp E
    | h0 l0 p k size h1 p' Hp Hsize E]; subst h0 l0 h1 live'.
  - pose proof (rt_malloc_spec h bs size Hok ltac:(lia)) as Hm. destruct (malloc_block h size bs) as [b|].
    + destruct Hm as (Hb & Hf & _ & h1 & E1 & _ & Hk & _). rewrite E1 in E. injection E as <- <-.
      eapply same_on_mono; [|exact Hregion|apply (keeps_data _ _ _ d Hk); [|exact Hdu]]; [lia|].
      destruct (request_aligned size).
      apply (busy_taken _ _ _ b d (sh_blocks _ _ Hs) Hb Hf ltac:(instantiate (1 := request size); lia) Hdu). auto.
    + rewrite Hm in E. injection E as <- <-. intros a _. reflexivity.
  - assert (Ecs : u32 (count * size) = count * size) by (apply u32_small; unfold INT_MAX in *; lia).
    pose proof (rt_calloc_spec h bs count size Hok) as Hm. rewrite Ecs in Hm. specialize (Hm Hsize).
    destruct (malloc_block h (count * size) bs).
    + destruct Hm as (h1 & E1 & _ & _ & Hk & _). rewrite E1 in E. injection E as <- <-.
      eapply same_on_mono; [|exact Hregion|apply Hk; auto]. lia.
    + rewrite Hm in E. injection E as <- <-. intros a _. reflexivity.
  - apply lookup_delete_Some in Hq' as [Hne _].
    destruct (ow_block _ _ _ How _ _ Hp) as (b & Hb & Hu & -> & _).
    destruct (rt_free_spec h bs b Hok Hb Hu) as (h1 & E1 & _ & Hk & _). rewrite E1 in E. injection E as <-.
    eapply same_on_mono; [|exact Hregion|apply (keeps_data _ _ _ d Hk); [|exact Hdu]]; [lia|].
    apply (busy_release _ _ _ b d (sh_blocks _ _ Hs) Hb eq_refl Hdu). split; [exact Hd|]. congruence.
  - destruct (ow_block _ _ _ How _ _ Hp) as (b & Hb & Hu & -> & _).
    destruct (rt_realloc_spec h bs b size Hok Hb Hu Hsize Hmax) as (h1 & r & E1 & Hr).
    rewrite E1 in E. injection E as <- <-.
    destruct Hr as [[-> ->] | (c & bs' & Hok1 & Hsame & Hc & Hcu & Hcb & -> & Hroom & Hdata & Hin & Hothers)];
      [intros a _; reflexivity|].
    destruct (decide (d = b)) as [->|Hne].
    + assert (Ecb : data h c = data h b).
      { pose proof (data_pos _ _ _ (ok_shape _ _ Hok1) Hc) as Hpos. rewrite (same_heap_data _ _ _ Hsame) in Hpos.
        destruct (Z.eqb_spec (data h c) 0); [lia|].
        rewrite Ed in Hq'. apply lookup_insert_Some in Hq' as [[E' _] | [_ Hq']]; [exact E'|].
        rewrite lookup_delete_eq in Hq'. discriminate. }
      intros a Ha. replace a with (data h c + (a - data h c)) by lia. rewrite Hdata.
      * rewrite Ecb. f_equal. 
      * pose proof (data_pos _ _ _ (ok_shape _ _ Hok1) Hc) as Hpos. rewrite (same_heap_data _ _ _ Hsame) in Hpos.
        destruct (Z.eqb_spec (data h c) 0); [lia|].
        destruct (RT_ALIGN_bounds size) as [Ha' _]; [unfold SIZE_LIMIT in Hsize; lia|].
        rewrite Ed, <- Ecb, lookup_insert_eq in Hq'. injection Hq' as <-. lia.
    + eapply same_on_mono; [|exact Hregion|apply (Hothers d Hd Hdu Hne)]. lia.
Qed.

(** C26: the heap never touches the data of its clients: whatever call is made, the
    bytes of every block a client keeps are unchanged; [rt_realloc] carries the
    contents over to the block it returns, up to the smaller size; and [rt_calloc]
    returns zeros. *)
Theorem heap_keeps_data s b e h0 h live :
  heap_start s b e -> rt_system_heap_init 0 s b e = Some h0 -> heap_reach h0 (h, live) ->
  (forall h' live' q n m, heap_call (h, live) (h', live') -> live !! q = Some n -> live' !! q = Some m ->
     same_on (memory h) (memory h') q (q + Z.min n m)) /\
  (forall p n size h' p', live !! p = Some n -> 0 < size <= SIZE_LIMIT ->
     rt_realloc 0 h p size = Some (h', p') -> p' <> 0 ->
     forall i, 0 <= i < Z.min n size -> load8 (memory h') (p' + i) = load8 (memory h) (p + i)) /\
  (forall count size h' p, 0 < count * size <= INT_MAX -> rt_calloc 0 h count size = Some (h', p) -> p <> 0 ->
     forall i, 0 <= i < count * size -> load8 (memory h') (p + i) = 0).
Proof.
  intros Hs E Hr. destruct (reach_ok s b e h0 h live Hs E Hr) as ([bs Hst] & _ & _).
  pose proof Hst as [Hok How Hmax _]. split_ands.
  - intros h' live' q n m Hcall Hq Hq'. eapply call_keeps; eassumption.
  - intros p n size h' p' Hp Hsize Er Hnz i Hi.
    destruct (ow_block _ _ _ How _ _ Hp) as (x & Hx & Hu & -> & Hn).
    destruct (rt_realloc_spec h bs x size Hok Hx Hu Hsize Hmax) as (h1 & r & E1 & Hres).
    rewrite E1 in Er. injection Er as <- <-.
    destruct Hres as [[-> _] | (c & bs' & _ & _ & _ & _ & _ & -> & _ & Hdata & _)]; [contradiction|].
    apply Hdata. destruct (RT_ALIGN_bounds size) as [Ha _]; [unfold SIZE_LIMIT in Hsize; lia|]. lia.
  - intros count size h' p Hsize Ec Hnz i Hi.
    assert (Ecs : u32 (count * size) = count * size) by (apply u32_small; unfold INT_MAX in *; lia).
    pose proof (rt_calloc_spec h bs count size Hok) as Hm. rewrite Ecs in Hm. specialize (Hm Hsize).
    destruct (malloc_block h (count * size) bs).
    + destruct Hm as (h1 & E1 & _ & _ & _ & Hz & _). rewrite E1 in Ec. injection Ec as <- <-. auto.
    + rewrite Hm in Ec. injection Ec as <- <-. contradiction.
Qed.

(** ** The block lists as specification *)


(** ** Termination of the search *)

Lemma filter_shorter {A} (P Q : A -> bool) (l : list A) x :
  (forall y, P y = true -> Q y = true) -> x ∈ l -> Q x = true -> P x = false ->
  (length (List.filter P l) < length (List.filter Q l))%nat.
Proof.
  intros Hsub. assert (Hle : forall l, (length (List.filter P l) <= length (List.filter Q l))%nat).
  { clear -Hsub. induction l as [|y l IH]; [reflexivity|]. cbn.
    destruct (P y) eqn:E; [rewrite (Hsub y E); cbn; lia|]. destruct (Q y); cbn; lia. }
  induction l as [|y l IH]; intros Hx HQ HP; [inversion Hx|]. cbn.
  apply elem_of_cons in Hx as [<- | Hx].
  - rewrite HQ, HP. cbn. specialize (Hle l). lia.
  - specialize (IH Hx HQ HP). destruct (P y) eqn:E; [rewrite (Hsub y E); cbn; lia|]. destruct (Q y); cbn; lia.
Qed.

(** A heap of eight data bytes: too small for the smallest block. *)
Definition tiny_heap : option Heap := rt_system_heap_init 0 (mk_heap (fun _ => 0) 0 0 0 0 0 0) 4096 4128.

(** The search loop of [rt_malloc] ends for every request the heap accepts: it
    passes each block at most once, so one more step than there are blocks is
    enough.  The bound on the heap matters: in a heap of eight data bytes, a request
    for one byte, raised to twelve, makes the loop run for ever on the last header. *)
Theorem malloc_search_terminates h bs size fuel :
  heap_ok h bs -> 0 < size <= mem_size_aligned h -> (length bs < fuel)%nat ->
  (exists ptr, while fuel
     (fun ptr => (ptr <? u32 (mem_size_aligned h - size)) && negb (block_fits h size ptr))
     (fun ptr => next (hdr h (entry h ptr))) (u32 (lfree h - heap_ptr h)) = Some ptr) /\
  (forall n t, tiny_heap = Some t ->
     while n (fun ptr => (ptr <? u32 (mem_size_aligned t - request 1)) && negb (block_fits t (request 1) ptr))
       (fun ptr => next (hdr t (entry t ptr))) (u32 (lfree t - heap_ptr t)) = None).
Proof.
  intros Hok Hsize Hfuel. split.
  - pose proof (ok_shape _ _ Hok) as Hs. destruct (lfree_chain _ _ Hs (ok_lfree _ _ Hok)) as [Hstart Hrange].
    pose proof (sh_end _ _ Hs). pose proof (sh_space _ _ Hs). pose proof (sh_ptr _ _ Hs).
    rewrite (u32_small (lfree h - heap_ptr h)) by (unfold HDR in *; lia).
    rewrite (u32_small (mem_size_aligned h - size)) by lia.
    set (rest ptr := Z.of_nat (length (List.filter (fun b => ptr <=? off b) bs))).
    destruct (while_total (chain_at h bs) rest
      (fun ptr => (ptr <? mem_size_aligned h - size) && negb (block_fits h size ptr))
      (fun ptr => next (hdr h (entry h ptr)))) with (fuel := fuel) (s := lfree h - heap_ptr h)
      as (ptr & E & _); [| exact Hstart | | unfold rest; lia | eauto].
    + intros ptr Hc [Hlt%Z.ltb_lt _]%andb_prop.
      destruct Hc as [-> | (b & Hb & <-)]; [unfold HDR in *; lia|].
      destruct (shape_lookup _ _ _ Hs Hb) as (_ & _ & Hn). unfold entry. rewrite Hn.
      split; [apply (chain_next _ _ _ Hs Hb)|]. unfold rest. split; [lia|]. apply inj_lt.
      pose proof (shape_bounds _ _ _ Hs Hb). apply (filter_shorter _ _ _ b); [| exact Hb | |].
      * intros c Hc%Z.leb_le. apply Z.leb_le. lia.
      * apply Z.leb_refl.
      * apply Z.leb_gt. lia.
    + unfold rest. pose proof (List.filter_length_le (fun b => lfree h - heap_ptr h <=? off b) bs). lia.
  - intros n t Ht. vm_compute in Ht. injection Ht as Ht.
    set (c := fun ptr => (ptr <? u32 (mem_size_aligned t - request 1)) && negb (block_fits t (request 1) ptr)).
    set (nx := fun ptr => next (hdr t (entry t ptr))).
    assert (Hend : c 20 = true /\ nx 20 = 20) by (subst t; split; vm_compute; reflexivity).
    assert (Hloop : forall n, while n c nx 20 = None).
    { clear -Hend. destruct Hend as [Hc Hn]. induction n as [|n IH]; [reflexivity|].
      cbn. rewrite Hc, Hn. exact IH. }
    assert (H0 : u32 (lfree t - heap_ptr t) = 0 /\ c 0 = true /\ nx 0 = 20)
      by (subst t; split_ands; vm_compute; reflexivity).
    destruct H0 as (-> & Hc0 & Hn0). destruct n as [|n]; [reflexivity|].
    cbn. rewrite Hc0, Hn0. apply Hloop.
Qed.

(** A heap of 264 bytes, as started. *)
Definition no_heap : Heap := mk_heap (fun _ => 0) 0 0 0 0 0 0.
Definition demo_heap : Heap := default no_heap (rt_system_heap_init 0 no_heap 4096 4360).

(** ** Where the code does not do what it means to *)

(** Sizes within three bytes of the address space wrap to zero in [RT_ALIGN]:
    [rt_malloc] then answers with the smallest block instead of NULL, [rt_realloc]
    frees the block, and [rt_calloc] multiplies without looking for overflow. *)
Theorem huge_requests_wrap h size p :
  12 <= mem_size_aligned h -> 4294967293 <= size <= 4294967295 ->
  rt_malloc 0 h size = rt_malloc 0 h 1 /\
  rt_realloc 0 h p size = (h' ← rt_free 0 h p; Some (h', 0)) /\
  rt_calloc 0 h 65536 65537 = rt_calloc 0 h 1 65536.
Proof.
  intros Hmsa Hsize.
  assert (E : RT_ALIGN size RT_ALIGN_SIZE = 0).
  { assert (size = 4294967293 \/ size = 4294967294 \/ size = 4294967295) as [->|[->| ->]] by lia; reflexivity. }
  split_ands.
  - unfold rt_malloc. rewrite E. change (RT_ALIGN 1 RT_ALIGN_SIZE) with 4.
    destruct (Z.eqb_spec size 0); [lia|]. cbn [Z.eqb negb].
    destruct (Z.ltb_spec (mem_size_aligned h) 0); [lia|].
    destruct (Z.ltb_spec (mem_size_aligned h) 4); [lia|]. reflexivity.
  - unfold rt_realloc. rewrite E. cbn [Z.eqb negb].
    destruct (Z.ltb_spec (mem_size_aligned h) 0); [lia|]. reflexivity.
  - unfold rt_calloc. change (u32 (65536 * 65537)) with (u32 (1 * 65536)). reflexivity.
Qed.
Lemma huge_requests_wrap_witness :
  12 <= mem_size_aligned demo_heap /\ rt_malloc 0 demo_heap 4294967295 = rt_malloc 0 demo_heap 1.
Proof.
  assert (H : 12 <= mem_size_aligned demo_heap) by (vm_compute; discriminate).
  split; [exact H|]. apply (huge_requests_wrap demo_heap 4294967295 0 H). lia.
Defined.

(** One block takes the whole heap and is then cut down by [rt_realloc]. *)
Definition cut_down : option (Heap * Z) :=
  '(h, p) ← rt_malloc 0 demo_heap 236;
  rt_realloc 0 h p 12.

Lemma cut_down_fields h p :
  cut_down = Some (h, p) ->
  (heap_ptr h, heap_end h, lfree h, mem_size_aligned h, used_mem h, max_mem h, p) =
  (4096, 4348, 4348, 240, 24, 252, 4108) /\
  hdr h 4096 = mk_heap_mem HEAP_MAGIC 1 24 0 /\ hdr h 4120 = mk_heap_mem HEAP_MAGIC 0 252 0 /\
  used (hdr h 4348) = 1 /\ next (hdr h 4348) = 252.
Proof.
  intros E.
  assert (F : match cut_down with
    | Some (h, p) =>
        (heap_ptr h, heap_end h, lfree h, mem_size_aligned h, used_mem h, max_mem h, p) =
        (4096, 4348, 4348, 240, 24, 252, 4108) /\
        hdr h 4096 = mk_heap_mem HEAP_MAGIC 1 24 0 /\ hdr h 4120 = mk_heap_mem HEAP_MAGIC 0 252 0 /\
        used (hdr h 4348) = 1 /\ next (hdr h 4348) = 252
    | None => False end) by (vm_compute; split_ands; reflexivity).
  rewrite E in F. exact F.
Qed.

Lemma cut_down_ok h p : cut_down = Some (h, p) -> heap_ok h [Blk 0 24 true; Blk 24 252 false].
Proof.
  intros E. destruct (cut_down_fields h p E) as (F & H1 & H2 & H3 & H4).
  injection F as Ep Ee El Es Eu Em _. split; [split| | | |]; rewrite ?Ep, ?Ee, ?Es, ?Eu, ?Em; cbn; try lia.
  - reflexivity.
  - reflexivity.
  - auto.
  - unfold HDR. split_ands; reflexivity || lia.
  - unfold hdr in *. auto.
  - left. congruence.
  - unfold HDR. lia.
Qed.

(** [rt_realloc] forgets to lower [lfree] when it cuts a block: after the
    largest allocation of the example heap was cut down to twelve bytes, 216 bytes
    are free behind it, but [rt_malloc] finds nothing for any size, until a block
    in front is released. *)
Theorem realloc_hides_memory h p :
  cut_down = Some (h, p) ->
  heap_ok h [Blk 0 24 true; Blk 24 252 false] /\
  (forall size, 0 < size -> rt_malloc 0 h size = Some (h, 0)) /\
  exists h', rt_free 0 h p = Some h' /\
    forall size, 0 < size <= 232 -> exists h'', rt_malloc 0 h' size = Some (h'', p).
Proof.
  intros E. pose proof (cut_down_ok h p E) as Hok.
  destruct (cut_down_fields h p E) as (F & _). injection F as Ep Ee El Es _ _ Epp.
  split; [exact Hok|]. split.
  - intros size Hsize. pose proof (rt_malloc_spec h _ size Hok Hsize) as Hm.
    assert (Hnone : malloc_block h size [Blk 0 24 true; Blk 24 252 false] = None).
    { unfold malloc_block, candidate. cbn. rewrite El, Ep. destruct (_ <? _); reflexivity. }
    rewrite Hnone in Hm. exact Hm.
  - destruct (rt_free_spec h _ (Blk 0 24 true) Hok (list_elem_of_here _ _) eq_refl)
      as (h' & Ef & Hok' & _ & Hsame & _ & Hlf & _).
    assert (Ed : data h (Blk 0 24 true) = p) by (unfold data; cbn; rewrite Ep, Epp; reflexivity).
    rewrite Ed in Ef. exists h'. split; [exact Ef|]. intros size Hsize.
    pose proof Hsame as (S1 & S2 & S3).
    assert (Hempty : owned h' [Blk 0 252 false] ∅).
    { split; [intros q n Hq; rewrite lookup_empty in Hq; discriminate|].
      intros b Hb%list_elem_of_singleton Hu. subst b. discriminate. }
    destruct (empty_malloc h' [Blk 0 252 false] size) as (h'' & Em).
    + split; [exact Hok' | exact Hempty | rewrite S3, Es; unfold INT_MAX; lia|].
      intros _. cbn in Hlf. destruct (lfree_chain _ _ (ok_shape _ _ Hok') (ok_lfree _ _ Hok')). lia.
    + unfold SIZE_LIMIT. lia.
    + destruct (RT_ALIGN_bounds size ltac:(lia)). unfold request. change MIN_SIZE_ALIGNED with 12. lia.
    + exists h''. rewrite Em, S1, Ep, Epp. reflexivity.
Qed.
Lemma realloc_hides_memory_witness : exists h p, cut_down = Some (h, p) /\ rt_malloc 0 h 12 = Some (h, 0).
Proof.
  destruct cut_down as [[h p]|] eqn:E; [|exfalso; vm_compute in E; discriminate].
  exists h, p. split; [reflexivity|].
  destruct (realloc_hides_memory h p E) as (_ & H & _). apply H. lia.
Defined.

(** ** The theorems at work on the example heap *)

(** ... after a client got twenty bytes. *)
Definition demo_malloc : Heap * Z := default (no_heap, 0) (rt_malloc 0 demo_heap 20).

Lemma demo_start : heap_start no_heap 4096 4360 /\ rt_system_heap_init 0 no_heap 4096 4360 = Some demo_heap.
Proof. split; [split; unfold INT_MAX; cbn; lia | vm_compute; reflexivity]. Qed.

Lemma demo_reach : heap_reach demo_heap (fst demo_malloc, {[ 4108 := 20 ]}).
Proof.
  apply rtc_once. apply step_call.
  assert (E : rt_malloc 0 demo_heap 20 = Some (fst demo_malloc, 4108)) by (vm_compute; reflexivity).
  apply (call_malloc demo_heap ∅ 20 (fst demo_malloc) 4108); [unfold SIZE_LIMIT; lia | exact E].
Qed.

Lemma heap_serves_clients_witness :
  heap_start no_heap 4096 4360 /\ is_Some (rt_free 0 (fst demo_malloc) 4108).
Proof.
  destruct demo_start as [Hs Hi]. split; [exact Hs|].
  destruct (heap_serves_clients no_heap 4096 4360 demo_heap (fst demo_malloc) {[ 4108 := 20 ]} Hs Hi demo_reach)
    as (_ & _ & _ & _ & Hfree & _).
  apply (Hfree 4108 20). reflexivity.
Defined.

Lemma heap_keeps_data_witness :
  exists h' p', rt_realloc 0 (fst demo_malloc) 4108 100 = Some (h', p') /\ p' <> 0 /\
    forall i, 0 <= i < 20 -> load8 (memory h') (p' + i) = load8 (memory (fst demo_malloc)) (4108 + i).
Proof.
  destruct demo_start as [Hs Hi].
  destruct (heap_keeps_data no_heap 4096 4360 demo_heap (fst demo_malloc) {[ 4108 := 20 ]} Hs Hi demo_reach)
    as (_ & Hmove & _).
  destruct (rt_realloc 0 (fst demo_malloc) 4108 100) as [[h' p']|] eqn:E; [|exfalso; vm_compute in E; discriminate].
  assert (Hp : p' <> 0).
  { assert (F : option_map snd (rt_realloc 0 (fst demo_malloc) 4108 100) = Some 4140) by (vm_compute; reflexivity).
    rewrite E in F. injection F as ->. discriminate. }
  exists h', p'. split; [reflexivity|]. split; [exact Hp|].
  apply (Hmove 4108 20 100 h' p'); [reflexivity | unfold SIZE_LIMIT; lia | exact E | exact Hp].
Defined.

Lemma demo_heap_ok : heap_ok demo_heap [Blk 0 252 false] /\ lfree_lowest demo_heap [Blk 0 252 false].
Proof.
  destruct (rt_system_heap_init_spec no_heap 4096 4360 ltac:(lia) ltac:(lia) eq_refl eq_refl ltac:(lia))
    as (h & E & Hok & Hlow & _).
  assert (E' : demo_heap = h) by (unfold demo_heap; rewrite E; reflexivity). subst h.
  assert (Ee : mem_size_aligned demo_heap + HDR = 252) by (vm_compute; reflexivity).
  rewrite Ee in Hok, Hlow. split; [exact Hok | exact Hlow].
Qed.


Lemma malloc_search_terminates_witness :
  exists ptr, while 2
     (fun ptr => (ptr <? u32 (mem_size_aligned demo_heap - 20)) && negb (block_fits demo_heap 20 ptr))
     (fun ptr => next (hdr demo_heap (entry demo_heap ptr))) (u32 (lfree demo_heap - heap_ptr demo_heap)) = Some ptr.
Proof.
  destruct demo_heap_ok as [Hok _].
  apply (malloc_search_terminates demo_heap [Blk 0 252 false] 20 2 Hok); [vm_compute; intuition discriminate | cbn; lia].
Defined.

(** ** Nothing below the heap changes *)

(** The heap starts at the same address and the bytes below it are the same. *)
Definition low (h h' : Heap) : Prop :=
  heap_ptr h' = heap_ptr h /\ forall a, a < heap_ptr h -> load8 (memory h') a = load8 (memory h) a.

Lemma low_refl h : low h h.
Proof. split; reflexivity. Qed.
Lemma low_trans h1 h2 h3 : low h1 h2 -> low h2 h3 -> low h1 h3.
Proof. intros [E1 H1] [E2 H2]. split; [congruence|]. intros a Ha. rewrite H2, H1; [reflexivity | exact Ha | lia]. Qed.

Lemma low_put h0 h e v : low h0 h -> heap_ptr h0 <= e ->
  low h0 (put_magic h e v) /\ low h0 (put_used h e v) /\ low h0 (put_next h e v) /\ low h0 (put_prev h e v).
Proof.
  intros [E H] He. split_ands; (split; [exact E|]); intros a Ha; rewrite <- (H a Ha);
    [apply set_magic_data | apply set_used_data | apply set_next_data | apply set_prev_data]; lia.
Qed.
Lemma low_fields h0 h h' : low h0 h -> heap_ptr h' = heap_ptr h -> memory h' = memory h -> low h0 h'.
Proof. intros [E H] E1 E2. split; [congruence|]. rewrite E2. exact H. Qed.

Lemma entry_low h0 h o : low h0 h -> 0 <= o -> heap_ptr h0 <= entry h o.
Proof. intros [E _] Ho. unfold entry. lia. Qed.
Lemma next_nonneg h a : 0 <= next (hdr h a).
Proof. apply load32_range. Qed.
Lemma prev_nonneg h a : 0 <= prev (hdr h a).
Proof. apply load32_range. Qed.

(** [lows] proves that a state made by stores at entries of the heap is [low]. *)
Ltac lows := repeat first
  [ assumption | apply low_refl
  | match goal with
    | |- low _ (if ?c then _ else _) => destruct c
    | |- low ?h0 (put_magic ?h ?e ?v) => apply (low_put h0 h e v)
    | |- low ?h0 (put_used ?h ?e ?v) => apply (low_put h0 h e v)
    | |- low ?h0 (put_next ?h ?e ?v) => apply (low_put h0 h e v)
    | |- low ?h0 (put_prev ?h ?e ?v) => apply (low_put h0 h e v)
    | |- low _ (modify _ ?h) => apply (low_fields _ h); [| reflexivity | reflexivity]
    | |- low _ (count_used ?h _) => apply (low_fields _ h); [| apply count_used_fields | apply count_used_fields]
    | |- heap_ptr ?h0 <= entry ?h _ => apply (entry_low h0 h)
    | |- 0 <= next _ => apply next_nonneg
    | |- 0 <= prev _ => apply prev_nonneg
    end ].

Lemma plug_holes_low h0 h mem h' : low h0 h -> plug_holes h mem = Some h' -> low h0 h'.
Proof.
  intros Hl. unfold plug_holes. destruct (_ && _) eqn:C; [|discriminate]. intros [= <-].
  apply andb_true_iff in C as [[C%Z.leb_le _]%andb_true_iff _]. pose proof (proj1 Hl) as E.
  assert (Hf : low h0 (plug_forward h mem)) by (unfold plug_forward; lows; lia).
  pose proof (proj1 Hf) as E'. unfold plug_backward. lows; lia.
Qed.

Lemma plug_holes_at h mem h' : plug_holes h mem = Some h' -> heap_ptr h <= mem.
Proof.
  unfold plug_holes. destruct (_ && _) eqn:C; [|discriminate]. intros _.
  apply andb_true_iff in C as [[C%Z.leb_le _]%andb_true_iff _]. exact C.
Qed.

Lemma rt_free_low n h p h' : rt_free n h p = Some h' -> low h h'.
Proof.
  unfold rt_free. destruct (p =? 0); [intros [= <-]; apply low_refl|].
  repeat (case_match; [discriminate|]). intros E.
  pose proof (plug_holes_at _ _ _ E) as Hm. destruct (free_mark_fields h (p - SIZEOF_STRUCT_MEM)) as (_ & (Ep & _) & _).
  rewrite Ep in Hm.
  revert E. apply plug_holes_low. unfold free_mark. lows; lia.
Qed.

Lemma while_inv {S} (I : S -> Prop) fuel cond body (s s' : S) :
  (forall s, I s -> I (body s)) -> I s -> while fuel cond body s = Some s' -> I s'.
Proof.
  intros Hb. revert s. induction fuel as [|fuel IH]; intros s Hi; [discriminate|]. cbn [while].
  destruct (cond s); [apply IH; auto | intros [= <-]; exact Hi].
Qed.

Lemma malloc_take_low h0 h size ptr : low h0 h -> 0 <= ptr -> low h0 (malloc_take h size ptr).
Proof.
  intros Hl Hp. unfold malloc_take. cbv zeta. destruct (_ <=? _); lows; try apply u32_range; try lia;
    unfold entry; destruct Hl as [E _]; cbn; pose proof (u32_range (ptr + SIZEOF_STRUCT_MEM + size)); lia.
Qed.

Lemma rt_malloc_low n h size h' p : rt_malloc n h size = Some (h', p) -> low h h'.
Proof.
  unfold rt_malloc. destruct (size =? 0); [intros [= <- _]; apply low_refl|].
  destruct (negb (n =? 0)); [discriminate|]. cbv zeta. destruct (_ <? _); [intros [= <- _]; apply low_refl|].
  set (sz := if _ <? MIN_SIZE_ALIGNED then _ else _). destruct (malloc_search h sz) as [ptr|] eqn:Es; [|discriminate].
  cbn [mbind option_bind]. destruct (ptr <? _); [|intros [= <- _]; apply low_refl].
  assert (Hp : 0 <= ptr).
  { revert Es. unfold malloc_search. apply while_inv; [intros; apply next_nonneg | apply u32_range]. }
  set (h1 := put_magic _ _ _).
  assert (H1 : low h h1) by (unfold h1; apply (low_put h); [apply malloc_take_low; [apply low_refl | exact Hp] | apply entry_low; [apply low_refl | exact Hp]]).
  clearbody h1. destruct (if _ =? lfree h1 then _ else _) as [h2|] eqn:E2; [|discriminate].
  cbn [mbind option_bind]. destruct (_ && _); [|discriminate]. intros [= <- _].
  destruct (_ =? lfree h1) in E2; [|injection E2 as <-; exact H1].
  destruct (lfree_search h1) as [q|]; [|discriminate]. cbn [mbind option_bind] in E2.
  destruct (_ || _) in E2; [|discriminate]. injection E2 as <-. apply (low_fields _ h1); auto.
Qed.

(** ** What a client can count on *)

Definition heap_good (h : Heap) (live : Live) : Prop := exists bs, state_ok h bs live.

Lemma client_step_good s s' : heap_good s.1 s.2 -> client_step s s' -> heap_good s'.1 s'.2.
Proof. intros [bs H] Hs. exact (step_ok _ _ _ H Hs). Qed.

(** An allocation gives zero and changes nothing, or a pointer no client holds. *)
Lemma client_malloc h live size :
  heap_good h live -> 0 < size <= SIZE_LIMIT ->
  rt_malloc 0 h size = Some (h, 0) \/
  exists h' p, rt_malloc 0 h size = Some (h', p) /\ 0 < p /\ live !! p = None /\ heap_good h' (<[p := size]> live) /\
    heap_call (h, live) (h', <[p := size]> live).
Proof.
  intros [bs Hst] Hsize. pose proof (st_heap _ _ _ Hst) as Hok.
  pose proof (rt_malloc_spec h bs size Hok ltac:(lia)) as Hm.
  destruct (malloc_block h size bs) as [b|]; [right | left; exact Hm].
  destruct Hm as (Hb & Hbf & _ & h' & E & _). pose proof (data_pos _ _ _ (ok_shape _ _ Hok) Hb) as Hpos.
  exists h', (data h b). split; [exact E|]. split; [exact Hpos|].
  assert (Hc : heap_call (h, live) (h', <[data h b := size]> live)).
  { pose proof (call_malloc h live size h' _ Hsize E) as Hc. destruct (Z.eqb_spec (data h b) 0); [lia | exact Hc]. }
  split; [|split; [exact (call_ok _ _ _ _ _ Hst Hc) | exact Hc]].
  destruct (live !! data h b) as [n|] eqn:El; [|reflexivity]. exfalso.
  destruct (ow_block _ _ _ (st_owned _ _ _ Hst) _ _ El) as (c & Hc' & Hcu & Ec & _).
  assert (b = c) by (apply (data_inj h bs); auto; apply Hok). congruence.
Qed.

(** Releasing a pointer the client holds succeeds. *)
Lemma client_free h live p n :
  heap_good h live -> live !! p = Some n ->
  exists h', rt_free 0 h p = Some h' /\ heap_good h' (delete p live) /\ heap_call (h, live) (h', delete p live).
Proof.
  intros [bs Hst] Hl. destruct (ow_block _ _ _ (st_owned _ _ _ Hst) _ _ Hl) as (b & Hb & Hbu & -> & _).
  destruct (rt_free_spec _ _ b (st_heap _ _ _ Hst) Hb Hbu) as (h' & E & _).
  pose proof (call_free _ _ _ _ _ Hl E) as Hc. exists h'. split; [exact E|].
  split; [exact (call_ok _ _ _ _ _ Hst Hc) | exact Hc].
Qed.
