(* ===== verification/Strings.v ===== *)
(** * Kernel service library: C strings (kservice.c)

    The string functions walk through the byte memory until they meet a terminator,
    so a loop takes its fuel as an argument: a string without terminator has no last
    byte.  The theorems compare them with functions on lists, for every fuel greater
    than the length of the string.  [char] is unsigned on this processor.
    [rt_strdup], [rt_malloc_align] and [rt_free_align] work on the heap. *)

From S2P Require Import Prelude Memory Kservice Blocks Mem Heap.

(** The C string [s] lies at [p]. *)
Fixpoint cstring (m : Memory) (p : Z) (s : list Z) : Prop :=
  match s with
  | [] => load8 m p = 0
  | c :: s => load8 m p = c /\ c <> 0 /\ cstring m (p + 1) s
  end.

(** ** The functions *)

(** [for (sc = s; *sc != 0; ++sc); return sc - s;] *)
Definition rt_strlen (fuel : nat) (m : Memory) (s : Z) : option Z :=
  sc ← while fuel (fun sc => negb (load8 m sc =? 0)) (fun sc => sc + 1) s;
  Some (u32 (sc - s)).

Definition rt_strnlen (fuel : nat) (m : Memory) (s maxlen : Z) : option Z :=
  sc ← while fuel (fun sc => negb (load8 m sc =? 0) && (u32 (sc - s) <? maxlen)) (fun sc => sc + 1) s;
  Some (u32 (sc - s)).

Definition rt_strcmp (fuel : nat) (m : Memory) (cs ct : Z) : option Z :=
  '(cs, ct) ← while fuel (fun '(cs, ct) => negb (load8 m cs =? 0) && (load8 m cs =? load8 m ct))
                         (fun '(cs, ct) => (cs + 1, ct + 1)) (cs, ct);
  Some (load8 m cs - load8 m ct).

(** [__res] is a [signed char].  Structural in the count; [__res] is the value of the last round. *)
Fixpoint strncmp_loop (m : Memory) (cs ct __res : Z) (count : nat) : Z :=
  match count with
  | O => __res
  | S count =>
      let __res := s8 (load8 m cs - load8 m ct) in
      if negb (__res =? 0) || (load8 m cs =? 0) then __res
      else strncmp_loop m (cs + 1) (ct + 1) __res count
  end.
Definition rt_strncmp (m : Memory) (cs ct : Z) (count : nat) : Z := strncmp_loop m cs ct 0 count.

(** [ca += 'a' - 'A'] for a capital letter. *)
Definition lower_case (c : Z) : Z := if (chr "A" <=? c) && (c <=? chr "Z") then c + (chr "a" - chr "A") else c.

(** [ca = *a & 0xff], in lower case. *)
Definition case_char (m : Memory) (p : Z) : Z := lower_case (Z.land (load8 m p) 255).

(** The rounds of the [do] loop after which it goes on are the iterations. *)
Definition rt_strcasecmp (fuel : nat) (m : Memory) (a b : Z) : option Z :=
  '(a, b) ← while fuel (fun '(a, b) => (case_char m a =? case_char m b) && negb (case_char m a =? 0))
                       (fun '(a, b) => (a + 1, b + 1)) (a, b);
  Some (u32 (case_char m a - case_char m b)).

(** [while (--n != 0) *d++ = 0]; [n] is the count before the first test. *)
Definition strncpy_pad (m : Memory) (d : Z) (n : nat) : Memory :=
  fst (Nat.iter (pred n) (fun '(m, d) => (store8 m d 0, d + 1)) (m, d)).

Fixpoint strncpy_loop (m : Memory) (d s : Z) (n : nat) : Memory :=
  match n with
  | O => m
  | S k =>
      let c := load8 m s in
      let m := store8 m d c in
      if c =? 0 then strncpy_pad m (d + 1) n else strncpy_loop m (d + 1) (s + 1) k
  end.
(** [rt_strncpy(dst, src, n)]; the pointer it returns is [dst]. *)
Definition rt_strncpy (m : Memory) (dst src : Z) (n : nat) : Memory := strncpy_loop m dst src n.

(** The search of [rt_strstr]: 0 is [RT_NULL]. *)
Fixpoint strstr_loop (fuel : nat) (m : Memory) (s1 s2 l1 l2 : Z) : option Z :=
  match fuel with
  | O => None
  | S fuel =>
      if l2 <=? l1 then
        if rt_memcmp m s1 s2 (Z.to_nat l2) =? 0 then Some s1
        else strstr_loop fuel m (s1 + 1) s2 (l1 - 1) l2
      else Some 0
  end.

Definition rt_strstr (fuel : nat) (m : Memory) (s1 s2 : Z) : option Z :=
  l2 ← rt_strlen fuel m s2;
  let l2 := s32 l2 in
  if l2 =? 0 then Some s1
  else
    l1 ← rt_strlen fuel m s1;
    strstr_loop fuel m s1 s2 (s32 l1) l2.

(** [rt_strdup(s)]: the heap, and the new string or 0. *)
Definition rt_strdup (fuel : nat) (h : Heap) (s : Z) : option (Heap * Z) :=
  n ← rt_strlen fuel (memory h) s;
  let len := u32 (n + 1) in
  '(h, tmp) ← rt_malloc 0 h len;
  if tmp =? 0 then Some (h, 0)
  else
    m ← rt_memcpy (memory h) tmp s len;
    Some (h <| memory := m |>, tmp).

Definition rt_malloc_align (h : Heap) (size align : Z) : option (Heap * Z) :=
  let uintptr_size := 4 - 1 in
  let align := Z.land (u32 (align + uintptr_size)) (Z.lnot uintptr_size) in
  let align_size := u32 (Z.land (u32 (size + uintptr_size)) (Z.lnot uintptr_size) + align) in
  '(h, ptr) ← rt_malloc 0 h align_size;
  if negb (ptr =? 0) then
    let align_ptr :=
      if Z.land ptr (u32 (align - 1)) =? 0 then u32 (ptr + align)
      else Z.land (u32 (ptr + (align - 1))) (u32 (Z.lnot (align - 1))) in
    Some (h <| memory := store32 (memory h) (align_ptr - 4) ptr |>, align_ptr)
  else Some (h, 0).

Definition rt_free_align (h : Heap) (ptr : Z) : option Heap :=
  let real_ptr := load32 (memory h) (ptr - 4) in
  rt_free 0 h real_ptr.

(** ** Reference definitions *)

(** The first characters that differ, or the terminators. *)
Fixpoint first_diff (a b : list Z) : Z * Z :=
  match a, b with
  | x :: a, y :: b => if x =? y then first_diff a b else (x, y)
  | x :: _, [] => (x, 0)
  | [], y :: _ => (0, y)
  | [], [] => (0, 0)
  end.

(** The first place where [t] occurs in [s]. *)
Fixpoint occurrence (s t : list Z) : option nat :=
  if bool_decide (t `prefix_of` s) then Some 0%nat
  else match s with [] => None | _ :: s => S <$> occurrence s t end.

Lemma first_diff_eq a b : Forall (fun c => c <> 0) a -> Forall (fun c => c <> 0) b ->
  (first_diff a b).1 = (first_diff a b).2 <-> a = b.
Proof.
  intros Ha. revert b. induction Ha as [|x a Hx _ IH]; intros b Hb; destruct Hb as [|y b Hy Hb]; cbn.
  - tauto.
  - split; [congruence | discriminate].
  - split; [congruence | discriminate].
  - destruct (Z.eqb_spec x y) as [->|Hne]; [rewrite IH by exact Hb; split; congruence|].
    cbn. split; congruence.
Qed.

(** ** The loops *)

Lemma cstring_nonzero m p s : cstring m p s -> Forall (fun c => c <> 0) s.
Proof. revert p. induction s as [|c s IH]; intros p H; constructor; [apply H | eapply IH, H]. Qed.

Lemma cstring_end m p s : cstring m p s -> load8 m (p + Z.of_nat (length s)) = 0.
Proof.
  revert p. induction s as [|c s IH]; intros p; cbn [cstring length]; [rewrite Z.add_0_r; auto|].
  intros (_ & _ & H). rewrite <- (IH _ H). f_equal. lia.
Qed.

Lemma cstring_char m p s i c : cstring m p s -> s !! i = Some c -> load8 m (p + Z.of_nat i) = c.
Proof.
  revert p i. induction s as [|x s IH]; intros p i; [discriminate|]. cbn [cstring].
  intros (Hx & _ & H). destruct i as [|i]; cbn; [intros [= <-]; rewrite Z.add_0_r; exact Hx|].
  intros E. rewrite <- (IH _ _ H E). f_equal. lia.
Qed.

Lemma cstring_frame m m' p p' s :
  cstring m p s -> (forall i, 0 <= i <= Z.of_nat (length s) -> load8 m' (p' + i) = load8 m (p + i)) ->
  cstring m' p' s.
Proof.
  revert p p'. induction s as [|c s IH]; intros p p'; cbn [cstring length]; intros H Hf.
  - specialize (Hf 0 ltac:(lia)). rewrite !Z.add_0_r in Hf. congruence.
  - destruct H as (Hc & Hne & H). split; [|split; [exact Hne|]].
    + specialize (Hf 0 ltac:(lia)). rewrite !Z.add_0_r in Hf. congruence.
    + apply (IH _ _ H). intros i Hi. replace (p' + 1 + i) with (p' + (i + 1)) by lia.
      rewrite Hf by lia. f_equal. lia.
Qed.

Lemma cstring_drop m p s n : cstring m p s -> (n <= length s)%nat -> cstring m (p + Z.of_nat n) (drop n s).
Proof.
  revert p s. induction n as [|n IH]; intros p s H Hn; [rewrite Z.add_0_r; exact H|].
  destruct s as [|c s]; cbn [length] in Hn; [lia|]. destruct H as (_ & _ & H). cbn [drop].
  replace (p + Z.of_nat (S n)) with (p + 1 + Z.of_nat n) by lia. apply IH; [exact H | lia].
Qed.

Lemma rt_strlen_spec fuel m p s :
  cstring m p s -> (length s < fuel)%nat -> Z.of_nat (length s) < 4294967296 ->
  rt_strlen fuel m p = Some (Z.of_nat (length s)).
Proof.
  intros H Hf Hlen. unfold rt_strlen.
  assert (E : while fuel (fun sc => negb (load8 m sc =? 0)) (fun sc => sc + 1) p = Some (p + Z.of_nat (length s))).
  { clear Hlen. revert p s H Hf. induction fuel as [|fuel IH]; intros p s H Hf; [lia|]. cbn [while].
    destruct s as [|c s]; cbn [cstring length] in *.
    - rewrite H, Z.add_0_r. reflexivity.
    - destruct H as (-> & Hne & H). destruct (Z.eqb_spec c 0); [contradiction|]. cbn [negb].
      rewrite (IH _ _ H) by lia. f_equal. lia. }
  rewrite E. cbn. rewrite u32_small; f_equal; lia.
Qed.

Lemma rt_strnlen_spec fuel m p s maxlen :
  cstring m p s -> (length s < fuel)%nat -> Z.of_nat (length s) < 4294967296 -> 0 <= maxlen ->
  rt_strnlen fuel m p maxlen = Some (Z.min (Z.of_nat (length s)) maxlen).
Proof.
  intros H Hf Hlen Hmax. unfold rt_strnlen.
  assert (E : forall k, 0 <= k <= maxlen -> k + Z.of_nat (length s) < 4294967296 ->
    while fuel (fun sc => negb (load8 m sc =? 0) && (u32 (sc - (p - k)) <? maxlen)) (fun sc => sc + 1) p =
    Some (p - k + Z.min (k + Z.of_nat (length s)) maxlen)).
  { clear Hlen. revert p s H Hf. induction fuel as [|fuel IH]; intros p s H Hf k Hk Hlen; [lia|]. cbn [while].
    destruct s as [|c s]; cbn [cstring length] in *.
    - rewrite H. cbn [Z.eqb negb andb]. f_equal. lia.
    - destruct H as (-> & Hne & H). destruct (Z.eqb_spec c 0); [contradiction|]. cbn [negb andb].
      replace (p - (p - k)) with k by lia. rewrite u32_small by lia.
      destruct (Z.ltb_spec k maxlen); [|f_equal; lia].
      specialize (IH _ _ H ltac:(lia) (k + 1) ltac:(lia) ltac:(lia)).
      replace (p + 1 - (k + 1)) with (p - k) in IH by lia. rewrite IH. f_equal. lia. }
  specialize (E 0 ltac:(lia) ltac:(lia)). rewrite Z.sub_0_r, Z.add_0_l in E. rewrite E. cbn.
  rewrite u32_small; f_equal; lia.
Qed.

Lemma rt_strcmp_spec fuel m p q a b :
  cstring m p a -> cstring m q b -> (length a < fuel)%nat ->
  rt_strcmp fuel m p q = Some ((first_diff a b).1 - (first_diff a b).2).
Proof.
  unfold rt_strcmp. revert p q a b. induction fuel as [|fuel IH]; intros p q a b Ha Hb Hf; [lia|]. cbn [while].
  destruct a as [|x a]; cbn [cstring length first_diff] in *.
  - rewrite Ha. cbn. rewrite Ha. destruct b as [|y b]; cbn [cstring] in Hb; [rewrite Hb | destruct Hb as (-> & _)]; reflexivity.
  - destruct Ha as (Hx & Hne & Ha). rewrite Hx. destruct (Z.eqb_spec x 0); [contradiction|]. cbn [negb andb].
    destruct b as [|y b]; cbn [cstring] in Hb.
    + rewrite Hb. destruct (Z.eqb_spec x 0); [contradiction|]. cbn. rewrite Hx, Hb. reflexivity.
    + destruct Hb as (Hy & Hny & Hb). rewrite Hy. destruct (Z.eqb_spec x y) as [->|].
      * apply IH; assumption || lia.
      * cbn. rewrite Hx, Hy. reflexivity.
Qed.

Lemma s8_diff x y : 0 <= x < 256 -> 0 <= y < 256 -> (s8 (x - y) =? 0) = (x =? y).
Proof.
  intros. unfold s8. destruct (Z.eqb_spec x y) as [->|].
  - rewrite Z.sub_diag. reflexivity.
  - apply Z.eqb_neq. Z.div_mod_to_equations. lia.
Qed.

Lemma rt_strncmp_spec m p q a b n :
  cstring m p a -> cstring m q b ->
  rt_strncmp m p q n = let d := first_diff (take n a) (take n b) in s8 (d.1 - d.2).
Proof.
  unfold rt_strncmp. cbv zeta.
  enough (H : forall n p q a b, cstring m p a -> cstring m q b ->
    strncmp_loop m p q 0 n = s8 ((first_diff (take n a) (take n b)).1 - (first_diff (take n a) (take n b)).2))
    by (apply H).
  clear. induction n as [|n IH]; intros p q a b Ha Hb; [reflexivity|]. cbn [strncmp_loop].
  pose proof (load8_range m p) as Rp. pose proof (load8_range m q) as Rq. rewrite s8_diff by assumption.
  destruct a as [|x a], b as [|y b]; cbn [cstring take first_diff] in *.
  - rewrite Ha, Hb. reflexivity.
  - destruct Hb as (-> & Hny & _). rewrite Ha. rewrite orb_true_r. reflexivity.
  - destruct Ha as (-> & Hnx & _). rewrite Hb. destruct (Z.eqb_spec x 0); [contradiction | reflexivity].
  - destruct Ha as (-> & Hnx & Ha), Hb as (-> & Hny & Hb).
    destruct (Z.eqb_spec x y) as [->|]; cbn [negb orb]; [|reflexivity].
    destruct (Z.eqb_spec y 0); [contradiction|]. rewrite Z.sub_diag. change (s8 0) with 0. apply IH; assumption.
Qed.

Lemma lower_zero c : 0 <= c -> (lower_case c =? 0) = (c =? 0).
Proof.
  intros Hc. unfold lower_case. change (chr "a" - chr "A") with 32. change (chr "A") with 65. change (chr "Z") with 90.
  destruct (Z.leb_spec 65 c), (Z.leb_spec c 90); cbn [andb]; try reflexivity.
  destruct (Z.eqb_spec (c + 32) 0), (Z.eqb_spec c 0); lia || reflexivity.
Qed.

Lemma case_char_load m p : case_char m p = lower_case (load8 m p).
Proof.
  unfold case_char. change 255 with (Z.ones 8). rewrite Z.land_ones by lia.
  rewrite Z.mod_small by apply load8_range. reflexivity.
Qed.

Lemma rt_strcasecmp_spec fuel m p q a b :
  cstring m p a -> cstring m q b -> (length a < fuel)%nat ->
  rt_strcasecmp fuel m p q =
    let d := first_diff (map lower_case a) (map lower_case b) in Some (u32 (d.1 - d.2)).
Proof.
  unfold rt_strcasecmp. cbv zeta. revert p q a b. induction fuel as [|fuel IH]; intros p q a b Ha Hb Hf; [lia|].
  cbn [while]. rewrite !case_char_load, lower_zero by apply load8_range.
  destruct a as [|x a], b as [|y b]; cbn [cstring map length first_diff] in *.
  - rewrite Ha, Hb, Z.eqb_refl. cbn [Z.eqb negb andb mbind option_bind]. rewrite !case_char_load, Ha, Hb. reflexivity.
  - destruct Hb as (Hy & _). rewrite Ha, Hy, andb_false_r. cbn [mbind option_bind]. rewrite !case_char_load, Ha, Hy. reflexivity.
  - destruct Ha as (Hx & Hnx & _). pose proof (load8_range m p) as R. rewrite Hx, Hb in *. change (lower_case 0) with 0.
    pose proof (lower_zero x ltac:(lia)) as El. destruct (Z.eqb_spec x 0) as [|_]; [contradiction|]. rewrite El.
    cbn [negb andb mbind option_bind]. rewrite !case_char_load, Hx, Hb. reflexivity.
  - destruct Ha as (Hx & Hnx & Ha), Hb as (Hy & Hny & Hb). rewrite Hx, Hy.
    destruct (Z.eqb_spec x 0); [contradiction|]. cbn [negb]. rewrite andb_true_r.
    destruct (Z.eqb_spec (lower_case x) (lower_case y)).
    + apply IH; assumption || lia.
    + cbn [mbind option_bind]. rewrite !case_char_load, Hx, Hy. reflexivity.
Qed.

Lemma no_address d x : (d <=? x) && (x <? d + Z.of_nat 0) = false.
Proof. destruct (Z.leb_spec d x), (Z.ltb_spec x (d + Z.of_nat 0)); try lia; reflexivity. Qed.

Lemma strncpy_pad_load m d n x :
  load8 (strncpy_pad m d (S n)) x = if (d <=? x) && (x <? d + Z.of_nat n) then 0 else load8 m x.
Proof.
  unfold strncpy_pad. cbn [pred]. set (f := fun '(m, d) => (store8 m d 0, d + 1)).
  assert (H : (Nat.iter n f (m, d)).2 = d + Z.of_nat n /\
    load8 (Nat.iter n f (m, d)).1 x = if (d <=? x) && (x <? d + Z.of_nat n) then 0 else load8 m x).
  { induction n as [|n [IH1 IH2]].
    - rewrite no_address. cbn. split; [lia | reflexivity].
    - cbn [Nat.iter nat_rect]. change (nat_rect _ _ _ n) with (Nat.iter n f (m, d)).
      destruct (Nat.iter n f (m, d)) as [m1 d1]. cbn [fst snd f] in *. split; [lia|].
      rewrite load8_store8, IH2, IH1. destruct (Z.eqb_spec x (d + Z.of_nat n)) as [E|];
        destruct (Z.leb_spec d x), (Z.ltb_spec x (d + Z.of_nat n)), (Z.ltb_spec x (d + Z.of_nat (S n))); try lia; reflexivity. }
  apply H.
Qed.

(** The copy, filled with zeros behind the string. *)
Lemma rt_strncpy_spec m dst src s n x :
  cstring m src s -> dst + Z.of_nat n <= src \/ src + Z.of_nat (length s) < dst ->
  load8 (rt_strncpy m dst src n) x =
    if (dst <=? x) && (x <? dst + Z.of_nat n) then nth (Z.to_nat (x - dst)) s 0 else load8 m x.
Proof.
  unfold rt_strncpy. revert m dst src s. induction n as [|n IH]; intros m dst src s Hs Hover.
  - rewrite no_address. reflexivity.
  - cbn [strncpy_loop]. destruct s as [|c s]; cbn [cstring length] in *.
    + rewrite Hs. cbn [Z.eqb]. rewrite strncpy_pad_load, load8_store8.
      assert (Hnil : forall k, nth k (@nil Z) 0 = 0) by (intros []; reflexivity). rewrite Hnil.
      destruct (Z.leb_spec (dst + 1) x), (Z.leb_spec dst x), (Z.ltb_spec x (dst + 1 + Z.of_nat n)),
        (Z.ltb_spec x (dst + Z.of_nat (S n))), (Z.eqb_spec x dst); try lia; reflexivity.
    + destruct Hs as (Hc & Hne & Hs). rewrite Hc. destruct (Z.eqb_spec c 0); [contradiction|].
      pose proof (load8_range m src) as R. rewrite Hc in R.
      rewrite (IH _ _ _ s); [| |lia].
      * rewrite load8_store8. destruct (Z.eqb_spec x dst) as [E|].
        -- subst x. rewrite Z.sub_diag, u8_small by exact R. cbn [Z.to_nat nth].
           destruct (Z.leb_spec (dst + 1) dst), (Z.leb_spec dst dst), (Z.ltb_spec dst (dst + Z.of_nat (S n))); try lia; reflexivity.
        -- destruct (Z.leb_spec (dst + 1) x), (Z.leb_spec dst x), (Z.ltb_spec x (dst + 1 + Z.of_nat n)),
             (Z.ltb_spec x (dst + Z.of_nat (S n))); try lia; cbn [andb]; try reflexivity.
           replace (Z.to_nat (x - dst)) with (S (Z.to_nat (x - (dst + 1)))) by lia. reflexivity.
      * apply (cstring_frame _ _ _ _ _ Hs). intros i Hi. rewrite load8_store8.
        destruct (Z.eqb_spec (src + 1 + i) dst); [lia | reflexivity].
Qed.

Lemma memcmp_prefix m p q s t :
  cstring m p s -> cstring m q t -> (length t <= length s)%nat ->
  (rt_memcmp m p q (length t) =? 0) = bool_decide (t `prefix_of` s).
Proof.
  revert p q s. induction t as [|y t IH]; intros p q s Hs Ht Hlen; cbn [length rt_memcmp].
  - rewrite bool_decide_true by apply prefix_nil. reflexivity.
  - destruct s as [|x s]; cbn [length] in Hlen; [lia|]. cbn [cstring] in *.
    destruct Hs as (-> & _ & Hs), Ht as (-> & _ & Ht). destruct (Z.eqb_spec (x - y) 0) as [E|E]; cbn [negb].
    + assert (x = y) as -> by lia. rewrite (IH _ _ s Hs Ht) by lia. apply bool_decide_ext.
      split; [apply prefix_cons | apply prefix_cons_inv_2].
    + rewrite bool_decide_false by (intros P%prefix_cons_inv_1; lia). apply Z.eqb_neq. exact E.
Qed.

Lemma occurrence_short s t : (length s < length t)%nat -> occurrence s t = None.
Proof.
  induction s as [|c s IH]; intros H; cbn [occurrence]; rewrite bool_decide_false
    by (intros P%prefix_length; lia); [reflexivity|]. cbn in H. rewrite IH by lia. reflexivity.
Qed.

Lemma strstr_loop_spec fuel m p q s t :
  cstring m p s -> cstring m q t -> t <> [] -> (length s < fuel)%nat ->
  strstr_loop fuel m p q (Z.of_nat (length s)) (Z.of_nat (length t)) =
    Some (match occurrence s t with Some i => p + Z.of_nat i | None => 0 end).
Proof.
  intros Hs Ht Hne. revert p s Hs. induction fuel as [|fuel IH]; intros p s Hs Hf; [lia|]. cbn [strstr_loop].
  destruct (Z.leb_spec (Z.of_nat (length t)) (Z.of_nat (length s))) as [Hle|Hlt];
    [|rewrite occurrence_short by lia; reflexivity].
  rewrite Nat2Z.id, (memcmp_prefix _ _ _ _ _ Hs Ht) by lia.
  destruct s as [|c s]; [destruct t; [contradiction | cbn in Hle; lia]|].
  cbn [occurrence]. destruct (bool_decide (t `prefix_of` c :: s)); [rewrite Z.add_0_r; reflexivity|].
  destruct Hs as (_ & _ & Hs). cbn [length] in Hf |- *.
  replace (Z.of_nat (S (length s)) - 1) with (Z.of_nat (length s)) by lia. rewrite (IH _ _ Hs) by lia.
  destruct (occurrence s t); cbn [fmap option_fmap option_map]; f_equal; lia.
Qed.

Lemma rt_strstr_spec fuel m p q s t :
  cstring m p s -> cstring m q t -> (length s < fuel)%nat -> (length t < fuel)%nat ->
  Z.of_nat (length s) <= INT_MAX -> Z.of_nat (length t) <= INT_MAX ->
  rt_strstr fuel m p q = Some (match occurrence s t with Some i => p + Z.of_nat i | None => 0 end).
Proof.
  unfold INT_MAX. intros Hs Ht Hf1 Hf2 H1 H2. unfold rt_strstr.
  rewrite (rt_strlen_spec _ _ _ _ Ht) by lia. cbn [mbind option_bind].
  rewrite s32_small by (unfold INT_MIN, INT_MAX; lia). destruct (Z.eqb_spec (Z.of_nat (length t)) 0) as [E|E].
  - destruct t; [|cbn in E; lia]. destruct s; cbn; rewrite bool_decide_true by apply prefix_nil; rewrite Z.add_0_r; reflexivity.
  - rewrite (rt_strlen_spec _ _ _ _ Hs) by lia. cbn [mbind option_bind].
    rewrite s32_small by (unfold INT_MIN, INT_MAX; lia).
    apply strstr_loop_spec; try assumption. intros ->. apply E. reflexivity.
Qed.

(** ** The results in terms of lists *)

Lemma strcasecmp_zero m p q a b :
  cstring m p a -> cstring m q b ->
  Some (u32 ((first_diff (map lower_case a) (map lower_case b)).1 - (first_diff (map lower_case a) (map lower_case b)).2))
    = Some 0 <-> map lower_case a = map lower_case b.
Proof.
  intros Ha Hb.
  assert (Hr : forall m p s, cstring m p s -> Forall (fun c => 0 < c < 512) (map lower_case s)).
  { clear. intros m p s. revert p. induction s as [|c s IH]; intros p H; constructor; [|eapply IH, H].
    destruct H as (Hc & Hne & _). pose proof (load8_range m p). unfold lower_case.
    change (chr "a" - chr "A") with 32. destruct (_ && _); lia. }
  pose proof (Hr _ _ _ Ha) as Fa. pose proof (Hr _ _ _ Hb) as Fb.
  rewrite <- first_diff_eq by (eapply Forall_impl; [eassumption | cbv beta; intros; lia]).
  assert (Hd : forall l, Forall (fun c => 0 < c < 512) l -> forall l', Forall (fun c => 0 < c < 512) l' ->
            0 <= (first_diff l l').1 < 512 /\ 0 <= (first_diff l l').2 < 512).
  { clear. intros l Hl. induction Hl as [|x l Hx _ IH]; intros l' Hl'; destruct Hl' as [|y l' Hy Hl']; cbn; try lia.
    destruct (x =? y); [apply IH; exact Hl' | cbn; lia]. }
  destruct (Hd _ Fa _ Fb). destruct (first_diff _ _) as [x y]. cbn [fst snd] in *.
  split; [|intros ->; rewrite Z.sub_diag; reflexivity].
  intros [= E]. unfold u32 in E. Z.div_mod_to_equations. lia.
Qed.

Lemma strncpy_bytes m p q a n :
  cstring m p a -> q + Z.of_nat n <= p \/ p + Z.of_nat (length a) < q ->
  bytes_at (rt_strncpy m q p n) q n = take n (a ++ repeat 0 n).
Proof.
  intros Ha Hover. apply (nth_ext _ _ 0 0).
  { rewrite bytes_at_length, length_take, length_app, repeat_length. lia. }
  intros i Hi. rewrite bytes_at_length in Hi. unfold bytes_at.
  rewrite (nth_indep _ 0 (load8 (rt_strncpy m q p n) (q + Z.of_nat 0))) by (rewrite length_map, length_seq; exact Hi).
  rewrite (map_nth (fun i => load8 (rt_strncpy m q p n) (q + Z.of_nat i))), seq_nth by exact Hi. cbn [plus].
  rewrite (rt_strncpy_spec _ _ _ _ _ _ Ha Hover).
  destruct (Z.leb_spec q (q + Z.of_nat i)), (Z.ltb_spec (q + Z.of_nat i) (q + Z.of_nat n)); try lia. cbn [andb].
  replace (Z.to_nat (q + Z.of_nat i - q)) with i by lia. rewrite nth_take by exact Hi.
  destruct (Nat.lt_ge_cases i (length a)).
  - rewrite app_nth1 by assumption. reflexivity.
  - rewrite app_nth2, nth_repeat by assumption. apply nth_overflow. assumption.
Qed.

(** ** Strings and aligned blocks on the heap *)

(** What a client knows after [rt_malloc]. *)
Lemma malloc_client h bs size :
  heap_ok h bs -> 0 < size <= 4294967292 ->
  rt_malloc 0 h size = Some (h, 0) \/
  exists h' bs' c, rt_malloc 0 h size = Some (h', data h c) /\ heap_ok h' bs' /\ same_heap h h' /\
    c ∈ bs' /\ busy c = true /\ size <= room c /\ 0 < data h c /\ heap_ptr h + fin c <= 4294967296 /\
    forall d, d ∈ bs -> busy d = true -> d ∈ bs' /\ (fin d <= off c \/ fin c <= off d) /\
      same_on (memory h) (memory h') (data h d) (heap_ptr h + fin d).
Proof.
  intros Hok Hsize. pose proof (rt_malloc_spec h bs size Hok ltac:(lia)) as Hm.
  destruct (malloc_block h size bs) as [b|]; [right | left; exact Hm].
  destruct Hm as (Hb & Hfree & Hroom & h' & Hm & Hok' & Hk & Hsame & _).
  pose proof (ok_shape _ _ Hok) as Hs. pose proof (sh_ptr _ _ Hs). pose proof (sh_space _ _ Hs).
  pose proof (shape_bounds _ _ _ Hs Hb) as Bb. unfold HDR in Bb.
  destruct (request_aligned size) as [_ Hreq].
  assert (Hsz : size <= request size).
  { unfold request. pose proof (RT_ALIGN_4 size) as E. rewrite E by lia. Z.div_mod_to_equations. lia. }
  exists h', (on_block (taken (request size)) (off b) bs), (taken_head (request size) b).
  assert (Hin : forall d, busy d = true -> d ∈ on_block (taken (request size)) (off b) bs <->
            d = taken_head (request size) b \/ d ∈ bs).
  { intros d Hd. apply (busy_taken _ _ _ _ _ (sh_blocks _ _ Hs)); auto; lia. }
  assert (Hfin : fin (taken_head (request size) b) <= fin b /\ size <= room (taken_head (request size) b)).
  { unfold taken_head, room in *. cbn [fin off]. destruct (_ <=? _) eqn:E; [apply Z.leb_le in E|]; unfold HDR in *; lia. }
  split_ands; auto; try lia.
  - apply Hin; auto.
  - unfold data. rewrite SIZEOF_eq. unfold HDR, taken_head. cbn [off]. lia.
  - intros d Hd Hu. assert (Hd' : d ∈ on_block (taken (request size)) (off b) bs) by (apply Hin; auto).
    split; [exact Hd'|]. split; [|exact (Hk d Hd' Hu)].
    destruct (contiguous_disjoint _ _ _ _ _ (sh_blocks _ _ Hs) Hb Hd) as [<-|[]]; [congruence | |];
      unfold taken_head in *; cbn [off fin] in *; lia.
Qed.

Lemma strdup_copy h bs b fuel s t :
  heap_ok h bs -> b ∈ bs -> busy b = true ->
  cstring (memory h) s t -> data h b <= s -> s + Z.of_nat (length t) < heap_ptr h + fin b ->
  (length t < fuel)%nat -> Z.of_nat (length t) < INT_MAX ->
  rt_strdup fuel h s = Some (h, 0) \/
  exists h' bs' c, rt_strdup fuel h s = Some (h', data h c) /\ heap_ok h' bs' /\
    c ∈ bs' /\ busy c = true /\ Z.of_nat (length t) < room c /\
    cstring (memory h') (data h c) t /\
    forall d, d ∈ bs -> busy d = true -> d ∈ bs' /\ d <> c /\
      same_on (memory h) (memory h') (data h d) (heap_ptr h + fin d).
Proof.
  intros Hok Hb Hbusy Hstr Hlo Hhi Hf Hlen. unfold rt_strdup, INT_MAX in *.
  pose proof (ok_shape _ _ Hok) as Hs.
  rewrite (rt_strlen_spec _ _ _ _ Hstr Hf) by lia. cbn [mbind option_bind]. rewrite u32_small by lia.
  set (len := Z.of_nat (length t) + 1) in *.
  destruct (malloc_client h bs len Hok ltac:(lia)) as [-> | (h1 & bs' & c & -> & Hok1 & Hsame & Hc & Hcu & Hroom & Hpos & Hend & Hold)];
    [left; reflexivity | right]. cbn [mbind option_bind].
  destruct (Z.eqb_spec (data h c) 0); [lia|].
  destruct (Hold b Hb Hbusy) as (_ & Hdis & Hkeep).
  assert (Edata : forall x, data h x = heap_ptr h + off x + 12) by (intros; unfold data; rewrite SIZEOF_eq; reflexivity).
  assert (Hroom' : data h c + len <= heap_ptr h + fin c) by (rewrite Edata; unfold room, HDR in Hroom; lia).
  destruct (rt_memcpy_spec (memory h1) (data h c) s len) as (m & -> & Hcopy);
    [rewrite !Edata in *; lia | unfold INT_MAX; lia|].
  cbn [mbind option_bind]. exists (h1 <| memory := m |>), bs', c. cbn [memory].
  assert (Hcstr : cstring m (data h c) t).
  { apply (cstring_frame (memory h) m s (data h c) t Hstr). intros i Hi. rewrite (Hcopy _), load8_copy.
    destruct (Z.leb_spec (data h c) (data h c + i)), (Z.ltb_spec (data h c + i) (data h c + len)); try lia. cbn [andb].
    rewrite <- Hkeep by lia. f_equal. lia. }
  split_ands; auto; try lia.
  - apply client_write; [exact Hok1|]. intros a Ha. rewrite (Hcopy a). apply copy_other.
    specialize (Ha c Hc Hcu). rewrite (same_heap_data _ _ _ Hsame) in Ha. destruct Hsame as (E & _). rewrite E in Ha. lia.
  - intros d Hd Hdu. destruct (Hold d Hd Hdu) as (Hd' & Hdd & Hk). pose proof (shape_bounds _ _ _ Hs Hd).
    split; [exact Hd'|]. split.
    + intros ->. pose proof (shape_bounds _ _ _ (ok_shape _ _ Hok1) Hc). lia.
    + intros a Ha. transitivity (load8 m a); [|reflexivity]. rewrite (Hcopy a), copy_other; [apply Hk; exact Ha|]. rewrite !Edata in *. lia.
Qed.

(** Masks with a power of two. *)
Lemma land_below k z : 0 <= k -> Z.land z (2 ^ k - 1) = z mod 2 ^ k.
Proof. intros Hk. rewrite <- Z.land_ones by exact Hk. f_equal. rewrite Z.ones_equiv. lia. Qed.

Lemma land_round_down k z : 0 <= k -> Z.land z (Z.lnot (2 ^ k - 1)) = z - z mod 2 ^ k.
Proof.
  intros Hk. rewrite <- Z.ldiff_land.
  replace (2 ^ k - 1) with (Z.ones k) by (rewrite Z.ones_equiv; lia).
  rewrite Z.ldiff_ones_r, Z.shiftl_mul_pow2, Z.shiftr_div_pow2 by exact Hk.
  pose proof (Z.div_mod z (2 ^ k)). pose proof (Z.pow_pos_nonneg 2 k). lia.
Qed.

Lemma land_round_down32 k z :
  0 <= k <= 32 -> 0 <= z < 4294967296 -> Z.land z (u32 (Z.lnot (2 ^ k - 1))) = z - z mod 2 ^ k.
Proof.
  intros Hk Hz. unfold u32. change 4294967296 with (2 ^ 32). rewrite <- Z.land_ones, Z.land_assoc by lia.
  rewrite land_round_down, Z.land_ones by lia. apply Z.mod_small.
  pose proof (Z.mod_pos_bound z (2 ^ k) ltac:(apply Z.pow_pos_nonneg; lia)).
  pose proof (Z.mod_le z (2 ^ k) ltac:(lia) ltac:(apply Z.pow_pos_nonneg; lia)). change (2 ^ 32) with 4294967296. lia.
Qed.

(** The aligned address: a multiple of [2 ^ k] behind the first word of the block. *)
Definition aligned_in (ptr align : Z) : Z :=
  if Z.land ptr (u32 (align - 1)) =? 0 then u32 (ptr + align)
  else Z.land (u32 (ptr + (align - 1))) (u32 (Z.lnot (align - 1))).

Lemma pow2_mod4 k : 2 <= k -> exists q, 2 ^ k = 4 * q /\ 0 < q.
Proof.
  intros Hk. exists (2 ^ (k - 2)). split; [|apply Z.pow_pos_nonneg; lia].
  replace k with (2 + (k - 2)) at 1 by lia. rewrite Z.pow_add_r by lia. reflexivity.
Qed.

Lemma aligned_in_spec ptr k :
  2 <= k <= 31 -> 0 < ptr -> ptr mod 4 = 0 -> ptr + 2 ^ k < 4294967296 ->
  let p := aligned_in ptr (2 ^ k) in p mod 2 ^ k = 0 /\ ptr + 4 <= p <= ptr + 2 ^ k.
Proof.
  intros Hk Hp Hal Hend p. destruct (pow2_mod4 k ltac:(lia)) as (q & Eq & Hq).
  unfold p, aligned_in. rewrite (u32_small (2 ^ k - 1)), land_below by lia.
  pose proof (Z.mod_pos_bound ptr (2 ^ k) ltac:(lia)) as Hm. destruct (Z.eqb_spec (ptr mod 2 ^ k) 0) as [E|E].
  - rewrite u32_small by lia. split; [|lia]. rewrite Z.add_mod, E, Z.mod_same by lia. apply Z.mod_0_l. lia.
  - rewrite u32_small, land_round_down32 by lia. set (x := ptr + (2 ^ k - 1)) in *.
    split; [rewrite Zminus_mod_idemp_r, Z.sub_diag; apply Z.mod_0_l; lia|].
    (* ptr mod 2^k is a non-zero multiple of 4 *)
    assert (Ex : x mod 2 ^ k = ptr mod 2 ^ k - 1).
    { unfold x. pose proof (Z.div_mod ptr (2 ^ k) ltac:(lia)).
      symmetry. apply (Z.mod_unique _ _ (ptr / 2 ^ k + 1)); lia. }
    rewrite Ex. assert (H4 : (ptr mod 2 ^ k) mod 4 = 0).
    { rewrite Eq. pose proof (Z.div_mod ptr (4 * q) ltac:(lia)) as Hd.
      pose proof (Z.div_mod ptr 4 ltac:(lia)). rewrite <- Eq in *.
      replace (ptr mod 2 ^ k) with ((ptr / 4 - q * (ptr / 2 ^ k)) * 4) by lia. apply Z.mod_mul. lia. }
    unfold x. Z.div_mod_to_equations. lia.
Qed.

(** The size that [rt_malloc_align] asks for. *)
Lemma align_request k size :
  2 <= k <= 30 -> 0 < size <= INT_MAX ->
  let al := Z.land (u32 (2 ^ k + (4 - 1))) (Z.lnot (4 - 1)) in
  let req := u32 (Z.land (u32 (size + (4 - 1))) (Z.lnot (4 - 1)) + al) in
  al = 2 ^ k /\ size + 2 ^ k <= req <= size + 3 + 2 ^ k.
Proof.
  unfold INT_MAX. intros Hk Hsize. destruct (pow2_mod4 k ltac:(lia)) as (q & Eq & Hq).
  assert (2 ^ k <= 2 ^ 30) by (apply Z.pow_le_mono_r; lia). change (2 ^ 30) with 1073741824 in *.
  cbv zeta. rewrite !u32_small by lia. change (4 - 1) with (2 ^ 2 - 1). rewrite !land_round_down by lia.
  change (2 ^ 2) with 4. rewrite Eq in *.
  assert (E : (4 * q + (4 - 1)) mod 4 = 3) by (symmetry; apply (Z.mod_unique _ _ q); lia).
  rewrite E. replace (4 * q + (4 - 1) - 3) with (4 * q) by lia. split; [reflexivity|].
  rewrite (u32_small (size + (4 - 1))) by lia.
  pose proof (Z.mod_pos_bound (size + (4 - 1)) 4 ltac:(lia)). rewrite u32_small by lia. lia.
Qed.

Lemma malloc_align_gives h bs k size :
  heap_ok h bs -> 2 <= k <= 30 -> 0 < size <= INT_MAX ->
  rt_malloc_align h size (2 ^ k) = Some (h, 0) \/
  exists h' bs' c p, rt_malloc_align h size (2 ^ k) = Some (h', p) /\ heap_ok h' bs' /\
    c ∈ bs' /\ busy c = true /\ p mod 2 ^ k = 0 /\ load32 (memory h') (p - 4) = data h' c /\
    data h' c + 4 <= p /\ p + size <= heap_ptr h' + fin c /\
    forall d, d ∈ bs -> busy d = true -> d ∈ bs' /\ d <> c /\
      same_on (memory h) (memory h') (data h d) (heap_ptr h + fin d).
Proof.
  intros Hok Hk Hsize. destruct (align_request k size Hk Hsize) as [Eal Hreq].
  unfold rt_malloc_align. cbv zeta in *. rewrite Eal in *.
  set (req := u32 (Z.land (u32 (size + (4 - 1))) (Z.lnot (4 - 1)) + 2 ^ k)) in *. unfold INT_MAX in Hsize.
  assert (2 ^ k <= 2 ^ 30) by (apply Z.pow_le_mono_r; lia). change (2 ^ 30) with 1073741824 in *.
  assert (0 < 2 ^ k) by (apply Z.pow_pos_nonneg; lia). pose proof (ok_shape _ _ Hok) as Hs.
  destruct (malloc_client h bs req Hok ltac:(lia)) as [-> | (h1 & bs' & c & -> & Hok1 & Hsame & Hc & Hcu & Hroom & Hpos & Hend & Hold)];
    [left; reflexivity | right]. cbn [mbind option_bind].
  destruct (Z.eqb_spec (data h c) 0); [lia|]. cbn [negb].
  change (if Z.land (data h c) (u32 (2 ^ k - 1)) =? 0 then _ else _) with (aligned_in (data h c) (2 ^ k)).
  assert (Edata : forall x, data h x = heap_ptr h + off x + 12) by (intros; unfold data; rewrite SIZEOF_eq; reflexivity).
  assert (Hroom' : data h c + req <= heap_ptr h + fin c) by (rewrite Edata; unfold room, HDR in Hroom; lia).
  pose proof (data_aligned _ _ _ (ok_shape _ _ Hok1) Hc) as Hal. rewrite (same_heap_data _ _ _ Hsame) in Hal.
  destruct (aligned_in_spec (data h c) k ltac:(lia) Hpos Hal ltac:(lia)) as [Hp1 Hp2].
  set (p := aligned_in _ _) in *. clearbody p.
  exists (h1 <| memory := store32 (memory h1) (p - 4) (data h c) |>), bs', c, p.
  assert (Eptr : heap_ptr h1 = heap_ptr h) by (destruct Hsame as (E & _); exact E).
  assert (Ed1 : forall m, data (h1 <| memory := m |>) c = data h c) by (intros; unfold data; cbn; rewrite Eptr; reflexivity).
  rewrite !Ed1. cbn [memory heap_ptr].
  assert (Hother : forall a, a < data h c \/ heap_ptr h + fin c <= a ->
            load8 (store32 (memory h1) (p - 4) (data h c)) a = load8 (memory h1) a)
    by (intros a Ha; apply load8_store32_other; lia).
  split_ands; auto; try (change (heap_ptr (h1 <| memory := _ |>)) with (heap_ptr h1)); try lia.
  - apply client_write; [exact Hok1|]. intros a Ha. apply Hother.
    specialize (Ha c Hc Hcu). rewrite (same_heap_data _ _ _ Hsame), Eptr in Ha. exact Ha.
  - change (load32 (store32 (memory h1) (p - 4) (data h c)) (p - 4) = data h c).
    rewrite load32_store32, u32_small by lia. reflexivity.
  - intros d Hd Hdu. destruct (Hold d Hd Hdu) as (Hd' & Hdd & Hkd). pose proof (shape_bounds _ _ _ Hs Hd).
    split; [exact Hd'|]. split.
    + intros ->. pose proof (shape_bounds _ _ _ (ok_shape _ _ Hok1) Hc). lia.
    + intros a Ha. transitivity (load8 (store32 (memory h1) (p - 4) (data h c)) a); [|reflexivity].
      rewrite Hother; [apply Hkd; exact Ha|]. rewrite !Edata in *. lia.
Qed.

(** A client that writes only its own bytes leaves the hidden pointer for
    [rt_free_align]. *)
Lemma free_align_frees h bs c p m :
  heap_ok h bs -> c ∈ bs -> busy c = true -> load32 (memory h) (p - 4) = data h c ->
  (forall a, outside_data h bs a -> load8 m a = load8 (memory h) a) ->
  (forall a, p - 4 <= a < p -> load8 m a = load8 (memory h) a) ->
  exists h', rt_free_align (h <| memory := m |>) p = Some h' /\ heap_ok h' (release (off c) bs).
Proof.
  intros Hok Hc Hcu Hload Hout Hptr. pose proof (client_write _ _ m Hok Hout) as Hok'.
  unfold rt_free_align. change (memory (h <| memory := m |>)) with m.
  rewrite (same_on_load32 m (memory h)) by (intros a Ha; apply Hptr; lia).
  rewrite Hload. destruct (rt_free_spec _ _ _ Hok' Hc Hcu) as (h' & E & Hh & _).
  change (data (h <| memory := m |>) c) with (data h c) in E. eauto.
Qed.

(** ** Properties *)

(** C30: on C strings, with enough fuel for their length, every string function is the
    function on character lists it stands for: lengths, the comparison by the first
    characters that differ (which [rt_strncmp] returns as a signed char, so its sign is
    wrong for differences above 127), equality up to case, the first occurrence, and the
    copy padded with zeros. *)
Theorem string_functions_equivalent fuel m p q a b n :
  cstring m p a -> cstring m q b -> (length a < fuel)%nat -> (length b < fuel)%nat ->
  Z.of_nat (length a) <= INT_MAX -> Z.of_nat (length b) <= INT_MAX ->
  rt_strlen fuel m p = Some (Z.of_nat (length a)) /\
  rt_strnlen fuel m p (Z.of_nat n) = Some (Z.of_nat (length a `min` n)) /\
  rt_strcmp fuel m p q = Some ((first_diff a b).1 - (first_diff a b).2) /\
  rt_strncmp m p q n = s8 ((first_diff (take n a) (take n b)).1 - (first_diff (take n a) (take n b)).2) /\
  (rt_strcasecmp fuel m p q = Some 0 <-> map lower_case a = map lower_case b) /\
  rt_strstr fuel m p q = Some (match occurrence a b with Some i => p + Z.of_nat i | None => 0 end) /\
  (q + Z.of_nat n <= p \/ p + Z.of_nat (length a) < q ->
   bytes_at (rt_strncpy m q p n) q n = take n (a ++ repeat 0 n)).
Proof.
  intros Ha Hb Hfa Hfb Hla Hlb. split_ands.
  - apply rt_strlen_spec; auto. unfold INT_MAX in *. lia.
  - rewrite (rt_strnlen_spec _ _ _ _ _ Ha) by (unfold INT_MAX in *; lia). f_equal. lia.
  - apply rt_strcmp_spec; assumption.
  - apply rt_strncmp_spec; assumption.
  - rewrite (rt_strcasecmp_spec _ _ _ _ _ _ Ha Hb Hfa). exact (strcasecmp_zero _ _ _ _ _ Ha Hb).
  - apply rt_strstr_spec; assumption.
  - intros Hover. apply strncpy_bytes; assumption.
Qed.

Definition two_strings : Memory := fun x =>
  nth (Z.to_nat (x - 100)) (map chr ["A"; "b"; "c"; "a"; "b"; "c"]%char ++ [0] ++ map chr ["C"; "A"]%char ++ [0]) 0.

Lemma string_functions_equivalent_witness :
  rt_strstr 20 two_strings 100 107 = Some 0 /\
  bytes_at (rt_strncpy two_strings 107 100 8) 107 8 = map chr ["A"; "b"; "c"; "a"; "b"; "c"]%char ++ [0; 0].
Proof.
  destruct (string_functions_equivalent 20 two_strings 100 107 (map chr ["A"; "b"; "c"; "a"; "b"; "c"]%char)
    (map chr ["C"; "A"]%char) 8) as (_ & _ & _ & _ & _ & H1 & H2);
    [repeat split; discriminate | repeat split; discriminate | cbn; lia | cbn; lia | cbn; discriminate | cbn; discriminate|].
  split; [exact H1|]. rewrite H2; [vm_compute; reflexivity | right; vm_compute; reflexivity].
Defined.

(** A block from [rt_malloc_align] starts at a multiple of the alignment and has
    the size asked for inside a block of the heap; other blocks keep their data; and
    whatever the clients write into blocks, as long as they leave the word in front of
    the aligned block alone, [rt_free_align] gives exactly that block back. *)
Theorem aligned_block_roundtrip h bs k size :
  heap_ok h bs -> 2 <= k <= 30 -> 0 < size <= INT_MAX ->
  rt_malloc_align h size (2 ^ k) = Some (h, 0) \/
  exists h' bs' c p, rt_malloc_align h size (2 ^ k) = Some (h', p) /\ heap_ok h' bs' /\
    c ∈ bs' /\ busy c = true /\ p mod 2 ^ k = 0 /\ data h' c + 4 <= p /\ p + size <= heap_ptr h' + fin c /\
    (forall d, d ∈ bs -> busy d = true -> d ∈ bs' /\ d <> c /\
      same_on (memory h) (memory h') (data h d) (heap_ptr h + fin d)) /\
    forall m, (forall a, outside_data h' bs' a -> load8 m a = load8 (memory h') a) ->
      (forall a, p - 4 <= a < p -> load8 m a = load8 (memory h') a) ->
      exists h'', rt_free_align (h' <| memory := m |>) p = Some h'' /\ heap_ok h'' (release (off c) bs').
Proof.
  intros Hok Hk Hsize. destruct (malloc_align_gives h bs k size Hok Hk Hsize)
    as [E | (h' & bs' & c & p & E & Hok' & Hc & Hcu & Hp & Hload & Hlo & Hhi & Hold)]; [left; exact E | right].
  exists h', bs', c, p. split_ands; auto. intros m Hout Hptr. apply free_align_frees; assumption.
Qed.

Lemma aligned_block_roundtrip_witness :
  exists h' p h'', rt_malloc_align demo_heap 20 (2 ^ 4) = Some (h', p) /\ p <> 0 /\ p mod 2 ^ 4 = 0 /\
    rt_free_align (h' <| memory := store8 (memory h') (p + 3) 77 |>) p = Some h''.
Proof.
  destruct demo_heap_ok as [Hok _].
  destruct (aligned_block_roundtrip demo_heap _ 4 20 Hok ltac:(lia) ltac:(unfold INT_MAX; lia))
    as [E | (h' & bs' & c & p & E & Hok' & Hc & Hcu & Hp & Hlo & Hhi & _ & Hfree)].
  - assert (F : option_map snd (rt_malloc_align demo_heap 20 (2 ^ 4)) = Some 4112) by (vm_compute; reflexivity).
    exfalso. rewrite E in F. discriminate F.
  - pose proof (data_pos _ _ _ (ok_shape _ _ Hok') Hc).
    destruct (Hfree (store8 (memory h') (p + 3) 77)) as (h'' & Ef & _).
    + intros a Ha. rewrite load8_store8. destruct (Z.eqb_spec a (p + 3)) as [Ea|]; [|reflexivity].
      destruct (Ha c Hc Hcu); lia.
    + intros a Ha. rewrite load8_store8. destruct (Z.eqb_spec a (p + 3)); [lia | reflexivity].
    + exists h', p, h''. split_ands; try assumption. lia.
Defined.
