(* ===== verification/CFloat.v ===== *)
(** Floating point as the Cortex-M3 build computes it: IEEE-754 binary32
    ([float], and [float_t] of the C library) and binary64 ([double]) with
    rounding to nearest even, over the executable [SpecFloat] operations.
    The C library's transcendental functions are not code of the repository:
    they are the fields of the class [Libm]. *)

From Stdlib Require Import Floats.SpecFloat.
From S2P Require Import Prelude.

Abbreviation float64 := spec_float.
Abbreviation float32 := spec_float.

Definition dadd : float64 -> float64 -> float64 := SFadd 53 1024.
Definition dsub : float64 -> float64 -> float64 := SFsub 53 1024.
Definition dmul : float64 -> float64 -> float64 := SFmul 53 1024.
Definition ddiv : float64 -> float64 -> float64 := SFdiv 53 1024.
Definition dsqrt : float64 -> float64 := SFsqrt 53 1024.
Definition fadd : float32 -> float32 -> float32 := SFadd 24 128.
Definition fsub : float32 -> float32 -> float32 := SFsub 24 128.
Definition fmul : float32 -> float32 -> float32 := SFmul 24 128.
Definition fdiv : float32 -> float32 -> float32 := SFdiv 24 128.

(** Conversions: [int] to floating point, and between the two formats. *)
Definition d_of_int (z : Z) : float64 := binary_normalize 53 1024 z 0 false.
Definition f_of_int (z : Z) : float32 := binary_normalize 24 128 z 0 false.

Definition reround (prec emax : Z) (x : spec_float) : spec_float :=
  match x with
  | S754_finite s m e => binary_round prec emax s m e
  | _ => x
  end.
Definition d_of_f (x : float32) : float64 := reround 53 1024 x.
Definition f_of_d (x : float64) : float32 := reround 24 128 x.

(** A decimal literal [n / d] whose numerator and denominator are exact in
    binary64: one correctly rounded division gives the nearest double. *)
Definition dlit (n d : Z) : float64 := ddiv (d_of_int n) (d_of_int d).

(** The integer part towards zero, of unbounded size ([None]: NaN, infinity). *)
Definition trunc (x : spec_float) : option Z :=
  match x with
  | S754_zero _ => Some 0
  | S754_finite s m e =>
      let a := if 0 <=? e then Z.shiftl (Zpos m) e else Z.shiftr (Zpos m) (- e) in
      Some (if s then - a else a)
  | _ => None
  end.

(** [(int)x]: the conversion routine of the ARM run-time truncates towards
    zero, saturates at the bounds of [int] and maps a NaN to 0. *)
Definition to_int (x : spec_float) : Z :=
  match x with
  | S754_nan => 0
  | S754_infinity s => if s then INT_MIN else INT_MAX
  | _ => match trunc x with
         | Some z => Z.max INT_MIN (Z.min INT_MAX z)
         | None => 0
         end
  end.

Lemma to_int_range x : INT_MIN <= to_int x <= INT_MAX.
Proof.
  unfold to_int, INT_MIN, INT_MAX.
  destruct x as [s|[]| |s m e]; simpl; lia.
Qed.

(** C comparisons: false as soon as an operand is a NaN. *)
Definition flt (x y : spec_float) : bool := SFltb x y.
Definition fgt (x y : spec_float) : bool := SFltb y x.
Definition fge (x y : spec_float) : bool := SFleb y x.
Definition fle (x y : spec_float) : bool := SFleb x y.

Definition is_nan (x : spec_float) : bool :=
  match x with S754_nan => true | _ => false end.

Lemma SFcompare_refl x : is_nan x = false -> SFcompare x x = Some Eq.
Proof.
  destruct x as [s|[]| |[] m e]; simpl; try discriminate; try reflexivity;
    intros _; rewrite Z.compare_refl.
  - change (Pos.compare_cont Eq m m) with (Pos.compare m m).
    rewrite Pos.compare_refl; reflexivity.
  - change (Pos.compare_cont Eq m m) with (Pos.compare m m).
    rewrite Pos.compare_refl; reflexivity.
Qed.

Lemma SFcompare_antisym x y :
  SFcompare y x = match SFcompare x y with Some c => Some (CompOpp c) | None => None end.
Proof.
  destruct x as [sx|[]| |[] mx ex], y as [sy|[]| |[] my ey]; simpl; try reflexivity;
    try (destruct sx; reflexivity); try (destruct sy; reflexivity);
    rewrite (Z.compare_antisym ex ey); destruct (Z.compare ex ey); simpl; try reflexivity;
    change (Pos.compare_cont Eq ?a ?b) with (Pos.compare a b);
    rewrite (Pos.compare_antisym mx my); destruct (Pos.compare mx my); reflexivity.
Qed.

(** Away from NaN, [<] and [>=] are each other's negation. *)
Lemma flt_false_fge x y :
  is_nan x = false -> is_nan y = false -> flt x y = false -> fge x y = true.
Proof.
  unfold flt, fge, SFltb, SFleb. intros Hx Hy.
  rewrite (SFcompare_antisym x y).
  destruct (SFcompare x y) as [[]|] eqn:E; simpl; try congruence.
  destruct x as [|[]| |[] ], y as [|[]| |[] ]; simpl in *; discriminate.
Qed.

(** ** The C library's functions on [double] used by the firmware. *)
Class Libm := {
  sin : float64 -> float64;
  cos : float64 -> float64;
  tan : float64 -> float64;
  exp : float64 -> float64;
  asin : float64 -> float64;
  atan2 : float64 -> float64 -> float64;
  pow : float64 -> float64 -> float64;
}.

(** A concrete instance for evaluation: the functions are replaced by simple
    executable ones, none of the general theorems depends on them. *)
Definition toy_libm : Libm := {|
  sin := fun x => x;
  cos := fun _ => d_of_int 1;
  tan := fun x => x;
  exp := fun x => dadd (d_of_int 1) x;
  asin := fun x => x;
  atan2 := fun y x => if SFltb x (d_of_int 0) then d_of_int 3 else y;
  pow := fun x y => match trunc y with
                    | Some 2 => dmul x x
                    | Some 8 => d_of_int 256
                    | Some 16 => d_of_int 65536
                    | Some 24 => d_of_int 16777216
                    | _ => x end;
|}.
