(* ===== verification/FloatExact.v ===== *)
(** Exactness of binary64 arithmetic on non-negative integers below 2^53: the
    sums and products the decoders compute in [double] are the integers
    themselves. *)

From Stdlib Require Import Floats.SpecFloat.
From S2P Require Import Prelude CFloat.

(** ** Digits *)

Lemma digits_log2 m : Zpos (digits2_pos m) = Z.log2 (Zpos m) + 1.
Proof.
  assert (E : digits2_pos m = Pos.size m) by (induction m; cbn; congruence).
  rewrite E. destruct m; cbn; lia.
Qed.

Definition fexp53 (e : Z) : Z := fexp 53 1024 e.

Lemma fexp53_eq e : fexp53 e = Z.max (e - 53) (-1074).
Proof. reflexivity. Qed.

(** Two representations [m*2^e] and [n*2^f] of the same number. *)
Definition same_value (m e n f : Z) : Prop :=
  exists c, c <= e /\ c <= f /\ m * 2 ^ (e - c) = n * 2 ^ (f - c).

Lemma same_value_log2 m e n f :
  0 < m -> 0 < n -> same_value m e n f -> Z.log2 m + e = Z.log2 n + f.
Proof.
  intros Hm Hn (c & He & Hf & E). apply (f_equal Z.log2) in E.
  rewrite !Z.log2_mul_pow2 in E by lia. lia.
Qed.

Lemma same_value_le m e n f :
  e <= f -> same_value m e n f -> m = n * 2 ^ (f - e).
Proof.
  intros Hle (c & He & Hf & E).
  replace (f - c) with ((f - e) + (e - c)) in E by lia.
  rewrite Z.pow_add_r, Z.mul_assoc in E by lia.
  apply Z.mul_reg_r in E; [exact E|]. apply Z.pow_nonzero; lia.
Qed.

Lemma same_value_sym m e n f : same_value m e n f -> same_value n f m e.
Proof. intros (c & He & Hf & E). exists c. auto. Qed.

(** ** Shifting out zeros *)

Lemma iter_pos_shr p n :
  SpecFloat.iter_pos shr_1 p (Build_shr_record (Zpos n * 2 ^ Zpos p) false false) =
  Build_shr_record (Zpos n) false false.
Proof.
  assert (H1 : forall k, shr_1 (Build_shr_record (Zpos k * 2) false false) =
                         Build_shr_record (Zpos k) false false).
  { intros k. replace (Zpos k * 2) with (Zpos k~0) by lia. reflexivity. }
  revert n. induction p as [p IH|p IH|]; intros n; cbn [SpecFloat.iter_pos].
  - replace (Zpos n * 2 ^ Zpos p~1) with (Zpos (n * 2 ^ p * 2 ^ p) * 2).
    + rewrite H1, Pos2Z.inj_mul, Pos2Z.inj_pow, IH, Pos2Z.inj_mul, Pos2Z.inj_pow, IH. reflexivity.
    + rewrite !Pos2Z.inj_mul, !Pos2Z.inj_pow.
      replace (Zpos p~1) with (Zpos p + Zpos p + 1) by lia. rewrite !Z.pow_add_r by lia. lia.
  - replace (Zpos n * 2 ^ Zpos p~0) with (Zpos (n * 2 ^ p) * 2 ^ Zpos p).
    + rewrite IH, Pos2Z.inj_mul, Pos2Z.inj_pow, IH. reflexivity.
    + rewrite Pos2Z.inj_mul, Pos2Z.inj_pow.
      replace (Zpos p~0) with (Zpos p + Zpos p) by lia. rewrite !Z.pow_add_r by lia. lia.
  - apply H1.
Qed.

(** ** Rounding an exactly representable number *)

Definition canonical (n : positive) (f : Z) : Prop :=
  Z.log2 (Zpos n) = 52 /\ -1074 <= f <= 971.

Lemma round_aux_exact s m e n f :
  canonical n f -> same_value (Zpos m) e (Zpos n) f -> e <= f ->
  binary_round_aux 53 1024 s (Zpos m) e loc_Exact = S754_finite s n f.
Proof.
  intros [Hn Hf] Hv Hle.
  pose proof (same_value_log2 _ _ _ _ (Pos2Z.is_pos m) (Pos2Z.is_pos n) Hv) as Hlog.
  pose proof (same_value_le _ _ _ _ Hle Hv) as Hm.
  assert (E1 : shr_fexp 53 1024 (Zpos m) e loc_Exact = (Build_shr_record (Zpos n) false false, f)).
  { unfold shr_fexp. cbn [Zdigits2 shr_record_of_loc]. rewrite digits_log2.
    fold (fexp53 (Z.log2 (Zpos m) + 1 + e)). rewrite fexp53_eq.
    replace (Z.max (Z.log2 (Zpos m) + 1 + e - 53) (-1074) - e) with (f - e) by lia.
    destruct (f - e) as [|p|p] eqn:Ed; cbn [shr]; [| |lia].
    - rewrite Hm, Z.pow_0_r, Z.mul_1_r. replace e with f by lia. reflexivity.
    - rewrite Hm, iter_pos_shr. replace (e + Zpos p) with f by lia. reflexivity. }
  assert (E2 : shr_fexp 53 1024 (Zpos n) f loc_Exact = (Build_shr_record (Zpos n) false false, f)).
  { unfold shr_fexp. cbn [Zdigits2 shr_record_of_loc]. rewrite digits_log2.
    fold (fexp53 (Z.log2 (Zpos n) + 1 + f)). rewrite fexp53_eq, Hn.
    replace (Z.max (52 + 1 + f - 53) (-1074) - f) with 0 by lia. reflexivity. }
  unfold binary_round_aux. rewrite E1. cbn [shr_m loc_of_shr_record round_nearest_even].
  rewrite E2. cbn [shr_m]. rewrite (proj2 (Z.leb_le f (1024 - 53))) by lia. reflexivity.
Qed.

Lemma iter_xO m d : Zpos (Pos.iter xO m d) = Zpos m * 2 ^ Zpos d.
Proof.
  induction d as [|d IH] using Pos.peano_ind; [cbn; lia|].
  rewrite Pos.iter_succ, Pos2Z.inj_succ, Z.pow_succ_r by lia.
  change (Zpos (Pos.iter xO m d)~0) with (2 * Zpos (Pos.iter xO m d)). rewrite IH. lia.
Qed.

Lemma round_exact s m e n f :
  canonical n f -> same_value (Zpos m) e (Zpos n) f ->
  binary_round 53 1024 s m e = S754_finite s n f.
Proof.
  intros Hc Hv. pose proof Hc as [Hn Hf].
  pose proof (same_value_log2 _ _ _ _ (Pos2Z.is_pos m) (Pos2Z.is_pos n) Hv) as Hlog.
  unfold binary_round. rewrite digits_log2.
  fold (fexp53 (Z.log2 (Zpos m) + 1 + e)). rewrite fexp53_eq.
  replace (Z.max (Z.log2 (Zpos m) + 1 + e - 53) (-1074)) with f by lia.
  unfold shl_align. destruct (f - e) as [|d|d] eqn:Ed.
  1, 2: apply round_aux_exact; auto; lia.
  apply round_aux_exact; [exact Hc| |lia].
  assert (Hle : f <= e) by lia.
  pose proof (same_value_le (Zpos n) f (Zpos m) e Hle (same_value_sym _ _ _ _ Hv)) as Hm.
  exists f. rewrite !Z.sub_diag, iter_xO, Hm.
  replace (e - f) with (Zpos d) by lia. lia.
Qed.

(** ** Integers *)

Definition MAX53 : Z := 9007199254740992.

(** The canonical mantissa and exponent of a positive integer below 2^53. *)
Definition mant (z : Z) : positive := Z.to_pos (z * 2 ^ (52 - Z.log2 z)).
Definition expo (z : Z) : Z := Z.log2 z - 52.

Lemma log2_53 z : 0 < z < MAX53 -> 0 <= Z.log2 z <= 52.
Proof.
  intros Hz. split; [apply Z.log2_nonneg|].
  assert (Z.log2 z < 53); [|lia]. apply Z.log2_lt_pow2; [lia|]. exact (proj2 Hz).
Qed.

Lemma mant_eq z : 0 < z < MAX53 -> Zpos (mant z) = z * 2 ^ (- expo z).
Proof.
  intros Hz. pose proof (log2_53 z Hz). unfold mant, expo.
  replace (- (Z.log2 z - 52)) with (52 - Z.log2 z) by lia.
  rewrite Z2Pos.id; [reflexivity|]. apply Z.mul_pos_pos; [lia|]. apply Z.pow_pos_nonneg; lia.
Qed.

Lemma mant_canonical z : 0 < z < MAX53 -> canonical (mant z) (expo z).
Proof.
  intros Hz. pose proof (log2_53 z Hz). split; [|unfold expo; lia].
  rewrite mant_eq by exact Hz. unfold expo. rewrite Z.log2_mul_pow2 by lia. lia.
Qed.

Lemma mant_value z m e :
  0 < z < MAX53 -> e <= 0 -> m = z * 2 ^ (- e) -> same_value m e (Zpos (mant z)) (expo z).
Proof.
  intros Hz He ->. pose proof (log2_53 z Hz).
  exists (Z.min e (expo z)). split; [lia|]. split; [lia|].
  rewrite mant_eq by exact Hz. unfold expo.
  rewrite <- !Z.mul_assoc, <- !Z.pow_add_r by lia. f_equal. f_equal. lia.
Qed.

Lemma d_of_int_pos z : 0 < z < MAX53 -> d_of_int z = S754_finite false (mant z) (expo z).
Proof.
  intros Hz. unfold d_of_int. destruct z as [|p|p]; [lia| |lia]. cbn [binary_normalize].
  apply round_exact; [apply mant_canonical, Hz|]. apply mant_value; lia.
Qed.

Lemma shl_align_eq z e : 0 < z < MAX53 -> e <= expo z ->
  Zpos (fst (shl_align (mant z) (expo z) e)) = z * 2 ^ (- e).
Proof.
  intros Hz He. pose proof (log2_53 z Hz). unfold shl_align.
  assert (Hx : expo z <= 0) by (unfold expo; lia).
  destruct (e - expo z) as [|d|d] eqn:Ed; [|lia|]; cbn [fst].
  - rewrite mant_eq by exact Hz. f_equal. f_equal. lia.
  - rewrite iter_xO, mant_eq by exact Hz. rewrite <- Z.mul_assoc, <- Z.pow_add_r by lia.
    f_equal. f_equal. lia.
Qed.

Lemma dadd_int a b : 0 <= a -> 0 <= b -> a + b < MAX53 -> dadd (d_of_int a) (d_of_int b) = d_of_int (a + b).
Proof.
  intros Ha Hb Hab.
  destruct (Z.eq_dec a 0) as [->|Ha0].
  { destruct (Z.eq_dec b 0) as [->|Hb0]; [reflexivity|].
    rewrite Z.add_0_l, (d_of_int_pos b) by lia. reflexivity. }
  destruct (Z.eq_dec b 0) as [->|Hb0].
  { rewrite Z.add_0_r, (d_of_int_pos a) by lia. reflexivity. }
  rewrite (d_of_int_pos a), (d_of_int_pos b), (d_of_int_pos (a + b)) by lia.
  unfold dadd, SFadd. cbn [cond_Zopp].
  pose proof (log2_53 a ltac:(lia)) as La. pose proof (log2_53 b ltac:(lia)) as Lb.
  rewrite !shl_align_eq by lia.
  set (ez := Z.min (expo a) (expo b)).
  assert (He : ez <= 0) by (unfold ez, expo; lia).
  rewrite <- Z.mul_add_distr_r.
  destruct ((a + b) * 2 ^ (- ez)) as [|p|p] eqn:E; cbn [binary_normalize].
  - pose proof (Z.pow_pos_nonneg 2 (- ez)). nia.
  - apply round_exact; [apply mant_canonical; lia|]. apply mant_value; lia.
  - pose proof (Z.pow_pos_nonneg 2 (- ez)). nia.
Qed.

Lemma dmul_int a b : 0 <= a -> 0 <= b -> a * b < MAX53 -> a < MAX53 -> b < MAX53 ->
  dmul (d_of_int a) (d_of_int b) = d_of_int (a * b).
Proof.
  intros Ha Hb Hab Ha53 Hb53.
  destruct (Z.eq_dec a 0) as [->|Ha0].
  { destruct (Z.eq_dec b 0) as [->|Hb0]; [reflexivity|].
    rewrite Z.mul_0_l, (d_of_int_pos b) by lia. reflexivity. }
  destruct (Z.eq_dec b 0) as [->|Hb0].
  { rewrite Z.mul_0_r, (d_of_int_pos a) by lia. reflexivity. }
  rewrite (d_of_int_pos a), (d_of_int_pos b), (d_of_int_pos (a * b)) by nia.
  pose proof (log2_53 a ltac:(lia)) as La. pose proof (log2_53 b ltac:(lia)) as Lb.
  pose proof (log2_53 (a * b) ltac:(nia)) as Lab.
  pose proof (Z.log2_mul_below a b ltac:(lia) ltac:(lia)) as Lm.
  unfold dmul, SFmul. cbn [xorb].
  apply round_aux_exact; [apply mant_canonical; nia| |unfold expo; lia].
  apply mant_value; [nia|unfold expo; lia|].
  rewrite Pos2Z.inj_mul, !mant_eq by lia.
  replace (- (expo a + expo b)) with (- expo a + - expo b) by lia.
  rewrite Z.pow_add_r by (unfold expo; lia). lia.
Qed.

Lemma to_int_d_of_int z : 0 <= z < MAX53 -> to_int (d_of_int z) = Z.min INT_MAX z.
Proof.
  intros Hz. destruct (Z.eq_dec z 0) as [->|H0]; [reflexivity|].
  pose proof (log2_53 z ltac:(lia)) as L.
  rewrite d_of_int_pos by lia. unfold to_int, trunc.
  assert (E : (if 0 <=? expo z then Z.shiftl (Zpos (mant z)) (expo z)
               else Z.shiftr (Zpos (mant z)) (- expo z)) = z).
  { rewrite mant_eq by lia. destruct (Z.leb_spec 0 (expo z)) as [H|H].
    - replace (expo z) with 0 by (unfold expo in *; lia). rewrite Z.shiftl_0_r. cbn. lia.
    - rewrite Z.shiftr_div_pow2 by lia. apply Z.div_mul. apply Z.pow_nonzero; lia. }
  rewrite E. unfold INT_MIN, INT_MAX. lia.
Qed.
