(* ===== verification/Gpio.v ===== *)
(** GPIO outputs (src/applications/gpio.c): the status LEDs, the relays of the
    sampling pump and the eight valves.  [rt_pin_write] is the pin driver's
    interface: the level of an output is what was last written to it.  An
    operation is the sequence of its pin writes, so that the levels between
    two writes can be spoken of. *)

From S2P Require Import Prelude.

Definition PIN_LOW : Z := 0.
Definition PIN_HIGH : Z := 1.

Definition GPIOA_BASE : Z := 0x40010800.
Definition GPIOB_BASE : Z := 0x40010C00.
Definition GPIOC_BASE : Z := 0x40011000.
Definition GPIOD_BASE : Z := 0x40011400.
Definition GPIOE_BASE : Z := 0x40011800.

Definition GET_PIN (port_base pin : Z) : Z :=
  16 * ((port_base - GPIOA_BASE) / 0x0400) + pin.

Definition LED1 : Z := GET_PIN GPIOD_BASE 3.
Definition LED2 : Z := GET_PIN GPIOD_BASE 4.
Definition LED3 : Z := GET_PIN GPIOD_BASE 5.
Definition MD0 : Z := GET_PIN GPIOC_BASE 4.
Definition MD1 : Z := GET_PIN GPIOC_BASE 5.
Definition PW_IN : Z := GET_PIN GPIOE_BASE 0.
Definition PW_OUT : Z := GET_PIN GPIOE_BASE 1.
Definition relay1 : Z := GET_PIN GPIOC_BASE 1.
Definition relay2 : Z := GET_PIN GPIOC_BASE 3.
Definition relay3 : Z := GET_PIN GPIOB_BASE 8.
Definition relay4 : Z := GET_PIN GPIOB_BASE 9.
Definition valve1 : Z := GET_PIN GPIOD_BASE 8.
Definition valve2 : Z := GET_PIN GPIOD_BASE 9.
Definition valve3 : Z := GET_PIN GPIOD_BASE 10.
Definition valve4 : Z := GET_PIN GPIOD_BASE 11.
Definition valve5 : Z := GET_PIN GPIOD_BASE 12.
Definition valve6 : Z := GET_PIN GPIOD_BASE 13.
Definition valve7 : Z := GET_PIN GPIOD_BASE 14.
Definition valve8 : Z := GET_PIN GPIOD_BASE 15.

(** Output levels, and the effect of a sequence of writes on them. *)
Abbreviation Pins := (gmap Z Z).
Definition level (pins : Pins) (pin : Z) : Z := default PIN_LOW (pins !! pin).
Definition rt_pin_write (pins : Pins) (w : Z * Z) : Pins := <[w.1 := w.2]> pins.
Definition run_writes (ws : list (Z * Z)) (pins : Pins) : Pins :=
  fold_left rt_pin_write ws pins.

(** The modes [rt_pin_mode] is called with. *)
Inductive pin_mode := PIN_MODE_OUTPUT | PIN_MODE_INPUT_PULLUP.

Definition init_gpio_modes : list (Z * pin_mode) :=
  [ (LED1, PIN_MODE_OUTPUT); (LED2, PIN_MODE_OUTPUT); (LED3, PIN_MODE_OUTPUT);
    (MD0, PIN_MODE_OUTPUT); (MD1, PIN_MODE_OUTPUT);
    (PW_IN, PIN_MODE_INPUT_PULLUP); (PW_OUT, PIN_MODE_OUTPUT);
    (relay1, PIN_MODE_OUTPUT); (relay2, PIN_MODE_OUTPUT);
    (relay3, PIN_MODE_OUTPUT); (relay4, PIN_MODE_OUTPUT);
    (valve1, PIN_MODE_OUTPUT); (valve2, PIN_MODE_OUTPUT);
    (valve3, PIN_MODE_OUTPUT); (valve4, PIN_MODE_OUTPUT);
    (valve5, PIN_MODE_OUTPUT); (valve6, PIN_MODE_OUTPUT);
    (valve7, PIN_MODE_OUTPUT); (valve8, PIN_MODE_OUTPUT) ].

Definition control_status_led (status_code : Z) : list (Z * Z) :=
  if status_code =? 1 then
    [ (LED1, PIN_LOW); (LED2, PIN_HIGH); (LED3, PIN_LOW) ]
  else if status_code =? 2 then
    [ (LED1, PIN_HIGH); (LED2, PIN_LOW); (LED3, PIN_LOW) ]
  else if status_code =? 3 then
    [ (LED1, PIN_LOW); (LED2, PIN_LOW); (LED3, PIN_HIGH) ]
  else
    [ (LED1, PIN_LOW); (LED2, PIN_LOW); (LED3, PIN_LOW) ].

Definition init_gpio_writes : list (Z * Z) :=
  [ (MD0, PIN_LOW); (MD1, PIN_LOW) ] ++ control_status_led 2.

Definition draw (bottle_id : Z) : list (Z * Z) :=
  if bottle_id =? 0 then
    [ (relay1, PIN_LOW); (relay2, PIN_LOW);
      (valve1, PIN_LOW); (valve2, PIN_LOW); (valve3, PIN_LOW);
      (valve4, PIN_LOW); (valve5, PIN_LOW); (valve6, PIN_LOW);
      (valve7, PIN_LOW); (valve8, PIN_LOW) ]
  else if bottle_id =? 1 then
    [ (relay1, PIN_HIGH); (relay2, PIN_LOW);
      (valve1, PIN_HIGH); (valve2, PIN_LOW); (valve3, PIN_LOW);
      (valve4, PIN_LOW); (valve5, PIN_LOW); (valve6, PIN_LOW);
      (valve7, PIN_LOW); (valve8, PIN_LOW) ]
  else if bottle_id =? 2 then
    [ (relay1, PIN_HIGH); (relay2, PIN_LOW);
      (valve1, PIN_LOW); (valve2, PIN_HIGH); (valve3, PIN_LOW);
      (valve4, PIN_LOW); (valve5, PIN_LOW); (valve6, PIN_LOW);
      (valve7, PIN_LOW); (valve8, PIN_LOW) ]
  else if bottle_id =? 3 then
    [ (relay1, PIN_HIGH); (relay2, PIN_LOW);
      (valve1, PIN_LOW); (valve2, PIN_LOW); (valve3, PIN_HIGH);
      (valve4, PIN_LOW); (valve5, PIN_LOW); (valve6, PIN_LOW);
      (valve7, PIN_LOW); (valve8, PIN_LOW) ]
  else if bottle_id =? 4 then
    [ (relay1, PIN_HIGH); (relay2, PIN_LOW);
      (valve1, PIN_LOW); (valve2, PIN_LOW); (valve3, PIN_LOW);
      (valve4, PIN_HIGH); (valve5, PIN_LOW); (valve6, PIN_LOW);
      (valve7, PIN_LOW); (valve8, PIN_LOW) ]
  else if bottle_id =? 5 then
    [ (relay1, PIN_HIGH); (relay2, PIN_LOW);
      (valve1, PIN_LOW); (valve2, PIN_LOW); (valve3, PIN_LOW);
      (valve4, PIN_LOW); (valve5, PIN_HIGH); (valve6, PIN_LOW);
      (valve7, PIN_LOW); (valve8, PIN_LOW) ]
  else if bottle_id =? 6 then
    [ (relay1, PIN_HIGH); (relay2, PIN_LOW);
      (valve1, PIN_LOW); (valve2, PIN_LOW); (valve3, PIN_LOW);
      (valve4, PIN_LOW); (valve5, PIN_LOW); (valve6, PIN_HIGH);
      (valve7, PIN_LOW); (valve8, PIN_LOW) ]
  else if bottle_id =? 7 then
    [ (relay1, PIN_HIGH); (relay2, PIN_LOW);
      (valve1, PIN_LOW); (valve2, PIN_LOW); (valve3, PIN_LOW);
      (valve4, PIN_LOW); (valve5, PIN_LOW); (valve6, PIN_LOW);
      (valve7, PIN_HIGH); (valve8, PIN_LOW) ]
  else if bottle_id =? 8 then
    [ (relay1, PIN_HIGH); (relay2, PIN_LOW);
      (valve1, PIN_LOW); (valve2, PIN_LOW); (valve3, PIN_LOW);
      (valve4, PIN_LOW); (valve5, PIN_LOW); (valve6, PIN_LOW);
      (valve7, PIN_LOW); (valve8, PIN_HIGH) ]
  else
    [ (relay1, PIN_LOW); (relay2, PIN_LOW);
      (valve1, PIN_LOW); (valve2, PIN_LOW); (valve3, PIN_LOW);
      (valve4, PIN_LOW); (valve5, PIN_LOW); (valve6, PIN_LOW);
      (valve7, PIN_LOW); (valve8, PIN_LOW) ].

(** The valves by number. *)
Definition valve (i : Z) : Z := GET_PIN GPIOD_BASE (i + 7).

Definition valve_open (pins : Pins) (i : Z) : bool := level pins (valve i) =? PIN_HIGH.
Definition pump_on (pins : Pins) : bool := level pins relay1 =? PIN_HIGH.
Definition open_valves (pins : Pins) : list Z :=
  List.filter (valve_open pins) [1; 2; 3; 4; 5; 6; 7; 8].

(** The output pins of the sampling system. *)
Definition sampling_pins : list Z :=
  [relay1; relay2; valve1; valve2; valve3; valve4; valve5; valve6; valve7; valve8].

(** ** Lemmas on write sequences *)

Lemma run_writes_app ws ws' pins :
  run_writes (ws ++ ws') pins = run_writes ws' (run_writes ws pins).
Proof. apply fold_left_app. Qed.

Lemma level_write pins q v p :
  level (rt_pin_write pins (q, v)) p = if q =? p then v else level pins p.
Proof.
  unfold level. change (rt_pin_write pins (q, v)) with (<[q := v]> pins).
  destruct (Z.eqb_spec q p) as [->|Hne].
  - rewrite lookup_insert_eq. reflexivity.
  - rewrite lookup_insert_ne by congruence. reflexivity.
Qed.

Lemma run_writes_other ws pins p :
  p ∉ ws.*1 -> level (run_writes ws pins) p = level pins p.
Proof.
  revert pins. induction ws as [|[q v] ws IH]; intros pins Hp; [reflexivity|].
  cbn in Hp. apply not_elem_of_cons in Hp as [Hne Hp].
  change (run_writes ((q, v) :: ws) pins) with (run_writes ws (rt_pin_write pins (q, v))).
  rewrite IH by assumption. rewrite level_write.
  rewrite (proj2 (Z.eqb_neq q p)) by congruence. reflexivity.
Qed.

(** What a pin holds after a sequence of writes: the last value written to it. *)
Fixpoint last_write (ws : list (Z * Z)) (p : Z) : option Z :=
  match ws with
  | [] => None
  | (q, v) :: ws' => match last_write ws' p with
                     | Some w => Some w
                     | None => if q =? p then Some v else None
                     end
  end.

Lemma level_run_writes ws pins p :
  level (run_writes ws pins) p =
  match last_write ws p with Some v => v | None => level pins p end.
Proof.
  revert pins. induction ws as [|[q v] ws IH]; intros pins; [reflexivity|].
  change (run_writes ((q, v) :: ws) pins) with (run_writes ws (rt_pin_write pins (q, v))).
  rewrite IH. cbn [last_write]. destruct (last_write ws p); [reflexivity|].
  rewrite level_write. destruct (q =? p); reflexivity.
Qed.

(** [draw] distinguishes nine arguments only. *)
Definition bottle_norm (b : Z) : Z := if (1 <=? b) && (b <=? 8) then b else 0.

Lemma draw_norm b : draw b = draw (bottle_norm b).
Proof.
  unfold bottle_norm.
  destruct (Z.leb_spec 1 b), (Z.leb_spec b 8); cbn [andb]; try reflexivity;
    unfold draw;
    repeat match goal with
    | |- context [b =? ?k] => destruct (Z.eqb_spec b k); [subst; try lia; reflexivity|]
    end; reflexivity.
Qed.

Lemma bottle_norm_cases b :
  bottle_norm b = 0 \/ bottle_norm b = 1 \/ bottle_norm b = 2 \/ bottle_norm b = 3 \/
  bottle_norm b = 4 \/ bottle_norm b = 5 \/ bottle_norm b = 6 \/ bottle_norm b = 7 \/
  bottle_norm b = 8.
Proof. unfold bottle_norm. bool_cases; lia. Qed.

(** Case analysis over the valves, and over the effective argument of [draw]. *)
Lemma eight_cases i :
  1 <= i <= 8 -> i = 1 \/ i = 2 \/ i = 3 \/ i = 4 \/ i = 5 \/ i = 6 \/ i = 7 \/ i = 8.
Proof. lia. Qed.

Ltac by_bottle b :=
  let H := fresh in
  pose proof (bottle_norm_cases b) as H;
  rewrite ?(draw_norm b);
  revert H; generalize (bottle_norm b); intros ? H;
  repeat (destruct H as [H|H]; [|]); subst.

Lemma draw_pump pins b :
  pump_on (run_writes (draw b) pins) = ((1 <=? b) && (b <=? 8)).
Proof.
  unfold pump_on. rewrite level_run_writes.
  assert (E : ((1 <=? b) && (b <=? 8)) = (1 <=? bottle_norm b)).
  { unfold bottle_norm. destruct ((1 <=? b) && (b <=? 8)) eqn:Eb; [|reflexivity].
    apply andb_prop in Eb as [E _]. symmetry; exact E. }
  rewrite E. by_bottle b; reflexivity.
Qed.

Lemma draw_relay2 pins b : level (run_writes (draw b) pins) relay2 = PIN_LOW.
Proof. rewrite level_run_writes. by_bottle b; reflexivity. Qed.

Lemma draw_valve pins b i :
  1 <= i <= 8 -> valve_open (run_writes (draw b) pins) i = (i =? bottle_norm b).
Proof.
  intros Hi%eight_cases. unfold valve_open. rewrite level_run_writes.
  by_bottle b; repeat (destruct Hi as [Hi|Hi]; [|]); subst; reflexivity.
Qed.

Lemma draw_frame pins b p :
  p ∉ sampling_pins -> level (run_writes (draw b) pins) p = level pins p.
Proof.
  intros Hp. apply run_writes_other.
  replace ((draw b).*1) with sampling_pins; [exact Hp|]. by_bottle b; reflexivity.
Qed.

(** The levels between two writes of a [draw b] that starts in [pins]. *)
Definition during (ws : list (Z * Z)) (pins : Pins) : list Pins :=
  map (fun n => run_writes (take n ws) pins) (seq 0 (S (length ws))).

Definition two_open (pins : Pins) : bool := (2 <=? length (open_valves pins))%nat.
Definition dry (pins : Pins) : bool :=
  pump_on pins && (length (open_valves pins) =? 0)%nat.

(** Both depend on the levels of the sampling pins only, ... *)
Definition same_sampling (p q : Pins) : Prop :=
  forall x, In x sampling_pins -> level p x = level q x.

Lemma same_sampling_open p q : same_sampling p q -> open_valves p = open_valves q.
Proof.
  intros H. unfold open_valves. apply List.filter_ext_in. intros i Hi. unfold valve_open.
  rewrite (H (valve i)); [reflexivity|].
  cbn in Hi. repeat (destruct Hi as [<-|Hi]; [vm_compute; tauto|]). destruct Hi.
Qed.

Lemma same_sampling_two p q : same_sampling p q -> two_open p = two_open q.
Proof. intros H. unfold two_open. rewrite (same_sampling_open p q H). reflexivity. Qed.

Lemma same_sampling_dry p q : same_sampling p q -> dry p = dry q.
Proof.
  intros H. unfold dry, pump_on.
  rewrite (same_sampling_open p q H), (H relay1) by (vm_compute; tauto). reflexivity.
Qed.

Lemma same_sampling_run ws p q :
  same_sampling p q -> same_sampling (run_writes ws p) (run_writes ws q).
Proof.
  intros H x Hx. rewrite !level_run_writes. destruct (last_write ws x); auto.
Qed.

(** ... and a [draw] writes all of those. *)
Lemma same_sampling_draw b p q : same_sampling (run_writes (draw b) p) (run_writes (draw b) q).
Proof.
  intros x Hx. rewrite !level_run_writes. cbn in Hx.
  repeat (destruct Hx as [<-|Hx]; [by_bottle b; reflexivity|]). destruct Hx.
Qed.

Lemma existsb_during f ws p q :
  (forall r s, same_sampling r s -> f r = f s) -> same_sampling p q ->
  existsb f (during ws p) = existsb f (during ws q).
Proof.
  intros Hf H. unfold during. induction (seq 0 (S (length ws))) as [|n l IH]; [reflexivity|].
  cbn [map existsb]. rewrite IH. f_equal. apply Hf, same_sampling_run, H.
Qed.

(** The 81 combinations, evaluated. *)
Definition draw_pairs : bool :=
  forallb (fun a => forallb (fun b =>
    Bool.eqb (existsb two_open (during (draw b) (run_writes (draw a) ∅)))
             ((1 <=? b) && (b <? a)) &&
    Bool.eqb (existsb dry (during (draw b) (run_writes (draw a) ∅))) (a <? b))
    [0; 1; 2; 3; 4; 5; 6; 7; 8]) [0; 1; 2; 3; 4; 5; 6; 7; 8].

Lemma draw_pairs_ok : draw_pairs = true.
Proof. vm_compute. reflexivity. Qed.

Lemma bottle_norm_In b : In (bottle_norm b) [0; 1; 2; 3; 4; 5; 6; 7; 8].
Proof. pose proof (bottle_norm_cases b). cbn. tauto || lia. Qed.

(** The valves after a [draw]. *)
Lemma draw_open_eq pins b :
  open_valves (run_writes (draw b) pins) = (if (1 <=? b) && (b <=? 8) then [b] else []).
Proof.
  assert (E : (if (1 <=? b) && (b <=? 8) then [b] else []) =
              List.filter (fun i => i =? bottle_norm b) [1; 2; 3; 4; 5; 6; 7; 8]).
  { unfold bottle_norm. destruct (Z.leb_spec 1 b), (Z.leb_spec b 8);
      [|reflexivity..|lia].
    destruct (eight_cases b) as [->|[->|[->|[->|[->|[->|[->| ->]]]]]]]; lia || reflexivity. }
  rewrite E. apply List.filter_ext_in. intros i Hi. apply draw_valve.
  cbn in Hi. lia.
Qed.

(** The LEDs: after [control_status_led] exactly the LED of the code is lit. *)
Definition lit (pins : Pins) : list Z :=
  List.filter (fun p => level pins p =? PIN_HIGH) [LED1; LED2; LED3].

Lemma led_lit_eq pins code :
  lit (run_writes (control_status_led code) pins) =
  (if code =? 1 then [LED2] else if code =? 2 then [LED1]
   else if code =? 3 then [LED3] else []).
Proof.
  unfold lit. cbn [List.filter]. rewrite !level_run_writes. unfold control_status_led.
  destruct (code =? 1), (code =? 2), (code =? 3); reflexivity.
Qed.

(** ** Properties *)

(** [draw b] opens exactly the valve of bottle [b] and runs the pump when
    [b] is 1..8, and otherwise stops the pump and closes all eight valves; it
    keeps relay 2 off and no other pin changes, whatever the levels were. *)
Theorem draw_spec pins b :
  let after := run_writes (draw b) pins in
  open_valves after = (if (1 <=? b) && (b <=? 8) then [b] else []) /\
  pump_on after = ((1 <=? b) && (b <=? 8)) /\
  level after relay2 = PIN_LOW /\
  (forall p, ~ In p sampling_pins -> level after p = level pins p).
Proof.
  cbn zeta. split_ands.
  - apply draw_open_eq.
  - apply draw_pump.
  - apply draw_relay2.
  - intros p Hp. apply draw_frame. rewrite list_elem_of_In. exact Hp.
Qed.

(** Switching from bottle [a] to bottle [b] passes through a moment with two
    valves open exactly when [b] is a lower bottle number than [a], and through
    a moment with the pump running against closed valves exactly when [b] is
    a higher one (or the pump starts). *)
Theorem draw_switch_transient pins a b :
  let before := run_writes (draw a) pins in
  existsb two_open (during (draw b) before) =
    ((1 <=? bottle_norm b) && (bottle_norm b <? bottle_norm a)) /\
  existsb dry (during (draw b) before) = (bottle_norm a <? bottle_norm b).
Proof.
  cbn zeta.
  rewrite (existsb_during two_open _ _ (run_writes (draw a) ∅) same_sampling_two)
    by apply same_sampling_draw.
  rewrite (existsb_during dry _ _ (run_writes (draw a) ∅) same_sampling_dry)
    by apply same_sampling_draw.
  rewrite (draw_norm a), (draw_norm b).
  pose proof draw_pairs_ok as H. unfold draw_pairs in H.
  rewrite forallb_forall in H. specialize (H _ (bottle_norm_In a)).
  rewrite forallb_forall in H. specialize (H _ (bottle_norm_In b)).
  apply andb_prop in H as [H1 H2].
  apply Bool.eqb_prop in H1, H2. auto.
Qed.

(** [control_status_led] lights exactly one LED for the codes 1, 2 and 3
    (LED2, LED1, LED3) and none for any other code, whatever was lit. *)
Theorem control_status_led_spec pins code :
  lit (run_writes (control_status_led code) pins) =
  (if code =? 1 then [LED2] else if code =? 2 then [LED1]
   else if code =? 3 then [LED3] else []).
Proof. apply led_lit_eq. Qed.
