(* ===== verification/Pwm.v ===== *)
(** PWM outputs: the two propulsion motors (src/applications/motor_pwm.c) and
    the winch that lowers the sampling hose (src/applications/gear_pwm.c).  A
    thread moves the current value towards the target by a fixed amount per
    iteration; [motor_iter] and [gear_iter] are one iteration of those
    threads, with the [rt_pwm_set] calls it makes and the delay it ends with. *)

From S2P Require Import Prelude.

(** A call [rt_pwm_set(dev, channel, period, pulse)]. *)
Record PwmSet := mkPwmSet { ps_channel : Z; ps_period : Z; ps_pulse : Z }.

(** One channel's adjustment, shared by the two threads. *)
Definition slew (ceil current target : Z) : Z :=
  if negb (current =? target) then
    if target <? current then u32 (current - ceil) else u32 (current + ceil)
  else current.

Module MotorPwm.

Definition PWM_DEV_CHANNEL1 : Z := 1.
Definition PWM_DEV_CHANNEL2 : Z := 2.
Definition period : Z := 20000000.
Definition pulse : Z := 1500000.

Record Motor := mkMotor {
  current_left_pwm : Z;
  current_right_pwm : Z;
  target_left_pwm : Z;
  target_right_pwm : Z;
}.
#[export] Instance Motor_rebuild : Rebuild Motor := fun r =>
  mkMotor (current_left_pwm r) (current_right_pwm r)
          (target_left_pwm r) (target_right_pwm r).

Definition motor_init : Motor := mkMotor 1500 1500 1500 1500.

Definition init_motor_pwm : list PwmSet :=
  [ mkPwmSet PWM_DEV_CHANNEL1 period pulse; mkPwmSet PWM_DEV_CHANNEL2 period pulse ].

Definition change_pwm_ceil : Z := 2.

(** One iteration of [loop_change_pwm]: new state, PWM calls, delay in ms. *)
Definition motor_iter (m : Motor) : Motor * list PwmSet * Z :=
  if negb (u32 (current_left_pwm m - target_left_pwm m) =? 0)
     || negb (u32 (current_right_pwm m - target_right_pwm m) =? 0) then
    let '(m1, out1) :=
      if negb (current_left_pwm m =? target_left_pwm m) then
        let c := if target_left_pwm m <? current_left_pwm m
                 then u32 (current_left_pwm m - change_pwm_ceil)
                 else u32 (current_left_pwm m + change_pwm_ceil) in
        (m <| current_left_pwm := c |>,
         [mkPwmSet PWM_DEV_CHANNEL1 period (u32 (c * 1000))])
      else (m, []) in
    let '(m2, out2) :=
      if negb (current_right_pwm m1 =? target_right_pwm m1) then
        let c := if target_right_pwm m1 <? current_right_pwm m1
                 then u32 (current_right_pwm m1 - change_pwm_ceil)
                 else u32 (current_right_pwm m1 + change_pwm_ceil) in
        (m1 <| current_right_pwm := c |>,
         [mkPwmSet PWM_DEV_CHANNEL2 period (u32 (c * 1000))])
      else (m1, []) in
    (m2, out1 ++ out2, 2)
  else (m, [], 10).

(** The arguments are [u_int]: the conversion of the caller's value is part
    of the call. *)
Definition set_pwm (left_pwm right_pwm : Z) (m : Motor) : Motor :=
  let left_pwm := if 2000 <=? left_pwm then 2000 else left_pwm in
  let left_pwm := if left_pwm <=? 1000 then 1000 else left_pwm in
  let right_pwm := if 2000 <=? right_pwm then 2000 else right_pwm in
  let right_pwm := if right_pwm <=? 1000 then 1000 else right_pwm in
  m <| target_left_pwm := left_pwm |> <| target_right_pwm := right_pwm |>.

Definition motor_next (m : Motor) : Motor := (motor_iter m).1.1.
Definition motor_out (m : Motor) : list PwmSet := (motor_iter m).1.2.
Definition motor_delay (m : Motor) : Z := (motor_iter m).2.

(** The invariant of the thread: a pulse between 1000 and 2000 us, reached
    from 1500 in steps of two, and clamped targets. *)
Definition chan_ok (c : Z) : Prop := 1000 <= c <= 2000 /\ c mod 2 = 0.
Definition tgt_ok (t : Z) : Prop := 1000 <= t <= 2000.
Definition motor_ok (m : Motor) : Prop :=
  chan_ok (current_left_pwm m) /\ chan_ok (current_right_pwm m) /\
  tgt_ok (target_left_pwm m) /\ tgt_ok (target_right_pwm m).

End MotorPwm.

Module GearPwm.

Definition gear_dev_CHANNEL1 : Z := 1.
Definition gear_dev_CHANNEL2 : Z := 2.
Definition period5 : Z := 20000000.
Definition pulse5 : Z := 1500000.

Record Gear := mkGear { current_gear_pwm : Z; target_gear_pwm : Z }.
#[export] Instance Gear_rebuild : Rebuild Gear := fun r =>
  mkGear (current_gear_pwm r) (target_gear_pwm r).

Definition gear_init : Gear := mkGear 1500 1500.

Definition init_gear_pwm : list PwmSet :=
  [ mkPwmSet gear_dev_CHANNEL1 period5 pulse5; mkPwmSet gear_dev_CHANNEL2 period5 pulse5 ].

Definition gear_pwm_ceil : Z := 1.

(** One iteration of [loop_change_gear]. *)
Definition gear_iter (g : Gear) : Gear * list PwmSet * Z :=
  if negb (u32 (current_gear_pwm g - target_gear_pwm g) =? 0) then
    if negb (current_gear_pwm g =? target_gear_pwm g) then
      let c := if target_gear_pwm g <? current_gear_pwm g
               then u32 (current_gear_pwm g - gear_pwm_ceil)
               else u32 (current_gear_pwm g + gear_pwm_ceil) in
      (g <| current_gear_pwm := c |>,
       [mkPwmSet gear_dev_CHANNEL2 period5 (u32 (c * 1000))], 6)
    else (g, [], 6)
  else (g, [], 6).

Definition set_gear_pwm (gear_pwm : Z) (g : Gear) : Gear :=
  g <| target_gear_pwm := gear_pwm |>.

Definition gear_next (g : Gear) : Gear := (gear_iter g).1.1.
Definition gear_out (g : Gear) : list PwmSet := (gear_iter g).1.2.

End GearPwm.

Export MotorPwm GearPwm.

(** ** Lemmas *)

Definition is_u32 (z : Z) : Prop := 0 <= z < 4294967296.

Lemma u32_sub_0 a b : is_u32 a -> is_u32 b -> (u32 (a - b) =? 0) = (a =? b).
Proof.
  unfold is_u32. intros Ha Hb.
  destruct (Z.eqb_spec a b) as [->|Hne].
  - rewrite Z.sub_diag. reflexivity.
  - apply Z.eqb_neq. c_mod.
Qed.

Lemma motor_next_eq m :
  is_u32 (current_left_pwm m) -> is_u32 (target_left_pwm m) ->
  is_u32 (current_right_pwm m) -> is_u32 (target_right_pwm m) ->
  motor_next m =
    mkMotor (slew 2 (current_left_pwm m) (target_left_pwm m))
            (slew 2 (current_right_pwm m) (target_right_pwm m))
            (target_left_pwm m) (target_right_pwm m).
Proof.
  destruct m as [cl cr tl tr]; cbn. intros Hcl Htl Hcr Htr.
  unfold motor_next, motor_iter, slew, change_pwm_ceil; cbn.
  rewrite !u32_sub_0 by assumption.
  destruct (cl =? tl) eqn:E1, (cr =? tr) eqn:E2; cbn; rewrite ?E2; reflexivity.
Qed.

Lemma gear_next_eq g :
  is_u32 (current_gear_pwm g) -> is_u32 (target_gear_pwm g) ->
  gear_next g = mkGear (slew 1 (current_gear_pwm g) (target_gear_pwm g)) (target_gear_pwm g).
Proof.
  destruct g as [c t]; cbn. intros Hc Ht.
  unfold gear_next, gear_iter, slew, gear_pwm_ceil; cbn.
  rewrite !u32_sub_0 by assumption.
  destruct (c =? t); reflexivity.
Qed.

Lemma slew_ok c t : chan_ok c -> tgt_ok t -> chan_ok (slew 2 c t).
Proof.
  unfold chan_ok, tgt_ok, slew. intros [Hc He] Ht.
  destruct (Z.eqb_spec c t); simpl; [tauto|].
  destruct (Z.ltb_spec t c); rewrite u32_small by lia;
    Z.div_mod_to_equations; lia.
Qed.

Lemma motor_ok_u32 m : motor_ok m ->
  is_u32 (current_left_pwm m) /\ is_u32 (target_left_pwm m) /\
  is_u32 (current_right_pwm m) /\ is_u32 (target_right_pwm m).
Proof. unfold motor_ok, chan_ok, tgt_ok, is_u32. lia. Qed.

Lemma motor_next_ok_eq m : motor_ok m ->
  motor_next m =
    mkMotor (slew 2 (current_left_pwm m) (target_left_pwm m))
            (slew 2 (current_right_pwm m) (target_right_pwm m))
            (target_left_pwm m) (target_right_pwm m).
Proof. intros (H1 & H2 & H3 & H4)%motor_ok_u32. apply motor_next_eq; assumption. Qed.

Lemma motor_next_ok m : motor_ok m -> motor_ok (motor_next m).
Proof.
  intros H. rewrite motor_next_ok_eq by assumption.
  destruct H as (? & ? & ? & ?). unfold motor_ok; cbn. auto using slew_ok.
Qed.

Lemma set_pwm_ok l r m : is_u32 l -> is_u32 r -> motor_ok m -> motor_ok (set_pwm l r m).
Proof.
  unfold motor_ok, set_pwm, tgt_ok, is_u32; cbn. intros Hl Hr (H1 & H2 & _).
  split_ands; try apply H1; try apply H2; bool_cases; lia.
Qed.

(** Iterating one channel: [n] steps of [slew ceil] towards a fixed target. *)
Lemma slew_fixed k t : slew k t t = t.
Proof. unfold slew. rewrite Z.eqb_refl. reflexivity. Qed.

(** The two attractors of [slew 2]: the target itself, or its two neighbours. *)
Lemma slew2_dist c t :
  2 <= t < 4294967290 -> is_u32 c -> 2 <= Z.abs (c - t) ->
  is_u32 (slew 2 c t) /\ Z.abs (slew 2 c t - t) = Z.abs (c - t) - 2.
Proof.
  unfold is_u32, slew. intros Ht Hc Hd.
  destruct (Z.eqb_spec c t); simpl; [lia|].
  destruct (Z.ltb_spec t c); rewrite u32_small by lia; lia.
Qed.

Lemma slew2_flip c t :
  2 <= t < 4294967290 -> Z.abs (c - t) = 1 -> slew 2 c t = 2 * t - c.
Proof.
  unfold slew. intros Ht Hd.
  destruct (Z.eqb_spec c t); simpl; [lia|].
  destruct (Z.ltb_spec t c); rewrite u32_small by lia; lia.
Qed.

Definition slew_n (k : Z) (n : nat) (c t : Z) : Z := Nat.iter n (fun c => slew k c t) c.

Lemma slew_n_S k n c t : slew_n k (S n) c t = slew_n k n (slew k c t) t.
Proof. unfold slew_n. rewrite Nat.iter_succ_r. reflexivity. Qed.

(** Closed form of the distance to the target after [n] iterations. *)
Lemma slew2_n_dist n c t :
  2 <= t < 4294967290 -> is_u32 c ->
  Z.abs (slew_n 2 n c t - t) =
    (if 2 * Z.of_nat n <=? Z.abs (c - t) then Z.abs (c - t) - 2 * Z.of_nat n
     else Z.abs (c - t) mod 2).
Proof.
  revert c. induction n as [|n IH]; intros c Ht Hc.
  { cbn [slew_n Nat.iter]. destruct (Z.leb_spec (2 * Z.of_nat 0) (Z.abs (c - t))); cbn in *; lia. }
  rewrite slew_n_S.
  destruct (Z.le_gt_cases 2 (Z.abs (c - t))) as [Hd|Hd].
  - destruct (slew2_dist c t Ht Hc Hd) as [Hu E]. rewrite IH, E by assumption.
    replace ((Z.abs (c - t) - 2) mod 2) with (Z.abs (c - t) mod 2)
      by (Z.div_mod_to_equations; lia).
    bool_cases; lia.
  - assert (Z.abs (c - t) = 0 \/ Z.abs (c - t) = 1) as [E|E] by lia.
    + replace c with t by lia. rewrite slew_fixed, IH by (unfold is_u32; lia).
      rewrite Z.sub_diag. change (Z.abs 0) with 0. change (0 mod 2) with 0. bool_cases; lia.
    + rewrite slew2_flip, IH by (unfold is_u32 in *; lia).
      replace (2 * t - c - t) with (- (c - t)) by lia. rewrite Z.abs_opp, E.
      change (1 mod 2) with 1. bool_cases; lia.
Qed.

Lemma motor_next_n n m : motor_ok m ->
  Nat.iter n motor_next m =
    mkMotor (slew_n 2 n (current_left_pwm m) (target_left_pwm m))
            (slew_n 2 n (current_right_pwm m) (target_right_pwm m))
            (target_left_pwm m) (target_right_pwm m)
  /\ motor_ok (Nat.iter n motor_next m).
Proof.
  intros Hm. induction n as [|n [IH IHok]].
  { destruct m; split; [reflexivity|assumption]. }
  rewrite Nat.iter_succ. split; [|apply motor_next_ok; exact IHok].
  rewrite motor_next_ok_eq by assumption. rewrite IH. reflexivity.
Qed.

Lemma slew1_n n c t :
  is_u32 c -> is_u32 t ->
  slew_n 1 n c t =
    (if Z.of_nat n <? Z.abs (c - t) then c + Z.sgn (t - c) * Z.of_nat n else t).
Proof.
  unfold is_u32. revert c. induction n as [|n IH]; intros c Hc Ht.
  { cbn. bool_cases; lia. }
  rewrite slew_n_S. unfold slew.
  destruct (Z.eqb_spec c t) as [->|Hne]; cbn [negb].
  - rewrite IH by assumption. rewrite Z.sub_diag. bool_cases; lia.
  - destruct (Z.ltb_spec t c); rewrite u32_small by lia; rewrite IH by lia;
      bool_cases; nia.
Qed.

Lemma gear_next_n n g : is_u32 (current_gear_pwm g) -> is_u32 (target_gear_pwm g) ->
  Nat.iter n gear_next g =
    mkGear (slew_n 1 n (current_gear_pwm g) (target_gear_pwm g)) (target_gear_pwm g)
  /\ is_u32 (current_gear_pwm (Nat.iter n gear_next g)).
Proof.
  intros Hc Ht. induction n as [|n [IH IHu]].
  { destruct g; split; [reflexivity|assumption]. }
  rewrite Nat.iter_succ. rewrite IH in *. cbn in IHu.
  rewrite gear_next_eq by assumption. cbn. split; [reflexivity|].
  unfold slew, is_u32. destruct (negb _); [|exact IHu]. destruct (_ <? _); apply u32_range.
Qed.

(** ** The motor thread and its clients as a transition system: an iteration of
    the thread, or a call of [set_pwm] by the manager with any command. *)
Inductive motor_step : Motor -> Motor -> Prop :=
| step_iter m : motor_step m (motor_next m)
| step_set m left right :
    motor_step m (set_pwm (u32 left) (u32 right) m).

Inductive motor_reach : Motor -> Prop :=
| reach_init : motor_reach motor_init
| reach_step m m' : motor_reach m -> motor_step m m' -> motor_reach m'.

Lemma motor_reach_ok m : motor_reach m -> motor_ok m.
Proof.
  induction 1 as [|m m' _ IH Hs].
  - unfold motor_ok, chan_ok, tgt_ok; cbn. split_ands; lia || reflexivity.
  - destruct Hs; [apply motor_next_ok; exact IH|].
    apply set_pwm_ok; [apply u32_range..|exact IH].
Qed.

(** The pulses an iteration writes, read off the new state. *)
Lemma motor_out_eq m : motor_ok m ->
  motor_out m =
    (if current_left_pwm m =? target_left_pwm m then []
     else [mkPwmSet PWM_DEV_CHANNEL1 period (current_left_pwm (motor_next m) * 1000)]) ++
    (if current_right_pwm m =? target_right_pwm m then []
     else [mkPwmSet PWM_DEV_CHANNEL2 period (current_right_pwm (motor_next m) * 1000)]).
Proof.
  intros Hm. pose proof (motor_next_ok m Hm) as Hn.
  pose proof (motor_ok_u32 m Hm) as (Hcl & Htl & Hcr & Htr).
  rewrite motor_next_ok_eq in * by assumption.
  destruct m as [cl cr tl tr]. unfold motor_ok, chan_ok in Hn; cbn in *.
  unfold motor_out, motor_iter, change_pwm_ceil; cbn.
  rewrite !u32_sub_0 by assumption. revert Hn. unfold slew.
  destruct (cl =? tl) eqn:E1, (cr =? tr) eqn:E2; cbn; rewrite ?E2; cbn; intros Hn;
    rewrite ?(u32_small (_ * 1000)) by lia; reflexivity.
Qed.

(** [set_pwm] on a converted [int]: negative values wrap around. *)
Lemma set_pwm_int_eq l r m :
  INT_MIN <= l <= INT_MAX -> INT_MIN <= r <= INT_MAX ->
  let clamp v := if v <? 0 then 2000 else Z.max 1000 (Z.min 2000 v) in
  set_pwm (u32 l) (u32 r) m =
    mkMotor (current_left_pwm m) (current_right_pwm m) (clamp l) (clamp r).
Proof.
  unfold INT_MIN, INT_MAX. intros Hl Hr. cbn zeta.
  assert (Hclamp : forall v, -2147483648 <= v <= 2147483647 ->
    (if (if 2000 <=? u32 v then 2000 else u32 v) <=? 1000 then 1000
     else if 2000 <=? u32 v then 2000 else u32 v) =
    (if v <? 0 then 2000 else Z.max 1000 (Z.min 2000 v))).
  { intros v Hv. destruct (Z.ltb_spec v 0).
    - replace (u32 v) with (v + 4294967296) by c_mod. bool_cases; lia.
    - rewrite u32_small by lia. bool_cases; lia. }
  unfold set_pwm. rewrite !Hclamp by lia. reflexivity.
Qed.

(** ** Properties *)

(** A command of any [int] value (converted to [u_int] by the call) leaves
    targets between 1000 and 2000: a command between 0 and [INT_MAX] is
    clamped into that range, while a negative one becomes a huge unsigned
    value and ends up as 2000, full speed ahead.  The current values and
    the other channel do not matter. *)
Theorem set_pwm_clamps l r m :
  INT_MIN <= l <= INT_MAX -> INT_MIN <= r <= INT_MAX ->
  let clamp v := if v <? 0 then 2000 else Z.max 1000 (Z.min 2000 v) in
  set_pwm (u32 l) (u32 r) m =
    mkMotor (current_left_pwm m) (current_right_pwm m) (clamp l) (clamp r).
Proof. apply set_pwm_int_eq. Qed.

Lemma set_pwm_clamps_witness :
  set_pwm (u32 (-300)) (u32 1700) motor_init = mkMotor 1500 1500 2000 1700.
Proof. apply (set_pwm_clamps (-300) 1700 motor_init); unfold INT_MIN, INT_MAX; lia. Defined.

(** However the manager interleaves its commands with the motor thread, the
    two outputs stay even values between 1000 and 2000 us; each iteration
    moves them by at most 2 us, and every pulse it writes is the new value in
    nanoseconds, between 1 ms and 2 ms, on its own channel. *)
Theorem motor_reach_safe m :
  motor_reach m ->
  motor_ok m /\
  Z.abs (current_left_pwm (motor_next m) - current_left_pwm m) <= 2 /\
  Z.abs (current_right_pwm (motor_next m) - current_right_pwm m) <= 2 /\
  (forall w, In w (motor_out m) ->
     ps_period w = 20000000 /\ 1000000 <= ps_pulse w <= 2000000 /\
     (ps_channel w = PWM_DEV_CHANNEL1 /\ ps_pulse w = current_left_pwm (motor_next m) * 1000 \/
      ps_channel w = PWM_DEV_CHANNEL2 /\ ps_pulse w = current_right_pwm (motor_next m) * 1000)).
Proof.
  intros H. pose proof (motor_reach_ok m H) as Hm.
  pose proof (motor_next_ok m Hm) as ((Hl & _) & (Hr & _) & _).
  assert (Hslew : forall c t, chan_ok c -> tgt_ok t -> Z.abs (slew 2 c t - c) <= 2).
  { intros c t [Hc _] Ht. unfold slew, tgt_ok in *.
    destruct (negb _), (t <? c); rewrite ?u32_small by lia; lia. }
  split; [exact Hm|]. split_ands.
  - rewrite motor_next_ok_eq by assumption. apply Hslew; apply Hm.
  - rewrite motor_next_ok_eq by assumption. apply Hslew; apply Hm.
  - intros w. rewrite motor_out_eq by assumption. rewrite in_app_iff.
    destruct (_ =? _), (_ =? _); cbn [In]; intros [Hw|Hw];
      repeat (destruct Hw as [Hw|Hw]); try destruct Hw; cbn -[Z.mul];
      unfold period, PWM_DEV_CHANNEL1, PWM_DEV_CHANNEL2; lia.
Qed.

Lemma motor_reach_safe_witness :
  motor_ok (motor_next (set_pwm (u32 1700) (u32 1200) motor_init)).
Proof.
  apply motor_reach_safe.
  eapply reach_step; [|apply step_iter].
  eapply reach_step; [apply reach_init|apply step_set].
Defined.

(** C34: while the targets stay put, an even target is reached after exactly
    half the distance in iterations and then held with no further pulse
    written; an odd target is never reached: the output ends up alternating
    between its two neighbours, rewriting the pulse in every iteration. *)
Theorem motor_left_settles n m :
  motor_reach m ->
  Z.abs (current_left_pwm m - target_left_pwm m) <= 2 * Z.of_nat n ->
  let m' := Nat.iter n motor_next m in
  if Z.even (target_left_pwm m) then
    current_left_pwm m' = target_left_pwm m /\
    current_left_pwm (motor_next m') = target_left_pwm m
  else
    Z.abs (current_left_pwm m' - target_left_pwm m) = 1 /\
    current_left_pwm (motor_next m') = 2 * target_left_pwm m - current_left_pwm m'.
Proof.
  intros Hm%motor_reach_ok Hn. cbn zeta.
  destruct (motor_next_n n m Hm) as [E Hok].
  pose proof (motor_ok_u32 m Hm) as (Hc & _).
  destruct Hm as ([Hc1 Hc2] & _ & Ht & _). unfold tgt_ok in Ht.
  pose proof (slew2_n_dist n (current_left_pwm m) (target_left_pwm m)
                ltac:(lia) Hc) as Hd.
  rewrite motor_next_ok_eq by exact Hok. rewrite E. cbn.
  set (c := slew_n 2 n (current_left_pwm m) (target_left_pwm m)) in *.
  pose proof (Zmod_even (target_left_pwm m)) as Hpar.
  destruct (Z.even (target_left_pwm m)).
  - assert (c = target_left_pwm m) as -> by (bool_cases; Z.div_mod_to_equations; lia).
    split; [reflexivity|apply slew_fixed].
  - assert (Z.abs (c - target_left_pwm m) = 1)
      by (bool_cases; Z.div_mod_to_equations; lia).
    split; [assumption|]. apply slew2_flip; lia.
Qed.

Lemma motor_left_settles_witness :
  current_left_pwm (Nat.iter 100 motor_next (set_pwm (u32 1700) (u32 1500) motor_init)) = 1700.
Proof.
  refine (proj1 (motor_left_settles 100 (set_pwm (u32 1700) (u32 1500) motor_init) _ _));
    [|vm_compute; discriminate].
  eapply reach_step; [apply reach_init|apply step_set].
Defined.

(** The winch reaches any target after exactly the distance in iterations,
    moving one unit per iteration and never away from it, and then stays;
    each iteration but the last ones at rest writes the new value's pulse. *)
Theorem gear_reaches n g :
  is_u32 (current_gear_pwm g) -> is_u32 (target_gear_pwm g) ->
  let d := Z.abs (current_gear_pwm g - target_gear_pwm g) in
  let g' := Nat.iter n gear_next g in
  target_gear_pwm g' = target_gear_pwm g /\
  (current_gear_pwm g' = target_gear_pwm g <-> d <= Z.of_nat n) /\
  Z.abs (current_gear_pwm g' - target_gear_pwm g) = Z.max 0 (d - Z.of_nat n) /\
  gear_out g' = (if Z.of_nat n <? d
                 then [mkPwmSet gear_dev_CHANNEL2 period5
                                (u32 (current_gear_pwm (gear_next g') * 1000))]
                 else []).
Proof.
  intros Hc Ht. cbn zeta. destruct (gear_next_n n g Hc Ht) as [E Hu].
  rewrite E in *. cbn in *. rewrite slew1_n in * by assumption.
  split_ands; [reflexivity|bool_cases; lia|bool_cases; lia|].
  unfold gear_out, gear_next, gear_iter; cbn.
  rewrite u32_sub_0 by assumption.
  destruct (Z.ltb_spec (Z.of_nat n) (Z.abs (current_gear_pwm g - target_gear_pwm g))).
  - rewrite (proj2 (Z.eqb_neq _ _)) by nia. reflexivity.
  - rewrite Z.eqb_refl. reflexivity.
Qed.

Lemma gear_reaches_witness :
  current_gear_pwm (Nat.iter 900 gear_next (set_gear_pwm 2400 gear_init)) = 2400.
Proof.
  refine (proj2 (proj1 (proj2 (gear_reaches 900 (set_gear_pwm 2400 gear_init) _ _))) _);
    unfold is_u32; cbn; lia.
Defined.
