(* ===== verification/Scan.v ===== *)
(** The parts of the C library the receivers use on character arrays: C
    strings, [atoi] and [sscanf] with literals and scansets.  A store outside
    an array, or a string without terminator, is a memory error ([None]). *)

From S2P Require Import Prelude.

(** The string in an array: its bytes up to the terminator. *)
Fixpoint cstr (buf : list Z) : option (list Z) :=
  match buf with
  | [] => None
  | c :: buf' => if c =? NUL then Some []
                 else match cstr buf' with Some s => Some (c :: s) | None => None end
  end.

(** The longest prefix of [s] whose characters satisfy [p], and the rest. *)
Fixpoint span (p : Z -> bool) (s : list Z) : list Z * list Z :=
  match s with
  | [] => ([], [])
  | c :: s' => if p c then let '(m, r) := span p s' in (c :: m, r) else ([], s)
  end.

(** ** [atoi]: leading white space, a sign, decimal digits; out of the range of
    [long] the library saturates. *)
Definition is_space (c : Z) : bool := (c =? 32) || ((9 <=? c) && (c <=? 13)).

Definition digits_val (ds : list Z) : Z :=
  fold_left (fun a c => a * 10 + (c - chr "0")) ds 0.

Definition strtol10 (s : list Z) : Z :=
  let s := snd (span is_space s) in
  let '(neg, s) :=
    match s with
    | c :: s' => if c =? chr "-" then (true, s')
                 else if c =? chr "+" then (false, s') else (false, s)
    | [] => (false, s)
    end in
  let v := digits_val (fst (span is_digit s)) in
  if neg then Z.max INT_MIN (- v) else Z.min INT_MAX v.

(** [atoi(buf)] for a character array. *)
Definition atoi (buf : list Z) : option Z := option_map strtol10 (cstr buf).

(** ** [sscanf] *)
Inductive directive :=
| Lit (c : Z)                (* a literal character *)
| Class (p : Z -> bool).     (* a scanset, %[...] *)

Definition digit_set : directive := Class is_digit.            (* %[0-9] *)
Definition not_set (c : Z) : directive := Class (fun x => negb (x =? c)).  (* %[^c] *)

(** Storing the string [m] and its terminator at the start of array [d]. *)
Definition str_store (d m : list Z) : option (list Z) :=
  if Z.of_nat (length m) + 1 <=? Z.of_nat (length d)
  then Some (m ++ NUL :: drop (S (length m)) d) else None.

(** [dests] are the arrays of the conversions still to come; scanning stops at
    the first input failure and leaves the arrays it did not reach alone. *)
Fixpoint sscanf (s : list Z) (fmt : list directive) (dests : list (list Z))
  : option (list (list Z)) :=
  match fmt with
  | [] => Some dests
  | Lit c :: fmt' =>
      match s with
      | x :: s' => if x =? c then sscanf s' fmt' dests else Some dests
      | [] => Some dests
      end
  | Class p :: fmt' =>
      match dests with
      | [] => None
      | d :: dests' =>
          let '(m, rest) := span p s in
          match m with
          | [] => Some dests
          | _ => match str_store d m with
                 | None => None
                 | Some d' => match sscanf rest fmt' dests' with
                              | Some ds => Some (d' :: ds)
                              | None => None
                              end
                 end
          end
      end
  end.

(** ** Decimal notation, the inverse of [atoi]: what the senders transmit. *)
Fixpoint dec_digits (fuel : nat) (n : Z) (acc : list Z) : list Z :=
  match fuel with
  | O => acc
  | S fuel' =>
      let acc' := (chr "0" + n mod 10) :: acc in
      if n <? 10 then acc' else dec_digits fuel' (n / 10) acc'
  end.

Definition dec_nat (n : Z) : list Z := dec_digits 10 n [].
Definition dec (n : Z) : list Z :=
  if n <? 0 then chr "-" :: dec_nat (- n) else dec_nat n.

(** ** Lemmas *)

Lemma cstr_app s r : Forall (fun c => c <> NUL) s -> cstr (s ++ NUL :: r) = Some s.
Proof.
  induction 1 as [|c s Hc _ IH]; [reflexivity|].
  cbn. rewrite (proj2 (Z.eqb_neq c NUL)) by exact Hc. rewrite IH. reflexivity.
Qed.

Lemma cstr_Some buf : Exists (fun c => c = NUL) buf -> is_Some (cstr buf).
Proof.
  induction 1 as [c buf ->|c buf _ [s Hs]]; cbn; [eauto|].
  rewrite Hs. destruct (c =? NUL); eauto.
Qed.

Lemma span_app p m r :
  Forall (fun c => p c = true) m ->
  span p (m ++ r) = let '(m', r') := span p r in (m ++ m', r').
Proof.
  induction 1 as [|c m Hc _ IH]; cbn; [destruct (span p r); reflexivity|].
  rewrite Hc, IH. destruct (span p r). reflexivity.
Qed.

Lemma span_stop p m c r :
  Forall (fun c => p c = true) m -> p c = false -> span p (m ++ c :: r) = (m, c :: r).
Proof. intros Hm Hc. rewrite span_app by assumption. cbn. rewrite Hc, app_nil_r. reflexivity. Qed.

Lemma span_all p m : Forall (fun c => p c = true) m -> span p m = (m, []).
Proof. intros Hm. rewrite <- (app_nil_r m) at 1. rewrite span_app by assumption. cbn. rewrite app_nil_r. reflexivity. Qed.

Lemma span_length p s : (length (span p s).1 <= length s)%nat.
Proof.
  induction s as [|c s IH]; cbn; [lia|]. destruct (p c); [|cbn; lia].
  destruct (span p s); cbn in *; lia.
Qed.

Lemma str_store_length d m d' : str_store d m = Some d' -> length d' = length d.
Proof.
  unfold str_store. destruct (Z.leb_spec (Z.of_nat (length m) + 1) (Z.of_nat (length d)));
    intros [= <-]. rewrite length_app. cbn. rewrite length_drop. lia.
Qed.

Lemma str_store_Some d m :
  (length m < length d)%nat -> str_store d m = Some (m ++ NUL :: drop (S (length m)) d).
Proof. intros. unfold str_store. rewrite (proj2 (Z.leb_le _ _)) by lia. reflexivity. Qed.

Lemma str_store_None d m : (length d <= length m)%nat -> str_store d m = None.
Proof. intros. unfold str_store. rewrite (proj2 (Z.leb_gt _ _)) by lia. reflexivity. Qed.

Lemma sscanf_class s p fmt d dests m r d' :
  span p s = (m, r) -> m <> [] -> str_store d m = Some d' ->
  sscanf s (Class p :: fmt) (d :: dests) =
    match sscanf r fmt dests with Some ds => Some (d' :: ds) | None => None end.
Proof. intros Hs Hm Hd. cbn. rewrite Hs. destruct m; [congruence|]. rewrite Hd. reflexivity. Qed.

(** [sscanf] keeps the number of its arrays and their sizes. *)
Lemma sscanf_lengths s fmt dests ds :
  sscanf s fmt dests = Some ds -> map length ds = map length dests.
Proof.
  revert s dests ds. induction fmt as [|[c|p] fmt IH]; intros s dests ds; cbn.
  - intros [= ->]. reflexivity.
  - destruct s as [|x s]; [intros [= ->]; reflexivity|].
    destruct (x =? c); [apply IH|intros [= ->]; reflexivity].
  - destruct dests as [|d dests]; [discriminate|].
    destruct (span p s) as [[|x m] r]; [intros [= <-]; reflexivity|].
    destruct (str_store d (x :: m)) as [d'|] eqn:Hd; [|discriminate].
    destruct (sscanf r fmt dests) as [ds'|] eqn:E; [|discriminate].
    intros [= <-]. cbn. f_equal; [eapply str_store_length; exact Hd|eapply IH; exact E].
Qed.

(** An array [sscanf] has written holds a terminated string. *)
Definition terminated (buf : list Z) : Prop := Exists (fun c => c = NUL) buf.

Lemma str_store_terminated d m d' : str_store d m = Some d' -> terminated d'.
Proof.
  unfold str_store. destruct (_ <=? _); intros [= <-].
  unfold terminated. rewrite Exists_app. right. constructor. reflexivity.
Qed.

Lemma sscanf_terminated s fmt dests ds :
  sscanf s fmt dests = Some ds -> Forall terminated dests -> Forall terminated ds.
Proof.
  revert s dests ds. induction fmt as [|[c|p] fmt IH]; intros s dests ds; cbn.
  - intros [= ->]. auto.
  - destruct s as [|x s]; [intros [= ->]; auto|].
    destruct (x =? c); [apply IH|intros [= ->]; auto].
  - destruct dests as [|d dests]; [discriminate|].
    destruct (span p s) as [[|x m] r]; [intros [= <-]; auto|].
    destruct (str_store d (x :: m)) as [d'|] eqn:Hd; [|discriminate].
    destruct (sscanf r fmt dests) as [ds'|] eqn:E; [|discriminate].
    intros [= <-] H. inversion H; subst. constructor; [eapply str_store_terminated; exact Hd|].
    eapply IH; eassumption.
Qed.

Lemma atoi_terminated buf : terminated buf -> is_Some (atoi buf).
Proof. intros [s Hs]%cstr_Some. unfold atoi. rewrite Hs. cbn. eauto. Qed.

(** Decimal digits. *)
Lemma digits_val_snoc ds c : digits_val (ds ++ [c]) = digits_val ds * 10 + (c - chr "0").
Proof. unfold digits_val. rewrite fold_left_app. reflexivity. Qed.

Lemma dec_digits_app fuel n acc : dec_digits fuel n acc = dec_digits fuel n [] ++ acc.
Proof.
  revert n acc. induction fuel as [|f IH]; intros n acc; [reflexivity|].
  cbn [dec_digits]. destruct (n <? 10); [reflexivity|].
  rewrite IH, (IH _ [_]), <- app_assoc. reflexivity.
Qed.

Lemma dec_digits_val fuel n :
  0 <= n < 10 ^ Z.of_nat fuel -> digits_val (dec_digits fuel n []) = n.
Proof.
  revert n. induction fuel as [|f IH]; intros n Hn.
  { cbn in *. lia. }
  cbn [dec_digits]. destruct (Z.ltb_spec n 10).
  - cbn -[chr Z.modulo]. rewrite Z.mod_small by lia. lia.
  - rewrite dec_digits_app, digits_val_snoc, IH.
    + pose proof (Z.div_mod n 10). lia.
    + rewrite Nat2Z.inj_succ, Z.pow_succ_r in Hn by lia.
      split; [apply Z.div_pos; lia|apply Z.div_lt_upper_bound; lia].
Qed.

Lemma dec_digits_digits fuel n :
  0 <= n -> Forall (fun c => is_digit c = true) (dec_digits fuel n []).
Proof.
  revert n. induction fuel as [|f IH]; intros n Hn; [constructor|].
  assert (Hd : is_digit (chr "0" + n mod 10) = true).
  { unfold is_digit, chr. pose proof (Z.mod_pos_bound n 10). cbn -[Z.modulo].
    rewrite andb_true_iff, !Z.leb_le. lia. }
  cbn [dec_digits]. destruct (n <? 10); [auto|].
  rewrite dec_digits_app. apply Forall_app. split; [apply IH, Z.div_pos; lia|auto].
Qed.

Lemma dec_digits_length fuel k n :
  0 <= n < 10 ^ Z.of_nat k -> (1 <= k <= fuel)%nat ->
  (1 <= length (dec_digits fuel n []) <= k)%nat.
Proof.
  revert k n. induction fuel as [|f IH]; intros k n Hn Hk; [lia|].
  cbn [dec_digits]. destruct (Z.ltb_spec n 10); [cbn; lia|].
  rewrite dec_digits_app, length_app. cbn.
  destruct k as [|[|k]]; [lia|cbn in Hn; lia|].
  rewrite Nat2Z.inj_succ, Z.pow_succ_r in Hn by lia.
  assert (Hq : 0 <= n / 10 < 10 ^ Z.of_nat (S k))
    by (split; [apply Z.div_pos; lia|apply Z.div_lt_upper_bound; lia]).
  specialize (IH (S k) (n / 10) Hq ltac:(lia)). lia.
Qed.

Lemma is_digit_not_space c : is_digit c = true -> is_space c = false.
Proof.
  unfold is_digit, is_space, chr. cbn. rewrite andb_true_iff, !Z.leb_le.
  intros [H1 H2]. bool_cases; lia || reflexivity.
Qed.

Lemma is_digit_not c d : is_digit c = true -> is_digit d = false -> (c =? d) = false.
Proof. intros Hc Hd. apply Z.eqb_neq. intros ->. congruence. Qed.

(** A run of digits, up to anything that is not one, reads as its value. *)
Lemma strtol10_digits ds r :
  ds <> [] -> Forall (fun c => is_digit c = true) ds ->
  (match r with c :: _ => is_digit c = false | [] => True end) ->
  strtol10 (ds ++ r) = Z.min INT_MAX (digits_val ds).
Proof.
  intros Hne Hd Hr. destruct ds as [|c ds]; [congruence|].
  inversion Hd as [|? ? Hc Hds]; subst.
  unfold strtol10. cbn [app span]. rewrite is_digit_not_space by exact Hc. cbn [snd].
  rewrite (is_digit_not c (chr "-") Hc), (is_digit_not c (chr "+") Hc) by reflexivity.
  change (c :: ds ++ r) with ((c :: ds) ++ r).
  destruct r as [|x r].
  - rewrite app_nil_r, span_all by assumption. reflexivity.
  - rewrite span_stop by assumption. reflexivity.
Qed.

Lemma strtol10_dec n : INT_MIN <= n <= INT_MAX -> strtol10 (dec n) = n.
Proof.
  unfold INT_MIN, INT_MAX. intros Hn. unfold dec, dec_nat.
  assert (Hlen : forall m, 0 <= m <= 2147483648 -> dec_digits 10 m [] <> []).
  { intros m Hm. pose proof (dec_digits_length 10 10 m ltac:(lia) ltac:(lia)) as H.
    destruct (dec_digits 10 m []); [cbn in H; lia|congruence]. }
  destruct (Z.ltb_spec n 0).
  - pose proof (dec_digits_digits 10 (- n) ltac:(lia)) as Hd.
    unfold strtol10. cbn [span]. change (is_space (chr "-")) with false. cbn [snd].
    change (chr "-" =? chr "-") with true. cbv iota beta.
    rewrite span_all by exact Hd. cbn [fst]. rewrite dec_digits_val by lia.
    unfold INT_MIN; lia.
  - rewrite <- (app_nil_r (dec_digits 10 n [])).
    rewrite strtol10_digits; [|apply Hlen; lia|apply dec_digits_digits; lia|exact I].
    rewrite dec_digits_val by lia. unfold INT_MAX; lia.
Qed.

Lemma dec_nat_length n k :
  0 <= n < 10 ^ Z.of_nat k -> (1 <= k <= 10)%nat -> (1 <= length (dec_nat n) <= k)%nat.
Proof. apply dec_digits_length. Qed.

Lemma dec_nat_digits n : 0 <= n -> Forall (fun c => is_digit c = true) (dec_nat n).
Proof. apply dec_digits_digits. Qed.

Lemma dec_length n : INT_MIN <= n <= INT_MAX -> (1 <= length (dec n) <= 11)%nat.
Proof.
  unfold INT_MIN, INT_MAX, dec. intros Hn.
  destruct (Z.ltb_spec n 0);
    [pose proof (dec_nat_length (- n) 10)|pose proof (dec_nat_length n 10)]; cbn [length]; lia.
Qed.

(** The characters of a decimal number: digits and the minus sign. *)
Definition num_char (c : Z) : bool := is_digit c || (c =? chr "-").

Lemma dec_num_char n : Forall (fun c => num_char c = true) (dec n).
Proof.
  assert (H : forall m, 0 <= m -> Forall (fun c => num_char c = true) (dec_nat m)).
  { intros m Hm. eapply Forall_impl; [apply dec_nat_digits, Hm|].
    intros c Hc. cbn in Hc. unfold num_char. rewrite Hc. reflexivity. }
  unfold dec. destruct (Z.ltb_spec n 0); [constructor; [reflexivity|]|]; apply H; lia.
Qed.

Lemma num_char_range c : num_char c = true -> 45 <= c <= 57.
Proof.
  unfold num_char, is_digit, chr. cbn.
  rewrite orb_true_iff, andb_true_iff, !Z.leb_le, Z.eqb_eq. lia.
Qed.
