(* ===== verification/Printf.v ===== *)
(** * Formatted output (kservice.c)

    [rt_vsnprintf] and [print_number] as the kernel is configured: 32-bit numbers,
    [RT_PRINTF_PRECISION] on, [RT_PRINTF_SPECIAL] off.  The format and the string
    arguments are C strings (lists of bytes without terminator), the other arguments
    the 32-bit words [va_arg] returns; taking an argument that is not there, or of
    the other kind, is undefined and gives [None].

    The formatting code only ever appends: [if (str < end) *str = c; ++str].  It is
    written once over that operation ([Sink]); the C code is the instance that
    stores into the byte memory, and the list of characters is the instance that
    says what is printed.  Module Format says, apart from the code, how a format is
    read and what each directive prints; the theorems relate the three. *)

From S2P Require Import Prelude Memory Scan.

(** The flags of a conversion. *)
Definition ZEROPAD : Z := 1.
Definition SIGN : Z := 2.
Definition PLUS : Z := 4.
Definition SPACE : Z := 8.
Definition LEFT : Z := 16.
Definition SPECIAL : Z := 32.
Definition LARGE : Z := 64.
(** [type & f] as a condition. *)
Definition flag (type f : Z) : bool := negb (Z.land type f =? 0).

(** Where characters go. *)
Class Sink (Out : Type) := put_char : Out -> Z -> Out.

(** An argument of the call. *)
Inductive Arg :=
| Word (z : Z)                  (* an int, a long or a pointer *)
| Str (s : option (list Z)).    (* a char pointer; [None] is NULL *)

Definition va_word (args : list Arg) : option (Z * list Arg) :=
  match args with Word z :: args => Some (z, args) | _ => None end.
Definition va_str (args : list Arg) : option (option (list Z) * list Arg) :=
  match args with Str s :: args => Some (s, args) | _ => None end.

(** ** Numbers *)

(** [divide(&n, base)]: the digit, and the number that is left. *)
Definition divide (n base : Z) : Z * Z :=
  if base =? 10 then (u32 n mod 10, s32 (u32 n / 10)) else (u32 n mod 16, s32 (u32 n / 16)).

Definition small_digits : list Z := map chr ["0"; "1"; "2"; "3"; "4"; "5"; "6"; "7"; "8"; "9"; "a"; "b"; "c"; "d"; "e"; "f"]%char.
Definition large_digits : list Z := map chr ["0"; "1"; "2"; "3"; "4"; "5"; "6"; "7"; "8"; "9"; "A"; "B"; "C"; "D"; "E"; "F"]%char.

(** [tmp[16]], filled from the last digit; a seventeenth digit would not fit. *)
Fixpoint number_digits (room : nat) (digits : list Z) (num base : Z) : option (list Z) :=
  if num =? 0 then Some []
  else match room with
       | O => None
       | S room =>
           let '(d, num) := divide num base in
           c ← buf_get digits d;
           rest ← number_digits room digits num base;
           Some (c :: rest)
       end.

Definition number_tmp (digits : list Z) (num base : Z) : option (list Z) :=
  if num =? 0 then Some [chr "0"] else number_digits 16 digits num base.

Section Printing.
Context {Out : Type} `{!Sink Out}.

(** A loop that appends [c] [n] times. *)
Definition repeat_char (o : Out) (c n : Z) : Out := Nat.iter (Z.to_nat n) (fun o => put_char o c) o.
(** [while (size-- > 0) put c]: the test that ends the loop decrements as well. *)
Definition pad (o : Out) (c size : Z) : Out * Z := (repeat_char o c size, Z.min size 0 - 1).

(** [while (i-- > 0) put tmp[i]] *)
Definition put_digits (o : Out) (tmp : list Z) : Out := fold_left put_char (rev tmp) o.

Definition print_number (o : Out) (num base s precision type : Z) : option Out :=
  let precision_bak := precision in
  let size := s in
  let digits := if flag type LARGE then large_digits else small_digits in
  let type := if flag type LEFT then Z.land type (Z.lnot ZEROPAD) else type in
  let c := if flag type ZEROPAD then chr "0" else chr " " in
  let '(sign, num) :=
    if flag type SIGN then
      if num <? 0 then (chr "-", s32 (- num))
      else if flag type PLUS then (chr "+", num)
      else if flag type SPACE then (chr " ", num)
      else (0, num)
    else (0, num) in
  tmp ← number_tmp digits num base;
  let i := Z.of_nat (length tmp) in
  let precision := if precision <? i then i else precision in
  let size := size - precision in
  let '(o, size) :=
    if negb (flag type (Z.lor ZEROPAD LEFT)) then
      let size := if negb (sign =? 0) && (0 <? size) then size - 1 else size in
      pad o (chr " ") size
    else (o, size) in
  let '(o, size) := if negb (sign =? 0) then (put_char o sign, size - 1) else (o, size) in
  let '(o, size) := if negb (flag type LEFT) then pad o c size else (o, size) in
  let o := repeat_char o (chr "0") (precision - i) in
  let o := if negb (precision_bak =? 0) then put_digits o tmp else o in
  Some (fst (pad o (chr " ") size)).

(** ** The format *)

Definition isdigit (c : Z) : bool := u32 (c - chr "0") <? 10.
(** The character at [fmt], [0] at the end. *)
Definition at_fmt (fmt : list Z) : Z := match fmt with c :: _ => c | [] => 0 end.

Fixpoint skip_atoi (fmt : list Z) (i : Z) : option (Z * list Z) :=
  match fmt with
  | c :: r => if isdigit c
              then if fits_int (i * 10 + c) then skip_atoi r (i * 10 + c - chr "0") else None
              else Some (i, fmt)
  | [] => Some (i, [])
  end.

(** The flags after the percent sign. *)
Fixpoint parse_flags (fmt : list Z) (flags : Z) : Z * list Z :=
  match fmt with
  | c :: r =>
      if c =? chr "-" then parse_flags r (Z.lor flags LEFT)
      else if c =? chr "+" then parse_flags r (Z.lor flags PLUS)
      else if c =? chr " " then parse_flags r (Z.lor flags SPACE)
      else if c =? chr "#" then parse_flags r (Z.lor flags SPECIAL)
      else if c =? chr "0" then parse_flags r (Z.lor flags ZEROPAD)
      else (flags, fmt)
  | [] => (flags, [])
  end.

(** Field width: digits, or a star that takes an argument. *)
Definition parse_width (fmt : list Z) (args : list Arg) (flags : Z)
  : option (Z * Z * list Z * list Arg) :=
  if isdigit (at_fmt fmt) then '(w, fmt) ← skip_atoi fmt 0; Some (w, flags, fmt, args)
  else if at_fmt fmt =? chr "*" then
    '(w, args) ← va_word args;
    let w := s32 w in
    if w <? 0 then
      if fits_int (- w) then Some (- w, Z.lor flags LEFT, tail fmt, args) else None
    else Some (w, flags, tail fmt, args)
  else Some (-1, flags, fmt, args).

Definition parse_precision (fmt : list Z) (args : list Arg) : option (Z * list Z * list Arg) :=
  if at_fmt fmt =? chr "." then
    let fmt := tail fmt in
    '(p, fmt, args) ← (if isdigit (at_fmt fmt) then '(p, fmt) ← skip_atoi fmt 0; Some (p, fmt, args)
                       else if at_fmt fmt =? chr "*" then '(p, args) ← va_word args; Some (s32 p, tail fmt, args)
                       else Some (-1, fmt, args));
    Some (if p <? 0 then 0 else p, fmt, args)
  else Some (-1, fmt, args).

Definition parse_qualifier (fmt : list Z) : Z * list Z :=
  if (at_fmt fmt =? chr "h") || (at_fmt fmt =? chr "l") then (at_fmt fmt, tail fmt) else (0, fmt).

(** The number of an integer conversion, from its argument. *)
Definition integer_arg (qualifier flags w : Z) : Z :=
  if qualifier =? chr "h" then
    let num := u16 w in if flag flags SIGN then u32 (s16 num) else num
  else u32 w.

(** [case 'c']. *)
Definition print_c (o : Out) (args : list Arg) (flags field_width : Z) : option (Out * list Arg) :=
  let '(o, field_width) :=
    if negb (flag flags LEFT) then (repeat_char o (chr " ") (field_width - 1), Z.min (field_width - 1) 0)
    else (o, field_width) in
  '(c, args) ← va_word args;
  let o := put_char o (u8 c) in
  Some (repeat_char o (chr " ") (field_width - 1), args).

(** [case 's']. *)
Definition print_s (o : Out) (args : list Arg) (flags field_width precision : Z) : option (Out * list Arg) :=
  '(s, args) ← va_str args;
  let s := default (map chr ["("; "N"; "U"; "L"; "L"; ")"]%char) s in
  let len := Z.of_nat (length s) in
  let len := if (0 <? precision) && (precision <? len) then precision else len in
  let '(o, field_width) :=
    if negb (flag flags LEFT)
    then (repeat_char o (chr " ") (field_width - len), Z.min field_width len - 1)
    else (o, field_width) in
  let o := fold_left put_char (take (Z.to_nat len) s) o in
  Some (repeat_char o (chr " ") (field_width - len), args).

(** The conversion character [c] (0 at the end of the format). *)
Definition print_conversion (o : Out) (args : list Arg) (c flags field_width precision qualifier : Z)
  : option (Out * list Arg) :=
  let integer base flags :=
    '(w, args) ← va_word args;
    o ← print_number o (s32 (integer_arg qualifier flags w)) base field_width precision flags;
    Some (o, args) in
  if c =? chr "c" then print_c o args flags field_width
  else if c =? chr "s" then print_s o args flags field_width precision
  else if c =? chr "p" then
    let '(field_width, flags) :=
      if field_width =? -1 then (8, Z.lor flags ZEROPAD) else (field_width, flags) in
    '(w, args) ← va_word args;
    o ← print_number o (s32 w) 16 field_width precision flags;
    Some (o, args)
  else if c =? chr "%" then Some (put_char o (chr "%"), args)
  else if c =? chr "o" then integer 8 flags
  else if c =? chr "X" then integer 16 (Z.lor flags LARGE)
  else if c =? chr "x" then integer 16 flags
  else if (c =? chr "d") || (c =? chr "i") then integer 10 (Z.lor flags SIGN)
  else if c =? chr "u" then integer 10 flags
  else
    let o := put_char o (chr "%") in
    Some (if negb (c =? 0) then put_char o c else o, args).

(** One round of the loop over the format, [fmt] not empty: what is left. *)
Definition format_step (o : Out) (c : Z) (fmt : list Z) (args : list Arg)
  : option (Out * list Z * list Arg) :=
  if negb (c =? chr "%") then Some (put_char o c, fmt, args)
  else
    let '(flags, fmt) := parse_flags fmt 0 in
    '(field_width, flags, fmt, args) ← parse_width fmt args flags;
    '(precision, fmt, args) ← parse_precision fmt args;
    let '(qualifier, fmt) := parse_qualifier fmt in
    '(o, args) ← print_conversion o args (at_fmt fmt) flags field_width precision qualifier;
    Some (o, tail fmt, args).

Fixpoint format_loop (fuel : nat) (o : Out) (fmt : list Z) (args : list Arg) : option Out :=
  match fmt with
  | [] => Some o
  | c :: fmt =>
      match fuel with
      | O => None
      | S fuel =>
          '(o, fmt, args) ← format_step o c fmt args;
          format_loop fuel o fmt args
      end
  end.
End Printing.

(** ** The C code: a pointer into memory, storing below [end] *)

Record Cursor := mk_cursor { cu_mem : Memory; cu_str : Z }.

Definition buffer_sink (end_ : Z) : Sink Cursor := fun o c =>
  mk_cursor (if cu_str o <? end_ then store8 (cu_mem o) (cu_str o) c else cu_mem o) (u32 (cu_str o + 1)).

(** [rt_vsnprintf(buf, size, fmt, args)]: the memory and the result. *)
Definition rt_vsnprintf (m : Memory) (buf size : Z) (fmt : list Z) (args : list Arg)
  : option (Memory * Z) :=
  let end_ := u32 (buf + size) in
  let '(end_, size) := if end_ <? buf then (4294967295, u32 (4294967295 - buf)) else (end_, size) in
  o ← @format_loop Cursor (buffer_sink end_) (S (length fmt)) (mk_cursor m buf) fmt args;
  let m := cu_mem o in
  let m := if 0 <? size
           then if cu_str o <? end_ then store8 m (cu_str o) 0 else store8 m (end_ - 1) 0
           else m in
  Some (m, s32 (cu_str o - buf)).

Definition rt_snprintf (m : Memory) (buf size : Z) (fmt : list Z) (args : list Arg) : option (Memory * Z) :=
  rt_vsnprintf m buf size fmt args.
Definition rt_vsprintf (m : Memory) (buf : Z) (fmt : list Z) (args : list Arg) : option (Memory * Z) :=
  rt_vsnprintf m buf 4294967295 fmt args.
Definition rt_sprintf (m : Memory) (buf : Z) (fmt : list Z) (args : list Arg) : option (Memory * Z) :=
  rt_vsprintf m buf fmt args.

Definition RT_CONSOLEBUF_SIZE : Z := 256.
(** [rt_kprintf] with its buffer [rt_log_buf]: the memory, and how many bytes of the
    buffer go to the console device. *)
Definition rt_kprintf (m : Memory) (rt_log_buf : Z) (fmt : list Z) (args : list Arg) : option (Memory * Z) :=
  '(m, length) ← rt_vsnprintf m rt_log_buf (RT_CONSOLEBUF_SIZE - 1) fmt args;
  let length := u32 length in
  Some (m, if RT_CONSOLEBUF_SIZE - 1 <? length then RT_CONSOLEBUF_SIZE - 1 else length).

(** ** What is printed: the list of characters *)

#[export] Instance list_sink : Sink (list Z) := fun o c => o ++ [c].
Definition formatted (fmt : list Z) (args : list Arg) : option (list Z) :=
  format_loop (S (length fmt)) [] fmt args.

(** The text of a number conversion: [n] places wide (with sign), filled on the left
    with spaces or zeros, or on the right with spaces. *)
Definition spaces (n : Z) : list Z := repeat (chr " ") (Z.to_nat n).
Definition zeros (n : Z) : list Z := repeat (chr "0") (Z.to_nat n).
Definition sign_of (num type : Z) : list Z :=
  if flag type SIGN then
    if num <? 0 then [chr "-"] else if flag type PLUS then [chr "+"]
    else if flag type SPACE then [chr " "] else []
  else [].
Definition magnitude (num type : Z) : Z := if flag type SIGN && (num <? 0) then s32 (- num) else num.

Definition number_text (num base s precision type : Z) : option (list Z) :=
  tmp ← number_tmp (if flag type LARGE then large_digits else small_digits) (magnitude num type) base;
  let i := Z.of_nat (length tmp) in
  let sign := sign_of num type in
  let body := zeros (precision - i) ++ (if precision =? 0 then [] else rev tmp) in
  let fill := s - Z.of_nat (length sign) - Z.max precision i in
  Some (if flag type LEFT then sign ++ body ++ spaces fill
        else if flag type ZEROPAD then sign ++ zeros fill ++ body
        else spaces fill ++ sign ++ body).

(** ** Appending a text *)

Section Puts.
Context {Out : Type} `{!Sink Out}.

Definition puts (o : Out) (t : list Z) : Out := fold_left put_char t o.

Lemma puts_app o t1 t2 : puts o (t1 ++ t2) = puts (puts o t1) t2.
Proof. apply fold_left_app. Qed.

Lemma repeat_puts o c n : repeat_char o c n = puts o (repeat c (Z.to_nat n)).
Proof.
  unfold repeat_char. generalize (Z.to_nat n). clear n. intros n. revert o.
  induction n as [|n IH]; intros o; [reflexivity|]. cbn [repeat puts fold_left].
  fold (puts (put_char o c) (repeat c n)). rewrite <- IH.
  clear IH. induction n as [|n IH]; [reflexivity|]. cbn in *. rewrite IH. reflexivity.
Qed.
End Puts.

(** Clearing [ZEROPAD] when [LEFT] is set leaves the other flags alone. *)
Lemma flag_bit n type : 0 <= n -> flag type (2 ^ n) = Z.testbit type n.
Proof.
  intros Hn. unfold flag.
  destruct (Z.testbit type n) eqn:E.
  - destruct (Z.eqb_spec (Z.land type (2 ^ n)) 0) as [H|]; [|reflexivity].
    apply (f_equal (fun z => Z.testbit z n)) in H.
    rewrite Z.land_spec, E, Z.pow2_bits_true, Z.bits_0 in H by exact Hn. discriminate.
  - assert (H : Z.land type (2 ^ n) = 0).
    { apply Z.bits_inj'. intros k Hk. rewrite Z.land_spec, Z.bits_0, Z.pow2_bits_eqb by lia.
      destruct (Z.eqb_spec n k) as [<-|]; [rewrite E; reflexivity | apply andb_false_r]. }
    rewrite H. reflexivity.
Qed.

Lemma flag_clear n type : 0 < n -> flag (Z.land type (Z.lnot ZEROPAD)) (2 ^ n) = flag type (2 ^ n).
Proof.
  intros Hn. rewrite !flag_bit, Z.land_spec, Z.lnot_spec by lia. unfold ZEROPAD.
  rewrite (Z.bits_above_log2 1 n ltac:(lia) Hn). apply andb_true_r.
Qed.

Lemma flag_or type : flag type (Z.lor ZEROPAD LEFT) = flag type ZEROPAD || flag type LEFT.
Proof.
  unfold flag. rewrite Z.land_lor_distr_r.
  destruct (Z.eqb_spec (Z.land type ZEROPAD) 0) as [->|H0]; cbn [negb orb].
  - rewrite Z.lor_0_l. reflexivity.
  - apply negb_true_iff, Z.eqb_neq. intros E. apply Z.lor_eq_0_iff in E. tauto.
Qed.

Lemma print_number_text {Out} `{!Sink Out} (o : Out) num base s precision type :
  print_number o num base s precision type = puts o <$> number_text num base s precision type.
Proof.
  unfold print_number, number_text.
  set (ty := if flag type LEFT then Z.land type (Z.lnot ZEROPAD) else type).
  assert (Hflag : forall n, 0 < n -> flag ty (2 ^ n) = flag type (2 ^ n)).
  { intros n Hn. unfold ty. destruct (flag type LEFT); [apply flag_clear; exact Hn | reflexivity]. }
  assert (Hz : flag ty ZEROPAD = negb (flag type LEFT) && flag type ZEROPAD).
  { unfold ty. destruct (flag type LEFT); [|reflexivity]. unfold flag.
    rewrite <- Z.land_assoc. change (Z.land (Z.lnot ZEROPAD) ZEROPAD) with 0. rewrite Z.land_0_r. reflexivity. }
  assert (Hl : flag ty LEFT = flag type LEFT) by apply (Hflag 4 eq_refl).
  assert (Hsign : (if flag ty SIGN then
      if num <? 0 then (chr "-", s32 (- num))
      else if flag ty PLUS then (chr "+", num) else if flag ty SPACE then (chr " ", num) else (0, num)
    else (0, num)) = (hd 0 (sign_of num type), magnitude num type) /\
    (sign_of num type = [] \/ exists c, sign_of num type = [c] /\ c <> 0)).
  { unfold sign_of, magnitude.
    rewrite (Hflag 1 eq_refl : flag ty SIGN = _), (Hflag 2 eq_refl : flag ty PLUS = _),
      (Hflag 3 eq_refl : flag ty SPACE = _).
    change (flag type (2 ^ 1)) with (flag type SIGN). change (flag type (2 ^ 2)) with (flag type PLUS).
    change (flag type (2 ^ 3)) with (flag type SPACE).
    destruct (flag type SIGN), (num <? 0), (flag type PLUS), (flag type SPACE); cbn [andb hd];
      (split; [reflexivity|]); eauto; right; eexists; (split; [reflexivity|discriminate]). }
  destruct Hsign as [-> Hsign]. cbv beta iota.
  destruct (number_tmp _ (magnitude num type) base) as [tmp|]; cbn [mbind option_bind fmap option_fmap option_map]; [|reflexivity].
  set (i := Z.of_nat (length tmp)).
  assert (Hprec : (if precision <? i then i else precision) = Z.max precision i)
    by (destruct (Z.ltb_spec precision i); lia). rewrite Hprec.
  rewrite flag_or, Hl, Hz. unfold pad.
  assert (Ezeros : zeros (Z.max precision i - i) = zeros (precision - i)) by (unfold zeros; f_equal; lia).
  assert (Hdig : forall o, (if negb (precision =? 0) then put_digits o tmp else o) =
            puts o (if precision =? 0 then [] else rev tmp)) by (intros o'; destruct (precision =? 0); reflexivity).
  assert (Hrep : forall (o : Out) c n k, Z.to_nat n = Z.to_nat k -> repeat_char o c n = puts o (repeat c (Z.to_nat k)))
    by (intros; rewrite repeat_puts; congruence).
  assert (Hnone : forall (o : Out) c n, n <= 0 -> repeat_char o c n = o)
    by (intros; rewrite repeat_puts, Z2Nat.nonpos by assumption; reflexivity).
  destruct Hsign as [-> | (c & -> & Hc)]; cbn [hd length].
  - cbn [Z.eqb negb andb app Z.of_nat]. rewrite Z.sub_0_r.
    destruct (flag type LEFT); cbn [negb andb orb]; [|destruct (flag type ZEROPAD); cbn [negb andb orb]];
      f_equal; rewrite Hdig, (repeat_puts _ _ (Z.max precision i - i)); fold (zeros (Z.max precision i - i));
      rewrite Ezeros, ?puts_app; cbn [fst].
    + unfold spaces. rewrite <- repeat_puts. reflexivity.
    + rewrite Hnone by lia. unfold zeros at 2. rewrite <- repeat_puts. reflexivity.
    + rewrite Hnone, (Hnone _ _ (Z.min _ _ - 1)) by lia. unfold spaces. rewrite <- repeat_puts. reflexivity.
  - destruct (Z.eqb_spec c 0) as [|_]; [contradiction|]. cbn [negb andb]. change (Z.of_nat 1) with 1.
    destruct (flag type LEFT); cbn [negb andb orb]; [|destruct (flag type ZEROPAD); cbn [negb andb orb]];
      f_equal; rewrite Hdig, (repeat_puts _ _ (Z.max precision i - i)); fold (zeros (Z.max precision i - i));
      rewrite Ezeros, ?puts_app; cbn [fst].
    + unfold spaces. rewrite <- repeat_puts. cbn. f_equal. lia.
    + rewrite Hnone by lia. unfold zeros at 2. rewrite <- repeat_puts. cbn.
      replace (s - Z.max precision i - 1) with (s - 1 - Z.max precision i) by lia. reflexivity.
    + rewrite Hnone, (Hnone _ _ (Z.min _ _ - 1 - 1)) by (destruct (0 <? _); lia).
      unfold spaces. rewrite <- repeat_puts.
      rewrite (repeat_puts o), (repeat_puts o). cbn.
      replace (Z.to_nat (if 0 <? s - Z.max precision i then s - Z.max precision i - 1 else s - Z.max precision i))
        with (Z.to_nat (s - 1 - Z.max precision i)) by (destruct (Z.ltb_spec 0 (s - Z.max precision i)); lia).
      reflexivity.
Qed.

(** ** Two sinks that stay related *)

Section Related.
Context {A B : Type} {SA : Sink A} {SB : Sink B} (R : A -> B -> Prop).
Hypothesis put_related : forall a b c, R a b -> R (put_char a c) (put_char b c).

(** Results with the rest of the arguments, and of the format. *)
Definition rel1 {X} (p : A * X) (q : B * X) : Prop := R p.1 q.1 /\ p.2 = q.2.
Definition rel2 {X Y} (p : A * X * Y) (q : B * X * Y) : Prop := rel1 p.1 q.1 /\ p.2 = q.2.

Lemma puts_related t a b : R a b -> R (puts a t) (puts b t).
Proof. unfold puts. revert a b. induction t; cbn; auto. Qed.

Lemma repeat_related a b c n : R a b -> R (repeat_char a c n) (repeat_char b c n).
Proof. rewrite !repeat_puts. apply puts_related. Qed.

Lemma print_number_related a b num base s precision type :
  R a b -> option_Forall2 R (print_number a num base s precision type) (print_number b num base s precision type).
Proof.
  intros H. rewrite !print_number_text. destruct (number_text _ _ _ _ _); cbn; constructor.
  apply puts_related. exact H.
Qed.

Lemma print_c_related a b args flags w :
  R a b -> option_Forall2 rel1 (print_c a args flags w) (print_c b args flags w).
Proof.
  intros H. unfold print_c. destruct (negb (flag flags LEFT));
    (destruct (va_word args) as [[c args']|]; cbn; constructor; split; [|reflexivity]; cbn;
     repeat first [apply repeat_related | apply put_related]; exact H).
Qed.

Lemma print_s_related a b args flags w p :
  R a b -> option_Forall2 rel1 (print_s a args flags w p) (print_s b args flags w p).
Proof.
  intros H. unfold print_s. destruct (va_str args) as [[s args']|]; cbn; [|constructor].
  destruct (negb (flag flags LEFT)); constructor; (split; [|reflexivity]); cbn;
    apply repeat_related; change (fold_left put_char ?t ?o) with (puts o t); apply puts_related;
    try apply repeat_related; exact H.
Qed.

Lemma bind_number_related {X} a b num base s precision type (x : X) :
  R a b -> option_Forall2 rel1
    (o ← print_number a num base s precision type; Some (o, x))
    (o ← print_number b num base s precision type; Some (o, x)).
Proof.
  intros H. destruct (print_number_related a b num base s precision type H); cbn; constructor.
  split; [assumption | reflexivity].
Qed.

Ltac integer_conversion H args :=
  destruct (va_word args) as [[z args']|]; cbn; [apply bind_number_related; exact H | constructor].

Lemma print_conversion_related a b args c flags w p q :
  R a b -> option_Forall2 rel1 (print_conversion a args c flags w p q) (print_conversion b args c flags w p q).
Proof.
  intros H. unfold print_conversion.
  destruct (c =? chr "c"); [apply print_c_related; exact H|].
  destruct (c =? chr "s"); [apply print_s_related; exact H|].
  destruct (c =? chr "p").
  { destruct (w =? -1); destruct (va_word args) as [[z args']|]; cbn; try constructor;
      apply bind_number_related; exact H. }
  destruct (c =? chr "%"); [constructor; split; [apply put_related; exact H | reflexivity]|].
  destruct (c =? chr "o"); [integer_conversion H args|].
  destruct (c =? chr "X"); [integer_conversion H args|].
  destruct (c =? chr "x"); [integer_conversion H args|].
  destruct ((c =? chr "d") || (c =? chr "i")); [integer_conversion H args|].
  destruct (c =? chr "u"); [integer_conversion H args|].
  apply Some_Forall2. split; [cbn | reflexivity]. destruct (negb (c =? 0)); repeat apply put_related; exact H.
Qed.

Lemma format_step_related a b c fmt args :
  R a b -> option_Forall2 rel2 (format_step a c fmt args) (format_step b c fmt args).
Proof.
  intros H. unfold format_step. destruct (negb (c =? chr "%")).
  { constructor. split; [split; [apply put_related; exact H|]|]; reflexivity. }
  destruct (parse_flags fmt 0) as [flags fmt1].
  destruct (parse_width fmt1 args flags) as [[[[w flags1] fmt2] args1]|]; cbn; [|constructor].
  destruct (parse_precision fmt2 args1) as [[[p fmt3] args2]|]; cbn; [|constructor].
  destruct (parse_qualifier fmt3) as [q fmt4].
  destruct (print_conversion_related a b args2 (at_fmt fmt4) flags1 w p q H) as [[a' ar] [b' br] [H1 H2]|]; cbn in *;
    constructor. subst br. split; [split; [exact H1 | reflexivity] | reflexivity].
Qed.

Lemma format_loop_related fuel a b fmt args :
  R a b -> option_Forall2 R (format_loop fuel a fmt args) (format_loop fuel b fmt args).
Proof.
  revert a b fmt args. induction fuel as [|fuel IH]; intros a b fmt args H; destruct fmt as [|c fmt];
    cbn [format_loop]; try (constructor; assumption).
  destruct (format_step_related a b c fmt args H) as [[[a' f1] ar] [[b' f2] br] [[H1 H2] H3]|]; cbn in *;
    [|constructor].
  subst f2 br. apply IH. exact H1.
Qed.
End Related.

(** ** The loop over the format ends *)

Lemma parse_flags_le fmt flags : (length (snd (parse_flags fmt flags)) <= length fmt)%nat.
Proof.
  revert flags. induction fmt as [|c r IH]; intros flags; [reflexivity|]. cbn.
  repeat (destruct (_ =? _); [etransitivity; [apply IH|lia]|]). cbn. lia.
Qed.

Lemma skip_atoi_le fmt i j r : skip_atoi fmt i = Some (j, r) -> (length r <= length fmt)%nat.
Proof.
  revert i. induction fmt as [|c fmt IH]; intros i; cbn; [intros [= _ <-]; cbn; lia|].
  destruct (isdigit c); [|intros [= _ <-]; cbn; lia].
  destruct (fits_int _); [|discriminate]. intros H%IH. lia.
Qed.

Lemma tail_le {A} (l : list A) : (length (tail l) <= length l)%nat.
Proof. destruct l; cbn; lia. Qed.

Lemma format_step_shorter {Out} `{!Sink Out} (o : Out) c fmt args o' fmt' args' :
  format_step o c fmt args = Some (o', fmt', args') -> (length fmt' <= length fmt)%nat.
Proof.
  unfold format_step. destruct (negb _); [intros [= _ <- _]; lia|].
  pose proof (parse_flags_le fmt 0) as H1. destruct (parse_flags fmt 0) as [flags f1]. cbn in H1.
  destruct (parse_width f1 args flags) as [[[[w fl] f2] a2]|] eqn:E2; cbn; [|discriminate].
  destruct (parse_precision f2 a2) as [[[p f3] a3]|] eqn:E3; cbn; [|discriminate].
  destruct (parse_qualifier f3) as [q f4] eqn:E4.
  destruct (print_conversion _ _ _ _ _ _ _) as [[o1 a4]|]; cbn; [|discriminate]. intros [= _ <- _].
  pose proof (tail_le f4). pose proof (tail_le f3). pose proof (tail_le f2). pose proof (tail_le f1).
  assert (length f2 <= length f1)%nat.
  { unfold parse_width in E2. destruct (isdigit (at_fmt f1)).
    - destruct (skip_atoi f1 0) as [[v r]|] eqn:E; cbn in E2; [|discriminate].
      injection E2 as _ _ <- _. exact (skip_atoi_le _ _ _ _ E).
    - destruct (at_fmt f1 =? chr "*"); [|injection E2 as _ _ <- _; lia].
      destruct (va_word args) as [[v r]|]; cbn in E2; [|discriminate].
      destruct (s32 v <? 0); [destruct (fits_int _); [|discriminate]|]; injection E2 as _ _ <- _; lia. }
  assert (length f3 <= length f2)%nat.
  { unfold parse_precision in E3. destruct (at_fmt f2 =? chr "."); [|injection E3 as _ <- _; lia].
    destruct (isdigit (at_fmt (tail f2))).
    - destruct (skip_atoi (tail f2) 0) as [[v r]|] eqn:E; cbn in E3; [|discriminate].
      injection E3 as _ <- _. apply skip_atoi_le in E. lia.
    - pose proof (tail_le (tail f2)). destruct (at_fmt (tail f2) =? chr "*"); [|injection E3 as _ <- _; lia].
      destruct (va_word a2) as [[v r]|]; cbn in E3; [|discriminate]. injection E3 as _ <- _. lia. }
  assert (length f4 <= length f3)%nat.
  { unfold parse_qualifier in E4. destruct (_ || _); injection E4 as _ <-; lia. }
  lia.
Qed.

(** More fuel than characters changes nothing. *)
Lemma format_loop_fuel {Out} `{!Sink Out} n m (o : Out) fmt args :
  (length fmt < n)%nat -> (length fmt < m)%nat -> format_loop n o fmt args = format_loop m o fmt args.
Proof.
  revert m o fmt args. induction n as [|n IH]; intros m o fmt args Hn Hm; [lia|].
  destruct m as [|m]; [lia|]. destruct fmt as [|c fmt]; [reflexivity|]. cbn [format_loop length] in *.
  destruct (format_step o c fmt args) as [[[o' f'] a']|] eqn:E; cbn; [|reflexivity].
  apply format_step_shorter in E. apply IH; lia.
Qed.

(** ** The code prints the text *)

Lemma format_loop_text {Out} `{!Sink Out} (o : Out) fmt args :
  format_loop (S (length fmt)) o fmt args = puts o <$> formatted fmt args.
Proof.
  unfold formatted.
  destruct (format_loop_related (fun (a : Out) (l : list Z) => a = puts o l)) with
    (fuel := S (length fmt)) (a := o) (b := @nil Z) (fmt := fmt) (args := args) as [x y Hxy|];
    [| reflexivity | cbn; rewrite Hxy; reflexivity | reflexivity].
  intros a b c ->. change (put_char b c) with (b ++ [c]). rewrite puts_app. reflexivity.
Qed.

(** Storing a text from [str] on, below [e]. *)
Lemma puts_buffer e m str t :
  0 <= str -> str + Z.of_nat (length t) < 4294967296 ->
  let o := @puts Cursor (buffer_sink e) (mk_cursor m str) t in
  cu_str o = str + Z.of_nat (length t) /\
  forall x, load8 (cu_mem o) x =
    if (str <=? x) && (x <? str + Z.of_nat (length t)) && (x <? e)
    then u8 (nth (Z.to_nat (x - str)) t 0) else load8 m x.
Proof.
  cbv zeta. revert m str. induction t as [|c t IH]; intros m str H0 Hlen.
  - cbn [puts fold_left cu_str cu_mem length Z.of_nat]. rewrite Z.add_0_r. split; [reflexivity|].
    intros x. destruct (Z.leb_spec str x), (Z.ltb_spec x str); try lia; reflexivity.
  - cbn [length] in Hlen.
    assert (Hput : @puts Cursor (buffer_sink e) (mk_cursor m str) (c :: t) =
      @puts Cursor (buffer_sink e) (mk_cursor (if str <? e then store8 m str c else m) (str + 1)) t).
    { unfold puts. cbn [fold_left]. f_equal. unfold put_char, buffer_sink. cbn [cu_mem cu_str].
      rewrite u32_small by lia. reflexivity. }
    rewrite Hput.
    destruct (IH (if str <? e then store8 m str c else m) (str + 1) ltac:(lia) ltac:(lia)) as [Hs Hm].
    rewrite Hs. cbn [length]. split; [lia|]. intros x. rewrite Hm.
    assert (Hload : load8 (if str <? e then store8 m str c else m) x =
                    if (x =? str) && (str <? e) then u8 c else load8 m x).
    { destruct (str <? e); [rewrite load8_store8; destruct (x =? str); reflexivity|]. rewrite andb_false_r. reflexivity. }
    rewrite Hload.
    destruct (Z.eqb_spec x str) as [E|Hne].
    + subst x. destruct (Z.leb_spec (str + 1) str); [lia|]. cbn [andb]. rewrite Z.leb_refl, Z.sub_diag.
      destruct (Z.ltb_spec str (str + Z.of_nat (S (length t)))); [|lia]. cbn [andb nth Z.to_nat].
      destruct (str <? e); reflexivity.
    + cbn [andb]. destruct (Z.leb_spec (str + 1) x), (Z.leb_spec str x); try lia; cbn [andb]; [|reflexivity].
      replace (str + 1 + Z.of_nat (length t)) with (str + Z.of_nat (S (length t))) by lia.
      replace (Z.to_nat (x - str)) with (S (Z.to_nat (x - (str + 1)))) by lia. reflexivity.
Qed.

(** The C string [t] is at [a]. *)
Definition string_at (m : Memory) (a : Z) (t : list Z) : Prop :=
  (forall i, 0 <= i < Z.of_nat (length t) -> load8 m (a + i) = u8 (nth (Z.to_nat i) t 0)) /\
  load8 m (a + Z.of_nat (length t)) = 0.

(** What fits between [buf] and the end of the address space. *)
Definition buffer_room (buf size : Z) : Z := Z.min size (4294967295 - buf).

(** The terminator goes behind the text, or into the last byte. *)
Lemma terminated_string m m1 buf size t :
  0 < size ->
  (forall x, load8 m1 x = if (buf <=? x) && (x <? buf + Z.of_nat (length t)) && (x <? buf + size)
                          then u8 (nth (Z.to_nat (x - buf)) t 0) else load8 m x) ->
  let str := buf + Z.of_nat (length t) in
  let m' := if str <? buf + size then store8 m1 str 0 else store8 m1 (buf + size - 1) 0 in
  string_at m' buf (take (Z.to_nat (size - 1)) t) /\
  forall x, x < buf \/ buf + size <= x \/ str < x -> load8 m' x = load8 m x.
Proof.
  intros Hpos Hmem str m'.
  assert (Hm' : m' = store8 m1 (buf + Z.min (Z.of_nat (length t)) (size - 1)) 0).
  { unfold m', str. destruct (Z.ltb_spec (buf + Z.of_nat (length t)) (buf + size)); f_equal; lia. }
  rewrite Hm'. clear m' Hm'. unfold string_at. rewrite length_take.
  replace (Z.of_nat (Z.to_nat (size - 1) `min` length t)) with (Z.min (Z.of_nat (length t)) (size - 1)) by lia.
  split; [split|].
  - intros i Hi. rewrite load8_store8, nth_take by lia.
    destruct (Z.eqb_spec (buf + i) (buf + Z.min (Z.of_nat (length t)) (size - 1))); [lia|].
    rewrite Hmem. destruct (Z.leb_spec buf (buf + i)); [|lia].
    destruct (Z.ltb_spec (buf + i) (buf + Z.of_nat (length t))); [|lia].
    destruct (Z.ltb_spec (buf + i) (buf + size)); [|lia]. cbn [andb].
    replace (buf + i - buf) with i by lia. reflexivity.
  - rewrite load8_store8, Z.eqb_refl. reflexivity.
  - intros x Hx. rewrite load8_store8.
    destruct (Z.eqb_spec x (buf + Z.min (Z.of_nat (length t)) (size - 1))); [unfold str in Hx; lia|]. rewrite Hmem.
    unfold str in Hx. destruct (Z.leb_spec buf x), (Z.ltb_spec x (buf + size)), (Z.ltb_spec x (buf + Z.of_nat (length t))); try lia; rewrite ?andb_false_r; reflexivity.
Qed.

Lemma vsnprintf_text m buf size fmt args :
  0 < buf < 4294967295 -> 0 <= size < 4294967296 ->
  let room := buffer_room buf size in
  match formatted fmt args with
  | None => rt_vsnprintf m buf size fmt args = None
  | Some t =>
      buf + Z.of_nat (length t) < 4294967296 ->
      exists m', rt_vsnprintf m buf size fmt args = Some (m', s32 (Z.of_nat (length t))) /\
        (forall x, x < buf \/ buf + room <= x \/ buf + Z.of_nat (length t) < x -> load8 m' x = load8 m x) /\
        (0 < room -> string_at m' buf (take (Z.to_nat (room - 1)) t))
  end.
Proof.
  intros Hb Hs room. unfold rt_vsnprintf.
  assert (Hend : (if u32 (buf + size) <? buf then (4294967295, u32 (4294967295 - buf)) else (u32 (buf + size), size))
                 = (buf + room, room)).
  { unfold room, buffer_room. destruct (Z.ltb_spec (buf + size) 4294967296).
    - rewrite u32_small by lia. destruct (Z.ltb_spec (buf + size) buf); [lia|]. f_equal; lia.
    - rewrite (u32_small (_ - _)) by lia. unfold u32.
      rewrite <- (Z.mod_unique (buf + size) 4294967296 1 (buf + size - 4294967296)) by lia.
      destruct (Z.ltb_spec (buf + size - 4294967296) buf); [|lia]. f_equal; lia. }
  rewrite Hend. clear Hend. rewrite format_loop_text.
  destruct (formatted fmt args) as [t|]; cbn [fmap option_fmap option_map mbind option_bind]; [|reflexivity].
  intros Hlen. destruct (puts_buffer (buf + room) m buf t ltac:(lia) Hlen) as [Hstr Hmem].
  set (o := @puts Cursor _ _ t) in *. rewrite Hstr.
  replace (buf + Z.of_nat (length t) - buf) with (Z.of_nat (length t)) by lia.
  eexists. split; [reflexivity|]. destruct (Z.ltb_spec 0 room) as [Hpos|].
  - destruct (terminated_string m (cu_mem o) buf room t Hpos Hmem) as [Hat Hout]. split; [exact Hout | intros _; exact Hat].
  - split; [|lia]. intros x Hx. rewrite Hmem.
    destruct (Z.leb_spec buf x), (Z.ltb_spec x (buf + room)), (Z.ltb_spec x (buf + Z.of_nat (length t))); try lia; rewrite ?andb_false_r; reflexivity.
Qed.

(** ** Numbers in decimal *)

Lemma u32_of_s32 v : 0 <= v < 4294967296 -> u32 (s32 v) = v.
Proof. intros Hv. rewrite u32_s32. apply u32_small. exact Hv. Qed.

Lemma s32_eq0 v : 0 <= v < 4294967296 -> (s32 v =? 0) = (v =? 0).
Proof.
  intros Hv. destruct (Z.eqb_spec v 0) as [->|]; [reflexivity|].
  apply Z.eqb_neq. intros E. apply (f_equal u32) in E. rewrite u32_of_s32 in E by exact Hv. change (u32 0) with 0 in E. contradiction.
Qed.

Definition digit_string (type : Z) : list Z := if flag type LARGE then large_digits else small_digits.

Lemma digit_string_get type d : 0 <= d < 16 -> is_Some (buf_get (digit_string type) d).
Proof.
  intros Hd. assert (Hin : In d (seqZ 0 16)) by (apply list_elem_of_In, elem_of_seqZ; lia).
  cbv in Hin. unfold digit_string. destruct (flag type LARGE);
    repeat (destruct Hin as [<-|Hin]; [eexists; reflexivity|]); contradiction.
Qed.

Lemma digit_string_dec type d : 0 <= d < 10 -> buf_get (digit_string type) d = Some (chr "0" + d).
Proof.
  intros Hd. assert (Hin : In d (seqZ 0 10)) by (apply list_elem_of_In, elem_of_seqZ; lia).
  cbv in Hin. unfold digit_string. destruct (flag type LARGE);
    repeat (destruct Hin as [<-|Hin]; [reflexivity|]); contradiction.
Qed.

(** One digit of an unsigned number. *)
Lemma divide_u32 v base :
  0 <= v < 4294967296 ->
  let b := if base =? 10 then 10 else 16 in divide (s32 v) base = (v mod b, s32 (v / b)).
Proof. intros Hv. unfold divide. rewrite u32_of_s32 by exact Hv. destruct (base =? 10); reflexivity. Qed.

(** [k] digits are enough for numbers below [b ^ k]. *)
Lemma number_digits_fit k room type v base :
  (k <= room)%nat -> 0 <= v < 4294967296 -> v < (if base =? 10 then 10 else 16) ^ Z.of_nat k ->
  exists tmp, number_digits room (digit_string type) (s32 v) base = Some tmp /\ (length tmp <= k)%nat.
Proof.
  revert room v. induction k as [|k IH]; intros room v Hk Hv Hlt.
  { assert (v = 0) as -> by (cbn in Hlt; lia). exists []. destruct room; split; reflexivity. }
  destruct room as [|room]; [lia|]. cbn [number_digits]. rewrite s32_eq0 by exact Hv.
  destruct (Z.eqb_spec v 0); [exists []; split; [reflexivity | cbn; lia]|].
  rewrite divide_u32 by exact Hv. set (b := if base =? 10 then 10 else 16) in *.
  assert (Hb : 10 <= b <= 16) by (unfold b; destruct (base =? 10); lia).
  destruct (digit_string_get type (v mod b)) as [c Hc]; [pose proof (Z.mod_pos_bound v b); lia|].
  rewrite Hc. cbn [mbind option_bind].
  destruct (IH room (v / b)) as (tmp & Htmp & Hlen); [lia | |
    rewrite Nat2Z.inj_succ, Z.pow_succ_r in Hlt by lia; apply Z.div_lt_upper_bound; lia |].
  { split; [apply Z.div_pos; lia | apply Z.div_lt_upper_bound; lia]. }
  rewrite Htmp. exists (c :: tmp). split; [reflexivity | cbn; lia].
Qed.

Lemma number_digits_dec fuel room type v tmp :
  0 < v < 4294967296 -> v < 10 ^ Z.of_nat fuel ->
  number_digits room (digit_string type) (s32 v) 10 = Some tmp -> rev tmp = dec_digits fuel v [].
Proof.
  revert room v tmp. induction fuel as [|f IH]; intros room v tmp Hv Hlt; [cbn in Hlt; lia|].
  destruct room as [|room]; cbn [number_digits]; rewrite s32_eq0 by lia;
    (destruct (Z.eqb_spec v 0); [lia|]); [discriminate|].
  rewrite divide_u32 by lia. cbn [Z.eqb Pos.eqb].
  rewrite digit_string_dec by (pose proof (Z.mod_pos_bound v 10); lia). cbn [mbind option_bind].
  destruct (number_digits room _ _ 10) as [rest|] eqn:E; cbn; [|discriminate]. intros [= <-]. cbn [rev].
  destruct (Z.ltb_spec v 10).
  - rewrite Z.div_small in E by lia. destruct room; cbn in E; injection E as <-; reflexivity.
  - assert (0 < v / 10) by (apply Z.div_str_pos; lia).
    rewrite (IH room (v / 10) rest); [symmetry; apply dec_digits_app| | | exact E].
    + split; [assumption | apply Z.div_lt_upper_bound; lia].
    + rewrite Nat2Z.inj_succ, Z.pow_succ_r in Hlt by lia. apply Z.div_lt_upper_bound; lia.
Qed.

(** A 32-bit number has at most ten digits: [tmp] does not overflow. *)
Lemma number_tmp_fits type num base :
  exists tmp, number_tmp (digit_string type) (s32 num) base = Some tmp /\ (length tmp <= 10)%nat.
Proof.
  unfold number_tmp. destruct (s32 num =? 0); [eexists; split; [reflexivity | cbn; lia]|].
  assert (Hnum : s32 num = s32 (u32 num)).
  { unfold s32, u32. rewrite <- Zplus_mod_idemp_l with (a := num). reflexivity. }
  rewrite Hnum. pose proof (Z.mod_pos_bound num 4294967296 eq_refl).
  apply number_digits_fit; [lia | exact H |].
  eapply Z.lt_le_trans; [apply H|]. destruct (base =? 10); vm_compute; discriminate.
Qed.

Lemma number_tmp_dec type v tmp :
  0 <= v < 4294967296 -> number_tmp (digit_string type) (s32 v) 10 = Some tmp -> rev tmp = dec_nat v.
Proof.
  intros Hv. unfold number_tmp. rewrite s32_eq0 by exact Hv. destruct (Z.eqb_spec v 0) as [->|].
  - intros [= <-]. reflexivity.
  - apply number_digits_dec; cbn; lia.
Qed.

(** ** Reading a printed number back *)

Lemma span_spaces a r : snd (span is_space (spaces a ++ r)) = snd (span is_space r).
Proof.
  unfold spaces. induction (Z.to_nat a) as [|n IH]; [reflexivity|]. cbn [repeat app span].
  change (is_space (chr " ")) with true. cbv iota.
  destruct (span is_space (repeat (chr " ") n ++ r)) as [m q]. exact IH.
Qed.

Lemma zeros_digits n : Forall (fun c => is_digit c = true) (zeros n).
Proof. unfold zeros. induction (Z.to_nat n); cbn; constructor; [reflexivity | assumption]. Qed.

Lemma digits_val_zeros n ds : digits_val (zeros n ++ ds) = digits_val ds.
Proof.
  unfold digits_val, zeros. rewrite fold_left_app. f_equal.
  induction (Z.to_nat n) as [|k IH]; [reflexivity | exact IH].
Qed.

(** Spaces, a sign, digits, spaces: what [%d] prints, and how [strtol] reads it. *)
Lemma strtol10_printed a sign ds b :
  ds <> [] -> Forall (fun c => is_digit c = true) ds ->
  In sign [[]; [chr "-"]; [chr "+"]; [chr " "]] ->
  strtol10 (spaces a ++ sign ++ ds ++ spaces b) =
    if bool_decide (sign = [chr "-"]) then Z.max INT_MIN (- digits_val ds) else Z.min INT_MAX (digits_val ds).
Proof.
  intros Hne Hd Hsign.
  assert (Hspan : fst (span is_digit (ds ++ spaces b)) = ds).
  { unfold spaces. destruct (Z.to_nat b) as [|n]; [rewrite app_nil_r, span_all by exact Hd; reflexivity|].
    cbn [repeat]. rewrite span_stop by (exact Hd || reflexivity). reflexivity. }
  assert (Hread : forall r, snd (span is_space r) = ds ++ spaces b -> strtol10 r = Z.min INT_MAX (digits_val ds)).
  { intros r Hr. unfold strtol10. rewrite Hr. destruct ds as [|c ds]; [congruence|].
    inversion Hd as [|? ? Hc _]; subst. cbn [app].
    rewrite (is_digit_not c (chr "-") Hc), (is_digit_not c (chr "+") Hc) by reflexivity.
    change (c :: ds ++ spaces b) with ((c :: ds) ++ spaces b). rewrite Hspan. reflexivity. }
  assert (Hnospace : snd (span is_space (ds ++ spaces b)) = ds ++ spaces b).
  { destruct ds as [|c ds]; [congruence|]. inversion Hd as [|? ? Hc _]; subst. cbn [app span].
    rewrite is_digit_not_space by exact Hc. reflexivity. }
  destruct Hsign as [<-|[<-|[<-|[<-|[]]]]]; cbn [bool_decide decide_rel]; cbn [app].
  - rewrite bool_decide_false by discriminate. apply Hread. rewrite span_spaces. exact Hnospace.
  - rewrite bool_decide_true by reflexivity. unfold strtol10. rewrite span_spaces. cbn [span].
    change (is_space (chr "-")) with false. cbn [snd]. change (chr "-" =? chr "-") with true. cbv iota beta.
    rewrite Hspan. reflexivity.
  - rewrite bool_decide_false by discriminate. unfold strtol10. rewrite span_spaces. cbn [span].
    change (is_space (chr "+")) with false. cbn [snd]. change (chr "+" =? chr "-") with false.
    change (chr "+" =? chr "+") with true. cbv iota beta. rewrite Hspan. reflexivity.
  - rewrite bool_decide_false by discriminate. apply Hread. rewrite span_spaces. cbn [span].
    change (is_space (chr " ")) with true. cbv iota.
    destruct (span is_space (ds ++ spaces b)) as [x y]. exact Hnospace.
Qed.

(** The text of a signed decimal conversion reads as the number. *)
Lemma decimal_text_reads n s precision type :
  INT_MIN <= n <= INT_MAX -> precision <> 0 -> flag type SIGN = true ->
  exists t, number_text n 10 s precision type = Some t /\ strtol10 t = n.
Proof.
  intros Hn Hp Hs. unfold number_text, sign_of, magnitude. rewrite Hs. cbn [andb].
  assert (Hmag : (if n <? 0 then s32 (- n) else n) = s32 (Z.abs n)).
  { destruct (Z.ltb_spec n 0); [f_equal; lia|]. rewrite Z.abs_eq, s32_small by lia. reflexivity. }
  rewrite Hmag. destruct (number_tmp_fits type (Z.abs n) 10) as (tmp & Htmp & _).
  pose proof Htmp as Hrev. apply number_tmp_dec in Hrev; [|unfold INT_MIN, INT_MAX in Hn; lia].
  unfold digit_string in Htmp. rewrite Htmp. cbn [mbind option_bind]. eexists. split; [reflexivity|].
  destruct (Z.eqb_spec precision 0); [contradiction|]. rewrite Hrev.
  set (sign := if n <? 0 then _ else _). set (k := precision - _). set (fill := s - _ - _). clearbody k fill.
  assert (Hsign : In sign [[]; [chr "-"]; [chr "+"]; [chr " "]]).
  { unfold sign. destruct (n <? 0), (flag type PLUS), (flag type SPACE); cbn; tauto. }
  assert (Hneg : bool_decide (sign = [chr "-"]) = (n <? 0)).
  { unfold sign. destruct (n <? 0), (flag type PLUS), (flag type SPACE); reflexivity. }
  assert (Hgoal : forall a k b, strtol10 (spaces a ++ sign ++ (zeros k ++ dec_nat (Z.abs n)) ++ spaces b) = n).
  { intros a k' b. pose proof (dec_nat_digits (Z.abs n) ltac:(lia)) as Hd.
    rewrite strtol10_printed, Hneg, digits_val_zeros; [| | |exact Hsign].
    - unfold dec_nat. rewrite dec_digits_val by (unfold INT_MIN, INT_MAX in Hn; cbn; lia).
      unfold INT_MIN, INT_MAX in *. destruct (Z.ltb_spec n 0); lia.
    - unfold dec_nat in *. pose proof (dec_digits_length 10 10 (Z.abs n)) as Hl.
      intros E%app_eq_nil. destruct E as [_ E]. rewrite E in Hl. cbn in Hl. unfold INT_MIN, INT_MAX in Hn. lia.
    - apply Forall_app. split; [apply zeros_digits | exact Hd]. }
  destruct (flag type LEFT); [apply (Hgoal 0 k fill)|]. destruct (flag type ZEROPAD).
  - specialize (Hgoal 0 (Z.of_nat (Z.to_nat fill + Z.to_nat k)) 0). rewrite app_nil_r in Hgoal.
    unfold zeros in *. rewrite Nat2Z.id, repeat_app, <- app_assoc in Hgoal. exact Hgoal.
  - specialize (Hgoal fill k 0). rewrite app_nil_r in Hgoal. exact Hgoal.
Qed.

(** ** From the format to the memory and back *)

(** A printed character is not a terminator. *)
Definition text_char (c : Z) : Prop := 0 < c < 256.

Lemma repeat_text_char c n : text_char c -> Forall text_char (repeat c n).
Proof. intros Hc. induction n; cbn; constructor; assumption. Qed.

Lemma dec_text_char n : 0 <= n -> Forall text_char (dec_nat n).
Proof.
  intros Hn. eapply Forall_impl; [apply dec_nat_digits; exact Hn|]. cbv beta. intros c.
  unfold is_digit, text_char, chr. cbn. rewrite andb_true_iff, !Z.leb_le. lia.
Qed.

Lemma decimal_text_chars n s precision type t :
  INT_MIN <= n <= INT_MAX -> flag type SIGN = true -> number_text n 10 s precision type = Some t ->
  Forall text_char t.
Proof.
  intros Hn Hs. unfold number_text, sign_of, magnitude. rewrite Hs. cbn [andb].
  assert (Hmag : (if n <? 0 then s32 (- n) else n) = s32 (Z.abs n)).
  { destruct (Z.ltb_spec n 0); [f_equal; lia|]. rewrite Z.abs_eq, s32_small by lia. reflexivity. }
  rewrite Hmag. destruct (number_tmp_fits type (Z.abs n) 10) as (tmp & Htmp & _).
  pose proof Htmp as Hrev. apply number_tmp_dec in Hrev; [|unfold INT_MIN, INT_MAX in Hn; lia].
  unfold digit_string in Htmp. rewrite Htmp. cbn [mbind option_bind]. intros [= <-]. rewrite Hrev.
  pose proof (dec_text_char (Z.abs n) ltac:(lia)) as Hd.
  assert (Hsp : forall k, Forall text_char (spaces k)) by (intros; apply repeat_text_char; cbv; auto).
  assert (Hz : forall k, Forall text_char (zeros k)) by (intros; apply repeat_text_char; cbv; auto).
  set (sign := if n <? 0 then _ else _).
  assert (Hsign : Forall text_char sign).
  { unfold sign. destruct (n <? 0), (flag type PLUS), (flag type SPACE); repeat constructor. }
  destruct (precision =? 0), (flag type LEFT), (flag type ZEROPAD); rewrite ?Forall_app; auto 10.
Qed.

(** A format made of flags. *)
Definition flag_char (c : Z) : bool :=
  (c =? chr "-") || (c =? chr "+") || (c =? chr " ") || (c =? chr "#") || (c =? chr "0").

Lemma parse_flags_stop fl c r f :
  forallb flag_char fl = true -> flag_char c = false ->
  exists flags, parse_flags (fl ++ c :: r) f = (flags, c :: r).
Proof.
  intros Hfl Hc. revert f. induction fl as [|x fl IH]; intros f.
  - exists f. unfold flag_char in Hc. rewrite !orb_false_iff in Hc. cbn.
    destruct Hc as [[[[-> ->] ->] ->] ->]. reflexivity.
  - cbn in Hfl. apply andb_true_iff in Hfl as [Hx Hfl]. specialize (IH Hfl). cbn [app parse_flags].
    unfold flag_char in Hx.
    destruct (x =? chr "-"); [apply IH|]. destruct (x =? chr "+"); [apply IH|].
    destruct (x =? chr " "); [apply IH|]. destruct (x =? chr "#"); [apply IH|].
    destruct (x =? chr "0"); [apply IH | discriminate].
Qed.

Lemma flag_set_sign flags : flag (Z.lor flags SIGN) SIGN = true.
Proof.
  change SIGN with (2 ^ 1). rewrite flag_bit, Z.lor_spec, Z.pow2_bits_true by lia. apply orb_true_r.
Qed.

Lemma puts_list (l : list Z) : puts [] l = l.
Proof.
  assert (H : forall l a : list Z, puts a l = a ++ l); [|apply H].
  clear l. induction l as [|c l IH]; intros a; [symmetry; apply app_nil_r|].
  change (puts a (c :: l)) with (puts (a ++ [c]) l). rewrite IH, <- app_assoc. reflexivity.
Qed.

Lemma parse_width_star r w args flags :
  INT_MIN < w <= INT_MAX ->
  exists flags', parse_width (chr "*" :: r) (Word w :: args) flags = Some (Z.abs w, flags', r, args).
Proof.
  intros Hw. unfold parse_width. change (isdigit (at_fmt _)) with false. cbn [at_fmt tail].
  change (chr "*" =? chr "*") with true. cbn [va_word mbind option_bind]. rewrite s32_small by lia.
  unfold INT_MIN, INT_MAX in Hw. destruct (Z.ltb_spec w 0).
  - replace (fits_int (- w)) with true; [rewrite Z.abs_neq by lia; eauto|].
    symmetry. unfold fits_int, INT_MIN, INT_MAX. rewrite andb_true_iff, !Z.leb_le. lia.
  - rewrite Z.abs_eq by lia. eauto.
Qed.

Lemma parse_precision_star r p args :
  0 < p <= INT_MAX -> parse_precision (chr "." :: chr "*" :: r) (Word p :: args) = Some (p, r, args).
Proof.
  intros Hp. unfold parse_precision. cbn [at_fmt tail]. change (chr "." =? chr ".") with true. cbv iota.
  change (isdigit (chr "*")) with false. change (chr "*" =? chr "*") with true. cbn [va_word mbind option_bind].
  rewrite s32_small by (unfold INT_MIN; lia). destruct (Z.ltb_spec p 0); [lia | reflexivity].
Qed.

Lemma print_conversion_d {Out} `{!Sink Out} (o : Out) n args flags w p :
  INT_MIN <= n <= INT_MAX ->
  print_conversion o (Word n :: args) (chr "d") flags w p 0 =
    (o ← print_number o n 10 w p (Z.lor flags SIGN); Some (o, args)).
Proof.
  intros Hn. unfold print_conversion.
  change (chr "d" =? chr "c") with false. change (chr "d" =? chr "s") with false.
  change (chr "d" =? chr "p") with false. change (chr "d" =? chr "%") with false.
  change (chr "d" =? chr "o") with false. change (chr "d" =? chr "X") with false.
  change (chr "d" =? chr "x") with false. change ((chr "d" =? chr "d") || _) with true.
  cbn [va_word mbind option_bind]. unfold integer_arg. change (0 =? chr "h") with false. cbv iota.
  replace (s32 (u32 n)) with n; [reflexivity|].
  unfold s32, u32. rewrite Zplus_mod_idemp_l. symmetry. apply s32_small. exact Hn.
Qed.

Lemma formatted_decimal fl w p n :
  forallb flag_char fl = true -> INT_MIN < w <= INT_MAX -> 0 < p <= INT_MAX -> INT_MIN <= n <= INT_MAX ->
  exists t, formatted (chr "%" :: fl ++ map chr ["*"; "."; "*"; "d"]%char) [Word w; Word p; Word n] = Some t /\
    strtol10 t = n /\ Forall text_char t.
Proof.
  intros Hfl Hw Hp Hn. unfold formatted. cbn [length format_loop]. unfold format_step.
  change (negb (chr "%" =? chr "%")) with false. cbv iota. cbn [map].
  destruct (parse_flags_stop fl (chr "*") [chr "."; chr "*"; chr "d"] 0 Hfl eq_refl) as [flags ->].
  destruct (parse_width_star [chr "."; chr "*"; chr "d"] w [Word p; Word n] flags Hw) as [flags' ->].
  cbn [mbind option_bind]. rewrite parse_precision_star by exact Hp. cbn [mbind option_bind].
  unfold parse_qualifier. cbn [at_fmt]. change ((chr "d" =? chr "h") || (chr "d" =? chr "l")) with false.
  cbv iota. cbn [at_fmt tail]. rewrite print_conversion_d by exact Hn.
  destruct (decimal_text_reads n (Z.abs w) p (Z.lor flags' SIGN) Hn ltac:(lia) (flag_set_sign flags')) as (t & Ht & Hread).
  rewrite print_number_text, Ht. cbn [fmap option_fmap option_map mbind option_bind]. rewrite puts_list.
  exists t. split; [destruct fl; reflexivity|]. split; [exact Hread|].
  exact (decimal_text_chars _ _ _ _ _ Hn (flag_set_sign flags') Ht).
Qed.

Module Format.
(** ** What a format means *)

(** A field width or a precision: not there, decimal digits, or a star that takes an argument. *)
Inductive Field := Absent | Number (digits : list Z) | Star.

Inductive Directive :=
| Literal (c : Z)
| Conversion (flags : list Z) (width : Field) (precision : option Field) (* [Some]: behind a point *)
    (qualifier : option Z) (conversion : option Z).                     (* [None]: the format ends here *)

(** The first character of [l] satisfies [P]. *)
Definition begins (P : Z -> bool) (l : list Z) : bool := match l with c :: _ => P c | [] => false end.
Definition is_flag (c : Z) : bool := existsb (Z.eqb c) (map chr ["-"; "+"; " "; "#"; "0"]%char).
Definition is_qualifier (c : Z) : bool := (c =? chr "h") || (c =? chr "l").

(** How a format is read: [spells_field f x r] says that [f] is [x] followed by [r]; each part takes all the
    characters it can. *)
Inductive spells_field : list Z -> Field -> list Z -> Prop :=
| sf_absent f : begins is_digit f = false -> begins (Z.eqb (chr "*")) f = false -> spells_field f Absent f
| sf_number ds f : ds <> [] -> forallb is_digit ds = true -> begins is_digit f = false -> spells_field (ds ++ f) (Number ds) f
| sf_star f : spells_field (chr "*" :: f) Star f.

Inductive spells_precision : list Z -> option Field -> list Z -> Prop :=
| sp_none f : begins (Z.eqb (chr ".")) f = false -> spells_precision f None f
| sp_some f x r : spells_field f x r -> spells_precision (chr "." :: f) (Some x) r.

Inductive spells_qualifier : list Z -> option Z -> list Z -> Prop :=
| sq_none f : begins is_qualifier f = false -> spells_qualifier f None f
| sq_some q f : is_qualifier q = true -> spells_qualifier (q :: f) (Some q) f.

Inductive spells : list Directive -> list Z -> Prop :=
| spells_end : spells [] []
| spells_literal c ds f : c <> chr "%" -> spells ds f -> spells (Literal c :: ds) (c :: f)
| spells_conversion fl w p q k ds f f1 f2 f3 :
    forallb is_flag fl = true -> begins is_flag f = false -> spells_field f w f1 -> spells_precision f1 p f2 ->
    spells_qualifier f2 q (k :: f3) -> spells ds f3 ->
    spells (Conversion fl w p q (Some k) :: ds) (chr "%" :: fl ++ f)
| spells_percent fl w p q f f1 f2 :
    forallb is_flag fl = true -> begins is_flag f = false -> spells_field f w f1 -> spells_precision f1 p f2 ->
    spells_qualifier f2 q [] ->
    spells [Conversion fl w p q None] (chr "%" :: fl ++ f).

(** The number decimal digits spell; the int of [skip_atoi] overflows when it takes in the character of the digit
    before it takes off the character 0. *)
Definition decimal (ds : list Z) : option Z :=
  let v := digits_val ds in if v + chr "0" <=? INT_MAX then Some v else None.

(** The value of a field and the arguments left; an absent one counts as -1. *)
Definition field_value (x : Field) (args : list Arg) : option (Z * list Arg) :=
  match x, args with
  | Absent, _ => Some (-1, args)
  | Number ds, _ => v ← decimal ds; Some (v, args)
  | Star, Word w :: args => Some (s32 w, args)
  | Star, _ => None
  end.

(** A negative width argument asks for its absolute value, which INT_MIN does not have, and for left adjustment. *)
Definition width_value (x : Field) (args : list Arg) : option (Z * bool * list Arg) :=
  '(w, args) ← field_value x args;
  match x with
  | Star => if w =? INT_MIN then None else Some (Z.abs w, w <? 0, args)
  | _ => Some (w, false, args)
  end.

(** A precision that is empty or negative is 0. *)
Definition precision_value (x : option Field) (args : list Arg) : option (Z * list Arg) :=
  match x with
  | Some x => '(p, args) ← field_value x args; Some (Z.max p 0, args)
  | None => Some (-1, args)
  end.

(** The digits of [v] in base [b], without leading zeros. *)
Definition digit_char (large : bool) (d : Z) : Z := if d <? 10 then chr "0" + d else chr (if large then "A" else "a") + (d - 10).
Fixpoint strip (l : list Z) : list Z :=
  match l with
  | 0 :: (_ :: _) as r => strip r
  | _ => l
  end.
Definition positional (k : nat) (b v : Z) : list Z := map (fun i => v / b ^ Z.of_nat i mod b) (rev (seq 0 k)).
Definition numeral (large : bool) (b v : Z) : list Z := map (digit_char large) (strip (positional 16 b v)).

(** [t] in a field of [width] places. *)
Definition justify (left : bool) (width : Z) (t : list Z) : list Z :=
  let fill := spaces (width - Z.of_nat (length t)) in if left then t ++ fill else fill ++ t.

(** A number in a field of [width] places: at least [precision] digits; a precision of 0 prints none, but keeps
    their places. *)
Definition number (left zero : bool) (width precision : Z) (sign digits : list Z) : list Z :=
  let n := Z.of_nat (length digits) in
  let body := zeros (precision - n) ++ (if precision =? 0 then [] else digits) in
  let fill := width - Z.of_nat (length sign) - Z.max precision n in
  if left then sign ++ body ++ spaces fill
  else if zero then sign ++ zeros fill ++ body
  else spaces fill ++ sign ++ body.

(** The conversion [k]; [has c] tells whether the flag [c] is there. *)
Definition conversion_text (has : Z -> bool) (left : bool) (width precision : Z) (q : option Z) (k : Z) (args : list Arg)
    : option (list Z * list Arg) :=
  let num := number left (has (chr "0")) width precision in
  let short := bool_decide (q = Some (chr "h")) in
  if existsb (Z.eqb k) (map chr ["d"; "i"]%char) then
    match args with
    | Word w :: args =>
        let v := if short then s16 w else s32 w in
        let sign := if v <? 0 then [chr "-"] else if has (chr "+") then [chr "+"] else if has (chr " ") then [chr " "] else [] in
        Some (num sign (numeral false 10 (Z.abs v)), args)
    | _ => None
    end
  else if existsb (Z.eqb k) (map chr ["u"; "o"; "x"; "X"]%char) then
    match args with
    | Word w :: args =>
        let v := if short then u16 w else u32 w in
        Some (num [] (if k =? chr "u" then numeral false 10 v else numeral (k =? chr "X") 16 v), args)
    | _ => None
    end
  else if k =? chr "p" then
    match args with
    | Word w :: args =>
        Some (if width =? -1 then number left true 8 precision [] (numeral false 16 (u32 w))
              else num [] (numeral false 16 (u32 w)), args)
    | _ => None
    end
  else if k =? chr "c" then
    match args with Word w :: args => Some (justify left width [u8 w], args) | _ => None end
  else if k =? chr "s" then
    match args with
    | Str s :: args =>
        let s := default (map chr ["("; "N"; "U"; "L"; "L"; ")"]%char) s in
        Some (justify left width (if 0 <? precision then take (Z.to_nat precision) s else s), args)
    | _ => None
    end
  else if k =? chr "%" then Some ([chr "%"], args)
  else Some ([chr "%"; k], args).

Definition directive_text (d : Directive) (args : list Arg) : option (list Z * list Arg) :=
  match d with
  | Literal c => Some ([c], args)
  | Conversion fl w p q k =>
      '(width, negative, args) ← width_value w args;
      '(precision, args) ← precision_value p args;
      let has c := existsb (Z.eqb c) fl in
      match k with
      | Some k => conversion_text has (has (chr "-") || negative) width precision q k args
      | None => Some ([chr "%"], args)
      end
  end.

(** The text a format gives with its arguments; more arguments than it takes do not matter. *)
Fixpoint format_text (ds : list Directive) (args : list Arg) : option (list Z) :=
  match ds with
  | [] => Some []
  | d :: ds => '(t, args) ← directive_text d args; rest ← format_text ds args; Some (t ++ rest)
  end.

(** ** Every format can be read *)

Lemma split_run (P : Z -> bool) (f : list Z) :
  exists l r, f = l ++ r /\ forallb P l = true /\ begins P r = false.
Proof.
  induction f as [|c f (l & r & E & Hl & Hr)].
  - exists [], []. auto.
  - destruct (P c) eqn:Ec.
    + exists (c :: l), r. rewrite E. cbn. rewrite Ec. auto.
    + exists [], (c :: f). cbn. auto.
Qed.

Lemma field_total f : exists x r, spells_field f x r /\ (length r <= length f)%nat.
Proof.
  destruct (begins is_digit f) eqn:Ed.
  - destruct (split_run is_digit f) as (l & r & E & Hl & Hr). exists (Number l), r. split.
    + rewrite E. constructor; [|assumption..]. intros ->. cbn in E. congruence.
    + rewrite E, length_app. lia.
  - destruct (begins (Z.eqb (chr "*")) f) eqn:Es.
    + destruct f as [|c f]; [discriminate|]. apply Z.eqb_eq in Es as <-. exists Star, f. split; [constructor | cbn; lia].
    + exists Absent, f. split; [constructor; assumption | lia].
Qed.

Lemma precision_total f : exists x r, spells_precision f x r /\ (length r <= length f)%nat.
Proof.
  destruct (begins (Z.eqb (chr ".")) f) eqn:Es.
  - destruct f as [|c f]; [discriminate|]. apply Z.eqb_eq in Es as <-. destruct (field_total f) as (x & r & H & Hr).
    exists (Some x), r. split; [constructor; exact H | cbn; lia].
  - exists None, f. split; [constructor; exact Es | lia].
Qed.

Lemma qualifier_total f : exists x r, spells_qualifier f x r /\ (length r <= length f)%nat.
Proof.
  destruct (begins is_qualifier f) eqn:Es.
  - destruct f as [|c f]; [discriminate|]. exists (Some c), f. split; [constructor; exact Es | cbn; lia].
  - exists None, f. split; [constructor; exact Es | lia].
Qed.

Lemma spells_total fmt : exists ds, spells ds fmt.
Proof.
  induction fmt as [fmt IH] using (induction_ltof1 _ (@length Z)). unfold ltof in IH.
  destruct fmt as [|c f]; [exists []; constructor|]. destruct (Z.eq_dec c (chr "%")) as [->|Hc].
  - destruct (split_run is_flag f) as (fl & f0 & -> & Hfl & Hf0). destruct (field_total f0) as (w & f1 & Hw & L1).
    destruct (precision_total f1) as (p & f2 & Hp & L2). destruct (qualifier_total f2) as (q & f3 & Hq & L3).
    destruct f3 as [|k f3].
    + eexists. eapply spells_percent; eauto.
    + destruct (IH f3) as [ds Hds]; [cbn in *; rewrite length_app; lia|]. eexists. eapply spells_conversion; eauto.
  - destruct (IH f) as [ds Hds]; [cbn; lia|]. exists (Literal c :: ds). constructor; assumption.
Qed.

(** ** The parser reads it so *)

Lemma isdigit_char c : 0 <= c < 256 -> isdigit c = is_digit c.
Proof.
  intros Hc. unfold isdigit, is_digit, u32. change (chr "0") with 48. change (chr "9") with 57.
  destruct (Z.leb_spec 48 c), (Z.leb_spec c 57); cbn [andb].
  - rewrite Z.mod_small by lia. apply Z.ltb_lt. lia.
  - rewrite Z.mod_small by lia. apply Z.ltb_ge. lia.
  - rewrite <- (Z.mod_unique (c - 48) 4294967296 (-1) (c - 48 + 4294967296)) by lia. apply Z.ltb_ge. lia.
  - lia.
Qed.

Lemma begins_at P f : P 0 = false -> begins P f = P (at_fmt f).
Proof. intros H. destruct f; cbn; auto. Qed.

Lemma isdigit_begins f : Forall text_char f -> isdigit (at_fmt f) = begins is_digit f.
Proof.
  intros Hf. rewrite begins_at by reflexivity. apply isdigit_char. destruct Hf as [|c f Hc _]; cbn; [lia|].
  unfold text_char in Hc. lia.
Qed.

(** The digits from the running value [i] on. *)
Lemma skip_atoi_digits ds r i :
  forallb is_digit ds = true -> begins is_digit r = false -> Forall text_char (ds ++ r) -> 0 <= i ->
  let v := fold_left (fun v c => v * 10 + (c - chr "0")) ds i in
  i <= v /\ skip_atoi (ds ++ r) i = if bool_decide (ds = []) || (v + chr "0" <=? INT_MAX) then Some (v, r) else None.
Proof.
  change (chr "0") with 48. revert i. induction ds as [|c ds IH]; intros i Hd Hr Ht Hi; cbv zeta.
  - cbn [app fold_left]. split; [lia|]. destruct r as [|c r]; [reflexivity|]. cbn in Hr, Ht |- *.
    inversion Ht as [|? ? Hc _]; subst. unfold text_char in Hc. rewrite isdigit_char, Hr by lia. reflexivity.
  - cbn [forallb] in Hd. apply andb_true_iff in Hd as [Hc Hd]. inversion Ht as [|? ? Htc Ht']; subst. unfold text_char in Htc.
    cbn [app fold_left skip_atoi]. rewrite isdigit_char, Hc by lia. change (chr "0") with 48.
    assert (48 <= c <= 57).
    { unfold is_digit in Hc. rewrite andb_true_iff, !Z.leb_le in Hc. exact Hc. }
    replace (i * 10 + c - 48) with (i * 10 + (c - 48)) by lia.
    destruct (IH (i * 10 + (c - 48)) Hd Hr Ht' ltac:(lia)) as [Hle ->]. cbv zeta in Hle. split; [lia|].
    cbn [bool_decide]. rewrite (bool_decide_false (c :: ds = [])) by discriminate. cbn [orb].
    set (v := fold_left _ ds _) in *. unfold fits_int, INT_MIN, INT_MAX.
    destruct (Z.leb_spec (-2147483648) (i * 10 + c)); [|lia]. cbn [andb].
    destruct (Z.leb_spec (i * 10 + c) 2147483647) as [H1|H1], (Z.leb_spec (v + 48) 2147483647) as [H2|H2];
      rewrite ?orb_true_r; try reflexivity; try lia.
    destruct ds as [|d ds]; [unfold v in H2; cbn in H2; lia|]. rewrite bool_decide_false by discriminate. reflexivity.
Qed.

Lemma skip_atoi_decimal ds r : ds <> [] -> forallb is_digit ds = true -> begins is_digit r = false ->
  Forall text_char (ds ++ r) -> skip_atoi (ds ++ r) 0 = v ← decimal ds; Some (v, r).
Proof.
  intros Hne Hd Hr Ht. destruct (skip_atoi_digits ds r 0 Hd Hr Ht ltac:(lia)) as [_ ->].
  rewrite (bool_decide_false (ds = [])) by exact Hne. unfold decimal, digits_val. cbn [orb].
  destruct (_ <=? _); reflexivity.
Qed.

Lemma decimal_pos ds v : forallb is_digit ds = true -> decimal ds = Some v -> 0 <= v.
Proof.
  unfold decimal. destruct (_ <=? _); [|discriminate]. intros Hd [= <-]. unfold digits_val.
  assert (H : forall i, 0 <= i -> 0 <= fold_left (fun v c => v * 10 + (c - chr "0")) ds i); [|apply H; lia].
  induction ds as [|c ds IH]; intros i Hi; [exact Hi|]. cbn in Hd. apply andb_true_iff in Hd as [Hc Hd]. cbn [fold_left].
  apply IH; [exact Hd|]. unfold is_digit in Hc. rewrite andb_true_iff, !Z.leb_le in Hc. lia.
Qed.

(** A field: what the digits, the star or nothing give, as both parsers read them. *)
Lemma parse_field f x r args : spells_field f x r -> Forall text_char f ->
  (if isdigit (at_fmt f) then '(v, r) ← skip_atoi f 0; Some (v, r, args)
   else if at_fmt f =? chr "*" then '(v, args) ← va_word args; Some (s32 v, tail f, args)
   else Some (-1, f, args))
  = '(v, args) ← field_value x args; Some (v, r, args).
Proof.
  intros Hx Ht. rewrite isdigit_begins by exact Ht. destruct Hx as [f Hd Hs|ds f Hne Hd Hf|f].
  - rewrite Hd. rewrite begins_at in Hs by reflexivity. rewrite Z.eqb_sym, Hs. reflexivity.
  - assert (Hb : begins is_digit (ds ++ f) = true).
    { destruct ds as [|c ds]; [contradiction|]. cbn in *. apply andb_true_iff in Hd. tauto. }
    rewrite Hb, skip_atoi_decimal by assumption. cbn [field_value]. destruct (decimal ds); reflexivity.
  - cbn [begins at_fmt tail]. change (is_digit (chr "*")) with false. rewrite Z.eqb_refl. cbv iota.
    destruct args as [|[z|s] args]; reflexivity.
Qed.

Lemma parse_width_spec f x r args flags : spells_field f x r -> Forall text_char f ->
  parse_width f args flags =
    '(w, negative, args) ← width_value x args; Some (w, if (negative : bool) then Z.lor flags LEFT else flags, r, args).
Proof.
  intros Hx Ht. pose proof (parse_field f x r args Hx Ht) as H. unfold parse_width, width_value. destruct Hx as [f Hd Hs|ds f Hne Hd Hf|f].
  - rewrite isdigit_begins, Hd by exact Ht. rewrite begins_at in Hs by reflexivity. rewrite Z.eqb_sym, Hs. reflexivity.
  - rewrite isdigit_begins by exact Ht.
    assert (Hb : begins is_digit (ds ++ f) = true).
    { destruct ds as [|c ds]; [contradiction|]. cbn in *. apply andb_true_iff in Hd. tauto. }
    rewrite Hb, skip_atoi_decimal by assumption. cbn [field_value]. destruct (decimal ds); reflexivity.
  - change (isdigit (at_fmt (chr "*" :: f))) with false. cbn [at_fmt tail]. rewrite Z.eqb_refl. cbv iota.
    destruct args as [|[z|s] args]; try reflexivity. cbn [va_word field_value mbind option_bind].
    pose proof (s32_range z) as Hr. unfold fits_int, INT_MIN, INT_MAX in *. destruct (Z.eqb_spec (s32 z) (-2147483648)) as [->|Hne]; [reflexivity|].
    cbn [mbind option_bind]. destruct (Z.ltb_spec (s32 z) 0).
    + destruct (Z.leb_spec (-2147483648) (- s32 z)), (Z.leb_spec (- s32 z) 2147483647); try lia. cbn [andb].
      rewrite Z.abs_neq by lia. reflexivity.
    + rewrite Z.abs_eq by lia. reflexivity.
Qed.

Lemma parse_precision_spec f x r args : spells_precision f x r -> Forall text_char f ->
  parse_precision f args = '(p, args) ← precision_value x args; Some (p, r, args).
Proof.
  intros Hx Ht. unfold parse_precision, precision_value. destruct Hx as [f Hs|f x r Hx].
  - rewrite begins_at in Hs by reflexivity. rewrite Z.eqb_sym, Hs. reflexivity.
  - cbn [at_fmt tail]. rewrite Z.eqb_refl. inversion Ht; subst. rewrite (parse_field f x r args Hx) by assumption.
    destruct (field_value x args) as [[v a]|]; cbn [mbind option_bind]; [|reflexivity].
    replace (if v <? 0 then 0 else v) with (Z.max v 0) by (destruct (Z.ltb_spec v 0); lia). reflexivity.
Qed.

Lemma parse_qualifier_spec f x r : spells_qualifier f x r -> parse_qualifier f = (default 0 x, r).
Proof.
  intros Hx. unfold parse_qualifier. fold (is_qualifier (at_fmt f)). destruct Hx as [f Hs|q f Hs].
  - rewrite begins_at in Hs by reflexivity. rewrite Hs. reflexivity.
  - cbn [at_fmt tail]. rewrite Hs. reflexivity.
Qed.

Lemma flag_lor m a b : flag (Z.lor m a) b = flag m b || flag a b.
Proof.
  unfold flag. rewrite Z.land_lor_distr_l. destruct (Z.eqb_spec (Z.land m b) 0) as [->|H]; cbn [negb orb].
  - rewrite Z.lor_0_l. reflexivity.
  - apply negb_true_iff, Z.eqb_neq. intros E. apply Z.lor_eq_0_iff in E. tauto.
Qed.

Lemma parse_flags_run fl r m : forallb is_flag fl = true -> begins is_flag r = false ->
  let has c := existsb (Z.eqb (chr c)) fl in
  let m' := fst (parse_flags (fl ++ r) m) in
  snd (parse_flags (fl ++ r) m) = r /\ flag m' LEFT = flag m LEFT || has "-"%char /\ flag m' PLUS = flag m PLUS || has "+"%char /\
  flag m' SPACE = flag m SPACE || has " "%char /\ flag m' ZEROPAD = flag m ZEROPAD || has "0"%char /\
  flag m' SIGN = flag m SIGN /\ flag m' LARGE = flag m LARGE.
Proof.
  intros Hfl Hr. revert m. induction fl as [|c fl IH]; intros m; cbv zeta.
  - cbn [app existsb]. rewrite !orb_false_r. destruct r as [|c r]; [auto 10|]. cbn in Hr. rewrite !orb_false_iff in Hr.
    destruct Hr as (H1 & H2 & H3 & H4 & H5 & _). cbn [parse_flags]. rewrite H1, H2, H3, H4, H5. auto 10.
  - cbn [forallb] in Hfl. apply andb_true_iff in Hfl as [Hc Hfl]. specialize (IH Hfl). cbv zeta in IH.
    cbn [app parse_flags existsb]. unfold is_flag in Hc. cbn [map existsb] in Hc.
    rewrite !orb_true_iff in Hc. destruct Hc as [E|[E|[E|[E|[E|E]]]]]; try discriminate E; apply Z.eqb_eq in E; subst c;
      [change (chr "-" =? chr "-") with true
      |change (chr "+" =? chr "-") with false; change (chr "+" =? chr "+") with true
      |change (chr " " =? chr "-") with false; change (chr " " =? chr "+") with false; change (chr " " =? chr " ") with true
      |change (chr "#" =? chr "-") with false; change (chr "#" =? chr "+") with false; change (chr "#" =? chr " ") with false;
       change (chr "#" =? chr "#") with true
      |change (chr "0" =? chr "-") with false; change (chr "0" =? chr "+") with false; change (chr "0" =? chr " ") with false;
       change (chr "0" =? chr "#") with false; change (chr "0" =? chr "0") with true]; cbv iota;
      match goal with |- context [parse_flags _ (Z.lor m ?x)] => specialize (IH (Z.lor m x)) end;
      rewrite !flag_lor in IH; destruct IH as (I1 & I2 & I3 & I4 & I5 & I6 & I7); rewrite I1, I2, I3, I4, I5, I6, I7;
      (split_ands; [reflexivity|..]);
      rewrite <- ?orb_assoc; f_equal; rewrite ?orb_false_r; try reflexivity.
Qed.

(** ** The digits *)

Lemma positional_S k b v : 0 < b -> 0 <= v -> positional (S k) b v = positional k b (v / b) ++ [v mod b].
Proof.
  intros Hb Hv. unfold positional. cbn [seq rev]. rewrite map_app, <- seq_shift, <- map_rev, map_map. f_equal.
  - apply map_ext. intros i. rewrite Nat2Z.inj_succ, Z.pow_succ_r, Z.div_div by (lia || apply Z.pow_pos_nonneg; lia). reflexivity.
  - cbn [map]. rewrite Z.pow_0_r, Z.div_1_r. reflexivity.
Qed.

Lemma strip_zero r : r <> [] -> strip (0 :: r) = strip r.
Proof. destruct r; [contradiction | reflexivity]. Qed.
Lemma strip_nonzero d r : d <> 0 -> strip (d :: r) = d :: r.
Proof. intros H. destruct r, d; reflexivity || contradiction. Qed.

Lemma strip_snoc l d : strip (l ++ [d]) = if forallb (Z.eqb 0) l then [d] else strip l ++ [d].
Proof.
  induction l as [|x l IH]; [destruct d; reflexivity|]. cbn [app forallb]. destruct (Z.eqb_spec 0 x) as [<-|Hx]; cbn [andb].
  - rewrite strip_zero by (destruct l; discriminate). rewrite IH. destruct (forallb _ l) eqn:E; [reflexivity|].
    rewrite strip_zero; [reflexivity|]. intros ->. discriminate.
  - rewrite !strip_nonzero by congruence. reflexivity.
Qed.

Lemma positional_zeros k b v : 1 < b -> 0 <= v < b ^ Z.of_nat k -> forallb (Z.eqb 0) (positional k b v) = (v =? 0).
Proof.
  intros Hb. revert v. induction k as [|k IH]; intros v Hv.
  - assert (v = 0) as -> by (cbn in Hv; lia). reflexivity.
  - rewrite positional_S, forallb_app by lia. rewrite Nat2Z.inj_succ, Z.pow_succ_r in Hv by lia.
    rewrite IH by (split; [apply Z.div_pos; lia | apply Z.div_lt_upper_bound; lia]). cbn [forallb].
    pose proof (Z.div_mod v b ltac:(lia)). pose proof (Z.mod_pos_bound v b ltac:(lia)). destruct (Z.eqb_spec (v / b) 0), (Z.eqb_spec 0 (v mod b)), (Z.eqb_spec v 0);
      cbn [andb]; try reflexivity; nia.
Qed.

Lemma digit_string_char type d : 0 <= d < 16 -> buf_get (digit_string type) d = Some (digit_char (flag type LARGE) d).
Proof.
  intros Hd. assert (Hin : In d (seqZ 0 16)) by (apply list_elem_of_In, elem_of_seqZ; lia).
  cbv in Hin. unfold digit_string. destruct (flag type LARGE);
    repeat (destruct Hin as [<-|Hin]; [reflexivity|]); contradiction.
Qed.

(** [tmp] holds the digits from the last one on. *)
Lemma number_digits_numeral k room type v base tmp :
  let b := if base =? 10 then 10 else 16 in
  0 < v < 4294967296 -> v < b ^ Z.of_nat k -> number_digits room (digit_string type) (s32 v) base = Some tmp ->
  rev tmp = map (digit_char (flag type LARGE)) (strip (positional k b v)).
Proof.
  cbv zeta. set (b := if base =? 10 then 10 else 16). assert (Hb : 10 <= b <= 16) by (unfold b; destruct (base =? 10); lia).
  revert room v tmp. induction k as [|k IH]; intros room v tmp Hv Hlt; [cbn in Hlt; lia|].
  assert (Hdiv : 0 <= v / b < b ^ Z.of_nat k).
  { rewrite Nat2Z.inj_succ, Z.pow_succ_r in Hlt by lia.
    split; [apply Z.div_pos; lia | apply Z.div_lt_upper_bound; lia]. }
  destruct room as [|room]; cbn [number_digits]; rewrite s32_eq0 by lia;
    (destruct (Z.eqb_spec v 0); [lia|]); [discriminate|].
  rewrite divide_u32 by lia. fold b. rewrite digit_string_char by (pose proof (Z.mod_pos_bound v b); lia). cbn [mbind option_bind].
  destruct (number_digits room _ _ base) as [rest|] eqn:E; cbn [mbind option_bind]; [|discriminate]. intros [= <-]. cbn [rev].
  rewrite positional_S, strip_snoc, positional_zeros by lia. destruct (Z.eqb_spec (v / b) 0) as [E0|Hne].
  - rewrite E0 in E. destruct room; cbn in E; injection E as <-; reflexivity.
  - assert (Hvb : v / b < 4294967296) by (apply Z.div_lt_upper_bound; lia).
    rewrite (IH room (v / b) rest) by (lia || exact E). rewrite map_app. reflexivity.
Qed.

Lemma number_tmp_numeral type v base :
  let b := if base =? 10 then 10 else 16 in 0 <= v < 4294967296 ->
  exists tmp, number_tmp (digit_string type) (s32 v) base = Some tmp /\ rev tmp = numeral (flag type LARGE) b v.
Proof.
  cbv zeta. intros Hv. destruct (number_tmp_fits type v base) as (tmp & E & _). exists tmp. split; [exact E|].
  unfold number_tmp in E. rewrite s32_eq0 in E by exact Hv. destruct (Z.eqb_spec v 0) as [->|Hne].
  - injection E as <-. destruct (base =? 10), (flag type LARGE); reflexivity.
  - apply (number_digits_numeral 16) in E; [exact E | lia|]. eapply Z.lt_le_trans; [apply Hv|].
    destruct (base =? 10); vm_compute; discriminate.
Qed.

(** ** The conversions *)

Lemma number_text_number num base s precision type v :
  0 <= v < 4294967296 -> magnitude num type = s32 v ->
  number_text num base s precision type =
    Some (number (flag type LEFT) (flag type ZEROPAD) s precision (sign_of num type)
            (numeral (flag type LARGE) (if base =? 10 then 10 else 16) v)).
Proof.
  intros Hv Hm. unfold number_text. rewrite Hm. destruct (number_tmp_numeral type v base Hv) as (tmp & E & Erev).
  fold (digit_string type). rewrite E. cbn [mbind option_bind]. unfold number. rewrite <- Erev, length_rev. reflexivity.
Qed.

Section Conversions.
Context {Out : Type} `{!Sink Out} (o : Out).
(** What the flags of the format have become. *)
Context (has : Z -> bool) (left : bool) (m : Z).
Hypothesis Hleft : flag m LEFT = left.
Hypothesis Hplus : flag m PLUS = has (chr "+").
Hypothesis Hspace : flag m SPACE = has (chr " ").
Hypothesis Hzero : flag m ZEROPAD = has (chr "0").
Hypothesis Hsign : flag m SIGN = false.
Hypothesis Hlarge : flag m LARGE = false.

Lemma print_number_flags num base s precision f v :
  flag f LEFT = false -> flag f PLUS = false -> flag f SPACE = false ->
  0 <= v < 4294967296 -> magnitude num (Z.lor m f) = s32 v ->
  print_number o num base s precision (Z.lor m f) =
    Some (puts o (number left (has (chr "0") || flag f ZEROPAD) s precision (sign_of num (Z.lor m f))
                    (numeral (flag f LARGE) (if base =? 10 then 10 else 16) v))).
Proof.
  intros F1 F2 F3 Hv Hm. rewrite print_number_text, (number_text_number _ _ _ _ _ v Hv Hm), !flag_lor, Hleft, Hzero, Hlarge, F1, orb_false_r.
  reflexivity.
Qed.

(** The unsigned conversions. *)
Lemma print_unsigned v base s precision f :
  flag f LEFT = false -> flag f PLUS = false -> flag f SPACE = false -> flag f SIGN = false -> 0 <= v < 4294967296 ->
  print_number o (s32 v) base s precision (Z.lor m f) =
    Some (puts o (number left (has (chr "0") || flag f ZEROPAD) s precision []
                    (numeral (flag f LARGE) (if base =? 10 then 10 else 16) v))).
Proof.
  intros F1 F2 F3 F4 Hv. rewrite (print_number_flags _ _ _ _ _ v); auto; unfold sign_of, magnitude; rewrite flag_lor, Hsign, F4; reflexivity.
Qed.

(** The signed ones. *)
Lemma print_signed v s precision :
  INT_MIN <= v <= INT_MAX ->
  print_number o v 10 s precision (Z.lor m SIGN) =
    Some (puts o (number left (has (chr "0")) s precision
      (if v <? 0 then [chr "-"] else if has (chr "+") then [chr "+"] else if has (chr " ") then [chr " "] else [])
      (numeral false 10 (Z.abs v)))).
Proof.
  intros Hv. unfold INT_MIN, INT_MAX in Hv. rewrite (print_number_flags _ _ _ _ _ (Z.abs v)); try reflexivity; [|lia|].
  - change (flag SIGN ZEROPAD) with false. rewrite orb_false_r. unfold sign_of. rewrite !flag_lor, Hplus, Hspace.
    change (flag SIGN SIGN) with true. rewrite orb_true_r. change (flag SIGN PLUS) with false. change (flag SIGN SPACE) with false.
    rewrite !orb_false_r. reflexivity.
  - unfold magnitude. rewrite flag_lor. change (flag SIGN SIGN) with true. rewrite orb_true_r. cbn [andb].
    destruct (Z.ltb_spec v 0); [rewrite Z.abs_neq by lia; reflexivity|]. rewrite Z.abs_eq, s32_small by (unfold INT_MIN, INT_MAX; lia).
    reflexivity.
Qed.

(** The number the argument of an integer conversion gives. *)
Lemma integer_unsigned q w f : flag f SIGN = false ->
  integer_arg (default 0 q) (Z.lor m f) w = if bool_decide (q = Some (chr "h")) then u16 w else u32 w.
Proof.
  intros Hf. unfold integer_arg. rewrite flag_lor, Hsign, Hf. cbn [orb]. destruct q as [q|]; [change (default 0 (Some q)) with q | change (default 0 (@None Z)) with 0].
  - destruct (Z.eqb_spec q (chr "h")) as [->|Hne]; [rewrite bool_decide_true by reflexivity; reflexivity|].
    rewrite bool_decide_false by congruence. reflexivity.
  - rewrite bool_decide_false by discriminate. reflexivity.
Qed.

Lemma integer_signed q w :
  s32 (integer_arg (default 0 q) (Z.lor m SIGN) w) = if bool_decide (q = Some (chr "h")) then s16 w else s32 w.
Proof.
  assert (Hs : forall z, s32 (u32 z) = s32 z).
  { intros z. unfold s32, u32. rewrite Zplus_mod_idemp_l. reflexivity. }
  unfold integer_arg. rewrite flag_lor. change (flag SIGN SIGN) with true. rewrite orb_true_r. destruct q as [q|]; [change (default 0 (Some q)) with q | change (default 0 (@None Z)) with 0].
  - destruct (Z.eqb_spec q (chr "h")) as [->|Hne].
    + rewrite bool_decide_true by reflexivity. cbv zeta. rewrite Hs.
      assert (Hu : s16 (u16 w) = s16 w) by (unfold s16, u16; rewrite Zplus_mod_idemp_l; reflexivity). rewrite Hu.
      apply s32_small. unfold s16, INT_MIN, INT_MAX. pose proof (Z.mod_pos_bound (w + 32768) 65536 eq_refl). lia.
    + rewrite bool_decide_false by congruence. apply Hs.
  - rewrite bool_decide_false by discriminate. apply Hs.
Qed.

Lemma conversion_char args w :
  print_c o args m w = match args with Word z :: args => Some (puts o (justify left w [u8 z]), args) | _ => None end.
Proof.
  unfold print_c. rewrite Hleft. unfold justify, spaces. cbn [length]. change (Z.of_nat 1) with 1.
  destruct left; cbn [negb]; destruct args as [|[z|s] args]; cbn [va_word mbind option_bind]; try reflexivity;
    rewrite !repeat_puts, puts_app; [reflexivity|].
  rewrite (Z2Nat.nonpos (Z.min (w - 1) 0 - 1)) by lia. reflexivity.
Qed.

Lemma conversion_string args w p :
  print_s o args m w p =
    match args with
    | Str s :: args => let s := default (map chr ["("; "N"; "U"; "L"; "L"; ")"]%char) s in
        Some (puts o (justify left w (if 0 <? p then take (Z.to_nat p) s else s)), args)
    | _ => None
    end.
Proof.
  unfold print_s. destruct args as [|[z|s] args]; cbn [va_str mbind option_bind]; try reflexivity. rewrite Hleft.
  set (t := default _ s). set (u := if 0 <? p then take (Z.to_nat p) t else t). cbv zeta. fold u.
  set (len := if _ && _ then p else Z.of_nat (length t)).
  assert (Hlen : len = Z.of_nat (length u) /\ take (Z.to_nat len) t = u).
  { unfold len, u. destruct (Z.ltb_spec 0 p) as [Hp|Hp]; cbn [andb].
    - rewrite length_take. destruct (Z.ltb_spec p (Z.of_nat (length t))); (split; [lia|]); [reflexivity|].
      rewrite !take_ge by lia. reflexivity.
    - split; [reflexivity|]. apply take_ge. lia. }
  destruct Hlen as [-> ->]. unfold justify, spaces. destruct left; cbn [negb]; rewrite !repeat_puts, puts_app; fold (puts o u).
  - reflexivity.
  - rewrite (Z2Nat.nonpos (Z.min w _ - 1 - _)) by lia. reflexivity.
Qed.

Lemma one_of k l : existsb (Z.eqb k) l = true -> In k l.
Proof. intros H. apply existsb_exists in H as (x & Hx & E). apply Z.eqb_eq in E as ->. exact Hx. Qed.

(** The numeric conversions of a word, one character each. *)
Lemma conversion_signed args k w p q : In k (map chr ["d"; "i"]%char) ->
  print_conversion o args k m w p (default 0 q) =
    match args with
    | Word z :: args => let v := if bool_decide (q = Some (chr "h")) then s16 z else s32 z in
        Some (puts o (number left (has (chr "0")) w p
          (if v <? 0 then [chr "-"] else if has (chr "+") then [chr "+"] else if has (chr " ") then [chr " "] else [])
          (numeral false 10 (Z.abs v))), args)
    | _ => None
    end.
Proof.
  intros Hk. transitivity ('(z, args) ← va_word args;
    o ← print_number o (s32 (integer_arg (default 0 q) (Z.lor m SIGN) z)) 10 w p (Z.lor m SIGN); Some (o, args)).
  - destruct Hk as [<-|[<-|[]]]; reflexivity.
  - destruct args as [|[z|s] args]; cbn [va_word mbind option_bind]; try reflexivity. rewrite integer_signed, print_signed; [reflexivity|].
    destruct (bool_decide _); [|apply s32_range]. unfold s16, INT_MIN, INT_MAX. pose proof (Z.mod_pos_bound (z + 32768) 65536 eq_refl). lia.
Qed.

Lemma conversion_unsigned args k w p q : In k (map chr ["u"; "o"; "x"; "X"]%char) ->
  print_conversion o args k m w p (default 0 q) =
    match args with
    | Word z :: args => let v := if bool_decide (q = Some (chr "h")) then u16 z else u32 z in
        Some (puts o (number left (has (chr "0")) w p []
          (if k =? chr "u" then numeral false 10 v else numeral (k =? chr "X") 16 v)), args)
    | _ => None
    end.
Proof.
  intros Hk. transitivity ('(z, args) ← va_word args;
    let f := if k =? chr "X" then LARGE else 0 in
    o ← print_number o (s32 (integer_arg (default 0 q) (Z.lor m f) z)) (if k =? chr "u" then 10 else if k =? chr "o" then 8 else 16) w p (Z.lor m f);
    Some (o, args)).
  - destruct Hk as [<-|[<-|[<-|[<-|[]]]]]; cbv zeta;
      match goal with |- context [if ?b then LARGE else 0] => let v := eval vm_compute in b in change b with v end; cbv iota;
      rewrite ?Z.lor_0_r; reflexivity.
  - destruct args as [|[z|s] args]; cbn [va_word mbind option_bind]; try reflexivity. cbv zeta.
    set (f := if k =? chr "X" then LARGE else 0).
    assert (Hf : flag f SIGN = false /\ flag f LEFT = false /\ flag f PLUS = false /\ flag f SPACE = false /\ flag f ZEROPAD = false /\
      flag f LARGE = (k =? chr "X")) by (unfold f; destruct (k =? chr "X"); repeat split).
    destruct Hf as (F1 & F2 & F3 & F4 & F5 & F6). rewrite integer_unsigned by exact F1.
    set (v := if bool_decide _ then u16 z else u32 z).
    assert (Hv : 0 <= v < 4294967296).
    { unfold v. destruct (bool_decide _); [pose proof (u16_range z)|pose proof (u32_range z)]; lia. }
    rewrite print_unsigned, F5, F6, orb_false_r by assumption. cbn [mbind option_bind]. do 3 f_equal.
    clear -Hk. destruct Hk as [<-|[<-|[<-|[<-|[]]]]]; reflexivity.
Qed.

Lemma conversion_pointer args w p q :
  print_conversion o args (chr "p") m w p q =
    match args with
    | Word z :: args =>
        Some (puts o (if w =? -1 then number left true 8 p [] (numeral false 16 (u32 z))
                      else number left (has (chr "0")) w p [] (numeral false 16 (u32 z))), args)
    | _ => None
    end.
Proof.
  assert (Hs : forall z, s32 z = s32 (u32 z)).
  { intros z. unfold s32, u32. rewrite Zplus_mod_idemp_l. reflexivity. }
  transitivity ('(z, args) ← va_word args;
    o ← print_number o (s32 z) 16 (if w =? -1 then 8 else w) p (Z.lor m (if w =? -1 then ZEROPAD else 0)); Some (o, args)).
  - unfold print_conversion. change (chr "p" =? chr "c") with false. change (chr "p" =? chr "s") with false.
    change (chr "p" =? chr "p") with true. cbv iota. destruct (w =? -1); rewrite ?Z.lor_0_r; reflexivity.
  - destruct args as [|[z|s] args]; cbn [va_word mbind option_bind]; try reflexivity. rewrite (Hs z).
    pose proof (u32_range z). destruct (w =? -1); rewrite print_unsigned by (reflexivity || lia); cbn [mbind option_bind].
    + change (flag ZEROPAD ZEROPAD) with true. rewrite orb_true_r. reflexivity.
    + change (flag 0 ZEROPAD) with false. rewrite orb_false_r. reflexivity.
Qed.

Lemma print_conversion_spec args k w p q : k <> 0 ->
  print_conversion o args k m w p (default 0 q) =
    '(t, args) ← conversion_text has left w p q k args; Some (puts o t, args).
Proof.
  intros H0. unfold conversion_text. destruct (existsb (Z.eqb k) (map chr ["d"; "i"]%char)) eqn:E1.
  { rewrite conversion_signed by (apply one_of, E1). destruct args as [|[z|s] args]; reflexivity. }
  destruct (existsb (Z.eqb k) (map chr ["u"; "o"; "x"; "X"]%char)) eqn:E2.
  { rewrite conversion_unsigned by (apply one_of, E2). destruct args as [|[z|s] args]; reflexivity. }
  destruct (Z.eqb_spec k (chr "p")) as [->|Np].
  { rewrite conversion_pointer. destruct args as [|[z|s] args]; reflexivity. }
  cbn [map existsb] in E1, E2. rewrite !orb_false_iff in E1. rewrite !orb_false_iff in E2. destruct E1 as (E1 & E1' & _), E2 as (E2 & E3 & E4 & E5 & _).
  apply Z.eqb_neq in Np. unfold print_conversion. rewrite E1, E1', E2, E3, E4, E5, Np. cbn [orb].
  destruct (Z.eqb_spec k (chr "c")) as [->|].
  { rewrite conversion_char. destruct args as [|[z|s] args]; reflexivity. }
  destruct (Z.eqb_spec k (chr "s")) as [->|].
  { rewrite conversion_string. destruct args as [|[z|s] args]; reflexivity. }
  destruct (Z.eqb_spec k (chr "%")); [reflexivity|]. apply Z.eqb_neq in H0. rewrite H0. reflexivity.
Qed.
End Conversions.

(** ** The loop prints the text *)

Lemma text_char_suffix f x r : spells_field f x r -> Forall text_char f -> Forall text_char r.
Proof.
  intros H. destruct H as [|ds f Hne Hd Hf|]; auto; [rewrite Forall_app; tauto | intros Ht%Forall_cons; tauto].
Qed.
Lemma text_char_precision f x r : spells_precision f x r -> Forall text_char f -> Forall text_char r.
Proof. intros H. destruct H as [|f x r Hx]; auto. intros [_ Ht]%Forall_cons. exact (text_char_suffix _ _ _ Hx Ht). Qed.
Lemma text_char_qualifier f x r : spells_qualifier f x r -> Forall text_char f -> Forall text_char r.
Proof. intros H. destruct H; auto. intros Ht%Forall_cons. tauto. Qed.

(** One conversion: [rest] is what follows the conversion character, if there is one. *)
Lemma format_step_conversion {Out} `{!Sink Out} (o : Out) fl w p q f f1 f2 f3 args :
  forallb is_flag fl = true -> begins is_flag f = false -> spells_field f w f1 -> spells_precision f1 p f2 ->
  spells_qualifier f2 q f3 -> Forall text_char f ->
  format_step o (chr "%") (fl ++ f) args =
    '(t, args) ← directive_text (Conversion fl w p q (match f3 with k :: _ => Some k | [] => None end)) args;
    Some (puts o t, tail f3, args).
Proof.
  intros Hfl Hf Hw Hp Hq Ht. unfold format_step. rewrite Z.eqb_refl. cbn [negb].
  pose proof (parse_flags_run fl f 0 Hfl Hf) as H. destruct (parse_flags (fl ++ f) 0) as [m r]. cbv zeta in H. cbn [fst snd] in H.
  destruct H as (-> & H1 & H2 & H3 & H4 & H5 & H6). change (flag 0 _) with false in *. cbn [orb] in *.
  rewrite (parse_width_spec f w f1) by assumption. cbn [directive_text].
  destruct (width_value w args) as [[[wv neg] args1]|]; cbn [mbind option_bind]; [|reflexivity].
  pose proof (text_char_suffix _ _ _ Hw Ht) as Ht1. pose proof (text_char_precision _ _ _ Hp Ht1) as Ht2.
  pose proof (text_char_qualifier _ _ _ Hq Ht2) as Ht3.
  rewrite (parse_precision_spec f1 p f2) by assumption.
  destruct (precision_value p args1) as [[pv args2]|]; cbn [mbind option_bind]; [|reflexivity].
  rewrite (parse_qualifier_spec _ _ _ Hq). destruct f3 as [|k f3]; cbn [at_fmt tail]; [reflexivity|].
  set (m' := if neg then Z.lor m LEFT else m).
  assert (Hm : flag m' LEFT = existsb (Z.eqb (chr "-")) fl || neg /\ forall x, x = PLUS \/ x = SPACE \/ x = ZEROPAD \/ x = SIGN \/ x = LARGE ->
    flag m' x = flag m x).
  { unfold m'. destruct neg; [|rewrite orb_false_r; auto]. rewrite flag_lor, H1. change (flag LEFT LEFT) with true. split; [reflexivity|].
    intros x Hx. rewrite flag_lor. destruct Hx as [->|[->|[->|[->| ->]]]]; apply orb_false_r. }
  destruct Hm as [Hl Hm]. rewrite (print_conversion_spec o (fun c => existsb (Z.eqb c) fl) (existsb (Z.eqb (chr "-")) fl || neg) m');
    rewrite ?Hm by tauto; auto.
  - destruct (conversion_text _ _ _ _ _ _ _) as [[t a]|]; reflexivity.
  - inversion Ht3 as [|? ? Hk _]; subst. unfold text_char in Hk. lia.
Qed.

Lemma spells_suffix fl f f1 f2 f3 w p q : forallb is_flag fl = true -> spells_field f w f1 -> spells_precision f1 p f2 ->
  spells_qualifier f2 q f3 -> Forall text_char (fl ++ f) -> Forall text_char f /\ Forall text_char f3 /\ (length f3 <= length (fl ++ f))%nat.
Proof.
  intros _ Hw Hp Hq [_ Ht]%Forall_app. split; [exact Ht|]. split.
  - exact (text_char_qualifier _ _ _ Hq (text_char_precision _ _ _ Hp (text_char_suffix _ _ _ Hw Ht))).
  - rewrite length_app. assert (length f1 <= length f)%nat by (destruct Hw; rewrite ?length_app; cbn; lia).
    assert (length f2 <= length f1)%nat.
    { destruct Hp as [|? ? ? Hx]; [lia|]. destruct Hx; rewrite ?length_app; cbn; rewrite ?length_app; lia. }
    assert (length f3 <= length f2)%nat by (destruct Hq; cbn; lia). lia.
Qed.

Lemma format_loop_spelled {Out} `{!Sink Out} ds fmt : spells ds fmt -> Forall text_char fmt -> forall fuel (o : Out) args,
  (length fmt < fuel)%nat -> format_loop fuel o fmt args = puts o <$> format_text ds args.
Proof.
  intros H. induction H as [|c ds f Hc _ IH|fl w p q k ds f f1 f2 f3 Hfl Hf Hw Hp Hq _ IH|fl w p q f f1 f2 Hfl Hf Hw Hp Hq];
    intros Ht [|fuel] o args Hn; cbn [length] in Hn; try lia; cbn [format_loop format_text]; [reflexivity|..].
  - unfold format_step. apply Z.eqb_neq in Hc. rewrite Hc. cbn [negb mbind option_bind directive_text].
    apply Forall_cons in Ht as [_ Ht]. rewrite IH by (exact Ht || lia). destruct (format_text ds args); reflexivity.
  - apply Forall_cons in Ht as [_ Ht]. destruct (spells_suffix _ _ _ _ _ _ _ _ Hfl Hw Hp Hq Ht) as (Ht0 & Ht3 & Hle).
    rewrite (format_step_conversion o fl w p q f f1 f2 (k :: f3)) by assumption. cbn [tail length] in *.
    destruct (directive_text _ args) as [[t args1]|]; cbn [mbind option_bind]; [|reflexivity].
    apply Forall_cons in Ht3 as [_ Ht3]. rewrite IH by (exact Ht3 || lia). destruct (format_text ds args1) as [u|]; [|reflexivity].
    cbn [mbind option_bind fmap option_fmap option_map]. rewrite puts_app. reflexivity.
  - apply Forall_cons in Ht as [_ Ht]. destruct (spells_suffix _ _ _ _ _ _ _ _ Hfl Hw Hp Hq Ht) as (Ht0 & _ & _).
    rewrite (format_step_conversion o fl w p q f f1 f2 []) by assumption. cbn [tail length] in *.
    destruct (directive_text _ args) as [[t args1]|]; cbn [mbind option_bind]; [|reflexivity].
    destruct fuel; cbn [fmap option_fmap option_map format_loop format_text]; rewrite app_nil_r; reflexivity.
Qed.

Lemma formatted_spelled ds fmt args : spells ds fmt -> Forall text_char fmt -> formatted fmt args = format_text ds args.
Proof.
  intros H Ht. unfold formatted. rewrite (format_loop_spelled ds fmt H Ht) by lia.
  destruct (format_text ds args) as [t|]; [|reflexivity]. cbn [fmap option_fmap option_map]. rewrite puts_list. reflexivity.
Qed.
End Format.
Import Format.

Lemma string_at_bytes m a t : string_at m a t -> bytes_at m a (S (length t)) = map u8 t ++ [NUL].
Proof.
  intros [Hbytes Hend]. unfold bytes_at. rewrite seq_S, map_app. cbn [map plus]. rewrite Hend. f_equal.
  apply (nth_ext _ _ 0 (u8 0)); [rewrite !length_map, length_seq; reflexivity|].
  intros i Hi. rewrite length_map, length_seq in Hi.
  rewrite (nth_indep _ 0 (load8 m (a + Z.of_nat 0))) by (rewrite length_map, length_seq; exact Hi).
  rewrite (map_nth (fun i => load8 m (a + Z.of_nat i))), seq_nth, map_nth by exact Hi. cbn [plus].
  rewrite Hbytes, Nat2Z.id by lia. reflexivity.
Qed.

Lemma string_at_cstr m a t :
  Forall text_char t -> string_at m a t -> cstr (bytes_at m a (S (length t))) = Some t.
Proof.
  intros Ht Hs. rewrite (string_at_bytes _ _ _ Hs).
  assert (Hid : map u8 t = t).
  { clear Hs. induction Ht as [|c t Hc _ IH]; [reflexivity|]. cbn [map]. rewrite IH, u8_small; [reflexivity|].
    unfold text_char in Hc. lia. }
  rewrite Hid. apply (cstr_app t []). eapply Forall_impl; [exact Ht|]. unfold text_char, NUL. lia.
Qed.

Lemma bytes_at_take m a n k : (k <= n)%nat -> bytes_at m a k = take k (bytes_at m a n).
Proof.
  intros Hk. unfold bytes_at. rewrite firstn_map, take_seq, Nat.min_l by exact Hk. reflexivity.
Qed.

(** ** Properties *)

(** C31: [rt_vsnprintf] ends on every format and prints what the format means.  Every C string is a sequence of
    literal characters and conversions, read by longest match ([spells]); [format_text] says what they give: a
    signed or unsigned number as its digits in base 10 or 16 without leading zeros (%o prints base 16 as well), with
    sign, precision and width; a pointer, a character, a string or its beginning; a percent sign; an unknown
    conversion character as it is.  The call returns the length of the whole text, leaves in the buffer the part
    that fits with its terminator behind it (nothing for size 0), and changes no byte outside the [size] bytes of the
    buffer and none behind the terminator, as long as the text ends below the end of the address space.  It has no
    result exactly when [format_text] has none: an argument is missing or of the wrong kind, the digits of a width
    or precision spell a number above INT_MAX - 48, or a width argument is INT_MIN. *)
Theorem vsnprintf_prints m buf size fmt args :
  0 < buf < 4294967295 -> 0 <= size < 4294967296 -> Forall text_char fmt ->
  let room := buffer_room buf size in
  (exists ds, spells ds fmt) /\
  forall ds, spells ds fmt ->
    match format_text ds args with
    | None => rt_vsnprintf m buf size fmt args = None
    | Some t =>
        buf + Z.of_nat (length t) < 4294967296 ->
        exists m', rt_vsnprintf m buf size fmt args = Some (m', s32 (Z.of_nat (length t))) /\
          (forall x, x < buf \/ buf + room <= x \/ buf + Z.of_nat (length t) < x -> load8 m' x = load8 m x) /\
          (0 < room -> string_at m' buf (take (Z.to_nat (room - 1)) t))
    end.
Proof.
  intros Hb Hs Ht room. split; [apply spells_total|]. intros ds Hds.
  rewrite <- (formatted_spelled ds fmt args Hds Ht). exact (vsnprintf_text m buf size fmt args Hb Hs).
Qed.

(** C32: printing a signed number with [rt_sprintf] and any flags, width and positive
    precision, and reading the buffer with [atoi], gives the number, for every 32-bit
    number. *)
Theorem sprintf_atoi_roundtrip m buf fl w p n :
  0 < buf < 4294967295 -> forallb flag_char fl = true ->
  INT_MIN < w <= INT_MAX -> 0 < p <= INT_MAX -> INT_MIN <= n <= INT_MAX ->
  exists t, formatted (chr "%" :: fl ++ map chr ["*"; "."; "*"; "d"]%char) [Word w; Word p; Word n] = Some t /\
    (buf + Z.of_nat (length t) < 4294967295 -> exists m',
      rt_sprintf m buf (chr "%" :: fl ++ map chr ["*"; "."; "*"; "d"]%char) [Word w; Word p; Word n]
        = Some (m', s32 (Z.of_nat (length t))) /\
      atoi (bytes_at m' buf (S (length t))) = Some n).
Proof.
  intros Hb Hfl Hw Hp Hn. destruct (formatted_decimal fl w p n Hfl Hw Hp Hn) as (t & Ht & Hread & Hchars).
  exists t. split; [exact Ht|]. intros Hlen.
  pose proof (vsnprintf_text m buf 4294967295 (chr "%" :: fl ++ map chr ["*"; "."; "*"; "d"]%char)
    [Word w; Word p; Word n] Hb ltac:(lia)) as H.
  cbv zeta in H. rewrite Ht in H. destruct (H ltac:(lia)) as (m' & Hm' & _ & Hstr). exists m'. split; [exact Hm'|].
  unfold buffer_room in Hstr. specialize (Hstr ltac:(lia)). rewrite take_ge in Hstr by lia.
  unfold atoi. rewrite (string_at_cstr _ _ _ Hchars Hstr). cbn. rewrite Hread. reflexivity.
Qed.

(** The bytes [rt_kprintf] hands to the console: the whole text up to 254
    characters; a longer text is cut to 254 characters followed by the terminator of the
    buffer, which is sent as a 255th byte. *)
Theorem kprintf_console m rt_log_buf fmt args t :
  0 < rt_log_buf -> rt_log_buf + 4096 < 4294967296 ->
  formatted fmt args = Some t -> Z.of_nat (length t) < 4096 ->
  exists m' n, rt_kprintf m rt_log_buf fmt args = Some (m', n) /\
    bytes_at m' rt_log_buf (Z.to_nat n) =
      (if Z.of_nat (length t) <=? 254 then map u8 t else map u8 (take 254 t) ++ [0]).
Proof.
  intros Hb Hb' Ht Hlen. pose proof (vsnprintf_text m rt_log_buf 255 fmt args ltac:(lia) ltac:(lia)) as H.
  cbv zeta in H. rewrite Ht in H. destruct (H ltac:(lia)) as (m' & Hm' & _ & Hstr).
  assert (Hroom : buffer_room rt_log_buf 255 = 255) by (unfold buffer_room; lia).
  rewrite Hroom in Hstr. specialize (Hstr ltac:(lia)). change (Z.to_nat (255 - 1)) with 254%nat in Hstr.
  unfold rt_kprintf. change (RT_CONSOLEBUF_SIZE - 1) with 255. rewrite Hm'. cbn [mbind option_bind].
  rewrite s32_small, u32_small by (unfold INT_MIN, INT_MAX; lia).
  apply string_at_bytes in Hstr. rewrite length_take in Hstr.
  eexists _, _. split; [reflexivity|]. destruct (Z.leb_spec (Z.of_nat (length t)) 254).
  - destruct (Z.ltb_spec 255 (Z.of_nat (length t))); [lia|]. rewrite Nat2Z.id.
    rewrite (bytes_at_take _ _ (S (254 `min` length t))) by lia.
    rewrite Hstr, (take_ge t 254) by lia. apply take_app_length'. rewrite length_map. reflexivity.
  - assert (Hn : Z.to_nat (if 255 <? Z.of_nat (length t) then 255 else Z.of_nat (length t)) = S (254 `min` length t)).
    { destruct (Z.ltb_spec 255 (Z.of_nat (length t))); lia. }
    rewrite Hn. exact Hstr.
Qed.

(** ** The properties at concrete values *)

Definition example_format : list Z := map chr ["T"; "="; "%"; "5"; "d"; " "; "%"; "s"]%char.
Definition example_args : list Arg := [Word (-42); Str (Some (map chr ["o"; "k"]%char))].
Definition example_text : list Z := map chr ["T"; "="; " "; " "; "-"; "4"; "2"; " "; "o"; "k"]%char.

(** The format "T=%5d %s" and, with every part of a conversion, "%-+6.3hx%%". *)
Definition example_spelled : list Directive :=
  [Literal (chr "T"); Literal (chr "="); Conversion [] (Number [chr "5"]) None None (Some (chr "d")); Literal (chr " ");
   Conversion [] Absent None None (Some (chr "s"))].
Definition full_format : list Z := map chr ["%"; "-"; "+"; "6"; "."; "3"; "h"; "x"; "%"; "%"]%char.
Definition full_spelled : list Directive :=
  [Conversion [chr "-"; chr "+"] (Number [chr "6"]) (Some (Number [chr "3"])) (Some (chr "h")) (Some (chr "x"));
   Conversion [] Absent None None (Some (chr "%"))].

Lemma example_spells : spells example_spelled example_format.
Proof.
  do 2 (apply spells_literal; [discriminate|]).
  eapply (spells_conversion []); [reflexivity | reflexivity | apply (sf_number [chr "5"]); [discriminate | reflexivity | reflexivity]
    | constructor; reflexivity | constructor; reflexivity |].
  apply spells_literal; [discriminate|]. eapply (spells_conversion []); [reflexivity | reflexivity | constructor; reflexivity ..|constructor].
Qed.

Lemma full_spells : spells full_spelled full_format.
Proof.
  apply (spells_conversion [chr "-"; chr "+"] (Number [chr "6"]) (Some (Number [chr "3"])) (Some (chr "h")) (chr "x")
    _ (map chr ["6"; "."; "3"; "h"; "x"; "%"; "%"]%char) (map chr ["."; "3"; "h"; "x"; "%"; "%"]%char)
    (map chr ["h"; "x"; "%"; "%"]%char) (map chr ["%"; "%"]%char)); try reflexivity.
  - apply (sf_number [chr "6"]); [discriminate | reflexivity | reflexivity].
  - constructor. apply (sf_number [chr "3"]); [discriminate | reflexivity | reflexivity].
  - constructor. reflexivity.
  - eapply (spells_conversion []); [reflexivity | reflexivity | constructor; reflexivity ..|constructor].
Qed.

Lemma vsnprintf_prints_witness :
  (exists m', rt_vsnprintf (fun _ => 170) 1000 6 example_format example_args = Some (m', 10) /\
    string_at m' 1000 (map chr ["T"; "="; " "; " "; "-"]%char)) /\
  (exists m', rt_vsnprintf (fun _ => 170) 1000 20 full_format [Word 65546] = Some (m', 7) /\
    string_at m' 1000 (map chr ["0"; "0"; "a"; " "; " "; " "; "%"]%char)) /\
  rt_vsnprintf (fun _ => 170) 1000 20 full_format [] = None.
Proof.
  assert (Hc : forall l, forallb (fun c => (0 <? c) && (c <? 256)) l = true -> Forall text_char l).
  { intros l Hl. apply Forall_forall. intros c Hin. rewrite forallb_forall in Hl. specialize (Hl c (proj1 (list_elem_of_In _ _) Hin)).
    unfold text_char. rewrite andb_true_iff, !Z.ltb_lt in Hl. exact Hl. }
  split; [|split].
  - destruct (vsnprintf_prints (fun _ => 170) 1000 6 example_format example_args ltac:(lia) ltac:(lia) ltac:(apply Hc; reflexivity)) as [_ H].
    destruct (H _ example_spells ltac:(vm_compute; reflexivity)) as (m' & Hm & _ & Hs).
    exists m'. split; [exact Hm|]. apply Hs. vm_compute. reflexivity.
  - destruct (vsnprintf_prints (fun _ => 170) 1000 20 full_format [Word 65546] ltac:(lia) ltac:(lia) ltac:(apply Hc; reflexivity)) as [_ H].
    destruct (H _ full_spells ltac:(vm_compute; reflexivity)) as (m' & Hm & _ & Hs).
    exists m'. split; [exact Hm|]. apply Hs. vm_compute. reflexivity.
  - destruct (vsnprintf_prints (fun _ => 170) 1000 20 full_format [] ltac:(lia) ltac:(lia) ltac:(apply Hc; reflexivity)) as [_ H].
    exact (H _ full_spells).
Defined.

Lemma sprintf_atoi_roundtrip_witness :
  exists t, formatted (map chr ["%"; "+"; "0"; "*"; "."; "*"; "d"]%char) [Word 8; Word 4; Word (-42)] = Some t /\
    (2000 + Z.of_nat (length t) < 4294967295 -> exists m',
      rt_sprintf (fun _ => 170) 2000 (map chr ["%"; "+"; "0"; "*"; "."; "*"; "d"]%char) [Word 8; Word 4; Word (-42)]
        = Some (m', s32 (Z.of_nat (length t))) /\
      atoi (bytes_at m' 2000 (S (length t))) = Some (-42)).
Proof.
  apply (sprintf_atoi_roundtrip (fun _ => 170) 2000 (map chr ["+"; "0"]%char) 8 4 (-42));
    [lia | reflexivity | unfold INT_MIN, INT_MAX; lia ..].
Defined.

Lemma kprintf_console_witness :
  exists m' n, rt_kprintf (fun _ => 170) 536870912 example_format example_args = Some (m', n) /\
    bytes_at m' 536870912 (Z.to_nat n) = map u8 example_text.
Proof.
  apply (kprintf_console (fun _ => 170) 536870912 example_format example_args example_text);
    [lia | lia | vm_compute; reflexivity | vm_compute; reflexivity].
Defined.
