(* ===== verification/Globals.v ===== *)
(** The global variables of src/applications/manager.c, which every thread of
    the application reads and writes.  [float_t] is [float]; [u_int] and
    [rt_tick_t] variables hold values below 2^32. *)

From Stdlib Require Import Floats.SpecFloat.
From S2P Require Import Prelude CFloat.

Record Globals := mkGlobals {
  ship_id : Z;
  is_connect : Z;
  rec_server_tick : Z;
  lng : float32;
  lat : float32;
  speed : Z;
  current_theta : float32;
  dump_energy : float32;
  target_lng : float32;
  target_lat : float32;
  control_val : Z;
  control_mode : Z;
  network_backhome : Z;
  energy_backhome : Z;
  obstacle_avoid : Z;
  hand_speed : Z;
  auto_speed : Z;
  pid : list float32;
  compass_status : Z;
  row : Z;
  col : Z;
  key : list Z;
  rec_tick : Z;
  current_mode : Z;
  angle_error : Z;
  draw_status : Z;
  bottle_id : Z;
  bottle_deep : Z;
  bottle_amount : Z;
  full_draw_time : Z;
  dump_draw_time : Z;
  max_draw_amount : Z;
  target_id : list Z;
  target_distance : list Z;
  target_angle : list Z;
  min_distance : Z;
  obstacle_tick : Z;
  wt : Z;
  ph : Z;
  doDo : Z;
  ec : Z;
  td : Z;
  left_pwm : Z;
  right_pwm : Z;
  remote_forward_pwm : Z;
  remote_steer_pwm : Z;
  draw_speed : Z;
  draw_start_tick : Z;
  is_draw : Z;
  max_geer_pwm : Z;
  min_geer_pwm : Z;
  deep_pwm : Z;
}.

#[export] Instance Globals_rebuild : Rebuild Globals := fun g =>
  mkGlobals
    (ship_id g) (is_connect g) (rec_server_tick g) (lng g) (lat g) (speed g)
    (current_theta g) (dump_energy g) (target_lng g) (target_lat g)
    (control_val g) (control_mode g) (network_backhome g) (energy_backhome g)
    (obstacle_avoid g) (hand_speed g) (auto_speed g) (pid g)
    (compass_status g) (row g) (col g) (key g) (rec_tick g) (current_mode g)
    (angle_error g) (draw_status g) (bottle_id g) (bottle_deep g)
    (bottle_amount g) (full_draw_time g) (dump_draw_time g)
    (max_draw_amount g) (target_id g) (target_distance g) (target_angle g)
    (min_distance g) (obstacle_tick g) (wt g) (ph g) (doDo g) (ec g) (td g)
    (left_pwm g) (right_pwm g) (remote_forward_pwm g) (remote_steer_pwm g)
    (draw_speed g) (draw_start_tick g) (is_draw g) (max_geer_pwm g)
    (min_geer_pwm g) (deep_pwm g).

Definition globals_init : Globals := {|
  ship_id := 8;
  is_connect := 0;
  rec_server_tick := 0;
  lng := S754_zero false;
  lat := S754_zero false;
  speed := 0;
  current_theta := S754_zero false;
  dump_energy := S754_zero false;
  target_lng := S754_zero false;
  target_lat := S754_zero false;
  control_val := (-1);
  control_mode := 1;
  network_backhome := 0;
  energy_backhome := 0;
  obstacle_avoid := 0;
  hand_speed := 3;
  auto_speed := 3;
  pid := [f_of_d (dlit 1 2); f_of_d (dlit 1 100); f_of_int 1];
  compass_status := 0;
  row := 50;
  col := 50;
  key := (replicate 8 0);
  rec_tick := 0;
  current_mode := 2;
  angle_error := 0;
  draw_status := 0;
  bottle_id := 0;
  bottle_deep := 0;
  bottle_amount := 0;
  full_draw_time := 0;
  dump_draw_time := 0;
  max_draw_amount := 1000;
  target_id := (replicate 10 0);
  target_distance := (replicate 10 0);
  target_angle := (replicate 10 0);
  min_distance := 10000;
  obstacle_tick := 0;
  wt := 0;
  ph := 0;
  doDo := 0;
  ec := 0;
  td := 0;
  left_pwm := 1500;
  right_pwm := 1500;
  remote_forward_pwm := 1500;
  remote_steer_pwm := 1500;
  draw_speed := 2000;
  draw_start_tick := 0;
  is_draw := 0;
  max_geer_pwm := 2400;
  min_geer_pwm := 800;
  deep_pwm := 800;
|}.

(** Reading and writing an element of one of the global arrays. *)
Definition key_at (g : Globals) (i : nat) : Z := default 0 (key g !! i).
Definition set_key (i : nat) (v : Z) (g : Globals) : Globals :=
  g <| key := <[i := v]> (key g) |>.

(** The arrays keep their sizes. *)
Definition globals_wf (g : Globals) : Prop :=
  length (key g) = 8%nat /\ length (pid g) = 3%nat /\
  length (target_id g) = 10%nat /\ length (target_distance g) = 10%nat /\
  length (target_angle g) = 10%nat.

Lemma key_at_set_eq i v g : (i < length (key g))%nat -> key_at (set_key i v g) i = v.
Proof.
  intros H. unfold key_at. change (key (set_key i v g)) with (<[i := v]> (key g)).
  rewrite list_lookup_insert_eq by exact H. reflexivity.
Qed.

Lemma key_at_set_ne i j v g : i <> j -> key_at (set_key i v g) j = key_at g j.
Proof.
  intros H. unfold key_at. change (key (set_key i v g)) with (<[i := v]> (key g)).
  rewrite list_lookup_insert_ne by exact H. reflexivity.
Qed.

Lemma set_key_length i v g : length (key (set_key i v g)) = length (key g).
Proof. apply length_insert. Qed.
