(* ===== verification/Lora.v ===== *)
(** The remote control's receiver (src/applications/lora.c): frames
    [A<col>,<row>Z] carry the joystick, frames [H<keys>Z] the buttons.
    [lora_rec_byte] is one turn of the loop of [lora_rec], for one received
    byte and the tick at which it is handled. *)

From S2P Require Import Prelude CFloat Scan Globals.

(** The local variables of [lora_rec]. *)
Record LoraSt := mkLoraSt {
  lora_buffer : list Z;        (* char[32] *)
  lora_buffer_index : Z;
  row_s : list Z;              (* char[5] *)
  col_s : list Z;              (* char[5] *)
  key_s : list Z;              (* char[6] *)
  data_type : Z;
}.
#[export] Instance LoraSt_rebuild : Rebuild LoraSt := fun s =>
  mkLoraSt (lora_buffer s) (lora_buffer_index s) (row_s s) (col_s s) (key_s s) (data_type s).

Definition lora_init : LoraSt :=
  mkLoraSt (replicate 32 0) 0 (replicate 5 0) (replicate 5 0) (replicate 6 0) 1.

Definition lora_put (c : Z) (s : LoraSt) : option LoraSt :=
  b ← buf_set (lora_buffer s) (lora_buffer_index s) c;
  Some (s <| lora_buffer := b |> <| lora_buffer_index := lora_buffer_index s + 1 |>).

(** A start character opens a new frame; any other is kept inside a frame. *)
Definition lora_store (c : Z) (s : LoraSt) : option LoraSt :=
  if (c =? chr "A") || (c =? chr "H") then
    s ← lora_put c (s <| lora_buffer_index := 0 |>);
    if c =? chr "A" then Some (s <| data_type := 1 |>) else Some (s <| data_type := 2 |>)
  else if negb (lora_buffer_index s =? 0) then lora_put c s
  else Some s.

Definition joystick_format : list directive :=
  [Lit (chr "A"); digit_set; Lit (chr ","); digit_set; Lit (chr "Z"); Lit (chr ",")].
Definition key_format : list directive :=
  [Lit (chr "H"); digit_set; Lit (chr "Z"); Lit (chr ",")].

Definition deadband (v : Z) : Z := if (45 <? v) && (v <? 55) then 50 else v.

(** [data_type==1]: the joystick. *)
Definition lora_joystick (s : LoraSt) (g : Globals) : option (LoraSt * Globals) :=
  str ← cstr (lora_buffer s);
  ds ← sscanf str joystick_format [col_s s; row_s s];
  match ds with
  | [c_s; r_s] =>
      vc ← atoi c_s;
      vr ← atoi r_s;
      Some (s <| col_s := c_s |> <| row_s := r_s |>,
            g <| col := deadband (u32 vc) |> <| row := deadband (u32 vr) |>)
  | _ => None
  end.

(** [data_type==2]: the buttons; each string has one character. *)
Definition lora_keys (s : LoraSt) (g : Globals) : option (LoraSt * Globals) :=
  str ← cstr (lora_buffer s);
  ds ← sscanf str key_format [key_s s];
  match ds with
  | [k_s] =>
      c0 ← buf_get k_s 0;
      c1 ← buf_get k_s 1;
      c2 ← buf_get k_s 2;
      key1 ← atoi [c0; NUL];
      key2 ← atoi [c1; NUL];
      key3 ← atoi [c2; NUL];
      let g := if Z.rem key1 2 =? 1 then set_key 0 1 g else set_key 0 0 g in
      let g := if Z.rem key1 3 =? 1 then set_key 1 1 g else set_key 1 0 g in
      let g := if Z.rem key2 3 =? 1 then set_key 2 1 g else set_key 2 0 g in
      Some (s <| key_s := k_s |>, g)
  | _ => None
  end.

(** The end character: decode the frame according to its type. *)
Definition lora_end (now : Z) (s : LoraSt) (g : Globals) : option (LoraSt * Globals) :=
  b ← buf_set (lora_buffer s) (lora_buffer_index s) NUL;
  let s := s <| lora_buffer := b |> in
  '(s, g) ← (if data_type s =? 1 then lora_joystick s g else Some (s, g));
  '(s, g) ← (if data_type s =? 2 then lora_keys s g else Some (s, g));
  Some (s <| lora_buffer_index := 0 |>, g <| rec_tick := now |>).

Definition lora_rec_byte (now c : Z) (s : LoraSt) (g : Globals) : option (LoraSt * Globals) :=
  s ← lora_store c s;
  '(s, g) ← (if (c =? chr "Z") && negb (lora_buffer_index s =? 0)
             then lora_end now s g else Some (s, g));
  let s := if 20 <? lora_buffer_index s then s <| lora_buffer_index := 0 |> else s in
  Some (s, g).

(** A sequence of received bytes, each with the tick it is handled at. *)
Fixpoint lora_rec (evs : list (Z * Z)) (s : LoraSt) (g : Globals) : option (LoraSt * Globals) :=
  match evs with
  | [] => Some (s, g)
  | (now, c) :: evs' => '(s, g) ← lora_rec_byte now c s g; lora_rec evs' s g
  end.

(** ** The invariant of the loop *)

Record lora_wf (s : LoraSt) : Prop := {
  lw_buf : length (lora_buffer s) = 32%nat;
  lw_idx : 0 <= lora_buffer_index s <= 20;
  lw_row : length (row_s s) = 5%nat /\ terminated (row_s s);
  lw_col : length (col_s s) = 5%nat /\ terminated (col_s s);
  lw_key : length (key_s s) = 6%nat;
  lw_type : data_type s = 1 \/ data_type s = 2;
  lw_first : lora_buffer_index s <> 0 ->
    lora_buffer s !! 0%nat = Some (if data_type s =? 1 then chr "A" else chr "H");
}.

(** The frame the end character completes, as the string [sscanf] reads. *)
Definition frame_string (s : LoraSt) : list Z :=
  match cstr (take (Z.to_nat (lora_buffer_index s)) (lora_buffer s) ++ [chr "Z"; NUL]) with
  | Some str => str
  | None => []
  end.

Definition digits_after (str : list Z) : list Z * list Z := span is_digit (tl str).

(** Does a field of that frame exceed the array [sscanf] copies it to? *)
Definition frame_overflows (s : LoraSt) : bool :=
  let '(d1, r1) := digits_after (frame_string s) in
  if data_type s =? 1 then
    (4 <? Z.of_nat (length d1)) ||
    (negb (Z.of_nat (length d1) =? 0) &&
     match r1 with
     | x :: _ => (x =? chr ",") && (4 <? Z.of_nat (length (digits_after r1).1))
     | [] => false
     end)
  else 5 <? Z.of_nat (length d1).

(** ** Lemmas *)

Lemma lora_put_eq c s :
  length (lora_buffer s) = 32%nat -> 0 <= lora_buffer_index s <= 21 ->
  lora_put c s =
    Some (s <| lora_buffer := <[Z.to_nat (lora_buffer_index s) := c]> (lora_buffer s) |>
            <| lora_buffer_index := lora_buffer_index s + 1 |>).
Proof. intros Hl Hi. unfold lora_put. rewrite buf_set_Some by lia. reflexivity. Qed.

Lemma lora_store_plain c s :
  (c =? chr "A") = false -> (c =? chr "H") = false -> lora_wf s ->
  lora_store c s =
    Some (if lora_buffer_index s =? 0 then s
          else s <| lora_buffer := <[Z.to_nat (lora_buffer_index s) := c]> (lora_buffer s) |>
                 <| lora_buffer_index := lora_buffer_index s + 1 |>).
Proof.
  intros HA HH Hw. unfold lora_store. rewrite HA, HH. cbn [orb].
  destruct (lora_buffer_index s =? 0); [reflexivity|]. cbn [negb].
  apply lora_put_eq; [apply Hw|pose proof (lw_idx s Hw); lia].
Qed.

(** What [lora_store] does on every byte. *)
Definition after_store (c : Z) (s : LoraSt) : LoraSt :=
  if (c =? chr "A") || (c =? chr "H") then
    mkLoraSt (<[0%nat := c]> (lora_buffer s)) 1 (row_s s) (col_s s) (key_s s)
             (if c =? chr "A" then 1 else 2)
  else if lora_buffer_index s =? 0 then s
  else mkLoraSt (<[Z.to_nat (lora_buffer_index s) := c]> (lora_buffer s))
                (lora_buffer_index s + 1) (row_s s) (col_s s) (key_s s) (data_type s).

Lemma lora_store_eq c s : lora_wf s -> lora_store c s = Some (after_store c s).
Proof.
  intros Hw. unfold after_store.
  destruct ((c =? chr "A") || (c =? chr "H")) eqn:E.
  - unfold lora_store. rewrite E. rewrite lora_put_eq by (cbn; first [lia | apply Hw]).
    cbn. destruct (c =? chr "A"); reflexivity.
  - apply orb_false_iff in E as [HA HH]. rewrite lora_store_plain by assumption.
    destruct (lora_buffer_index s =? 0); reflexivity.
Qed.

Lemma after_store_wf c s : lora_wf s ->
  length (lora_buffer (after_store c s)) = 32%nat /\
  0 <= lora_buffer_index (after_store c s) <= 21 /\
  (data_type (after_store c s) = 1 \/ data_type (after_store c s) = 2) /\
  (lora_buffer_index (after_store c s) <> 0 ->
   lora_buffer (after_store c s) !! 0%nat =
     Some (if data_type (after_store c s) =? 1 then chr "A" else chr "H")).
Proof.
  intros [Hb Hi _ _ _ Ht Hf]. unfold after_store.
  destruct (c =? chr "A") eqn:EA; [|destruct (c =? chr "H") eqn:EH]; cbn.
  - apply Z.eqb_eq in EA as ->. rewrite length_insert. split_ands; auto; try lia.
    intros _. apply list_lookup_insert_eq. lia.
  - apply Z.eqb_eq in EH as ->. rewrite length_insert. split_ands; auto; try lia.
    intros _. apply list_lookup_insert_eq. lia.
  - destruct (Z.eqb_spec (lora_buffer_index s) 0); cbn; [split_ands; auto; lia|].
    rewrite length_insert. split_ands; auto; try lia.
    intros _. rewrite list_lookup_insert_ne by lia. auto.
Qed.

Lemma after_store_arrays c s :
  row_s (after_store c s) = row_s s /\ col_s (after_store c s) = col_s s /\
  key_s (after_store c s) = key_s s.
Proof. unfold after_store. destruct (_ || _); [auto|]. destruct (lora_buffer_index s =? 0); auto. Qed.

(** A byte that does not complete a frame. *)
Definition wrap_index (s : LoraSt) : LoraSt :=
  if 20 <? lora_buffer_index s then s <| lora_buffer_index := 0 |> else s.

Lemma lora_rec_byte_store now c s g : lora_wf s ->
  (c =? chr "Z") && negb (lora_buffer_index s =? 0) = false ->
  lora_rec_byte now c s g = Some (wrap_index (after_store c s), g).
Proof.
  intros Hw Hc. unfold lora_rec_byte. rewrite lora_store_eq by assumption. cbn.
  replace ((c =? chr "Z") && negb (lora_buffer_index (after_store c s) =? 0)) with false;
    [reflexivity|].
  destruct (Z.eqb_spec c (chr "Z")) as [->|]; [|reflexivity].
  cbn in Hc. unfold after_store. cbn. destruct (lora_buffer_index s =? 0) eqn:E; [|discriminate].
  chars. rewrite E. reflexivity.
Qed.

Lemma wrap_index_wf c s : lora_wf s -> lora_wf (wrap_index (after_store c s)).
Proof.
  intros Hw. pose proof (after_store_wf c s Hw) as (Hb & Hi & Ht & Hf).
  pose proof (after_store_arrays c s) as (Er & Ec & Ek).
  unfold wrap_index. destruct (Z.ltb_spec 20 (lora_buffer_index (after_store c s)));
    constructor; cbn; rewrite ?Er, ?Ec, ?Ek; try apply Hw; auto; try lia.
Qed.

(** The end character: what is in the buffer when [sscanf] runs. *)
Lemma after_Z s : lora_wf s -> lora_buffer_index s <> 0 ->
  after_store (chr "Z") s =
    mkLoraSt (<[Z.to_nat (lora_buffer_index s) := chr "Z"]> (lora_buffer s))
             (lora_buffer_index s + 1) (row_s s) (col_s s) (key_s s) (data_type s).
Proof. intros _ H. unfold after_store. chars. rewrite (proj2 (Z.eqb_neq _ 0) H). reflexivity. Qed.

Lemma cstr_prefix a b s : cstr a = Some s -> cstr (a ++ b) = Some s.
Proof.
  revert s. induction a as [|c a IH]; intros s; cbn; [discriminate|].
  destruct (c =? NUL); [auto|].
  destruct (cstr a) as [s'|]; [|discriminate]. rewrite (IH s' eq_refl). auto.
Qed.

Lemma frame_string_cstr s : lora_wf s ->
  cstr (<[S (Z.to_nat (lora_buffer_index s)) := NUL]>
          (<[Z.to_nat (lora_buffer_index s) := chr "Z"]> (lora_buffer s))) =
  Some (frame_string s).
Proof.
  intros Hw. pose proof (lw_idx s Hw). pose proof (lw_buf s Hw).
  rewrite insert_two_take by lia. unfold frame_string.
  set (p := take _ _).
  assert (Ht : terminated (p ++ [chr "Z"; NUL])).
  { unfold terminated. rewrite Exists_app. right. right. left. reflexivity. }
  apply cstr_Some in Ht as [str Hstr]. rewrite Hstr.
  replace (p ++ chr "Z" :: NUL :: drop (S (S (Z.to_nat (lora_buffer_index s)))) (lora_buffer s))
    with ((p ++ [chr "Z"; NUL]) ++ drop (S (S (Z.to_nat (lora_buffer_index s)))) (lora_buffer s))
    by (rewrite <- app_assoc; reflexivity).
  apply cstr_prefix, Hstr.
Qed.

(** The first character of that string is the start character. *)
Lemma frame_string_head s : lora_wf s -> lora_buffer_index s <> 0 ->
  exists rest, frame_string s = (if data_type s =? 1 then chr "A" else chr "H") :: rest.
Proof.
  intros Hw H0. pose proof (lw_first s Hw H0) as Hf. pose proof (lw_idx s Hw) as Hi.
  unfold frame_string.
  destruct (lora_buffer s) as [|a b]; [discriminate|]. injection Hf as ->.
  destruct (Z.to_nat (lora_buffer_index s)) as [|n] eqn:En; [lia|].
  cbn [take app cstr].
  replace ((if data_type s =? 1 then chr "A" else chr "H") =? NUL) with false
    by (destruct (data_type s =? 1); reflexivity).
  assert (Ht : terminated (take n b ++ [chr "Z"; NUL])).
  { unfold terminated. rewrite Exists_app. right. right. left. reflexivity. }
  apply cstr_Some in Ht as [str ->]. eauto.
Qed.

(** The outcome of the two [sscanf] calls. *)
Lemma joystick_scan_overflow str cs rs :
  length cs = 5%nat -> length rs = 5%nat ->
  (sscanf (chr "A" :: str) joystick_format [cs; rs] = None <->
   (let '(d1, r1) := span is_digit str in
    (4 <? Z.of_nat (length d1)) ||
    (negb (Z.of_nat (length d1) =? 0) &&
     match r1 with
     | x :: r2 => (x =? chr ",") && (4 <? Z.of_nat (length (span is_digit r2).1))
     | [] => false
     end)) = true).
Proof.
  intros Hc Hr. unfold joystick_format. cbn [sscanf]. chars.
  unfold digit_set.
  destruct (span is_digit str) as [d1 r1].
  destruct d1 as [|a d1]; [cbn; split; discriminate|].
  destruct (Z.ltb_spec 4 (Z.of_nat (length (a :: d1)))) as [Hd|Hd].
  { rewrite str_store_None by lia. cbn. tauto. }
  rewrite str_store_Some by lia. cbn [length orb]. rewrite Nat2Z.inj_succ.
  rewrite (proj2 (Z.eqb_neq (Z.succ _) 0)) by lia. cbn [negb andb].
  destruct r1 as [|x r2]; [split; discriminate|].
  destruct (x =? chr ","); [|split; discriminate]. cbn [andb].
  destruct (span is_digit r2) as [d2 r3]. cbn [fst].
  destruct d2 as [|b d2]; [cbn; split; discriminate|].
  destruct (Z.ltb_spec 4 (Z.of_nat (length (b :: d2)))) as [He|He].
  { rewrite str_store_None by lia. tauto. }
  rewrite str_store_Some by lia.
  split; [|discriminate].
  destruct r3 as [|y r4]; [discriminate|]. destruct (y =? chr "Z"); [|discriminate].
  destruct r4 as [|z r5]; [discriminate|]. destruct (z =? chr ","); discriminate.
Qed.

Lemma key_scan_overflow str ks :
  length ks = 6%nat ->
  (sscanf (chr "H" :: str) key_format [ks] = None <->
   (5 <? Z.of_nat (length (span is_digit str).1)) = true).
Proof.
  intros Hk. unfold key_format. cbn [sscanf]. chars. unfold digit_set.
  destruct (span is_digit str) as [d1 r1]. cbn [fst].
  destruct d1 as [|a d1]; [cbn; split; discriminate|].
  destruct (Z.ltb_spec 5 (Z.of_nat (length (a :: d1)))) as [Hd|Hd].
  { rewrite str_store_None by lia. tauto. }
  rewrite str_store_Some by lia. split; [|discriminate].
  destruct r1 as [|x r2]; [discriminate|]. destruct (x =? chr "Z"); [|discriminate].
  destruct r2 as [|y r3]; [discriminate|]. destruct (y =? chr ","); discriminate.
Qed.

(** Once [sscanf] has returned, the conversions cannot fail. *)
Lemma lora_joystick_Some s g str ds :
  cstr (lora_buffer s) = Some str ->
  length (row_s s) = 5%nat /\ terminated (row_s s) ->
  length (col_s s) = 5%nat /\ terminated (col_s s) ->
  sscanf str joystick_format [col_s s; row_s s] = Some ds ->
  exists c_s r_s vc vr,
    ds = [c_s; r_s] /\ atoi c_s = Some vc /\ atoi r_s = Some vr /\
    (length c_s = 5%nat /\ terminated c_s) /\ (length r_s = 5%nat /\ terminated r_s) /\
    lora_joystick s g =
      Some (s <| col_s := c_s |> <| row_s := r_s |>,
            g <| col := deadband (u32 vc) |> <| row := deadband (u32 vr) |>).
Proof.
  intros Hstr [Hr Htr] [Hc Htc] Hds.
  pose proof (sscanf_lengths _ _ _ _ Hds) as Hlen.
  pose proof (sscanf_terminated _ _ _ _ Hds ltac:(auto)) as Hter.
  destruct ds as [|c_s [|r_s [|]]]; try discriminate. cbn in Hlen. injection Hlen as H1 H2.
  inversion Hter as [|? ? Ht1 Hter']; subst. inversion Hter' as [|? ? Ht2 _]; subst.
  destruct (atoi_terminated c_s Ht1) as [vc Hvc].
  destruct (atoi_terminated r_s Ht2) as [vr Hvr].
  exists c_s, r_s, vc, vr. split_ands; auto; try congruence.
  unfold lora_joystick. rewrite Hstr. cbn. cbn in Hds. rewrite Hds. cbn.
  rewrite Hvc. cbn. rewrite Hvr. reflexivity.
Qed.

Definition set_keys (key1 key2 : Z) (g : Globals) : Globals :=
  set_key 2 (if Z.rem key2 3 =? 1 then 1 else 0)
    (set_key 1 (if Z.rem key1 3 =? 1 then 1 else 0)
      (set_key 0 (if Z.rem key1 2 =? 1 then 1 else 0) g)).

Lemma atoi_one c : atoi [c; NUL] = Some (strtol10 (if c =? NUL then [] else [c])).
Proof. unfold atoi. cbn. destruct (c =? NUL); reflexivity. Qed.

Lemma lora_keys_Some s g str ds :
  cstr (lora_buffer s) = Some str -> length (key_s s) = 6%nat ->
  sscanf str key_format [key_s s] = Some ds ->
  exists c0 c1 c2 r,
    ds = [c0 :: c1 :: c2 :: r] /\ length (c0 :: c1 :: c2 :: r) = 6%nat /\
    lora_keys s g =
      Some (s <| key_s := c0 :: c1 :: c2 :: r |>,
            set_keys (strtol10 (if c0 =? NUL then [] else [c0]))
                     (strtol10 (if c1 =? NUL then [] else [c1])) g).
Proof.
  intros Hstr Hk Hds. pose proof (sscanf_lengths _ _ _ _ Hds) as Hlen.
  destruct ds as [|k_s [|]]; try discriminate. cbn in Hlen. injection Hlen as H1.
  rewrite Hk in H1.
  destruct k_s as [|c0 [|c1 [|c2 r]]]; try discriminate.
  exists c0, c1, c2, r. split_ands; auto.
  unfold lora_keys. rewrite Hstr. cbn [mbind option_bind]. rewrite Hds. cbn [mbind option_bind].
  change (buf_get (c0 :: c1 :: c2 :: r) 0) with (Some c0).
  change (buf_get (c0 :: c1 :: c2 :: r) 1) with (Some c1).
  change (buf_get (c0 :: c1 :: c2 :: r) 2) with (Some c2).
  cbn [mbind option_bind]. rewrite !atoi_one. cbn [mbind option_bind].
  unfold set_keys.
  destruct (Z.rem (strtol10 (if c0 =? NUL then [] else [c0])) 2 =? 1),
           (Z.rem (strtol10 (if c0 =? NUL then [] else [c0])) 3 =? 1),
           (Z.rem (strtol10 (if c1 =? NUL then [] else [c1])) 3 =? 1); reflexivity.
Qed.

Definition framed (s : LoraSt) : LoraSt :=
  mkLoraSt (<[S (Z.to_nat (lora_buffer_index s)) := NUL]>
              (<[Z.to_nat (lora_buffer_index s) := chr "Z"]> (lora_buffer s)))
           (lora_buffer_index s + 1) (row_s s) (col_s s) (key_s s) (data_type s).

Lemma lora_rec_byte_Z now s g : lora_wf s -> lora_buffer_index s <> 0 ->
  lora_rec_byte now (chr "Z") s g =
    ('(s', g') ← (if data_type s =? 1 then lora_joystick (framed s) g else lora_keys (framed s) g);
     Some (s' <| lora_buffer_index := 0 |>, g' <| rec_tick := now |>)).
Proof.
  intros Hw H0. pose proof (lw_buf s Hw) as Hb. pose proof (lw_idx s Hw) as Hi.
  unfold lora_rec_byte. rewrite lora_store_eq, after_Z by assumption. cbn [mbind option_bind].
  chars. cbn [lora_buffer_index].
  rewrite (proj2 (Z.eqb_neq (lora_buffer_index s + 1) 0)) by lia. chars.
  unfold lora_end. cbn [lora_buffer lora_buffer_index].
  rewrite buf_set_Some by (rewrite length_insert; lia). cbn [mbind option_bind].
  replace (Z.to_nat (lora_buffer_index s + 1)) with (S (Z.to_nat (lora_buffer_index s))) by lia.
  change (mkLoraSt _ _ _ _ _ _ <| lora_buffer := _ |>) with (framed s).
  change (data_type (framed s)) with (data_type s).
  destruct (data_type s =? 1) eqn:E1.
  - destruct (lora_joystick (framed s) g) as [[s' g']|] eqn:E; [|reflexivity].
    cbn [mbind option_bind].
    assert (Hd : data_type s' = data_type s).
    { unfold lora_joystick in E. destruct (cstr _); [|discriminate]. cbn [mbind option_bind] in E.
      destruct (sscanf _ _ _) as [[|c_s [|r_s [|]]]|]; try discriminate. cbn [mbind option_bind] in E.
      destruct (atoi c_s); [|discriminate]. cbn [mbind option_bind] in E.
      destruct (atoi r_s); [|discriminate]. injection E as <- _. reflexivity. }
    rewrite Hd. apply Z.eqb_eq in E1. rewrite E1. reflexivity.
  - cbn [mbind option_bind]. change (data_type (framed s)) with (data_type s).
    destruct (lw_type s Hw) as [Et|Et]; rewrite Et in *; [discriminate|].
    destruct (lora_keys (framed s) g) as [[s' g']|]; reflexivity.
Qed.

Lemma framed_cstr s : lora_wf s -> cstr (lora_buffer (framed s)) = Some (frame_string s).
Proof. apply frame_string_cstr. Qed.

Lemma framed_length s : lora_wf s -> length (lora_buffer (framed s)) = 32%nat.
Proof. intros Hw. cbn. rewrite !length_insert. apply Hw. Qed.

(** The scan of a completed frame fails exactly on an overflowing field. *)
Lemma frame_scan s : lora_wf s -> lora_buffer_index s <> 0 ->
  (if data_type s =? 1
   then sscanf (frame_string s) joystick_format [col_s s; row_s s] = None
   else sscanf (frame_string s) key_format [key_s s] = None) <-> frame_overflows s = true.
Proof.
  intros Hw H0. destruct (frame_string_head s Hw H0) as [rest Hr].
  unfold frame_overflows, digits_after. rewrite Hr. cbn [tl].
  destruct (data_type s =? 1).
  - rewrite joystick_scan_overflow by apply Hw.
    destruct (span is_digit rest) as [d1 [|x r1]]; reflexivity.
  - rewrite key_scan_overflow by apply Hw.
    destruct (span is_digit rest) as [d1 r1]; reflexivity.
Qed.

Lemma lora_byte_cases now c s g :
  lora_wf s ->
  (lora_rec_byte now c s g = None <->
     c = chr "Z" /\ lora_buffer_index s <> 0 /\ frame_overflows s = true) /\
  (forall s' g', lora_rec_byte now c s g = Some (s', g') ->
     lora_wf s' /\ length (key g') = length (key g)).
Proof.
  intros Hw.
  destruct ((c =? chr "Z") && negb (lora_buffer_index s =? 0)) eqn:Ec.
  2: { rewrite lora_rec_byte_store by assumption. split.
    - split; [discriminate|]. intros (-> & H0 & _).
      rewrite (proj2 (Z.eqb_neq _ 0) H0) in Ec. discriminate Ec.
    - intros s' g' [= <- <-]. split; [apply wrap_index_wf, Hw|reflexivity]. }
  apply andb_prop in Ec as [Ez%Z.eqb_eq E0]. subst c.
  assert (H0 : lora_buffer_index s <> 0) by (destruct (Z.eqb_spec (lora_buffer_index s) 0); easy).
  rewrite lora_rec_byte_Z by assumption.
  pose proof (frame_scan s Hw H0) as Hscan.
  assert (Hfin : forall s1 : LoraSt, length (lora_buffer s1) = 32%nat ->
    length (row_s s1) = 5%nat /\ terminated (row_s s1) ->
    length (col_s s1) = 5%nat /\ terminated (col_s s1) -> length (key_s s1) = 6%nat ->
    data_type s1 = data_type s -> lora_wf (s1 <| lora_buffer_index := 0 |>)).
  { intros s1 ? ? ? ? Ht. constructor; cbn; auto; try lia. rewrite Ht. apply Hw. }
  destruct (data_type s =? 1).
  - destruct (sscanf (frame_string s) joystick_format [col_s s; row_s s]) as [ds|] eqn:Hds.
    + destruct (lora_joystick_Some (framed s) g _ ds (framed_cstr s Hw) (lw_row s Hw) (lw_col s Hw) Hds)
        as (c_s & r_s & vc & vr & _ & _ & _ & Hcs & Hrs & ->).
      cbn [mbind option_bind]. split.
      * split; [discriminate|]. intros (_ & _ & Ho). apply Hscan in Ho. discriminate.
      * intros s' g' [= <- <-]. split; [|reflexivity].
        apply Hfin; auto; [apply framed_length, Hw|apply Hw].
    + unfold lora_joystick. rewrite framed_cstr by assumption. cbn [mbind option_bind].
      change (col_s (framed s)) with (col_s s). change (row_s (framed s)) with (row_s s).
      rewrite Hds. split; [|discriminate]. cbn. intuition.
  - destruct (sscanf (frame_string s) key_format [key_s s]) as [ds|] eqn:Hds.
    + destruct (lora_keys_Some (framed s) g _ ds (framed_cstr s Hw) (lw_key s Hw) Hds)
        as (c0 & c1 & c2 & r & _ & Hlen & ->).
      cbn [mbind option_bind]. split.
      * split; [discriminate|]. intros (_ & _ & Ho). apply Hscan in Ho. discriminate.
      * intros s' g' [= <- <-].
        split; [apply Hfin; auto; [apply framed_length, Hw|apply Hw|apply Hw]|].
        cbn [key]. unfold set_keys. exact (eq_trans (set_key_length _ _ _)
          (eq_trans (set_key_length _ _ _) (set_key_length _ _ _))).
    + unfold lora_keys. rewrite framed_cstr by assumption. cbn [mbind option_bind].
      change (key_s (framed s)) with (key_s s). rewrite Hds.
      split; [|discriminate]. cbn. intuition.
Qed.

(** ** Frames, byte by byte *)

(** The receiver is inside a frame of type [t] and has stored [str] of it. *)
Record holding (t : Z) (str : list Z) (s : LoraSt) : Prop := {
  h_wf : lora_wf s;
  h_type : data_type s = t;
  h_idx : lora_buffer_index s = Z.of_nat (length str);
  h_take : take (length str) (lora_buffer s) = str;
}.

Definition plain (c : Z) : bool :=
  negb (c =? chr "A") && negb (c =? chr "H") && negb (c =? chr "Z") && negb (c =? NUL).

Lemma start_byte now c s g :
  c = chr "A" \/ c = chr "H" -> lora_wf s ->
  exists s', lora_rec_byte now c s g = Some (s', g) /\
    holding (if c =? chr "A" then 1 else 2) [c] s' /\
    row_s s' = row_s s /\ col_s s' = col_s s /\ key_s s' = key_s s.
Proof.
  intros Hc Hw. eexists. split.
  - apply lora_rec_byte_store; [exact Hw|]. destruct Hc as [-> | ->]; reflexivity.
  - pose proof (lw_buf s Hw) as Hb. destruct (lora_buffer s) as [|b0 b] eqn:E; [discriminate|].
    split; [constructor|].
    + apply wrap_index_wf, Hw.
    + unfold after_store. destruct Hc as [-> | ->]; reflexivity.
    + unfold after_store. destruct Hc as [-> | ->]; reflexivity.
    + unfold after_store. destruct Hc as [-> | ->]; chars; cbn; rewrite E; reflexivity.
    + unfold after_store. destruct Hc as [-> | ->]; auto.
Qed.

Lemma plain_byte now c t str s g :
  plain c = true -> holding t str s -> (1 <= length str < 20)%nat ->
  exists s', lora_rec_byte now c s g = Some (s', g) /\ holding t (str ++ [c]) s' /\
    row_s s' = row_s s /\ col_s s' = col_s s /\ key_s s' = key_s s.
Proof.
  intros Hp [Hw Ht Hi Htk] Hl.
  unfold plain in Hp. rewrite !andb_true_iff, !negb_true_iff in Hp.
  destruct Hp as (((HA & HH) & HZ) & _).
  eexists. split.
  { apply lora_rec_byte_store; [exact Hw|]. rewrite HZ. reflexivity. }
  pose proof (wrap_index_wf c s Hw) as Hw'. revert Hw'.
  unfold after_store. rewrite HA, HH. cbn [orb].
  rewrite (proj2 (Z.eqb_neq (lora_buffer_index s) 0)) by lia.
  unfold wrap_index; cbn [lora_buffer_index].
  rewrite (proj2 (Z.ltb_ge 20 (lora_buffer_index s + 1))) by lia.
  intros Hw'. split; [|auto]. constructor; cbn.
  - exact Hw'.
  - exact Ht.
  - rewrite length_app. cbn. lia.
  - rewrite length_app. cbn. rewrite Nat.add_1_r, Hi, Nat2Z.id.
    rewrite take_insert_snoc by (rewrite (lw_buf s Hw); lia). rewrite Htk. reflexivity.
Qed.

Lemma plain_bytes evs t str s g :
  Forall (fun e => plain e.2 = true) evs -> holding t str s -> (1 <= length str)%nat ->
  (length str + length evs <= 20)%nat ->
  exists s', lora_rec evs s g = Some (s', g) /\ holding t (str ++ evs.*2) s' /\
    row_s s' = row_s s /\ col_s s' = col_s s /\ key_s s' = key_s s.
Proof.
  intros Hp. revert str s. induction Hp as [|[now c] evs Hc Hp IH]; intros str s Hh H1 Hl.
  { exists s. cbn. rewrite app_nil_r. auto. }
  cbn [length] in Hl.
  destruct (plain_byte now c t str s g Hc Hh ltac:(lia)) as (s1 & E1 & Hh1 & R1 & C1 & K1).
  destruct (IH (str ++ [c]) s1 Hh1) as (s2 & E2 & Hh2 & R2 & C2 & K2);
    [rewrite length_app; cbn; lia..|].
  exists s2. cbn [lora_rec]. rewrite E1. cbn [mbind option_bind]. rewrite E2.
  split; [reflexivity|]. cbn [fmap list_fmap snd].
  rewrite <- app_assoc in Hh2. cbn [app] in Hh2. split; [exact Hh2|]. split_ands; congruence.
Qed.

Lemma lora_rec_app evs evs' s g :
  lora_rec (evs ++ evs') s g = ('(s', g') ← lora_rec evs s g; lora_rec evs' s' g').
Proof.
  revert s g. induction evs as [|[now c] evs IH]; intros s g; [reflexivity|].
  cbn [app lora_rec]. destruct (lora_rec_byte now c s g) as [[s1 g1]|]; [|reflexivity].
  cbn [mbind option_bind]. apply IH.
Qed.

(** A complete frame without memory error is decoded from its string. *)
Lemma holding_frame_string t str s :
  holding t str s -> Forall (fun c => c <> NUL) str -> frame_string s = str ++ [chr "Z"].
Proof.
  intros [Hw _ Hi Ht] Hn. unfold frame_string. rewrite Hi, Nat2Z.id, Ht.
  replace (str ++ [chr "Z"; NUL]) with ((str ++ [chr "Z"]) ++ [NUL]) by (rewrite <- app_assoc; reflexivity).
  rewrite cstr_app; [reflexivity|]. apply Forall_app. split; [exact Hn|].
  constructor; [discriminate|constructor].
Qed.

Lemma frame_run now evs t c body s g :
  (c = chr "A" /\ t = 1 \/ c = chr "H" /\ t = 2) ->
  evs.*2 = c :: body -> Forall (fun x => plain x = true) body -> (length body <= 19)%nat ->
  lora_wf s ->
  exists s', holding t (c :: body) s' /\
    row_s s' = row_s s /\ col_s s' = col_s s /\ key_s s' = key_s s /\
    frame_string s' = c :: body ++ [chr "Z"] /\
    lora_rec (evs ++ [(now, chr "Z")]) s g = lora_rec_byte now (chr "Z") s' g.
Proof.
  intros Hct Hev Hp Hl Hw.
  destruct evs as [|[n0 c0] evs]; [discriminate|]. injection Hev as -> Hev. change (evs.*2 = body) in Hev.
  destruct (start_byte n0 c s g ltac:(tauto) Hw) as (s1 & E1 & Hh1 & R1 & C1 & K1).
  replace (if c =? chr "A" then 1 else 2) with t in Hh1 by (destruct Hct as [[-> ->] | [-> ->]]; reflexivity).
  assert (Hlen : length evs = length body) by (rewrite <- Hev; symmetry; apply length_map).
  destruct (plain_bytes evs t [c] s1 g) as (s2 & E2 & Hh2 & R2 & C2 & K2);
    [|exact Hh1|cbn; lia|cbn; lia|].
  { rewrite <- Hev in Hp. apply Forall_fmap in Hp. exact Hp. }
  rewrite Hev in Hh2. cbn [app] in Hh2.
  exists s2. split; [exact Hh2|]. split_ands; try congruence.
  - rewrite (holding_frame_string t (c :: body) s2 Hh2); [reflexivity|].
    constructor; [destruct Hct as [[-> _] | [-> _]]; discriminate|].
    eapply Forall_impl; [exact Hp|]. intros x Hx. cbn in Hx. unfold plain in Hx.
    rewrite !andb_true_iff, !negb_true_iff in Hx. apply Z.eqb_neq, Hx.
  - rewrite lora_rec_app. cbn [lora_rec]. rewrite E1. cbn [mbind option_bind]. rewrite E2.
    cbn [mbind option_bind]. destruct (lora_rec_byte now (chr "Z") s2 g) as [[? ?]|]; reflexivity.
Qed.

Lemma digit_plain c : is_digit c = true -> plain c = true.
Proof.
  unfold is_digit, plain, chr, NUL. cbn. rewrite andb_true_iff, !Z.leb_le. intros [? ?].
  rewrite !andb_true_iff, !negb_true_iff, !Z.eqb_neq. lia.
Qed.

Lemma atoi_stored ds d :
  ds <> [] -> Forall (fun c => is_digit c = true) ds -> (length ds < length d)%nat ->
  atoi (ds ++ NUL :: drop (S (length ds)) d) = Some (Z.min INT_MAX (digits_val ds)).
Proof.
  intros Hne Hd _. unfold atoi. rewrite cstr_app.
  - cbn [option_map]. rewrite <- (app_nil_r ds) at 1. rewrite strtol10_digits; auto.
  - eapply Forall_impl; [exact Hd|]. intros c Hc ->. discriminate.
Qed.

Definition joystick_frame (x y : Z) : list Z :=
  chr "A" :: dec_nat x ++ chr "," :: dec_nat y.

Lemma joystick_scan x y cs rs :
  0 <= x <= 9999 -> 0 <= y <= 9999 -> length cs = 5%nat -> length rs = 5%nat ->
  exists c_s r_s, sscanf (joystick_frame x y ++ [chr "Z"]) joystick_format [cs; rs] = Some [c_s; r_s] /\
    atoi c_s = Some x /\ atoi r_s = Some y.
Proof.
  intros Hx Hy Hc Hr.
  pose proof (dec_nat_length x 4 ltac:(lia) ltac:(lia)) as Lx.
  pose proof (dec_nat_length y 4 ltac:(lia) ltac:(lia)) as Ly.
  pose proof (dec_nat_digits x ltac:(lia)) as Dx. pose proof (dec_nat_digits y ltac:(lia)) as Dy.
  pose proof (dec_digits_val 10 x ltac:(lia)) as Vx. pose proof (dec_digits_val 10 y ltac:(lia)) as Vy.
  fold (dec_nat x) in Vx. fold (dec_nat y) in Vy.
  unfold joystick_frame, joystick_format.
  cbn [app]. rewrite <- app_assoc. cbn [app].
  exists (dec_nat x ++ NUL :: drop (S (length (dec_nat x))) cs),
         (dec_nat y ++ NUL :: drop (S (length (dec_nat y))) rs).
  cbn [sscanf]. chars. unfold digit_set.
  rewrite span_stop by (exact Dx || reflexivity).
  rewrite str_store_Some by lia. chars.
  rewrite span_stop by (exact Dy || reflexivity).
  rewrite str_store_Some by lia. chars.
  destruct (dec_nat x) as [|a dx] eqn:Ex; [cbn in Lx; lia|].
  destruct (dec_nat y) as [|b dy] eqn:Ey; [cbn in Ly; lia|].
  split; [reflexivity|].
  rewrite !atoi_stored by (congruence || assumption || lia). rewrite Vx, Vy.
  split; f_equal; unfold INT_MAX; lia.
Qed.

(** ** Properties *)

(** C35: the receiver never writes outside its line buffer, and the only memory
    error it can make is [sscanf] copying a field of more than four digits
    (joystick) or five digits (buttons) of a completed frame into its small
    arrays; on every other byte the loop goes on in a well-formed state. *)
Theorem lora_rec_byte_safe now c s g :
  lora_wf s ->
  (lora_rec_byte now c s g = None <->
     c = chr "Z" /\ lora_buffer_index s <> 0 /\ frame_overflows s = true) /\
  (forall s' g', lora_rec_byte now c s g = Some (s', g') ->
     lora_wf s' /\ length (key g') = length (key g)).
Proof. apply lora_byte_cases. Qed.

(** A joystick frame [A<x>,<y>Z] with values below 10000, received byte by
    byte in any well-formed state (even in the middle of another frame) and
    at any ticks, sets [col] and [row] to its values with 46..54 pulled to the
    centre 50, stamps the remote control's tick and leaves every other global
    alone; the receiver is then idle. *)
Theorem lora_joystick_frame x y evs now s g :
  0 <= x <= 9999 -> 0 <= y <= 9999 -> lora_wf s ->
  evs.*2 = joystick_frame x y ->
  exists s', lora_rec (evs ++ [(now, chr "Z")]) s g =
    Some (s', g <| col := deadband x |> <| row := deadband y |> <| rec_tick := now |>) /\
    lora_wf s' /\ lora_buffer_index s' = 0.
Proof.
  intros Hx Hy Hw Hev.
  pose proof (dec_nat_length x 4 ltac:(lia) ltac:(lia)) as Lx.
  pose proof (dec_nat_length y 4 ltac:(lia) ltac:(lia)) as Ly.
  destruct (frame_run now evs 1 (chr "A") (dec_nat x ++ chr "," :: dec_nat y) s g)
    as (s1 & Hh & R1 & C1 & K1 & Hf & ->); auto.
  { apply Forall_app. split; [|constructor; [reflexivity|]];
      (eapply Forall_impl; [apply dec_nat_digits; lia|apply digit_plain]). }
  { rewrite length_app. cbn [length]. lia. }
  pose proof (h_wf _ _ _ Hh) as Hw1.
  assert (H0 : lora_buffer_index s1 <> 0) by (rewrite (h_idx _ _ _ Hh); cbn; lia).
  destruct (joystick_scan x y (col_s s1) (row_s s1) Hx Hy (proj1 (lw_col s1 Hw1)) (proj1 (lw_row s1 Hw1)))
    as (c_s & r_s & Hscan & Hac & Har).
  replace (joystick_frame x y ++ [chr "Z"]) with (frame_string s1) in Hscan by exact Hf.
  destruct (lora_joystick_Some (framed s1) g _ _ (framed_cstr s1 Hw1) (lw_row s1 Hw1) (lw_col s1 Hw1) Hscan)
    as (c' & r' & vc & vr & [= <- <-] & Hc & Hr & _ & _ & Ej).
  rewrite Hac in Hc. rewrite Har in Hr. injection Hc as <-. injection Hr as <-.
  rewrite (u32_small x), (u32_small y) in Ej by lia.
  destruct (lora_byte_cases now (chr "Z") s1 g Hw1) as [_ Hsafe]. revert Hsafe.
  rewrite lora_rec_byte_Z by assumption. rewrite (h_type _ _ _ Hh), Ej. cbn [mbind option_bind Z.eqb Pos.eqb].
  intros Hsafe. eexists. split; [reflexivity|]. split; [|reflexivity].
  exact (proj1 (Hsafe _ _ eq_refl)).
Qed.

Definition dig (d : Z) : Z := chr "0" + d.
Definition key_frame (a b : Z) (rest : list Z) : list Z :=
  chr "H" :: dig a :: dig b :: map dig rest.

Lemma dig_digit d : 0 <= d <= 9 -> is_digit (dig d) = true.
Proof. unfold dig, is_digit, chr. cbn -[Z.add]. intros. rewrite andb_true_iff, !Z.leb_le. lia. Qed.

Lemma strtol10_dig d : 0 <= d <= 9 -> strtol10 [dig d] = d.
Proof.
  intros Hd. rewrite <- (app_nil_r [dig d]), strtol10_digits; [|discriminate| |exact I].
  - unfold digits_val, dig, INT_MAX. cbn [fold_left]. lia.
  - constructor; [apply dig_digit, Hd|constructor].
Qed.

Lemma Forall_map_dig ds :
  Forall (fun d => 0 <= d <= 9) ds -> Forall (fun c => is_digit c = true) (map dig ds).
Proof. induction 1; cbn; constructor; auto using dig_digit. Qed.

(** A button frame [H<a><b>...Z] of two to five digits sets the enable
    key to the parity of [a], the winch key to [a mod 3 = 1] and the pump key
    to [b mod 3 = 1]; the other keys and all other globals stay as they are. *)
Theorem lora_key_frame a b rest evs now s g :
  0 <= a <= 9 -> 0 <= b <= 9 -> Forall (fun d => 0 <= d <= 9) rest ->
  (length rest <= 3)%nat -> lora_wf s -> (8 <= length (key g))%nat ->
  evs.*2 = key_frame a b rest ->
  exists s' g', lora_rec (evs ++ [(now, chr "Z")]) s g = Some (s', g') /\
    key_at g' 0 = a mod 2 /\
    key_at g' 1 = (if a mod 3 =? 1 then 1 else 0) /\
    key_at g' 2 = (if b mod 3 =? 1 then 1 else 0) /\
    (forall i, (3 <= i)%nat -> key_at g' i = key_at g i) /\
    g' = g <| key := key g' |> <| rec_tick := now |> /\
    lora_wf s' /\ lora_buffer_index s' = 0.
Proof.
  intros Ha Hb Hrest Hlen Hw Hk Hev.
  pose proof (dig_digit a Ha) as Da. pose proof (dig_digit b Hb) as Db.
  pose proof (Forall_map_dig rest Hrest) as Dr.
  assert (Dall : Forall (fun c => is_digit c = true) (dig a :: dig b :: map dig rest)) by auto.
  destruct (frame_run now evs 2 (chr "H") (dig a :: dig b :: map dig rest) s g)
    as (s1 & Hh & R1 & C1 & K1 & Hf & ->); auto.
  { eapply Forall_impl; [exact Dall|apply digit_plain]. }
  { cbn [length]. rewrite length_map. lia. }
  pose proof (h_wf _ _ _ Hh) as Hw1.
  assert (H0 : lora_buffer_index s1 <> 0) by (rewrite (h_idx _ _ _ Hh); cbn; lia).
  assert (Hscan : sscanf (frame_string s1) key_format [key_s s1] =
    Some [(dig a :: dig b :: map dig rest) ++
          NUL :: drop (S (length (dig a :: dig b :: map dig rest))) (key_s s1)]).
  { rewrite Hf. unfold key_format. cbn [sscanf]. chars. unfold digit_set.
    change ((dig a :: dig b :: map dig rest) ++ [chr "Z"])
      with ((dig a :: dig b :: map dig rest) ++ chr "Z" :: []).
    rewrite span_stop by (exact Dall || reflexivity).
    rewrite str_store_Some; [reflexivity|]. rewrite (lw_key s1 Hw1). cbn [length].
    rewrite length_map. lia. }
  destruct (lora_keys_Some (framed s1) g _ _ (framed_cstr s1 Hw1) (lw_key s1 Hw1) Hscan)
    as (c0 & c1 & c2 & r & E & _ & Ek).
  cbn [app] in E. injection E as <- <- _ .
  assert (Hne : forall d, is_digit d = true -> (d =? NUL) = false)
    by (intros d Hd; apply is_digit_not; [exact Hd|reflexivity]).
  rewrite (Hne _ Da), (Hne _ Db), !strtol10_dig in Ek by assumption.
  destruct (lora_byte_cases now (chr "Z") s1 g Hw1) as [_ Hsafe]. revert Hsafe.
  rewrite lora_rec_byte_Z by assumption. rewrite (h_type _ _ _ Hh), Ek. cbn [mbind option_bind Z.eqb Pos.eqb].
  intros Hsafe. eexists _, _. split; [reflexivity|].
  assert (Hkt : forall x i, key_at (x <| rec_tick := now |>) i = key_at x i) by reflexivity.
  unfold set_keys. rewrite !Z.rem_mod_nonneg, !Hkt by lia.
  split_ands; [| | | | |exact (proj1 (Hsafe _ _ eq_refl))|reflexivity].
  - rewrite !key_at_set_ne, key_at_set_eq by (lia || auto).
    pose proof (Z.mod_pos_bound a 2). destruct (Z.eqb_spec (a mod 2) 1); lia.
  - rewrite key_at_set_ne, key_at_set_eq; rewrite ?set_key_length; lia || auto.
  - rewrite key_at_set_eq; rewrite ?set_key_length; lia || auto.
  - intros i Hi. rewrite Hkt, !key_at_set_ne by lia. reflexivity.
  - reflexivity.
Qed.

Lemma lora_init_wf : lora_wf lora_init.
Proof.
  constructor; cbn; auto; try lia; split; auto; left; reflexivity.
Qed.

(** A joystick frame whose first field has five digits writes past [col_s]. *)
Lemma lora_rec_byte_safe_witness :
  exists s, lora_rec (map (pair 0) [chr "A"; chr "1"; chr "2"; chr "3"; chr "4"; chr "5"])
              lora_init globals_init = Some (s, globals_init) /\
            lora_rec_byte 0 (chr "Z") s globals_init = None.
Proof.
  exists (mkLoraSt ([65; 49; 50; 51; 52; 53] ++ replicate 26 0) 6
            (replicate 5 0) (replicate 5 0) (replicate 6 0) 1).
  split; [vm_compute; reflexivity|].
  refine (proj2 (proj1 (lora_rec_byte_safe 0 (chr "Z") _ globals_init _)) _).
  - constructor; cbn; auto; try lia; split; auto; left; reflexivity.
  - split; [reflexivity|]. split; [discriminate|vm_compute; reflexivity].
Defined.

Lemma lora_joystick_frame_witness :
  exists s', lora_rec (map (pair 7) (joystick_frame 30 48) ++ [(9, chr "Z")]) lora_init globals_init =
    Some (s', globals_init <| col := deadband 30 |> <| row := deadband 48 |> <| rec_tick := 9 |>) /\
    lora_wf s' /\ lora_buffer_index s' = 0.
Proof.
  apply (lora_joystick_frame 30 48 (map (pair 7) (joystick_frame 30 48)) 9 lora_init globals_init);
    [lia|lia|exact lora_init_wf|reflexivity].
Defined.

Lemma lora_key_frame_witness :
  exists s' g', lora_rec (map (pair 7) (key_frame 1 4 [0]) ++ [(9, chr "Z")]) lora_init globals_init =
    Some (s', g') /\ key_at g' 0 = 1 mod 2 /\
    key_at g' 1 = (if 1 mod 3 =? 1 then 1 else 0) /\
    key_at g' 2 = (if 4 mod 3 =? 1 then 1 else 0).
Proof.
  destruct (lora_key_frame 1 4 [0] (map (pair 7) (key_frame 1 4 [0])) 9 lora_init globals_init)
    as (s' & g' & H1 & H2 & H3 & H4 & _);
    [lia|lia|repeat constructor; lia|cbn; lia|exact lora_init_wf|cbn; lia|reflexivity|].
  exists s', g'. auto.
Defined.
