(* ===== verification/Raspberry.v ===== *)
(** The link to the on-board computer (src/applications/raspberry.c): command
    frames [S<type>,<field>,...Z] are received byte by byte and change the
    globals; the sender thread reports the boat's state.  [rasp_rec_byte] is one
    turn of the loop of [lora_rec], [rasp_send_step] the sender's code between
    two delays. *)

From Stdlib Require Import Floats.SpecFloat.
From S2P Require Import Prelude CFloat Scan Globals.
From S2P Require Printf.

(** The receiver's locals, the buffer it shares with the sender and the
    sender's flags.  [c1]..[c6] are not initialised by the code. *)
Record RaspSt := mkRaspSt {
  lora_buffer : list Z;        (* char[50] *)
  lora_buffer_index : Z;
  info_type : Z;
  c1 : list Z;                 (* char[20], as the five others *)
  c2 : list Z;
  c3 : list Z;
  c4 : list Z;
  c5 : list Z;
  c6 : list Z;
  send_status_data : Z;
  send_detect_data : Z;
  send_confirm_data : Z;
}.
#[export] Instance RaspSt_rebuild : Rebuild RaspSt := fun s =>
  mkRaspSt (lora_buffer s) (lora_buffer_index s) (info_type s)
    (c1 s) (c2 s) (c3 s) (c4 s) (c5 s) (c6 s)
    (send_status_data s) (send_detect_data s) (send_confirm_data s).

(** [garbage] is what the stack held where [c1]..[c6] are. *)
Definition rasp_init (garbage : list Z) : RaspSt :=
  mkRaspSt (replicate 50 0) 0 0 garbage garbage garbage garbage garbage garbage 1 0 0.

Definition rasp_put (c : Z) (s : RaspSt) : option RaspSt :=
  b ← buf_set (lora_buffer s) (lora_buffer_index s) c;
  Some (s <| lora_buffer := b |> <| lora_buffer_index := lora_buffer_index s + 1 |>).

(** [after] is the memory behind the variable [lora_char]: [atoi(&lora_char)]
    reads on into it. *)
Definition rasp_store (after : list Z) (c : Z) (s : RaspSt) : option RaspSt :=
  if c =? chr "S" then rasp_put c s
  else if lora_buffer_index s =? 1 then
    s ← rasp_put c s;
    t ← atoi (c :: after);
    Some (s <| info_type := t |>)
  else if negb (lora_buffer_index s =? 0) then rasp_put c s
  else Some s.

Definition field : directive := not_set (chr ",").
Definition last_field : directive := not_set (chr "Z").
Definition comma : directive := Lit (chr ",").

Definition format2 : list directive :=
  [Lit (chr "S"); field; comma; last_field; Lit (chr "Z")].
Definition format3 : list directive :=
  [Lit (chr "S"); field; comma; field; comma; last_field; Lit (chr "Z")].
Definition format4 : list directive :=
  [Lit (chr "S"); field; comma; field; comma; field; comma; last_field; Lit (chr "Z")].
Definition format6 : list directive :=
  [Lit (chr "S"); field; comma; field; comma; field; comma; field; comma; field; comma;
   last_field; Lit (chr "Z")].

(** [atoi(c)/1000000.0] and [atoi(c)/100.0], stored in a [float]. *)
Definition micro_degrees (v : Z) : float32 := f_of_d (ddiv (d_of_int v) (d_of_int 1000000)).
Definition centi (v : Z) : float32 := f_of_d (ddiv (d_of_int v) (d_of_int 100)).

Definition confirm (s : RaspSt) : RaspSt :=
  s <| send_status_data := 0 |> <| send_confirm_data := 1 |>.

(** [info_type==1]: a way point. *)
Definition rasp_target (str : list Z) (s : RaspSt) (g : Globals) : option (RaspSt * Globals) :=
  ds ← sscanf str format3 [c1 s; c2 s; c3 s];
  match ds with
  | [d1; d2; d3] =>
      v2 ← atoi d2;
      v3 ← atoi d3;
      Some (confirm (s <| c1 := d1 |> <| c2 := d2 |> <| c3 := d3 |>),
            g <| target_lng := micro_degrees v2 |> <| target_lat := micro_degrees v3 |>)
  | _ => None
  end.

(** [info_type==2]: take a water sample. *)
Definition rasp_bottle (str : list Z) (s : RaspSt) (g : Globals) : option (RaspSt * Globals) :=
  ds ← sscanf str format4 [c1 s; c2 s; c3 s; c4 s];
  match ds with
  | [d1; d2; d3; d4] =>
      v2 ← atoi d2;
      v3 ← atoi d3;
      v4 ← atoi d4;
      Some (confirm (s <| c1 := d1 |> <| c2 := d2 |> <| c3 := d3 |> <| c4 := d4 |>),
            g <| bottle_id := v2 |> <| bottle_deep := v3 |> <| bottle_amount := v4 |>
              <| draw_status := 0 |>)
  | _ => None
  end.

(** [info_type==3]: manual control. *)
Definition rasp_control (str : list Z) (s : RaspSt) (g : Globals) : option (RaspSt * Globals) :=
  ds ← sscanf str format3 [c1 s; c2 s; c3 s];
  match ds with
  | [d1; d2; d3] =>
      v2 ← atoi d2;
      v3 ← atoi d3;
      let g := g <| control_val := v2 |> <| control_mode := v3 |> in
      let g := if control_mode g =? 3
               then g <| target_lat := S754_zero false |> <| target_lat := S754_zero false |>
               else g in
      Some (s <| c1 := d1 |> <| c2 := d2 |> <| c3 := d3 |>, g)
  | _ => None
  end.

(** [info_type==4]: settings. *)
Definition rasp_settings (str : list Z) (s : RaspSt) (g : Globals) : option (RaspSt * Globals) :=
  ds ← sscanf str format6 [c1 s; c2 s; c3 s; c4 s; c5 s; c6 s];
  match ds with
  | [d1; d2; d3; d4; d5; d6] =>
      v2 ← atoi d2;
      v3 ← atoi d3;
      v4 ← atoi d4;
      v5 ← atoi d5;
      v6 ← atoi d6;
      Some (confirm (s <| c1 := d1 |> <| c2 := d2 |> <| c3 := d3 |>
                       <| c4 := d4 |> <| c5 := d5 |> <| c6 := d6 |>),
            g <| network_backhome := v2 |> <| energy_backhome := v3 |>
              <| obstacle_avoid := v4 |> <| hand_speed := v5 |> <| auto_speed := v6 |>)
  | _ => None
  end.

(** [info_type==5]: the PID parameters. *)
Definition rasp_pid (str : list Z) (s : RaspSt) (g : Globals) : option (RaspSt * Globals) :=
  ds ← sscanf str format4 [c1 s; c2 s; c3 s; c4 s];
  match ds with
  | [d1; d2; d3; d4] =>
      v2 ← atoi d2;
      v3 ← atoi d3;
      v4 ← atoi d4;
      Some (confirm (s <| c1 := d1 |> <| c2 := d2 |> <| c3 := d3 |> <| c4 := d4 |>),
            g <| pid := [centi v2; centi v3; centi v4] |>)
  | _ => None
  end.

(** [info_type==6]: compass calibration. *)
Definition rasp_compass (str : list Z) (s : RaspSt) (g : Globals) : option (RaspSt * Globals) :=
  ds ← sscanf str format2 [c1 s; c2 s];
  match ds with
  | [d1; d2] =>
      v2 ← atoi d2;
      Some (confirm (s <| c1 := d1 |> <| c2 := d2 |>), g <| compass_status := v2 |>)
  | _ => None
  end.

(** The end character. *)
Definition rasp_end (now2 : Z) (s : RaspSt) (g : Globals) : option (RaspSt * Globals) :=
  b ← buf_set (lora_buffer s) (lora_buffer_index s) NUL;
  let s := s <| lora_buffer := b |> in
  str ← cstr b;
  '(s, g) ←
    (if info_type s =? 1 then rasp_target str s g
     else if info_type s =? 2 then rasp_bottle str s g
     else if info_type s =? 3 then rasp_control str s g
     else if info_type s =? 4 then rasp_settings str s g
     else if info_type s =? 5 then rasp_pid str s g
     else if info_type s =? 6 then rasp_compass str s g
     else if info_type s =? 8 then Some (s, g <| is_connect := 1 |> <| rec_server_tick := now2 |>)
     else Some (s, g));
  Some (s <| lora_buffer_index := 0 |>, g).

(** What one received byte comes with: the ticks of the two clock reads and the
    memory behind [lora_char]. *)
Record RaspEv := mkRaspEv { ev_now : Z; ev_now2 : Z; ev_after : list Z; ev_char : Z }.

Definition rasp_rec_byte (e : RaspEv) (s : RaspSt) (g : Globals) : option (RaspSt * Globals) :=
  let g := g <| rec_server_tick := ev_now e |> in
  s ← rasp_store (ev_after e) (ev_char e) s;
  '(s, g) ← (if (ev_char e =? chr "Z") && negb (lora_buffer_index s =? 0)
             then rasp_end (ev_now2 e) s g else Some (s, g));
  let s := if 49 <=? lora_buffer_index s then s <| lora_buffer_index := 0 |> else s in
  Some (s, g).

Fixpoint rasp_rec (evs : list RaspEv) (s : RaspSt) (g : Globals) : option (RaspSt * Globals) :=
  match evs with
  | [] => Some (s, g)
  | e :: evs' => '(s, g) ← rasp_rec_byte e s g; rasp_rec evs' s g
  end.

(** ** The sender *)

(** What it does to the outside: print a text, or wait. *)
Inductive SendEv :=
| Print (bytes : list Z)
| Delay (ms : Z).

(** ["X%d,%d,...Z\n"] with its arguments. *)
Fixpoint commas (vs : list Z) : list Z :=
  match vs with
  | [] => []
  | [v] => dec v
  | v :: vs' => dec v ++ chr "," :: commas vs'
  end.
Definition message (start : Z) (vs : list Z) : list Z :=
  start :: commas vs ++ [chr "Z"; 10].

(** Where the thread waits: at the top of the loop, behind the first report,
    behind the sample report, inside the obstacle loop, behind the position
    report or behind the confirmation. *)
Inductive SendPc := Top | AfterStatus | AfterSample | Obstacle (i : nat) | Bottom | AfterConfirm.

Record SendSt := mkSendSt { send_pc : SendPc; draw_send_tick : Z }.

(** [(int)(x*1000000)] of a [float]: the product with an [int] constant is a
    [float]. *)
Definition micro_int (x : float32) : Z := to_int (fmul x (f_of_int 1000000)).

(** The next obstacle to report at or after index [i]. *)
Fixpoint next_obstacle (fuel i : nat) (g : Globals) : option nat :=
  match fuel with
  | O => None
  | S fuel' => if (i <? 10)%nat then
                 if default 0 (target_id g !! i) =? 1 then Some i
                 else next_obstacle fuel' (S i) g
               else None
  end.

Definition draw_report (g : Globals) : list Z :=
  message (chr "C") [ship_id g; bottle_id g; draw_status g; dump_draw_time g; full_draw_time g].
Definition sample_report (g : Globals) : list Z :=
  message (chr "B") [ship_id g; wt g; ph g; doDo g; ec g; td g].
Definition obstacle_report (i : nat) (g : Globals) : list Z :=
  message (chr "D") [ship_id g; Z.of_nat i; default 0 (target_angle g !! i);
                     default 0 (target_distance g !! i)].
Definition position_report (g : Globals) : list Z :=
  message (chr "A") [ship_id g; micro_int (lng g); micro_int (lat g); to_int (dump_energy g);
                     to_int (current_theta g); current_mode g; angle_error g; speed g].

(** The code from each waiting point to the next: the output, and where the
    thread waits afterwards. *)
Definition send_position (g : Globals) : list SendEv * SendPc :=
  ([Print (position_report g); Delay 150], Bottom).

Definition send_obstacles (i : nat) (g : Globals) : list SendEv * SendPc :=
  match next_obstacle 10 i g with
  | Some j => ([Print (obstacle_report j g); Delay 50], Obstacle (S j))
  | None => send_position g
  end.

Definition send_near (g : Globals) : list SendEv * SendPc :=
  if min_distance g <? 1500 then send_obstacles 0 g else send_position g.

Definition send_sample (g : Globals) : list SendEv * SendPc :=
  if draw_status g =? 4 then ([Print (sample_report g); Delay 50], AfterSample)
  else send_near g.

(** One step of [lora_send]; [now] and [now2] are its reads of the clock.  The
    confirmation is [rt_kprintf(lora_buffer)]: the received frame is the format, and there
    are no arguments, so a conversion that takes one ends in a memory error (the buffer of
    [rt_kprintf] holds any text such a frame can give). *)
Definition rasp_send_step (now now2 : Z) (s : RaspSt) (t : SendSt) (g : Globals)
  : option (RaspSt * SendSt * list SendEv) :=
  let goto (r : list SendEv * SendPc) (tick : Z) := Some (s, mkSendSt r.2 tick, r.1) in
  match send_pc t with
  | Top =>
      if send_status_data s =? 1 then
        if 1000 <? u32 (now - draw_send_tick t) then
          goto ([Print (draw_report g); Delay 50], AfterStatus) now2
        else goto (send_sample g) (draw_send_tick t)
      else if send_confirm_data s =? 1 then
        fmt ← cstr (lora_buffer s);
        text ← Printf.formatted fmt [];
        goto ([Print text; Delay 50], AfterConfirm) (draw_send_tick t)
      else goto ([Delay 50], Top) (draw_send_tick t)
  | AfterStatus => goto (send_sample g) (draw_send_tick t)
  | AfterSample => goto (send_near g) (draw_send_tick t)
  | Obstacle i => goto (send_obstacles i g) (draw_send_tick t)
  | Bottom => goto ([Delay 50], Top) (draw_send_tick t)
  | AfterConfirm =>
      Some (s <| send_status_data := 1 |> <| send_detect_data := 0 |>,
            mkSendSt Top (draw_send_tick t), [Delay 50])
  end.

(** ** The invariant of the receiver, and what a command means *)

Definition arrays (s : RaspSt) : list (list Z) := [c1 s; c2 s; c3 s; c4 s; c5 s; c6 s].

Record rasp_wf (s : RaspSt) : Prop := {
  rw_buf : length (lora_buffer s) = 50%nat;
  rw_idx : 0 <= lora_buffer_index s <= 48;
  rw_arrays : Forall (fun d => length d = 20%nat) (arrays s);
}.

(** The effect a command is specified to have on the globals. *)
Definition apply_command (t : Z) (vs : list Z) (g : Globals) : Globals :=
  match t, vs with
  | 1, [lng6; lat6] =>
      g <| target_lng := micro_degrees lng6 |> <| target_lat := micro_degrees lat6 |>
  | 2, [bottle; deep; amount] =>
      g <| bottle_id := bottle |> <| bottle_deep := deep |> <| bottle_amount := amount |>
        <| draw_status := 0 |>
  | 3, [val; mode] =>
      let g := g <| control_val := val |> <| control_mode := mode |> in
      if mode =? 3 then g <| target_lat := S754_zero false |> else g
  | 4, [net; energy; avoid; hand; auto] =>
      g <| network_backhome := net |> <| energy_backhome := energy |>
        <| obstacle_avoid := avoid |> <| hand_speed := hand |> <| auto_speed := auto |>
  | 5, [p; i; d] => g <| pid := [centi p; centi i; centi d] |>
  | 6, [status] => g <| compass_status := status |>
  | _, _ => g
  end.

(** How many numbers each type carries, and which types ask for an echo. *)
Definition arity (t : Z) : option nat :=
  match t with
  | 1 => Some 2%nat | 2 => Some 3%nat | 3 => Some 2%nat
  | 4 => Some 5%nat | 5 => Some 3%nat | 6 => Some 1%nat
  | _ => None
  end.
Definition confirmed (t : Z) : bool := negb (t =? 3).

(** A command as the on-board computer sends it, up to the end character. *)
Definition command_frame (t : Z) (vs : list Z) : list Z :=
  chr "S" :: (chr "0" + t) :: chr "," :: commas vs.

(** ** Scanning a comma separated frame *)

Fixpoint fields_fmt (n : nat) : list directive :=
  match n with
  | O => [last_field; Lit (chr "Z")]
  | S n' => field :: comma :: fields_fmt n'
  end.

Fixpoint join (fs : list (list Z)) : list Z :=
  match fs with
  | [] => []
  | [f] => f
  | f :: fs' => f ++ chr "," :: join fs'
  end.

Lemma commas_join vs : commas vs = join (map dec vs).
Proof. induction vs as [|v [|w vs] IH]; [reflexivity..|]. cbn [commas map join] in *. rewrite IH. reflexivity. Qed.

Record field_ok (f : list Z) : Prop := {
  fo_ne : f <> [];
  fo_chars : Forall (fun c => num_char c = true) f;
  fo_len : (length f < 20)%nat;
}.

Lemma num_char_not c d : num_char c = true -> num_char d = false -> negb (c =? d) = true.
Proof. intros Hc Hd. apply negb_true_iff, Z.eqb_neq. intros ->. congruence. Qed.

Lemma field_cstr f d : field_ok f -> cstr (f ++ NUL :: drop (S (length f)) d) = Some f.
Proof.
  intros [_ Hf _]. apply cstr_app. eapply Forall_impl; [exact Hf|].
  intros c Hc ->. discriminate Hc.
Qed.

Lemma field_chars d f : num_char d = false -> field_ok f ->
  Forall (fun c => negb (c =? d) = true) f.
Proof.
  intros Hd [_ Hf _]. eapply Forall_impl; [exact Hf|]. intros c Hc. apply num_char_not; assumption.
Qed.

Definition holds (d f : list Z) : Prop := length d = 20%nat /\ cstr d = Some f.

Lemma stored_holds f d :
  field_ok f -> length d = 20%nat -> holds (f ++ NUL :: drop (S (length f)) d) f.
Proof.
  intros Hf Hd. split; [|apply field_cstr, Hf]. destruct Hf as [_ _ Hl].
  rewrite length_app. cbn [length]. rewrite length_drop. lia.
Qed.

Lemma scan_fields f fs dests :
  Forall field_ok (f :: fs) -> Forall (fun d => length d = 20%nat) dests ->
  length dests = length (f :: fs) ->
  exists ds, sscanf (join (f :: fs) ++ [chr "Z"]) (fields_fmt (length fs)) dests = Some ds /\
             Forall2 holds ds (f :: fs).
Proof.
  revert f dests. induction fs as [|f' fs IH]; intros f dests Hf Hd Hl;
    destruct dests as [|d dests]; try discriminate Hl;
    inversion Hf as [|? ? Hf0 Hfs]; inversion Hd as [|? ? Hd0 Hds]; subst.
  - destruct dests; [|discriminate Hl].
    exists [f ++ NUL :: drop (S (length f)) d]. split; [|auto using stored_holds].
    cbn [fields_fmt length join]. unfold last_field, not_set.
    rewrite (sscanf_class _ _ _ _ _ f [chr "Z"] (f ++ NUL :: drop (S (length f)) d)).
    + cbn. reflexivity.
    + apply span_stop; [apply field_chars; auto|reflexivity].
    + apply Hf0.
    + apply str_store_Some. pose proof (fo_len f Hf0). lia.
  - destruct (IH f' dests Hfs Hds) as (ds & E & H2); [cbn in *; lia|].
    exists ((f ++ NUL :: drop (S (length f)) d) :: ds).
    split; [|constructor; auto using stored_holds].
    change (join (f :: f' :: fs)) with (f ++ chr "," :: join (f' :: fs)).
    rewrite <- app_assoc. cbn [app].
    change (fields_fmt (length (f' :: fs))) with (field :: comma :: fields_fmt (length fs)).
    unfold field, not_set, comma.
    rewrite (sscanf_class _ _ _ _ _ f (chr "," :: join (f' :: fs) ++ [chr "Z"])
               (f ++ NUL :: drop (S (length f)) d)).
    + cbn [sscanf]. chars. rewrite E. reflexivity.
    + apply span_stop; [apply field_chars; auto|reflexivity].
    + apply Hf0.
    + apply str_store_Some. pose proof (fo_len f Hf0). lia.
Qed.

Lemma dec_field_ok v : INT_MIN <= v <= INT_MAX -> field_ok (dec v).
Proof.
  intros Hv. pose proof (dec_length v Hv). constructor; [|apply dec_num_char|lia].
  destruct (dec v); [cbn in *; lia|discriminate].
Qed.

Definition in_int (v : Z) : Prop := INT_MIN <= v <= INT_MAX.

Lemma dec_fields_ok vs : Forall in_int vs -> Forall field_ok (map dec vs).
Proof. induction 1; cbn; constructor; auto using dec_field_ok. Qed.

(** The arrays after a scan hold the numbers. *)
Lemma holds_atoi d v : INT_MIN <= v <= INT_MAX -> holds d (dec v) -> atoi d = Some v.
Proof. intros Hv [_ H]. unfold atoi. rewrite H. cbn. rewrite strtol10_dec by exact Hv. reflexivity. Qed.

(** ** The receiver byte by byte *)

Record rholding (str : list Z) (s : RaspSt) : Prop := {
  rh_wf : rasp_wf s;
  rh_idx : lora_buffer_index s = Z.of_nat (length str);
  rh_take : take (length str) (lora_buffer s) = str;
}.

Definition put (c : Z) (s : RaspSt) : RaspSt :=
  s <| lora_buffer := <[Z.to_nat (lora_buffer_index s) := c]> (lora_buffer s) |>
    <| lora_buffer_index := lora_buffer_index s + 1 |>.

Lemma rasp_put_eq c s : rasp_wf s -> rasp_put c s = Some (put c s).
Proof.
  intros [Hb Hi _]. unfold rasp_put. rewrite buf_set_Some by lia. reflexivity.
Qed.

Definition rasp_wrap (s : RaspSt) : RaspSt :=
  if 49 <=? lora_buffer_index s then s <| lora_buffer_index := 0 |> else s.

Lemma put_wf c s : rasp_wf s -> rasp_wf (rasp_wrap (put c s)).
Proof.
  intros [Hb Hi Ha]. unfold rasp_wrap.
  destruct (Z.leb_spec 49 (lora_buffer_index (put c s))) as [H|H]; cbn in H;
    constructor; cbn; rewrite ?length_insert; auto; lia.
Qed.

Lemma set_type_wf t s : rasp_wf s -> rasp_wf (s <| info_type := t |>).
Proof. intros [Hb Hi Ha]. constructor; auto. Qed.

Lemma put_holding c str s :
  rholding str s -> (length str < 48)%nat ->
  put c s = rasp_wrap (put c s) /\ rholding (str ++ [c]) (put c s).
Proof.
  intros [Hw Hi Ht] Hl. pose proof (put_wf c s Hw) as Hw'.
  assert (E : put c s = rasp_wrap (put c s)).
  { unfold rasp_wrap. cbn. rewrite (proj2 (Z.leb_gt _ _)) by lia. reflexivity. }
  split; [exact E|]. rewrite <- E in Hw'. constructor; [exact Hw'| |].
  - cbn. rewrite length_app. cbn. lia.
  - cbn. rewrite length_app. cbn. rewrite Nat.add_1_r, Hi, Nat2Z.id.
    rewrite take_insert_snoc by (rewrite (rw_buf s Hw); lia). rewrite Ht. reflexivity.
Qed.

Lemma put_byte e str s g :
  ev_char e <> chr "S" -> ev_char e <> chr "Z" ->
  rholding str s -> (2 <= length str < 48)%nat ->
  rasp_rec_byte e s g = Some (put (ev_char e) s, g <| rec_server_tick := ev_now e |>) /\
  rholding (str ++ [ev_char e]) (put (ev_char e) s).
Proof.
  intros HS HZ Hh Hl. destruct (put_holding (ev_char e) str s Hh ltac:(lia)) as [E Hh'].
  split; [|exact Hh'].
  unfold rasp_rec_byte, rasp_store.
  rewrite (proj2 (Z.eqb_neq _ _) HS), (proj2 (Z.eqb_neq _ _) HZ).
  rewrite (rh_idx _ _ Hh), (proj2 (Z.eqb_neq _ 1)), (proj2 (Z.eqb_neq _ 0)) by lia.
  cbn [negb andb]. rewrite rasp_put_eq by apply Hh. cbn [mbind option_bind].
  fold (rasp_wrap (put (ev_char e) s)). rewrite <- E. reflexivity.
Qed.

Lemma first_byte e s g :
  ev_char e = chr "S" -> rasp_wf s -> lora_buffer_index s = 0 ->
  rasp_rec_byte e s g = Some (put (chr "S") s, g <| rec_server_tick := ev_now e |>) /\
  rholding [chr "S"] (put (chr "S") s).
Proof.
  intros HS Hw H0.
  assert (Hh : rholding [] s) by (constructor; [exact Hw|exact H0|reflexivity]).
  destruct (put_holding (chr "S") [] s Hh ltac:(cbn; lia)) as [E Hh']. split; [|exact Hh'].
  unfold rasp_rec_byte, rasp_store. rewrite HS. chars.
  rewrite rasp_put_eq by assumption. cbn [mbind option_bind].
  fold (rasp_wrap (put (chr "S") s)). rewrite <- E. reflexivity.
Qed.

(** The memory behind [lora_char] does not start with a digit, and holds a
    terminator somewhere. *)
Definition after_ok (a : list Z) : Prop :=
  terminated a /\ match a with x :: _ => is_digit x = false | [] => False end.

Lemma type_byte_atoi t a : 0 <= t <= 9 -> after_ok a -> atoi ((chr "0" + t) :: a) = Some t.
Proof.
  intros Ht [Hterm Ha]. destruct a as [|x a]; [contradiction|].
  assert (Hd : is_digit (chr "0" + t) = true).
  { unfold is_digit, chr. cbn -[Z.add]. rewrite andb_true_iff, !Z.leb_le. lia. }
  apply cstr_Some in Hterm as [str Hstr].
  unfold atoi. cbn [cstr]. rewrite (is_digit_not _ NUL Hd) by reflexivity.
  change (match (if x =? NUL then Some [] else _) with Some s => _ | None => None end)
    with (match cstr (x :: a) with Some s => Some ((chr "0" + t) :: s) | None => None end).
  rewrite Hstr. cbn [option_map]. f_equal.
  change ((chr "0" + t) :: str) with ([chr "0" + t] ++ str).
  rewrite strtol10_digits; [|discriminate|auto|].
  - unfold digits_val, INT_MAX. cbn [fold_left]. lia.
  - cbn in Hstr. destruct (x =? NUL); [injection Hstr as <-; exact I|].
    destruct (cstr a); [|discriminate]. injection Hstr as <-. exact Ha.
Qed.

Lemma second_byte e t s g :
  0 <= t <= 9 -> ev_char e = chr "0" + t -> after_ok (ev_after e) ->
  rholding [chr "S"] s ->
  rasp_rec_byte e s g =
    Some (put (ev_char e) s <| info_type := t |>, g <| rec_server_tick := ev_now e |>) /\
  rholding [chr "S"; ev_char e] (put (ev_char e) s <| info_type := t |>).
Proof.
  intros Ht Hc Ha Hh.
  destruct (put_holding (ev_char e) [chr "S"] s Hh ltac:(cbn; lia)) as [E [Hw' Hi' Ht']].
  split; [|constructor; [apply set_type_wf, Hw'|exact Hi'|exact Ht']].
  unfold rasp_rec_byte, rasp_store.
  replace (ev_char e =? chr "S") with false
    by (symmetry; apply Z.eqb_neq; rewrite Hc; unfold chr; cbn -[Z.add]; lia).
  replace (ev_char e =? chr "Z") with false
    by (symmetry; apply Z.eqb_neq; rewrite Hc; unfold chr; cbn -[Z.add]; lia).
  rewrite (rh_idx _ _ Hh). cbn [length Z.of_nat Z.eqb Pos.eqb Pos.of_succ_nat].
  rewrite rasp_put_eq by apply Hh. cbn [mbind option_bind].
  replace (atoi (ev_char e :: ev_after e)) with (Some t)
    by (rewrite Hc, type_byte_atoi; auto).
  cbn [mbind option_bind andb].
  change (Z.of_nat 1 =? 1) with true. cbn [mbind option_bind].
  rewrite (proj2 (Z.leb_gt 49 _)); [reflexivity|].
  cbn. rewrite (rh_idx _ _ Hh). cbn. lia.
Qed.

(** What the bytes of a frame leave unchanged. *)
Definition same_rest (s s' : RaspSt) : Prop :=
  arrays s' = arrays s /\ info_type s' = info_type s /\
  send_status_data s' = send_status_data s /\ send_confirm_data s' = send_confirm_data s /\
  send_detect_data s' = send_detect_data s.

Lemma put_bytes evs str s g :
  Forall (fun e => ev_char e <> chr "S" /\ ev_char e <> chr "Z") evs ->
  rholding str s -> (2 <= length str)%nat -> (length str + length evs <= 48)%nat ->
  exists s' now, rasp_rec evs s g = Some (s', g <| rec_server_tick := now |>) /\
    rholding (str ++ map ev_char evs) s' /\ same_rest s s'.
Proof.
  intros Hp. revert str s g. induction Hp as [|e evs [HS HZ] Hp IH]; intros str s g Hh H2 Hl.
  { exists s, (rec_server_tick g). cbn. rewrite app_nil_r. unfold same_rest.
    split_ands; auto. destruct g; reflexivity. }
  cbn [length] in Hl.
  destruct (put_byte e str s g HS HZ Hh ltac:(lia)) as [E1 Hh1].
  destruct (IH (str ++ [ev_char e]) (put (ev_char e) s) (g <| rec_server_tick := ev_now e |>))
    as (s2 & now & E2 & Hh2 & Hs2); [exact Hh1|rewrite length_app; cbn; lia..|].
  exists s2, now. cbn [rasp_rec]. rewrite E1. cbn [mbind option_bind]. rewrite E2.
  rewrite <- app_assoc in Hh2. split_ands; auto.
Qed.

Lemma rasp_rec_app evs evs' s g :
  rasp_rec (evs ++ evs') s g = ('(s', g') ← rasp_rec evs s g; rasp_rec evs' s' g').
Proof.
  revert s g. induction evs as [|e evs IH]; intros s g; [reflexivity|].
  cbn [app rasp_rec]. destruct (rasp_rec_byte e s g) as [[s1 g1]|]; [|reflexivity].
  cbn [mbind option_bind]. apply IH.
Qed.

(** The end character of a frame: the buffer then holds the frame, terminated. *)
Definition ended (s : RaspSt) : RaspSt :=
  put (chr "Z") s <| lora_buffer :=
    <[S (Z.to_nat (lora_buffer_index s)) := NUL]>
      (<[Z.to_nat (lora_buffer_index s) := chr "Z"]> (lora_buffer s)) |>.

Definition dispatch (now2 : Z) (str : list Z) (s : RaspSt) (g : Globals) :=
  if info_type s =? 1 then rasp_target str s g
  else if info_type s =? 2 then rasp_bottle str s g
  else if info_type s =? 3 then rasp_control str s g
  else if info_type s =? 4 then rasp_settings str s g
  else if info_type s =? 5 then rasp_pid str s g
  else if info_type s =? 6 then rasp_compass str s g
  else if info_type s =? 8 then Some (s, g <| is_connect := 1 |> <| rec_server_tick := now2 |>)
  else Some (s, g).

Lemma end_byte e str s g :
  ev_char e = chr "Z" -> rholding str s -> (2 <= length str <= 48)%nat ->
  Forall (fun c => c <> NUL) str ->
  cstr (lora_buffer (ended s)) = Some (str ++ [chr "Z"]) /\
  rasp_rec_byte e s g =
    ('(s', g') ← dispatch (ev_now2 e) (str ++ [chr "Z"]) (ended s) (g <| rec_server_tick := ev_now e |>);
     Some (s' <| lora_buffer_index := 0 |>, g')).
Proof.
  intros HZ Hh Hl Hn. pose proof (rw_buf s (rh_wf _ _ Hh)) as Hb.
  pose proof (rh_idx _ _ Hh) as Hi.
  assert (Hc : cstr (lora_buffer (ended s)) = Some (str ++ [chr "Z"])).
  { unfold ended. cbn [lora_buffer]. change (lora_buffer (?x <| lora_buffer := ?b |>)) with b.
    rewrite insert_two_take by lia. rewrite Hi, Nat2Z.id, (rh_take _ _ Hh).
    change (str ++ chr "Z" :: NUL :: ?r) with (str ++ [chr "Z"] ++ NUL :: r).
    rewrite app_assoc. apply cstr_app. apply Forall_app. split; [exact Hn|].
    constructor; [discriminate|constructor]. }
  split; [exact Hc|].
  unfold rasp_rec_byte, rasp_store. rewrite HZ. chars.
  rewrite Hi, (proj2 (Z.eqb_neq _ 1)), (proj2 (Z.eqb_neq _ 0)) by lia. cbn [negb].
  rewrite rasp_put_eq by apply Hh. cbn [mbind option_bind].
  change (lora_buffer_index (put (chr "Z") s)) with (lora_buffer_index s + 1).
  rewrite Hi, (proj2 (Z.eqb_neq _ 0)) by lia. cbn [negb]. unfold rasp_end.
  change (lora_buffer_index (put (chr "Z") s)) with (lora_buffer_index s + 1).
  change (lora_buffer (put (chr "Z") s))
    with (<[Z.to_nat (lora_buffer_index s) := chr "Z"]> (lora_buffer s)).
  rewrite buf_set_Some by (rewrite length_insert; lia). cbn [mbind option_bind].
  replace (Z.to_nat (lora_buffer_index s + 1)) with (S (Z.to_nat (lora_buffer_index s))) by lia.
  change (cstr (<[S ?n := NUL]> ?b)) with (cstr (lora_buffer (ended s))). rewrite Hc.
  cbn [mbind option_bind]. fold (ended s).
  change (if info_type (ended s) =? 1 then _ else _) with
    (dispatch (ev_now2 e) (str ++ [chr "Z"]) (ended s) (g <| rec_server_tick := ev_now e |>)).
  destruct (dispatch _ _ _ _) as [[s' g']|]; reflexivity.
Qed.

(** ** Decoding a complete command *)

Definition arrays_ok (s : RaspSt) : Prop := Forall (fun d => length d = 20%nat) (arrays s).

Definition decoded (t : Z) (vs : list Z) (s s' : RaspSt) : Prop :=
  arrays_ok s' /\ lora_buffer s' = lora_buffer s /\
  lora_buffer_index s' = lora_buffer_index s /\
  (if confirmed t then send_status_data s' = 0 /\ send_confirm_data s' = 1
   else send_status_data s' = send_status_data s /\ send_confirm_data s' = send_confirm_data s).

Lemma type_field_ok t : 1 <= t <= 6 -> field_ok [chr "0" + t].
Proof.
  intros Ht. constructor; [discriminate| |cbn; lia].
  constructor; [|constructor]. unfold num_char, is_digit, chr. cbn -[Z.add].
  rewrite orb_true_iff, andb_true_iff, !Z.leb_le. lia.
Qed.

(** The scan of the frame of type [t]: one array per field. *)
Lemma command_scan t vs dests :
  1 <= t <= 6 -> vs <> [] -> Forall in_int vs ->
  Forall (fun d => length d = 20%nat) dests -> length dests = S (length vs) ->
  exists d ds, sscanf (command_frame t vs ++ [chr "Z"]) (Lit (chr "S") :: fields_fmt (length vs)) dests
      = Some (d :: ds) /\
    Forall2 holds (d :: ds) ([chr "0" + t] :: map dec vs).
Proof.
  intros Ht Hne Hvs Hd Hl.
  destruct (scan_fields [chr "0" + t] (map dec vs) dests) as (ds & E & H2);
    [constructor; [apply type_field_ok, Ht|apply dec_fields_ok, Hvs]|exact Hd
    |cbn [length]; rewrite length_map; exact Hl|].
  destruct ds as [|d ds]; [inversion H2|]. exists d, ds. split; [|exact H2].
  unfold command_frame. cbn [app sscanf]. chars.
  rewrite length_map in E. rewrite <- E. f_equal.
  rewrite commas_join. destruct vs as [|v vs]; [congruence|].
  change (join ([chr "0" + t] :: map dec (v :: vs)))
    with ((chr "0" + t) :: chr "," :: join (map dec (v :: vs))).
  reflexivity.
Qed.

(** Reads the fields of a scan result off [Forall2 holds]. *)
Ltac read_fields H :=
  repeat match type of H with
  | Forall2 holds _ (_ :: _) =>
      let d := fresh "d" in let Hd := fresh "Hd" in
      apply Forall2_cons_inv_r in H as (d & ? & Hd & H & ->)
  | Forall2 holds _ [] => apply Forall2_nil_inv_r in H as ->
  end.

Ltac in_ints H :=
  repeat match type of H with
  | Forall in_int (_ :: _) => let Hv := fresh "Hv" in apply Forall_cons in H as [Hv H]
  end.

Lemma dispatch_command now2 t vs s g :
  arity t = Some (length vs) -> Forall in_int vs -> arrays_ok s -> info_type s = t ->
  exists s', dispatch now2 (command_frame t vs ++ [chr "Z"]) s g =
    Some (s', apply_command t vs g) /\ decoded t vs s s'.
Proof.
  intros Ha Hv Hok Ht.
  assert (Hcases : t = 1 \/ t = 2 \/ t = 3 \/ t = 4 \/ t = 5 \/ t = 6).
  { unfold arity in Ha. destruct t as [|[[[]|[]|]|[[]|[]|]|]|]; try discriminate; lia. }
  unfold arrays_ok, arrays in Hok.
  apply Forall_cons in Hok as [K1 Hok]. apply Forall_cons in Hok as [K2 Hok].
  apply Forall_cons in Hok as [K3 Hok]. apply Forall_cons in Hok as [K4 Hok].
  apply Forall_cons in Hok as [K5 Hok]. apply Forall_cons in Hok as [K6 _].
  unfold dispatch. rewrite Ht.
  destruct Hcases as [->|[->|[->|[->|[->| ->]]]]]; cbn [arity] in Ha; injection Ha as Ha;
    repeat (destruct vs as [|? vs]; try discriminate Ha); in_ints Hv;
    cbn [Z.eqb Pos.eqb].
  all: unfold rasp_target, rasp_bottle, rasp_control, rasp_settings, rasp_pid, rasp_compass.
  all: match goal with
    | |- context [sscanf (command_frame ?t ?vs ++ _) _ ?dests] =>
        destruct (command_scan t vs dests) as (? & ? & E & H2);
          [lia|discriminate|repeat first [assumption|constructor]
          |repeat first [assumption|constructor]|reflexivity|]
    end.
  all: cbn [length fields_fmt] in E; unfold format2, format3, format4, format6; rewrite E;
    cbn [map] in H2; read_fields H2; cbn [mbind option_bind]; simplify_eq.
  all: repeat match goal with H : holds _ [chr "0" + _] |- _ => destruct H as [? _] end.
  all: repeat match goal with
    | Hd : holds ?d (dec ?v), Hv : in_int ?v |- _ =>
        rewrite (holds_atoi d v Hv Hd); cbn [mbind option_bind]; destruct Hd
    end.
  all: eexists; split; [reflexivity|]; unfold decoded, arrays_ok, arrays; cbn;
    split_ands; repeat first [assumption|reflexivity|constructor].
Qed.

(** ** Well-formedness is kept by every byte *)

Lemma dispatch_arrays now2 str s g s' g' :
  dispatch now2 str s g = Some (s', g') -> arrays_ok s ->
  arrays_ok s' /\ lora_buffer s' = lora_buffer s.
Proof.
  unfold dispatch, rasp_target, rasp_bottle, rasp_control, rasp_settings, rasp_pid, rasp_compass.
  intros H Hok.
  assert (Hgo : forall fmt dests ds, sscanf str fmt dests = Some ds ->
    Forall (fun d => length d = 20%nat) dests -> Forall (fun d => length d = 20%nat) ds).
  { intros fmt dests ds E Hd. apply sscanf_lengths in E. clear - E Hd.
    revert ds E. induction Hd; intros [|d' ds] E; try discriminate; constructor;
      cbn in E; injection E as E1 E2; [congruence|auto]. }
  unfold arrays_ok, arrays in Hok.
  apply Forall_cons in Hok as [K1 Hok]. apply Forall_cons in Hok as [K2 Hok].
  apply Forall_cons in Hok as [K3 Hok]. apply Forall_cons in Hok as [K4 Hok].
  apply Forall_cons in Hok as [K5 Hok]. apply Forall_cons in Hok as [K6 _].
  repeat match type of H with
  | (if ?b then _ else _) = Some _ => destruct b
  end;
  repeat match type of H with
  | sscanf str ?f ?ds ≫= _ = Some _ =>
      let E := fresh "E" in destruct (sscanf str f ds) eqn:E; [|discriminate H];
      cbn [mbind option_bind] in H; apply Hgo in E; [|repeat first [assumption|constructor]]
  | match ?l with _ => _ end = Some _ => destruct l; try discriminate H
  | atoi ?d ≫= _ = Some _ =>
      destruct (atoi d); [|discriminate H]; cbn [mbind option_bind] in H
  end; injection H as <- _; unfold arrays_ok, arrays; cbn;
  repeat match goal with
  | E : Forall (fun d => length d = 20%nat) (_ :: _) |- _ => apply Forall_cons in E as [? E]
  end; split; repeat first [assumption|reflexivity|constructor].
Qed.

Lemma rasp_store_cases after c s : rasp_wf s ->
  (rasp_store after c s = None /\ lora_buffer_index s = 1 /\ c <> chr "S" /\ atoi (c :: after) = None) \/
  (exists s', rasp_store after c s = Some s' /\ length (lora_buffer s') = 50%nat /\
     0 <= lora_buffer_index s' <= 49 /\ arrays_ok s' /\
     (lora_buffer_index s = 0 -> c <> chr "S" -> lora_buffer_index s' = 0)).
Proof.
  intros Hw. pose proof Hw as [Hb Hi Ha]. unfold rasp_store.
  destruct (Z.eqb_spec c (chr "S")) as [->|HS].
  { right. rewrite rasp_put_eq by assumption. eexists. split; [reflexivity|].
    cbn. rewrite length_insert. split_ands; auto; try lia. }
  destruct (Z.eqb_spec (lora_buffer_index s) 1) as [E1|E1].
  { rewrite rasp_put_eq by assumption. cbn [mbind option_bind].
    destruct (atoi (c :: after)) as [t|]; [right|left; auto].
    eexists. split; [reflexivity|]. cbn. rewrite length_insert. split_ands; auto; lia. }
  right. destruct (Z.eqb_spec (lora_buffer_index s) 0) as [E0|E0]; cbn [negb].
  { exists s. split_ands; auto; lia. }
  rewrite rasp_put_eq by assumption. eexists. split; [reflexivity|].
  cbn. rewrite length_insert. split_ands; auto; lia.
Qed.

Lemma rasp_byte_cases e s g :
  rasp_wf s ->
  (forall s' g', rasp_rec_byte e s g = Some (s', g') -> rasp_wf s') /\
  (rasp_rec_byte e s g = None ->
     (lora_buffer_index s = 1 /\ ev_char e <> chr "S" /\ atoi (ev_char e :: ev_after e) = None) \/
     (ev_char e = chr "Z" /\ lora_buffer_index s <> 0)).
Proof.
  intros Hw. unfold rasp_rec_byte.
  destruct (rasp_store_cases (ev_after e) (ev_char e) s Hw)
    as [(-> & H1 & H2 & H3)|(s1 & -> & Hb & Hi & Ha & H0)].
  { split; [discriminate|auto]. }
  cbn [mbind option_bind].
  assert (Hwrap : forall s2 : RaspSt, length (lora_buffer s2) = 50%nat ->
    0 <= lora_buffer_index s2 <= 49 -> arrays_ok s2 -> rasp_wf (rasp_wrap s2)).
  { intros s2 ? ? ?. unfold rasp_wrap.
    destruct (Z.leb_spec 49 (lora_buffer_index s2)); constructor; cbn; auto; lia. }
  destruct (Z.eqb_spec (ev_char e) (chr "Z")) as [HZ|HZ]; cbn [andb].
  2: { cbn. split; [intros s' g' [= <- <-]; fold (rasp_wrap s1); auto|discriminate]. }
  destruct (Z.eqb_spec (lora_buffer_index s1) 0) as [E0|E0]; cbn [negb].
  { cbn. split; [intros s' g' [= <- <-]; fold (rasp_wrap s1); auto|discriminate]. }
  split.
  - intros s' g'. unfold rasp_end. rewrite buf_set_Some by lia. cbn [mbind option_bind].
    destruct (cstr _) as [str|]; [|discriminate]. cbn [mbind option_bind].
    set (s2 := s1 <| lora_buffer := _ |>).
    change (if info_type s2 =? 1 then _ else _) with
      (dispatch (ev_now2 e) str s2 (g <| rec_server_tick := ev_now e |>)).
    destruct (dispatch _ _ _ _) as [[s3 g3]|] eqn:Ed; [|discriminate].
    apply dispatch_arrays in Ed as [Ha3 Hb3]; [|exact Ha].
    cbn [mbind option_bind]. intros [= <- <-]. change (rasp_wf (rasp_wrap (s3 <| lora_buffer_index := 0 |>))).
    apply Hwrap; cbn; auto; [|lia]. rewrite Hb3. cbn. rewrite length_insert. exact Hb.
  - intros _. right. split; [exact HZ|]. intros Hs. apply E0, H0; [exact Hs|].
    rewrite HZ. discriminate.
Qed.

(** The last byte of the buffer stays a terminator: characters go below it. *)
Definition frame_ends (s : RaspSt) : Prop := lora_buffer s !! 49%nat = Some NUL.

Lemma put_ends i v (b : list Z) : length b = 50%nat -> 0 <= i <= 49 -> (i = 49 -> v = NUL) ->
  b !! 49%nat = Some NUL -> <[Z.to_nat i := v]> b !! 49%nat = Some NUL.
Proof.
  intros Hb Hi Hv H. destruct (Z.eq_dec i 49) as [->|Hne].
  - rewrite (Hv eq_refl). apply list_lookup_insert_eq. lia.
  - rewrite list_lookup_insert_ne by lia. exact H.
Qed.

Lemma rasp_store_ends after c s s' : rasp_wf s -> frame_ends s -> rasp_store after c s = Some s' -> frame_ends s'.
Proof.
  intros Hw He. pose proof Hw as [Hb Hi Ha]. unfold rasp_store, frame_ends in *.
  assert (Hp : forall s1, rasp_put c s = Some s1 -> lora_buffer s1 !! 49%nat = Some NUL).
  { intros s1. rewrite rasp_put_eq by assumption. intros [= <-]. cbn. apply put_ends; auto; lia. }
  destruct (c =? chr "S"); [apply Hp|]. destruct (_ =? 1).
  - destruct (rasp_put c s) as [s1|]; [|discriminate]. cbn [mbind option_bind]. destruct (atoi _); [|discriminate].
    intros [= <-]. apply (Hp s1 eq_refl).
  - destruct (negb _); [apply Hp|]. intros [= <-]. exact He.
Qed.

Lemma rasp_byte_ends e s g s' g' :
  rasp_wf s -> frame_ends s -> rasp_rec_byte e s g = Some (s', g') -> frame_ends s'.
Proof.
  intros Hw He. unfold rasp_rec_byte. destruct (rasp_store_cases (ev_after e) (ev_char e) s Hw) as [(-> & _)|(s1 & E & Hb & Hi & Ha & _)];
    [discriminate|]. pose proof (rasp_store_ends _ _ _ _ Hw He E) as H1. rewrite E. cbn [mbind option_bind].
  assert (Hwrap : forall s2 : RaspSt, frame_ends s2 -> frame_ends (if 49 <=? lora_buffer_index s2 then s2 <| lora_buffer_index := 0 |> else s2)).
  { intros s2 H2. destruct (_ <=? _); exact H2. }
  destruct (_ && _); cbn [mbind option_bind]; [|intros [= <- <-]; apply Hwrap, H1].
  unfold rasp_end. rewrite buf_set_Some by lia. cbn [mbind option_bind]. set (s2 := s1 <| lora_buffer := _ |>).
  assert (H2 : frame_ends s2) by (apply put_ends; auto).
  destruct (cstr _) as [str|]; [|discriminate]. cbn [mbind option_bind].
  change (if info_type s2 =? 1 then _ else _) with (dispatch (ev_now2 e) str s2 (g <| rec_server_tick := ev_now e |>)).
  destruct (dispatch _ _ _ _) as [[s3 g3]|] eqn:Ed; [|discriminate].
  apply dispatch_arrays in Ed as [_ Hb3]; [|exact Ha]. cbn [mbind option_bind]. intros [= <- <-].
  assert (H3 : frame_ends (s3 <| lora_buffer_index := 0 |>)) by (unfold frame_ends in *; cbn; rewrite Hb3; exact H2).
  exact (Hwrap _ H3).
Qed.

(** ** The sender's round *)

Fixpoint send_run (n : nat) (now now2 : Z) (s : RaspSt) (t : SendSt) (g : Globals)
  : option (RaspSt * SendSt * list SendEv) :=
  match n with
  | O => Some (s, t, [])
  | S n' => '(s, t, out) ← rasp_send_step now now2 s t g;
            '(s, t, out') ← send_run n' now now2 s t g;
            Some (s, t, out ++ out')
  end.

Definition printed (out : list SendEv) : list (list Z) :=
  flat_map (fun e => match e with Print b => [b] | _ => [] end) out.

(** The obstacles marked in [target_id], from index [i] on. *)
Definition marked (g : Globals) (l : list nat) : list nat :=
  List.filter (fun i => default 0 (target_id g !! i) =? 1) l.

Lemma next_obstacle_spec g fuel i :
  (10 - i <= fuel)%nat ->
  match next_obstacle fuel i g with
  | Some j => (i <= j < 10)%nat /\
              marked g (seq i (10 - i)) = j :: marked g (seq (S j) (10 - S j))
  | None => marked g (seq i (10 - i)) = []
  end.
Proof.
  revert i. induction fuel as [|f IH]; intros i Hf; cbn [next_obstacle].
  { replace (10 - i)%nat with 0%nat by lia. reflexivity. }
  destruct (Nat.ltb_spec i 10) as [Hi|Hi].
  2: { replace (10 - i)%nat with 0%nat by lia. reflexivity. }
  replace (10 - i)%nat with (S (10 - S i))%nat by lia. cbn [seq]. unfold marked. cbn [List.filter].
  destruct (default 0 (target_id g !! i) =? 1); [split; [lia|reflexivity]|].
  specialize (IH (S i) ltac:(lia)). fold (marked g (seq (S i) (10 - S i))) in *.
  destruct (next_obstacle f (S i) g) as [j|]; [|exact IH].
  split; [lia|]. apply IH.
Qed.

(** From the waiting point and with the output [r], some more steps reach the end of the
    round with the texts [texts] printed. *)
Definition sends (now now2 : Z) (s : RaspSt) (g : Globals) (r : list SendEv * SendPc) (tick : Z) (texts : list (list Z)) : Prop :=
  exists n t out, send_run n now now2 s (mkSendSt r.2 tick) g = Some (s, t, out) /\
    send_pc t = Bottom /\ draw_send_tick t = tick /\ printed (r.1 ++ out) = texts.

Lemma sends_step now now2 s g r r' tick texts :
  rasp_send_step now now2 s (mkSendSt r.2 tick) g = Some (s, mkSendSt r'.2 tick, r'.1) ->
  sends now now2 s g r' tick texts -> sends now now2 s g r tick (printed r.1 ++ texts).
Proof.
  intros E (n & t & out & Er & Hpc & Ht & Hp). exists (S n), t, (r'.1 ++ out). cbn [send_run]. rewrite E.
  cbn [mbind option_bind]. rewrite Er. cbn [mbind option_bind]. split_ands; auto.
  unfold printed in *. rewrite flat_map_app, Hp. reflexivity.
Qed.

Lemma sends_position now now2 s g tick : sends now now2 s g (send_position g) tick [position_report g].
Proof. exists O, (mkSendSt Bottom tick), []. auto. Qed.

(** From inside the obstacle loop: the remaining obstacles, then the position. *)
Lemma send_obstacles_run now now2 s g tick : forall k i, (10 - i <= k)%nat ->
  sends now now2 s g (send_obstacles i g) tick
    (map (fun j => obstacle_report j g) (marked g (seq i (10 - i))) ++ [position_report g]).
Proof.
  induction k as [|k IH]; intros i Hk; unfold send_obstacles;
    pose proof (next_obstacle_spec g 10 i ltac:(lia)) as Hn; destruct (next_obstacle 10 i g) as [j|].
  1, 3: destruct Hn as [Hj Em]. 1: lia.
  - rewrite Em. apply (sends_step _ _ _ _ ([Print (obstacle_report j g); Delay 50], Obstacle (S j)) (send_obstacles (S j) g) tick);
      [reflexivity | apply IH; lia].
  - rewrite Hn. apply sends_position.
  - rewrite Hn. apply sends_position.
Qed.

Lemma send_near_run now now2 s g tick :
  sends now now2 s g (send_near g) tick
    ((if min_distance g <? 1500 then map (fun j => obstacle_report j g) (marked g (seq 0 10)) else []) ++ [position_report g]).
Proof.
  unfold send_near. destruct (min_distance g <? 1500).
  - apply (send_obstacles_run now now2 s g tick 10 0). lia.
  - apply sends_position.
Qed.

Lemma send_sample_run now now2 s g tick :
  sends now now2 s g (send_sample g) tick
    ((if draw_status g =? 4 then [sample_report g] else []) ++
     (if min_distance g <? 1500 then map (fun j => obstacle_report j g) (marked g (seq 0 10)) else []) ++ [position_report g]).
Proof.
  unfold send_sample. pose proof (send_near_run now now2 s g tick) as Hn. destruct (draw_status g =? 4); [|exact Hn].
  apply (sends_step _ _ _ _ ([Print (sample_report g); Delay 50], AfterSample) (send_near g) tick); [reflexivity | exact Hn].
Qed.

(** A completed frame of type 6 whose field does not fit its array. *)
Lemma dispatch_overflow now2 f s g :
  info_type s = 6 -> arrays_ok s ->
  Forall (fun c => c <> chr "Z" /\ c <> chr ",") f -> (20 <= length f)%nat ->
  dispatch now2 ((chr "S" :: chr "6" :: chr "," :: f) ++ [chr "Z"]) s g = None.
Proof.
  intros Ht Hok Hf Hl. unfold arrays_ok, arrays in Hok.
  apply Forall_cons in Hok as [K1 Hok]. apply Forall_cons in Hok as [K2 _].
  unfold dispatch. rewrite Ht. cbn [Z.eqb Pos.eqb]. unfold rasp_compass, format2.
  cbn [app sscanf]. chars. unfold field, not_set.
  change (chr "6" :: chr "," :: f ++ [chr "Z"]) with ([chr "6"] ++ chr "," :: f ++ [chr "Z"]).
  rewrite span_stop by (repeat constructor || reflexivity). cbn [app].
  rewrite str_store_Some by (rewrite K1; cbn; lia). unfold comma. chars.
  unfold last_field, not_set. rewrite span_stop; [|eapply Forall_impl; [exact Hf|]|reflexivity].
  - destruct f as [|x f]; [cbn in Hl; lia|].
    rewrite str_store_None by (rewrite K2; exact Hl). reflexivity.
  - intros c [Hc _]. apply negb_true_iff, Z.eqb_neq, Hc.
Qed.

(** The frame of type [t] before its end character, from an idle receiver. *)
Lemma frame_received t body evs s g :
  0 <= t <= 9 -> (length body <= 46)%nat ->
  Forall (fun c => c <> chr "S" /\ c <> chr "Z") body ->
  rasp_wf s -> lora_buffer_index s = 0 ->
  map ev_char evs = chr "S" :: (chr "0" + t) :: body ->
  Forall (fun e => after_ok (ev_after e)) evs ->
  exists s' now, rasp_rec evs s g = Some (s', g <| rec_server_tick := now |>) /\
    rholding (chr "S" :: (chr "0" + t) :: body) s' /\
    info_type s' = t /\ send_status_data s' = send_status_data s /\
    send_confirm_data s' = send_confirm_data s.
Proof.
  intros Ht Hl Hb Hw H0 Hev Hafter.
  destruct evs as [|e1 [|e2 evs]]; try discriminate Hev.
  cbn [map] in Hev. injection Hev as E1 E2 E3.
  inversion Hafter as [|? ? _ Ha']; subst. inversion Ha' as [|? ? Ha2 _]; subst.
  destruct (first_byte e1 s g E1 Hw H0) as [R1 Hh1].
  destruct (second_byte e2 t _ (g <| rec_server_tick := ev_now e1 |>) Ht E2 Ha2 Hh1) as [R2 Hh2].
  destruct (put_bytes evs _ _ (g <| rec_server_tick := ev_now e1 |> <| rec_server_tick := ev_now e2 |>)
              ltac:(apply Forall_map in Hb; exact Hb) Hh2) as (s3 & now & R3 & Hh3 & Hs3);
    [cbn; lia|cbn [length]; rewrite length_map in Hl; lia|].
  exists s3, now. cbn [rasp_rec]. rewrite R1. cbn [mbind option_bind].
  rewrite R2. cbn [mbind option_bind]. rewrite R3.
  split; [reflexivity|]. rewrite E2 in Hh3. split; [exact Hh3|].
  destruct Hs3 as (_ & Hi & Hst & Hcf & _). split_ands; [rewrite Hi|rewrite Hst|rewrite Hcf]; reflexivity.
Qed.

Lemma num_chars_plain f : Forall (fun c => num_char c = true) f ->
  Forall (fun c => (c <> chr "S" /\ c <> chr "Z") /\ c <> NUL) f.
Proof.
  intros H. eapply Forall_impl; [exact H|]. intros c Hc. cbn in Hc. apply num_char_range in Hc.
  unfold chr, NUL; cbn. lia.
Qed.

Lemma commas_plain vs : Forall (fun c => (c <> chr "S" /\ c <> chr "Z") /\ c <> NUL) (commas vs).
Proof.
  induction vs as [|v [|w vs] IH]; [constructor|apply num_chars_plain, dec_num_char|].
  change (commas (v :: w :: vs)) with (dec v ++ chr "," :: commas (w :: vs)).
  apply Forall_app. split; [apply num_chars_plain, dec_num_char|].
  constructor; [|exact IH]. repeat split; discriminate.
Qed.

Lemma Forall_and_inv {A} (P Q : A -> Prop) l :
  Forall (fun x => P x /\ Q x) l -> Forall P l /\ Forall Q l.
Proof. intros H. split; eapply Forall_impl; try exact H; cbn; tauto. Qed.

(** ** Properties *)

(** The receiver's line buffer is safe: whatever bytes arrive, no store goes
    outside its 50 bytes and every turn that completes leaves a well-formed
    state; a turn can only fail on the type byte, when the memory behind the
    single character has no terminator, or when decoding a completed frame. *)
Theorem rasp_receiver_safe e s g :
  rasp_wf s ->
  (forall s' g', rasp_rec_byte e s g = Some (s', g') -> rasp_wf s') /\
  (rasp_rec_byte e s g = None ->
     (lora_buffer_index s = 1 /\ ev_char e <> chr "S" /\ atoi (ev_char e :: ev_after e) = None) \/
     (ev_char e = chr "Z" /\ lora_buffer_index s <> 0)).
Proof. apply rasp_byte_cases. Qed.

(** C19: every command frame [S<t>,<v1>,...Z] of the six types, with the right
    number of [int] values and at most 48 bytes before the end, received by
    an idle receiver at any ticks, has exactly the specified effect on the
    globals; the receiver is idle again, holds the frame for the echo, and
    every type but 3 asks for that echo. *)
Theorem rasp_command t vs evs ez s g :
  arity t = Some (length vs) -> Forall in_int vs ->
  (length (command_frame t vs) <= 48)%nat ->
  rasp_wf s -> lora_buffer_index s = 0 ->
  map ev_char evs = command_frame t vs -> ev_char ez = chr "Z" ->
  Forall (fun e => after_ok (ev_after e)) evs ->
  exists s', rasp_rec (evs ++ [ez]) s g =
      Some (s', apply_command t vs (g <| rec_server_tick := ev_now ez |>)) /\
    rasp_wf s' /\ lora_buffer_index s' = 0 /\
    cstr (lora_buffer s') = Some (command_frame t vs ++ [chr "Z"]) /\
    (if confirmed t then send_status_data s' = 0 /\ send_confirm_data s' = 1
     else send_status_data s' = send_status_data s /\ send_confirm_data s' = send_confirm_data s).
Proof.
  intros Ha Hv Hl Hw H0 Hev Hez Hafter.
  assert (Ht : 1 <= t <= 6).
  { unfold arity in Ha. destruct t as [|[[[]|[]|]|[[]|[]|]|]|]; try discriminate; lia. }
  pose proof (commas_plain vs) as [Hp1 Hp2]%Forall_and_inv.
  destruct (frame_received t (chr "," :: commas vs) evs s g) as (s1 & now & R1 & Hh & Hi & Hst & Hcf);
    [lia|unfold command_frame in Hl; cbn [length] in *; lia
    |constructor; [split; discriminate|exact Hp1]|exact Hw|exact H0|exact Hev|exact Hafter|].
  assert (Hnn : Forall (fun c => c <> NUL) (command_frame t vs)).
  { unfold command_frame. constructor; [discriminate|]. constructor; [unfold chr, NUL; cbn; lia|].
    constructor; [discriminate|exact Hp2]. }
  destruct (end_byte ez (command_frame t vs) s1 (g <| rec_server_tick := now |>) Hez Hh
              ltac:(unfold command_frame in *; cbn [length] in *; lia) Hnn) as [Hc R2].
  destruct (dispatch_command (ev_now2 ez) t vs (ended s1)
      (g <| rec_server_tick := now |> <| rec_server_tick := ev_now ez |>) Ha Hv) as (s2 & R3 & Hd);
    [apply (rw_arrays _ (rh_wf _ _ Hh))|exact Hi|].
  destruct Hd as (Hok & Hbuf & Hidx & Hflags).
  exists (s2 <| lora_buffer_index := 0 |>). rewrite rasp_rec_app, R1. cbn [mbind option_bind rasp_rec].
  rewrite R2, R3. cbn [mbind option_bind].
  split; [reflexivity|]. split; [constructor; cbn|].
  - rewrite Hbuf. cbn. rewrite !length_insert. apply (rw_buf _ (rh_wf _ _ Hh)).
  - lia.
  - exact Hok.
  - split; [reflexivity|]. split.
    + change (lora_buffer (s2 <| lora_buffer_index := 0 |>)) with (lora_buffer s2).
      rewrite Hbuf. exact Hc.
    + rewrite <- Hst, <- Hcf. exact Hflags.
Qed.

(** A command field of 20 characters or more (here in a compass command)
    makes [sscanf] write past the receiver's 20-byte array. *)
Theorem rasp_field_overflow f evs ez s g :
  (20 <= length f <= 45)%nat ->
  Forall (fun c => (c <> chr "S" /\ c <> chr "Z") /\ c <> NUL /\ c <> chr ",") f ->
  rasp_wf s -> lora_buffer_index s = 0 ->
  map ev_char evs = chr "S" :: chr "6" :: chr "," :: f -> ev_char ez = chr "Z" ->
  Forall (fun e => after_ok (ev_after e)) evs ->
  rasp_rec (evs ++ [ez]) s g = None.
Proof.
  intros Hl Hf Hw H0 Hev Hez Hafter.
  apply Forall_and_inv in Hf as [Hf1 [Hf2 Hf3]%Forall_and_inv].
  destruct (frame_received 6 (chr "," :: f) evs s g) as (s1 & now & R1 & Hh & Hi & _);
    [lia|cbn [length]; lia|constructor; [split; discriminate|exact Hf1]|exact Hw|exact H0
    |exact Hev|exact Hafter|].
  change (chr "0" + 6) with (chr "6") in Hh.
  destruct (end_byte ez _ s1 (g <| rec_server_tick := now |>) Hez Hh) as [_ R2];
    [cbn [length]; lia|repeat (constructor; [discriminate|]); exact Hf2|].
  rewrite rasp_rec_app, R1. cbn [mbind option_bind rasp_rec]. rewrite R2.
  rewrite dispatch_overflow; [reflexivity|exact Hi|apply (rw_arrays _ (rh_wf _ _ Hh))| |lia].
  clear - Hf1 Hf3. induction f; constructor; inversion Hf1; inversion Hf3; subst; tauto.
Qed.

(** One round of the sender in an unchanged state prints the sampling report
    if a second has passed since the last one, the water quality once a sample
    is finished, then every marked obstacle exactly once and in order if one
    is nearer than 15 m, and last the position. *)
Theorem send_round now now2 s t g :
  send_pc t = Top -> send_status_data s = 1 ->
  exists n t' out, send_run n now now2 s t g = Some (s, t', out) /\
    send_pc t' = Bottom /\
    draw_send_tick t' = (if 1000 <? u32 (now - draw_send_tick t) then now2 else draw_send_tick t) /\
    printed out =
      (if 1000 <? u32 (now - draw_send_tick t) then [draw_report g] else []) ++
      (if draw_status g =? 4 then [sample_report g] else []) ++
      (if min_distance g <? 1500
       then map (fun j => obstacle_report j g) (marked g (seq 0 10)) else []) ++
      [position_report g].
Proof.
  intros Hpc Hst. destruct t as [pc tick]; cbn in Hpc; subst pc. cbn [draw_send_tick].
  destruct (1000 <? u32 (now - tick)) eqn:Et.
  - pose proof (send_sample_run now now2 s g now2) as Hn.
    apply (sends_step _ _ _ _ ([Print (draw_report g); Delay 50], AfterStatus)) in Hn; [|reflexivity].
    destruct Hn as (n & t & out & E & Hp1 & Hp2 & Hp3). exists (S n), t, ([Print (draw_report g); Delay 50] ++ out).
    cbn [send_run]. unfold rasp_send_step at 1. cbn [send_pc draw_send_tick]. rewrite Hst, Et. cbn [Z.eqb Pos.eqb fst snd mbind option_bind] in *.
    rewrite E. auto.
  - destruct (send_sample_run now now2 s g tick) as (n & t & out & E & Hp1 & Hp2 & Hp3).
    exists (S n), t, ((send_sample g).1 ++ out). cbn [send_run]. unfold rasp_send_step at 1. cbn [send_pc draw_send_tick].
    rewrite Hst, Et. cbn [Z.eqb Pos.eqb mbind option_bind]. rewrite E. auto.
Qed.

Lemma plain_text fmt : chr "%" ∉ fmt -> Printf.formatted fmt [] = Some fmt.
Proof.
  intros Hp. unfold Printf.formatted. assert (H : forall f out, (length fmt < f)%nat -> chr "%" ∉ fmt ->
    @Printf.format_loop _ Printf.list_sink f out fmt [] = Some (out ++ fmt)); [|apply H; [lia | exact Hp]].
  clear Hp. induction fmt as [|c fmt IH]; intros [|f] out Hf Hp; cbn [length] in Hf; try lia; cbn [Printf.format_loop].
  - rewrite app_nil_r. reflexivity.
  - rewrite not_elem_of_cons in Hp. destruct Hp as [Hc Hp]. unfold Printf.format_step.
    destruct (Z.eqb_spec c (chr "%")); [congruence|]. cbn [negb mbind option_bind].
    rewrite IH by (exact Hp || lia). unfold Printf.put_char, Printf.list_sink. rewrite <- app_assoc. reflexivity.
Qed.

(** The sender's only error: a received frame that, as a format, asks for an argument or has a width or precision
    whose digits overflow. *)
Definition frame_no_format (s : RaspSt) : Prop :=
  exists fmt, cstr (lora_buffer s) = Some fmt /\ chr "%" ∈ fmt /\ Printf.formatted fmt [] = None.

Lemma send_step_cases now now2 s t g : frame_ends s ->
  match rasp_send_step now now2 s t g with
  | Some (s', _, _) => s' = s \/ s' = s <| send_status_data := 1 |> <| send_detect_data := 0 |>
  | None => send_pc t = Top /\ send_status_data s <> 1 /\ send_confirm_data s = 1 /\ frame_no_format s
  end.
Proof.
  intros He. unfold rasp_send_step. destruct (send_pc t); auto.
  destruct (Z.eqb_spec (send_status_data s) 1) as [|Hst]; [destruct (_ <? _); auto|].
  destruct (Z.eqb_spec (send_confirm_data s) 1) as [Hc|]; [|auto].
  destruct (cstr_Some (lora_buffer s)) as [fmt Ef].
  { apply Exists_exists. exists NUL. split; [apply (list_elem_of_lookup_2 _ _ _ He) | reflexivity]. }
  rewrite Ef. cbn [mbind option_bind]. destruct (Printf.formatted fmt []) as [text|] eqn:Et; cbn [mbind option_bind]; [auto|].
  split_ands; auto. exists fmt. split_ands; auto. destruct (decide (chr "%" ∈ fmt)) as [|Hn]; [assumption|].
  rewrite plain_text in Et by exact Hn. discriminate.
Qed.

(** ** Witnesses *)

Definition ev_of (c : Z) : RaspEv := mkRaspEv 5 6 [NUL] c.

Lemma ev_of_chars l : map ev_char (map ev_of l) = l.
Proof. rewrite map_map. apply map_id. Qed.

Lemma ev_of_after l : Forall (fun e => after_ok (ev_after e)) (map ev_of l).
Proof.
  induction l; cbn; constructor; auto. split; [left; reflexivity|reflexivity].
Qed.

Lemma rasp_init_wf : rasp_wf (rasp_init (replicate 20 7)).
Proof. constructor; cbn; [reflexivity|lia|repeat constructor]. Qed.

Lemma rasp_receiver_safe_witness :
  exists s' g', rasp_rec_byte (ev_of (chr "S")) (rasp_init (replicate 20 7)) globals_init = Some (s', g')
                /\ rasp_wf s'.
Proof.
  eexists _, _. split; [reflexivity|].
  eapply (proj1 (rasp_receiver_safe (ev_of (chr "S")) (rasp_init (replicate 20 7)) globals_init rasp_init_wf)).
  reflexivity.
Defined.

Lemma rasp_command_witness :
  exists s', rasp_rec (map ev_of (command_frame 2 [3; 5; 100]) ++ [ev_of (chr "Z")])
      (rasp_init (replicate 20 7)) globals_init =
      Some (s', apply_command 2 [3; 5; 100] (globals_init <| rec_server_tick := 5 |>)).
Proof.
  destruct (rasp_command 2 [3; 5; 100] (map ev_of (command_frame 2 [3; 5; 100])) (ev_of (chr "Z"))
    (rasp_init (replicate 20 7)) globals_init) as (s' & H & _);
    [reflexivity|repeat constructor; vm_compute; discriminate|vm_compute; lia|exact rasp_init_wf
    |reflexivity|apply ev_of_chars|reflexivity|apply ev_of_after|].
  exists s'. exact H.
Defined.

Lemma rasp_field_overflow_witness :
  rasp_rec (map ev_of (chr "S" :: chr "6" :: chr "," :: replicate 20 (chr "1")) ++ [ev_of (chr "Z")])
    (rasp_init (replicate 20 7)) globals_init = None.
Proof.
  apply (rasp_field_overflow (replicate 20 (chr "1")));
    [cbn; lia|cbn; repeat (constructor; [repeat split; discriminate|]); constructor
    |exact rasp_init_wf|reflexivity|apply ev_of_chars|reflexivity|apply ev_of_after].
Defined.

Lemma send_round_witness :
  exists n t' out, send_run n 5000 5000 (rasp_init []) (mkSendSt Top 0) globals_init = Some (rasp_init [], t', out) /\
    send_pc t' = Bottom /\
    draw_send_tick t' = (if 1000 <? u32 (5000 - 0) then 5000 else 0) /\
    printed out =
      (if 1000 <? u32 (5000 - 0) then [draw_report globals_init] else []) ++
      (if draw_status globals_init =? 4 then [sample_report globals_init] else []) ++
      (if min_distance globals_init <? 1500
       then map (fun j => obstacle_report j globals_init) (marked globals_init (seq 0 10)) else []) ++
      [position_report globals_init].
Proof. apply (send_round 5000 5000 (rasp_init []) (mkSendSt Top 0) globals_init); reflexivity. Defined.
