(* ===== verification/Sensors.v ===== *)
(** The binary sensor streams: the inertial and GPS unit (src/applications/gps.c),
    the obstacle radar (src/applications/compass.c, [check_radar]) and the water
    probe (src/applications/water.c).  Each [*_rec_byte] is one turn of the
    receiving loop.  [rt_device_read] stores one byte in an [int] that is 0
    above its low byte, so the received value is the byte. *)

From Stdlib Require Import Floats.SpecFloat.
From S2P Require Import Prelude CFloat FloatExact Globals.

(** The array and index of one of the loops. *)
Record Coll := mkColl { coll_buffer : list Z; coll_index : Z }.
#[export] Instance Coll_rebuild : Rebuild Coll := fun s => mkColl (coll_buffer s) (coll_index s).

Definition coll_init : Coll := mkColl (replicate 128 0) 0.

Definition coll_put (b : Z) (s : Coll) : option Coll :=
  buf ← buf_set (coll_buffer s) (coll_index s) b;
  Some (mkColl buf (coll_index s + 1)).

(** An element of a buffer; the loops only read initialised ones. *)
Definition at_ (buf : list Z) (i : nat) : Z := default 0 (buf !! i).

(** ** GPS and inertial unit *)

Section Gps.
  Context `{Libm}.

(** [b3*pow(2,24)+b2*pow(2,16)+b1*pow(2,8)+b0], evaluated in [double]. *)
Definition le32 (b3 b2 b1 b0 : Z) : float64 :=
  let p k := pow (d_of_int 2) (d_of_int k) in
  dadd (dadd (dadd (dmul (d_of_int b3) (p 24)) (dmul (d_of_int b2) (p 16)))
             (dmul (d_of_int b1) (p 8))) (d_of_int b0).

(** [v/10000000+(v%10000000)/100000.0/60.0] *)
Definition degrees (v : Z) : float32 :=
  f_of_d (dadd (d_of_int (Z.quot v 10000000))
               (ddiv (ddiv (d_of_int (Z.rem v 10000000)) (d_of_int 100000)) (d_of_int 60))).

(** What a complete message does. *)
Definition gps_message (buf : list Z) (g : Globals) : Globals :=
  let g := if at_ buf 1 =? 83 then
             g <| current_theta :=
               f_of_d (dmul (ddiv (d_of_int (at_ buf 7 * 256 + at_ buf 6)) (d_of_int 32768))
                            (d_of_int 180)) |>
           else g in
  let g := if at_ buf 1 =? 87 then
             let lng_ := to_int (le32 (at_ buf 5) (at_ buf 4) (at_ buf 3) (at_ buf 2)) in
             let lat_ := to_int (le32 (at_ buf 9) (at_ buf 8) (at_ buf 7) (at_ buf 6)) in
             g <| lng := degrees lng_ |> <| lat := degrees lat_ |>
           else g in
  if at_ buf 1 =? 88 then
    let speed_ := to_int (le32 (at_ buf 9) (at_ buf 8) (at_ buf 7) (at_ buf 6)) in
    g <| speed := speed_ |>
  else g.

Definition gps_rec_byte (r_hex : Z) (s : Coll) (g : Globals) : option (Coll * Globals) :=
  s ← (if r_hex =? 85 then coll_put r_hex s
       else if negb (coll_index s =? 0) then coll_put r_hex s
       else Some s);
  let '(s, g) := if coll_index s =? 11 then (s <| coll_index := 0 |>, gps_message (coll_buffer s) g)
                 else (s, g) in
  let s := if 11 <? coll_index s then s <| coll_index := 0 |> else s in
  Some (s, g).

End Gps.

(** ** Water probe *)

Definition water_message (buf : list Z) (g : Globals) : Globals :=
  g <| ph := at_ buf 3 * 256 + at_ buf 4 |> <| wt := at_ buf 7 * 256 + at_ buf 8 |>.

Definition water_rec_byte (r_hex : Z) (s : Coll) (g : Globals) : option (Coll * Globals) :=
  s ← (if r_hex =? 6 then coll_put r_hex s
       else if negb (coll_index s =? 0) then coll_put r_hex s
       else Some s);
  let '(s, g) := if coll_index s =? 12 then (s <| coll_index := 0 |>, water_message (coll_buffer s) g)
                 else (s, g) in
  let s := if 12 <? coll_index s then s <| coll_index := 0 |> else s in
  Some (s, g).

(** What the probe's sender writes in one turn ([index] never changes). *)
Definition ph_data : list Z := [0x06; 0x03; 0x00; 0x00; 0x00; 0x04; 0x45; 0xBE; 0x00].
Definition cod_data : list Z := [0xFF; 0xFF; 0xFF].
Definition do_data : list Z := [0xFF; 0xFF; 0xFF].
Definition send_water_data (index : Z) : list Z :=
  if index =? 0 then take 8 ph_data
  else if index =? 1 then take 3 cod_data
  else if index =? 2 then take 3 do_data
  else [].

(** ** Radar *)

Record RadarSt := mkRadarSt { radar_coll : Coll; pre_r_hex : Z }.

Definition radar_init : RadarSt := mkRadarSt coll_init 0.

(** A target message; the arrays have ten elements. *)
Definition radar_message (now : Z) (buf : list Z) (g : Globals) : option Globals :=
  if (at_ buf 1 =? 12) && (at_ buf 2 =? 7) then
    let t_id := at_ buf 3 in
    let t_angle := at_ buf 7 in
    let t_distance := at_ buf 5 * 256 + at_ buf 6 in
    let g := g <| obstacle_tick := now |> in
    let g := if t_distance <? min_distance g then g <| min_distance := t_distance |> else g in
    if t_id <? 10 then
      ids ← buf_set (target_id g) t_id 1;
      ds ← buf_set (target_distance g) t_id t_distance;
      angles ← buf_set (target_angle g) t_id t_angle;
      Some (g <| target_id := ids |> <| target_distance := ds |> <| target_angle := angles |>)
    else Some g
  else Some g.

Definition radar_rec_byte (now r_hex : Z) (s : RadarSt) (g : Globals) : option (RadarSt * Globals) :=
  c ← (if (r_hex =? 170) && (pre_r_hex s =? 170) then coll_put r_hex (radar_coll s)
       else if negb (coll_index (radar_coll s) =? 0) then coll_put r_hex (radar_coll s)
       else Some (radar_coll s));
  '(c, g) ← (if (r_hex =? 85) && (pre_r_hex s =? 85) then
               g ← radar_message now (coll_buffer c) g;
               Some (c <| coll_index := 0 |>, g)
             else Some (c, g));
  let c := if 13 <? coll_index c then c <| coll_index := 0 |> else c in
  Some (mkRadarSt c r_hex, g).

(** ** Runs over a stream *)

Section Stream.
Context {S : Type} (step : Z -> S -> Globals -> option (S * Globals)).
Fixpoint stream (bytes : list Z) (s : S) (g : Globals) : option (S * Globals) :=
  match bytes with
  | [] => Some (s, g)
  | b :: bytes' => '(s, g) ← step b s g; stream bytes' s g
  end.

Lemma stream_app bytes bytes' s g :
  stream (bytes ++ bytes') s g = ('(s, g) ← stream bytes s g; stream bytes' s g).
Proof.
  revert s g. induction bytes as [|b bytes IH]; intros s g; [reflexivity|].
  cbn [app stream]. destruct (step b s g) as [[s1 g1]|]; [|reflexivity].
  cbn [mbind option_bind]. apply IH.
Qed.
End Stream.

(** The collector has stored [str] of the current frame. *)
Record collected (str : list Z) (s : Coll) : Prop := {
  co_len : length (coll_buffer s) = 128%nat;
  co_idx : coll_index s = Z.of_nat (length str);
  co_take : take (length str) (coll_buffer s) = str;
}.

Lemma coll_put_eq b s :
  length (coll_buffer s) = 128%nat -> 0 <= coll_index s < 128 ->
  coll_put b s = Some (mkColl (<[Z.to_nat (coll_index s) := b]> (coll_buffer s)) (coll_index s + 1)).
Proof. intros Hl Hi. unfold coll_put. rewrite buf_set_Some by lia. reflexivity. Qed.

Lemma put_collected b str s :
  collected str s -> (length str < 128)%nat ->
  exists s', coll_put b s = Some s' /\ collected (str ++ [b]) s'.
Proof.
  intros [Hl Hi Ht] Hlt. rewrite coll_put_eq by lia. eexists. split; [reflexivity|].
  constructor; cbn [coll_buffer coll_index].
  - rewrite length_insert. exact Hl.
  - rewrite length_app. cbn. lia.
  - rewrite length_app. cbn [length]. rewrite Nat.add_1_r, Hi, Nat2Z.id.
    rewrite take_insert_snoc by lia. rewrite Ht. reflexivity.
Qed.

(** ** Fixed-length frames behind a start byte: the pattern the GPS and the
  water loops share. *)

Section Collector.
Variables (start : Z) (len : nat) (message : list Z -> Globals -> Globals).
Hypothesis len_ok : (1 <= len <= 128)%nat.

Definition collect (b : Z) (s : Coll) (g : Globals) : option (Coll * Globals) :=
  s ← (if b =? start then coll_put b s
       else if negb (coll_index s =? 0) then coll_put b s
       else Some s);
  let '(s, g) := if coll_index s =? Z.of_nat len
                 then (s <| coll_index := 0 |>, message (coll_buffer s) g)
                 else (s, g) in
  let s := if Z.of_nat len <? coll_index s then s <| coll_index := 0 |> else s in
  Some (s, g).

Record coll_wf (s : Coll) : Prop := {
  cw_len : length (coll_buffer s) = 128%nat;
  cw_idx : 0 <= coll_index s < Z.of_nat len;
}.

Lemma collect_safe b s g : coll_wf s ->
  exists s' g', collect b s g = Some (s', g') /\ coll_wf s'.
Proof.
  intros [Hl Hi]. unfold collect.
  destruct (b =? start); [|destruct (Z.eqb_spec (coll_index s) 0) as [E|E]; cbn [negb]].
  1, 3: rewrite coll_put_eq by lia; cbn [mbind option_bind coll_index];
    destruct (Z.eqb_spec (coll_index s + 1) (Z.of_nat len)); cbn;
    rewrite (proj2 (Z.ltb_ge (Z.of_nat len) _)) by lia;
    eexists _, _; (split; [reflexivity|]);
    constructor; cbn; rewrite ?length_insert; lia.
  cbn [mbind option_bind]. rewrite (proj2 (Z.eqb_neq (coll_index s) _)) by lia.
  rewrite (proj2 (Z.ltb_ge (Z.of_nat len) (coll_index s))) by lia.
  eexists _, _. split; [reflexivity|]. constructor; lia.
Qed.

(** A byte inside a frame. *)
Lemma collect_inside b str s g :
  collected str s -> (1 <= length str)%nat -> (S (length str) < len)%nat ->
  exists s', collect b s g = Some (s', g) /\ collected (str ++ [b]) s'.
Proof.
  intros Hc H1 H2. destruct (put_collected b str s Hc ltac:(lia)) as (s' & E & Hc').
  exists s'. split; [|exact Hc']. unfold collect.
  rewrite (co_idx _ _ Hc), (proj2 (Z.eqb_neq _ 0)) by lia. cbn [negb].
  replace (if b =? start then coll_put b s else coll_put b s) with (coll_put b s)
    by (destruct (b =? start); reflexivity).
  rewrite E. cbn [mbind option_bind]. pose proof (co_idx _ _ Hc') as Hi.
  rewrite length_app in Hi. cbn [length] in Hi. rewrite Hi, (proj2 (Z.eqb_neq _ (Z.of_nat len))) by lia.
  cbv iota beta. rewrite Hi, (proj2 (Z.ltb_ge (Z.of_nat len) _)) by lia. reflexivity.
Qed.

Lemma collect_bytes bytes str s g :
  collected str s -> (1 <= length str)%nat -> (length str + length bytes < len)%nat ->
  exists s', stream collect bytes s g = Some (s', g) /\ collected (str ++ bytes) s'.
Proof.
  revert str s. induction bytes as [|b bytes IH]; intros str s Hc H1 H2.
  { exists s. rewrite app_nil_r. auto. }
  cbn [length] in H2.
  destruct (collect_inside b str s g Hc H1 ltac:(lia)) as (s1 & E1 & Hc1).
  destruct (IH (str ++ [b]) s1 Hc1) as (s2 & E2 & Hc2); [rewrite length_app; cbn; lia..|].
  exists s2. cbn [stream]. rewrite E1. cbn [mbind option_bind]. rewrite E2.
  rewrite <- app_assoc in Hc2. auto.
Qed.

Lemma collect_start s g :
  (2 <= len)%nat -> length (coll_buffer s) = 128%nat -> coll_index s = 0 ->
  exists s', collect start s g = Some (s', g) /\ collected [start] s'.
Proof.
  intros H2 Hl H0. destruct (put_collected start [] s) as (s' & E & Hc);
    [constructor; auto|cbn; lia|].
  exists s'. split; [|exact Hc]. unfold collect. rewrite Z.eqb_refl, E. cbn [mbind option_bind].
  pose proof (co_idx _ _ Hc) as Hi. cbn [app length] in Hi.
  rewrite Hi, (proj2 (Z.eqb_neq _ (Z.of_nat len))) by lia.
  cbv iota beta. rewrite Hi, (proj2 (Z.ltb_ge (Z.of_nat len) _)) by lia. reflexivity.
Qed.

(** The last byte delivers the message. *)
Lemma collect_last b str s g :
  collected str s -> (1 <= length str)%nat -> S (length str) = len ->
  exists s' buf, collect b s g = Some (s', message buf g) /\
    take len buf = str ++ [b] /\
    length (coll_buffer s') = 128%nat /\ coll_index s' = 0.
Proof.
  intros Hc H1 H2. destruct (put_collected b str s Hc ltac:(lia)) as (s' & E & Hc').
  exists (s' <| coll_index := 0 |>), (coll_buffer s'). split.
  - unfold collect. rewrite (co_idx _ _ Hc), (proj2 (Z.eqb_neq _ 0)) by lia. cbn [negb].
    replace (if b =? start then coll_put b s else coll_put b s) with (coll_put b s)
      by (destruct (b =? start); reflexivity).
    rewrite E. cbn [mbind option_bind]. rewrite (co_idx _ _ Hc'), length_app. cbn [length].
    replace (Z.of_nat (length str + 1) =? Z.of_nat len) with true
      by (symmetry; apply Z.eqb_eq; lia).
    cbn. rewrite (proj2 (Z.ltb_ge (Z.of_nat len) 0)) by lia. reflexivity.
  - pose proof (co_take _ _ Hc') as Ht. rewrite length_app in Ht. cbn [length] in Ht.
    split_ands; [rewrite <- Ht; f_equal; lia|apply Hc'|reflexivity].
Qed.

(** Noise before a frame is skipped. *)
Lemma collect_idle b s g : b <> start -> coll_index s = 0 -> collect b s g = Some (s, g).
Proof.
  intros Hb H0. unfold collect. rewrite (proj2 (Z.eqb_neq b start) Hb), H0.
  cbn [Z.eqb negb mbind option_bind]. rewrite H0, (proj2 (Z.eqb_neq 0 (Z.of_nat len))) by lia.
  cbv iota beta. rewrite H0, (proj2 (Z.ltb_ge (Z.of_nat len) 0)) by lia. reflexivity.
Qed.

Lemma collect_noise noise s g :
  Forall (fun b => b <> start) noise -> coll_index s = 0 ->
  stream collect noise s g = Some (s, g).
Proof.
  intros Hn H0. induction Hn as [|b noise Hb _ IH]; [reflexivity|].
  cbn [stream]. rewrite collect_idle by assumption. exact IH.
Qed.

Lemma collect_frame payload s g :
  (3 <= len)%nat -> S (length payload) = len ->
  length (coll_buffer s) = 128%nat -> coll_index s = 0 ->
  exists s' buf, stream collect (start :: payload) s g = Some (s', message buf g) /\
    take len buf = start :: payload /\
    length (coll_buffer s') = 128%nat /\ coll_index s' = 0.
Proof.
  intros H3 Hp Hl H0.
  destruct (collect_start s g ltac:(lia) Hl H0) as (s1 & E1 & Hc1).
  destruct (List.exists_last (l := payload)) as (body & b & ->).
  { intros ->. cbn in Hp. lia. }
  rewrite length_app in Hp. cbn [length] in Hp.
  destruct (collect_bytes body [start] s1 g Hc1) as (s2 & E2 & Hc2); [cbn; lia..|].
  destruct (collect_last b ([start] ++ body) s2 g Hc2) as (s3 & buf & E3 & Ht & Hl3 & H03);
    [cbn; lia..|].
  exists s3, buf. split_ands; auto.
  cbn [stream]. rewrite E1. cbn [mbind option_bind]. rewrite stream_app, E2.
  cbn [mbind option_bind stream]. rewrite E3. reflexivity.
Qed.

(** A stream of frames separated by noise delivers their messages in order. *)
Hypothesis message_ext : forall buf buf' g, take len buf = take len buf' -> message buf g = message buf' g.

Definition frames_bytes (segs : list (list Z * list Z)) : list Z :=
  flat_map (fun '(noise, payload) => noise ++ start :: payload) segs.

Lemma collect_frames segs s g :
  (3 <= len)%nat ->
  Forall (fun '(noise, payload) => Forall (fun b => b <> start) noise /\ S (length payload) = len) segs ->
  length (coll_buffer s) = 128%nat -> coll_index s = 0 ->
  exists s', stream collect (frames_bytes segs) s g =
      Some (s', fold_left (fun g '(_, payload) => message (start :: payload) g) segs g) /\
    length (coll_buffer s') = 128%nat /\ coll_index s' = 0.
Proof.
  intros H3 Hs. revert s g. induction Hs as [|[noise payload] segs [Hn Hp] Hs IH]; intros s g Hl H0.
  { exists s. auto. }
  destruct (collect_frame payload s g H3 Hp Hl H0) as (s1 & buf & E1 & Ht & Hl1 & H01).
  destruct (IH s1 (message buf g) Hl1 H01) as (s2 & E2 & Hl2 & H02).
  exists s2. split_ands; auto. unfold frames_bytes. cbn [flat_map].
  rewrite !stream_app, collect_noise by assumption. cbn [mbind option_bind].
  rewrite E1. cbn [mbind option_bind]. unfold frames_bytes in E2. rewrite E2.
  cbn [fold_left]. rewrite (message_ext buf (start :: payload) g); [reflexivity|].
  rewrite Ht, take_ge; [reflexivity|]. cbn [length]. lia.
Qed.
End Collector.

(** ** The GPS and water loops are such collectors *)

Lemma at_take n buf buf' i :
  (i < n)%nat -> take n buf = take n buf' -> at_ buf i = at_ buf' i.
Proof.
  intros Hi E. unfold at_. rewrite <- (lookup_take_lt buf n i Hi), E, lookup_take_lt by exact Hi.
  reflexivity.
Qed.

Section GpsLemmas.
Context `{Libm}.

Lemma gps_collect b s g : gps_rec_byte b s g = collect 85 11 gps_message b s g.
Proof. reflexivity. Qed.

Lemma gps_message_ext buf buf' g :
  take 11 buf = take 11 buf' -> gps_message buf g = gps_message buf' g.
Proof.
  intros E. unfold gps_message.
  rewrite !(at_take 11 buf buf' 1), !(at_take 11 buf buf' 2), !(at_take 11 buf buf' 3),
    !(at_take 11 buf buf' 4), !(at_take 11 buf buf' 5), !(at_take 11 buf buf' 6),
    !(at_take 11 buf buf' 7), !(at_take 11 buf buf' 8), !(at_take 11 buf buf' 9) by (lia || exact E).
  reflexivity.
Qed.

Lemma gps_stream bytes s g : stream gps_rec_byte bytes s g = stream (collect 85 11 gps_message) bytes s g.
Proof. reflexivity. Qed.

(** What the C library documents for the powers of two involved: exact. *)
Definition pow2_exact : Prop :=
  forall k, In k [8; 16; 24] -> pow (d_of_int 2) (d_of_int k) = d_of_int (2 ^ k).

Definition le_value (b3 b2 b1 b0 : Z) : Z := b3 * 2 ^ 24 + b2 * 2 ^ 16 + b1 * 2 ^ 8 + b0.

Definition is_byte (b : Z) : Prop := 0 <= b < 256.

Lemma le32_exact b3 b2 b1 b0 :
  pow2_exact -> is_byte b3 -> is_byte b2 -> is_byte b1 -> is_byte b0 ->
  le32 b3 b2 b1 b0 = d_of_int (le_value b3 b2 b1 b0).
Proof.
  unfold is_byte. intros Hp H3 H2 H1 H0. unfold le32, le_value.
  rewrite !Hp by (cbn; tauto).
  rewrite !dmul_int by (unfold MAX53; lia). rewrite !dadd_int by (unfold MAX53; lia). reflexivity.
Qed.

Lemma le32_to_int b3 b2 b1 b0 :
  pow2_exact -> is_byte b3 -> is_byte b2 -> is_byte b1 -> is_byte b0 ->
  to_int (le32 b3 b2 b1 b0) = Z.min INT_MAX (le_value b3 b2 b1 b0).
Proof.
  intros Hp H3 H2 H1 H0. rewrite le32_exact by assumption. apply to_int_d_of_int.
  unfold is_byte, le_value, MAX53 in *. lia.
Qed.

End GpsLemmas.

Lemma water_message_ext buf buf' g :
  take 12 buf = take 12 buf' -> water_message buf g = water_message buf' g.
Proof.
  intros E. unfold water_message.
  rewrite !(at_take 12 buf buf' 3), !(at_take 12 buf buf' 4), !(at_take 12 buf buf' 7),
    !(at_take 12 buf buf' 8) by (lia || exact E).
  reflexivity.
Qed.

(** ** The radar loop *)

Record radar_wf (s : RadarSt) : Prop := {
  ra_len : length (coll_buffer (radar_coll s)) = 128%nat;
  ra_idx : 0 <= coll_index (radar_coll s) <= 13;
  ra_bytes : Forall (fun b => 0 <= b) (coll_buffer (radar_coll s));
}.

Lemma at_nonneg buf i : Forall (fun b => 0 <= b) buf -> 0 <= at_ buf i.
Proof.
  intros Hb. unfold at_. destruct (buf !! i) as [b|] eqn:E; [|cbn; lia].
  rewrite Forall_lookup in Hb. exact (Hb i b E).
Qed.

Lemma Forall_insert_le {A} (P : A -> Prop) l i x :
  Forall P l -> P x -> Forall P (<[i := x]> l).
Proof. intros. apply Forall_insert; assumption. Qed.

(** The effect of a target message. *)
Definition radar_apply (now id angle distance : Z) (g : Globals) : Globals :=
  let g := g <| obstacle_tick := now |> <| min_distance := Z.min (min_distance g) distance |> in
  if id <? 10 then
    g <| target_id := <[Z.to_nat id := 1]> (target_id g) |>
      <| target_distance := <[Z.to_nat id := distance]> (target_distance g) |>
      <| target_angle := <[Z.to_nat id := angle]> (target_angle g) |>
  else g.

Definition radar_effect (now : Z) (buf : list Z) (g : Globals) : Globals :=
  if (at_ buf 1 =? 12) && (at_ buf 2 =? 7)
  then radar_apply now (at_ buf 3) (at_ buf 7) (at_ buf 5 * 256 + at_ buf 6) g
  else g.

Lemma radar_message_eq now buf g :
  Forall (fun b => 0 <= b) buf -> globals_wf g ->
  radar_message now buf g = Some (radar_effect now buf g).
Proof.
  intros Hb (_ & _ & H1 & H2 & H3). unfold radar_message, radar_effect, radar_apply.
  destruct (_ && _); [|reflexivity].
  pose proof (at_nonneg buf 3 Hb) as H0.
  set (d := at_ buf 5 * 256 + at_ buf 6).
  assert (E : (if d <? min_distance (g <| obstacle_tick := now |>)
               then g <| obstacle_tick := now |> <| min_distance := d |>
               else g <| obstacle_tick := now |>) =
              g <| obstacle_tick := now |> <| min_distance := Z.min (min_distance g) d |>).
  { cbn. destruct (Z.ltb_spec d (min_distance g)).
    - rewrite Z.min_r by lia. reflexivity.
    - rewrite Z.min_l by lia. destruct g; reflexivity. }
  cbv zeta. rewrite E. destruct (Z.ltb_spec (at_ buf 3) 10); [|reflexivity].
  cbn [mbind option_bind].
  rewrite buf_set_Some by (cbn; lia). cbn [mbind option_bind].
  rewrite buf_set_Some by (cbn; lia). cbn [mbind option_bind].
  rewrite buf_set_Some by (cbn; lia). reflexivity.
Qed.

Lemma radar_effect_wf now buf g : globals_wf g -> globals_wf (radar_effect now buf g).
Proof.
  intros (H1 & H2 & H3 & H4 & H5). unfold radar_effect, radar_apply, globals_wf.
  destruct (_ && _); [|auto]. destruct (_ <? _); cbn; rewrite ?length_insert; auto.
Qed.

(** One turn, as a total function of a well-formed state. *)
Definition radar_stored (b : Z) (s : RadarSt) : Coll :=
  if ((b =? 170) && (pre_r_hex s =? 170)) || negb (coll_index (radar_coll s) =? 0)
  then mkColl (<[Z.to_nat (coll_index (radar_coll s)) := b]> (coll_buffer (radar_coll s)))
              (coll_index (radar_coll s) + 1)
  else radar_coll s.

Definition radar_turn (now b : Z) (s : RadarSt) (g : Globals) : RadarSt * Globals :=
  let c := radar_stored b s in
  if (b =? 85) && (pre_r_hex s =? 85)
  then (mkRadarSt (c <| coll_index := 0 |>) b, radar_effect now (coll_buffer c) g)
  else (mkRadarSt (if 13 <? coll_index c then c <| coll_index := 0 |> else c) b, g).

Lemma radar_stored_ok b s : radar_wf s -> 0 <= b ->
  length (coll_buffer (radar_stored b s)) = 128%nat /\
  0 <= coll_index (radar_stored b s) <= 14 /\
  Forall (fun b => 0 <= b) (coll_buffer (radar_stored b s)).
Proof.
  intros [Hl Hi Hb] H0. unfold radar_stored.
  destruct (_ || _); cbn; rewrite ?length_insert; split_ands; auto; try lia.
  apply Forall_insert_le; assumption.
Qed.

Lemma radar_byte_eq now b s g :
  radar_wf s -> 0 <= b -> globals_wf g ->
  radar_rec_byte now b s g = Some (radar_turn now b s g) /\
  radar_wf (radar_turn now b s g).1 /\ globals_wf (radar_turn now b s g).2.
Proof.
  intros Hw H0 Hg. pose proof (radar_stored_ok b s Hw H0) as (Hl & Hi & Hb).
  unfold radar_rec_byte, radar_turn.
  assert (E : (if (b =? 170) && (pre_r_hex s =? 170) then coll_put b (radar_coll s)
               else if negb (coll_index (radar_coll s) =? 0) then coll_put b (radar_coll s)
               else Some (radar_coll s)) = Some (radar_stored b s)).
  { pose proof (ra_len s Hw). pose proof (ra_idx s Hw).
    unfold radar_stored. destruct (_ && _); cbn [orb]; [apply coll_put_eq; lia|].
    destruct (negb _); [apply coll_put_eq; lia|reflexivity]. }
  rewrite E. cbn [mbind option_bind].
  destruct ((b =? 85) && (pre_r_hex s =? 85)).
  - rewrite radar_message_eq by assumption. cbn [mbind option_bind].
    split; [reflexivity|]. split; [constructor; cbn; auto; lia|apply radar_effect_wf, Hg].
  - cbn [mbind option_bind]. split; [reflexivity|]. split; [|exact Hg].
    cbn [fst]. destruct (Z.ltb_spec 13 (coll_index (radar_stored b s)));
      constructor; cbn; auto; lia.
Qed.

(** Bytes inside a frame that are not the closing pair. *)
Definition rcollected (str : list Z) (s : RadarSt) : Prop :=
  radar_wf s /\ collected str (radar_coll s).

Lemma radar_inside now b str s g :
  rcollected str s -> (1 <= length str <= 12)%nat -> 0 <= b -> globals_wf g ->
  (b =? 85) && (pre_r_hex s =? 85) = false ->
  exists s', radar_rec_byte now b s g = Some (s', g) /\
    rcollected (str ++ [b]) s' /\ pre_r_hex s' = b.
Proof.
  intros [Hw Hc] Hl Hb Hg Hp.
  destruct (radar_byte_eq now b s g Hw Hb Hg) as (E & Hw' & _).
  destruct (put_collected b str (radar_coll s) Hc ltac:(lia)) as (c' & Ec & Hc').
  rewrite coll_put_eq in Ec by (destruct Hc; lia). injection Ec as <-.
  revert Hw' E. unfold radar_turn. rewrite Hp.
  assert (Es : radar_stored b s = mkColl (<[Z.to_nat (coll_index (radar_coll s)) := b]>
      (coll_buffer (radar_coll s))) (coll_index (radar_coll s) + 1)).
  { unfold radar_stored. rewrite (co_idx _ _ Hc), (proj2 (Z.eqb_neq _ 0)) by lia.
    rewrite orb_true_r. reflexivity. }
  rewrite Es. cbn [coll_index]. rewrite (proj2 (Z.ltb_ge 13 _)) by (rewrite (co_idx _ _ Hc); lia).
  intros Hw' E. eexists. split; [exact E|]. split; [split; [exact Hw'|exact Hc']|reflexivity].
Qed.

(** No two consecutive bytes 85, [p] being the byte before the list. *)
Fixpoint no_pair (p : Z) (l : list Z) : bool :=
  match l with
  | [] => true
  | b :: l' => negb ((b =? 85) && (p =? 85)) && no_pair b l'
  end.

Lemma last_default (x : Z) l d d' : List.last (x :: l) d = List.last (x :: l) d'.
Proof. revert x. induction l as [|y l IH]; intros x; [reflexivity|]. exact (IH y). Qed.

Lemma radar_inside_bytes now bytes str s g :
  rcollected str s -> (1 <= length str)%nat -> (length str + length bytes <= 13)%nat ->
  Forall (fun b => 0 <= b) bytes -> globals_wf g -> no_pair (pre_r_hex s) bytes = true ->
  exists s', stream (radar_rec_byte now) bytes s g = Some (s', g) /\
    rcollected (str ++ bytes) s' /\ pre_r_hex s' = List.last bytes (pre_r_hex s).
Proof.
  revert str s. induction bytes as [|b bytes IH]; intros str s Hc H1 Hl Hb Hg Hp.
  { exists s. rewrite app_nil_r. auto. }
  cbn [no_pair] in Hp. apply andb_prop in Hp as [Hp1 Hp2]. apply negb_true_iff in Hp1.
  inversion Hb as [|? ? Hb0 Hbs]; subst. cbn [length] in Hl.
  destruct (radar_inside now b str s g Hc ltac:(lia) Hb0 Hg Hp1) as (s1 & E1 & Hc1 & Hpre).
  destruct (IH (str ++ [b]) s1 Hc1) as (s2 & E2 & Hc2 & Hpre2);
    [rewrite length_app; cbn; lia|rewrite length_app; cbn; lia|exact Hbs|exact Hg|rewrite Hpre; exact Hp2|].
  exists s2. cbn [stream]. rewrite E1. cbn [mbind option_bind]. rewrite E2.
  rewrite <- app_assoc in Hc2. split_ands; auto.
  rewrite Hpre2. destruct bytes as [|x bytes]; [exact Hpre|]. exact (last_default x bytes _ _).
Qed.

(** The bytes of a target message between the two marks. *)
Definition radar_payload (id rcs dh dl angle vh vl snr : Z) : list Z :=
  [12; 7; id; rcs; dh; dl; angle; vh; vl; snr].

Lemma radar_first now b s g :
  radar_wf s -> globals_wf g -> coll_index (radar_coll s) = 0 -> pre_r_hex s <> 170 -> 0 <= b ->
  pre_r_hex s <> 85 \/ b <> 85 ->
  exists s', radar_rec_byte now b s g = Some (s', g) /\ radar_wf s' /\
    coll_index (radar_coll s') = 0 /\ pre_r_hex s' = b.
Proof.
  intros Hw Hg H0 Hp Hb H85. destruct (radar_byte_eq now b s g Hw Hb Hg) as (E & Hw' & _).
  revert E Hw'. unfold radar_turn, radar_stored.
  rewrite H0, (proj2 (Z.eqb_neq (pre_r_hex s) 170) Hp). rewrite andb_false_r. cbn [Z.eqb negb orb].
  replace ((b =? 85) && (pre_r_hex s =? 85)) with false
    by (symmetry; apply andb_false_iff; rewrite !Z.eqb_neq; tauto).
  rewrite H0. cbn [Z.ltb Z.compare]. intros E Hw'. eexists. split; [exact E|]. auto.
Qed.

Lemma radar_second now s g :
  radar_wf s -> globals_wf g -> coll_index (radar_coll s) = 0 -> pre_r_hex s = 170 ->
  exists s', radar_rec_byte now 170 s g = Some (s', g) /\ rcollected [170] s' /\ pre_r_hex s' = 170.
Proof.
  intros Hw Hg H0 Hp. destruct (radar_byte_eq now 170 s g Hw ltac:(lia) Hg) as (E & Hw' & _).
  assert (Et : radar_turn now 170 s g =
    (mkRadarSt (mkColl (<[0%nat := 170]> (coll_buffer (radar_coll s))) 1) 170, g)).
  { unfold radar_turn, radar_stored. rewrite H0, Hp. reflexivity. }
  rewrite Et in E, Hw'. eexists. split; [exact E|]. split; [|reflexivity].
  split; [exact Hw'|]. pose proof (ra_len s Hw) as Hl.
  constructor; [exact (ra_len _ Hw')|reflexivity|].
  destruct (coll_buffer (radar_coll s)); [discriminate|reflexivity].
Qed.

(** The closing pair. *)
Lemma radar_close now str s g :
  rcollected str s -> (1 <= length str <= 12)%nat -> globals_wf g -> pre_r_hex s = 85 ->
  exists s' buf, radar_rec_byte now 85 s g = Some (s', radar_effect now buf g) /\
    take (S (length str)) buf = str ++ [85] /\ radar_wf s' /\ coll_index (radar_coll s') = 0.
Proof.
  intros [Hw Hc] Hl Hg Hp.
  destruct (radar_byte_eq now 85 s g Hw ltac:(lia) Hg) as (E & Hw' & _).
  destruct (put_collected 85 str (radar_coll s) Hc ltac:(lia)) as (c' & Ec & Hc').
  rewrite coll_put_eq in Ec by (destruct Hc; lia). injection Ec as <-.
  revert E Hw'. unfold radar_turn, radar_stored. rewrite Hp, (co_idx _ _ Hc).
  rewrite (proj2 (Z.eqb_neq (Z.of_nat (length str)) 0)) by lia. cbn [Z.eqb Pos.eqb andb orb negb].
  intros E Hw'. eexists _, _. split; [exact E|]. split_ands.
  - pose proof (co_take _ _ Hc') as Ht. rewrite length_app, (co_idx _ _ Hc) in Ht. cbn [length] in Ht.
    rewrite Nat.add_1_r in Ht. exact Ht.
  - exact Hw'.
  - reflexivity.
Qed.

Lemma radar_effect_take now buf buf' g :
  take 8 buf = take 8 buf' -> radar_effect now buf g = radar_effect now buf' g.
Proof.
  intros E. unfold radar_effect.
  rewrite !(at_take 8 buf buf' 1), !(at_take 8 buf buf' 2), !(at_take 8 buf buf' 3),
    !(at_take 8 buf buf' 5), !(at_take 8 buf buf' 6), !(at_take 8 buf buf' 7) by (lia || exact E).
  reflexivity.
Qed.

(** ** Properties *)

(** The GPS unit's stream: frames of eleven bytes that start with 85,
    separated by any bytes other than 85, are decoded one by one in order,
    whatever their payload contains (85 included), and the loop is idle after
    each of them. *)
Theorem gps_decodes `{Libm} segs s g :
  Forall (fun '(noise, payload) => Forall (fun b => b <> 85) noise /\ S (length payload) = 11%nat) segs ->
  length (coll_buffer s) = 128%nat -> coll_index s = 0 ->
  exists s', stream gps_rec_byte (frames_bytes 85 segs) s g =
      Some (s', fold_left (fun g '(_, payload) => gps_message (85 :: payload) g) segs g) /\
    length (coll_buffer s') = 128%nat /\ coll_index s' = 0.
Proof.
  intros Hs Hl H0. rewrite gps_stream.
  apply (collect_frames 85 11 gps_message ltac:(lia) gps_message_ext); auto; lia.
Qed.

(** The values in those frames: with exact powers of two, a position frame
    (type 87) and a speed frame (type 88) carry 32-bit little-endian numbers
    that arrive unrounded, except that a number of 2^31 or more (a negative one)
    saturates at INT_MAX; the two leave each other's variables alone. *)
Theorem gps_values `{Libm} b0 b1 b2 b3 c0 c1 c2 c3 ty sum g :
  pow2_exact ->
  is_byte b0 -> is_byte b1 -> is_byte b2 -> is_byte b3 ->
  is_byte c0 -> is_byte c1 -> is_byte c2 -> is_byte c3 ->
  let first := Z.min INT_MAX (le_value b3 b2 b1 b0) in
  let second := Z.min INT_MAX (le_value c3 c2 c1 c0) in
  gps_message [85; ty; b0; b1; b2; b3; c0; c1; c2; c3; sum] g =
    if ty =? 83 then
      g <| current_theta := f_of_d (dmul (ddiv (d_of_int (c1 * 256 + c0)) (d_of_int 32768))
                                         (d_of_int 180)) |>
    else if ty =? 87 then g <| lng := degrees first |> <| lat := degrees second |>
    else if ty =? 88 then g <| speed := second |>
    else g.
Proof.
  intros Hp. intros. unfold gps_message.
  change (at_ (85 :: ?l) 0) with 85. cbn [at_ default lookup list_lookup from_option].
  unfold at_; cbn [default lookup list_lookup from_option id].
  rewrite !le32_to_int by assumption.
  destruct (Z.eqb_spec ty 83) as [->|]; [reflexivity|].
  destruct (Z.eqb_spec ty 87) as [->|]; [reflexivity|].
  destruct (Z.eqb_spec ty 88) as [->|]; reflexivity.
Qed.

(** The water probe's answers: twelve bytes that start with 6, in the same
    way; each sets the pH and the temperature to its big-endian fields. *)
Theorem water_decodes segs s g :
  Forall (fun '(noise, payload) => Forall (fun b => b <> 6) noise /\ S (length payload) = 12%nat) segs ->
  length (coll_buffer s) = 128%nat -> coll_index s = 0 ->
  exists s', stream water_rec_byte (frames_bytes 6 segs) s g =
      Some (s', fold_left (fun g '(_, p) =>
                  g <| ph := at_ p 2 * 256 + at_ p 3 |> <| wt := at_ p 6 * 256 + at_ p 7 |>) segs g) /\
    length (coll_buffer s') = 128%nat /\ coll_index s' = 0.
Proof.
  intros Hs Hl H0.
  exact (collect_frames 6 12 water_message ltac:(lia) water_message_ext segs s g ltac:(lia) Hs Hl H0).
Qed.

(** No byte sequence makes one of the three loops store outside its
    128-element array or outside the ten-element target arrays: every turn
    from a well-formed state succeeds and ends in one. *)
Theorem sensor_loops_safe `{Libm} now b c r g :
  0 <= b -> globals_wf g ->
  (coll_wf 11 c -> exists c' g', gps_rec_byte b c g = Some (c', g') /\ coll_wf 11 c') /\
  (coll_wf 12 c -> exists c' g', water_rec_byte b c g = Some (c', g') /\ coll_wf 12 c') /\
  (radar_wf r -> exists r' g', radar_rec_byte now b r g = Some (r', g') /\ radar_wf r' /\ globals_wf g').
Proof.
  intros Hb Hg. split_ands.
  - intros Hc. exact (collect_safe 85 11 gps_message ltac:(lia) b c g Hc).
  - intros Hc. exact (collect_safe 6 12 water_message ltac:(lia) b c g Hc).
  - intros Hr. destruct (radar_byte_eq now b r g Hr Hb Hg) as (E & H1 & H2).
    destruct (radar_turn now b r g) as [r' g']. eauto.
Qed.

(** A radar target message (two bytes 170, the payload, two bytes 85)
    received by an idle loop stamps the obstacle tick, lowers the minimum
    distance to its own if that is nearer, and for an id below ten records
    distance and angle under the id; nothing else changes. *)
Theorem radar_decodes now id rcs dh dl angle vh vl snr s g :
  let payload := radar_payload id rcs dh dl angle vh vl snr in
  Forall (fun b => 0 <= b) payload -> no_pair 170 (payload ++ [85]) = true ->
  radar_wf s -> coll_index (radar_coll s) = 0 -> pre_r_hex s <> 170 -> globals_wf g ->
  exists s', stream (radar_rec_byte now) ([170; 170] ++ payload ++ [85; 85]) s g =
      Some (s', radar_apply now id angle (dh * 256 + dl) g) /\
    radar_wf s' /\ coll_index (radar_coll s') = 0.
Proof.
  cbn zeta. intros Hb Hp Hw H0 Hpre Hg.
  destruct (radar_first now 170 s g Hw Hg H0 Hpre ltac:(lia) ltac:(lia)) as (s1 & E1 & Hw1 & H01 & Hp1).
  destruct (radar_second now s1 g Hw1 Hg H01 Hp1) as (s2 & E2 & Hc2 & Hp2).
  set (payload := radar_payload id rcs dh dl angle vh vl snr) in *.
  destruct (radar_inside_bytes now (payload ++ [85]) [170] s2 g Hc2) as (s3 & E3 & Hc3 & Hp3);
    [cbn; lia|cbn; lia|apply Forall_app; split; [exact Hb|repeat constructor; lia]|exact Hg
    |rewrite Hp2; exact Hp|].
  rewrite List.last_last in Hp3.
  destruct (radar_close now ([170] ++ payload ++ [85]) s3 g Hc3) as (s4 & buf & E4 & Ht & Hw4 & H04);
    [cbn; lia|exact Hg|exact Hp3|].
  exists s4. split; [|auto].
  change ([170; 170] ++ payload ++ [85; 85]) with ([170; 170] ++ payload ++ [85] ++ [85]).
  rewrite stream_app. cbn [stream]. rewrite E1. cbn [mbind option_bind]. rewrite E2. cbn [mbind option_bind].
  rewrite app_assoc, stream_app, E3. cbn [mbind option_bind stream]. rewrite E4. cbn [mbind option_bind].
  rewrite (radar_effect_take now buf (([170] ++ payload ++ [85]) ++ [85])).
  - reflexivity.
  - rewrite <- Ht. rewrite take_take. f_equal.
Qed.

(** An idle radar loop that reads two bytes 85 out of nowhere decodes its
    buffer again: the last target is reported once more, with a fresh tick. *)
Theorem radar_replays now s g :
  radar_wf s -> coll_index (radar_coll s) = 0 -> pre_r_hex s <> 170 -> pre_r_hex s <> 85 ->
  globals_wf g ->
  exists s', stream (radar_rec_byte now) [85; 85] s g =
      Some (s', radar_effect now (coll_buffer (radar_coll s)) g) /\
    coll_buffer (radar_coll s') = coll_buffer (radar_coll s).
Proof.
  intros Hw H0 Hp Hp85 Hg.
  destruct (radar_byte_eq now 85 s g Hw ltac:(lia) Hg) as (E1 & Hw1 & _).
  assert (T1 : radar_turn now 85 s g = (mkRadarSt (radar_coll s) 85, g)).
  { unfold radar_turn, radar_stored.
    rewrite (proj2 (Z.eqb_neq _ 85) Hp85), (proj2 (Z.eqb_neq _ 170) Hp), H0. cbn. rewrite H0. reflexivity. }
  rewrite T1 in *. cbn [fst] in Hw1.
  destruct (radar_byte_eq now 85 _ g Hw1 ltac:(lia) Hg) as (E2 & _ & _).
  assert (T2 : radar_turn now 85 (mkRadarSt (radar_coll s) 85) g =
    (mkRadarSt (radar_coll s <| coll_index := 0 |>) 85, radar_effect now (coll_buffer (radar_coll s)) g)).
  { unfold radar_turn, radar_stored. cbn [radar_coll pre_r_hex]. rewrite H0. reflexivity. }
  rewrite T2 in E2. eexists. cbn [stream]. rewrite E1. cbn [mbind option_bind]. rewrite E2.
  split; reflexivity.
Qed.

(** ** Witnesses *)

Lemma globals_init_wf : globals_wf globals_init.
Proof. repeat split. Qed.

Lemma radar_init_wf : radar_wf radar_init.
Proof.
  constructor; cbn [radar_coll radar_init coll_init coll_buffer coll_index];
    [reflexivity|lia|apply Forall_replicate; lia].
Qed.

Lemma gps_decodes_witness :
  exists s', stream (@gps_rec_byte toy_libm)
      (frames_bytes 85 [([1; 2], [88; 0; 0; 0; 0; 85; 0; 0; 0; 7])]) coll_init globals_init =
    Some (s', @gps_message toy_libm [85; 88; 0; 0; 0; 0; 85; 0; 0; 0; 7] globals_init).
Proof.
  destruct (@gps_decodes toy_libm [([1; 2], [88; 0; 0; 0; 0; 85; 0; 0; 0; 7])] coll_init globals_init)
    as (s' & E & _); [repeat constructor; lia|reflexivity|reflexivity|].
  exists s'. exact E.
Defined.

Lemma gps_values_witness :
  @gps_message toy_libm [85; 88; 0; 0; 0; 0; 1; 2; 0; 255; 9] globals_init =
    globals_init <| speed := Z.min INT_MAX (le_value 255 0 2 1) |>.
Proof.
  apply (@gps_values toy_libm 0 0 0 0 1 2 0 255 88 9 globals_init);
    try (unfold is_byte; lia).
  intros k [<-|[<-|[<-|[]]]]; reflexivity.
Defined.

Lemma water_decodes_witness :
  exists s', stream water_rec_byte
      (frames_bytes 6 [([], [3; 8; 2; 188; 0; 0; 1; 4; 0; 0; 0])]) coll_init globals_init =
    Some (s', globals_init <| ph := 2 * 256 + 188 |> <| wt := 1 * 256 + 4 |>).
Proof.
  destruct (water_decodes [([], [3; 8; 2; 188; 0; 0; 1; 4; 0; 0; 0])] coll_init globals_init)
    as (s' & E & _); [repeat constructor; lia|reflexivity|reflexivity|].
  exists s'. exact E.
Defined.

Lemma sensor_loops_safe_witness :
  exists r' g', radar_rec_byte 3 85 radar_init globals_init = Some (r', g') /\ radar_wf r' /\ globals_wf g'.
Proof.
  apply (@sensor_loops_safe toy_libm 3 85 coll_init radar_init globals_init);
    [lia|exact globals_init_wf|exact radar_init_wf].
Defined.

Lemma radar_decodes_witness :
  exists s', stream (radar_rec_byte 9)
      ([170; 170] ++ radar_payload 4 0 1 44 90 0 0 0 ++ [85; 85]) radar_init globals_init =
      Some (s', radar_apply 9 4 90 (1 * 256 + 44) globals_init) /\
    radar_wf s' /\ coll_index (radar_coll s') = 0.
Proof.
  apply (radar_decodes 9 4 0 1 44 90 0 0 0 radar_init globals_init);
    [repeat constructor; lia|reflexivity|exact radar_init_wf|reflexivity|discriminate
    |exact globals_init_wf].
Defined.

Lemma radar_replays_witness :
  exists s', stream (radar_rec_byte 9) [85; 85]
      (mkRadarSt (mkColl ([170; 12; 7; 4; 0; 1; 44; 90] ++ replicate 120 0) 0) 1) globals_init =
    Some (s', radar_effect 9 ([170; 12; 7; 4; 0; 1; 44; 90] ++ replicate 120 0) globals_init).
Proof.
  destruct (radar_replays 9 (mkRadarSt (mkColl ([170; 12; 7; 4; 0; 1; 44; 90] ++ replicate 120 0) 0) 1)
    globals_init) as (s' & E & _);
    [constructor; [reflexivity|cbn; lia|]|reflexivity|discriminate|discriminate|exact globals_init_wf|].
  - cbn [radar_coll coll_buffer]. apply Forall_app. split; [repeat constructor; lia|apply Forall_replicate; lia].
  - exists s'. exact E.
Defined.
