(* ===== verification/Energy.v ===== *)
(** The battery gauge (src/applications/energy_adc.c) and the watchdog
    (src/applications/wdt_usv.c).  The analogue converter, the watchdog device
    and [tan] are the environment: samples, return codes and [Libm]. *)

From Stdlib Require Import Floats.SpecFloat.
From S2P Require Import Prelude CFloat FloatExact Globals.

(** ** Battery gauge *)

Definition REFER_VOLTAGE : Z := 327.

(** One conversion: the raw value to a battery voltage. *)
Definition sample_vol (value : Z) : Z := u32 (value * REFER_VOLTAGE) / 4095.
Definition sample_voltage (value : Z) : float32 :=
  f_of_d (ddiv (d_of_int (u32 (sample_vol value * 17))) (d_of_int 200)).

(** The sum over the samples of a cycle ([float] accumulation, in order). *)
Definition sum_voltage (values : list Z) : float32 :=
  fold_left (fun all_num value => fadd all_num (sample_voltage value)) values (S754_zero false).

Section Gauge.
Context `{Libm}.

(** The value stored before the two clamps. *)
Definition raw_energy (all_num : float32) : float32 :=
  let Voltage := f_of_d (dadd (d_of_f (fdiv all_num (f_of_int 20))) (dlit 6 10)) in
  f_of_d (dmul (dadd (tan (dmul (dlit 42 100) (dsub (d_of_f Voltage) (dlit 2375 100)))) (d_of_int 1))
               (d_of_int 75)).

Definition clamp_energy (e : float32) : float32 :=
  let e := if flt (d_of_f e) (d_of_int 10) then f_of_int 1 else e in
  if fgt (d_of_f e) (d_of_int 99) then f_of_int 99 else e.

(** One cycle of [check_dump_energy]: twenty samples. *)
Definition check_dump_energy (values : list Z) (g : Globals) : Globals :=
  g <| dump_energy := clamp_energy (raw_energy (sum_voltage values)) |>.

End Gauge.

(** ** Watchdog *)

Inductive wdt_call := WdtInit | WdtSetTimeout (s : Z) | WdtStart | WdtKeepAlive.

(** [found]: the device exists; [ret c]: what the device answers to call [c].
    The result is the function's value and the calls it made. *)
Definition wdt_sample (found : bool) (ret : wdt_call -> Z) : Z * list wdt_call :=
  let timeout := 4 in
  if negb found then (RT_ERROR, [])
  else if negb (ret WdtInit =? RT_EOK) then (RT_ERROR, [WdtInit])
  else if negb (ret (WdtSetTimeout timeout) =? RT_EOK) then
    (RT_ERROR, [WdtInit; WdtSetTimeout timeout])
  else if negb (ret WdtStart =? RT_EOK) then
    (- RT_ERROR, [WdtInit; WdtSetTimeout timeout; WdtStart])
  else (ret WdtStart, [WdtInit; WdtSetTimeout timeout; WdtStart]).

Definition feed_dog : list wdt_call := [WdtKeepAlive].

(** ** Lemmas *)

Lemma sample_vol_range value : 0 <= value <= 4095 -> 0 <= sample_vol value <= 327.
Proof.
  intros H. unfold sample_vol, REFER_VOLTAGE. rewrite u32_small by lia.
  split; [apply Z.div_pos; lia|]. apply Z.lt_succ_r, Z.div_lt_upper_bound; lia.
Qed.

(** [SpecFloat] comparison with a NaN is false. *)
Lemma is_nan_cmp x y : SFcompare x y = None -> is_nan x = true \/ is_nan y = true.
Proof. destruct x as [|[]| |[] ], y as [|[]| |[] ]; cbn; auto; discriminate. Qed.

(** What the two clamps leave: 1, or a value between 10 and 99, or a NaN. *)
Definition energy_ok (e : float32) : Prop :=
  e = f_of_int 1 \/ is_nan (d_of_f e) = true \/
  (fge (d_of_f e) (d_of_int 10) = true /\ fle (d_of_f e) (d_of_int 99) = true).

Lemma clamp_energy_ok e : energy_ok (clamp_energy e).
Proof.
  unfold energy_ok, clamp_energy.
  destruct (flt (d_of_f e) (d_of_int 10)) eqn:E10; [left; reflexivity|].
  destruct (fgt (d_of_f e) (d_of_int 99)) eqn:E99.
  { right. right. split; vm_compute; reflexivity. }
  right. destruct (is_nan (d_of_f e)) eqn:En; [left; reflexivity|right].
  split; [apply flt_false_fge; auto|].
  unfold fle. exact (flt_false_fge (d_of_int 99) (d_of_f e) eq_refl En E99).
Qed.

(** ** Properties *)

(** Whatever the samples and whatever [tan] returns, the published energy
    is 1, or between 10 and 99, or a NaN produced by [tan]; every other
    global is kept. *)
Theorem dump_energy_range `{Libm} values g :
  energy_ok (dump_energy (check_dump_energy values g)) /\
  check_dump_energy values g <| dump_energy := dump_energy g |> = g.
Proof. split; [apply clamp_energy_ok|destruct g; reflexivity]. Qed.

(** The watchdog is started, with a timeout of four seconds, exactly when every
    device call succeeds; the start failure is the only one reported with a
    negative code. *)
Lemma wdt_sample_cases found ret :
  let '(r, calls) := wdt_sample found ret in
  (r = RT_EOK <-> found = true /\ ret WdtInit = RT_EOK /\ ret (WdtSetTimeout 4) = RT_EOK /\
                  ret WdtStart = RT_EOK) /\
  (r < 0 <-> found = true /\ ret WdtInit = RT_EOK /\ ret (WdtSetTimeout 4) = RT_EOK /\
             ret WdtStart <> RT_EOK) /\
  (In WdtStart calls -> In (WdtSetTimeout 4) calls).
Proof.
  unfold wdt_sample, RT_ERROR, RT_EOK.
  destruct found; cbn [negb]; [|cbn; intuition (discriminate || lia)].
  destruct (Z.eqb_spec (ret WdtInit) 0); cbn [negb]; [|cbn; intuition (discriminate || lia)].
  destruct (Z.eqb_spec (ret (WdtSetTimeout 4)) 0); cbn [negb]; [|cbn; intuition (discriminate || lia)].
  destruct (Z.eqb_spec (ret WdtStart) 0); cbn [negb]; cbn; intuition (discriminate || lia).
Qed.
