(* ===== verification/AutoCruise.v ===== *)
(** Automatic cruise (src/applications/auto_cruise.c): the bearing and the
    distance to the way point, a PID controller on the heading error, and the
    two motor commands.  [double] and [float] expressions are evaluated with
    the roundings of the C expressions; [sqrt] is IEEE, the transcendental
    functions are [Libm]'s. *)

From Stdlib Require Import Floats.SpecFloat.
From S2P Require Import Prelude CFloat Globals.

(** The file's global variables. *)
Record CruiseSt := mkCruiseSt {
  max_control : Z;
  temp_forward_pwm : Z;
  forward_pwm : Z;
  steer_pwm : Z;
  ALL_distance : float64;
  targe_theta : Z;
  Ek : float32;
  Ekk : float32;
  PID_value : float32;
  integral : float32;
  differential : float32;
}.
#[export] Instance CruiseSt_rebuild : Rebuild CruiseSt := fun s =>
  mkCruiseSt (max_control s) (temp_forward_pwm s) (forward_pwm s) (steer_pwm s)
    (ALL_distance s) (targe_theta s) (Ek s) (Ekk s) (PID_value s) (integral s) (differential s).

Definition f0 : float32 := S754_zero false.

Definition cruise_init : CruiseSt := mkCruiseSt 300 0 0 0 f0 0 f0 f0 f0 f0 f0.

Definition Kp : float32 := f_of_d (dlit 5 10).
Definition Ki : float32 := f0.
Definition Kd : float32 := f0.
Definition integral_limit : float32 := f_of_int 1800.
Definition radius_of_earth : float64 := dlit 6371580 1000.
Definition PI : float64 := dlit 31415926 10000000.
Definition pi2degree : float64 := ddiv PI (d_of_int 180).

(** [abs] of the C library on an [int]; a [float] argument is converted. *)
Definition c_abs (z : Z) : Z := s32 (Z.abs z).
Definition abs_f (x : float32) : Z := c_abs (to_int x).
Definition fopp (x : float32) : float32 := SFopp x.

Section Cruise.
Context `{Libm}.

(** Distance in metres and bearing in whole degrees. *)
Definition cruise_distance (longitude_PI latitude_PI tragetLO_PI trageLA_PI : float64) : float64 :=
  let longitude_difference := dsub tragetLO_PI longitude_PI in
  let latitude_difference := dsub trageLA_PI latitude_PI in
  let half x := ddiv x (d_of_int 2) in
  let sq x := pow x (d_of_int 2) in
  dmul (dmul (d_of_int 2000) radius_of_earth)
    (asin (dsqrt (dadd (sq (sin (half latitude_difference)))
                       (dmul (dmul (cos trageLA_PI) (cos latitude_PI))
                             (sq (sin (half longitude_difference))))))).

Definition cruise_bearing (longitude_PI latitude_PI tragetLO_PI trageLA_PI : float64) : Z :=
  let longitude_difference := dsub tragetLO_PI longitude_PI in
  to_int (ddiv (dmul
    (atan2 (dmul (sin longitude_difference) (cos trageLA_PI))
           (dsub (dmul (cos latitude_PI) (sin trageLA_PI))
                 (dmul (dmul (sin latitude_PI) (cos trageLA_PI)) (cos longitude_difference))))
    (d_of_int 180)) PI).

(** Lines 36 to 52: what is computed before the arrival test. *)
Definition cruise_aim (g : Globals) (s : CruiseSt) : CruiseSt :=
  let longitude_PI := dmul (d_of_f (lng g)) pi2degree in
  let latitude_PI := dmul (d_of_f (lat g)) pi2degree in
  let tragetLO_PI := dmul (d_of_f (target_lng g)) pi2degree in
  let trageLA_PI := dmul (d_of_f (target_lat g)) pi2degree in
  s <| max_control := s32 (100 * auto_speed g) |>
    <| ALL_distance := cruise_distance longitude_PI latitude_PI tragetLO_PI trageLA_PI |>
    <| targe_theta := cruise_bearing longitude_PI latitude_PI tragetLO_PI trageLA_PI |>.

(** Lines 60 to 76: the compass course and the heading error. *)
Definition cruise_heading (g : Globals) (s : CruiseSt) : CruiseSt :=
  let s := if 0 <? targe_theta s then s <| targe_theta := 360 - targe_theta s |>
           else s <| targe_theta := c_abs (targe_theta s) |> in
  let s := s <| Ek := fsub (f_of_int (targe_theta s)) (current_theta g) |> in
  if 180 <=? abs_f (Ek s) then
    if fgt (Ek s) f0 then s <| Ek := fsub (Ek s) (f_of_int 360) |>
    else s <| Ek := fadd (Ek s) (f_of_int 360) |>
  else s.

(** Lines 78 to 88: the effective distance. *)
Definition cruise_effective (s : CruiseSt) : CruiseSt :=
  if 90 <? abs_f (Ek s) then s <| ALL_distance := f0 |>
  else
    let s := if fge (ALL_distance s) (d_of_int 10) then s <| ALL_distance := d_of_int 10 |> else s in
    s <| ALL_distance :=
      dmul (ALL_distance s) (cos (ddiv (dmul (d_of_f (Ek s)) PI) (d_of_int 180))) |>.

(** Lines 89 to 100: the controller. *)
Definition cruise_pid (s : CruiseSt) : CruiseSt :=
  let s := if abs_f (Ek s) <=? 90 then s <| integral := fadd (integral s) (Ek s) |> else s in
  let s := if fgt (integral s) integral_limit then s <| integral := integral_limit |>
           else if flt (integral s) (fopp integral_limit) then s <| integral := fopp integral_limit |>
           else s in
  let s := s <| differential := fsub (Ek s) (Ekk s) |> in
  let s := s <| PID_value := fadd (fadd (fmul Kp (Ek s)) (fmul Ki (integral s)))
                                  (fmul Kd (differential s)) |> in
  s <| Ekk := Ek s |>.

(** [(1.0/(1.0+exp(x))-0.5)*1000] *)
Definition sigmoid1000 (x : float64) : Z :=
  to_int (dmul (dsub (ddiv (d_of_int 1) (dadd (d_of_int 1) (exp x))) (dlit 5 10)) (d_of_int 1000)).

(** Lines 101 to 115: the two components and their scaling. *)
Definition cruise_output (ALL_distance_temp : float64) (s : CruiseSt) : CruiseSt :=
  let s := s <| steer_pwm := sigmoid1000 (dmul (dlit (-5) 100) (d_of_f (PID_value s))) |> in
  let s := if fle ALL_distance_temp (dlit 55 10)
           then s <| forward_pwm := to_int (dmul ALL_distance_temp (d_of_int 35)) |>
           else s <| forward_pwm := sigmoid1000 (dmul (dlit (-4) 10) (ALL_distance s)) |> in
  if max_control s <? s32 (forward_pwm s + c_abs (steer_pwm s)) then
    let s := s <| temp_forward_pwm := forward_pwm s |> in
    let sum := f_of_int (s32 (temp_forward_pwm s + c_abs (steer_pwm s))) in
    let s := s <| forward_pwm :=
      to_int (fdiv (fmul (f_of_int (max_control s)) (f_of_int (temp_forward_pwm s))) sum) |> in
    let sum := f_of_int (s32 (temp_forward_pwm s + c_abs (steer_pwm s))) in
    s <| steer_pwm :=
      to_int (fmul (f_of_int (max_control s)) (fdiv (f_of_int (steer_pwm s)) sum)) |>
  else s.

(** [auto_cruise_pid]: the new state, [angle_error], and the two commands. *)
Definition auto_cruise_pid (g : Globals) (s : CruiseSt) : CruiseSt * Globals * (Z * Z) :=
  let s := cruise_aim g s in
  let ALL_distance_temp := ALL_distance s in
  if flt (ALL_distance s) (d_of_int 1) then (s, g, (1500, 1500))
  else
    let s := cruise_heading g s in
    let g := g <| angle_error := to_int (Ek s) |> in
    let s := cruise_effective s in
    let s := cruise_pid s in
    let s := cruise_output ALL_distance_temp s in
    (s, g, (u32 (1500 + forward_pwm s - steer_pwm s), u32 (1500 + forward_pwm s + steer_pwm s))).

(** ** Lemmas *)

(** The bound of the integral: neither comparison with the limits holds. *)
Definition integral_ok (s : CruiseSt) : Prop :=
  fgt (integral s) integral_limit = false /\ flt (integral s) (fopp integral_limit) = false.

Lemma cruise_pid_integral s : integral_ok (cruise_pid s).
Proof.
  unfold cruise_pid, integral_ok.
  set (s1 := if abs_f (Ek s) <=? 90 then _ else _). clearbody s1.
  destruct (fgt (integral s1) integral_limit) eqn:E1; [split; vm_compute; reflexivity|].
  destruct (flt (integral s1) (fopp integral_limit)) eqn:E2; [split; vm_compute; reflexivity|].
  cbn [integral]. split; assumption.
Qed.

Lemma cruise_output_integral d s : integral (cruise_output d s) = integral s.
Proof. unfold cruise_output. destruct (fle d _), (_ <? _); reflexivity. Qed.

Lemma cruise_output_theta d s : targe_theta (cruise_output d s) = targe_theta s /\ Ek (cruise_output d s) = Ek s.
Proof. unfold cruise_output. destruct (fle d _), (_ <? _); split; reflexivity. Qed.

Lemma cruise_pid_theta s : targe_theta (cruise_pid s) = targe_theta s /\ Ek (cruise_pid s) = Ek s.
Proof.
  unfold cruise_pid. destruct (abs_f (Ek s) <=? 90);
    (match goal with |- context [fgt ?a integral_limit] => destruct (fgt a integral_limit) end;
     [split; reflexivity|]);
    (match goal with |- context [flt ?a (fopp integral_limit)] => destruct (flt a (fopp integral_limit)) end;
     split; reflexivity).
Qed.

Lemma cruise_effective_theta s :
  targe_theta (cruise_effective s) = targe_theta s /\ Ek (cruise_effective s) = Ek s.
Proof.
  unfold cruise_effective. destruct (90 <? abs_f (Ek s)); [split; reflexivity|].
  destruct (fge (ALL_distance s) (d_of_int 10)); split; reflexivity.
Qed.

(** The course: 0..360 degrees, counted the other way round. *)
Definition course (bearing : Z) : Z := (- bearing) mod 360.

Lemma cruise_heading_theta g s :
  -180 <= targe_theta s <= 180 ->
  targe_theta (cruise_heading g s) = course (targe_theta s).
Proof.
  intros Ht. unfold cruise_heading, course.
  assert (Hc : (if 0 <? targe_theta s then s <| targe_theta := 360 - targe_theta s |>
                else s <| targe_theta := c_abs (targe_theta s) |>) =
               s <| targe_theta := (- targe_theta s) mod 360 |>).
  { destruct (Z.ltb_spec 0 (targe_theta s)).
    - replace ((- targe_theta s) mod 360) with (360 - targe_theta s)
        by (Z.div_mod_to_equations; lia). reflexivity.
    - unfold c_abs. rewrite s32_small by (unfold INT_MIN, INT_MAX; lia).
      replace ((- targe_theta s) mod 360) with (Z.abs (targe_theta s))
        by (Z.div_mod_to_equations; lia). reflexivity. }
  rewrite Hc. cbv zeta. set (s1 := s <| targe_theta := _ |> <| Ek := _ |>).
  destruct (180 <=? abs_f (Ek s1)); [|reflexivity].
  destruct (fgt (Ek s1) f0); reflexivity.
Qed.

End Cruise.

(** ** Properties *)

(** Within a metre of the way point both motors are told to stop (1500) and
    neither the controller's memory nor [angle_error] changes. *)
Theorem cruise_arrival `{Libm} g s :
  flt (ALL_distance (cruise_aim g s)) (d_of_int 1) = true ->
  let '(s', g', cmd) := auto_cruise_pid g s in
  cmd = (1500, 1500) /\ g' = g /\
  Ek s' = Ek s /\ Ekk s' = Ekk s /\ integral s' = integral s /\
  forward_pwm s' = forward_pwm s /\ steer_pwm s' = steer_pwm s.
Proof. intros E. unfold auto_cruise_pid. rewrite E. split_ands; reflexivity. Qed.

(** Otherwise, for a bearing that [atan2] puts between -180 and 180 degrees,
    the course is its negative modulo 360 (so 0..359), [angle_error] is the
    heading error towards zero, and the integral stays within its limit
    whatever errors occurred before. *)
Theorem cruise_heading_ok `{Libm} g s :
  flt (ALL_distance (cruise_aim g s)) (d_of_int 1) = false ->
  -180 <= targe_theta (cruise_aim g s) <= 180 ->
  let '(s', g', cmd) := auto_cruise_pid g s in
  targe_theta s' = course (targe_theta (cruise_aim g s)) /\ 0 <= targe_theta s' < 360 /\
  g' = g <| angle_error := to_int (Ek s') |> /\
  integral_ok s' /\
  cmd = (u32 (1500 + forward_pwm s' - steer_pwm s'), u32 (1500 + forward_pwm s' + steer_pwm s')).
Proof.
  intros E Ht. unfold auto_cruise_pid. rewrite E.
  set (s1 := cruise_aim g s) in *.
  pose proof (cruise_heading_theta g s1 Ht) as Hc.
  set (s2 := cruise_heading g s1) in *.
  assert (Hth : targe_theta (cruise_output (ALL_distance s1) (cruise_pid (cruise_effective s2))) =
                course (targe_theta s1)).
  { rewrite (proj1 (cruise_output_theta _ _)), (proj1 (cruise_pid_theta _)),
      (proj1 (cruise_effective_theta _)). exact Hc. }
  rewrite Hth. split_ands; try reflexivity.
  - apply Z.mod_pos_bound; lia.
  - apply Z.mod_pos_bound; lia.
  - rewrite (proj2 (cruise_output_theta _ _)), (proj2 (cruise_pid_theta _)),
      (proj2 (cruise_effective_theta _)). reflexivity.
  - unfold integral_ok. rewrite cruise_output_integral. apply cruise_pid_integral.
Qed.

(** ** Witnesses: at the way point itself, and half a degree north of it. *)

Lemma cruise_arrival_witness :
  (@auto_cruise_pid toy_libm globals_init cruise_init).2 = (1500, 1500).
Proof.
  pose proof (@cruise_arrival toy_libm globals_init cruise_init) as H.
  destruct (@auto_cruise_pid toy_libm globals_init cruise_init) as [[s' g'] cmd].
  apply H. vm_compute. reflexivity.
Defined.

Lemma cruise_heading_ok_witness :
  let g := globals_init <| target_lat := f_of_int 45 |> in
  0 <= targe_theta (@auto_cruise_pid toy_libm g cruise_init).1.1 < 360.
Proof.
  pose proof (@cruise_heading_ok toy_libm (globals_init <| target_lat := f_of_int 45 |>) cruise_init) as H.
  cbn zeta.
  destruct (@auto_cruise_pid toy_libm (globals_init <| target_lat := f_of_int 45 |>) cruise_init)
    as [[s' g'] cmd].
  apply H; vm_compute; intuition discriminate.
Defined.
