(* ===== verification/Manager.v ===== *)
(** The manager thread (src/applications/manager.c): link supervision, status
    LED, choice of the control source, motor commands, and the water sampling
    sequence.  [manager_iter] is one turn of its loop; [tick i] is the i-th
    reading of the clock it makes. *)

From Stdlib Require Import Floats.SpecFloat.
From S2P Require Import Prelude CFloat FloatExact Gpio Pwm Globals AutoCruise.

(** The state the turn works on: the globals, the cruise controller's, the
    targets of the two PWM threads and the pin levels. *)
Record World := mkWorld {
  w_g : Globals;
  w_cruise : CruiseSt;
  w_motor : Motor;
  w_gear : Gear;
  w_pins : Pins;
}.
#[export] Instance World_rebuild : Rebuild World := fun w =>
  mkWorld (w_g w) (w_cruise w) (w_motor w) (w_gear w) (w_pins w).

Definition world_init : World :=
  mkWorld globals_init cruise_init motor_init gear_init (run_writes init_gpio_writes ∅).

Definition upd_g (f : Globals -> Globals) (w : World) : World := w <| w_g := f (w_g w) |>.
Definition write_pins (ws : list (Z * Z)) (w : World) : World := w <| w_pins := run_writes ws (w_pins w) |>.

(** Lines 87 to 100: obstacle, remote control and server time-outs. *)
Definition manager_timeouts (now1 now2 now3 : Z) (g : Globals) : Globals :=
  let g := if 1500 <? u32 (now1 - obstacle_tick g) then g <| min_distance := 10000 |> else g in
  let g := if 1500 <? u32 (now2 - rec_tick g) then set_key 0 0 g else g in
  if 16000 <? u32 (now3 - rec_server_tick g) then g <| is_connect := 0 |> else g.

(** Lines 101 to 114: the LED code. *)
Definition manager_led (g : Globals) : Z :=
  if key_at g 0 =? 1 then 1
  else if (network_backhome g =? 1) || (energy_backhome g =? 1) then 2
  else if is_connect g =? 1 then 3
  else 2.

(** Lines 115 to 126: the control source. *)
Definition manager_mode (g : Globals) : Globals :=
  if key_at g 0 =? 1 then g <| current_mode := 1 |>
  else if fgt (target_lat g) (f_of_int 1) && fgt (target_lng g) (f_of_int 1) && negb (control_mode g =? 4)
  then g <| current_mode := 3 |>
  else g <| current_mode := 2 |>.

(** Lines 127 to 136: the joystick.  The products are [u_int], the results [int]. *)
Definition manager_remote (w : World) : World :=
  let g := w_g w in
  let g := g <| remote_forward_pwm := s32 (u32 (u32 (u32 (100 - col g) * 10) + 1000)) |> in
  let g := g <| remote_steer_pwm := s32 (u32 (u32 (row g * 10) + 1000)) |> in
  let steer := Z.quot (s32 (remote_steer_pwm g - 1500)) 2 in
  let forward := s32 (1500 + s32 (remote_forward_pwm g - 1500)) in
  let g := g <| left_pwm := u32 (s32 (forward + steer)) |>
             <| right_pwm := u32 (s32 (forward - steer)) |> in
  w <| w_g := g |> <| w_motor := set_pwm (left_pwm g) (right_pwm g) (w_motor w) |>.

Section Manager.
Context `{Libm}.

(** [float d2r = 3.14159/180.0] *)
Definition d2r : float32 := f_of_d (ddiv (dlit 314159 100000) (d_of_int 180)).

(** [(int)(speed_pwm * f(angle*d2r))]: the angle's product is a [float]. *)
Definition component (speed_pwm : Z) (f : float64 -> float64) (angle : Z) : Z :=
  to_int (dmul (d_of_int speed_pwm) (f (d_of_f (fmul (f_of_int angle) d2r)))).

(** Lines 139 to 164: the direction of a manual command, in degrees. *)
Definition manual_components (speed_pwm control_val : Z) : Z * Z :=
  if control_val =? -1 then (0, 0)
  else if control_val <? 90 then
    (component speed_pwm cos control_val, s32 (-1 * component speed_pwm sin control_val))
  else if control_val <? 180 then
    (s32 (-1 * component speed_pwm sin (control_val - 90)), component speed_pwm cos (control_val - 90))
  else if control_val <? 270 then
    (s32 (-1 * component speed_pwm cos (control_val - 180)),
     s32 (-1 * component speed_pwm sin (control_val - 180)))
  else (component speed_pwm sin (control_val - 270), component speed_pwm cos (control_val - 270)).

(** Lines 137 to 168. *)
Definition manager_manual (w : World) : World :=
  let g := w_g w in
  let speed_pwm := s32 (100 * hand_speed g) in
  let '(forward_pwm, steer_pwm) := manual_components speed_pwm (control_val g) in
  let g := g <| left_pwm := u32 (s32 (s32 (1500 + forward_pwm) + steer_pwm)) |>
             <| right_pwm := u32 (s32 (s32 (1500 + forward_pwm) - steer_pwm)) |> in
  w <| w_g := g |> <| w_motor := set_pwm (left_pwm g) (right_pwm g) (w_motor w) |>.

(** Lines 169 to 175. *)
Definition manager_auto (w : World) : World :=
  let '(c, g, (l, r)) := auto_cruise_pid (w_g w) (w_cruise w) in
  w <| w_g := g |> <| w_cruise := c |> <| w_motor := set_pwm l r (w_motor w) |>.

Definition manager_drive (w : World) : World :=
  if current_mode (w_g w) =? 1 then manager_remote w
  else if current_mode (w_g w) =? 2 then manager_manual w
  else if current_mode (w_g w) =? 3 then manager_auto w
  else w.

(** [(int)(1000*60.0*max_draw_amount/draw_speed)] *)
Definition remote_draw_limit (g : Globals) : Z :=
  to_int (ddiv (dmul (d_of_int 60000) (d_of_int (max_draw_amount g))) (d_of_int (draw_speed g))).

Definition stop_draw (g : Globals) : Globals := g <| draw_start_tick := 0 |>.

(** Lines 176 to 209: sampling under the remote control. *)
Definition remote_draw (tick_start tick_now : Z) (w : World) : World :=
  let g := w_g w in
  let w := w <| w_gear := set_gear_pwm
                 (if key_at g 1 =? 1 then min_geer_pwm g else max_geer_pwm g) (w_gear w) |> in
  if (key_at g 2 =? 1) && negb (is_draw g =? 1) then
    let g := if draw_start_tick g =? 0 then g <| draw_start_tick := tick_start |> else g in
    if u32 (tick_now - draw_start_tick g) <? u32 (remote_draw_limit g) then
      write_pins (draw 1) (w <| w_g := g |>)
    else
      write_pins (draw 0) (w <| w_g := g <| is_draw := 1 |> <| draw_start_tick := 0 |> |>)
  else
    write_pins (draw 0) (w <| w_g := g <| is_draw := 0 |> <| draw_start_tick := 0 |> |>).

(** [(int)(1400-bottle_deep*(1400-min_geer_pwm)/5)], in [u_int] arithmetic. *)
Definition depth_pwm (g : Globals) : Z :=
  s32 (u32 (1400 - u32 (u32 (bottle_deep g) * u32 (1400 - min_geer_pwm g)) / 5)).

(** [(int)(60.0*10*bottle_amount/draw_speed)] *)
Definition draw_seconds (g : Globals) : Z :=
  to_int (ddiv (dmul (d_of_int 600) (d_of_int (bottle_amount g))) (d_of_int (draw_speed g))).

(** Lines 210 to 255: sampling on the server's order. *)
Definition server_draw (tick_start tick_now tick_dump : Z) (w : World) : World :=
  let g := w_g w in
  if negb (bottle_id g =? 0) && negb (draw_status g =? 4) then
    let g := g <| deep_pwm := depth_pwm g |> in
    if negb (current_gear_pwm (w_gear w) =? u32 (deep_pwm g)) then
      w <| w_g := g <| draw_status := 1 |> |> <| w_gear := set_gear_pwm (u32 (deep_pwm g)) (w_gear w) |>
    else
      let g := if draw_start_tick g =? 0 then g <| draw_start_tick := tick_start |> else g in
      let g := g <| full_draw_time := draw_seconds g |> in
      if u32 (tick_now - draw_start_tick g) <? u32 (s32 (full_draw_time g * 1000)) then
        let g := g <| dump_draw_time :=
                   s32 (u32 (full_draw_time g - u32 (tick_dump - draw_start_tick g) / 1000)) |> in
        write_pins (draw (bottle_id g)) (w <| w_g := g <| draw_status := 2 |> |>)
      else
        write_pins (draw 0)
          (w <| w_g := g <| full_draw_time := 0 |> <| dump_draw_time := 0 |>
                         <| draw_start_tick := 0 |> <| draw_status := 4 |> |>)
  else
    let w := write_pins (draw 0)
      (w <| w_g := g <| full_draw_time := 0 |> <| dump_draw_time := 0 |> <| draw_start_tick := 0 |> |>) in
    w <| w_gear := set_gear_pwm (max_geer_pwm g) (w_gear w) |>.

(** One turn of [manager], up to its delay of 40 ms; the watchdog is fed after it. *)
Definition manager_iter (tick : nat -> Z) (w : World) : World :=
  let w := upd_g (manager_timeouts (tick 0%nat) (tick 1%nat) (tick 2%nat)) w in
  let w := write_pins (control_status_led (manager_led (w_g w))) w in
  let w := upd_g manager_mode w in
  let w := manager_drive w in
  if key_at (w_g w) 0 =? 1 then remote_draw (tick 3%nat) (tick 4%nat) w
  else server_draw (tick 3%nat) (tick 4%nat) (tick 5%nat) w.

End Manager.

(** ** Lemmas *)

(** The clamp of [set_pwm] on a converted [int], as in Pwm.v. *)
Definition pwm_clamp (v : Z) : Z := if v <? 0 then 2000 else Z.max 1000 (Z.min 2000 v).

Lemma set_pwm_int l r m :
  INT_MIN <= l <= INT_MAX -> INT_MIN <= r <= INT_MAX ->
  set_pwm (u32 l) (u32 r) m =
    mkMotor (current_left_pwm m) (current_right_pwm m) (pwm_clamp l) (pwm_clamp r).
Proof. apply set_pwm_int_eq. Qed.

(** Driving changes neither the keys, nor the sampling variables, the winch,
    the pins. *)
Record drive_frame (w w' : World) : Prop := {
  df_key : key (w_g w') = key (w_g w);
  df_bottle : bottle_id (w_g w') = bottle_id (w_g w);
  df_deep : bottle_deep (w_g w') = bottle_deep (w_g w);
  df_amount : bottle_amount (w_g w') = bottle_amount (w_g w);
  df_status : draw_status (w_g w') = draw_status (w_g w);
  df_start : draw_start_tick (w_g w') = draw_start_tick (w_g w);
  df_is_draw : is_draw (w_g w') = is_draw (w_g w);
  df_min : min_geer_pwm (w_g w') = min_geer_pwm (w_g w);
  df_mode : current_mode (w_g w') = current_mode (w_g w);
  df_connect : is_connect (w_g w') = is_connect (w_g w);
  df_dist : min_distance (w_g w') = min_distance (w_g w);
  df_gear : w_gear w' = w_gear w;
  df_pins : w_pins w' = w_pins w;
}.

Lemma drive_frame_refl w : drive_frame w w.
Proof. constructor; reflexivity. Qed.

Section ManagerLemmas.
Context `{Libm}.

Lemma auto_cruise_globals g s :
  (auto_cruise_pid g s).1.2 = g \/ exists e, (auto_cruise_pid g s).1.2 = g <| angle_error := e |>.
Proof. unfold auto_cruise_pid. destruct (flt _ _); cbn; eauto. Qed.

Lemma manager_drive_frame w : drive_frame w (manager_drive w).
Proof.
  unfold manager_drive. destruct (_ =? 1); [constructor; reflexivity|].
  destruct (_ =? 2).
  { unfold manager_manual. destruct (manual_components _ _). constructor; reflexivity. }
  destruct (_ =? 3); [|apply drive_frame_refl].
  unfold manager_auto. pose proof (auto_cruise_globals (w_g w) (w_cruise w)) as Hg.
  destruct (auto_cruise_pid (w_g w) (w_cruise w)) as [[c g] [l r]]. cbn [fst snd] in Hg.
  destruct Hg as [-> | [e ->]]; constructor; reflexivity.
Qed.

Lemma manager_mode_frame g :
  manager_mode g = g <| current_mode := current_mode (manager_mode g) |>.
Proof.
  unfold manager_mode. destruct (key_at g 0 =? 1); [reflexivity|].
  destruct (_ && _); reflexivity.
Qed.

Lemma manager_mode_cases g :
  current_mode (manager_mode g) =
    if key_at g 0 =? 1 then 1
    else if fgt (target_lat g) (f_of_int 1) && fgt (target_lng g) (f_of_int 1) && negb (control_mode g =? 4)
    then 3 else 2.
Proof.
  unfold manager_mode. destruct (key_at g 0 =? 1); [reflexivity|].
  destruct (_ && _); reflexivity.
Qed.

(** The motor targets after a turn are always clamped. *)
Lemma set_pwm_tgt l r m :
  is_u32 l -> is_u32 r ->
  tgt_ok (target_left_pwm (set_pwm l r m)) /\ tgt_ok (target_right_pwm (set_pwm l r m)).
Proof. unfold tgt_ok, set_pwm, is_u32; cbn. intros. bool_cases; lia. Qed.

Lemma auto_cruise_cmd g s :
  is_u32 (auto_cruise_pid g s).2.1 /\ is_u32 (auto_cruise_pid g s).2.2.
Proof.
  unfold auto_cruise_pid. destruct (flt _ _); cbn [snd fst]; [unfold is_u32; lia|].
  split; apply u32_range.
Qed.

Lemma manager_drive_targets w :
  current_mode (w_g w) = 1 \/ current_mode (w_g w) = 2 \/ current_mode (w_g w) = 3 ->
  tgt_ok (target_left_pwm (w_motor (manager_drive w))) /\
  tgt_ok (target_right_pwm (w_motor (manager_drive w))) /\
  current_left_pwm (w_motor (manager_drive w)) = current_left_pwm (w_motor w) /\
  current_right_pwm (w_motor (manager_drive w)) = current_right_pwm (w_motor w).
Proof.
  intros Hm. unfold manager_drive.
  assert (Hu : forall z, is_u32 (u32 z)) by (intros; apply u32_range).
  destruct Hm as [E|[E|E]]; rewrite E; cbn [Z.eqb Pos.eqb].
  - unfold manager_remote; cbn [w_motor].
    pose proof (fun l r => set_pwm_tgt l r (w_motor w)) as Hs.
    split; [apply Hs; apply Hu|]. split; [apply Hs; apply Hu|]. split; reflexivity.
  - unfold manager_manual. destruct (manual_components _ _) as [f st].
    pose proof (fun l r => set_pwm_tgt l r (w_motor w)) as Hs.
    split; [apply Hs; apply Hu|]. split; [apply Hs; apply Hu|]. split; reflexivity.
  - unfold manager_auto. pose proof (auto_cruise_cmd (w_g w) (w_cruise w)) as [H1 H2].
    destruct (auto_cruise_pid (w_g w) (w_cruise w)) as [[c g] [l r]]. cbn [fst snd] in H1, H2.
    pose proof (set_pwm_tgt l r (w_motor w) H1 H2) as [Hl Hr]. split_ands; auto.
Qed.

(** The sampling branches do not touch the motors. *)
Lemma remote_draw_motor t1 t2 w :
  w_motor (remote_draw t1 t2 w) = w_motor w /\ key (w_g (remote_draw t1 t2 w)) = key (w_g w) /\
  current_mode (w_g (remote_draw t1 t2 w)) = current_mode (w_g w) /\
  is_connect (w_g (remote_draw t1 t2 w)) = is_connect (w_g w) /\
  min_distance (w_g (remote_draw t1 t2 w)) = min_distance (w_g w) /\
  current_gear_pwm (w_gear (remote_draw t1 t2 w)) = current_gear_pwm (w_gear w).
Proof.
  unfold remote_draw. destruct (_ && _); [|repeat split].
  destruct (draw_start_tick (w_g w) =? 0); destruct (_ <? _); repeat split.
Qed.

Lemma server_draw_motor t1 t2 t3 w :
  w_motor (server_draw t1 t2 t3 w) = w_motor w /\ key (w_g (server_draw t1 t2 t3 w)) = key (w_g w) /\
  current_mode (w_g (server_draw t1 t2 t3 w)) = current_mode (w_g w) /\
  is_connect (w_g (server_draw t1 t2 t3 w)) = is_connect (w_g w) /\
  min_distance (w_g (server_draw t1 t2 t3 w)) = min_distance (w_g w) /\
  current_gear_pwm (w_gear (server_draw t1 t2 t3 w)) = current_gear_pwm (w_gear w).
Proof.
  unfold server_draw. destruct (_ && _); [|repeat split].
  destruct (negb (current_gear_pwm (w_gear w) =? _)); [repeat split|].
  cbn [draw_start_tick]. destruct (_ =? 0); destruct (_ <? _); repeat split.
Qed.

(** The turn up to the sampling branches. *)
Definition manager_prepare (tick : nat -> Z) (w : World) : World :=
  let w := upd_g (manager_timeouts (tick 0%nat) (tick 1%nat) (tick 2%nat)) w in
  let w := write_pins (control_status_led (manager_led (w_g w))) w in
  manager_drive (upd_g manager_mode w).

Lemma manager_iter_eq tick w :
  manager_iter tick w =
    let w := manager_prepare tick w in
    if key_at (w_g w) 0 =? 1 then remote_draw (tick 3%nat) (tick 4%nat) w
    else server_draw (tick 3%nat) (tick 4%nat) (tick 5%nat) w.
Proof. reflexivity. Qed.

Lemma manager_timeouts_frame n1 n2 n3 g :
  manager_timeouts n1 n2 n3 g =
    g <| min_distance := if 1500 <? u32 (n1 - obstacle_tick g) then 10000 else min_distance g |>
      <| key := if 1500 <? u32 (n2 - rec_tick g) then <[0%nat := 0]> (key g) else key g |>
      <| is_connect := if 16000 <? u32 (n3 - rec_server_tick g) then 0 else is_connect g |>.
Proof.
  destruct g. unfold manager_timeouts, set_key. cbn.
  match goal with |- context [1500 <? u32 (n1 - ?x)] => destruct (1500 <? u32 (n1 - x)) end; cbn;
  match goal with |- context [1500 <? u32 (n2 - ?x)] => destruct (1500 <? u32 (n2 - x)) end; cbn;
  match goal with |- context [16000 <? u32 (n3 - ?x)] => destruct (16000 <? u32 (n3 - x)) end;
    reflexivity.
Qed.

(** What the preparation makes of the variables the theorems speak of. *)
Record prepared (tick : nat -> Z) (w w' : World) : Prop := {
  pr_key : key (w_g w') = if 1500 <? u32 (tick 1%nat - rec_tick (w_g w))
                          then <[0%nat := 0]> (key (w_g w)) else key (w_g w);
  pr_bottle : bottle_id (w_g w') = bottle_id (w_g w);
  pr_deep : bottle_deep (w_g w') = bottle_deep (w_g w);
  pr_amount : bottle_amount (w_g w') = bottle_amount (w_g w);
  pr_status : draw_status (w_g w') = draw_status (w_g w);
  pr_start : draw_start_tick (w_g w') = draw_start_tick (w_g w);
  pr_is_draw : is_draw (w_g w') = is_draw (w_g w);
  pr_min : min_geer_pwm (w_g w') = min_geer_pwm (w_g w);
  pr_gear : w_gear w' = w_gear w;
  pr_dist : min_distance (w_g w') = if 1500 <? u32 (tick 0%nat - obstacle_tick (w_g w))
                                    then 10000 else min_distance (w_g w);
  pr_connect : is_connect (w_g w') = if 16000 <? u32 (tick 2%nat - rec_server_tick (w_g w))
                                     then 0 else is_connect (w_g w);
  pr_mode : (current_mode (w_g w') = 1 <-> key_at (w_g w') 0 = 1) /\
            (current_mode (w_g w') = 1 \/ current_mode (w_g w') = 2 \/ current_mode (w_g w') = 3);
  pr_pins : exists code, (code = 1 <-> key_at (w_g w') 0 = 1) /\
            (code = 3 -> is_connect (w_g w') = 1) /\
            w_pins w' = run_writes (control_status_led code) (w_pins w);
}.

Lemma manager_led_cases g :
  (manager_led g = 1 <-> key_at g 0 = 1) /\ (manager_led g = 3 -> is_connect g = 1).
Proof.
  unfold manager_led.
  destruct (Z.eqb_spec (key_at g 0) 1); [split; [tauto|discriminate]|].
  destruct (_ || _); [split; [split; [discriminate|tauto]|discriminate]|].
  destruct (Z.eqb_spec (is_connect g) 1); (split; [split; [discriminate|tauto]|auto; discriminate]).
Qed.

Lemma key_at_ext g g' i : key g = key g' -> key_at g i = key_at g' i.
Proof. unfold key_at. intros ->. reflexivity. Qed.

Lemma manager_prepare_ok tick w : prepared tick w (manager_prepare tick w).
Proof.
  unfold manager_prepare.
  set (g1 := manager_timeouts (tick 0%nat) (tick 1%nat) (tick 2%nat) (w_g w)).
  change (upd_g (manager_timeouts (tick 0%nat) (tick 1%nat) (tick 2%nat)) w) with (w <| w_g := g1 |>).
  change (w_g (w <| w_g := g1 |>)) with g1.
  set (w3 := upd_g manager_mode (write_pins (control_status_led (manager_led g1)) (w <| w_g := g1 |>))).
  pose proof (manager_drive_frame w3) as [].
  assert (Eg : w_g w3 = manager_mode g1) by reflexivity.
  rewrite Eg, manager_mode_frame in *. cbn in *.
  assert (Hk : forall i, key_at (w_g (manager_drive w3)) i = key_at g1 i) by (intros; apply key_at_ext; auto).
  assert (Et := manager_timeouts_frame (tick 0%nat) (tick 1%nat) (tick 2%nat) (w_g w)).
  fold g1 in Et.
  constructor; try (etransitivity; [eassumption|]; rewrite Et; reflexivity); [assumption| |].
  - rewrite Hk, df_mode0, manager_mode_cases.
    destruct (Z.eqb_spec (key_at g1 0) 1); [tauto|]. destruct (_ && _); intuition (discriminate || auto).
  - exists (manager_led g1). rewrite Hk. pose proof (manager_led_cases g1) as [H1 H2].
    split; [exact H1|]. split; [|assumption]. intros E. rewrite df_connect0. auto.
Qed.

End ManagerLemmas.

Section ManagerProperties.
Context `{Libm}.

Lemma led_lit code pins :
  lit (run_writes (control_status_led code) pins) =
  (if code =? 1 then [LED2] else if code =? 2 then [LED1] else if code =? 3 then [LED3] else []).
Proof. apply led_lit_eq. Qed.

(** The sampling pins of [draw], read after a LED or before. *)
Lemma sampling_led code pins :
  pump_on (run_writes (control_status_led code) pins) = pump_on pins /\
  open_valves (run_writes (control_status_led code) pins) = open_valves pins.
Proof.
  assert (Hs : same_sampling (run_writes (control_status_led code) pins) pins).
  { intros x Hx. apply run_writes_other. intros Hin.
    assert (Hl : In x [LED1; LED2; LED3]).
    { apply list_elem_of_In in Hin. revert Hin. unfold control_status_led.
      destruct (code =? 1), (code =? 2), (code =? 3); cbn; tauto. }
    cbn in Hx, Hl. vm_compute in Hx, Hl. lia. }
  split; [unfold pump_on; rewrite Hs by (vm_compute; tauto); reflexivity|].
  apply same_sampling_open, Hs.
Qed.

Lemma draw_leds pins b : lit (run_writes (draw b) pins) = lit pins.
Proof.
  unfold lit. apply List.filter_ext_in. intros p Hp. rewrite draw_frame; [reflexivity|].
  intros Hin. apply list_elem_of_In in Hin. cbn in Hp. vm_compute in Hp, Hin. lia.
Qed.

Lemma draw_open pins b :
  pump_on (run_writes (draw b) pins) = ((1 <=? b) && (b <=? 8)) /\
  open_valves (run_writes (draw b) pins) = (if (1 <=? b) && (b <=? 8) then [b] else []).
Proof. split; [apply draw_pump|apply draw_open_eq]. Qed.

Lemma remote_draw_lit t1 t2 w : lit (w_pins (remote_draw t1 t2 w)) = lit (w_pins w).
Proof.
  unfold remote_draw. destruct (_ && _); [|apply draw_leds].
  destruct (draw_start_tick (w_g w) =? 0); destruct (_ <? _); apply draw_leds.
Qed.

Lemma server_draw_lit t1 t2 t3 w : lit (w_pins (server_draw t1 t2 t3 w)) = lit (w_pins w).
Proof.
  unfold server_draw. destruct (_ && _); [|apply draw_leds].
  destruct (negb (current_gear_pwm (w_gear w) =? _)); [reflexivity|].
  cbn [draw_start_tick]. destruct (_ =? 0); destruct (_ <? _); apply draw_leds.
Qed.

(** The frame of a whole turn. *)
Lemma manager_iter_frame tick w :
  let w1 := manager_prepare tick w in
  let w' := manager_iter tick w in
  w_motor w' = w_motor w1 /\ key (w_g w') = key (w_g w1) /\
  current_mode (w_g w') = current_mode (w_g w1) /\
  is_connect (w_g w') = is_connect (w_g w1) /\ min_distance (w_g w') = min_distance (w_g w1) /\
  current_gear_pwm (w_gear w') = current_gear_pwm (w_gear w) /\
  lit (w_pins w') = lit (w_pins w1).
Proof.
  cbn zeta. rewrite manager_iter_eq. cbn zeta.
  pose proof (pr_gear _ _ _ (manager_prepare_ok tick w)) as Hg.
  destruct (key_at _ 0 =? 1).
  - destruct (remote_draw_motor (tick 3%nat) (tick 4%nat) (manager_prepare tick w)) as (? & ? & ? & ? & ? & ?).
    split_ands; auto; [congruence|apply remote_draw_lit].
  - destruct (server_draw_motor (tick 3%nat) (tick 4%nat) (tick 5%nat) (manager_prepare tick w)) as (? & ? & ? & ? & ? & ?).
    split_ands; auto; [congruence|apply server_draw_lit].
Qed.

Lemma write_pins_pins ws w : w_pins (write_pins ws w) = run_writes ws (w_pins w).
Proof. reflexivity. Qed.

(** What the remote sampling branch leaves. *)
Lemma remote_draw_pump t1 t2 w :
  let w' := remote_draw t1 t2 w in
  if pump_on (w_pins w') then
    key_at (w_g w') 2 = 1 /\ open_valves (w_pins w') = [1] /\
    u32 (t2 - draw_start_tick (w_g w')) < u32 (remote_draw_limit (w_g w'))
  else open_valves (w_pins w') = [].
Proof.
  cbn zeta. unfold remote_draw.
  destruct (Z.eqb_spec (key_at (w_g w) 2) 1) as [Ek|Ek]; cbn [andb].
  2: { rewrite write_pins_pins, (proj1 (draw_open _ 0)). apply (draw_open _ 0). }
  destruct (is_draw (w_g w) =? 1); cbn [negb].
  { rewrite write_pins_pins, (proj1 (draw_open _ 0)). apply (draw_open _ 0). }
  destruct (draw_start_tick (w_g w) =? 0);
    (match goal with |- context [u32 ?a <? u32 ?b] => destruct (Z.ltb_spec (u32 a) (u32 b)) as [Hlt|Hlt] end;
     [|rewrite write_pins_pins, (proj1 (draw_open _ 0)); apply (draw_open _ 0)]);
    rewrite write_pins_pins, (proj1 (draw_open _ 1)); cbn [Z.leb Z.compare Pos.compare Pos.compare_cont andb];
    (split; [exact Ek|]; split; [apply (draw_open _ 1)|exact Hlt]).
Qed.

(** What the server's sampling branch leaves: a full table. *)
Lemma server_draw_pump t1 t2 t3 w :
  let w' := server_draw t1 t2 t3 w in
  let deep := u32 (depth_pwm (w_g w)) in
  (draw_status (w_g w') = 1 /\ w_pins w' = w_pins w /\ current_gear_pwm (w_gear w) <> deep /\
   target_gear_pwm (w_gear w') = deep /\ draw_start_tick (w_g w') = draw_start_tick (w_g w)) \/
  (draw_status (w_g w') = 2 /\ current_gear_pwm (w_gear w) = deep /\
   w_pins w' = run_writes (draw (bottle_id (w_g w))) (w_pins w) /\ bottle_id (w_g w) <> 0 /\
   u32 (t2 - draw_start_tick (w_g w')) < u32 (s32 (full_draw_time (w_g w') * 1000)) /\
   full_draw_time (w_g w') = draw_seconds (w_g w)) \/
  (w_pins w' = run_writes (draw 0) (w_pins w) /\ draw_start_tick (w_g w') = 0 /\
   (draw_status (w_g w') = 4 \/ bottle_id (w_g w) = 0)).
Proof.
  cbn zeta. unfold server_draw.
  destruct (Z.eqb_spec (bottle_id (w_g w)) 0) as [Eb|Eb]; cbn [negb andb];
    [right; right; cbn; tauto|].
  destruct (Z.eqb_spec (draw_status (w_g w)) 4) as [Es|Es]; cbn [negb].
  { right; right; cbn. tauto. }
  change (deep_pwm (w_g w <| deep_pwm := depth_pwm (w_g w) |>)) with (depth_pwm (w_g w)).
  destruct (Z.eqb_spec (current_gear_pwm (w_gear w)) (u32 (depth_pwm (w_g w)))) as [Ed|Ed]; cbn [negb].
  2: { left. cbn. auto. }
  right. cbn [draw_start_tick]. destruct (draw_start_tick _ =? 0);
    match goal with |- context [u32 ?a <? u32 ?b] => destruct (Z.ltb_spec (u32 a) (u32 b)) as [Hlt|Hlt] end.
  1, 3: left; split_ands; try reflexivity; [exact Ed|exact Eb|exact Hlt].
  1, 2: right; cbn; tauto.
Qed.

Lemma key_at_released g l : key g = <[0%nat := 0]> l -> key_at g 0 = 0.
Proof.
  intros E. unfold key_at. rewrite E. destruct l; reflexivity.
Qed.

Lemma lit_code code pins :
  (In LED2 (lit (run_writes (control_status_led code) pins)) <-> code = 1) /\
  (In LED3 (lit (run_writes (control_status_led code) pins)) <-> code = 3) /\
  (length (lit (run_writes (control_status_led code) pins)) <= 1)%nat.
Proof.
  rewrite led_lit. assert (H12 : LED2 <> LED1) by discriminate.
  assert (H23 : LED2 <> LED3) by discriminate. assert (H13 : LED1 <> LED3) by discriminate.
  destruct (Z.eqb_spec code 1) as [->|]; [|destruct (Z.eqb_spec code 2) as [->|];
    [|destruct (Z.eqb_spec code 3) as [->|]]]; cbn [In length];
    (split; [|split; [|lia]]); (split; [|try (intros ->; congruence); auto; try discriminate]);
    intuition congruence.
Qed.

(** The joystick law in exact integers. *)
Definition remote_commands (c r : Z) : Z * Z :=
  let forward := s32 (1500 + s32 (s32 (u32 (u32 (u32 (100 - c) * 10) + 1000)) - 1500)) in
  let steer := Z.quot (s32 (s32 (u32 (u32 (r * 10) + 1000)) - 1500)) 2 in
  (s32 (forward + steer), s32 (forward - steer)).

Lemma remote_motor w :
  w_motor (manager_remote w) =
    set_pwm (u32 (remote_commands (col (w_g w)) (row (w_g w))).1)
            (u32 (remote_commands (col (w_g w)) (row (w_g w))).2) (w_motor w).
Proof. reflexivity. Qed.

Lemma s32_u32 z : s32 (u32 z) = s32 z.
Proof. unfold s32, u32. rewrite Zplus_mod_idemp_l. reflexivity. Qed.

Lemma remote_law c r m :
  0 <= c < 100000 -> 0 <= r < 100000 ->
  set_pwm (u32 (remote_commands c r).1) (u32 (remote_commands c r).2) m =
    mkMotor (current_left_pwm m) (current_right_pwm m)
            (pwm_clamp (1750 - 10 * c + 5 * r)) (pwm_clamp (2250 - 10 * c - 5 * r)).
Proof.
  intros Hc Hr. rewrite set_pwm_int by apply s32_range.
  assert (E : remote_commands c r = (1750 - 10 * c + 5 * r, 2250 - 10 * c - 5 * r)).
  { unfold remote_commands.
    replace (u32 (u32 (u32 (100 - c) * 10) + 1000)) with (u32 (2000 - 10 * c)) by c_mod.
    replace (u32 (u32 (r * 10) + 1000)) with (u32 (10 * r + 1000)) by c_mod.
    rewrite !s32_u32.
    rewrite (s32_small (2000 - 10 * c)), (s32_small (10 * r + 1000)),
      (s32_small (2000 - 10 * c - 1500)), (s32_small (10 * r + 1000 - 1500)),
      (s32_small (1500 + _)) by (unfold INT_MIN, INT_MAX; lia).
    replace (10 * r + 1000 - 1500) with ((5 * r - 250) * 2) by lia. rewrite Z.quot_mul by lia.
    rewrite !s32_small by (unfold INT_MIN, INT_MAX; lia). f_equal; lia. }
  rewrite E. reflexivity.
Qed.

(** ** Properties *)

(** C18: after every turn at most one LED is lit, the remote control's LED exactly
    when its enable key is held; once the remote control has been silent for
    more than 1.5 s its key is released, its mode left and its LED off;
    after more than 16 s without the server the connection flag and its LED
    are off; after 1.5 s without an obstacle the distance is the default. *)
Theorem manager_supervision tick w :
  let w' := manager_iter tick w in
  (length (lit (w_pins w')) <= 1)%nat /\
  (In LED2 (lit (w_pins w')) <-> key_at (w_g w') 0 = 1) /\
  (current_mode (w_g w') = 1 <-> key_at (w_g w') 0 = 1) /\
  (1500 < u32 (tick 1%nat - rec_tick (w_g w)) -> key_at (w_g w') 0 = 0) /\
  (16000 < u32 (tick 2%nat - rec_server_tick (w_g w)) ->
     is_connect (w_g w') = 0 /\ ~ In LED3 (lit (w_pins w'))) /\
  (1500 < u32 (tick 0%nat - obstacle_tick (w_g w)) -> min_distance (w_g w') = 10000).
Proof.
  cbn zeta. destruct (manager_iter_frame tick w) as (_ & Hk & Hm & Hc & Hd & _ & Hl).
  pose proof (manager_prepare_ok tick w) as Hp.
  destruct (pr_pins _ _ _ Hp) as (code & Hc1 & Hc3 & Hpins).
  rewrite Hl, Hm, Hc, Hd, Hpins, (key_at_ext _ _ 0 Hk).
  destruct (lit_code code (w_pins w)) as (L1 & L3 & Ln).
  split_ands.
  - exact Ln.
  - rewrite L1. exact Hc1.
  - apply (pr_mode _ _ _ Hp).
  - intros Hlt. pose proof (pr_key _ _ _ Hp) as Ek. rewrite (proj2 (Z.ltb_lt _ _) Hlt) in Ek.
    eapply key_at_released, Ek.
  - intros Hlt. pose proof (pr_connect _ _ _ Hp) as Ec. rewrite (proj2 (Z.ltb_lt _ _) Hlt) in Ec.
    split; [exact Ec|]. rewrite L3. intros E. apply Hc3 in E. congruence.
  - intros Hlt. rewrite (pr_dist _ _ _ Hp), (proj2 (Z.ltb_lt _ _) Hlt). reflexivity.
Qed.

(** In every mode a turn leaves clamped motor targets and does not touch the
    outputs themselves, which only the motor thread moves. *)
Theorem manager_motor_safe tick w :
  let m' := w_motor (manager_iter tick w) in
  1000 <= target_left_pwm m' <= 2000 /\ 1000 <= target_right_pwm m' <= 2000 /\
  current_left_pwm m' = current_left_pwm (w_motor w) /\
  current_right_pwm m' = current_right_pwm (w_motor w).
Proof.
  cbn zeta. destruct (manager_iter_frame tick w) as (-> & _).
  unfold manager_prepare.
  set (w3 := upd_g manager_mode _).
  destruct (manager_drive_targets w3) as (H1 & H2 & H3 & H4); [|split_ands; auto].
  - unfold w3. change (w_g (upd_g manager_mode ?x)) with (manager_mode (w_g x)).
    rewrite manager_mode_cases. destruct (_ =? 1); [tauto|]. destruct (_ && _); tauto.
  - apply H1.
  - apply H1.
  - apply H2.
  - apply H2.
Qed.

(** The joystick law.  With the remote control enabled and in time, stick
    values below 100000 give the two motors [1750 - 10*col + 5*row] and
    [2250 - 10*col - 5*row], clamped by [set_pwm]: centre is 1500/1500, every
    pair below 100 is in range or cut at 1000 and 2000, and a value so large
    that the result is negative turns into full speed ahead. *)
Theorem manager_joystick tick w :
  key_at (w_g w) 0 = 1 -> u32 (tick 1%nat - rec_tick (w_g w)) <= 1500 ->
  0 <= col (w_g w) < 100000 -> 0 <= row (w_g w) < 100000 ->
  let m' := w_motor (manager_iter tick w) in
  target_left_pwm m' = pwm_clamp (1750 - 10 * col (w_g w) + 5 * row (w_g w)) /\
  target_right_pwm m' = pwm_clamp (2250 - 10 * col (w_g w) - 5 * row (w_g w)).
Proof.
  intros Hk Ht Hcol Hrow. cbn zeta. destruct (manager_iter_frame tick w) as (-> & _).
  unfold manager_prepare.
  set (w2 := write_pins _ (upd_g (manager_timeouts (tick 0%nat) (tick 1%nat) (tick 2%nat)) w)).
  assert (Eg : w_g w2 = manager_timeouts (tick 0%nat) (tick 1%nat) (tick 2%nat) (w_g w)) by reflexivity.
  rewrite manager_timeouts_frame, (proj2 (Z.ltb_ge 1500 (u32 (tick 1%nat - rec_tick (w_g w))))) in Eg by lia.
  assert (Hk2 : key_at (w_g w2) 0 = 1) by (rewrite (key_at_ext _ (w_g w)); [exact Hk|rewrite Eg; reflexivity]).
  assert (Ec : col (w_g w2) = col (w_g w) /\ row (w_g w2) = row (w_g w) /\ w_motor w2 = w_motor w)
    by (rewrite Eg; repeat split).
  destruct Ec as (Ec & Er & Em). clearbody w2. clear Eg.
  replace (manager_drive (upd_g manager_mode w2))
    with (manager_remote (w2 <| w_g := w_g w2 <| current_mode := 1 |> |>)).
  2: { unfold upd_g, manager_mode. rewrite Hk2. reflexivity. }
  rewrite remote_motor, remote_law.
  - rewrite <- Ec, <- Er. split; reflexivity.
  - change (0 <= col (w_g w2) < 100000). rewrite Ec. exact Hcol.
  - change (0 <= row (w_g w2) < 100000). rewrite Er. exact Hrow.
Qed.

Lemma prepare_pins tick w :
  pump_on (w_pins (manager_prepare tick w)) = pump_on (w_pins w) /\
  open_valves (w_pins (manager_prepare tick w)) = open_valves (w_pins w).
Proof.
  destruct (pr_pins _ _ _ (manager_prepare_ok tick w)) as (code & _ & _ & ->). apply sampling_led.
Qed.

(** When is the pump running after a turn?  Either the remote control orders
    it, within its time limit and into bottle 1; or the hose is at the ordered
    depth, the order's time is not over and exactly the ordered bottle's valve
    is open; or the hose is still on its way (status 1) and pump and valves
    are as the turn found them - a new order does not stop a running pump.
    When it is not running and the hose is not moving, every valve is closed. *)
Theorem manager_pump tick w :
  let w' := manager_iter tick w in
  let w1 := manager_prepare tick w in
  let moving := key_at (w_g w') 0 <> 1 /\ draw_status (w_g w') = 1 /\
    current_gear_pwm (w_gear w) <> u32 (depth_pwm (w_g w1)) /\
    target_gear_pwm (w_gear w') = u32 (depth_pwm (w_g w1)) /\
    pump_on (w_pins w') = pump_on (w_pins w) /\
    open_valves (w_pins w') = open_valves (w_pins w) in
  if pump_on (w_pins w') then
    (key_at (w_g w') 0 = 1 /\ key_at (w_g w') 2 = 1 /\ open_valves (w_pins w') = [1] /\
     u32 (tick 4%nat - draw_start_tick (w_g w')) < u32 (remote_draw_limit (w_g w'))) \/
    (key_at (w_g w') 0 <> 1 /\ draw_status (w_g w') = 2 /\
     1 <= bottle_id (w_g w) <= 8 /\ open_valves (w_pins w') = [bottle_id (w_g w)] /\
     current_gear_pwm (w_gear w) = u32 (depth_pwm (w_g w1)) /\
     u32 (tick 4%nat - draw_start_tick (w_g w')) < u32 (s32 (full_draw_time (w_g w') * 1000))) \/
    moving
  else open_valves (w_pins w') = [] \/ moving.
Proof.
  cbn zeta. destruct (manager_iter_frame tick w) as (_ & Hk & _).
  rewrite (key_at_ext _ _ 0 Hk), (key_at_ext _ _ 2 Hk). clear Hk.
  pose proof (manager_prepare_ok tick w) as Hp. pose proof (prepare_pins tick w) as [Hpump Hopen].
  rewrite manager_iter_eq. cbn zeta.
  set (w1 := manager_prepare tick w) in *.
  rewrite <- (pr_gear _ _ _ Hp), <- (pr_bottle _ _ _ Hp), <- Hpump, <- Hopen.
  clearbody w1. clear Hpump Hopen.
  destruct (Z.eqb_spec (key_at (w_g w1) 0) 1) as [Ek|Ek].
  - pose proof (remote_draw_pump (tick 3%nat) (tick 4%nat) w1) as Hr. cbn zeta in Hr.
    pose proof (remote_draw_motor (tick 3%nat) (tick 4%nat) w1) as (_ & Hk & _).
    destruct (pump_on _); [|left; exact Hr].
    left. rewrite <- (key_at_ext _ _ 2 Hk). tauto.
  - pose proof (server_draw_pump (tick 3%nat) (tick 4%nat) (tick 5%nat) w1) as Hs. cbn zeta in Hs.
    set (w' := server_draw _ _ _ w1) in *. clearbody w'.
    destruct Hs as [(H1 & Hpins & H3 & H4 & _)|[(H1 & H2 & Hpins & H4 & H5 & _)|(Hpins & _)]].
    + destruct (pump_on (w_pins w')) eqn:Epump; [right|]; right; split_ands; auto; congruence.
    + rewrite Hpins, (proj1 (draw_open _ _)), (proj2 (draw_open _ _)).
      destruct (Z.leb_spec 1 (bottle_id (w_g w1))), (Z.leb_spec (bottle_id (w_g w1)) 8); cbn [andb];
        try (left; reflexivity).
      right. left. split_ands; auto.
    + rewrite Hpins, (proj1 (draw_open _ 0)). left. apply (draw_open _ 0).
Qed.

(** ** A sampling order carried out, turn after turn *)

(** The server's branch at successive clock readings. *)
Definition sample_run (ticks : list Z) (w : World) : World :=
  fold_left (fun w t => server_draw t t t w) ticks w.

Definition sample_limit (w : World) : Z := u32 (s32 (draw_seconds (w_g w) * 1000)).

(** Pumping since tick [t0] for the order of [w]. *)
Record pumping (w : World) (t0 : Z) (w' : World) : Prop := {
  pg_bottle : bottle_id (w_g w') = bottle_id (w_g w);
  pg_depth : depth_pwm (w_g w') = depth_pwm (w_g w);
  pg_seconds : draw_seconds (w_g w') = draw_seconds (w_g w);
  pg_gear : w_gear w' = w_gear w;
  pg_start : draw_start_tick (w_g w') = t0;
  pg_status : draw_status (w_g w') = 2;
  pg_pins : exists p, w_pins w' = run_writes (draw (bottle_id (w_g w))) p;
}.

Lemma server_draw_turn t w :
  bottle_id (w_g w) <> 0 -> draw_status (w_g w) <> 4 ->
  current_gear_pwm (w_gear w) = u32 (depth_pwm (w_g w)) ->
  let t0 := if draw_start_tick (w_g w) =? 0 then t else draw_start_tick (w_g w) in
  let w' := server_draw t t t w in
  (u32 (t - t0) < sample_limit w -> pumping w t0 w') /\
  (sample_limit w <= u32 (t - t0) ->
     draw_status (w_g w') = 4 /\ draw_start_tick (w_g w') = 0 /\
     bottle_id (w_g w') = bottle_id (w_g w) /\ w_pins w' = run_writes (draw 0) (w_pins w)).
Proof.
  intros Hb Hs Hg. cbn zeta. unfold server_draw, sample_limit.
  rewrite (proj2 (Z.eqb_neq _ 0) Hb), (proj2 (Z.eqb_neq _ 4) Hs). cbn [negb andb].
  change (deep_pwm (w_g w <| deep_pwm := depth_pwm (w_g w) |>)) with (depth_pwm (w_g w)).
  rewrite Hg, Z.eqb_refl. cbn [negb].
  change (draw_start_tick (w_g w <| deep_pwm := depth_pwm (w_g w) |>)) with (draw_start_tick (w_g w)).
  set (lim := u32 (s32 (draw_seconds (w_g w) * 1000))).
  destruct (draw_start_tick (w_g w) =? 0);
    (match goal with |- context [if u32 ?a <? u32 ?b then _ else _] =>
       first [change (u32 a <? u32 b) with (u32 (t - t) <? lim)
             |change (u32 a <? u32 b) with (u32 (t - draw_start_tick (w_g w)) <? lim)] end);
    (match goal with |- context [if u32 ?a <? lim then _ else _] =>
       destruct (Z.ltb_spec (u32 a) lim) as [Hlt|Hlt] end);
    (split; [intros Hl|intros Hl]); try lia.
  all: first [split_ands; reflexivity | constructor; first [reflexivity | eexists; reflexivity]].
Qed.

Lemma pumping_idem w t0 w1 w2 : pumping w t0 w1 -> pumping w1 t0 w2 -> pumping w t0 w2.
Proof.
  intros [] []. constructor; try congruence.
  destruct pg_pins1 as [p E]. rewrite E, pg_bottle0. eauto.
Qed.

Lemma sample_run_pumping ticks w t0 w1 :
  bottle_id (w_g w) <> 0 -> current_gear_pwm (w_gear w) = u32 (depth_pwm (w_g w)) -> t0 <> 0 ->
  pumping w t0 w1 -> Forall (fun t => u32 (t - t0) < sample_limit w) ticks ->
  pumping w t0 (sample_run ticks w1).
Proof.
  intros Hb Hg Ht0 Hp Hts. revert w1 Hp. induction Hts as [|t ticks Ht _ IH]; intros w1 Hp; [exact Hp|].
  cbn [sample_run fold_left]. apply IH.
  pose proof (server_draw_turn t w1) as Hturn. cbn zeta in Hturn.
  destruct Hp as [P1 P2 P3 P4 P5 P6 P7]. rewrite P5, (proj2 (Z.eqb_neq t0 0) Ht0) in Hturn.
  eapply pumping_idem; [constructor; eassumption|].
  apply Hturn; [congruence|lia|congruence|]. unfold sample_limit. rewrite P3. exact Ht.
Qed.

Lemma sample_run_done ticks w :
  draw_status (w_g w) = 4 -> pump_on (w_pins w) = false -> open_valves (w_pins w) = [] ->
  draw_status (w_g (sample_run ticks w)) = 4 /\
  pump_on (w_pins (sample_run ticks w)) = false /\ open_valves (w_pins (sample_run ticks w)) = [].
Proof.
  revert w. induction ticks as [|t ticks IH]; intros w Hs Hp Ho; [auto|].
  cbn [sample_run fold_left]. apply IH; unfold server_draw; rewrite Hs; rewrite andb_false_r.
  - exact Hs.
  - apply (draw_open _ 0).
  - apply (draw_open _ 0).
Qed.

(** An accepted order whose hose is at depth runs to completion: at every
    turn before the computed time has passed since the first one, the pump
    runs into exactly the ordered bottle (status 2); at the first turn after
    it everything is closed and the status is 4, and it stays so. *)
Theorem sampling_completes w t0 before t after_ :
  1 <= bottle_id (w_g w) <= 8 -> draw_status (w_g w) <> 4 -> draw_start_tick (w_g w) = 0 ->
  current_gear_pwm (w_gear w) = u32 (depth_pwm (w_g w)) ->
  t0 <> 0 -> 0 < sample_limit w ->
  Forall (fun t => u32 (t - t0) < sample_limit w) before ->
  sample_limit w <= u32 (t - t0) ->
  (let w1 := sample_run (t0 :: before) w in
   draw_status (w_g w1) = 2 /\ pump_on (w_pins w1) = true /\
   open_valves (w_pins w1) = [bottle_id (w_g w)]) /\
  (let w2 := sample_run (t0 :: before ++ t :: after_) w in
   draw_status (w_g w2) = 4 /\ pump_on (w_pins w2) = false /\ open_valves (w_pins w2) = []).
Proof.
  intros Hb Hs Hstart Hg Ht0 Hlim Hbefore Ht. cbn zeta.
  pose proof (server_draw_turn t0 w ltac:(lia) Hs Hg) as [Hfirst _]. cbn zeta in Hfirst.
  rewrite Hstart, Z.eqb_refl, Z.sub_diag in Hfirst. specialize (Hfirst Hlim).
  assert (Hp : pumping w t0 (sample_run (t0 :: before) w)).
  { change (sample_run (t0 :: before) w) with (sample_run before (server_draw t0 t0 t0 w)).
    apply sample_run_pumping; auto; lia. }
  split.
  - destruct (pg_pins _ _ _ Hp) as [p E]; rewrite (pg_status _ _ _ Hp), E;
      rewrite (proj1 (draw_open _ _)), (proj2 (draw_open _ _));
      rewrite (proj2 (Z.leb_le 1 _)), (proj2 (Z.leb_le _ 8)) by lia; auto.
  - change (t0 :: before ++ t :: after_) with ((t0 :: before) ++ t :: after_).
    unfold sample_run. rewrite fold_left_app. fold (sample_run (t0 :: before) w).
    set (w1 := sample_run (t0 :: before) w) in *.
    cbn [fold_left]. fold (sample_run after_ (server_draw t t t w1)).
    destruct Hp as [P1 P2 P3 P4 P5 P6 P7].
    pose proof (server_draw_turn t w1 ltac:(lia) ltac:(lia) ltac:(congruence)) as [_ Hlast].
    cbn zeta in Hlast. rewrite P5, (proj2 (Z.eqb_neq t0 0) Ht0) in Hlast.
    unfold sample_limit in Hlast, Ht. rewrite P3 in Hlast.
    destruct (Hlast Ht) as (H1 & _ & _ & H2).
    apply sample_run_done; rewrite ?H2; [exact H1|apply (draw_open _ 0)|apply (draw_open _ 0)].
Qed.

End ManagerProperties.

(** ** Witnesses *)

Definition tick_of (t : Z) : nat -> Z := fun _ => t.

(** The enable key held and the stick pushed forward. *)
Definition stick_world : World :=
  world_init <| w_g := set_key 0 1 globals_init <| col := 0 |> |>.

Lemma manager_joystick_witness :
  target_left_pwm (w_motor (@manager_iter toy_libm (tick_of 100) stick_world)) =
    pwm_clamp (1750 - 10 * col (w_g stick_world) + 5 * row (w_g stick_world)) /\
  target_right_pwm (w_motor (@manager_iter toy_libm (tick_of 100) stick_world)) =
    pwm_clamp (2250 - 10 * col (w_g stick_world) - 5 * row (w_g stick_world)).
Proof.
  apply (@manager_joystick toy_libm (tick_of 100) stick_world); vm_compute; intuition discriminate.
Defined.

(** An order for bottle 2 with the hose already at its depth. *)
Definition order_world : World :=
  world_init <| w_g := globals_init <| bottle_id := 2 |> <| bottle_amount := 100 |> |>
             <| w_gear := mkGear 1400 1400 |>.

Lemma sampling_completes_witness :
  pump_on (w_pins (sample_run (5 :: [1000]) order_world)) = true /\
  draw_status (w_g (sample_run (5 :: [1000] ++ 31000 :: [31040]) order_world)) = 4.
Proof.
  destruct (sampling_completes order_world 5 [1000] 31000 [31040]) as [(_ & H1 & _) (H2 & _)];
    [cbn; lia|cbn; lia|reflexivity|reflexivity|lia|reflexivity
    |repeat constructor|vm_compute; discriminate|].
  split; assumption.
Defined.
