(* ===== verification/RingBuffer.v ===== *)
(** The byte ring buffer of the device drivers
    (src/rt-thread/components/drivers/src/ringbuffer.c) and its refinement of a
    bounded FIFO queue. *)

From S2P Require Import Prelude.

(** ** The state and the operations *)

Record RB := mkRB {
  buffer_ptr : list Z;
  read_mirror : bool;      (* 1-bit fields *)
  read_index : Z;          (* 15-bit fields *)
  write_mirror : bool;
  write_index : Z;
  buffer_size : Z;         (* rt_int16_t *)
}.
#[export] Instance RB_rebuild : Rebuild RB := fun rb =>
  mkRB (buffer_ptr rb) (read_mirror rb) (read_index rb) (write_mirror rb) (write_index rb)
       (buffer_size rb).

(** The 15-bit unsigned bit fields. *)
Definition u15 (z : Z) : Z := z mod 32768.

Inductive rt_ringbuffer_state := RT_RINGBUFFER_EMPTY | RT_RINGBUFFER_FULL | RT_RINGBUFFER_HALFFULL.

Definition rt_ringbuffer_status (rb : RB) : rt_ringbuffer_state :=
  if read_index rb =? write_index rb then
    if Bool.eqb (read_mirror rb) (write_mirror rb) then RT_RINGBUFFER_EMPTY else RT_RINGBUFFER_FULL
  else RT_RINGBUFFER_HALFFULL.

(** [memcpy] to or from a part of an array; out of its bounds a memory error. *)
Definition mem_write (b : list Z) (i : Z) (src : list Z) : option (list Z) :=
  if (0 <=? i) && (i + Z.of_nat (length src) <=? Z.of_nat (length b))
  then Some (take (Z.to_nat i) b ++ src ++ drop (Z.to_nat i + length src) b) else None.
Definition mem_read (b : list Z) (i n : Z) : option (list Z) :=
  if (0 <=? i) && (0 <=? n) && (i + n <=? Z.of_nat (length b))
  then Some (take (Z.to_nat n) (drop (Z.to_nat i) b)) else None.

Definition rt_ringbuffer_init (pool : list Z) (size : Z) : RB :=
  mkRB pool false 0 false 0 (RT_ALIGN_DOWN size RT_ALIGN_SIZE).

Definition rt_ringbuffer_data_len (rb : RB) : Z :=
  match rt_ringbuffer_status rb with
  | RT_RINGBUFFER_EMPTY => 0
  | RT_RINGBUFFER_FULL => buffer_size rb
  | RT_RINGBUFFER_HALFFULL =>
      if read_index rb <? write_index rb then write_index rb - read_index rb
      else buffer_size rb - (read_index rb - write_index rb)
  end.

Definition rt_ringbuffer_space_len (rb : RB) : Z := buffer_size rb - rt_ringbuffer_data_len rb.

Definition rt_ringbuffer_get_size (rb : RB) : Z := u16 (buffer_size rb).

Definition rt_ringbuffer_put (rb : RB) (ptr : list Z) (length_ : Z) : option (RB * Z) :=
  let size := u16 (rt_ringbuffer_space_len rb) in
  if size =? 0 then Some (rb, 0)
  else
    let length_ := if size <? length_ then size else length_ in
    if length_ <? buffer_size rb - write_index rb then
      src ← mem_read ptr 0 length_;
      b ← mem_write (buffer_ptr rb) (write_index rb) src;
      Some (rb <| buffer_ptr := b |> <| write_index := u15 (write_index rb + length_) |>, length_)
    else
      src1 ← mem_read ptr 0 (buffer_size rb - write_index rb);
      b1 ← mem_write (buffer_ptr rb) (write_index rb) src1;
      src2 ← mem_read ptr (buffer_size rb - write_index rb)
                      (length_ - (buffer_size rb - write_index rb));
      b2 ← mem_write b1 0 src2;
      Some (rb <| buffer_ptr := b2 |> <| write_mirror := negb (write_mirror rb) |>
               <| write_index := u15 (length_ - (buffer_size rb - write_index rb)) |>, length_).

Definition rt_ringbuffer_put_force (rb : RB) (ptr : list Z) (length_ : Z) : option (RB * Z) :=
  let space_length := u16 (rt_ringbuffer_space_len rb) in
  let '(ptr, length_) :=
    if buffer_size rb <? length_
    then (drop (Z.to_nat (length_ - buffer_size rb)) ptr, buffer_size rb) else (ptr, length_) in
  if length_ <? buffer_size rb - write_index rb then
    src ← mem_read ptr 0 length_;
    b ← mem_write (buffer_ptr rb) (write_index rb) src;
    let rb := rb <| buffer_ptr := b |> <| write_index := u15 (write_index rb + length_) |> in
    let rb := if space_length <? length_ then rb <| read_index := write_index rb |> else rb in
    Some (rb, length_)
  else
    src1 ← mem_read ptr 0 (buffer_size rb - write_index rb);
    b1 ← mem_write (buffer_ptr rb) (write_index rb) src1;
    src2 ← mem_read ptr (buffer_size rb - write_index rb)
                    (length_ - (buffer_size rb - write_index rb));
    b2 ← mem_write b1 0 src2;
    let rb := rb <| buffer_ptr := b2 |> <| write_mirror := negb (write_mirror rb) |>
                 <| write_index := u15 (length_ - (buffer_size rb - write_index rb)) |> in
    let rb := if space_length <? length_
              then rb <| read_mirror := negb (read_mirror rb) |> <| read_index := write_index rb |>
              else rb in
    Some (rb, length_).

(** The data read, with the new state; the caller's array is long enough. *)
Definition rt_ringbuffer_get (rb : RB) (length_ : Z) : option (RB * list Z) :=
  let size := rt_ringbuffer_data_len rb in
  if size =? 0 then Some (rb, [])
  else
    let length_ := if size <? length_ then u16 size else length_ in
    if length_ <? buffer_size rb - read_index rb then
      d ← mem_read (buffer_ptr rb) (read_index rb) length_;
      Some (rb <| read_index := u15 (read_index rb + length_) |>, d)
    else
      d1 ← mem_read (buffer_ptr rb) (read_index rb) (buffer_size rb - read_index rb);
      d2 ← mem_read (buffer_ptr rb) 0 (length_ - (buffer_size rb - read_index rb));
      Some (rb <| read_mirror := negb (read_mirror rb) |>
               <| read_index := u15 (length_ - (buffer_size rb - read_index rb)) |>, d1 ++ d2).

Definition rt_ringbuffer_putchar (rb : RB) (ch : Z) : option (RB * Z) :=
  if rt_ringbuffer_space_len rb =? 0 then Some (rb, 0)
  else
    b ← buf_set (buffer_ptr rb) (write_index rb) ch;
    let rb := rb <| buffer_ptr := b |> in
    Some (if write_index rb =? buffer_size rb - 1
          then rb <| write_mirror := negb (write_mirror rb) |> <| write_index := 0 |>
          else rb <| write_index := u15 (write_index rb + 1) |>, 1).

Definition rt_ringbuffer_putchar_force (rb : RB) (ch : Z) : option (RB * Z) :=
  let full := match rt_ringbuffer_status rb with RT_RINGBUFFER_FULL => true | _ => false end in
  b ← buf_set (buffer_ptr rb) (write_index rb) ch;
  let rb := rb <| buffer_ptr := b |> in
  if write_index rb =? buffer_size rb - 1 then
    let rb := rb <| write_mirror := negb (write_mirror rb) |> <| write_index := 0 |> in
    Some (if full then rb <| read_mirror := negb (read_mirror rb) |> <| read_index := write_index rb |>
          else rb, 1)
  else
    let rb := rb <| write_index := u15 (write_index rb + 1) |> in
    Some (if full then rb <| read_index := write_index rb |> else rb, 1).

Definition rt_ringbuffer_getchar (rb : RB) : option (RB * option Z) :=
  if rt_ringbuffer_data_len rb =? 0 then Some (rb, None)
  else
    ch ← buf_get (buffer_ptr rb) (read_index rb);
    Some (if read_index rb =? buffer_size rb - 1
          then rb <| read_mirror := negb (read_mirror rb) |> <| read_index := 0 |>
          else rb <| read_index := u15 (read_index rb + 1) |>, Some ch).

Definition rt_ringbuffer_reset (rb : RB) : RB :=
  rb <| read_mirror := false |> <| read_index := 0 |>
     <| write_mirror := false |> <| write_index := 0 |>.

(** ** The abstract queue *)

Record rb_wf (rb : RB) : Prop := {
  rw_size : 0 < buffer_size rb <= 32767;
  rw_buffer : Z.of_nat (length (buffer_ptr rb)) = buffer_size rb;
  rw_read : 0 <= read_index rb < buffer_size rb;
  rw_write : 0 <= write_index rb < buffer_size rb;
  rw_order : if Bool.eqb (read_mirror rb) (write_mirror rb)
             then read_index rb <= write_index rb else write_index rb <= read_index rb;
}.

(** The stored bytes, oldest first. *)
Definition contents (rb : RB) : list Z :=
  let r := Z.to_nat (read_index rb) in
  let w := Z.to_nat (write_index rb) in
  if Bool.eqb (read_mirror rb) (write_mirror rb)
  then take (w - r) (drop r (buffer_ptr rb))
  else drop r (buffer_ptr rb) ++ take w (buffer_ptr rb).

(** ** Lemmas *)

Lemma u15_small z : 0 <= z < 32768 -> u15 z = z.
Proof. apply Z.mod_small. Qed.

Lemma mem_write_Some b i src :
  0 <= i -> i + Z.of_nat (length src) <= Z.of_nat (length b) ->
  mem_write b i src = Some (take (Z.to_nat i) b ++ src ++ drop (Z.to_nat i + length src) b).
Proof. intros. unfold mem_write. rewrite !(proj2 (Z.leb_le _ _)) by lia. reflexivity. Qed.

Lemma mem_read_Some b i n :
  0 <= i -> 0 <= n -> i + n <= Z.of_nat (length b) ->
  mem_read b i n = Some (take (Z.to_nat n) (drop (Z.to_nat i) b)).
Proof. intros. unfold mem_read. rewrite !(proj2 (Z.leb_le _ _)) by lia. reflexivity. Qed.

Lemma contents_length rb : rb_wf rb -> Z.of_nat (length (contents rb)) = rt_ringbuffer_data_len rb.
Proof.
  intros [Hs Hb Hr Hw Ho]. unfold contents, rt_ringbuffer_data_len, rt_ringbuffer_status.
  destruct (Bool.eqb _ _).
  - rewrite length_take, length_drop. bool_cases; lia.
  - rewrite length_app, length_take, length_drop. bool_cases; lia.
Qed.

Lemma data_len_range rb : rb_wf rb -> 0 <= rt_ringbuffer_data_len rb <= buffer_size rb.
Proof.
  intros [Hs Hb Hr Hw Ho]. unfold rt_ringbuffer_data_len, rt_ringbuffer_status.
  destruct (Bool.eqb _ _); bool_cases; lia.
Qed.

(** Writing over, and reading, a named part of an array. *)
Lemma mem_write_app a m c src i :
  i = Z.of_nat (length a) -> length src = length m ->
  mem_write (a ++ m ++ c) i src = Some (a ++ src ++ c).
Proof.
  intros -> Hl. rewrite mem_write_Some by (rewrite ?length_app; lia).
  rewrite Nat2Z.id, take_app_length, Hl.
  replace (drop (length a + length m) (a ++ m ++ c)) with c; [reflexivity|].
  rewrite app_assoc, <- length_app, drop_app_length. reflexivity.
Qed.

Lemma mem_read_app a m c i n :
  i = Z.of_nat (length a) -> n = Z.of_nat (length m) -> mem_read (a ++ m ++ c) i n = Some m.
Proof.
  intros -> ->. rewrite mem_read_Some by (rewrite ?length_app; lia).
  rewrite !Nat2Z.id, drop_app_length, take_app_length. reflexivity.
Qed.

Lemma mem_read_app0 m c n : n = Z.of_nat (length m) -> mem_read (m ++ c) 0 n = Some m.
Proof. intros E. exact (mem_read_app [] m c 0 n eq_refl E). Qed.

Lemma mem_write_app0 m c src : length src = length m -> mem_write (m ++ c) 0 src = Some (src ++ c).
Proof. intros E. exact (mem_write_app [] m c src 0 eq_refl E). Qed.

(** A list of known length split at a position. *)
Lemma split_list (b : list Z) n :
  (n <= length b)%nat -> exists x y, b = x ++ y /\ length x = n.
Proof.
  intros H. exists (take n b), (drop n b). rewrite take_drop, length_take. split; [reflexivity|lia].
Qed.

(** Buffer and indices seen through the stored bytes: in one piece [q], or in a
    piece [q1] at the end continued by [q2] at the start. *)
Inductive view (rb : RB) : list Z -> Prop :=
| view_linear x q y :
    buffer_ptr rb = x ++ q ++ y -> read_index rb = Z.of_nat (length x) ->
    write_index rb = Z.of_nat (length x + length q) ->
    read_mirror rb = write_mirror rb -> (0 < length y)%nat -> view rb q
| view_wrapped q1 f q2 :
    buffer_ptr rb = q2 ++ f ++ q1 -> write_index rb = Z.of_nat (length q2) ->
    read_index rb = Z.of_nat (length q2 + length f) ->
    read_mirror rb = negb (write_mirror rb) -> (0 < length q1)%nat -> view rb (q1 ++ q2).

Record sized (rb : RB) : Prop := {
  sz_pos : 0 < buffer_size rb <= 32767;
  sz_buf : Z.of_nat (length (buffer_ptr rb)) = buffer_size rb;
}.

Lemma wf_view rb : rb_wf rb -> view rb (contents rb).
Proof.
  intros [Hs Hb Hr Hw Ho]. unfold contents.
  destruct (Bool.eqb (read_mirror rb) (write_mirror rb)) eqn:Em.
  - apply Bool.eqb_prop in Em.
    destruct (split_list (buffer_ptr rb) (Z.to_nat (write_index rb)) ltac:(lia)) as (xq & y & E & Hxq).
    destruct (split_list xq (Z.to_nat (read_index rb)) ltac:(lia)) as (x & q & -> & Hx).
    rewrite length_app in Hxq. rewrite <- app_assoc in E.
    replace (take _ (drop _ (buffer_ptr rb))) with q.
    + apply (view_linear rb x q y); auto; try lia.
      apply (f_equal length) in E. rewrite !length_app in E. lia.
    + rewrite E, <- Hx, drop_app_length.
      replace (Z.to_nat (write_index rb) - length x)%nat with (length q) by lia.
      rewrite take_app_length. reflexivity.
  - destruct (split_list (buffer_ptr rb) (Z.to_nat (read_index rb)) ltac:(lia)) as (xf & q1 & E & Hxf).
    destruct (split_list xf (Z.to_nat (write_index rb)) ltac:(lia)) as (q2 & f & -> & Hq2).
    rewrite length_app in Hxf. rewrite <- app_assoc in E.
    replace (drop _ (buffer_ptr rb)) with q1.
    + replace (take _ (buffer_ptr rb)) with q2.
      * apply (view_wrapped rb q1 f q2); auto; try lia.
        -- destruct (read_mirror rb), (write_mirror rb); auto; discriminate.
        -- apply (f_equal length) in E. rewrite !length_app in E. lia.
      * rewrite E, <- Hq2, take_app_length. reflexivity.
    + rewrite E, app_assoc, <- Hxf, <- length_app, drop_app_length. reflexivity.
Qed.

Lemma view_wf rb q : sized rb -> view rb q -> rb_wf rb /\ contents rb = q.
Proof.
  intros [Hs Hb] [x q' y E Hr Hw Hm Hy|q1 f q2 E Hw Hr Hm Hq1].
  - rewrite E, !length_app in Hb. split; [constructor; try lia|].
    + rewrite E, !length_app. lia.
    + rewrite Hm, Bool.eqb_reflx. lia.
    + unfold contents. rewrite Hm, Bool.eqb_reflx, E, Hr, Hw, !Nat2Z.id, drop_app_length.
      replace (length x + length q' - length x)%nat with (length q') by lia. apply take_app_length.
  - assert (Em : Bool.eqb (read_mirror rb) (write_mirror rb) = false)
      by (rewrite Hm; destruct (write_mirror rb); reflexivity).
    rewrite E, !length_app in Hb. split; [constructor; try lia|].
    + rewrite E, !length_app. lia.
    + rewrite Em. lia.
    + unfold contents. rewrite Em, E, Hr, Hw, !Nat2Z.id. f_equal; [|apply take_app_length].
      rewrite app_assoc, <- length_app. apply drop_app_length.
Qed.

Lemma rb_wf_sized rb : rb_wf rb -> sized rb.
Proof. intros [? ? ? ? ?]. constructor; assumption. Qed.

Lemma space_len_u16 rb : rb_wf rb ->
  u16 (rt_ringbuffer_space_len rb) = buffer_size rb - Z.of_nat (length (contents rb)).
Proof.
  intros Hw. pose proof (data_len_range rb Hw). pose proof (rw_size rb Hw).
  rewrite contents_length by assumption. unfold rt_ringbuffer_space_len.
  apply u16_small. lia.
Qed.

(** ** Storing [d] behind the contents when it fits *)

Definition advanced (rb : RB) (b : list Z) (n : Z) : RB :=
  if n <? buffer_size rb - write_index rb
  then rb <| buffer_ptr := b |> <| write_index := u15 (write_index rb + n) |>
  else rb <| buffer_ptr := b |> <| write_mirror := negb (write_mirror rb) |>
          <| write_index := u15 (n - (buffer_size rb - write_index rb)) |>.

(** The two-part copy of [put] and [put_force]. *)
Definition store (rb : RB) (ptr : list Z) (n : Z) : option (list Z) :=
  if n <? buffer_size rb - write_index rb then
    src ← mem_read ptr 0 n; mem_write (buffer_ptr rb) (write_index rb) src
  else
    src1 ← mem_read ptr 0 (buffer_size rb - write_index rb);
    b1 ← mem_write (buffer_ptr rb) (write_index rb) src1;
    src2 ← mem_read ptr (buffer_size rb - write_index rb) (n - (buffer_size rb - write_index rb));
    mem_write b1 0 src2.

Lemma store_linear a m c d e rb :
  buffer_ptr rb = a ++ m ++ c -> write_index rb = Z.of_nat (length a) ->
  buffer_size rb = Z.of_nat (length (buffer_ptr rb)) ->
  length d = length m -> (0 < length c)%nat ->
  store rb (d ++ e) (Z.of_nat (length d)) = Some (a ++ d ++ c).
Proof.
  intros E Hw Hs Hd Hc. rewrite E, !length_app in Hs.
  unfold store. rewrite (proj2 (Z.ltb_lt _ _)) by lia.
  rewrite mem_read_app0 by reflexivity. cbn [mbind option_bind]. rewrite E.
  apply mem_write_app; assumption.
Qed.

(** [d] runs over the end of the array onto its first bytes [x1]. *)
Lemma store_wrap x1 x2 y d1 d2 e rb :
  buffer_ptr rb = x1 ++ x2 ++ y -> write_index rb = Z.of_nat (length x1 + length x2) ->
  buffer_size rb = Z.of_nat (length (buffer_ptr rb)) ->
  length d1 = length y -> length d2 = length x1 ->
  store rb ((d1 ++ d2) ++ e) (Z.of_nat (length (d1 ++ d2))) = Some (d2 ++ x2 ++ d1).
Proof.
  intros E Hw Hs Hd1 Hd2. rewrite E, !length_app in Hs.
  unfold store. rewrite length_app, (proj2 (Z.ltb_ge _ _)) by lia.
  rewrite <- app_assoc, mem_read_app0 by lia. cbn [mbind option_bind]. rewrite E.
  rewrite (app_assoc x1 x2), <- (app_nil_r y) , (mem_write_app (x1 ++ x2) y [] d1);
    [|rewrite length_app; lia|lia].
  cbn [mbind option_bind]. rewrite (mem_read_app d1 d2 e) by lia. cbn [mbind option_bind].
  rewrite <- app_assoc, app_nil_r, mem_write_app0 by lia. reflexivity.
Qed.

Lemma append_ok rb d e :
  rb_wf rb -> Z.of_nat (length (contents rb) + length d) <= buffer_size rb ->
  exists b, store rb (d ++ e) (Z.of_nat (length d)) = Some b /\
    rb_wf (advanced rb b (Z.of_nat (length d))) /\
    contents (advanced rb b (Z.of_nat (length d))) = contents rb ++ d.
Proof.
  intros Hwf Hfit. pose proof (wf_view rb Hwf) as Hv. pose proof (rb_wf_sized rb Hwf) as [Hs Hb].
  revert Hv Hfit. generalize (contents rb). intros q0 Hv Hfit.
  destruct Hv as [x q y E Hr Hw Hm Hy|q1 f q2 E Hw Hr Hm Hq1];
    pose proof Hb as Hb'; rewrite E, !length_app in Hb'.
  - destruct (Nat.lt_ge_cases (length d) (length y)) as [Hlt|Hge].
    + destruct (split_list y (length d) ltac:(lia)) as (m & c & -> & Hm').
      rewrite length_app in *. exists (x ++ q ++ d ++ c). split.
      * rewrite (app_assoc x q) in E. rewrite (app_assoc x q (d ++ c)).
        apply (store_linear (x ++ q) m c); rewrite ?length_app; auto; lia.
      * apply view_wf; unfold advanced; rewrite (proj2 (Z.ltb_lt _ _)) by lia.
        -- constructor; cbn; rewrite ?length_app; lia.
        -- apply (view_linear _ x (q ++ d) c); cbn; rewrite ?length_app, ?u15_small; auto; try lia.
           rewrite <- !app_assoc. reflexivity.
    + destruct (split_list d (length y) ltac:(lia)) as (d1 & d2 & -> & Hd1).
      rewrite length_app in *.
      destruct (split_list x (length d2) ltac:(lia)) as (x1 & x2 & -> & Hx1).
      rewrite length_app in *. rewrite <- length_app.
      exists (d2 ++ (x2 ++ q) ++ d1). split.
      * apply (store_wrap x1 (x2 ++ q) y); rewrite ?length_app; auto; try lia.
        rewrite E, <- !app_assoc. reflexivity.
      * apply view_wf; unfold advanced; rewrite length_app, (proj2 (Z.ltb_ge _ _)) by lia.
        -- constructor; cbn; rewrite ?length_app; lia.
        -- rewrite (app_assoc q d1 d2).
           apply (view_wrapped _ (q ++ d1) x2 d2); cbn; rewrite ?length_app, ?u15_small; auto; try lia.
           ++ rewrite <- !app_assoc. reflexivity.
           ++ rewrite Hm. symmetry. apply negb_involutive.
  - rewrite length_app in Hfit.
    destruct (split_list f (length d) ltac:(lia)) as (m & f' & -> & Hm').
    rewrite length_app in *. exists (q2 ++ d ++ f' ++ q1). split.
    + apply (store_linear q2 m (f' ++ q1)); rewrite ?length_app; auto; try lia.
      rewrite E, <- !app_assoc. reflexivity.
    + apply view_wf; unfold advanced; rewrite (proj2 (Z.ltb_lt _ _)) by lia.
      * constructor; cbn; rewrite ?length_app; lia.
      * rewrite <- (app_assoc q1 q2 d).
        apply (view_wrapped _ q1 f' (q2 ++ d)); cbn; rewrite ?length_app, ?u15_small; auto; try lia.
        rewrite <- !app_assoc. reflexivity.
Qed.

(** ** Removing the first [n] stored bytes *)

Definition retired (rb : RB) (n : Z) : RB :=
  if n <? buffer_size rb - read_index rb
  then rb <| read_index := u15 (read_index rb + n) |>
  else rb <| read_mirror := negb (read_mirror rb) |>
          <| read_index := u15 (n - (buffer_size rb - read_index rb)) |>.

Definition fetch (rb : RB) (n : Z) : option (list Z) :=
  if n <? buffer_size rb - read_index rb then mem_read (buffer_ptr rb) (read_index rb) n
  else
    d1 ← mem_read (buffer_ptr rb) (read_index rb) (buffer_size rb - read_index rb);
    d2 ← mem_read (buffer_ptr rb) 0 (n - (buffer_size rb - read_index rb));
    Some (d1 ++ d2).

Lemma remove_ok rb n :
  rb_wf rb -> (n <= length (contents rb))%nat ->
  fetch rb (Z.of_nat n) = Some (take n (contents rb)) /\
  rb_wf (retired rb (Z.of_nat n)) /\ contents (retired rb (Z.of_nat n)) = drop n (contents rb).
Proof.
  intros Hwf Hn. pose proof (wf_view rb Hwf) as Hv. pose proof (rb_wf_sized rb Hwf) as [Hs Hb].
  revert Hv Hn. generalize (contents rb). intros q0 Hv Hn.
  destruct Hv as [x q y E Hr Hw Hm Hy|q1 f q2 E Hw Hr Hm Hq1];
    pose proof Hb as Hb'; rewrite E, !length_app in Hb'.
  - destruct (split_list q n Hn) as (a & c & -> & <-). rewrite length_app in *.
    rewrite take_app_length, drop_app_length.
    unfold fetch, retired. rewrite !(proj2 (Z.ltb_lt _ _)) by lia.
    split; [rewrite E, <- app_assoc; apply mem_read_app; auto|].
    apply view_wf; [constructor; assumption|].
    apply (view_linear _ (x ++ a) c y); cbn; rewrite ?length_app, ?u15_small; auto; try lia.
    rewrite E, <- !app_assoc. reflexivity.
  - rewrite length_app in Hn. destruct (Nat.lt_ge_cases n (length q1)) as [Hlt|Hge].
    + destruct (split_list q1 n ltac:(lia)) as (a & c & -> & <-). rewrite length_app in *.
      rewrite <- app_assoc, take_app_length, drop_app_length.
      unfold fetch, retired. rewrite !(proj2 (Z.ltb_lt _ _)) by lia.
      split.
      { rewrite E, (app_assoc q2 f (a ++ c)). apply mem_read_app; rewrite ?length_app; auto. }
      apply view_wf; [constructor; assumption|].
      apply (view_wrapped _ c (f ++ a) q2); cbn; rewrite ?length_app, ?u15_small; auto; try lia.
      rewrite E, <- !app_assoc. reflexivity.
    + destruct (split_list q2 (n - length q1) ltac:(lia)) as (a & c & -> & Ha). rewrite length_app in *.
      replace n with (length (q1 ++ a)) by (rewrite length_app; lia).
      rewrite (app_assoc q1 a c), take_app_length, drop_app_length.
      unfold fetch, retired. rewrite length_app, !(proj2 (Z.ltb_ge _ _)) by lia.
      split.
      { rewrite E, (app_assoc (a ++ c) f q1), <- (app_nil_r q1) at 1.
        rewrite mem_read_app by (rewrite ?length_app; lia). cbn [mbind option_bind].
        rewrite E, <- app_assoc, mem_read_app0 by lia. reflexivity. }
      apply view_wf; [constructor; assumption|].
      apply (view_linear _ a c (f ++ q1)); cbn; rewrite ?length_app, ?u15_small; auto; try lia.
      * rewrite E, <- !app_assoc. reflexivity.
      * rewrite Hm. apply negb_involutive.
Qed.

(** ** The operations on the queue *)

Lemma put_eq rb ptr len :
  rb_wf rb -> 0 <= len ->
  rt_ringbuffer_put rb ptr len =
    let space := buffer_size rb - Z.of_nat (length (contents rb)) in
    let n := Z.min len space in
    if space =? 0 then Some (rb, 0)
    else b ← store rb ptr n; Some (advanced rb b n, n).
Proof.
  intros Hwf Hlen. unfold rt_ringbuffer_put. rewrite space_len_u16 by assumption. cbn zeta.
  set (space := buffer_size rb - Z.of_nat (length (contents rb))).
  destruct (space =? 0); [reflexivity|].
  replace (if space <? len then space else len) with (Z.min len space) by (bool_cases; lia).
  unfold store, advanced. destruct (Z.min len space <? buffer_size rb - write_index rb).
  - destruct (mem_read ptr 0 _) as [src|]; [|reflexivity]. cbn [mbind option_bind].
    destruct (mem_write _ _ _); reflexivity.
  - destruct (mem_read ptr 0 _) as [s1|]; [|reflexivity]. cbn [mbind option_bind].
    destruct (mem_write _ _ _) as [b1|]; [|reflexivity]. cbn [mbind option_bind].
    destruct (mem_read ptr _ _) as [s2|]; [|reflexivity]. cbn [mbind option_bind].
    destruct (mem_write _ _ _); reflexivity.
Qed.

Lemma put_fifo rb ptr :
  rb_wf rb ->
  let n := Nat.min (length ptr) (Z.to_nat (buffer_size rb) - length (contents rb)) in
  exists rb', rt_ringbuffer_put rb ptr (Z.of_nat (length ptr)) = Some (rb', Z.of_nat n) /\
    rb_wf rb' /\ buffer_size rb' = buffer_size rb /\ contents rb' = contents rb ++ take n ptr.
Proof.
  intros Hwf n. pose proof (rw_size rb Hwf). pose proof (contents_length rb Hwf) as Hc.
  pose proof (data_len_range rb Hwf) as Hd.
  rewrite put_eq by (assumption || lia). cbn zeta.
  destruct (Z.eqb_spec (buffer_size rb - Z.of_nat (length (contents rb))) 0) as [E|E].
  { exists rb. replace n with 0%nat by lia. rewrite app_nil_r. auto. }
  replace (Z.min (Z.of_nat (length ptr)) (buffer_size rb - Z.of_nat (length (contents rb))))
    with (Z.of_nat (length (take n ptr))) by (rewrite length_take; lia).
  destruct (append_ok rb (take n ptr) (drop n ptr) Hwf) as (b & Es & Hwf' & Hc');
    [rewrite length_take; lia|].
  rewrite take_drop in Es. rewrite Es. cbn [mbind option_bind].
  eexists. split; [f_equal; f_equal; rewrite length_take; lia|]. split_ands; auto.
  unfold advanced. destruct (_ <? _); reflexivity.
Qed.

Lemma get_fifo rb len :
  rb_wf rb -> 0 <= len ->
  let n := Nat.min (Z.to_nat len) (length (contents rb)) in
  exists rb', rt_ringbuffer_get rb len = Some (rb', take n (contents rb)) /\
    rb_wf rb' /\ buffer_size rb' = buffer_size rb /\ contents rb' = drop n (contents rb).
Proof.
  intros Hwf Hlen n. pose proof (rw_size rb Hwf). pose proof (contents_length rb Hwf) as Hc.
  pose proof (data_len_range rb Hwf) as Hd.
  unfold rt_ringbuffer_get. rewrite <- Hc.
  destruct (Z.eqb_spec (Z.of_nat (length (contents rb))) 0) as [E|E].
  { exists rb. replace n with 0%nat by lia. auto. }
  replace (if Z.of_nat (length (contents rb)) <? len then u16 (Z.of_nat (length (contents rb))) else len)
    with (Z.of_nat n) by (rewrite u16_small by lia; bool_cases; lia).
  destruct (remove_ok rb n Hwf ltac:(lia)) as (Ef & Hwf' & Hc').
  exists (retired rb (Z.of_nat n)). split_ands; auto.
  - unfold fetch in Ef. unfold retired.
    destruct (Z.of_nat n <? buffer_size rb - read_index rb).
    + rewrite Ef. reflexivity.
    + destruct (mem_read (buffer_ptr rb) (read_index rb) _) as [d1|]; [|discriminate Ef].
      cbn [mbind option_bind] in *.
      destruct (mem_read (buffer_ptr rb) 0 _) as [d2|]; [|discriminate Ef]. cbn [mbind option_bind] in *.
      injection Ef as ->. reflexivity.
  - unfold retired. destruct (_ <? _); reflexivity.
Qed.

(** One byte is a block of one byte. *)
Lemma buf_set_store b i c : 0 <= i < Z.of_nat (length b) -> buf_set b i c = mem_write b i [c].
Proof.
  intros Hi. rewrite buf_set_Some, mem_write_Some by (cbn [length]; lia). f_equal.
  rewrite insert_take_drop by lia. cbn [length app]. rewrite Nat.add_1_r. reflexivity.
Qed.

Lemma putchar_store rb c : rb_wf rb ->
  exists b, buf_set (buffer_ptr rb) (write_index rb) c = Some b /\ store rb [c] 1 = Some b /\
    advanced rb b 1 =
      (if write_index rb =? buffer_size rb - 1
       then rb <| buffer_ptr := b |> <| write_mirror := negb (write_mirror rb) |> <| write_index := 0 |>
       else rb <| buffer_ptr := b |> <| write_index := u15 (write_index rb + 1) |>).
Proof.
  intros Hwf. pose proof (rw_write rb Hwf). pose proof (rw_buffer rb Hwf). pose proof (rw_size rb Hwf).
  eexists. split; [apply buf_set_Some; lia|].
  assert (E : mem_write (buffer_ptr rb) (write_index rb) [c] =
              Some (<[Z.to_nat (write_index rb) := c]> (buffer_ptr rb)))
    by (rewrite <- buf_set_store by lia; apply buf_set_Some; lia).
  unfold store, advanced. destruct (Z.eqb_spec (write_index rb) (buffer_size rb - 1)) as [Ew|Ew].
  - rewrite !(proj2 (Z.ltb_ge 1 _)) by lia. rewrite Ew.
    replace (buffer_size rb - (buffer_size rb - 1)) with 1 by lia.
    cbn [mem_read]. change (mem_read [c] 0 1) with (Some [c]). cbn [mbind option_bind].
    rewrite <- Ew, E. cbn [mbind option_bind Z.sub Z.opp Z.add Z.pos_sub].
    change (mem_read [c] 1 (1 - 1)) with (Some (@nil Z)). cbn [mbind option_bind].
    split; [|reflexivity]. rewrite mem_write_Some by (cbn [length]; lia). reflexivity.
  - rewrite !(proj2 (Z.ltb_lt 1 _)) by lia. change (mem_read [c] 0 1) with (Some [c]).
    cbn [mbind option_bind]. split; [exact E|reflexivity].
Qed.

Lemma putchar_fifo rb c : rb_wf rb ->
  exists rb', rt_ringbuffer_putchar rb c =
      Some (rb', if Z.of_nat (length (contents rb)) =? buffer_size rb then 0 else 1) /\
    rb_wf rb' /\ buffer_size rb' = buffer_size rb /\
    contents rb' = if Z.of_nat (length (contents rb)) =? buffer_size rb then contents rb
                   else contents rb ++ [c].
Proof.
  intros Hwf. pose proof (contents_length rb Hwf) as Hc. pose proof (data_len_range rb Hwf) as Hd.
  unfold rt_ringbuffer_putchar, rt_ringbuffer_space_len. rewrite <- Hc.
  destruct (Z.eqb_spec (Z.of_nat (length (contents rb))) (buffer_size rb)) as [E|E].
  { rewrite E, Z.sub_diag. cbn. eauto. }
  rewrite (proj2 (Z.eqb_neq _ 0)) by lia.
  destruct (putchar_store rb c Hwf) as (b & Eb & Es & Ea). rewrite Eb. cbn [mbind option_bind].
  destruct (append_ok rb [c] [] Hwf) as (b' & Es' & Hwf' & Hc'); [cbn [length]; lia|].
  change (Z.of_nat (length [c])) with 1 in *. change ([c] ++ []) with [c] in Es'.
  rewrite Es in Es'. injection Es' as <-. rewrite Ea in *.
  eexists. split; [reflexivity|]. split_ands; auto. destruct (_ =? _); reflexivity.
Qed.

Lemma getchar_fifo rb : rb_wf rb ->
  exists rb', rt_ringbuffer_getchar rb = Some (rb', head (contents rb)) /\
    rb_wf rb' /\ buffer_size rb' = buffer_size rb /\ contents rb' = tail (contents rb).
Proof.
  intros Hwf. pose proof (contents_length rb Hwf) as Hc. pose proof (rw_size rb Hwf).
  unfold rt_ringbuffer_getchar. rewrite <- Hc.
  destruct (contents rb) as [|c q] eqn:Eq.
  { cbn. exists rb. rewrite Eq. auto. }
  rewrite (proj2 (Z.eqb_neq _ 0)) by (cbn [length]; lia).
  destruct (remove_ok rb 1 Hwf) as (Ef & Hwf' & Hc'); [rewrite Eq; cbn; lia|].
  rewrite Eq in *. change (Z.of_nat 1) with 1 in *. cbn in Hc'.
  pose proof (rw_read rb Hwf). pose proof (rw_buffer rb Hwf).
  assert (Eb : buf_get (buffer_ptr rb) (read_index rb) = Some c).
  { unfold buf_get. rewrite (proj2 (Z.leb_le 0 _)) by lia.
    assert (Er : mem_read (buffer_ptr rb) (read_index rb) 1 = Some [c]).
    { revert Ef. unfold fetch. destruct (Z.ltb_spec 1 (buffer_size rb - read_index rb)); [auto|].
      replace (buffer_size rb - read_index rb) with 1 by lia.
      rewrite (mem_read_Some _ 0 (1 - 1)) by lia. change (Z.to_nat (1 - 1)) with 0%nat.
      destruct (mem_read _ _ 1) as [d|]; [|discriminate]. cbn [mbind option_bind take].
      rewrite app_nil_r. auto. }
    rewrite mem_read_Some in Er by lia. injection Er as Er.
    change (Z.to_nat 1) with 1%nat in Er.
    assert (L : (drop (Z.to_nat (read_index rb)) (buffer_ptr rb)) !! 0%nat = Some c).
    { destruct (drop (Z.to_nat (read_index rb)) (buffer_ptr rb)); [discriminate Er|].
      injection Er as ->. reflexivity. }
    rewrite lookup_drop, Nat.add_0_r in L. exact L. }
  rewrite Eb. cbn [mbind option_bind]. eexists. split; [reflexivity|].
  assert (Ea : (if read_index rb =? buffer_size rb - 1
          then rb <| read_mirror := negb (read_mirror rb) |> <| read_index := 0 |>
          else rb <| read_index := u15 (read_index rb + 1) |>) = retired rb 1).
  { unfold retired. destruct (Z.eqb_spec (read_index rb) (buffer_size rb - 1)) as [E|E].
    - rewrite (proj2 (Z.ltb_ge 1 _)) by lia. rewrite E.
      replace (1 - (buffer_size rb - (buffer_size rb - 1))) with 0 by lia. reflexivity.
    - rewrite (proj2 (Z.ltb_lt 1 _)) by lia. reflexivity. }
  rewrite Ea. split_ands; auto. unfold retired. destruct (_ <? _); reflexivity.
Qed.

(** The last [n] elements of a list. *)
Definition last_n (n : nat) (l : list Z) : list Z := drop (length l - n) l.

(** Storing more than the free space when the writer is one lap ahead. *)
Lemma overflow_wrapped rb d :
  rb_wf rb -> read_mirror rb <> write_mirror rb ->
  buffer_size rb < Z.of_nat (length (contents rb) + length d) ->
  Z.of_nat (length d) <= buffer_size rb ->
  exists b, store rb d (Z.of_nat (length d)) = Some b /\
    let rb' := advanced rb b (Z.of_nat (length d)) in
    let rb'' := rb' <| read_mirror := negb (write_mirror rb') |> <| read_index := write_index rb' |> in
    rb_wf rb'' /\
    contents rb'' = last_n (Z.to_nat (buffer_size rb)) (contents rb ++ d).
Proof.
  intros Hwf Hmir Hov Hfit. pose proof (wf_view rb Hwf) as Hv.
  pose proof (rb_wf_sized rb Hwf) as [Hs Hb].
  revert Hv Hov. generalize (contents rb). intros q0 Hv Hov.
  destruct Hv as [x q y E Hr Hw Hm Hy|q1 f q2 E Hw Hr Hm Hq1]; [contradiction|].
  pose proof Hb as Hb'. rewrite E, !length_app in Hb'. rewrite length_app in Hov.
  destruct (Nat.lt_ge_cases (length d) (length f + length q1)) as [Hlt|Hge].
  - destruct (split_list q1 (length d - length f) ltac:(lia)) as (m & c & -> & Hm').
    rewrite length_app in *. exists (q2 ++ d ++ c). split.
    + rewrite <- (app_nil_r d) at 1. apply (store_linear q2 (f ++ m) c); rewrite ?length_app; auto; try lia.
      rewrite E, <- !app_assoc. reflexivity.
    + cbv zeta. unfold advanced. rewrite (proj2 (Z.ltb_lt _ _)) by lia. apply view_wf.
      * constructor; cbn; rewrite ?length_app; lia.
      * replace (last_n _ _) with (c ++ q2 ++ d).
        2:{ unfold last_n. rewrite !length_app, <- !app_assoc.
            replace (length m + length c + length q2 + length d - _)%nat with (length m) by lia.
            rewrite drop_app_length. reflexivity. }
        apply (view_wrapped _ c [] (q2 ++ d)); cbn; rewrite ?length_app, ?u15_small; auto; try lia.
        rewrite <- app_assoc. reflexivity.
  - destruct (split_list d (length f + length q1) ltac:(lia)) as (d1 & d2 & -> & Hd1).
    rewrite length_app in *.
    destruct (split_list q2 (length d2) ltac:(lia)) as (m & c & -> & Hm').
    rewrite length_app in *. rewrite <- length_app. exists (d2 ++ c ++ d1). split.
    + rewrite <- (app_nil_r (d1 ++ d2)) at 1.
      apply (store_wrap m c (f ++ q1)); rewrite ?length_app; auto; try lia.
      rewrite E, <- !app_assoc. reflexivity.
    + cbv zeta. unfold advanced. rewrite length_app, (proj2 (Z.ltb_ge _ _)) by lia. apply view_wf.
      * constructor; cbn; rewrite ?length_app; lia.
      * replace (last_n _ _) with ((c ++ d1) ++ d2).
        2:{ unfold last_n. rewrite !length_app, <- !app_assoc, (app_assoc q1 m).
            replace (_ - _)%nat with (length (q1 ++ m)) by (rewrite length_app; lia).
            rewrite drop_app_length. reflexivity. }
        apply (view_wrapped _ (c ++ d1) [] d2); cbn; rewrite ?length_app, ?u15_small; auto; lia.
Qed.

(** [put_force] in terms of [store] and [advanced]. *)
Lemma put_force_eq rb ptr len :
  let n := Z.min len (buffer_size rb) in
  let d := if buffer_size rb <? len then drop (Z.to_nat (len - buffer_size rb)) ptr else ptr in
  rt_ringbuffer_put_force rb ptr len =
    b ← store rb d n;
    let rb' := advanced rb b n in
    Some (if u16 (rt_ringbuffer_space_len rb) <? n
          then rb' <| read_mirror := (if n <? buffer_size rb - write_index rb
                                      then read_mirror rb else negb (read_mirror rb)) |>
                   <| read_index := write_index rb' |>
          else rb', n).
Proof.
  intros n d. unfold rt_ringbuffer_put_force.
  replace (if buffer_size rb <? len then (drop (Z.to_nat (len - buffer_size rb)) ptr, buffer_size rb)
           else (ptr, len)) with (d, n) by (subst n d; bool_cases; f_equal; lia).
  unfold store, advanced. destruct (n <? buffer_size rb - write_index rb).
  - destruct (mem_read d 0 _) as [src|]; [|reflexivity]. cbn [mbind option_bind].
    destruct (mem_write _ _ _); [|reflexivity]. cbn [mbind option_bind].
    destruct (_ <? _); reflexivity.
  - destruct (mem_read d 0 _) as [s1|]; [|reflexivity]. cbn [mbind option_bind].
    destruct (mem_write _ _ _) as [b1|]; [|reflexivity]. cbn [mbind option_bind].
    destruct (mem_read d _ _) as [s2|]; [|reflexivity]. cbn [mbind option_bind].
    destruct (mem_write _ _ _); reflexivity.
Qed.

(** When the writer is in the reader's lap, more than the free space reaches the
    end of the array; the copy itself stays within it. *)
Lemma store_overflow_linear rb d :
  rb_wf rb -> read_mirror rb = write_mirror rb ->
  buffer_size rb < Z.of_nat (length (contents rb) + length d) ->
  Z.of_nat (length d) <= buffer_size rb ->
  buffer_size rb - write_index rb <= Z.of_nat (length d) /\
  exists b, store rb d (Z.of_nat (length d)) = Some b /\ length b = length (buffer_ptr rb).
Proof.
  intros Hwf Hmir Hov Hfit. destruct (rb_wf_sized rb Hwf) as [Hs Hb].
  pose proof (contents_length rb Hwf) as Hc. pose proof (rw_order rb Hwf) as Ho.
  pose proof (rw_write rb Hwf) as Hw.
  unfold rt_ringbuffer_data_len, rt_ringbuffer_status in Hc. rewrite Hmir, Bool.eqb_reflx in Hc, Ho.
  pose proof (rw_read rb Hwf) as Hr.
  assert (Hge : buffer_size rb - write_index rb <= Z.of_nat (length d)) by (bool_cases; lia).
  split; [exact Hge|].
  destruct (split_list d (Z.to_nat (buffer_size rb - write_index rb)) ltac:(lia)) as (d1 & d2 & -> & Hd1).
  rewrite length_app in *.
  destruct (split_list (buffer_ptr rb) (length d2) ltac:(lia)) as (m & c & E & Hm).
  pose proof Hb as Hb'. rewrite E, length_app in Hb'.
  destruct (split_list c (Z.to_nat (write_index rb) - length d2) ltac:(lia)) as (x2 & y & -> & Hx2).
  rewrite length_app in *.
  exists (d2 ++ x2 ++ d1). rewrite <- length_app, <- (app_nil_r (d1 ++ d2)) at 1. split.
  - apply (store_wrap m x2 y); auto; lia.
  - rewrite E, !length_app. lia.
Qed.

Definition overtakes (rb : RB) (ptr : list Z) : bool :=
  Bool.eqb (read_mirror rb) (write_mirror rb) &&
  (buffer_size rb <? Z.of_nat (length (contents rb)) + Z.min (Z.of_nat (length ptr)) (buffer_size rb)).

Lemma last_n_last_n n k (q l : list Z) :
  (k <= n)%nat -> k = Nat.min n (length l) -> last_n n (q ++ last_n k l) = last_n n (q ++ l).
Proof.
  intros Hkn ->. unfold last_n. rewrite !length_app, !length_drop.
  destruct (Nat.le_gt_cases (length l) n) as [H|H].
  - rewrite (Nat.min_r n) by lia. rewrite Nat.sub_diag. cbn [drop].
    replace (length l - 0)%nat with (length l) by lia. reflexivity.
  - rewrite (Nat.min_l n) by lia. rewrite !drop_app.
    rewrite !(drop_ge q) by lia. cbn [app]. rewrite drop_drop. f_equal. lia.
Qed.

Lemma put_force_fifo rb ptr :
  rb_wf rb ->
  exists rb', rt_ringbuffer_put_force rb ptr (Z.of_nat (length ptr)) =
      Some (rb', Z.min (Z.of_nat (length ptr)) (buffer_size rb)) /\
    rb_wf rb' /\ buffer_size rb' = buffer_size rb /\
    contents rb' = if overtakes rb ptr then []
                   else last_n (Z.to_nat (buffer_size rb)) (contents rb ++ ptr).
Proof.
  intros Hwf. destruct (rb_wf_sized rb Hwf) as [Hs Hb].
  pose proof (contents_length rb Hwf) as Hc. pose proof (data_len_range rb Hwf) as Hd.
  rewrite put_force_eq, space_len_u16 by assumption. cbv zeta.
  set (n := Z.min (Z.of_nat (length ptr)) (buffer_size rb)).
  set (k := Nat.min (Z.to_nat (buffer_size rb)) (length ptr)).
  assert (En : n = Z.of_nat k) by lia.
  replace (if buffer_size rb <? Z.of_nat (length ptr)
           then drop (Z.to_nat (Z.of_nat (length ptr) - buffer_size rb)) ptr else ptr)
    with (last_n k ptr).
  2:{ unfold last_n. destruct (Z.ltb_spec (buffer_size rb) (Z.of_nat (length ptr))).
      - f_equal. lia.
      - replace (length ptr - k)%nat with 0%nat by lia. reflexivity. }
  set (d := last_n k ptr).
  assert (Hld : length d = k) by (subst d; unfold last_n; rewrite length_drop; lia).
  assert (Elast : last_n (Z.to_nat (buffer_size rb)) (contents rb ++ d) =
                  last_n (Z.to_nat (buffer_size rb)) (contents rb ++ ptr))
    by (apply last_n_last_n; lia).
  unfold overtakes. fold n. rewrite En, <- Elast, <- Hld.
  destruct (Z.ltb_spec (buffer_size rb - Z.of_nat (length (contents rb))) (Z.of_nat (length d))) as [Hov|Hfit].
  - rewrite (proj2 (Z.ltb_lt _ (Z.of_nat (length (contents rb)) + Z.of_nat (length d)))) by lia.
    rewrite andb_true_r.
    destruct (Bool.eqb (read_mirror rb) (write_mirror rb)) eqn:Em.
    + apply Bool.eqb_prop in Em.
      destruct (store_overflow_linear rb d Hwf Em ltac:(lia) ltac:(lia)) as (Hge & b & Es & Hlb).
      rewrite Es. cbn [mbind option_bind]. eexists. split; [reflexivity|].
      unfold advanced. rewrite !(proj2 (Z.ltb_ge _ _)) by lia. cbn.
      pose proof (rw_write rb Hwf). pose proof (rw_size rb Hwf).
      rewrite (u15_small (Z.of_nat (length d) - _)) by lia.
      split; [constructor; cbn; rewrite ?Em, ?Bool.eqb_reflx; lia|]. split; [reflexivity|].
      unfold contents. cbn. rewrite Em, Bool.eqb_reflx, Nat.sub_diag. reflexivity.
    + assert (Hne : read_mirror rb <> write_mirror rb)
        by (intros E; rewrite E, Bool.eqb_reflx in Em; discriminate).
      destruct (overflow_wrapped rb d Hwf Hne ltac:(lia) ltac:(lia)) as (b & Es & H). cbv zeta in H.
      rewrite Es. cbn [mbind option_bind]. eexists. split; [reflexivity|].
      assert (Emir : (if Z.of_nat (length d) <? buffer_size rb - write_index rb
                      then read_mirror rb else negb (read_mirror rb)) =
                     negb (write_mirror (advanced rb b (Z.of_nat (length d))))).
      { revert Hne. clear. unfold advanced. destruct (_ <? _); cbn; destruct (read_mirror rb), (write_mirror rb); intros; congruence || reflexivity. }
      rewrite Emir. split; [apply H|]. split; [|apply H].
      unfold advanced. destruct (_ <? _); reflexivity.
  - rewrite (proj2 (Z.ltb_ge _ (Z.of_nat (length (contents rb)) + Z.of_nat (length d)))) by lia.
    rewrite andb_false_r.
    destruct (append_ok rb d [] Hwf ltac:(lia)) as (b & Es & Hwf' & Hc'). rewrite app_nil_r in Es.
    rewrite Es. cbn [mbind option_bind]. eexists. split; [reflexivity|]. split; [exact Hwf'|].
    split; [unfold advanced; destruct (_ <? _); reflexivity|].
    rewrite Hc'. unfold last_n. rewrite length_app.
    replace (_ - _)%nat with 0%nat by lia. reflexivity.
Qed.

(** A full buffer: [putchar_force] overwrites the oldest byte. *)
Lemma overwrite_full rb c :
  rb_wf rb -> rt_ringbuffer_status rb = RT_RINGBUFFER_FULL ->
  exists b, buf_set (buffer_ptr rb) (write_index rb) c = Some b /\
    let rb' := if write_index rb =? buffer_size rb - 1
      then rb <| buffer_ptr := b |> <| write_mirror := negb (write_mirror rb) |> <| write_index := 0 |>
              <| read_mirror := negb (read_mirror rb) |> <| read_index := 0 |>
      else rb <| buffer_ptr := b |> <| write_index := u15 (write_index rb + 1) |>
              <| read_index := u15 (write_index rb + 1) |> in
    rb_wf rb' /\ buffer_size rb' = buffer_size rb /\ contents rb' = tail (contents rb) ++ [c].
Proof.
  intros Hwf Hst. pose proof (wf_view rb Hwf) as Hv. destruct (rb_wf_sized rb Hwf) as [Hs Hb].
  revert Hst. unfold rt_ringbuffer_status. destruct (Z.eqb_spec (read_index rb) (write_index rb)) as [Ei|]; [|discriminate].
  destruct (Bool.eqb _ _) eqn:Em; [discriminate|]. intros _.
  revert Hv. generalize (contents rb). intros q0 [x q y E Hr Hw Hm Hy|q1 f q2 E Hw Hr Hm Hq1].
  { rewrite Hm, Bool.eqb_reflx in Em. discriminate. }
  destruct f; [|cbn [length] in Hr; lia]. destruct q1 as [|a q1]; [cbn in Hq1; lia|].
  rewrite E, !length_app in Hb. cbn [length app] in *. eexists. split; [apply buf_set_Some; rewrite E, length_app; cbn; lia|].
  assert (Eb : <[Z.to_nat (write_index rb) := c]> (buffer_ptr rb) = q2 ++ c :: q1).
  { rewrite E, Hw, Nat2Z.id. rewrite insert_app_r_alt, Nat.sub_diag by lia. reflexivity. }
  rewrite Eb. destruct (Z.eqb_spec (write_index rb) (buffer_size rb - 1)) as [El|El]; cbv zeta;
    (split; [|split; [reflexivity|]]).
  1,2: assert (q1 = []) as -> by (destruct q1; [reflexivity|cbn [length] in *; lia]).
  1,2: destruct (view_wf (rb <| buffer_ptr := q2 ++ [c] |> <| write_mirror := negb (write_mirror rb) |>
              <| write_index := 0 |> <| read_mirror := negb (read_mirror rb) |> <| read_index := 0 |>)
              ((q2 ++ [c]) ++ [])) as [W C].
  1,4: constructor; cbn; rewrite ?length_app; cbn; lia.
  1,3: apply (view_wrapped _ (q2 ++ [c]) [] []); cbn; rewrite ?length_app; cbn; rewrite ?Hm; auto; lia.
  1: exact W.
  1: rewrite C, app_nil_r; reflexivity.
  all: destruct (view_wf (rb <| buffer_ptr := q2 ++ c :: q1 |> <| write_index := u15 (write_index rb + 1) |>
              <| read_index := u15 (write_index rb + 1) |>) (q1 ++ q2 ++ [c])) as [W C];
    [constructor; cbn; rewrite ?length_app; cbn; lia
    |apply (view_wrapped _ q1 [] (q2 ++ [c])); cbn; rewrite ?length_app, ?u15_small by (cbn; lia); auto;
       try (rewrite <- app_assoc; reflexivity); cbn [length]; lia
    |first [exact W|rewrite C, app_assoc; reflexivity]].
Qed.

Lemma putchar_force_fifo rb c : rb_wf rb ->
  exists rb', rt_ringbuffer_putchar_force rb c = Some (rb', 1) /\
    rb_wf rb' /\ buffer_size rb' = buffer_size rb /\
    contents rb' = if Z.of_nat (length (contents rb)) =? buffer_size rb then tail (contents rb) ++ [c]
                   else contents rb ++ [c].
Proof.
  intros Hwf. pose proof (contents_length rb Hwf) as Hc. pose proof (data_len_range rb Hwf) as Hd.
  pose proof (rw_read rb Hwf). pose proof (rw_write rb Hwf).
  unfold rt_ringbuffer_putchar_force. destruct (rt_ringbuffer_status rb) eqn:Est.
  2:{ destruct (overwrite_full rb c Hwf Est) as (b & Eb & W & S & C). rewrite Eb. cbn [mbind option_bind].
      unfold rt_ringbuffer_data_len in Hc. rewrite Est in Hc. rewrite (proj2 (Z.eqb_eq _ _) Hc).
      cbn zeta. change (write_index (rb <| buffer_ptr := b |>)) with (write_index rb).
      change (buffer_size (rb <| buffer_ptr := b |>)) with (buffer_size rb).
      destruct (Z.eqb_spec (write_index rb) (buffer_size rb - 1)); cbv zeta in *;
        (eexists; split; [reflexivity|split; [exact W|split; [exact S|exact C]]]). }
  all: assert (Hlt : Z.of_nat (length (contents rb)) < buffer_size rb)
    by (pose proof (rw_size rb Hwf); pose proof (rw_order rb Hwf) as Ho; rewrite Hc;
        unfold rt_ringbuffer_data_len; rewrite Est;
        revert Est; unfold rt_ringbuffer_status; destruct (Z.eqb_spec (read_index rb) (write_index rb));
        destruct (Bool.eqb _ _); intros; try discriminate; bool_cases; lia);
    rewrite (proj2 (Z.eqb_neq _ _)) by lia;
    destruct (putchar_store rb c Hwf) as (b & Eb & Es & Ea); rewrite Eb; cbn [mbind option_bind];
    destruct (append_ok rb [c] [] Hwf) as (b' & Es' & Hwf' & Hc'); [cbn [length]; lia|];
    change (Z.of_nat (length [c])) with 1 in *; change ([c] ++ []) with [c] in Es';
    rewrite Es in Es'; injection Es' as <-; rewrite Ea in *;
    cbn zeta; change (write_index (rb <| buffer_ptr := b |>)) with (write_index rb);
    change (buffer_size (rb <| buffer_ptr := b |>)) with (buffer_size rb);
    destruct (Z.eqb_spec (write_index rb) (buffer_size rb - 1)); eexists; (split; [reflexivity|]); auto.
Qed.

Lemma init_wf pool size :
  4 <= size <= 32767 -> Z.of_nat (length pool) = RT_ALIGN_DOWN size RT_ALIGN_SIZE ->
  rb_wf (rt_ringbuffer_init pool size) /\ contents (rt_ringbuffer_init pool size) = [].
Proof.
  intros Hs Hp. pose proof (RT_ALIGN_DOWN_4 size ltac:(lia)) as E.
  pose proof (Z.mod_pos_bound size 4 ltac:(lia)).
  assert (size mod 4 <> size) by (intros Em; rewrite <- Em in Hs; lia).
  split; [|reflexivity]. constructor; cbn [rt_ringbuffer_init buffer_size buffer_ptr read_index write_index
    read_mirror write_mirror Bool.eqb]; lia.
Qed.

Lemma reset_fifo rb : rb_wf rb ->
  rb_wf (rt_ringbuffer_reset rb) /\ buffer_size (rt_ringbuffer_reset rb) = buffer_size rb /\
  contents (rt_ringbuffer_reset rb) = [].
Proof.
  intros [Hs Hb Hr Hw Ho]. split_ands; [|reflexivity|reflexivity]. constructor; cbn; lia.
Qed.

(** ** Refinement of a bounded FIFO queue *)

Inductive rb_op :=
  Put (ptr : list Z) | Get (length_ : nat) | PutChar (ch : Z) | GetChar | PutCharForce (ch : Z) | PutForce (ptr : list Z) | Reset.
Inductive rb_out := Count (n : Z) | Data (d : list Z) | Byte (c : option Z) | Nothing.

(** The drivers' code. *)
Definition rb_step (rb : RB) (op : rb_op) : option (RB * rb_out) :=
  match op with
  | Put ptr => '(rb, n) ← rt_ringbuffer_put rb ptr (Z.of_nat (length ptr)); Some (rb, Count n)
  | Get n => '(rb, d) ← rt_ringbuffer_get rb (Z.of_nat n); Some (rb, Data d)
  | PutChar c => '(rb, n) ← rt_ringbuffer_putchar rb c; Some (rb, Count n)
  | GetChar => '(rb, c) ← rt_ringbuffer_getchar rb; Some (rb, Byte c)
  | PutCharForce c => '(rb, n) ← rt_ringbuffer_putchar_force rb c; Some (rb, Count n)
  | PutForce ptr => '(rb, n) ← rt_ringbuffer_put_force rb ptr (Z.of_nat (length ptr)); Some (rb, Count n)
  | Reset => Some (rt_ringbuffer_reset rb, Nothing)
  end.

(** The specification: a queue of at most [cap] bytes.  [lost] says that a block overwrite lost everything. *)
Definition queue_step (cap : Z) (lost : bool) (q : list Z) (op : rb_op) : list Z * rb_out :=
  let room := (Z.to_nat cap - length q)%nat in
  let full := Z.of_nat (length q) =? cap in
  match op with
  | Put ptr => (q ++ take room ptr, Count (Z.of_nat (Nat.min (length ptr) room)))
  | Get n => (drop n q, Data (take n q))
  | PutChar c => if full then (q, Count 0) else (q ++ [c], Count 1)
  | GetChar => (tail q, Byte (head q))
  | PutCharForce c => ((if full then tail q else q) ++ [c], Count 1)
  | PutForce ptr => (if lost then [] else last_n (Z.to_nat cap) (q ++ ptr), Count (Z.min (Z.of_nat (length ptr)) cap))
  | Reset => ([], Nothing)
  end.

Fixpoint rb_run (rb : RB) (ops : list rb_op) : option (RB * list rb_out) :=
  match ops with
  | [] => Some (rb, [])
  | op :: ops =>
      '(rb, o) ← rb_step rb op;
      '(rb, os) ← rb_run rb ops;
      Some (rb, o :: os)
  end.
Fixpoint queue_run (cap : Z) (q : list Z) (ops : list rb_op) (losses : list bool) : list Z * list rb_out :=
  match ops, losses with
  | op :: ops, lost :: losses =>
      let '(q, o) := queue_step cap lost q op in
      let '(q, os) := queue_run cap q ops losses in
      (q, o :: os)
  | _, _ => (q, [])
  end.

(** Which operations of a run lose everything: the block overwrites that overtake the reader. *)
Definition loses (rb : RB) (op : rb_op) : bool := match op with PutForce ptr => overtakes rb ptr | _ => false end.
Fixpoint losses (rb : RB) (ops : list rb_op) : list bool :=
  match ops with
  | [] => []
  | op :: ops => loses rb op :: match rb_step rb op with Some (rb, _) => losses rb ops | None => [] end
  end.

Lemma rb_step_refines rb op : rb_wf rb ->
  exists rb' o, rb_step rb op = Some (rb', o) /\ rb_wf rb' /\ buffer_size rb' = buffer_size rb /\
    queue_step (buffer_size rb) (loses rb op) (contents rb) op = (contents rb', o).
Proof.
  intros Hwf. destruct op as [ptr|n|c| |c|ptr|]; unfold rb_step, queue_step, loses.
  - destruct (put_fifo rb ptr Hwf) as (rb' & -> & W & S & C). cbn [mbind option_bind].
    eexists _, _. split; [reflexivity|]. split_ands; auto. rewrite C. f_equal. f_equal.
    destruct (Nat.min_spec (length ptr) (Z.to_nat (buffer_size rb) - length (contents rb))) as [[H ->]|[H ->]];
      [rewrite !take_ge by lia|]; reflexivity.
  - destruct (get_fifo rb (Z.of_nat n) Hwf ltac:(lia)) as (rb' & -> & W & S & C). cbn [mbind option_bind].
    eexists _, _. split; [reflexivity|]. split_ands; auto. rewrite C. rewrite Nat2Z.id.
    destruct (Nat.min_spec n (length (contents rb))) as [[H ->]|[H ->]]; [reflexivity|].
    rewrite !take_ge, !drop_ge by lia. reflexivity.
  - destruct (putchar_fifo rb c Hwf) as (rb' & -> & W & S & C). cbn [mbind option_bind].
    eexists _, _. split; [reflexivity|]. split_ands; auto. rewrite C. destruct (_ =? _); reflexivity.
  - destruct (getchar_fifo rb Hwf) as (rb' & -> & W & S & C). cbn [mbind option_bind].
    eexists _, _. split; [reflexivity|]. rewrite C. auto.
  - destruct (putchar_force_fifo rb c Hwf) as (rb' & -> & W & S & C). cbn [mbind option_bind].
    eexists _, _. split; [reflexivity|]. split_ands; auto. rewrite C. destruct (_ =? _); reflexivity.
  - destruct (put_force_fifo rb ptr Hwf) as (rb' & -> & W & S & C). cbn [mbind option_bind].
    eexists _, _. split; [reflexivity|]. rewrite C. auto.
  - destruct (reset_fifo rb Hwf) as (W & S & C). eexists _, _. split; [reflexivity|].
    rewrite C. auto.
Qed.

Lemma rb_run_refines rb ops : rb_wf rb ->
  exists rb' os, rb_run rb ops = Some (rb', os) /\ rb_wf rb' /\
    queue_run (buffer_size rb) (contents rb) ops (losses rb ops) = (contents rb', os).
Proof.
  revert rb. induction ops as [|op ops IH]; intros rb Hwf; cbn [rb_run queue_run losses].
  { eexists _, _. split; [reflexivity|auto]. }
  destruct (rb_step_refines rb op Hwf) as (rb1 & o & E1 & W1 & S1 & ->). rewrite E1. cbn [mbind option_bind].
  destruct (IH rb1 W1) as (rb2 & os & -> & W2 & Eq). rewrite S1 in Eq. rewrite Eq. cbn [mbind option_bind].
  eexists _, _. split; [reflexivity|auto].
Qed.

(** ** Properties *)

(** C22: a ring buffer initialised on a pool of at least four bytes refines a
    bounded FIFO queue: any sequence of its operations (the two overwrites and the
    reset included) runs without leaving the pool, returns exactly what the queue
    of capacity [RT_ALIGN_DOWN size 4] returns, and keeps the queue's bytes, oldest
    first, across every wrap of the two indices.  An overwrite keeps the newest
    bytes, with one exception: a block overwrite that overtakes the reader - the
    block exceeds the free space while both mirror bits are equal - loses all old
    and new bytes ([losses] marks exactly these operations of the run). *)
Theorem ringbuffer_refines_queue pool size ops :
  4 <= size <= 32767 -> Z.of_nat (length pool) = RT_ALIGN_DOWN size RT_ALIGN_SIZE ->
  let start := rt_ringbuffer_init pool size in
  exists rb os, rb_run start ops = Some (rb, os) /\
    queue_run (RT_ALIGN_DOWN size RT_ALIGN_SIZE) [] ops (losses start ops) = (contents rb, os) /\
    rt_ringbuffer_data_len rb = Z.of_nat (length (contents rb)).
Proof.
  intros Hs Hp. destruct (init_wf pool size Hs Hp) as [W C].
  destruct (rb_run_refines _ ops W) as (rb & os & E & W' & Q). rewrite C in Q.
  exists rb, os. split_ands; auto. symmetry. apply contents_length. exact W'.
Qed.

(** The first block overwrite overtakes the reader, the second one keeps the newest four bytes. *)
Definition overwrites : list rb_op :=
  [Put [1]; PutForce [2; 3; 4; 5]; Get 9; Put [1; 2; 3; 4; 5]; PutCharForce 6; GetChar; PutForce [7; 8]].

Lemma ringbuffer_refines_queue_witness :
  exists rb, rb_run (rt_ringbuffer_init [0; 0; 0; 0] 6) overwrites
    = Some (rb, [Count 1; Count 4; Data []; Count 4; Count 1; Byte (Some 2); Count 2]) /\ contents rb = [4; 6; 7; 8].
Proof.
  destruct (ringbuffer_refines_queue [0; 0; 0; 0] 6 overwrites) as (rb & os & E & Q & _); [lia|reflexivity|].
  assert (Eq : queue_run (RT_ALIGN_DOWN 6 RT_ALIGN_SIZE) [] overwrites (losses (rt_ringbuffer_init [0; 0; 0; 0] 6) overwrites) =
    ([4; 6; 7; 8], [Count 1; Count 4; Data []; Count 4; Count 1; Byte (Some 2); Count 2])) by (vm_compute; reflexivity).
  rewrite Q in Eq. injection Eq as Ec Eo. exists rb. rewrite <- Eo. auto.
Defined.

(** The block overwrite stores the last [size] bytes of the old and the new
    data, as its comment says - except when the writer has not lapped the reader
    ([overtakes]: equal mirrors) and the data exceeds the free space: then both
    mirrors are flipped and the buffer ends up empty, losing old and new data. *)
Theorem put_force_result rb ptr :
  rb_wf rb ->
  exists rb', rt_ringbuffer_put_force rb ptr (Z.of_nat (length ptr)) =
      Some (rb', Z.min (Z.of_nat (length ptr)) (buffer_size rb)) /\
    rb_wf rb' /\
    contents rb' = if overtakes rb ptr then []
                   else last_n (Z.to_nat (buffer_size rb)) (contents rb ++ ptr).
Proof.
  intros Hwf. destruct (put_force_fifo rb ptr Hwf) as (rb' & E & W & _ & C). exists rb'. auto.
Qed.

(** The four-byte buffer holding 1, 2, in which the five bytes 3..7 are forced. *)
Definition forced : RB := mkRB [1; 2; 0; 0] false 0 false 2 4.

Lemma put_force_result_witness :
  exists rb', rt_ringbuffer_put_force forced [3; 4; 5; 6; 7] 5 = Some (rb', 4) /\ contents rb' = [].
Proof.
  destruct (put_force_result forced [3; 4; 5; 6; 7]) as (rb' & E & _ & C).
  - constructor; cbn; lia.
  - exists rb'. split; [exact E|exact C].
Defined.
