(* ===== verification/Kernel.v ===== *)
(** The state of the RT-Thread kernel that its parts share: thread control
    blocks, timers, the lists threads and timers are linked into, the scheduler's
    variables and the tick (src/rt-thread/include/rtdef.h, src/rt-thread/src/).

    A thread or timer is named by a number standing for the address of its
    control block.  A thread's node [tlist] is in at most one list, so a list is
    the sequence of the threads linked into it and unlinking a thread removes it
    from whatever list holds it; that a thread is never linked twice is part of
    the invariant proved in Scheduler.v. *)

From S2P Require Import Prelude.

(** ** Constants (rtdef.h) *)

Definition RT_THREAD_INIT : Z := 0.
Definition RT_THREAD_READY : Z := 1.
Definition RT_THREAD_SUSPEND : Z := 2.
Definition RT_THREAD_RUNNING : Z := 3.
Definition RT_THREAD_CLOSE : Z := 4.
Definition RT_THREAD_STAT_MASK : Z := 7.
Definition RT_THREAD_STAT_YIELD : Z := 8.
Definition RT_THREAD_PRIORITY_MAX : Z := 32.

Definition RT_TIMER_FLAG_ACTIVATED : Z := 1.
Definition RT_TIMER_FLAG_PERIODIC : Z := 2.
Definition RT_TIMER_FLAG_SOFT_TIMER : Z := 4.

(** ** Control blocks *)

Record Thread := mkThread {
  stat : Z;                  (* rt_uint8_t *)
  current_priority : Z;      (* rt_uint8_t *)
  init_priority : Z;         (* rt_uint8_t *)
  number_mask : Z;           (* rt_uint32_t *)
  init_tick : Z;             (* rt_ubase_t *)
  remaining_tick : Z;        (* rt_ubase_t *)
  error : Z;                 (* rt_err_t *)
  event_set : Z;             (* rt_uint32_t *)
  event_info : Z;            (* rt_uint8_t *)
  cleanup : bool;            (* a cleanup function is registered *)
  systemobject : bool;       (* a static object, not allocated on the heap *)
}.
#[export] Instance Thread_rebuild : Rebuild Thread := fun t =>
  mkThread (stat t) (current_priority t) (init_priority t) (number_mask t) (init_tick t)
    (remaining_tick t) (error t) (event_set t) (event_info t) (cleanup t) (systemobject t).

Inductive timer_id := ThreadTimer (t : nat) | UserTimer (n : nat).
#[export] Instance timer_id_eq_dec : EqDecision timer_id.
Proof. solve_decision. Defined.

(** The timeout functions: [rt_thread_timeout] on a thread, or one of the application's. *)
Inductive timeout_fn := rt_thread_timeout_fn (t : nat) | user_timeout_fn (n : nat).

Record Timer := mkTimer {
  flag : Z;                  (* rt_uint8_t *)
  timeout_func : timeout_fn; (* with its parameter *)
  tm_init_tick : Z;          (* rt_tick_t *)
  timeout_tick : Z;          (* rt_tick_t *)
}.
#[export] Instance Timer_rebuild : Rebuild Timer := fun t =>
  mkTimer (flag t) (timeout_func t) (tm_init_tick t) (timeout_tick t).

(** ** Lists *)

(** The list heads a thread can be linked to: the ready lists, the defunct list
    and the wait lists of the IPC objects. *)
Inductive list_head :=
  | Ready (prio : Z) | Defunct
  | SemWait (s : nat) | MutexWait (m : nat) | EventWait (e : nat)
  | MbRecvWait (mb : nat) | MbSendWait (mb : nat)
  | MqRecvWait (mq : nat) | MqSendWait (mq : nat)
  | MpWait (mp : nat).
#[export] Instance list_head_eq_dec : EqDecision list_head.
Proof. solve_decision. Defined.

Definition is_wait (l : list_head) : bool :=
  match l with Ready _ | Defunct => false | _ => true end.

Record Kernel := mkKernel {
  rt_tick : Z;                          (* rt_tick_t *)
  threads : nat -> Thread;
  timers : timer_id -> Timer;
  rt_timer_list : list timer_id;
  rt_soft_timer_list : list timer_id;
  lists : list_head -> list nat;
  rt_thread_ready_priority_group : Z;   (* rt_uint32_t *)
  rt_current_thread : option nat;
  rt_current_priority : Z;              (* rt_uint8_t *)
  rt_scheduler_lock_nest : Z;           (* rt_int16_t *)
  rt_interrupt_nest : Z;                (* rt_uint8_t *)
  timer_thread : nat;
}.
#[export] Instance Kernel_rebuild : Rebuild Kernel := fun k =>
  mkKernel (rt_tick k) (threads k) (timers k) (rt_timer_list k) (rt_soft_timer_list k) (lists k)
    (rt_thread_ready_priority_group k) (rt_current_thread k) (rt_current_priority k)
    (rt_scheduler_lock_nest k) (rt_interrupt_nest k) (timer_thread k).

(** ** Updating one entry of a table *)

Definition upd {A B} `{EqDecision A} (f : A -> B) (x : A) (v : B) : A -> B :=
  fun y => if decide (y = x) then v else f y.

Lemma upd_same {A B} `{EqDecision A} (f : A -> B) x v : upd f x v x = v.
Proof. unfold upd. destruct (decide _); congruence. Qed.
Lemma upd_other {A B} `{EqDecision A} (f : A -> B) x v y : y <> x -> upd f x v y = f y.
Proof. intros. unfold upd. destruct (decide _); congruence. Qed.

Definition set_thread (k : Kernel) (t : nat) (f : Thread -> Thread) : Kernel :=
  k <| threads := upd (threads k) t (f (threads k t)) |>.
Definition set_timer (k : Kernel) (x : timer_id) (f : Timer -> Timer) : Kernel :=
  k <| timers := upd (timers k) x (f (timers k x)) |>.

(** [rt_list_remove(&thread->tlist)], [rt_list_insert_before(&head, ..)] (at the
    end) and [rt_list_insert_after(&head, ..)] (at the front). *)
Definition tlist_remove (k : Kernel) (t : nat) : Kernel :=
  k <| lists := fun l => filter (fun u => u <> t) (lists k l) |>.
Definition tlist_insert_before (k : Kernel) (l : list_head) (t : nat) : Kernel :=
  k <| lists := upd (lists k) l (lists k l ++ [t]) |>.
Definition tlist_insert_after (k : Kernel) (l : list_head) (t : nat) : Kernel :=
  k <| lists := upd (lists k) l (t :: lists k l) |>.

(** ** Flags and states *)

Definition clear_bits (v m : Z) : Z := Z.land v (Z.lnot m).
Definition has_bits (v m : Z) : bool := negb (Z.land v m =? 0).
Definition thread_stat (th : Thread) : Z := Z.land (stat th) RT_THREAD_STAT_MASK.
(** [s | (stat & ~RT_THREAD_STAT_MASK)] *)
Definition with_stat (s : Z) (th : Thread) : Thread :=
  th <| stat := Z.lor s (clear_bits (stat th) RT_THREAD_STAT_MASK) |>.

Lemma thread_stat_with s th : 0 <= s <= 7 -> thread_stat (with_stat s th) = s.
Proof.
  intros Hs. unfold thread_stat, with_stat, clear_bits, RT_THREAD_STAT_MASK. cbn [modify stat].
  change (stat (th <| stat := Z.lor s (Z.land (stat th) (Z.lnot 7)) |>))
    with (Z.lor s (Z.land (stat th) (Z.lnot 7))).
  rewrite Z.land_lor_distr_l, <- Z.land_assoc. change (Z.land (Z.lnot 7) 7) with 0.
  rewrite Z.land_0_r, Z.lor_0_r.
  assert (s = 0 \/ s = 1 \/ s = 2 \/ s = 3 \/ s = 4 \/ s = 5 \/ s = 6 \/ s = 7) as Hc by lia.
  destruct Hc as [->|[->|[->|[->|[->|[->|[->| ->]]]]]]]; reflexivity.
Qed.

Lemma clear_has v m m' : Z.land m m' = 0 -> has_bits (clear_bits v m) m' = has_bits v m'.
Proof.
  intros H. unfold has_bits, clear_bits. rewrite <- Z.land_assoc. do 2 f_equal.
  f_equal. apply Z.bits_inj'. intros i Hi. rewrite Z.land_spec, Z.lnot_spec by lia.
  apply (f_equal (fun z => Z.testbit z i)) in H. rewrite Z.land_spec, Z.bits_0 in H.
  destruct (Z.testbit m i), (Z.testbit m' i); cbn in *; congruence.
Qed.

Lemma clear_has_same v m : has_bits (clear_bits v m) m = false.
Proof.
  unfold has_bits, clear_bits. rewrite <- Z.land_assoc, (Z.land_comm (Z.lnot m)), Z.land_lnot_diag, Z.land_0_r.
  reflexivity.
Qed.

Lemma set_has v m m' : Z.land m m' = 0 -> has_bits (Z.lor v m) m' = has_bits v m'.
Proof. intros H. unfold has_bits. rewrite Z.land_lor_distr_l, H, Z.lor_0_r. reflexivity. Qed.

Lemma set_has_same v m : m <> 0 -> has_bits (Z.lor v m) m = true.
Proof.
  intros H. unfold has_bits. rewrite Z.land_lor_distr_l, Z.land_diag.
  destruct (Z.eqb_spec (Z.lor (Z.land v m) m) 0) as [E|E]; [|reflexivity].
  apply Z.lor_eq_0_iff in E. tauto.
Qed.

#[export] Hint Rewrite @upd_same clear_has_same : usv_kernel.
