(* ===== verification/Scheduler.v ===== *)
(** The scheduler (src/rt-thread/src/scheduler.c, single-core configuration, and
    [__rt_ffs] of src/rt-thread/src/kservice.c): the ready lists with their
    priority bitmap, the choice of the next thread, the scheduler lock; and the
    invariant that ties thread states, lists and bitmap together. *)

From S2P Require Import Prelude Kernel.

(** ** Definitions *)

Definition __lowest_bit_bitmap : list Z :=
  [ 0; 0; 1; 0; 2; 0; 1; 0; 3; 0; 1; 0; 2; 0; 1; 0;
    4; 0; 1; 0; 2; 0; 1; 0; 3; 0; 1; 0; 2; 0; 1; 0;
    5; 0; 1; 0; 2; 0; 1; 0; 3; 0; 1; 0; 2; 0; 1; 0;
    4; 0; 1; 0; 2; 0; 1; 0; 3; 0; 1; 0; 2; 0; 1; 0;
    6; 0; 1; 0; 2; 0; 1; 0; 3; 0; 1; 0; 2; 0; 1; 0;
    4; 0; 1; 0; 2; 0; 1; 0; 3; 0; 1; 0; 2; 0; 1; 0;
    5; 0; 1; 0; 2; 0; 1; 0; 3; 0; 1; 0; 2; 0; 1; 0;
    4; 0; 1; 0; 2; 0; 1; 0; 3; 0; 1; 0; 2; 0; 1; 0;
    7; 0; 1; 0; 2; 0; 1; 0; 3; 0; 1; 0; 2; 0; 1; 0;
    4; 0; 1; 0; 2; 0; 1; 0; 3; 0; 1; 0; 2; 0; 1; 0;
    5; 0; 1; 0; 2; 0; 1; 0; 3; 0; 1; 0; 2; 0; 1; 0;
    4; 0; 1; 0; 2; 0; 1; 0; 3; 0; 1; 0; 2; 0; 1; 0;
    6; 0; 1; 0; 2; 0; 1; 0; 3; 0; 1; 0; 2; 0; 1; 0;
    4; 0; 1; 0; 2; 0; 1; 0; 3; 0; 1; 0; 2; 0; 1; 0;
    5; 0; 1; 0; 2; 0; 1; 0; 3; 0; 1; 0; 2; 0; 1; 0;
    4; 0; 1; 0; 2; 0; 1; 0; 3; 0; 1; 0; 2; 0; 1; 0 ].

(** An access beyond the table is a memory error. *)
Definition __rt_ffs (value : Z) : option Z :=
  if value =? 0 then Some 0
  else if has_bits value 255 then
    b ← buf_get __lowest_bit_bitmap (Z.land value 255); Some (b + 1)
  else if has_bits value 65280 then
    b ← buf_get __lowest_bit_bitmap (Z.shiftr (Z.land value 65280) 8); Some (b + 9)
  else if has_bits value 16711680 then
    b ← buf_get __lowest_bit_bitmap (Z.shiftr (Z.land value 16711680) 16); Some (b + 17)
  else
    b ← buf_get __lowest_bit_bitmap (Z.shiftr (Z.land value 4278190080) 24); Some (b + 25).

(** [__builtin_ffs], which [__rt_ffs] of src/rt-thread/libcpu/arm/cortex-m3/cpuport.c
    calls under GCC: one plus the index of the lowest set bit. *)
Fixpoint ffs_pos (p : positive) : Z :=
  match p with xO p => ffs_pos p + 1 | _ => 1 end.
Definition __rt_ffs_cpu (value : Z) : Z :=
  match value with Z0 => 0 | Zpos p | Zneg p => ffs_pos p end.

(** The first thread of the highest ready list, with its priority. *)
Definition _get_highest_priority_thread (k : Kernel) : option (nat * Z) :=
  f ← __rt_ffs (rt_thread_ready_priority_group k);
  let highest_ready_priority := u32 (f - 1) in
  if RT_THREAD_PRIORITY_MAX <=? highest_ready_priority then None
  else
    match lists k (Ready highest_ready_priority) with
    | [] => None
    | t :: _ => Some (t, highest_ready_priority)
    end.

Definition rt_system_scheduler_init (k : Kernel) : Kernel :=
  k <| rt_scheduler_lock_nest := 0 |>
    <| lists := fun l => match l with
                         | Ready p => if (0 <=? p) && (p <? RT_THREAD_PRIORITY_MAX) then [] else lists k l
                         | Defunct => []
                         | _ => lists k l
                         end |>
    <| rt_thread_ready_priority_group := 0 |>.

Definition rt_schedule_insert_thread (k : Kernel) (t : nat) : option Kernel :=
  if decide (rt_current_thread k = Some t) then
    Some (set_thread k t (with_stat RT_THREAD_RUNNING))
  else
    let k := set_thread k t (with_stat RT_THREAD_READY) in
    let th := threads k t in
    if RT_THREAD_PRIORITY_MAX <=? current_priority th then None
    else
      let k := tlist_insert_before k (Ready (current_priority th)) t in
      Some (k <| rt_thread_ready_priority_group :=
              Z.lor (rt_thread_ready_priority_group k) (number_mask th) |>).

Definition rt_schedule_remove_thread (k : Kernel) (t : nat) : option Kernel :=
  let k := tlist_remove k t in
  let th := threads k t in
  if RT_THREAD_PRIORITY_MAX <=? current_priority th then None
  else
    Some (if decide (lists k (Ready (current_priority th)) = [])
          then k <| rt_thread_ready_priority_group :=
                 clear_bits (rt_thread_ready_priority_group k) (number_mask th) |>
          else k).

Definition rt_system_scheduler_start (k : Kernel) : option Kernel :=
  '(to_thread, _) ← _get_highest_priority_thread k;
  let k := k <| rt_current_thread := Some to_thread |> in
  k ← rt_schedule_remove_thread k to_thread;
  Some (set_thread k to_thread (fun th => th <| stat := RT_THREAD_RUNNING |>)).

Definition rt_schedule (k : Kernel) : option Kernel :=
  if rt_scheduler_lock_nest k =? 0 then
    if negb (rt_thread_ready_priority_group k =? 0) then
      '(to_thread, highest_ready_priority) ← _get_highest_priority_thread k;
      cur ← rt_current_thread k;
      let th := threads k cur in
      let '(to_thread, need_insert_from_thread) :=
        if thread_stat th =? RT_THREAD_RUNNING then
          if current_priority th <? highest_ready_priority then (cur, false)
          else if (current_priority th =? highest_ready_priority) &&
                  negb (has_bits (stat th) RT_THREAD_STAT_YIELD) then (cur, false)
          else (to_thread, true)
        else (to_thread, false) in
      let k := if need_insert_from_thread
               then set_thread k cur (fun th => th <| stat := clear_bits (stat th) RT_THREAD_STAT_YIELD |>)
               else k in
      if decide (to_thread <> cur) then
        let k := k <| rt_current_priority := u8 highest_ready_priority |>
                   <| rt_current_thread := Some to_thread |> in
        k ← (if need_insert_from_thread then rt_schedule_insert_thread k cur else Some k);
        k ← rt_schedule_remove_thread k to_thread;
        Some (set_thread k to_thread (with_stat RT_THREAD_RUNNING))
      else
        k ← rt_schedule_remove_thread k cur;
        Some (set_thread k cur (with_stat RT_THREAD_RUNNING))
    else Some k
  else Some k.

Definition rt_enter_critical (k : Kernel) : Kernel :=
  k <| rt_scheduler_lock_nest := s16 (rt_scheduler_lock_nest k + 1) |>.

Definition rt_exit_critical (k : Kernel) : option Kernel :=
  let k := k <| rt_scheduler_lock_nest := s16 (rt_scheduler_lock_nest k - 1) |> in
  if rt_scheduler_lock_nest k <=? 0 then
    let k := k <| rt_scheduler_lock_nest := 0 |> in
    match rt_current_thread k with Some _ => rt_schedule k | None => Some k end
  else Some k.

Definition rt_critical_level (k : Kernel) : Z := u16 (rt_scheduler_lock_nest k).

(** ** The first set bit *)

Definition byte_of (v s : Z) : Z := Z.land (Z.shiftr v s) 255.

Lemma byte_of_range v s : 0 <= byte_of v s < 256.
Proof.
  unfold byte_of. change 255 with (Z.ones 8). rewrite Z.land_ones by lia.
  apply Z.mod_pos_bound. lia.
Qed.

Lemma byte_of_spec v s i : 0 <= s -> 0 <= i < 8 -> Z.testbit (byte_of v s) i = Z.testbit v (i + s).
Proof.
  intros Hs Hi. unfold byte_of. change 255 with (Z.ones 8).
  rewrite Z.land_spec, Z.shiftr_spec, Z.ones_spec_low, andb_true_r by lia. reflexivity.
Qed.

Lemma byte_of_mask v s : 0 <= s -> Z.shiftr (Z.land v (Z.shiftl 255 s)) s = byte_of v s.
Proof.
  intros Hs. unfold byte_of. rewrite Z.shiftr_land. f_equal.
  rewrite Z.shiftr_shiftl_l, Z.sub_diag by lia. reflexivity.
Qed.

Lemma has_byte v s : 0 <= s -> has_bits v (Z.shiftl 255 s) = negb (byte_of v s =? 0).
Proof.
  intros Hs. unfold has_bits. f_equal.
  assert (E : Z.land v (Z.shiftl 255 s) = Z.shiftl (byte_of v s) s).
  { apply Z.bits_inj'. intros i Hi. rewrite Z.land_spec.
    destruct (Z.lt_ge_cases i s) as [Hlt|Hge].
    - rewrite !Z.shiftl_spec_low by lia. apply andb_false_r.
    - rewrite !Z.shiftl_spec by lia. unfold byte_of. rewrite Z.land_spec, Z.shiftr_spec by lia.
      f_equal. f_equal. lia. }
  rewrite E. destruct (Z.eqb_spec (byte_of v s) 0) as [->|H].
  - rewrite Z.shiftl_0_l. reflexivity.
  - apply Z.eqb_neq. rewrite Z.shiftl_eq_0_iff by lia. exact H.
Qed.

(** The table, checked entry by entry. *)
Lemma lowest_bit_table : forall b, 0 < b < 256 ->
  exists n, buf_get __lowest_bit_bitmap b = Some n /\ 0 <= n < 8 /\
    Z.testbit b n = true /\ forall m, 0 <= m < n -> Z.testbit b m = false.
Proof.
  assert (H : forallb (fun b => match buf_get __lowest_bit_bitmap (Z.of_nat b) with
      | Some n => (0 <=? n) && (n <? 8) && Z.testbit (Z.of_nat b) n &&
                  forallb (fun m => negb (Z.testbit (Z.of_nat b) (Z.of_nat m))) (seq 0 (Z.to_nat n))
      | None => false end) (seq 1 255) = true) by (vm_compute; reflexivity).
  rewrite forallb_forall in H. intros b Hb. specialize (H (Z.to_nat b)).
  rewrite in_seq, Z2Nat.id in H by lia. specialize (H ltac:(lia)).
  destruct (buf_get __lowest_bit_bitmap b) as [n|]; [|discriminate].
  rewrite !andb_true_iff, forallb_forall in H. destruct H as [[[H1 H2] H3] H4].
  exists n. split; [reflexivity|]. split; [lia|]. split; [exact H3|].
  intros m Hm. specialize (H4 (Z.to_nat m)). rewrite in_seq, Z2Nat.id in H4 by lia.
  apply negb_true_iff, H4. lia.
Qed.

Lemma rt_ffs_spec v : 0 < v < 4294967296 ->
  exists n, __rt_ffs v = Some (n + 1) /\ 0 <= n < 32 /\
    Z.testbit v n = true /\ forall m, 0 <= m < n -> Z.testbit v m = false.
Proof.
  intros Hv.
  assert (Hstep : forall s, 0 <= s -> s <= 24 -> byte_of v s <> 0 ->
      (forall m, 0 <= m < s -> Z.testbit v m = false) ->
      exists n, buf_get __lowest_bit_bitmap (byte_of v s) = Some n /\ 0 <= n + s < 32 /\
        Z.testbit v (n + s) = true /\ forall m, 0 <= m < n + s -> Z.testbit v m = false).
  { intros s Hs Hs' Hne Hlow. pose proof (byte_of_range v s).
    destruct (lowest_bit_table (byte_of v s) ltac:(lia)) as (n & En & Hn & Hb & Hz).
    exists n. split; [exact En|]. split; [lia|]. rewrite byte_of_spec in Hb by lia. split; [exact Hb|].
    intros m Hm. destruct (Z.lt_ge_cases m s); [apply Hlow; lia|].
    specialize (Hz (m - s) ltac:(lia)). rewrite byte_of_spec in Hz by lia.
    rewrite <- Hz. f_equal. lia. }
  assert (Hzero : forall s, 0 <= s -> byte_of v s = 0 -> (forall m, 0 <= m < s -> Z.testbit v m = false) ->
      forall m, 0 <= m < s + 8 -> Z.testbit v m = false).
  { intros s Hs E Hlow m Hm. destruct (Z.lt_ge_cases m s); [apply Hlow; lia|].
    pose proof (byte_of_spec v s (m - s) Hs ltac:(lia)) as B. rewrite E, Z.bits_0 in B.
    rewrite B. f_equal. lia. }
  unfold __rt_ffs. rewrite (proj2 (Z.eqb_neq v 0)) by lia.
  change 255 with (Z.shiftl 255 0). change 65280 with (Z.shiftl 255 8).
  change 16711680 with (Z.shiftl 255 16). change 4278190080 with (Z.shiftl 255 24).
  rewrite !has_byte, !byte_of_mask by lia.
  replace (Z.land v (Z.shiftl 255 0)) with (byte_of v 0) by (unfold byte_of; rewrite Z.shiftr_0_r; reflexivity).
  assert (Hl0 : forall m, 0 <= m < 0 -> Z.testbit v m = false) by lia.
  destruct (Z.eqb_spec (byte_of v 0) 0) as [E0|E0]; cbn [negb].
  2:{ destruct (Hstep 0 ltac:(lia) ltac:(lia) E0 Hl0) as (n & -> & H). exists (n + 0). rewrite Z.add_0_r in *. auto. }
  pose proof (Hzero 0 ltac:(lia) E0 Hl0) as Hl8. clear Hl0.
  destruct (Z.eqb_spec (byte_of v 8) 0) as [E8|E8]; cbn [negb].
  2:{ destruct (Hstep 8 ltac:(lia) ltac:(lia) E8 Hl8) as (n & -> & H). exists (n + 8). rewrite <- Z.add_assoc. auto. }
  pose proof (Hzero 8 ltac:(lia) E8 Hl8) as Hl16. clear Hl8.
  destruct (Z.eqb_spec (byte_of v 16) 0) as [E16|E16]; cbn [negb].
  2:{ destruct (Hstep 16 ltac:(lia) ltac:(lia) E16 Hl16) as (n & -> & H). exists (n + 16). rewrite <- Z.add_assoc. auto. }
  pose proof (Hzero 16 ltac:(lia) E16 Hl16) as Hl24. clear Hl16.
  assert (E24 : byte_of v 24 <> 0).
  { intros E. pose proof (Hzero 24 ltac:(lia) E Hl24) as Hall. enough (v = 0) by lia.
    apply Z.bits_inj'. intros i Hi. rewrite Z.bits_0. destruct (Z.lt_ge_cases i 32); [apply Hall; lia|].
    apply Z.bits_above_log2; [lia|]. apply Z.log2_lt_pow2; [lia|].
    apply Z.lt_le_trans with (2 ^ 32); [lia|]. apply Z.pow_le_mono_r; lia. }
  destruct (Hstep 24 ltac:(lia) ltac:(lia) E24 Hl24) as (n & -> & H). exists (n + 24). rewrite <- Z.add_assoc. auto.
Qed.

Lemma ffs_pos_spec p : exists n, ffs_pos p = n + 1 /\ 0 <= n /\
  Z.testbit (Zpos p) n = true /\ forall m, 0 <= m < n -> Z.testbit (Zpos p) m = false.
Proof.
  induction p as [p _|p IH|].
  - exists 0. repeat split; (reflexivity || lia).
  - destruct IH as (n & E & Hn & Hb & Hl). exists (n + 1). cbn [ffs_pos]. rewrite E.
    change (Zpos (xO p)) with (2 * Zpos p).
    repeat split; [lia| |].
    + rewrite Z.add_1_r, Z.testbit_even_succ by lia. exact Hb.
    + intros m Hm. destruct (Z.eq_dec m 0) as [->|]; [apply Z.testbit_even_0|].
      replace m with (Z.succ (m - 1)) by lia. rewrite Z.testbit_even_succ by lia. apply Hl. lia.
  - exists 0. repeat split; (reflexivity || lia).
Qed.

Lemma first_bit_unique v n n' :
  0 <= n -> 0 <= n' -> Z.testbit v n = true -> Z.testbit v n' = true ->
  (forall m, 0 <= m < n -> Z.testbit v m = false) -> (forall m, 0 <= m < n' -> Z.testbit v m = false) -> n = n'.
Proof.
  intros Hn Hn' Hb Hb' Hl Hl'. destruct (Z.lt_trichotomy n n') as [H|[H|H]]; [|exact H|].
  - rewrite Hl' in Hb by lia. discriminate.
  - rewrite Hl in Hb' by lia. discriminate.
Qed.

(** ** The invariant *)

Definition unlinked (k : Kernel) (t : nat) : Prop := forall l, t ∉ lists k l.

(** A thread is linked into at most one list, once. *)
Record lists_ok (k : Kernel) : Prop := {
  lo_nodup : forall l, NoDup (lists k l);
  lo_one : forall t l l', t ∈ lists k l -> t ∈ lists k l' -> l = l';
}.

(** The bitmap has exactly the bits of the non-empty ready lists. *)
Record group_ok (k : Kernel) : Prop := {
  go_range : 0 <= rt_thread_ready_priority_group k < 4294967296;
  go_bits : forall p, 0 <= p < 32 ->
    Z.testbit (rt_thread_ready_priority_group k) p = negb (bool_decide (lists k (Ready p) = []));
}.

Definition live (s : Z) : bool :=
  (s =? RT_THREAD_READY) || (s =? RT_THREAD_SUSPEND) || (s =? RT_THREAD_RUNNING).

Record prio_ok (th : Thread) : Prop := {
  po_range : 0 <= current_priority th < 32;
  po_mask : number_mask th = Z.shiftl 1 (current_priority th);
}.

(** A thread's state agrees with the list that holds it. *)
Record thread_ok (k : Kernel) (t : nat) : Prop := {
  tk_prio : live (thread_stat (threads k t)) = true -> prio_ok (threads k t);
  tk_list : forall l, t ∈ lists k l ->
    match l with
    | Ready p => thread_stat (threads k t) = RT_THREAD_READY /\ current_priority (threads k t) = p
    | Defunct => thread_stat (threads k t) = RT_THREAD_CLOSE
    | _ => thread_stat (threads k t) = RT_THREAD_SUSPEND
    end;
  tk_ready : thread_stat (threads k t) = RT_THREAD_READY ->
    t ∈ lists k (Ready (current_priority (threads k t)));
  tk_running : thread_stat (threads k t) = RT_THREAD_RUNNING -> rt_current_thread k = Some t;
  tk_current : rt_current_thread k = Some t ->
    thread_stat (threads k t) <> RT_THREAD_READY /\ thread_stat (threads k t) <> RT_THREAD_INIT;
}.

Record sched_ok (k : Kernel) : Prop := {
  so_lists : lists_ok k;
  so_group : group_ok k;
  so_threads : forall t, thread_ok k t;
}.

(** ** Bits *)

Lemma testbit_mask p q : 0 <= p -> 0 <= q -> Z.testbit (Z.shiftl 1 p) q = (q =? p).
Proof.
  intros Hp Hq. rewrite Z.shiftl_1_l. rewrite Z.pow2_bits_eqb by lia. apply Z.eqb_sym.
Qed.

Lemma range_bits g : 0 <= g < 4294967296 <-> 0 <= g /\ forall i, 32 <= i -> Z.testbit g i = false.
Proof.
  split.
  - intros H. split; [lia|]. intros i Hi. destruct (Z.eq_dec g 0) as [->|]; [apply Z.bits_0|].
    apply Z.bits_above_log2; [lia|]. apply Z.log2_lt_pow2; [lia|].
    apply Z.lt_le_trans with (2 ^ 32); [lia|]. apply Z.pow_le_mono_r; lia.
  - intros [H0 H]. split; [exact H0|]. destruct (Z.lt_ge_cases g 4294967296) as [|Hge]; [assumption|].
    assert (Hl : 32 <= Z.log2 g) by (change 32 with (Z.log2 4294967296); apply Z.log2_le_mono; exact Hge).
    pose proof (Z.bit_log2 g ltac:(lia)) as B. rewrite H in B by exact Hl. discriminate.
Qed.

Lemma lor_mask_range g p : 0 <= g < 4294967296 -> 0 <= p < 32 -> 0 <= Z.lor g (Z.shiftl 1 p) < 4294967296.
Proof.
  rewrite !range_bits. intros [H0 H] Hp. split.
  - apply Z.lor_nonneg. split; [exact H0|]. apply Z.shiftl_nonneg. lia.
  - intros i Hi. rewrite Z.lor_spec, H, testbit_mask by lia. cbn. apply Z.eqb_neq. lia.
Qed.

Lemma clear_mask_range g m : 0 <= g < 4294967296 -> 0 <= clear_bits g m < 4294967296.
Proof.
  rewrite !range_bits. intros [H0 H]. split; [apply Z.land_nonneg; tauto|].
  intros i Hi. unfold clear_bits. rewrite Z.land_spec, H by lia. reflexivity.
Qed.

Lemma testbit_clear g p q : 0 <= p -> 0 <= q ->
  Z.testbit (clear_bits g (Z.shiftl 1 p)) q = Z.testbit g q && negb (q =? p).
Proof.
  intros Hp Hq. unfold clear_bits. rewrite Z.land_spec, Z.lnot_spec, testbit_mask by lia. reflexivity.
Qed.

(** ** Threads and lists after linking and unlinking *)

Lemma elem_of_remove k t u l : u ∈ lists (tlist_remove k t) l <-> u <> t /\ u ∈ lists k l.
Proof. cbn. rewrite list_elem_of_filter. reflexivity. Qed.

Lemma filter_none (t : nat) (l : list nat) : t ∉ l -> filter (fun u => u <> t) l = l.
Proof.
  intros H. induction l as [|a l IH]; [reflexivity|].
  rewrite filter_cons. rewrite not_elem_of_cons in H. rewrite decide_True by (intros ->; tauto).
  f_equal. apply IH. tauto.
Qed.

Lemma remove_unlinked k t l : unlinked k t -> lists (tlist_remove k t) l = lists k l.
Proof. intros H. cbn. apply filter_none, H. Qed.

Lemma tlist_remove_lists_ok k t : lists_ok k -> lists_ok (tlist_remove k t) /\ unlinked (tlist_remove k t) t.
Proof.
  intros [Hn Ho]. split; [split|].
  - intros l. cbn. apply NoDup_filter, Hn.
  - intros u l l' H1 H2. rewrite elem_of_remove in H1, H2. destruct H1, H2. eauto.
  - intros l H. rewrite elem_of_remove in H. tauto.
Qed.

Lemma elem_of_insert_before k l t u l' :
  u ∈ lists (tlist_insert_before k l t) l' <-> u ∈ lists k l' \/ u = t /\ l' = l.
Proof.
  cbn. unfold upd. destruct (decide (l' = l)) as [->|Hne].
  - rewrite elem_of_app, list_elem_of_singleton.
    split; [intros [H| ->]; auto|intros [H|[-> _]]; auto].
  - split; [auto|intros [H|[_ E]]; [exact H|contradiction]].
Qed.

Lemma tlist_insert_before_lists_ok k l t :
  lists_ok k -> unlinked k t -> lists_ok (tlist_insert_before k l t).
Proof.
  intros [Hn Ho] Hu. split.
  - intros l'. cbn. unfold upd. destruct (decide (l' = l)) as [->|]; [|apply Hn].
    apply NoDup_app. split; [apply Hn|]. split; [|apply NoDup_singleton].
    intros x Hx ->%list_elem_of_singleton. exact (Hu _ Hx).
  - intros u l1 l2 H1 H2. rewrite elem_of_insert_before in H1, H2.
    destruct H1 as [H1|[-> ->]], H2 as [H2|[E ->]]; subst; eauto; exfalso; eapply Hu; eauto.
Qed.

Lemma prio_ok_with_stat s th : prio_ok th -> prio_ok (with_stat s th).
Proof. intros [H1 H2]. split; assumption. Qed.

(** ** Removing and inserting a thread *)

Lemma remove_spec k t :
  lists_ok k -> group_ok k -> prio_ok (threads k t) ->
  (forall p, t ∈ lists k (Ready p) -> p = current_priority (threads k t)) ->
  exists g, let k' := tlist_remove k t <| rt_thread_ready_priority_group := g |> in
    rt_schedule_remove_thread k t = Some k' /\ lists_ok k' /\ group_ok k' /\ unlinked k' t.
Proof.
  intros Hl [Hr Hb] [Hp Hm] Hready. unfold rt_schedule_remove_thread.
  change (threads (tlist_remove k t) t) with (threads k t).
  destruct (tlist_remove_lists_ok k t Hl) as [[Hn Ho] Hu].
  rewrite (proj2 (Z.leb_gt _ _)) by (unfold RT_THREAD_PRIORITY_MAX; lia).
  set (p0 := current_priority (threads k t)) in *. rewrite Hm.
  assert (Hother : forall p, p <> p0 -> lists (tlist_remove k t) (Ready p) = lists k (Ready p)).
  { intros p Hne. cbn. apply filter_none. intros Hin. apply Hne, Hready, Hin. }
  set (g0 := rt_thread_ready_priority_group k) in *.
  exists (if decide (lists (tlist_remove k t) (Ready p0) = []) then clear_bits g0 (Z.shiftl 1 p0) else g0).
  cbv zeta. split.
  { destruct (decide _); reflexivity. }
  split; [split; assumption|]. split; [|exact Hu].
  split.
  - cbn. destruct (decide _); [apply clear_mask_range|]; exact Hr.
  - intros p Hpr. change (lists (tlist_remove k t <| rt_thread_ready_priority_group := _ |>))
      with (lists (tlist_remove k t)).
    match goal with |- context [rt_thread_ready_priority_group (?a <| rt_thread_ready_priority_group := ?b |>)] =>
      change (rt_thread_ready_priority_group (a <| rt_thread_ready_priority_group := b |>)) with b end.
    destruct (decide (lists (tlist_remove k t) (Ready p0) = [])) as [E|E].
    + rewrite testbit_clear by lia. destruct (Z.eqb_spec p p0) as [->|Hne].
      * rewrite bool_decide_eq_true_2 by exact E. apply andb_false_r.
      * rewrite Hother, Hb, andb_true_r by assumption. reflexivity.
    + destruct (Z.eq_dec p p0) as [->|Hne].
      * rewrite Hb, (bool_decide_eq_false_2 (lists (tlist_remove k t) _ = [])) by assumption.
        f_equal. apply bool_decide_eq_false_2. intros E0. apply E. cbn. rewrite E0. reflexivity.
      * rewrite Hother, Hb by assumption. reflexivity.
Qed.

Lemma insert_spec k t :
  lists_ok k -> group_ok k -> prio_ok (threads k t) -> unlinked k t -> rt_current_thread k <> Some t ->
  exists g,
    let k' := tlist_insert_before (set_thread k t (with_stat RT_THREAD_READY))
                (Ready (current_priority (threads k t))) t <| rt_thread_ready_priority_group := g |> in
    rt_schedule_insert_thread k t = Some k' /\ lists_ok k' /\ group_ok k'.
Proof.
  intros Hl [Hr Hb] [Hp Hm] Hu Hc. unfold rt_schedule_insert_thread.
  rewrite decide_False by exact Hc.
  assert (Et : threads (set_thread k t (with_stat RT_THREAD_READY)) t = with_stat RT_THREAD_READY (threads k t))
    by (cbn; apply upd_same).
  rewrite Et. cbn zeta.
  change (current_priority (with_stat RT_THREAD_READY (threads k t))) with (current_priority (threads k t)).
  change (number_mask (with_stat RT_THREAD_READY (threads k t))) with (number_mask (threads k t)).
  rewrite (proj2 (Z.leb_gt _ _)) by (unfold RT_THREAD_PRIORITY_MAX; lia).
  set (p0 := current_priority (threads k t)) in *. rewrite Hm.
  eexists. split; [reflexivity|]. split.
  { destruct (tlist_insert_before_lists_ok (set_thread k t (with_stat RT_THREAD_READY)) (Ready p0) t) as [A B];
      [destruct Hl; split; assumption|exact Hu|split; assumption]. }
  split.
  - apply lor_mask_range; assumption.
  - intros p Hpr. cbn. rewrite Z.lor_spec, testbit_mask by lia. rewrite Hb by assumption.
    unfold upd. destruct (Z.eqb_spec p p0) as [->|Hne].
    + rewrite decide_True by reflexivity. rewrite orb_true_r. symmetry. apply negb_true_iff.
      apply bool_decide_eq_false_2. destruct (lists k (Ready p0)); discriminate.
    + rewrite decide_False by congruence. apply orb_false_r.
Qed.

Lemma insert_current k t :
  rt_current_thread k = Some t ->
  rt_schedule_insert_thread k t = Some (set_thread k t (with_stat RT_THREAD_RUNNING)).
Proof. intros H. unfold rt_schedule_insert_thread. rewrite decide_True by exact H. reflexivity. Qed.

(** Changing the state of an unlinked thread keeps the other threads' [thread_ok]. *)
Lemma thread_ok_same k k' u :
  threads k' u = threads k u -> (forall l, u ∈ lists k' l <-> u ∈ lists k l) ->
  (rt_current_thread k' = Some u <-> rt_current_thread k = Some u) ->
  thread_ok k u -> thread_ok k' u.
Proof.
  intros Ht Hl Hc [H1 H2 H3 H4 H5]. split; rewrite Ht.
  - exact H1.
  - intros l Hin. apply H2, Hl, Hin.
  - intros H. apply Hl, H3, H.
  - intros H. apply Hc, H4, H.
  - intros H. apply H5, Hc, H.
Qed.

(** ** One scheduling *)

Lemma get_highest_spec k :
  group_ok k -> rt_thread_ready_priority_group k <> 0 ->
  exists t q h, _get_highest_priority_thread k = Some (t, h) /\ 0 <= h < 32 /\
    lists k (Ready h) = t :: q /\ forall p, 0 <= p < h -> lists k (Ready p) = [].
Proof.
  intros [Hr Hb] Hne. unfold _get_highest_priority_thread.
  destruct (rt_ffs_spec (rt_thread_ready_priority_group k) ltac:(lia)) as (h & -> & Hh & Hset & Hlow).
  cbn [mbind option_bind]. replace (h + 1 - 1) with h by lia. rewrite u32_small by lia.
  rewrite (proj2 (Z.leb_gt _ _)) by (unfold RT_THREAD_PRIORITY_MAX; lia).
  rewrite Hb in Hset by lia. apply negb_true_iff, bool_decide_eq_false_1 in Hset.
  destruct (lists k (Ready h)) as [|t q] eqn:E; [contradiction|].
  exists t, q, h. split_ands; auto; try lia. intros p Hp. specialize (Hlow p Hp). rewrite Hb in Hlow by lia.
  apply negb_false_iff, bool_decide_eq_true_1 in Hlow. exact Hlow.
Qed.

(** What scheduling (and any other operation on ready threads) leaves alone. *)
Record sched_frame (k k' : Kernel) : Prop := {
  sf_tick : rt_tick k' = rt_tick k;
  sf_timers : timers k' = timers k;
  sf_timer_list : rt_timer_list k' = rt_timer_list k;
  sf_soft_list : rt_soft_timer_list k' = rt_soft_timer_list k;
  sf_lock : rt_scheduler_lock_nest k' = rt_scheduler_lock_nest k;
  sf_nest : rt_interrupt_nest k' = rt_interrupt_nest k;
  sf_lists : forall l, match l with Ready _ => True | _ => lists k' l = lists k l end;
  sf_threads : forall t, threads k' t = threads k t <| stat := stat (threads k' t) |>;
  sf_stat : forall t, thread_stat (threads k' t) = thread_stat (threads k t) \/
    (thread_stat (threads k t) = RT_THREAD_READY \/ thread_stat (threads k t) = RT_THREAD_RUNNING) /\
    (thread_stat (threads k' t) = RT_THREAD_READY \/ thread_stat (threads k' t) = RT_THREAD_RUNNING);
}.

Lemma stat_eta th : th = th <| stat := stat th |>.
Proof. destruct th; reflexivity. Qed.

Lemma sched_frame_refl k : sched_frame k k.
Proof. split; auto; [intros []; auto|intros t; destruct (threads k t); reflexivity]. Qed.

Lemma sched_frame_trans k1 k2 k3 : sched_frame k1 k2 -> sched_frame k2 k3 -> sched_frame k1 k3.
Proof.
  intros [] []. split; try congruence.
  - intros l. specialize (sf_lists0 l). specialize (sf_lists1 l). destruct l; congruence || auto.
  - intros t. rewrite sf_threads1 at 1. rewrite sf_threads0. reflexivity.
  - intros t. specialize (sf_stat0 t). specialize (sf_stat1 t). destruct sf_stat0 as [E|[E E']], sf_stat1 as [F|[F F']];
      rewrite ?E in *; auto.
    + right. split; [exact E|]. rewrite F. exact E'.
Qed.

Lemma set_thread_threads k t f : threads (set_thread k t f) t = f (threads k t).
Proof. cbn. apply upd_same. Qed.
Lemma set_thread_other k t f u : u <> t -> threads (set_thread k t f) u = threads k u.
Proof. intros H. cbn. apply upd_other, H. Qed.

(** A thread taken from the ready lists to run. *)
Lemma run_spec k t :
  lists_ok k -> group_ok k -> (forall u, u <> t -> thread_ok k u) -> prio_ok (threads k t) ->
  (forall l, t ∈ lists k l -> l = Ready (current_priority (threads k t))) ->
  rt_current_thread k = Some t ->
  thread_stat (threads k t) = RT_THREAD_READY \/ thread_stat (threads k t) = RT_THREAD_RUNNING ->
  exists k', (k ← rt_schedule_remove_thread k t; Some (set_thread k t (with_stat RT_THREAD_RUNNING))) = Some k' /\
    sched_ok k' /\ sched_frame k k' /\ rt_current_thread k' = Some t /\
    thread_stat (threads k' t) = RT_THREAD_RUNNING /\ (forall u, u <> t -> threads k' u = threads k u) /\
    (forall l, lists k' l = filter (fun u => u <> t) (lists k l)).
Proof.
  intros Hl Hg Ho Hp Hin Hc Hst.
  destruct (remove_spec k t Hl Hg Hp) as (g & E & Hl' & Hg' & Hu).
  { intros p H. apply Hin in H. congruence. }
  cbv zeta in *. rewrite E. cbn [mbind option_bind].
  set (k1 := tlist_remove k t <| rt_thread_ready_priority_group := g |>) in *.
  eexists. split; [reflexivity|].
  assert (Hsame : forall l u, u <> t -> u ∈ lists k1 l <-> u ∈ lists k l)
    by (intros l u Hne; unfold k1; cbn; rewrite list_elem_of_filter; tauto).
  split; [|split; [|split; [exact Hc|split; [|split; [|reflexivity]]]]].
  - split; [destruct Hl'; split; assumption|destruct Hg'; split; assumption|].
    intros u. destruct (decide (u = t)) as [->|Hne].
    + split; rewrite ?set_thread_threads, ?thread_stat_with by (unfold RT_THREAD_RUNNING; lia).
      * intros _. apply prio_ok_with_stat. exact Hp.
      * intros l H. exfalso. exact (Hu l H).
      * discriminate.
      * intros _. exact Hc.
      * intros _. split; discriminate.
    + apply (thread_ok_same k); auto.
      * rewrite set_thread_other by assumption. reflexivity.
      * intros l. apply Hsame, Hne.
  - split; try reflexivity.
    + intros [] ; try exact I; unfold k1; cbn; apply filter_none; intros H; apply Hin in H; discriminate.
    + intros u. destruct (decide (u = t)) as [->|Hne].
      * rewrite set_thread_threads. reflexivity.
      * rewrite set_thread_other by assumption. change (threads k1 u) with (threads k u). destruct (threads k u); reflexivity.
    + intros u. destruct (decide (u = t)) as [->|Hne].
      * right. rewrite set_thread_threads, thread_stat_with by (unfold RT_THREAD_RUNNING; lia). auto.
      * left. rewrite set_thread_other by assumption. reflexivity.
  - rewrite set_thread_threads. apply thread_stat_with. unfold RT_THREAD_RUNNING. lia.
  - intros u Hne. rewrite set_thread_other by assumption. reflexivity.
Qed.

Lemma running_unlinked k c : thread_ok k c -> thread_stat (threads k c) = RT_THREAD_RUNNING -> unlinked k c.
Proof.
  intros [_ H _ _ _] Hs l Hin. specialize (H l Hin). rewrite Hs in H.
  destruct l; [destruct H as [H _]|..]; discriminate H.
Qed.

Lemma ready_linked k t l : thread_ok k t -> thread_stat (threads k t) = RT_THREAD_READY -> t ∈ lists k l ->
  l = Ready (current_priority (threads k t)).
Proof.
  intros [_ H _ _ _] Hs Hin. specialize (H l Hin). rewrite Hs in H.
  destruct l; [destruct H; congruence|..]; discriminate H.
Qed.

Lemma filter_head (t : nat) (q : list nat) : NoDup (t :: q) -> filter (fun u => u <> t) (t :: q) = q.
Proof.
  intros [H _]%NoDup_cons. rewrite filter_cons, decide_False by tauto. apply filter_none, H.
Qed.

Definition clear_yield (th : Thread) : Thread := th <| stat := clear_bits (stat th) RT_THREAD_STAT_YIELD |>.

Lemma thread_stat_clear_yield th : thread_stat (clear_yield th) = thread_stat th.
Proof.
  unfold thread_stat, clear_yield, clear_bits, RT_THREAD_STAT_YIELD, RT_THREAD_STAT_MASK. cbn.
  rewrite <- Z.land_assoc. reflexivity.
Qed.

(** The processor goes from [c] to [c']. *)
Record switched (k k' : Kernel) (c c' : nat) : Prop := {
  sw_head : exists q, lists k (Ready (current_priority (threads k c'))) = c' :: q;
  sw_ready : forall p, lists k' (Ready p) =
    filter (fun u => u <> c') (lists k (Ready p)) ++
    (if (thread_stat (threads k c) =? RT_THREAD_RUNNING) && (p =? current_priority (threads k c))
     then [c] else []);
  sw_why : thread_stat (threads k c) = RT_THREAD_RUNNING ->
    current_priority (threads k c') < current_priority (threads k c) \/
    current_priority (threads k c') = current_priority (threads k c) /\
      has_bits (stat (threads k c)) RT_THREAD_STAT_YIELD = true;
}.

Lemma schedule_switch k c t q h (need := thread_stat (threads k c) =? RT_THREAD_RUNNING) :
  sched_ok k -> rt_current_thread k = Some c -> lists k (Ready h) = t :: q -> t <> c ->
  exists k', (let k := if need then set_thread k c clear_yield else k in
     let k := k <| rt_current_priority := u8 h |> <| rt_current_thread := Some t |> in
     k ← (if need then rt_schedule_insert_thread k c else Some k);
     k ← rt_schedule_remove_thread k t;
     Some (set_thread k t (with_stat RT_THREAD_RUNNING))) = Some k' /\
   sched_ok k' /\ sched_frame k k' /\ rt_current_thread k' = Some t /\
   thread_stat (threads k' t) = RT_THREAD_RUNNING /\
   (forall p, lists k' (Ready p) = filter (fun u => u <> t) (lists k (Ready p)) ++
      (if need && (p =? current_priority (threads k c)) then [c] else [])) .
Proof.
  intros [Hl Hg Ho] Hc Eq Hne.
  assert (Hin : t ∈ lists k (Ready h)) by (rewrite Eq; left).
  destruct (tk_list _ _ (Ho t) _ Hin) as [Hst Hpt].
  assert (Hpr : prio_ok (threads k t)) by (apply (tk_prio _ _ (Ho t)); rewrite Hst; reflexivity).
  assert (Hlt : forall l, t ∈ lists k l -> l = Ready (current_priority (threads k t)))
    by (intros l; apply ready_linked; auto).
  cbv zeta. destruct need eqn:Hneed; subst need; cbn [andb].
  - apply Z.eqb_eq in Hneed. pose proof (running_unlinked k c (Ho c) Hneed) as Hu.
    set (k2 := set_thread k c clear_yield <| rt_current_priority := u8 h |> <| rt_current_thread := Some t |>).
    assert (Hpc : prio_ok (threads k c)) by (apply (tk_prio _ _ (Ho c)); rewrite Hneed; reflexivity).
    assert (E2 : threads k2 c = clear_yield (threads k c)) by apply set_thread_threads.
    destruct (insert_spec k2 c) as (g & E & Hl3 & Hg3).
    { destruct Hl; split; assumption. } { destruct Hg; split; assumption. }
    { rewrite E2. destruct Hpc. split; assumption. } { exact Hu. } { cbn. congruence. }
    cbv zeta in *. rewrite E. cbn [mbind option_bind]. rewrite E2 in *.
    change (current_priority (clear_yield (threads k c))) with (current_priority (threads k c)) in *.
    match type of Hl3 with lists_ok ?x => set (k3 := x) in * end.
    assert (E3o : forall u, u <> c -> threads k3 u = threads k u)
      by (intros u Hu'; unfold k3, k2; cbn; rewrite !upd_other by assumption; reflexivity).
    assert (E3c : threads k3 c = with_stat RT_THREAD_READY (clear_yield (threads k c)))
      by (unfold k3; cbn; rewrite upd_same; rewrite upd_same; reflexivity).
    assert (L3 : forall l, lists k3 l = if decide (l = Ready (current_priority (threads k c)))
                                      then lists k l ++ [c] else lists k l).
    { intros l. unfold k3. cbn. unfold upd. destruct (decide _) as [->|]; reflexivity. }
    assert (M3 : forall u l, u <> c -> u ∈ lists k3 l <-> u ∈ lists k l).
    { intros u l Hu'. rewrite L3. destruct (decide _); [|reflexivity].
      rewrite elem_of_app, list_elem_of_singleton. tauto. }
    assert (Et : threads k3 t = threads k t) by (apply E3o; assumption).
    destruct (run_spec k3 t Hl3 Hg3) as (k' & Ek & Hok & Hf & Hc' & Hr' & Hoth & Hlists).
    + intros u Hut. destruct (decide (u = c)) as [->|Huc].
      * split; rewrite E3c, ?thread_stat_with by (unfold RT_THREAD_READY; lia).
        -- intros _. destruct Hpc. split; assumption.
        -- intros l Hl0. rewrite L3 in Hl0. destruct (decide _) as [->|]; [auto|]. destruct (Hu _ Hl0).
        -- intros _. rewrite L3, decide_True by reflexivity. apply elem_of_app. right. left.
        -- discriminate.
        -- cbn. congruence.
      * apply (thread_ok_same k); auto. cbn. split; congruence.
    + rewrite Et. exact Hpr.
    + rewrite Et. intros l. rewrite M3 by assumption. apply Hlt.
    + reflexivity.
    + rewrite Et. auto.
    + exists k'. split; [exact Ek|]. split; [exact Hok|]. split; [|split; [exact Hc'|split; [exact Hr'|]]].
      * apply (sched_frame_trans k k3); [|exact Hf]. split; try reflexivity.
        -- intros l. pose proof (L3 l) as L. destruct l; try exact I; rewrite L, decide_False by discriminate; reflexivity.
        -- intros u. destruct (decide (u = c)) as [->|Huc]; [rewrite E3c; reflexivity|].
           rewrite E3o by assumption. apply stat_eta.
        -- intros u. destruct (decide (u = c)) as [->|Huc]; [|left; rewrite E3o by assumption; reflexivity].
           right. rewrite E3c, thread_stat_with by (unfold RT_THREAD_READY; lia). auto.
      * intros p. rewrite Hlists, L3. destruct (Z.eqb_spec p (current_priority (threads k c))) as [->|Hp].
        -- rewrite decide_True by reflexivity. rewrite filter_app. f_equal.
           rewrite filter_cons, decide_True by congruence. reflexivity.
        -- rewrite decide_False by congruence. rewrite app_nil_r. reflexivity.
  - apply Z.eqb_neq in Hneed. cbn [mbind option_bind].
    set (k2 := k <| rt_current_priority := u8 h |> <| rt_current_thread := Some t |>).
    destruct (run_spec k2 t) as (k' & Ek & Hok & Hf & Hc' & Hr' & Hoth & Hlists).
    { destruct Hl; split; assumption. } { destruct Hg; split; assumption. }
    { intros u Hut. destruct (Ho u) as [H1 H2 H3 H4 H5]. split; auto.
      - intros H. specialize (H4 H). assert (u = c) by congruence. subst. contradiction.
      - cbn. congruence. }
    { exact Hpr. } { exact Hlt. } { reflexivity. } { auto. }
    exists k'. split; [exact Ek|]. split; [exact Hok|]. split; [|split; [exact Hc'|split; [exact Hr'|]]].
    + destruct Hf. split; assumption.
    + intros p. rewrite Hlists, app_nil_r. reflexivity.
Qed.

(** The processor stays with [c]: it runs and no other ready thread may preempt it. *)
Record kept (k k' : Kernel) (c : nat) : Prop := {
  kp_lists : forall l, lists k' l = lists k l;
  kp_threads : forall u, u <> c -> threads k' u = threads k u;
  kp_why : rt_thread_ready_priority_group k = 0 \/ thread_stat (threads k c) = RT_THREAD_RUNNING;
  kp_yield : has_bits (stat (threads k c)) RT_THREAD_STAT_YIELD = true ->
    lists k (Ready (current_priority (threads k c))) = [];
}.

Definition best_running (k : Kernel) (c : nat) : Prop :=
  forall t, thread_stat (threads k t) = RT_THREAD_READY ->
    thread_stat (threads k c) = RT_THREAD_RUNNING /\
    current_priority (threads k c) <= current_priority (threads k t).

Lemma frame_priority k k' t : sched_frame k k' -> current_priority (threads k' t) = current_priority (threads k t).
Proof. intros F. rewrite (sf_threads _ _ F t). reflexivity. Qed.

Lemma no_lower_ready k h t :
  sched_ok k -> (forall p, 0 <= p < h -> lists k (Ready p) = []) ->
  thread_stat (threads k t) = RT_THREAD_READY -> h <= current_priority (threads k t).
Proof.
  intros [_ _ Ho] Hlow Hst. destruct (Ho t) as [H1 _ H3 _ _]. specialize (H3 Hst).
  destruct (Z.le_gt_cases h (current_priority (threads k t))) as [|Hlt]; [assumption|].
  rewrite Hlow in H3; [inversion H3|].
  split; [|exact Hlt]. apply po_range, H1. rewrite Hst. reflexivity.
Qed.

Lemma schedule_spec k c :
  sched_ok k -> rt_current_thread k = Some c -> rt_scheduler_lock_nest k = 0 ->
  exists k' c', rt_schedule k = Some k' /\ sched_ok k' /\ sched_frame k k' /\
    rt_current_thread k' = Some c' /\ best_running k' c' /\
    (c' = c /\ kept k k' c \/ c' <> c /\ switched k k' c c').
Proof.
  intros Hok Hc Hlock. pose proof Hok as [Hl Hg Ho]. unfold rt_schedule. rewrite Hlock. cbn [Z.eqb].
  destruct (Z.eqb_spec (rt_thread_ready_priority_group k) 0) as [Eg|Eg]; cbn [negb].
  { exists k, c. split; [reflexivity|]. split; [exact Hok|]. split; [apply sched_frame_refl|].
    assert (Hempty : forall p, 0 <= p < 32 -> lists k (Ready p) = []).
    { intros p Hp. pose proof (go_bits k Hg p Hp) as Hb. rewrite Eg, Z.bits_0 in Hb. symmetry in Hb.
      apply negb_false_iff, bool_decide_eq_true_1 in Hb. exact Hb. }
    split; [exact Hc|]. split; [|left; split; [reflexivity|split; auto]].
    2:{ intros _. destruct (lists k (Ready (current_priority (threads k c)))) as [|u q] eqn:E; [reflexivity|].
        assert (Hin : u ∈ lists k (Ready (current_priority (threads k c)))) by (rewrite E; left).
        destruct (tk_list _ _ (Ho u) _ Hin) as [Hu Hpu]. rewrite <- E. apply Hempty. rewrite <- Hpu.
        apply po_range, (tk_prio _ _ (Ho u)). rewrite Hu. reflexivity. }
    intros t Hst. exfalso. destruct (Ho t) as [H1 _ H3 _ _]. specialize (H3 Hst).
    pose proof (go_bits k Hg (current_priority (threads k t))) as Hb. rewrite Eg, Z.bits_0 in Hb.
    rewrite bool_decide_eq_false_2 in Hb; [|intros E; rewrite E in H3; inversion H3].
    discriminate Hb. apply po_range, H1. rewrite Hst. reflexivity. }
  destruct (get_highest_spec k Hg Eg) as (t & q & h & Ek & Hh & Eq & Hlow). rewrite Ek, Hc.
  cbn [mbind option_bind].
  assert (Hin : t ∈ lists k (Ready h)) by (rewrite Eq; left).
  destruct (tk_list _ _ (Ho t) _ Hin) as [Hst Hpt].
  assert (Htc : t <> c) by (intros ->; destruct (tk_current _ _ (Ho c) Hc) as [A _]; contradiction).
  assert (Keep : thread_stat (threads k c) = RT_THREAD_RUNNING ->
    current_priority (threads k c) < h \/
    current_priority (threads k c) = h /\ has_bits (stat (threads k c)) RT_THREAD_STAT_YIELD = false ->
    exists k' c', (k ← rt_schedule_remove_thread k c; Some (set_thread k c (with_stat RT_THREAD_RUNNING))) = Some k' /\
    sched_ok k' /\ sched_frame k k' /\ rt_current_thread k' = Some c' /\ best_running k' c' /\
    (c' = c /\ kept k k' c \/ c' <> c /\ switched k k' c c')).
  { intros Hrun Hle. pose proof (running_unlinked k c (Ho c) Hrun) as Hu.
    destruct (run_spec k c Hl Hg) as (k' & E & Hok' & Hf & Hc' & Hr' & Hoth & Hlists).
    { intros u _. apply Ho. } { apply (tk_prio _ _ (Ho c)). rewrite Hrun. reflexivity. }
    { intros l Hl0. destruct (Hu l Hl0). } { exact Hc. } { auto. }
    exists k', c. split; [exact E|]. split; [exact Hok'|]. split; [exact Hf|]. split; [exact Hc'|].
    split; [|left; split; [reflexivity|split; auto]].
    2:{ intros l; rewrite Hlists; apply filter_none, Hu. }
    2:{ intros Hy. apply Hlow. destruct Hle as [Hle|[_ Hle]]; [|congruence]. split; [|exact Hle].
        apply po_range, (tk_prio _ _ (Ho c)). rewrite Hrun. reflexivity. }
    intros u Hu'. split; [exact Hr'|]. rewrite !(frame_priority k k') by assumption.
    assert (u <> c) by (intros ->; rewrite Hr' in Hu'; discriminate).
    rewrite Hoth in Hu' by assumption. pose proof (no_lower_ready k h u Hok Hlow Hu'). lia. }
  destruct (schedule_switch k c t q h Hok Hc Eq Htc) as (k' & E & Hok' & Hf & Hc' & Hr' & Hready).
  assert (Switch : (thread_stat (threads k c) = RT_THREAD_RUNNING -> h < current_priority (threads k c) \/
      h = current_priority (threads k c) /\ has_bits (stat (threads k c)) RT_THREAD_STAT_YIELD = true) ->
    exists k'' c', Some k' = Some k'' /\ sched_ok k'' /\ sched_frame k k'' /\ rt_current_thread k'' = Some c' /\
      best_running k'' c' /\ (c' = c /\ kept k k'' c \/ c' <> c /\ switched k k'' c c')).
  { intros Hwhy. exists k', t. split; [reflexivity|]. split; [exact Hok'|]. split; [exact Hf|].
    split; [exact Hc'|]. split.
    - intros u Hu'. split; [exact Hr'|]. rewrite !(frame_priority k k'), Hpt by assumption.
      assert (Hold : thread_stat (threads k u) = RT_THREAD_READY \/ thread_stat (threads k u) = RT_THREAD_RUNNING).
      { destruct (sf_stat _ _ Hf u) as [Es|[Es _]]; [left; congruence|exact Es]. }
      destruct Hold as [Hr|Hr]; [exact (no_lower_ready k h u Hok Hlow Hr)|].
      pose proof (tk_running _ _ (Ho u) Hr) as Hcu. assert (u = c) as -> by congruence.
      destruct (Hwhy Hr); lia.
    - right. split; [exact Htc|]. split.
      + exists q. rewrite Hpt. exact Eq.
      + exact Hready.
      + rewrite Hpt. exact Hwhy. }
  destruct (Z.eqb_spec (thread_stat (threads k c)) RT_THREAD_RUNNING) as [Hrun|Hrun]; cbv zeta in *.
  - destruct (Z.ltb_spec (current_priority (threads k c)) h) as [Hlt|Hge].
    { rewrite decide_False by tauto. apply Keep; [exact Hrun|left; lia]. }
    destruct (Z.eqb_spec (current_priority (threads k c)) h) as [Heq|Hneq]; cbn [andb].
    + destruct (has_bits (stat (threads k c)) RT_THREAD_STAT_YIELD) eqn:Hy; cbn [negb].
      * rewrite decide_True by exact Htc. change (fun th => th <| stat := _ |>) with clear_yield.
        rewrite E. apply Switch. intros _. right. split; [lia|reflexivity].
      * rewrite decide_False by tauto. apply Keep; [exact Hrun|right; split; [exact Heq|reflexivity]].
    + rewrite decide_True by exact Htc. change (fun th => th <| stat := _ |>) with clear_yield.
      rewrite E. apply Switch. intros _. left. lia.
  - rewrite decide_True by exact Htc. rewrite E. apply Switch. intros H. contradiction.
Qed.

(** An unlinked thread other than the current one joins its ready list. *)
Lemma insert_other_ok k t :
  lists_ok k -> group_ok k -> (forall u, u <> t -> thread_ok k u) -> prio_ok (threads k t) -> unlinked k t ->
  rt_current_thread k <> Some t ->
  exists g,
    let k' := tlist_insert_before (set_thread k t (with_stat RT_THREAD_READY))
                (Ready (current_priority (threads k t))) t <| rt_thread_ready_priority_group := g |> in
    rt_schedule_insert_thread k t = Some k' /\ sched_ok k' /\
    threads k' t = with_stat RT_THREAD_READY (threads k t) /\ (forall u, u <> t -> threads k' u = threads k u) /\
    (forall l, lists k' l = lists k l ++ if decide (l = Ready (current_priority (threads k t))) then [t] else []).
Proof.
  intros Hl Hg Ho Hp Hu Hc. destruct (insert_spec k t Hl Hg Hp Hu Hc) as (g & E & Hl' & Hg').
  exists g. cbv zeta in *. split; [exact E|]. clear E.
  set (k1 := set_thread k t (with_stat RT_THREAD_READY)) in *.
  set (p0 := current_priority (threads k t)) in *.
  set (k2 := tlist_insert_before k1 (Ready p0) t <| rt_thread_ready_priority_group := g |>) in *.
  assert (E1 : threads k2 t = with_stat RT_THREAD_READY (threads k t)) by apply (set_thread_threads k t).
  assert (E1o : forall u, u <> t -> threads k2 u = threads k u) by (intros u Hne; apply (set_thread_other k t _ u Hne)).
  assert (L : forall l, lists k2 l = lists k l ++ if decide (l = Ready p0) then [t] else []).
  { intros l. unfold k2. cbn. unfold upd. destruct (decide (l = Ready p0)) as [->|]; [|rewrite app_nil_r]; reflexivity. }
  split; [|auto]. split; [exact Hl'|exact Hg'|]. intros u. destruct (decide (u = t)) as [->|Hne].
  - split; rewrite E1, ?thread_stat_with by (unfold RT_THREAD_READY; lia).
    + intros _. apply prio_ok_with_stat, Hp.
    + intros l. rewrite L, elem_of_app. intros [H|H]; [destruct (Hu l H)|].
      destruct (decide (l = Ready p0)) as [->|]; [|inversion H]. split; reflexivity.
    + intros _. rewrite L, decide_True by reflexivity. apply elem_of_app. right. left.
    + discriminate.
    + intros H. contradiction.
  - apply (thread_ok_same k); [apply E1o, Hne| |reflexivity|apply Ho, Hne].
    intros l. rewrite L, elem_of_app. destruct (decide _); [rewrite list_elem_of_singleton|]; [tauto|].
    split; [intros [H|H]; [exact H|inversion H]|auto].
Qed.

(** ** Properties *)

(** The table-driven search of the first set bit in kservice.c never leaves
    its table and computes what the processor's version computes, on every
    32-bit value: the scheduler may be compiled with either. *)
Theorem rt_ffs_equivalent value :
  0 <= value < 4294967296 -> __rt_ffs value = Some (__rt_ffs_cpu value).
Proof.
  intros Hv. destruct value as [|p|p]; [reflexivity| |lia].
  destruct (rt_ffs_spec (Zpos p) ltac:(lia)) as (n & -> & Hn & Hb & Hl).
  destruct (ffs_pos_spec p) as (n' & E & Hn' & Hb' & Hl'). cbn [__rt_ffs_cpu]. rewrite E.
  rewrite (first_bit_unique (Zpos p) n n') by (lia || assumption). reflexivity.
Qed.

Lemma rt_ffs_equivalent_witness :
  (0 <= 0x50000 < 4294967296) /\ __rt_ffs 0x50000 = Some (__rt_ffs_cpu 0x50000).
Proof. split; [lia | apply rt_ffs_equivalent; lia]. Defined.
