(* ===== verification/Timer.v ===== *)
(** Timers (src/rt-thread/src/timer.c with its one-level skip list): the two
    timer lists, insertion in the order of the deadlines, stopping and the
    control operations.  Starting a timer may resume the timer thread and is in
    Thread.v; the expiry check is in Tick.v. *)

From S2P Require Import Prelude Kernel.
From Stdlib Require Import Sorted.

(** ** Definitions *)

Definition RT_TICK_HALF : Z := RT_TICK_MAX / 2.

Definition RT_TIMER_CTRL_SET_TIME : Z := 0.
Definition RT_TIMER_CTRL_GET_TIME : Z := 1.
Definition RT_TIMER_CTRL_SET_ONESHOT : Z := 2.
Definition RT_TIMER_CTRL_SET_PERIODIC : Z := 3.

Definition _rt_timer_init (timeout : timeout_fn) (time flag0 : Z) : Timer :=
  mkTimer (clear_bits flag0 RT_TIMER_FLAG_ACTIVATED) timeout time 0.

Definition _rt_timer_remove (k : Kernel) (x : timer_id) : Kernel :=
  k <| rt_timer_list := filter (fun y => y <> x) (rt_timer_list k) |>
    <| rt_soft_timer_list := filter (fun y => y <> x) (rt_soft_timer_list k) |>.

Definition rt_timer_list_next_timeout (k : Kernel) (timer_list : list timer_id) : Z :=
  match timer_list with
  | [] => RT_TICK_MAX
  | x :: _ => timeout_tick (timers k x)
  end.
Definition rt_timer_next_timeout_tick (k : Kernel) : Z :=
  rt_timer_list_next_timeout k (rt_timer_list k).

Definition rt_timer_init (k : Kernel) (x : timer_id) (timeout : timeout_fn) (time flag0 : Z) : Kernel :=
  set_timer k x (fun _ => _rt_timer_init timeout time flag0).

Definition rt_timer_detach (k : Kernel) (x : timer_id) : Kernel := _rt_timer_remove k x.

(** The search of [rt_timer_start] for the place of a timer with deadline
    [deadline]: behind the timers of the same deadline. *)
Fixpoint timer_insert (tick_of : timer_id -> Z) (deadline : Z) (x : timer_id) (l : list timer_id)
    : list timer_id :=
  match l with
  | [] => [x]
  | t :: l' =>
      if u32 (tick_of t - deadline) =? 0 then t :: timer_insert tick_of deadline x l'
      else if u32 (tick_of t - deadline) <? RT_TICK_HALF then x :: l
      else t :: timer_insert tick_of deadline x l'
  end.

Definition rt_timer_stop (k : Kernel) (x : timer_id) : Kernel * Z :=
  if negb (has_bits (flag (timers k x)) RT_TIMER_FLAG_ACTIVATED) then (k, - RT_ERROR)
  else
    let k := _rt_timer_remove k x in
    (set_timer k x (fun t => t <| flag := clear_bits (flag t) RT_TIMER_FLAG_ACTIVATED |>), RT_EOK).

(** [arg] is the tick pointed to; the second component what it then holds. *)
Definition rt_timer_control (k : Kernel) (x : timer_id) (cmd arg : Z) : Kernel * Z :=
  if cmd =? RT_TIMER_CTRL_GET_TIME then (k, tm_init_tick (timers k x))
  else if cmd =? RT_TIMER_CTRL_SET_TIME then (set_timer k x (fun t => t <| tm_init_tick := arg |>), arg)
  else if cmd =? RT_TIMER_CTRL_SET_ONESHOT then
    (set_timer k x (fun t => t <| flag := clear_bits (flag t) RT_TIMER_FLAG_PERIODIC |>), arg)
  else if cmd =? RT_TIMER_CTRL_SET_PERIODIC then
    (set_timer k x (fun t => t <| flag := Z.lor (flag t) RT_TIMER_FLAG_PERIODIC |>), arg)
  else (k, arg).

Definition rt_system_timer_init (k : Kernel) : Kernel := k <| rt_timer_list := [] |>.
Definition rt_system_timer_thread_init (k : Kernel) : Kernel := k <| rt_soft_timer_list := [] |>.

(** ** The order of the timer list

    Deadlines are compared on the 32-bit circle; [offset base d] is the distance
    of the deadline [d] after the tick [base]. *)

Definition offset (base d : Z) : Z := u32 (d - base).

Definition timer_order (base : Z) (tick_of : timer_id -> Z) (x y : timer_id) : Prop :=
  offset base (tick_of x) <= offset base (tick_of y).

(** Sorted by deadline, all deadlines in the window of [bound] ticks after [base]. *)
Definition timers_sorted (base bound : Z) (tick_of : timer_id -> Z) (l : list timer_id) : Prop :=
  StronglySorted (timer_order base tick_of) l /\
  Forall (fun x => offset base (tick_of x) < bound) l.

(** ** Lemmas *)

Lemma offset_range base d : 0 <= offset base d < 4294967296.
Proof. apply u32_range. Qed.

Lemma offset_diff base a b :
  u32 (a - b) = u32 (offset base a - offset base b).
Proof.
  unfold offset. rewrite u32_sub_mod_l, u32_sub_mod_r. f_equal. lia.
Qed.

(** The comparison of the search decides the order of the offsets. *)
Lemma deadline_compare base a b :
  offset base a < RT_TICK_HALF -> offset base b < RT_TICK_HALF ->
  (u32 (a - b) =? 0) = (offset base a =? offset base b) /\
  (u32 (a - b) <? RT_TICK_HALF) = (offset base b <=? offset base a).
Proof.
  intros Ha Hb. rewrite (offset_diff base).
  pose proof (offset_range base a). pose proof (offset_range base b).
  change RT_TICK_HALF with 2147483647 in *. unfold u32.
  split; bool_cases; try reflexivity; exfalso; Z.div_mod_to_equations; lia.
Qed.

Lemma timer_insert_perm tick_of d x l y : y ∈ timer_insert tick_of d x l <-> y = x \/ y ∈ l.
Proof.
  induction l as [|t l IH]; cbn [timer_insert].
  - rewrite list_elem_of_singleton. split; [auto|intros [H|H]; [exact H|inversion H]].
  - destruct (_ =? 0); [|destruct (_ <? _)]; rewrite ?elem_of_cons, ?IH; tauto.
Qed.

Lemma timer_insert_nodup tick_of d x l : x ∉ l -> NoDup l -> NoDup (timer_insert tick_of d x l).
Proof.
  induction l as [|t l IH]; cbn [timer_insert]; intros Hx Hn.
  - apply NoDup_singleton.
  - rewrite NoDup_cons in Hn. rewrite not_elem_of_cons in Hx. destruct Hn, Hx.
    assert (NoDup (t :: timer_insert tick_of d x l)).
    { apply NoDup_cons. split; [|apply IH; assumption]. rewrite timer_insert_perm. intros [->|]; tauto. }
    destruct (_ =? 0); [assumption|]. destruct (_ <? _); [|assumption].
    apply NoDup_cons. split; [rewrite not_elem_of_cons; tauto|]. apply NoDup_cons. split; assumption.
Qed.

(** The place found: behind all timers due no later, before all timers due later. *)
Lemma timer_insert_place base tick_of x l :
  timers_sorted base RT_TICK_HALF tick_of l -> offset base (tick_of x) < RT_TICK_HALF ->
  exists l1 l2, l = l1 ++ l2 /\ timer_insert tick_of (tick_of x) x l = l1 ++ x :: l2 /\
    Forall (fun y => timer_order base tick_of y x) l1 /\
    Forall (fun y => offset base (tick_of x) < offset base (tick_of y)) l2.
Proof.
  intros [Hs Hb] Hx. revert Hs Hb. induction l as [|t l IH]; intros Hs Hb; cbn [timer_insert].
  { exists [], []. auto. }
  apply StronglySorted_inv in Hs as [Hs Ht]. apply Forall_cons in Hb as [Hbt Hb].
  destruct (deadline_compare base (tick_of t) (tick_of x) Hbt Hx) as [-> ->].
  destruct (IH Hs Hb) as (l1 & l2 & -> & El & H1 & H2).
  destruct (Z.eqb_spec (offset base (tick_of t)) (offset base (tick_of x))) as [E|E];
    [|destruct (Z.leb_spec (offset base (tick_of x)) (offset base (tick_of t))) as [Hle|Hgt]].
  - exists (t :: l1), l2. rewrite El. repeat split; auto. apply Forall_cons. split; [|exact H1].
    unfold timer_order. lia.
  - exists [], (t :: l1 ++ l2). repeat split; auto. apply Forall_cons. split; [lia|].
    eapply Forall_impl; [exact Ht|]. intros y Hy. unfold timer_order in Hy. cbv beta in *. lia.
  - exists (t :: l1), l2. rewrite El. repeat split; auto. apply Forall_cons. split; [|exact H1].
    unfold timer_order. lia.
Qed.

Lemma StronglySorted_app_iff {A} (R : A -> A -> Prop) l1 l2 :
  StronglySorted R (l1 ++ l2) <->
  StronglySorted R l1 /\ StronglySorted R l2 /\ Forall (fun x => Forall (R x) l2) l1.
Proof.
  induction l1 as [|a l1 IH]; cbn.
  - split; [intros H; repeat split; auto; constructor|tauto].
  - split.
    + intros H. apply StronglySorted_inv in H as [H Ha]. apply IH in H as (H1 & H2 & H3).
      apply Forall_app in Ha as [Ha1 Ha2]. repeat split; auto; constructor; auto.
    + intros (H1 & H2 & H3). apply StronglySorted_inv in H1 as [H1 Ha]. apply Forall_cons in H3 as [H3 H4].
      constructor; [apply IH; auto|apply Forall_app; auto].
Qed.

Lemma timer_insert_sorted base tick_of x l :
  timers_sorted base RT_TICK_HALF tick_of l -> offset base (tick_of x) < RT_TICK_HALF ->
  timers_sorted base RT_TICK_HALF tick_of (timer_insert tick_of (tick_of x) x l).
Proof.
  intros Hl Hx. destruct (timer_insert_place base tick_of x l Hl Hx) as (l1 & l2 & -> & -> & H1 & H2).
  destruct Hl as [Hs Hb]. apply StronglySorted_app_iff in Hs as (S1 & S2 & S3).
  apply Forall_app in Hb as [B1 B2]. split.
  - apply StronglySorted_app_iff. split; [exact S1|]. split.
    + constructor; [exact S2|]. eapply Forall_impl; [exact H2|]. intros y Hy. unfold timer_order. cbv beta in Hy. lia.
    + rewrite Forall_forall in *. intros y Hy. apply Forall_cons. split; [apply H1, Hy|apply S3, Hy].
  - apply Forall_app. split; [exact B1|]. apply Forall_cons. auto.
Qed.

Lemma timers_sorted_filter base bound tick_of P `{!forall x, Decision (P x)} l :
  timers_sorted base bound tick_of l -> timers_sorted base bound tick_of (filter P l).
Proof.
  intros [Hs Hb]. split.
  - induction Hs as [|a l Hs IH Ha]; [constructor|]. apply Forall_cons in Hb as [_ Hb].
    rewrite filter_cons. destruct (decide (P a)); [|auto]. constructor; [auto|].
    rewrite Forall_forall in *. intros y Hy. apply Ha. apply list_elem_of_filter in Hy. tauto.
  - rewrite Forall_forall in *. intros y Hy. apply Hb. apply list_elem_of_filter in Hy. tauto.
Qed.

Lemma timers_sorted_ext base bound f g l :
  (forall x, x ∈ l -> f x = g x) -> timers_sorted base bound f l -> timers_sorted base bound g l.
Proof.
  intros E [Hs Hb]. split.
  - induction Hs as [|a l Hs IH Ha]; constructor.
    + apply IH; [intros x Hx; apply E; right; exact Hx|]. apply Forall_cons in Hb. tauto.
    + rewrite Forall_forall in *. intros y Hy. specialize (Ha y Hy). unfold timer_order in *.
      rewrite <- !E by (left || right; exact Hy). exact Ha.
  - rewrite Forall_forall in *. intros y Hy. rewrite <- E by exact Hy. apply Hb, Hy.
Qed.
