(* ===== verification/Thread.v ===== *)
(** Thread management (src/rt-thread/src/thread.c), starting a timer
    ([rt_timer_start] of src/rt-thread/src/timer.c) and the tick conversion of
    src/rt-thread/src/clock.c.

    [None] is a failed assertion (the kernel stops) or a memory error.  A call
    that lets another thread run is cut at [rt_schedule]: [_begin] is the part up
    to and including the scheduling, [_end] the part that runs when the thread
    has the processor again.  Hooks, object names and stacks are not modelled. *)

From S2P Require Import Prelude Kernel Scheduler Timer.

(** ** Definitions *)

Definition rt_thread_suspend (k : Kernel) (t : nat) : option (Kernel * Z) :=
  let st := thread_stat (threads k t) in
  if negb (st =? RT_THREAD_READY) && negb (st =? RT_THREAD_RUNNING) then Some (k, - RT_ERROR)
  else if (st =? RT_THREAD_RUNNING) && negb (bool_decide (rt_current_thread k = Some t)) then None
  else
    k ← rt_schedule_remove_thread k t;
    let k := set_thread k t (with_stat RT_THREAD_SUSPEND) in
    let '(k, _) := rt_timer_stop k (ThreadTimer t) in
    Some (k, RT_EOK).

Definition rt_thread_resume (k : Kernel) (t : nat) : option (Kernel * Z) :=
  if negb (thread_stat (threads k t) =? RT_THREAD_SUSPEND) then Some (k, - RT_ERROR)
  else
    let k := tlist_remove k t in
    let '(k, _) := rt_timer_stop k (ThreadTimer t) in
    k ← rt_schedule_insert_thread k t;
    Some (k, RT_EOK).

Definition rt_timer_start (k : Kernel) (x : timer_id) : option (Kernel * Z) :=
  let k := _rt_timer_remove k x in
  let k := set_timer k x (fun t => t <| flag := clear_bits (flag t) RT_TIMER_FLAG_ACTIVATED |>) in
  if negb (tm_init_tick (timers k x) <? RT_TICK_HALF) then None
  else
    let k := set_timer k x (fun t => t <| timeout_tick := u32 (rt_tick k + tm_init_tick t) |>) in
    let tick_of y := timeout_tick (timers k y) in
    let soft := has_bits (flag (timers k x)) RT_TIMER_FLAG_SOFT_TIMER in
    let k := if soft
             then k <| rt_soft_timer_list := timer_insert tick_of (tick_of x) x (rt_soft_timer_list k) |>
             else k <| rt_timer_list := timer_insert tick_of (tick_of x) x (rt_timer_list k) |> in
    let k := set_timer k x (fun t => t <| flag := Z.lor (flag t) RT_TIMER_FLAG_ACTIVATED |>) in
    if soft && (thread_stat (threads k (timer_thread k)) =? RT_THREAD_SUSPEND) then
      '(k, _) ← rt_thread_resume k (timer_thread k);
      k ← rt_schedule k;
      Some (k, RT_EOK)
    else Some (k, RT_EOK).

(** [_rt_thread_init] on a control block and stack that are in place. *)
Definition _rt_thread_init (k : Kernel) (t : nat) (priority tick : Z) (static : bool) : option Kernel :=
  let k := tlist_remove k t in
  if negb (priority <? RT_THREAD_PRIORITY_MAX) then None
  else
    let k := set_thread k t (fun th =>
      mkThread RT_THREAD_INIT priority priority 0 tick tick RT_EOK (event_set th) (event_info th) false static) in
    Some (rt_timer_init k (ThreadTimer t) (rt_thread_timeout_fn t) 0 0).

Definition rt_thread_self (k : Kernel) : option nat := rt_current_thread k.

Definition rt_thread_startup (k : Kernel) (t : nat) : option (Kernel * Z) :=
  if negb (thread_stat (threads k t) =? RT_THREAD_INIT) then None
  else
    let k := set_thread k t (fun th => th <| current_priority := init_priority th |>) in
    let k := set_thread k t (fun th => th <| number_mask := u32 (Z.shiftl 1 (current_priority th)) |>
                                          <| stat := RT_THREAD_SUSPEND |>) in
    '(k, _) ← rt_thread_resume k t;
    match rt_thread_self k with
    | Some _ => k ← rt_schedule k; Some (k, RT_EOK)
    | None => Some (k, RT_EOK)
    end.

(** The end of [rt_thread_exit] and [rt_thread_detach]: a static thread without
    cleanup function leaves the object list, any other joins the defunct list. *)
Definition thread_dispose (k : Kernel) (t : nat) : Kernel :=
  if systemobject (threads k t) && negb (cleanup (threads k t)) then k else tlist_insert_after k Defunct t.

Definition rt_thread_exit (k : Kernel) : option Kernel :=
  t ← rt_thread_self k;
  k ← rt_schedule_remove_thread k t;
  let k := set_thread k t (fun th => th <| stat := RT_THREAD_CLOSE |>) in
  let k := rt_timer_detach k (ThreadTimer t) in
  rt_schedule (thread_dispose k t).

Definition rt_thread_detach (k : Kernel) (t : nat) : option (Kernel * Z) :=
  if negb (systemobject (threads k t)) then None
  else
    k ← (if negb (thread_stat (threads k t) =? RT_THREAD_INIT)
         then rt_schedule_remove_thread k t else Some k);
    let k := rt_timer_detach k (ThreadTimer t) in
    let k := set_thread k t (fun th => th <| stat := RT_THREAD_CLOSE |>) in
    Some (thread_dispose k t, RT_EOK).

Definition rt_thread_delete (k : Kernel) (t : nat) : option (Kernel * Z) :=
  if systemobject (threads k t) then None
  else
    k ← (if negb (thread_stat (threads k t) =? RT_THREAD_INIT)
         then rt_schedule_remove_thread k t else Some k);
    let k := rt_timer_detach k (ThreadTimer t) in
    let k := set_thread k t (fun th => th <| stat := RT_THREAD_CLOSE |>) in
    Some (tlist_insert_after k Defunct t, RT_EOK).

Definition rt_thread_yield (k : Kernel) : option (Kernel * Z) :=
  k ← rt_schedule k; Some (k, RT_EOK).

(** The common way into a timed wait: set the time, start the thread's timer. *)
Definition start_thread_timer (k : Kernel) (t : nat) (tick : Z) : option Kernel :=
  let '(k, _) := rt_timer_control k (ThreadTimer t) RT_TIMER_CTRL_SET_TIME (u32 tick) in
  '(k, _) ← rt_timer_start k (ThreadTimer t);
  Some k.

Definition rt_thread_sleep_begin (k : Kernel) (tick : Z) : option Kernel :=
  t ← rt_thread_self k;
  '(k, _) ← rt_thread_suspend k t;
  k ← start_thread_timer k t tick;
  rt_schedule k.

Definition clear_timeout_error (k : Kernel) (t : nat) : Kernel :=
  if error (threads k t) =? - RT_ETIMEOUT then set_thread k t (fun th => th <| error := RT_EOK |>) else k.

Definition rt_thread_sleep_end (k : Kernel) (t : nat) : Kernel * Z := (clear_timeout_error k t, RT_EOK).

Definition rt_thread_delay_begin (k : Kernel) (tick : Z) : option Kernel := rt_thread_sleep_begin k tick.

(** [*tick] is passed and returned; [true]: the thread waits. *)
Definition rt_thread_delay_until_begin (k : Kernel) (tick inc_tick : Z) : option (Kernel * Z * bool) :=
  t ← rt_thread_self k;
  if u32 (rt_tick k - tick) <? inc_tick then
    let tick := u32 (u32 (rt_tick k - tick) + inc_tick) in
    '(k, _) ← rt_thread_suspend k t;
    k ← start_thread_timer k t tick;
    k ← rt_schedule k;
    Some (k, tick, true)
  else Some (k, rt_tick k, false).
Definition rt_thread_delay_until_end (k : Kernel) (t : nat) : Kernel * Z := (clear_timeout_error k t, rt_tick k).

Definition rt_tick_from_millisecond (ms : Z) : Z :=
  if ms <? 0 then u32 RT_WAITING_FOREVER
  else
    let tick := u32 (RT_TICK_PER_SECOND * (ms ÷ 1000)) in
    u32 (tick + (RT_TICK_PER_SECOND * (Z.rem ms 1000) + 999) ÷ 1000).

Definition rt_thread_mdelay_begin (k : Kernel) (ms : Z) : option Kernel :=
  rt_thread_sleep_begin k (rt_tick_from_millisecond ms).

Definition RT_THREAD_CTRL_STARTUP : Z := 0.
Definition RT_THREAD_CTRL_CLOSE : Z := 1.
Definition RT_THREAD_CTRL_CHANGE_PRIORITY : Z := 2.

(** A shift by 32 or more is undefined in C; callers pass a priority below 32. *)
Definition set_priority (p : Z) (th : Thread) : Thread :=
  th <| current_priority := p |> <| number_mask := u32 (Z.shiftl 1 p) |>.

Definition rt_thread_control (k : Kernel) (t : nat) (cmd arg : Z) : option (Kernel * Z) :=
  if cmd =? RT_THREAD_CTRL_CHANGE_PRIORITY then
    if thread_stat (threads k t) =? RT_THREAD_READY then
      k ← rt_schedule_remove_thread k t;
      k ← rt_schedule_insert_thread (set_thread k t (set_priority arg)) t;
      Some (k, RT_EOK)
    else Some (set_thread k t (set_priority arg), RT_EOK)
  else if cmd =? RT_THREAD_CTRL_STARTUP then rt_thread_startup k t
  else if cmd =? RT_THREAD_CTRL_CLOSE then rt_thread_delete k t
  else Some (k, RT_EOK).

(** The thread timer's timeout function. *)
Definition rt_thread_timeout (k : Kernel) (t : nat) : option Kernel :=
  if negb (thread_stat (threads k t) =? RT_THREAD_SUSPEND) then None
  else
    let k := set_thread k t (fun th => th <| error := - RT_ETIMEOUT |>) in
    let k := tlist_remove k t in
    k ← rt_schedule_insert_thread k t;
    rt_schedule k.

(** ** The invariant of threads and timers *)

(** Thread timers: one-shot hard timers running [rt_thread_timeout] on their
    thread, active only while it is suspended, in the list in deadline order. *)
Section Invariant.
(** The tick from which the deadlines are ordered: the current one, or the one
    before while the timer interrupt works. *)
Variable base : Z.

Record timers_ok (k : Kernel) : Prop := {
  to_tick : 0 <= rt_tick k < 4294967296;
  to_nodup : NoDup (rt_timer_list k);
  to_thread : forall t, timeout_func (timers k (ThreadTimer t)) = rt_thread_timeout_fn t /\
    has_bits (flag (timers k (ThreadTimer t))) RT_TIMER_FLAG_PERIODIC = false /\
    has_bits (flag (timers k (ThreadTimer t))) RT_TIMER_FLAG_SOFT_TIMER = false;
  to_linked : forall t, ThreadTimer t ∈ rt_timer_list k ->
    has_bits (flag (timers k (ThreadTimer t))) RT_TIMER_FLAG_ACTIVATED = true /\
    thread_stat (threads k t) = RT_THREAD_SUSPEND;
  to_soft : forall t, ThreadTimer t ∉ rt_soft_timer_list k;
  to_sorted : timers_sorted base RT_TICK_HALF (fun x => timeout_tick (timers k x)) (rt_timer_list k);
}.

Record kernel_ok (k : Kernel) : Prop := {
  ko_sched : sched_ok k;
  ko_timers : timers_ok k;
}.

(** Two states that differ in timers only. *)
Record sched_same (k k' : Kernel) : Prop := {
  ss_tick : rt_tick k' = rt_tick k;
  ss_threads : threads k' = threads k;
  ss_lists : lists k' = lists k;
  ss_group : rt_thread_ready_priority_group k' = rt_thread_ready_priority_group k;
  ss_current : rt_current_thread k' = rt_current_thread k;
  ss_lock : rt_scheduler_lock_nest k' = rt_scheduler_lock_nest k;
  ss_nest : rt_interrupt_nest k' = rt_interrupt_nest k;
}.

Lemma sched_same_trans k1 k2 k3 : sched_same k1 k2 -> sched_same k2 k3 -> sched_same k1 k3.
Proof. intros [] []. split; congruence. Qed.

Lemma sched_ok_same k k' : sched_same k k' -> sched_ok k -> sched_ok k'.
Proof.
  intros [? Et El Eg Ec _ _] [[Hn Ho] [Hr Hb] Hth]. split.
  - split; rewrite El; assumption.
  - split; rewrite ?Eg, ?El; assumption.
  - intros t. apply (thread_ok_same k); rewrite ?Et, ?El, ?Ec; try reflexivity. apply Hth.
Qed.

(** Scheduling does not disturb the timers' invariant. *)
Lemma timers_ok_frame k k' : sched_frame k k' -> timers_ok k -> timers_ok k'.
Proof.
  intros F [Hk Hn Ht Hl Hs Ho]. destruct F as [E1 E2 E3 E4 _ _ _ _ Hst]. split.
  - rewrite E1. exact Hk.
  - rewrite E3. exact Hn.
  - rewrite E2. exact Ht.
  - rewrite E3, E2. intros t H. specialize (Hl t H) as [A B]. split; [exact A|].
    destruct (Hst t) as [->|[[C|C] _]]; [exact B|rewrite B in C; discriminate..].
  - rewrite E4. exact Hs.
  - rewrite E2, E3. exact Ho.
Qed.

Lemma schedule_kernel_ok k c :
  kernel_ok k -> rt_current_thread k = Some c ->
  exists k' c', rt_schedule k = Some k' /\ kernel_ok k' /\ sched_frame k k' /\ rt_current_thread k' = Some c' /\
    (rt_scheduler_lock_nest k = 0 -> best_running k' c').
Proof.
  intros [Hs Ht] Hc. destruct (Z.eq_dec (rt_scheduler_lock_nest k) 0) as [E|E].
  - destruct (schedule_spec k c Hs Hc E) as (k' & c' & Ek & Hok & Hf & Hc' & Hb & _).
    exists k', c'. split_ands; auto. split; [exact Hok|]. apply (timers_ok_frame k); assumption.
  - exists k, c. unfold rt_schedule. rewrite (proj2 (Z.eqb_neq _ _)) by exact E.
    split_ands; auto; [split; assumption|apply sched_frame_refl|contradiction].
Qed.

Lemma set_timer_timers k x f : timers (set_timer k x f) x = f (timers k x).
Proof. cbn. apply upd_same. Qed.
Lemma set_timer_other k x f y : y <> x -> timers (set_timer k x f) y = timers k y.
Proof. intros H. cbn. apply upd_other, H. Qed.

Lemma timer_filter_none (x : timer_id) (l : list timer_id) : x ∉ l -> filter (fun y => y <> x) l = l.
Proof.
  intros H. induction l as [|a l IH]; [reflexivity|].
  rewrite not_elem_of_cons in H. rewrite filter_cons, decide_True by (intros ->; tauto).
  f_equal. apply IH. tauto.
Qed.

(** Unlinking a timer and clearing its flag. *)
Definition timer_off (k : Kernel) (x : timer_id) : Kernel :=
  set_timer (_rt_timer_remove k x) x (fun t => t <| flag := clear_bits (flag t) RT_TIMER_FLAG_ACTIVATED |>).

Lemma timer_off_same k x : sched_same k (timer_off k x).
Proof. split; reflexivity. Qed.

Lemma timer_off_fields k x y :
  timeout_func (timers (timer_off k x) y) = timeout_func (timers k y) /\
  timeout_tick (timers (timer_off k x) y) = timeout_tick (timers k y) /\
  tm_init_tick (timers (timer_off k x) y) = tm_init_tick (timers k y) /\
  (forall m, Z.land 1 m = 0 -> has_bits (flag (timers (timer_off k x) y)) m = has_bits (flag (timers k y)) m).
Proof.
  unfold timer_off. destruct (decide (y = x)) as [->|Hne].
  - rewrite set_timer_timers. repeat split. intros m Hm. apply clear_has, Hm.
  - rewrite set_timer_other by assumption. repeat split.
Qed.

Lemma timer_off_ok k x : timers_ok k -> timers_ok (timer_off k x) /\ x ∉ rt_timer_list (timer_off k x).
Proof.
  intros [Hk Hn Ht Hl Hs Ho]. split; [split|].
  - exact Hk.
  - cbn. apply NoDup_filter, Hn.
  - intros t. destruct (timer_off_fields k x (ThreadTimer t)) as (-> & _ & _ & Hf).
    rewrite !Hf by reflexivity. apply Ht.
  - intros t H. cbn in H. apply list_elem_of_filter in H as [Hne H]. destruct (Hl t H) as [A B].
    split; [|exact B]. unfold timer_off. rewrite set_timer_other by exact Hne. exact A.
  - intros t H. cbn in H. apply list_elem_of_filter in H as [_ H]. exact (Hs t H).
  - apply (timers_sorted_ext _ _ (fun y => timeout_tick (timers k y))).
    + intros y _. symmetry. apply (timer_off_fields k x y).
    + cbn [timer_off set_timer _rt_timer_remove]. apply timers_sorted_filter. exact Ho.
  - cbn. rewrite list_elem_of_filter. tauto.
Qed.

Lemma timer_stop_spec k t : timers_ok k ->
  let k' := fst (rt_timer_stop k (ThreadTimer t)) in
  timers_ok k' /\ sched_same k k' /\ (ThreadTimer t ∉ rt_timer_list k') /\
  (forall x, x <> ThreadTimer t -> (timers k' x = timers k x) /\
             ((x ∈ rt_timer_list k') <-> (x ∈ rt_timer_list k))).
Proof.
  intros Hok. unfold rt_timer_stop. destruct (has_bits _ _) eqn:E; cbn [negb fst].
  - destruct (timer_off_ok k (ThreadTimer t) Hok) as [A B]. split_ands; auto; [apply timer_off_same|].
    intros x Hx. split; [unfold timer_off; rewrite set_timer_other by exact Hx; reflexivity|].
    cbn. rewrite list_elem_of_filter. tauto.
  - split; [exact Hok|]. split; [split; reflexivity|]. split; [|intros; split; [reflexivity|tauto]].
    intros H. destruct (to_linked k Hok t H) as [A _]. congruence.
Qed.

(** Changes of one unlinked thread. *)
Lemma sched_ok_set_thread k t f (th := f (threads k t)) :
  lists_ok k -> group_ok k -> (forall u, u <> t -> thread_ok k u) -> unlinked k t ->
  (live (thread_stat th) = true -> prio_ok th) -> thread_stat th <> RT_THREAD_READY ->
  (thread_stat th = RT_THREAD_RUNNING -> rt_current_thread k = Some t) ->
  (rt_current_thread k = Some t -> thread_stat th <> RT_THREAD_INIT) ->
  sched_ok (set_thread k t f).
Proof.
  intros [Hn Ho] [Hr Hb] Hoth Hu Hp Hready Hrun Hcur. split; [split; assumption|split; assumption|].
  intros u. destruct (decide (u = t)) as [->|Hne].
  - split; rewrite set_thread_threads; fold th; auto.
    + intros l H. destruct (Hu l H).
    + intros H. contradiction.
  - apply (thread_ok_same k); [apply set_thread_other, Hne|reflexivity|reflexivity|apply Hoth, Hne].
Qed.

Lemma timers_ok_threads k k' :
  timers k' = timers k -> rt_timer_list k' = rt_timer_list k -> rt_soft_timer_list k' = rt_soft_timer_list k ->
  rt_tick k' = rt_tick k ->
  (forall t, ThreadTimer t ∈ rt_timer_list k -> thread_stat (threads k' t) = thread_stat (threads k t)) ->
  timers_ok k -> timers_ok k'.
Proof.
  intros E1 E2 E3 E4 Hst [Hk Hn Ht Hl Hs Ho]. split; rewrite ?E1, ?E2, ?E3, ?E4; auto.
  intros t H. destruct (Hl t H). split; [assumption|]. rewrite Hst by exact H. assumption.
Qed.

(** What thread operations other than scheduling change: one thread, its links
    and its timer. *)
Record only_thread (t : nat) (k k' : Kernel) : Prop := {
  ot_tick : rt_tick k' = rt_tick k;
  ot_current : rt_current_thread k' = rt_current_thread k;
  ot_lock : rt_scheduler_lock_nest k' = rt_scheduler_lock_nest k;
  ot_nest : rt_interrupt_nest k' = rt_interrupt_nest k;
  ot_threads : forall u, u <> t -> threads k' u = threads k u;
  ot_lists : forall l, filter (fun u => u <> t) (lists k' l) = filter (fun u => u <> t) (lists k l);
  ot_timers : forall x, x <> ThreadTimer t -> timers k' x = timers k x;
  ot_list : forall x, x <> ThreadTimer t -> (x ∈ rt_timer_list k') <-> (x ∈ rt_timer_list k);
}.

Lemma only_thread_trans t k1 k2 k3 : only_thread t k1 k2 -> only_thread t k2 k3 -> only_thread t k1 k3.
Proof.
  intros [] []. split; try congruence.
  - intros u H. rewrite ot_threads1, ot_threads0 by exact H. reflexivity.
  - intros x H. rewrite ot_timers1, ot_timers0 by exact H. reflexivity.
  - intros x H. rewrite ot_list1, ot_list0 by exact H. reflexivity.
Qed.

Lemma filter_twice (t : nat) (l : list nat) : filter (fun u => u <> t) (filter (fun u => u <> t) l) = filter (fun u => u <> t) l.
Proof. apply filter_none. rewrite list_elem_of_filter. tauto. Qed.

Lemma thread_stat_suspend th : thread_stat (with_stat RT_THREAD_SUSPEND th) = RT_THREAD_SUSPEND.
Proof. apply thread_stat_with. unfold RT_THREAD_SUSPEND. lia. Qed.

Lemma suspend_spec k t :
  kernel_ok k ->
  thread_stat (threads k t) = RT_THREAD_READY \/ thread_stat (threads k t) = RT_THREAD_RUNNING ->
  exists k', rt_thread_suspend k t = Some (k', RT_EOK) /\ kernel_ok k' /\ only_thread t k k' /\
    threads k' t = with_stat RT_THREAD_SUSPEND (threads k t) /\ unlinked k' t /\
    (forall l, lists k' l = filter (fun u => u <> t) (lists k l)) /\ (ThreadTimer t ∉ rt_timer_list k').
Proof.
  intros [[Hl Hg Ho] Ht] Hst. unfold rt_thread_suspend.
  assert (Hp : prio_ok (threads k t)) by (apply (tk_prio _ _ (Ho t)); destruct Hst as [-> | ->]; reflexivity).
  replace (negb (thread_stat (threads k t) =? RT_THREAD_READY) && _) with false
    by (destruct Hst as [-> | ->]; reflexivity).
  replace ((thread_stat (threads k t) =? RT_THREAD_RUNNING) && _) with false.
  2:{ symmetry. destruct (Z.eqb_spec (thread_stat (threads k t)) RT_THREAD_RUNNING) as [E|E]; [|reflexivity].
      rewrite bool_decide_eq_true_2 by (apply (tk_running _ _ (Ho t)), E). reflexivity. }
  destruct (remove_spec k t Hl Hg Hp) as (g & -> & Hl1 & Hg1 & Hu).
  { intros p Hin. destruct (tk_list _ _ (Ho t) _ Hin). congruence. }
  cbn [mbind option_bind]. set (k1 := tlist_remove k t <| rt_thread_ready_priority_group := g |>) in *.
  assert (Hs2 : sched_ok (set_thread k1 t (with_stat RT_THREAD_SUSPEND))).
  { apply sched_ok_set_thread; auto.
    - intros u Hne. apply (thread_ok_same k); [reflexivity| |reflexivity|apply Ho].
      intros l. unfold k1. cbn. rewrite list_elem_of_filter. tauto.
    - intros _. apply prio_ok_with_stat. exact Hp.
    - rewrite thread_stat_suspend. discriminate.
    - rewrite thread_stat_suspend. discriminate.
    - intros _. rewrite thread_stat_suspend. discriminate. }
  set (k2 := set_thread k1 t (with_stat RT_THREAD_SUSPEND)) in *.
  assert (Ht2 : timers_ok k2).
  { apply (timers_ok_threads k); auto. intros u Hin. destruct (decide (u = t)) as [->|Hne].
    - unfold k2. rewrite set_thread_threads. rewrite thread_stat_suspend. symmetry. apply (to_linked k Ht), Hin.
    - unfold k2. rewrite set_thread_other by exact Hne. reflexivity. }
  destruct (timer_stop_spec k2 t Ht2) as (Ht3 & Hss & Hnot & Hoth).
  destruct (rt_timer_stop k2 (ThreadTimer t)) as [k3 e]. cbn [fst] in *. exists k3. split; [reflexivity|].
  split; [split; [apply (sched_ok_same k2); assumption|exact Ht3]|].
  destruct Hss as [E1 E2 E3 E4 E5 E6 E7].
  split; [|split; [|split; [|split]]].
  - split; rewrite ?E1, ?E2, ?E3, ?E5, ?E6, ?E7; try reflexivity.
    + intros u Hne. unfold k2. rewrite set_thread_other by exact Hne. reflexivity.
    + intros l. apply filter_twice.
    + intros x Hx. apply Hoth, Hx.
    + intros x Hx. apply Hoth, Hx.
  - rewrite E2. unfold k2. rewrite set_thread_threads. reflexivity.
  - intros l. rewrite E3. apply Hu.
  - rewrite E3. reflexivity.
  - exact Hnot.
Qed.

(** A suspended thread, off every list, keeps the invariant. *)
Lemma unlink_suspended_ok k t :
  kernel_ok k -> thread_stat (threads k t) = RT_THREAD_SUSPEND -> kernel_ok (tlist_remove k t).
Proof.
  intros [[Hl [Hr Hb] Ho] Ht] Hst. split.
  - assert (Er : forall p, lists (tlist_remove k t) (Ready p) = lists k (Ready p)).
    { intros p. cbn. apply filter_none. intros Hin. destruct (tk_list _ _ (Ho t) _ Hin) as [E _].
      rewrite Hst in E. discriminate. }
    split; [apply tlist_remove_lists_ok, Hl| |].
    + split; [exact Hr|]. intros p Hp. rewrite Er. apply Hb, Hp.
    + intros u. destruct (decide (u = t)) as [->|Hne].
      * destruct (Ho t) as [H1 H2 H3 H4 H5]. split; try assumption.
        -- intros l Hin. rewrite elem_of_remove in Hin. tauto.
        -- intros H. rewrite Er. apply H3, H.
      * apply (thread_ok_same k); [reflexivity| |reflexivity|apply Ho].
        intros l. rewrite elem_of_remove. tauto.
  - apply (timers_ok_threads k); auto.
Qed.

Lemma stat_other th s : thread_stat th = s -> s <> RT_THREAD_READY -> thread_stat th <> RT_THREAD_READY.
Proof. congruence. Qed.

(** The insertion of an unlinked thread into its ready list, or its return to
    running when it is still the current thread. *)
Lemma insert_ready_ok k t :
  kernel_ok k -> unlinked k t -> prio_ok (threads k t) ->
  (ThreadTimer t ∉ rt_timer_list k) -> thread_stat (threads k t) = RT_THREAD_SUSPEND ->
  exists k', rt_schedule_insert_thread k t = Some k' /\ kernel_ok k' /\ only_thread t k k' /\
    timers k' = timers k /\ rt_timer_list k' = rt_timer_list k /\ rt_soft_timer_list k' = rt_soft_timer_list k /\
    (if decide (rt_current_thread k = Some t)
     then threads k' t = with_stat RT_THREAD_RUNNING (threads k t) /\ (forall l, lists k' l = lists k l)
     else threads k' t = with_stat RT_THREAD_READY (threads k t) /\
          (forall l, lists k' l = lists k l ++ if decide (l = Ready (current_priority (threads k t))) then [t] else [])).
Proof.
  intros [[Hl Hg Ho] Ht] Hu Hp Hnt Hst. destruct (decide (rt_current_thread k = Some t)) as [Hc|Hc].
  - rewrite insert_current by exact Hc. eexists. split; [reflexivity|]. split; [split|].
    + apply sched_ok_set_thread; auto; rewrite ?thread_stat_with by (unfold RT_THREAD_RUNNING; lia);
        try discriminate; auto.
      intros _. apply prio_ok_with_stat, Hp.
    + apply (timers_ok_threads k); auto. intros u Hin. rewrite set_thread_other; [reflexivity|].
      intros ->. contradiction.
    + split; [split; try reflexivity; intros u Hne; apply set_thread_other, Hne|].
      split_ands; try reflexivity. apply set_thread_threads.
  - destruct (insert_other_ok k t Hl Hg (fun u _ => Ho u) Hp Hu Hc) as (g & -> & Hs' & Et & Eo & L).
    eexists. split; [reflexivity|]. split; [split; [exact Hs'|]|split; [|split_ands; try reflexivity; assumption]].
    + apply (timers_ok_threads k); auto. intros u Hin. rewrite Eo; [reflexivity|]. intros ->. contradiction.
    + split; try reflexivity; [exact Eo|]. intros l. rewrite L, filter_app. destruct (decide _); [|apply app_nil_r].
      rewrite filter_cons, decide_False by tauto. apply app_nil_r.
Qed.

(** [t] has left its wait list and is ready (last of its priority), or running
    again when it was about to give up the processor. *)
Definition awake (k k' : Kernel) (t : nat) (f : Thread -> Thread) : Prop :=
  if decide (rt_current_thread k = Some t)
  then threads k' t = with_stat RT_THREAD_RUNNING (f (threads k t)) /\
       (forall l, lists k' l = filter (fun u => u <> t) (lists k l))
  else threads k' t = with_stat RT_THREAD_READY (f (threads k t)) /\
       (forall l, lists k' l = filter (fun u => u <> t) (lists k l) ++
                               if decide (l = Ready (current_priority (threads k t))) then [t] else []).

Lemma suspended_prio k t : kernel_ok k -> thread_stat (threads k t) = RT_THREAD_SUSPEND -> prio_ok (threads k t).
Proof. intros [[_ _ Ho] _] H. apply (tk_prio _ _ (Ho t)). rewrite H. reflexivity. Qed.

Lemma resume_spec k t :
  kernel_ok k -> thread_stat (threads k t) = RT_THREAD_SUSPEND ->
  exists k', rt_thread_resume k t = Some (k', RT_EOK) /\ kernel_ok k' /\ only_thread t k k' /\
    awake k k' t (fun th => th) /\ (ThreadTimer t ∉ rt_timer_list k').
Proof.
  intros Hok Hst. unfold rt_thread_resume. rewrite Hst. cbn [negb Z.eqb].
  change (negb (RT_THREAD_SUSPEND =? RT_THREAD_SUSPEND)) with false. cbv iota.
  pose proof (unlink_suspended_ok k t Hok Hst) as Hok1.
  destruct (tlist_remove_lists_ok k t (so_lists _ (ko_sched _ Hok))) as [_ Hu].
  set (k1 := tlist_remove k t) in *.
  destruct (timer_stop_spec k1 t (ko_timers _ Hok1)) as (Ht2 & Hss & Hnot & Hoth).
  destruct (rt_timer_stop k1 (ThreadTimer t)) as [k2 e]. cbn [fst] in *.
  assert (Hok2 : kernel_ok k2) by (split; [apply (sched_ok_same k1 k2 Hss), Hok1|exact Ht2]).
  destruct Hss as [E1 E2 E3 E4 E5 E6 E7].
  destruct (insert_ready_ok k2 t Hok2) as (k3 & -> & Hok3 & Hot & Et3 & El3 & Es3 & Hcase).
  { intros l. rewrite E3. apply Hu. }
  { rewrite E2. apply (suspended_prio k t Hok Hst). } { exact Hnot. } { rewrite E2. exact Hst. }
  cbn [mbind option_bind]. exists k3. split; [reflexivity|]. split; [exact Hok3|]. split; [|split].
  - apply (only_thread_trans t k k2); [|exact Hot].
    split; rewrite ?E1, ?E2, ?E3, ?E5, ?E6, ?E7; try reflexivity.
    + intros l. apply filter_twice.
    + intros x Hx. apply Hoth, Hx.
    + intros x Hx. apply Hoth, Hx.
  - unfold awake. rewrite E5, E2 in Hcase. change (rt_current_thread k1) with (rt_current_thread k) in Hcase.
    destruct (decide _); destruct Hcase as [A B]; (split; [exact A|]); intros l; rewrite B, E3; reflexivity.
  - rewrite El3. exact Hnot.
Qed.

Lemma resume_not_suspended k t :
  thread_stat (threads k t) <> RT_THREAD_SUSPEND -> rt_thread_resume k t = Some (k, - RT_ERROR).
Proof. intros H. unfold rt_thread_resume. rewrite (proj2 (Z.eqb_neq _ _)) by exact H. reflexivity. Qed.

(** Starting the timer of a suspended thread. *)
Lemma timer_start_spec k t :
  base = rt_tick k -> kernel_ok k -> thread_stat (threads k t) = RT_THREAD_SUSPEND ->
  tm_init_tick (timers k (ThreadTimer t)) < RT_TICK_HALF -> 0 <= tm_init_tick (timers k (ThreadTimer t)) ->
  exists k', rt_timer_start k (ThreadTimer t) = Some (k', RT_EOK) /\ kernel_ok k' /\ sched_same k k' /\
    (ThreadTimer t ∈ rt_timer_list k') /\
    timeout_tick (timers k' (ThreadTimer t)) = u32 (rt_tick k + tm_init_tick (timers k (ThreadTimer t))) /\
    (forall x, x <> ThreadTimer t -> (timers k' x = timers k x) /\
       ((x ∈ rt_timer_list k') <-> (x ∈ rt_timer_list k))).
Proof.
  intros Hbase [Hs Ht] Hst Hlim Hpos. pose proof (to_tick k Ht) as Htick. set (x := ThreadTimer t) in *.
  change (rt_timer_start k x) with
    (let k := timer_off k x in
     if negb (tm_init_tick (timers k x) <? RT_TICK_HALF) then None
     else
       let k := set_timer k x (fun t => t <| timeout_tick := u32 (rt_tick k + tm_init_tick t) |>) in
       let tick_of y := timeout_tick (timers k y) in
       let soft := has_bits (flag (timers k x)) RT_TIMER_FLAG_SOFT_TIMER in
       let k := if soft
                then k <| rt_soft_timer_list := timer_insert tick_of (tick_of x) x (rt_soft_timer_list k) |>
                else k <| rt_timer_list := timer_insert tick_of (tick_of x) x (rt_timer_list k) |> in
       let k := set_timer k x (fun t => t <| flag := Z.lor (flag t) RT_TIMER_FLAG_ACTIVATED |>) in
       if soft && (thread_stat (threads k (timer_thread k)) =? RT_THREAD_SUSPEND) then
         '(k, _) ← rt_thread_resume k (timer_thread k);
         k ← rt_schedule k;
         Some (k, RT_EOK)
       else Some (k, RT_EOK)).
  destruct (timer_off_ok k x Ht) as [Ht1 Hnot]. pose proof (timer_off_same k x) as Hss.
  destruct (timer_off_fields k x x) as (Ef & Ett & Eit & Efl).
  set (k1 := timer_off k x) in *. cbv zeta. rewrite Eit, (proj2 (Z.ltb_lt _ _)) by exact Hlim. cbn [negb].
  change (rt_tick k1) with (rt_tick k).
  set (k2 := set_timer k1 x (fun t => t <| timeout_tick := u32 (rt_tick k + tm_init_tick t) |>)).
  assert (E2 : timers k2 x = timers k1 x <| timeout_tick := u32 (rt_tick k + tm_init_tick (timers k1 x)) |>)
    by (unfold k2; rewrite set_timer_timers; reflexivity).
  assert (Eflag : flag (timers k2 x) = flag (timers k1 x)) by (rewrite E2; reflexivity).
  destruct (to_thread k1 Ht1 t) as (F1 & F2 & F3). fold x in F1, F2, F3.
  rewrite Eflag, F3. cbn [andb].
  assert (Etick : timeout_tick (timers k2 x) = u32 (rt_tick k + tm_init_tick (timers k x)))
    by (rewrite E2, Eit; reflexivity).
  assert (E2o : forall y, y <> x -> timers k2 y = timers k1 y)
    by (intros y Hy; unfold k2; rewrite set_timer_other by exact Hy; reflexivity).
  set (tick_of := fun y => timeout_tick (timers k2 y)).
  set (newlist := timer_insert tick_of (tick_of x) x (rt_timer_list k2)).
  set (k4 := set_timer (k2 <| rt_timer_list := newlist |>) x (fun t => t <| flag := Z.lor (flag t) RT_TIMER_FLAG_ACTIVATED |>)).
  exists k4. split; [reflexivity|].
  assert (E4 : timers k4 x = timers k2 x <| flag := Z.lor (flag (timers k2 x)) RT_TIMER_FLAG_ACTIVATED |>)
    by (unfold k4; rewrite set_timer_timers; reflexivity).
  assert (E4o : forall y, y <> x -> timers k4 y = timers k1 y)
    by (intros y Hy; unfold k4; rewrite set_timer_other by exact Hy; exact (E2o y Hy)).
  assert (Hoff : offset (rt_tick k) (tick_of x) < RT_TICK_HALF).
  { unfold tick_of. rewrite Etick. unfold offset. rewrite u32_sub_mod_l.
    replace (rt_tick k + tm_init_tick (timers k x) - rt_tick k) with (tm_init_tick (timers k x)) by lia.
    rewrite u32_small; [exact Hlim|]. change RT_TICK_HALF with 2147483647 in Hlim. lia. }
  assert (Hsorted : timers_sorted (rt_tick k) RT_TICK_HALF tick_of newlist).
  { apply timer_insert_sorted; [|exact Hoff]. rewrite <- Hbase.
    apply (timers_sorted_ext _ _ (fun y => timeout_tick (timers k1 y))); [|exact (to_sorted k1 Ht1)].
    intros y Hy. unfold tick_of. rewrite E2o; [reflexivity|]. intros ->. contradiction. }
  split; [split|split; [|split; [|split]]].
  - apply (sched_ok_same k); [split; reflexivity|exact Hs].
  - split.
    + exact Htick.
    + apply timer_insert_nodup; [exact Hnot|exact (to_nodup k1 Ht1)].
    + intros u. destruct (decide (ThreadTimer u = x)) as [E|Hne].
      * rewrite E. assert (u = t) as -> by (unfold x in E; congruence). rewrite E4, E2. cbn.
        split; [exact F1|]. rewrite !set_has by reflexivity. auto.
      * rewrite E4o by exact Hne. apply (to_thread k1 Ht1).
    + intros u Hin. change (threads k4) with (threads k). destruct (decide (ThreadTimer u = x)) as [E|Hne].
      * rewrite E. assert (u = t) as -> by (unfold x in E; congruence). split; [|exact Hst].
        rewrite E4. apply set_has_same. discriminate.
      * rewrite E4o by exact Hne. apply (to_linked k1 Ht1).
        apply timer_insert_perm in Hin as [E|Hin]; [contradiction|exact Hin].
    + exact (to_soft k1 Ht1).
    + rewrite Hbase. apply (timers_sorted_ext _ _ tick_of); [|exact Hsorted]. intros y _. unfold tick_of.
      destruct (decide (y = x)) as [->|Hne]; [rewrite E4; reflexivity|rewrite E4o, E2o by exact Hne; reflexivity].
  - split; reflexivity.
  - apply timer_insert_perm. left. reflexivity.
  - rewrite E4. exact Etick.
  - intros y Hy. split.
    + rewrite E4o by exact Hy. unfold k1, timer_off. rewrite set_timer_other by exact Hy. reflexivity.
    + change (rt_timer_list k4) with newlist. unfold newlist. rewrite timer_insert_perm.
      cbn. rewrite list_elem_of_filter. tauto.
Qed.

Lemma start_thread_timer_spec k t tick :
  base = rt_tick k -> kernel_ok k -> thread_stat (threads k t) = RT_THREAD_SUSPEND -> 0 <= tick < RT_TICK_HALF ->
  exists k', start_thread_timer k t tick = Some k' /\ kernel_ok k' /\ sched_same k k' /\
    (ThreadTimer t ∈ rt_timer_list k') /\
    timeout_tick (timers k' (ThreadTimer t)) = u32 (rt_tick k + tick) /\
    (forall x, x <> ThreadTimer t -> (timers k' x = timers k x) /\
       ((x ∈ rt_timer_list k') <-> (x ∈ rt_timer_list k))).
Proof.
  intros Hbase [Hs Ht] Hst Htick. unfold start_thread_timer, rt_timer_control. cbn [Z.eqb].
  change (RT_TIMER_CTRL_SET_TIME =? RT_TIMER_CTRL_GET_TIME) with false.
  change (RT_TIMER_CTRL_SET_TIME =? RT_TIMER_CTRL_SET_TIME) with true. cbv iota.
  assert (Eu : u32 tick = tick) by (apply u32_small; change RT_TICK_HALF with 2147483647 in Htick; lia).
  set (x := ThreadTimer t). set (k1 := set_timer k x (fun t => t <| tm_init_tick := u32 tick |>)).
  assert (E1 : timers k1 x = timers k x <| tm_init_tick := u32 tick |>)
    by (unfold k1; rewrite set_timer_timers; reflexivity).
  assert (E1o : forall y, y <> x -> timers k1 y = timers k y)
    by (intros y Hy; unfold k1; rewrite set_timer_other by exact Hy; reflexivity).
  assert (Hok1 : kernel_ok k1).
  { split; [apply (sched_ok_same k); [split; reflexivity|exact Hs]|].
    destruct Ht as [Hk Hn Hth Hl Hso Ho]. split; auto.
    - intros u. destruct (decide (ThreadTimer u = x)) as [E|Hne]; [rewrite E, E1|rewrite E1o by exact Hne; apply Hth].
      specialize (Hth u). rewrite E in Hth. exact Hth.
    - intros u Hin. specialize (Hl u Hin). destruct (decide (ThreadTimer u = x)) as [E|Hne].
      + rewrite E, E1. rewrite E in Hl. exact Hl.
      + rewrite E1o by exact Hne. exact Hl.
    - apply (timers_sorted_ext _ _ (fun y => timeout_tick (timers k y))); [|exact Ho].
      intros y _. destruct (decide (y = x)) as [->|Hne]; [rewrite E1; reflexivity|rewrite E1o by exact Hne; reflexivity]. }
  assert (Ei : tm_init_tick (timers k1 (ThreadTimer t)) = tick) by (fold x; rewrite E1; exact Eu).
  destruct (timer_start_spec k1 t Hbase Hok1 Hst) as (k2 & E & Hok2 & Hss & Hin & Hd & Hoth); [lia..|].
  fold x in E. rewrite E. cbn [mbind option_bind]. exists k2. split; [reflexivity|]. split; [exact Hok2|].
  split; [destruct Hss; split; assumption|]. split; [exact Hin|]. rewrite Ei in Hd. split; [exact Hd|].
  intros y Hy. destruct (Hoth y Hy) as [A B]. split; [rewrite A; apply E1o, Hy|exact B].
Qed.

(** What the blocking calls keep in the thread's control block. *)
Definition wait_info (th : Thread) : Z * Z * Z := (error th, event_set th, event_info th).

Lemma wait_info_fields th th' : wait_info th' = wait_info th ->
  error th' = error th /\ event_set th' = event_set th /\ event_info th' = event_info th.
Proof. intros [= A B C]. auto. Qed.

(** A change of a thread that keeps its state, its priority and its links. *)
Definition inert (f : Thread -> Thread) : Prop := forall th,
  thread_stat (f th) = thread_stat th /\ current_priority (f th) = current_priority th /\
  number_mask (f th) = number_mask th.

Lemma set_thread_inert_ok k t f : inert f -> kernel_ok k -> kernel_ok (set_thread k t f).
Proof.
  intros Hf [[[Hn Ho] [Hr Hb] Hth] Ht]. destruct (Hf (threads k t)) as (F1 & F2 & F3). split.
  - split; [split; assumption|split; assumption|]. intros u. destruct (decide (u = t)) as [->|Hne].
    + destruct (Hth t) as [H1 H2 H3 H4 H5].
      split; rewrite set_thread_threads, ?F1, ?F2; [|exact H2|exact H3|exact H4|exact H5].
      intros H. destruct (H1 H) as [P1 P2]. split; rewrite ?F2, ?F3; assumption.
    + apply (thread_ok_same k); [apply set_thread_other, Hne|reflexivity|reflexivity|apply Hth].
  - apply (timers_ok_threads k); auto. intros u _. destruct (decide (u = t)) as [->|Hne];
      [rewrite set_thread_threads; exact F1|rewrite set_thread_other by exact Hne; reflexivity].
Qed.

End Invariant.

(** [c] waits for [deadline], if any, and the best ready thread runs. *)
Record waiting (k k' : Kernel) (c : nat) (deadline : option Z) : Prop := {
  wt_ok : kernel_ok (rt_tick k') k';
  wt_tick : rt_tick k' = rt_tick k;
  wt_stat : thread_stat (threads k' c) = RT_THREAD_SUSPEND;
  wt_timer : match deadline with
    | Some d => (ThreadTimer c ∈ rt_timer_list k') /\ timeout_tick (timers k' (ThreadTimer c)) = d
    | None => ThreadTimer c ∉ rt_timer_list k'
    end;
  wt_current : exists c', rt_current_thread k' = Some c' /\ (rt_scheduler_lock_nest k = 0 -> best_running k' c');
  wt_priority : forall t, current_priority (threads k' t) = current_priority (threads k t);
}.

Lemma frame_suspended k k' t :
  sched_frame k k' -> thread_stat (threads k t) = RT_THREAD_SUSPEND -> thread_stat (threads k' t) = RT_THREAD_SUSPEND.
Proof. intros F H. destruct (sf_stat _ _ F t) as [->|[[E|E] _]]; [exact H|rewrite H in E; discriminate..]. Qed.

Lemma sleep_spec k c tick :
  kernel_ok (rt_tick k) k -> rt_current_thread k = Some c -> thread_stat (threads k c) = RT_THREAD_RUNNING ->
  0 <= tick < RT_TICK_HALF ->
  exists k', rt_thread_sleep_begin k tick = Some k' /\ waiting k k' c (Some (u32 (rt_tick k + tick))) /\ unlinked k' c /\
    (forall l, is_wait l = true -> lists k' l = lists k l) /\
    (forall t, wait_info (threads k' t) = wait_info (threads k t)) /\
    (forall x, x <> ThreadTimer c -> (x ∈ rt_timer_list k') <-> (x ∈ rt_timer_list k)).
Proof.
  intros Hok Hc Hrun Htick. unfold rt_thread_sleep_begin, rt_thread_self. rewrite Hc. cbn [mbind option_bind].
  destruct (suspend_spec _ k c Hok (or_intror Hrun)) as (k1 & -> & Hok1 & Hot & Et & Hu & Hll & Hnt).
  cbn [mbind option_bind].
  assert (Hst1 : thread_stat (threads k1 c) = RT_THREAD_SUSPEND) by (rewrite Et; apply thread_stat_suspend).
  destruct (start_thread_timer_spec _ k1 c tick (eq_sym (ot_tick _ _ _ Hot)) Hok1 Hst1 Htick) as (k2 & -> & Hok2 & Hss & Hin & Hd & Hx2).
  cbn [mbind option_bind]. destruct Hss as [E1 E2 E3 E4 E5 E6 E7]. destruct Hot as [F1 F2 F3 F4 F5 F6 F7 F8].
  destruct (schedule_kernel_ok _ k2 c Hok2) as (k3 & c' & -> & Hok3 & Hf & Hc' & Hb); [congruence|].
  exists k3. split; [reflexivity|]. split; [split|].
  - rewrite (sf_tick _ _ Hf), E1, F1. exact Hok3.
  - rewrite (sf_tick _ _ Hf). congruence.
  - apply (frame_suspended k2); [exact Hf|]. rewrite E2. exact Hst1.
  - rewrite (sf_timer_list _ _ Hf), (sf_timers _ _ Hf). split; [exact Hin|]. rewrite Hd. congruence.
  - exists c'. split; [exact Hc'|]. intros H. apply Hb. congruence.
  - intros t. rewrite (frame_priority k2 k3 t Hf), E2. destruct (decide (t = c)) as [->|Hne].
    + rewrite Et. reflexivity.
    + rewrite F5 by exact Hne. reflexivity.
  - split; [|split; [|split]].
    4:{ intros x Hx. rewrite (sf_timer_list _ _ Hf). rewrite (proj2 (Hx2 x Hx)). apply F8, Hx. }
    2:{ intros l Hl. pose proof (sf_lists _ _ Hf l) as Hs.
        assert (E : lists k2 l = lists k l) by (rewrite E3, Hll; apply filter_none, running_unlinked; [apply Hok|exact Hrun]).
        destruct l; try discriminate Hl; rewrite Hs; exact E. }
    2:{ intros t. rewrite (sf_threads _ _ Hf t), E2. destruct (decide (t = c)) as [->|Hne];
          [rewrite Et|rewrite F5 by exact Hne]; reflexivity. }
    assert (Hst3 : thread_stat (threads k3 c) = RT_THREAD_SUSPEND)
      by (apply (frame_suspended k2); [exact Hf|rewrite E2; exact Hst1]).
    intros l Hl. pose proof (sf_lists _ _ Hf l) as Hsl.
    pose proof (tk_list _ _ (so_threads _ (ko_sched _ _ Hok3) c) l Hl) as Hk. destruct l.
    1: destruct Hk as [Hk _]; rewrite Hst3 in Hk; discriminate.
    all: rewrite Hsl, E3 in Hl; exact (Hu _ Hl).
Qed.

(** ** Starting, closing and re-prioritising a thread *)

Definition is_thread_timer (x : timer_id) : Prop := exists t, x = ThreadTimer t.

(** Only thread timers have been started. *)
Definition timers_grow (k k' : Kernel) : Prop :=
  forall x, x ∈ rt_timer_list k' -> is_thread_timer x \/ x ∈ rt_timer_list k.

Lemma only_thread_grow t k k' : only_thread t k k' -> timers_grow k k'.
Proof.
  intros F x Hx. destruct (decide (x = ThreadTimer t)) as [->|Hne]; [left; exists t; reflexivity|].
  right. apply (ot_list _ _ _ F x Hne), Hx.
Qed.

Lemma grow_all k k' : timers_grow k k' -> Forall is_thread_timer (rt_timer_list k) -> Forall is_thread_timer (rt_timer_list k').
Proof. intros G. rewrite !Forall_forall. intros H x Hx. destruct (G x Hx); auto. Qed.

Section Operations.
Variable base : Z.

Lemma defunct_insert_ok k t :
  kernel_ok base k -> unlinked k t -> thread_stat (threads k t) = RT_THREAD_CLOSE ->
  kernel_ok base (tlist_insert_after k Defunct t).
Proof.
  intros [[[Hn Ho] [Hr Hb] Hth] Ht] Hu Hst.
  assert (M : forall u l, u ∈ lists (tlist_insert_after k Defunct t) l <-> u ∈ lists k l \/ u = t /\ l = Defunct).
  { intros u l. cbn. unfold upd. destruct (decide (l = Defunct)) as [->|Hne].
    - rewrite elem_of_cons. split; [intros [->|]; auto|intros [|[-> _]]; auto].
    - split; [auto|intros [H|[_ E]]; [exact H|contradiction]]. }
  split; [split; [split|split|]|].
  - intros l. cbn. unfold upd. destruct (decide _) as [->|]; [|apply Hn]. apply NoDup_cons. split; [apply Hu|apply Hn].
  - intros u l1 l2. rewrite !M. intros [H1|[-> ->]] [H2|[E ->]]; subst; eauto; exfalso; eapply Hu; eauto.
  - exact Hr.
  - intros p Hp. cbn. unfold upd. rewrite decide_False by discriminate. apply Hb, Hp.
  - intros u. destruct (decide (u = t)) as [->|Hne].
    + destruct (Hth t) as [H1 H2 H3 H4 H5]. split; auto.
      * intros l [H|[_ ->]]%M; [destruct (Hu _ H)|exact Hst].
    + apply (thread_ok_same k); [reflexivity| |reflexivity|apply Hth].
      intros l. rewrite M. split; [intros [H|[E _]]; [exact H|contradiction]|auto].
  - apply (timers_ok_threads base k); auto.
Qed.

(** Thread [t], off its list, is closed and its timer unlinked. *)
Definition closed (k : Kernel) (t : nat) : Kernel :=
  rt_timer_detach (set_thread k t (fun th => th <| stat := RT_THREAD_CLOSE |>)) (ThreadTimer t).

Lemma closed_ok k k1 t :
  kernel_ok base k -> lists_ok k1 -> group_ok k1 -> unlinked k1 t ->
  (forall u l, u <> t -> u ∈ lists k1 l <-> u ∈ lists k l) ->
  threads k1 = threads k -> rt_current_thread k1 = rt_current_thread k ->
  timers k1 = timers k -> rt_timer_list k1 = rt_timer_list k -> rt_soft_timer_list k1 = rt_soft_timer_list k ->
  rt_tick k1 = rt_tick k ->
  kernel_ok base (closed k1 t) /\ kernel_ok base (thread_dispose (closed k1 t) t) /\
  kernel_ok base (tlist_insert_after (closed k1 t) Defunct t).
Proof.
  intros [[_ _ Hth] [Hk Hn Hto Hl Hso Hs]] Hl1 Hg1 Hu Hm Et Ec Etm Etl Esl Etk.
  assert (Hok : kernel_ok base (closed k1 t)).
  { assert (Eth : forall u, u <> t -> threads (closed k1 t) u = threads k u)
      by (intros u Hne; change (threads (closed k1 t) u) with (threads (set_thread k1 t (fun th => th <| stat := RT_THREAD_CLOSE |>)) u);
          rewrite set_thread_other, Et by exact Hne; reflexivity).
    split.
    - apply (sched_ok_same (set_thread k1 t (fun th => th <| stat := RT_THREAD_CLOSE |>))); [split; reflexivity|].
      apply sched_ok_set_thread; auto; try discriminate.
      intros u Hne. apply (thread_ok_same k); [rewrite Et; reflexivity|intros l; apply Hm, Hne|rewrite Ec; reflexivity|apply Hth].
    - split.
      + change (0 <= rt_tick k1 < 4294967296). rewrite Etk. exact Hk.
      + cbn. rewrite Etl. apply NoDup_filter, Hn.
      + change (timers (closed k1 t)) with (timers k1). rewrite Etm. exact Hto.
      + intros u Hin. change (timers (closed k1 t)) with (timers k1). rewrite Etm.
        cbn in Hin. rewrite Etl in Hin. apply list_elem_of_filter in Hin as [Hne Hin]. destruct (Hl u Hin) as [A B].
        split; [exact A|]. rewrite Eth by congruence. exact B.
      + intros u Hin. cbn in Hin. rewrite Esl in Hin. apply list_elem_of_filter in Hin as [_ Hin]. exact (Hso u Hin).
      + change (timers (closed k1 t)) with (timers k1). rewrite Etm. cbn. rewrite Etl. apply timers_sorted_filter, Hs. }
  assert (Hst : thread_stat (threads (closed k1 t) t) = RT_THREAD_CLOSE).
  { change (threads (closed k1 t) t) with (threads (set_thread k1 t (fun th => th <| stat := RT_THREAD_CLOSE |>)) t).
    rewrite set_thread_threads. reflexivity. }
  assert (Hins : kernel_ok base (tlist_insert_after (closed k1 t) Defunct t))
    by (apply defunct_insert_ok; [exact Hok|exact Hu|exact Hst]).
  split; [exact Hok|]. split; [|exact Hins]. unfold thread_dispose. destruct (_ && _); assumption.
Qed.

(** The first half of exit, detach and delete. *)
Lemma unschedule_spec k t :
  kernel_ok base k -> live (thread_stat (threads k t)) = true ->
  exists k1, rt_schedule_remove_thread k t = Some k1 /\
    rt_current_thread k1 = rt_current_thread k /\ threads k1 = threads k /\ rt_tick k1 = rt_tick k /\
    rt_timer_list k1 = rt_timer_list k /\ kernel_ok base (closed k1 t) /\ kernel_ok base (thread_dispose (closed k1 t) t) /\
    kernel_ok base (tlist_insert_after (closed k1 t) Defunct t).
Proof.
  intros Hok Hlive. pose proof Hok as [[Hl Hg Hth] Ht].
  destruct (remove_spec k t Hl Hg (tk_prio _ _ (Hth t) Hlive)) as (g & E & Hl1 & Hg1 & Hu).
  { intros p Hin. destruct (tk_list _ _ (Hth t) _ Hin). congruence. }
  cbv zeta in *. set (k1 := tlist_remove k t <| rt_thread_ready_priority_group := g |>) in *.
  exists k1. split_ands; try reflexivity; try exact E; apply (closed_ok k k1 t); auto;
    intros u l Hne; unfold k1; cbn; rewrite list_elem_of_filter; tauto.
Qed.

Lemma closed_grow k k1 t : rt_timer_list k1 = rt_timer_list k ->
  timers_grow k (closed k1 t) /\ timers_grow k (thread_dispose (closed k1 t) t).
Proof.
  intros E. assert (H : timers_grow k (closed k1 t)).
  { intros x Hx. cbn in Hx. rewrite E in Hx. apply list_elem_of_filter in Hx. tauto. }
  split; [exact H|]. intros x Hx. apply H. revert Hx. unfold thread_dispose. destruct (_ && _); auto.
Qed.

Lemma exit_spec k c :
  kernel_ok base k -> rt_current_thread k = Some c -> live (thread_stat (threads k c)) = true ->
  exists k' c', rt_thread_exit k = Some k' /\ kernel_ok base k' /\ rt_tick k' = rt_tick k /\ rt_current_thread k' = Some c' /\
    timers_grow k k'.
Proof.
  intros Hok Hc Hlive. unfold rt_thread_exit, rt_thread_self. rewrite Hc. cbn [mbind option_bind].
  destruct (unschedule_spec k c Hok Hlive) as (k1 & -> & Ec & Et & Etk & Etl & _ & Hd & _). cbn [mbind option_bind].
  change (rt_timer_detach (set_thread k1 c (fun th => th <| stat := RT_THREAD_CLOSE |>)) (ThreadTimer c)) with (closed k1 c).
  assert (Ecd : rt_current_thread (thread_dispose (closed k1 c) c) = Some c)
    by (unfold thread_dispose; destruct (_ && _); change (rt_current_thread k1 = Some c); congruence).
  destruct (schedule_kernel_ok base _ c Hd Ecd) as (k' & c' & E & Hok' & Hf & Hc' & _).
  exists k', c'. split_ands; auto.
  - rewrite (sf_tick _ _ Hf), <- Etk. unfold thread_dispose. destruct (_ && _); reflexivity.
  - intros x Hx. rewrite (sf_timer_list _ _ Hf) in Hx. apply (closed_grow k k1 c Etl), Hx.
Qed.

Lemma delete_spec k t :
  kernel_ok base k -> systemobject (threads k t) = false ->
  live (thread_stat (threads k t)) = true \/ thread_stat (threads k t) = RT_THREAD_INIT ->
  exists k', rt_thread_delete k t = Some (k', RT_EOK) /\ kernel_ok base k' /\ rt_tick k' = rt_tick k /\
    rt_current_thread k' = rt_current_thread k /\ timers_grow k k' /\ t ∈ lists k' Defunct.
Proof.
  intros Hok Hs Hlive. unfold rt_thread_delete. rewrite Hs.
  destruct (Z.eqb_spec (thread_stat (threads k t)) RT_THREAD_INIT) as [Hi|Hi]; cbn [negb mbind option_bind].
  - assert (Hu : unlinked k t).
    { intros l Hin. pose proof (tk_list _ _ (so_threads _ (ko_sched _ _ Hok) t) l Hin) as H.
      destruct l; rewrite Hi in H; [destruct H as [H _]|..]; discriminate H. }
    destruct (closed_ok k k t Hok) as (_ & _ & Hd); try apply Hok; auto.
    eexists. split; [reflexivity|]. split; [exact Hd|]. split; [reflexivity|]. split; [reflexivity|].
    split; [exact (proj1 (closed_grow k k t eq_refl))|]. cbn. unfold upd. rewrite decide_True by reflexivity. left.
  - destruct Hlive as [Hlive|]; [|contradiction].
    destruct (unschedule_spec k t Hok Hlive) as (k1 & -> & Ec & Et & Etk & Etl & _ & _ & Hd). cbn [mbind option_bind].
    eexists. split; [reflexivity|]. split; [exact Hd|]. split; [exact Etk|]. split; [exact Ec|].
    split; [exact (proj1 (closed_grow k k1 t Etl))|]. cbn. unfold upd. rewrite decide_True by reflexivity. left.
Qed.

Lemma detach_spec k t :
  kernel_ok base k -> systemobject (threads k t) = true ->
  live (thread_stat (threads k t)) = true \/ thread_stat (threads k t) = RT_THREAD_INIT ->
  exists k', rt_thread_detach k t = Some (k', RT_EOK) /\ kernel_ok base k' /\ timers_grow k k' /\ rt_tick k' = rt_tick k /\
    rt_current_thread k' = rt_current_thread k.
Proof.
  intros Hok Hs Hlive. unfold rt_thread_detach. rewrite Hs. cbn [negb].
  assert (Ed : forall k1, rt_tick (thread_dispose (closed k1 t) t) = rt_tick k1 /\
      rt_current_thread (thread_dispose (closed k1 t) t) = rt_current_thread k1)
    by (intros k1; unfold thread_dispose; destruct (_ && _); split; reflexivity).
  destruct (Z.eqb_spec (thread_stat (threads k t)) RT_THREAD_INIT) as [Hi|Hi]; cbn [negb mbind option_bind].
  - assert (Hu : unlinked k t).
    { intros l Hin. pose proof (tk_list _ _ (so_threads _ (ko_sched _ _ Hok) t) l Hin) as H.
      destruct l; rewrite Hi in H; [destruct H as [H _]|..]; discriminate H. }
    destruct (closed_ok k k t Hok) as (_ & Hd & _); try apply Hok; auto.
    eexists. split; [reflexivity|]. split; [exact Hd|]. split; [exact (proj2 (closed_grow k k t eq_refl))|]. apply Ed.
  - destruct Hlive as [Hlive|]; [|contradiction].
    destruct (unschedule_spec k t Hok Hlive) as (k1 & -> & Ec & Et & Etk & Etl & _ & Hd & _). cbn [mbind option_bind].
    eexists. split; [reflexivity|]. split; [exact Hd|]. split; [exact (proj2 (closed_grow k k1 t Etl))|].
    rewrite <- Etk, <- Ec. apply Ed.
Qed.

Lemma mask_u32 p : 0 <= p < 32 -> u32 (Z.shiftl 1 p) = Z.shiftl 1 p.
Proof.
  intros Hp. apply u32_small. rewrite Z.shiftl_1_l. split; [apply Z.pow_nonneg; lia|].
  change 4294967296 with (2 ^ 32). apply Z.pow_lt_mono_r; lia.
Qed.

Lemma init_unlinked k t : kernel_ok base k -> thread_stat (threads k t) = RT_THREAD_INIT -> unlinked k t.
Proof.
  intros Hok Hi l Hin. pose proof (tk_list _ _ (so_threads _ (ko_sched _ _ Hok) t) l Hin) as H.
  destruct l; rewrite Hi in H; [destruct H as [H _]|..]; discriminate H.
Qed.

(** A thread that is not live may change its priority and become suspended. *)
Lemma set_idle_thread_ok k t f (th := f (threads k t)) :
  kernel_ok base k -> thread_stat (threads k t) = RT_THREAD_INIT ->
  thread_stat th = RT_THREAD_INIT \/ thread_stat th = RT_THREAD_SUSPEND /\ prio_ok th ->
  kernel_ok base (set_thread k t f).
Proof.
  intros Hok Hi Hth. pose proof Hok as [[Hl Hg Ho] Ht].
  assert (Hst : thread_stat th <> RT_THREAD_READY /\ thread_stat th <> RT_THREAD_RUNNING)
    by (destruct Hth as [->|[-> _]]; split; discriminate).
  split.
  - apply sched_ok_set_thread; auto; fold th.
    + apply init_unlinked; assumption.
    + destruct Hth as [->|[_ H]]; [discriminate|auto].
    + tauto.
    + tauto.
    + intros H. destruct (tk_current _ _ (Ho t) H) as [_ H']. contradiction.
  - apply (timers_ok_threads base k); auto. intros u Hin. rewrite set_thread_other; [reflexivity|].
    intros ->. destruct (to_linked base k Ht t Hin) as [_ H]. rewrite Hi in H. discriminate.
Qed.

(** Starting a thread makes it ready; then the scheduler runs, unless it has not begun. *)
Lemma startup_resumes k t :
  kernel_ok base k -> thread_stat (threads k t) = RT_THREAD_INIT -> 0 <= init_priority (threads k t) < 32 ->
  exists k', rt_thread_startup k t = (match rt_current_thread k with
                                      | Some _ => k ← rt_schedule k'; Some (k, RT_EOK)
                                      | None => Some (k', RT_EOK)
                                      end) /\
    kernel_ok base k' /\ only_thread t k k' /\
    (thread_stat (threads k' t) = RT_THREAD_READY \/ thread_stat (threads k' t) = RT_THREAD_RUNNING) /\
    current_priority (threads k' t) = init_priority (threads k t) /\
    (rt_current_thread k <> Some t -> forall l, lists k' l =
       lists k l ++ if decide (l = Ready (init_priority (threads k t))) then [t] else []).
Proof.
  intros Hok Hi Hp. unfold rt_thread_startup. rewrite Hi. change (negb (RT_THREAD_INIT =? RT_THREAD_INIT)) with false.
  cbv iota. set (k1 := set_thread k t (fun th => th <| current_priority := init_priority th |>)).
  assert (E1 : threads k1 t = threads k t <| current_priority := init_priority (threads k t) |>)
    by (unfold k1; rewrite set_thread_threads; reflexivity).
  assert (Hok1 : kernel_ok base k1) by (apply set_idle_thread_ok; auto).
  set (f := fun th => th <| number_mask := u32 (Z.shiftl 1 (current_priority th)) |> <| stat := RT_THREAD_SUSPEND |>).
  set (k2 := set_thread k1 t f).
  assert (E2 : threads k2 t = f (threads k1 t)) by apply set_thread_threads.
  assert (Hok2 : kernel_ok base k2).
  { apply set_idle_thread_ok; [exact Hok1|rewrite E1; exact Hi|]. right. split; [reflexivity|]. rewrite E1.
    split; [exact Hp|]. apply mask_u32. exact Hp. }
  assert (H02 : only_thread t k k2).
  { split; try reflexivity. intros u Hu. unfold k2, k1. rewrite !set_thread_other by exact Hu. reflexivity. }
  destruct (resume_spec base k2 t Hok2) as (k3 & -> & Hok3 & Hot & Haw & _); [rewrite E2; reflexivity|].
  cbn [mbind option_bind]. exists k3. unfold rt_thread_self. rewrite (ot_current _ _ _ Hot).
  split; [reflexivity|]. split; [exact Hok3|]. split; [apply (only_thread_trans t k k2 k3 H02 Hot)|].
  unfold awake in Haw. rewrite E2, E1 in Haw. change (rt_current_thread k2) with (rt_current_thread k) in Haw.
  assert (Hst : forall x, x = RT_THREAD_READY \/ x = RT_THREAD_RUNNING -> thread_stat (with_stat x (f (threads k t <| current_priority := init_priority (threads k t) |>))) = x)
    by (intros x Hx; apply thread_stat_with; destruct Hx as [-> | ->]; cbv; split; discriminate).
  destruct (decide (rt_current_thread k = Some t)) as [Hc|Hc]; destruct Haw as [-> Hls]; rewrite Hst by auto;
    (split; [auto|]; split; [reflexivity|]); [contradiction|].
  intros _ l. rewrite Hls. change (lists k2 l) with (lists k l). rewrite filter_none; [reflexivity | apply (init_unlinked k t Hok Hi)].
Qed.

Lemma startup_spec k t :
  kernel_ok base k -> thread_stat (threads k t) = RT_THREAD_INIT -> 0 <= init_priority (threads k t) < 32 ->
  (exists c, rt_current_thread k = Some c) ->
  exists k' c', rt_thread_startup k t = Some (k', RT_EOK) /\ kernel_ok base k' /\ rt_tick k' = rt_tick k /\
    rt_current_thread k' = Some c' /\
    (thread_stat (threads k' t) = RT_THREAD_READY \/ thread_stat (threads k' t) = RT_THREAD_RUNNING) /\
    current_priority (threads k' t) = init_priority (threads k t) /\
    timers_grow k k' /\ (rt_scheduler_lock_nest k = 0 -> best_running k' c').
Proof.
  intros Hok Hi Hp [c Hc]. destruct (startup_resumes k t Hok Hi Hp) as (k3 & -> & Hok3 & Hot & A & B & _). rewrite Hc.
  pose proof (only_thread_grow _ _ _ Hot) as Hgrow. destruct Hot as [F1 F2 F3 _ _ _ _ _].
  assert (Hc3 : rt_current_thread k3 = Some c) by congruence.
  destruct (schedule_kernel_ok base k3 c Hok3 Hc3) as (k4 & c' & -> & Hok4 & Hf & Hc' & Hb).
  cbn [mbind option_bind]. exists k4, c'. split; [reflexivity|]. split; [exact Hok4|].
  split; [rewrite (sf_tick _ _ Hf); exact F1|]. split; [exact Hc'|]. split; [|split; [|split]].
  - destruct (sf_stat _ _ Hf t) as [->|[_ D]]; [exact A|exact D].
  - rewrite (frame_priority k3 k4 t Hf). exact B.
  - intros x Hx. rewrite (sf_timer_list _ _ Hf) in Hx. exact (Hgrow x Hx).
  - intros H. apply Hb. rewrite F3. exact H.
Qed.

(** A change of priority requeues a ready thread behind those of its new priority. *)
Lemma change_priority_spec k t p :
  kernel_ok base k -> 0 <= p < 32 ->
  exists k', rt_thread_control k t RT_THREAD_CTRL_CHANGE_PRIORITY p = Some (k', RT_EOK) /\ kernel_ok base k' /\
    rt_tick k' = rt_tick k /\ rt_current_thread k' = rt_current_thread k /\
    rt_scheduler_lock_nest k' = rt_scheduler_lock_nest k /\ rt_interrupt_nest k' = rt_interrupt_nest k /\
    timers k' = timers k /\ rt_timer_list k' = rt_timer_list k /\
    threads k' t = set_priority p (threads k t) <| stat := stat (threads k' t) |> /\
    thread_stat (threads k' t) = thread_stat (threads k t) /\
    (forall u, u <> t -> threads k' u = threads k u) /\
    (forall l, is_wait l = true -> lists k' l = lists k l).
Proof.
  intros Hok Hp. unfold rt_thread_control. rewrite Z.eqb_refl. pose proof Hok as [[Hl Hg Ho] Ht].
  pose proof (mask_u32 p Hp) as Hm.
  destruct (Z.eqb_spec (thread_stat (threads k t)) RT_THREAD_READY) as [Hr|Hr].
  - destruct (remove_spec k t Hl Hg) as (g & E & Hl1 & Hg1 & Hu).
    { apply (tk_prio _ _ (Ho t)). rewrite Hr. reflexivity. }
    { intros p' Hin. destruct (tk_list _ _ (Ho t) _ Hin). congruence. }
    cbv zeta in *. rewrite E. cbn [mbind option_bind].
    set (k1 := tlist_remove k t <| rt_thread_ready_priority_group := g |>) in *.
    set (k2 := set_thread k1 t (set_priority p)).
    assert (E2 : threads k2 t = set_priority p (threads k t)) by (unfold k2; rewrite set_thread_threads; reflexivity).
    assert (E2o : forall u, u <> t -> threads k2 u = threads k u)
      by (intros u Hne; unfold k2; rewrite set_thread_other by exact Hne; reflexivity).
    destruct (insert_other_ok k2 t) as (g2 & -> & Hs3 & Et & Eo & L).
    { destruct Hl1; split; assumption. } { destruct Hg1; split; assumption. }
    { intros u Hne. apply (thread_ok_same k); [apply E2o, Hne| |reflexivity|apply Ho].
      intros l. unfold k2, k1. cbn. rewrite list_elem_of_filter. tauto. }
    { rewrite E2. split; [exact Hp|exact Hm]. } { exact Hu. }
    { intros Hc. apply (tk_current _ _ (Ho t)) in Hc. tauto. }
    cbn [mbind option_bind]. eexists. split; [reflexivity|].
    rewrite E2 in *. split; [split; [exact Hs3|]|split_ands; try reflexivity].
    + apply (timers_ok_threads base k); auto. intros u Hin. destruct (decide (u = t)) as [->|Hne].
      * destruct (to_linked base k Ht t Hin) as [_ H]. rewrite Hr in H. discriminate.
      * rewrite Eo, E2o by exact Hne. reflexivity.
    + rewrite Et. reflexivity.
    + rewrite Et, Hr. apply thread_stat_with. unfold RT_THREAD_READY. lia.
    + intros u Hne. rewrite Eo by exact Hne. apply E2o, Hne.
    + intros l Hl'. rewrite L, decide_False by (intros ->; discriminate Hl'). rewrite app_nil_r.
      unfold k2, k1. cbn. apply filter_none. intros Hin. apply (ready_linked k t l (Ho t) Hr) in Hin. subst. discriminate Hl'.
  - eexists. split; [reflexivity|]. split_ands; try reflexivity.
    + destruct Hl as [Hn Hone], Hg as [Hgr Hgb]. split.
      * split; [split; assumption|split; assumption|]. intros u. destruct (decide (u = t)) as [->|Hne].
        -- destruct (Ho t) as [H1 H2 H3 H4 H5]. split; rewrite set_thread_threads.
           ++ intros _. split; [exact Hp|exact Hm].
           ++ intros l Hin. specialize (H2 l Hin). destruct l; try exact H2. destruct H2 as [H2 _]. contradiction.
           ++ intros H. contradiction.
           ++ exact H4.
           ++ exact H5.
        -- apply (thread_ok_same k); [apply set_thread_other, Hne|reflexivity|reflexivity|apply Ho].
      * apply (timers_ok_threads base k); auto. intros u _. destruct (decide (u = t)) as [->|Hne];
          [rewrite set_thread_threads|rewrite set_thread_other by exact Hne]; reflexivity.
    + rewrite set_thread_threads. reflexivity.
    + rewrite set_thread_threads. reflexivity.
    + intros u Hne. apply set_thread_other, Hne.
Qed.
End Operations.

(** ** A small running system, for the examples

    Thread 0 (priority 10) runs; 2 (priority 10) and the idle thread 1 (priority
    31) are ready; 4 (priority 9) sleeps until tick 1003; 3 (priority 8) waits for
    the semaphore 5, 5 (priority 12) for the mutex 7, 6 (priority 11) for the events
    1 and 4 of the event object 8 and 7 (priority 13) for a mail in the mailbox 9. *)

Definition demo_thread (st prio : Z) : Thread :=
  mkThread st prio prio (Z.shiftl 1 prio) 10 1 RT_EOK 0 0 false false.

Definition demo : Kernel := mkKernel 1000
  (fun t => match t with
            | 0 => demo_thread RT_THREAD_RUNNING 10
            | 1 => demo_thread RT_THREAD_READY 31
            | 2 => demo_thread RT_THREAD_READY 10
            | 3 => demo_thread RT_THREAD_SUSPEND 8
            | 4 => demo_thread RT_THREAD_SUSPEND 9
            | 5 => demo_thread RT_THREAD_SUSPEND 12
            | 6 => demo_thread RT_THREAD_SUSPEND 11 <| event_set := 5%Z |> <| event_info := 5%Z |>
            | 7 => demo_thread RT_THREAD_SUSPEND 13
            | _ => mkThread RT_THREAD_INIT 20 20 0 10 10 RT_EOK 0 0 false false
            end%nat)
  (fun x => match x with
            | ThreadTimer t => if (t =? 4)%nat then mkTimer 1 (rt_thread_timeout_fn t) 3 1003
                               else mkTimer 0 (rt_thread_timeout_fn t) 0 0
            | UserTimer n => mkTimer 0 (user_timeout_fn n) 0 0
            end)
  [ThreadTimer 4] []
  (fun l => if decide (l = Ready 31) then [1%nat] else if decide (l = Ready 10) then [2%nat]
            else if decide (l = SemWait 5) then [3%nat] else if decide (l = MutexWait 7) then [5%nat]
            else if decide (l = EventWait 8) then [6%nat] else if decide (l = MbRecvWait 9) then [7%nat]
            else [])
  (2 ^ 31 + 2 ^ 10) (Some 0%nat) 10 0 0 99.

(** The links of the demo system. *)
Lemma demo_list l t : t ∈ lists demo l ->
  (l, t) ∈ [(Ready 31, 1%nat); (Ready 10, 2%nat); (SemWait 5, 3%nat); (MutexWait 7, 5%nat);
            (EventWait 8, 6%nat); (MbRecvWait 9, 7%nat)].
Proof.
  cbn. rewrite !elem_of_cons, elem_of_nil.
  repeat (destruct (decide _) as [->|]; [intros ->%list_elem_of_singleton; tauto|]). intros H. inversion H.
Qed.

Ltac demo_links H :=
  apply demo_list in H; rewrite !elem_of_cons, elem_of_nil in H;
  repeat destruct H as [H|H]; try contradiction; first [discriminate H|injection H; intros; subst; clear H].

Lemma demo_thread_ok t : thread_ok demo t.
Proof.
  split.
  - destruct t as [|[|[|[|[|[|[|[|t]]]]]]]]; intros H; try discriminate H; (split; [cbn; lia|reflexivity]).
  - intros l H. demo_links H; cbn; auto.
  - destruct t as [|[|[|[|[|[|[|[|t]]]]]]]]; intros H; try discriminate H; vm_compute; left.
  - destruct t as [|[|[|[|[|[|[|[|t]]]]]]]]; intros H; try discriminate H; reflexivity.
  - destruct t as [|t]; intros H; [split; discriminate|discriminate H].
Qed.

Lemma demo_group_ok : group_ok demo.
Proof.
  split; [cbn; lia|]. intros p Hp.
  assert (Hall : forallb (fun n => Bool.eqb (Z.testbit (2 ^ 31 + 2 ^ 10) (Z.of_nat n))
            (negb (bool_decide (lists demo (Ready (Z.of_nat n)) = [])))) (seq 0 32) = true)
    by (vm_compute; reflexivity).
  rewrite forallb_forall in Hall. specialize (Hall (Z.to_nat p)).
  rewrite in_seq, Z2Nat.id in Hall by lia. apply Bool.eqb_prop, Hall. lia.
Qed.

Lemma demo_ok : kernel_ok 1000 demo.
Proof.
  split; [split; [split| |]|].
  - intros l. cbn. repeat (destruct (decide _); [apply NoDup_singleton|]). constructor.
  - intros t l l' H1 H2. demo_links H1; demo_links H2; congruence.
  - apply demo_group_ok.
  - apply demo_thread_ok.
  - split.
    + cbn. lia.
    + apply NoDup_singleton.
    + intros t. cbn. destruct (t =? 4)%nat; repeat split.
    + intros t [= ->]%list_elem_of_singleton. split; reflexivity.
    + intros t H. inversion H.
    + split; repeat constructor.
Qed.

Lemma demo_best : best_running demo 0.
Proof.
  intros t Ht. destruct t as [|[|[|[|[|[|[|[|t]]]]]]]]; try discriminate Ht; split; try reflexivity; cbn; lia.
Qed.

(** ** Properties *)

(** C33: scheduling never fails once a thread runs, keeps the invariant (bitmap,
    lists and thread states agree) and gives the processor to a thread that no
    ready thread outranks: either the running thread keeps it, or it goes to the
    first thread of the highest ready list, and a running thread that is
    preempted or whose slice is over is put last in the list of its priority. *)
Theorem schedule_picks_best k c :
  kernel_ok (rt_tick k) k -> rt_current_thread k = Some c -> rt_scheduler_lock_nest k = 0 ->
  exists k' c', rt_schedule k = Some k' /\ kernel_ok (rt_tick k') k' /\
    rt_current_thread k' = Some c' /\ best_running k' c' /\
    (c' = c /\ kept k k' c \/ c' <> c /\ switched k k' c c').
Proof.
  intros Hok Hc Hlock. destruct (schedule_spec k c (ko_sched _ _ Hok) Hc Hlock) as (k' & c' & E & Hs & Hf & H).
  exists k', c'. split; [exact E|]. split; [|exact H]. split; [exact Hs|].
  rewrite (sf_tick _ _ Hf). apply (timers_ok_frame _ k k' Hf), Hok.
Qed.

Lemma schedule_picks_best_witness :
  exists k', rt_schedule (set_thread demo 0 (with_stat RT_THREAD_SUSPEND)) = Some k' /\ rt_current_thread k' = Some 2%nat.
Proof.
  destruct (schedule_picks_best (set_thread demo 0 (with_stat RT_THREAD_SUSPEND)) 0) as (k' & c' & E & H).
  - pose proof demo_ok as [[Hl Hg Ho] Ht]. split.
    + apply sched_ok_set_thread; auto; try discriminate.
      2:{ intros _. split; [cbn; lia|reflexivity]. }
      intros l Hl'. demo_links Hl'.
    + apply (timers_ok_threads 1000 demo); auto. intros t H%list_elem_of_singleton. injection H as ->. reflexivity.
  - reflexivity.
  - reflexivity.
  - exists k'. split; [exact E|]. clear H. apply (f_equal (fun o => match o with Some k => rt_current_thread k | None => None end)) in E.
    rewrite <- E. vm_compute. reflexivity.
Defined.

(** [rt_thread_yield] called by a thread whose slice is not over changes
    nothing when no thread of a higher priority is ready: threads of the same
    priority waiting for the processor do not get it, although the comment says
    that the thread yields and becomes ready. *)
Theorem yield_keeps_processor k c :
  kernel_ok (rt_tick k) k -> rt_current_thread k = Some c -> thread_stat (threads k c) = RT_THREAD_RUNNING ->
  best_running k c -> has_bits (stat (threads k c)) RT_THREAD_STAT_YIELD = false ->
  exists k', rt_thread_yield k = Some (k', RT_EOK) /\ rt_current_thread k' = Some c /\
    (forall l, lists k' l = lists k l) /\ thread_stat (threads k' c) = RT_THREAD_RUNNING.
Proof.
  intros Hok Hc Hrun Hbest Hy. unfold rt_thread_yield.
  destruct (Z.eq_dec (rt_scheduler_lock_nest k) 0) as [Hlock|Hlock].
  2:{ unfold rt_schedule. rewrite (proj2 (Z.eqb_neq _ _)) by exact Hlock. exists k. auto. }
  destruct (schedule_spec k c (ko_sched _ _ Hok) Hc Hlock) as (k' & c' & -> & Hs & Hf & Hc' & Hb' & Hcase).
  cbn [mbind option_bind]. exists k'. split; [reflexivity|].
  destruct Hcase as [[-> [H1 H2 H3 _]]|[Hne [[q Hq] Hr Hwhy]]].
  - split; [exact Hc'|]. split; [exact H1|].
    destruct (sf_stat _ _ Hf c) as [->|[_ [D|D]]]; [exact Hrun| |exact D].
    destruct (tk_current _ _ (so_threads _ Hs c) Hc') as [Hn _]. contradiction.
  - exfalso. specialize (Hwhy Hrun). assert (Hin : c' ∈ lists k (Ready (current_priority (threads k c')))) by (rewrite Hq; left).
    destruct (tk_list _ _ (so_threads _ (ko_sched _ _ Hok) c') _ Hin) as [Hst _].
    destruct (Hbest c' Hst) as [_ Hle]. destruct Hwhy as [Hlt|[_ Hyes]]; [lia|congruence].
Qed.

Lemma yield_keeps_processor_witness :
  exists k', rt_thread_yield demo = Some (k', RT_EOK) /\ rt_current_thread k' = Some 0%nat /\
    lists k' (Ready 10) = [2%nat].
Proof.
  destruct (yield_keeps_processor demo 0) as (k' & E & Hc & Hl & _).
  - exact demo_ok.
  - reflexivity.
  - reflexivity.
  - apply demo_best.
  - reflexivity.
  - exists k'. split; [exact E|]. split; [exact Hc|]. rewrite Hl. reflexivity.
Defined.

(** [rt_thread_delay_until] starts the timer for [elapsed + inc_tick] ticks
    instead of the remaining [inc_tick - elapsed]: a thread that last woke at
    [tick] and has worked for [elapsed] ticks wakes [2 * elapsed] ticks after the
    documented time [tick + inc_tick]. *)
Theorem delay_until_oversleeps k c tick inc_tick (elapsed := u32 (rt_tick k - tick)) :
  kernel_ok (rt_tick k) k -> rt_current_thread k = Some c -> thread_stat (threads k c) = RT_THREAD_RUNNING ->
  elapsed < inc_tick -> elapsed + inc_tick < RT_TICK_HALF ->
  exists k', rt_thread_delay_until_begin k tick inc_tick = Some (k', elapsed + inc_tick, true) /\
    waiting k k' c (Some (u32 (u32 (tick + inc_tick) + 2 * elapsed))).
Proof.
  intros Hok Hc Hrun Hlt Hlim. unfold rt_thread_delay_until_begin, rt_thread_self. rewrite Hc. cbn [mbind option_bind].
  fold elapsed. rewrite (proj2 (Z.ltb_lt _ _)) by exact Hlt.
  pose proof (u32_range (rt_tick k - tick)) as Hr. fold elapsed in Hr.
  assert (Hh : RT_TICK_HALF = 2147483647) by reflexivity.
  rewrite (u32_small (elapsed + inc_tick)) by lia.
  destruct (sleep_spec k c (elapsed + inc_tick) Hok Hc Hrun ltac:(lia)) as (k' & E & Hw & _).
  unfold rt_thread_sleep_begin, rt_thread_self in E. rewrite Hc in E. cbn [mbind option_bind] in E.
  destruct (rt_thread_suspend k c) as [[k1 e]|]; [|discriminate]. cbn [mbind option_bind] in *.
  destruct (start_thread_timer k1 c _) as [k2|]; [|discriminate]. cbn [mbind option_bind] in *.
  rewrite E. cbn [mbind option_bind]. exists k'. split; [reflexivity|].
  replace (u32 (u32 (tick + inc_tick) + 2 * elapsed)) with (u32 (rt_tick k + (elapsed + inc_tick))); [exact Hw|].
  rewrite u32_add_mod. unfold elapsed. unfold u32. Z.div_mod_to_equations. lia.
Qed.

Lemma delay_until_oversleeps_witness :
  exists k', rt_thread_delay_until_begin demo 990 50 = Some (k', 60, true) /\
    timeout_tick (timers k' (ThreadTimer 0)) = 1060.
Proof.
  destruct (delay_until_oversleeps demo 0 990 50) as (k' & E & Hw).
  - exact demo_ok.
  - reflexivity.
  - reflexivity.
  - reflexivity.
  - reflexivity.
  - exists k'. split; [exact E|]. exact (proj2 (wt_timer _ _ _ _ Hw)).
Defined.
