(* ===== verification/Tick.v ===== *)
(** The tick interrupt (src/rt-thread/src/clock.c) and the expiry check of the
    hard timers ([rt_timer_check] of src/rt-thread/src/timer.c). *)

From S2P Require Import Prelude Kernel Scheduler Timer Thread.

(** ** Definitions *)

Definition rt_tick_get (k : Kernel) : Z := rt_tick k.
Definition rt_tick_set (k : Kernel) (tick : Z) : Kernel := k <| rt_tick := tick |>.

Section Callbacks.
(** The timeout functions of the timers that are not thread timers. *)
Variable user_timeout : nat -> Kernel -> option Kernel.

(** [t->timeout_func(t->parameter)] *)
Definition timer_fire (k : Kernel) (x : timer_id) : option Kernel :=
  match timeout_func (timers k x) with
  | rt_thread_timeout_fn t => rt_thread_timeout k t
  | user_timeout_fn n => user_timeout n k
  end.

(** The loop of [rt_timer_check]; a periodic timer of zero ticks would keep it
    going for ever, so it has fuel. *)
Fixpoint timer_check_loop (fuel : nat) (current_tick : Z) (k : Kernel) : option Kernel :=
  match fuel with
  | O => None
  | S fuel =>
      match rt_timer_list k with
      | [] => Some k
      | x :: _ =>
          if u32 (current_tick - timeout_tick (timers k x)) <? RT_TICK_HALF then
            let k := _rt_timer_remove k x in
            k ← timer_fire k x;
            let current_tick := rt_tick_get k in
            let again := has_bits (flag (timers k x)) RT_TIMER_FLAG_PERIODIC &&
                         has_bits (flag (timers k x)) RT_TIMER_FLAG_ACTIVATED in
            let k := set_timer k x (fun t => t <| flag := clear_bits (flag t) RT_TIMER_FLAG_ACTIVATED |>) in
            if again then
              '(k, _) ← rt_timer_start k x;
              timer_check_loop fuel current_tick k
            else timer_check_loop fuel current_tick k
          else Some k
      end
  end.

Definition rt_timer_check (fuel : nat) (k : Kernel) : option Kernel :=
  timer_check_loop fuel (rt_tick_get k) k.

Definition rt_tick_increase (fuel : nat) (k : Kernel) : option Kernel :=
  let k := k <| rt_tick := u32 (rt_tick k + 1) |> in
  t ← rt_thread_self k;
  let k := set_thread k t (fun th => th <| remaining_tick := u32 (remaining_tick th - 1) |>) in
  k ← (if remaining_tick (threads k t) =? 0 then
         let k := set_thread k t (fun th => th <| remaining_tick := init_tick th |>
                                              <| stat := Z.lor (stat th) RT_THREAD_STAT_YIELD |>) in
         '(k, _) ← rt_thread_yield k; Some k
       else Some k);
  rt_timer_check fuel k.

(** ** Lemmas *)

(** What a thread sees of others' timeouts. *)
Record others_kept (t : nat) (k k' : Kernel) : Prop := {
  oc_tick : rt_tick k' = rt_tick k;
  oc_lock : rt_scheduler_lock_nest k' = rt_scheduler_lock_nest k;
  oc_nest : rt_interrupt_nest k' = rt_interrupt_nest k;
  oc_threads : forall u, u <> t -> threads k' u = threads k u <| stat := stat (threads k' u) |>;
  oc_stat : forall u, u <> t -> thread_stat (threads k' u) = thread_stat (threads k u) \/
    (thread_stat (threads k u) = RT_THREAD_READY \/ thread_stat (threads k u) = RT_THREAD_RUNNING) /\
    (thread_stat (threads k' u) = RT_THREAD_READY \/ thread_stat (threads k' u) = RT_THREAD_RUNNING);
  oc_timers : forall x, x <> ThreadTimer t -> timers k' x = timers k x;
  oc_lists : forall l, is_wait l = true -> lists k' l = filter (fun u => u <> t) (lists k l);
}.

Definition timed_out (k k' : Kernel) (t : nat) : Prop :=
  error (threads k' t) = - RT_ETIMEOUT /\
  (thread_stat (threads k' t) = RT_THREAD_READY \/ thread_stat (threads k' t) = RT_THREAD_RUNNING) /\
  current_priority (threads k' t) = current_priority (threads k t).

Lemma timeout_spec base k t c :
  kernel_ok base k -> rt_current_thread k = Some c ->
  thread_stat (threads k t) = RT_THREAD_SUSPEND -> (ThreadTimer t ∉ rt_timer_list k) ->
  exists k' c', rt_thread_timeout k t = Some k' /\ kernel_ok base k' /\ others_kept t k k' /\ timed_out k k' t /\
    timers k' = timers k /\ rt_timer_list k' = rt_timer_list k /\ rt_current_thread k' = Some c' /\
    (rt_scheduler_lock_nest k = 0 -> best_running k' c').
Proof.
  intros Hok Hc Hst Hnt. unfold rt_thread_timeout. rewrite Hst.
  change (negb (RT_THREAD_SUSPEND =? RT_THREAD_SUSPEND)) with false. cbv iota.
  pose proof (suspended_prio _ k t Hok Hst) as Hp.
  set (k1 := set_thread k t (fun th => th <| error := - RT_ETIMEOUT |>)).
  assert (E1 : threads k1 t = threads k t <| error := - RT_ETIMEOUT |>)
    by (unfold k1; rewrite set_thread_threads; reflexivity).
  assert (E1o : forall u, u <> t -> threads k1 u = threads k u)
    by (intros u Hu; unfold k1; rewrite set_thread_other by exact Hu; reflexivity).
  assert (Hst1 : thread_stat (threads k1 t) = RT_THREAD_SUSPEND) by (rewrite E1; exact Hst).
  assert (Hok1 : kernel_ok base k1).
  { destruct Hok as [[[Hn Ho] [Hr Hb] Hth] Ht]. split.
    - split; [split; assumption|split; assumption|]. intros u. destruct (decide (u = t)) as [->|Hne].
      + destruct (Hth t) as [H1 H2 H3 H4 H5]. split; rewrite E1; [|exact H2|exact H3|exact H4|exact H5].
        intros _. destruct Hp. split; assumption.
      + apply (thread_ok_same k); [apply E1o, Hne|reflexivity|reflexivity|apply Hth].
    - apply (timers_ok_threads base k); auto. intros u _. destruct (decide (u = t)) as [->|Hne];
        [rewrite E1|rewrite E1o by exact Hne]; reflexivity. }
  pose proof (unlink_suspended_ok base k1 t Hok1 Hst1) as Hok2.
  destruct (insert_ready_ok base (tlist_remove k1 t) t Hok2) as (k3 & -> & Hok3 & Hot & Et3 & El3 & _ & Hcase).
  { apply tlist_remove_lists_ok, Hok1. }
  { change (threads (tlist_remove k1 t) t) with (threads k1 t). rewrite E1. destruct Hp. split; assumption. }
  { exact Hnt. } { exact Hst1. }
  cbn [mbind option_bind].
  assert (H3 : (thread_stat (threads k3 t) = RT_THREAD_READY \/ thread_stat (threads k3 t) = RT_THREAD_RUNNING) /\
      error (threads k3 t) = - RT_ETIMEOUT /\ current_priority (threads k3 t) = current_priority (threads k t)).
  { change (threads (tlist_remove k1 t) t) with (threads k1 t) in Hcase. rewrite E1 in Hcase.
    destruct (decide _); destruct Hcase as [-> _]; rewrite thread_stat_with by (cbv; split; discriminate);
      split; auto. }
  destruct Hot as [F1 F2 F3 F4 F5 F6 F7 F8].
  destruct (schedule_kernel_ok base k3 c Hok3) as (k4 & c' & -> & Hok4 & Hf & Hc' & Hb); [rewrite F2; exact Hc|].
  exists k4, c'. split; [reflexivity|]. split; [exact Hok4|]. split; [|split; [|split; [|split; [|split]]]].
  - split.
    + rewrite (sf_tick _ _ Hf). exact F1.
    + rewrite (sf_lock _ _ Hf). exact F3.
    + rewrite (sf_nest _ _ Hf). exact F4.
    + intros u Hu. rewrite (sf_threads _ _ Hf u) at 1. rewrite F5 by exact Hu.
      change (threads (tlist_remove k1 t) u) with (threads k1 u). rewrite E1o by exact Hu. reflexivity.
    + intros u Hu. pose proof (sf_stat _ _ Hf u) as Hs. rewrite F5 in Hs by exact Hu.
      change (threads (tlist_remove k1 t) u) with (threads k1 u) in Hs. rewrite E1o in Hs by exact Hu. exact Hs.
    + intros x Hx. rewrite (sf_timers _ _ Hf). apply F7, Hx.
    + intros l Hl. pose proof (sf_lists _ _ Hf l) as Hs.
      assert (E3 : lists k3 l = filter (fun u => u <> t) (lists k l)).
      { destruct (decide (rt_current_thread (tlist_remove k1 t) = Some t)); destruct Hcase as [_ ->]; [reflexivity|].
        rewrite decide_False by (intros ->; discriminate Hl). apply app_nil_r. }
      destruct l; try discriminate Hl; rewrite Hs; exact E3.
  - destruct H3 as (A & B & C). split; [|split].
    + rewrite (sf_threads _ _ Hf t). exact B.
    + destruct (sf_stat _ _ Hf t) as [->|[_ D]]; [exact A|exact D].
    + rewrite (frame_priority k3 k4 t Hf). exact C.
  - rewrite (sf_timers _ _ Hf). exact Et3.
  - rewrite (sf_timer_list _ _ Hf). exact El3.
  - exact Hc'.
  - intros H. apply Hb. rewrite F3. exact H.
Qed.

(** A deadline at most one tick after [base] is due at [base + 1]. *)
Lemma due_iff base now d :
  now = u32 (base + 1) -> offset base d < RT_TICK_HALF ->
  (u32 (now - d) <? RT_TICK_HALF) = (offset base d <=? 1).
Proof.
  intros -> Ho. change RT_TICK_HALF with 2147483647 in *. rewrite u32_sub_mod_l.
  replace (base + 1 - d) with (1 - (d - base)) by lia. rewrite <- u32_sub_mod_r. fold (offset base d).
  pose proof (offset_range base d). unfold u32.
  destruct (Z.leb_spec (offset base d) 1); [apply Z.ltb_lt|apply Z.ltb_ge]; Z.div_mod_to_equations; lia.
Qed.

(** One thread timer at the head of the list, due: its thread times out. *)
Lemma fire_step base k t rest c :
  kernel_ok base k -> rt_current_thread k = Some c -> rt_timer_list k = ThreadTimer t :: rest ->
  exists k' c', (k ← timer_fire (_rt_timer_remove k (ThreadTimer t)) (ThreadTimer t);
       Some (set_timer k (ThreadTimer t) (fun t => t <| flag := clear_bits (flag t) RT_TIMER_FLAG_ACTIVATED |>),
             has_bits (flag (timers k (ThreadTimer t))) RT_TIMER_FLAG_PERIODIC)) = Some (k', false) /\
    kernel_ok base k' /\ others_kept t k k' /\ timed_out k k' t /\ rt_timer_list k' = rest /\
    (forall x, timeout_tick (timers k' x) = timeout_tick (timers k x)) /\
    rt_current_thread k' = Some c' /\ (rt_scheduler_lock_nest k = 0 -> best_running k' c').
Proof.
  intros Hok Hc Elist. set (x := ThreadTimer t).
  assert (Hin : x ∈ rt_timer_list k) by (rewrite Elist; left).
  destruct (to_linked _ k (ko_timers _ k Hok) t Hin) as [_ Hst].
  set (k1 := _rt_timer_remove k x).
  assert (Erest : rt_timer_list k1 = rest).
  { cbn. rewrite Elist, filter_cons, decide_False by tauto. apply timer_filter_none.
    pose proof (to_nodup _ k (ko_timers _ k Hok)) as Hn. rewrite Elist in Hn. apply NoDup_cons in Hn. apply Hn. }
  assert (Hnt : ThreadTimer t ∉ rt_timer_list k1)
    by (cbn; rewrite list_elem_of_filter; tauto).
  assert (Hok1 : kernel_ok base k1).
  { destruct Hok as [Hs [Hk Hn Hth Hl Hso Ho]]. split; [apply (sched_ok_same k); [split; reflexivity|exact Hs]|].
    split; auto.
    - cbn. apply NoDup_filter, Hn.
    - intros u H. cbn in H. apply list_elem_of_filter in H as [_ H]. apply Hl, H.
    - intros u H. cbn in H. apply list_elem_of_filter in H as [_ H]. exact (Hso u H).
    - apply timers_sorted_filter. exact Ho. }
  destruct (to_thread _ k (ko_timers _ k Hok) t) as (Efn & Eper & _).
  fold x in Efn, Eper. unfold timer_fire. change (timers k1 x) with (timers k x). rewrite Efn.
  destruct (timeout_spec base k1 t c Hok1 Hc Hst Hnt) as (k2 & c' & -> & Hok2 & Hoc & Hto & Et2 & El2 & Hc2 & Hb2).
  cbn [mbind option_bind]. rewrite Et2. change (timers k1 x) with (timers k x). rewrite Eper.
  set (k3 := set_timer k2 x (fun t => t <| flag := clear_bits (flag t) RT_TIMER_FLAG_ACTIVATED |>)).
  assert (E3 : timers k3 x = timers k x <| flag := clear_bits (flag (timers k x)) RT_TIMER_FLAG_ACTIVATED |>)
    by (unfold k3; rewrite set_timer_timers, Et2; reflexivity).
  assert (E3o : forall y, y <> x -> timers k3 y = timers k y)
    by (intros y Hy; unfold k3; rewrite set_timer_other, Et2 by exact Hy; reflexivity).
  assert (Edl : forall y, timeout_tick (timers k3 y) = timeout_tick (timers k y)).
  { intros y. destruct (decide (y = x)) as [->|Hy]; [rewrite E3|rewrite E3o by exact Hy]; reflexivity. }
  exists k3, c'. split; [reflexivity|]. split; [|split; [|split; [|split; [|split; [|split]]]]].
  - destruct Hok2 as [Hs [Hk Hn Hth Hl Hso Ho]]. split; [apply (sched_ok_same k2); [split; reflexivity|exact Hs]|].
    rewrite Et2 in *. split; auto.
    + intros u. destruct (decide (ThreadTimer u = x)) as [E|Hne].
      * rewrite E, E3. specialize (Hth u). rewrite E in Hth. destruct Hth as (A & B & C).
        assert (Hf : forall m, Z.land 1 m = 0 -> has_bits (flag (timers k x)) m = false ->
          has_bits (flag (timers k x <| flag := clear_bits (flag (timers k x)) RT_TIMER_FLAG_ACTIVATED |>)) m = false)
          by (intros m Hm Hz; etransitivity; [apply clear_has, Hm|exact Hz]).
        split; [exact A|]. split; apply Hf; auto.
      * rewrite E3o by exact Hne. apply Hth.
    + intros u Hu. change (rt_timer_list k3) with (rt_timer_list k2) in Hu. rewrite E3o.
      * apply Hl, Hu.
      * intros E. rewrite E, El2 in Hu. contradiction.
    + apply (timers_sorted_ext _ _ (fun y => timeout_tick (timers k1 y))); [|exact Ho].
      intros y _. rewrite Edl. reflexivity.
  - destruct Hoc as [A B C D E F G]. split; auto. 
  - exact Hto.
  - change (rt_timer_list k3) with (rt_timer_list k2). rewrite El2. exact Erest.
  - exact Edl.
  - exact Hc2.
  - exact Hb2.
Qed.

(** The threads [E] have timed out, in this order; nothing else has happened. *)
Record after_timeouts (E : list nat) (k k' : Kernel) : Prop := {
  at_tick : rt_tick k' = rt_tick k;
  at_lock : rt_scheduler_lock_nest k' = rt_scheduler_lock_nest k;
  at_nest : rt_interrupt_nest k' = rt_interrupt_nest k;
  at_in : forall t, t ∈ E -> timed_out k k' t;
  at_out : forall u, u ∉ E -> threads k' u = threads k u <| stat := stat (threads k' u) |> /\
    (thread_stat (threads k' u) = thread_stat (threads k u) \/
     (thread_stat (threads k u) = RT_THREAD_READY \/ thread_stat (threads k u) = RT_THREAD_RUNNING) /\
     (thread_stat (threads k' u) = RT_THREAD_READY \/ thread_stat (threads k' u) = RT_THREAD_RUNNING));
  at_deadlines : forall x, timeout_tick (timers k' x) = timeout_tick (timers k x);
  at_lists : forall l, is_wait l = true -> lists k' l = filter (fun u => u ∉ E) (lists k l);
}.

Lemma after_timeouts_nil k : after_timeouts [] k k.
Proof.
  split; auto; [intros t H; inversion H| |].
  - intros u _. split; [apply stat_eta|left; reflexivity].
  - intros l _. induction (lists k l) as [|a q IH]; [reflexivity|].
    rewrite filter_cons, decide_True by apply not_elem_of_nil. f_equal. exact IH.
Qed.

Lemma after_timeouts_cons t E k k1 k2 :
  t ∉ E -> others_kept t k k1 -> timed_out k k1 t ->
  (forall x, timeout_tick (timers k1 x) = timeout_tick (timers k x)) ->
  after_timeouts E k1 k2 -> after_timeouts (t :: E) k k2.
Proof.
  intros Ht [A1 A2 A3 A4 A5 _ A7] (B1 & B2 & B3) Hd [C1 C2 C3 C4 C5 C6 C7]. split; try congruence.
  - intros u [->|Hu]%elem_of_cons.
    + destruct (C5 t Ht) as [E1 E2]. split; [|split].
      * rewrite E1. exact B1.
      * destruct E2 as [->|[_ E2]]; [exact B2|exact E2].
      * rewrite E1. exact B3.
    + assert (Hne : u <> t) by congruence. destruct (C4 u Hu) as (D1 & D2 & D3).
      split; [exact D1|]. split; [exact D2|]. rewrite D3, (A4 u Hne). reflexivity.
  - intros u [Hne Hu]%not_elem_of_cons. destruct (C5 u Hu) as [E1 E2].
    specialize (A4 u Hne). specialize (A5 u Hne). split.
    + rewrite E1, A4. reflexivity.
    + destruct A5 as [F|[F F']], E2 as [G|[G G']]; rewrite ?F in *; auto.
      right. split; [exact F|]. rewrite G. exact F'.
  - intros l Hl. rewrite (C7 l Hl), (A7 l Hl). rewrite list_filter_filter. apply list_filter_iff.
    intros x. rewrite not_elem_of_cons. tauto.
Qed.

Lemma check_loop_spec base now E : now = u32 (base + 1) -> forall k R c fuel,
  kernel_ok base k -> rt_current_thread k = Some c -> rt_tick k = now ->
  rt_timer_list k = map ThreadTimer E ++ R ->
  Forall (fun t => offset base (timeout_tick (timers k (ThreadTimer t))) <= 1) E ->
  Forall (fun x => 1 < offset base (timeout_tick (timers k x))) R ->
  (length E < fuel)%nat ->
  exists k' c', timer_check_loop fuel now k = Some k' /\ kernel_ok base k' /\ after_timeouts E k k' /\
    rt_timer_list k' = R /\ rt_current_thread k' = Some c' /\
    (rt_scheduler_lock_nest k = 0 -> E <> [] \/ best_running k c -> best_running k' c').
Proof.
  intros Hnow. induction E as [|t E IH]; intros k R c fuel Hok Hc Htick Hlist Hdue Hnot Hfuel;
    (destruct fuel as [|fuel]; [cbn in Hfuel; lia|]); cbn [timer_check_loop].
  - cbn [map app] in Hlist. exists k, c. rewrite Hlist.
    destruct R as [|x R].
    + split_ands; auto using after_timeouts_nil. intros _ [H|H]; [contradiction|exact H].
    + apply Forall_cons in Hnot as [Hx _].
      pose proof (to_sorted _ k (ko_timers _ k Hok)) as [_ Hb]. rewrite Hlist in Hb. apply Forall_cons in Hb as [Hb _].
      rewrite (due_iff base now) by assumption. rewrite (proj2 (Z.leb_gt _ _)) by exact Hx.
      split_ands; auto using after_timeouts_nil. intros _ [H|H]; [contradiction|exact H].
  - cbn [map app] in Hlist. rewrite Hlist. apply Forall_cons in Hdue as [Hx Hdue].
    pose proof (to_sorted _ k (ko_timers _ k Hok)) as [_ Hb]. rewrite Hlist in Hb. apply Forall_cons in Hb as [Hb _].
    rewrite (due_iff base now) by assumption. rewrite (proj2 (Z.leb_le _ _)) by exact Hx.
    destruct (fire_step base k t _ c Hok Hc Hlist) as (k1 & c1 & Estep & Hok1 & Hoc & Hto & Hl1 & Hd1 & Hc1 & Hb1).
    destruct (timer_fire _ _) as [k0|]; [|discriminate]. cbn [mbind option_bind] in *. cbv zeta.
    injection Estep as Ek1 Eper.
    assert (Hp0 : has_bits (flag (timers k0 (ThreadTimer t))) RT_TIMER_FLAG_PERIODIC = false).
    { exact Eper. }
    rewrite Hp0. cbn [andb]. rewrite Ek1.
    assert (Et0 : rt_tick_get k0 = now).
    { unfold rt_tick_get. change (rt_tick k0) with (rt_tick (set_timer k0 (ThreadTimer t)
        (fun t => t <| flag := clear_bits (flag t) RT_TIMER_FLAG_ACTIVATED |>))). rewrite Ek1.
      rewrite (oc_tick _ _ _ Hoc). exact Htick. }
    rewrite Et0.
    pose proof (to_nodup _ k (ko_timers _ k Hok)) as Hn. rewrite Hlist in Hn. apply NoDup_cons in Hn as [Hni _].
    assert (HtE : t ∉ E).
    { intros H. apply Hni. apply elem_of_app. left. apply list_elem_of_In, in_map, list_elem_of_In, H. }
    destruct (IH k1 R c1 fuel Hok1 Hc1) as (k2 & c2 & E2 & Hok2 & Haf & Hl2 & Hc2 & Hb2).
    + rewrite (oc_tick _ _ _ Hoc). exact Htick.
    + exact Hl1.
    + eapply Forall_impl; [exact Hdue|]. intros u Hu. cbv beta in *. rewrite Hd1. exact Hu.
    + eapply Forall_impl; [exact Hnot|]. intros u Hu. cbv beta in *. rewrite Hd1. exact Hu.
    + cbn in Hfuel. lia.
    + exists k2, c2. split_ands; auto.
      * apply (after_timeouts_cons t E k k1 k2); auto.
      * intros Hlock _. apply Hb2; [rewrite (oc_lock _ _ _ Hoc); exact Hlock|right; apply Hb1, Hlock].
Qed.

(** What is left after the check is in order from the new tick on. *)
Lemma rebase base now tick_of l :
  now = u32 (base + 1) -> timers_sorted base RT_TICK_HALF tick_of l ->
  Forall (fun x => 1 < offset base (tick_of x)) l -> timers_sorted now RT_TICK_HALF tick_of l.
Proof.
  intros -> [Hs Hb] Hl.
  assert (E : forall x, x ∈ l -> offset (u32 (base + 1)) (tick_of x) = offset base (tick_of x) - 1).
  { intros x Hx. rewrite Forall_forall in Hl. specialize (Hl x Hx). pose proof (offset_range base (tick_of x)).
    unfold offset in *. rewrite u32_sub_mod_r. replace (tick_of x - (base + 1)) with (tick_of x - base - 1) by lia.
    rewrite <- u32_sub_mod_l. apply u32_small. lia. }
  split.
  - clear Hb Hl. induction Hs as [|a l Hs IH Ha]; constructor.
    + apply IH. intros x Hx. apply E. right. exact Hx.
    + rewrite Forall_forall in *. intros y Hy. specialize (Ha y Hy). unfold timer_order in *.
      rewrite !E by (left || (right; exact Hy)). lia.
  - rewrite Forall_forall in *. intros x Hx. rewrite E by exact Hx. specialize (Hb x Hx). lia.
Qed.

Definition slice_over (th : Thread) : Thread :=
  th <| remaining_tick := init_tick th |> <| stat := Z.lor (stat th) RT_THREAD_STAT_YIELD |>.

Lemma slice_over_inert : inert slice_over.
Proof.
  intros th. split_ands; [|reflexivity|reflexivity]. unfold thread_stat, slice_over, RT_THREAD_STAT_MASK. 
  change (stat (th <| remaining_tick := init_tick th |> <| stat := Z.lor (stat th) RT_THREAD_STAT_YIELD |>))
    with (Z.lor (stat th) RT_THREAD_STAT_YIELD).
  rewrite Z.land_lor_distr_l. change (Z.land RT_THREAD_STAT_YIELD 7) with 0. apply Z.lor_0_r.
Qed.

(** The state in which the timers are checked: the time slice is accounted for. *)
Definition slice (k : Kernel) (c : nat) : option Kernel :=
  let k := set_thread k c (fun th => th <| remaining_tick := u32 (remaining_tick th - 1) |>) in
  if remaining_tick (threads k c) =? 0 then rt_schedule (set_thread k c slice_over) else Some k.

Lemma tick_increase_eq fuel k c :
  rt_current_thread k = Some c ->
  rt_tick_increase fuel k =
    (k1 ← slice (k <| rt_tick := u32 (rt_tick k + 1) |>) c; rt_timer_check fuel k1).
Proof.
  intros Hc. unfold rt_tick_increase, slice, rt_thread_self.
  change (rt_current_thread (k <| rt_tick := u32 (rt_tick k + 1) |>)) with (rt_current_thread k). rewrite Hc.
  cbn [mbind option_bind]. destruct (_ =? 0); [|reflexivity].
  unfold rt_thread_yield. fold slice_over.
  destruct (rt_schedule _) as [k1|]; reflexivity.
Qed.

Lemma tick_ok base k tick : kernel_ok base k -> 0 <= tick < 4294967296 -> kernel_ok base (k <| rt_tick := tick |>).
Proof.
  intros [[[Hn Ho] [Hr Hb] Hth] [Hk Hn' Hto Hl Hso Hs]] Ht. split.
  - split; [split; assumption|split; assumption|]. intros t. apply (thread_ok_same k); auto.
  - split; assumption.
Qed.

(** The running thread's slice counts down; when it is over the processor goes to
    the next thread of the same priority, if there is one. *)
Lemma slice_spec base k c :
  kernel_ok base k -> rt_current_thread k = Some c ->
  exists k' c', slice k c = Some k' /\ kernel_ok base k' /\ rt_tick k' = rt_tick k /\
    rt_scheduler_lock_nest k' = rt_scheduler_lock_nest k /\
    timers k' = timers k /\ rt_timer_list k' = rt_timer_list k /\ rt_current_thread k' = Some c' /\
    (forall l, is_wait l = true -> lists k' l = lists k l) /\
    (forall t, wait_info (threads k' t) = wait_info (threads k t) /\
       current_priority (threads k' t) = current_priority (threads k t)) /\
    (rt_scheduler_lock_nest k = 0 -> best_running k c -> best_running k' c') /\
    (rt_scheduler_lock_nest k = 0 -> thread_stat (threads k c) = RT_THREAD_RUNNING -> best_running k c ->
     remaining_tick (threads k c) = 1 ->
     forall t q, lists k (Ready (current_priority (threads k c))) = t :: q ->
       c' = t /\ lists k' (Ready (current_priority (threads k c))) = q ++ [c]).
Proof.
  intros Hok Hc. unfold slice.
  set (k1 := set_thread k c (fun th => th <| remaining_tick := u32 (remaining_tick th - 1) |>)).
  assert (Hok1 : kernel_ok base k1) by (apply set_thread_inert_ok; [intros th; auto|exact Hok]).
  assert (E1 : threads k1 c = threads k c <| remaining_tick := u32 (remaining_tick (threads k c) - 1) |>)
    by (unfold k1; rewrite set_thread_threads; reflexivity).
  assert (E1o : forall u, u <> c -> threads k1 u = threads k u)
    by (intros u Hu; unfold k1; rewrite set_thread_other by exact Hu; reflexivity).
  assert (Hfields : forall t, wait_info (threads k1 t) = wait_info (threads k t) /\
       current_priority (threads k1 t) = current_priority (threads k t) /\
       thread_stat (threads k1 t) = thread_stat (threads k t)).
  { intros t. destruct (decide (t = c)) as [->|Hne]; [rewrite E1|rewrite E1o by exact Hne]; auto. }
  destruct (Z.eqb_spec (remaining_tick (threads k1 c)) 0) as [Hz|Hz].
  2:{ exists k1, c. split; [reflexivity|]. split; [exact Hok1|]. do 5 (split; [first [reflexivity|exact Hc]|]).
      split; [reflexivity|]. split; [intros t; split; apply Hfields|]. split.
      - intros _ Hb t Ht. destruct (Hfields t) as (_ & Ep & Es), (Hfields c) as (_ & Epc & Esc).
        rewrite Es in Ht. rewrite Esc, Epc, Ep. apply Hb, Ht.
      - intros _ _ _ H1. exfalso. apply Hz. rewrite E1. cbn. rewrite H1. reflexivity. }
  set (k2 := set_thread k1 c slice_over).
  assert (Hok2 : kernel_ok base k2) by (apply set_thread_inert_ok; [apply slice_over_inert|exact Hok1]).
  assert (E2 : threads k2 c = slice_over (threads k1 c)) by apply set_thread_threads.
  assert (Hf2 : forall t, wait_info (threads k2 t) = wait_info (threads k t) /\
       current_priority (threads k2 t) = current_priority (threads k t) /\
       thread_stat (threads k2 t) = thread_stat (threads k t)).
  { intros t. destruct (Hfields t) as (A & B & C). destruct (decide (t = c)) as [->|Hne].
    - rewrite E2. destruct (slice_over_inert (threads k1 c)) as (S1 & S2 & _). rewrite S1, S2. auto.
    - unfold k2. rewrite set_thread_other by exact Hne. auto. }
  assert (Hyield : has_bits (stat (threads k2 c)) RT_THREAD_STAT_YIELD = true)
    by (rewrite E2; apply set_has_same; discriminate).
  assert (Hb2 : best_running k c -> best_running k2 c).
  { intros Hb t Ht. destruct (Hf2 t) as (_ & Ep & Es), (Hf2 c) as (_ & Epc & Esc).
    rewrite Es in Ht. rewrite Esc, Epc, Ep. apply Hb, Ht. }
  destruct (Z.eq_dec (rt_scheduler_lock_nest k) 0) as [Hlock|Hlock].
  2:{ unfold rt_schedule. change (rt_scheduler_lock_nest k2) with (rt_scheduler_lock_nest k).
      rewrite (proj2 (Z.eqb_neq _ _)) by exact Hlock. exists k2, c. split; [reflexivity|]. split; [exact Hok2|].
      do 5 (split; [first [reflexivity|exact Hc]|]). split; [reflexivity|]. split; [intros t; split; apply Hf2|].
      split; intros; contradiction. }
  destruct (schedule_spec k2 c (ko_sched _ _ Hok2) Hc Hlock) as (k3 & c' & -> & Hs3 & Hf & Hc' & Hb3 & Hcase).
  exists k3, c'. split; [reflexivity|].
  split; [split; [exact Hs3|apply (timers_ok_frame base k2 k3 Hf), Hok2]|].
  split; [rewrite (sf_tick _ _ Hf); reflexivity|]. split; [rewrite (sf_lock _ _ Hf); reflexivity|].
  split; [rewrite (sf_timers _ _ Hf); reflexivity|]. split; [rewrite (sf_timer_list _ _ Hf); reflexivity|].
  split; [exact Hc'|]. split; [|split; [|split; [auto|]]].
  - intros l Hl. pose proof (sf_lists _ _ Hf l) as Hs. destruct l; try discriminate Hl; exact Hs.
  - intros t. rewrite (frame_priority k2 k3 t Hf). rewrite (sf_threads _ _ Hf t).
    destruct (Hf2 t) as (A & B & _). split; assumption.
  - intros _ Hrun Hb H1 t q Eq. destruct (Hf2 c) as (_ & Epc & Esc).
    change (lists k2) with (lists k) in *.
    destruct Hcase as [[-> Hk]|[Hne Hsw]].
    + exfalso. pose proof (kp_yield _ _ _ Hk Hyield) as He. rewrite Epc in He.
      change (lists k2) with (lists k) in He. congruence.
    + destruct Hsw as [[q' Hh] Hr Hwhy]. change (lists k2) with (lists k) in *.
      rewrite Esc in *. specialize (Hwhy Hrun). destruct (Hf2 c') as (_ & Epc' & _). rewrite Epc, Epc' in *.
      assert (Hin : c' ∈ lists k (Ready (current_priority (threads k c')))) by (rewrite Hh; left).
      destruct (tk_list _ _ (so_threads _ (ko_sched _ _ Hok) c') _ Hin) as [Hst _].
      destruct (Hb c' Hst) as [_ Hle]. assert (Ep : current_priority (threads k c') = current_priority (threads k c)) by lia.
      rewrite Ep, Eq in Hh. injection Hh as -> ->. split; [reflexivity|].
      rewrite Hr, Hrun, Eq, !Z.eqb_refl. cbn [andb].
      f_equal. apply filter_head. rewrite <- Eq. apply (so_lists _ (ko_sched _ _ Hok)).
Qed.

(** The due timers are a prefix of the list. *)
Lemma split_due base tick_of l :
  timers_sorted base RT_TICK_HALF tick_of l -> Forall is_thread_timer l ->
  exists E R, l = map ThreadTimer E ++ R /\
    Forall (fun t => offset base (tick_of (ThreadTimer t)) <= 1) E /\
    Forall (fun x => 1 < offset base (tick_of x)) R.
Proof.
  intros [Hs _] Hth. induction Hs as [|a l Hs IH Ha].
  - exists [], []. repeat split; constructor.
  - apply Forall_cons in Hth as [[t ->] Hth]. destruct (IH Hth) as (E & R & -> & HE & HR).
    destruct (Z.le_gt_cases (offset base (tick_of (ThreadTimer t))) 1) as [Hle|Hgt].
    + exists (t :: E), R. repeat split; auto.
    + exists [], (ThreadTimer t :: map ThreadTimer E ++ R). repeat split; [constructor|].
      constructor; [exact Hgt|]. eapply Forall_impl; [exact Ha|]. intros y Hy. unfold timer_order in Hy. cbv beta. lia.
Qed.

Lemma tick_increase_spec fuel k c E R (now := u32 (rt_tick k + 1)) :
  kernel_ok (rt_tick k) k -> rt_current_thread k = Some c ->
  rt_timer_list k = map ThreadTimer E ++ R ->
  Forall (fun t => offset (rt_tick k) (timeout_tick (timers k (ThreadTimer t))) <= 1) E ->
  Forall (fun x => 1 < offset (rt_tick k) (timeout_tick (timers k x))) R ->
  (length E < fuel)%nat ->
  exists k' c', rt_tick_increase fuel k = Some k' /\ rt_tick k' = now /\ kernel_ok now k' /\
    rt_timer_list k' = R /\ rt_current_thread k' = Some c' /\
    (forall x, timeout_tick (timers k' x) = timeout_tick (timers k x)) /\
    (forall t, t ∈ E -> timed_out k k' t) /\
    (forall t, t ∉ E -> wait_info (threads k' t) = wait_info (threads k t) /\
       (ThreadTimer t ∈ rt_timer_list k -> thread_stat (threads k' t) = RT_THREAD_SUSPEND)) /\
    (forall l, is_wait l = true -> lists k' l = filter (fun u => u ∉ E) (lists k l)) /\
    (rt_scheduler_lock_nest k = 0 -> best_running k c -> best_running k' c').
Proof.
  intros Hok Hc Hlist Hdue Hnot Hfuel. rewrite (tick_increase_eq fuel k c Hc).
  set (k0 := k <| rt_tick := u32 (rt_tick k + 1) |>).
  assert (Hok0 : kernel_ok (rt_tick k) k0) by (apply tick_ok; [exact Hok|apply u32_range]).
  destruct (slice_spec (rt_tick k) k0 c Hok0 Hc) as
    (k1 & c1 & -> & Hok1 & Ht1 & Hlk1 & Etm1 & El1 & Hc1 & Hll1 & Hf1 & Hb1 & _).
  cbn [mbind option_bind]. unfold rt_timer_check, rt_tick_get.
  destruct (check_loop_spec (rt_tick k) now E eq_refl k1 R c1 fuel) as (k2 & c2 & E2 & Hok2 & Haf & Hl2 & Hc2 & Hb2); auto.
  { rewrite El1. exact Hlist. } { rewrite Etm1. exact Hdue. } { rewrite Etm1. exact Hnot. }
  rewrite Ht1. change (rt_tick k0) with now. rewrite E2. exists k2, c2. split; [reflexivity|].
  assert (Htick2 : rt_tick k2 = now) by (rewrite (at_tick _ _ _ Haf), Ht1; reflexivity).
  assert (Hdl : forall x, timeout_tick (timers k2 x) = timeout_tick (timers k x))
    by (intros x; rewrite (at_deadlines _ _ _ Haf), Etm1; reflexivity).
  split; [exact Htick2|]. split; [|split; [exact Hl2|split; [exact Hc2|split; [exact Hdl|split; [|split; [|split]]]]]].
  - destruct Hok2 as [Hs [Hk Hn Hth Hl Hso Ho]]. split; [exact Hs|]. split; auto.
    apply (rebase (rt_tick k)); [reflexivity|exact Ho|]. rewrite Hl2.
    eapply Forall_impl; [exact Hnot|]. intros x Hx. cbv beta in *. rewrite Hdl. exact Hx.
  - intros t Hin. destruct (at_in _ _ _ Haf t Hin) as (A & B & C). split; [exact A|]. split; [exact B|].
    rewrite C. apply (Hf1 t).
  - intros t Hin. destruct (at_out _ _ _ Haf t Hin) as [A B]. split.
    + rewrite A. apply (Hf1 t).
    + intros Hx. assert (Hx2 : ThreadTimer t ∈ rt_timer_list k2).
      { rewrite Hl2. rewrite Hlist in Hx. apply elem_of_app in Hx as [Hx|Hx]; [|exact Hx].
        exfalso. apply Hin. apply list_elem_of_In, in_map_iff in Hx as (u & [= ->] & Hu). apply list_elem_of_In, Hu. }
      apply (to_linked _ k2 (ko_timers _ _ Hok2) t Hx2).
  - intros l Hl. rewrite (at_lists _ _ _ Haf l Hl), Hll1 by exact Hl. reflexivity.
  - intros Hlock Hb. apply Hb2; [rewrite Hlk1; exact Hlock|]. right. apply Hb1; [exact Hlock|].
    intros t Ht. exact (Hb t Ht).
Qed.

Fixpoint ticks (fuel n : nat) (k : Kernel) : option Kernel :=
  match n with
  | O => Some k
  | S n => k ← rt_tick_increase fuel k; ticks fuel n k
  end.

Lemma sleeper_wakes fuel t n : forall k c,
  kernel_ok (rt_tick k) k -> rt_current_thread k = Some c ->
  Forall is_thread_timer (rt_timer_list k) -> (length (rt_timer_list k) < fuel)%nat ->
  (ThreadTimer t ∈ rt_timer_list k) ->
  Z.max 1 (offset (rt_tick k) (timeout_tick (timers k (ThreadTimer t)))) = Z.of_nat n ->
  (forall m, (m < n)%nat -> exists km, ticks fuel m k = Some km /\ thread_stat (threads km t) = RT_THREAD_SUSPEND /\
     error (threads km t) = error (threads k t)) /\
  exists kn, ticks fuel n k = Some kn /\ error (threads kn t) = - RT_ETIMEOUT /\
    (thread_stat (threads kn t) = RT_THREAD_READY \/ thread_stat (threads kn t) = RT_THREAD_RUNNING) /\
    kernel_ok (rt_tick kn) kn.
Proof.
  induction n as [|n IH]; intros k c Hok Hc Hth Hfuel Hin Hn; [lia|].
  destruct (split_due (rt_tick k) _ _ (to_sorted _ k (ko_timers _ _ Hok)) Hth) as (E & R & Hl & HE & HR).
  pose proof Hfuel as Hf. rewrite Hl, length_app, length_map in Hf.
  destruct (tick_increase_spec fuel k c E R Hok Hc Hl HE HR ltac:(lia)) as
    (k1 & c1 & E1 & Ht1 & Hok1 & Hl1 & Hc1 & Hd1 & Hto & Hnto & _).
  pose proof (to_linked _ k (ko_timers _ _ Hok) t Hin) as [_ Hst].
  rewrite <- Ht1 in Hok1. set (x := ThreadTimer t) in *. cbn [ticks]. rewrite E1. cbn [mbind option_bind].
  rewrite Hl in Hin. apply elem_of_app in Hin as [Hin|Hin].
  - apply list_elem_of_In, in_map_iff in Hin as (u & [= ->] & Hu). apply list_elem_of_In in Hu.
    rewrite Forall_forall in HE. specialize (HE t Hu). cbv beta in HE. fold x in HE.
    assert (n = 0)%nat as -> by lia. destruct (Hto t Hu) as (A & B & _). split.
    + intros m Hm. assert (m = 0)%nat as -> by lia. exists k. auto.
    + exists k1. auto.
  - rewrite Forall_forall in HR. pose proof (HR x Hin) as Hx. cbv beta in Hx.
    assert (HtE : t ∉ E).
    { intros Hu. rewrite Forall_forall in HE. specialize (HE t Hu). cbv beta in HE. fold x in HE. lia. }
    destruct (Hnto t HtE) as [He Hs]. apply wait_info_fields in He as [He _].
    assert (Hoff : offset (rt_tick k1) (timeout_tick (timers k1 x)) = offset (rt_tick k) (timeout_tick (timers k x)) - 1).
    { rewrite Ht1, Hd1. pose proof (offset_range (rt_tick k) (timeout_tick (timers k x))). unfold offset in *.
      rewrite u32_sub_mod_r.
      replace (timeout_tick (timers k x) - (rt_tick k + 1)) with (timeout_tick (timers k x) - rt_tick k - 1) by lia.
      rewrite <- u32_sub_mod_l. apply u32_small. lia. }
    destruct (IH k1 c1 Hok1 Hc1) as [Hbefore Hafter].
    + rewrite Hl1. rewrite Hl in Hth. apply Forall_app in Hth. tauto.
    + rewrite Hl1. lia.
    + rewrite Hl1. exact Hin.
    + fold x. rewrite Hoff. lia.
    + split; [|exact Hafter]. intros [|m] Hm; [exists k; auto|]. destruct (Hbefore m ltac:(lia)) as (km & A & B & C).
      exists km. cbn [ticks]. rewrite E1. cbn [mbind option_bind]. split; [exact A|]. split; [exact B|]. congruence.
Qed.
End Callbacks.

(** ** The kernel at work: any sequence of thread operations and ticks *)

Inductive kernel_op :=
  | OpSchedule | OpYield | OpSleep (tick : Z) | OpSuspend (t : nat) | OpResume (t : nat)
  | OpPriority (t : nat) (p : Z) | OpStartup (t : nat) | OpExit | OpDelete (t : nat) | OpDetach (t : nat)
  | OpEnter | OpLeave | OpTick.

Section Run.
Variable user_timeout : nat -> Kernel -> option Kernel.

Definition run_op (k : Kernel) (op : kernel_op) : option Kernel :=
  match op with
  | OpSchedule => rt_schedule k
  | OpYield => fst <$> rt_thread_yield k
  | OpSleep tick => rt_thread_sleep_begin k tick
  | OpSuspend t => fst <$> rt_thread_suspend k t
  | OpResume t => fst <$> rt_thread_resume k t
  | OpPriority t p => fst <$> rt_thread_control k t RT_THREAD_CTRL_CHANGE_PRIORITY p
  | OpStartup t => fst <$> rt_thread_control k t RT_THREAD_CTRL_STARTUP 0
  | OpExit => rt_thread_exit k
  | OpDelete t => fst <$> rt_thread_control k t RT_THREAD_CTRL_CLOSE 0
  | OpDetach t => fst <$> rt_thread_detach k t
  | OpEnter => Some (rt_enter_critical k)
  | OpLeave => rt_exit_critical k
  | OpTick => rt_tick_increase user_timeout (S (length (rt_timer_list k))) k
  end.

Definition running (k : Kernel) (t : nat) : Prop := thread_stat (threads k t) = RT_THREAD_RUNNING.

(** What the callers have to see to (the documented conditions of the calls). *)
Definition allowed (k : Kernel) (op : kernel_op) : Prop :=
  match op with
  | OpSleep tick => 0 <= tick < RT_TICK_HALF /\ exists c, running k c
  | OpPriority t p => 0 <= p < 32
  | OpStartup t => thread_stat (threads k t) = RT_THREAD_INIT /\ 0 <= init_priority (threads k t) < 32
  | OpExit => exists c, running k c
  | OpDelete t => systemobject (threads k t) = false /\
      (live (thread_stat (threads k t)) = true \/ thread_stat (threads k t) = RT_THREAD_INIT)
  | OpDetach t => systemobject (threads k t) = true /\
      (live (thread_stat (threads k t)) = true \/ thread_stat (threads k t) = RT_THREAD_INIT)
  | _ => True
  end.

(** The invariant while only thread timers are started; once the scheduler has [begun], a thread runs. *)
Record kernel_state (begun : Prop) (k : Kernel) : Prop := {
  ki_ok : kernel_ok (rt_tick k) k;
  ki_current : begun -> exists c, rt_current_thread k = Some c;
  ki_timers : Forall is_thread_timer (rt_timer_list k);
}.
Abbreviation kernel_inv := (kernel_state True).

Lemma state_after b k k' :
  kernel_state b k -> kernel_ok (rt_tick k) k' -> rt_tick k' = rt_tick k -> (b -> exists c, rt_current_thread k' = Some c) ->
  timers_grow k k' -> kernel_state b k'.
Proof. intros [_ _ Ht] Hok Et Hc Hg. split; [rewrite Et; exact Hok|exact Hc|exact (grow_all k k' Hg Ht)]. Qed.

Lemma inv_after b k k' c' :
  kernel_state b k -> kernel_ok (rt_tick k) k' -> rt_tick k' = rt_tick k -> rt_current_thread k' = Some c' ->
  timers_grow k k' -> kernel_state b k'.
Proof. intros Hi Hok Et Hc Hg. apply (state_after b k); eauto. Qed.

Lemma grow_same k k' : rt_timer_list k' = rt_timer_list k -> timers_grow k k'.
Proof. intros E x Hx. right. rewrite <- E. exact Hx. Qed.

Lemma lock_inv b k n : kernel_state b k -> kernel_state b (k <| rt_scheduler_lock_nest := n |>).
Proof.
  intros [[[[Hn Ho] [Hr Hb] Hth] Ht] Hc Htm]. split; [split|exact Hc|exact Htm].
  - split; [split; assumption|split; assumption|]. intros t. apply (thread_ok_same k); auto.
  - apply (timers_ok_threads _ k); auto.
Qed.

Lemma schedule_inv k : kernel_inv k -> exists k', rt_schedule k = Some k' /\ kernel_inv k'.
Proof.
  intros Hi. pose proof Hi as [Hok Hcur _]. destruct (Hcur I) as [c Hc].
  destruct (schedule_kernel_ok _ k c Hok Hc) as (k' & c' & E & Hok' & Hf & Hc' & _).
  exists k'. split; [exact E|]. apply (inv_after _ k k' c'); auto; [apply (sf_tick _ _ Hf)|].
  apply grow_same, (sf_timer_list _ _ Hf).
Qed.

Lemma running_current b k c : kernel_state b k -> running k c -> rt_current_thread k = Some c.
Proof. intros [[[_ _ Ho] _] _ _] Hr. apply (tk_running _ _ (Ho c)), Hr. Qed.

Lemma suspend_inv b k t : kernel_state b k -> exists k' e, rt_thread_suspend k t = Some (k', e) /\ kernel_state b k'.
Proof.
  intros Hi. pose proof Hi as [Hok Hcur _].
  destruct (decide (thread_stat (threads k t) = RT_THREAD_READY \/ thread_stat (threads k t) = RT_THREAD_RUNNING)) as [Hs|Hs].
  - destruct (suspend_spec _ k t Hok Hs) as (k' & E & Hok' & Hot & _). exists k', RT_EOK. split; [exact E|].
    apply (state_after b k k'); auto; [apply Hot|rewrite (ot_current _ _ _ Hot); exact Hcur|apply (only_thread_grow _ _ _ Hot)].
  - exists k, (- RT_ERROR). split; [|exact Hi]. unfold rt_thread_suspend.
    rewrite (proj2 (Z.eqb_neq _ RT_THREAD_READY)), (proj2 (Z.eqb_neq _ RT_THREAD_RUNNING)) by tauto. reflexivity.
Qed.

Lemma resume_inv b k t : kernel_state b k -> exists k' e, rt_thread_resume k t = Some (k', e) /\ kernel_state b k'.
Proof.
  intros Hi. pose proof Hi as [Hok Hcur _].
  destruct (decide (thread_stat (threads k t) = RT_THREAD_SUSPEND)) as [Hs|Hs].
  - destruct (resume_spec _ k t Hok Hs) as (k' & E & Hok' & Hot & _). exists k', RT_EOK. split; [exact E|].
    apply (state_after b k k'); auto; [apply Hot|rewrite (ot_current _ _ _ Hot); exact Hcur|apply (only_thread_grow _ _ _ Hot)].
  - exists k, (- RT_ERROR). split; [apply resume_not_suspended, Hs|exact Hi].
Qed.

Lemma tick_inv k : kernel_inv k -> exists k', run_op k OpTick = Some k' /\ kernel_inv k'.
Proof.
  intros [Hok Hcur Hth]. destruct (Hcur I) as [c Hc]. cbn [run_op].
  destruct (split_due (rt_tick k) _ _ (to_sorted _ k (ko_timers _ _ Hok)) Hth) as (E & R & Hl & HE & HR).
  assert (Hf : (length E < S (length (rt_timer_list k)))%nat) by (rewrite Hl, length_app, length_map; lia).
  destruct (tick_increase_spec user_timeout _ k c E R Hok Hc Hl HE HR Hf) as
    (k1 & c1 & E1 & Ht1 & Hok1 & Hl1 & Hc1 & _). exists k1. split; [exact E1|].
  split; [rewrite Ht1; exact Hok1|eauto|]. rewrite Hl1. rewrite Hl in Hth. apply Forall_app in Hth. tauto.
Qed.

Lemma run_op_inv k op : kernel_inv k -> allowed k op -> exists k', run_op k op = Some k' /\ kernel_inv k'.
Proof.
  intros Hi Ha. pose proof Hi as [Hok Hcur Hth]. destruct (Hcur I) as [c Hc]. destruct op; cbn [run_op allowed] in *.
  - apply schedule_inv, Hi.
  - unfold rt_thread_yield. destruct (schedule_inv k Hi) as (k' & -> & H). exists k'. auto.
  - destruct Ha as (Htick & c' & Hr). pose proof (running_current _ k c' Hi Hr) as Hc'.
    destruct (sleep_spec k c' tick Hok Hc' Hr Htick) as (k' & E & [W1 W2 _ _ (c2 & W5 & _) _] & _ & _ & _ & Hx).
    exists k'. split; [exact E|]. split; [exact W1|eauto|]. apply (grow_all k); [|exact Hth].
    intros x Hin. destruct (decide (x = ThreadTimer c')) as [->|Hne]; [left; exists c'; reflexivity|right; apply (Hx x Hne), Hin].
  - destruct (suspend_inv _ k t Hi) as (k' & e & -> & H). exists k'. auto.
  - destruct (resume_inv _ k t Hi) as (k' & e & -> & H). exists k'. auto.
  - destruct (change_priority_spec _ k t p Hok Ha) as (k' & -> & Hok' & Et & Ec & _ & _ & _ & El & _).
    exists k'. split; [reflexivity|]. apply (inv_after _ k k' c); auto; [congruence|apply grow_same, El].
  - destruct Ha as [Hin Hp]. destruct (startup_spec _ k t Hok Hin Hp (ex_intro _ c Hc)) as (k' & c' & E & Hok' & Et & Hc' & _ & _ & Hg & _).
    unfold rt_thread_control. change (RT_THREAD_CTRL_STARTUP =? RT_THREAD_CTRL_CHANGE_PRIORITY) with false.
    change (RT_THREAD_CTRL_STARTUP =? RT_THREAD_CTRL_STARTUP) with true. cbv iota. rewrite E.
    exists k'. split; [reflexivity|]. apply (inv_after _ k k' c'); auto.
  - destruct Ha as [c' Hr]. pose proof (running_current _ k c' Hi Hr) as Hc'.
    destruct (exit_spec _ k c' Hok Hc') as (k' & c2 & E & Hok' & Et & Hc2 & Hg); [unfold running in Hr; rewrite Hr; reflexivity|].
    exists k'. split; [exact E|]. apply (inv_after _ k k' c2); auto.
  - destruct Ha as [Hs Hlive]. destruct (delete_spec _ k t Hok Hs Hlive) as (k' & E & Hok' & Et & Ec & Hg & _).
    unfold rt_thread_control. change (RT_THREAD_CTRL_CLOSE =? RT_THREAD_CTRL_CHANGE_PRIORITY) with false.
    change (RT_THREAD_CTRL_CLOSE =? RT_THREAD_CTRL_STARTUP) with false.
    change (RT_THREAD_CTRL_CLOSE =? RT_THREAD_CTRL_CLOSE) with true. cbv iota. rewrite E.
    exists k'. split; [reflexivity|]. apply (inv_after _ k k' c); auto; congruence.
  - destruct Ha as [Hs Hlive]. destruct (detach_spec _ k t Hok Hs Hlive) as (k' & E & Hok' & Hg & Et & Ec).
    exists k'. rewrite E. split; [reflexivity|]. apply (inv_after _ k k' c); auto; congruence.
  - eexists. split; [reflexivity|]. apply lock_inv, Hi.
  - unfold rt_exit_critical. cbv zeta.
    destruct (_ <=? 0); [|eexists; split; [reflexivity|]; apply lock_inv, Hi].
    match goal with |- context [match rt_current_thread ?k0 with _ => _ end] =>
      assert (Hi2 : kernel_inv k0) by (do 2 apply lock_inv; exact Hi); change (rt_current_thread k0) with (rt_current_thread k) end.
    rewrite Hc. apply schedule_inv, Hi2.
  - apply tick_inv. exact Hi.
Qed.

Inductive kernel_reach (k0 : Kernel) : Kernel -> Prop :=
| kr_here : kernel_reach k0 k0
| kr_step k op k' : kernel_reach k0 k -> allowed k op -> run_op k op = Some k' -> kernel_reach k0 k'.

Lemma reach_inv k0 k : kernel_inv k0 -> kernel_reach k0 k -> kernel_inv k.
Proof.
  intros H0 Hr. induction Hr as [|k op k' _ IH Ha E]; [exact H0|].
  destruct (run_op_inv k op IH Ha) as (k2 & E2 & H). congruence.
Qed.

(** ** Properties *)

(** C2: whatever thread operations, interrupt ticks and scheduler locks follow one
    another, as long as the callers respect the calls' documented conditions no
    assertion of the kernel fails, no table is left, every call returns, and in
    every state reached the ready bitmap, the ready and wait lists, the thread
    states and the timer list agree. *)
Theorem kernel_runs_safely k0 k op :
  kernel_inv k0 -> kernel_reach k0 k -> allowed k op ->
  kernel_inv k /\ exists k', run_op k op = Some k' /\ kernel_inv k'.
Proof.
  intros H0 Hr Ha. pose proof (reach_inv k0 k H0 Hr) as Hi. split; [exact Hi|]. apply run_op_inv; assumption.
Qed.

(** When the running thread's time slice is over and no timer is due, the tick
    gives the processor to the next thread of the same priority and puts the
    preempted one last. *)
Theorem tick_round_robin k c t q fuel :
  kernel_ok (rt_tick k) k -> rt_current_thread k = Some c -> thread_stat (threads k c) = RT_THREAD_RUNNING ->
  rt_scheduler_lock_nest k = 0 -> best_running k c -> remaining_tick (threads k c) = 1 ->
  lists k (Ready (current_priority (threads k c))) = t :: q ->
  Forall (fun x => 1 < offset (rt_tick k) (timeout_tick (timers k x))) (rt_timer_list k) ->
  exists k', rt_tick_increase user_timeout (S fuel) k = Some k' /\ rt_tick k' = u32 (rt_tick k + 1) /\
    rt_current_thread k' = Some t /\ lists k' (Ready (current_priority (threads k c))) = q ++ [c].
Proof.
  intros Hok Hc Hrun Hlock Hbest Hrem Hq Hnot. rewrite (tick_increase_eq user_timeout _ k c Hc).
  set (k0 := k <| rt_tick := u32 (rt_tick k + 1) |>).
  assert (Hok0 : kernel_ok (rt_tick k) k0) by (apply tick_ok; [exact Hok|apply u32_range]).
  destruct (slice_spec (rt_tick k) k0 c Hok0 Hc) as
    (k1 & c1 & -> & Hok1 & Ht1 & Hlk1 & Etm1 & El1 & Hc1 & _ & _ & _ & Hrr).
  cbn [mbind option_bind]. destruct (Hrr Hlock Hrun Hbest Hrem t q Hq) as [-> Hq'].
  unfold rt_timer_check, rt_tick_get. exists k1. split; [|split; [exact Ht1|split; [exact Hc1|exact Hq']]].
  cbn [timer_check_loop]. rewrite El1. change (rt_timer_list k0) with (rt_timer_list k).
  destruct (rt_timer_list k) as [|x R] eqn:E; [reflexivity|]. apply Forall_cons in Hnot as [Hx _].
  pose proof (to_sorted _ k (ko_timers _ _ Hok)) as [_ Hb]. rewrite E in Hb. apply Forall_cons in Hb as [Hb _].
  rewrite Etm1, (due_iff (rt_tick k)); [|exact Ht1|exact Hb]. rewrite (proj2 (Z.leb_gt _ _)) by exact Hx. reflexivity.
Qed.

(** C20: a thread that sleeps for [tick] ticks is suspended during the following
    ticks and made ready by exactly the [tick]-th one (by the first, for a sleep of
    zero ticks); its call then returns [RT_EOK] with the error cleared. *)
Theorem sleep_wakes_on_time k c tick fuel :
  kernel_ok (rt_tick k) k -> rt_current_thread k = Some c -> thread_stat (threads k c) = RT_THREAD_RUNNING ->
  0 <= tick < RT_TICK_HALF -> Forall is_thread_timer (rt_timer_list k) ->
  exists k0, rt_thread_sleep_begin k tick = Some k0 /\
    ((length (rt_timer_list k0) < fuel)%nat ->
     (forall m, Z.of_nat m < Z.max 1 tick -> exists km, ticks user_timeout fuel m k0 = Some km /\
        thread_stat (threads km c) = RT_THREAD_SUSPEND) /\
     exists kn, ticks user_timeout fuel (Z.to_nat (Z.max 1 tick)) k0 = Some kn /\
       (thread_stat (threads kn c) = RT_THREAD_READY \/ thread_stat (threads kn c) = RT_THREAD_RUNNING) /\
       snd (rt_thread_sleep_end kn c) = RT_EOK /\ error (threads (fst (rt_thread_sleep_end kn c)) c) = RT_EOK).
Proof.
  intros Hok Hc Hrun Htick Hth.
  destruct (sleep_spec k c tick Hok Hc Hrun Htick) as (k0 & E & [W1 W2 W3 [W4 Wd] (c2 & W5 & _) _] & _ & _ & _ & Hx).
  exists k0. split; [exact E|]. intros Hfuel.
  assert (Hth0 : Forall is_thread_timer (rt_timer_list k0)).
  { apply (grow_all k); [|exact Hth]. intros x Hin.
    destruct (decide (x = ThreadTimer c)) as [->|Hne]; [left; exists c; reflexivity|right; apply (Hx x Hne), Hin]. }
  assert (Hoff : Z.max 1 (offset (rt_tick k0) (timeout_tick (timers k0 (ThreadTimer c)))) = Z.of_nat (Z.to_nat (Z.max 1 tick))).
  { rewrite Wd, W2. unfold offset. rewrite u32_sub_mod_l. replace (rt_tick k + tick - rt_tick k) with tick by lia.
    rewrite u32_small; [lia|]. change RT_TICK_HALF with 2147483647 in Htick. lia. }
  destruct (sleeper_wakes user_timeout fuel c _ k0 c2 W1 W5 Hth0 Hfuel W4 Hoff) as [Hbefore (kn & En & He & Hs & _)].
  split.
  - intros m Hm. destruct (Hbefore m ltac:(lia)) as (km & A & B & _). exists km. auto.
  - exists kn. split; [exact En|]. split; [exact Hs|]. split; [reflexivity|].
    unfold rt_thread_sleep_end, clear_timeout_error. cbn [fst]. rewrite He, Z.eqb_refl, set_thread_threads. reflexivity.
Qed.
End Run.

Abbreviation kernel_inv := (kernel_state True).

Lemma demo_inv : kernel_inv demo.
Proof. split; [exact demo_ok|intros _; exists 0%nat; reflexivity|]. repeat constructor. exists 4%nat. reflexivity. Qed.

(** No application timers. *)
Definition no_callback (n : nat) (k : Kernel) : option Kernel := Some k.

Lemma kernel_runs_safely_witness :
  exists k', run_op no_callback demo (OpDelete 3) = Some k' /\ kernel_inv k' /\ lists k' (SemWait 5) = [].
Proof.
  destruct (kernel_runs_safely no_callback demo demo (OpDelete 3)) as [_ (k' & E & H)].
  - exact demo_inv.
  - apply kr_here.
  - split; [reflexivity|left; reflexivity].
  - exists k'. split; [exact E|]. split; [exact H|].
    apply (f_equal (fun o => match o with Some k => lists k (SemWait 5) | None => [9%nat] end)) in E.
    rewrite <- E. vm_compute. reflexivity.
Defined.

Lemma tick_round_robin_witness :
  exists k', rt_tick_increase no_callback 5 demo = Some k' /\ rt_current_thread k' = Some 2%nat /\
    lists k' (Ready 10) = [0%nat].
Proof.
  destruct (tick_round_robin no_callback demo 0 2 [] 4) as (k' & E & _ & Hc & Hl); try reflexivity.
  - exact demo_ok.
  - apply demo_best.
  - repeat constructor.
  - exists k'. auto.
Defined.

Lemma sleep_wakes_on_time_witness :
  exists k0 kn, rt_thread_sleep_begin demo 3 = Some k0 /\ ticks no_callback 5 3 k0 = Some kn /\
    (thread_stat (threads kn 0) = RT_THREAD_READY \/ thread_stat (threads kn 0) = RT_THREAD_RUNNING).
Proof.
  destruct (sleep_wakes_on_time no_callback demo 0 3 5) as (k0 & E0 & H); try reflexivity.
  - exact demo_ok.
  - split; [discriminate|reflexivity].
  - apply demo_inv.
  - destruct H as [_ (kn & En & Hs & _)].
    + apply (f_equal (fun o => match o with Some k => length (rt_timer_list k) | None => 9%nat end)) in E0.
      rewrite <- E0. vm_compute. lia.
    + exists k0, kn. split; [exact E0|]. split; [exact En|exact Hs].
Defined.
