(* ===== verification/SoftTimer.v ===== *)
(** * Soft timers and their thread (timer.c)

    Timers with the soft flag are kept in a list of their own and served by the timer
    thread: [rt_soft_timer_check] walks the list with the scheduler locked and
    unlocks it around each timeout function, while the walk keeps a pointer to the
    next timer.  A node that is in no list points to itself. *)

From S2P Require Import Prelude Kernel Scheduler Timer Thread Tick.
From Stdlib Require Import Sorted.

(** ** Definitions *)

(** [n->next] of the node of a timer; none is the head of the soft list. *)
Fixpoint after (x : timer_id) (l : list timer_id) : option (option timer_id) :=
  match l with
  | [] => None
  | y :: l => if decide (y = x) then Some (head l) else after x l
  end.
Definition next_node (k : Kernel) (x : timer_id) : option timer_id :=
  match after x (rt_soft_timer_list k) with
  | Some n => n
  | None => Some x
  end.

Section SoftTimer.
(** What a timeout function does, with everything that runs until it is done: the
    scheduler is not locked meanwhile. *)
Variable user_timeout : nat -> Kernel -> option Kernel.

Definition due (now : Z) (k : Kernel) (x : timer_id) : bool :=
  u32 (now - timeout_tick (timers k x)) <? RT_TICK_HALF.

(** One timer that is due: unlinked, its function called without the lock, restarted
    when it is periodic and nobody has stopped it. *)
Definition soft_fire (k : Kernel) (t : timer_id) : option Kernel :=
  let k := _rt_timer_remove k t in
  k ← rt_exit_critical k;
  k ← timer_fire user_timeout k t;
  let k := rt_enter_critical k in
  let again := has_bits (flag (timers k t)) RT_TIMER_FLAG_PERIODIC &&
               has_bits (flag (timers k t)) RT_TIMER_FLAG_ACTIVATED in
  let k := set_timer k t (fun t => t <| flag := clear_bits (flag t) RT_TIMER_FLAG_ACTIVATED |>) in
  if again then '(k, _) ← rt_timer_start k t; Some k else Some k.

(** The state of the walk: the tick read last, the node, the kernel. *)
Abbreviation walk := (Z * option timer_id * Kernel)%type.

(** One round of the loop: the walk ends, or goes on. *)
Definition soft_round (w : walk) : option (Kernel + walk) :=
  let '(current_tick, n, k) := w in
  match n with
  | None => Some (inl k)
  | Some t =>
      if due current_tick k t then
        let n := next_node k t in
        k ← soft_fire k t;
        Some (inr (rt_tick_get k, n, k))
      else Some (inl k)
  end.

Fixpoint soft_timer_loop (fuel : nat) (w : walk) : option Kernel :=
  match fuel with
  | O => None
  | S fuel =>
      r ← soft_round w;
      match r with
      | inl k => Some k
      | inr w => soft_timer_loop fuel w
      end
  end.

Definition rt_soft_timer_check (fuel : nat) (k : Kernel) : option Kernel :=
  let current_tick := rt_tick_get k in
  let k := rt_enter_critical k in
  k ← soft_timer_loop fuel (current_tick, head (rt_soft_timer_list k), k);
  rt_exit_critical k.

(** What the timer thread does before it checks: [true] when it waits. *)
Definition timer_thread_wait (k : Kernel) : option (Kernel * bool) :=
  let next_timeout := rt_timer_list_next_timeout k (rt_soft_timer_list k) in
  if next_timeout =? RT_TICK_MAX then
    t ← rt_thread_self k;
    '(k, _) ← rt_thread_suspend k t;
    k ← rt_schedule k;
    Some (k, true)
  else
    let current_tick := rt_tick_get k in
    if u32 (next_timeout - current_tick) <? RT_TICK_HALF then
      k ← rt_thread_delay_begin k (u32 (next_timeout - current_tick));
      Some (k, true)
    else Some (k, false).
End SoftTimer.

(** ** The invariant of the soft list *)

(** [base] is a tick from which the deadlines are ordered; soft timers may be late. *)
Record soft_ok (base : Z) (k : Kernel) : Prop := {
  sk_kernel : kernel_ok (rt_tick k) k;
  sk_current : exists c, rt_current_thread k = Some c;
  sk_nodup : NoDup (rt_soft_timer_list k);
  sk_user : forall x, x ∈ rt_soft_timer_list k -> (exists n, x = UserTimer n) /\ (exists n, timeout_func (timers k x) = user_timeout_fn n) /\ (x ∉ rt_timer_list k) /\
    has_bits (flag (timers k x)) RT_TIMER_FLAG_SOFT_TIMER = true /\
    has_bits (flag (timers k x)) RT_TIMER_FLAG_ACTIVATED = true /\
    0 < tm_init_tick (timers k x) /\ offset base (rt_tick k) + tm_init_tick (timers k x) < RT_TICK_HALF;
  sk_sorted : timers_sorted base RT_TICK_HALF (fun x => timeout_tick (timers k x)) (rt_soft_timer_list k);
  sk_now : offset base (rt_tick k) < RT_TICK_HALF;
  sk_awake : thread_stat (threads k (timer_thread k)) <> RT_THREAD_SUSPEND
}.

Lemma lock_ok base k z : kernel_ok base k -> kernel_ok base (k <| rt_scheduler_lock_nest := z |>).
Proof.
  intros [[[Hn Ho] [Hr Hb] Hth] Ht]. split; [|destruct Ht; split; assumption].
  split; [split; assumption | split; assumption|]. intros t. apply (thread_ok_same k); auto.
Qed.

(** Only the timer [x], no thread's timer, is changed, and possibly unlinked. *)
Lemma user_timer_ok base k k' n :
  kernel_ok base k -> sched_same k k' -> (forall y, y <> UserTimer n -> timers k' y = timers k y) ->
  rt_timer_list k' = filter (fun y => y <> UserTimer n) (rt_timer_list k) ->
  (forall t, ThreadTimer t ∉ rt_soft_timer_list k') -> kernel_ok base k'.
Proof.
  intros [Hs [T1 T2 T3 T4 T5 T6]] Hsame Hti Hl Hsoft. split; [exact (sched_ok_same _ _ Hsame Hs)|].
  destruct Hsame as [E1 E2 _ _ _ _ _].
  assert (Hin : forall y, y ∈ rt_timer_list k' -> y ∈ rt_timer_list k /\ timers k' y = timers k y).
  { intros y Hy. rewrite Hl in Hy. apply list_elem_of_filter in Hy as [Hne Hy]. auto. }
  split; auto.
  - rewrite E1. exact T1.
  - rewrite Hl. apply NoDup_filter, T2.
  - intros t. rewrite Hti by discriminate. apply T3.
  - intros t Ht. destruct (Hin _ Ht) as [Ht' ->]. rewrite E2. apply T4, Ht'.
  - eapply timers_sorted_ext; [intros y Hy; destruct (Hin y Hy) as [_ ->]; reflexivity|]. rewrite Hl. apply timers_sorted_filter, T6.
Qed.

(** What a well-behaved timeout function leaves alone: the soft timers and the lock;
    the timer thread, which runs it, is awake when it returns. *)
Record quiet_call (k k' : Kernel) : Prop := {
  qc_kernel : kernel_ok (rt_tick k') k';
  qc_current : exists c, rt_current_thread k' = Some c;
  qc_tick : rt_tick k' = rt_tick k;
  qc_timers : forall n, timers k' (UserTimer n) = timers k (UserTimer n);
  qc_soft : rt_soft_timer_list k' = rt_soft_timer_list k;
  qc_hard : forall n, UserTimer n ∈ rt_timer_list k' -> UserTimer n ∈ rt_timer_list k;
  qc_lock : rt_scheduler_lock_nest k' = 0;
  qc_awake : timer_thread k' = timer_thread k /\ thread_stat (threads k' (timer_thread k')) <> RT_THREAD_SUSPEND
}.

(** Where a timeout function is called. *)
Definition calm (k : Kernel) : Prop :=
  kernel_ok (rt_tick k) k /\ (exists c, rt_current_thread k = Some c) /\ rt_scheduler_lock_nest k = 0 /\
  thread_stat (threads k (timer_thread k)) <> RT_THREAD_SUSPEND.

Definition quiet (f : Kernel -> option Kernel) : Prop :=
  forall k, calm k -> exists k', f k = Some k' /\ quiet_call k k'.

Lemma schedule_timer_thread k k' : rt_schedule k = Some k' -> timer_thread k' = timer_thread k.
Proof.
  assert (Hrem : forall k t k1, rt_schedule_remove_thread k t = Some k1 -> timer_thread k1 = timer_thread k).
  { intros k0 t k1. unfold rt_schedule_remove_thread. cbv zeta. destruct (_ <=? _); [discriminate|]. intros [= <-].
    destruct (decide _); reflexivity. }
  assert (Hins : forall k t k1, rt_schedule_insert_thread k t = Some k1 -> timer_thread k1 = timer_thread k).
  { intros k0 t k1. unfold rt_schedule_insert_thread. destruct (decide _); [intros [= <-]; reflexivity|]. cbv zeta.
    destruct (_ <=? _); [discriminate|]. intros [= <-]. reflexivity. }
  unfold rt_schedule. destruct (_ =? 0); [|intros [= <-]; reflexivity]. destruct (negb _); [|intros [= <-]; reflexivity].
  destruct (_get_highest_priority_thread k) as [[to h]|]; [|discriminate]. cbn [mbind option_bind].
  destruct (rt_current_thread k) as [cur|]; [|discriminate]. cbn [mbind option_bind]. cbv zeta.
  match goal with |- context [let '(_, _) := ?b in _] => destruct b as [to' need] end.
  destruct (decide (to' <> cur)).
  - match goal with |- context [if need then rt_schedule_insert_thread ?a ?b else _] => set (k1 := a) end.
    assert (E1 : timer_thread k1 = timer_thread k) by (unfold k1; destruct need; reflexivity). clearbody k1.
    destruct (if need then _ else _) as [k2|] eqn:E2; [|discriminate]. cbn [mbind option_bind].
    destruct (rt_schedule_remove_thread k2 to') as [k3|] eqn:E3; [|discriminate]. cbn [mbind option_bind]. intros [= <-].
    change (timer_thread k3 = timer_thread k). rewrite (Hrem _ _ _ E3), <- E1.
    destruct need; [exact (Hins _ _ _ E2) | injection E2 as <-; reflexivity].
  - destruct (rt_schedule_remove_thread _ cur) as [k3|] eqn:E3; [|discriminate]. cbn [mbind option_bind]. intros [= <-].
    change (timer_thread k3 = timer_thread k). rewrite (Hrem _ _ _ E3). destruct need; reflexivity.
Qed.

Lemma exit_critical_spec k :
  kernel_ok (rt_tick k) k -> (exists c, rt_current_thread k = Some c) -> rt_scheduler_lock_nest k = 1 ->
  exists k', rt_exit_critical k = Some k' /\ kernel_ok (rt_tick k') k' /\ (exists c, rt_current_thread k' = Some c) /\
    rt_scheduler_lock_nest k' = 0 /\ sched_frame (k <| rt_scheduler_lock_nest := 0 |>) k' /\
    timer_thread k' = timer_thread k /\
    (thread_stat (threads k (timer_thread k)) <> RT_THREAD_SUSPEND ->
     thread_stat (threads k' (timer_thread k')) <> RT_THREAD_SUSPEND).
Proof.
  intros Hok [c Hc] Hlock. unfold rt_exit_critical. rewrite Hlock.
  change (s16 (1 - 1)) with 0. change (rt_scheduler_lock_nest (k <| rt_scheduler_lock_nest := 0 |>) <=? 0) with true. cbv iota.
  change (rt_current_thread (_ <| rt_scheduler_lock_nest := 0 |> <| rt_scheduler_lock_nest := 0 |>)) with (rt_current_thread k). rewrite Hc.
  set (k1 := k <| rt_scheduler_lock_nest := 0 |> <| rt_scheduler_lock_nest := 0 |>).
  destruct (schedule_kernel_ok (rt_tick k) k1 c (lock_ok _ _ _ Hok) Hc) as (k' & c' & E & Hok' & Hf & Hc' & _).
  exists k'. split; [exact E|]. split_ands; eauto.
  - rewrite (sf_tick _ _ Hf). exact Hok'.
  - rewrite (sf_lock _ _ Hf). reflexivity.
  - rewrite (schedule_timer_thread _ _ E). reflexivity.
  - rewrite (schedule_timer_thread _ _ E). change (timer_thread k1) with (timer_thread k). intros Hst.
    destruct (sf_stat _ _ Hf (timer_thread k)) as [->|[_ [-> | ->]]]; [exact Hst | discriminate | discriminate].
Qed.

Lemma filter_not_in {A} `{EqDecision A} (x : A) (l : list A) : x ∉ l -> filter (fun y => y <> x) l = l.
Proof.
  induction l as [|y l IH]; [reflexivity|]. rewrite filter_cons. intros [Hne Hx]%not_elem_of_cons.
  rewrite decide_True by congruence. f_equal. auto.
Qed.

Lemma filter_head_out {A} `{EqDecision A} (x : A) (l : list A) : NoDup (x :: l) -> filter (fun y => y <> x) (x :: l) = l.
Proof.
  intros Hn. apply NoDup_cons in Hn as [Hx _]. rewrite filter_cons, decide_False by tauto. apply filter_not_in, Hx.
Qed.

Lemma timer_insert_ext f g d x l : (forall y, f y = g y) -> timer_insert f d x l = timer_insert g d x l.
Proof.
  intros E. induction l as [|y l IH]; cbn [timer_insert]; [reflexivity|]. rewrite E, IH. reflexivity.
Qed.

Section Fire.
Context (user_timeout : nat -> Kernel -> option Kernel) (Hquiet : forall n, quiet (user_timeout n)).
Context (base : Z).

(** The part of [soft_fire] before the restart: the timer is unlinked, its function
    has run, its flag is cleared. *)
Lemma fire_call k x l :
  soft_ok base k -> rt_scheduler_lock_nest k = 1 -> rt_soft_timer_list k = x :: l ->
  exists k1, (k ← rt_exit_critical (_rt_timer_remove k x); timer_fire user_timeout k x) = Some k1 /\
    let k2 := set_timer (rt_enter_critical k1) x (fun t => t <| flag := clear_bits (flag t) RT_TIMER_FLAG_ACTIVATED |>) in
    timers k1 x = timers k x /\
    soft_ok base k2 /\ rt_scheduler_lock_nest k2 = 1 /\ rt_soft_timer_list k2 = l /\ rt_tick k2 = rt_tick k /\
    timer_thread k2 = timer_thread k /\ (x ∉ rt_timer_list k2) /\
    timers k2 x = timers k x <| flag := clear_bits (flag (timers k x)) RT_TIMER_FLAG_ACTIVATED |> /\
    (forall q, UserTimer q <> x -> timers k2 (UserTimer q) = timers k (UserTimer q)).
Proof.
  intros Hok Hlock El. pose proof Hok as [K1 K2 K3 K4 K5 K6 K7]. rewrite El in *.
  destruct (K4 x) as ((n & ->) & (m & Hfn) & Hnot & _ & _ & _ & _); [left|]. set (x := UserTimer n) in *.
  set (k0 := _rt_timer_remove k x).
  assert (Esoft : rt_soft_timer_list k0 = l).
  { change (filter (fun y => y <> x) (rt_soft_timer_list k) = l). rewrite El. exact (filter_head_out x l K3). }
  assert (Hok0 : kernel_ok (rt_tick k0) k0).
  { apply (user_timer_ok (rt_tick k) k k0 n); auto; [split; reflexivity|]. intros t. rewrite Esoft. intros Ht.
    destruct (K4 (ThreadTimer t)) as ((q & Hq) & _); [right; exact Ht | discriminate]. }
  destruct (exit_critical_spec k0 Hok0 K2 Hlock) as (k' & Ee & Hok' & Hc' & Hl' & [F1 F2 F3 F4 _ _ _ F8 F9] & Htt & Haw).
  rewrite Ee. cbn [mbind option_bind]. unfold timer_fire.
  change (timers (k0 <| rt_scheduler_lock_nest := 0 |>)) with (timers k) in F2. rewrite F2, Hfn.
  destruct (Hquiet m k' (conj Hok' (conj Hc' (conj Hl' (Haw K7))))) as (k1 & E1 & [Q1 Q2 Q3 Q4 Q5 Q6 Q7 [Q8 Q9]]).
  exists k1. split; [exact E1|].
  set (k2 := set_timer (rt_enter_critical k1) x _).
  assert (Hhard : forall q, UserTimer q ∈ rt_timer_list k1 -> UserTimer q <> x /\ UserTimer q ∈ rt_timer_list k).
  { intros q Hq. apply Q6 in Hq. rewrite F3 in Hq. apply list_elem_of_filter in Hq. exact Hq. }
  assert (Etx : timers k1 x = timers k x) by (unfold x; rewrite Q4, F2; reflexivity).
  assert (Etq : forall q, UserTimer q <> x -> timers k2 (UserTimer q) = timers k (UserTimer q)).
  { intros q Hq. cbn. rewrite upd_other by exact Hq. rewrite Q4, F2. reflexivity. }
  assert (Ety : forall y, y ∈ l -> timers k2 y = timers k y).
  { intros y Hy. destruct (K4 y) as ((q & Hq) & _); [right; exact Hy|]. subst y. apply Etq.
    apply NoDup_cons in K3 as [K3 _]. intros E. apply K3. rewrite <- E. exact Hy. }
  assert (Esoft2 : rt_soft_timer_list k2 = l).
  { change (rt_soft_timer_list k1 = l). rewrite Q5, F4. exact Esoft. }
  assert (Etick : rt_tick k2 = rt_tick k) by (change (rt_tick k1 = rt_tick k); rewrite Q3, F1; reflexivity).
  assert (Hx2 : x ∉ rt_timer_list k2) by (intros Hx; destruct (Hhard n Hx) as [Hne _]; apply Hne; reflexivity).
  split_ands; auto.
  - split.
    + change (rt_tick k2) with (rt_tick k1).
      apply (user_timer_ok (rt_tick k1) (rt_enter_critical k1) k2 n); [apply lock_ok; exact Q1 | split; reflexivity | | |].
      * intros y Hy. cbn. rewrite upd_other by exact Hy. reflexivity.
      * symmetry. exact (filter_not_in x _ Hx2).
      * intros t. rewrite Esoft2. intros Ht. destruct (K4 (ThreadTimer t)) as ((q & Hq) & _); [right; exact Ht | discriminate].
    + exact Q2.
    + rewrite Esoft2. apply NoDup_cons in K3. tauto.
    + intros y Hy. rewrite Esoft2 in Hy. rewrite (Ety y Hy), Etick.
      destruct (K4 y) as ((q & Hq) & H2 & H3 & H4); [right; exact Hy|]. split_ands; eauto; try apply H4.
      subst y. intros Hin. apply H3, (Hhard q), Hin.
    + rewrite Esoft2. destruct K5 as [S B]. apply (timers_sorted_ext base RT_TICK_HALF (fun y => timeout_tick (timers k y))).
      * intros y Hy. rewrite Ety by exact Hy. reflexivity.
      * split; [apply StronglySorted_inv in S; tauto | apply Forall_cons in B; tauto].
    + rewrite Etick. exact K6.
    + exact Q9.
  - change (s16 (rt_scheduler_lock_nest k1 + 1) = 1). rewrite Q7. reflexivity.
  - change (timer_thread k1 = timer_thread k). rewrite Q8, Htt. reflexivity.
  - cbn. rewrite upd_same, Etx. reflexivity.
Qed.
(** A soft timer is started: it gets its place in the list, with a deadline in the future. *)
Lemma restart_spec k n (x := UserTimer n) :
  soft_ok base k -> (x ∉ rt_soft_timer_list k) -> (x ∉ rt_timer_list k) ->
  (exists m, timeout_func (timers k x) = user_timeout_fn m) ->
  has_bits (flag (timers k x)) RT_TIMER_FLAG_SOFT_TIMER = true -> 0 < tm_init_tick (timers k x) ->
  offset base (rt_tick k) + tm_init_tick (timers k x) < RT_TICK_HALF ->
  exists k', rt_timer_start k x = Some (k', RT_EOK) /\ soft_ok base k' /\
    rt_soft_timer_list k' =
      timer_insert (fun y => timeout_tick (timers k' y)) (timeout_tick (timers k' x)) x (rt_soft_timer_list k) /\
    rt_scheduler_lock_nest k' = rt_scheduler_lock_nest k /\ rt_tick k' = rt_tick k /\ timer_thread k' = timer_thread k /\
    (forall y, y <> x -> timers k' y = timers k y) /\
    timeout_tick (timers k' x) = u32 (rt_tick k + tm_init_tick (timers k x)) /\
    tm_init_tick (timers k' x) = tm_init_tick (timers k x) /\
    has_bits (flag (timers k' x)) RT_TIMER_FLAG_PERIODIC = has_bits (flag (timers k x)) RT_TIMER_FLAG_PERIODIC.
Proof.
  intros Hok Hns Hnh Hfn Hsoft Hpos Hwin. pose proof Hok as [K1 K2 K3 K4 K5 K6 K7].
  pose proof (offset_range base (rt_tick k)) as Hob. unfold rt_timer_start. cbv zeta.
  set (k1 := set_timer (_rt_timer_remove k x) x _).
  assert (T1 : timers k1 x = timers k x <| flag := clear_bits (flag (timers k x)) RT_TIMER_FLAG_ACTIVATED |>)
    by (cbn; rewrite upd_same; reflexivity).
  rewrite T1. change (tm_init_tick (_ <| flag := _ |>)) with (tm_init_tick (timers k x)).
  destruct (Z.ltb_spec (tm_init_tick (timers k x)) RT_TICK_HALF); [|lia]. cbn [negb].
  change (rt_tick k1) with (rt_tick k).
  set (k2 := set_timer k1 x _).
  assert (T2 : timers k2 x = timers k1 x <| timeout_tick := u32 (rt_tick k + tm_init_tick (timers k x)) |>).
  { unfold k2. cbn [set_timer timers modify]. rewrite upd_same, T1. reflexivity. }
  assert (Hs2 : has_bits (flag (timers k2 x)) RT_TIMER_FLAG_SOFT_TIMER = true).
  { rewrite T2, T1. change (has_bits (clear_bits (flag (timers k x)) RT_TIMER_FLAG_ACTIVATED) RT_TIMER_FLAG_SOFT_TIMER = true).
    rewrite clear_has by reflexivity. exact Hsoft. }
  rewrite Hs2. cbn [andb].
  assert (Es2 : rt_soft_timer_list k2 = rt_soft_timer_list k) by (exact (filter_not_in x _ Hns)).
  assert (Eh2 : rt_timer_list k2 = rt_timer_list k) by (exact (filter_not_in x _ Hnh)).
  set (k3 := set_timer (k2 <| rt_soft_timer_list := _ |>) x _).
  change (threads k3 (timer_thread k3)) with (threads k (timer_thread k)).
  destruct (Z.eqb_spec (thread_stat (threads k (timer_thread k))) RT_THREAD_SUSPEND); [contradiction|].
  assert (T3 : timers k3 x = timers k2 x <| flag := Z.lor (flag (timers k2 x)) RT_TIMER_FLAG_ACTIVATED |>).
  { unfold k3. cbn [set_timer timers modify]. rewrite upd_same. reflexivity. }
  assert (T3' : forall y, y <> x -> timers k3 y = timers k y).
  { intros y Hy. unfold k3, k2, k1. cbn. rewrite !upd_other by exact Hy. reflexivity. }
  assert (D3 : timeout_tick (timers k3 x) = u32 (rt_tick k + tm_init_tick (timers k x))) by (rewrite T3, T2; reflexivity).
  assert (D2 : timeout_tick (timers k2 x) = timeout_tick (timers k3 x)) by (rewrite T3; reflexivity).
  set (L := rt_soft_timer_list k) in *.
  assert (Etick : forall y, timeout_tick (timers k2 y) = timeout_tick (timers k3 y)).
  { intros y. destruct (decide (y = x)) as [->|Hy]; [exact D2|]. rewrite T3' by exact Hy. unfold k2, k1. cbn.
    rewrite !upd_other by exact Hy. reflexivity. }
  assert (El3 : rt_soft_timer_list k3 = timer_insert (fun y => timeout_tick (timers k3 y)) (timeout_tick (timers k3 x)) x L).
  { change (timer_insert (fun y => timeout_tick (timers k2 y)) (timeout_tick (timers k2 x)) x (rt_soft_timer_list k2) =
      timer_insert (fun y => timeout_tick (timers k3 y)) (timeout_tick (timers k3 x)) x L).
    rewrite Es2, D2. apply timer_insert_ext, Etick. }
  assert (Hoff : offset base (timeout_tick (timers k3 x)) = offset base (rt_tick k) + tm_init_tick (timers k x)).
  { rewrite D3. unfold offset in *. rewrite u32_sub_mod_l. change RT_TICK_HALF with 2147483647 in *.
    replace (rt_tick k + tm_init_tick (timers k x) - base) with (rt_tick k - base + tm_init_tick (timers k x)) by lia.
    unfold u32 in *. rewrite <- Zplus_mod_idemp_l. apply Z.mod_small. lia. }
  exists k3. split; [reflexivity|]. split_ands; auto; try (rewrite T3, T2, T1; reflexivity).
  - split.
    + change (rt_tick k3) with (rt_tick k). apply (user_timer_ok (rt_tick k) k k3 n); auto.
      * split; reflexivity.
      * intros t Ht. rewrite El3 in Ht. apply timer_insert_perm in Ht as [Ht|Ht]; [discriminate|].
        destruct (K4 _ Ht) as ((q & Hq) & _). discriminate.
    + exact K2.
    + rewrite El3. apply timer_insert_nodup; assumption.
    + intros y Hy. rewrite El3 in Hy. change (rt_tick k3) with (rt_tick k). change (rt_timer_list k3) with (rt_timer_list k2).
      rewrite Eh2. apply timer_insert_perm in Hy as [->|Hy].
      * split_ands; try (rewrite T3, T2, T1; assumption); eauto; [rewrite T3; change (has_bits (Z.lor (flag (timers k2 x)) RT_TIMER_FLAG_ACTIVATED) RT_TIMER_FLAG_SOFT_TIMER = true); rewrite set_has by reflexivity; exact Hs2|].
        rewrite T3. apply (set_has_same (flag (timers k2 x)) RT_TIMER_FLAG_ACTIVATED). discriminate.
      * rewrite T3' by (intros ->; exact (Hns Hy)). apply K4, Hy.
    + rewrite El3. apply (timer_insert_sorted base (fun y => timeout_tick (timers k3 y)) x L); [|lia].
      apply (timers_sorted_ext base RT_TICK_HALF (fun y => timeout_tick (timers k y))); [|exact K5].
      intros y Hy. rewrite T3' by (intros ->; exact (Hns Hy)). reflexivity.
    + exact K6.
    + exact K7.
  - rewrite T3, T2, T1. change (has_bits (Z.lor (clear_bits (flag (timers k x)) RT_TIMER_FLAG_ACTIVATED) RT_TIMER_FLAG_ACTIVATED) RT_TIMER_FLAG_PERIODIC = has_bits (flag (timers k x)) RT_TIMER_FLAG_PERIODIC).
    rewrite set_has, clear_has by reflexivity. reflexivity.
Qed.
(** What is known of a timer [x] that was due, from [k] before to [k'] after. *)
Definition fired (k k' : Kernel) (x : timer_id) : Prop :=
  if has_bits (flag (timers k x)) RT_TIMER_FLAG_PERIODIC
  then timeout_tick (timers k' x) = u32 (rt_tick k + tm_init_tick (timers k x))
  else has_bits (flag (timers k' x)) RT_TIMER_FLAG_ACTIVATED = false.

Lemma fire_spec k x l :
  soft_ok base k -> rt_scheduler_lock_nest k = 1 -> rt_soft_timer_list k = x :: l ->
  exists k', soft_fire user_timeout k x = Some k' /\ soft_ok base k' /\ rt_scheduler_lock_nest k' = 1 /\
    rt_tick k' = rt_tick k /\ fired k k' x /\
    (forall q, UserTimer q <> x -> timers k' (UserTimer q) = timers k (UserTimer q)) /\
    rt_soft_timer_list k' =
      if has_bits (flag (timers k x)) RT_TIMER_FLAG_PERIODIC
      then timer_insert (fun y => timeout_tick (timers k' y)) (timeout_tick (timers k' x)) x l else l.
Proof.
  intros Hok Hlock El. destruct (sk_user _ _ Hok x) as ((n & Hn) & Hfn & _ & Hsoft & Hact & Hpos & Hwin); [rewrite El; left|].
  destruct (fire_call k x l Hok Hlock El) as (k1 & E1 & Et1 & Hok2 & Hl2 & Es2 & Etick & Ett & Hnh & Et2 & Eo2).
  set (k2 := set_timer (rt_enter_critical k1) x _) in *.
  unfold soft_fire. cbv zeta. destruct (rt_exit_critical _) as [k'|]; [|discriminate]. cbn [mbind option_bind] in E1 |- *.
  rewrite E1. cbn [mbind option_bind]. change (timers (rt_enter_critical k1) x) with (timers k1 x). rewrite Et1, Hact, andb_true_r.
  fold k2. unfold fired. destruct (has_bits (flag (timers k x)) RT_TIMER_FLAG_PERIODIC) eqn:Eper.
  - assert (Hns : x ∉ rt_soft_timer_list k2).
    { rewrite Es2. pose proof (sk_nodup _ _ Hok) as Hnd. rewrite El in Hnd. apply NoDup_cons in Hnd. tauto. }
    subst x. destruct (restart_spec k2 n Hok2 Hns Hnh) as (k3 & E3 & Hok3 & R1 & R2 & R3 & R4 & R5 & R6 & R7 & R8);
      try (rewrite Et2; assumption).
    { rewrite Et2. change (has_bits (clear_bits (flag (timers k (UserTimer n))) RT_TIMER_FLAG_ACTIVATED) RT_TIMER_FLAG_SOFT_TIMER = true).
      rewrite clear_has by reflexivity. exact Hsoft. }
    { rewrite Et2, Etick. exact Hwin. }
    rewrite E3. cbn [mbind option_bind]. exists k3. split; [reflexivity|]. split_ands; auto; try congruence.
    + rewrite R6, Etick, Et2. reflexivity.
    + intros q Hq. rewrite R5 by exact Hq. apply Eo2, Hq.
  - exists k2. split_ands; auto. rewrite Et2. apply (clear_has_same (flag (timers k x)) RT_TIMER_FLAG_ACTIVATED).
Qed.

(** The timers of a sorted list that are due, and those that are not. *)
Lemma due_offset k x : soft_ok base k -> x ∈ rt_soft_timer_list k ->
  due (rt_tick k) k x = (offset base (timeout_tick (timers k x)) <=? offset base (rt_tick k)).
Proof.
  intros Hok Hx. unfold due. apply deadline_compare; [apply Hok|].
  destruct (sk_sorted _ _ Hok) as [_ Hb]. rewrite Forall_forall in Hb. apply (Hb x Hx).
Qed.

Lemma insert_behind f d x D R :
  offset base d < RT_TICK_HALF ->
  (forall y, y ∈ D -> offset base (f y) < offset base d) ->
  timer_insert f d x (D ++ R) = D ++ timer_insert f d x R.
Proof.
  intros Hd HD. induction D as [|y D IH]; [reflexivity|]. cbn [app timer_insert].
  pose proof (HD y ltac:(left)) as Hy.
  destruct (deadline_compare base (f y) d) as [-> ->]; [lia | exact Hd|].
  destruct (Z.eqb_spec (offset base (f y)) (offset base d)); [lia|].
  destruct (Z.leb_spec (offset base d) (offset base (f y))); [lia|]. rewrite IH; [reflexivity|].
  intros z Hz. apply HD. right. exact Hz.
Qed.
(** The walk as the list of the timers that were due when it began. *)
Fixpoint fire_all (k : Kernel) (l : list timer_id) : option Kernel :=
  match l with
  | [] => Some k
  | x :: l => k ← soft_fire user_timeout k x; fire_all k l
  end.

Definition periodic (k : Kernel) (x : timer_id) : bool := has_bits (flag (timers k x)) RT_TIMER_FLAG_PERIODIC.

(** [D] are the timers that are due, [R] the others. *)
Record walk_ok (k : Kernel) (n : option timer_id) (D R : list timer_id) : Prop := {
  wk_ok : soft_ok base k;
  wk_lock : rt_scheduler_lock_nest k = 1;
  wk_list : rt_soft_timer_list k = D ++ R;
  wk_due : forall x, x ∈ D -> due (rt_tick k) k x = true;
  wk_rest : forall x, x ∈ R -> due (rt_tick k) k x = false;
  wk_node : match D with [] => forall x, n = Some x -> x ∈ R | x :: _ => n = Some x end
}.

Lemma walk_step k n x D R : walk_ok k n (x :: D) R ->
  exists k' R', soft_round user_timeout (rt_tick k, n, k) = Some (inr (rt_tick k, head (D ++ R), k')) /\
    soft_fire user_timeout k x = Some k' /\ walk_ok k' (head (D ++ R)) D R' /\ rt_tick k' = rt_tick k /\ fired k k' x /\
    (forall q, UserTimer q <> x -> timers k' (UserTimer q) = timers k (UserTimer q)) /\
    (forall y, y ∈ R' <-> y ∈ R \/ y = x /\ periodic k x = true).
Proof.
  intros [Hok Hlock El Hdue Hrest Hn]. cbn [app] in El. subst n.
  destruct (fire_spec k x (D ++ R) Hok Hlock El) as (k' & E & Hok' & Hl' & Et & Hf & Ho & Es).
  assert (Hne : forall y, y ∈ D ++ R -> (exists q, y = UserTimer q) /\ y <> x).
  { intros y Hy. destruct (sk_user _ _ Hok y) as (Hq & _); [rewrite El; right; exact Hy|]. split; [exact Hq|].
    intros ->. pose proof (sk_nodup _ _ Hok) as Hnd. rewrite El in Hnd. apply NoDup_cons in Hnd as [Hnd _]. contradiction. }
  assert (Heq : forall y, y ∈ D ++ R -> timers k' y = timers k y).
  { intros y Hy. destruct (Hne y Hy) as [[q ->] Hyx]. apply Ho, Hyx. }
  assert (Hdue' : forall y, y ∈ D ++ R -> due (rt_tick k') k' y = due (rt_tick k) k y).
  { intros y Hy. unfold due. rewrite Heq, Et by exact Hy. reflexivity. }
  set (R' := if periodic k x then timer_insert (fun y => timeout_tick (timers k' y)) (timeout_tick (timers k' x)) x R else R).
  assert (Hx : periodic k x = true -> offset base (rt_tick k) < offset base (timeout_tick (timers k' x)) < RT_TICK_HALF).
  { intros Hp. unfold fired in Hf. unfold periodic in Hp. rewrite Hp in Hf. rewrite Hf.
    destruct (sk_user _ _ Hok x) as (_ & _ & _ & _ & _ & Hpos & Hwin); [rewrite El; left|].
    pose proof (offset_range base (rt_tick k)) as Hob. change RT_TICK_HALF with 2147483647 in *.
    assert (Eo : offset base (u32 (rt_tick k + tm_init_tick (timers k x))) = offset base (rt_tick k) + tm_init_tick (timers k x)).
    { unfold offset in *. rewrite u32_sub_mod_l.
      replace (rt_tick k + tm_init_tick (timers k x) - base) with (rt_tick k - base + tm_init_tick (timers k x)) by lia.
      unfold u32 in *. rewrite <- Zplus_mod_idemp_l. apply Z.mod_small. lia. }
    lia. }
  assert (Es' : rt_soft_timer_list k' = D ++ R').
  { unfold R'. fold (periodic k x) in Es. destruct (periodic k x) eqn:Hp; [|exact Es]. destruct (Hx eq_refl) as [Hx1 Hx2].
    rewrite Es. apply insert_behind; [exact Hx2|]. intros y Hy. cbv beta.
    assert (HyL : y ∈ D ++ R) by (apply elem_of_app; auto). rewrite (Heq y HyL).
    pose proof (Hdue y ltac:(right; exact Hy)) as Hd. rewrite (due_offset k y Hok) in Hd by (rewrite El; right; exact HyL). lia. }
  assert (HR' : forall y, y ∈ R' <-> y ∈ R \/ y = x /\ periodic k x = true).
  { intros y. unfold R'. destruct (periodic k x); [rewrite timer_insert_perm; tauto | intuition congruence]. }
  exists k', R'. split_ands; auto.
  - unfold soft_round. rewrite (Hdue x) by left. unfold next_node. rewrite El. cbn [after]. rewrite decide_True by reflexivity.
    rewrite E. cbn [mbind option_bind]. unfold rt_tick_get. rewrite Et. reflexivity.
  - split; auto.
    + intros y Hy. rewrite Hdue' by (apply elem_of_app; auto). apply Hdue. right. exact Hy.
    + intros y Hy. pose proof Hy as Hy'. apply HR' in Hy as [Hy|[-> Hp]].
      * rewrite Hdue' by (apply elem_of_app; auto). apply Hrest, Hy.
      * destruct (Hx Hp). rewrite (due_offset k' x Hok'), Et; [lia|]. rewrite Es'. apply elem_of_app. auto.
    + destruct D as [|d D]; [|reflexivity]. intros y Hy. apply HR'. left. destruct R; [discriminate|]. injection Hy as ->. left.
Qed.

Lemma loop_spec D : forall k n R fuel,
  walk_ok k n D R -> (length D < fuel)%nat ->
  exists k', soft_timer_loop user_timeout fuel (rt_tick k, n, k) = Some k' /\ fire_all k D = Some k' /\
    soft_ok base k' /\ rt_scheduler_lock_nest k' = 1 /\ rt_tick k' = rt_tick k /\
    (forall y, y ∈ rt_soft_timer_list k' <-> y ∈ R \/ y ∈ D /\ periodic k y = true) /\
    (forall y, y ∈ rt_soft_timer_list k' -> due (rt_tick k') k' y = false) /\
    (forall y, y ∈ D -> fired k k' y) /\
    (forall q, UserTimer q ∉ D -> timers k' (UserTimer q) = timers k (UserTimer q)).
Proof.
  induction D as [|x D IH]; intros k n R [|fuel] Hw Hf; cbn [length] in Hf; try lia.
  - pose proof Hw as [Hok Hlock El _ Hrest Hn]. exists k. cbn [soft_timer_loop fire_all].
    assert (Er : soft_round user_timeout (rt_tick k, n, k) = Some (inl k)).
    { unfold soft_round. destruct n as [y|]; [|reflexivity]. rewrite (Hrest y (Hn y eq_refl)). reflexivity. }
    rewrite Er. cbn [mbind option_bind]. cbn [app] in El. rewrite El. split_ands; auto.
    + intros y. split; [auto|]. intros [Hy|[Hy _]]; [exact Hy | inversion Hy].
    + intros y Hy. inversion Hy.
  - destruct (walk_step k n x D R Hw) as (k1 & R' & Er & Ef & Hw' & Et & Hfx & Ho & HR').
    destruct (IH k1 (head (D ++ R)) R' fuel Hw' ltac:(lia)) as (k' & El & Efa & G1 & G2 & G3 & G4 & G5 & G6 & G7).
    pose proof (sk_nodup _ _ (wk_ok _ _ _ _ Hw)) as Hnd. rewrite (wk_list _ _ _ _ Hw) in Hnd. cbn [app] in Hnd.
    apply NoDup_cons in Hnd as [Hnx _].
    assert (HxD : x ∉ D) by (intros Hx; apply Hnx, elem_of_app; auto).
    assert (Huser : forall y, y ∈ x :: D -> exists q, y = UserTimer q).
    { intros y Hy. apply (sk_user _ _ (wk_ok _ _ _ _ Hw) y). rewrite (wk_list _ _ _ _ Hw). apply elem_of_app. auto. }
    assert (Hsame : forall y, y ∈ D -> timers k1 y = timers k y).
    { intros y Hy. destruct (Huser y ltac:(right; exact Hy)) as [q ->]. apply Ho. intros E. apply HxD. rewrite <- E. exact Hy. }
    exists k'. cbn [soft_timer_loop fire_all]. rewrite Er, Ef. cbn [mbind option_bind]. rewrite Et in El, G3.
    split_ands; auto.
    + intros y. rewrite G4, HR', elem_of_cons. split.
      * intros [[Hy|[-> Hp]]|[Hy Hp]]; auto. right. split; [auto|]. unfold periodic in *. rewrite <- (Hsame y Hy). exact Hp.
      * intros [Hy|[[->|Hy] Hp]]; auto. right. split; [exact Hy|]. unfold periodic in *. rewrite (Hsame y Hy). exact Hp.
    + intros y [->|Hy]%elem_of_cons.
      * destruct (Huser x ltac:(left)) as [q Hq]. unfold fired in *. rewrite Hq, G7 by (rewrite <- Hq; exact HxD).
        rewrite <- Hq. exact Hfx.
      * specialize (G6 y Hy). unfold fired in *. rewrite (Hsame y Hy), Et in G6. exact G6.
    + intros q Hq. apply not_elem_of_cons in Hq as [Hq1 Hq2]. rewrite G7 by exact Hq2. apply Ho, Hq1.
Qed.
End Fire.

(** ** The walk over a list in order *)

Section Check.
Context (user_timeout : nat -> Kernel -> option Kernel) (base : Z).

Lemma due_split k : soft_ok base k ->
  let D := filter (fun x => due (rt_tick k) k x = true) (rt_soft_timer_list k) in
  exists R, rt_soft_timer_list k = D ++ R /\ (forall x, x ∈ R -> due (rt_tick k) k x = false).
Proof.
  intros Hok. pose proof (fun x Hx => due_offset base k x Hok Hx) as Hd. destruct (sk_sorted _ _ Hok) as [Hs _].
  cbv zeta. revert Hs Hd. generalize (rt_soft_timer_list k) as L. induction L as [|x L IH]; intros Hs Hd.
  { exists []. split; [reflexivity|]. intros x Hx. inversion Hx. }
  apply StronglySorted_inv in Hs as [Hs Hx]. destruct (IH Hs) as (R & E & HR); [intros y Hy; apply Hd; right; exact Hy|].
  rewrite filter_cons. destruct (decide (due (rt_tick k) k x = true)) as [Ed|Ed].
  - exists R. split; [cbn [app]; rewrite <- E; reflexivity | exact HR].
  - assert (Hall : forall y, y ∈ L -> due (rt_tick k) k y = false).
    { intros y Hy. rewrite (Hd y ltac:(right; exact Hy)). rewrite (Hd x ltac:(left)) in Ed.
      rewrite Forall_forall in Hx. specialize (Hx y Hy). unfold timer_order in Hx. lia. }
    assert (E0 : filter (fun x => due (rt_tick k) k x = true) L = []).
    { clear -Hall. induction L as [|y L IH]; [reflexivity|]. rewrite filter_cons, decide_False; [apply IH; intros z Hz; apply Hall; right; exact Hz|].
      rewrite (Hall y) by left. discriminate. }
    exists (x :: L). rewrite E0. split; [reflexivity|]. intros y [->|Hy]%elem_of_cons; [|auto].
    destruct (due _ _ _); [contradiction | reflexivity].
Qed.

Lemma enter_critical_ok k : soft_ok base k -> soft_ok base (rt_enter_critical k).
Proof. intros [K1 K2 K3 K4 K5 K6 K7]. split; auto. apply lock_ok. exact K1. Qed.

Definition due_timers (k : Kernel) : list timer_id :=
  filter (fun x => due (rt_tick k) k x = true) (rt_soft_timer_list k).

(** C21: The soft timer check, when the timeout functions leave the soft timers alone and take less than a tick: it
    ends, and does what calling the functions of the timers that are due, in the order of their deadlines, once
    each, does; afterwards no timer in the list is due, the periodic ones are in it with a deadline one period
    ahead, the others are out of it and deactivated, and the rest is untouched. *)
Theorem soft_check_fires_due k fuel :
  (forall n, quiet (user_timeout n)) -> soft_ok base k -> rt_scheduler_lock_nest k = 0 -> (length (due_timers k) < fuel)%nat ->
  exists k' k1, rt_soft_timer_check user_timeout fuel k = Some k' /\
    fire_all user_timeout (rt_enter_critical k) (due_timers k) = Some k1 /\ rt_exit_critical k1 = Some k' /\
    soft_ok base k1 /\ kernel_ok (rt_tick k') k' /\ rt_scheduler_lock_nest k' = 0 /\ rt_tick k' = rt_tick k /\
    (forall y, y ∈ rt_soft_timer_list k' <->
       y ∈ rt_soft_timer_list k /\ (due (rt_tick k) k y = false \/ periodic k y = true)) /\
    (forall y, y ∈ rt_soft_timer_list k' -> due (rt_tick k') k' y = false) /\
    (forall y, y ∈ due_timers k -> fired k k' y) /\
    (forall q, UserTimer q ∉ due_timers k -> timers k' (UserTimer q) = timers k (UserTimer q)).
Proof.
  intros Hq Hok Hlock Hf. destruct (due_split k Hok) as (R & El & HR). fold (due_timers k) in El.
  set (D := due_timers k) in *. set (k0 := rt_enter_critical k).
  assert (HD : forall x, x ∈ D -> due (rt_tick k) k x = true) by (intros x Hx; apply list_elem_of_filter in Hx; tauto).
  assert (Hw : walk_ok base k0 (head (rt_soft_timer_list k)) D R).
  { split; auto.
    - apply enter_critical_ok, Hok.
    - change (s16 (rt_scheduler_lock_nest k + 1) = 1). rewrite Hlock. reflexivity.
    - rewrite El. destruct D as [|x D']; [|reflexivity]. intros x Hx. destruct R; [discriminate|]. injection Hx as ->. left. }
  destruct (loop_spec user_timeout Hq base D k0 _ R fuel Hw Hf) as (k1 & E1 & E2 & Hok1 & Hl1 & Et & G1 & G2 & G3 & G4).
  destruct (exit_critical_spec k1 (sk_kernel _ _ Hok1) (sk_current _ _ Hok1) Hl1) as (k' & E3 & Hok' & _ & Hl' & [F1 F2 F3 F4 _ _ _ _ _] & Htt & Haw).
  change (rt_tick (k1 <| rt_scheduler_lock_nest := 0 |>)) with (rt_tick k1) in F1.
  change (timers (k1 <| rt_scheduler_lock_nest := 0 |>)) with (timers k1) in F2.
  change (rt_soft_timer_list (k1 <| rt_scheduler_lock_nest := 0 |>)) with (rt_soft_timer_list k1) in F4.
  change (rt_tick k0) with (rt_tick k) in *.
  exists k', k1. split_ands; auto; try congruence.
  - unfold rt_soft_timer_check. fold k0. change (rt_soft_timer_list k0) with (rt_soft_timer_list k).
    change (rt_tick_get k) with (rt_tick k). rewrite E1. cbn [mbind option_bind]. exact E3.
  - intros y. rewrite F4, G1, El, elem_of_app. change (periodic k0 y) with (periodic k y). split.
    + intros [Hy|[Hy Hp]]; auto.
    + intros [[Hy|Hy] [Hd|Hp]]; auto. rewrite (HD y Hy) in Hd. discriminate.
  - intros y Hy. unfold due. rewrite F1, F2. apply G2. rewrite <- F4. exact Hy.
  - intros y Hy. specialize (G3 y Hy). unfold fired in *. change (timers k0) with (timers k) in G3. rewrite F2. exact G3.
  - intros q Hq'. rewrite F2. apply G4, Hq'.
Qed.
End Check.

(** ** A timer stopped by another one *)

Section Spin.
Context (user_timeout : nat -> Kernel -> option Kernel).

Fixpoint rounds (n : nat) (w : Z * option timer_id * Kernel) : option (Kernel + Z * option timer_id * Kernel) :=
  match n with
  | O => Some (inr w)
  | S n =>
      r ← soft_round user_timeout w;
      match r with
      | inl k => Some (inl k)
      | inr w => rounds n w
      end
  end.

Lemma rounds_last n w w' : rounds n w = Some (inr w') -> rounds (S n) w = soft_round user_timeout w'.
Proof.
  revert w. induction n as [|n IH]; intros w; cbn [rounds].
  - intros [= ->]. destruct (soft_round user_timeout w') as [[k|w1]|]; reflexivity.
  - destruct (soft_round user_timeout w) as [[k|w1]|]; cbn [mbind option_bind]; try discriminate. intros E.
    specialize (IH w1 E). cbn [rounds] in IH. exact IH.
Qed.

(** The walk is at the timer [b], which is due and in no list. *)
Record astray (b nb : nat) (k : Kernel) : Prop := {
  as_kernel : kernel_ok (rt_tick k) k;
  as_current : exists c, rt_current_thread k = Some c;
  as_lock : rt_scheduler_lock_nest k = 1;
  as_out : (UserTimer b ∉ rt_soft_timer_list k) /\ (UserTimer b ∉ rt_timer_list k);
  as_func : timeout_func (timers k (UserTimer b)) = user_timeout_fn nb;
  as_stopped : has_bits (flag (timers k (UserTimer b))) RT_TIMER_FLAG_ACTIVATED = false;
  as_awake : thread_stat (threads k (timer_thread k)) <> RT_THREAD_SUSPEND;
  as_due : due (rt_tick k) k (UserTimer b) = true
}.

Lemma after_none x l : x ∉ l -> after x l = None.
Proof.
  induction l as [|y l IH]; [reflexivity|]. intros [Hne Hx]%not_elem_of_cons. cbn [after].
  rewrite decide_False by congruence. auto.
Qed.

Lemma exit_enter_ok n k :
  kernel_ok (rt_tick k) k -> (exists c, rt_current_thread k = Some c) -> rt_scheduler_lock_nest k = 1 ->
  (forall t, ThreadTimer t ∉ filter (fun y => y <> UserTimer n) (rt_soft_timer_list k)) ->
  exists k', rt_exit_critical (_rt_timer_remove k (UserTimer n)) = Some k' /\ kernel_ok (rt_tick k') k' /\
    (exists c, rt_current_thread k' = Some c) /\ rt_scheduler_lock_nest k' = 0 /\ rt_tick k' = rt_tick k /\
    timers k' = timers k /\ rt_soft_timer_list k' = filter (fun y => y <> UserTimer n) (rt_soft_timer_list k) /\
    rt_timer_list k' = filter (fun y => y <> UserTimer n) (rt_timer_list k) /\
    (thread_stat (threads k (timer_thread k)) <> RT_THREAD_SUSPEND ->
     thread_stat (threads k' (timer_thread k')) <> RT_THREAD_SUSPEND).
Proof.
  intros Hok Hc Hl Hs. set (k0 := _rt_timer_remove k (UserTimer n)).
  assert (Hok0 : kernel_ok (rt_tick k0) k0) by (apply (user_timer_ok (rt_tick k) k k0 n); auto; split; reflexivity).
  destruct (exit_critical_spec k0 Hok0 Hc Hl) as (k' & E & Hok' & Hc' & Hl' & [F1 F2 F3 F4 _ _ _ _ _] & Htt & Haw).
  exists k'. split_ands; auto.
Qed.

(** A round at such a timer calls its function and stays where it is. *)
Lemma astray_round b nb k :
  quiet (user_timeout nb) ->
  astray b nb k ->
  exists k', soft_round user_timeout (rt_tick k, Some (UserTimer b), k) = Some (inr (rt_tick k, Some (UserTimer b), k')) /\
    rt_tick k' = rt_tick k /\ astray b nb k'.
Proof.
  intros Hcalm [A1 A2 A3 [A4 A5] A6 A7 A9 A8]. set (x := UserTimer b) in *.
  assert (Es : filter (fun y => y <> x) (rt_soft_timer_list k) = rt_soft_timer_list k) by exact (filter_not_in x _ A4).
  destruct (exit_enter_ok b k A1 A2 A3) as (k' & Ee & Hok' & Hc' & Hl' & Et' & Eti' & Es' & Eh' & Haw).
  { fold x. rewrite Es. apply (ko_timers _ _ A1). }
  fold x in Ee, Es', Eh'. rewrite Es in Es'.
  destruct (Hcalm k' (conj Hok' (conj Hc' (conj Hl' (Haw A9))))) as (k1 & E1 & [Q1 Q2 Q3 Q4 Q5 Q6 Q7 [Q8 Q9]]).
  set (k2 := set_timer (rt_enter_critical k1) x (fun t => t <| flag := clear_bits (flag t) RT_TIMER_FLAG_ACTIVATED |>)).
  assert (T1 : timers k1 x = timers k x) by (unfold x; rewrite Q4, Eti'; reflexivity).
  assert (T2 : timers k2 x = timers k x <| flag := clear_bits (flag (timers k x)) RT_TIMER_FLAG_ACTIVATED |>).
  { unfold k2. cbn [set_timer timers modify]. rewrite upd_same. change (timers (rt_enter_critical k1) x) with (timers k1 x).
    rewrite T1. reflexivity. }
  assert (Et : rt_tick k2 = rt_tick k) by (change (rt_tick k1 = rt_tick k); congruence).
  assert (Hh : x ∉ rt_timer_list k2).
  { change (x ∉ rt_timer_list k1). intros Hx. apply Q6 in Hx. rewrite Eh' in Hx. apply list_elem_of_filter in Hx. tauto. }
  exists k2. split_ands; [|exact Et|].
  - unfold soft_round. rewrite A8. unfold next_node. rewrite (after_none x _ A4). unfold soft_fire. rewrite Ee.
    cbn [mbind option_bind]. unfold timer_fire. rewrite Eti', A6, E1. cbn [mbind option_bind]. cbv zeta.
    change (timers (rt_enter_critical k1) x) with (timers k1 x). rewrite T1, A7, andb_false_r. cbn [mbind option_bind].
    change (rt_tick_get (set_timer (rt_enter_critical k1) x _)) with (rt_tick k2). rewrite Et. reflexivity.
  - assert (Hsoft : rt_soft_timer_list k2 = rt_soft_timer_list k).
    { change (rt_soft_timer_list k1 = rt_soft_timer_list k). congruence. }
    split; auto.
    + change (kernel_ok (rt_tick k1) k2). apply (user_timer_ok (rt_tick k1) (rt_enter_critical k1) k2 b).
      * apply lock_ok. exact Q1.
      * split; reflexivity.
      * intros y Hy. unfold k2. cbn [set_timer timers modify]. rewrite upd_other by exact Hy. reflexivity.
      * symmetry. exact (filter_not_in x _ Hh).
      * rewrite Hsoft. apply (ko_timers _ _ A1).
    + change (s16 (rt_scheduler_lock_nest k1 + 1) = 1). rewrite Q7. reflexivity.
    + fold x. rewrite Hsoft. auto.
    + fold x. rewrite T2. exact A6.
    + fold x. rewrite T2. apply (clear_has_same (flag (timers k x)) RT_TIMER_FLAG_ACTIVATED).
    + fold x. unfold due in *. rewrite T2, Et. exact A8.
Qed.
Lemma rounds_loop n w w' : rounds n w = Some (inr w') -> soft_timer_loop user_timeout n w = None.
Proof.
  revert w. induction n as [|n IH]; intros w; [reflexivity|]. cbn [rounds soft_timer_loop].
  destruct (soft_round user_timeout w) as [[k|w1]|]; cbn [mbind option_bind]; [discriminate | apply IH | discriminate].
Qed.

(** The first timer's function stops the second one: the walk is astray. *)
Lemma stop_leads_astray base k a b l na nb :
  soft_ok base k -> rt_scheduler_lock_nest k = 1 -> rt_soft_timer_list k = UserTimer a :: UserTimer b :: l ->
  due (rt_tick k) k (UserTimer a) = true -> due (rt_tick k) k (UserTimer b) = true ->
  periodic k (UserTimer a) = false ->
  timeout_func (timers k (UserTimer a)) = user_timeout_fn na -> timeout_func (timers k (UserTimer b)) = user_timeout_fn nb ->
  (forall k, user_timeout na k = Some (rt_timer_stop k (UserTimer b)).1) ->
  exists k', soft_round user_timeout (rt_tick k, Some (UserTimer a), k) = Some (inr (rt_tick k, Some (UserTimer b), k')) /\
    rt_tick k' = rt_tick k /\ astray b nb k'.
Proof.
  intros Hok Hlock El Hda Hdb Hp Hfa Hfb Hstop. pose proof Hok as [K1 K2 K3 K4 K5 K6 K7]. rewrite El in K3, K4.
  set (xa := UserTimer a) in *. set (xb := UserTimer b) in *.
  assert (Hab : xb <> xa) by (intros E; rewrite E in K3; apply NoDup_cons in K3 as [K3 _]; apply K3; left).
  destruct (K4 xb) as (_ & _ & Hbh & _ & Hbact & _); [right; left|].
  assert (Es : filter (fun y => y <> xa) (rt_soft_timer_list k) = xb :: l) by (rewrite El; exact (filter_head_out xa _ K3)).
  assert (Hthr : forall t, ThreadTimer t ∉ xb :: l).
  { intros t Ht. destruct (K4 (ThreadTimer t)) as ((q & Hq) & _); [right; exact Ht | discriminate]. }
  destruct (exit_enter_ok a k K1 K2 Hlock) as (k' & Ee & Hok' & Hc' & Hl' & Et' & Eti' & Es' & Eh' & Haw).
  { fold xa. rewrite Es. exact Hthr. }
  fold xa in Ee, Es', Eh'. rewrite Es in Es'.
  set (k1 := (rt_timer_stop k' xb).1).
  assert (E1 : k1 = set_timer (_rt_timer_remove k' xb) xb (fun t => t <| flag := clear_bits (flag t) RT_TIMER_FLAG_ACTIVATED |>)).
  { unfold k1, rt_timer_stop. rewrite Eti', Hbact. reflexivity. }
  assert (Hnd : NoDup (xb :: l)) by (apply NoDup_cons in K3; tauto).
  assert (Es1 : rt_soft_timer_list k1 = l).
  { rewrite E1. change (filter (fun y => y <> xb) (rt_soft_timer_list k') = l). rewrite Es'. exact (filter_head_out xb l Hnd). }
  assert (Hbh1 : xb ∉ rt_timer_list k1).
  { rewrite E1. change (xb ∉ filter (fun y => y <> xb) (rt_timer_list k')). intros Hx. apply list_elem_of_filter in Hx. tauto. }
  assert (Tb : timers k1 xb = timers k xb <| flag := clear_bits (flag (timers k xb)) RT_TIMER_FLAG_ACTIVATED |>).
  { rewrite E1. cbn [set_timer timers modify]. rewrite upd_same. change (timers (_rt_timer_remove k' xb)) with (timers k'). rewrite Eti'. reflexivity. }
  assert (To : forall y, y <> xb -> timers k1 y = timers k y).
  { intros y Hy. rewrite E1. cbn [set_timer timers modify]. rewrite upd_other by exact Hy. change (timers (_rt_timer_remove k' xb)) with (timers k'). rewrite Eti'. reflexivity. }
  assert (Hok1 : kernel_ok (rt_tick k1) k1).
  { replace (rt_tick k1) with (rt_tick k') by (rewrite E1; reflexivity). apply (user_timer_ok (rt_tick k') k' k1 b); auto.
    - rewrite E1. split; reflexivity.
    - intros y Hy. rewrite To, Eti' by exact Hy. reflexivity.
    - rewrite E1. reflexivity.
    - rewrite Es1. intros t Ht. apply (Hthr t). right. exact Ht. }
  set (k2 := set_timer (rt_enter_critical k1) xa (fun t => t <| flag := clear_bits (flag t) RT_TIMER_FLAG_ACTIVATED |>)).
  assert (T2 : timers k2 xb = timers k1 xb).
  { unfold k2. cbn [set_timer timers modify]. rewrite upd_other by exact Hab. reflexivity. }
  assert (Et1 : rt_tick k1 = rt_tick k) by (rewrite E1; exact Et').
  exists k2. split_ands; [|exact Et1|].
  - unfold soft_round. rewrite Hda. unfold next_node. rewrite El. cbn [after]. rewrite decide_True by reflexivity. cbn [head].
    unfold soft_fire. rewrite Ee. cbn [mbind option_bind]. unfold timer_fire. rewrite Eti', Hfa, Hstop. fold k1.
    cbn [mbind option_bind]. cbv zeta. change (timers (rt_enter_critical k1) xa) with (timers k1 xa).
    rewrite (To xa) by congruence. unfold periodic in Hp. rewrite Hp. cbn [andb mbind option_bind].
    change (rt_tick_get (set_timer (rt_enter_critical k1) xa _)) with (rt_tick k1). rewrite Et1. reflexivity.
  - split.
    + change (kernel_ok (rt_tick k1) k2). apply (user_timer_ok (rt_tick k1) (rt_enter_critical k1) k2 a).
      * apply lock_ok. exact Hok1.
      * split; reflexivity.
      * intros y Hy. unfold k2. cbn [set_timer timers modify]. rewrite upd_other by exact Hy. reflexivity.
      * symmetry. apply (filter_not_in (UserTimer a) (rt_timer_list k1)). rewrite E1.
        change (xa ∉ filter (fun y => y <> xb) (rt_timer_list k')). rewrite Eh'. intros Hx.
        apply list_elem_of_filter in Hx as [_ Hx]. apply list_elem_of_filter in Hx. tauto.
      * change (rt_soft_timer_list k2) with (rt_soft_timer_list k1). rewrite Es1. intros t Ht. apply (Hthr t). right. exact Ht.
    + change (exists c, rt_current_thread k1 = Some c). rewrite E1. exact Hc'.
    + change (s16 (rt_scheduler_lock_nest k1 + 1) = 1). rewrite E1.
      change (rt_scheduler_lock_nest (set_timer (_rt_timer_remove k' xb) xb _)) with (rt_scheduler_lock_nest k'). rewrite Hl'. reflexivity.
    + fold xb. change (rt_soft_timer_list k2) with (rt_soft_timer_list k1). rewrite Es1. apply NoDup_cons in Hnd. tauto.
    + fold xb. rewrite T2, Tb. exact Hfb.
    + fold xb. rewrite T2, Tb. apply (clear_has_same (flag (timers k xb)) RT_TIMER_FLAG_ACTIVATED).
    + change (thread_stat (threads k1 (timer_thread k1)) <> RT_THREAD_SUSPEND). rewrite E1. exact (Haw K7).
    + fold xb. change (rt_tick k2) with (rt_tick k1). unfold due in *. rewrite T2, Tb, Et1. exact Hdb.
Qed.

(** C39: A soft timer whose function stops the next soft timer, when both are due, hangs the timer thread: the walk
    keeps its pointer to the stopped timer, whose node points to itself, so round after round calls the function
    of the timer that was stopped, and the check never returns. *)
Theorem soft_stop_spins base k a b l na nb :
  soft_ok base k -> rt_scheduler_lock_nest k = 0 -> rt_soft_timer_list k = UserTimer a :: UserTimer b :: l ->
  due (rt_tick k) k (UserTimer a) = true -> due (rt_tick k) k (UserTimer b) = true ->
  periodic k (UserTimer a) = false ->
  timeout_func (timers k (UserTimer a)) = user_timeout_fn na -> timeout_func (timers k (UserTimer b)) = user_timeout_fn nb ->
  (forall k, user_timeout na k = Some (rt_timer_stop k (UserTimer b)).1) ->
  quiet (user_timeout nb) ->
  (forall i, exists k', rounds (S i) (rt_tick k, head (rt_soft_timer_list k), rt_enter_critical k) =
       Some (inr (rt_tick k, Some (UserTimer b), k')) /\ astray b nb k') /\
  (forall fuel, rt_soft_timer_check user_timeout fuel k = None).
Proof.
  intros Hok Hlock El Hda Hdb Hp Hfa Hfb Hstop Hcalm. set (k0 := rt_enter_critical k).
  assert (Hl0 : rt_scheduler_lock_nest k0 = 1) by (change (s16 (rt_scheduler_lock_nest k + 1) = 1); rewrite Hlock; reflexivity).
  destruct (stop_leads_astray base k0 a b l na nb (enter_critical_ok base k Hok) Hl0 El Hda Hdb Hp Hfa Hfb Hstop)
    as (k1 & E1 & Et1 & Has1). change (rt_tick k0) with (rt_tick k) in *.
  assert (Hall : forall i, exists k', rounds (S i) (rt_tick k, head (rt_soft_timer_list k), k0) =
    Some (inr (rt_tick k, Some (UserTimer b), k')) /\ rt_tick k' = rt_tick k /\ astray b nb k').
  { rewrite El. cbn [head]. induction i as [|i (k' & Ei & Et & Has)].
    - exists k1. split; [|auto]. cbn [rounds]. rewrite E1. reflexivity.
    - destruct (astray_round b nb k' Hcalm Has) as (k2 & E2 & Et2 & Has2). exists k2.
      split; [|split; [congruence | exact Has2]]. rewrite (rounds_last (S i) _ _ Ei), <- Et, E2. reflexivity. }
  split.
  - intros i. destruct (Hall i) as (k' & E & _ & Has). eauto.
  - intros [|fuel]; unfold rt_soft_timer_check; [reflexivity|]. fold k0.
    destruct (Hall fuel) as (k' & E & _). change (rt_soft_timer_list k0) with (rt_soft_timer_list k).
    change (rt_tick_get k) with (rt_tick k). rewrite (rounds_loop _ _ _ E). reflexivity.
Qed.
End Spin.

(** ** The wait of the timer thread *)

(** The timer thread sleeps exactly until the first soft timer is due, or not at all when one is due already;
    without soft timers it suspends itself until one is started.  But a soft timer due at tick 0xFFFFFFFF looks
    like no timer: the thread suspends itself without a deadline. *)
Theorem timer_thread_waits k c :
  kernel_ok (rt_tick k) k -> rt_current_thread k = Some c -> thread_stat (threads k c) = RT_THREAD_RUNNING ->
  match rt_soft_timer_list k with
  | x :: _ =>
      let d := timeout_tick (timers k x) in
      d <> RT_TICK_MAX ->
      if u32 (d - rt_tick k) <? RT_TICK_HALF
      then exists k', timer_thread_wait k = Some (k', true) /\ waiting k k' c (Some (u32 (rt_tick k + u32 (d - rt_tick k))))
      else timer_thread_wait k = Some (k, false)
  | [] => True
  end /\
  (match rt_soft_timer_list k with x :: _ => timeout_tick (timers k x) = RT_TICK_MAX | [] => True end ->
   exists k', timer_thread_wait k = Some (k', true) /\ kernel_ok (rt_tick k') k' /\
     thread_stat (threads k' c) = RT_THREAD_SUSPEND /\ (ThreadTimer c ∉ rt_timer_list k')).
Proof.
  intros Hok Hc Hrun. split.
  - destruct (rt_soft_timer_list k) as [|x l] eqn:El; [exact I|]. intros d Hd. unfold timer_thread_wait. rewrite El.
    cbn [rt_timer_list_next_timeout]. fold d. destruct (Z.eqb_spec d RT_TICK_MAX); [contradiction|]. unfold rt_tick_get.
    destruct (Z.ltb_spec (u32 (d - rt_tick k)) RT_TICK_HALF) as [Hlt|]; [|reflexivity].
    destruct (sleep_spec k c (u32 (d - rt_tick k)) Hok Hc Hrun) as (k' & E & Hw & _).
    { split; [apply u32_range | exact Hlt]. }
    exists k'. unfold rt_thread_delay_begin. rewrite E. auto.
  - intros Hmax. unfold timer_thread_wait.
    assert (Em : rt_timer_list_next_timeout k (rt_soft_timer_list k) = RT_TICK_MAX) by (destruct (rt_soft_timer_list k); auto).
    rewrite Em, Z.eqb_refl. unfold rt_thread_self. rewrite Hc. cbn [mbind option_bind].
    destruct (suspend_spec (rt_tick k) k c Hok (or_intror Hrun)) as (k1 & -> & Hok1 & Hot & Et & Hu & Hll & Hnt).
    cbn [mbind option_bind]. destruct Hot as [F1 F2 _ _ _ _ _ _].
    destruct (schedule_kernel_ok (rt_tick k) k1 c Hok1) as (k' & c' & -> & Hok' & Hf & _); [congruence|].
    exists k'. split; [reflexivity|]. split_ands.
    + rewrite (sf_tick _ _ Hf), F1. exact Hok'.
    + apply (frame_suspended k1 k' c Hf). rewrite Et. apply thread_stat_suspend.
    + rewrite (sf_timer_list _ _ Hf). exact Hnt.
Qed.

(** ** A small system with soft timers: 1 is one-shot, 2 is periodic, 3 is due later *)

Definition demo_soft : Kernel :=
  demo <| rt_soft_timer_list := [UserTimer 1; UserTimer 2; UserTimer 3] |>
       <| timers := fun x => match x with
                             | UserTimer 1 => mkTimer 5 (user_timeout_fn 1) 20 990
                             | UserTimer 2 => mkTimer 7 (user_timeout_fn 2) 30 1000
                             | UserTimer 3 => mkTimer 5 (user_timeout_fn 3) 40 1010
                             | x => timers demo x
                             end |>.

Lemma demo_soft_ok : soft_ok 900 demo_soft.
Proof.
  split.
  - destruct demo_ok as [[[Hn Ho] [Hr Hb] Hth] [T1 T2 T3 T4 T5 T6]]. split; [split; [split|split|]|split]; auto.
    + intros t. apply (thread_ok_same demo); auto.
    + intros t Ht. change (ThreadTimer t ∈ [UserTimer 1; UserTimer 2; UserTimer 3]) in Ht.
      rewrite !elem_of_cons, elem_of_nil in Ht. destruct Ht as [|[|[|[]]]]; discriminate.
    + eapply timers_sorted_ext; [|exact T6]. intros x ->%list_elem_of_singleton. reflexivity.
  - exists 0%nat. reflexivity.
  - repeat constructor; rewrite ?elem_of_cons, ?elem_of_nil; intuition discriminate.
  - intros x Hx. change (x ∈ [UserTimer 1; UserTimer 2; UserTimer 3]) in Hx. rewrite !elem_of_cons, elem_of_nil in Hx.
    destruct Hx as [->|[->|[->|[]]]]; (split_ands; [eexists; reflexivity | eexists; reflexivity | | reflexivity..]);
      intros Hx%list_elem_of_singleton; discriminate.
  - split; repeat constructor; vm_compute; discriminate.
  - reflexivity.
  - discriminate.
Qed.

Lemma quiet_identity : quiet Some.
Proof. intros k (H1 & H2 & H3 & H4). exists k. split; [reflexivity|]. split; auto. Qed.

Lemma soft_check_fires_due_witness :
  due_timers demo_soft = [UserTimer 1; UserTimer 2] /\
  exists k', rt_soft_timer_check (fun _ => Some) 5 demo_soft = Some k' /\ (UserTimer 1 ∉ rt_soft_timer_list k') /\
    timeout_tick (timers k' (UserTimer 2)) = 1030.
Proof.
  assert (Ed : due_timers demo_soft = [UserTimer 1; UserTimer 2]) by (vm_compute; reflexivity).
  split; [exact Ed|].
  destruct (soft_check_fires_due (fun _ => Some) 900 demo_soft 5 (fun _ => quiet_identity) demo_soft_ok eq_refl)
    as (k' & k1 & E & _ & _ & _ & _ & _ & _ & Hl & _ & Hf & _); [rewrite Ed; cbn; lia|].
  exists k'. split_ands; [exact E| |].
  - intros Hx. apply Hl in Hx as [_ [Hx|Hx]]; vm_compute in Hx; discriminate.
  - specialize (Hf (UserTimer 2)). rewrite Ed in Hf. apply Hf. right. left.
Defined.

Lemma soft_stop_spins_witness :
  rt_soft_timer_check (fun n k => if (n =? 1)%nat then Some (rt_timer_stop k (UserTimer 2)).1 else Some k) 1000 demo_soft = None.
Proof.
  apply (soft_stop_spins (fun n k => if (n =? 1)%nat then Some (rt_timer_stop k (UserTimer 2)).1 else Some k)
    900 demo_soft 1 2 [UserTimer 3] 1 2 demo_soft_ok); try reflexivity.
  exact quiet_identity.
Defined.

(** Tick 1000: the first soft timer of [demo_soft] is late, so nobody waits. *)
Lemma timer_thread_waits_witness :
  timer_thread_wait demo_soft = Some (demo_soft, false) /\
  exists k', timer_thread_wait demo = Some (k', true) /\ thread_stat (threads k' 0) = RT_THREAD_SUSPEND.
Proof.
  split.
  - destruct (timer_thread_waits demo_soft 0 (sk_kernel _ _ demo_soft_ok) eq_refl eq_refl) as [H _].
    apply H. discriminate.
  - destruct (timer_thread_waits demo 0 demo_ok eq_refl eq_refl) as [_ H]. destruct (H I) as (k' & E & _ & Hs & _).
    exists k'. auto.
Defined.
