(* ===== verification/Ipc.v ===== *)
(** Waiting for IPC objects (the common part of src/rt-thread/src/ipc.c) and
    semaphores.  The wait list of object [s] is the kernel list [SemWait s]. *)

From S2P Require Import Prelude Kernel Scheduler Timer Thread Tick.

(** ** Wait lists *)

Definition RT_IPC_FLAG_FIFO : Z := 0.
Definition RT_IPC_FLAG_PRIO : Z := 1.
Definition RT_IPC_CMD_RESET : Z := 1.

(** [rt_ipc_object_init]: an empty wait list. *)
Definition rt_ipc_object_init (k : Kernel) (l : list_head) : Kernel :=
  k <| lists := upd (lists k) l [] |>.

(** The search for the place of a thread of priority [p] behind the threads of
    the same priority. *)
Fixpoint prio_insert (prio_of : nat -> Z) (p : Z) (t : nat) (l : list nat) : list nat :=
  match l with
  | [] => [t]
  | sthread :: l' => if p <? prio_of sthread then t :: l else sthread :: prio_insert prio_of p t l'
  end.

Definition wait_list_insert (k : Kernel) (l : list_head) (t : nat) (flag : Z) : Kernel :=
  if flag =? RT_IPC_FLAG_FIFO then tlist_insert_before k l t
  else if flag =? RT_IPC_FLAG_PRIO then
    k <| lists := upd (lists k) l
           (prio_insert (fun u => current_priority (threads k u)) (current_priority (threads k t)) t (lists k l)) |>
  else k.

(** The answer of [rt_thread_suspend] is ignored. *)
Definition rt_ipc_list_suspend (k : Kernel) (l : list_head) (t : nat) (flag : Z) : option Kernel :=
  '(k, _) ← rt_thread_suspend k t;
  Some (wait_list_insert k l t flag).

Definition rt_ipc_list_resume (k : Kernel) (l : list_head) : option Kernel :=
  match lists k l with
  | [] => None
  | t :: _ => '(k, _) ← rt_thread_resume k t; Some k
  end.

(** The loop has one round for each waiting thread. *)
Fixpoint resume_all_loop (fuel : nat) (k : Kernel) (l : list_head) : option Kernel :=
  match lists k l with
  | [] => Some k
  | t :: _ =>
      match fuel with
      | O => None
      | S fuel =>
          let k := set_thread k t (fun th => th <| error := - RT_ERROR |>) in
          '(k, _) ← rt_thread_resume k t;
          resume_all_loop fuel k l
      end
  end.
Definition rt_ipc_list_resume_all (k : Kernel) (l : list_head) : option Kernel :=
  resume_all_loop (length (lists k l)) k l.

(** [RT_DEBUG_IN_THREAD_CONTEXT]: a thread runs and no interrupt is served. *)
Definition in_thread_context (k : Kernel) : bool :=
  match rt_thread_self k with Some _ => rt_interrupt_nest k =? 0 | None => false end.

(** The outcome of a call: it returns, or the thread waits. *)
Inductive outcome := Returns (e : Z) | Waits.

(** The wait of a blocking call, up to and including [rt_schedule]. *)
Definition ipc_wait (k : Kernel) (l : list_head) (t : nat) (flag time : Z) : option Kernel :=
  k ← rt_ipc_list_suspend k l t flag;
  k ← (if 0 <? time then start_thread_timer k t time else Some k);
  rt_schedule k.

(** ** Semaphores *)

Record Sem := mkSem { value : Z (* rt_uint16_t *); sem_flag : Z }.
#[export] Instance Sem_rebuild : Rebuild Sem := fun s => mkSem (value s) (sem_flag s).

Definition rt_sem_init (k : Kernel) (s : nat) (v flag : Z) : option (Kernel * Sem * Z) :=
  if negb (v <? 65536) then None
  else Some (rt_ipc_object_init k (SemWait s), mkSem (u16 v) flag, RT_EOK).

Definition rt_sem_detach (k : Kernel) (s : nat) (sem : Sem) : option (Kernel * Z) :=
  k ← rt_ipc_list_resume_all k (SemWait s); Some (k, RT_EOK).
Definition rt_sem_delete (k : Kernel) (s : nat) (sem : Sem) : option (Kernel * Z) :=
  if negb (rt_interrupt_nest k =? 0) then None
  else k ← rt_ipc_list_resume_all k (SemWait s); Some (k, RT_EOK).

Definition rt_sem_take (k : Kernel) (s : nat) (sem : Sem) (time : Z) : option (Kernel * Sem * outcome) :=
  if 0 <? value sem then Some (k, sem <| value := u16 (value sem - 1) |>, Returns RT_EOK)
  else if time =? 0 then Some (k, sem, Returns (- RT_ETIMEOUT))
  else if negb (in_thread_context k) then None
  else
    t ← rt_thread_self k;
    let k := set_thread k t (fun th => th <| error := RT_EOK |>) in
    k ← ipc_wait k (SemWait s) t (sem_flag sem) time;
    Some (k, sem, Waits).
(** What the call returns when the thread runs again. *)
Definition rt_sem_take_end (k : Kernel) (t : nat) : Z := error (threads k t).

Definition rt_sem_trytake (k : Kernel) (s : nat) (sem : Sem) : option (Kernel * Sem * outcome) :=
  rt_sem_take k s sem 0.

Definition rt_sem_release (k : Kernel) (s : nat) (sem : Sem) : option (Kernel * Sem * Z) :=
  match lists k (SemWait s) with
  | _ :: _ =>
      k ← rt_ipc_list_resume k (SemWait s);
      k ← rt_schedule k;
      Some (k, sem, RT_EOK)
  | [] => Some (k, sem <| value := u16 (value sem + 1) |>, RT_EOK)
  end.

Definition rt_sem_control (k : Kernel) (s : nat) (sem : Sem) (cmd arg : Z) : option (Kernel * Sem * Z) :=
  if cmd =? RT_IPC_CMD_RESET then
    k ← rt_ipc_list_resume_all k (SemWait s);
    let sem := sem <| value := u16 arg |> in
    k ← rt_schedule k;
    Some (k, sem, RT_EOK)
  else Some (k, sem, - RT_ERROR).

(** ** Lemmas on waiting *)

Lemma prio_insert_elem prio_of p t l u : u ∈ prio_insert prio_of p t l <-> u = t \/ u ∈ l.
Proof.
  induction l as [|a l IH]; cbn [prio_insert].
  - rewrite list_elem_of_singleton. split; [auto|intros [H|H]; [exact H|inversion H]].
  - destruct (_ <? _); rewrite ?elem_of_cons, ?IH; tauto.
Qed.

Lemma prio_insert_nodup prio_of p t l : t ∉ l -> NoDup l -> NoDup (prio_insert prio_of p t l).
Proof.
  induction l as [|a l IH]; cbn [prio_insert]; intros Hx Hn.
  - apply NoDup_singleton.
  - rewrite NoDup_cons in Hn. rewrite not_elem_of_cons in Hx. destruct Hn, Hx.
    destruct (_ <? _); apply NoDup_cons.
    + split; [rewrite not_elem_of_cons; tauto|]. apply NoDup_cons. split; assumption.
    + split; [|apply IH; assumption]. rewrite prio_insert_elem. intros [->|]; tauto.
Qed.

(** Behind every thread of the same or a higher priority, before the others. *)
Lemma prio_insert_place prio_of p t l :
  exists l1 l2, l = l1 ++ l2 /\ prio_insert prio_of p t l = l1 ++ t :: l2 /\
    Forall (fun u => prio_of u <= p) l1 /\ match l2 with [] => True | u :: _ => p < prio_of u end.
Proof.
  induction l as [|a l (l1 & l2 & -> & E & H1 & H2)]; cbn [prio_insert].
  - exists [], []. auto.
  - destruct (Z.ltb_spec p (prio_of a)).
    + exists [], (a :: l1 ++ l2). auto.
    + exists (a :: l1), l2. rewrite E. repeat split; auto. 
Qed.

Definition enqueued (flag : Z) (prio_of : nat -> Z) (t : nat) (l : list nat) : list nat :=
  if flag =? RT_IPC_FLAG_FIFO then l ++ [t]
  else if flag =? RT_IPC_FLAG_PRIO then prio_insert prio_of (prio_of t) t l
  else l.

Lemma enqueued_prio_ext flag f g t l : (forall u, f u = g u) -> enqueued flag f t l = enqueued flag g t l.
Proof.
  intros E. unfold enqueued. destruct (_ =? _); [reflexivity|]. destruct (_ =? _); [|reflexivity]. rewrite E.
  induction l as [|a l IH]; cbn [prio_insert]; [reflexivity|]. rewrite E, IH. reflexivity.
Qed.

Lemma wait_list_insert_eq k l t flag l' :
  lists (wait_list_insert k l t flag) l' =
    if decide (l' = l) then enqueued flag (fun u => current_priority (threads k u)) t (lists k l) else lists k l'.
Proof.
  unfold wait_list_insert, enqueued. destruct (flag =? RT_IPC_FLAG_FIFO); [|destruct (flag =? RT_IPC_FLAG_PRIO)].
  - cbn. unfold upd. reflexivity.
  - cbn. unfold upd. reflexivity.
  - destruct (decide _) as [->|]; reflexivity.
Qed.

Lemma wait_list_insert_same k l t flag :
  let k' := wait_list_insert k l t flag in
  rt_tick k' = rt_tick k /\ threads k' = threads k /\ timers k' = timers k /\
  rt_timer_list k' = rt_timer_list k /\ rt_soft_timer_list k' = rt_soft_timer_list k /\
  rt_thread_ready_priority_group k' = rt_thread_ready_priority_group k /\
  rt_current_thread k' = rt_current_thread k /\ rt_scheduler_lock_nest k' = rt_scheduler_lock_nest k /\
  rt_interrupt_nest k' = rt_interrupt_nest k.
Proof.
  unfold wait_list_insert. destruct (flag =? RT_IPC_FLAG_FIFO); [|destruct (flag =? RT_IPC_FLAG_PRIO)];
    repeat split; reflexivity.
Qed.

Lemma enqueued_elem flag prio_of t l u : u ∈ enqueued flag prio_of t l -> u = t \/ u ∈ l.
Proof.
  unfold enqueued. destruct (_ =? _); [|destruct (_ =? _)].
  - rewrite elem_of_app, list_elem_of_singleton. tauto.
  - rewrite prio_insert_elem. auto.
  - auto.
Qed.

Lemma enqueued_old flag prio_of t l u : u ∈ l -> u ∈ enqueued flag prio_of t l.
Proof.
  unfold enqueued. destruct (_ =? _); [|destruct (_ =? _)].
  - rewrite elem_of_app. tauto.
  - rewrite prio_insert_elem. auto.
  - auto.
Qed.

Lemma enqueued_nodup flag prio_of t l : t ∉ l -> NoDup l -> NoDup (enqueued flag prio_of t l).
Proof.
  unfold enqueued. destruct (_ =? _); [|destruct (_ =? _)]; intros H Hn; [|apply prio_insert_nodup; assumption|exact Hn].
  apply NoDup_app. split; [exact Hn|]. split; [|apply NoDup_singleton].
  intros x Hx ->%list_elem_of_singleton. contradiction.
Qed.

(** [k'] is [k] with thread [t] put into the list [l], which becomes [L]. *)
Record inserted (k k' : Kernel) (l : list_head) (t : nat) (L : list nat) : Prop := {
  in_same : rt_tick k' = rt_tick k /\ threads k' = threads k /\ timers k' = timers k /\
    rt_timer_list k' = rt_timer_list k /\ rt_soft_timer_list k' = rt_soft_timer_list k /\
    rt_thread_ready_priority_group k' = rt_thread_ready_priority_group k /\
    rt_current_thread k' = rt_current_thread k /\ rt_scheduler_lock_nest k' = rt_scheduler_lock_nest k /\
    rt_interrupt_nest k' = rt_interrupt_nest k;
  in_lists : forall l', lists k' l' = if decide (l' = l) then L else lists k l';
  in_elem : forall u, u ∈ L -> u = t \/ u ∈ lists k l;
  in_old : forall u, u ∈ lists k l -> u ∈ L;
  in_nodup : t ∉ lists k l -> NoDup (lists k l) -> NoDup L;
}.

Lemma wait_list_inserted k l t flag :
  inserted k (wait_list_insert k l t flag) l t
    (enqueued flag (fun u => current_priority (threads k u)) t (lists k l)).
Proof.
  split.
  - apply wait_list_insert_same.
  - apply wait_list_insert_eq.
  - apply enqueued_elem.
  - apply enqueued_old.
  - apply enqueued_nodup.
Qed.

Lemma front_inserted k l t : inserted k (tlist_insert_after k l t) l t (t :: lists k l).
Proof.
  split; [split_ands; reflexivity|reflexivity| | |].
  - intros u [H|H]%elem_of_cons; auto.
  - intros u H. right. exact H.
  - intros H1 H2. apply NoDup_cons. auto.
Qed.

Lemma inserted_ok base k k' l t L :
  kernel_ok base k -> thread_stat (threads k t) = RT_THREAD_SUSPEND -> unlinked k t -> is_wait l = true ->
  inserted k k' l t L -> kernel_ok base k'.
Proof.
  intros [[[Hn Ho] [Hr Hb] Hth] Ht] Hst Hu Hl [(E1 & E2 & E3 & E4 & E5 & E6 & E7 & _) Hlists Helem Hold Hnd].
  assert (M : forall u l', u <> t -> u ∈ lists k' l' <-> u ∈ lists k l').
  { intros u l' Hne. rewrite Hlists. destruct (decide (l' = l)) as [->|]; [|reflexivity].
    split; [intros [->|H]%Helem; [contradiction|exact H]|apply Hold]. }
  assert (Mt : forall l', t ∈ lists k' l' -> l' = l).
  { intros l'. rewrite Hlists. destruct (decide (l' = l)); [auto|]. intros H. destruct (Hu _ H). }
  split; [split; [split|split|]|].
  - intros l'. rewrite Hlists. destruct (decide (l' = l)) as [->|]; [|apply Hn]. apply Hnd; [apply Hu|apply Hn].
  - intros u l1 l2 H1 H2. destruct (decide (u = t)) as [->|Hne].
    + apply Mt in H1, H2. congruence.
    + rewrite M in H1, H2 by exact Hne. eapply Ho; eauto.
  - rewrite E6. exact Hr.
  - intros p Hp. rewrite E6, Hlists, decide_False by (intros <-; discriminate Hl). apply Hb, Hp.
  - intros u. destruct (decide (u = t)) as [->|Hne].
    + destruct (Hth t) as [H1 H2 H3 H4 H5]. split; rewrite E2, ?E7; auto.
      * intros l' Hin. apply Mt in Hin as ->. destruct l; try discriminate Hl; exact Hst.
      * intros H. rewrite Hst in H. discriminate.
    + apply (thread_ok_same k); [rewrite E2; reflexivity|intros l'; apply M, Hne|rewrite E7; reflexivity|apply Hth].
  - apply (timers_ok_threads base k); auto. intros u _. rewrite E2. reflexivity.
Qed.

(** The other wait lists are as before. *)
Definition other_waits (k k' : Kernel) (l : list_head) : Prop :=
  forall l', is_wait l' = true -> l' <> l -> lists k' l' = lists k l'.

(** The running thread suspends itself and is put into the wait list [l], which
    becomes [L]. *)
Record queued (base : Z) (k k' : Kernel) (l : list_head) (c : nat) (L : list nat) : Prop := {
  qd_ok : kernel_ok base k';
  qd_tick : rt_tick k' = rt_tick k;
  qd_current : rt_current_thread k' = Some c;
  qd_lock : rt_scheduler_lock_nest k' = rt_scheduler_lock_nest k;
  qd_thread : threads k' c = with_stat RT_THREAD_SUSPEND (threads k c);
  qd_others : forall u, u <> c -> threads k' u = threads k u;
  qd_list : lists k' l = L;
  qd_lists : forall l', l' <> l -> lists k' l' = lists k l';
  qd_timer : ThreadTimer c ∉ rt_timer_list k';
}.

Lemma suspend_insert_spec base k l c (ins : Kernel -> Kernel) L :
  kernel_ok base k -> rt_current_thread k = Some c -> thread_stat (threads k c) = RT_THREAD_RUNNING ->
  is_wait l = true ->
  (forall k1, (forall l', lists k1 l' = lists k l') ->
     (forall u, current_priority (threads k1 u) = current_priority (threads k u)) -> inserted k1 (ins k1) l c L) ->
  exists k1 e, rt_thread_suspend k c = Some (k1, e) /\ queued base k (ins k1) l c L.
Proof.
  intros Hok Hc Hrun Hl Hins.
  pose proof (running_unlinked k c (so_threads _ (ko_sched _ _ Hok) c) Hrun) as Hu0.
  destruct (suspend_spec base k c Hok (or_intror Hrun)) as (k1 & E & Hok1 & Hot & Et & Hu & Hll & Hnt).
  eexists k1, _. split; [exact E|]. destruct Hot as [F1 F2 F3 F4 F5 F6 F7 F8].
  assert (Ell : forall l', lists k1 l' = lists k l') by (intros l'; rewrite Hll; apply filter_none, Hu0).
  assert (Ep : forall u, current_priority (threads k1 u) = current_priority (threads k u)).
  { intros u. destruct (decide (u = c)) as [->|Hne]; [rewrite Et|rewrite F5 by exact Hne]; reflexivity. }
  pose proof (Hins k1 Ell Ep) as Hi.
  pose proof Hi as [(E1 & E2 & E3 & E4 & E5 & E6 & E7 & E8 & E9) Hlists _ _ _].
  split; try congruence.
  - apply (inserted_ok base k1 _ l c L); auto. rewrite Et. apply thread_stat_suspend.
  - intros u Hne. rewrite E2. apply F5, Hne.
  - rewrite Hlists, decide_True by reflexivity. reflexivity.
  - intros l' Hne. rewrite Hlists, decide_False by exact Hne. apply Ell.
Qed.

Lemma list_suspend_spec base k l c flag :
  kernel_ok base k -> rt_current_thread k = Some c -> thread_stat (threads k c) = RT_THREAD_RUNNING ->
  is_wait l = true ->
  exists k', rt_ipc_list_suspend k l c flag = Some k' /\
    queued base k k' l c (enqueued flag (fun u => current_priority (threads k u)) c (lists k l)).
Proof.
  intros Hok Hc Hrun Hl. unfold rt_ipc_list_suspend.
  destruct (suspend_insert_spec base k l c (fun k => wait_list_insert k l c flag)
    (enqueued flag (fun u => current_priority (threads k u)) c (lists k l)) Hok Hc Hrun Hl) as (k1 & e & -> & Hq).
  - intros k1 Ell Ep. rewrite <- Ell, (enqueued_prio_ext _ _ (fun u => current_priority (threads k1 u)));
      [apply wait_list_inserted | intros u; symmetry; apply Ep].
  - eexists. split; [reflexivity | exact Hq].
Qed.

(** A positive [time] starts the thread's timer, a negative one waits for ever. *)
Definition deadline_of (k : Kernel) (time : Z) : option Z :=
  if 0 <? time then Some (u32 (rt_tick k + time)) else None.

(** What a wait leaves behind, the list being [L]. *)
Definition waits (k k' : Kernel) (l : list_head) (c : nat) (time : Z) (L : list nat) : Prop :=
  waiting k k' c (deadline_of k time) /\ lists k' l = L /\ other_waits k k' l /\
  (forall u, error (threads k' u) = error (threads k u) /\ event_set (threads k' u) = event_set (threads k u) /\
     event_info (threads k' u) = event_info (threads k u)).

(** The end of a wait: the timer is started and another thread runs. *)
Lemma queued_waits k k1 l c time L :
  queued (rt_tick k) k k1 l c L -> is_wait l = true -> time < RT_TICK_HALF ->
  exists k', (k ← (if 0 <? time then start_thread_timer k1 c time else Some k1); rt_schedule k) = Some k' /\
    waits k k' l c time L.
Proof.
  intros [Hok1 Ht1 Hc1 Hlk1 Et Eo El Elo Hnt] Hl Htime.
  assert (Hst1 : thread_stat (threads k1 c) = RT_THREAD_SUSPEND) by (rewrite Et; apply thread_stat_suspend).
  assert (Hmid : exists k2, (if 0 <? time then start_thread_timer k1 c time else Some k1) = Some k2 /\
      kernel_ok (rt_tick k) k2 /\ sched_same k1 k2 /\
      match deadline_of k time with
      | Some d => (ThreadTimer c ∈ rt_timer_list k2) /\ timeout_tick (timers k2 (ThreadTimer c)) = d
      | None => ThreadTimer c ∉ rt_timer_list k2
      end).
  { unfold deadline_of. destruct (Z.ltb_spec 0 time) as [Hpos|Hneg].
    - destruct (start_thread_timer_spec _ k1 c time (eq_sym Ht1) Hok1 Hst1 ltac:(lia)) as (k2 & -> & Hok2 & Hss & Hin & Hd & _).
      exists k2. rewrite Ht1 in Hd. split_ands; auto.
    - exists k1. split_ands; auto. split; reflexivity. }
  destruct Hmid as (k2 & -> & Hok2 & Hss & Htm). cbn [mbind option_bind].
  destruct Hss as [E1 E2 E3 E4 E5 E6 E7].
  destruct (schedule_kernel_ok _ k2 c Hok2) as (k3 & c' & -> & Hok3 & Hf & Hc' & Hb); [congruence|].
  exists k3. split; [reflexivity|]. split; [split|split; [|split]].
  - rewrite (sf_tick _ _ Hf), E1, Ht1. exact Hok3.
  - rewrite (sf_tick _ _ Hf). congruence.
  - apply (frame_suspended k2); [exact Hf|]. rewrite E2. exact Hst1.
  - rewrite (sf_timer_list _ _ Hf), (sf_timers _ _ Hf). exact Htm.
  - exists c'. split; [exact Hc'|]. intros H. apply Hb. congruence.
  - intros t. rewrite (frame_priority k2 k3 t Hf), E2. destruct (decide (t = c)) as [->|Hne];
      [rewrite Et|rewrite Eo by exact Hne]; reflexivity.
  - pose proof (sf_lists _ _ Hf l) as Hs. destruct l; try discriminate Hl; rewrite Hs, E3; exact El.
  - intros l' Hl' Hne. pose proof (sf_lists _ _ Hf l') as Hs.
    destruct l'; try discriminate Hl'; rewrite Hs, E3; apply Elo, Hne.
  - intros u. rewrite (sf_threads _ _ Hf u), E2. destruct (decide (u = c)) as [->|Hne];
      [rewrite Et|rewrite Eo by exact Hne]; repeat split.
Qed.

Lemma ipc_wait_spec k l c flag time :
  kernel_ok (rt_tick k) k -> rt_current_thread k = Some c -> thread_stat (threads k c) = RT_THREAD_RUNNING ->
  is_wait l = true -> time < RT_TICK_HALF ->
  exists k', ipc_wait k l c flag time = Some k' /\ waiting k k' c (deadline_of k time) /\
    lists k' l = enqueued flag (fun u => current_priority (threads k u)) c (lists k l) /\ other_waits k k' l /\
    (forall u, error (threads k' u) = error (threads k u) /\ event_set (threads k' u) = event_set (threads k u) /\
       event_info (threads k' u) = event_info (threads k u)).
Proof.
  intros Hok Hc Hrun Hl Htime. unfold ipc_wait.
  destruct (list_suspend_spec _ k l c flag Hok Hc Hrun Hl) as (k1 & -> & Hq). cbn [mbind option_bind].
  exact (queued_waits k k1 l c time _ Hq Hl Htime).
Qed.

(** ** Waking *)

Lemma wait_suspended k l t base :
  kernel_ok base k -> is_wait l = true -> t ∈ lists k l -> thread_stat (threads k t) = RT_THREAD_SUSPEND.
Proof.
  intros [[_ _ Ho] _] Hl Hin. pose proof (tk_list _ _ (Ho t) l Hin) as H. destruct l; try discriminate Hl; exact H.
Qed.

Lemma filter_absent k l l' t base :
  kernel_ok base k -> t ∈ lists k l -> l' <> l -> filter (fun u => u <> t) (lists k l') = lists k l'.
Proof.
  intros [[[_ Ho] _ _] _] Hin Hne. apply filter_none. intros H. apply Hne. eapply Ho; eauto.
Qed.

(** The first waiting thread is resumed. *)
Lemma list_resume_spec base k l t q :
  kernel_ok base k -> is_wait l = true -> lists k l = t :: q ->
  exists k', rt_ipc_list_resume k l = Some k' /\ kernel_ok base k' /\ only_thread t k k' /\
    awake k k' t (fun th => th) /\ lists k' l = q /\ other_waits k k' l /\ (ThreadTimer t ∉ rt_timer_list k').
Proof.
  intros Hok Hl Eq. unfold rt_ipc_list_resume. rewrite Eq.
  assert (Hin : t ∈ lists k l) by (rewrite Eq; left).
  destruct (resume_spec base k t Hok (wait_suspended k l t base Hok Hl Hin)) as (k' & -> & Hok' & Hot & Haw & Hnt).
  cbn [mbind option_bind]. exists k'. split; [reflexivity|]. split; [exact Hok'|]. split; [exact Hot|].
  split; [exact Haw|].
  assert (L : forall l', is_wait l' = true -> lists k' l' = filter (fun u => u <> t) (lists k l')).
  { intros l' Hl'. unfold awake in Haw. destruct (decide _); destruct Haw as [_ ->]; [reflexivity|].
    rewrite decide_False by (intros ->; discriminate Hl'). apply app_nil_r. }
  split; [|split; [|exact Hnt]].
  - rewrite L, Eq by exact Hl. apply filter_head. rewrite <- Eq. apply (so_lists _ (ko_sched _ _ Hok)).
  - intros l' Hl' Hne. rewrite L by exact Hl'. eapply filter_absent; eauto.
Qed.

Lemma awake_thread k k' t f : awake k k' t f ->
  (thread_stat (threads k' t) = RT_THREAD_READY \/ thread_stat (threads k' t) = RT_THREAD_RUNNING) /\
  threads k' t = f (threads k t) <| stat := stat (threads k' t) |>.
Proof.
  unfold awake. destruct (decide _); intros [-> _];
    (split; [rewrite thread_stat_with by (cbv; split; discriminate); auto|reflexivity]).
Qed.

(** Every thread waiting on [l] becomes ready with the error [-RT_ERROR]. *)
Lemma resume_all_spec base k l :
  kernel_ok base k -> is_wait l = true ->
  exists k', rt_ipc_list_resume_all k l = Some k' /\ kernel_ok base k' /\
    rt_tick k' = rt_tick k /\ rt_current_thread k' = rt_current_thread k /\
    rt_scheduler_lock_nest k' = rt_scheduler_lock_nest k /\
    lists k' l = [] /\ other_waits k k' l /\
    (forall t, t ∈ lists k l -> error (threads k' t) = - RT_ERROR /\
       (thread_stat (threads k' t) = RT_THREAD_READY \/ thread_stat (threads k' t) = RT_THREAD_RUNNING)) /\
    (forall t, t ∉ lists k l -> threads k' t = threads k t).
Proof.
  intros Hok Hl. unfold rt_ipc_list_resume_all.
  remember (lists k l) as q eqn:Eq. symmetry in Eq. revert k Hok Eq.
  induction q as [|t q IH]; intros k Hok Eq; cbn [length resume_all_loop].
  { exists k. rewrite Eq. split_ands; auto; [intros l' _ _; reflexivity|intros t H; inversion H]. }
  rewrite Eq. set (f := fun th => th <| error := - RT_ERROR |>).
  assert (Hok0 : kernel_ok base (set_thread k t f)) by (apply set_thread_inert_ok; [intros th; auto|exact Hok]).
  destruct (list_resume_spec base (set_thread k t f) l t q Hok0 Hl Eq) as (k1 & E1 & Hok1 & Hot & Haw & El & Hw & _).
  unfold rt_ipc_list_resume in E1. change (lists (set_thread k t f) l) with (lists k l) in E1. rewrite Eq in E1.
  destruct (rt_thread_resume (set_thread k t f) t) as [[k0 e]|]; [|discriminate]. cbn [mbind option_bind] in *.
  injection E1 as ->. destruct (IH k1 Hok1 El) as (k2 & -> & Hok2 & A1 & A2 & A3 & A4 & A5 & A6 & A7).
  destruct Hot as [F1 F2 F3 F4 F5 F6 F7 F8].
  assert (Hni : t ∉ q).
  { pose proof (lo_nodup _ (so_lists _ (ko_sched _ _ Hok)) l) as Hn. rewrite Eq in Hn. apply NoDup_cons in Hn. tauto. }
  exists k2. split_ands; auto; try congruence.
  - rewrite A1, F1. reflexivity.
  - rewrite A2, F2. reflexivity.
  - rewrite A3, F3. reflexivity.
  - intros l' Hl' Hne. rewrite A5, Hw by assumption. reflexivity.
  - intros u [->|Hu]%elem_of_cons.
    + rewrite A7 by exact Hni. destruct (awake_thread _ _ _ _ Haw) as [S E]. split; [|exact S].
      rewrite E, set_thread_threads. reflexivity.
    + apply A6, Hu.
  - intros u [Hne Hu]%not_elem_of_cons. rewrite A7 by exact Hu. rewrite F5 by exact Hne. apply set_thread_other, Hne.
Qed.

(** ** Semaphores: the functional behaviour *)

(** What the rest of the system may do to the waiters of [l]: only take some of
    them off (their time is over). *)
Record rest_step (l : list_head) (k k' : Kernel) : Prop := {
  rs_ok : kernel_ok (rt_tick k') k';
  rs_current : exists c', rt_current_thread k' = Some c';
  rs_waiters : lists k' l `sublist_of` lists k l;
  rs_info : forall t, t ∈ lists k' l -> wait_info (threads k' t) = wait_info (threads k t);
}.

Lemma sublist_filter {A} (P : A -> Prop) `{!forall x, Decision (P x)} (l : list A) : filter P l `sublist_of` l.
Proof.
  induction l as [|a l IH]; [constructor|]. rewrite filter_cons.
  destruct (decide (P a)); constructor; exact IH.
Qed.

(** The tick interrupt, when the application has no timers of its own. *)
Lemma tick_rest_step user fuel l k c :
  is_wait l = true -> kernel_ok (rt_tick k) k -> rt_current_thread k = Some c ->
  Forall is_thread_timer (rt_timer_list k) -> (length (rt_timer_list k) < fuel)%nat ->
  exists k', rt_tick_increase user fuel k = Some k' /\ rest_step l k k'.
Proof.
  intros Hl Hok Hc Hth Hfuel.
  destruct (split_due (rt_tick k) _ _ (to_sorted _ k (ko_timers _ _ Hok)) Hth) as (E & R & Hlist & HE & HR).
  pose proof Hfuel as Hf. rewrite Hlist, length_app, length_map in Hf.
  destruct (tick_increase_spec user fuel k c E R Hok Hc Hlist HE HR ltac:(lia)) as
    (k1 & c1 & E1 & Ht1 & Hok1 & Hl1 & Hc1 & Hd1 & Hto & Hnto & Hll & _).
  exists k1. split; [exact E1|]. split.
  - rewrite Ht1. exact Hok1.
  - exists c1. exact Hc1.
  - rewrite Hll by exact Hl. apply sublist_filter.
  - intros t Hin. rewrite Hll in Hin by exact Hl. apply list_elem_of_filter in Hin as [Hin _].
    apply Hnto, Hin.
Qed.

(** A thread that goes to sleep waits on no object. *)
Lemma sleep_rest_step l k c tick :
  is_wait l = true -> kernel_ok (rt_tick k) k -> rt_current_thread k = Some c ->
  thread_stat (threads k c) = RT_THREAD_RUNNING -> 0 <= tick < RT_TICK_HALF ->
  exists k', rt_thread_sleep_begin k tick = Some k' /\ rest_step l k k'.
Proof.
  intros Hl Hok Hc Hrun Htick.
  destruct (sleep_spec k c tick Hok Hc Hrun Htick) as (k' & E & Hw & Hu & Hll & Hel & _). exists k'.
  split; [exact E|]. destruct Hw as [W1 W2 W3 W4 (c' & W5 & _) W6]. split; [exact W1|eauto|..].
  - rewrite Hll by exact Hl. reflexivity.
  - intros t _. apply Hel.
Qed.

Lemma release_wakes k s sem c t q :
  kernel_ok (rt_tick k) k -> rt_current_thread k = Some c -> lists k (SemWait s) = t :: q ->
  exists k', rt_sem_release k s sem = Some (k', sem, RT_EOK) /\ kernel_ok (rt_tick k') k' /\
    (exists c', rt_current_thread k' = Some c' /\ (rt_scheduler_lock_nest k = 0 -> best_running k' c')) /\
    lists k' (SemWait s) = q /\ other_waits k k' (SemWait s) /\
    (thread_stat (threads k' t) = RT_THREAD_READY \/ thread_stat (threads k' t) = RT_THREAD_RUNNING) /\
    (forall u, error (threads k' u) = error (threads k u)).
Proof.
  intros Hok Hc Eq. unfold rt_sem_release. rewrite Eq.
  destruct (list_resume_spec _ k (SemWait s) t q Hok eq_refl Eq) as (k1 & -> & Hok1 & Hot & Haw & El & Hw & _).
  cbn [mbind option_bind]. destruct Hot as [F1 F2 F3 F4 F5 F6 F7 F8].
  destruct (schedule_kernel_ok _ k1 c Hok1) as (k2 & c' & -> & Hok2 & Hf & Hc' & Hb); [congruence|].
  cbn [mbind option_bind]. exists k2. split; [reflexivity|].
  destruct (awake_thread _ _ _ _ Haw) as [S E]. split_ands.
  - rewrite (sf_tick _ _ Hf), F1. exact Hok2.
  - exists c'. split; [exact Hc'|]. intros H. apply Hb. congruence.
  - rewrite (sf_lists _ _ Hf (SemWait s)). exact El.
  - intros l' Hl' Hne. pose proof (sf_lists _ _ Hf l') as Hs. destruct l'; try discriminate Hl'; rewrite Hs; apply Hw; auto.
  - destruct (sf_stat _ _ Hf t) as [->|[_ D]]; [exact S|exact D].
  - intros u. rewrite (sf_threads _ _ Hf u). destruct (decide (u = t)) as [->|Hne];
      [rewrite E|rewrite F5 by exact Hne]; reflexivity.
Qed.

Lemma take_waits k s sem c time :
  kernel_ok (rt_tick k) k -> rt_current_thread k = Some c -> thread_stat (threads k c) = RT_THREAD_RUNNING ->
  rt_interrupt_nest k = 0 -> value sem = 0 -> time <> 0 -> time < RT_TICK_HALF ->
  exists k', rt_sem_take k s sem time = Some (k', sem, Waits) /\
    waiting k k' c (deadline_of k time) /\
    lists k' (SemWait s) = enqueued (sem_flag sem) (fun u => current_priority (threads k u)) c (lists k (SemWait s)) /\
    other_waits k k' (SemWait s) /\
    error (threads k' c) = RT_EOK /\ (forall u, u <> c -> error (threads k' u) = error (threads k u)).
Proof.
  intros Hok Hc Hrun Hn Hv Ht Htime. unfold rt_sem_take. rewrite Hv, (proj2 (Z.eqb_neq _ _)) by exact Ht.
  change (0 <? 0) with false. cbv iota. unfold in_thread_context, rt_thread_self. rewrite Hc, Hn. cbn [Z.eqb negb mbind option_bind].
  set (k1 := set_thread k c (fun th => th <| error := RT_EOK |>)).
  assert (E1 : threads k1 c = threads k c <| error := RT_EOK |>) by (unfold k1; rewrite set_thread_threads; reflexivity).
  assert (E1o : forall u, u <> c -> threads k1 u = threads k u)
    by (intros u Hu; unfold k1; rewrite set_thread_other by exact Hu; reflexivity).
  assert (Hok1 : kernel_ok (rt_tick k1) k1) by (apply set_thread_inert_ok; [intros th; auto|exact Hok]).
  assert (Hrun1 : thread_stat (threads k1 c) = RT_THREAD_RUNNING) by (rewrite E1; exact Hrun).
  assert (Ep : forall u, current_priority (threads k1 u) = current_priority (threads k u)).
  { intros u. destruct (decide (u = c)) as [->|Hne]; [rewrite E1|rewrite E1o by exact Hne]; reflexivity. }
  destruct (ipc_wait_spec k1 (SemWait s) c (sem_flag sem) time Hok1 Hc Hrun1 eq_refl Htime) as (k2 & -> & Hw & El & How & He).
  cbn [mbind option_bind]. exists k2. split; [reflexivity|]. split; [|split; [|split; [|split]]].
  - destruct Hw as [W1 W2 W3 W4 W5 W6]. split; auto. intros t. rewrite W6. apply Ep.
  - rewrite El. apply enqueued_prio_ext, Ep.
  - exact How.
  - destruct (He c) as [-> _]. rewrite E1. reflexivity.
  - intros u Hne. destruct (He u) as [-> _]. rewrite E1o by exact Hne. reflexivity.
Qed.

(** ** A semaphore in use *)

(** The system around the semaphore [s]: its state, the number of releases and
    the number of takes that have succeeded (at once or by being woken). *)
Record sem_system := mkSemSystem {
  sy_kernel : Kernel;
  sy_sem : Sem;
  sy_released : Z;
  sy_granted : Z;
}.

Section SemSteps.
Variable s : nat.

Inductive sem_step : sem_system -> sem_system -> Prop :=
| step_take k sem r g time c k' sem' e :
    rt_current_thread k = Some c -> thread_stat (threads k c) = RT_THREAD_RUNNING -> time < RT_TICK_HALF ->
    rt_sem_take k s sem time = Some (k', sem', Returns e) ->
    sem_step (mkSemSystem k sem r g) (mkSemSystem k' sem' r (if e =? RT_EOK then g + 1 else g))
| step_take_waits k sem r g time c k' sem' :
    rt_current_thread k = Some c -> thread_stat (threads k c) = RT_THREAD_RUNNING -> time < RT_TICK_HALF ->
    rt_sem_take k s sem time = Some (k', sem', Waits) ->
    sem_step (mkSemSystem k sem r g) (mkSemSystem k' sem' r g)
| step_release k sem r g k' sem' :
    rt_sem_release k s sem = Some (k', sem', RT_EOK) ->
    sem_step (mkSemSystem k sem r g)
             (mkSemSystem k' sem' (r + 1) (match lists k (SemWait s) with [] => g | _ => g + 1 end))
| step_rest k sem r g k' :
    rest_step (SemWait s) k k' -> sem_step (mkSemSystem k sem r g) (mkSemSystem k' sem r g).

Record sem_inv (v : Z) (y : sem_system) : Prop := {
  si_ok : kernel_ok (rt_tick (sy_kernel y)) (sy_kernel y);
  si_current : exists c, rt_current_thread (sy_kernel y) = Some c;
  si_range : 0 <= value (sy_sem y) < 65536;
  si_granted : 0 <= sy_granted y;
  si_count : v + sy_released y < 65536 -> value (sy_sem y) + sy_granted y = v + sy_released y;
  si_waiters : v + sy_released y < 65536 -> 0 < value (sy_sem y) -> lists (sy_kernel y) (SemWait s) = [];
  si_error : forall t, t ∈ lists (sy_kernel y) (SemWait s) -> error (threads (sy_kernel y) t) = RT_EOK;
}.

Lemma sem_step_inv v y y' : sem_inv v y -> sem_step y y' -> sem_inv v y'.
Proof.
  intros [Hok [c Hc] Hr Hg Hn Hw He] Hstep. destruct Hstep as
    [k sem r g time c' k' sem' e Hc' Hrun Htime E|k sem r g time c' k' sem' Hc' Hrun Htime E|k sem r g k' sem' E|k sem r g k' [R1 R2 R3 R4]];
    cbn [sy_kernel sy_sem sy_released sy_granted] in *.
  - revert E. unfold rt_sem_take. destruct (Z.ltb_spec 0 (value sem)) as [Hv|Hv].
    + intros [= <- <- <-]. rewrite Z.eqb_refl.
      assert (Ev : value (sem <| value := u16 (value sem - 1) |>) = value sem - 1) by (apply u16_small; lia).
      split; cbn [sy_kernel sy_sem sy_released sy_granted]; rewrite ?Ev; eauto; try lia.
    + destruct (time =? 0); [|destruct (in_thread_context k); [|discriminate];
        destruct (rt_thread_self k); [|discriminate]; cbn [negb mbind option_bind];
        destruct (ipc_wait _ _ _ _ _); discriminate].
      intros [= <- <- <-]. change (- RT_ETIMEOUT =? RT_EOK) with false.
      split; cbn [sy_kernel sy_sem sy_released sy_granted]; eauto.
  - assert (c' = c) as -> by congruence.
    assert (Hpre : value sem = 0 /\ time <> 0 /\ rt_interrupt_nest k = 0).
    { revert E. unfold rt_sem_take, in_thread_context, rt_thread_self. rewrite Hc.
      destruct (Z.ltb_spec 0 (value sem)); [discriminate|]. destruct (Z.eqb_spec time 0); [discriminate|].
      destruct (Z.eqb_spec (rt_interrupt_nest k) 0); [|discriminate]. lia. }
    destruct Hpre as (Hv & Ht & Hin).
    destruct (take_waits k s sem c time Hok Hc Hrun Hin Hv Ht Htime) as (k2 & E2 & [W1 W2 W3 W4 (c2 & W5 & _) W6] & Hl & Ho & Hec & Heo).
    rewrite E in E2. injection E2 as -> ->.
    split; cbn [sy_kernel sy_sem sy_released sy_granted]; eauto.
    + lia.
    + intros t Hin'. rewrite Hl in Hin'. destruct (decide (t = c)) as [->|Hne]; [exact Hec|].
      apply enqueued_elem in Hin' as [->|Hin']; [contradiction|]. rewrite Heo by exact Hne. apply He, Hin'.
  - destruct (lists k (SemWait s)) as [|t q] eqn:Eq.
    + unfold rt_sem_release in E. rewrite Eq in E. injection E as <- <-.
      split; cbn [sy_kernel sy_sem sy_released sy_granted]; eauto.
      * apply u16_range.
      * intros Hlim. change (u16 (value sem + 1) + g = v + (r + 1)). rewrite u16_small; lia.
      * intros t Hin. rewrite Eq in Hin. inversion Hin.
    + destruct (release_wakes k s sem c t q Hok Hc Eq) as (k2 & E2 & Hok2 & (c2 & Hc2 & _) & Hl & Ho & _ & Her).
      rewrite E in E2. injection E2 as -> ->.
      assert (Hv : v + r < 65536 -> value sem = 0).
      { intros Hlim. destruct (Z.lt_ge_cases 0 (value sem)) as [H|H]; [|lia]. specialize (Hw Hlim H). discriminate. }
      split; cbn [sy_kernel sy_sem sy_released sy_granted]; eauto.
      * lia.
      * intros Hlim. lia.
      * intros Hlim H. exfalso. rewrite Hv in H by lia. lia.
      * intros u Hin. rewrite Her. apply He. rewrite Hl in Hin. right. exact Hin.
  - split; cbn [sy_kernel sy_sem sy_released sy_granted]; eauto.
    + intros Hlim H. specialize (Hw Hlim H). rewrite Hw in R3. apply sublist_nil_r in R3. exact R3.
    + intros t Hin. rewrite (proj1 (wait_info_fields _ _ (R4 t Hin))). apply He. eapply elem_of_sublist; [exact Hin|exact R3].
Qed.

Inductive sem_reach (y0 : sem_system) : sem_system -> Prop :=
| reach_here : sem_reach y0 y0
| reach_step y y' : sem_reach y0 y -> sem_step y y' -> sem_reach y0 y'.

Lemma sem_reach_inv v y0 y : sem_inv v y0 -> sem_reach y0 y -> sem_inv v y.
Proof. intros H0 Hr. induction Hr; [exact H0|eapply sem_step_inv; eauto]. Qed.
End SemSteps.

Lemma object_init_ok base k l :
  kernel_ok base k -> lists k l = [] -> kernel_ok base (rt_ipc_object_init k l).
Proof.
  intros [[[Hn Ho] [Hr Hb] Hth] Ht] Hl.
  assert (L : forall l', lists (rt_ipc_object_init k l) l' = lists k l').
  { intros l'. cbn. unfold upd. destruct (decide _) as [->|]; [rewrite Hl|]; reflexivity. }
  split.
  - split; [split|split|].
    + intros l'. rewrite L. apply Hn.
    + intros t l1 l2. rewrite !L. apply Ho.
    + exact Hr.
    + intros p. rewrite L. apply Hb.
    + intros t. apply (thread_ok_same k); [reflexivity|intros l'; rewrite L; reflexivity|reflexivity|apply Hth].
  - apply (timers_ok_threads _ k); auto.
Qed.

Lemma sem_init_inv k s v flag :
  kernel_ok (rt_tick k) k -> (exists c, rt_current_thread k = Some c) -> 0 <= v < 65536 -> lists k (SemWait s) = [] ->
  exists k' sem, rt_sem_init k s v flag = Some (k', sem, RT_EOK) /\ sem_inv s v (mkSemSystem k' sem 0 0).
Proof.
  intros Hok Hc Hv Hl. unfold rt_sem_init. rewrite (proj2 (Z.ltb_lt _ _)) by lia. cbn [negb].
  eexists _, _. split; [reflexivity|].
  assert (L : forall l, lists (rt_ipc_object_init k (SemWait s)) l = lists k l).
  { intros l. cbn. unfold upd. destruct (decide _) as [->|]; [rewrite Hl|]; reflexivity. }
  assert (Ev : value (mkSem (u16 v) flag) = v) by (apply u16_small; lia).
  split; cbn [sy_kernel sy_sem sy_released sy_granted]; rewrite ?Ev; [|exact Hc|lia|lia|lia| |].
  - apply object_init_ok; assumption.
  - intros _ _. rewrite L. exact Hl.
  - intros t. rewrite L, Hl. intros H. inversion H.
Qed.

(** ** Properties *)

(** C23: a semaphore initialised with [v] never gives more than it has: in every
    state reached by takes (immediate, waiting or failing), releases and whatever
    the rest of the system does to its waiters, the value plus the number of
    successful takes is [v] plus the number of releases, nobody waits while the
    value is positive, and every waiter would return [RT_EOK] if woken - as long
    as fewer than 65536 tokens are in play. *)
Theorem semaphore_counts k s v flag :
  kernel_ok (rt_tick k) k -> (exists c, rt_current_thread k = Some c) -> 0 <= v < 65536 ->
  lists k (SemWait s) = [] ->
  exists k' sem, rt_sem_init k s v flag = Some (k', sem, RT_EOK) /\
    forall y, sem_reach s (mkSemSystem k' sem 0 0) y -> v + sy_released y < 65536 ->
      value (sy_sem y) + sy_granted y = v + sy_released y /\
      (0 < value (sy_sem y) -> lists (sy_kernel y) (SemWait s) = []) /\
      (forall t, t ∈ lists (sy_kernel y) (SemWait s) -> rt_sem_take_end (sy_kernel y) t = RT_EOK).
Proof.
  intros Hok Hc Hv Hl. destruct (sem_init_inv k s v flag Hok Hc Hv Hl) as (k' & sem & E & Hi).
  exists k', sem. split; [exact E|]. intros y Hr Hlim. destruct (sem_reach_inv s v _ y Hi Hr) as [_ _ _ _ H1 H2 H3].
  split; [apply H1, Hlim|]. split; [apply H2, Hlim|exact H3].
Qed.

Lemma semaphore_counts_witness :
  exists k' sem, rt_sem_init demo 6 2 RT_IPC_FLAG_FIFO = Some (k', sem, RT_EOK) /\
    forall y, sem_reach 6 (mkSemSystem k' sem 0 0) y -> sy_released y = 1 -> value (sy_sem y) + sy_granted y = 3.
Proof.
  destruct (semaphore_counts demo 6 2 RT_IPC_FLAG_FIFO) as (k' & sem & E & H).
  - exact demo_ok.
  - exists 0%nat. reflexivity.
  - lia.
  - reflexivity.
  - exists k', sem. split; [exact E|]. intros y Hr Hrel.
    destruct (H y Hr) as [Hn _]; [rewrite Hrel; reflexivity|]. rewrite Hn, Hrel. reflexivity.
Defined.

(** A release wakes exactly the first waiter (it becomes ready, leaves the
    list, keeps the error its call will return, and the best ready thread runs);
    without waiters the value grows by one - modulo 65536: the release of a
    semaphore at 65535 makes it unavailable. *)
Theorem sem_release_spec k s sem c :
  kernel_ok (rt_tick k) k -> rt_current_thread k = Some c -> 0 <= value sem < 65536 ->
  exists k' sem', rt_sem_release k s sem = Some (k', sem', RT_EOK) /\
    match lists k (SemWait s) with
    | t :: q => kernel_ok (rt_tick k') k' /\ sem' = sem /\ lists k' (SemWait s) = q /\
        other_waits k k' (SemWait s) /\ rt_sem_take_end k' t = rt_sem_take_end k t /\
        (thread_stat (threads k' t) = RT_THREAD_READY \/ thread_stat (threads k' t) = RT_THREAD_RUNNING) /\
        (rt_scheduler_lock_nest k = 0 -> exists c', rt_current_thread k' = Some c' /\ best_running k' c')
    | [] => k' = k /\ value sem' = (if value sem =? 65535 then 0 else value sem + 1)
    end.
Proof.
  intros Hok Hc Hv. destruct (lists k (SemWait s)) as [|t q] eqn:Eq.
  - unfold rt_sem_release. rewrite Eq. eexists _, _. split; [reflexivity|]. split; [reflexivity|].
    change (u16 (value sem + 1) = if value sem =? 65535 then 0 else value sem + 1).
    destruct (Z.eqb_spec (value sem) 65535) as [->|]; [reflexivity|apply u16_small; lia].
  - destruct (release_wakes k s sem c t q Hok Hc Eq) as (k' & E & Hok' & (c' & Hc' & Hb) & Hl & Ho & Hs & He).
    exists k', sem. split; [exact E|]. split_ands; auto; [apply He|]. intros Hlock. exists c'. auto.
Qed.

Lemma sem_release_spec_witness :
  (exists k', rt_sem_release demo 5 (mkSem 0 RT_IPC_FLAG_FIFO) = Some (k', mkSem 0 RT_IPC_FLAG_FIFO, RT_EOK) /\
     lists k' (SemWait 5) = []) /\
  (exists sem', rt_sem_release demo 6 (mkSem 65535 RT_IPC_FLAG_FIFO) = Some (demo, sem', RT_EOK) /\ value sem' = 0).
Proof.
  split.
  - destruct (sem_release_spec demo 5 (mkSem 0 RT_IPC_FLAG_FIFO) 0) as (k' & sem' & E & H);
      [exact demo_ok|reflexivity|split; [discriminate|reflexivity]|].
    change (lists demo (SemWait 5)) with [3%nat] in H. destruct H as (_ & -> & Hl & _). exists k'. auto.
  - destruct (sem_release_spec demo 6 (mkSem 65535 RT_IPC_FLAG_FIFO) 0) as (k' & sem' & E & H);
      [exact demo_ok|reflexivity|split; [discriminate|reflexivity]|].
    change (lists demo (SemWait 6)) with (@nil nat) in H. destruct H as (-> & Hv). exists sem'. auto.
Defined.
