(* ===== verification/Gentle.v ===== *)
(** * What the kernel's everyday operations leave alone

    Scheduling, sleeping, waiting, waking and the tick never make a dead thread live,
    never touch a thread that is not started, never end a thread, never add to the defunct list, and put a thread into a wait
    list only when it asks to wait there.  Each function is shown to keep this by its
    own text; the ready lists' threads being live is all that is assumed. *)

From S2P Require Import Prelude Kernel Scheduler Timer Thread Tick Ipc.

Definition ready_live (k : Kernel) : Prop :=
  forall p t, t ∈ lists k (Ready p) -> live (thread_stat (threads k t)) = true.

(** The wait list a thread may enter, and the thread that may be started, if any. *)
Record Permit := mk_permit { enters : option list_head; starts : option nat }.
Definition nothing : Permit := mk_permit None None.
Definition entering (l : list_head) : Permit := mk_permit (Some l) None.
Definition starting (t : nat) : Permit := mk_permit None (Some t).

Section Gentle.
Context (permit : Permit).

Record kept (k k' : Kernel) : Prop := {
  kp_ready : ready_live k';
  kp_nest : rt_interrupt_nest k' = rt_interrupt_nest k;
  kp_static : forall t, systemobject (threads k' t) = systemobject (threads k t);
  kp_cleanup : forall t, cleanup (threads k' t) = cleanup (threads k t);
  kp_closed : forall t, thread_stat (threads k' t) = RT_THREAD_CLOSE <-> thread_stat (threads k t) = RT_THREAD_CLOSE;
  kp_initial : forall t, thread_stat (threads k t) = RT_THREAD_INIT ->
    thread_stat (threads k' t) = RT_THREAD_INIT \/ starts permit = Some t;
  kp_priority : forall t, init_priority (threads k' t) = init_priority (threads k t);
  kp_live : forall t, live (thread_stat (threads k' t)) = true -> live (thread_stat (threads k t)) = true \/ starts permit = Some t;
  kp_current : forall c, rt_current_thread k' = Some c ->
    rt_current_thread k = Some c \/ live (thread_stat (threads k c)) = true \/ starts permit = Some c;
  kp_defunct : forall t, t ∈ lists k' Defunct -> t ∈ lists k Defunct;
  kp_waits : forall l t, is_wait l = true -> enters permit <> Some l -> t ∈ lists k' l -> t ∈ lists k l
}.
Definition gentle (k k' : Kernel) : Prop := ready_live k -> kept k k'.

Lemma gentle_trans k1 k2 k3 : gentle k1 k2 -> gentle k2 k3 -> gentle k1 k3.
Proof.
  intros H12 H23 H1. destruct (H12 H1) as [A1 A2 A3 A4 A5 A10 A11 A6 A9 A7 A8], (H23 A1) as [B1 B2 B3 B4 B5 B10 B11 B6 B9 B7 B8].
  split; auto; try congruence.
  - intros t. rewrite B5. apply A5.
  - intros t Ht. destruct (A10 t Ht); auto.
  - intros t Ht. destruct (B6 t Ht) as [|]; auto.
  - intros c Hc. destruct (B9 c Hc) as [|[Hl|]]; auto.
Qed.

(** Same threads and lists; a live thread may become the current one. *)
Lemma gentle_switch k k' : threads k' = threads k -> lists k' = lists k -> rt_interrupt_nest k' = rt_interrupt_nest k ->
  (forall c, rt_current_thread k' = Some c -> rt_current_thread k = Some c \/ live (thread_stat (threads k c)) = true) -> gentle k k'.
Proof.
  intros Et El En Ec Hr. split; rewrite ?Et, ?El; auto.
  - intros p t. rewrite El, Et. apply Hr.
  - intros c Hc. destruct (Ec c Hc); auto.
Qed.

Lemma gentle_same k k' : threads k' = threads k -> lists k' = lists k -> rt_interrupt_nest k' = rt_interrupt_nest k ->
  rt_current_thread k' = rt_current_thread k -> gentle k k'.
Proof. intros Et El En Ec. apply gentle_switch; auto. intros c. rewrite Ec. auto. Qed.

Lemma gentle_refl k : gentle k k.
Proof. apply gentle_same; reflexivity. Qed.

(** A change of one thread that does not end it or make it live. *)
Lemma gentle_thread k t f :
  systemobject (f (threads k t)) = systemobject (threads k t) -> cleanup (f (threads k t)) = cleanup (threads k t) ->
  init_priority (f (threads k t)) = init_priority (threads k t) ->
  (thread_stat (f (threads k t)) = thread_stat (threads k t) \/
   live (thread_stat (f (threads k t))) = true /\ (ready_live k -> live (thread_stat (threads k t)) = true) \/
   live (thread_stat (f (threads k t))) = true /\ thread_stat (threads k t) <> RT_THREAD_CLOSE /\ starts permit = Some t) ->
  gentle k (set_thread k t f).
Proof.
  intros Hs Hc Hp Hst Hr.
  assert (E : forall u, u <> t -> threads (set_thread k t f) u = threads k u) by (intros u; apply set_thread_other).
  assert (Et : threads (set_thread k t f) t = f (threads k t)) by apply set_thread_threads.
  split; auto.
  - intros p u Hu. change (lists (set_thread k t f)) with (lists k) in Hu. specialize (Hr p u Hu).
    destruct (decide (u = t)) as [->|Hne]; [|rewrite E by exact Hne; exact Hr].
    rewrite Et. destruct Hst as [->|[[H _]|[H _]]]; assumption.
  - intros u. destruct (decide (u = t)) as [->|Hne]; [rewrite Et; exact Hs | rewrite E by exact Hne; reflexivity].
  - intros u. destruct (decide (u = t)) as [->|Hne]; [rewrite Et; exact Hc | rewrite E by exact Hne; reflexivity].
  - intros u. destruct (decide (u = t)) as [->|Hne]; [rewrite Et | rewrite E by exact Hne; reflexivity].
    destruct Hst as [->|[[H1 H2]|(H1 & H2 & _)]]; [reflexivity | specialize (H2 Hr); split; intros H; rewrite H in *; discriminate|].
    split; intros H; [rewrite H in H1; discriminate | contradiction].
  - intros u. destruct (decide (u = t)) as [->|Hne]; [rewrite Et | rewrite E by exact Hne; auto].
    destruct Hst as [->|[[_ H2]|(_ & _ & H2)]]; auto. intros H. specialize (H2 Hr). rewrite H in H2. discriminate.
  - intros u. destruct (decide (u = t)) as [->|Hne]; [rewrite Et; exact Hp | rewrite E by exact Hne; reflexivity].
  - intros u. destruct (decide (u = t)) as [->|Hne]; [rewrite Et | rewrite E by exact Hne; auto].
    destruct Hst as [->|[[_ H2]|(_ & _ & H2)]]; auto.
Qed.

(** Threads leave lists, or a live one joins a ready list. *)
Lemma gentle_lists k k' :
  threads k' = threads k -> rt_interrupt_nest k' = rt_interrupt_nest k -> rt_current_thread k' = rt_current_thread k ->
  (forall l t, t ∈ lists k' l -> t ∈ lists k l \/ (exists p, l = Ready p) /\ (ready_live k -> live (thread_stat (threads k t)) = true)
     \/ enters permit = Some l /\ is_wait l = true) ->
  gentle k k'.
Proof.
  intros Et En Ec Hl Hr. split; rewrite ?Et, ?Ec; auto.
  - intros p t Ht. rewrite Et. destruct (Hl _ _ Ht) as [H|[[_ H]|[_ H]]]; [apply (Hr p), H | apply H, Hr | discriminate].
  - intros t Ht. destruct (Hl _ _ Ht) as [H|[[[p H] _]|[_ H]]]; [exact H | discriminate..].
  - intros l t Hw He Ht. destruct (Hl _ _ Ht) as [H|[[[p ->] _]|[H _]]]; [exact H | discriminate | contradiction].
Qed.

Lemma gentle_remove k t : gentle k (tlist_remove k t).
Proof. apply gentle_lists; auto. intros l u Hu. left. cbn in Hu. apply list_elem_of_filter in Hu. apply Hu. Qed.

Lemma gentle_insert k p t : (ready_live k -> live (thread_stat (threads k t)) = true) -> gentle k (tlist_insert_before k (Ready p) t).
Proof.
  intros H. apply gentle_lists; auto. intros l u Hu. cbn in Hu. unfold upd in Hu. destruct (decide (l = Ready p)) as [->|]; [|auto].
  apply elem_of_app in Hu as [Hu|Hu]; [auto|]. apply list_elem_of_singleton in Hu as ->. right. left. split; [eauto | exact H].
Qed.

Lemma live_with s th : s = RT_THREAD_READY \/ s = RT_THREAD_SUSPEND \/ s = RT_THREAD_RUNNING ->
  live (thread_stat (with_stat s th)) = true.
Proof. intros [->|[->| ->]]; rewrite thread_stat_with by (cbv; split; discriminate); reflexivity. Qed.

Lemma gentle_stat k t s : s = RT_THREAD_READY \/ s = RT_THREAD_SUSPEND \/ s = RT_THREAD_RUNNING ->
  (ready_live k -> live (thread_stat (threads k t)) = true) -> gentle k (set_thread k t (with_stat s)).
Proof. intros Hs Hl. apply gentle_thread; auto. right. left. split; [apply live_with, Hs | exact Hl]. Qed.

(** ** The scheduler and the timers *)

Lemma gentle_schedule_insert k t k' : (ready_live k -> live (thread_stat (threads k t)) = true) ->
  rt_schedule_insert_thread k t = Some k' -> gentle k k'.
Proof.
  intros Hl. unfold rt_schedule_insert_thread. destruct (decide _).
  - intros [= <-]. apply gentle_stat; auto.
  - cbv zeta. destruct (_ <=? _); [discriminate|]. intros [= <-].
    set (k1 := set_thread k t (with_stat RT_THREAD_READY)). apply (gentle_trans _ k1); [apply gentle_stat; auto|].
    apply (gentle_trans _ (tlist_insert_before k1 (Ready (current_priority (threads k1 t))) t)); [|apply gentle_same; reflexivity].
    apply gentle_insert. intros _. unfold k1. rewrite set_thread_threads. apply live_with. auto.
Qed.

Lemma gentle_schedule_remove k t k' : rt_schedule_remove_thread k t = Some k' -> gentle k k'.
Proof.
  unfold rt_schedule_remove_thread. cbv zeta. destruct (_ <=? _); [discriminate|]. intros [= <-].
  apply (gentle_trans _ (tlist_remove k t)); [apply gentle_remove|]. destruct (decide _); apply gentle_same; reflexivity.
Qed.

Lemma gentle_bind {A} k (o : option (Kernel * A)) (f : Kernel * A -> option Kernel) k' :
  (forall k1 a, o = Some (k1, a) -> gentle k k1) -> (forall k1 a k2, f (k1, a) = Some k2 -> gentle k1 k2) ->
  o ≫= f = Some k' -> gentle k k'.
Proof.
  intros Ho Hf E. destruct o as [[k1 a]|]; [|discriminate]. apply (gentle_trans _ k1); [eapply Ho; reflexivity | eapply Hf, E].
Qed.

Lemma highest_ready k t h : _get_highest_priority_thread k = Some (t, h) -> exists p, t ∈ lists k (Ready p).
Proof.
  unfold _get_highest_priority_thread. destruct (__rt_ffs _) as [n|]; [|discriminate]. cbn [mbind option_bind].
  destruct (_ <=? _); [discriminate|]. destruct (lists k (Ready _)) as [|u q] eqn:E; [discriminate|]. intros [= <- _].
  eexists. rewrite E. left.
Qed.
Lemma yield_stat th : thread_stat (th <| stat := clear_bits (stat th) RT_THREAD_STAT_YIELD |>) = thread_stat th.
Proof.
  unfold thread_stat, clear_bits, RT_THREAD_STAT_MASK, RT_THREAD_STAT_YIELD.
  change (stat (th <| stat := Z.land (stat th) (Z.lnot 8) |>)) with (Z.land (stat th) (Z.lnot 8)).
  rewrite <- Z.land_assoc. change (Z.land (Z.lnot 8) 7) with 7. reflexivity.
Qed.

(** A live thread starts to run. *)
Lemma gentle_run k t k' : live (thread_stat (threads k t)) = true ->
  (k ← rt_schedule_remove_thread k t; Some (set_thread k t (with_stat RT_THREAD_RUNNING))) = Some k' -> gentle k k'.
Proof.
  intros Hl E. destruct (rt_schedule_remove_thread k t) as [k1|] eqn:E1; [|discriminate]. injection E as <-.
  apply (gentle_trans _ k1); [apply (gentle_schedule_remove _ t _ E1)|]. apply gentle_stat; [auto|]. intros _.
  assert (Et : threads k1 = threads k).
  { unfold rt_schedule_remove_thread in E1. cbv zeta in E1. destruct (_ <=? _); [discriminate|]. injection E1 as <-.
    destruct (decide _); reflexivity. }
  rewrite Et. exact Hl.
Qed.

Lemma insert_threads k t k' u : rt_schedule_insert_thread k t = Some k' -> u <> t -> threads k' u = threads k u.
Proof.
  unfold rt_schedule_insert_thread. intros E Hne. destruct (decide _); [injection E as <-; apply set_thread_other, Hne|].
  cbv zeta in E. destruct (_ <=? _); [discriminate|]. injection E as <-. apply (set_thread_other k t _ u Hne).
Qed.

Lemma gentle_schedule k k' : rt_schedule k = Some k' -> gentle k k'.
Proof.
  unfold rt_schedule. destruct (_ =? 0); [|intros [= <-]; apply gentle_refl].
  destruct (negb _); [|intros [= <-]; apply gentle_refl].
  destruct (_get_highest_priority_thread k) as [[to h]|] eqn:Eh; [|discriminate]. cbn [mbind option_bind].
  destruct (rt_current_thread k) as [cur|]; [|discriminate]. cbn [mbind option_bind]. cbv zeta.
  destruct (highest_ready _ _ _ Eh) as [p Hto]. clear Eh. intros E Hr. specialize (Hr p to Hto) as Hlto. revert Hr.
  change (gentle k k').
  destruct (Z.eqb_spec (thread_stat (threads k cur)) RT_THREAD_RUNNING) as [Hrun|Hrun].
  - assert (Hlc : live (thread_stat (threads k cur)) = true) by (rewrite Hrun; reflexivity).
    destruct (current_priority (threads k cur) <? h).
    { rewrite decide_False in E by congruence. apply (gentle_run k cur k'); auto. }
    destruct ((current_priority (threads k cur) =? h) && _).
    { rewrite decide_False in E by congruence. apply (gentle_run k cur k'); auto. }
    set (k1 := set_thread k cur (fun th => th <| stat := clear_bits (stat th) RT_THREAD_STAT_YIELD |>)) in E.
    assert (H1 : gentle k k1) by (apply gentle_thread; auto; left; apply yield_stat).
    assert (Ec : thread_stat (threads k1 cur) = RT_THREAD_RUNNING)
      by (unfold k1; rewrite set_thread_threads, yield_stat; exact Hrun).
    apply (gentle_trans _ k1); [exact H1|]. destruct (decide (to <> cur)) as [Hne|Heq].
    + set (k2 := k1 <| rt_current_priority := u8 h |> <| rt_current_thread := Some to |>) in E.
      apply (gentle_trans _ k2); [apply gentle_switch; try reflexivity; intros c [= <-]; right; unfold k1; rewrite set_thread_other by exact Hne; exact Hlto|].
      destruct (rt_schedule_insert_thread k2 cur) as [k3|] eqn:E3; [|discriminate]. cbn [mbind option_bind] in E.
      apply (gentle_trans _ k3).
      * apply (gentle_schedule_insert _ cur _); [|exact E3]. intros _. change (threads k2) with (threads k1). rewrite Ec. reflexivity.
      * apply (gentle_run k3 to k'); [|exact E]. rewrite (insert_threads _ _ _ _ E3 Hne). change (threads k2) with (threads k1).
        unfold k1. rewrite set_thread_other by exact Hne. exact Hlto.
    + apply (gentle_run k1 cur k'); [rewrite Ec; reflexivity | exact E].
  - destruct (decide (to <> cur)) as [Hne|Heq].
    + set (k2 := k <| rt_current_priority := u8 h |> <| rt_current_thread := Some to |>) in E.
      apply (gentle_trans _ k2); [apply gentle_switch; try reflexivity; intros c [= <-]; right; exact Hlto|].
      apply (gentle_run k2 to k'); [exact Hlto | exact E].
    + apply dec_stable in Heq. subst to. apply (gentle_run k cur k'); [exact Hlto | exact E].
Qed.

Lemma gentle_timer_stop k x : gentle k (fst (rt_timer_stop k x)).
Proof. unfold rt_timer_stop. destruct (negb _); apply gentle_same; reflexivity. Qed.

Lemma timer_stop_threads k x : threads (fst (rt_timer_stop k x)) = threads k.
Proof. unfold rt_timer_stop. destruct (negb _); reflexivity. Qed.

Lemma gentle_timer_control k x cmd arg : gentle k (fst (rt_timer_control k x cmd arg)).
Proof. unfold rt_timer_control. repeat (destruct (_ =? _)); apply gentle_same; reflexivity. Qed.

Lemma gentle_resume k t k' e : rt_thread_resume k t = Some (k', e) -> gentle k k'.
Proof.
  unfold rt_thread_resume. destruct (Z.eqb_spec (thread_stat (threads k t)) RT_THREAD_SUSPEND) as [Hs|]; cbn [negb];
    [|intros [= <- _]; apply gentle_refl].
  pose proof (gentle_timer_stop (tlist_remove k t) (ThreadTimer t)) as H1.
  destruct (rt_timer_stop (tlist_remove k t) (ThreadTimer t)) as [k1 e1] eqn:E1. cbn [fst] in H1.
  destruct (rt_schedule_insert_thread k1 t) as [k2|] eqn:E2; [|discriminate]. intros [= <- _].
  apply (gentle_trans _ (tlist_remove k t)); [apply gentle_remove|]. apply (gentle_trans _ k1); [exact H1|].
  apply (gentle_schedule_insert _ t _); [|exact E2]. intros _.
  pose proof (timer_stop_threads (tlist_remove k t) (ThreadTimer t)) as Et. rewrite E1 in Et. cbn [fst] in Et.
  rewrite Et. change (threads (tlist_remove k t)) with (threads k). rewrite Hs. reflexivity.
Qed.

Lemma gentle_suspend k t k' e : rt_thread_suspend k t = Some (k', e) -> gentle k k'.
Proof.
  unfold rt_thread_suspend. cbv zeta. destruct (_ && _) eqn:C; [intros [= <- _]; apply gentle_refl|].
  assert (Hl : live (thread_stat (threads k t)) = true).
  { apply andb_false_iff in C. unfold live. destruct C as [C|C]; apply negb_false_iff in C; rewrite C, ?orb_true_r; reflexivity. }
  clear C. destruct (_ && _); [discriminate|].
  destruct (rt_schedule_remove_thread k t) as [k1|] eqn:E1; [|discriminate]. cbn [mbind option_bind].
  pose proof (gentle_timer_stop (set_thread k1 t (with_stat RT_THREAD_SUSPEND)) (ThreadTimer t)) as H1.
  destruct (rt_timer_stop _ _) as [k2 e2]. intros [= <- _].
  apply (gentle_trans _ k1); [apply (gentle_schedule_remove _ t _ E1)|].
  apply (gentle_trans _ (set_thread k1 t (with_stat RT_THREAD_SUSPEND))); [|exact H1]. apply gentle_stat; [auto|].
  intros _. unfold rt_schedule_remove_thread in E1. cbv zeta in E1. destruct (_ <=? _); [discriminate|]. injection E1 as <-.
  destruct (decide _); exact Hl.
Qed.

Lemma gentle_timer_start k x k' e : rt_timer_start k x = Some (k', e) -> gentle k k'.
Proof.
  unfold rt_timer_start. cbv zeta. destruct (negb _); [discriminate|]. intros E.
  match goal with H : context [if has_bits ?f ?b then ?x else ?y] |- _ => destruct (has_bits f b) end; cbn [andb] in E.
  - match type of E with (if ?c then _ else _) = _ => destruct c end.
    + match type of E with context [rt_thread_resume ?k0 ?t] => apply (gentle_trans _ k0); [apply gentle_same; reflexivity|];
        destruct (rt_thread_resume k0 t) as [[k2 e2]|] eqn:E2; [|discriminate] end.
      cbn [mbind option_bind] in E. destruct (rt_schedule k2) as [k3|] eqn:E3; [|discriminate]. injection E as <- _.
      apply (gentle_trans _ k2); [apply (gentle_resume _ _ _ _ E2) | apply gentle_schedule, E3].
    + injection E as <- _. apply gentle_same; reflexivity.
  - injection E as <- _. apply gentle_same; reflexivity.
Qed.

Lemma gentle_start_timer k t tick k' : start_thread_timer k t tick = Some k' -> gentle k k'.
Proof.
  unfold start_thread_timer. pose proof (gentle_timer_control k (ThreadTimer t) RT_TIMER_CTRL_SET_TIME (u32 tick)) as H1.
  destruct (rt_timer_control _ _ _ _) as [k1 r]. destruct (rt_timer_start k1 (ThreadTimer t)) as [[k2 e]|] eqn:E; [|discriminate].
  intros [= <-]. apply (gentle_trans _ k1); [exact H1 | apply (gentle_timer_start _ _ _ _ E)].
Qed.

(** ** Blocking calls and the tick *)

Lemma gentle_field k t (f : Thread -> Thread) :
  (forall th, systemobject (f th) = systemobject th /\ cleanup (f th) = cleanup th /\ init_priority (f th) = init_priority th /\
     thread_stat (f th) = thread_stat th) ->
  gentle k (set_thread k t f).
Proof. intros Hf. destruct (Hf (threads k t)) as (H1 & H2 & H3 & H4). apply gentle_thread; auto. Qed.

Lemma gentle_timeout k t k' : rt_thread_timeout k t = Some k' -> gentle k k'.
Proof.
  unfold rt_thread_timeout. destruct (Z.eqb_spec (thread_stat (threads k t)) RT_THREAD_SUSPEND) as [Hs|]; cbn [negb]; [|discriminate].
  cbv zeta. set (k1 := set_thread k t (fun th => th <| error := - RT_ETIMEOUT |>)). intros E.
  apply (gentle_trans _ k1); [apply gentle_field; intros th; repeat split|].
  apply (gentle_trans _ (tlist_remove k1 t)); [apply gentle_remove|].
  destruct (rt_schedule_insert_thread (tlist_remove k1 t) t) as [k2|] eqn:E2; [|discriminate]. cbn [mbind option_bind] in E.
  apply (gentle_trans _ k2); [|apply gentle_schedule, E]. apply (gentle_schedule_insert _ t _); [|exact E2]. intros _.
  change (threads (tlist_remove k1 t)) with (threads k1). unfold k1. rewrite set_thread_threads.
  change (thread_stat (threads k t <| error := - RT_ETIMEOUT |>)) with (thread_stat (threads k t)). rewrite Hs. reflexivity.
Qed.

Lemma gentle_sleep k tick k' : rt_thread_sleep_begin k tick = Some k' -> gentle k k'.
Proof.
  unfold rt_thread_sleep_begin. destruct (rt_thread_self k) as [t|]; [|discriminate]. cbn [mbind option_bind].
  destruct (rt_thread_suspend k t) as [[k1 e]|] eqn:E1; [|discriminate]. cbn [mbind option_bind].
  destruct (start_thread_timer k1 t tick) as [k2|] eqn:E2; [|discriminate]. cbn [mbind option_bind]. intros E.
  apply (gentle_trans _ k1); [apply (gentle_suspend _ _ _ _ E1)|].
  apply (gentle_trans _ k2); [apply (gentle_start_timer _ _ _ _ E2) | apply gentle_schedule, E].
Qed.

Lemma gentle_priority k t p k' e : rt_thread_control k t RT_THREAD_CTRL_CHANGE_PRIORITY p = Some (k', e) -> gentle k k'.
Proof.
  unfold rt_thread_control. rewrite Z.eqb_refl.
  destruct (Z.eqb_spec (thread_stat (threads k t)) RT_THREAD_READY) as [Hs|].
  - destruct (rt_schedule_remove_thread k t) as [k1|] eqn:E1; [|discriminate]. cbn [mbind option_bind].
    destruct (rt_schedule_insert_thread (set_thread k1 t (set_priority p)) t) as [k2|] eqn:E2; [|discriminate]. intros [= <- _].
    apply (gentle_trans _ k1); [apply (gentle_schedule_remove _ t _ E1)|].
    apply (gentle_trans _ (set_thread k1 t (set_priority p))); [apply gentle_field; intros th; repeat split|].
    apply (gentle_schedule_insert _ t _); [|exact E2]. intros _. rewrite set_thread_threads.
    assert (Et : threads k1 = threads k).
    { unfold rt_schedule_remove_thread in E1. cbv zeta in E1. destruct (_ <=? _); [discriminate|]. injection E1 as <-.
      destruct (decide _); reflexivity. }
    change (thread_stat (set_priority p (threads k1 t))) with (thread_stat (threads k1 t)). rewrite Et, Hs. reflexivity.
  - intros [= <- _]. apply gentle_field; intros th; repeat split.
Qed.

Lemma gentle_exit_critical k k' : rt_exit_critical k = Some k' -> gentle k k'.
Proof.
  unfold rt_exit_critical. cbv zeta. set (k1 := k <| rt_scheduler_lock_nest := s16 (rt_scheduler_lock_nest k - 1) |>).
  assert (H1 : gentle k (k1 <| rt_scheduler_lock_nest := 0 |>)) by (apply gentle_same; reflexivity).
  destruct (_ <=? 0); [|intros [= <-]; apply gentle_same; reflexivity].
  destruct (rt_current_thread _); intros E.
  - apply (gentle_trans _ _ _ H1), gentle_schedule, E.
  - injection E as <-. exact H1.
Qed.

Lemma gentle_wait_insert k l t flag : enters permit = Some l -> is_wait l = true -> gentle k (wait_list_insert k l t flag).
Proof.
  intros He Hl. unfold wait_list_insert. destruct (_ =? _); [|destruct (_ =? _); [|apply gentle_refl]];
    apply gentle_lists; auto; intros l' u Hu; cbn in Hu; unfold upd in Hu; destruct (decide (l' = l)) as [->|]; auto.
Qed.

Lemma gentle_list_suspend k l t flag k' : enters permit = Some l -> is_wait l = true ->
  rt_ipc_list_suspend k l t flag = Some k' -> gentle k k'.
Proof.
  intros He Hl. unfold rt_ipc_list_suspend. destruct (rt_thread_suspend k t) as [[k1 e]|] eqn:E; [|discriminate]. intros [= <-].
  apply (gentle_trans _ k1); [apply (gentle_suspend _ _ _ _ E) | apply gentle_wait_insert; auto].
Qed.

Lemma gentle_ipc_wait k l t flag time k' : enters permit = Some l -> is_wait l = true ->
  ipc_wait k l t flag time = Some k' -> gentle k k'.
Proof.
  intros He Hl. unfold ipc_wait. destruct (rt_ipc_list_suspend k l t flag) as [k1|] eqn:E1; [|discriminate].
  cbn [mbind option_bind]. destruct (if 0 <? time then _ else _) as [k2|] eqn:E2; [|discriminate]. cbn [mbind option_bind]. intros E.
  apply (gentle_trans _ k1); [apply (gentle_list_suspend _ l t flag _ He Hl E1)|]. apply (gentle_trans _ k2); [|apply gentle_schedule, E].
  destruct (0 <? time); [apply (gentle_start_timer _ _ _ _ E2) | injection E2 as <-; apply gentle_refl].
Qed.

Lemma gentle_list_resume k l k' : rt_ipc_list_resume k l = Some k' -> gentle k k'.
Proof.
  unfold rt_ipc_list_resume. destruct (lists k l) as [|t q]; [discriminate|].
  destruct (rt_thread_resume k t) as [[k1 e]|] eqn:E; [|discriminate]. intros [= <-]. apply (gentle_resume _ _ _ _ E).
Qed.

Lemma gentle_resume_all k l k' : rt_ipc_list_resume_all k l = Some k' -> gentle k k'.
Proof.
  unfold rt_ipc_list_resume_all. generalize (length (lists k l)). intros n. revert k. induction n as [|n IH]; intros k;
    cbn [resume_all_loop]; destruct (lists k l) as [|t q]; try discriminate; try (intros [= <-]; apply gentle_refl).
  cbv zeta. set (k1 := set_thread k t (fun th => th <| error := - RT_ERROR |>)).
  destruct (rt_thread_resume k1 t) as [[k2 e]|] eqn:E1; [|discriminate]. cbn [mbind option_bind]. intros E.
  apply (gentle_trans _ k1); [apply gentle_field; intros th; repeat split|].
  apply (gentle_trans _ k2); [apply (gentle_resume _ _ _ _ E1) | apply IH, E].
Qed.

Lemma gentle_startup k t k' e : starts permit = Some t -> rt_thread_startup k t = Some (k', e) -> gentle k k'.
Proof.
  intros Hp. unfold rt_thread_startup.
  destruct (Z.eqb_spec (thread_stat (threads k t)) RT_THREAD_INIT) as [Hs|]; cbn [negb]; [|discriminate]. cbv zeta.
  set (k1 := set_thread k t (fun th => th <| current_priority := init_priority th |>)).
  set (k2 := set_thread k1 t _).
  assert (H12 : gentle k k2).
  { apply (gentle_trans k k1); [apply gentle_field; intros th; repeat split|]. apply gentle_thread; try reflexivity.
    right. right. split_ands; [reflexivity | | exact Hp]. unfold k1. rewrite set_thread_threads.
    change (thread_stat (threads k t <| current_priority := init_priority (threads k t) |>)) with (thread_stat (threads k t)).
    rewrite Hs. discriminate. }
  destruct (rt_thread_resume k2 t) as [[k3 e3]|] eqn:E3; [|discriminate]. cbn [mbind option_bind]. intros E.
  apply (gentle_trans k k2); [exact H12|]. apply (gentle_trans k2 k3); [apply (gentle_resume _ _ _ _ E3)|].
  destruct (rt_thread_self k3); [|injection E as <- _; apply gentle_refl].
  destruct (rt_schedule k3) as [k4|] eqn:E4; [|discriminate]. injection E as <- _. apply gentle_schedule, E4.
Qed.

Section Tick.
Variable user_timeout : nat -> Kernel -> option Kernel.
Hypothesis user_gentle : forall n k k', user_timeout n k = Some k' -> gentle k k'.

Lemma gentle_fire k x k' : timer_fire user_timeout k x = Some k' -> gentle k k'.
Proof. unfold timer_fire. destruct (timeout_func _); [apply gentle_timeout | apply user_gentle]. Qed.

Lemma gentle_check_loop fuel now k k' : timer_check_loop user_timeout fuel now k = Some k' -> gentle k k'.
Proof.
  revert now k. induction fuel as [|fuel IH]; intros now k; [discriminate|]. cbn [timer_check_loop].
  destruct (rt_timer_list k) as [|x q]; [intros [= <-]; apply gentle_refl|].
  destruct (_ <? _); [|intros [= <-]; apply gentle_refl]. cbv zeta.
  destruct (timer_fire user_timeout (_rt_timer_remove k x) x) as [k1|] eqn:E1; [|discriminate]. cbn [mbind option_bind].
  set (k2 := set_timer k1 x _).
  assert (H2 : gentle k k2).
  { apply (gentle_trans _ (_rt_timer_remove k x)); [apply gentle_same; reflexivity|].
    apply (gentle_trans _ k1); [apply (gentle_fire _ _ _ E1) | apply gentle_same; reflexivity]. }
  destruct (_ && _); intros E; [|apply (gentle_trans _ k2); [exact H2 | apply (IH _ _ E)]].
  destruct (rt_timer_start k2 x) as [[k3 e]|] eqn:E3; [|discriminate]. cbn [mbind option_bind] in E.
  apply (gentle_trans _ k2); [exact H2|]. apply (gentle_trans _ k3); [apply (gentle_timer_start _ _ _ _ E3) | apply (IH _ _ E)].
Qed.

Lemma gentle_tick fuel k k' : rt_tick_increase user_timeout fuel k = Some k' -> gentle k k'.
Proof.
  unfold rt_tick_increase. cbv zeta. set (k0 := k <| rt_tick := u32 (rt_tick k + 1) |>).
  destruct (rt_thread_self k0) as [t|]; [|discriminate]. cbn [mbind option_bind].
  set (k1 := set_thread k0 t _). assert (H1 : gentle k k1).
  { apply (gentle_trans _ k0); [apply gentle_same; reflexivity | apply gentle_field; intros th; repeat split]. }
  destruct (if remaining_tick (threads k1 t) =? 0 then _ else _) as [k2|] eqn:E2; [|discriminate]. cbn [mbind option_bind].
  intros E. apply (gentle_trans _ k1); [exact H1|]. apply (gentle_trans _ k2); [|apply (gentle_check_loop _ _ _ _ E)].
  destruct (_ =? 0); [|injection E2 as <-; apply gentle_refl].
  unfold rt_thread_yield in E2. destruct (rt_schedule _) as [k3|] eqn:E3; [|discriminate]. injection E2 as <-.
  eapply gentle_trans; [|apply gentle_schedule, E3]. apply gentle_field. intros th.
  do 3 (split; [reflexivity|]). apply (slice_over_inert th).
Qed.

(** The operations of [run_op] that neither start nor end a thread. *)
Definition everyday (op : kernel_op) : bool :=
  match op with OpStartup _ | OpExit | OpDelete _ | OpDetach _ => false | _ => true end.

Lemma gentle_op k op k' : everyday op = true -> run_op user_timeout k op = Some k' -> gentle k k'.
Proof.
  destruct op; intros He E; try discriminate He; cbn [run_op] in E.
  - apply gentle_schedule, E.
  - unfold rt_thread_yield in E. destruct (rt_schedule k) as [k1|] eqn:E1; [|discriminate]. injection E as <-. apply gentle_schedule, E1.
  - apply (gentle_sleep _ _ _ E).
  - destruct (rt_thread_suspend k t) as [[k1 e]|] eqn:E1; [|discriminate]. injection E as <-. apply (gentle_suspend _ _ _ _ E1).
  - destruct (rt_thread_resume k t) as [[k1 e]|] eqn:E1; [|discriminate]. injection E as <-. apply (gentle_resume _ _ _ _ E1).
  - destruct (rt_thread_control k t _ p) as [[k1 e]|] eqn:E1; [|discriminate]. injection E as <-. apply (gentle_priority _ _ _ _ _ E1).
  - injection E as <-. apply gentle_same; reflexivity.
  - apply (gentle_exit_critical _ _ E).
  - apply (gentle_tick _ _ _ E).
Qed.
End Tick.
End Gentle.

Lemma kernel_ready_live base k : kernel_ok base k -> ready_live k.
Proof.
  intros [[_ _ Hth] _] p t Ht. pose proof (tk_list _ _ (Hth t) _ Ht) as [E _]. rewrite E. reflexivity.
Qed.
