(* ===== verification/Mutex.v ===== *)
(** Mutexes with priority inheritance (src/rt-thread/src/ipc.c, rt_mutex_init to
    rt_mutex_control): nested takes, the loan of the waiter's priority to the owner,
    and the hand-over to the first waiter. *)

From S2P Require Import Prelude Kernel Scheduler Timer Thread Tick Ipc.

(** ** Definitions *)

Record Mutex := mkMutex {
  m_value : Z;            (* rt_uint16_t *)
  original_priority : Z;  (* rt_uint8_t *)
  hold : Z;               (* rt_uint8_t *)
  owner : option nat;
  m_flag : Z;
}.
#[export] Instance Mutex_rebuild : Rebuild Mutex := fun m =>
  mkMutex (m_value m) (original_priority m) (hold m) (owner m) (m_flag m).

Definition rt_mutex_init (k : Kernel) (m : nat) (flag : Z) : Kernel * Mutex * Z :=
  (rt_ipc_object_init k (MutexWait m), mkMutex 1 255 0 None flag, RT_EOK).

Definition rt_mutex_detach (k : Kernel) (m : nat) : option (Kernel * Z) :=
  k ← rt_ipc_list_resume_all k (MutexWait m); Some (k, RT_EOK).
Definition rt_mutex_delete (k : Kernel) (m : nat) : option (Kernel * Z) :=
  if negb (rt_interrupt_nest k =? 0) then None
  else k ← rt_ipc_list_resume_all k (MutexWait m); Some (k, RT_EOK).

(** From the label [__again] on; [t] is the calling thread. *)
Definition mutex_again (k : Kernel) (m : nat) (mu : Mutex) (t : nat) (time : Z)
    : option (Kernel * Mutex * outcome) :=
  if 0 <? m_value mu then
    Some (k, mu <| m_value := u16 (m_value mu - 1) |> <| owner := Some t |>
                <| original_priority := current_priority (threads k t) |>
                <| hold := u8 (hold mu + 1) |>, Returns RT_EOK)
  else if time =? 0 then
    Some (set_thread k t (fun th => th <| error := - RT_ETIMEOUT |>), mu, Returns (- RT_ETIMEOUT))
  else
    o ← owner mu;
    k ← (if current_priority (threads k t) <? current_priority (threads k o)
         then '(k, _) ← rt_thread_control k o RT_THREAD_CTRL_CHANGE_PRIORITY (current_priority (threads k t)); Some k
         else Some k);
    k ← ipc_wait k (MutexWait m) t (m_flag mu) time;
    Some (k, mu, Waits).

Definition rt_mutex_take (k : Kernel) (m : nat) (mu : Mutex) (time : Z) : option (Kernel * Mutex * outcome) :=
  if negb (in_thread_context k) then None
  else
    t ← rt_thread_self k;
    let k := set_thread k t (fun th => th <| error := RT_EOK |>) in
    if decide (owner mu = Some t) then Some (k, mu <| hold := u8 (hold mu + 1) |>, Returns RT_EOK)
    else mutex_again k m mu t time.

(** The call of thread [t] goes on. *)
Definition rt_mutex_take_end (k : Kernel) (m : nat) (mu : Mutex) (t : nat) (time : Z)
    : option (Kernel * Mutex * outcome) :=
  if negb (error (threads k t) =? RT_EOK) then
    if error (threads k t) =? - RT_EINTR then mutex_again k m mu t time
    else Some (k, mu, Returns (error (threads k t)))
  else Some (k, mu, Returns RT_EOK).

Definition rt_mutex_release (k : Kernel) (m : nat) (mu : Mutex) : option (Kernel * Mutex * Z) :=
  if negb (in_thread_context k) then None
  else
    t ← rt_thread_self k;
    if decide (owner mu <> Some t) then
      Some (set_thread k t (fun th => th <| error := - RT_ERROR |>), mu, - RT_ERROR)
    else
      let mu := mu <| hold := u8 (hold mu - 1) |> in
      if hold mu =? 0 then
        k ← (if negb (original_priority mu =? current_priority (threads k t))
             then '(k, _) ← rt_thread_control k t RT_THREAD_CTRL_CHANGE_PRIORITY (original_priority mu); Some k
             else Some k);
        match lists k (MutexWait m) with
        | w :: _ =>
            let mu := mu <| owner := Some w |> <| original_priority := current_priority (threads k w) |>
                         <| hold := u8 (hold mu + 1) |> in
            k ← rt_ipc_list_resume k (MutexWait m);
            k ← rt_schedule k;
            Some (k, mu, RT_EOK)
        | [] =>
            Some (k, mu <| m_value := u16 (m_value mu + 1) |> <| owner := None |>
                        <| original_priority := 255 |>, RT_EOK)
        end
      else Some (k, mu, RT_EOK).

Definition rt_mutex_control (mu : Mutex) (cmd : Z) : Z := - RT_ERROR.

(** ** Lemmas *)

(** Raising or restoring a priority, if it differs. *)
Lemma maybe_priority_spec base k o p (b : bool) :
  kernel_ok base k -> 0 <= p < 32 ->
  exists k', (if b then '(k, _) ← rt_thread_control k o RT_THREAD_CTRL_CHANGE_PRIORITY p; Some k else Some k) = Some k' /\
    kernel_ok base k' /\ rt_tick k' = rt_tick k /\ rt_current_thread k' = rt_current_thread k /\
    rt_scheduler_lock_nest k' = rt_scheduler_lock_nest k /\ rt_interrupt_nest k' = rt_interrupt_nest k /\
    (forall u, thread_stat (threads k' u) = thread_stat (threads k u) /\ error (threads k' u) = error (threads k u) /\
       current_priority (threads k' u) =
         (if b && bool_decide (u = o) then p else current_priority (threads k u))) /\
    (forall l, is_wait l = true -> lists k' l = lists k l).
Proof.
  intros Hok Hp. destruct b.
  - destruct (change_priority_spec base k o p Hok Hp) as (k' & -> & Hok' & E1 & E2 & E3 & E4 & _ & _ & Et & Est & Eo & El).
    cbn [mbind option_bind]. exists k'. split_ands; auto. intros u. cbn [andb].
    destruct (decide (u = o)) as [->|Hne].
    + rewrite bool_decide_eq_true_2 by reflexivity. split; [exact Est|]. rewrite Et. split; reflexivity.
    + rewrite bool_decide_eq_false_2, Eo by exact Hne. auto.
  - exists k. split_ands; auto.
Qed.

Lemma live_prio base k t : kernel_ok base k -> live (thread_stat (threads k t)) = true ->
  0 <= current_priority (threads k t) < 32.
Proof. intros [[_ _ Ho] _] H. apply po_range, (tk_prio _ _ (Ho t)), H. Qed.

(** A take that has to wait: the owner inherits the caller's priority. *)
Lemma mutex_wait_spec k m mu c o time :
  kernel_ok (rt_tick k) k -> rt_current_thread k = Some c -> thread_stat (threads k c) = RT_THREAD_RUNNING ->
  rt_interrupt_nest k = 0 -> m_value mu = 0 -> owner mu = Some o -> o <> c -> time <> 0 -> time < RT_TICK_HALF ->
  exists k', rt_mutex_take k m mu time = Some (k', mu, Waits) /\
    kernel_ok (rt_tick k') k' /\ (exists c', rt_current_thread k' = Some c' /\
      (rt_scheduler_lock_nest k = 0 -> best_running k' c')) /\
    thread_stat (threads k' c) = RT_THREAD_SUSPEND /\ error (threads k' c) = RT_EOK /\
    (forall u, u <> c -> error (threads k' u) = error (threads k u)) /\
    (forall u, current_priority (threads k' u) =
       if bool_decide (u = o) then Z.min (current_priority (threads k o)) (current_priority (threads k c))
       else current_priority (threads k u)) /\
    (forall u, u ∈ lists k' (MutexWait m) -> u = c \/ u ∈ lists k (MutexWait m)) /\
    (m_flag mu = RT_IPC_FLAG_FIFO -> lists k' (MutexWait m) = lists k (MutexWait m) ++ [c]) /\
    other_waits k k' (MutexWait m).
Proof.
  intros Hok Hc Hrun Hn Hv Ho Hne Ht Htime.
  unfold rt_mutex_take, in_thread_context, rt_thread_self. rewrite Hc, Hn. cbn [Z.eqb negb mbind option_bind].
  rewrite decide_False by congruence. unfold mutex_again. rewrite Hv. change (0 <? 0) with false. cbv iota.
  rewrite (proj2 (Z.eqb_neq _ _)) by exact Ht. rewrite Ho. cbn [mbind option_bind].
  set (k1 := set_thread k c (fun th => th <| error := RT_EOK |>)).
  assert (E1 : threads k1 c = threads k c <| error := RT_EOK |>) by (unfold k1; rewrite set_thread_threads; reflexivity).
  assert (E1o : forall u, u <> c -> threads k1 u = threads k u)
    by (intros u Hu; unfold k1; rewrite set_thread_other by exact Hu; reflexivity).
  assert (Hok1 : kernel_ok (rt_tick k) k1) by (apply set_thread_inert_ok; [intros th; auto|exact Hok]).
  assert (Hrun1 : thread_stat (threads k1 c) = RT_THREAD_RUNNING) by (rewrite E1; exact Hrun).
  set (p := current_priority (threads k c)).
  assert (Epc : current_priority (threads k1 c) = p) by (rewrite E1; reflexivity).
  assert (Epo : current_priority (threads k1 o) = current_priority (threads k o)) by (rewrite E1o by exact Hne; reflexivity).
  rewrite Epc, Epo.
  assert (Hp : 0 <= p < 32) by (apply (live_prio _ k c Hok); rewrite Hrun; reflexivity).
  destruct (maybe_priority_spec _ k1 o p (p <? current_priority (threads k o)) Hok1 Hp) as
    (k2 & -> & Hok2 & Et2 & Ec2 & El2 & En2 & Hth2 & Hl2). cbn [mbind option_bind].
  assert (Hok2' : kernel_ok (rt_tick k2) k2) by (rewrite Et2; exact Hok2).
  assert (Hc2 : rt_current_thread k2 = Some c) by (rewrite Ec2; exact Hc).
  assert (Hrun2 : thread_stat (threads k2 c) = RT_THREAD_RUNNING) by (destruct (Hth2 c) as [-> _]; exact Hrun1).
  destruct (ipc_wait_spec k2 (MutexWait m) c (m_flag mu) time Hok2' Hc2 Hrun2 eq_refl Htime) as
    (k3 & -> & [W1 W2 W3 W4 (c' & W5 & W5b) W6] & El & How & He).
  cbn [mbind option_bind]. exists k3. split; [reflexivity|]. split; [exact W1|].
  split; [exists c'; split; [exact W5|intros H; apply W5b; rewrite El2; exact H]|]. split; [exact W3|].
  split; [destruct (He c) as [-> _]; destruct (Hth2 c) as (_ & -> & _); rewrite E1; reflexivity|].
  split; [intros u Hu; destruct (He u) as [-> _]; destruct (Hth2 u) as (_ & -> & _); rewrite E1o by exact Hu; reflexivity|].
  split; [|split; [|split]].
  - intros u. rewrite W6. destruct (Hth2 u) as (_ & _ & ->).
    destruct (decide (u = o)) as [->|Huo].
    + rewrite bool_decide_eq_true_2 by reflexivity. rewrite andb_true_r, Epo. bool_cases; lia.
    + rewrite bool_decide_eq_false_2 by exact Huo. rewrite andb_false_r.
      destruct (decide (u = c)) as [->|Huc]; [rewrite Epc; reflexivity|rewrite E1o by exact Huc; reflexivity].
  - intros u Hu. rewrite El in Hu. apply enqueued_elem in Hu. rewrite Hl2 in Hu by reflexivity. exact Hu.
  - intros Hfl. rewrite El, Hl2 by reflexivity. unfold enqueued. rewrite Hfl. reflexivity.
  - intros l Hl Hnl. rewrite How, Hl2 by assumption. reflexivity.
Qed.

Section MutexSteps.
Variable m : nat.

Record mutex_wf (k : Kernel) (mu : Mutex) : Prop := {
  mw_ok : kernel_ok (rt_tick k) k;
  mw_current : exists c, rt_current_thread k = Some c;
  mw_owner : match owner mu with
    | None => m_value mu = 1 /\ hold mu = 0 /\ lists k (MutexWait m) = []
    | Some o => m_value mu = 0 /\ 1 <= hold mu <= 255 /\ (o ∉ lists k (MutexWait m)) /\ 0 <= original_priority mu < 32
    end;
  mw_error : forall t, t ∈ lists k (MutexWait m) -> error (threads k t) = RT_EOK;
}.

(** The outermost release: the priority goes back, the first waiter is the new owner. *)
Lemma mutex_release_last k mu c :
  mutex_wf k mu -> rt_current_thread k = Some c -> rt_interrupt_nest k = 0 -> owner mu = Some c -> hold mu = 1 ->
  exists k' mu', rt_mutex_release k m mu = Some (k', mu', RT_EOK) /\ mutex_wf k' mu' /\
    current_priority (threads k' c) = original_priority mu /\
    match lists k (MutexWait m) with
    | w :: q => owner mu' = Some w /\ hold mu' = 1 /\ original_priority mu' = current_priority (threads k w) /\
        lists k' (MutexWait m) = q /\ error (threads k' w) = RT_EOK /\
        (thread_stat (threads k' w) = RT_THREAD_READY \/ thread_stat (threads k' w) = RT_THREAD_RUNNING) /\
        (rt_scheduler_lock_nest k = 0 -> exists c', rt_current_thread k' = Some c' /\ best_running k' c')
    | [] => owner mu' = None /\ rt_current_thread k' = Some c
    end.
Proof.
  intros [Hok _ Hown He] Hc Hn Ho Hh. rewrite Ho in Hown. destruct Hown as (Hv & _ & Hnw & Hpr).
  unfold rt_mutex_release, in_thread_context, rt_thread_self. rewrite Hc, Hn. cbn [Z.eqb negb mbind option_bind].
  rewrite decide_False by tauto. set (mu1 := mu <| hold := u8 (hold mu - 1) |>).
  assert (Hh1 : hold mu1 = 0) by (change (u8 (hold mu - 1) = 0); rewrite Hh; reflexivity).
  rewrite Hh1, Z.eqb_refl. change (original_priority mu1) with (original_priority mu).
  destruct (maybe_priority_spec _ k c (original_priority mu)
     (negb (original_priority mu =? current_priority (threads k c))) Hok Hpr) as
    (k1 & -> & Hok1 & Et1 & Ec1 & El1 & En1 & Hth1 & Hl1). cbn [mbind option_bind].
  assert (Epc : current_priority (threads k1 c) = original_priority mu).
  { destruct (Hth1 c) as (_ & _ & ->). rewrite bool_decide_eq_true_2, andb_true_r by reflexivity.
    destruct (Z.eqb_spec (original_priority mu) (current_priority (threads k c))); cbn [negb]; congruence. }
  rewrite Hl1 by reflexivity. destruct (lists k (MutexWait m)) as [|w q] eqn:Eq.
  - eexists _, _. split; [reflexivity|]. split; [|auto].
    + split.
      * rewrite Et1. exact Hok1.
      * exists c. congruence.
      * cbn [owner]. change (owner (mu1 <| m_value := u16 (m_value mu1 + 1) |> <| owner := None |> <| original_priority := 255 |>))
          with (@None nat). cbv iota. split; [|split; [exact Hh1|rewrite Hl1 by reflexivity; exact Eq]].
        change (u16 (m_value mu + 1) = 1). rewrite Hv. reflexivity.
      * intros t. rewrite Hl1, Eq by reflexivity. intros H. inversion H.
    + split; [exact Epc|]. split; [reflexivity|congruence].
  - assert (Eq1 : lists k1 (MutexWait m) = w :: q) by (rewrite Hl1 by reflexivity; exact Eq).
    destruct (list_resume_spec _ k1 (MutexWait m) w q Hok1 eq_refl Eq1) as (k2 & -> & Hok2 & Hot & Haw & El2 & Hw2 & _).
    cbn [mbind option_bind]. destruct Hot as [F1 F2 F3 F4 F5 F6 F7 F8].
    destruct (schedule_kernel_ok _ k2 c Hok2) as (k3 & c' & -> & Hok3 & Hf & Hc' & Hb); [congruence|].
    cbn [mbind option_bind]. eexists _, _. split; [reflexivity|].
    assert (Hwc : w <> c) by (rewrite not_elem_of_cons in Hnw; intros ->; tauto).
    assert (Hnq : w ∉ q).
    { pose proof (lo_nodup _ (so_lists _ (ko_sched _ _ Hok)) (MutexWait m)) as Hnd. rewrite Eq in Hnd.
      apply NoDup_cons in Hnd. tauto. }
    assert (Her : forall u, error (threads k3 u) = error (threads k u)).
    { intros u. rewrite (sf_threads _ _ Hf u). change (error (threads k2 u) = error (threads k u)).
      destruct (Hth1 u) as (_ & <- & _). destruct (decide (u = w)) as [->|Hne].
      - destruct (awake_thread _ _ _ _ Haw) as [_ E]. rewrite E. reflexivity.
      - rewrite F5 by exact Hne. reflexivity. }
    assert (Hlq : lists k3 (MutexWait m) = q) by (rewrite (sf_lists _ _ Hf (MutexWait m)); exact El2).
    assert (Epw : current_priority (threads k1 w) = current_priority (threads k w)).
    { destruct (Hth1 w) as (_ & _ & ->). rewrite bool_decide_eq_false_2, andb_false_r by exact Hwc. reflexivity. }
    assert (Hpw : 0 <= current_priority (threads k w) < 32).
    { apply (live_prio _ k w Hok). rewrite (wait_suspended k (MutexWait m) w _ Hok eq_refl) by (rewrite Eq; left). reflexivity. }
    split; [split|split].
    + rewrite (sf_tick _ _ Hf), F1, Et1. exact Hok3.
    + eauto.
    + match goal with |- match owner ?x with _ => _ end => change (owner x) with (Some w) end. cbv iota.
      split; [exact Hv|]. split; [|split].
      * match goal with |- 1 <= hold ?x <= 255 => change (hold x) with 1 end. lia.
      * rewrite Hlq. exact Hnq.
      * match goal with |- 0 <= original_priority ?x < 32 => change (original_priority x) with (current_priority (threads k1 w)) end.
        rewrite Epw. exact Hpw.
    + intros t Hin. rewrite Her. apply He. rewrite Hlq in Hin. right. exact Hin.
    + rewrite (frame_priority k2 k3 c Hf), F5 by congruence. exact Epc.
    + split; [reflexivity|]. split; [|split; [|split; [|split; [|split]]]].
      * reflexivity.
      * exact Epw.
      * exact Hlq.
      * rewrite Her. apply He. left.
      * destruct (sf_stat _ _ Hf w) as [->|[_ D]]; [apply (awake_thread _ _ _ _ Haw)|exact D].
      * intros H. exists c'. split; [exact Hc'|]. apply Hb. congruence.
Qed.

(** The mutex in use, with the number of times each thread holds it: takes that
    have returned (or will return) [RT_EOK] minus releases. *)
Record mutex_system := mkMutexSystem {
  my_kernel : Kernel;
  my_mutex : Mutex;
  my_holds : nat -> Z;
}.

Inductive mutex_step : mutex_system -> mutex_system -> Prop :=
| mstep_take k mu h time c k' mu' e :
    rt_current_thread k = Some c -> thread_stat (threads k c) = RT_THREAD_RUNNING -> hold mu < 255 ->
    time < RT_TICK_HALF -> rt_mutex_take k m mu time = Some (k', mu', Returns e) ->
    mutex_step (mkMutexSystem k mu h) (mkMutexSystem k' mu' (if e =? RT_EOK then upd h c (h c + 1) else h))
| mstep_wait k mu h time c k' mu' :
    rt_current_thread k = Some c -> thread_stat (threads k c) = RT_THREAD_RUNNING ->
    time < RT_TICK_HALF -> rt_mutex_take k m mu time = Some (k', mu', Waits) ->
    mutex_step (mkMutexSystem k mu h) (mkMutexSystem k' mu' h)
| mstep_release k mu h c k' mu' e :
    rt_current_thread k = Some c -> thread_stat (threads k c) = RT_THREAD_RUNNING ->
    rt_mutex_release k m mu = Some (k', mu', e) ->
    mutex_step (mkMutexSystem k mu h) (mkMutexSystem k' mu'
      (if e =? RT_EOK then
         let h' := upd h c (h c - 1) in
         match lists k (MutexWait m) with
         | w :: _ => if h c =? 1 then upd h' w (h' w + 1) else h'
         | [] => h'
         end
       else h))
| mstep_rest k mu h k' :
    rest_step (MutexWait m) k k' -> mutex_step (mkMutexSystem k mu h) (mkMutexSystem k' mu h).

Record mutex_inv (y : mutex_system) : Prop := {
  mi_wf : mutex_wf (my_kernel y) (my_mutex y);
  mi_holds : forall t, my_holds y t = if decide (owner (my_mutex y) = Some t) then hold (my_mutex y) else 0;
}.

Lemma take_context k mu time r : rt_mutex_take k m mu time = Some r -> rt_interrupt_nest k = 0.
Proof.
  unfold rt_mutex_take, in_thread_context. destruct (rt_thread_self k); [|discriminate].
  destruct (Z.eqb_spec (rt_interrupt_nest k) 0); [auto|discriminate].
Qed.
Lemma release_context k mu r : rt_mutex_release k m mu = Some r -> rt_interrupt_nest k = 0.
Proof.
  unfold rt_mutex_release, in_thread_context. destruct (rt_thread_self k); [|discriminate].
  destruct (Z.eqb_spec (rt_interrupt_nest k) 0); [auto|discriminate].
Qed.

Lemma mutex_wf_same k k' mu :
  mutex_wf k mu -> kernel_ok (rt_tick k') k' -> (exists c, rt_current_thread k' = Some c) ->
  lists k' (MutexWait m) `sublist_of` lists k (MutexWait m) ->
  (forall t, t ∈ lists k' (MutexWait m) -> error (threads k' t) = error (threads k t)) -> mutex_wf k' mu.
Proof.
  intros [_ _ Ho He] Hok Hc Hs Her. split; auto.
  - destruct (owner mu) as [o|].
    + destruct Ho as (A & B & C & D). split_ands; auto; try lia. intros H. apply C. eapply elem_of_sublist; eauto.
    + destruct Ho as (A & B & C). split_ands; auto. rewrite C in Hs. apply sublist_nil_r in Hs. exact Hs.
  - intros t Hin. rewrite Her by exact Hin. apply He. eapply elem_of_sublist; eauto.
Qed.

(** A take that returns: the outcome and the new state in the three cases. *)
Lemma take_returns k mu c time k' mu' e :
  mutex_wf k mu -> rt_current_thread k = Some c -> thread_stat (threads k c) = RT_THREAD_RUNNING ->
  rt_mutex_take k m mu time = Some (k', mu', Returns e) ->
  mutex_wf k' mu /\
  match owner mu with
  | None => e = RT_EOK /\ owner mu' = Some c /\ hold mu' = 1 /\ m_value mu' = 0 /\
      original_priority mu' = current_priority (threads k c) /\ m_flag mu' = m_flag mu
  | Some o => if decide (o = c)
              then e = RT_EOK /\ mu' = mu <| hold := u8 (hold mu + 1) |>
              else e = - RT_ETIMEOUT /\ time = 0 /\ mu' = mu
  end.
Proof.
  intros Hwf Hc Hrun E. pose proof (take_context _ _ _ _ E) as Hn. pose proof Hwf as [Hok Hcur Ho He].
  pose proof (running_unlinked k c (so_threads _ (ko_sched _ _ Hok) c) Hrun) as Hu.
  assert (Hset : forall v, mutex_wf (set_thread k c (fun th => th <| error := v |>)) mu).
  { intros v. apply (mutex_wf_same k); auto.
    - apply set_thread_inert_ok; [intros th; auto|exact Hok].
    - intros t Hin. rewrite set_thread_other; [reflexivity|]. intros ->. exact (Hu _ Hin). }
  assert (Hset2 : forall v w, mutex_wf (set_thread (set_thread k c (fun th => th <| error := v |>)) c (fun th => th <| error := w |>)) mu).
  { intros v w. apply (mutex_wf_same (set_thread k c (fun th => th <| error := v |>))); auto.
    - apply set_thread_inert_ok; [intros th; auto|apply Hset].
    - intros t Hin. rewrite set_thread_other; [reflexivity|]. intros ->. exact (Hu _ Hin). }
  revert E. unfold rt_mutex_take, in_thread_context, rt_thread_self. rewrite Hc, Hn. cbn [Z.eqb negb mbind option_bind].
  destruct (decide (owner mu = Some c)) as [Eo|Eo].
  { intros [= <- <- <-]. split; [apply Hset|]. rewrite Eo. rewrite decide_True by reflexivity. auto. }
  unfold mutex_again. destruct (owner mu) as [o|] eqn:Eow.
  - destruct Ho as (Hv & _). rewrite Hv. change (0 <? 0) with false. cbv iota.
    destruct (Z.eqb_spec time 0) as [Ht|Ht].
    + intros [= <- <- <-]. split; [apply Hset2|]. rewrite decide_False by congruence. auto.
    + cbn [mbind option_bind]. destruct (if _ <? _ then _ else _); [|discriminate]. cbn [mbind option_bind].
      destruct (ipc_wait _ _ _ _ _); discriminate.
  - destruct Ho as (Hv & Hh & Hl). rewrite Hv. change (0 <? 1) with true. cbv iota.
    intros [= <- <- <-]. split; [apply Hset|]. split; [reflexivity|]. split; [reflexivity|].
    split; [match goal with |- hold ?x = 1 => change (hold x) with (u8 (hold mu + 1)) end; rewrite Hh; reflexivity|].
    split; [match goal with |- m_value ?x = 0 => change (m_value x) with (u16 (1 - 1)) end; reflexivity|].
    split; [|reflexivity]. 
    match goal with |- original_priority ?x = _ => change (original_priority x) with
      (current_priority (threads (set_thread k c (fun th => th <| error := RT_EOK |>)) c)) end.
    rewrite set_thread_threads. reflexivity.
Qed.

Lemma wf_set_error k mu c v :
  mutex_wf k mu -> thread_stat (threads k c) = RT_THREAD_RUNNING ->
  mutex_wf (set_thread k c (fun th => th <| error := v |>)) mu.
Proof.
  intros Hwf Hrun. pose proof Hwf as [Hok Hcur _ _].
  pose proof (running_unlinked k c (so_threads _ (ko_sched _ _ Hok) c) Hrun) as Hu.
  apply (mutex_wf_same k); auto.
  - apply set_thread_inert_ok; [intros th; auto|exact Hok].
  - intros t Hin. rewrite set_thread_other; [reflexivity|]. intros ->. exact (Hu _ Hin).
Qed.

(** A release that is not the last one of the owner, or not by the owner. *)
Lemma release_other k mu c k' mu' e :
  mutex_wf k mu -> rt_current_thread k = Some c -> thread_stat (threads k c) = RT_THREAD_RUNNING ->
  rt_mutex_release k m mu = Some (k', mu', e) -> owner mu <> Some c \/ hold mu <> 1 ->
  mutex_wf k' mu' /\ owner mu' = owner mu /\
  (if decide (owner mu = Some c) then e = RT_EOK /\ hold mu' = hold mu - 1 else e = - RT_ERROR /\ mu' = mu).
Proof.
  intros Hwf Hc Hrun E Hcase. pose proof (release_context _ _ _ E) as Hn.
  revert E. unfold rt_mutex_release, in_thread_context, rt_thread_self. rewrite Hc, Hn. cbn [Z.eqb negb mbind option_bind].
  destruct (decide (owner mu = Some c)) as [Eo|Eo].
  - rewrite decide_False by tauto. destruct Hcase as [|Hh]; [contradiction|].
    pose proof Hwf as [Hok Hcur Ho He]. rewrite Eo in Ho. destruct Ho as (A & B & C & D).
    assert (Eh : hold (mu <| hold := u8 (hold mu - 1) |>) = hold mu - 1) by (apply u8_small; lia).
    rewrite Eh, (proj2 (Z.eqb_neq _ 0)) by lia. intros [= <- <- <-]. split; [|auto].
    split; [exact Hok|exact Hcur| |exact He]. rewrite Eh. change (owner (mu <| hold := u8 (hold mu - 1) |>)) with (owner mu). rewrite Eo.
    split; [exact A|split; [lia|split; [exact C|exact D]]].
  - rewrite decide_True by exact Eo. intros [= <- <- <-]. split; [apply wf_set_error; assumption|auto].
Qed.

(** A take that waits: somebody else holds the mutex. *)
Lemma take_waiting k mu c time k' mu' :
  mutex_wf k mu -> rt_current_thread k = Some c -> thread_stat (threads k c) = RT_THREAD_RUNNING ->
  time < RT_TICK_HALF -> rt_mutex_take k m mu time = Some (k', mu', Waits) -> mutex_wf k' mu' /\ mu' = mu.
Proof.
  intros Hwf Hc Hrun Htime E. pose proof (take_context _ _ _ _ E) as Hn. pose proof Hwf as [Hok Hcur Ho He].
  assert (Hpre : exists o, owner mu = Some o /\ o <> c /\ time <> 0 /\ m_value mu = 0).
  { revert E. unfold rt_mutex_take, in_thread_context, rt_thread_self. rewrite Hc, Hn. cbn [Z.eqb negb mbind option_bind].
    destruct (decide (owner mu = Some c)); [discriminate|]. unfold mutex_again. destruct (owner mu) as [o|].
    - destruct Ho as (Hv & _). rewrite Hv. change (0 <? 0) with false. cbv iota.
      destruct (Z.eqb_spec time 0); [discriminate|]. intros _. exists o. split_ands; auto.
    - destruct Ho as (Hv & _). rewrite Hv. discriminate. }
  destruct Hpre as (o & Eo & Hne & Ht & Hv).
  destruct (mutex_wait_spec k m mu c o time Hok Hc Hrun Hn Hv Eo Hne Ht Htime) as
    (k2 & E2 & Hok2 & (c2 & Hc2 & _) & _ & Hec & Heo & _ & Hl & _). rewrite E in E2. injection E2 as -> ->.
  split; [|reflexivity]. rewrite Eo in Ho. destruct Ho as (A & B & C & D). split; eauto.
  - rewrite Eo. split_ands; auto; try lia. intros H. destruct (Hl o H); contradiction.
  - intros t Hin. destruct (decide (t = c)) as [->|Htc]; [exact Hec|]. rewrite Heo by exact Htc. apply He.
    destruct (Hl t Hin); [contradiction|assumption].
Qed.

Lemma mutex_step_inv y y' : mutex_inv y -> mutex_step y y' -> mutex_inv y'.
Proof.
  intros [Hwf Hh] Hstep. destruct Hstep as
    [k mu h time c k' mu' e Hc Hrun Hlim Htime E|k mu h time c k' mu' Hc Hrun Htime E|k mu h c k' mu' e Hc Hrun E|k mu h k' [R1 R2 R3 R4]];
    cbn [my_kernel my_mutex my_holds] in *; pose proof Hwf as [Hok Hcur Ho He].
  - destruct (take_returns k mu c time k' mu' e Hwf Hc Hrun E) as [Hwf' Hcase].
    assert (Hp : 0 <= current_priority (threads k c) < 32)
      by (apply (live_prio _ k c Hok); rewrite Hrun; reflexivity).
    destruct (owner mu) as [o|] eqn:Eo; [destruct (decide (o = c)) as [->|Hne]|].
    + destruct Hcase as [-> ->]. rewrite Z.eqb_refl. destruct Ho as (A & B & C & D).
      assert (Ehold : hold (mu <| hold := u8 (hold mu + 1) |>) = hold mu + 1) by (apply u8_small; lia).
      destruct Hwf' as [W1 W2 W3 W4]. rewrite Eo in W3. split; cbn [my_kernel my_mutex my_holds].
      * split; auto. change (owner (mu <| hold := u8 (hold mu + 1) |>)) with (owner mu). rewrite Eo, Ehold.
        destruct W3 as (A' & B' & C' & D'). split; [exact A'|split; [lia|split; [exact C'|exact D']]].
      * intros t. change (owner (mu <| hold := u8 (hold mu + 1) |>)) with (owner mu). rewrite Eo, Ehold. unfold upd.
        destruct (decide (t = c)) as [->|Htc]; [rewrite Hh, !decide_True by reflexivity; reflexivity|].
        rewrite Hh, !decide_False by congruence. reflexivity.
    + destruct Hcase as (-> & _ & ->). change (- RT_ETIMEOUT =? RT_EOK) with false. cbv iota.
      split; [exact Hwf'|]. intros t. cbn [my_mutex my_holds]. rewrite Hh, Eo. reflexivity.
    + destruct Hcase as (-> & E1 & E2 & E3 & E4 & _). rewrite Z.eqb_refl. destruct Hwf' as [W1 W2 W3 W4]. rewrite Eo in W3.
      split; cbn [my_kernel my_mutex my_holds].
      * split; auto. rewrite E1, E2, E4. destruct W3 as (_ & _ & W3). split_ands; auto; try lia.
        rewrite W3. intros H. inversion H.
      * intros t. rewrite E1, E2. unfold upd. destruct (decide (t = c)) as [->|Htc].
        -- rewrite Hh, decide_False, decide_True by (discriminate || reflexivity). reflexivity.
        -- rewrite Hh, !decide_False by congruence. reflexivity.
  - destruct (take_waiting k mu c time k' mu' Hwf Hc Hrun Htime E) as [Hwf' ->]. split; [exact Hwf'|exact Hh].
  - destruct (decide (owner mu = Some c /\ hold mu = 1)) as [[Eo E1]|Hn].
    + destruct (mutex_release_last k mu c Hwf Hc (release_context _ _ _ E) Eo E1) as (k2 & mu2 & E2 & Hwf2 & _ & Hcase).
      rewrite E in E2. injection E2 as -> -> ->. rewrite Z.eqb_refl. split; cbn [my_kernel my_mutex my_holds]; [exact Hwf2|].
      assert (Ehc : h c = 1) by (rewrite Hh, decide_True by exact Eo; exact E1).
      cbv zeta. rewrite Eo in Ho. destruct Ho as (_ & _ & C & _).
      destruct (lists k (MutexWait m)) as [|w q].
      * destruct Hcase as [-> _]. intros t. unfold upd. destruct (decide (t = c)) as [->|Htc]; [rewrite Ehc; reflexivity|].
        rewrite Hh, Eo, !decide_False by congruence. reflexivity.
      * destruct Hcase as (-> & -> & _). rewrite not_elem_of_cons in C. destruct C as [Hcw _].
        rewrite Ehc. change (1 =? 1) with true. cbv iota. intros t. unfold upd.
        destruct (decide (t = w)) as [->|Htw].
        -- rewrite decide_False, Hh, decide_False, decide_True by congruence. reflexivity.
        -- destruct (decide (t = c)) as [->|Htc]; [rewrite decide_False by congruence; reflexivity|].
           rewrite Hh, Eo, !decide_False by congruence. reflexivity.
    + assert (Hcase : owner mu <> Some c \/ hold mu <> 1)
        by (destruct (decide (owner mu = Some c)); [right; tauto|left; assumption]).
      destruct (release_other k mu c k' mu' e Hwf Hc Hrun E Hcase) as (Hwf' & Eow & Hr).
      split; cbn [my_kernel my_mutex my_holds]; [exact Hwf'|].
      destruct (decide (owner mu = Some c)) as [Eo|Eo].
      * destruct Hr as [-> Eh]. rewrite Z.eqb_refl. assert (Ehc : h c = hold mu) by (rewrite Hh, decide_True by exact Eo; reflexivity).
        assert (Hne : hold mu <> 1) by tauto. rewrite Ehc, (proj2 (Z.eqb_neq _ 1)) by exact Hne. cbv zeta.
        intros t. rewrite Eow, Eo, Eh. destruct (lists k (MutexWait m)); unfold upd;
          (destruct (decide (t = c)) as [->|Htc]; [rewrite decide_True by reflexivity; lia|];
           rewrite Hh, Eo, !decide_False by congruence; reflexivity).
      * destruct Hr as [-> ->]. change (- RT_ERROR =? RT_EOK) with false. cbv iota. exact Hh.
  - split; cbn [my_kernel my_mutex my_holds]; [|exact Hh]. apply (mutex_wf_same k); auto.
    intros t Ht. apply (wait_info_fields _ _ (R4 t Ht)).
Qed.

Inductive mutex_reach (y0 : mutex_system) : mutex_system -> Prop :=
| mreach_here : mutex_reach y0 y0
| mreach_step y y' : mutex_reach y0 y -> mutex_step y y' -> mutex_reach y0 y'.

Lemma mutex_reach_inv y0 y : mutex_inv y0 -> mutex_reach y0 y -> mutex_inv y.
Proof. intros H0 Hr. induction Hr; [exact H0|eapply mutex_step_inv; eauto]. Qed.

Lemma mutex_init_inv k flag :
  kernel_ok (rt_tick k) k -> (exists c, rt_current_thread k = Some c) -> lists k (MutexWait m) = [] ->
  let '(k', mu, e) := rt_mutex_init k m flag in
  e = RT_EOK /\ mutex_inv (mkMutexSystem k' mu (fun _ => 0)).
Proof.
  intros Hok Hc Hl. cbn [rt_mutex_init]. split; [reflexivity|]. split; cbn [my_kernel my_mutex my_holds]; [|reflexivity].
  split; [apply object_init_ok; auto|exact Hc| |].
  - cbn. unfold upd. rewrite decide_True by reflexivity. auto.
  - intros t. cbn. unfold upd. rewrite decide_True by reflexivity. intros H. inversion H.
Qed.
End MutexSteps.

(** ** Properties *)

(** C3: mutual exclusion.  From a fresh mutex, through any takes (at once, waiting,
    refused or nested), releases (by the owner or by others), hand-overs and
    whatever the rest of the system does to the waiters, at most one thread holds
    the mutex at a time - the recorded owner -, the nesting counter is the number of
    its takes not yet released, and no waiter holds it.  The takes are nested fewer
    than 256 times, the range of the counter. *)
Theorem mutex_exclusion k m flag :
  kernel_ok (rt_tick k) k -> (exists c, rt_current_thread k = Some c) -> lists k (MutexWait m) = [] ->
  let '(k', mu, _) := rt_mutex_init k m flag in
  forall y, mutex_reach m (mkMutexSystem k' mu (fun _ => 0)) y ->
    (forall t, 0 < my_holds y t -> owner (my_mutex y) = Some t /\ my_holds y t = hold (my_mutex y)) /\
    (forall t u, 0 < my_holds y t -> 0 < my_holds y u -> t = u) /\
    (forall t, t ∈ lists (my_kernel y) (MutexWait m) -> my_holds y t = 0).
Proof.
  intros Hok Hc Hl. destruct (rt_mutex_init k m flag) as [[k' mu] e] eqn:E.
  pose proof (mutex_init_inv m k flag Hok Hc Hl) as Hi. rewrite E in Hi. destruct Hi as [_ Hi].
  intros y Hr. destruct (mutex_reach_inv m _ y Hi Hr) as [[_ _ Ho _] Hh].
  assert (H1 : forall t, 0 < my_holds y t -> owner (my_mutex y) = Some t /\ my_holds y t = hold (my_mutex y)).
  { intros t Ht. rewrite Hh in Ht. rewrite Hh. destruct (decide (owner (my_mutex y) = Some t)) as [E1|E1]; [auto|lia]. }
  split; [exact H1|]. split.
  - intros t u Ht Hu. destruct (H1 t Ht), (H1 u Hu). congruence.
  - intros t Hin. rewrite Hh. destruct (decide (owner (my_mutex y) = Some t)) as [E1|E1]; [|reflexivity].
    rewrite E1 in Ho. tauto.
Qed.

(** The running thread takes the mutex twice. *)
Lemma mutex_exclusion_witness :
  exists y, mutex_reach 3 (mkMutexSystem (rt_mutex_init demo 3 RT_IPC_FLAG_PRIO).1.1
                             (rt_mutex_init demo 3 RT_IPC_FLAG_PRIO).1.2 (fun _ => 0)) y /\
    my_holds y 0%nat = 2 /\ owner (my_mutex y) = Some 0%nat /\ hold (my_mutex y) = 2.
Proof.
  assert (H0 : exists c, rt_current_thread demo = Some c) by (exists 0%nat; reflexivity).
  pose proof (mutex_exclusion demo 3 RT_IPC_FLAG_PRIO demo_ok H0 eq_refl) as H.
  cbn [rt_mutex_init fst snd] in *.
  set (k0 := rt_ipc_object_init demo (MutexWait 3)) in *. set (mu0 := mkMutex _ _ _ _ _) in *.
  destruct (rt_mutex_take k0 3 mu0 0) as [[[k1 mu1] o1]|] eqn:E1; [|vm_compute in E1; discriminate].
  destruct (rt_mutex_take k1 3 mu1 0) as [[[k2 mu2] o2]|] eqn:E2.
  2:{ vm_compute in E1. injection E1 as <- <- _. vm_compute in E2. discriminate. }
  assert (F : rt_current_thread k1 = Some 0%nat /\ thread_stat (threads k1 0) = RT_THREAD_RUNNING /\ hold mu1 < 255 /\
              o1 = Returns RT_EOK /\ o2 = Returns RT_EOK).
  { vm_compute in E1. injection E1 as <- <- <-. vm_compute in E2. injection E2 as _ _ <-. split_ands; reflexivity. }
  destruct F as (Hc1 & Hr1 & Hh1 & -> & ->).
  assert (Hr : mutex_reach 3 (mkMutexSystem k0 mu0 (fun _ => 0)) (mkMutexSystem k2 mu2 (upd (upd (fun _ => 0) 0%nat 1) 0%nat 2))).
  { eapply mreach_step; [eapply mreach_step; [apply mreach_here|]|].
    - exact (mstep_take 3 k0 mu0 (fun _ => 0) 0 0%nat k1 mu1 RT_EOK eq_refl eq_refl eq_refl eq_refl E1).
    - exact (mstep_take 3 k1 mu1 (upd (fun _ => 0) 0%nat 1) 0 0%nat k2 mu2 RT_EOK Hc1 Hr1 Hh1 eq_refl E2). }
  eexists. split; [exact Hr|]. split; [reflexivity|].
  destruct (H _ Hr) as [Hown _]. destruct (Hown 0%nat) as [A B]; [reflexivity|]. split; [exact A|]. rewrite <- B. reflexivity.
Defined.

(** Priority inheritance.  A thread that has to wait for a mutex gives its
    priority to the owner if that is lower (and changes no other priority), is
    queued among the waiters with its error cleared, and the best ready thread -
    by the new priorities - runs. *)
Theorem mutex_inheritance k m mu c o time :
  kernel_ok (rt_tick k) k -> rt_current_thread k = Some c -> thread_stat (threads k c) = RT_THREAD_RUNNING ->
  rt_interrupt_nest k = 0 -> m_value mu = 0 -> owner mu = Some o -> o <> c -> time <> 0 -> time < RT_TICK_HALF ->
  m_flag mu = RT_IPC_FLAG_FIFO ->
  exists k', rt_mutex_take k m mu time = Some (k', mu, Waits) /\ kernel_ok (rt_tick k') k' /\
    (forall u, current_priority (threads k' u) =
       if bool_decide (u = o) then Z.min (current_priority (threads k o)) (current_priority (threads k c))
       else current_priority (threads k u)) /\
    lists k' (MutexWait m) = lists k (MutexWait m) ++ [c] /\ error (threads k' c) = RT_EOK /\
    (rt_scheduler_lock_nest k = 0 -> exists c', rt_current_thread k' = Some c' /\ best_running k' c').
Proof.
  intros Hok Hc Hrun Hn Hv Ho Hne Ht Htime Hfl.
  destruct (mutex_wait_spec k m mu c o time Hok Hc Hrun Hn Hv Ho Hne Ht Htime) as
    (k' & E & Hok' & (c' & Hc' & Hb) & _ & He & _ & Hp & _ & Hl & _).
  exists k'. split_ands; auto. intros Hlock. exists c'. auto.
Qed.

(** The idle thread 1 holds the mutex that thread 0 takes. *)
Lemma mutex_inheritance_witness :
  exists k', rt_mutex_take demo 3 (mkMutex 0 31 1 (Some 1%nat) RT_IPC_FLAG_FIFO) 20 =
      Some (k', mkMutex 0 31 1 (Some 1%nat) RT_IPC_FLAG_FIFO, Waits) /\
    current_priority (threads k' 1) = 10 /\ lists k' (MutexWait 3) = [0%nat].
Proof.
  destruct (mutex_inheritance demo 3 (mkMutex 0 31 1 (Some 1%nat) RT_IPC_FLAG_FIFO) 0 1 20) as
    (k' & E & _ & Hp & Hl & _); try reflexivity; try discriminate.
  - exact demo_ok.
  - exists k'. split; [exact E|]. split; [rewrite Hp; reflexivity|exact Hl].
Defined.

(** C37: the outermost release gives the owner its original priority back and hands
    the mutex to the first waiter, whose take then returns [RT_EOK] and who
    preempts the releasing thread if it outranks it; without waiters the mutex is
    free. *)
Theorem mutex_handover m k mu c :
  mutex_wf m k mu -> rt_current_thread k = Some c -> rt_interrupt_nest k = 0 -> owner mu = Some c -> hold mu = 1 ->
  exists k' mu', rt_mutex_release k m mu = Some (k', mu', RT_EOK) /\ mutex_wf m k' mu' /\
    current_priority (threads k' c) = original_priority mu /\
    match lists k (MutexWait m) with
    | w :: q => owner mu' = Some w /\ hold mu' = 1 /\ lists k' (MutexWait m) = q /\
        rt_mutex_take_end k' m mu' w 0 = Some (k', mu', Returns RT_EOK) /\
        (rt_scheduler_lock_nest k = 0 -> exists c', rt_current_thread k' = Some c' /\ best_running k' c')
    | [] => owner mu' = None
    end.
Proof.
  intros Hwf Hc Hn Ho Hh. destruct (mutex_release_last m k mu c Hwf Hc Hn Ho Hh) as (k' & mu' & E & Hwf' & Hp & Hcase).
  exists k', mu'. split; [exact E|]. split; [exact Hwf'|]. split; [exact Hp|].
  destruct (lists k (MutexWait m)) as [|w q]; [apply Hcase|]. destruct Hcase as (A & B & C & D & Er & F & G).
  split_ands; auto. unfold rt_mutex_take_end. rewrite Er. reflexivity.
Qed.

Lemma mutex_handover_witness :
  exists k' mu', rt_mutex_release demo 7 (mkMutex 0 11 1 (Some 0%nat) RT_IPC_FLAG_FIFO) = Some (k', mu', RT_EOK) /\
    owner mu' = Some 5%nat /\ current_priority (threads k' 0) = 11.
Proof.
  destruct (mutex_handover 7 demo (mkMutex 0 11 1 (Some 0%nat) RT_IPC_FLAG_FIFO) 0) as (k' & mu' & E & _ & Hp & Ho & _);
    try reflexivity.
  - split.
    + exact demo_ok.
    + exists 0%nat. reflexivity.
    + cbn [owner]. split; [reflexivity|]. split; [split; discriminate|]. split; [|split; [discriminate|reflexivity]].
      intros H. demo_links H.
    + intros t H. demo_links H. reflexivity.
  - exists k', mu'. auto.
Defined.
