(* ===== verification/Event.v ===== *)
(** Events: sets of 32 flags that threads wait for (src/rt-thread/src/ipc.c,
    rt_event_init to rt_event_control).  A call that blocks is a begin step, up to
    the call of rt_schedule, and an end step. *)

From S2P Require Import Prelude Kernel Scheduler Timer Thread Tick Ipc.

(** ** Definitions *)

Definition RT_EVENT_FLAG_AND : Z := 1.
Definition RT_EVENT_FLAG_OR : Z := 2.
Definition RT_EVENT_FLAG_CLEAR : Z := 4.

Record Event := mkEvent { ev_set : Z (* rt_uint32_t *); ev_flag : Z }.
#[export] Instance Event_rebuild : Rebuild Event := fun e => mkEvent (ev_set e) (ev_flag e).

Definition rt_event_init (k : Kernel) (e : nat) (flag : Z) : Kernel * Event * Z :=
  (rt_ipc_object_init k (EventWait e), mkEvent 0 flag, RT_EOK).

Definition rt_event_detach (k : Kernel) (e : nat) : option (Kernel * Z) :=
  k ← rt_ipc_list_resume_all k (EventWait e); Some (k, RT_EOK).
Definition rt_event_delete (k : Kernel) (e : nat) : option (Kernel * Z) :=
  if negb (rt_interrupt_nest k =? 0) then None
  else k ← rt_ipc_list_resume_all k (EventWait e); Some (k, RT_EOK).

(** The test of one waiting thread: [Some] the new [thread->event_set] when its
    condition holds. *)
Definition event_status (set : Z) (th : Thread) : option Z :=
  if has_bits (event_info th) RT_EVENT_FLAG_AND then
    if Z.land (event_set th) set =? event_set th then Some (event_set th) else None
  else if has_bits (event_info th) RT_EVENT_FLAG_OR then
    if has_bits (event_set th) set then Some (Z.land (event_set th) set) else None
  else None.

(** The loop over the waiting threads.  The next node is read before the thread
    leaves the list, so the loop visits the threads that waited at its start. *)
Fixpoint event_send_loop (waiters : list nat) (k : Kernel) (ev : Event) (need_schedule : bool)
    : option (Kernel * Event * bool) :=
  match waiters with
  | [] => Some (k, ev, need_schedule)
  | t :: waiters =>
      match event_status (ev_set ev) (threads k t) with
      | Some recved =>
          let k := set_thread k t (fun th => th <| event_set := recved |>) in
          let ev := if has_bits (event_info (threads k t)) RT_EVENT_FLAG_CLEAR
                    then ev <| ev_set := clear_bits (ev_set ev) (event_set (threads k t)) |> else ev in
          '(k, _) ← rt_thread_resume k t;
          event_send_loop waiters k ev true
      | None => event_send_loop waiters k ev need_schedule
      end
  end.

Definition rt_event_send (k : Kernel) (e : nat) (ev : Event) (set : Z) : option (Kernel * Event * Z) :=
  if set =? 0 then Some (k, ev, - RT_ERROR)
  else
    let ev := ev <| ev_set := Z.lor (ev_set ev) set |> in
    '(k, ev, need_schedule) ← event_send_loop (lists k (EventWait e)) k ev false;
    k ← (if (need_schedule : bool) then rt_schedule k else Some k);
    Some (k, ev, RT_EOK).

(** The last component is what the call stores in [*recved]. *)
Definition rt_event_recv (k : Kernel) (e : nat) (ev : Event) (set opt timeout : Z)
    : option (Kernel * Event * outcome * option Z) :=
  if negb (in_thread_context k) then None
  else if set =? 0 then Some (k, ev, Returns (- RT_ERROR), None)
  else
    t ← rt_thread_self k;
    let k := set_thread k t (fun th => th <| error := RT_EOK |>) in
    status ← (if has_bits opt RT_EVENT_FLAG_AND then
                Some (if Z.land (ev_set ev) set =? set then RT_EOK else - RT_ERROR)
              else if has_bits opt RT_EVENT_FLAG_OR then
                Some (if has_bits (ev_set ev) set then RT_EOK else - RT_ERROR)
              else None);
    if status =? RT_EOK then
      let recved := Z.land (ev_set ev) set in
      let ev := if has_bits opt RT_EVENT_FLAG_CLEAR
                then ev <| ev_set := clear_bits (ev_set ev) set |> else ev in
      Some (k, ev, Returns (error (threads k t)), Some recved)
    else if timeout =? 0 then
      let k := set_thread k t (fun th => th <| error := - RT_ETIMEOUT |>) in
      Some (k, ev, Returns (error (threads k t)), None)
    else
      let k := set_thread k t (fun th => th <| event_set := set |> <| event_info := opt |>) in
      k ← ipc_wait k (EventWait e) t (ev_flag ev) timeout;
      Some (k, ev, Waits, None).

(** The call of thread [t] goes on. *)
Definition rt_event_recv_end (k : Kernel) (t : nat) : Z * option Z :=
  let th := threads k t in
  if negb (error th =? RT_EOK) then (error th, None) else (error th, Some (event_set th)).

Definition rt_event_control (k : Kernel) (e : nat) (ev : Event) (cmd : Z) : option (Kernel * Event * Z) :=
  if cmd =? RT_IPC_CMD_RESET then
    k ← rt_ipc_list_resume_all k (EventWait e);
    let ev := ev <| ev_set := 0 |> in
    k ← rt_schedule k;
    Some (k, ev, RT_EOK)
  else Some (k, ev, - RT_ERROR).

(** ** The specification of a send *)

(** A thread waits for the flags [event_set], for all of them (bit 0 of [event_info]) or for any (bit 1). *)
Definition satisfied (set : Z) (th : Thread) : Prop :=
  if Z.testbit (event_info th) 0 then forall i, Z.testbit (event_set th) i = true -> Z.testbit set i = true
  else if Z.testbit (event_info th) 1 then exists i, Z.testbit (event_set th) i = true /\ Z.testbit set i = true
  else False.

(** The waiters are served in list order, beginning with the flags [set].  Each satisfied one receives those of
    its flags that are set, and removes its flags if it asked to (bit 2); the others wait on. *)
Inductive delivery (th : nat -> Thread) : Z -> list nat -> Z -> list (nat * Z) -> list nat -> Prop :=
| delivery_end set : delivery th set [] set [] []
| delivery_served set t ws left woken rest :
    satisfied set (th t) ->
    delivery th (if Z.testbit (event_info (th t)) 2 then Z.ldiff set (event_set (th t)) else set) ws left woken rest ->
    delivery th set (t :: ws) left ((t, Z.land (event_set (th t)) set) :: woken) rest
| delivery_passed set t ws left woken rest :
    ~ satisfied set (th t) -> delivery th set ws left woken rest -> delivery th set (t :: ws) left woken (t :: rest).

(** There is one such delivery. *)
Lemma delivery_unique th set ws s1 w1 r1 s2 w2 r2 :
  delivery th set ws s1 w1 r1 -> delivery th set ws s2 w2 r2 -> s1 = s2 /\ w1 = w2 /\ r1 = r2.
Proof.
  intros H. revert s2 w2 r2. induction H as [set|set t ws s1 w1 r1 Hs _ IH|set t ws s1 w1 r1 Hs _ IH]; intros s2 w2 r2 H2;
    inversion H2; subst; try contradiction; [auto | |];
    match goal with Hd : delivery _ _ ws _ _ _ |- _ => destruct (IH _ _ _ Hd) as (-> & -> & ->) end; auto.
Qed.

(** The same with the code's test, as a function: the set left, the threads woken with the flags they received, and
    the waiters left. *)
Fixpoint deliver (th : nat -> Thread) (set : Z) (waiters : list nat) : Z * list (nat * Z) * list nat :=
  match waiters with
  | [] => (set, [], [])
  | t :: waiters =>
      match event_status set (th t) with
      | Some recved =>
          let set := if has_bits (event_info (th t)) RT_EVENT_FLAG_CLEAR then clear_bits set recved else set in
          let '(set, woken, rest) := deliver th set waiters in (set, (t, recved) :: woken, rest)
      | None => let '(set, woken, rest) := deliver th set waiters in (set, woken, t :: rest)
      end
  end.

Lemma deliver_ext th th' set ws :
  (forall t, t ∈ ws -> th' t = th t) -> deliver th' set ws = deliver th set ws.
Proof.
  revert set. induction ws as [|t ws IH]; intros set H; cbn [deliver]; [reflexivity|].
  rewrite (H t) by left. destruct (event_status _ _); rewrite IH; auto; intros u Hu; apply H; right; exact Hu.
Qed.

(** Taking flags away satisfies nobody. *)
Lemma status_clear set m th : event_status set th = None -> event_status (clear_bits set m) th = None.
Proof.
  unfold event_status, clear_bits. destruct (has_bits _ RT_EVENT_FLAG_AND); [|destruct (has_bits _ RT_EVENT_FLAG_OR); [|auto]].
  - destruct (Z.eqb_spec (Z.land (event_set th) set) (event_set th)) as [|H]; [discriminate|]. intros _.
    destruct (Z.eqb_spec (Z.land (event_set th) (Z.land set (Z.lnot m))) (event_set th)) as [E|]; [|reflexivity].
    exfalso. apply H. rewrite <- E at 2. apply Z.bits_inj'. intros i Hi. apply (f_equal (fun z => Z.testbit z i)) in E.
    rewrite !Z.land_spec in *. destruct (Z.testbit (event_set th) i), (Z.testbit set i), (Z.testbit (Z.lnot m) i); auto.
  - unfold has_bits. destruct (Z.eqb_spec (Z.land (event_set th) set) 0) as [H|]; [|discriminate]. intros _.
    rewrite Z.land_assoc, H. reflexivity.
Qed.

(** The code's test decides [satisfied]. *)
Lemma has_bits_testbit n z : 0 <= n -> has_bits z (2 ^ n) = Z.testbit z n.
Proof.
  intros Hn. unfold has_bits. destruct (Z.testbit z n) eqn:E.
  - apply negb_true_iff, Z.eqb_neq. intros H. apply (f_equal (fun x => Z.testbit x n)) in H.
    rewrite Z.land_spec, E, Z.pow2_bits_true, Z.bits_0 in H by exact Hn. discriminate.
  - apply negb_false_iff, Z.eqb_eq. apply Z.bits_inj'. intros i Hi. rewrite Z.land_spec, Z.bits_0.
    destruct (Z.eq_dec i n) as [->|Hne]; [rewrite E; reflexivity | rewrite Z.pow2_bits_false, andb_false_r by auto; reflexivity].
Qed.

Lemma nonzero_bit z : z <> 0 -> exists i, Z.testbit z i = true.
Proof.
  intros Hz. destruct (Z_lt_le_dec 0 z) as [H|H].
  - exists (Z.log2 z). apply Z.bit_log2, H.
  - exists (Z.log2 (Z.pred (- z)) + 1). apply Z.bits_above_log2_neg; lia.
Qed.

Lemma status_satisfied set th :
  match event_status set th with Some r => satisfied set th /\ r = Z.land (event_set th) set | None => ~ satisfied set th end.
Proof.
  unfold event_status, satisfied. change RT_EVENT_FLAG_AND with (2 ^ 0). change RT_EVENT_FLAG_OR with (2 ^ 1). rewrite !has_bits_testbit by lia. destruct (Z.testbit _ 0); [|destruct (Z.testbit _ 1)].
  - destruct (Z.eqb_spec (Z.land (event_set th) set) (event_set th)) as [E|E].
    + split; [|auto]. intros i Hi. rewrite <- E, Z.land_spec in Hi. apply andb_true_iff in Hi. apply Hi.
    + intros H. apply E, Z.bits_inj'. intros i _. rewrite Z.land_spec. specialize (H i). destruct (Z.testbit (event_set th) i); [|reflexivity].
      rewrite H by reflexivity. reflexivity.
  - unfold has_bits. destruct (Z.eqb_spec (Z.land (event_set th) set) 0) as [E|E]; cbn [negb].
    + intros (i & H1 & H2). apply (f_equal (fun x => Z.testbit x i)) in E. rewrite Z.land_spec, H1, H2, Z.bits_0 in E. discriminate.
    + split; [|reflexivity]. destruct (nonzero_bit _ E) as [i Hi]. exists i. rewrite Z.land_spec in Hi. apply andb_true_iff, Hi.
  - tauto.
Qed.

Lemma deliver_delivery th ws : forall set, let '(s, woken, rest) := deliver th set ws in delivery th set ws s woken rest.
Proof.
  induction ws as [|t ws IH]; intros set; cbn [deliver]; [constructor|]. pose proof (status_satisfied set (th t)) as Hs.
  destruct (event_status set (th t)) as [r|].
  - destruct Hs as [Hs ->]. change RT_EVENT_FLAG_CLEAR with (2 ^ 2). rewrite has_bits_testbit by lia.
    replace (clear_bits set (Z.land (event_set (th t)) set)) with (Z.ldiff set (event_set (th t))).
    2:{ unfold clear_bits. apply Z.bits_inj'. intros i Hi. rewrite Z.ldiff_spec, Z.land_spec, Z.lnot_spec, Z.land_spec by exact Hi.
        destruct (Z.testbit set i), (Z.testbit (event_set (th t)) i); reflexivity. }
    specialize (IH (if Z.testbit (event_info (th t)) 2 then Z.ldiff set (event_set (th t)) else set)). cbv zeta in *.
    destruct (deliver _ _ ws) as [[s w] q]. constructor; assumption.
  - specialize (IH set). destruct (deliver _ _ ws) as [[s w] q]. constructor; assumption.
Qed.

Lemma deliver_keeps_unsatisfied th ws : forall set u,
  event_status set u = None -> event_status (deliver th set ws).1.1 u = None.
Proof.
  induction ws as [|t ws IH]; intros set u H; cbn [deliver]; [exact H|].
  destruct (event_status set (th t)) as [r|].
  - specialize (IH (if has_bits (event_info (th t)) RT_EVENT_FLAG_CLEAR then clear_bits set r else set) u).
    destruct (deliver _ _ ws) as [[s w] q]. apply IH. destruct (has_bits _ _); [apply status_clear|]; exact H.
  - specialize (IH set u H). destruct (deliver _ _ ws) as [[s w] q]. exact IH.
Qed.

(** Nobody is left waiting for flags that are there. *)
Lemma deliver_unsatisfied th ws : forall set t,
  t ∈ (deliver th set ws).2 -> t ∈ ws /\ event_status (deliver th set ws).1.1 (th t) = None.
Proof.
  induction ws as [|a ws IH]; intros set t; cbn [deliver]; [intros H; inversion H|].
  destruct (event_status set (th a)) as [r|] eqn:Ea.
  - specialize (IH (if has_bits (event_info (th a)) RT_EVENT_FLAG_CLEAR then clear_bits set r else set) t).
    destruct (deliver _ _ ws) as [[s w] q]. intros H. destruct (IH H). split; [right|]; assumption.
  - pose proof (deliver_keeps_unsatisfied th ws set (th a) Ea) as Hk. specialize (IH set t).
    destruct (deliver _ _ ws) as [[s w] q]. cbn [fst snd] in *. intros [->|H]%elem_of_cons.
    + split; [left|exact Hk].
    + destruct (IH H). split; [right|]; assumption.
Qed.

(** A woken thread gets all it asked for, or what there is of it. *)
Lemma deliver_received th ws : forall set t r,
  (t, r) ∈ (deliver th set ws).1.2 -> t ∈ ws /\ exists s, event_status s (th t) = Some r.
Proof.
  induction ws as [|a ws IH]; intros set t r; cbn [deliver]; [intros H; inversion H|].
  destruct (event_status set (th a)) as [r'|] eqn:Ea.
  - specialize (IH (if has_bits (event_info (th a)) RT_EVENT_FLAG_CLEAR then clear_bits set r' else set) t r).
    destruct (deliver _ _ ws) as [[s w] q]. intros [[= -> ->]|H]%elem_of_cons; [split; [left|eauto]|].
    destruct (IH H). split; [right|]; assumption.
  - specialize (IH set t r). destruct (deliver _ _ ws) as [[s w] q]. intros H. destruct (IH H). split; [right|]; assumption.
Qed.

Lemma deliver_disjoint th ws : forall set t,
  NoDup ws -> t ∈ (deliver th set ws).2 -> t ∉ (deliver th set ws).1.2.*1.
Proof.
  induction ws as [|a ws IH]; intros set t Hn; cbn [deliver]; [intros H; inversion H|].
  apply NoDup_cons in Hn as [Ha Hn]. destruct (event_status set (th a)) as [r|].
  - pose proof (deliver_unsatisfied th ws (if has_bits (event_info (th a)) RT_EVENT_FLAG_CLEAR then clear_bits set r else set) t) as Hu.
    specialize (IH (if has_bits (event_info (th a)) RT_EVENT_FLAG_CLEAR then clear_bits set r else set) t Hn).
    destruct (deliver _ _ ws) as [[s w] q]. cbn [fst snd] in *. intros H. rewrite fmap_cons, not_elem_of_cons.
    split; [|apply IH, H]. intros ->. apply Ha, Hu, H.
  - pose proof (fun r => deliver_received th ws set a r) as Hr. specialize (IH set t Hn).
    destruct (deliver _ _ ws) as [[s w] q]. cbn [fst snd] in *. intros [->|H]%elem_of_cons; [|apply IH, H].
    intros ([t' r'] & -> & H)%list_elem_of_fmap. apply Ha. apply (Hr r' H).
Qed.

(** ** Sending *)

Lemma filter_middle (t : nat) (p q : list nat) :
  NoDup (p ++ t :: q) -> filter (fun u => u <> t) (p ++ t :: q) = p ++ q.
Proof.
  intros (Hp & Hd & Hq)%NoDup_app. rewrite filter_app, filter_head by exact Hq. f_equal.
  apply filter_none. intros H. apply (Hd t H). left.
Qed.

(** A waiting thread is resumed from any place of its list, with its flags set. *)
Lemma wake_spec base k l t p q f :
  kernel_ok base k -> is_wait l = true -> lists k l = p ++ t :: q -> inert f ->
  exists k', rt_thread_resume (set_thread k t f) t = Some (k', RT_EOK) /\ kernel_ok base k' /\
    rt_tick k' = rt_tick k /\ rt_current_thread k' = rt_current_thread k /\
    rt_scheduler_lock_nest k' = rt_scheduler_lock_nest k /\
    lists k' l = p ++ q /\ other_waits k k' l /\
    (thread_stat (threads k' t) = RT_THREAD_READY \/ thread_stat (threads k' t) = RT_THREAD_RUNNING) /\
    wait_info (threads k' t) = wait_info (f (threads k t)) /\
    (forall u, u <> t -> threads k' u = threads k u).
Proof.
  intros Hok Hl El Hf. assert (Hin : t ∈ lists k l) by (rewrite El; apply elem_of_app; right; left).
  pose proof (set_thread_inert_ok base k t f Hf Hok) as Hok1. set (k1 := set_thread k t f) in *.
  destruct (resume_spec base k1 t Hok1 (wait_suspended k1 l t base Hok1 Hl Hin)) as (k' & -> & Hok' & Hot & Haw & _).
  exists k'. split; [reflexivity|]. split; [exact Hok'|]. destruct Hot as [F1 F2 F3 F4 F5 F6 F7 F8].
  assert (L : forall l', is_wait l' = true -> lists k' l' = filter (fun u => u <> t) (lists k l')).
  { intros l' Hl'. unfold awake in Haw. destruct (decide _); destruct Haw as [_ ->]; [reflexivity|].
    rewrite decide_False by (intros ->; discriminate Hl'). apply app_nil_r. }
  destruct (awake_thread _ _ _ _ Haw) as [S E]. split_ands; auto.
  - rewrite L, El by exact Hl. apply filter_middle. rewrite <- El. apply (so_lists _ (ko_sched _ _ Hok)).
  - intros l' Hl' Hne. rewrite L by exact Hl'. eapply filter_absent; eauto.
  - rewrite E. unfold k1. rewrite set_thread_threads. reflexivity.
  - intros u Hne. rewrite F5 by exact Hne. apply set_thread_other, Hne.
Qed.

Lemma recved_inert r : inert (fun th => th <| event_set := r |>).
Proof. intros th. auto. Qed.

Lemma send_loop_spec base e c ws : forall k ev need skipped,
  kernel_ok base k -> rt_current_thread k = Some c -> lists k (EventWait e) = skipped ++ ws ->
  let '(s, woken, rest) := deliver (threads k) (ev_set ev) ws in
  exists k', event_send_loop ws k ev need =
      Some (k', ev <| ev_set := s |>, need || negb (bool_decide (woken = []))) /\
    kernel_ok base k' /\ rt_tick k' = rt_tick k /\ rt_current_thread k' = Some c /\
    rt_scheduler_lock_nest k' = rt_scheduler_lock_nest k /\
    lists k' (EventWait e) = skipped ++ rest /\ other_waits k k' (EventWait e) /\
    (forall t r, (t, r) ∈ woken ->
       (thread_stat (threads k' t) = RT_THREAD_READY \/ thread_stat (threads k' t) = RT_THREAD_RUNNING) /\
       event_set (threads k' t) = r /\ error (threads k' t) = error (threads k t)) /\
    (forall t, t ∉ woken.*1 -> threads k' t = threads k t).
Proof.
  induction ws as [|t ws IH]; intros k ev need skipped Hok Hc El; cbn [deliver event_send_loop].
  { exists k. rewrite orb_false_r. split_ands; auto; [destruct ev; reflexivity|intros l _ _; reflexivity|].
    intros t r H. inversion H. }
  destruct (event_status (ev_set ev) (threads k t)) as [r|] eqn:Es.
  - destruct (wake_spec base k (EventWait e) t skipped ws (fun th => th <| event_set := r |>) Hok eq_refl El (recved_inert r))
      as (k1 & E1 & Hok1 & Ht1 & Hc1 & Hk1 & El1 & How & Hst & Hwi & Hoth).
    rewrite E1. cbn [mbind option_bind]. rewrite set_thread_threads. clear E1.
    change (event_info (threads k t <| event_set := r |>)) with (event_info (threads k t)).
    change (event_set (threads k t <| event_set := r |>)) with r.
    set (ev1 := if has_bits _ _ then _ else ev).
    assert (Eset : ev_set ev1 = if has_bits (event_info (threads k t)) RT_EVENT_FLAG_CLEAR
                                then clear_bits (ev_set ev) r else ev_set ev) by (unfold ev1; destruct (has_bits _ _); reflexivity).
    assert (Ef : ev_flag ev1 = ev_flag ev) by (unfold ev1; destruct (has_bits _ _); reflexivity).
    rewrite Hc in Hc1. specialize (IH k1 ev1 true skipped Hok1 Hc1 El1).
    assert (Htws : t ∉ ws).
    { pose proof (lo_nodup _ (so_lists _ (ko_sched _ _ Hok)) (EventWait e)) as Hn. rewrite El in Hn.
      apply NoDup_app in Hn as (_ & _ & Hn). apply NoDup_cons in Hn. tauto. }
    rewrite Eset, (deliver_ext (threads k) (threads k1)) in IH by (intros u Hu; apply Hoth; intros ->; contradiction).
    pose proof (fun r => deliver_received (threads k) ws (if has_bits (event_info (threads k t)) RT_EVENT_FLAG_CLEAR
                                then clear_bits (ev_set ev) r else ev_set ev) t) as Hrec.
    specialize (Hrec r). destruct (deliver _ _ ws) as [[s w] q].
    destruct IH as (k2 & -> & Hok2 & Ht2 & Hc2 & Hk2 & El2 & How2 & Hw2 & Ho2). cbn [fst snd] in *.
    assert (Htw : t ∉ w.*1).
    { intros ([t' r'] & -> & H)%list_elem_of_fmap. apply Htws, (Hrec r' H). }
    exists k2. split_ands; auto; try congruence.
    + rewrite orb_true_r. f_equal. f_equal. f_equal. destruct ev as [a b], ev1 as [a1 b1]. cbn in *. subst b1. reflexivity.
    + intros l Hl Hne. rewrite How2, How by assumption. reflexivity.
    + intros u r'. intros [[= -> ->]|H]%elem_of_cons.
      * rewrite Ho2 by exact Htw. apply wait_info_fields in Hwi as (A & B & _). auto.
      * destruct (Hw2 u r' H) as (A & B & C). split; [exact A|]. split; [exact B|]. rewrite C, Hoth; [reflexivity|].
        intros ->. apply Htw. apply list_elem_of_fmap. exists (t, r'). auto.
    + intros u Hu. rewrite fmap_cons, not_elem_of_cons in Hu. destruct Hu as [Hne Hu]. rewrite Ho2, Hoth by assumption. reflexivity.
  - specialize (IH k ev need (skipped ++ [t]) Hok Hc). rewrite <- app_assoc in IH. specialize (IH El).
    destruct (deliver (threads k) (ev_set ev) ws) as [[s w] q].
    destruct IH as (k2 & -> & H1 & H2 & H3 & H4 & H5 & H6). exists k2. rewrite <- app_assoc in H5. auto 10.
Qed.

Lemma event_send_ok k e ev set c :
  kernel_ok (rt_tick k) k -> rt_current_thread k = Some c -> set <> 0 ->
  let '(s, woken, rest) := deliver (threads k) (Z.lor (ev_set ev) set) (lists k (EventWait e)) in
  exists k', rt_event_send k e ev set = Some (k', ev <| ev_set := s |>, RT_EOK) /\ kernel_ok (rt_tick k') k' /\
    (exists c', rt_current_thread k' = Some c' /\
       (rt_scheduler_lock_nest k = 0 -> woken <> [] -> best_running k' c')) /\
    lists k' (EventWait e) = rest /\ other_waits k k' (EventWait e) /\
    (forall t r, (t, r) ∈ woken ->
       (thread_stat (threads k' t) = RT_THREAD_READY \/ thread_stat (threads k' t) = RT_THREAD_RUNNING) /\
       event_set (threads k' t) = r /\ error (threads k' t) = error (threads k t)) /\
    (forall t, t ∈ rest -> wait_info (threads k' t) = wait_info (threads k t)).
Proof.
  intros Hok Hc Hset. unfold rt_event_send. rewrite (proj2 (Z.eqb_neq _ _)) by exact Hset.
  set (ev1 := ev <| ev_set := Z.lor (ev_set ev) set |>).
  pose proof (send_loop_spec (rt_tick k) e c (lists k (EventWait e)) k ev1 false [] Hok Hc eq_refl) as H.
  change (ev_set ev1) with (Z.lor (ev_set ev) set) in H.
  pose proof (fun t => deliver_disjoint (threads k) (lists k (EventWait e)) (Z.lor (ev_set ev) set) t
                (lo_nodup _ (so_lists _ (ko_sched _ _ Hok)) (EventWait e))) as Hdis.
  destruct (deliver _ _ _) as [[s w] q]. destruct H as (k1 & -> & Hok1 & Ht1 & Hc1 & Hk1 & El1 & How & Hw & Ho).
  cbn [mbind option_bind orb fst snd] in *. change (ev1 <| ev_set := s |>) with (ev <| ev_set := s |>).
  destruct (bool_decide_reflect (w = [])) as [Ew|Ew]; cbn [negb mbind option_bind].
  - exists k1. split_ands; auto; [rewrite Ht1; exact Hok1|exists c; split; [exact Hc1|contradiction]|].
    intros t Ht. rewrite Ho by (apply Hdis, Ht). reflexivity.
  - destruct (schedule_kernel_ok _ k1 c Hok1 Hc1) as (k2 & c' & -> & Hok2 & Hf & Hc' & Hb). cbn [mbind option_bind].
    exists k2. split; [reflexivity|]. split_ands.
    + rewrite (sf_tick _ _ Hf), Ht1. exact Hok2.
    + exists c'. split; [exact Hc'|]. intros H _. apply Hb. congruence.
    + rewrite (sf_lists _ _ Hf (EventWait e)). exact El1.
    + intros l Hl Hne. pose proof (sf_lists _ _ Hf l) as Hs. destruct l; try discriminate Hl; rewrite Hs; apply How; auto.
    + intros t r H. destruct (Hw t r H) as (A & B & C). rewrite (sf_threads _ _ Hf t). split; [|split; [exact B|exact C]].
      change (threads k1 t <| stat := stat (threads k2 t) |>) with (threads k1 t <| stat := stat (threads k2 t) |>).
      rewrite <- (sf_threads _ _ Hf t). destruct (sf_stat _ _ Hf t) as [->|[_ D]]; [exact A|exact D].
    + intros t Ht. rewrite (sf_threads _ _ Hf t). rewrite Ho by (apply Hdis, Ht). reflexivity.
Qed.

(** ** Receiving *)

(** The test of a receiver is the test of a waiting thread. *)
Lemma recv_waits k e ev set opt timeout c k' ev' r :
  kernel_ok (rt_tick k) k -> rt_current_thread k = Some c -> thread_stat (threads k c) = RT_THREAD_RUNNING ->
  timeout < RT_TICK_HALF -> rt_event_recv k e ev set opt timeout = Some (k', ev', Waits, r) ->
  ev' = ev /\ r = None /\ waiting k k' c (deadline_of k timeout) /\
  wait_info (threads k' c) = (RT_EOK, set, opt) /\ event_status (ev_set ev) (threads k' c) = None /\
  lists k' (EventWait e) = enqueued (ev_flag ev) (fun u => current_priority (threads k u)) c (lists k (EventWait e)) /\
  other_waits k k' (EventWait e) /\
  (forall u, u <> c -> wait_info (threads k' u) = wait_info (threads k u)).
Proof.
  intros Hok Hc Hrun Htime. unfold rt_event_recv. destruct (in_thread_context k); cbn [negb]; [|discriminate].
  destruct (Z.eqb_spec set 0) as [|Hset]; [discriminate|]. unfold rt_thread_self. rewrite Hc. cbn [mbind option_bind].
  set (k1 := set_thread k c (fun th => th <| error := RT_EOK |>)).
  destruct (if has_bits opt RT_EVENT_FLAG_AND then _ else _) as [st|] eqn:Est; [|discriminate]. cbn [mbind option_bind].
  destruct (Z.eqb_spec st RT_EOK) as [|Hst]; [discriminate|]. destruct (Z.eqb_spec timeout 0) as [|Ht0]; [discriminate|].
  set (k2 := set_thread k1 c (fun th => th <| event_set := set |> <| event_info := opt |>)).
  assert (E2 : threads k2 c = threads k c <| error := RT_EOK |> <| event_set := set |> <| event_info := opt |>).
  { unfold k2, k1. rewrite !set_thread_threads. reflexivity. }
  assert (E2o : forall u, u <> c -> threads k2 u = threads k u).
  { intros u Hu. unfold k2, k1. rewrite !set_thread_other by exact Hu. reflexivity. }
  assert (Hok2 : kernel_ok (rt_tick k2) k2).
  { unfold k2, k1. do 2 (apply set_thread_inert_ok; [intros th; auto|]). exact Hok. }
  assert (Hrun2 : thread_stat (threads k2 c) = RT_THREAD_RUNNING) by (rewrite E2; exact Hrun).
  assert (Ep : forall u, current_priority (threads k2 u) = current_priority (threads k u)).
  { intros u. destruct (decide (u = c)) as [->|Hne]; [rewrite E2|rewrite E2o by exact Hne]; reflexivity. }
  destruct (ipc_wait_spec k2 (EventWait e) c (ev_flag ev) timeout Hok2 Hc Hrun2 eq_refl Htime) as (k3 & -> & Hw & El & How & He).
  cbn [mbind option_bind]. intros [= <- <- <-].
  destruct (He c) as (A & B & C). rewrite E2 in A, B, C. cbn in A, B, C. split; [reflexivity|]. split; [reflexivity|]. split_ands.
  - destruct Hw as [W1 W2 W3 W4 W5 W6]. split; auto. intros t. rewrite W6. apply Ep.
  - unfold wait_info. rewrite A, B, C. reflexivity.
  - unfold event_status. rewrite B, C. destruct (has_bits opt RT_EVENT_FLAG_AND).
    + injection Est as <-. rewrite (Z.land_comm set). destruct (_ =? set); [contradiction|reflexivity].
    + destruct (has_bits opt RT_EVENT_FLAG_OR); [|discriminate]. injection Est as <-.
      unfold has_bits in *. rewrite (Z.land_comm set). destruct (_ =? 0); [reflexivity|contradiction].
  - rewrite El. apply enqueued_prio_ext, Ep.
  - exact How.
  - intros u Hne. destruct (He u) as (A' & B' & C'). rewrite E2o in A', B', C' by exact Hne. unfold wait_info. congruence.
Qed.

(** A receiver that does not wait changes its own error and the set only. *)
Lemma recv_returns k e ev set opt timeout c k' ev' x r :
  kernel_ok (rt_tick k) k -> rt_current_thread k = Some c ->
  rt_event_recv k e ev set opt timeout = Some (k', ev', Returns x, r) ->
  kernel_ok (rt_tick k') k' /\ rt_current_thread k' = Some c /\ lists k' = lists k /\
  (forall u, u <> c -> threads k' u = threads k u) /\
  (ev' = ev \/ ev' = ev <| ev_set := clear_bits (ev_set ev) set |>).
Proof.
  intros Hok Hc. unfold rt_event_recv. destruct (in_thread_context k); cbn [negb]; [|discriminate].
  destruct (set =? 0); [intros [= <- <- <- <-]; split_ands; auto|].
  unfold rt_thread_self. rewrite Hc. cbn [mbind option_bind].
  destruct (if has_bits opt RT_EVENT_FLAG_AND then _ else _) as [st|]; [|discriminate]. cbn [mbind option_bind].
  destruct (st =? RT_EOK).
  - intros [= <- <- <- <-]. split_ands; auto.
    + apply set_thread_inert_ok; [intros th; auto|exact Hok].
    + intros u Hu. apply set_thread_other, Hu.
    + destruct (has_bits _ _); auto.
  - destruct (timeout =? 0); [|destruct (ipc_wait _ _ _ _ _); discriminate].
    intros [= <- <- <- <-]. split_ands; auto.
    + do 2 (apply set_thread_inert_ok; [intros th; auto|]). exact Hok.
    + intros u Hu. rewrite !set_thread_other by exact Hu. reflexivity.
Qed.

(** ** An event in use *)

Record event_system := mkEventSystem { es_kernel : Kernel; es_event : Event }.

Section EventSteps.
Variable e : nat.

Inductive event_step : event_system -> event_system -> Prop :=
| estep_recv k ev set opt timeout c k' ev' x r :
    rt_current_thread k = Some c -> thread_stat (threads k c) = RT_THREAD_RUNNING ->
    rt_event_recv k e ev set opt timeout = Some (k', ev', Returns x, r) ->
    event_step (mkEventSystem k ev) (mkEventSystem k' ev')
| estep_recv_waits k ev set opt timeout c k' ev' r :
    rt_current_thread k = Some c -> thread_stat (threads k c) = RT_THREAD_RUNNING -> timeout < RT_TICK_HALF ->
    rt_event_recv k e ev set opt timeout = Some (k', ev', Waits, r) ->
    event_step (mkEventSystem k ev) (mkEventSystem k' ev')
| estep_send k ev set k' ev' x :
    rt_event_send k e ev set = Some (k', ev', x) ->
    event_step (mkEventSystem k ev) (mkEventSystem k' ev')
| estep_reset k ev k' ev' x :
    rt_event_control k e ev RT_IPC_CMD_RESET = Some (k', ev', x) ->
    event_step (mkEventSystem k ev) (mkEventSystem k' ev')
| estep_rest k ev k' :
    rest_step (EventWait e) k k' -> event_step (mkEventSystem k ev) (mkEventSystem k' ev).

Record event_inv (y : event_system) : Prop := {
  ei_ok : kernel_ok (rt_tick (es_kernel y)) (es_kernel y);
  ei_current : exists c, rt_current_thread (es_kernel y) = Some c;
  ei_waiters : forall t, t ∈ lists (es_kernel y) (EventWait e) ->
    error (threads (es_kernel y) t) = RT_EOK /\
    event_status (ev_set (es_event y)) (threads (es_kernel y) t) = None;
}.

Lemma status_info set th th' : wait_info th' = wait_info th -> event_status set th' = event_status set th.
Proof. intros (_ & A & B)%wait_info_fields. unfold event_status. rewrite A, B. reflexivity. Qed.

Lemma running_not_waiting base k l c t :
  kernel_ok base k -> is_wait l = true -> thread_stat (threads k c) = RT_THREAD_RUNNING -> t ∈ lists k l -> t <> c.
Proof.
  intros Hok Hl Hrun Hin ->. rewrite (wait_suspended k l c base Hok Hl Hin) in Hrun. discriminate.
Qed.

Lemma event_step_inv y y' : event_inv y -> event_step y y' -> event_inv y'.
Proof.
  intros [Hok [c Hc] Hw] Hstep. destruct Hstep as
    [k ev set opt timeout c' k' ev' x r Hc' Hrun E|k ev set opt timeout c' k' ev' r Hc' Hrun Htime E
    |k ev set k' ev' x E|k ev k' ev' x E|k ev k' [R1 R2 R3 R4]]; cbn [es_kernel es_event] in *.
  - assert (c' = c) as -> by congruence.
    destruct (recv_returns _ _ _ _ _ _ _ _ _ _ _ Hok Hc E) as (Hok' & Hc2 & Hll & Ho & Hev).
    split; cbn [es_kernel es_event]; eauto. intros t. rewrite Hll. intros Hin.
    rewrite Ho by (exact (running_not_waiting _ k (EventWait e) c t Hok eq_refl Hrun Hin)). destruct (Hw t Hin) as [A B]. split; [exact A|].
    destruct Hev as [->| ->]; [exact B|]. apply status_clear, B.
  - assert (c' = c) as -> by congruence.
    destruct (recv_waits _ _ _ _ _ _ _ _ _ _ Hok Hc Hrun Htime E) as (-> & _ & [W1 W2 W3 W4 (c2 & W5 & _) W6] & Hwi & Hst & El & _ & Ho).
    split; cbn [es_kernel es_event]; eauto. intros t. rewrite El. intros Hin.
    destruct (decide (t = c)) as [->|Hne]; [split; [injection Hwi; auto|exact Hst]|].
    apply enqueued_elem in Hin as [->|Hin]; [contradiction|]. destruct (Hw t Hin) as [A B].
    rewrite (status_info _ _ _ (Ho t Hne)). split; [|exact B]. rewrite (proj1 (wait_info_fields _ _ (Ho t Hne))). exact A.
  - destruct (Z.eq_dec set 0) as [->|Hset]; [injection E as <- <- <-; split; cbn [es_kernel es_event]; eauto|].
    pose proof (event_send_ok k e ev set c Hok Hc Hset) as H.
    pose proof (deliver_unsatisfied (threads k) (lists k (EventWait e)) (Z.lor (ev_set ev) set)) as Hu.
    destruct (deliver _ _ _) as [[s w] q]. destruct H as (k2 & E2 & Hok2 & (c2 & Hc2 & _) & El & _ & _ & Hi).
    rewrite E in E2. injection E2 as -> -> ->. split; cbn [es_kernel es_event fst snd] in *; eauto.
    intros t. rewrite El. intros Hin. destruct (Hu t Hin) as [Hin' Hn]. destruct (Hw t Hin') as [A _].
    rewrite (status_info _ _ _ (Hi t Hin)). split; [|exact Hn]. rewrite (proj1 (wait_info_fields _ _ (Hi t Hin))). exact A.
  - unfold rt_event_control in E. rewrite Z.eqb_refl in E.
    destruct (resume_all_spec _ k (EventWait e) Hok eq_refl) as (k1 & E1 & Hok1 & Ht1 & Hc1 & Hk1 & El & _).
    rewrite E1 in E. cbn [mbind option_bind] in E. rewrite Hc in Hc1.
    destruct (schedule_kernel_ok _ k1 c Hok1 Hc1) as (k2 & c2 & E2 & Hok2 & Hf & Hc2 & _).
    rewrite E2 in E. injection E as <- <- <-. split; cbn [es_kernel es_event]; eauto.
    + rewrite (sf_tick _ _ Hf), Ht1. exact Hok2.
    + intros t. pose proof (sf_lists _ _ Hf (EventWait e)) as Hs. cbv beta iota in Hs. rewrite Hs, El. intros H. inversion H.
  - split; cbn [es_kernel es_event]; eauto. intros t Hin.
    destruct (Hw t (elem_of_sublist _ _ _ Hin R3)) as [A B]. rewrite (status_info _ _ _ (R4 t Hin)).
    split; [|exact B]. rewrite (proj1 (wait_info_fields _ _ (R4 t Hin))). exact A.
Qed.

Inductive event_reach (y0 : event_system) : event_system -> Prop :=
| event_here : event_reach y0 y0
| event_then y y' : event_reach y0 y -> event_step y y' -> event_reach y0 y'.

Lemma event_reach_inv y0 y : event_inv y0 -> event_reach y0 y -> event_inv y.
Proof. intros H0 Hr. induction Hr; [exact H0|eapply event_step_inv; eauto]. Qed.
End EventSteps.

Lemma event_init_inv k e flag :
  kernel_ok (rt_tick k) k -> (exists c, rt_current_thread k = Some c) -> lists k (EventWait e) = [] ->
  let '(k', ev, _) := rt_event_init k e flag in event_inv e (mkEventSystem k' ev).
Proof.
  intros Hok Hc Hl. unfold rt_event_init. split; cbn [es_kernel es_event].
  - apply object_init_ok; assumption.
  - exact Hc.
  - intros t. cbn. rewrite upd_same. intros H. inversion H.
Qed.

(** ** Properties *)

(** C24: a send adds the flags and serves the waiting threads in list order, each
    one by the flags that are set when its turn comes ([delivery]): one whose
    condition holds - all its flags are set, or any of them - becomes ready with
    those of its flags that are set, which its call then returns, and removes its
    flags from the event if it asked to; the others stay in the list, and none of
    them is satisfied by the flags that are left.  The best ready thread then
    runs. *)
Theorem event_send_spec k e ev set c :
  kernel_ok (rt_tick k) k -> rt_current_thread k = Some c -> set <> 0 ->
  exists k' left woken rest, delivery (threads k) (Z.lor (ev_set ev) set) (lists k (EventWait e)) left woken rest /\
    rt_event_send k e ev set = Some (k', ev <| ev_set := left |>, RT_EOK) /\ kernel_ok (rt_tick k') k' /\
    lists k' (EventWait e) = rest /\ other_waits k k' (EventWait e) /\
    (forall t r, (t, r) ∈ woken ->
       (thread_stat (threads k' t) = RT_THREAD_READY \/ thread_stat (threads k' t) = RT_THREAD_RUNNING) /\
       (error (threads k t) = RT_EOK -> rt_event_recv_end k' t = (RT_EOK, Some r))) /\
    (forall t, t ∈ rest -> ~ satisfied left (threads k' t)) /\
    (rt_scheduler_lock_nest k = 0 -> woken <> [] -> exists c', rt_current_thread k' = Some c' /\ best_running k' c').
Proof.
  intros Hok Hc Hset. pose proof (event_send_ok k e ev set c Hok Hc Hset) as H.
  pose proof (deliver_unsatisfied (threads k) (lists k (EventWait e)) (Z.lor (ev_set ev) set)) as Hu.
  pose proof (deliver_delivery (threads k) (lists k (EventWait e)) (Z.lor (ev_set ev) set)) as Hd.
  destruct (deliver _ _ _) as [[s w] q]. cbn [fst snd] in *.
  destruct H as (k' & E & Hok' & (c' & Hc' & Hb) & El & How & Hw & Hi). exists k', s, w, q. split_ands; auto.
  - intros t r H. destruct (Hw t r H) as (A & B & C). split; [exact A|]. intros D. unfold rt_event_recv_end.
    rewrite C, D, B. reflexivity.
  - intros t Ht. pose proof (status_satisfied s (threads k' t)) as Hs. rewrite (status_info _ _ _ (Hi t Ht)) in Hs.
    destruct (Hu t Ht) as [_ E0]. rewrite E0 in Hs. exact Hs.
  - intros Hlock Hne. exists c'. auto.
Qed.

(** Thread 6 waits for any of the flags 5 and takes them off. *)
Lemma demo_delivery : delivery (threads demo) 7 [6%nat] 2 [(6%nat, 5)] [].
Proof.
  apply (delivery_served (threads demo) 7 6 [] 2 [] []); [|constructor].
  vm_compute. intros [|[p|p|]|]; auto; try (destruct p; auto).
Qed.

Lemma event_send_spec_witness :
  exists k', rt_event_send demo 8 (mkEvent 1 RT_IPC_FLAG_FIFO) 6 = Some (k', mkEvent 2 RT_IPC_FLAG_FIFO, RT_EOK) /\
    lists k' (EventWait 8) = [] /\ rt_event_recv_end k' 6 = (RT_EOK, Some 5).
Proof.
  destruct (event_send_spec demo 8 (mkEvent 1 RT_IPC_FLAG_FIFO) 6 0 demo_ok eq_refl ltac:(discriminate))
    as (k' & left & woken & rest & Hd & E & _ & El & _ & Hw & _).
  destruct (delivery_unique _ _ _ _ _ _ _ _ _ Hd demo_delivery) as (-> & -> & ->).
  exists k'. split; [exact E|]. split; [exact El|]. apply (Hw 6%nat 5); [left|reflexivity].
Defined.

(** No wake-up is lost: in every state an initialised event reaches through
    receives (at once, waiting or refused), sends, resets and whatever the rest of
    the system does to the waiters, no thread waits for flags that are set, and
    every waiter would be told of success when it is woken. *)
Theorem event_no_lost_wakeup k e flag :
  kernel_ok (rt_tick k) k -> (exists c, rt_current_thread k = Some c) -> lists k (EventWait e) = [] ->
  let '(k', ev, _) := rt_event_init k e flag in
  forall y, event_reach e (mkEventSystem k' ev) y ->
    forall t, t ∈ lists (es_kernel y) (EventWait e) ->
      event_status (ev_set (es_event y)) (threads (es_kernel y) t) = None /\
      fst (rt_event_recv_end (es_kernel y) t) = RT_EOK.
Proof.
  intros Hok Hc Hl. pose proof (event_init_inv k e flag Hok Hc Hl) as Hi.
  destruct (rt_event_init k e flag) as [[k' ev] x]. intros y Hr t Hin.
  destruct (event_reach_inv e _ y Hi Hr) as [_ _ Hw]. destruct (Hw t Hin) as [A B]. split; [exact B|].
  unfold rt_event_recv_end. rewrite A. reflexivity.
Qed.

(** The running thread waits on event 9 for all of the flags 3; then flag 1 is sent. *)
Lemma event_no_lost_wakeup_witness :
  exists y, event_reach 9 (mkEventSystem (rt_event_init demo 9 RT_IPC_FLAG_FIFO).1.1 (mkEvent 0 RT_IPC_FLAG_FIFO)) y /\
    lists (es_kernel y) (EventWait 9) = [0%nat] /\ ev_set (es_event y) = 1 /\
    event_status 1 (threads (es_kernel y) 0) = None.
Proof.
  pose proof (event_no_lost_wakeup demo 9 RT_IPC_FLAG_FIFO demo_ok (ex_intro _ 0%nat eq_refl) eq_refl) as H.
  unfold rt_event_init in H. cbn [fst].
  set (k0 := rt_ipc_object_init demo (EventWait 9)) in *.
  destruct (rt_event_recv k0 9 (mkEvent 0 RT_IPC_FLAG_FIFO) 3 RT_EVENT_FLAG_AND (-1)) as [[[[k1 ev1] o1] r1]|] eqn:E1;
    [|vm_compute in E1; discriminate].
  assert (Ho : o1 = Waits) by (vm_compute in E1; injection E1; intros; subst; reflexivity). subst o1.
  destruct (rt_event_send k1 9 ev1 1) as [[[k2 ev2] x2]|] eqn:E2.
  2:{ vm_compute in E1. injection E1 as <- <- _. vm_compute in E2. discriminate. }
  assert (Hr : event_reach 9 (mkEventSystem k0 (mkEvent 0 RT_IPC_FLAG_FIFO)) (mkEventSystem k2 ev2)).
  { eapply event_then; [eapply event_then; [apply event_here|]|].
    - eapply (estep_recv_waits 9 k0 _ 3 RT_EVENT_FLAG_AND (-1) 0%nat); [reflexivity|reflexivity|reflexivity|exact E1].
    - eapply estep_send. exact E2. }
  exists (mkEventSystem k2 ev2). split; [exact Hr|].
  assert (L : lists k2 (EventWait 9) = [0%nat] /\ ev_set ev2 = 1).
  { vm_compute in E1. injection E1 as <- <- _. vm_compute in E2. injection E2 as <- <- _. split; reflexivity. }
  destruct L as [L1 L2]. split; [exact L1|]. split; [exact L2|].
  specialize (H _ Hr 0%nat). cbn [es_kernel es_event] in H. rewrite L1, L2 in H. apply H. left.
Defined.
