(* ===== verification/Mailbox.v ===== *)
(** Mailboxes: bounded queues of one-word mails, with waiting senders and
    receivers (src/rt-thread/src/ipc.c, rt_mb_init to rt_mb_control).  A call that
    waits hands over its locals and goes on with [rt_mb_send_resume] or
    [rt_mb_recv_resume]. *)

From S2P Require Import Prelude Kernel Scheduler Timer Thread Tick Ipc.

(** ** Definitions *)

Record Mailbox := mkMailbox {
  msg_pool : list Z;       (* rt_ubase_t * *)
  mb_size : Z;             (* rt_uint16_t, as the other counters *)
  mb_entry : Z;
  in_offset : Z;
  out_offset : Z;
  mb_flag : Z;
}.
#[export] Instance Mailbox_rebuild : Rebuild Mailbox := fun m =>
  mkMailbox (msg_pool m) (mb_size m) (mb_entry m) (in_offset m) (out_offset m) (mb_flag m).

Definition rt_mb_init (k : Kernel) (b : nat) (msgpool : list Z) (size flag : Z) : Kernel * Mailbox * Z :=
  let k := rt_ipc_object_init k (MbRecvWait b) in
  let k := k <| lists := upd (lists k) (MbSendWait b) [] |> in
  (k, mkMailbox msgpool (u16 size) 0 0 0 flag, RT_EOK).

Definition mb_resume_all (k : Kernel) (b : nat) : option Kernel :=
  k ← rt_ipc_list_resume_all k (MbRecvWait b);
  rt_ipc_list_resume_all k (MbSendWait b).

Definition rt_mb_detach (k : Kernel) (b : nat) : option (Kernel * Z) :=
  k ← mb_resume_all k b; Some (k, RT_EOK).
Definition rt_mb_delete (k : Kernel) (b : nat) : option (Kernel * Z) :=
  if negb (rt_interrupt_nest k =? 0) then None
  else k ← mb_resume_all k b; Some (k, RT_EOK).

(** A call returns, or waits with its locals [timeout] and [tick_delta]. *)
Inductive mb_outcome := MbReturns (e : Z) | MbWaits (timeout tick_delta : Z).

(** [if (++offset >= mb->size) offset = 0] *)
Definition next_offset (mb : Mailbox) (offset : Z) : Z :=
  let offset := u16 (offset + 1) in if mb_size mb <=? offset then 0 else offset.

(** The end of both calls: the first thread waiting for the other side resumes. *)
Definition mb_wake (k : Kernel) (l : list_head) : option Kernel :=
  match lists k l with
  | _ :: _ => k ← rt_ipc_list_resume k l; rt_schedule k
  | [] => Some k
  end.

(** The wait inside the loops; [tick_delta] is set for a limited wait only. *)
Definition mb_block (k : Kernel) (l : list_head) (flag timeout tick_delta : Z) : option (Kernel * mb_outcome) :=
  if negb (in_thread_context k) then None
  else
    t ← rt_thread_self k;
    let start := if 0 <? timeout then rt_tick k else tick_delta in
    k ← ipc_wait k l t flag timeout;
    Some (k, MbWaits timeout start).

Definition reset_error (k : Kernel) : option Kernel :=
  t ← rt_thread_self k; Some (set_thread k t (fun th => th <| error := RT_EOK |>)).

(** [tick_delta = rt_tick_get() - tick_delta; timeout -= tick_delta], the latter not
    below zero, for a limited wait. *)
Definition time_left (k : Kernel) (timeout tick_delta : Z) : Z * Z :=
  if 0 <? timeout then
    let tick_delta := u32 (rt_tick k - tick_delta) in
    let timeout := s32 (u32 (timeout - tick_delta)) in
    (if timeout <? 0 then 0 else timeout, tick_delta)
  else (timeout, tick_delta).

(** From the test of the loop on. *)
Definition mb_send_turn (k : Kernel) (b : nat) (mb : Mailbox) (value timeout tick_delta : Z)
    : option (Kernel * Mailbox * mb_outcome) :=
  if mb_entry mb =? mb_size mb then
    k ← reset_error k;
    if timeout =? 0 then Some (k, mb, MbReturns (- RT_EFULL))
    else
      '(k, o) ← mb_block k (MbSendWait b) (mb_flag mb) timeout tick_delta;
      Some (k, mb, o)
  else
    pool ← buf_set (msg_pool mb) (in_offset mb) value;
    let mb := mb <| msg_pool := pool |> <| in_offset := next_offset mb (in_offset mb) |>
                 <| mb_entry := u16 (mb_entry mb + 1) |> in
    k ← mb_wake k (MbRecvWait b);
    Some (k, mb, MbReturns RT_EOK).

Definition rt_mb_send_wait (k : Kernel) (b : nat) (mb : Mailbox) (value timeout : Z)
    : option (Kernel * Mailbox * mb_outcome) :=
  if (mb_entry mb =? mb_size mb) && (timeout =? 0) then Some (k, mb, MbReturns (- RT_EFULL))
  else mb_send_turn k b mb value timeout 0.

(** The call of thread [t] goes on. *)
Definition rt_mb_send_resume (k : Kernel) (b : nat) (mb : Mailbox) (t : nat) (value timeout tick_delta : Z)
    : option (Kernel * Mailbox * mb_outcome) :=
  if negb (error (threads k t) =? RT_EOK) then Some (k, mb, MbReturns (error (threads k t)))
  else let '(timeout, tick_delta) := time_left k timeout tick_delta in mb_send_turn k b mb value timeout tick_delta.

Definition rt_mb_send (k : Kernel) (b : nat) (mb : Mailbox) (value : Z) : option (Kernel * Mailbox * mb_outcome) :=
  rt_mb_send_wait k b mb value 0.

(** The mail received is the last component. *)
Definition mb_recv_turn (k : Kernel) (b : nat) (mb : Mailbox) (timeout tick_delta : Z)
    : option (Kernel * Mailbox * mb_outcome * option Z) :=
  if mb_entry mb =? 0 then
    k ← reset_error k;
    if timeout =? 0 then
      t ← rt_thread_self k;
      Some (set_thread k t (fun th => th <| error := - RT_ETIMEOUT |>), mb, MbReturns (- RT_ETIMEOUT), None)
    else
      '(k, o) ← mb_block k (MbRecvWait b) (mb_flag mb) timeout tick_delta;
      Some (k, mb, o, None)
  else
    value ← buf_get (msg_pool mb) (out_offset mb);
    let mb := mb <| out_offset := next_offset mb (out_offset mb) |> <| mb_entry := u16 (mb_entry mb - 1) |> in
    k ← mb_wake k (MbSendWait b);
    Some (k, mb, MbReturns RT_EOK, Some value).

Definition rt_mb_recv (k : Kernel) (b : nat) (mb : Mailbox) (timeout : Z)
    : option (Kernel * Mailbox * mb_outcome * option Z) :=
  if (mb_entry mb =? 0) && (timeout =? 0) then Some (k, mb, MbReturns (- RT_ETIMEOUT), None)
  else mb_recv_turn k b mb timeout 0.

Definition rt_mb_recv_resume (k : Kernel) (b : nat) (mb : Mailbox) (t : nat) (timeout tick_delta : Z)
    : option (Kernel * Mailbox * mb_outcome * option Z) :=
  if negb (error (threads k t) =? RT_EOK) then Some (k, mb, MbReturns (error (threads k t)), None)
  else let '(timeout, tick_delta) := time_left k timeout tick_delta in mb_recv_turn k b mb timeout tick_delta.

Definition rt_mb_control (k : Kernel) (b : nat) (mb : Mailbox) (cmd : Z) : option (Kernel * Mailbox * Z) :=
  if cmd =? RT_IPC_CMD_RESET then
    k ← mb_resume_all k b;
    let mb := mb <| mb_entry := 0 |> <| in_offset := 0 |> <| out_offset := 0 |> in
    k ← rt_schedule k;
    Some (k, mb, RT_EOK)
  else Some (k, mb, - RT_ERROR).

(** ** The stored mails *)

Record mb_wf (mb : Mailbox) : Prop := {
  mw_size : 0 < mb_size mb < 65536;
  mw_pool : Z.of_nat (length (msg_pool mb)) = mb_size mb;
  mw_entry : 0 <= mb_entry mb <= mb_size mb;
  mw_out : 0 <= out_offset mb < mb_size mb;
  mw_in : in_offset mb = (out_offset mb + mb_entry mb) mod mb_size mb;
}.

(** The mails in the order they will be received. *)
Definition mails (mb : Mailbox) : list Z :=
  map (fun i => nth (Z.to_nat ((out_offset mb + Z.of_nat i) mod mb_size mb)) (msg_pool mb) 0)
      (seq 0 (Z.to_nat (mb_entry mb))).

Lemma mails_length mb : mb_wf mb -> Z.of_nat (length (mails mb)) = mb_entry mb.
Proof. intros []. unfold mails. rewrite length_map, length_seq. lia. Qed.

Lemma next_offset_mod mb x : 0 < mb_size mb < 65536 -> 0 <= x < mb_size mb -> next_offset mb x = (x + 1) mod mb_size mb.
Proof.
  intros Hs Hx. unfold next_offset. rewrite u16_small by lia. destruct (Z.leb_spec (mb_size mb) (x + 1)).
  - replace (x + 1) with (mb_size mb) by lia. rewrite Z.mod_same by lia. reflexivity.
  - rewrite Z.mod_small by lia. reflexivity.
Qed.

(** Within one round of the ring two places are the same only for the same mail. *)
Lemma ring_inj n a x y : 0 < n -> 0 <= x < n -> 0 <= y < n -> (a + x) mod n = (a + y) mod n -> x = y.
Proof.
  intros Hn Hx Hy E. assert (D : (x - y) mod n = 0).
  { replace (x - y) with ((a + x) - (a + y)) by lia. rewrite Zminus_mod, E, Z.sub_diag. apply Zmod_0_l. }
  apply Z.mod_divide in D as [q D]; [|lia].
  assert (q = 0) as -> by nia. lia.
Qed.

Definition stored (mb : Mailbox) (pool : list Z) : Mailbox :=
  mb <| msg_pool := pool |> <| in_offset := next_offset mb (in_offset mb) |> <| mb_entry := u16 (mb_entry mb + 1) |>.
Definition taken (mb : Mailbox) : Mailbox :=
  mb <| out_offset := next_offset mb (out_offset mb) |> <| mb_entry := u16 (mb_entry mb - 1) |>.

Lemma store_mail mb value :
  mb_wf mb -> mb_entry mb <> mb_size mb ->
  exists pool, buf_set (msg_pool mb) (in_offset mb) value = Some pool /\
    mb_wf (stored mb pool) /\ mails (stored mb pool) = mails mb ++ [value].
Proof.
  intros [Hs Hp He Ho Hi] Hfull.
  assert (Hin : 0 <= in_offset mb < mb_size mb) by (rewrite Hi; apply Z.mod_pos_bound; lia).
  rewrite buf_set_Some by lia. eexists. split; [reflexivity|].
  assert (Ee : u16 (mb_entry mb + 1) = mb_entry mb + 1) by (apply u16_small; lia).
  split.
  - split; cbn; rewrite ?length_insert, ?Ee; auto; [lia|].
    rewrite next_offset_mod, Hi, Zplus_mod_idemp_l by assumption. f_equal. lia.
  - unfold mails, stored. cbn. rewrite Ee.
    replace (Z.to_nat (mb_entry mb + 1)) with (Z.to_nat (mb_entry mb) + 1)%nat by lia.
    rewrite seq_app, map_app. cbn [seq map Nat.add]. f_equal.
    + apply map_ext_in. intros i Hi'%in_seq. rewrite !nth_lookup, list_lookup_insert_ne; [reflexivity|].
      intros E. apply Z2Nat.inj in E; [|lia|apply Z.mod_pos_bound; lia].
      rewrite Hi in E. apply ring_inj in E; lia.
    + rewrite Z2Nat.id, <- Hi by lia. f_equal. rewrite nth_lookup, list_lookup_insert_eq by lia. reflexivity.
Qed.

Lemma take_mail mb :
  mb_wf mb -> mb_entry mb <> 0 ->
  exists value, buf_get (msg_pool mb) (out_offset mb) = Some value /\
    mb_wf (taken mb) /\ mails mb = value :: mails (taken mb).
Proof.
  intros [Hs Hp He Ho Hi] Hne.
  assert (El : (Z.to_nat (out_offset mb) < length (msg_pool mb))%nat) by lia.
  exists (nth (Z.to_nat (out_offset mb)) (msg_pool mb) 0). split.
  { unfold buf_get. rewrite (proj2 (Z.leb_le _ _)) by lia.
    rewrite nth_lookup. destruct (lookup_lt_is_Some_2 _ _ El) as [v ->]. reflexivity. }
  assert (Ee : u16 (mb_entry mb - 1) = mb_entry mb - 1) by (apply u16_small; lia).
  split.
  - split; cbn; rewrite ?Ee; auto; [lia| |].
    + rewrite next_offset_mod by assumption. apply Z.mod_pos_bound; lia.
    + rewrite next_offset_mod, Zplus_mod_idemp_l by assumption. rewrite Hi. f_equal. lia.
  - unfold mails, taken. cbn. rewrite Ee, next_offset_mod by assumption.
    replace (Z.to_nat (mb_entry mb)) with (S (Z.to_nat (mb_entry mb - 1))) by lia. cbn [seq map]. f_equal.
    + rewrite Z.add_0_r, Z.mod_small by lia. reflexivity.
    + rewrite <- seq_shift, map_map. apply map_ext. intros i. rewrite Zplus_mod_idemp_l. do 3 f_equal. lia.
Qed.

(** ** Waking and waiting *)

Definition awake_stat (th : Thread) : Prop :=
  thread_stat th = RT_THREAD_READY \/ thread_stat th = RT_THREAD_RUNNING.

(** The threads a wake-up on [l] resumes. *)
Definition woken (k : Kernel) (l : list_head) : list nat :=
  match lists k l with [] => [] | t :: _ => [t] end.

(** What a call leaves of the system. *)
Record calm (k k' : Kernel) : Prop := {
  cm_ok : kernel_ok (rt_tick k') k';
  cm_current : exists c', rt_current_thread k' = Some c';
}.

Lemma mb_wake_spec k l c :
  kernel_ok (rt_tick k) k -> rt_current_thread k = Some c -> is_wait l = true ->
  exists k', mb_wake k l = Some k' /\ calm k k' /\ other_waits k k' l /\ lists k' l = tail (lists k l) /\
    (forall t, t ∈ woken k l -> awake_stat (threads k' t)) /\
    (forall t, wait_info (threads k' t) = wait_info (threads k t)).
Proof.
  intros Hok Hc Hl. unfold mb_wake, woken. destruct (lists k l) as [|t q] eqn:Eq.
  { exists k. split_ands; auto; [split; eauto|intros l' _ _; reflexivity|intros t H; inversion H]. }
  destruct (list_resume_spec _ k l t q Hok Hl Eq) as (k1 & -> & Hok1 & Hot & Haw & El & Hw & _).
  cbn [mbind option_bind]. destruct Hot as [F1 F2 F3 F4 F5 F6 F7 F8].
  destruct (schedule_kernel_ok _ k1 c Hok1) as (k2 & c' & -> & Hok2 & Hf & Hc' & Hb); [congruence|].
  exists k2. split; [reflexivity|]. destruct (awake_thread _ _ _ _ Haw) as [S E]. split_ands.
  - split; [rewrite (sf_tick _ _ Hf), F1; exact Hok2|eauto].
  - intros l' Hl' Hne. pose proof (sf_lists _ _ Hf l') as Hs. destruct l'; try discriminate Hl'; rewrite Hs; apply Hw; auto.
  - pose proof (sf_lists _ _ Hf l) as Hs. destruct l; try discriminate Hl; rewrite Hs; exact El.
  - intros u ->%list_elem_of_singleton. unfold awake_stat. destruct (sf_stat _ _ Hf t) as [->|[_ D]]; [exact S|exact D].
  - intros u. rewrite (sf_threads _ _ Hf u). destruct (decide (u = t)) as [->|Hne];
      [rewrite E|rewrite F5 by exact Hne]; reflexivity.
Qed.

Lemma reset_error_spec k c :
  kernel_ok (rt_tick k) k -> rt_current_thread k = Some c ->
  exists k', reset_error k = Some k' /\ kernel_ok (rt_tick k) k' /\ rt_tick k' = rt_tick k /\
    rt_current_thread k' = Some c /\ rt_interrupt_nest k' = rt_interrupt_nest k /\ lists k' = lists k /\
    threads k' c = threads k c <| error := RT_EOK |> /\ (forall u, u <> c -> threads k' u = threads k u).
Proof.
  intros Hok Hc. unfold reset_error, rt_thread_self. rewrite Hc. cbn [mbind option_bind].
  eexists. split; [reflexivity|]. split_ands; auto.
  - apply set_thread_inert_ok; [intros th; auto|exact Hok].
  - apply set_thread_threads.
  - intros u Hu. apply set_thread_other, Hu.
Qed.

Lemma mb_block_spec k l c flag timeout delta :
  kernel_ok (rt_tick k) k -> rt_current_thread k = Some c -> thread_stat (threads k c) = RT_THREAD_RUNNING ->
  rt_interrupt_nest k = 0 -> is_wait l = true -> timeout < RT_TICK_HALF ->
  exists k', mb_block k l flag timeout delta =
      Some (k', MbWaits timeout (if 0 <? timeout then rt_tick k else delta)) /\
    calm k k' /\ waiting k k' c (deadline_of k timeout) /\ other_waits k k' l /\
    lists k' l = enqueued flag (fun u => current_priority (threads k u)) c (lists k l) /\
    (forall u, wait_info (threads k' u) = wait_info (threads k u)).
Proof.
  intros Hok Hc Hrun Hn Hl Ht. unfold mb_block, in_thread_context, rt_thread_self. rewrite Hc, Hn.
  cbn [Z.eqb negb mbind option_bind].
  destruct (ipc_wait_spec k l c flag timeout Hok Hc Hrun Hl Ht) as (k' & -> & Hw & El & How & He).
  cbn [mbind option_bind]. exists k'. split; [reflexivity|]. split_ands; auto.
  - destruct Hw as [W1 W2 W3 W4 (c' & W5 & _) W6]. split; eauto.
  - intros u. destruct (He u) as (A & B & C). unfold wait_info. congruence.
Qed.

(** ** One turn of a call *)

Section Turns.
Variable b : nat.

(** Only the two wait lists of the mailbox matter. *)
Record turn (k k' : Kernel) (recvs sends : list nat) : Prop := {
  tn_calm : calm k k';
  tn_recvs : lists k' (MbRecvWait b) = recvs;
  tn_sends : lists k' (MbSendWait b) = sends;
}.

(** The outcomes of a send: delivered, refused, or waiting. *)
Inductive sent_case (k : Kernel) (mb : Mailbox) (c : nat) (value timeout : Z) : Kernel -> Mailbox -> mb_outcome -> Prop :=
| send_delivers k' pool :
    mb_entry mb <> mb_size mb -> mb_wf (stored mb pool) -> mails (stored mb pool) = mails mb ++ [value] ->
    turn k k' (tail (lists k (MbRecvWait b))) (lists k (MbSendWait b)) ->
    (forall t, t ∈ woken k (MbRecvWait b) -> awake_stat (threads k' t)) ->
    sent_case k mb c value timeout k' (stored mb pool) (MbReturns RT_EOK)
| send_refused k' :
    mb_entry mb = mb_size mb -> timeout = 0 ->
    turn k k' (lists k (MbRecvWait b)) (lists k (MbSendWait b)) ->
    sent_case k mb c value timeout k' mb (MbReturns (- RT_EFULL))
| send_waits k' start :
    mb_entry mb = mb_size mb -> timeout <> 0 ->
    turn k k' (lists k (MbRecvWait b))
      (enqueued (mb_flag mb) (fun u => current_priority (threads k u)) c (lists k (MbSendWait b))) ->
    waiting k k' c (deadline_of k timeout) -> error (threads k' c) = RT_EOK ->
    sent_case k mb c value timeout k' mb (MbWaits timeout start).

Lemma block_turn k flag l c timeout delta :
  kernel_ok (rt_tick k) k -> rt_current_thread k = Some c -> thread_stat (threads k c) = RT_THREAD_RUNNING ->
  timeout < RT_TICK_HALF -> is_wait l = true -> rt_interrupt_nest k = 0 ->
  exists k1, reset_error k = Some k1 /\
  exists k', mb_block k1 l flag timeout delta =
      Some (k', MbWaits timeout (if 0 <? timeout then rt_tick k else delta)) /\
    calm k k' /\ waiting k k' c (deadline_of k timeout) /\ other_waits k k' l /\ error (threads k' c) = RT_EOK /\
    lists k' l = enqueued flag (fun u => current_priority (threads k u)) c (lists k l).
Proof.
  intros Hok Hc Hrun Ht Hl Hn.
  destruct (reset_error_spec k c Hok Hc) as (k1 & E1 & Hok1 & Ht1 & Hc1 & Hn1 & Hl1 & Et & Eo).
  exists k1. split; [exact E1|].
  assert (Ep : forall u, current_priority (threads k1 u) = current_priority (threads k u)).
  { intros u. destruct (decide (u = c)) as [->|Hne]; [rewrite Et|rewrite Eo by exact Hne]; reflexivity. }
  destruct (mb_block_spec k1 l c flag timeout delta) as (k' & -> & [C1 C2] & [W1 W2 W3 W4 W5 W6] & How & El & Hi); auto.
  { rewrite Ht1. exact Hok1. } { rewrite Et. exact Hrun. } { congruence. }
  rewrite Ht1. exists k'. split; [reflexivity|]. split; [split; assumption|]. split_ands.
  - split; auto; [congruence| | |].
    + unfold deadline_of in *. rewrite Ht1 in W4. exact W4.
    + destruct W5 as (c' & A & B). exists c'. split; [exact A|]. intros H. apply B.
      unfold reset_error, rt_thread_self in E1. rewrite Hc in E1. injection E1 as <-. exact H.
    + intros t. rewrite W6. apply Ep.
  - intros l' Hl' Hne. rewrite How, Hl1 by assumption. reflexivity.
  - rewrite (proj1 (wait_info_fields _ _ (Hi c))), Et. reflexivity.
  - rewrite El, Hl1. apply enqueued_prio_ext, Ep.
Qed.

Lemma send_turn_spec k mb c value timeout delta :
  kernel_ok (rt_tick k) k -> rt_current_thread k = Some c -> thread_stat (threads k c) = RT_THREAD_RUNNING ->
  timeout = 0 \/ rt_interrupt_nest k = 0 -> timeout < RT_TICK_HALF -> mb_wf mb ->
  exists k' mb' o, mb_send_turn k b mb value timeout delta = Some (k', mb', o) /\
    sent_case k mb c value timeout k' mb' o.
Proof.
  intros Hok Hc Hrun Hn Ht Hwf. unfold mb_send_turn. destruct (Z.eqb_spec (mb_entry mb) (mb_size mb)) as [Hfull|Hfull].
  - destruct (Z.eqb_spec timeout 0) as [->|H0].
    + destruct (reset_error_spec k c Hok Hc) as (k1 & -> & Hok1 & Ht1 & Hc1 & Hn1 & Hl1 & _). cbn [mbind option_bind].
      eexists _, _, _. split; [reflexivity|]. apply send_refused; [exact Hfull|reflexivity|].
      split; [split; [rewrite Ht1; exact Hok1|eauto]|rewrite Hl1; reflexivity..].
    + destruct (block_turn k (mb_flag mb) (MbSendWait b) c timeout delta) as (k1 & -> & k' & E & Hcm & Hw & How & He & El); auto; [tauto|].
      cbn [mbind option_bind]. rewrite E. cbn [mbind option_bind]. eexists _, _, _. split; [reflexivity|].
      apply send_waits; auto. split; [exact Hcm|apply How; [reflexivity|discriminate]|exact El].
  - destruct (store_mail mb value Hwf Hfull) as (pool & -> & Hwf' & Hm). cbn [mbind option_bind].
    destruct (mb_wake_spec k (MbRecvWait b) c Hok Hc eq_refl) as (k' & -> & Hcm & How & El & Hs & _). cbn [mbind option_bind].
    eexists _, _, _. split; [reflexivity|]. apply (send_delivers k mb c value timeout k' pool); auto.
    split; [exact Hcm|exact El|apply How; [reflexivity|discriminate]].
Qed.

Inductive received_case (k : Kernel) (mb : Mailbox) (c : nat) (timeout : Z)
    : Kernel -> Mailbox -> mb_outcome -> option Z -> Prop :=
| recv_takes k' value :
    mb_entry mb <> 0 -> mb_wf (taken mb) -> mails mb = value :: mails (taken mb) ->
    turn k k' (lists k (MbRecvWait b)) (tail (lists k (MbSendWait b))) ->
    (forall t, t ∈ woken k (MbSendWait b) -> awake_stat (threads k' t)) ->
    received_case k mb c timeout k' (taken mb) (MbReturns RT_EOK) (Some value)
| recv_refused k' :
    mb_entry mb = 0 -> timeout = 0 ->
    turn k k' (lists k (MbRecvWait b)) (lists k (MbSendWait b)) ->
    received_case k mb c timeout k' mb (MbReturns (- RT_ETIMEOUT)) None
| recv_waits k' start :
    mb_entry mb = 0 -> timeout <> 0 ->
    turn k k' (enqueued (mb_flag mb) (fun u => current_priority (threads k u)) c (lists k (MbRecvWait b)))
      (lists k (MbSendWait b)) ->
    waiting k k' c (deadline_of k timeout) -> error (threads k' c) = RT_EOK ->
    received_case k mb c timeout k' mb (MbWaits timeout start) None.

Lemma recv_turn_spec k mb c timeout delta :
  kernel_ok (rt_tick k) k -> rt_current_thread k = Some c -> thread_stat (threads k c) = RT_THREAD_RUNNING ->
  timeout = 0 \/ rt_interrupt_nest k = 0 -> timeout < RT_TICK_HALF -> mb_wf mb ->
  exists k' mb' o r, mb_recv_turn k b mb timeout delta = Some (k', mb', o, r) /\
    received_case k mb c timeout k' mb' o r.
Proof.
  intros Hok Hc Hrun Hn Ht Hwf. unfold mb_recv_turn. destruct (Z.eqb_spec (mb_entry mb) 0) as [Hempty|Hempty].
  - destruct (Z.eqb_spec timeout 0) as [->|H0].
    + destruct (reset_error_spec k c Hok Hc) as (k1 & -> & Hok1 & Ht1 & Hc1 & Hn1 & Hl1 & _). cbn [mbind option_bind].
      unfold rt_thread_self. rewrite Hc1. cbn [mbind option_bind].
      eexists _, _, _, _. split; [reflexivity|]. apply recv_refused; [exact Hempty|reflexivity|].
      assert (Hok2 : kernel_ok (rt_tick k1) (set_thread k1 c (fun th => th <| error := - RT_ETIMEOUT |>))).
      { apply set_thread_inert_ok; [intros th; auto|rewrite Ht1; exact Hok1]. }
      split; [split; [exact Hok2|eauto]|exact (f_equal (fun g => g (MbRecvWait b)) Hl1)|exact (f_equal (fun g => g (MbSendWait b)) Hl1)].
    + destruct (block_turn k (mb_flag mb) (MbRecvWait b) c timeout delta) as (k1 & -> & k' & E & Hcm & Hw & How & He & El); auto; [tauto|].
      cbn [mbind option_bind]. rewrite E. cbn [mbind option_bind]. eexists _, _, _, _. split; [reflexivity|].
      apply recv_waits; auto. split; [exact Hcm|exact El|apply How; [reflexivity|discriminate]].
  - destruct (take_mail mb Hwf Hempty) as (value & -> & Hwf' & Hm). cbn [mbind option_bind].
    destruct (mb_wake_spec k (MbSendWait b) c Hok Hc eq_refl) as (k' & -> & Hcm & How & El & Hs & _). cbn [mbind option_bind].
    eexists _, _, _, _. split; [reflexivity|]. apply recv_takes; auto.
    split; [exact Hcm|apply How; [reflexivity|discriminate]|exact El].
Qed.
End Turns.

(** The two entry points and the two resumptions run one turn, or return at once. *)
Lemma send_begin_cases b k mb c value timeout :
  kernel_ok (rt_tick k) k -> rt_current_thread k = Some c -> thread_stat (threads k c) = RT_THREAD_RUNNING ->
  timeout = 0 \/ rt_interrupt_nest k = 0 -> timeout < RT_TICK_HALF -> mb_wf mb ->
  exists k' mb' o, rt_mb_send_wait k b mb value timeout = Some (k', mb', o) /\
    sent_case b k mb c value timeout k' mb' o.
Proof.
  intros Hok Hc Hrun Hn Ht Hwf. unfold rt_mb_send_wait. destruct (Z.eqb_spec (mb_entry mb) (mb_size mb)) as [He|He];
    [destruct (Z.eqb_spec timeout 0) as [E0|E0]|]; cbn [andb]; try apply send_turn_spec; auto.
  eexists _, _, _. split; [reflexivity|]. apply send_refused; auto. split; [split; eauto|reflexivity..].
Qed.

Lemma recv_begin_cases b k mb c timeout :
  kernel_ok (rt_tick k) k -> rt_current_thread k = Some c -> thread_stat (threads k c) = RT_THREAD_RUNNING ->
  timeout = 0 \/ rt_interrupt_nest k = 0 -> timeout < RT_TICK_HALF -> mb_wf mb ->
  exists k' mb' o r, rt_mb_recv k b mb timeout = Some (k', mb', o, r) /\
    received_case b k mb c timeout k' mb' o r.
Proof.
  intros Hok Hc Hrun Hn Ht Hwf. unfold rt_mb_recv. destruct (Z.eqb_spec (mb_entry mb) 0) as [He|He];
    [destruct (Z.eqb_spec timeout 0) as [E0|E0]|]; cbn [andb]; try apply recv_turn_spec; auto.
  eexists _, _, _, _. split; [reflexivity|]. apply recv_refused; auto. split; [split; eauto|reflexivity..].
Qed.

(** A resumed call waits for what is left of its time. *)
Lemma time_left_spec k timeout delta :
  0 <= rt_tick k < 4294967296 -> timeout < RT_TICK_HALF ->
  0 < timeout -> u32 (rt_tick k - delta) < timeout ->
  time_left k timeout delta = (timeout - u32 (rt_tick k - delta), u32 (rt_tick k - delta)) /\
  u32 (rt_tick k + (timeout - u32 (rt_tick k - delta))) = u32 (delta + timeout).
Proof.
  intros Hk Hhalf Hpos Hel. unfold RT_TICK_HALF, RT_TICK_MAX in Hhalf. change (4294967295 / 2) with 2147483647 in Hhalf.
  pose proof (u32_range (rt_tick k - delta)) as Hr. split.
  - unfold time_left. rewrite (proj2 (Z.ltb_lt _ _)) by exact Hpos. cbv zeta.
    rewrite u32_small, s32_small by (unfold INT_MIN, INT_MAX; lia). rewrite (proj2 (Z.ltb_ge _ _)) by lia. reflexivity.
  - replace (rt_tick k + (timeout - u32 (rt_tick k - delta))) with ((rt_tick k + timeout) - u32 (rt_tick k - delta)) by lia.
    rewrite u32_sub_mod_r. f_equal. lia.
Qed.

(** ** A mailbox in use *)

(** The mailbox's state, the mails sent and received since the last reset, and
    the threads that have been woken and have not gone on yet. *)
Record mb_system := mkMbSystem {
  bs_kernel : Kernel;
  bs_mb : Mailbox;
  bs_sent : list Z;
  bs_received : list Z;
  bs_senders : list nat;
  bs_receivers : list nat;
}.

Definition succeeded (o : mb_outcome) : bool :=
  match o with MbReturns e => e =? RT_EOK | MbWaits _ _ => false end.

Section MailboxSteps.
Variable b : nat.

(** A thread [c] that may call. *)
Record caller (k : Kernel) (c : nat) (timeout : Z) : Prop := {
  ca_current : rt_current_thread k = Some c;
  ca_running : thread_stat (threads k c) = RT_THREAD_RUNNING;
  ca_context : timeout = 0 \/ rt_interrupt_nest k = 0;
  ca_time : timeout < RT_TICK_HALF;
}.

Inductive mb_step : mb_system -> mb_system -> Prop :=
| bstep_send k mb s r ws wr value timeout c k' mb' o :
    caller k c timeout -> rt_mb_send_wait k b mb value timeout = Some (k', mb', o) ->
    mb_step (mkMbSystem k mb s r ws wr)
      (if succeeded o then mkMbSystem k' mb' (s ++ [value]) r ws (wr ++ woken k (MbRecvWait b))
       else mkMbSystem k' mb' s r ws wr)
| bstep_send_resume k mb s r ws1 t ws2 wr value timeout delta k' mb' o :
    caller k t (fst (time_left k timeout delta)) -> error (threads k t) = RT_EOK ->
    rt_mb_send_resume k b mb t value timeout delta = Some (k', mb', o) ->
    mb_step (mkMbSystem k mb s r (ws1 ++ t :: ws2) wr)
      (if succeeded o then mkMbSystem k' mb' (s ++ [value]) r (ws1 ++ ws2) (wr ++ woken k (MbRecvWait b))
       else mkMbSystem k' mb' s r (ws1 ++ ws2) wr)
| bstep_recv k mb s r ws wr timeout c k' mb' o v :
    caller k c timeout -> rt_mb_recv k b mb timeout = Some (k', mb', o, v) ->
    mb_step (mkMbSystem k mb s r ws wr)
      (match v with
       | Some value => mkMbSystem k' mb' s (r ++ [value]) (ws ++ woken k (MbSendWait b)) wr
       | None => mkMbSystem k' mb' s r ws wr
       end)
| bstep_recv_resume k mb s r ws wr1 t wr2 timeout delta k' mb' o v :
    caller k t (fst (time_left k timeout delta)) -> error (threads k t) = RT_EOK ->
    rt_mb_recv_resume k b mb t timeout delta = Some (k', mb', o, v) ->
    mb_step (mkMbSystem k mb s r ws (wr1 ++ t :: wr2))
      (match v with
       | Some value => mkMbSystem k' mb' s (r ++ [value]) (ws ++ woken k (MbSendWait b)) (wr1 ++ wr2)
       | None => mkMbSystem k' mb' s r ws (wr1 ++ wr2)
       end)
| bstep_reset k mb s r ws wr k' mb' e :
    rt_mb_control k b mb RT_IPC_CMD_RESET = Some (k', mb', e) ->
    mb_step (mkMbSystem k mb s r ws wr) (mkMbSystem k' mb' [] [] ws wr)
| bstep_rest k mb s r ws wr k' :
    rest_step (MbRecvWait b) k k' -> rest_step (MbSendWait b) k k' ->
    mb_step (mkMbSystem k mb s r ws wr) (mkMbSystem k' mb s r ws wr).

Record mb_inv (y : mb_system) : Prop := {
  bi_calm : calm (bs_kernel y) (bs_kernel y);
  bi_wf : mb_wf (bs_mb y);
  bi_fifo : bs_received y ++ mails (bs_mb y) = bs_sent y;
  bi_recv : lists (bs_kernel y) (MbRecvWait b) <> [] -> mb_entry (bs_mb y) <= Z.of_nat (length (bs_receivers y));
  bi_send : lists (bs_kernel y) (MbSendWait b) <> [] ->
    mb_size (bs_mb y) <= mb_entry (bs_mb y) + Z.of_nat (length (bs_senders y));
}.

Lemma woken_length k l : lists k l <> [] -> length (woken k l) = 1%nat.
Proof. unfold woken. destruct (lists k l); [contradiction|reflexivity]. Qed.

Lemma tail_nonempty {A} (l : list A) : tail l <> [] -> l <> [].
Proof. destruct l; auto. Qed.

Lemma stored_entry mb pool : mb_wf mb -> mb_entry mb <> mb_size mb -> mb_entry (stored mb pool) = mb_entry mb + 1.
Proof. intros [] H. apply u16_small. lia. Qed.
Lemma taken_entry mb : mb_wf mb -> mb_entry mb <> 0 -> mb_entry (taken mb) = mb_entry mb - 1.
Proof. intros [] H. apply u16_small. lia. Qed.

(** A send that makes its own place ([n] = 1: a resumed sender) keeps the counts. *)
Lemma sent_inv k mb s r ws wr ws' c value timeout k' mb' o :
  mb_inv (mkMbSystem k mb s r ws wr) ->
  (mb_entry mb <> mb_size mb -> lists k (MbSendWait b) <> [] ->
     mb_size mb <= mb_entry mb + 1 + Z.of_nat (length ws')) ->
  sent_case b k mb c value timeout k' mb' o ->
  mb_inv (if succeeded o then mkMbSystem k' mb' (s ++ [value]) r ws' (wr ++ woken k (MbRecvWait b))
          else mkMbSystem k' mb' s r ws' wr).
Proof.
  intros [_ Hwf Hf Hr Hs] Hplace Hcase. cbn [bs_kernel bs_mb bs_sent bs_received bs_senders bs_receivers] in *.
  destruct Hcase as [k' pool Hne Hwf' Hm [[C1 C2] Tr Ts] _|k' He H0 [[C1 C2] Tr Ts]|k' start He H0 [[C1 C2] Tr Ts] _ _];
    cbn [succeeded]; [change (RT_EOK =? RT_EOK) with true|change (- RT_EFULL =? RT_EOK) with false|]; cbv iota;
    (split; cbn [bs_kernel bs_mb bs_sent bs_received bs_senders bs_receivers]; [split; assumption| | | |]); auto.
  - rewrite Hm, app_assoc, Hf. reflexivity.
  - rewrite Tr, stored_entry, length_app by assumption. intros H. apply tail_nonempty in H.
    rewrite woken_length by exact H. specialize (Hr H). lia.
  - rewrite Ts, stored_entry by assumption. intros H. exact (Hplace Hne H).
  - rewrite Tr. exact Hr.
  - intros _. lia.
  - rewrite Tr. exact Hr.
  - intros _. lia.
Qed.

Lemma received_inv k mb s r ws wr wr' c timeout k' mb' o v :
  mb_inv (mkMbSystem k mb s r ws wr) ->
  (mb_entry mb <> 0 -> lists k (MbRecvWait b) <> [] -> mb_entry mb - 1 <= Z.of_nat (length wr')) ->
  received_case b k mb c timeout k' mb' o v ->
  mb_inv (match v with
          | Some value => mkMbSystem k' mb' s (r ++ [value]) (ws ++ woken k (MbSendWait b)) wr'
          | None => mkMbSystem k' mb' s r ws wr'
          end).
Proof.
  intros [_ Hwf Hf Hr Hs] Hplace Hcase. cbn [bs_kernel bs_mb bs_sent bs_received bs_senders bs_receivers] in *.
  destruct Hcase as [k' value Hne Hwf' Hm [[C1 C2] Tr Ts] _|k' He H0 [[C1 C2] Tr Ts]|k' start He H0 [[C1 C2] Tr Ts] _ _];
    (split; cbn [bs_kernel bs_mb bs_sent bs_received bs_senders bs_receivers]; [split; assumption| | | |]); auto.
  - rewrite <- Hf, Hm, <- app_assoc. reflexivity.
  - rewrite Tr, taken_entry by assumption. intros H. exact (Hplace Hne H).
  - rewrite Ts, taken_entry, length_app by assumption. intros H. apply tail_nonempty in H.
    rewrite woken_length by exact H. specialize (Hs H). change (mb_size (taken mb)) with (mb_size mb). lia.
  - intros _. lia.
  - rewrite Ts. exact Hs.
  - intros _. lia.
  - rewrite Ts. exact Hs.
Qed.

Lemma reset_inv k mb s r ws wr k' mb' e :
  mb_inv (mkMbSystem k mb s r ws wr) -> rt_mb_control k b mb RT_IPC_CMD_RESET = Some (k', mb', e) ->
  mb_inv (mkMbSystem k' mb' [] [] ws wr).
Proof.
  intros [[Hok [c Hc]] Hwf _ _ _]. cbn [bs_kernel bs_mb] in *. unfold rt_mb_control, mb_resume_all. rewrite Z.eqb_refl.
  destruct (resume_all_spec _ k (MbRecvWait b) Hok eq_refl) as (k1 & -> & Hok1 & Ht1 & Hc1 & _ & El1 & How1 & _).
  cbn [mbind option_bind]. rewrite Hc in Hc1.
  destruct (resume_all_spec _ k1 (MbSendWait b) Hok1 eq_refl) as (k2 & -> & Hok2 & Ht2 & Hc2 & _ & El2 & How2 & _).
  cbn [mbind option_bind]. rewrite Hc1 in Hc2.
  destruct (schedule_kernel_ok _ k2 c Hok2 Hc2) as (k3 & c3 & -> & Hok3 & Hf & Hc3 & _).
  cbn [mbind option_bind]. intros [= <- <- <-].
  assert (L : forall l, is_wait l = true -> lists k3 l = lists k2 l).
  { intros l Hl. pose proof (sf_lists _ _ Hf l) as Hs. destruct l; try discriminate Hl; exact Hs. }
  destruct Hwf as [H1 H2 H3 H4 H5].
  split; cbn [bs_kernel bs_mb bs_sent bs_received bs_senders bs_receivers].
  - split; [rewrite (sf_tick _ _ Hf), Ht2, Ht1; exact Hok3|eauto].
  - split; cbn; auto; try lia.
  - reflexivity.
  - rewrite L, How2, El1 by (reflexivity || discriminate). contradiction.
  - rewrite L, El2 by reflexivity. contradiction.
Qed.

Lemma mb_step_inv y y' : mb_inv y -> mb_step y y' -> mb_inv y'.
Proof.
  intros Hi Hstep. pose proof Hi as [[Hok _] Hwf _ Hr Hs]. destruct Hstep as
    [k mb s r ws wr value timeout c k' mb' o [A1 A2 A3 A4] E|k mb s r ws1 t ws2 wr value timeout delta k' mb' o [A1 A2 A3 A4] He E
    |k mb s r ws wr timeout c k' mb' o v [A1 A2 A3 A4] E|k mb s r ws wr1 t wr2 timeout delta k' mb' o v [A1 A2 A3 A4] He E
    |k mb s r ws wr k' mb' e E|k mb s r ws wr k' [R1 R2 R3 _] [_ _ S3 _]];
    cbn [bs_kernel bs_mb bs_sent bs_received bs_senders bs_receivers] in *.
  - destruct (send_begin_cases b k mb c value timeout Hok A1 A2 A3 A4 Hwf) as (k2 & mb2 & o2 & E2 & Hcase).
    rewrite E in E2. injection E2 as -> -> ->. eapply sent_inv; eauto. intros _ H. specialize (Hs H). lia.
  - unfold rt_mb_send_resume in E. rewrite He in E. change (negb (RT_EOK =? RT_EOK)) with false in E. cbv iota in E.
    destruct (time_left k timeout delta) as [tm d]. cbn [fst] in *.
    destruct (send_turn_spec b k mb t value tm d Hok A1 A2 A3 A4 Hwf) as (k2 & mb2 & o2 & E2 & Hcase).
    rewrite E in E2. injection E2 as -> -> ->. eapply sent_inv; eauto.
    intros _ H. specialize (Hs H). rewrite !length_app in *. cbn [length] in Hs. lia.
  - destruct (recv_begin_cases b k mb c timeout Hok A1 A2 A3 A4 Hwf) as (k2 & mb2 & o2 & v2 & E2 & Hcase).
    rewrite E in E2. injection E2 as -> -> -> ->. eapply received_inv; eauto. intros _ H. specialize (Hr H). lia.
  - unfold rt_mb_recv_resume in E. rewrite He in E. change (negb (RT_EOK =? RT_EOK)) with false in E. cbv iota in E.
    destruct (time_left k timeout delta) as [tm d]. cbn [fst] in *.
    destruct (recv_turn_spec b k mb t tm d Hok A1 A2 A3 A4 Hwf) as (k2 & mb2 & o2 & v2 & E2 & Hcase).
    rewrite E in E2. injection E2 as -> -> -> ->. eapply received_inv; eauto.
    intros _ H. specialize (Hr H). rewrite !length_app in *. cbn [length] in Hr. lia.
  - eapply reset_inv; eauto.
  - destruct Hi as [_ _ Hf _ _]. split; cbn [bs_kernel bs_mb bs_sent bs_received bs_senders bs_receivers] in *; auto.
    + split; assumption.
    + intros H. apply Hr. intros E. rewrite E in R3. apply sublist_nil_r in R3. contradiction.
    + intros H. apply Hs. intros E. rewrite E in S3. apply sublist_nil_r in S3. contradiction.
Qed.

Inductive mb_reach (y0 : mb_system) : mb_system -> Prop :=
| mb_here : mb_reach y0 y0
| mb_then y y' : mb_reach y0 y -> mb_step y y' -> mb_reach y0 y'.

Lemma mb_reach_inv y0 y : mb_inv y0 -> mb_reach y0 y -> mb_inv y.
Proof. intros H0 Hr. induction Hr; [exact H0|eapply mb_step_inv; eauto]. Qed.

Lemma mb_init_inv k pool size flag :
  kernel_ok (rt_tick k) k -> (exists c, rt_current_thread k = Some c) ->
  0 < size < 65536 -> Z.of_nat (length pool) = size ->
  lists k (MbRecvWait b) = [] -> lists k (MbSendWait b) = [] ->
  let '(k', mb, _) := rt_mb_init k b pool size flag in mb_inv (mkMbSystem k' mb [] [] [] []).
Proof.
  intros Hok [c Hc] Hs Hp Hr Hw. unfold rt_mb_init.
  pose proof (object_init_ok _ k (MbRecvWait b) Hok Hr) as Hok1.
  assert (Hw1 : lists (rt_ipc_object_init k (MbRecvWait b)) (MbSendWait b) = []).
  { cbn. rewrite upd_other by discriminate. exact Hw. }
  pose proof (object_init_ok _ _ (MbSendWait b) Hok1 Hw1) as Hok2.
  split; cbn [bs_kernel bs_mb bs_sent bs_received bs_senders bs_receivers].
  - split; [exact Hok2|exists c; exact Hc].
  - split; cbn; rewrite ?u16_small by lia; auto; try lia.
  - reflexivity.
  - cbn. lia.
  - cbn. rewrite upd_same. contradiction.
Qed.
End MailboxSteps.

(** ** Properties *)

(** C11: a mailbox is a bounded first-in first-out queue: in every state it reaches
    through sends and receives (at once, refused, waiting, resumed), resets and
    whatever the rest of the system does to the waiters, the mails received,
    followed by those stored, are exactly the mails whose send succeeded, in
    order; at most [size] are stored; and every further call by a running thread
    returns or waits, without leaving the pool. *)
Theorem mailbox_fifo k b pool size flag :
  kernel_ok (rt_tick k) k -> (exists c, rt_current_thread k = Some c) ->
  0 < size < 65536 -> Z.of_nat (length pool) = size ->
  lists k (MbRecvWait b) = [] -> lists k (MbSendWait b) = [] ->
  let '(k', mb, _) := rt_mb_init k b pool size flag in
  forall y, mb_reach b (mkMbSystem k' mb [] [] [] []) y ->
    bs_received y ++ mails (bs_mb y) = bs_sent y /\
    Z.of_nat (length (mails (bs_mb y))) = mb_entry (bs_mb y) /\ mb_entry (bs_mb y) <= mb_size (bs_mb y) /\
    forall c value timeout, caller (bs_kernel y) c timeout ->
      is_Some (rt_mb_send_wait (bs_kernel y) b (bs_mb y) value timeout) /\
      is_Some (rt_mb_recv (bs_kernel y) b (bs_mb y) timeout).
Proof.
  intros Hok Hc Hs Hp Hr Hw. pose proof (mb_init_inv b k pool size flag Hok Hc Hs Hp Hr Hw) as Hi.
  destruct (rt_mb_init k b pool size flag) as [[k' mb] e]. intros y Hy.
  destruct (mb_reach_inv b _ y Hi Hy) as [[Hok' _] Hwf Hf _ _]. split; [exact Hf|]. split.
  - apply mails_length, Hwf.
  - split; [apply Hwf|]. intros c value timeout [A1 A2 A3 A4]. split.
    + destruct (send_begin_cases b _ _ c value timeout Hok' A1 A2 A3 A4 Hwf) as (? & ? & ? & -> & _). eauto.
    + destruct (recv_begin_cases b _ _ c timeout Hok' A1 A2 A3 A4 Hwf) as (? & ? & ? & ? & -> & _). eauto.
Qed.

(** The running thread sends 7 and 8 to a mailbox of two places and receives 7. *)
Lemma mailbox_fifo_witness :
  exists y, mb_reach 10 (mkMbSystem (rt_mb_init demo 10 [0; 0] 2 RT_IPC_FLAG_FIFO).1.1
                           (mkMailbox [0; 0] 2 0 0 0 RT_IPC_FLAG_FIFO) [] [] [] []) y /\
    bs_sent y = [7; 8] /\ bs_received y = [7] /\ mails (bs_mb y) = [8].
Proof.
  pose proof (mailbox_fifo demo 10 [0; 0] 2 RT_IPC_FLAG_FIFO demo_ok (ex_intro _ 0%nat eq_refl) ltac:(lia) eq_refl eq_refl eq_refl) as H.
  unfold rt_mb_init in H |- *. cbn [fst]. change (u16 2) with 2 in *. set (k0 := _ <| lists := _ |>) in *.
  set (mb0 := mkMailbox [0; 0] 2 0 0 0 RT_IPC_FLAG_FIFO) in *.
  set (mb1 := mkMailbox [7; 0] 2 1 1 0 RT_IPC_FLAG_FIFO). set (mb2 := mkMailbox [7; 8] 2 2 0 0 RT_IPC_FLAG_FIFO).
  set (mb3 := mkMailbox [7; 8] 2 1 0 1 RT_IPC_FLAG_FIFO).
  assert (Hca : caller k0 0 0) by (split; [reflexivity|reflexivity|left; reflexivity|reflexivity]).
  assert (Hr : mb_reach 10 (mkMbSystem k0 mb0 [] [] [] []) (mkMbSystem k0 mb3 [7; 8] [7] [] [])).
  { eapply mb_then; [eapply mb_then; [eapply mb_then; [apply mb_here|]|]|].
    - exact (bstep_send 10 k0 mb0 [] [] [] [] 7 0 0%nat k0 mb1 (MbReturns RT_EOK) Hca eq_refl).
    - exact (bstep_send 10 k0 mb1 [7] [] [] [] 8 0 0%nat k0 mb2 (MbReturns RT_EOK) Hca eq_refl).
    - exact (bstep_recv 10 k0 mb2 [7; 8] [] [] [] 0 0%nat k0 mb3 (MbReturns RT_EOK) (Some 7) Hca eq_refl). }
  exists (mkMbSystem k0 mb3 [7; 8] [7] [] []). split; [exact Hr|]. split; [reflexivity|]. split; [reflexivity|].
  destruct (H _ Hr) as [E _]. cbn [bs_received bs_sent app] in E. exact (f_equal (@tail Z) E).
Defined.

(** C36: no wake-up is lost: in every such state, if receivers wait, the mails
    stored are no more than the receivers already woken, which will take them; and
    if senders wait, the free places are no more than the senders already woken.
    With nobody on the way, receivers wait only for an empty mailbox and senders
    only for a full one. *)
Theorem mailbox_no_lost_wakeup k b pool size flag :
  kernel_ok (rt_tick k) k -> (exists c, rt_current_thread k = Some c) ->
  0 < size < 65536 -> Z.of_nat (length pool) = size ->
  lists k (MbRecvWait b) = [] -> lists k (MbSendWait b) = [] ->
  let '(k', mb, _) := rt_mb_init k b pool size flag in
  forall y, mb_reach b (mkMbSystem k' mb [] [] [] []) y ->
    (lists (bs_kernel y) (MbRecvWait b) <> [] -> mb_entry (bs_mb y) <= Z.of_nat (length (bs_receivers y))) /\
    (lists (bs_kernel y) (MbSendWait b) <> [] ->
     mb_size (bs_mb y) - mb_entry (bs_mb y) <= Z.of_nat (length (bs_senders y))).
Proof.
  intros Hok Hc Hs Hp Hr Hw. pose proof (mb_init_inv b k pool size flag Hok Hc Hs Hp Hr Hw) as Hi.
  destruct (rt_mb_init k b pool size flag) as [[k' mb] e]. intros y Hy.
  destruct (mb_reach_inv b _ y Hi Hy) as [_ _ _ H1 H2]. split; [exact H1|]. intros H. specialize (H2 H). lia.
Qed.

(** The running thread waits for a mail of an empty mailbox. *)
Lemma mailbox_no_lost_wakeup_witness :
  exists y, mb_reach 10 (mkMbSystem (rt_mb_init demo 10 [0; 0] 2 RT_IPC_FLAG_FIFO).1.1
                           (mkMailbox [0; 0] 2 0 0 0 RT_IPC_FLAG_FIFO) [] [] [] []) y /\
    lists (bs_kernel y) (MbRecvWait 10) = [0%nat] /\ mb_entry (bs_mb y) <= 0.
Proof.
  pose proof (mailbox_no_lost_wakeup demo 10 [0; 0] 2 RT_IPC_FLAG_FIFO demo_ok (ex_intro _ 0%nat eq_refl)
                ltac:(lia) eq_refl eq_refl eq_refl) as H.
  unfold rt_mb_init in H |- *. cbn [fst]. change (u16 2) with 2 in *. set (k0 := _ <| lists := _ |>) in *.
  set (mb0 := mkMailbox [0; 0] 2 0 0 0 RT_IPC_FLAG_FIFO) in *.
  destruct (rt_mb_recv k0 10 mb0 (-1)) as [[[[k1 mb1] o1] v1]|] eqn:E1; [|vm_compute in E1; discriminate].
  assert (Hl : lists k1 (MbRecvWait 10) = [0%nat] /\ v1 = None).
  { vm_compute in E1. injection E1 as <- _ _ <-. split; reflexivity. }
  destruct Hl as [Hl ->].
  assert (Hr : mb_reach 10 (mkMbSystem k0 mb0 [] [] [] []) (mkMbSystem k1 mb1 [] [] [] [])).
  { eapply mb_then; [apply mb_here|].
    refine (bstep_recv 10 k0 mb0 [] [] [] [] (-1) 0%nat k1 mb1 o1 None _ E1).
    split; [reflexivity|reflexivity|right; reflexivity|reflexivity]. }
  exists (mkMbSystem k1 mb1 [] [] [] []). split; [exact Hr|]. split; [exact Hl|].
  apply (H _ Hr). cbn [bs_kernel]. rewrite Hl. discriminate.
Defined.
