(* ===== verification/Chain.v ===== *)
(** * Linked lists of equal blocks in memory

    Message queues and memory pools divide a region into blocks of one size and keep
    them in singly linked lists through the first word of each block.  [chain] says
    that a list of addresses is linked from a pointer, [blocks] are the addresses of
    the region. *)

From S2P Require Import Prelude Memory.

(** ** Chains: 0 ends the list *)

Fixpoint chain (m : Memory) (p : Z) (l : list Z) : Prop :=
  match l with
  | [] => p = 0
  | a :: l => p = a /\ chain m (load32 m a) l
  end.

Lemma chain_ext m m' p l :
  (forall a, a ∈ l -> load32 m' a = load32 m a) -> chain m p l -> chain m' p l.
Proof.
  revert p. induction l as [|a l IH]; intros p H; cbn; [auto|]. intros [-> Hl]. split; [reflexivity|].
  rewrite H by (left). apply IH; [|exact Hl]. intros x Hx. apply H. right. exact Hx.
Qed.

Lemma chain_head m p l : (forall a, a ∈ l -> a <> 0) -> chain m p l -> p = 0 <-> l = [].
Proof.
  intros Hne. destruct l as [|a l]; cbn; [tauto|]. intros [-> _]. split; [|discriminate].
  intros E. destruct (Hne a ltac:(left) E).
Qed.

(** Appending the block [a] behind the last block [t]. *)
Lemma chain_snoc m m' p l t a :
  NoDup (l ++ [t]) -> (forall x, x ∈ l -> load32 m' x = load32 m x) ->
  load32 m' t = a -> load32 m' a = 0 -> chain m p (l ++ [t]) -> chain m' p (l ++ [t; a]).
Proof.
  intros Hnd Hx Ht Ha. revert p. induction l as [|x l IH]; intros p; cbn.
  - intros [-> _]. split; [reflexivity|]. split; [exact Ht | exact Ha].
  - intros [-> Hl]. split; [reflexivity|]. rewrite Hx by left. cbn in Hnd. apply NoDup_cons in Hnd as [_ Hnd].
    apply IH; [exact Hnd | | exact Hl]. intros y Hy. apply Hx. right. exact Hy.
Qed.

(** ** The blocks of a region *)

Definition blocks (pool stride : Z) (n : nat) : list Z := map (fun i => pool + Z.of_nat i * stride) (seq 0 n).

Section Region.
Context (pool stride : Z) (n : nat).
Hypothesis Hstride : 4 <= stride.

Lemma in_blocks a : a ∈ blocks pool stride n <-> exists i, (i < n)%nat /\ a = pool + Z.of_nat i * stride.
Proof.
  unfold blocks. rewrite list_elem_of_In, in_map_iff. split.
  - intros (i & <- & Hi%in_seq). exists i. split; [lia | reflexivity].
  - intros (i & Hi & ->). exists i. split; [reflexivity | apply in_seq; lia].
Qed.

Lemma block_range a : a ∈ blocks pool stride n -> pool <= a /\ a + stride <= pool + Z.of_nat n * stride.
Proof. rewrite in_blocks. intros (i & Hi & ->). nia. Qed.

Lemma blocks_apart a b :
  a ∈ blocks pool stride n -> b ∈ blocks pool stride n -> a = b \/ a + stride <= b \/ b + stride <= a.
Proof.
  rewrite !in_blocks. intros (i & Hi & ->) (j & Hj & ->).
  destruct (Nat.lt_trichotomy i j) as [|[->|]]; [right; left; nia | left; reflexivity | right; right; nia].
Qed.

Lemma blocks_nodup : NoDup (blocks pool stride n).
Proof.
  apply NoDup_ListNoDup. unfold blocks. apply Finite.Injective_map_NoDup; [|apply seq_NoDup].
  intros i j E. nia.
Qed.

(** [m'] differs from [m] at most in the block [a]. *)
Definition within (a : Z) (m m' : Memory) : Prop :=
  forall x, x < a \/ a + stride <= x -> load8 m' x = load8 m x.
(** [m'] differs from [m] at most outside the region. *)
Definition beside (m m' : Memory) : Prop := same_on m' m pool (pool + Z.of_nat n * stride).

Lemma within_other a b m m' :
  a ∈ blocks pool stride n -> b ∈ blocks pool stride n -> a <> b -> within a m m' -> same_on m' m b (b + stride).
Proof. intros Ha Hb Hne H x Hx. apply H. destruct (blocks_apart a b Ha Hb) as [|[]]; lia. Qed.

Lemma beside_block a m m' : a ∈ blocks pool stride n -> beside m m' -> same_on m' m a (a + stride).
Proof. intros Ha H x Hx. apply H. pose proof (block_range a Ha). lia. Qed.

Lemma same_next m m' a : same_on m' m a (a + stride) -> load32 m' a = load32 m a.
Proof. intros H. apply same_on_load32. intros x Hx. apply H. lia. Qed.

Lemma store_next_within a v m : within a m (store32 m a v).
Proof. intros x Hx. apply load8_store32_other. lia. Qed.

Lemma within_trans a m1 m2 m3 : within a m1 m2 -> within a m2 m3 -> within a m1 m3.
Proof. intros H1 H2 x Hx. rewrite (H2 x Hx). apply H1. exact Hx. Qed.

(** A list without the block [a] survives a change of [a]. *)
Lemma chain_within a m m' p l :
  a ∈ blocks pool stride n -> (forall b, b ∈ l -> b ∈ blocks pool stride n) -> a ∉ l ->
  within a m m' -> chain m p l -> chain m' p l.
Proof.
  intros Ha Hl Hout Hw. apply chain_ext. intros b Hb. apply same_next, (within_other a); auto.
  intros <-. contradiction.
Qed.

Lemma chain_beside m m' p l :
  (forall b, b ∈ l -> b ∈ blocks pool stride n) -> beside m m' -> chain m p l -> chain m' p l.
Proof. intros Hl Hw. apply chain_ext. intros b Hb. apply same_next, beside_block; auto. Qed.
End Region.

(** ** Moving a block between lists *)

Lemma perm_second {A} (a : A) l1 l2 l3 : l1 ++ (a :: l2) ++ l3 ≡ₚ l1 ++ l2 ++ a :: l3.
Proof. apply Permutation_app_head, (Permutation_middle l2 l3 a). Qed.
Lemma perm_first {A} (a : A) l1 l2 l3 : (a :: l1) ++ l2 ++ l3 ≡ₚ l1 ++ l2 ++ a :: l3.
Proof. rewrite <- perm_second. apply (Permutation_middle l1 (l2 ++ l3) a). Qed.
Lemma perm_last {A} (a : A) l1 l2 l3 : (l1 ++ [a]) ++ l2 ++ l3 ≡ₚ l1 ++ l2 ++ a :: l3.
Proof. rewrite <- app_assoc. apply (perm_second a l1 l2 l3). Qed.
