(* ===== verification/LinkedList.v ===== *)
(** * The kernel's linked lists (rtservice.h)

    [rt_list_t] is a node of two words, [next] and [prev], linked into a ring through
    a head; [rt_slist_t] a node of one word.  The functions work on the byte memory.
    [ring m h xs] says that the nodes [xs] hang on the head [h] in this order; the
    theorems say that the functions act on the sequence as Kernel.v's and the object
    container's operations on sequences do, and leave every other byte alone. *)

From S2P Require Import Prelude Memory Chain.

(** ** rt_list_t: next, prev *)

Definition node_next (m : Memory) (l : Z) : Z := load32 m l.
Definition node_prev (m : Memory) (l : Z) : Z := load32 m (l + 4).
Definition set_node_next (m : Memory) (l v : Z) : Memory := store32 m l v.
Definition set_node_prev (m : Memory) (l v : Z) : Memory := store32 m (l + 4) v.

(** [l->next = l->prev = l] *)
Definition rt_list_init (m : Memory) (l : Z) : Memory :=
  let m := set_node_prev m l l in
  set_node_next m l l.

Definition rt_list_insert_after (m : Memory) (l n : Z) : Memory :=
  let m := set_node_prev m (node_next m l) n in
  let m := set_node_next m n (node_next m l) in
  let m := set_node_next m l n in
  set_node_prev m n l.

Definition rt_list_insert_before (m : Memory) (l n : Z) : Memory :=
  let m := set_node_next m (node_prev m l) n in
  let m := set_node_prev m n (node_prev m l) in
  let m := set_node_prev m l n in
  set_node_next m n l.

Definition rt_list_remove (m : Memory) (n : Z) : Memory :=
  let m := set_node_prev m (node_next m n) (node_prev m n) in
  let m := set_node_next m (node_prev m n) (node_next m n) in
  let m := set_node_prev m n n in
  set_node_next m n n.

Definition rt_list_isempty (m : Memory) (l : Z) : bool := node_next m l =? l.

(** [while (p->next != l) { p = p->next; len ++; }] *)
Definition rt_list_len (fuel : nat) (m : Memory) (l : Z) : option Z :=
  '(_, len) ← while fuel (fun '(p, _) => negb (node_next m p =? l))
                    (fun '(p, len) => (node_next m p, u32 (len + 1))) (l, 0);
  Some len.

(** ** rt_slist_t: next *)

Definition rt_slist_init (m : Memory) (l : Z) : Memory := store32 m l 0.

Definition rt_slist_tail (fuel : nat) (m : Memory) (l : Z) : option Z :=
  while fuel (fun l => negb (load32 m l =? 0)) (fun l => load32 m l) l.

Definition rt_slist_append (fuel : nat) (m : Memory) (l n : Z) : option Memory :=
  node ← while fuel (fun node => negb (load32 m node =? 0)) (fun node => load32 m node) l;
  let m := store32 m node n in
  Some (store32 m n 0).

Definition rt_slist_insert (m : Memory) (l n : Z) : Memory :=
  let m := store32 m n (load32 m l) in
  store32 m l n.

Definition rt_slist_len (fuel : nat) (m : Memory) (l : Z) : option Z :=
  '(_, len) ← while fuel (fun '(list, _) => negb (list =? 0))
                    (fun '(list, len) => (load32 m list, u32 (len + 1))) (load32 m l, 0);
  Some len.

Definition rt_slist_remove (fuel : nat) (m : Memory) (l n : Z) : option Memory :=
  node ← while fuel (fun node => negb (load32 m node =? 0) && negb (load32 m node =? n))
               (fun node => load32 m node) l;
  Some (if negb (load32 m node =? 0) then store32 m node (load32 m (load32 m node)) else m).

Definition rt_slist_first (m : Memory) (l : Z) : Z := load32 m l.
Definition rt_slist_next (m : Memory) (n : Z) : Z := load32 m n.
Definition rt_slist_isempty (m : Memory) (l : Z) : bool := load32 m l =? 0.

(** ** Rings *)

(** From [p] through [xs] to [e], forwards by [nx] and backwards by [pv]. *)
Fixpoint linked (nx pv : Z -> Z) (p : Z) (xs : list Z) (e : Z) : Prop :=
  match xs with
  | [] => nx p = e /\ pv e = p
  | x :: xs => nx p = x /\ pv x = p /\ linked nx pv x xs e
  end.

Definition ring (m : Memory) (h : Z) (xs : list Z) : Prop :=
  linked (node_next m) (node_prev m) h xs h.

(** Two nodes of eight bytes do not overlap. *)
Definition apart8 (a b : Z) : Prop := a + 8 <= b \/ b + 8 <= a.

(** [ns] are the addresses of distinct nodes. *)
Record nodes (ns : list Z) : Prop := {
  nd_nodup : NoDup ns;
  nd_apart : forall a b, a ∈ ns -> b ∈ ns -> a = b \/ apart8 a b;
  nd_addr : forall a, a ∈ ns -> 0 < a /\ a + 8 <= 4294967296
}.

(** The byte at [a] belongs to none of the nodes. *)
Definition off_nodes (ns : list Z) (a : Z) : Prop := forall x, x ∈ ns -> a < x \/ x + 8 <= a.

Lemma linked_ext nx pv nx' pv' p xs e :
  (forall a, a ∈ p :: xs -> nx' a = nx a) -> (forall b, b ∈ xs ++ [e] -> pv' b = pv b) ->
  linked nx pv p xs e -> linked nx' pv' p xs e.
Proof.
  revert p. induction xs as [|x xs IH]; intros p Hn Hp; cbn.
  - intros [<- E]. split; [apply Hn; left | rewrite Hp; [exact E | left]].
  - intros (<- & E & Hl). split; [apply Hn; left|]. split; [rewrite Hp; [exact E | left]|].
    apply IH; [| |exact Hl]; intros; [apply Hn | apply Hp]; right; assumption.
Qed.

Lemma linked_app nx pv p xs y ys e :
  linked nx pv p (xs ++ y :: ys) e <-> linked nx pv p xs y /\ linked nx pv y ys e.
Proof. revert p. induction xs as [|x xs IH]; intros p; cbn; [tauto|]. rewrite IH. tauto. Qed.

Lemma nodes_sub ns ns' : (forall a, a ∈ ns' -> a ∈ ns) -> NoDup ns' -> nodes ns -> nodes ns'.
Proof. intros H Hd [_ Ha Hb]. split; auto. Qed.

(** ** One store into a node *)

Section Stores.
Context (m : Memory) (ns : list Z).
Hypothesis Hns : nodes ns.

Lemma next_set_next a v b : a ∈ ns -> b ∈ ns ->
  node_next (set_node_next m a v) b = if b =? a then u32 v else node_next m b.
Proof.
  intros Ha Hb. unfold node_next, set_node_next. destruct (Z.eqb_spec b a) as [->|]; [apply load32_store32|].
  apply load32_store32_other. destruct (nd_apart _ Hns a b Ha Hb) as [|[]]; [congruence | lia | lia].
Qed.
Lemma prev_set_prev a v b : a ∈ ns -> b ∈ ns ->
  node_prev (set_node_prev m a v) b = if b =? a then u32 v else node_prev m b.
Proof.
  intros Ha Hb. unfold node_prev, set_node_prev. destruct (Z.eqb_spec b a) as [->|]; [apply load32_store32|].
  apply load32_store32_other. destruct (nd_apart _ Hns a b Ha Hb) as [|[]]; [congruence | lia | lia].
Qed.
Lemma next_set_prev a v b : a ∈ ns -> b ∈ ns -> node_next (set_node_prev m a v) b = node_next m b.
Proof.
  intros Ha Hb. apply load32_store32_other. destruct (nd_apart _ Hns a b Ha Hb) as [|[]]; lia.
Qed.
Lemma prev_set_next a v b : a ∈ ns -> b ∈ ns -> node_prev (set_node_next m a v) b = node_prev m b.
Proof.
  intros Ha Hb. apply load32_store32_other. destruct (nd_apart _ Hns a b Ha Hb) as [|[]]; lia.
Qed.
Lemma load8_set_next a v x : a ∈ ns -> off_nodes ns x -> load8 (set_node_next m a v) x = load8 m x.
Proof. intros Ha H. apply load8_store32_other. destruct (H a Ha); lia. Qed.
Lemma load8_set_prev a v x : a ∈ ns -> off_nodes ns x -> load8 (set_node_prev m a v) x = load8 m x.
Proof. intros Ha H. apply load8_store32_other. destruct (H a Ha); lia. Qed.
Lemma node_u32 a : a ∈ ns -> u32 a = a.
Proof. intros Ha. apply u32_small. pose proof (nd_addr _ Hns a Ha). lia. Qed.
End Stores.

(** ** What the three updates do to the fields of every node *)

Section Updates.
Context (m : Memory) (ns : list Z).
Hypothesis Hns : nodes ns.

Ltac fields := repeat first
  [ rewrite (next_set_next _ ns Hns) by assumption | rewrite (prev_set_prev _ ns Hns) by assumption
  | rewrite (next_set_prev _ ns Hns) by assumption | rewrite (prev_set_next _ ns Hns) by assumption
  | rewrite (node_u32 ns Hns) by assumption ].

Lemma insert_after_fields l n : l ∈ ns -> n ∈ ns -> n <> l -> node_next m l ∈ ns -> node_next m l <> n ->
  forall b, b ∈ ns ->
    node_next (rt_list_insert_after m l n) b =
      (if b =? l then n else if b =? n then node_next m l else node_next m b) /\
    node_prev (rt_list_insert_after m l n) b =
      (if b =? n then l else if b =? node_next m l then n else node_prev m b).
Proof.
  intros Hl Hn Hne Hx Hxn b Hb. unfold rt_list_insert_after. set (x := node_next m l) in *.
  assert (Ex : node_next (set_node_prev m x n) l = x) by (fields; reflexivity).
  rewrite Ex. split; fields; reflexivity.
Qed.

Lemma insert_before_fields l n : l ∈ ns -> n ∈ ns -> n <> l -> node_prev m l ∈ ns -> node_prev m l <> n ->
  forall b, b ∈ ns ->
    node_next (rt_list_insert_before m l n) b =
      (if b =? n then l else if b =? node_prev m l then n else node_next m b) /\
    node_prev (rt_list_insert_before m l n) b =
      (if b =? l then n else if b =? n then node_prev m l else node_prev m b).
Proof.
  intros Hl Hn Hne Hx Hxn b Hb. unfold rt_list_insert_before. set (x := node_prev m l) in *.
  assert (Ex : node_prev (set_node_next m x n) l = x) by (fields; reflexivity).
  rewrite Ex. split; fields; reflexivity.
Qed.

Lemma remove_fields n : n ∈ ns -> node_next m n ∈ ns -> node_prev m n ∈ ns ->
  (node_next m n = n <-> node_prev m n = n) ->
  forall b, b ∈ ns ->
    node_next (rt_list_remove m n) b =
      (if b =? n then n else if b =? node_prev m n then node_next m n else node_next m b) /\
    node_prev (rt_list_remove m n) b =
      (if b =? n then n else if b =? node_next m n then node_prev m n else node_prev m b).
Proof.
  intros Hn Ha Hp Hself b Hb. unfold rt_list_remove. set (a := node_next m n) in *. set (p := node_prev m n) in *.
  assert (Ep : node_prev (set_node_prev m a p) n = p).
  { fields. destruct (Z.eqb_spec n a); [reflexivity|]. reflexivity. }
  assert (En : node_next (set_node_prev m a p) n = a) by (fields; reflexivity).
  rewrite Ep, En. split; fields; reflexivity.
Qed.

Lemma insert_after_frame l n a : l ∈ ns -> n ∈ ns -> node_next m l ∈ ns -> off_nodes ns a ->
  load8 (rt_list_insert_after m l n) a = load8 m a.
Proof.
  intros. unfold rt_list_insert_after.
  rewrite !(load8_set_prev _ ns), !(load8_set_next _ ns), ?(load8_set_prev _ ns) by assumption. reflexivity.
Qed.
Lemma insert_before_frame l n a : l ∈ ns -> n ∈ ns -> node_prev m l ∈ ns -> off_nodes ns a ->
  load8 (rt_list_insert_before m l n) a = load8 m a.
Proof.
  intros. unfold rt_list_insert_before.
  rewrite (load8_set_next _ ns), !(load8_set_prev _ ns), ?(load8_set_next _ ns) by assumption. reflexivity.
Qed.
Lemma remove_frame n a : n ∈ ns -> node_next m n ∈ ns -> node_prev m n ∈ ns -> off_nodes ns a ->
  load8 (rt_list_remove m n) a = load8 m a.
Proof.
  intros Hn Ha Hp Hoff. unfold rt_list_remove.
  assert (Ep : node_prev (set_node_prev m (node_next m n) (node_prev m n)) n = node_prev m n).
  { fields. destruct (Z.eqb_spec n (node_next m n)); reflexivity. }
  rewrite Ep, (load8_set_next _ ns), (load8_set_prev _ ns), (load8_set_next _ ns), (load8_set_prev _ ns) by assumption.
  reflexivity.
Qed.

End Updates.

(** ** Insertion into and removal from a ring *)

Lemma last_cons {A} (x : A) xs p : List.last (x :: xs) p = List.last xs x.
Proof.
  revert x p. induction xs as [|y xs IH]; intros x p; [reflexivity|].
  change (List.last (y :: xs) p = List.last (y :: xs) x). rewrite !IH. reflexivity.
Qed.

Lemma last_in (p : Z) xs : List.last xs p ∈ p :: xs.
Proof.
  revert p. induction xs as [|x xs IH]; intros p; [left|]. rewrite last_cons. right. apply IH.
Qed.
Lemma hd_in (e : Z) ys : hd e ys ∈ ys ++ [e].
Proof. destruct ys; left. Qed.

(** The two links at a place in the list. *)
Lemma linked_at nx pv p xs ys e : linked nx pv p (xs ++ ys) e ->
  nx (List.last xs p) = hd e ys /\ pv (hd e ys) = List.last xs p.
Proof.
  revert p. induction xs as [|x xs IH]; intros p.
  - destruct ys; cbn; tauto.
  - rewrite last_cons. intros (_ & _ & H). apply IH, H.
Qed.

Lemma linked_split nx pv p mid ys e :
  linked nx pv p (mid ++ ys) e <->
  linked nx pv p mid (hd e ys) /\ match ys with [] => True | y :: ys => linked nx pv y ys e end.
Proof.
  destruct ys as [|y ys]; [rewrite app_nil_r; cbn; tauto | apply linked_app].
Qed.

(** The part between two places is replaced: the links elsewhere stay. *)
Lemma linked_edit nx pv nx' pv' p xs mid mid' ys e :
  NoDup (p :: xs ++ ys) -> e ∉ xs ++ ys -> linked nx pv p (xs ++ mid ++ ys) e ->
  (forall b, b ∈ p :: xs ++ ys -> b <> List.last xs p -> nx' b = nx b) ->
  (forall b, b ∈ e :: xs ++ ys -> b <> hd e ys -> pv' b = pv b) ->
  linked nx' pv' (List.last xs p) mid' (hd e ys) ->
  linked nx' pv' p (xs ++ mid' ++ ys) e.
Proof.
  revert p. induction xs as [|x xs IH]; intros p Hd He Hl Hnx Hpv Hmid.
  - cbn [app List.last] in *. apply linked_split. split; [exact Hmid|].
    apply linked_split in Hl as [_ Hl]. destruct ys as [|y ys]; [exact I|].
    cbn [hd] in *. apply NoDup_cons in Hd as [Hp [Hy Hd]%NoDup_cons]. rewrite not_elem_of_cons in He.
    revert Hl. apply linked_ext; intros b Hb.
    + apply Hnx; [right; exact Hb | intros ->; contradiction].
    + rewrite elem_of_app, list_elem_of_singleton in Hb.
      apply Hpv; [rewrite !elem_of_cons; tauto | intros ->; destruct He, Hb; congruence].
  - rewrite last_cons in *. cbn [app linked] in *. destruct Hl as (E1 & E2 & Hl).
    apply NoDup_cons in Hd as [Hp Hd]. rewrite not_elem_of_cons in He. destruct He as [Hex He].
    apply NoDup_cons in Hd as [Hx Hd].
    rewrite Hnx, Hpv; [| | |left|].
    + split; [exact E1|]. split; [exact E2|]. apply IH; auto.
      * apply NoDup_cons. auto.
      * intros b Hb. apply Hnx. right. exact Hb.
      * intros b Hb. apply Hpv. rewrite !elem_of_cons in *. tauto.
    + right. left.
    + intros E. pose proof (hd_in e ys) as H. rewrite <- E, elem_of_app, list_elem_of_singleton in H.
      destruct H; [apply Hx, elem_of_app; auto | congruence].
    + intros E. apply Hp. rewrite E. pose proof (last_in x xs) as H. rewrite elem_of_cons, elem_of_app in *. tauto.
Qed.

(** A ring's own nodes. *)
Lemma ring_sub h xs ys (ns : list Z) : nodes ns -> NoDup (h :: xs ++ ys) ->
  (forall a, a ∈ h :: xs ++ ys -> a ∈ ns) ->
  List.last xs h ∈ ns /\ hd h ys ∈ ns /\ h ∉ xs ++ ys.
Proof.
  intros Hns [Hh Hd]%NoDup_cons Hsub. split_ands; [| |exact Hh].
  - apply Hsub. pose proof (last_in h xs) as H. rewrite elem_of_cons, elem_of_app in *. tauto.
  - apply Hsub. pose proof (hd_in h ys) as H. rewrite elem_of_app, list_elem_of_singleton in H.
    rewrite elem_of_cons, elem_of_app. tauto.
Qed.

Section Ring.
Context (m : Memory) (ns : list Z) (h : Z) (xs ys : list Z) (n : Z).
Hypothesis Hns : nodes ns.
Hypothesis Hd : NoDup (n :: h :: xs ++ ys).
Hypothesis Hsub : forall a, a ∈ n :: h :: xs ++ ys -> a ∈ ns.

Lemma ring_facts :
  n ∈ ns /\ List.last xs h ∈ ns /\ hd h ys ∈ ns /\ (h ∉ xs ++ ys) /\ NoDup (h :: xs ++ ys) /\
  (List.last xs h <> n) /\ hd h ys <> n.
Proof.
  pose proof Hd as [Hn Hd']%NoDup_cons.
  destruct (ring_sub h xs ys ns Hns Hd') as (H1 & H2 & H3); [intros a Ha; apply Hsub; right; exact Ha|].
  split_ands; auto; [apply Hsub; left | |].
  - intros E. apply Hn. rewrite <- E. pose proof (last_in h xs) as H. rewrite elem_of_cons, elem_of_app in *. tauto.
  - intros E. apply Hn. rewrite <- E. pose proof (hd_in h ys) as H.
    rewrite elem_of_app, list_elem_of_singleton in H. rewrite elem_of_cons, elem_of_app. tauto.
Qed.

Ltac ring_cases := repeat match goal with |- context [?a =? ?b] => destruct (Z.eqb_spec a b) end; congruence || tauto.

Lemma ring_insert nx' pv' :
  ring m h (xs ++ ys) ->
  (forall b, b ∈ ns -> nx' b = if b =? List.last xs h then n else if b =? n then hd h ys else node_next m b) ->
  (forall b, b ∈ ns -> pv' b = if b =? n then List.last xs h else if b =? hd h ys then n else node_prev m b) ->
  linked nx' pv' h (xs ++ n :: ys) h.
Proof.
  intros Hr Hnx Hpv. destruct ring_facts as (Hn & Hl & Hh & He & Hd' & Hln & Hhn).
  pose proof Hd as [Hnn _]%NoDup_cons.
  apply (linked_edit (node_next m) (node_prev m) nx' pv' h xs [] [n] ys h); auto.
  - intros b Hb Hne. rewrite Hnx by (apply Hsub; right; exact Hb). ring_cases.
  - intros b Hb Hne. rewrite Hpv by (apply Hsub; right; exact Hb). ring_cases.
  - cbn [linked]. rewrite !Hnx, !Hpv by assumption. rewrite !Z.eqb_refl. repeat split; ring_cases.
Qed.

Lemma ring_insert_after : ring m h (xs ++ ys) ->
  ring (rt_list_insert_after m (List.last xs h) n) h (xs ++ n :: ys) /\
  forall a, off_nodes ns a -> load8 (rt_list_insert_after m (List.last xs h) n) a = load8 m a.
Proof.
  intros Hr. destruct ring_facts as (Hn & Hl & Hh & He & Hd' & Hln & Hhn).
  destruct (linked_at _ _ _ _ _ _ Hr) as [E1 E2].
  split; [|intros a; apply (insert_after_frame _ ns); rewrite ?E1; auto].
  apply ring_insert; auto; intros b Hb; rewrite <- E1;
    apply (insert_after_fields m ns Hns); rewrite ?E1; auto.
Qed.

Lemma ring_insert_before : ring m h (xs ++ ys) ->
  ring (rt_list_insert_before m (hd h ys) n) h (xs ++ n :: ys) /\
  forall a, off_nodes ns a -> load8 (rt_list_insert_before m (hd h ys) n) a = load8 m a.
Proof.
  intros Hr. destruct ring_facts as (Hn & Hl & Hh & He & Hd' & Hln & Hhn).
  destruct (linked_at _ _ _ _ _ _ Hr) as [E1 E2].
  split; [|intros a; apply (insert_before_frame _ ns); rewrite ?E2; auto].
  apply ring_insert; auto; intros b Hb;
    destruct (insert_before_fields m ns Hns (hd h ys) n) with (b := b) as [F1 F2]; rewrite ?E2; auto;
    rewrite ?F1, ?F2, E2; ring_cases.
Qed.

Lemma ring_remove : ring m h (xs ++ n :: ys) ->
  ring (rt_list_remove m n) h (xs ++ ys) /\ ring (rt_list_remove m n) n [] /\
  forall a, off_nodes ns a -> load8 (rt_list_remove m n) a = load8 m a.
Proof.
  intros Hr. destruct ring_facts as (Hn & Hl & Hh & He & Hd' & Hln & Hhn).
  destruct (linked_at _ _ _ _ _ _ Hr) as [_ E1]. cbn [hd] in E1.
  assert (E2 : node_next m n = hd h ys).
  { replace (xs ++ n :: ys) with ((xs ++ [n]) ++ ys) in Hr by (rewrite <- app_assoc; reflexivity).
    destruct (linked_at _ _ _ _ _ _ Hr) as [E _]. rewrite last_last in E. exact E. }
  assert (F : forall b, b ∈ ns -> _) by (apply (remove_fields m ns Hns n); rewrite ?E1, ?E2; auto; split; congruence).
  rewrite E1, E2 in F. split_ands.
  - apply (linked_edit (node_next m) (node_prev m) _ _ h xs [n] [] ys h); auto; pose proof Hd as [Hnn _]%NoDup_cons.
    + intros b Hb Hne. destruct (F b) as [-> _]; [apply Hsub; right; exact Hb|]. ring_cases.
    + intros b Hb Hne. destruct (F b) as [_ ->]; [apply Hsub; right; exact Hb|]. ring_cases.
    + cbn [linked]. destruct (F _ Hl) as [-> _], (F _ Hh) as [_ ->]. rewrite !Z.eqb_refl. split; ring_cases.
  - unfold ring. cbn [linked]. destruct (F n Hn) as [-> ->]. rewrite Z.eqb_refl. auto.
  - intros a. apply (remove_frame _ ns); rewrite ?E1, ?E2; auto.
Qed.
End Ring.

Lemma ring_frame m m' h xs :
  (forall x, x ∈ h :: xs -> same_on m' m x (x + 8)) -> ring m h xs -> ring m' h xs.
Proof.
  intros H. apply linked_ext; intros a Ha; apply same_on_load32; intros b Hb; apply (H a); try lia; [exact Ha|].
  rewrite elem_of_app, list_elem_of_singleton in Ha. rewrite elem_of_cons. tauto.
Qed.

(** ** Initialisation, emptiness and length *)

Lemma rt_list_init_ring m l : nodes [l] ->
  ring (rt_list_init m l) l [] /\ forall a, off_nodes [l] a -> load8 (rt_list_init m l) a = load8 m a.
Proof.
  intros Hns. assert (Hl : l ∈ [l]) by left. unfold ring, rt_list_init. cbn [linked].
  rewrite (next_set_next _ _ Hns), (prev_set_next _ _ Hns), (prev_set_prev _ _ Hns), Z.eqb_refl, (node_u32 _ Hns)
    by exact Hl.
  split; [auto|]. intros a Ha. rewrite (load8_set_next _ [l]), (load8_set_prev _ [l]); auto.
Qed.

Lemma rt_list_isempty_spec m h xs : ring m h xs -> h ∉ xs -> rt_list_isempty m h = bool_decide (xs = []).
Proof.
  intros Hr Hh. unfold rt_list_isempty. destruct xs as [|x xs]; unfold ring in Hr; cbn [linked] in Hr.
  - destruct Hr as [-> _]. rewrite Z.eqb_refl. reflexivity.
  - destruct Hr as [-> _]. apply Z.eqb_neq. intros ->. apply Hh. left.
Qed.

Lemma list_len_loop fuel m h p xs c : linked (node_next m) (node_prev m) p xs h -> h ∉ xs ->
  (length xs < fuel)%nat -> 0 <= c -> c + Z.of_nat (length xs) < 4294967296 ->
  while fuel (fun '(p, _) => negb (node_next m p =? h)) (fun '(p, len) => (node_next m p, u32 (len + 1))) (p, c)
  = Some (List.last xs p, c + Z.of_nat (length xs)).
Proof.
  revert fuel p c. induction xs as [|x xs IH]; intros [|fuel] p c Hl Hh Hf Hc Hb; cbn [length] in Hf; try lia;
    cbn [while linked] in *.
  - destruct Hl as [-> _]. rewrite Z.eqb_refl. cbn. f_equal. f_equal. lia.
  - destruct Hl as (-> & _ & Hl). rewrite not_elem_of_cons in Hh.
    destruct (Z.eqb_spec x h); [destruct Hh; congruence|]. cbn [negb length] in *.
    rewrite (IH fuel); [| exact Hl | tauto | lia | |]; rewrite ?last_cons, ?u32_small by lia; [f_equal; f_equal; lia | lia | lia].
Qed.

Lemma rt_list_len_spec fuel m h xs : ring m h xs -> h ∉ xs -> (length xs < fuel)%nat ->
  Z.of_nat (length xs) < 4294967296 -> rt_list_len fuel m h = Some (Z.of_nat (length xs)).
Proof.
  intros Hr Hh Hf Hb. unfold rt_list_len. rewrite (list_len_loop fuel m h h xs 0) by (auto; lia). reflexivity.
Qed.

(** ** Single lists *)

(** [slist m l xs]: the nodes [xs] hang on the head [l]. *)
Definition slist (m : Memory) (l : Z) (xs : list Z) : Prop := chain m (load32 m l) xs.

(** [ns] are the addresses of distinct nodes of four bytes. *)
Record words (ns : list Z) : Prop := {
  wd_nodup : NoDup ns;
  wd_apart : forall a b, a ∈ ns -> b ∈ ns -> a = b \/ a + 4 <= b \/ b + 4 <= a;
  wd_addr : forall a, a ∈ ns -> 0 < a < 4294967296
}.

Lemma word_store m ns a v b : words ns -> a ∈ ns -> b ∈ ns ->
  load32 (store32 m a v) b = if b =? a then u32 v else load32 m b.
Proof.
  intros Hw Ha Hb. destruct (Z.eqb_spec b a) as [->|]; [apply load32_store32|].
  apply load32_store32_other. destruct (wd_apart _ Hw a b Ha Hb) as [|[]]; [congruence | lia | lia].
Qed.
Lemma word_u32 ns a : words ns -> a ∈ ns -> u32 a = a.
Proof. intros Hw Ha. apply u32_small. pose proof (wd_addr _ Hw a Ha). lia. Qed.

(** The rest of the list behind [pre] is replaced. *)
Lemma slist_edit m m' l pre rest rest' :
  NoDup (l :: pre) -> slist m l (pre ++ rest) ->
  (forall a, a ∈ l :: pre -> a <> List.last pre l -> load32 m' a = load32 m a) ->
  slist m' (List.last pre l) rest' -> slist m' l (pre ++ rest').
Proof.
  revert l. unfold slist. induction pre as [|x pre IH]; intros l Hd Hc Hm Hr; cbn [app] in *; [exact Hr|].
  rewrite last_cons in *. cbn [chain] in *. destruct Hc as [E Hc]. apply NoDup_cons in Hd as [Hl Hd].
  rewrite (Hm l); [| left |].
  - split; [exact E|]. apply IH; auto. intros a Ha. apply Hm. right. exact Ha.
  - intros El. apply Hl. rewrite El. apply last_in.
Qed.

Lemma slist_at m l pre rest : slist m l (pre ++ rest) -> slist m (List.last pre l) rest.
Proof.
  revert l. unfold slist. induction pre as [|x pre IH]; intros l H; [exact H|]. rewrite last_cons.
  cbn in H. destruct H as [E H]. apply IH. exact H.
Qed.

(** A walk along [pre]: it stops where the rest of the list begins. *)
Lemma slist_walk fuel m l pre rest (stop : Z -> bool) :
  slist m l (pre ++ rest) -> Forall (fun a => a <> 0 /\ stop a = false) pre ->
  (hd 0 rest = 0 \/ stop (hd 0 rest) = true) -> (length pre < fuel)%nat ->
  while fuel (fun node => negb (load32 m node =? 0) && negb (stop (load32 m node))) (fun node => load32 m node) l
  = Some (List.last pre l).
Proof.
  unfold slist. revert fuel l. induction pre as [|x pre IH]; intros [|fuel] l Hc Hf Hs Hlen; cbn [length] in Hlen; try lia;
    cbn [while app] in *.
  - assert (E : load32 m l = hd 0 rest) by (destruct rest; cbn in *; tauto). rewrite E.
    destruct Hs as [-> | ->]; cbn [Z.eqb negb andb]; rewrite ?andb_false_r; reflexivity.
  - cbn [chain] in Hc. destruct Hc as [E Hc]. rewrite E. apply Forall_cons in Hf as [[Hx Hst] Hf].
    destruct (Z.eqb_spec x 0); [contradiction|]. rewrite Hst. cbn [negb andb]. rewrite last_cons. apply IH; auto; lia.
Qed.

Section SList.
Context (m : Memory) (l n : Z) (pre suf : list Z).
Hypothesis Hw : words (l :: n :: pre ++ suf).

Lemma slist_walk_all fuel m0 xs : slist m0 l xs -> Forall (fun a => a <> 0) xs -> (length xs < fuel)%nat ->
  while fuel (fun node => negb (load32 m0 node =? 0)) (fun node => load32 m0 node) l = Some (List.last xs l).
Proof.
  intros Hc Hf Hlen. rewrite <- (slist_walk fuel m0 l xs [] (fun _ => false)); auto.
  - clear. revert l. induction fuel as [|fuel IH]; intros l; [reflexivity|]. cbn [while]. rewrite IH, andb_true_r. reflexivity.
  - rewrite app_nil_r. exact Hc.
  - apply (Forall_impl _ _ _ Hf). auto.
Qed.

Lemma slist_len_loop fuel m0 p xs c : chain m0 p xs -> Forall (fun a => a <> 0) xs -> (length xs < fuel)%nat ->
  0 <= c -> c + Z.of_nat (length xs) < 4294967296 ->
  while fuel (fun '(list, _) => negb (list =? 0)) (fun '(list, len) => (load32 m0 list, u32 (len + 1))) (p, c)
  = Some (0, c + Z.of_nat (length xs)).
Proof.
  revert fuel p c. induction xs as [|x xs IH]; intros [|fuel] p c Hc Hf Hlen H0 Hb; cbn [length] in *; try lia;
    cbn [while chain] in *.
  - subst p. cbn. f_equal. f_equal. lia.
  - destruct Hc as [-> Hc]. apply Forall_cons in Hf as [Hx Hf]. destruct (Z.eqb_spec x 0); [contradiction|].
    cbn [negb]. rewrite (IH fuel); [| | |lia| |]; rewrite ?u32_small by lia; auto; try lia. f_equal. f_equal. lia.
Qed.

Lemma slist_nonzero a : a ∈ l :: n :: pre ++ suf -> a <> 0.
Proof. intros Ha. pose proof (wd_addr _ Hw a Ha). lia. Qed.

Lemma slist_parts : NoDup (l :: pre) /\ n ∈ l :: n :: pre ++ suf /\
  List.last pre l ∈ l :: n :: pre ++ suf /\ List.last pre l <> n /\
  (forall a, a ∈ l :: pre -> a ∈ l :: n :: pre ++ suf /\ a <> n) /\
  (forall a, a ∈ suf -> a <> List.last pre l /\ a <> n /\ a ∈ l :: n :: pre ++ suf).
Proof.
  pose proof (wd_nodup _ Hw) as Hd. apply NoDup_cons in Hd as [Hl [Hn Hd]%NoDup_cons].
  apply NoDup_app in Hd as (Hd1 & Hd12 & _). rewrite not_elem_of_cons, not_elem_of_app in Hl. rewrite not_elem_of_app in Hn.
  assert (Hsub : forall a, a ∈ l :: pre -> a ∈ l :: n :: pre ++ suf /\ a <> n).
  { intros a [->|Ha]%elem_of_cons; [split; [left | tauto]|].
    split; [rewrite !elem_of_cons, elem_of_app; tauto | intros ->; tauto]. }
  pose proof (last_in l pre) as Hlast. destruct (Hsub _ Hlast) as [H1 H2]. split_ands; auto.
  - apply NoDup_cons. tauto.
  - right. left.
  - intros a Ha. split_ands.
    + intros ->. apply elem_of_cons in Hlast as [E|Hp]; [rewrite E in Ha; tauto | exact (Hd12 _ Hp Ha)].
    + intros ->. tauto.
    + rewrite !elem_of_cons, elem_of_app. tauto.
Qed.

(** Linking [n] behind [pre], and unlinking it. *)
Lemma slist_link (m' : Memory) : slist m l (pre ++ suf) ->
  (forall a, a ∈ l :: n :: pre ++ suf ->
     load32 m' a = if a =? List.last pre l then n else if a =? n then hd 0 suf else load32 m a) ->
  slist m' l (pre ++ n :: suf).
Proof.
  intros Hc Hm. destruct slist_parts as (Hd & Hn & Hlast & Hne & Hpre & Hsuf).
  apply (slist_edit m m' l pre suf (n :: suf)); auto.
  - intros a Ha Hna. destruct (Hpre a Ha) as [Ha' Hn']. rewrite Hm by exact Ha'.
    destruct (Z.eqb_spec a (List.last pre l)), (Z.eqb_spec a n); congruence.
  - unfold slist. cbn [chain]. rewrite !Hm by assumption. rewrite !Z.eqb_refl.
    destruct (Z.eqb_spec n (List.last pre l)); [congruence|]. split; [reflexivity|].
    apply slist_at in Hc. unfold slist in Hc. destruct suf as [|s suf'] eqn:Es; cbn [hd chain] in *; [reflexivity|].
    destruct Hc as [_ Hc]. split; [reflexivity|].
    assert (Hs : forall a, a ∈ s :: suf' -> load32 m' a = load32 m a).
    { intros a Ha. destruct (Hsuf a Ha) as (H1 & H2 & H3). rewrite Hm by exact H3.
      destruct (Z.eqb_spec a (List.last pre l)), (Z.eqb_spec a n); congruence. }
    rewrite Hs by left. revert Hc. apply chain_ext. intros a Ha. apply Hs. right. exact Ha.
Qed.

Lemma slist_unlink : slist m l (pre ++ n :: suf) ->
  slist (store32 m (List.last pre l) (load32 m n)) l (pre ++ suf).
Proof.
  intros Hc. destruct slist_parts as (Hd & Hn & Hlast & Hne & Hpre & Hsuf).
  apply (slist_edit m _ l pre (n :: suf) suf); auto.
  - intros a Ha Hna. destruct (Hpre a Ha) as [Ha' Hn']. rewrite (word_store _ _ _ _ _ Hw Hlast Ha').
    destruct (Z.eqb_spec a (List.last pre l)); congruence.
  - apply slist_at in Hc. unfold slist in *. cbn [chain] in Hc. destruct Hc as [E Hc].
    rewrite (word_store _ _ _ _ _ Hw Hlast Hlast), Z.eqb_refl, u32_small by apply load32_range.
    revert Hc. apply chain_ext. intros a Ha. destruct (Hsuf a Ha) as (H1 & H2 & H3).
    rewrite (word_store _ _ _ _ _ Hw Hlast H3). destruct (Z.eqb_spec a (List.last pre l)); congruence.
Qed.
End SList.

Lemma slist_isempty_spec m l xs : slist m l xs -> Forall (fun a => a <> 0) xs ->
  rt_slist_isempty m l = bool_decide (xs = []).
Proof.
  intros Hc Hf. unfold rt_slist_isempty. destruct xs as [|x xs].
  - unfold slist in Hc. cbn in Hc. rewrite Hc. reflexivity.
  - unfold slist in Hc. cbn in Hc. destruct Hc as [-> _]. apply Forall_cons in Hf as [Hx _].
    apply Z.eqb_neq in Hx. rewrite Hx. reflexivity.
Qed.

Section SListSpecs.
Context (m : Memory) (l n : Z) (pre suf : list Z).
Hypothesis Hw : words (l :: n :: pre ++ suf).

(** The byte at [a] belongs to none of the nodes. *)
Definition off_words (ns : list Z) (a : Z) : Prop := forall x, x ∈ ns -> a < x \/ x + 4 <= a.

Lemma off_words_store ns m0 x v a : x ∈ ns -> off_words ns a -> load8 (store32 m0 x v) a = load8 m0 a.
Proof. intros Hx Ha. apply load8_store32_other. destruct (Ha x Hx); auto. Qed.

Lemma slist_nonzeros xs : (forall a, a ∈ xs -> a ∈ l :: n :: pre ++ suf) -> Forall (fun a => a <> 0) xs.
Proof. intros H. apply Forall_forall. intros a Ha. apply (slist_nonzero l n pre suf Hw), H, Ha. Qed.

Lemma slist_hd xs : slist m l xs -> load32 m l = hd 0 xs.
Proof. unfold slist. destruct xs; cbn; tauto. Qed.

(** Inserting behind the last node of [pre], or behind the head. *)
Lemma rt_slist_insert_spec : slist m l (pre ++ suf) ->
  let m' := rt_slist_insert m (List.last pre l) n in
  slist m' l (pre ++ n :: suf) /\ forall a, off_words (l :: n :: pre ++ suf) a -> load8 m' a = load8 m a.
Proof.
  intros Hc. destruct (slist_parts l n pre suf Hw) as (_ & Hn & Hlast & _). unfold rt_slist_insert. split.
  - apply (slist_link m l n pre suf Hw); [exact Hc|]. intros a Ha.
    rewrite (word_store _ _ _ _ _ Hw Hlast Ha), (word_store _ _ _ _ _ Hw Hn Ha), (word_u32 _ n Hw Hn), u32_small
      by apply load32_range.
    pose proof (slist_at _ _ _ _ Hc) as E. assert (E' : load32 m (List.last pre l) = hd 0 suf).
    { unfold slist in E. destruct suf; cbn in *; tauto. }
    rewrite E'. reflexivity.
  - intros a Ha. rewrite !(off_words_store (l :: n :: pre ++ suf)) by assumption. reflexivity.
Qed.

Lemma rt_slist_append_spec fuel : suf = [] -> slist m l pre -> (length pre < fuel)%nat ->
  exists m', rt_slist_append fuel m l n = Some m' /\ slist m' l (pre ++ [n]) /\
    forall a, off_words (l :: n :: pre ++ suf) a -> load8 m' a = load8 m a.
Proof.
  intros Hs Hc Hf. pose proof Hw as Hw'. rewrite Hs in Hw' |- *.
  destruct (slist_parts l n pre [] Hw') as (Hd & Hn & Hlast & Hne & Hpre & _).
  unfold rt_slist_append. rewrite (slist_walk_all l fuel m pre); [|exact Hc| |exact Hf].
  2:{ apply slist_nonzeros. intros a Ha. rewrite !elem_of_cons, elem_of_app. auto. }
  eexists. split; [reflexivity|]. split.
  - apply (slist_link m l n pre [] Hw'); [rewrite app_nil_r; exact Hc|].
    intros a Ha. rewrite (word_store _ _ _ _ _ Hw' Hn Ha), (word_store _ _ _ _ _ Hw' Hlast Ha), (word_u32 _ n Hw' Hn).
    cbn [hd]. destruct (Z.eqb_spec a n), (Z.eqb_spec a (List.last pre l)); congruence || reflexivity.
  - intros a Ha. rewrite !(off_words_store (l :: n :: pre ++ [])) by assumption. reflexivity.
Qed.

(** The search of [rt_slist_remove] for a node with [pre] before it. *)
Lemma slist_search fuel rest : slist m l (pre ++ rest) -> hd 0 rest = 0 \/ hd 0 rest = n -> (length pre < fuel)%nat ->
  while fuel (fun node => negb (load32 m node =? 0) && negb (load32 m node =? n)) (fun node => load32 m node) l
  = Some (List.last pre l).
Proof.
  intros Hc Hr Hf. destruct (slist_parts l n pre suf Hw) as (_ & _ & _ & _ & Hpre & _).
  apply (slist_walk fuel m l pre rest (fun a => a =? n)); [exact Hc| |destruct Hr as [->| ->]; rewrite ?Z.eqb_refl; auto|exact Hf].
  apply Forall_forall. intros a Ha. destruct (Hpre a) as [H1 H2]; [right; exact Ha|].
  split; [apply (slist_nonzero l n pre suf Hw), H1 | apply Z.eqb_neq, H2].
Qed.

Lemma rt_slist_remove_spec fuel : slist m l (pre ++ n :: suf) -> (length pre < fuel)%nat ->
  exists m', rt_slist_remove fuel m l n = Some m' /\ slist m' l (pre ++ suf) /\
    forall a, off_words (l :: n :: pre ++ suf) a -> load8 m' a = load8 m a.
Proof.
  intros Hc Hf. destruct (slist_parts l n pre suf Hw) as (_ & Hn & Hlast & _).
  unfold rt_slist_remove. rewrite (slist_search fuel (n :: suf)) by auto.
  eexists. split; [reflexivity|]. pose proof (slist_at _ _ _ _ Hc) as E. destruct E as [E _]. rewrite E.
  destruct (Z.eqb_spec n 0) as [E0|]; [exfalso; apply (slist_nonzero l n pre suf Hw n Hn E0)|]. cbn [negb].
  split; [apply slist_unlink; auto|]. intros a Ha. apply (off_words_store (l :: n :: pre ++ suf)); assumption.
Qed.

(** A node that is not in the list: nothing is written. *)
Lemma rt_slist_remove_absent fuel : suf = [] -> slist m l pre -> (length pre < fuel)%nat ->
  rt_slist_remove fuel m l n = Some m.
Proof.
  intros Hs Hc Hf. rewrite <- (app_nil_r pre) in Hc. unfold rt_slist_remove. rewrite (slist_search fuel []) by auto.
  apply slist_at in Hc. unfold slist in Hc. cbn [chain] in Hc. cbn [mbind option_bind]. rewrite Hc. reflexivity.
Qed.

(** What the functions that write nothing answer. *)
Lemma slist_answers fuel : slist m l (pre ++ suf) -> (length (pre ++ suf) < fuel)%nat ->
  rt_slist_isempty m l = bool_decide (pre ++ suf = []) /\ rt_slist_first m l = hd 0 (pre ++ suf) /\
  rt_slist_next m (List.last pre l) = hd 0 suf /\ rt_slist_tail fuel m l = Some (List.last (pre ++ suf) l) /\
  (Z.of_nat (length (pre ++ suf)) < 4294967296 -> rt_slist_len fuel m l = Some (Z.of_nat (length (pre ++ suf)))).
Proof.
  intros Hc Hf. assert (Hnz : Forall (fun a => a <> 0) (pre ++ suf)).
  { apply slist_nonzeros. intros a Ha. rewrite !elem_of_cons. auto. }
  split_ands.
  - apply slist_isempty_spec; assumption.
  - apply slist_hd, Hc.
  - pose proof (slist_at _ _ _ _ Hc) as E. unfold slist, rt_slist_next in *. destruct suf; cbn in *; tauto.
  - apply slist_walk_all; assumption.
  - intros Hb. unfold rt_slist_len. rewrite (slist_len_loop fuel m _ (pre ++ suf) 0) by (auto; lia). reflexivity.
Qed.
End SListSpecs.

Lemma rt_slist_init_spec m l : slist (rt_slist_init m l) l [] /\
  forall a, off_words [l] a -> load8 (rt_slist_init m l) a = load8 m a.
Proof.
  split.
  - unfold slist, rt_slist_init. cbn [chain]. apply load32_store32.
  - intros a Ha. apply (off_words_store [l]); [left|exact Ha].
Qed.

(** The functions of the two-way lists. *)
Lemma ring_functions m h xs ys n fuel :
  nodes (n :: h :: xs ++ ys) -> (length (xs ++ ys) < fuel)%nat ->
  let quiet m' := forall a, off_nodes (n :: h :: xs ++ ys) a -> load8 m' a = load8 m a in
  (ring m h (xs ++ ys) ->
     let l := List.last xs h in
     ring (rt_list_insert_after m l n) h (xs ++ n :: ys) /\ quiet (rt_list_insert_after m l n)) /\
  (ring m h (xs ++ ys) ->
     let l := hd h ys in
     ring (rt_list_insert_before m l n) h (xs ++ n :: ys) /\ quiet (rt_list_insert_before m l n)) /\
  (ring m h (xs ++ n :: ys) ->
     ring (rt_list_remove m n) h (xs ++ ys) /\ ring (rt_list_remove m n) n [] /\ quiet (rt_list_remove m n)) /\
  (ring m h (xs ++ ys) ->
     rt_list_isempty m h = bool_decide (xs ++ ys = []) /\
     (Z.of_nat (length (xs ++ ys)) < 4294967296 -> rt_list_len fuel m h = Some (Z.of_nat (length (xs ++ ys))))) /\
  (ring (rt_list_init m h) h [] /\ quiet (rt_list_init m h)).
Proof.
  intros Hns Hf quiet. pose proof (nd_nodup _ Hns) as Hd. pose proof Hd as [_ [Hh _]%NoDup_cons]%NoDup_cons.
  assert (Hall : forall a, a ∈ n :: h :: xs ++ ys -> a ∈ n :: h :: xs ++ ys) by auto.
  assert (Hone : nodes [h]).
  { apply (nodes_sub (n :: h :: xs ++ ys)); auto.
    - intros a ->%list_elem_of_singleton. right. left.
    - apply NoDup_singleton. }
  split_ands.
  - intros Hr l. exact (ring_insert_after m _ h xs ys n Hns Hd Hall Hr).
  - intros Hr l. exact (ring_insert_before m _ h xs ys n Hns Hd Hall Hr).
  - intros Hr. exact (ring_remove m _ h xs ys n Hns Hd Hall Hr).
  - intros Hr. split; [apply rt_list_isempty_spec; auto|]. intros Hb. apply rt_list_len_spec; auto.
  - apply rt_list_init_ring, Hone.
  - intros a Ha. apply rt_list_init_ring; [exact Hone|]. intros x ->%list_elem_of_singleton.
    apply Ha. right. left.
Qed.

(** C17: The functions of rtservice.h act on the sequence of nodes that hangs on a head.  Two-way lists: inserting
    behind or before any place of the list puts the new node there, removing a node takes it out and leaves it
    linked to itself, [rt_list_isempty] and [rt_list_len] answer for the sequence, an initialised head has no node.
    Single lists: [rt_slist_insert] puts the node behind the given one, [rt_slist_append] at the end,
    [rt_slist_remove] takes it out, or changes nothing when it is not there, and [rt_slist_isempty], [_first],
    [_next], [_tail] and [_len] answer for the sequence.  No byte outside the nodes changes, and every loop ends. *)
Theorem list_functions_refine m h xs ys n fuel :
  (length (xs ++ ys) < fuel)%nat ->
  (nodes (n :: h :: xs ++ ys) ->
   let quiet m' := forall a, off_nodes (n :: h :: xs ++ ys) a -> load8 m' a = load8 m a in
   (ring m h (xs ++ ys) ->
      let l := List.last xs h in
      ring (rt_list_insert_after m l n) h (xs ++ n :: ys) /\ quiet (rt_list_insert_after m l n)) /\
   (ring m h (xs ++ ys) ->
      let l := hd h ys in
      ring (rt_list_insert_before m l n) h (xs ++ n :: ys) /\ quiet (rt_list_insert_before m l n)) /\
   (ring m h (xs ++ n :: ys) ->
      ring (rt_list_remove m n) h (xs ++ ys) /\ ring (rt_list_remove m n) n [] /\ quiet (rt_list_remove m n)) /\
   (ring m h (xs ++ ys) ->
      rt_list_isempty m h = bool_decide (xs ++ ys = []) /\
      (Z.of_nat (length (xs ++ ys)) < 4294967296 -> rt_list_len fuel m h = Some (Z.of_nat (length (xs ++ ys))))) /\
   (ring (rt_list_init m h) h [] /\ quiet (rt_list_init m h))) /\
  (words (h :: n :: xs ++ ys) ->
   let quiet m' := forall a, off_words (h :: n :: xs ++ ys) a -> load8 m' a = load8 m a in
   (slist m h (xs ++ ys) ->
      let l := List.last xs h in
      slist (rt_slist_insert m l n) h (xs ++ n :: ys) /\ quiet (rt_slist_insert m l n)) /\
   (slist m h (xs ++ ys) ->
      exists m', rt_slist_append fuel m h n = Some m' /\ slist m' h ((xs ++ ys) ++ [n]) /\ quiet m') /\
   (slist m h (xs ++ n :: ys) ->
      exists m', rt_slist_remove fuel m h n = Some m' /\ slist m' h (xs ++ ys) /\ quiet m') /\
   (slist m h (xs ++ ys) -> rt_slist_remove fuel m h n = Some m) /\
   (slist m h (xs ++ ys) ->
      rt_slist_isempty m h = bool_decide (xs ++ ys = []) /\ rt_slist_first m h = hd 0 (xs ++ ys) /\
      rt_slist_next m (List.last xs h) = hd 0 ys /\ rt_slist_tail fuel m h = Some (List.last (xs ++ ys) h) /\
      (Z.of_nat (length (xs ++ ys)) < 4294967296 -> rt_slist_len fuel m h = Some (Z.of_nat (length (xs ++ ys))))) /\
   (slist (rt_slist_init m h) h [] /\ quiet (rt_slist_init m h))).
Proof.
  intros Hf. split; [intros Hns quiet; exact (ring_functions m h xs ys n fuel Hns Hf)|].
  intros Hw quiet. assert (Hw0 : words (h :: n :: (xs ++ ys) ++ [])) by (rewrite app_nil_r; exact Hw).
  assert (Hx : (length xs < fuel)%nat) by (rewrite length_app in Hf; lia). split_ands.
  - intros Hc. apply rt_slist_insert_spec; assumption.
  - intros Hc. destruct (rt_slist_append_spec m h n (xs ++ ys) [] Hw0 fuel eq_refl Hc Hf) as (m' & E & H1 & H2).
    rewrite app_nil_r in H2. eauto.
  - intros Hc. apply rt_slist_remove_spec; assumption.
  - intros Hc. apply (rt_slist_remove_absent m h n (xs ++ ys) [] Hw0); auto.
  - intros Hc. apply (slist_answers m h n xs ys Hw fuel Hc Hf).
  - apply rt_slist_init_spec.
  - intros a Ha. apply rt_slist_init_spec. intros x ->%list_elem_of_singleton. apply Ha. left.
Qed.

(** The lists of two nodes used by the witness. *)
Definition two_nodes : Memory :=
  rt_list_insert_after (rt_list_insert_after (rt_list_init (fun _ => 0) 100) 100 300) 100 200.
Definition two_words : Memory := rt_slist_insert (rt_slist_insert (rt_slist_init (fun _ => 0) 100) 100 300) 100 200.

Lemma list_functions_refine_witness :
  ring (rt_list_insert_before two_nodes 300 400) 100 [200; 400; 300] /\
  slist (rt_slist_insert two_words 200 400) 100 [200; 400; 300] /\
  (exists m', rt_slist_append 5 two_words 100 400 = Some m' /\ slist m' 100 [200; 300; 400]) /\
  rt_slist_remove 5 two_words 100 400 = Some two_words /\ rt_slist_len 5 two_words 100 = Some 2.
Proof.
  assert (Hn : nodes [400; 100; 200; 300]).
  { split.
    - apply (bool_decide_unpack _). vm_compute. exact I.
    - intros a b Ha Hb. unfold apart8. rewrite !elem_of_cons, elem_of_nil in Ha, Hb. lia.
    - intros a Ha. rewrite !elem_of_cons, elem_of_nil in Ha. lia. }
  assert (Hw : words [100; 400; 200; 300]).
  { split.
    - apply (bool_decide_unpack _). vm_compute. exact I.
    - intros a b Ha Hb. rewrite !elem_of_cons, elem_of_nil in Ha, Hb. lia.
    - intros a Ha. rewrite !elem_of_cons, elem_of_nil in Ha. lia. }
  assert (Hr : ring two_nodes 100 [200; 300]) by (vm_compute; auto 10).
  assert (Hs : slist two_words 100 [200; 300]) by (vm_compute; auto 10).
  destruct (list_functions_refine two_nodes 100 [200] [300] 400 5 ltac:(cbn; lia)) as [H _].
  destruct (list_functions_refine two_words 100 [200] [300] 400 5 ltac:(cbn; lia)) as [_ H'].
  specialize (H Hn). specialize (H' Hw). cbv zeta in H, H'. destruct H as (_ & H & _).
  destruct H' as (Hi & Ha & _ & Hx & Hq & _). split; [apply H, Hr|]. split; [apply Hi, Hs|].
  split; [destruct (Ha Hs) as (m' & E & Hm & _); eauto|]. split; [apply Hx, Hs | apply Hq; [exact Hs | reflexivity]].
Defined.
