(* ===== verification/Object.v ===== *)
(** * The object container (object.c)

    Every kernel object starts with a header of twenty bytes: its name, its type, a
    flag byte and a node by which it hangs in the list of its class.  The container
    is a table with the list head and the object size of each configured class.
    Headers and list heads are bytes of the memory the heap works in; objects are
    named by their addresses.  Traversals run under the scheduler lock and list
    changes with interrupts off, so a call is one step.  A hook is foreign code: the
    model records that it was called and with what. *)

From S2P Require Import Prelude Memory Kservice Blocks Mem Heap Strings LinkedList.

(** ** Types and layout (rtdef.h) *)

Definition RT_NAME_MAX : nat := 8.

Definition RT_Object_Class_Null : Z := 0.
Definition RT_Object_Class_Thread : Z := 1.
Definition RT_Object_Class_Semaphore : Z := 2.
Definition RT_Object_Class_Mutex : Z := 3.
Definition RT_Object_Class_Event : Z := 4.
Definition RT_Object_Class_MailBox : Z := 5.
Definition RT_Object_Class_MessageQueue : Z := 6.
Definition RT_Object_Class_MemHeap : Z := 7.
Definition RT_Object_Class_MemPool : Z := 8.
Definition RT_Object_Class_Device : Z := 9.
Definition RT_Object_Class_Timer : Z := 10.
Definition RT_Object_Class_Module : Z := 11.
Definition RT_Object_Class_Unknown : Z := 12.
Definition RT_Object_Class_Static : Z := 128.

(** [struct rt_object]: [name] at 0, [type] at 8, [flag] at 9, [list] at 12. *)
Definition SIZEOF_OBJECT : Z := 20.
Definition object_type (m : Memory) (o : Z) : Z := load8 m (o + 8).
Definition set_object_type (m : Memory) (o v : Z) : Memory := store8 m (o + 8) v.
Definition set_object_flag (m : Memory) (o v : Z) : Memory := store8 m (o + 9) v.
Definition list_node (o : Z) : Z := o + 12.
(** [rt_list_entry(node, struct rt_object, list)] *)
Definition object_of (node : Z) : Z := u32 (node - 12).

Record rt_object_information := mk_information {
  oi_type : Z;
  object_list : Z;       (* the address of the list head *)
  object_size : Z
}.

(** The sizes of the control blocks, in bytes; an enum takes the smallest integer
    type that holds it, and no field is packed. *)
Definition sizeof_timer : Z := SIZEOF_OBJECT + 8 + 4 + 4 + 4 + 4.
Definition sizeof_ipc_object : Z := SIZEOF_OBJECT + 8.
Definition sizeof_thread : Z := SIZEOF_OBJECT + 8 + 4 * 4 + 4 + 4 + 4 + 4 + 8 + 8 + sizeof_timer + 4 + 4.
Definition sizeof_semaphore : Z := sizeof_ipc_object + 4.
Definition sizeof_mutex : Z := sizeof_ipc_object + 4 + 4.
Definition sizeof_event : Z := sizeof_ipc_object + 4.
Definition sizeof_mailbox : Z := sizeof_ipc_object + 4 + 8 + 8.
Definition sizeof_messagequeue : Z := sizeof_ipc_object + 4 + 4 + 4 + 12 + 8.
Definition sizeof_mempool : Z := SIZEOF_OBJECT + 24 + 8.
Definition sizeof_device : Z := SIZEOF_OBJECT + 8 + 8 + 24 + 4.

Record Objects := mk_objects {
  obj_heap : Heap;
  rt_object_attach_hook : Z;       (* function pointers; 0 is RT_NULL *)
  rt_object_detach_hook : Z;
  rt_object_trytake_hook : Z;
  rt_object_take_hook : Z;
  rt_object_put_hook : Z;
  hook_calls : list (Z * Z)        (* the hooks called so far, each with its argument *)
}.
#[export] Instance Objects_rebuild : Rebuild Objects := fun s =>
  mk_objects (obj_heap s) (rt_object_attach_hook s) (rt_object_detach_hook s) (rt_object_trytake_hook s)
    (rt_object_take_hook s) (rt_object_put_hook s) (hook_calls s).

Definition obj_mem (s : Objects) : Memory := memory (obj_heap s).
Definition on_memory (s : Objects) (f : Memory -> Memory) : Objects := s <| obj_heap := put (obj_heap s) f |>.

(** [RT_OBJECT_HOOK_CALL(func, argv)] *)
Definition RT_OBJECT_HOOK_CALL (func argv : Z) (s : Objects) : Objects :=
  if func =? 0 then s else s <| hook_calls := hook_calls s ++ [(func, argv)] |>.

Definition rt_object_attach_sethook (s : Objects) (hook : Z) : Objects := s <| rt_object_attach_hook := hook |>.
Definition rt_object_detach_sethook (s : Objects) (hook : Z) : Objects := s <| rt_object_detach_hook := hook |>.
Definition rt_object_trytake_sethook (s : Objects) (hook : Z) : Objects := s <| rt_object_trytake_hook := hook |>.
Definition rt_object_take_sethook (s : Objects) (hook : Z) : Objects := s <| rt_object_take_hook := hook |>.
Definition rt_object_put_sethook (s : Objects) (hook : Z) : Objects := s <| rt_object_put_hook := hook |>.

Section Container.
(** The address of [rt_object_container]; an entry has sixteen bytes, the list head at 4. *)
Context (container : Z).
Context (rt_interrupt_nest : Z).

Definition entry_list (index : Z) : Z := container + 16 * index + 4.

Definition rt_object_container : list rt_object_information :=
  [ mk_information RT_Object_Class_Thread (entry_list 0) sizeof_thread;
    mk_information RT_Object_Class_Semaphore (entry_list 1) sizeof_semaphore;
    mk_information RT_Object_Class_Mutex (entry_list 2) sizeof_mutex;
    mk_information RT_Object_Class_Event (entry_list 3) sizeof_event;
    mk_information RT_Object_Class_MailBox (entry_list 4) sizeof_mailbox;
    mk_information RT_Object_Class_MessageQueue (entry_list 5) sizeof_messagequeue;
    mk_information RT_Object_Class_MemPool (entry_list 6) sizeof_mempool;
    mk_information RT_Object_Class_Device (entry_list 7) sizeof_device;
    mk_information RT_Object_Class_Timer (entry_list 8) sizeof_timer ].

Definition rt_object_get_information (type : Z) : option rt_object_information :=
  List.find (fun i => oi_type i =? type) rt_object_container.

(** The loop of [rt_object_init] over the list of the class: an object that is
    there already fails the assertion. *)
Fixpoint init_check (fuel : nat) (m : Memory) (head node object : Z) : option unit :=
  match fuel with
  | O => None
  | S fuel =>
      if node =? head then Some tt
      else if negb (object_of node =? 0) && (object_of node =? object) then None
      else init_check fuel m head (node_next m node) object
  end.

Definition rt_object_init (fuel : nat) (s : Objects) (object type name : Z) : option Objects :=
  information ← rt_object_get_information type;
  let head := object_list information in
  init_check fuel (obj_mem s) head (node_next (obj_mem s) head) object;;
  let s := on_memory s (fun m => set_object_type m object (Z.lor type RT_Object_Class_Static)) in
  let s := on_memory s (fun m => rt_strncpy m object name RT_NAME_MAX) in
  let s := RT_OBJECT_HOOK_CALL (rt_object_attach_hook s) object s in
  Some (on_memory s (fun m => rt_list_insert_after m head (list_node object))).

Definition rt_object_detach (s : Objects) (object : Z) : option Objects :=
  if object =? 0 then None
  else
    let s := RT_OBJECT_HOOK_CALL (rt_object_detach_hook s) object s in
    let s := on_memory s (fun m => set_object_type m object 0) in
    Some (on_memory s (fun m => rt_list_remove m (list_node object))).

Definition rt_object_allocate (s : Objects) (type name : Z) : option (Objects * Z) :=
  if negb (rt_interrupt_nest =? 0) then None
  else
    information ← rt_object_get_information type;
    '(h, object) ← rt_malloc rt_interrupt_nest (obj_heap s) (object_size information);
    let s := s <| obj_heap := h |> in
    if object =? 0 then Some (s, 0)
    else
      m ← rt_memset (obj_mem s) object 0 (object_size information);
      let s := on_memory s (fun _ => m) in
      let s := on_memory s (fun m => set_object_type m object type) in
      let s := on_memory s (fun m => set_object_flag m object 0) in
      let s := on_memory s (fun m => rt_strncpy m object name RT_NAME_MAX) in
      let s := RT_OBJECT_HOOK_CALL (rt_object_attach_hook s) object s in
      let s := on_memory s (fun m => rt_list_insert_after m (object_list information) (list_node object)) in
      Some (s, object).

Definition rt_object_is_systemobject (s : Objects) (object : Z) : option bool :=
  if object =? 0 then None
  else Some (negb (Z.land (object_type (obj_mem s) object) RT_Object_Class_Static =? 0)).

Definition rt_object_delete (s : Objects) (object : Z) : option Objects :=
  if object =? 0 then None
  else if negb (Z.land (object_type (obj_mem s) object) RT_Object_Class_Static =? 0) then None
  else
    let s := RT_OBJECT_HOOK_CALL (rt_object_detach_hook s) object s in
    let s := on_memory s (fun m => set_object_type m object 0) in
    let s := on_memory s (fun m => rt_list_remove m (list_node object)) in
    h ← rt_free rt_interrupt_nest (obj_heap s) object;
    Some (s <| obj_heap := h |>).

(** [object->type & ~RT_Object_Class_Static] *)
Definition rt_object_get_type (s : Objects) (object : Z) : option Z :=
  if object =? 0 then None
  else Some (u8 (Z.land (object_type (obj_mem s) object) (Z.lnot RT_Object_Class_Static))).

Fixpoint find_loop (fuel : nat) (m : Memory) (head node name : Z) : option Z :=
  match fuel with
  | O => None
  | S fuel =>
      if node =? head then Some 0
      else if rt_strncmp m (object_of node) name RT_NAME_MAX =? 0 then Some (object_of node)
      else find_loop fuel m head (node_next m node) name
  end.

(** The object found, or 0. *)
Definition rt_object_find (fuel : nat) (s : Objects) (name type : Z) : option Z :=
  if (name =? 0) || (RT_Object_Class_Unknown <? type) then Some 0
  else if negb (rt_interrupt_nest =? 0) then None
  else
    information ← rt_object_get_information type;
    let head := object_list information in
    find_loop fuel (obj_mem s) head (node_next (obj_mem s) head) name.

End Container.

(** ** The invariant *)

(** The objects registered in each class, in the order of the lists. *)
Abbreviation Registered := (Z -> list Z).
Definition set_class (ls : Registered) (c : Z) (l : list Z) : Registered :=
  fun d => if d =? c then l else ls d.

Definition apart20 (a b : Z) : Prop := a + SIZEOF_OBJECT <= b \/ b + SIZEOF_OBJECT <= a.

Section Invariant.
Context (container : Z).
Abbreviation table := (rt_object_container container).

(** The header at [o] lies in the static memory below the heap and beside the
    container, or in memory a client got from the heap. *)
Definition placed (h : Heap) (live : Live) (o : Z) : Prop :=
  (0 < o /\ o + SIZEOF_OBJECT <= heap_ptr h /\ (o + SIZEOF_OBJECT <= container \/ container + 144 <= o)) \/
  exists p n, live !! p = Some n /\ p <= o /\ o + SIZEOF_OBJECT <= p + n.

Definition registered (ls : Registered) (o : Z) : Prop := exists i, i ∈ table /\ o ∈ ls (oi_type i).

Record objects_ok (s : Objects) (live : Live) (ls : Registered) : Prop := {
  oo_heap : exists bs, state_ok (obj_heap s) bs live;
  oo_low : 0 < container /\ container + 144 <= heap_ptr (obj_heap s);
  oo_ring : forall i, i ∈ table -> ring (obj_mem s) (object_list i) (map list_node (ls (oi_type i)));
  oo_type : forall i o, i ∈ table -> o ∈ ls (oi_type i) -> Z.land (object_type (obj_mem s) o) 127 = oi_type i;
  oo_block : forall i o, i ∈ table -> o ∈ ls (oi_type i) ->
    Z.land (object_type (obj_mem s) o) RT_Object_Class_Static = 0 -> live !! o = Some (object_size i);
  oo_placed : forall o, registered ls o -> placed (obj_heap s) live o;
  oo_nodup : forall i, i ∈ table -> NoDup (ls (oi_type i));
  oo_apart : forall i j a b, i ∈ table -> j ∈ table -> a ∈ ls (oi_type i) -> b ∈ ls (oi_type j) ->
    (i = j /\ a = b) \/ apart20 a b
}.

(** The bytes of the program the container relies on. *)
Inductive protected (h : Heap) (live : Live) (ls : Registered) : Z -> Prop :=
| prot_container a : container <= a < container + 144 -> protected h live ls a
| prot_type o : registered ls o -> protected h live ls (o + 8)
| prot_node o a : registered ls o -> list_node o <= a < list_node o + 8 -> protected h live ls a
| prot_heap a : heap_ptr h <= a -> ~ owned_byte live a -> protected h live ls a.

(** Bytes outside the container, the object [o] and the list nodes of the registered objects. *)
Definition untouched (ls : Registered) (o a : Z) : Prop :=
  (a < container \/ container + 144 <= a) /\ (a < o \/ o + SIZEOF_OBJECT <= a) /\
  forall x, registered ls x -> a < list_node x \/ list_node x + 8 <= a.

(** Bytes below the heap or in a block that a call of the heap leaves to its owner. *)
Definition steady (h : Heap) (live live' : Live) (a : Z) : Prop :=
  a < heap_ptr h \/ exists p n, live !! p = Some n /\ live' !! p = Some n /\ p <= a < p + n.

Lemma table_in i : i ∈ table ->
  container + 4 <= object_list i /\ object_list i + 8 <= container + 144 /\ 1 <= oi_type i <= 10 /\
  20 <= object_size i <= 1000.
Proof.
  intros Hi. unfold rt_object_container in Hi. rewrite !elem_of_cons in Hi.
  repeat destruct Hi as [->|Hi]; try (vm_compute in Hi; inversion Hi);
    unfold entry_list, RT_Object_Class_Thread, RT_Object_Class_Semaphore, RT_Object_Class_Mutex, RT_Object_Class_Event,
      RT_Object_Class_MailBox, RT_Object_Class_MessageQueue, RT_Object_Class_MemPool, RT_Object_Class_Device,
      RT_Object_Class_Timer; cbn [oi_type object_list object_size];
    (split_ands; try lia; vm_compute; congruence).
Qed.

Lemma table_apart i j : i ∈ table -> j ∈ table ->
  i = j \/ (oi_type i <> oi_type j /\ apart8 (object_list i) (object_list j)).
Proof.
  intros Hi Hj. unfold rt_object_container in Hi, Hj. unfold apart8. rewrite !elem_of_cons, elem_of_nil in Hi, Hj.
  repeat (destruct Hi as [->|Hi]; [repeat (destruct Hj as [->|Hj]; [|]); try contradiction;
    solve [left; reflexivity | right; unfold entry_list; cbn [oi_type object_list]; split; [vm_compute; discriminate | lia]]|]).
  contradiction.
Qed.

Lemma information_in type i : rt_object_get_information container type = Some i -> i ∈ table /\ oi_type i = type.
Proof. intros E. apply find_some in E as [Hi E]. rewrite list_elem_of_In. split; [exact Hi|]. apply Z.eqb_eq, E. Qed.

Lemma information_of i : i ∈ table -> rt_object_get_information container (oi_type i) = Some i.
Proof.
  intros Hi. destruct (rt_object_get_information container (oi_type i)) as [j|] eqn:E.
  - apply information_in in E as [Hj E]. destruct (table_apart _ _ Hi Hj) as [->|[]]; congruence.
  - unfold rt_object_get_information in E. apply find_none with (x := i) in E; [|apply list_elem_of_In, Hi].
    rewrite Z.eqb_refl in E. discriminate.
Qed.

Section State.
Context (s : Objects) (live : Live) (ls : Registered).
Hypothesis Hok : objects_ok s live ls.

Lemma placed_range o : placed (obj_heap s) live o ->
  0 < o /\ o + SIZEOF_OBJECT <= 4294967296 /\ (o + SIZEOF_OBJECT <= container \/ container + 144 <= o).
Proof.
  intros Hp. destruct (oo_heap _ _ _ Hok) as [bs Hst]. pose proof (ok_shape _ _ (st_heap _ _ _ Hst)) as Hs.
  pose proof (sh_space _ _ Hs). pose proof (sh_min _ _ Hs). pose proof (sh_end _ _ Hs). destruct (oo_low _ _ _ Hok) as [Hc1 Hc2].
  destruct Hp as [(P1 & P2 & P3)|(p & n & Hl & P1 & P2)]; [unfold HDR in *; lia|].
  destruct (live_region _ _ _ _ _ Hst Hl) as (_ & P3 & P4). unfold HDR in *. lia.
Qed.

Lemma head_off_object i o : i ∈ table -> placed (obj_heap s) live o -> apart8 (object_list i) (list_node o).
Proof.
  intros Hi Ho. pose proof (table_in _ Hi). pose proof (placed_range _ Ho).
  unfold apart8, list_node, SIZEOF_OBJECT in *. lia.
Qed.

Lemma object_of_node o : placed (obj_heap s) live o -> object_of (list_node o) = o.
Proof.
  intros Ho. pose proof (placed_range _ Ho). unfold object_of, list_node, SIZEOF_OBJECT in *.
  rewrite u32_small by lia. lia.
Qed.

Lemma registered_class i o : i ∈ table -> o ∈ ls (oi_type i) -> placed (obj_heap s) live o.
Proof. intros Hi Ho. apply (oo_placed _ _ _ Hok). exists i. auto. Qed.

(** The nodes of one class, with one more object that is apart from them. *)
Lemma class_nodes i o xs : i ∈ table -> placed (obj_heap s) live o ->
  (forall a, a ∈ xs -> a ∈ ls (oi_type i) /\ apart20 a o) -> NoDup xs ->
  nodes (list_node o :: object_list i :: map list_node xs).
Proof.
  intros Hi Ho Hxs Hd.
  assert (Hin : forall a, a ∈ map list_node xs -> exists b, a = list_node b /\ b ∈ xs /\ placed (obj_heap s) live b).
  { intros a Ha. apply list_elem_of_fmap in Ha as (b & -> & Hb). exists b. split_ands; auto.
    apply (registered_class i); [exact Hi | apply Hxs, Hb]. }
  assert (Hap : forall a b, apart20 a b -> apart8 (list_node a) (list_node b)).
  { unfold apart20, apart8, list_node, SIZEOF_OBJECT. intros; lia. }
  assert (Hsym : forall a b, apart8 a b -> apart8 b a) by (unfold apart8; intros; lia).
  assert (Hself : forall a, ~ apart8 a a) by (unfold apart8; intros; lia).
  split.
  - apply NoDup_cons. split; [|apply NoDup_cons; split].
    + intros [E|Ha]%elem_of_cons.
      * apply (Hself (list_node o)). rewrite E at 1. apply head_off_object; auto.
      * destruct (Hin _ Ha) as (b & E & Hb & _). apply (Hself (list_node o)). rewrite E at 1. apply Hap, Hxs, Hb.
    + intros Ha. destruct (Hin _ Ha) as (b & E & Hb & Hp). apply (Hself (object_list i)). rewrite E at 2.
      apply head_off_object; auto.
    + apply NoDup_fmap_2; [|exact Hd]. intros x y. unfold list_node. lia.
  - intros a b [->|[->|Ha]%elem_of_cons]%elem_of_cons [->|[->|Hb]%elem_of_cons]%elem_of_cons; auto.
    + right. apply Hsym, head_off_object; auto.
    + right. destruct (Hin _ Hb) as (c & -> & Hc & _). apply Hsym, Hap, Hxs, Hc.
    + right. apply head_off_object; auto.
    + right. destruct (Hin _ Hb) as (c & -> & _ & Hp). apply head_off_object; auto.
    + right. destruct (Hin _ Ha) as (c & -> & Hc & _). apply Hap, Hxs, Hc.
    + right. destruct (Hin _ Ha) as (c & -> & _ & Hp). apply Hsym, head_off_object; auto.
    + destruct (Hin _ Ha) as (c & -> & Hc & _), (Hin _ Hb) as (d & -> & Hd' & _).
      destruct (oo_apart _ _ _ Hok i i c d) as [[_ ->]|Hcd]; auto; apply Hxs; assumption.
  - assert (Hr : forall b, placed (obj_heap s) live b -> 0 < list_node b /\ list_node b + 8 <= 4294967296).
    { intros b Hb. pose proof (placed_range _ Hb). unfold list_node, SIZEOF_OBJECT in *. lia. }
    intros a [->|[->|Ha]%elem_of_cons]%elem_of_cons; [apply Hr, Ho | |].
    + pose proof (table_in _ Hi). destruct (oo_low _ _ _ Hok). destruct (oo_heap _ _ _ Hok) as [bs Hst].
      pose proof (ok_shape _ _ (st_heap _ _ _ Hst)) as Hs. pose proof (sh_space _ _ Hs). pose proof (sh_min _ _ Hs). lia.
    + destruct (Hin _ Ha) as (b & -> & _ & Hp). apply Hr, Hp.
Qed.

(** A byte away from every node of a class stays when the class's list is changed. *)
Lemma off_class i xs a : i ∈ table -> (forall x, x ∈ xs -> placed (obj_heap s) live x) ->
  (a < container \/ container + 144 <= a) -> (forall x, x ∈ xs -> a < list_node x \/ list_node x + 8 <= a) ->
  off_nodes (object_list i :: map list_node xs) a.
Proof.
  intros Hi Hp Ha Hx y [->|Hy]%elem_of_cons.
  - pose proof (table_in _ Hi). lia.
  - apply list_elem_of_fmap in Hy as (x & -> & Hy). apply Hx, Hy.
Qed.

Lemma off_heap i xs a : i ∈ table -> (forall x, x ∈ xs -> placed (obj_heap s) live x) ->
  heap_ptr (obj_heap s) <= a -> ~ owned_byte live a -> off_nodes (object_list i :: map list_node xs) a.
Proof.
  intros Hi Hp Ha Hown. destruct (oo_low _ _ _ Hok) as [_ Hlow]. apply off_class; auto; [right; lia|].
  intros x Hx. unfold list_node. destruct (Hp _ Hx) as [(P1 & P2 & _)|(p & n & Hl & P1 & P2)].
  - unfold SIZEOF_OBJECT in *. lia.
  - destruct (decide (x + 12 <= a < x + 20)) as [Hin|]; [|lia]. exfalso. apply Hown.
    exists p, n. split; [exact Hl|]. unfold SIZEOF_OBJECT in *. lia.
Qed.

Lemma off_type i xs o : i ∈ table -> (forall x, x ∈ xs -> placed (obj_heap s) live x) ->
  placed (obj_heap s) live o -> (forall x, x ∈ xs -> x = o \/ apart20 x o) ->
  off_nodes (object_list i :: map list_node xs) (o + 8).
Proof.
  intros Hi Hp Ho Hx. pose proof (placed_range _ Ho) as R. apply off_class; auto; [unfold SIZEOF_OBJECT in *; lia|].
  intros x Hxx. unfold list_node. destruct (Hx _ Hxx) as [->|Hap]; unfold apart20, SIZEOF_OBJECT in *; lia.
Qed.

(** The bytes of a live block without objects are the client's own. *)
Lemma block_free p n a : live !! p = Some n -> (forall x, registered ls x -> x + SIZEOF_OBJECT <= p \/ p + n <= x) ->
  protected (obj_heap s) live ls a -> a < p \/ p + n <= a.
Proof.
  intros Hl Hx Ha. destruct (oo_low _ _ _ Hok) as [_ Hlow]. destruct Ha as [a Ha | x Hr | x a Hr Ha | a H1 H2].
  - destruct (oo_heap _ _ _ Hok) as [bs Hst]. destruct (live_region _ _ _ _ _ Hst Hl) as (_ & R & _). unfold HDR in R. lia.
  - pose proof (Hx _ Hr). unfold SIZEOF_OBJECT in *. lia.
  - pose proof (Hx _ Hr). unfold list_node, SIZEOF_OBJECT in *. lia.
  - destruct (decide (p <= a < p + n)); [|lia]. exfalso. apply H2. exists p, n. auto.
Qed.

(** The list of one class is replaced: the objects [zs] are those whose headers may
    have changed. *)
Lemma objects_relist i (zs xs' : list Z) m' :
  i ∈ table -> (forall x, x ∈ zs -> placed (obj_heap s) live x) -> (forall x, x ∈ xs' -> x ∈ zs) -> NoDup xs' ->
  (forall x y, x ∈ zs -> y ∈ zs -> x = y \/ apart20 x y) ->
  (forall j x y, j ∈ table -> i <> j -> x ∈ zs -> y ∈ ls (oi_type j) -> apart20 x y) ->
  ring m' (object_list i) (map list_node xs') ->
  (forall x, x ∈ xs' -> Z.land (object_type m' x) 127 = oi_type i /\
     (Z.land (object_type m' x) RT_Object_Class_Static = 0 -> live !! x = Some (object_size i))) ->
  (forall a, protected (obj_heap s) live ls a -> (forall y, y ∈ zs -> a < y \/ y + SIZEOF_OBJECT <= a) ->
     (a < object_list i \/ object_list i + 8 <= a) -> load8 m' a = load8 (obj_mem s) a) ->
  objects_ok (on_memory s (fun _ => m')) live (set_class ls (oi_type i) xs').
Proof.
  intros Hi Hzs Hsub Hd Hzz Hzo Hring Htype Hm'. destruct (oo_low _ _ _ Hok) as [Hlow1 Hlow2].
  pose proof (table_in _ Hi) as Ti.
  assert (Hcls : forall j, j ∈ table -> (j = i /\ set_class ls (oi_type i) xs' (oi_type j) = xs') \/
            (i <> j /\ set_class ls (oi_type i) xs' (oi_type j) = ls (oi_type j))).
  { intros j Hj. unfold set_class. destruct (table_apart _ _ Hi Hj) as [<-|[Hne _]]; [rewrite Z.eqb_refl; auto|].
    right. destruct (Z.eqb_spec (oi_type j) (oi_type i)); [congruence|]. split; congruence. }
  assert (Hty : forall j x, j ∈ table -> i <> j -> x ∈ ls (oi_type j) -> object_type m' x = object_type (obj_mem s) x).
  { intros j x Hj Hne Hx. pose proof (placed_range _ (registered_class j x Hj Hx)). apply Hm'.
    - apply prot_type. exists j; auto.
    - intros y Hy. pose proof (Hzo j y x Hj Hne Hy Hx). unfold apart20, SIZEOF_OBJECT in *. lia.
    - unfold SIZEOF_OBJECT in *. lia. }
  split; change (obj_mem (on_memory s (fun _ => m'))) with m'.
  - destruct (oo_heap _ _ _ Hok) as [bs Hst]. exists bs. apply state_write; [exact Hst|].
    intros a Ha Hown. apply Hm'; [apply prot_heap; auto | | lia].
    intros y Hy. destruct (Hzs _ Hy) as [(P1 & P2 & _)|(p & n & Hl & P1 & P2)]; [lia|].
    destruct (decide (y <= a < y + SIZEOF_OBJECT)) as [Hin|]; [|lia]. exfalso. apply Hown.
    exists p, n. split; [exact Hl | lia].
  - auto.
  - intros j Hj. destruct (Hcls j Hj) as [[-> ->]|[Hne ->]]; [exact Hring|].
    apply (ring_frame (obj_mem s)); [|apply (oo_ring _ _ _ Hok), Hj].
    destruct (table_apart _ _ Hi Hj) as [|[_ Hij]]; [contradiction|]. pose proof (table_in _ Hj) as Tj.
    unfold apart8 in Hij. intros x Hx a Ha. apply elem_of_cons in Hx as [->|Hx].
    + apply Hm'; [apply prot_container; lia | | lia]. intros y Hy. pose proof (placed_range _ (Hzs _ Hy)). lia.
    + apply list_elem_of_fmap in Hx as (z & -> & Hz). pose proof (placed_range _ (registered_class j z Hj Hz)).
      unfold list_node, SIZEOF_OBJECT in *. apply Hm'; [apply (prot_node _ _ _ z); [exists j; auto | exact Ha] | | lia].
      intros y Hy. pose proof (Hzo j y z Hj Hne Hy Hz). unfold apart20, SIZEOF_OBJECT in *. lia.
  - intros j x Hj Hx. destruct (Hcls j Hj) as [[-> E]|[Hne E]]; rewrite E in Hx; [apply Htype, Hx|].
    rewrite (Hty j) by assumption. apply (oo_type _ _ _ Hok); auto.
  - intros j x Hj Hx. destruct (Hcls j Hj) as [[-> E]|[Hne E]]; rewrite E in Hx; [apply Htype, Hx|].
    rewrite (Hty j) by assumption. apply (oo_block _ _ _ Hok); auto.
  - intros x (j & Hj & Hx). destruct (Hcls j Hj) as [[-> E]|[Hne E]]; rewrite E in Hx.
    + apply Hzs, Hsub, Hx.
    + apply (registered_class j); auto.
  - intros j Hj. destruct (Hcls j Hj) as [[-> ->]|[Hne ->]]; [exact Hd | apply (oo_nodup _ _ _ Hok), Hj].
  - intros j k a b Hj Hk Ha Hb.
    destruct (Hcls j Hj) as [[-> E]|[Hne E]], (Hcls k Hk) as [[-> E']|[Hne' E']]; rewrite E in Ha; rewrite E' in Hb.
    + destruct (Hzz a b); auto.
    + right. apply (Hzo k); auto.
    + right. pose proof (Hzo j b a Hj Hne ltac:(auto) Ha). unfold apart20 in *; lia.
    + apply (oo_apart _ _ _ Hok); auto.
Qed.

(** The ring of a class in a memory with the same container and nodes. *)
Lemma class_ring i m1 : i ∈ table ->
  (forall a, protected (obj_heap s) live ls a -> (forall y, registered ls y -> a <> y + 8) ->
     load8 m1 a = load8 (obj_mem s) a) ->
  ring m1 (object_list i) (map list_node (ls (oi_type i))).
Proof.
  intros Hi Hm1. apply (ring_frame (obj_mem s)); [|apply (oo_ring _ _ _ Hok), Hi]. pose proof (table_in _ Hi).
  intros x [->|Hx]%elem_of_cons a Ha; apply Hm1.
  - apply prot_container; lia.
  - intros y Hy. pose proof (placed_range _ (oo_placed _ _ _ Hok _ Hy)). unfold SIZEOF_OBJECT in *. lia.
  - apply list_elem_of_fmap in Hx as (y & -> & Hy). apply (prot_node _ _ _ y); [exists i; auto | exact Ha].
  - apply list_elem_of_fmap in Hx as (z & -> & Hz). intros y (j & Hj & Hy).
    destruct (oo_apart _ _ _ Hok i j z y Hi Hj Hz Hy) as [[_ ->]|]; unfold apart20, list_node, SIZEOF_OBJECT in *; lia.
Qed.

Lemma objects_insert i o m1 :
  i ∈ table -> placed (obj_heap s) live o -> (forall x, registered ls x -> apart20 x o) ->
  (forall a, protected (obj_heap s) live ls a -> load8 m1 a = load8 (obj_mem s) a) ->
  Z.land (object_type m1 o) 127 = oi_type i ->
  (Z.land (object_type m1 o) RT_Object_Class_Static = 0 -> live !! o = Some (object_size i)) ->
  objects_ok (on_memory s (fun _ => rt_list_insert_after m1 (object_list i) (list_node o))) live
    (set_class ls (oi_type i) (o :: ls (oi_type i))).
Proof.
  intros Hi Ho Hfresh Hm1 Hty Hdyn. set (zs := o :: ls (oi_type i)).
  assert (Hzs : forall x, x ∈ zs -> placed (obj_heap s) live x).
  { intros x [->|Hx]%elem_of_cons; [exact Ho | apply (registered_class i); auto]. }
  assert (Hns : nodes (list_node o :: object_list i :: map list_node (ls (oi_type i)))).
  { apply class_nodes; auto; [|apply (oo_nodup _ _ _ Hok), Hi]. intros x Hx. split; [exact Hx|]. apply Hfresh. exists i; auto. }
  assert (Hsym : forall j y, j ∈ table -> y ∈ ls (oi_type j) -> apart20 o y).
  { intros j y Hj Hy. assert (Hr : registered ls y) by (exists j; auto). specialize (Hfresh _ Hr). unfold apart20 in *; lia. }
  assert (Hzz : forall x y, x ∈ zs -> y ∈ zs -> x = y \/ apart20 x y).
  { intros x y [->|Hx]%elem_of_cons [->|Hy]%elem_of_cons; auto; [eauto | |].
    - right. apply Hfresh. exists i; auto.
    - destruct (oo_apart _ _ _ Hok i i x y) as [[_ ->]|]; auto. }
  destruct (ring_insert_after m1 _ (object_list i) [] (map list_node (ls (oi_type i))) (list_node o) Hns
              (nd_nodup _ Hns) (fun _ H => H)) as [Hring Hframe]; [apply class_ring; auto|].
  cbn [List.last app] in Hring, Hframe. set (m' := rt_list_insert_after _ _ _) in *. clearbody m'.
  assert (Hoff : forall a, off_nodes (object_list i :: map list_node zs) a -> load8 m' a = load8 m1 a).
  { intros a Ha. apply Hframe. intros y Hy. apply Ha. cbn [zs map]. rewrite !elem_of_cons in *. tauto. }
  apply (objects_relist i zs); auto.
  - apply NoDup_cons. split; [|apply (oo_nodup _ _ _ Hok), Hi]. intros Hx. pose proof (Hsym i o Hi Hx).
    unfold apart20, SIZEOF_OBJECT in *. lia.
  - intros j x y Hj Hne [->|Hx]%elem_of_cons Hy; [eauto|].
    destruct (oo_apart _ _ _ Hok i j x y Hi Hj Hx Hy) as [[<- _]|]; auto. congruence.
  - intros x Hx. unfold object_type. rewrite Hoff by (apply off_type; auto).
    apply elem_of_cons in Hx as [->|Hx]; [auto|]. rewrite Hm1 by (apply prot_type; exists i; auto).
    split; [apply (oo_type _ _ _ Hok); auto | apply (oo_block _ _ _ Hok); auto].
  - intros a Ha Hy Hh. rewrite Hoff; [apply Hm1, Ha|]. intros y [->|Hin]%elem_of_cons; [exact Hh|].
    apply list_elem_of_fmap in Hin as (x & -> & Hx). specialize (Hy _ Hx). unfold list_node, SIZEOF_OBJECT in *. lia.
Qed.

Lemma objects_remove i o xs ys m1 :
  i ∈ table -> ls (oi_type i) = xs ++ o :: ys ->
  (forall a, protected (obj_heap s) live ls a -> a <> o + 8 -> load8 m1 a = load8 (obj_mem s) a) ->
  objects_ok (on_memory s (fun _ => rt_list_remove m1 (list_node o))) live (set_class ls (oi_type i) (xs ++ ys)).
Proof.
  intros Hi El Hm1. pose proof (oo_nodup _ _ _ Hok i Hi) as Hd. rewrite El in Hd.
  assert (Ho : o ∈ ls (oi_type i)) by (rewrite El; apply elem_of_app; right; left).
  assert (Hsub : forall x, x ∈ xs ++ ys -> x ∈ ls (oi_type i) /\ x <> o).
  { intros x Hx. rewrite El. split; [rewrite elem_of_app, elem_of_cons in *; tauto|]. intros ->.
    apply NoDup_app in Hd as (_ & Hd1 & [Hd2 _]%NoDup_cons). apply elem_of_app in Hx as [Hx|Hx]; [|auto].
    apply (Hd1 _ Hx). left. }
  assert (Hdxy : NoDup (xs ++ ys)).
  { apply NoDup_app in Hd as (H1 & H2 & [_ H3]%NoDup_cons). apply NoDup_app. split_ands; auto. intros x Hx Hy. apply (H2 x Hx). right. exact Hy. }
  assert (Hap : forall x y, x ∈ ls (oi_type i) -> y ∈ ls (oi_type i) -> x = y \/ apart20 x y).
  { intros x y Hx Hy. destruct (oo_apart _ _ _ Hok i i x y) as [[_ ->]|]; auto. }
  assert (Hns : nodes (list_node o :: object_list i :: map list_node (xs ++ ys))).
  { apply class_nodes; auto; [apply (registered_class i); auto|]. intros x Hx. destruct (Hsub _ Hx) as [Hx1 Hx2].
    split; [exact Hx1|]. destruct (Hap x o Hx1 Ho); [contradiction | assumption]. }
  assert (Hring : ring m1 (object_list i) (map list_node xs ++ list_node o :: map list_node ys)).
  { replace (map list_node xs ++ list_node o :: map list_node ys) with (map list_node (ls (oi_type i)))
      by (rewrite El, map_app; reflexivity).
    apply class_ring; [exact Hi|]. intros a Ha Hne. apply Hm1; [exact Ha|]. apply Hne. exists i; auto. }
  rewrite map_app in Hns.
  destruct (ring_remove m1 _ (object_list i) (map list_node xs) (map list_node ys) (list_node o) Hns (nd_nodup _ Hns)
              (fun _ H => H) Hring) as (Hring' & _ & Hframe). rewrite <- map_app in *.
  set (m' := rt_list_remove _ _) in *. clearbody m'.
  assert (Hoff : forall a, off_nodes (object_list i :: map list_node (ls (oi_type i))) a -> load8 m' a = load8 m1 a).
  { intros a Ha. apply Hframe. intros y Hy. apply Ha. rewrite El, map_app. rewrite map_app in Hy. cbn [map].
    rewrite !elem_of_cons, !elem_of_app, elem_of_cons in *. tauto. }
  apply (objects_relist i (ls (oi_type i))); auto.
  - intros x Hx. apply (registered_class i); auto.
  - intros x Hx. apply Hsub, Hx.
  - intros j x y Hj Hne Hx Hy. destruct (oo_apart _ _ _ Hok i j x y Hi Hj Hx Hy) as [[<- _]|]; auto. congruence.
  - intros x Hx. destruct (Hsub _ Hx) as [Hx1 Hx2]. unfold object_type.
    rewrite Hoff by (apply off_type; auto; intros; apply (registered_class i); auto).
    rewrite Hm1; [| apply prot_type; exists i; auto | lia].
    split; [apply (oo_type _ _ _ Hok); auto | apply (oo_block _ _ _ Hok); auto].
  - intros a Ha Hy Hh. rewrite Hoff.
    + apply Hm1; [exact Ha|]. specialize (Hy _ Ho). unfold SIZEOF_OBJECT in *. lia.
    + intros y [->|Hin]%elem_of_cons; [exact Hh|].
      apply list_elem_of_fmap in Hin as (x & -> & Hx). specialize (Hy _ Hx). unfold list_node, SIZEOF_OBJECT in *. lia.
Qed.

(** Any other change of the memory. *)
Lemma objects_write m' :
  (forall a, protected (obj_heap s) live ls a -> load8 m' a = load8 (obj_mem s) a) ->
  objects_ok (on_memory s (fun _ => m')) live ls.
Proof.
  intros Hm'. assert (Hty : forall o, registered ls o -> object_type m' o = object_type (obj_mem s) o).
  { intros o Ho. apply Hm', prot_type, Ho. }
  destruct Hok. split; auto; change (obj_mem (on_memory s (fun _ => m'))) with m'.
  - destruct oo_heap0 as [bs Hst]. exists bs. apply state_write; [exact Hst|]. intros a H1 H2. apply Hm', prot_heap; auto.
  - intros i Hi. apply class_ring; auto.
  - intros i o Hi Ho. rewrite Hty by (exists i; auto). auto.
  - intros i o Hi Ho. rewrite Hty by (exists i; auto). auto.
Qed.

Lemma call_frame h' live' a : heap_call (obj_heap s, live) (h', live') -> low (obj_heap s) h' ->
  steady (obj_heap s) live live' a -> load8 (memory h') a = load8 (obj_mem s) a.
Proof.
  intros Hcall [_ Hlow] [Ha|(p & n & Hl & Hl' & Ha)]; [apply Hlow, Ha|].
  destruct (oo_heap _ _ _ Hok) as [bs Hst]. symmetry. apply (call_keeps _ _ _ _ _ _ _ _ Hst Hcall Hl Hl'). lia.
Qed.

Lemma untouched_class i o a : i ∈ table -> untouched ls o a -> off_nodes (object_list i :: map list_node (ls (oi_type i))) a.
Proof.
  intros Hi (H1 & H2 & H3). apply off_class; auto.
  - intros x Hx. apply (registered_class i); auto.
  - intros x Hx. apply H3. exists i. auto.
Qed.

(** A call of the heap that leaves every block with an object in it to its owner. *)
Lemma objects_call h' live' :
  heap_call (obj_heap s, live) (h', live') -> low (obj_heap s) h' ->
  (forall p n o, live !! p = Some n -> registered ls o -> p <= o < p + n -> live' !! p = Some n) ->
  objects_ok (s <| obj_heap := h' |>) live' ls.
Proof.
  intros Hcall [Eptr Hlow] Hkeep. destruct (oo_heap _ _ _ Hok) as [bs Hst].
  destruct (call_ok _ _ _ _ _ Hst Hcall) as [bs' Hst'].
  assert (Hhead : forall o a, registered ls o -> o <= a < o + SIZEOF_OBJECT -> load8 (memory h') a = load8 (obj_mem s) a).
  { intros o a Ho Ha. destruct (oo_placed _ _ _ Hok _ Ho) as [(P1 & P2 & _)|(p & n & Hl & P1 & P2)]; [apply Hlow; lia|].
    pose proof (Hkeep _ _ _ Hl Ho ltac:(unfold SIZEOF_OBJECT in *; lia)) as Hl'. symmetry.
    apply (call_keeps _ _ _ _ _ _ _ _ Hst Hcall Hl Hl'). lia. }
  assert (Hcont : forall a, container <= a < container + 144 -> load8 (memory h') a = load8 (obj_mem s) a).
  { intros a Ha. apply Hlow. destruct (oo_low _ _ _ Hok). lia. }
  assert (Hty : forall i o, i ∈ table -> o ∈ ls (oi_type i) -> object_type (memory h') o = object_type (obj_mem s) o).
  { intros i o Hi Ho. apply (Hhead o); [exists i; auto | unfold SIZEOF_OBJECT; lia]. }
  split; change (obj_mem (s <| obj_heap := h' |>)) with (memory h'); change (obj_heap (s <| obj_heap := h' |>)) with h'.
  - eauto.
  - rewrite Eptr. apply (oo_low _ _ _ Hok).
  - intros i Hi. apply (ring_frame (obj_mem s)); [|apply (oo_ring _ _ _ Hok), Hi]. pose proof (table_in _ Hi).
    intros x [->|Hx]%elem_of_cons a Ha; [apply Hcont; lia|]. apply list_elem_of_fmap in Hx as (o & -> & Ho).
    apply (Hhead o); [exists i; auto | unfold list_node, SIZEOF_OBJECT in *; lia].
  - intros i o Hi Ho. rewrite (Hty i) by assumption. apply (oo_type _ _ _ Hok); auto.
  - intros i o Hi Ho. rewrite (Hty i) by assumption. intros Hz. pose proof (table_in _ Hi).
    apply (Hkeep o (object_size i) o); [apply (oo_block _ _ _ Hok) | exists i | lia]; auto.
  - intros o Ho. unfold placed. rewrite Eptr. destruct (oo_placed _ _ _ Hok _ Ho) as [|(p & n & Hl & P1 & P2)]; [auto|].
    right. exists p, n. split; [|auto]. apply (Hkeep _ _ o); auto. unfold SIZEOF_OBJECT in *. lia.
  - apply (oo_nodup _ _ _ Hok).
  - apply (oo_apart _ _ _ Hok).
Qed.
End State.
End Invariant.

(** ** Names *)

Fixpoint until_nul (l : list Z) : list Z :=
  match l with
  | [] => []
  | c :: l => if c =? 0 then [] else c :: until_nul l
  end.

(** The characters [rt_strncmp] and [rt_strncpy] see at [p]. *)
Definition name_at (m : Memory) (p : Z) : list Z := until_nul (bytes_at m p RT_NAME_MAX).

Lemma bytes_at_S m p n : bytes_at m p (S n) = load8 m p :: bytes_at m (p + 1) n.
Proof.
  change (S n) with (1 + n)%nat. rewrite (bytes_at_app m p 1 n). unfold bytes_at at 1. cbn. rewrite Z.add_0_r. reflexivity.
Qed.

Lemma strncmp_names m p q n :
  (rt_strncmp m p q n =? 0) = bool_decide (until_nul (bytes_at m p n) = until_nul (bytes_at m q n)).
Proof.
  unfold rt_strncmp. revert p q. induction n as [|n IH]; intros p q; [reflexivity|].
  rewrite !bytes_at_S. cbn [strncmp_loop until_nul].
  pose proof (load8_range m p) as Rp. pose proof (load8_range m q) as Rq.
  pose proof (s8_diff _ _ Rp Rq) as E. rewrite E.
  destruct (Z.eqb_spec (load8 m p) (load8 m q)) as [Eq|Hne]; cbn [negb orb].
  - rewrite <- Eq, Z.sub_diag. change (s8 0) with 0. destruct (load8 m p =? 0); [reflexivity|].
    rewrite IH. apply bool_decide_ext. split; [congruence | intros [= H]; exact H].
  - rewrite E. symmetry. apply bool_decide_eq_false.
    destruct (Z.eqb_spec (load8 m p) 0), (Z.eqb_spec (load8 m q) 0); congruence.
Qed.

Lemma strncpy_frame m d s n x : x < d \/ d + Z.of_nat n <= x -> load8 (rt_strncpy m d s n) x = load8 m x.
Proof.
  unfold rt_strncpy. revert m d s. induction n as [|n IH]; intros m d s Hx; [reflexivity|]. cbn [strncpy_loop].
  destruct (load8 m s =? 0).
  - rewrite strncpy_pad_load, load8_store8.
    destruct (Z.leb_spec (d + 1) x), (Z.ltb_spec x (d + 1 + Z.of_nat n)), (Z.eqb_spec x d); try lia; reflexivity.
  - rewrite IH, load8_store8 by lia. destruct (Z.eqb_spec x d); [lia | reflexivity].
Qed.

Lemma strncpy_names m d s n : d + Z.of_nat n <= s \/ s + Z.of_nat n <= d ->
  until_nul (bytes_at (rt_strncpy m d s n) d n) = until_nul (bytes_at m s n).
Proof.
  revert m d s. induction n as [|n IH]; intros m d s Hx; [reflexivity|]. rewrite !bytes_at_S. cbn [until_nul].
  unfold rt_strncpy. cbn [strncpy_loop]. pose proof (load8_range m s) as R.
  destruct (Z.eqb_spec (load8 m s) 0) as [E|Hne].
  - rewrite strncpy_pad_load, load8_store8, Z.eqb_refl, E.
    destruct (Z.leb_spec (d + 1) d); [lia|]. reflexivity.
  - change (strncpy_loop ?m ?d ?s n) with (rt_strncpy m d s n).
    rewrite (strncpy_frame _ (d + 1)), load8_store8, Z.eqb_refl, u8_small by lia.
    apply Z.eqb_neq in Hne. rewrite Hne. f_equal. rewrite IH by lia. f_equal. apply bytes_at_ext.
    intros i Hi. rewrite load8_store8. destruct (Z.eqb_spec (s + 1 + i) d); [lia | reflexivity].
Qed.

Lemma name_at_ext m m' p : same_on m m' p (p + 8) -> name_at m p = name_at m' p.
Proof. intros H. unfold name_at. f_equal. apply bytes_at_ext. intros i Hi. apply H. unfold RT_NAME_MAX in Hi. lia. Qed.

(** ** The traversals *)

Section Walk.
Context (m : Memory) (h : Z).

Lemma init_check_walk fuel p xs o :
  linked (node_next m) (node_prev m) p (map list_node xs) h ->
  (forall x, x ∈ xs -> object_of (list_node x) = x /\ list_node x <> h) -> (length xs < fuel)%nat ->
  o ∉ xs -> init_check fuel m h (node_next m p) o = Some tt.
Proof.
  revert fuel p. induction xs as [|x xs IH]; intros [|fuel] p Hl Hx Hf Ho; cbn [length] in Hf; try lia;
    cbn [map linked init_check] in *.
  - destruct Hl as [-> _]. rewrite Z.eqb_refl. reflexivity.
  - destruct Hl as (-> & _ & Hl). destruct (Hx x) as [E Hne]; [left|]. rewrite E.
    rewrite not_elem_of_cons in Ho. destruct (Z.eqb_spec (list_node x) h); [contradiction|].
    destruct (Z.eqb_spec x o); [destruct Ho; congruence|]. rewrite andb_false_r.
    apply IH; [exact Hl | intros y Hy; apply Hx; right; exact Hy | lia | tauto].
Qed.

Lemma init_check_again fuel p xs o :
  linked (node_next m) (node_prev m) p (map list_node xs) h ->
  (forall x, x ∈ xs -> object_of (list_node x) = x /\ x <> 0 /\ list_node x <> h) ->
  o ∈ xs -> init_check fuel m h (node_next m p) o = None.
Proof.
  revert fuel p. induction xs as [|x xs IH]; intros [|fuel] p Hl Hx Ho; try reflexivity; [inversion Ho|].
  cbn [map linked init_check] in *. destruct Hl as (-> & _ & Hl). destruct (Hx x) as (E & H0 & Hne); [left|]. rewrite E.
  destruct (Z.eqb_spec (list_node x) h); [contradiction|]. destruct (Z.eqb_spec x 0); [contradiction|].
  destruct (Z.eqb_spec x o); [reflexivity|]. cbn [negb andb]. apply elem_of_cons in Ho as [->|Ho]; [contradiction|].
  apply IH; [exact Hl | intros y Hy; apply Hx; right; exact Hy | exact Ho].
Qed.

Lemma find_walk fuel p xs name :
  linked (node_next m) (node_prev m) p (map list_node xs) h ->
  (forall x, x ∈ xs -> object_of (list_node x) = x /\ list_node x <> h) -> (length xs < fuel)%nat ->
  find_loop fuel m h (node_next m p) name =
    Some (default 0 (List.find (fun x => bool_decide (name_at m x = name_at m name)) xs)).
Proof.
  revert fuel p. induction xs as [|x xs IH]; intros [|fuel] p Hl Hx Hf; cbn [length] in Hf; try lia;
    cbn [map linked find_loop List.find] in *.
  - destruct Hl as [-> _]. rewrite Z.eqb_refl. reflexivity.
  - destruct Hl as (-> & _ & Hl). destruct (Hx x) as [E Hne]; [left|]. rewrite E, strncmp_names.
    destruct (Z.eqb_spec (list_node x) h); [contradiction|]. unfold name_at at 1 2.
    destruct (bool_decide _); [reflexivity|].
    apply IH; [exact Hl | intros y Hy; apply Hx; right; exact Hy | lia].
Qed.
End Walk.

(** ** The operations keep the invariant *)

Lemma hook_heap func argv s : obj_heap (RT_OBJECT_HOOK_CALL func argv s) = obj_heap s.
Proof. unfold RT_OBJECT_HOOK_CALL. destruct (_ =? 0); reflexivity. Qed.

Lemma on_memory_mem s f : obj_mem (on_memory s f) = f (obj_mem s).
Proof. reflexivity. Qed.

Lemma on_memory_hook s f func argv :
  obj_heap (on_memory (RT_OBJECT_HOOK_CALL func argv s) f) = obj_heap (on_memory s f).
Proof. unfold RT_OBJECT_HOOK_CALL. destruct (_ =? 0); reflexivity. Qed.
Lemma on_memory_twice s f g : on_memory (on_memory s f) g = on_memory s (fun m => g (f m)).
Proof. reflexivity. Qed.
Lemma on_memory_const s f : obj_heap (on_memory s f) = obj_heap (on_memory s (fun _ => f (obj_mem s))).
Proof. reflexivity. Qed.

Section Operations.
Context (container : Z) (s : Objects) (live : Live) (ls : Registered).
Hypothesis Hok : objects_ok container s live ls.
Context (i : rt_object_information).
Hypothesis Hi : i ∈ rt_object_container container.
Abbreviation xs := (ls (oi_type i)).

Lemma objects_heap s1 s2 l r : obj_heap s1 = obj_heap s2 -> objects_ok container s1 l r -> objects_ok container s2 l r.
Proof. intros E [H1 H2 H3 H4 H5 H6 H7 H8]. unfold obj_mem in *. rewrite E in *. split; auto. Qed.

Lemma class_walk x : x ∈ xs -> object_of (list_node x) = x /\ x <> 0 /\ list_node x <> object_list i.
Proof.
  intros Hx. pose proof (registered_class _ _ _ _ Hok i x Hi Hx) as Hp.
  pose proof (placed_range _ _ _ _ Hok _ Hp). pose proof (head_off_object _ _ _ _ Hok i x Hi Hp) as Ha.
  split; [apply (object_of_node _ _ _ _ Hok), Hp|]. unfold apart8 in Ha. split; lia.
Qed.

Lemma type_bits t : 1 <= t <= 10 ->
  u8 t = t /\ u8 (Z.lor t RT_Object_Class_Static) = Z.lor t RT_Object_Class_Static /\
  Z.land t 127 = t /\ Z.land t RT_Object_Class_Static = 0 /\
  Z.land (Z.lor t RT_Object_Class_Static) 127 = t /\
  Z.land (Z.lor t RT_Object_Class_Static) RT_Object_Class_Static = 128.
Proof.
  intros Ht. assert (t = 1 \/ t = 2 \/ t = 3 \/ t = 4 \/ t = 5 \/ t = 6 \/ t = 7 \/ t = 8 \/ t = 9 \/ t = 10) as Hc by lia.
  destruct Hc as [->|[->|[->|[->|[->|[->|[->|[->|[->| ->]]]]]]]]]; repeat split.
Qed.

(** A fresh header shares no byte with the container, the registered objects and the heap's own data. *)
Lemma fresh_protected o a : placed container (obj_heap s) live o -> (forall x, registered container ls x -> apart20 x o) ->
  protected container (obj_heap s) live ls a -> a < o \/ o + SIZEOF_OBJECT <= a.
Proof.
  intros Ho Hfresh Ha. pose proof (placed_range _ _ _ _ Hok _ Ho) as Ro. destruct Ha as [a Ha | x Hx | x a Hx Ha | a H1 H2].
  - unfold SIZEOF_OBJECT in *. lia.
  - pose proof (Hfresh _ Hx). unfold apart20, SIZEOF_OBJECT in *. lia.
  - pose proof (Hfresh _ Hx). unfold apart20, list_node, SIZEOF_OBJECT in *. lia.
  - destruct Ho as [(P1 & P2 & _)|(p & n & Hl & P1 & P2)]; [unfold SIZEOF_OBJECT in *; lia|].
    destruct (decide (o <= a < o + SIZEOF_OBJECT)); [|lia]. exfalso. apply H2. exists p, n. split; [exact Hl | lia].
Qed.

(** Linking a fresh header whose type byte is [t] into the list of the class. *)
Lemma link_spec o m1 :
  placed container (obj_heap s) live o -> (forall x, registered container ls x -> apart20 x o) ->
  (forall a, a < o \/ o + SIZEOF_OBJECT <= a -> protected container (obj_heap s) live ls a ->
     load8 m1 a = load8 (obj_mem s) a) ->
  Z.land (object_type m1 o) 127 = oi_type i ->
  (Z.land (object_type m1 o) RT_Object_Class_Static = 0 -> live !! o = Some (object_size i)) ->
  let m' := rt_list_insert_after m1 (object_list i) (list_node o) in
  objects_ok container (on_memory s (fun _ => m')) live (set_class ls (oi_type i) (o :: xs)) /\
  (forall a, o <= a < o + 9 -> load8 m' a = load8 m1 a) /\
  (forall a, (a < o \/ o + SIZEOF_OBJECT <= a) -> off_nodes (object_list i :: map list_node xs) a ->
     load8 m' a = load8 m1 a).
Proof.
  intros Ho Hfresh Hm Hty Hdyn. cbv zeta. pose proof (placed_range _ _ _ _ Hok _ Ho) as Ro.
  pose proof (table_in _ _ Hi) as Ti.
  assert (Hm1 : forall a, protected container (obj_heap s) live ls a -> load8 m1 a = load8 (obj_mem s) a).
  { intros a Ha. apply Hm; auto. apply fresh_protected; auto. }
  assert (Hns : nodes (list_node o :: object_list i :: map list_node xs)).
  { apply (class_nodes _ _ _ _ Hok); auto; [|apply (oo_nodup _ _ _ _ Hok), Hi]. intros x Hx. split; [exact Hx|].
    apply Hfresh. exists i; auto. }
  destruct (ring_insert_after m1 _ (object_list i) [] (map list_node xs) (list_node o) Hns
      (nd_nodup _ Hns) (fun _ H => H)) as [_ Hfr]; [apply (class_ring _ _ _ _ Hok); auto|]. cbn [List.last] in Hfr.
  split_ands.
  - apply objects_insert; auto.
  - intros a Ha. apply Hfr. intros y [->|[->|Hy]%elem_of_cons]%elem_of_cons.
    + unfold list_node. lia.
    + unfold SIZEOF_OBJECT in *. lia.
    + apply list_elem_of_fmap in Hy as (x & -> & Hx). pose proof (Hfresh x ltac:(exists i; auto)).
      unfold apart20, list_node, SIZEOF_OBJECT in *. lia.
  - intros a Ha Hoff. apply Hfr.
    intros y [->|Hy]%elem_of_cons; [unfold list_node, SIZEOF_OBJECT in *; lia | apply Hoff, Hy].
Qed.

(** [rt_object_init] on a fresh header. *)
Lemma init_spec fuel o name :
  placed container (obj_heap s) live o -> (forall x, registered container ls x -> apart20 x o) ->
  (length xs < fuel)%nat ->
  exists s', rt_object_init container fuel s o (oi_type i) name = Some s' /\
    objects_ok container s' live (set_class ls (oi_type i) (o :: xs)) /\
    (o + SIZEOF_OBJECT <= name \/ name + 8 <= o -> name_at (obj_mem s') o = name_at (obj_mem s) name) /\
    (forall a, (a < o \/ o + SIZEOF_OBJECT <= a) -> off_nodes (object_list i :: map list_node xs) a ->
       load8 (obj_mem s') a = load8 (obj_mem s) a) /\
    rt_object_is_systemobject s' o = Some true.
Proof.
  intros Ho Hfresh Hf. unfold rt_object_init. rewrite (information_of _ _ Hi). cbn [mbind option_bind].
  assert (Hnot : o ∉ xs).
  { intros Hx. pose proof (Hfresh o ltac:(exists i; auto)). unfold apart20, SIZEOF_OBJECT in *. lia. }
  rewrite (init_check_walk (obj_mem s) (object_list i) fuel (object_list i) xs o);
    [| apply (oo_ring _ _ _ _ Hok), Hi | intros x Hx; destruct (class_walk x Hx); tauto | exact Hf | exact Hnot].
  cbn [mbind option_bind]. eexists. split; [reflexivity|].
  set (m1 := rt_strncpy (set_object_type (obj_mem s) o (Z.lor (oi_type i) RT_Object_Class_Static)) o name RT_NAME_MAX).
  set (m' := rt_list_insert_after m1 (object_list i) (list_node o)).
  set (s' := on_memory _ _). assert (Es : obj_heap s' = obj_heap (on_memory s (fun _ => m'))).
  { unfold s'. rewrite on_memory_hook, !on_memory_twice, on_memory_const. reflexivity. }
  assert (Em : obj_mem s' = m') by (unfold obj_mem; rewrite Es; reflexivity). rewrite Em.
  pose proof (placed_range _ _ _ _ Hok _ Ho) as Ro. pose proof (table_in _ _ Hi) as (_ & _ & Ti & _).
  destruct (type_bits _ Ti) as (_ & Bu & _ & _ & B1 & B2).
  assert (Hm1 : forall a, (a < o \/ o + SIZEOF_OBJECT <= a) -> load8 m1 a = load8 (obj_mem s) a).
  { intros a Ha. unfold SIZEOF_OBJECT in *. unfold m1. rewrite strncpy_frame by (unfold RT_NAME_MAX; lia).
    unfold set_object_type. rewrite load8_store8. destruct (Z.eqb_spec a (o + 8)); [lia | reflexivity]. }
  assert (Hty : object_type m1 o = Z.lor (oi_type i) RT_Object_Class_Static).
  { unfold object_type, m1. rewrite strncpy_frame by (unfold RT_NAME_MAX; lia). unfold set_object_type.
    rewrite load8_store8, Z.eqb_refl. exact Bu. }
  destruct (link_spec o m1) as (Hins & Hown & Hrest); auto; try (rewrite Hty; congruence).
  split_ands.
  - apply (objects_heap (on_memory s (fun _ => m'))); auto.
  - intros Hname. unfold SIZEOF_OBJECT in *. rewrite (name_at_ext m' m1) by (intros a Ha; apply Hown; lia).
    unfold name_at, m1. rewrite strncpy_names by (unfold RT_NAME_MAX; lia). f_equal. apply bytes_at_ext.
    intros k Hk. unfold set_object_type. rewrite load8_store8. unfold RT_NAME_MAX in Hk.
    destruct (Z.eqb_spec (name + k) (o + 8)); [lia | reflexivity].
  - intros a Ha Hoff. unfold m'. rewrite Hrest by assumption. apply Hm1, Ha.
  - unfold rt_object_is_systemobject. rewrite Em. destruct (Z.eqb_spec o 0); [lia|].
    unfold object_type, m'. rewrite Hown by lia. fold (object_type m1 o). rewrite Hty, B2. reflexivity.
Qed.
(** Taking an object out of its class. *)
Lemma filter_once (o : Z) (l : list Z) : NoDup l -> o ∈ l ->
  exists l1 l2, l = l1 ++ o :: l2 /\ filter (fun x => x <> o) l = l1 ++ l2.
Proof.
  intros Hd Ho. apply list_elem_of_split in Ho as (l1 & l2 & ->). exists l1, l2. split; [reflexivity|].
  apply NoDup_app in Hd as (_ & H1 & [H2 _]%NoDup_cons).
  assert (Hall : forall l : list Z, o ∉ l -> filter (fun x => x <> o) l = l).
  { clear. induction l as [|y l IH]; intros H; [reflexivity|]. rewrite not_elem_of_cons in H.
    destruct H as [H1 H2]. rewrite filter_cons_True, IH; auto. }
  rewrite filter_app, filter_cons_False, !Hall; auto. intros Ho. apply (H1 _ Ho). left.
Qed.

(** The memory once the type is reset and the node is out of the list. *)
Definition unlinked (o : Z) : Memory := rt_list_remove (set_object_type (obj_mem s) o 0) (list_node o).
Definition without (o : Z) : Registered := set_class ls (oi_type i) (filter (fun x => x <> o) xs).

Lemma unlink_spec o : o ∈ xs -> objects_ok container (on_memory s (fun _ => unlinked o)) live (without o).
Proof.
  intros Ho. destruct (filter_once o xs) as (l1 & l2 & E & Ef); [apply (oo_nodup _ _ _ _ Hok), Hi | exact Ho|].
  unfold without, unlinked. rewrite Ef. apply objects_remove; auto. intros a _ Ha. unfold set_object_type.
  rewrite load8_store8. destruct (Z.eqb_spec a (o + 8)); [contradiction | reflexivity].
Qed.

Lemma unlink_frame o a : o ∈ xs -> untouched container ls o a -> load8 (unlinked o) a = load8 (obj_mem s) a.
Proof.
  intros Ho Ha. pose proof Ha as (_ & Ha2 & _). pose proof (oo_nodup _ _ _ _ Hok i Hi) as Hd.
  destruct (filter_once o xs Hd Ho) as (l1 & l2 & E & _).
  assert (Hsub : forall x, x ∈ l1 ++ l2 -> x ∈ xs /\ apart20 x o).
  { intros x Hx. assert (Hxs : x ∈ xs) by (rewrite E, elem_of_app, elem_of_cons; apply elem_of_app in Hx; tauto).
    split; [exact Hxs|]. destruct (oo_apart _ _ _ _ Hok i i x o) as [[_ Exo]|]; auto. exfalso. rewrite E in Hd. subst x.
    apply NoDup_app in Hd as (_ & Hd1 & [Hd2 _]%NoDup_cons). apply elem_of_app in Hx as [Hx|Hx]; [|auto].
    apply (Hd1 _ Hx). left. }
  assert (Hns : nodes (list_node o :: object_list i :: map list_node (l1 ++ l2))).
  { apply (class_nodes _ _ _ _ Hok); auto; [apply (registered_class _ _ _ _ Hok i); auto|].
    rewrite E in Hd. apply NoDup_app in Hd as (H1 & H2 & [_ H3]%NoDup_cons). apply NoDup_app.
    split_ands; auto. intros x Hx Hy. apply (H2 x Hx). right. exact Hy. }
  rewrite map_app in Hns. set (m1 := set_object_type (obj_mem s) o 0).
  assert (Hring : ring m1 (object_list i) (map list_node l1 ++ list_node o :: map list_node l2)).
  { replace (map list_node l1 ++ list_node o :: map list_node l2) with (map list_node xs) by (rewrite E, map_app; reflexivity).
    apply (class_ring _ _ _ _ Hok); [exact Hi|]. intros b _ Hne. unfold m1, set_object_type. rewrite load8_store8.
    destruct (Z.eqb_spec b (o + 8)) as [->|]; [|reflexivity]. exfalso. apply (Hne o); [exists i; auto | reflexivity]. }
  destruct (ring_remove m1 _ (object_list i) (map list_node l1) (map list_node l2) (list_node o) Hns (nd_nodup _ Hns)
              (fun _ H => H) Hring) as (_ & _ & Hframe).
  unfold unlinked. fold m1. rewrite Hframe.
  - unfold m1, set_object_type. rewrite load8_store8. unfold SIZEOF_OBJECT in *. destruct (Z.eqb_spec a (o + 8)); [lia | reflexivity].
  - pose proof (untouched_class _ _ _ _ Hok i o a Hi Ha) as Hoff. rewrite E, map_app in Hoff. cbn [map] in Hoff.
    intros y Hy. apply Hoff. rewrite ?elem_of_cons, ?elem_of_app, ?elem_of_cons in *. tauto.
Qed.

Lemma object_detach_spec o : o ∈ xs ->
  exists s', rt_object_detach s o = Some s' /\ objects_ok container s' live (without o) /\
    obj_heap s' = obj_heap (on_memory s (fun _ => unlinked o)) /\
    forall a, untouched container ls o a -> load8 (obj_mem s') a = load8 (obj_mem s) a.
Proof.
  intros Ho. destruct (class_walk o Ho) as (_ & H0 & _). unfold rt_object_detach.
  destruct (Z.eqb_spec o 0); [contradiction|]. eexists. split; [reflexivity|].
  assert (E : forall s1, obj_heap s1 = obj_heap s -> obj_heap (on_memory (on_memory s1 (fun m => set_object_type m o 0))
      (fun m => rt_list_remove m (list_node o))) = obj_heap (on_memory s (fun _ => unlinked o))).
  { intros s1 E1. rewrite on_memory_twice, on_memory_const. unfold unlinked, obj_mem.
    cbv beta. unfold on_memory. change (obj_heap (?x <| obj_heap := ?y |>)) with y. rewrite E1. reflexivity. }
  assert (Eh : forall f, obj_heap (on_memory (on_memory (RT_OBJECT_HOOK_CALL f o s) (fun m => set_object_type m o 0))
      (fun m => rt_list_remove m (list_node o))) = obj_heap (on_memory s (fun _ => unlinked o))) by (intros f; apply E, hook_heap).
  split; [|split; [apply Eh|]].
  - apply (objects_heap (on_memory s (fun _ => unlinked o))); [symmetry; apply Eh | apply unlink_spec, Ho].
  - intros a Ha. unfold obj_mem at 1. rewrite Eh. apply (unlink_frame o a Ho Ha).
Qed.

Lemma without_registered o x : o ∈ xs -> registered container (without o) x -> registered container ls x /\ x <> o.
Proof.
  intros Ho (j & Hj & Hx). unfold without, set_class in Hx. destruct (Z.eqb_spec (oi_type j) (oi_type i)) as [E|Hne].
  - apply list_elem_of_filter in Hx as [Hne Hx]. split; [exists i; auto | exact Hne].
  - split; [exists j; auto|]. intros ->. destruct (oo_apart _ _ _ _ Hok i j o o Hi Hj Ho Hx) as [[<- _]|Ha]; [congruence|].
    unfold apart20, SIZEOF_OBJECT in Ha. lia.
Qed.

(** [rt_object_delete] on an object of the heap whose block holds no other object. *)
Lemma object_delete_spec o : o ∈ xs ->
  Z.land (object_type (obj_mem s) o) RT_Object_Class_Static = 0 ->
  (forall x, registered container ls x -> o <= x < o + object_size i -> x = o) ->
  exists s', rt_object_delete 0 s o = Some s' /\ objects_ok container s' (delete o live) (without o) /\
    heap_ptr (obj_heap s') = heap_ptr (obj_heap s) /\
    forall a, untouched container ls o a -> steady (obj_heap s) live (delete o live) a ->
      load8 (obj_mem s') a = load8 (obj_mem s) a.
Proof.
  intros Ho Hdyn Halone. destruct (class_walk o Ho) as (_ & H0 & _).
  pose proof (oo_block _ _ _ _ Hok i o Hi Ho Hdyn) as Hl. pose proof (unlink_spec o Ho) as Hu.
  unfold rt_object_delete. destruct (Z.eqb_spec o 0); [contradiction|]. rewrite Hdyn. cbn [negb Z.eqb].
  destruct (object_detach_spec o Ho) as (s1 & E1 & Hok1 & Eh & Hfr). unfold rt_object_detach in E1.
  destruct (Z.eqb_spec o 0); [contradiction|]. injection E1 as E1. rewrite E1. clear E1.
  destruct (client_free _ _ _ _ (oo_heap _ _ _ _ Hok1) Hl) as (h' & Ef & _ & Hc). rewrite Ef.
  cbn [mbind option_bind]. eexists. split; [reflexivity|]. pose proof (rt_free_low _ _ _ _ Ef) as Hlow.
  split; [|split; [change (heap_ptr h' = heap_ptr (obj_heap s)); rewrite (proj1 Hlow), Eh; reflexivity
    |intros a Ha Hst; rewrite <- (Hfr a Ha); apply (call_frame _ _ _ _ Hok1 h' (delete o live) a Hc Hlow);
    rewrite Eh; exact Hst]].
  apply (objects_call _ _ live); [exact Hok1 | exact Hc | exact Hlow|].
  intros q k x Hq Hx Hr. apply lookup_delete_Some. split; [|exact Hq]. intros <-.
  destruct (without_registered o x Ho Hx) as [Hx' Hne]. rewrite Hl in Hq. injection Hq as <-. apply Hne, Halone; auto.
Qed.

(** What the allocator gives is a block without objects. *)
Lemma malloc_fresh size h' p : 0 < size <= SIZE_LIMIT -> rt_malloc 0 (obj_heap s) size = Some (h', p) -> p <> 0 ->
  objects_ok container (s <| obj_heap := h' |>) (<[p := size]> live) ls /\
  forall x, registered container ls x -> x + SIZEOF_OBJECT <= p \/ p + size <= x.
Proof.
  intros Hsize E Hp. destruct (oo_heap _ _ _ _ Hok) as [bs Hst].
  assert (Hnew : live !! p = None).
  { destruct (client_malloc _ _ size (oo_heap _ _ _ _ Hok) Hsize) as [E1|(h1 & p1 & E1 & _ & Hn & _)]; congruence. }
  assert (Hcall : heap_call (obj_heap s, live) (h', <[p := size]> live)).
  { pose proof (call_malloc (obj_heap s) live size h' p Hsize E) as Hc. destruct (Z.eqb_spec p 0); [contradiction | exact Hc]. }
  assert (Hok' : objects_ok container (s <| obj_heap := h' |>) (<[p := size]> live) ls).
  { apply (objects_call _ _ live); auto; [apply (rt_malloc_low _ _ _ _ _ E)|].
    intros q n x Hq _ _. rewrite lookup_insert_ne; [exact Hq | congruence]. }
  split; [exact Hok'|]. intros x Hx. destruct (oo_heap _ _ _ _ Hok') as [bs' Hst'].
  destruct (rt_malloc_low _ _ _ _ _ E) as [Eptr _].
  assert (Hpl : (<[p := size]> live) !! p = Some size) by apply lookup_insert_eq.
  destruct (live_region _ _ _ _ _ Hst' Hpl) as (_ & R1 & _). unfold HDR in *.
  assert (R2 : heap_ptr h' + 12 <= p) by exact R1.
  destruct (oo_placed _ _ _ _ Hok _ Hx) as [(P1 & P2 & _)|(q & n & Hq & P1 & P2)]; [left; lia|].
  assert (Hqp : q <> p) by congruence.
  assert (Hq' : (<[p := size]> live) !! q = Some n) by (rewrite lookup_insert_ne; auto).
  pose proof (live_apart _ _ _ _ _ _ _ Hst' Hpl Hq' ltac:(congruence)) as Ha. unfold HDR in *. lia.
Qed.
End Operations.

Section Allocation.
Context (container : Z) (s : Objects) (live : Live) (ls : Registered).
Hypothesis Hok : objects_ok container s live ls.
Context (i : rt_object_information).
Hypothesis Hi : i ∈ rt_object_container container.
Abbreviation xs := (ls (oi_type i)).

Lemma allocate_spec name :
  exists s' o, rt_object_allocate container 0 s (oi_type i) name = Some (s', o) /\
    (if o =? 0 then obj_heap s' = obj_heap s
     else objects_ok container s' (<[o := object_size i]> live) (set_class ls (oi_type i) (o :: xs)) /\
       (forall x, registered container ls x -> x + SIZEOF_OBJECT <= o \/ o + object_size i <= x) /\
       (forall a, untouched container ls o a -> a < o \/ o + object_size i <= a ->
          steady (obj_heap s) live (<[o := object_size i]> live) a -> load8 (obj_mem s') a = load8 (obj_mem s) a) /\
       live !! o = None /\ heap_ptr (obj_heap s') = heap_ptr (obj_heap s) /\
       ((o + object_size i <= name \/ name + 8 <= o -> (name + 8 <= heap_ptr (obj_heap s)) ->
           name_at (obj_mem s') o = name_at (obj_mem s) name) /\
        (forall a, o + SIZEOF_OBJECT <= a < o + object_size i -> load8 (obj_mem s') a = 0)) /\
       rt_object_is_systemobject s' o = Some false).
Proof.
  pose proof (table_in _ _ Hi) as (_ & _ & Ti & Tsz). destruct (type_bits _ Ti) as (Bu & _ & B1 & B2 & _).
  destruct (oo_heap _ _ _ _ Hok) as [bs Hst].
  unfold rt_object_allocate. rewrite (information_of _ _ Hi). cbn [negb Z.eqb mbind option_bind].
  pose proof (rt_malloc_spec _ _ (object_size i) (st_heap _ _ _ Hst) ltac:(lia)) as Hm.
  destruct (malloc_block _ _ _) as [b|].
  2:{ rewrite Hm. cbn [mbind option_bind Z.eqb]. exists (s <| obj_heap := obj_heap s |>), 0. split; reflexivity. }
  destruct Hm as (Hb & _ & _ & h' & Em & _). pose proof (data_pos _ _ _ (ok_shape _ _ (st_heap _ _ _ Hst)) Hb) as Hpos.
  rewrite Em. cbn [mbind option_bind]. set (o := data (obj_heap s) b) in *. clearbody o.
  destruct (Z.eqb_spec o 0); [lia|].
  destruct (malloc_fresh _ _ _ _ Hok (object_size i) h' o ltac:(unfold SIZE_LIMIT; lia) Em ltac:(lia)) as [Hok1 Hapart].
  assert (Hnone : live !! o = None).
  { destruct (client_malloc _ _ (object_size i) (oo_heap _ _ _ _ Hok)) as [E1|(h1 & p1 & E1 & _ & Hn & _)];
      [unfold SIZE_LIMIT; lia | rewrite Em in E1; congruence | rewrite Em in E1; congruence]. }
  assert (Hcall1 : heap_call (obj_heap s, live) (h', <[o := object_size i]> live)).
  { pose proof (call_malloc (obj_heap s) live (object_size i) h' o ltac:(unfold SIZE_LIMIT; lia) Em) as Hc.
    destruct (Z.eqb_spec o 0); [lia | exact Hc]. }
  destruct (rt_malloc_low _ _ _ _ _ Em) as [Eptr Hlow].
  set (s1 := s <| obj_heap := h' |>) in *. set (live1 := <[o := object_size i]> live) in *.
  destruct (rt_memset_spec (obj_mem s1) o 0 (object_size i) ltac:(lia)) as (m0 & E0 & Hm0). rewrite E0.
  cbn [mbind option_bind]. eexists _, o. split; [reflexivity|]. destruct (Z.eqb_spec o 0); [lia|].
  set (m1 := rt_strncpy (set_object_flag (set_object_type m0 o (oi_type i)) o 0) o name RT_NAME_MAX).
  set (m' := rt_list_insert_after m1 (object_list i) (list_node o)).
  set (s' := on_memory _ _). assert (Es : obj_heap s' = obj_heap (on_memory s1 (fun _ => m'))).
  { unfold s'. rewrite on_memory_hook, !on_memory_twice. reflexivity. }
  assert (Eme : obj_mem s' = m') by (unfold obj_mem; rewrite Es; reflexivity).
  assert (Ho : placed container (obj_heap s1) live1 o).
  { right. exists o, (object_size i). unfold live1. rewrite lookup_insert_eq. unfold SIZEOF_OBJECT. split; [reflexivity | lia]. }
  pose proof (placed_range _ _ _ _ Hok1 _ Ho) as Ro.
  assert (Hflag : forall m a, a <> o + 9 -> load8 (set_object_flag m o 0) a = load8 m a).
  { intros m a Ha. unfold set_object_flag. rewrite load8_store8. destruct (Z.eqb_spec a (o + 9)); [contradiction | reflexivity]. }
  assert (Hm1 : forall a, (a < o \/ o + object_size i <= a) -> load8 m1 a = load8 (obj_mem s1) a).
  { intros a Ha. unfold m1. rewrite strncpy_frame by (unfold RT_NAME_MAX; lia). rewrite Hflag by lia. unfold set_object_type.
    rewrite load8_store8. destruct (Z.eqb_spec a (o + 8)); [lia|]. rewrite (Hm0 a). apply fill_other. lia. }
  assert (Hty : object_type m1 o = oi_type i).
  { unfold object_type, m1. rewrite strncpy_frame by (unfold RT_NAME_MAX; lia). rewrite Hflag by lia. unfold set_object_type.
    rewrite load8_store8, Z.eqb_refl. exact Bu. }
  assert (Hfresh : forall x, registered container ls x -> apart20 x o).
  { intros x Hx. specialize (Hapart x Hx). unfold apart20, SIZEOF_OBJECT in *. lia. }
  destruct (link_spec container s1 live1 ls Hok1 i Hi o m1) as (Hins & Hown & Hrest); auto.
  - intros a Ha Hp. apply Hm1. apply (block_free container s1 live1 ls Hok1); auto. apply lookup_insert_eq.
  - rewrite Hty. exact B1.
  - intros _. apply lookup_insert_eq.
  - split_ands.
    + apply (objects_heap container (on_memory s1 (fun _ => m'))); auto.
    + exact Hapart.
    + intros a Ha Hao Hst'. rewrite Eme. unfold m'. rewrite Hrest; [rewrite Hm1 by exact Hao | apply Ha | apply (untouched_class _ _ _ _ Hok i o a Hi Ha)].
      apply (call_frame _ _ _ _ Hok h' live1 a); [exact Hcall1 | apply (rt_malloc_low _ _ _ _ _ Em) | exact Hst'].
    + exact Hnone.
    + rewrite Es. exact Eptr.
    + intros Hname Hbelow. unfold SIZEOF_OBJECT in *. rewrite Eme. unfold m'.
      rewrite (name_at_ext _ m1) by (intros a Ha; apply Hown; lia).
      unfold name_at, m1. rewrite strncpy_names by (unfold RT_NAME_MAX; lia). f_equal. apply bytes_at_ext.
      intros k Hk. unfold RT_NAME_MAX in Hk. rewrite Hflag by lia. unfold set_object_type. rewrite load8_store8.
      destruct (Z.eqb_spec (name + k) (o + 8)); [lia|]. rewrite (Hm0 _), fill_other by lia. apply Hlow. lia.
    + intros a Ha. unfold SIZEOF_OBJECT in *. rewrite Eme. unfold m'. rewrite Hrest.
      * unfold m1. rewrite strncpy_frame by (unfold RT_NAME_MAX; lia). rewrite Hflag by lia. unfold set_object_type.
        rewrite load8_store8. destruct (Z.eqb_spec a (o + 8)); [lia|]. rewrite (Hm0 a), load8_fill.
        destruct (Z.leb_spec o a), (Z.ltb_spec a (o + object_size i)); reflexivity || lia.
      * unfold SIZEOF_OBJECT. lia.
      * pose proof (oo_low _ _ _ _ Hok) as Hlo. apply (off_class container s live); auto.
        -- intros x Hx. apply (registered_class _ _ _ _ Hok i x Hi Hx).
        -- right. destruct (oo_heap _ _ _ _ Hok1) as [bs1 Hst1].
           destruct (live_region _ _ _ _ _ Hst1 (lookup_insert_eq live o (object_size i))) as (_ & Hp & _). change (obj_heap s1) with h' in Hp.
           rewrite Eptr in Hp.
           unfold HDR in Hp. lia.
        -- intros x Hx. specialize (Hapart x ltac:(exists i; auto)). unfold list_node. lia.
    + unfold rt_object_is_systemobject. rewrite Eme. destruct (Z.eqb_spec o 0); [lia|].
      unfold object_type, m'. rewrite Hown by lia. fold (object_type m1 o). rewrite Hty, B2. reflexivity.
Qed.
End Allocation.

(** ** The calls of the program, in any order *)

Abbreviation Conf := (Objects * Live * Registered)%type.

Section Steps.
Context (container : Z).

(** The calls on the container, the other calls of the heap, and writes of the
    program into bytes the container does not rely on. *)
Inductive object_step : Conf -> Conf -> Prop :=
| step_init fuel s live ls i o name s' :
    i ∈ rt_object_container container -> placed container (obj_heap s) live o ->
    (forall x, registered container ls x -> apart20 x o) ->
    rt_object_init container fuel s o (oi_type i) name = Some s' ->
    object_step (s, live, ls) (s', live, set_class ls (oi_type i) (o :: ls (oi_type i)))
| step_detach s live ls i o s' :
    i ∈ rt_object_container container -> o ∈ ls (oi_type i) -> rt_object_detach s o = Some s' ->
    object_step (s, live, ls) (s', live, without ls i o)
| step_allocate s live ls i name s' o :
    i ∈ rt_object_container container -> rt_object_allocate container 0 s (oi_type i) name = Some (s', o) -> o <> 0 ->
    object_step (s, live, ls) (s', <[o := object_size i]> live, set_class ls (oi_type i) (o :: ls (oi_type i)))
| step_delete s live ls i o s' :
    i ∈ rt_object_container container -> o ∈ ls (oi_type i) ->
    (forall x, registered container ls x -> o <= x < o + object_size i -> x = o) ->
    rt_object_delete 0 s o = Some s' ->
    object_step (s, live, ls) (s', delete o live, without ls i o)
| step_malloc s live ls size h' p :
    0 < size <= SIZE_LIMIT -> rt_malloc 0 (obj_heap s) size = Some (h', p) -> p <> 0 ->
    object_step (s, live, ls) (s <| obj_heap := h' |>, <[p := size]> live, ls)
| step_free s live ls p n h' :
    live !! p = Some n -> (forall x, registered container ls x -> ~ (p <= x < p + n)) ->
    rt_free 0 (obj_heap s) p = Some h' ->
    object_step (s, live, ls) (s <| obj_heap := h' |>, delete p live, ls)
| step_store s live ls m :
    (forall a, protected container (obj_heap s) live ls a -> load8 m a = load8 (obj_mem s) a) ->
    object_step (s, live, ls) (on_memory s (fun _ => m), live, ls)
| step_sethook s live ls s' : obj_heap s' = obj_heap s -> object_step (s, live, ls) (s', live, ls).

(** The heap is initialised above the container, and the static initialiser has
    linked every list head to itself. *)
Record objects_start (s : Objects) : Prop := {
  os_heap : exists h0 b e, heap_start h0 b e /\ rt_system_heap_init 0 h0 b e = Some (obj_heap s) /\ container + 144 <= b;
  os_container : 0 < container;
  os_lists : forall i, i ∈ rt_object_container container -> ring (obj_mem s) (object_list i) []
}.

Definition objects_reach (s0 : Objects) : Conf -> Prop := rtc object_step (s0, ∅, fun _ => []).

Lemma start_objects_ok s : objects_start s -> objects_ok container s ∅ (fun _ => []).
Proof.
  intros [(h0 & b & e & Hs & E & Hb) Hc Hl]. destruct (start_ok _ _ _ Hs) as (h1 & E1 & Hst & Hp & _).
  rewrite E in E1. injection E1 as <-.
  split; auto.
  - lia.
  - intros j o _ Ho. inversion Ho.
  - intros j o _ Ho. inversion Ho.
  - intros o (j & _ & Ho). inversion Ho.
  - intros j _. apply NoDup_nil_2.
  - intros j k a c _ _ Ha. inversion Ha.
Qed.

Lemma init_inv fuel s o i name s' live ls : objects_ok container s live ls -> i ∈ rt_object_container container ->
  rt_object_init container fuel s o (oi_type i) name = Some s' ->
  rt_object_init container (S (length (ls (oi_type i)))) s o (oi_type i) name = Some s'.
Proof.
  intros Hok Hi. unfold rt_object_init. rewrite (information_of _ _ Hi). cbn [mbind option_bind].
  assert (Hmore : forall f m h p ys o, linked (node_next m) (node_prev m) p (map list_node ys) h ->
    init_check f m h (node_next m p) o <> None -> init_check (S (length ys)) m h (node_next m p) o = Some tt).
  { clear. induction f as [|f IH]; intros m h p ys o Hl Hc; [contradiction|].
    destruct ys as [|y ys]; cbn [map linked length] in *.
    - destruct Hl as [E _]. cbn [init_check]. rewrite E, Z.eqb_refl. reflexivity.
    - destruct Hl as (E & _ & Hl). change (init_check (S (S (length ys))) m h (node_next m p) o) with
        (if node_next m p =? h then Some tt
         else if negb (object_of (node_next m p) =? 0) && (object_of (node_next m p) =? o) then None
         else init_check (S (length ys)) m h (node_next m (node_next m p)) o).
      cbn [init_check] in Hc. destruct (_ =? h); [reflexivity|]. destruct (_ && _); [contradiction|].
      rewrite E in *. apply IH; auto. }
  destruct (init_check fuel _ _ _ o) as [[]|] eqn:E; [|discriminate].
  rewrite (Hmore fuel (obj_mem s) (object_list i) (object_list i)); [auto | apply (oo_ring _ _ _ _ Hok), Hi | congruence].
Qed.

Lemma object_step_ok c c' : object_step c c' ->
  objects_ok container c.1.1 c.1.2 c.2 -> objects_ok container c'.1.1 c'.1.2 c'.2.
Proof.
  intros Hs. destruct Hs as [fuel s live ls i o name s' Hi Hp Hf E | s live ls i o s' Hi Ho E
    | s live ls i name s' o Hi E Hne | s live ls i o s' Hi Ho Ha E | s live ls size h' p Hsz E Hne
    | s live ls p n h' Hl Ha E | s live ls m Hm | s live ls s' E]; cbn [fst snd]; intros Hok.
  - apply (init_inv _ _ _ _ _ _ _ _ Hok Hi) in E.
    destruct (init_spec container s live ls Hok i Hi (S (length (ls (oi_type i)))) o name Hp Hf) as (s1 & E1 & H & _); [lia|].
    congruence.
  - destruct (object_detach_spec container s live ls Hok i Hi o Ho) as (s1 & E1 & H & _). congruence.
  - destruct (allocate_spec container s live ls Hok i Hi name) as (s1 & o1 & E1 & H).
    rewrite E1 in E. injection E as <- <-. destruct (Z.eqb_spec o1 0); [contradiction | apply H].
  - assert (Hdyn : Z.land (object_type (obj_mem s) o) RT_Object_Class_Static = 0).
    { unfold rt_object_delete in E. destruct (o =? 0); [discriminate|].
      destruct (Z.eqb_spec (Z.land (object_type (obj_mem s) o) RT_Object_Class_Static) 0); [assumption | discriminate]. }
    destruct (object_delete_spec container s live ls Hok i Hi o Ho Hdyn Ha) as (s1 & E1 & H & _). congruence.
  - apply (malloc_fresh container s live ls Hok _ _ _ Hsz E Hne).
  - apply (objects_call container s live ls Hok); [apply (call_free _ _ _ n); auto | apply (rt_free_low _ _ _ _ E)|].
    intros q k x Hq Hx Hr. rewrite lookup_delete_ne; [exact Hq|]. intros <-. rewrite Hl in Hq. injection Hq as <-.
    apply (Ha x Hx Hr).
  - apply objects_write; auto.
  - apply (objects_heap container s); auto.
Qed.

Lemma objects_reach_ok s0 s live ls : objects_start s0 -> objects_reach s0 (s, live, ls) -> objects_ok container s live ls.
Proof.
  intros Hs Hr. apply start_objects_ok in Hs. unfold objects_reach in Hr.
  change (objects_ok container (s, live, ls).1.1 (s, live, ls).1.2 (s, live, ls).2). revert Hs.
  change (objects_ok container s0 ∅ (fun _ => [])) with
    (objects_ok container (s0, (∅ : Live), (fun _ => []) : Registered).1.1 (s0, (∅ : Live), (fun _ => []) : Registered).1.2
       (s0, (∅ : Live), (fun _ => []) : Registered).2).
  induction Hr as [c | c1 c2 c3 H12 _ IH]; [auto|]. intros H. apply IH, (object_step_ok _ _ H12 H).
Qed.
End Steps.

Lemma get_type_spec s o t : o <> 0 -> Z.land (object_type (obj_mem s) o) 127 = t -> rt_object_get_type s o = Some t.
Proof.
  intros H0 <-. unfold rt_object_get_type. destruct (Z.eqb_spec o 0); [contradiction|]. f_equal.
  set (v := object_type (obj_mem s) o). assert (R : 0 <= v < 256) by apply load8_range. clearbody v.
  change 127 with (Z.ones 7). rewrite Z.land_ones by lia.
  assert (E : Z.land v (Z.lnot RT_Object_Class_Static) = v mod 2 ^ 7).
  { rewrite <- Z.land_ones by lia. apply Z.bits_inj'. intros k Hk. rewrite !Z.land_spec, Z.lnot_spec by lia.
    change RT_Object_Class_Static with (2 ^ 7). rewrite Z.pow2_bits_eqb by lia.
    destruct (Z.lt_ge_cases k 7) as [H7|H7].
    - rewrite (Z.ones_spec_low 7 k) by lia. destruct (Z.eqb_spec 7 k); [lia | reflexivity].
    - rewrite (Z.ones_spec_high 7 k) by lia. destruct (Z.eqb_spec 7 k) as [|Hk7]; [reflexivity|].
      rewrite (Z.bits_above_log2 v k); [reflexivity | lia|].
      destruct (Z.eq_dec v 0) as [->|]; [cbn; lia|]. apply Z.log2_lt_pow2; [lia|].
      apply Z.lt_le_trans with (2 ^ 8); [lia | apply Z.pow_le_mono_r; lia]. }
  rewrite E. apply u8_small. change (2 ^ 7) with 128. pose proof (Z.mod_pos_bound v 128). lia.
Qed.

Lemma find_spec container s live ls i fuel name :
  objects_ok container s live ls -> i ∈ rt_object_container container -> name <> 0 ->
  (length (ls (oi_type i)) < fuel)%nat ->
  rt_object_find container 0 fuel s name (oi_type i) =
    Some (default 0 (List.find (fun o => bool_decide (name_at (obj_mem s) o = name_at (obj_mem s) name)) (ls (oi_type i)))).
Proof.
  intros Hok Hi Hn Hf. pose proof (table_in _ _ Hi) as (_ & _ & Ti & _). unfold rt_object_find, RT_Object_Class_Unknown.
  destruct (Z.eqb_spec name 0); [contradiction|]. destruct (Z.ltb_spec 12 (oi_type i)); [lia|]. cbn [orb negb Z.eqb].
  rewrite (information_of _ _ Hi). cbn [mbind option_bind].
  apply find_walk; [apply (oo_ring _ _ _ _ Hok), Hi | | exact Hf].
  intros x Hx. destruct (class_walk container s live ls Hok i Hi x Hx) as (H1 & _ & H2). auto.
Qed.

(** C15: The object container keeps its objects typed: in every state the program reaches by creating and deleting
    objects, using the heap and writing into its own data, the list of each class is a well-formed ring of
    distinct objects; each of them carries the class's type, is in no other class and shares no header byte
    with another object; and one that is not marked static owns a heap block of its class's size. *)
Theorem objects_typed container s0 s live ls i :
  objects_start container s0 -> objects_reach container s0 (s, live, ls) -> i ∈ rt_object_container container ->
  ring (obj_mem s) (object_list i) (map list_node (ls (oi_type i))) /\ NoDup (ls (oi_type i)) /\
  forall o, o ∈ ls (oi_type i) ->
    rt_object_get_type s o = Some (oi_type i) /\
    (rt_object_is_systemobject s o = Some false -> live !! o = Some (object_size i)) /\
    (forall j, j ∈ rt_object_container container -> o ∈ ls (oi_type j) -> j = i) /\
    (forall x, registered container ls x -> x = o \/ apart20 x o).
Proof.
  intros Hs Hr Hi. pose proof (objects_reach_ok _ _ _ _ _ Hs Hr) as Hok. split_ands.
  - apply (oo_ring _ _ _ _ Hok), Hi.
  - apply (oo_nodup _ _ _ _ Hok), Hi.
  - intros o Ho. destruct (class_walk container s live ls Hok i Hi o Ho) as (_ & H0 & _). split_ands.
    + apply get_type_spec; [exact H0 | apply (oo_type _ _ _ _ Hok); auto].
    + unfold rt_object_is_systemobject. destruct (Z.eqb_spec o 0); [contradiction|]. intros [= E].
      apply negb_false_iff, Z.eqb_eq in E. apply (oo_block _ _ _ _ Hok); auto.
    + intros j Hj Hoj. destruct (oo_apart _ _ _ _ Hok i j o o Hi Hj Ho Hoj) as [[-> _]|Ha]; [reflexivity|].
      unfold apart20, SIZEOF_OBJECT in Ha. lia.
    + intros x (j & Hj & Hx). destruct (oo_apart _ _ _ _ Hok j i x o Hj Hi Hx Ho) as [[_ ->]|]; auto.
Qed.

(** ** Answers of the calls *)

(** [s'] is [s] after the hook at [hook], if there is one, was called with [o]. *)
Definition hook_called (hook o : Z) (s s' : Objects) : Prop :=
  hook_calls s' = if hook =? 0 then hook_calls s else hook_calls s ++ [(hook, o)].

Lemma hook_call_calls func argv s s1 s2 : hook_calls s1 = hook_calls s ->
  hook_calls s2 = hook_calls (RT_OBJECT_HOOK_CALL func argv s1) -> hook_called func argv s s2.
Proof. intros E1 E2. unfold hook_called. rewrite E2, <- E1. unfold RT_OBJECT_HOOK_CALL. destruct (_ =? 0); reflexivity. Qed.

Lemma configured container t :
  rt_object_get_information container t = None <-> t ∉ [1; 2; 3; 4; 5; 6; 8; 9; 10].
Proof.
  split.
  - intros H Ht. rewrite !elem_of_cons, elem_of_nil in Ht. repeat (destruct Ht as [->|Ht]; [discriminate|]). exact Ht.
  - intros Ht. rewrite !not_elem_of_cons in Ht. unfold rt_object_get_information, rt_object_container.
    unfold RT_Object_Class_Thread, RT_Object_Class_Semaphore, RT_Object_Class_Mutex, RT_Object_Class_Event,
      RT_Object_Class_MailBox, RT_Object_Class_MessageQueue, RT_Object_Class_MemPool, RT_Object_Class_Device,
      RT_Object_Class_Timer. cbn [List.find oi_type].
    repeat match goal with |- context [?a =? t] => destruct (Z.eqb_spec a t) as [<-|_]; [exfalso; tauto|] end.
    reflexivity.
Qed.

(** The two halves of the type byte. *)
Lemma type_byte s o : o <> 0 ->
  rt_object_get_type s o = Some (load8 (obj_mem s) (o + 8) mod 128) /\
  rt_object_is_systemobject s o = Some (Z.testbit (load8 (obj_mem s) (o + 8)) 7).
Proof.
  intros H0. split.
  - apply get_type_spec; [exact H0|]. change 127 with (Z.ones 7). rewrite Z.land_ones by lia. reflexivity.
  - unfold rt_object_is_systemobject. destruct (Z.eqb_spec o 0); [contradiction|]. f_equal. unfold object_type.
    change RT_Object_Class_Static with (2 ^ 7). set (v := load8 _ _). clearbody v. destruct (Z.testbit v 7) eqn:E.
    + apply negb_true_iff, Z.eqb_neq. intros H. apply (f_equal (fun x => Z.testbit x 7)) in H.
      rewrite Z.land_spec, E, Z.bits_0 in H. discriminate.
    + apply negb_false_iff, Z.eqb_eq, Z.bits_inj'. intros k Hk. rewrite Z.land_spec, Z.bits_0, Z.pow2_bits_eqb by lia.
      destruct (Z.eqb_spec 7 k) as [<-|]; [rewrite E|rewrite andb_false_r]; reflexivity.
Qed.

Section Answers.
Context (container : Z) (s : Objects) (live : Live) (ls : Registered) (i : rt_object_information).
Hypothesis Hok : objects_ok container s live ls.
Hypothesis Hi : i ∈ rt_object_container container.
Abbreviation c := (oi_type i).

Lemma typed_now s' live' ls' o : objects_ok container s' live' ls' -> o ∈ ls' c -> rt_object_get_type s' o = Some c.
Proof.
  intros Hok' Ho. destruct (class_walk container s' live' ls' Hok' i Hi o Ho) as (_ & H0 & _).
  apply get_type_spec; [exact H0 | apply (oo_type _ _ _ _ Hok'); auto].
Qed.

Lemma init_answer fuel o name :
  (length (ls c) < fuel)%nat -> placed container (obj_heap s) live o -> (forall x, registered container ls x -> apart20 x o) ->
  exists s', rt_object_init container fuel s o c name = Some s' /\
    objects_ok container s' live (set_class ls c (o :: ls c)) /\
    rt_object_get_type s' o = Some c /\ rt_object_is_systemobject s' o = Some true /\
    (o + SIZEOF_OBJECT <= name \/ name + 8 <= o -> name_at (obj_mem s') o = name_at (obj_mem s) name) /\
    hook_called (rt_object_attach_hook s) o s s'.
Proof.
  intros Hf Ho Hfr. destruct (init_spec container s live ls Hok i Hi fuel o name Ho Hfr Hf) as (s' & E & Hok' & Hn & _ & Hsys).
  exists s'. split_ands; auto.
  - apply (typed_now s' live (set_class ls c (o :: ls c))); [exact Hok'|]. unfold set_class. rewrite Z.eqb_refl. left.
  - unfold rt_object_init in E. rewrite (information_of _ _ Hi) in E. cbn [mbind option_bind] in E.
    destruct (init_check _ _ _ _ _); [|discriminate]. injection E as <-.
    apply (hook_call_calls _ _ s (on_memory (on_memory s (fun m => set_object_type m o (Z.lor c RT_Object_Class_Static)))
      (fun m => rt_strncpy m o name RT_NAME_MAX))); reflexivity.
Qed.

Lemma init_refuses fuel o name : o ∈ ls c -> rt_object_init container fuel s o c name = None.
Proof.
  intros Ho. unfold rt_object_init. rewrite (information_of _ _ Hi). cbn [mbind option_bind].
  rewrite (init_check_again _ _ fuel (object_list i) (ls c) o); auto.
  - apply (oo_ring _ _ _ _ Hok), Hi.
  - apply (class_walk container s live ls Hok i Hi).
Qed.

Lemma detach_answer o : o ∈ ls c ->
  exists s', rt_object_detach s o = Some s' /\ objects_ok container s' live (without ls i o) /\
    hook_called (rt_object_detach_hook s) o s s' /\
    (forall a, untouched container ls o a -> load8 (obj_mem s') a = load8 (obj_mem s) a).
Proof.
  intros Ho. destruct (object_detach_spec container s live ls Hok i Hi o Ho) as (s' & E & Hok' & _ & Hfr).
  exists s'. split_ands; auto. unfold rt_object_detach in E. destruct (o =? 0); [discriminate|]. injection E as <-.
    apply (hook_call_calls _ _ s s); reflexivity.
Qed.

Lemma delete_answer nest o : o ∈ ls c -> rt_object_is_systemobject s o = Some false ->
  (forall x, registered container ls x -> o <= x < o + object_size i -> x = o) ->
  if nest =? 0 then
    exists s', rt_object_delete nest s o = Some s' /\ objects_ok container s' (delete o live) (without ls i o) /\
      hook_called (rt_object_detach_hook s) o s s' /\
      (forall a, untouched container ls o a -> steady (obj_heap s) live (delete o live) a ->
         load8 (obj_mem s') a = load8 (obj_mem s) a)
  else rt_object_delete nest s o = None.
Proof.
  intros Ho Hst Ha. destruct (class_walk container s live ls Hok i Hi o Ho) as (_ & H0 & _).
  unfold rt_object_is_systemobject in Hst. destruct (Z.eqb_spec o 0) as [|Hne]; [contradiction|]. injection Hst as Hst.
  apply negb_false_iff, Z.eqb_eq in Hst. destruct (Z.eqb_spec nest 0) as [->|Hnest].
  - destruct (object_delete_spec container s live ls Hok i Hi o Ho Hst Ha) as (s' & E & Hok' & _ & Hfr). exists s'.
    split_ands; auto. unfold rt_object_delete in E. destruct (o =? 0); [discriminate|]. destruct (negb _); [discriminate|].
    destruct (rt_free _ _ _) as [h|]; [|discriminate]. injection E as <-.
    apply (hook_call_calls _ _ s s); reflexivity.
  - unfold rt_object_delete, rt_free. rewrite Hst. apply Z.eqb_neq in Hne, Hnest. rewrite Hne, Hnest. reflexivity.
Qed.

Lemma delete_static nest o : rt_object_is_systemobject s o = Some true -> rt_object_delete nest s o = None.
Proof.
  unfold rt_object_is_systemobject, rt_object_delete. destruct (o =? 0); [discriminate|]. intros [= ->]. reflexivity.
Qed.

(** An allocation does what [rt_malloc] lets it do. *)
Lemma allocate_answer name :
  exists h o, rt_malloc 0 (obj_heap s) (object_size i) = Some (h, o) /\
    if o =? 0 then exists s', rt_object_allocate container 0 s c name = Some (s', 0) /\ obj_heap s' = obj_heap s /\ hook_calls s' = hook_calls s
    else exists s', rt_object_allocate container 0 s c name = Some (s', o) /\
      objects_ok container s' (<[o := object_size i]> live) (set_class ls c (o :: ls c)) /\ live !! o = None /\
      rt_object_get_type s' o = Some c /\ rt_object_is_systemobject s' o = Some false /\
      (o + object_size i <= name \/ name + 8 <= o -> name + 8 <= heap_ptr (obj_heap s) ->
         name_at (obj_mem s') o = name_at (obj_mem s) name) /\
      (forall a, o + SIZEOF_OBJECT <= a < o + object_size i -> load8 (obj_mem s') a = 0) /\
      hook_called (rt_object_attach_hook s) o s s'.
Proof.
  destruct (allocate_spec container s live ls Hok i Hi name) as (s' & o & E & H). pose proof E as E0.
  unfold rt_object_allocate in E. rewrite (information_of _ _ Hi) in E. cbn [negb Z.eqb mbind option_bind] in E.
  destruct (rt_malloc _ _ _) as [[h p]|]; [|discriminate]. cbn [mbind option_bind] in E. exists h, p. split; [reflexivity|].
  destruct (Z.eqb_spec p 0) as [Ep|Hp].
  - injection E as <- <-. exists (s <| obj_heap := h |>). split_ands; [exact E0 | exact H | reflexivity].
  - destruct (rt_memset _ _ _ _) as [m|]; [|discriminate]. cbn [mbind option_bind] in E. injection E as Es <-.
    destruct (Z.eqb_spec p 0); [contradiction|]. destruct H as (Hok' & _ & _ & Hn & _ & [Hname Hz] & Hsys). exists s'. split_ands; auto.
    + apply (typed_now s' (<[p := object_size i]> live) (set_class ls c (p :: ls c))); [exact Hok'|].
      unfold set_class. rewrite Z.eqb_refl. left.
    + rewrite <- Es. apply (hook_call_calls _ _ s (on_memory (on_memory (on_memory (on_memory (s <| obj_heap := h |>) (fun _ => m))
        (fun m => set_object_type m p c)) (fun m => set_object_flag m p 0)) (fun m => rt_strncpy m p name RT_NAME_MAX))); reflexivity.
Qed.
End Answers.

(** C16: What the calls of the object container do in every reachable state, on each of their branches, [None] being
    a failed assertion.
    - [rt_object_get_information] knows the nine configured classes; without one, [rt_object_init],
      [rt_object_allocate] and [rt_object_find] fail.
    - [rt_object_find]: no name, or a class above RT_Object_Class_Unknown, gives RT_NULL, even in an interrupt; else it fails
      in an interrupt, and otherwise gives the first object of the class whose name agrees in the first eight
      characters, or RT_NULL.
    - [rt_object_init] fails on an object of the class; a fresh header becomes the first, static object of the class.
    - RT_NULL fails in [rt_object_detach], [rt_object_delete], [rt_object_is_systemobject] and [rt_object_get_type];
      the last two give the upper bit and the rest of the type byte.
    - [rt_object_detach] takes an object out of its class; [rt_object_delete] fails on a static one and in an
      interrupt, and otherwise takes an object that is alone in its block out of its class and frees the block.
    - [rt_object_allocate] fails in an interrupt; it gives RT_NULL and changes nothing when the heap has no block, and
      else the block as the first, not static object of the class, zero behind the header.
    Attaching and detaching call their hooks. *)
Theorem object_calls_answer container s0 s live ls i nest fuel :
  objects_start container s0 -> objects_reach container s0 (s, live, ls) -> i ∈ rt_object_container container ->
  (length (ls (oi_type i)) < fuel)%nat ->
  let c := oi_type i in
  (rt_object_get_information container c = Some i /\
   forall t, (rt_object_get_information container t = None <-> t ∉ [1; 2; 3; 4; 5; 6; 8; 9; 10]) /\
     (t ∉ [1; 2; 3; 4; 5; 6; 8; 9; 10] -> forall o name,
        rt_object_init container fuel s o t name = None /\ rt_object_allocate container nest s t name = None /\
        (name <> 0 -> t <= RT_Object_Class_Unknown -> rt_object_find container nest fuel s name t = None))) /\
  (forall name t, name = 0 \/ RT_Object_Class_Unknown < t -> rt_object_find container nest fuel s name t = Some 0) /\
  (forall name t, name <> 0 -> t <= RT_Object_Class_Unknown -> nest <> 0 -> rt_object_find container nest fuel s name t = None) /\
  (forall name, name <> 0 -> rt_object_find container 0 fuel s name c =
     Some (default 0 (List.find (fun o => bool_decide (name_at (obj_mem s) o = name_at (obj_mem s) name)) (ls c)))) /\
  (forall o name, o ∈ ls c -> rt_object_init container fuel s o c name = None) /\
  (forall o name, placed container (obj_heap s) live o -> (forall x, registered container ls x -> apart20 x o) ->
     exists s', rt_object_init container fuel s o c name = Some s' /\
       objects_ok container s' live (set_class ls c (o :: ls c)) /\
       rt_object_get_type s' o = Some c /\ rt_object_is_systemobject s' o = Some true /\
       (o + SIZEOF_OBJECT <= name \/ name + 8 <= o -> name_at (obj_mem s') o = name_at (obj_mem s) name) /\
       hook_called (rt_object_attach_hook s) o s s') /\
  (rt_object_detach s 0 = None /\ rt_object_delete nest s 0 = None /\
   rt_object_is_systemobject s 0 = None /\ rt_object_get_type s 0 = None /\
   forall o, o <> 0 -> rt_object_get_type s o = Some (load8 (obj_mem s) (o + 8) mod 128) /\
     rt_object_is_systemobject s o = Some (Z.testbit (load8 (obj_mem s) (o + 8)) 7)) /\
  (forall o, o ∈ ls c ->
     exists s', rt_object_detach s o = Some s' /\ objects_ok container s' live (without ls i o) /\
       hook_called (rt_object_detach_hook s) o s s' /\
       (forall a, untouched container ls o a -> load8 (obj_mem s') a = load8 (obj_mem s) a)) /\
  (forall o, rt_object_is_systemobject s o = Some true -> rt_object_delete nest s o = None) /\
  (forall o, o ∈ ls c -> rt_object_is_systemobject s o = Some false ->
     (forall x, registered container ls x -> o <= x < o + object_size i -> x = o) ->
     if nest =? 0 then
       exists s', rt_object_delete nest s o = Some s' /\ objects_ok container s' (delete o live) (without ls i o) /\
         hook_called (rt_object_detach_hook s) o s s' /\
         (forall a, untouched container ls o a -> steady (obj_heap s) live (delete o live) a ->
            load8 (obj_mem s') a = load8 (obj_mem s) a)
     else rt_object_delete nest s o = None) /\
  (forall name, nest <> 0 -> rt_object_allocate container nest s c name = None) /\
  (forall name, exists h o, rt_malloc 0 (obj_heap s) (object_size i) = Some (h, o) /\
     if o =? 0 then exists s', rt_object_allocate container 0 s c name = Some (s', 0) /\ obj_heap s' = obj_heap s /\ hook_calls s' = hook_calls s
     else exists s', rt_object_allocate container 0 s c name = Some (s', o) /\
       objects_ok container s' (<[o := object_size i]> live) (set_class ls c (o :: ls c)) /\ live !! o = None /\
       rt_object_get_type s' o = Some c /\ rt_object_is_systemobject s' o = Some false /\
       (o + object_size i <= name \/ name + 8 <= o -> name + 8 <= heap_ptr (obj_heap s) ->
          name_at (obj_mem s') o = name_at (obj_mem s) name) /\
       (forall a, o + SIZEOF_OBJECT <= a < o + object_size i -> load8 (obj_mem s') a = 0) /\
       hook_called (rt_object_attach_hook s) o s s').
Proof.
  intros Hs Hr Hi Hf c. pose proof (objects_reach_ok _ _ _ _ _ Hs Hr) as Hok. split_ands.
  - apply information_of, Hi.
  - intros t. split; [apply configured|]. intros Ht%(configured container) o name.
    unfold rt_object_init, rt_object_allocate, rt_object_find. rewrite Ht. split; [reflexivity|]. split.
    + destruct (negb _); reflexivity.
    + intros Hn Hu. destruct (Z.eqb_spec name 0), (Z.ltb_spec RT_Object_Class_Unknown t); try lia.
      cbn [orb]. destruct (negb _); reflexivity.
  - intros name t H. unfold rt_object_find. destruct (Z.eqb_spec name 0), (Z.ltb_spec RT_Object_Class_Unknown t); reflexivity || lia.
  - intros name t Hn Hu Hne. unfold rt_object_find. apply Z.eqb_neq in Hne. rewrite Hne.
    destruct (Z.eqb_spec name 0), (Z.ltb_spec RT_Object_Class_Unknown t); reflexivity || lia.
  - intros name Hn. apply (find_spec _ _ live); auto.
  - intros o name Ho. apply (init_refuses _ _ live ls); auto.
  - intros o name Ho Hfr. apply init_answer; auto.
  - reflexivity.
  - reflexivity.
  - reflexivity.
  - reflexivity.
  - intros o Ho. apply type_byte, Ho.
  - intros o Ho. apply detach_answer; auto.
  - intros o Ho. apply delete_static, Ho.
  - intros o Ho Hst Ha. apply delete_answer; auto.
  - intros name Hne. unfold rt_object_allocate. apply Z.eqb_neq in Hne. rewrite Hne. reflexivity.
  - intros name. apply (allocate_answer container s live ls i Hok Hi).
Qed.

(** An object registered under a name is the one a later search for that name finds, even when an older
    object of the class has the same name, and names that differ within eight characters find what they found
    before; the strings of both calls lie below the container and the objects, as literals do. *)
Theorem object_register_find container s0 s live ls i fuel o name query :
  objects_start container s0 -> objects_reach container s0 (s, live, ls) -> i ∈ rt_object_container container ->
  placed container (obj_heap s) live o -> (forall x, registered container ls x -> apart20 x o) ->
  (length (ls (oi_type i)) < fuel)%nat -> query <> 0 ->
  (forall p, p = name \/ p = query -> p + 8 <= container /\ p + 8 <= o /\ forall x, registered container ls x -> p + 8 <= x) ->
  exists s', rt_object_init container fuel s o (oi_type i) name = Some s' /\
    rt_object_find container 0 (S fuel) s' query (oi_type i) =
      if bool_decide (name_at (obj_mem s) name = name_at (obj_mem s) query) then Some o
      else rt_object_find container 0 fuel s query (oi_type i).
Proof.
  intros Hs Hr Hi Ho Hfr Hf Hq Hlit. pose proof (objects_reach_ok _ _ _ _ _ Hs Hr) as Hok.
  destruct (init_spec container s live ls Hok i Hi fuel o name Ho Hfr Hf) as (s' & E & Hok' & Hname & Hframe & _).
  exists s'. split; [exact E|]. pose proof (table_in _ _ Hi) as Ti.
  assert (Hquiet : forall p, (p + 8 <= o \/ o + SIZEOF_OBJECT <= p) -> (p + 8 <= container \/ container + 144 <= p) ->
            (forall x, registered container ls x -> p + 8 <= list_node x \/ x + SIZEOF_OBJECT <= p) ->
            name_at (obj_mem s') p = name_at (obj_mem s) p).
  { intros p H1 H2 H3. apply name_at_ext. intros a Ha. apply Hframe; [lia|].
    intros y [->|Hy]%elem_of_cons; [lia|]. apply list_elem_of_fmap in Hy as (x & -> & Hx).
    specialize (H3 x ltac:(exists i; auto)). unfold list_node, SIZEOF_OBJECT in *. lia. }
  destruct (Hlit name) as (N1 & N2 & N3); [auto|]. destruct (Hlit query) as (Q1 & Q2 & Q3); [auto|].
  rewrite (find_spec _ _ _ _ _ (S fuel) query Hok' Hi Hq); unfold set_class; rewrite Z.eqb_refl; [|cbn [length]; lia].
  rewrite (find_spec _ _ _ _ _ fuel query Hok Hi Hq Hf). cbn [List.find].
  rewrite Hname by lia. rewrite (Hquiet query) by (auto; intros x Hx; specialize (Q3 x Hx); unfold list_node; lia).
  destruct (bool_decide _); [reflexivity|]. do 2 f_equal.
  assert (Hall : forall l, (forall x, x ∈ l -> registered container ls x) ->
    List.find (fun o0 => bool_decide (name_at (obj_mem s') o0 = name_at (obj_mem s) query)) l =
    List.find (fun o0 => bool_decide (name_at (obj_mem s) o0 = name_at (obj_mem s) query)) l).
  { induction l as [|x l IH]; intros Hl; [reflexivity|]. cbn [List.find]. assert (Hx : registered container ls x) by (apply Hl; left).
    rewrite (Hquiet x); [rewrite IH; [reflexivity | intros y Hy; apply Hl; right; exact Hy] | | |].
    - specialize (Hfr x Hx). unfold apart20, SIZEOF_OBJECT in *. lia.
    - pose proof (placed_range _ _ _ _ Hok _ (oo_placed _ _ _ _ Hok _ Hx)). unfold SIZEOF_OBJECT in *. lia.
    - intros y Hy. destruct Hx as (j & Hj & Hx), Hy as (k & Hk & Hy).
      destruct (oo_apart _ _ _ _ Hok j k x y Hj Hk Hx Hy) as [[_ ->]|Ha]; unfold apart20, list_node, SIZEOF_OBJECT in *; lia. }
  apply Hall. intros x Hx. exists i; auto.
Qed.

(** ** A small system *)

(** A container at 100, the string "lock" at 50 and a heap from 4096. *)
Definition demo_memory : Memory :=
  fold_left (fun m i => rt_list_init m (object_list i)) (rt_object_container 100)
    (fun a => nth (Z.to_nat (a - 50)) [chr "l"; chr "o"; chr "c"; chr "k"] 0).
Definition demo_objects : Objects :=
  mk_objects (default no_heap (rt_system_heap_init 0 (no_heap <| memory := demo_memory |>) 4096 4360)) 0 0 0 0 0 [].

Definition the_semaphores : rt_object_information := mk_information 2 120 32.

Lemma demo_objects_start : objects_start 100 demo_objects.
Proof.
  split.
  - exists (no_heap <| memory := demo_memory |>), 4096, 4360. split; [|split; [vm_compute; reflexivity | lia]].
    split; vm_compute; repeat split; congruence.
  - lia.
  - intros i Hi. unfold rt_object_container in Hi. rewrite !elem_of_cons, elem_of_nil in Hi.
    repeat destruct Hi as [->|Hi]; try contradiction; vm_compute; auto.
Qed.

Lemma semaphores_in : the_semaphores ∈ rt_object_container 100.
Proof. right. left. Qed.

Lemma none_registered x : ~ registered 100 (fun _ => []) x.
Proof. intros (i & _ & Hx). inversion Hx. Qed.

(** A semaphore allocated from the heap. *)
Definition demo_allocated : Objects * Z := default (demo_objects, 0) (rt_object_allocate 100 0 demo_objects 2 50).

Lemma demo_allocated_reach :
  objects_reach 100 demo_objects (demo_allocated.1, {[ 4108 := 32 ]}, set_class (fun _ => []) 2 [4108]).
Proof.
  apply rtc_once. change ({[ 4108 := 32 ]} : Live) with (<[ 4108 := 32 ]> (∅ : Live)).
  apply (step_allocate 100 demo_objects ∅ (fun _ => []) the_semaphores 50 demo_allocated.1 4108).
  - exact semaphores_in.
  - vm_compute. reflexivity.
  - lia.
Qed.

Lemma objects_typed_witness :
  rt_object_get_type demo_allocated.1 4108 = Some 2 /\ rt_object_is_systemobject demo_allocated.1 4108 = Some false /\
  rt_object_find 100 0 5 demo_allocated.1 50 2 = Some 4108.
Proof.
  destruct (objects_typed 100 demo_objects _ _ _ the_semaphores demo_objects_start demo_allocated_reach semaphores_in)
    as (_ & _ & H). destruct (H 4108) as (Ht & _); [vm_compute; left|].
  split; [exact Ht|]. split; vm_compute; reflexivity.
Defined.

(** In an interrupt ([nest] is 1), then outside one. *)
Lemma object_calls_answer_witness :
  rt_object_find 100 1 3 demo_allocated.1 0 2 = Some 0 /\ rt_object_find 100 1 3 demo_allocated.1 60 2 = None /\
  rt_object_delete 1 demo_allocated.1 4108 = None /\ rt_object_find 100 0 3 demo_allocated.1 50 2 = Some 4108 /\
  rt_object_init 100 3 demo_allocated.1 4108 2 50 = None /\
  (exists s', rt_object_delete 0 demo_allocated.1 4108 = Some s' /\ rt_object_find 100 0 3 s' 50 2 = Some 0).
Proof.
  pose proof (fun nest => object_calls_answer 100 demo_objects _ _ _ the_semaphores nest 3 demo_objects_start demo_allocated_reach
    semaphores_in ltac:(vm_compute; lia)) as H.
  assert (Ha : forall x, registered 100 (set_class (fun _ => []) 2 [4108]) x ->
    4108 <= x < 4108 + object_size the_semaphores -> x = 4108).
  { intros x (j & Hj & Hx) _. unfold set_class in Hx. destruct (oi_type j =? 2); [|inversion Hx].
    apply list_elem_of_singleton in Hx. exact Hx. }
  destruct (H 1) as (_ & H1 & H2 & H3 & H4 & _ & _ & _ & _ & H6 & _). destruct (H 0) as (_ & _ & _ & _ & _ & _ & _ & _ & _ & H7 & _).
  split; [apply H1; auto|]. split; [apply H2; [lia | vm_compute; discriminate | lia]|].
  split; [apply (H6 4108); [left | vm_compute; reflexivity | exact Ha]|].
  split; [etransitivity; [exact (H3 50 ltac:(lia)) | vm_compute; reflexivity]|]. split; [apply H4; left|].
  destruct (H7 4108) as (s' & E & _); [left | vm_compute; reflexivity | exact Ha |].
  exists s'. split; [exact E|]. vm_compute in E. injection E as <-. vm_compute. reflexivity.
Defined.

Lemma object_register_find_witness :
  exists s', rt_object_init 100 1 demo_objects 300 2 50 = Some s' /\ rt_object_find 100 0 2 s' 50 2 = Some 300.
Proof.
  destruct (object_register_find 100 demo_objects demo_objects ∅ (fun _ => []) the_semaphores 1 300 50 50
    demo_objects_start (rtc_refl _ _) semaphores_in) as (s' & E & F).
  - left. vm_compute. split; [reflexivity|]. split; [congruence|]. right. congruence.
  - intros x Hx. destruct (none_registered x Hx).
  - cbn. lia.
  - lia.
  - intros p Hp. split_ands; [lia | lia|]. intros x Hx. destruct (none_registered x Hx).
  - exists s'. split; [exact E|]. rewrite bool_decide_true in F by reflexivity. exact F.
Defined.
