(* ===== verification/Layout.v ===== *)
(** * The memory of the kernel objects

    A registered object is more than its header: it owns [object_size] bytes, and some
    objects own a second block of the heap, the pool of a queue or the stack of a thread.
    A thread holds its timer inside its own block.  The operations of the container and
    of the heap keep these pieces apart, and here is what they leave untouched. *)

From S2P Require Import Prelude Memory Blocks Mem Heap LinkedList Object.

(** [n] bytes in the static memory beside the container, or in a block of a client. *)
Definition region (container : Z) (h : Heap) (live : Live) (a n : Z) : Prop :=
  (0 < a /\ a + n <= heap_ptr h /\ (a + n <= container \/ container + 144 <= a)) \/
  exists p m, live !! p = Some m /\ p <= a /\ a + n <= p + m.

(** [rt_timer] inside [rt_thread]. *)
Definition TIMER_OFFSET : Z := 76.
Definition inside (i : rt_object_information) (a : Z) (j : rt_object_information) (b : Z) : Prop :=
  oi_type i = RT_Object_Class_Thread /\ oi_type j = RT_Object_Class_Timer /\ b = a + TIMER_OFFSET.

(** The second block of an object, if it has one. *)
Abbreviation Pools := (gmap Z Z).

Section Layout.
Context (container : Z).
Abbreviation table := (rt_object_container container).
Abbreviation registered := (registered container).

Definition clear_of (ls : Registered) (p n : Z) : Prop :=
  forall i x, i ∈ table -> x ∈ ls (oi_type i) -> x + object_size i <= p \/ p + n <= x.

Record layout_ok (s : Objects) (live : Live) (ls : Registered) (pools : Pools) : Prop := {
  la_objects : objects_ok container s live ls;
  la_region : forall i o, i ∈ table -> o ∈ ls (oi_type i) -> region container (obj_heap s) live o (object_size i);
  la_apart : forall i j a b, i ∈ table -> j ∈ table -> a ∈ ls (oi_type i) -> b ∈ ls (oi_type j) ->
    (i = j /\ a = b) \/ a + object_size i <= b \/ b + object_size j <= a \/ inside i a j b \/ inside j b i a;
  la_pool : forall o p, pools !! o = Some p -> registered ls o /\ exists n, 0 < n /\ live !! p = Some n /\ clear_of ls p n;
  la_once : forall o o' p, pools !! o = Some p -> pools !! o' = Some p -> o = o'
}.

(** ** Regions *)

Lemma region_weaken h live a n b m : region container h live a n -> a <= b -> b + m <= a + n -> 0 <= m -> region container h live b m.
Proof.
  intros [(H1 & H2 & H3)|(p & k & Hl & H1 & H2)] Hb Hm Hm0; [left; split_ands; lia|].
  right. exists p, k. split_ands; auto; lia.
Qed.

Lemma region_placed h live a n : region container h live a n -> SIZEOF_OBJECT <= n -> placed container h live a.
Proof. intros H Hn. apply (region_weaken _ _ _ _ a SIZEOF_OBJECT) in H; [exact H | lia | lia | unfold SIZEOF_OBJECT; lia]. Qed.

Lemma region_keep h h' live live' a n : heap_ptr h' = heap_ptr h ->
  (forall p m, live !! p = Some m -> p <= a -> a + n <= p + m -> live' !! p = Some m) ->
  region container h live a n -> region container h' live' a n.
Proof.
  intros E Hk [(H1 & H2 & H3)|(p & m & Hl & H1 & H2)]; [left; rewrite E; auto|].
  right. exists p, m. split_ands; auto.
Qed.

(** A new block lies apart from every region there was. *)
Lemma region_fresh h live p k bs a n : state_ok h bs (<[p := k]> live) -> live !! p = None ->
  region container h live a n -> 0 < n -> a + n <= p \/ p + k <= a.
Proof.
  intros Hst Hn Hr Hpos. assert (Hp : (<[p := k]> live) !! p = Some k) by apply lookup_insert_eq.
  destruct (live_region _ _ _ _ _ Hst Hp) as (_ & Rp & _). unfold HDR in *.
  destruct Hr as [(H1 & H2 & H3)|(q & m & Hl & H1 & H2)]; [left; lia|].
  assert (Hne : p <> q) by congruence.
  assert (Hq : (<[p := k]> live) !! q = Some m) by (rewrite lookup_insert_ne; auto).
  pose proof (live_apart _ _ _ _ _ _ _ Hst Hp Hq Hne) as Ha. unfold HDR in *. lia.
Qed.

Lemma region_steady h live live' a n b : region container h live a n -> a <= b < a + n ->
  (forall p m, live !! p = Some m -> p <= a -> a + n <= p + m -> live' !! p = Some m) -> steady h live live' b.
Proof.
  intros [(H1 & H2 & H3)|(p & m & Hl & H1 & H2)] Hb Hk; [left; lia|].
  right. exists p, m. split_ands; auto; lia.
Qed.
(** ** What the operations do to the layout *)

Section Operations.
Context (s : Objects) (live : Live) (ls : Registered) (pools : Pools).
Hypothesis Hla : layout_ok s live ls pools.

Definition pools_clear (o n : Z) : Prop :=
  forall o' p k, pools !! o' = Some p -> live !! p = Some k -> p + k <= o \/ o + n <= p.

(** A place for a new object, perhaps the timer's place in its thread. *)
Definition vacant (i : rt_object_information) (o : Z) : Prop :=
  forall j x, j ∈ table -> x ∈ ls (oi_type j) -> x + object_size j <= o \/ o + object_size i <= x \/ inside j x i o.

Lemma size_pos i : i ∈ table -> 20 <= object_size i <= 1000.
Proof. intros Hi. apply (table_in container) in Hi. lia. Qed.

Lemma lay_same s' : obj_heap s' = obj_heap s -> layout_ok s' live ls pools.
Proof.
  intros E. destruct Hla as [H1 H2 H3 H4 H5]. split; auto.
  - apply (objects_heap container s); auto.
  - rewrite E. exact H2.
Qed.

Lemma lay_write m' : (forall a, protected container (obj_heap s) live ls a -> load8 m' a = load8 (obj_mem s) a) ->
  layout_ok (on_memory s (fun _ => m')) live ls pools.
Proof. intros Hm. destruct Hla as [H1 H2 H3 H4 H5]. split; auto. apply objects_write; auto. Qed.

(** The flag byte is nobody's but the object's. *)
Lemma flag_free o a : registered ls o -> protected container (obj_heap s) live ls a -> a <> o + 9.
Proof.
  intros Ho Ha. pose proof (la_objects _ _ _ _ Hla) as Hok. pose proof (oo_placed _ _ _ _ Hok _ Ho) as Hp.
  pose proof (placed_range _ _ _ _ Hok _ Hp) as R. unfold SIZEOF_OBJECT in *.
  assert (Hx : forall x, registered ls x -> x = o \/ apart20 x o).
  { intros x (j & Hj & Hx). destruct Ho as (i & Hi & Ho). destruct (oo_apart _ _ _ _ Hok j i x o Hj Hi Hx Ho) as [[_ ->]|]; auto. }
  destruct Ha as [a Ha | x Hr | x a Hr Ha | a H1 H2].
  - lia.
  - destruct (Hx _ Hr) as [->|Hap]; unfold apart20, SIZEOF_OBJECT in *; lia.
  - destruct (Hx _ Hr) as [->|Hap]; unfold apart20, list_node, SIZEOF_OBJECT in *; lia.
  - intros ->. destruct Hp as [(P1 & P2 & _)|(p & n & Hl & P1 & P2)]; [unfold SIZEOF_OBJECT in *; lia|].
    apply H2. exists p, n. split; [exact Hl|]. unfold SIZEOF_OBJECT in *. lia.
Qed.

Lemma lay_flag o v : registered ls o -> layout_ok (on_memory s (fun m => set_object_flag m o v)) live ls pools.
Proof.
  intros Ho. apply (lay_write (set_object_flag (obj_mem s) o v)). intros a Ha. unfold set_object_flag. rewrite load8_store8.
  destruct (Z.eqb_spec a (o + 9)) as [E|]; [|reflexivity]. destruct (flag_free o a Ho Ha E).
Qed.

Lemma vacant_apart i o : i ∈ table -> vacant i o -> forall x, registered ls x -> apart20 x o.
Proof.
  intros Hi Hv x (j & Hj & Hx). pose proof (size_pos _ Hi). pose proof (size_pos _ Hj). unfold apart20, SIZEOF_OBJECT.
  destruct (Hv j x Hj Hx) as [|[|(_ & _ & ->)]]; unfold TIMER_OFFSET; lia.
Qed.

Lemma lay_add s' live' i o :
  i ∈ table -> objects_ok container s' live' (set_class ls (oi_type i) (o :: ls (oi_type i))) ->
  heap_ptr (obj_heap s') = heap_ptr (obj_heap s) ->
  (forall p n, live !! p = Some n -> live' !! p = Some n) ->
  region container (obj_heap s') live' o (object_size i) -> vacant i o ->
  (forall o' p k, pools !! o' = Some p -> live !! p = Some k -> p + k <= o \/ o + object_size i <= p) ->
  layout_ok s' live' (set_class ls (oi_type i) (o :: ls (oi_type i))) pools.
Proof.
  intros Hi Hok' Eh Hlv Hr Hv Hp.
  assert (Hin : forall j x, j ∈ table -> x ∈ set_class ls (oi_type i) (o :: ls (oi_type i)) (oi_type j) ->
            (j = i /\ x = o) \/ x ∈ ls (oi_type j)).
  { intros j x Hj. unfold set_class. destruct (Z.eqb_spec (oi_type j) (oi_type i)) as [E|]; [|auto].
    destruct (table_apart container j i Hj Hi) as [->|[? _]]; [|contradiction]. rewrite elem_of_cons. tauto. }
  split; [exact Hok' | | | |].
  - intros j x Hj Hx. destruct (Hin j x Hj Hx) as [[-> ->]|Hx']; [exact Hr|].
    apply (region_keep (obj_heap s) _ live); [exact Eh | intros p n H _ _; apply Hlv, H | apply (la_region _ _ _ _ Hla); auto].
  - intros j k a b Hj Hk Ha Hb.
    destruct (Hin j a Hj Ha) as [[-> ->]|Ha'], (Hin k b Hk Hb) as [[-> ->]|Hb'].
    + auto.
    + destruct (Hv k b Hk Hb') as [|[|]]; auto.
    + destruct (Hv j a Hj Ha') as [|[|]]; auto.
    + apply (la_apart _ _ _ _ Hla); auto.
  - intros o' p Hpo. destruct (la_pool _ _ _ _ Hla _ _ Hpo) as [(j & Hj & Ho') (n & Hn & Hl & Hc)]. split.
    + exists j. split; [exact Hj|]. unfold set_class. destruct (Z.eqb_spec (oi_type j) (oi_type i)) as [E|]; [|exact Ho'].
      rewrite <- E. right. exact Ho'.
    + exists n. split_ands; auto. intros k x Hk Hx. destruct (Hin k x Hk Hx) as [[-> ->]|Hx']; [|apply Hc; auto].
      destruct (Hp _ _ _ Hpo Hl); auto.
  - apply (la_once _ _ _ _ Hla).
Qed.

Lemma init_heap_ptr fuel o type name s' : rt_object_init container fuel s o type name = Some s' ->
  heap_ptr (obj_heap s') = heap_ptr (obj_heap s).
Proof.
  unfold rt_object_init. destruct (rt_object_get_information _ _); [|discriminate]. cbn [mbind option_bind].
  destruct (init_check _ _ _ _ _) as [[]|]; [|discriminate]. cbn [mbind option_bind]. intros [= <-].
  rewrite on_memory_hook. reflexivity.
Qed.

Lemma lay_init fuel i o name :
  i ∈ table -> region container (obj_heap s) live o (object_size i) -> vacant i o -> pools_clear o (object_size i) ->
  (length (ls (oi_type i)) < fuel)%nat ->
  exists s', rt_object_init container fuel s o (oi_type i) name = Some s' /\
    layout_ok s' live (set_class ls (oi_type i) (o :: ls (oi_type i))) pools /\
    heap_ptr (obj_heap s') = heap_ptr (obj_heap s) /\
    (forall a, untouched container ls o a -> load8 (obj_mem s') a = load8 (obj_mem s) a) /\
    rt_object_is_systemobject s' o = Some true.
Proof.
  intros Hi Hr Hv Hp Hf. pose proof (la_objects _ _ _ _ Hla) as Hok. pose proof (size_pos _ Hi) as Hsz.
  assert (Hpl : placed container (obj_heap s) live o) by (apply (region_placed _ _ _ _ Hr); unfold SIZEOF_OBJECT; lia).
  destruct (init_spec container s live ls Hok i Hi fuel o name Hpl (vacant_apart i o Hi Hv) Hf)
    as (s' & E & Hok' & _ & Hfr & Hsys).
  pose proof (init_heap_ptr _ _ _ _ _ E) as Eh. exists s'. split_ands; auto.
  - apply lay_add; auto. apply (region_keep (obj_heap s) _ live); auto.
  - intros a Ha. apply Hfr; [apply Ha | apply (untouched_class _ _ _ _ Hok i o a Hi Ha)].
Qed.

Lemma lay_remove s' live' i o :
  i ∈ table -> o ∈ ls (oi_type i) -> objects_ok container s' live' (without ls i o) ->
  heap_ptr (obj_heap s') = heap_ptr (obj_heap s) -> pools !! o = None ->
  (forall a n p m, (exists j x, j ∈ table /\ x ∈ without ls i o (oi_type j) /\ a = x /\ n = object_size j) ->
     live !! p = Some m -> p <= a -> a + n <= p + m -> live' !! p = Some m) ->
  (forall o' p m, pools !! o' = Some p -> live !! p = Some m -> live' !! p = Some m) ->
  layout_ok s' live' (without ls i o) pools.
Proof.
  intros Hi Ho Hok' Eh Hpo Hlive Hpl. pose proof (la_objects _ _ _ _ Hla) as Hok.
  assert (Hin : forall j x, j ∈ table -> x ∈ without ls i o (oi_type j) -> x ∈ ls (oi_type j) /\ x <> o).
  { intros j x Hj Hx. split.
    - unfold without, set_class in Hx. destruct (Z.eqb_spec (oi_type j) (oi_type i)) as [->|]; [|exact Hx].
      apply list_elem_of_filter in Hx. tauto.
    - apply (without_registered container s live ls Hok i Hi o x Ho). exists j; auto. }
  split; [exact Hok' | | | |].
  - intros j x Hj Hx. destruct (Hin j x Hj Hx) as [Hx' _]. apply (region_keep (obj_heap s) _ live); auto.
    + intros p m H1 H2 H3. apply (Hlive x (object_size j) p m); auto. exists j, x. auto.
    + apply (la_region _ _ _ _ Hla); auto.
  - intros j k a b Hj Hk Ha Hb. destruct (Hin j a Hj Ha), (Hin k b Hk Hb). apply (la_apart _ _ _ _ Hla); auto.
  - intros o' p Hp'. destruct (la_pool _ _ _ _ Hla _ _ Hp') as [(j & Hj & Ho') (n & Hn & Hl & Hc)]. split.
    + assert (Hne : o' <> o) by congruence. exists j. split; [exact Hj|]. unfold without, set_class.
      destruct (Z.eqb_spec (oi_type j) (oi_type i)) as [E|]; [|exact Ho']. rewrite <- E. apply list_elem_of_filter. auto.
    + exists n. split_ands; auto; [eapply Hpl; eauto|]. intros k x Hk Hx. apply Hc; [exact Hk|]. apply (Hin k x Hk Hx).
  - apply (la_once _ _ _ _ Hla).
Qed.

Lemma lay_detach i o :
  i ∈ table -> o ∈ ls (oi_type i) -> pools !! o = None ->
  exists s', rt_object_detach s o = Some s' /\ layout_ok s' live (without ls i o) pools /\
    heap_ptr (obj_heap s') = heap_ptr (obj_heap s) /\
    (forall a, untouched container ls o a -> load8 (obj_mem s') a = load8 (obj_mem s) a).
Proof.
  intros Hi Ho Hp. pose proof (la_objects _ _ _ _ Hla) as Hok.
  destruct (object_detach_spec container s live ls Hok i Hi o Ho) as (s' & E & Hok' & Eh & Hfr).
  assert (Ep : heap_ptr (obj_heap s') = heap_ptr (obj_heap s)) by (rewrite Eh; reflexivity).
  exists s'. split_ands; auto. apply lay_remove; auto.
Qed.

Lemma lay_delete i o :
  i ∈ table -> o ∈ ls (oi_type i) -> pools !! o = None -> rt_object_is_systemobject s o = Some false ->
  (forall j b, j ∈ table -> b ∈ ls (oi_type j) -> ~ inside i o j b) ->
  exists s', rt_object_delete 0 s o = Some s' /\ layout_ok s' (delete o live) (without ls i o) pools /\
    heap_ptr (obj_heap s') = heap_ptr (obj_heap s) /\
    (forall a, untouched container ls o a -> steady (obj_heap s) live (delete o live) a ->
       load8 (obj_mem s') a = load8 (obj_mem s) a).
Proof.
  intros Hi Ho Hp Hsys Hins. pose proof (la_objects _ _ _ _ Hla) as Hok. pose proof (size_pos _ Hi) as Hsz.
  assert (Hdyn : Z.land (object_type (obj_mem s) o) RT_Object_Class_Static = 0).
  { unfold rt_object_is_systemobject in Hsys. destruct (o =? 0); [discriminate|]. injection Hsys as E.
    apply negb_false_iff, Z.eqb_eq in E. exact E. }
  pose proof (oo_block _ _ _ _ Hok i o Hi Ho Hdyn) as Hl.
  assert (Hother : forall j x, j ∈ table -> x ∈ without ls i o (oi_type j) -> x + object_size j <= o \/ o + object_size i <= x).
  { intros j x Hj Hx. assert (Hr : registered (without ls i o) x) by (exists j; auto).
    destruct (without_registered container s live ls Hok i Hi o x Ho Hr) as [_ Hne].
    assert (Hx' : x ∈ ls (oi_type j)).
    { unfold without, set_class in Hx. destruct (Z.eqb_spec (oi_type j) (oi_type i)) as [->|]; [|exact Hx].
      apply list_elem_of_filter in Hx. tauto. }
    destruct (la_apart _ _ _ _ Hla i j o x Hi Hj Ho Hx') as [[_ ->]|[|[|[Hin|(Hc1 & Hc2 & Ein)]]]]; auto; try contradiction.
    - destruct (Hins j x Hj Hx' Hin).
    - (* a timer has no block of its own inside a thread *)
      destruct (la_region _ _ _ _ Hla j x Hj Hx') as [(R1 & R2 & R3)|(q & m & Hq & R1 & R2)].
      + destruct (oo_heap _ _ _ _ Hok) as [bs Hst]. destruct (live_region _ _ _ _ _ Hst Hl) as (_ & R & _).
        pose proof (size_pos _ Hj). assert (Esz : object_size j = 128).
        { clear -Hj Hc1. unfold rt_object_container in Hj. rewrite !elem_of_cons, elem_of_nil in Hj.
          repeat destruct Hj as [->|Hj]; try contradiction; vm_compute in Hc1; try discriminate; reflexivity. }
        unfold HDR, TIMER_OFFSET in *. lia.
      + destruct (oo_heap _ _ _ _ Hok) as [bs Hst]. assert (Esz : object_size j = 128).
        { clear -Hj Hc1. unfold rt_object_container in Hj. rewrite !elem_of_cons, elem_of_nil in Hj.
          repeat destruct Hj as [->|Hj]; try contradiction; vm_compute in Hc1; try discriminate; reflexivity. }
        destruct (Z.eq_dec q o) as [->|Hqo]; [unfold TIMER_OFFSET in *; lia|].
        pose proof (live_apart _ _ _ _ _ _ _ Hst Hl Hq ltac:(congruence)). unfold HDR, TIMER_OFFSET in *. lia. }
  destruct (object_delete_spec container s live ls Hok i Hi o Ho Hdyn) as (s' & E & Hok' & Ep & Hfr).
  { intros x Hx Hr. destruct (decide (x = o)) as [|Hne]; [assumption|]. exfalso. destruct Hx as (j & Hj & Hx).
    assert (Hx' : x ∈ without ls i o (oi_type j)).
    { unfold without, set_class. destruct (Z.eqb_spec (oi_type j) (oi_type i)) as [Et|]; [|exact Hx].
      rewrite <- Et. apply list_elem_of_filter. auto. }
    pose proof (size_pos _ Hj). destruct (Hother j x Hj Hx'); lia. }
  exists s'. split_ands; auto. apply lay_remove; auto.
  - intros a n p m (j & x & Hj & Hx & -> & ->) Hp1 H1 H2. apply lookup_delete_Some. split; [|exact Hp1]. intros <-.
    rewrite Hl in Hp1. injection Hp1 as <-. pose proof (size_pos _ Hj). destruct (Hother j x Hj Hx); lia.
  - intros o' p m Hpo Hp1. apply lookup_delete_Some. split; [|exact Hp1]. intros <-.
    destruct (la_pool _ _ _ _ Hla _ _ Hpo) as [_ (n & Hn & Hl' & Hc)]. rewrite Hl in Hl'. injection Hl' as <-.
    specialize (Hc i o Hi Ho). lia.
Qed.
End Operations.
(** ** Blocks of the heap *)

Section Blocks.
Context (s : Objects) (live : Live) (ls : Registered) (pools : Pools).
Hypothesis Hla : layout_ok s live ls pools.

Lemma fresh_clear h' p k bs : state_ok h' bs (<[p := k]> live) -> live !! p = None ->
  heap_ptr h' = heap_ptr (obj_heap s) -> clear_of ls p k.
Proof.
  intros Hst Hn Eh i x Hi Hx. pose proof (size_pos _ Hi).
  apply (region_fresh h' live p k bs); auto; [|lia]. apply (region_keep (obj_heap s) _ live); auto.
  apply (la_region _ _ _ _ Hla); auto.
Qed.

Lemma lay_allocate i name : i ∈ table ->
  exists s' o, rt_object_allocate container 0 s (oi_type i) name = Some (s', o) /\
    (if o =? 0 then obj_heap s' = obj_heap s
     else layout_ok s' (<[o := object_size i]> live) (set_class ls (oi_type i) (o :: ls (oi_type i))) pools /\
       heap_ptr (obj_heap s') = heap_ptr (obj_heap s) /\ live !! o = None /\ clear_of ls o (object_size i) /\
       (forall a, untouched container ls o a -> a < o \/ o + object_size i <= a ->
          steady (obj_heap s) live (<[o := object_size i]> live) a -> load8 (obj_mem s') a = load8 (obj_mem s) a) /\
       rt_object_is_systemobject s' o = Some false).
Proof.
  intros Hi. pose proof (la_objects _ _ _ _ Hla) as Hok.
  destruct (allocate_spec container s live ls Hok i Hi name) as (s' & o & E & H). exists s', o. split; [exact E|].
  destruct (Z.eqb_spec o 0) as [|Hne]; [exact H|]. destruct H as (Hok' & _ & Hfr & Hn & Eh & _ & Hsys).
  destruct (oo_heap _ _ _ _ Hok') as [bs Hst].
  assert (Hclear : clear_of ls o (object_size i)) by (apply (fresh_clear (obj_heap s') o _ bs); auto).
  split_ands; auto. apply (lay_add s live ls pools Hla); auto.
  - intros p n Hp. rewrite lookup_insert_ne; [exact Hp | congruence].
  - right. exists o, (object_size i). rewrite lookup_insert_eq. split_ands; [reflexivity | lia | lia].
  - intros j x Hj Hx. destruct (Hclear j x Hj Hx); auto.
  - intros o' p k Hpo Hp. destruct (la_pool _ _ _ _ Hla _ _ Hpo) as [_ (n & Hpos & Hl & _)].
    assert (n = k) as -> by congruence. assert (Hpo' : o <> p) by congruence.
    assert (H1 : (<[o := object_size i]> live) !! o = Some (object_size i)) by apply lookup_insert_eq.
    assert (H2 : (<[o := object_size i]> live) !! p = Some k) by (rewrite lookup_insert_ne; auto).
    pose proof (live_apart _ _ _ _ _ _ _ Hst H1 H2 Hpo'). unfold HDR in *. lia.
Qed.

(** [rt_malloc] and [rt_free]; the new heap is that of [s']. *)
Lemma lay_malloc size : 0 < size <= SIZE_LIMIT ->
  rt_malloc 0 (obj_heap s) size = Some (obj_heap s, 0) \/
  exists h' p, rt_malloc 0 (obj_heap s) size = Some (h', p) /\ p <> 0 /\ live !! p = None /\
    layout_ok (s <| obj_heap := h' |>) (<[p := size]> live) ls pools /\ heap_ptr h' = heap_ptr (obj_heap s) /\
    clear_of ls p size /\ (forall o, pools !! o <> Some p) /\
    (forall a, steady (obj_heap s) live (<[p := size]> live) a -> load8 (memory h') a = load8 (obj_mem s) a).
Proof.
  intros Hsize. pose proof (la_objects _ _ _ _ Hla) as Hok.
  destruct (client_malloc _ live size (oo_heap _ _ _ _ Hok) Hsize) as [E|(h' & p & E & Hpos & Hn & [bs Hst] & Hc)]; [auto|].
  right. exists h', p. pose proof (rt_malloc_low _ _ _ _ _ E) as Hlow.
  destruct (malloc_fresh container s live ls Hok size h' p Hsize E ltac:(lia)) as [Hok' _].
  assert (Hclear : clear_of ls p size) by (apply (fresh_clear h' p _ bs); auto; apply Hlow).
  assert (Hpools : forall o, pools !! o <> Some p).
  { intros o Ho. destruct (la_pool _ _ _ _ Hla _ _ Ho) as [_ (n & _ & Hl & _)]. congruence. }
  assert (Hkeep : forall q n, live !! q = Some n -> (<[p := size]> live) !! q = Some n).
  { intros q n Hq. rewrite lookup_insert_ne; [exact Hq | congruence]. }
  split_ands; auto; try lia; [| apply Hlow | intros a Ha; apply (call_frame _ _ _ _ Hok h' _ a Hc Hlow Ha)].
  split; [exact Hok' | | apply (la_apart _ _ _ _ Hla) | | apply (la_once _ _ _ _ Hla)].
  - intros j x Hj Hx. apply (region_keep (obj_heap s) _ live); [apply Hlow | auto | apply (la_region _ _ _ _ Hla); auto].
  - intros o q Hq. destruct (la_pool _ _ _ _ Hla _ _ Hq) as [Ho (n & Hn1 & Hl & Hcl)]. split; [exact Ho|]. exists n. auto.
Qed.

Lemma lay_free p n : live !! p = Some n -> clear_of ls p n -> (forall o, pools !! o <> Some p) ->
  exists h', rt_free 0 (obj_heap s) p = Some h' /\ layout_ok (s <| obj_heap := h' |>) (delete p live) ls pools /\
    heap_ptr h' = heap_ptr (obj_heap s) /\
    (forall a, steady (obj_heap s) live (delete p live) a -> load8 (memory h') a = load8 (obj_mem s) a).
Proof.
  intros Hl Hcl Hpo. pose proof (la_objects _ _ _ _ Hla) as Hok.
  destruct (client_free _ live p n (oo_heap _ _ _ _ Hok) Hl) as (h' & E & _ & Hc). pose proof (rt_free_low _ _ _ _ E) as Hlow.
  exists h'. split_ands; auto; [| apply Hlow | intros a Ha; apply (call_frame _ _ _ _ Hok h' _ a Hc Hlow Ha)].
  assert (Hother : forall q m a k, live !! q = Some m -> q <= a -> a + k <= q + m -> 0 < k -> a + k <= p \/ p + n <= a ->
            delete p live !! q = Some m).
  { intros q m a k Hq H1 H2 H3 H4. apply lookup_delete_Some. split; [|exact Hq]. intros <-. assert (m = n) by congruence. lia. }
  split; [| | apply (la_apart _ _ _ _ Hla) | | apply (la_once _ _ _ _ Hla)].
  - apply (objects_call container s live ls Hok); auto. intros q m o Hq (j & Hj & Ho) Hr. pose proof (size_pos _ Hj).
    apply lookup_delete_Some. split; [|exact Hq]. intros <-. assert (m = n) by congruence. specialize (Hcl j o Hj Ho). lia.
  - intros j x Hj Hx. pose proof (size_pos _ Hj).
    apply (region_keep (obj_heap s) _ live); [apply Hlow | | apply (la_region _ _ _ _ Hla); auto].
    intros q m Hq H1 H2. apply (Hother q m x (object_size j)); auto; lia.
  - intros o q Hq. destruct (la_pool _ _ _ _ Hla _ _ Hq) as [Ho (m & Hm & Hlq & Hclq)]. split; [exact Ho|].
    exists m. split_ands; auto. apply lookup_delete_Some. split; [|exact Hlq]. intros <-. exact (Hpo _ Hq).
Qed.

(** A block becomes the second block of an object, or stops being it. *)
Lemma lay_pool o p n : registered ls o -> 0 < n -> live !! p = Some n -> clear_of ls p n -> (forall o', pools !! o' <> Some p) ->
  layout_ok s live ls (<[o := p]> pools).
Proof.
  intros Ho Hn Hl Hcl Hpo. destruct Hla as [H1 H2 H3 H4 H5]. split; auto.
  - intros o' q Hq. apply lookup_insert_Some in Hq as [[<- <-]|[Hne Hq]]; [|apply H4, Hq]. split; [exact Ho|]. exists n. auto.
  - intros a b q Ha Hb. apply lookup_insert_Some in Ha as [[<- <-]|[Hna Ha]], Hb as [[<- Eb]|[Hnb Hb]]; auto.
    + destruct (Hpo _ Hb).
    + subst q. destruct (Hpo _ Ha).
    + apply (H5 _ _ q); auto.
Qed.

Lemma lay_unpool o : layout_ok s live ls (delete o pools).
Proof.
  destruct Hla as [H1 H2 H3 H4 H5]. split; auto.
  - intros o' p Hp. apply lookup_delete_Some in Hp as [_ Hp]. apply H4, Hp.
  - intros a b p Ha Hb. apply lookup_delete_Some in Ha as [_ Ha]. apply lookup_delete_Some in Hb as [_ Hb].
    apply (H5 _ _ p); auto.
Qed.
End Blocks.
End Layout.
