(* ===== verification/Device.v ===== *)
(** * The device registry (device.c)

    A device is an object of the container with flags, a reference count, two call
    backs and the operations of its driver.  The registry part works on the object
    container, the rest on the device's own fields.  What a driver offers is the
    class [Driver]: each entry may be missing, as a function pointer may be RT_NULL,
    and a call that fails an assertion has no result.  Code run by a call back is
    named by its address. *)

From S2P Require Import Prelude Memory Kservice Blocks Mem Heap Strings LinkedList Object.

(** ** Constants (rtdef.h) *)

Definition RT_DEVICE_FLAG_STANDALONE : Z := 8.
Definition RT_DEVICE_FLAG_ACTIVATED : Z := 16.
Definition RT_DEVICE_FLAG_SUSPENDED : Z := 32.
Definition RT_DEVICE_FLAG_STREAM : Z := 64.
Definition RT_DEVICE_FLAG_RDWR : Z := 3.
Definition RT_DEVICE_FLAG_INT_RX : Z := 256.
Definition RT_DEVICE_FLAG_DMA_RX : Z := 512.
Definition RT_DEVICE_FLAG_INT_TX : Z := 1024.
Definition RT_DEVICE_FLAG_DMA_TX : Z := 2048.
Definition RT_DEVICE_OFLAG_CLOSE : Z := 0.
Definition RT_DEVICE_OFLAG_RDWR : Z := 3.
Definition RT_DEVICE_OFLAG_OPEN : Z := 8.
Definition RT_DEVICE_OFLAG_MASK : Z := 3855.
Definition RT_DEVICE_CTRL_RESUME : Z := 1.
Definition RT_DEVICE_CTRL_SUSPEND : Z := 2.
Definition RT_DEVICE_CTRL_CONFIG : Z := 3.
Definition RT_DEVICE_CTRL_SET_INT : Z := 16.
Definition RT_DEVICE_CTRL_CLR_INT : Z := 17.

(** ** A device *)

Record Device (D : Type) := mk_device {
  object_class : Z;      (* what rt_object_get_type gives for the device *)
  dev_flag : Z;          (* rt_uint16_t *)
  open_flag : Z;         (* rt_uint16_t *)
  ref_count : Z;         (* rt_uint8_t *)
  rx_indicate : Z;       (* function pointers; 0 is RT_NULL *)
  tx_complete : Z;
  driver_state : D
}.
#[global] Arguments mk_device {D}.
#[global] Arguments object_class {D}.
#[global] Arguments dev_flag {D}.
#[global] Arguments open_flag {D}.
#[global] Arguments ref_count {D}.
#[global] Arguments rx_indicate {D}.
#[global] Arguments tx_complete {D}.
#[global] Arguments driver_state {D}.
#[export] Instance Device_rebuild D : Rebuild (Device D) := fun d =>
  mk_device (object_class d) (dev_flag d) (open_flag d) (ref_count d) (rx_indicate d) (tx_complete d) (driver_state d).

(** How a write ends: it has taken so many bytes, or it waits with the rest. *)
Inductive write_result := Wrote (n : Z) | WriteWaits (rest : list Z).

Class Driver (D Arg : Type) := {
  device_init : option (Device D -> option (Device D * Z));
  device_open : option (Device D -> Z -> option (Device D * Z));
  device_close : option (Device D -> option (Device D * Z));
  device_read : option (Device D -> Z -> nat -> option (Device D * list Z));
  device_write : option (Device D -> Z -> list Z -> option (Device D * write_result));
  device_control : option (Device D -> Z -> Arg -> option (Device D * Z))
}.

(** ** Registry *)

Section Registry.
Context (container : Z).
Context {D : Type}.

(** [rt_device_find]: like [rt_object_find] on the device class, without the check
    of the name and of the interrupt nesting. *)
Definition rt_device_find (fuel : nat) (s : Objects) (name : Z) : option Z :=
  information ← rt_object_get_information container RT_Object_Class_Device;
  let head := object_list information in
  find_loop fuel (obj_mem s) head (node_next (obj_mem s) head) name.

Definition rt_device_register (fuel : nat) (s : Objects) (addr : Z) (dev : Device D) (name flags : Z)
    : option (Objects * Device D * Z) :=
  if addr =? 0 then Some (s, dev, - RT_ERROR)
  else
    found ← rt_device_find fuel s name;
    if negb (found =? 0) then Some (s, dev, - RT_ERROR)
    else
      s ← rt_object_init container fuel s addr RT_Object_Class_Device name;
      let dev := dev <| object_class := RT_Object_Class_Device |> in
      let dev := dev <| dev_flag := u16 flags |> in
      let dev := dev <| ref_count := 0 |> in
      let dev := dev <| open_flag := 0 |> in
      Some (s, dev, RT_EOK).

Definition rt_device_unregister (s : Objects) (addr : Z) : option (Objects * Z) :=
  type ← rt_object_get_type s addr;
  system ← rt_object_is_systemobject s addr;
  if (type =? RT_Object_Class_Device) && system then
    s ← rt_object_detach s addr;
    Some (s, RT_EOK)
  else None.

Definition rt_device_init_all : Z := RT_EOK.

(** The new device, zeroed, or 0.  Only the device structure itself is cleared. *)
Definition rt_device_create (s : Objects) (type attach_size : Z) : option (Objects * Z) :=
  let size := s32 (RT_ALIGN sizeof_device RT_ALIGN_SIZE) in
  let attach_size := s32 (RT_ALIGN attach_size RT_ALIGN_SIZE) in
  let size := s32 (size + attach_size) in
  '(h, device) ← rt_malloc 0 (obj_heap s) (u32 size);
  let s := s <| obj_heap := h |> in
  if negb (device =? 0) then
    m ← rt_memset (obj_mem s) device 0 sizeof_device;
    Some (on_memory s (fun _ => store8 m (device + SIZEOF_OBJECT) type), device)
  else Some (s, device).

Definition rt_device_destroy (s : Objects) (addr : Z) : option Objects :=
  type ← rt_object_get_type s addr;
  system ← rt_object_is_systemobject s addr;
  if (type =? RT_Object_Class_Device) && negb system then
    s ← rt_object_detach s addr;
    h ← rt_free 0 (obj_heap s) addr;
    Some (s <| obj_heap := h |>)
  else None.
End Registry.

(** ** Operations *)

Section Operations.
Context {D Arg : Type} `{Driver D Arg}.

Definition activated (dev : Device D) : bool := negb (Z.land (dev_flag dev) RT_DEVICE_FLAG_ACTIVATED =? 0).
Definition set_activated (dev : Device D) : Device D :=
  dev <| dev_flag := Z.lor (dev_flag dev) RT_DEVICE_FLAG_ACTIVATED |>.

(** The message printed when the driver fails is left out. *)
Definition rt_device_init (dev : Device D) : option (Device D * Z) :=
  match device_init with
  | Some init =>
      if activated dev then Some (dev, RT_EOK)
      else
        '(dev, result) ← init dev;
        if negb (result =? RT_EOK) then Some (dev, result) else Some (set_activated dev, result)
  | None => Some (dev, RT_EOK)
  end.

(** The part of [rt_device_open] that initialises: a result other than [RT_EOK] ends the call. *)
Definition open_init (dev : Device D) : option (Device D * Z) :=
  if activated dev then Some (dev, RT_EOK)
  else
    '(dev, result) ← match device_init with Some init => init dev | None => Some (dev, RT_EOK) end;
    if negb (result =? RT_EOK) then Some (dev, result) else Some (set_activated dev, result).

Definition rt_device_open (dev : Device D) (oflag : Z) : option (Device D * Z) :=
  if negb (object_class dev =? RT_Object_Class_Device) then None
  else
    '(dev, result) ← open_init dev;
    if negb (result =? RT_EOK) then Some (dev, result)
    else if negb (Z.land (dev_flag dev) RT_DEVICE_FLAG_STANDALONE =? 0) &&
            negb (Z.land (open_flag dev) RT_DEVICE_OFLAG_OPEN =? 0) then Some (dev, - RT_EBUSY)
    else
      '(dev, result) ← match device_open with
                       | Some open => open dev oflag
                       | None => Some (dev <| open_flag := Z.land oflag RT_DEVICE_OFLAG_MASK |>, result)
                       end;
      if (result =? RT_EOK) || (result =? - RT_ENOSYS) then
        let dev := dev <| open_flag := Z.lor (open_flag dev) RT_DEVICE_OFLAG_OPEN |> in
        let dev := dev <| ref_count := u8 (ref_count dev + 1) |> in
        if negb (ref_count dev =? 0) then Some (dev, result) else None
      else Some (dev, result).

Definition rt_device_close (dev : Device D) : option (Device D * Z) :=
  if negb (object_class dev =? RT_Object_Class_Device) then None
  else if ref_count dev =? 0 then Some (dev, - RT_ERROR)
  else
    let dev := dev <| ref_count := u8 (ref_count dev - 1) |> in
    if negb (ref_count dev =? 0) then Some (dev, RT_EOK)
    else
      '(dev, result) ← match device_close with Some close => close dev | None => Some (dev, RT_EOK) end;
      if (result =? RT_EOK) || (result =? - RT_ENOSYS)
      then Some (dev <| open_flag := RT_DEVICE_OFLAG_CLOSE |>, result)
      else Some (dev, result).

(** The bytes read; [errno] is the caller's error number. *)
Definition rt_device_read (errno : Z) (dev : Device D) (pos : Z) (size : nat) : option (Z * Device D * list Z) :=
  if negb (object_class dev =? RT_Object_Class_Device) then None
  else if ref_count dev =? 0 then Some (- RT_ERROR, dev, [])
  else
    match device_read with
    | Some read => '(dev, bytes) ← read dev pos size; Some (errno, dev, bytes)
    | None => Some (- RT_ENOSYS, dev, [])
    end.

Definition rt_device_write (errno : Z) (dev : Device D) (pos : Z) (bytes : list Z) : option (Z * Device D * write_result) :=
  if negb (object_class dev =? RT_Object_Class_Device) then None
  else if ref_count dev =? 0 then Some (- RT_ERROR, dev, Wrote 0)
  else
    match device_write with
    | Some write => '(dev, r) ← write dev pos bytes; Some (errno, dev, r)
    | None => Some (- RT_ENOSYS, dev, Wrote 0)
    end.

Definition rt_device_control (dev : Device D) (cmd : Z) (arg : Arg) : option (Device D * Z) :=
  if negb (object_class dev =? RT_Object_Class_Device) then None
  else
    match device_control with
    | Some control => control dev cmd arg
    | None => Some (dev, - RT_ENOSYS)
    end.

Definition rt_device_set_rx_indicate (dev : Device D) (rx_ind : Z) : option (Device D * Z) :=
  if negb (object_class dev =? RT_Object_Class_Device) then None
  else Some (dev <| rx_indicate := rx_ind |>, RT_EOK).

Definition rt_device_set_tx_complete (dev : Device D) (tx_done : Z) : option (Device D * Z) :=
  if negb (object_class dev =? RT_Object_Class_Device) then None
  else Some (dev <| tx_complete := tx_done |>, RT_EOK).
End Operations.

(** ** The registry in every reachable state *)

Lemma devices_in container : exists i, i ∈ rt_object_container container /\ oi_type i = RT_Object_Class_Device.
Proof. eexists (mk_information RT_Object_Class_Device _ _). split; [|reflexivity]. do 7 right. left. Qed.

Section Registered.
Context (container : Z) (s : Objects) (live : Live) (ls : Registered).
Hypothesis Hok : objects_ok container s live ls.
Abbreviation devices := (ls RT_Object_Class_Device).

Lemma device_find_spec fuel name :
  (length devices < fuel)%nat ->
  rt_device_find container fuel s name =
    Some (default 0 (List.find (fun o => bool_decide (name_at (obj_mem s) o = name_at (obj_mem s) name)) devices)).
Proof.
  destruct (devices_in container) as (i & Hi & Ei). intros Hf. unfold rt_device_find.
  rewrite <- Ei, (information_of _ _ Hi). cbn [mbind option_bind].
  apply find_walk; [apply (oo_ring _ _ _ _ Hok), Hi | | rewrite Ei; exact Hf].
  intros x Hx. destruct (class_walk container s live ls Hok i Hi x Hx) as (H1 & _ & H2). auto.
Qed.

(** A registered device can be unregistered, but [rt_device_destroy] refuses it: it is a static object. *)
Lemma device_register_spec {D} fuel (dev : Device D) addr name flags :
  (length devices < fuel)%nat ->
  placed container (obj_heap s) live addr -> (forall x, registered container ls x -> apart20 x addr) ->
  rt_device_find container fuel s name = Some 0 ->
  exists s' dev', rt_device_register container fuel s addr dev name flags = Some (s', dev', RT_EOK) /\
    objects_ok container s' live (set_class ls RT_Object_Class_Device (addr :: devices)) /\
    object_class dev' = RT_Object_Class_Device /\ ref_count dev' = 0 /\ open_flag dev' = 0 /\ dev_flag dev' = u16 flags /\
    rt_object_get_type s' addr = Some RT_Object_Class_Device /\ rt_object_is_systemobject s' addr = Some true.
Proof.
  destruct (devices_in container) as (i & Hi & Ei). intros Hf Ha Hfr Hfind. pose proof (placed_range _ _ _ _ Hok _ Ha).
  unfold rt_device_register. destruct (Z.eqb_spec addr 0); [unfold SIZEOF_OBJECT in *; lia|].
  rewrite Hfind. cbn [mbind option_bind Z.eqb negb]. rewrite <- Ei in *.
  destruct (init_spec container s live ls Hok i Hi fuel addr name Ha Hfr Hf) as (s' & -> & Hok' & _ & _ & Hsys).
  cbn [mbind option_bind]. eexists _, _. split; [reflexivity|]. split_ands; auto.
  apply get_type_spec; [assumption|]. apply (oo_type _ _ _ _ Hok' i); [exact Hi|]. unfold set_class. rewrite Z.eqb_refl. left.
Qed.

Lemma device_create_spec type attach :
  0 <= attach <= 1000000 ->
  exists s' p, rt_device_create s type attach = Some (s', p) /\
    (p <> 0 -> objects_ok container s' (<[p := sizeof_device + RT_ALIGN attach RT_ALIGN_SIZE]> live) ls /\
       rt_object_get_type s' p = Some 0).
Proof.
  intros Hat. unfold rt_device_create. destruct (RT_ALIGN_bounds attach) as [Hal _]; [lia|].
  change (s32 (RT_ALIGN sizeof_device RT_ALIGN_SIZE)) with sizeof_device.
  set (al := RT_ALIGN attach RT_ALIGN_SIZE) in *. cbv zeta. change sizeof_device with 64 in *.
  rewrite (s32_small al), (s32_small (64 + al)) by (unfold INT_MIN, INT_MAX; lia). rewrite u32_small by lia.
  destruct (oo_heap _ _ _ _ Hok) as [bs Hst].
  destruct (client_malloc _ _ (64 + al) (oo_heap _ _ _ _ Hok)) as [->|(h' & p & E & Hp & _)]; [unfold SIZE_LIMIT; lia| |].
  { cbn [mbind option_bind Z.eqb negb]. eexists _, 0. split; [reflexivity | congruence]. }
  rewrite E. cbn [mbind option_bind]. destruct (Z.eqb_spec p 0); [lia|]. cbn [negb].
  destruct (malloc_fresh _ _ _ _ Hok (64 + al) h' p ltac:(unfold SIZE_LIMIT; lia) E ltac:(lia)) as [Hok1 Hap].
  set (s1 := s <| obj_heap := h' |>) in *.
  destruct (rt_memset_spec (obj_mem s1) p 0 64 ltac:(lia)) as (m0 & -> & Hm0). cbn [mbind option_bind].
  eexists _, p. split; [reflexivity|]. intros _. split.
  - apply (objects_write container s1 _ ls Hok1). intros a Ha.
    apply (block_free container s1 _ ls Hok1 p (64 + al)) in Ha; [|apply lookup_insert_eq | exact Hap].
    rewrite load8_store8. unfold SIZEOF_OBJECT. destruct (Z.eqb_spec a (p + 20)); [lia|].
    rewrite (Hm0 a). apply fill_other. lia.
  - apply get_type_spec; [lia|]. unfold object_type. rewrite on_memory_mem, load8_store8. unfold SIZEOF_OBJECT.
    destruct (Z.eqb_spec (p + 8) (p + 20)); [lia|]. rewrite (Hm0 _), load8_fill. destruct (Z.leb_spec p (p + 8)); [|lia]. destruct (Z.ltb_spec (p + 8) (p + 64)); [|lia]. reflexivity.
Qed.
End Registered.

(** C29: The device registry in every reachable state of the container.  A search gives the first device whose name
    agrees in eight characters, or none; a name that is found cannot be registered again, and nothing changes;
    a fresh name and header are registered as a closed device that can be unregistered.  But
    [rt_device_destroy] refuses every device: one that was registered is a static object, and one that
    [rt_device_create] has made and nobody registered has no type. *)
Theorem device_registry {D} container s0 s live ls fuel (dev : Device D) addr name flags type attach :
  objects_start container s0 -> objects_reach container s0 (s, live, ls) ->
  (length (ls RT_Object_Class_Device) < fuel)%nat -> 0 <= attach <= 1000000 ->
  placed container (obj_heap s) live addr -> (forall x, registered container ls x -> apart20 x addr) ->
  let found := default 0 (List.find (fun o => bool_decide (name_at (obj_mem s) o = name_at (obj_mem s) name))
                                    (ls RT_Object_Class_Device)) in
  rt_device_find container fuel s name = Some found /\
  (if found =? 0 then
     exists s' dev', rt_device_register container fuel s addr dev name flags = Some (s', dev', RT_EOK) /\
       ref_count dev' = 0 /\ open_flag dev' = 0 /\ dev_flag dev' = u16 flags /\
       is_Some (rt_device_unregister s' addr) /\ rt_device_destroy s' addr = None
   else rt_device_register container fuel s addr dev name flags = Some (s, dev, - RT_ERROR)) /\
  exists s' p, rt_device_create s type attach = Some (s', p) /\ (p <> 0 -> rt_device_destroy s' p = None).
Proof.
  intros Hs Hr Hf Hat Ha Hfr found. pose proof (objects_reach_ok _ _ _ _ _ Hs Hr) as Hok.
  pose proof (device_find_spec _ _ _ _ Hok fuel name Hf) as Hfind. fold found in Hfind. split_ands; [exact Hfind | |].
  - destruct (Z.eqb_spec found 0) as [E|E].
    + rewrite E in Hfind.
      destruct (device_register_spec _ _ _ _ Hok fuel dev addr name flags Hf Ha Hfr Hfind)
        as (s' & dev' & E1 & Hok' & _ & R1 & R2 & R3 & R4 & R5).
      exists s', dev'. split_ands; auto; unfold rt_device_unregister, rt_device_destroy; rewrite R4, R5; [|reflexivity].
      cbn [mbind option_bind andb Z.eqb]. destruct (devices_in container) as (i & Hi & Ei).
      destruct (object_detach_spec container s' live _ Hok' i Hi addr) as (s2 & -> & _); [|eexists; reflexivity].
      rewrite Ei. unfold set_class. rewrite Z.eqb_refl. left.
    + unfold rt_device_register. pose proof (placed_range _ _ _ _ Hok _ Ha). unfold SIZEOF_OBJECT in *.
      destruct (Z.eqb_spec addr 0); [lia|]. rewrite Hfind. cbn [mbind option_bind].
      destruct (Z.eqb_spec found 0); [contradiction | reflexivity].
  - destruct (device_create_spec _ _ _ _ Hok type attach Hat) as (s' & p & E & Hp). exists s', p. split; [exact E|].
    intros H0. destruct (Hp H0) as [_ Ht]. unfold rt_device_destroy. rewrite Ht. cbn [mbind option_bind].
    destruct (rt_object_is_systemobject s' p); reflexivity.
Qed.

Lemma device_registry_witness :
  exists s' dev', rt_device_register 100 1 demo_objects 300 (mk_device 0 0 0 0 0 0 tt) 50 259 = Some (s', dev', RT_EOK) /\
    rt_device_destroy s' 300 = None.
Proof.
  destruct (device_registry 100 demo_objects demo_objects ∅ (fun _ => []) 1 (mk_device 0 0 0 0 0 0 tt) 300 50 259 5 0
    demo_objects_start (rtc_refl _ _)) as (_ & Hreg & _); [cbn; lia | lia | | |].
  - left. unfold SIZEOF_OBJECT. split_ands; try lia. vm_compute. discriminate.
  - intros x Hx. destruct (none_registered _ Hx).
  - cbn [List.find default] in Hreg. destruct Hreg as (s' & dev' & E & _ & _ & _ & _ & Hd). exists s', dev'. auto.
Defined.
