(* ===== verification/Serial.v ===== *)
(** * The serial driver framework (serial.c)

    A serial device receives through a ring buffer that the interrupt handler fills
    and the reader empties one byte per critical section; it sends by polling or,
    with an interrupt driven port, waits for the port when it is busy.  The port is
    the class [UartOps].  The buffers are blocks of the heap; the contents of the
    receive buffer are kept in a record.  DMA and POSIX support are not configured. *)

From S2P Require Import Prelude Memory Kservice Blocks Mem Heap Strings LinkedList Object Device.

(** ** Data (serial.h) *)

Definition BAUD_RATE_9600 : Z := 9600.
Definition BAUD_RATE_115200 : Z := 115200.
Definition DATA_BITS_8 : Z := 8.
Definition STOP_BITS_1 : Z := 0.
Definition PARITY_NONE : Z := 0.
Definition BIT_ORDER_LSB : Z := 0.
Definition NRZ_NORMAL : Z := 0.
Definition RT_SERIAL_RB_BUFSZ : Z := 64.
Definition RT_SERIAL_EVENT_RX_IND : Z := 1.
Definition RT_SERIAL_EVENT_TX_DONE : Z := 2.

Record serial_configure := mk_configure {
  baud_rate : Z;
  data_bits : Z;
  stop_bits : Z;
  parity : Z;
  bit_order : Z;
  invert : Z;
  bufsz : Z          (* 16 bits *)
}.
#[export] Instance serial_configure_rebuild : Rebuild serial_configure := fun c =>
  mk_configure (baud_rate c) (data_bits c) (stop_bits c) (parity c) (bit_order c) (invert c) (bufsz c).

Definition RT_SERIAL_CONFIG_DEFAULT : serial_configure :=
  mk_configure BAUD_RATE_115200 DATA_BITS_8 STOP_BITS_1 PARITY_NONE BIT_ORDER_LSB NRZ_NORMAL RT_SERIAL_RB_BUFSZ.

Record rt_serial_rx_fifo := mk_rx_fifo {
  buffer : list Z;
  put_index : Z;       (* rt_uint16_t *)
  get_index : Z;       (* rt_uint16_t *)
  is_full : bool
}.
#[export] Instance rx_fifo_rebuild : Rebuild rt_serial_rx_fifo := fun f =>
  mk_rx_fifo (buffer f) (put_index f) (get_index f) (is_full f).

(** [sizeof(struct rt_serial_rx_fifo)] and [sizeof(struct rt_serial_tx_fifo)]. *)
Definition sizeof_rx_fifo : Z := 12.
Definition sizeof_tx_fifo : Z := 12.

(** What the port offers: each call may change the port's state. *)
Class UartOps (H : Type) := {
  uart_configure : H -> serial_configure -> H * Z;
  uart_control : H -> Z -> Z -> H * Z;
  uart_putc : H -> Z -> H * Z;
  uart_getc : H -> H * Z
}.

Record rt_serial_device (H : Type) := mk_serial {
  config : serial_configure;
  serial_rx : option (Z * rt_serial_rx_fifo);   (* its block and its contents *)
  serial_tx : option Z;                         (* its block *)
  port : H;
  sys_heap : Heap
}.
#[global] Arguments mk_serial {H}.
#[global] Arguments config {H}.
#[global] Arguments serial_rx {H}.
#[global] Arguments serial_tx {H}.
#[global] Arguments port {H}.
#[global] Arguments sys_heap {H}.
#[export] Instance serial_rebuild H : Rebuild (rt_serial_device H) := fun s =>
  mk_serial (config s) (serial_rx s) (serial_tx s) (port s) (sys_heap s).

Abbreviation SerialDevice H := (Device (rt_serial_device H)).

(** ** The receive buffer *)

(** One round of [_serial_int_rx]: the byte, or none when the buffer is empty. *)
Definition rx_take (bufsz : Z) (f : rt_serial_rx_fifo) : option (rt_serial_rx_fifo * option Z) :=
  if (get_index f =? put_index f) && negb (is_full f) then Some (f, None)
  else
    ch ← buf_get (buffer f) (get_index f);
    let f := f <| get_index := u16 (get_index f + 1) |> in
    let f := if bufsz <=? get_index f then f <| get_index := 0 |> else f in
    let f := if is_full f then f <| is_full := false |> else f in
    Some (f, Some (Z.land ch 255)).

(** One round of the receive interrupt; the warning printed at the first overrun is left out. *)
Definition rx_put (bufsz : Z) (f : rt_serial_rx_fifo) (ch : Z) : option rt_serial_rx_fifo :=
  b ← buf_set (buffer f) (put_index f) (u8 ch);
  let f := f <| buffer := b |> in
  let f := f <| put_index := u16 (put_index f + 1) |> in
  let f := if bufsz <=? put_index f then f <| put_index := 0 |> else f in
  if put_index f =? get_index f then
    let f := f <| get_index := u16 (get_index f + 1) |> in
    let f := f <| is_full := true |> in
    Some (if bufsz <=? get_index f then f <| get_index := 0 |> else f)
  else Some f.

(** The length handed to the call back. *)
Definition rx_length (bufsz : Z) (f : rt_serial_rx_fifo) : Z :=
  if get_index f <=? put_index f then put_index f - get_index f
  else u32 (bufsz - (get_index f - put_index f)).

Section Port.
Context {H : Type} `{UartOps H}.
Abbreviation Serial := (rt_serial_device H).
Abbreviation Dev := (SerialDevice H).

Definition serial_of (dev : Dev) : Serial := driver_state dev.
Definition on_serial (dev : Dev) (f : Serial -> Serial) : Dev := dev <| driver_state := f (driver_state dev) |>.
Definition set_port (dev : Dev) (h : H) : Dev := on_serial dev (fun s => s <| port := h |>).

(** ** Polling *)

Fixpoint _serial_poll_rx (dev : Dev) (length : nat) : Dev * list Z :=
  match length with
  | O => (dev, [])
  | S length =>
      let '(h, ch) := uart_getc (port (serial_of dev)) in
      let dev := set_port dev h in
      if ch =? -1 then (dev, [])
      else if ch =? 10 then (dev, [u8 ch])
      else let '(dev, bytes) := _serial_poll_rx dev length in (dev, u8 ch :: bytes)
  end.

Definition putc (dev : Dev) (c : Z) : Dev := set_port dev (fst (uart_putc (port (serial_of dev)) c)).

Fixpoint _serial_poll_tx (dev : Dev) (data : list Z) : Dev * Z :=
  match data with
  | [] => (dev, 0)
  | c :: data =>
      let dev := if (c =? 10) && negb (Z.land (open_flag dev) RT_DEVICE_FLAG_STREAM =? 0) then putc dev 13 else dev in
      let dev := putc dev c in
      let '(dev, n) := _serial_poll_tx dev data in
      (dev, n + 1)
  end.

(** ** Interrupt mode *)

(** The loop of [_serial_int_rx] when nothing interrupts it. *)
Fixpoint int_rx_loop (bufsz : Z) (f : rt_serial_rx_fifo) (length : nat) : option (rt_serial_rx_fifo * list Z) :=
  match length with
  | O => Some (f, [])
  | S length =>
      '(f, b) ← rx_take bufsz f;
      match b with
      | None => Some (f, [])
      | Some ch => '(f, bytes) ← int_rx_loop bufsz f length; Some (f, ch :: bytes)
      end
  end.

Definition _serial_int_rx (dev : Dev) (length : nat) : option (Dev * list Z) :=
  '(p, f) ← serial_rx (serial_of dev);
  '(f, bytes) ← int_rx_loop (bufsz (config (serial_of dev))) f length;
  Some (on_serial dev (fun s => s <| serial_rx := Some (p, f) |>), bytes).

(** Sends until the port is busy: what is left then waits for the completion. *)
Fixpoint int_tx_loop (dev : Dev) (data : list Z) : Dev * list Z :=
  match data with
  | [] => (dev, [])
  | c :: rest =>
      let '(h, r) := uart_putc (port (serial_of dev)) c in
      let dev := set_port dev h in
      if r =? -1 then (dev, data) else int_tx_loop dev rest
  end.

Definition _serial_int_tx (dev : Dev) (data : list Z) : option (Dev * write_result) :=
  tx ← serial_tx (serial_of dev);
  let '(dev, rest) := int_tx_loop dev data in
  Some (dev, match rest with [] => Wrote (Z.of_nat (length data)) | _ => WriteWaits rest end).

(** ** The device interface *)

Definition rt_serial_init (dev : Dev) : option (Dev * Z) :=
  let dev := on_serial dev (fun s => s <| serial_rx := None |>) in
  let dev := on_serial dev (fun s => s <| serial_tx := None |>) in
  let '(h, result) := uart_configure (port (serial_of dev)) (config (serial_of dev)) in
  Some (set_port dev h, result).

Definition has (flags bit : Z) : bool := negb (Z.land flags bit =? 0).

Definition control_port (dev : Dev) (cmd arg : Z) : Dev :=
  set_port dev (fst (uart_control (port (serial_of dev)) cmd arg)).

(** The receive structure of [rt_serial_open]. *)
Definition open_rx (dev : Dev) (oflag : Z) : option Dev :=
  match serial_rx (serial_of dev) with
  | None =>
      if has oflag RT_DEVICE_FLAG_INT_RX then
        let bufsz := bufsz (config (serial_of dev)) in
        '(h, rx_fifo) ← rt_malloc 0 (sys_heap (serial_of dev)) (sizeof_rx_fifo + bufsz);
        if rx_fifo =? 0 then None
        else
          let f := mk_rx_fifo (repeat 0 (Z.to_nat bufsz)) 0 0 false in
          let dev := on_serial dev (fun s => s <| sys_heap := h |>) in
          let dev := on_serial dev (fun s => s <| serial_rx := Some (rx_fifo, f) |>) in
          let dev := dev <| open_flag := Z.lor (open_flag dev) RT_DEVICE_FLAG_INT_RX |> in
          Some (control_port dev RT_DEVICE_CTRL_SET_INT RT_DEVICE_FLAG_INT_RX)
      else Some dev
  | Some _ =>
      Some (if has oflag RT_DEVICE_FLAG_INT_RX
            then dev <| open_flag := Z.lor (open_flag dev) RT_DEVICE_FLAG_INT_RX |> else dev)
  end.

Definition open_tx (dev : Dev) (oflag : Z) : option Dev :=
  match serial_tx (serial_of dev) with
  | None =>
      if has oflag RT_DEVICE_FLAG_INT_TX then
        '(h, tx_fifo) ← rt_malloc 0 (sys_heap (serial_of dev)) sizeof_tx_fifo;
        if tx_fifo =? 0 then None
        else
          let dev := on_serial dev (fun s => s <| sys_heap := h |>) in
          let dev := on_serial dev (fun s => s <| serial_tx := Some tx_fifo |>) in
          let dev := dev <| open_flag := Z.lor (open_flag dev) RT_DEVICE_FLAG_INT_TX |> in
          Some (control_port dev RT_DEVICE_CTRL_SET_INT RT_DEVICE_FLAG_INT_TX)
      else Some dev
  | Some _ =>
      Some (if has oflag RT_DEVICE_FLAG_INT_TX
            then dev <| open_flag := Z.lor (open_flag dev) RT_DEVICE_FLAG_INT_TX |> else dev)
  end.

Definition rt_serial_open (dev : Dev) (oflag : Z) : option (Dev * Z) :=
  if has oflag RT_DEVICE_FLAG_DMA_RX && negb (has (dev_flag dev) RT_DEVICE_FLAG_DMA_RX) then Some (dev, - RT_EIO)
  else if has oflag RT_DEVICE_FLAG_DMA_TX && negb (has (dev_flag dev) RT_DEVICE_FLAG_DMA_TX) then Some (dev, - RT_EIO)
  else if has oflag RT_DEVICE_FLAG_INT_RX && negb (has (dev_flag dev) RT_DEVICE_FLAG_INT_RX) then Some (dev, - RT_EIO)
  else if has oflag RT_DEVICE_FLAG_INT_TX && negb (has (dev_flag dev) RT_DEVICE_FLAG_INT_TX) then Some (dev, - RT_EIO)
  else
    let stream_flag := if has oflag RT_DEVICE_FLAG_STREAM || has (open_flag dev) RT_DEVICE_FLAG_STREAM
                       then RT_DEVICE_FLAG_STREAM else 0 in
    let dev := dev <| open_flag := Z.land oflag 255 |> in
    dev ← open_rx dev oflag;
    dev ← open_tx dev oflag;
    Some (dev <| open_flag := Z.lor (open_flag dev) stream_flag |>, RT_EOK).

(** [dev->open_flag &= ~bit] *)
Definition clear_open_flag (dev : Dev) (bit : Z) : Dev :=
  dev <| open_flag := u16 (Z.land (open_flag dev) (Z.lnot bit)) |>.

Definition close_rx (dev : Dev) : option Dev :=
  if has (open_flag dev) RT_DEVICE_FLAG_INT_RX then
    '(rx_fifo, _) ← serial_rx (serial_of dev);
    h ← rt_free 0 (sys_heap (serial_of dev)) rx_fifo;
    let dev := on_serial dev (fun s => s <| sys_heap := h |>) in
    let dev := on_serial dev (fun s => s <| serial_rx := None |>) in
    let dev := clear_open_flag dev RT_DEVICE_FLAG_INT_RX in
    Some (control_port dev RT_DEVICE_CTRL_CLR_INT RT_DEVICE_FLAG_INT_RX)
  else Some dev.

Definition close_tx (dev : Dev) : option Dev :=
  if has (open_flag dev) RT_DEVICE_FLAG_INT_TX then
    tx_fifo ← serial_tx (serial_of dev);
    h ← rt_free 0 (sys_heap (serial_of dev)) tx_fifo;
    let dev := on_serial dev (fun s => s <| sys_heap := h |>) in
    let dev := on_serial dev (fun s => s <| serial_tx := None |>) in
    let dev := clear_open_flag dev RT_DEVICE_FLAG_INT_TX in
    Some (control_port dev RT_DEVICE_CTRL_CLR_INT RT_DEVICE_FLAG_INT_TX)
  else Some dev.

Definition rt_serial_close (dev : Dev) : option (Dev * Z) :=
  if 1 <? ref_count dev then Some (dev, RT_EOK)
  else
    dev ← close_rx dev;
    dev ← close_tx dev;
    Some (dev, RT_EOK).

Definition rt_serial_read (dev : Dev) (pos : Z) (size : nat) : option (Dev * list Z) :=
  match size with
  | O => Some (dev, [])
  | _ =>
      if has (open_flag dev) RT_DEVICE_FLAG_INT_RX then _serial_int_rx dev size
      else Some (_serial_poll_rx dev size)
  end.

Definition rt_serial_write (dev : Dev) (pos : Z) (data : list Z) : option (Dev * write_result) :=
  match data with
  | [] => Some (dev, Wrote 0)
  | _ =>
      if has (open_flag dev) RT_DEVICE_FLAG_INT_TX then _serial_int_tx dev data
      else let '(dev, n) := _serial_poll_tx dev data in Some (dev, Wrote n)
  end.

(** The argument of [rt_serial_control]: a word, or the address of a configuration with its contents. *)
Inductive control_arg := ArgConfig (p : Z) (c : serial_configure) | ArgWord (w : Z).

Definition rt_serial_control (dev : Dev) (cmd : Z) (args : control_arg) : option (Dev * Z) :=
  if cmd =? RT_DEVICE_CTRL_SUSPEND then
    Some (dev <| dev_flag := Z.lor (dev_flag dev) RT_DEVICE_FLAG_SUSPENDED |>, RT_EOK)
  else if cmd =? RT_DEVICE_CTRL_RESUME then
    Some (dev <| dev_flag := u16 (Z.land (dev_flag dev) (Z.lnot RT_DEVICE_FLAG_SUSPENDED)) |>, RT_EOK)
  else if cmd =? RT_DEVICE_CTRL_CONFIG then
    match args with
    | ArgConfig p c =>
        if p =? 0 then Some (dev, RT_EOK)
        else if negb (bufsz c =? bufsz (config (serial_of dev))) && negb (ref_count dev =? 0) then Some (dev, RT_EBUSY)
        else
          let dev := on_serial dev (fun s => s <| config := c |>) in
          Some (if negb (ref_count dev =? 0)
                then set_port dev (fst (uart_configure (port (serial_of dev)) c)) else dev, RT_EOK)
    | ArgWord w => if w =? 0 then Some (dev, RT_EOK) else None
    end
  else
    let word := match args with ArgWord w => w | ArgConfig p _ => p end in
    let '(h, ret) := uart_control (port (serial_of dev)) cmd word in
    Some (set_port dev h, ret).

#[global] Instance serial_driver : Driver Serial control_arg := {
  device_init := Some rt_serial_init;
  device_open := Some rt_serial_open;
  device_close := Some rt_serial_close;
  device_read := Some rt_serial_read;
  device_write := Some rt_serial_write;
  device_control := Some rt_serial_control
}.

Definition rt_hw_serial_register (container : Z) (fuel : nat) (s : Objects) (addr : Z) (dev : Dev) (name flag : Z)
    : option (Objects * Dev * Z) :=
  let dev := dev <| rx_indicate := 0 |> in
  let dev := dev <| tx_complete := 0 |> in
  rt_device_register container fuel s addr dev name flag.

(** ** The interrupt handler *)

(** What the handler asks of the kernel when it is done with the device. *)
Inductive isr_effect := NoEffect | RxIndicate (callback size : Z) | CompletionDone.

(** [while (1) { ch = getc(serial); if (ch == -1) break; .. }] *)
Fixpoint isr_rx_loop (fuel : nat) (h : H) (bufsz : Z) (f : rt_serial_rx_fifo) : option (H * rt_serial_rx_fifo) :=
  match fuel with
  | O => None
  | S fuel =>
      let '(h, ch) := uart_getc h in
      if ch =? -1 then Some (h, f)
      else f ← rx_put bufsz f ch; isr_rx_loop fuel h bufsz f
  end.

Definition rt_hw_serial_isr (fuel : nat) (dev : Dev) (event : Z) : option (Dev * isr_effect) :=
  if Z.land event 255 =? RT_SERIAL_EVENT_RX_IND then
    '(p, f) ← serial_rx (serial_of dev);
    let bufsz := bufsz (config (serial_of dev)) in
    '(h, f) ← isr_rx_loop fuel (port (serial_of dev)) bufsz f;
    let dev := set_port dev h in
    let dev := on_serial dev (fun s => s <| serial_rx := Some (p, f) |>) in
    Some (dev, if negb (rx_indicate dev =? 0) && negb (rx_length bufsz f =? 0)
               then RxIndicate (rx_indicate dev) (rx_length bufsz f) else NoEffect)
  else if Z.land event 255 =? RT_SERIAL_EVENT_TX_DONE then
    _ ← serial_tx (serial_of dev);
    Some (dev, CompletionDone)
  else Some (dev, NoEffect).
End Port.

(** ** The receive buffer is a queue that loses its oldest byte when it is full *)

Record fifo_ok (bufsz : Z) (f : rt_serial_rx_fifo) (q : list Z) : Prop := {
  ff_size : Z.of_nat (length (buffer f)) = bufsz;
  ff_get : 0 <= get_index f < bufsz;
  ff_put : put_index f = (get_index f + Z.of_nat (length q)) mod bufsz;
  ff_len : Z.of_nat (length q) <= bufsz - 1;
  ff_full : is_full f = true -> Z.of_nat (length q) = bufsz - 1;
  ff_data : forall i c, q !! i = Some c ->
    buffer f !! Z.to_nat ((get_index f + Z.of_nat i) mod bufsz) = Some c /\ 0 <= c < 256
}.

(** The queue after a byte arrived. *)
Definition queue_put (bufsz : Z) (q : list Z) (c : Z) : list Z :=
  if Z.of_nat (length q) <? bufsz - 1 then q ++ [c] else tail q ++ [c].

Section Fifo.
Context (bufsz : Z).
Hypothesis Hb : 2 <= bufsz <= 65535.

Lemma wrap_mod x : 0 <= x < bufsz -> (if bufsz <=? x + 1 then 0 else x + 1) = (x + 1) mod bufsz.
Proof.
  intros Hx. destruct (Z.leb_spec bufsz (x + 1)).
  - replace (x + 1) with bufsz by lia. rewrite Z.mod_same; lia.
  - rewrite Z.mod_small; lia.
Qed.

Lemma mod_eq_small a n m : 0 <= n < bufsz -> 0 <= m < bufsz -> (a + n) mod bufsz = (a + m) mod bufsz -> n = m.
Proof.
  intros Hn Hm E. pose proof (Z.div_mod (a + n) bufsz ltac:(lia)) as E1. pose proof (Z.div_mod (a + m) bufsz ltac:(lia)) as E2.
  rewrite E in E1. set (x := (a + n) / bufsz) in *. set (y := (a + m) / bufsz) in *.
  assert (Exy : n - m = bufsz * (x - y)) by lia. destruct (Z.lt_trichotomy x y) as [|[->|]]; nia.
Qed.

Lemma mod_add_l a b : ((a mod bufsz) + b) mod bufsz = (a + b) mod bufsz.
Proof. apply Zplus_mod_idemp_l. Qed.

Lemma mod_ext a b : a = b -> a mod bufsz = b mod bufsz.
Proof. intros ->. reflexivity. Qed.

Lemma fresh_fifo_ok : fifo_ok bufsz (mk_rx_fifo (repeat 0 (Z.to_nat bufsz)) 0 0 false) [].
Proof.
  split; cbn [buffer get_index put_index is_full length]; try lia; try discriminate.
  - rewrite repeat_length. lia.
  - rewrite Z.mod_small; lia.
Qed.

Lemma rx_take_spec f q : fifo_ok bufsz f q ->
  match q with
  | [] => rx_take bufsz f = Some (f, None)
  | c :: q => exists f', rx_take bufsz f = Some (f', Some c) /\ fifo_ok bufsz f' q
  end.
Proof.
  intros [Hs Hg Hp Hl Hf Hd]. unfold rx_take. destruct q as [|c q]; cbn [length] in *.
  - rewrite Z.add_0_r, Z.mod_small in Hp by lia. rewrite Hp, Z.eqb_refl.
    destruct (is_full f); [specialize (Hf eq_refl); lia | reflexivity].
  - assert (Hne : get_index f <> put_index f).
    { rewrite Hp. intros E. rewrite <- (Z.mod_small (get_index f) bufsz) in E at 1 by lia.
      replace (get_index f) with (get_index f + 0) in E at 1 by lia. apply mod_eq_small in E; lia. }
    destruct (Z.eqb_spec (get_index f) (put_index f)); [contradiction|]. cbn [andb].
    destruct (Hd 0%nat c eq_refl) as [Hc Hr]. rewrite Z.add_0_r, Z.mod_small in Hc by lia.
    unfold buf_get. destruct (Z.leb_spec 0 (get_index f)); [|lia]. rewrite Hc. cbn [mbind option_bind].
    change 255 with (Z.ones 8). rewrite Z.land_ones, Z.mod_small by lia.
    eexists. split; [reflexivity|]. cbn [modify get_index]. rewrite u16_small by lia.
    set (g := get_index f) in *.
    assert (Eg : forall x, get_index (let f0 := if bufsz <=? g + 1 then x <| get_index := 0 |> else x in
        if is_full f0 then f0 <| is_full := false |> else f0) = if bufsz <=? g + 1 then 0 else get_index x).
    { intros [xb xp xg []]; cbv zeta; destruct (bufsz <=? g + 1); reflexivity. }
    cbv zeta in Eg. set (f1 := f <| get_index := g + 1 |>) in *.
    change (get_index f1) with (g + 1).
    set (f' := if is_full _ then _ else _).
    assert (E1 : get_index f' = (g + 1) mod bufsz) by (rewrite <- wrap_mod by lia; apply (Eg f1)).
    assert (E2 : put_index f' = put_index f /\ buffer f' = buffer f /\ is_full f' = false).
    { unfold f'. destruct (bufsz <=? g + 1); cbn; destruct (is_full f) eqn:Ef; cbn; rewrite ?Ef; auto. }
    destruct E2 as (E2 & E3 & E4). clearbody f'.
    split; rewrite ?E1, ?E2, ?E3, ?E4; try discriminate; try lia.
    + apply Z.mod_pos_bound. lia.
    + rewrite Hp, mod_add_l. apply mod_ext. lia.
    + intros i x Hi. destruct (Hd (S i) x Hi) as [H1 H2]. split; [|exact H2]. rewrite mod_add_l, <- H1. f_equal. f_equal. apply mod_ext. lia.
Qed.

Lemma rx_put_spec f q ch : fifo_ok bufsz f q ->
  exists f', rx_put bufsz f ch = Some f' /\ fifo_ok bufsz f' (queue_put bufsz q (u8 ch)).
Proof.
  intros [Hs Hg Hp Hl Hf Hd]. unfold rx_put.
  assert (Rp : 0 <= put_index f < bufsz) by (rewrite Hp; apply Z.mod_pos_bound; lia).
  rewrite buf_set_Some by lia. cbn [mbind option_bind]. cbn [modify put_index]. rewrite u16_small by lia.
  set (b := <[Z.to_nat (put_index f) := u8 ch]> (buffer f)).
  set (p := put_index f) in *. set (g := get_index f) in *.
  set (f1 := f <| buffer := b |> <| put_index := p + 1 |>).
  change (put_index f1) with (p + 1).
  set (f2 := if bufsz <=? p + 1 then f1 <| put_index := 0 |> else f1).
  assert (F2 : put_index f2 = (p + 1) mod bufsz /\ get_index f2 = g /\ buffer f2 = b /\ is_full f2 = is_full f).
  { rewrite <- wrap_mod by lia. unfold f2. destruct (bufsz <=? p + 1); auto. }
  destruct F2 as (P2 & G2 & B2 & I2). clearbody f2.
  assert (Hold : forall i x, q !! i = Some x -> b !! Z.to_nat ((g + Z.of_nat i) mod bufsz) = Some x /\ 0 <= x < 256).
  { intros i x Hi. destruct (Hd i x Hi) as [H1 H2]. split; [|exact H2]. pose proof (lookup_lt_Some _ _ _ Hi).
    unfold b. rewrite list_lookup_insert_ne; [exact H1|]. intros E.
    assert (E' : p = (g + Z.of_nat i) mod bufsz).
    { pose proof (Z.mod_pos_bound (g + Z.of_nat i) bufsz). lia. }
    rewrite Hp in E'. apply mod_eq_small in E'; lia. }
  assert (Hnew : b !! Z.to_nat p = Some (u8 ch)) by (apply list_lookup_insert_eq; lia).
  rewrite P2, G2. unfold queue_put. destruct (Z.ltb_spec (Z.of_nat (length q)) (bufsz - 1)) as [Hlt|Hge].
  - destruct (Z.eqb_spec ((p + 1) mod bufsz) g) as [E|_].
    { exfalso. assert (E' : (g + (Z.of_nat (length q) + 1)) mod bufsz = (g + 0) mod bufsz).
      { rewrite Z.add_0_r, (Z.mod_small g) by lia. transitivity ((p + 1) mod bufsz); [|exact E].
        rewrite Hp, mod_add_l. apply mod_ext. lia. }
      apply mod_eq_small in E'; lia. }
    eexists. split; [reflexivity|].
    split; rewrite ?G2, ?P2, ?B2, ?I2, ?length_app; cbn [length]; try lia.
    + unfold b. rewrite length_insert. exact Hs.
    + rewrite Hp, mod_add_l. apply mod_ext. lia.
    + intros Hfl. specialize (Hf Hfl). lia.
    + intros i x Hi. apply lookup_app_Some in Hi as [Hi|[Hi1 Hi2]]; [auto|].
      destruct (i - length q)%nat eqn:Ei; [|discriminate]. cbn in Hi2. injection Hi2 as <-.
      replace i with (length q) by lia. rewrite <- Hp. split; [exact Hnew | apply u8_range].
  - assert (Elen : Z.of_nat (length q) = bufsz - 1) by lia.
    destruct (Z.eqb_spec ((p + 1) mod bufsz) g) as [_|Hne].
    2:{ exfalso. apply Hne. rewrite Hp, mod_add_l, Elen. replace (g + (bufsz - 1) + 1) with (g + 1 * bufsz) by lia.
        rewrite Z.mod_add by lia. apply Z.mod_small; lia. }
    eexists. split; [reflexivity|]. cbn [modify get_index]. rewrite u16_small by lia.
    set (f3 := f2 <| get_index := g + 1 |> <| is_full := true |>).
    change (get_index f3) with (g + 1).
    set (f4 := if bufsz <=? g + 1 then f3 <| get_index := 0 |> else f3).
    assert (F4 : put_index f4 = (p + 1) mod bufsz /\ get_index f4 = (g + 1) mod bufsz /\ buffer f4 = b).
    { rewrite <- (wrap_mod g) by lia. unfold f4. destruct (bufsz <=? g + 1); rewrite <- P2, <- B2; auto. }
    destruct F4 as (P4 & G4 & B4). clearbody f4. destruct q as [|c0 q]; cbn [length tail] in *; [lia|].
    split; rewrite ?G4, ?P4, ?B4, ?length_app; cbn [length]; try lia.
    + unfold b. rewrite length_insert. exact Hs.
    + apply Z.mod_pos_bound. lia.
    + rewrite Hp, !mod_add_l. apply mod_ext. lia.
    + intros i x Hi. rewrite mod_add_l. apply lookup_app_Some in Hi as [Hi|[Hi1 Hi2]].
      * destruct (Hold (S i) x Hi) as [H1 H2]. split; [|exact H2]. rewrite <- H1. f_equal. f_equal. apply mod_ext. lia.
      * destruct (i - length q)%nat eqn:Ei; [|discriminate]. cbn in Hi2. injection Hi2 as <-.
        split; [|apply u8_range]. rewrite <- Hnew, Hp. f_equal. f_equal. apply mod_ext. lia.
Qed.

Lemma rx_length_spec f q : fifo_ok bufsz f q -> rx_length bufsz f = Z.of_nat (length q).
Proof.
  intros [Hs Hg Hp Hl Hf Hd]. unfold rx_length. rewrite Hp.
  destruct (Z.lt_ge_cases (get_index f + Z.of_nat (length q)) bufsz) as [Hlt|Hge].
  - rewrite Z.mod_small by lia. destruct (Z.leb_spec (get_index f) (get_index f + Z.of_nat (length q))); lia.
  - assert (E : (get_index f + Z.of_nat (length q)) mod bufsz = get_index f + Z.of_nat (length q) - bufsz).
    { replace (get_index f + Z.of_nat (length q)) with (get_index f + Z.of_nat (length q) - bufsz + 1 * bufsz) by lia.
      rewrite Z.mod_add by lia. rewrite Z.mod_small by lia. lia. }
    rewrite E. destruct (Z.leb_spec (get_index f) (get_index f + Z.of_nat (length q) - bufsz)); [lia|].
    rewrite u32_small by lia. lia.
Qed.
End Fifo.
