(* ===== verification/SerialUse.v ===== *)
(** * A serial device in use

    Readers, writers, interrupts, hardware and the other clients of the heap all act
    on one serial device.  The receiving side of the port is the class [RxPort]: what
    the port has received and not yet handed out.  Everybody who opens the device asks
    for interrupt reception and polled transmission, as the application does, or, as the
    console does before, for polling both ways. *)

From S2P Require Import Prelude Memory Kservice Blocks Mem Heap Strings LinkedList Object Device Serial.

(** ** Flag bits *)

Lemma has_bit flags k : 0 <= k -> has flags (2 ^ k) = Z.testbit flags k.
Proof.
  intros Hk. unfold has. destruct (Z.testbit flags k) eqn:E.
  - destruct (Z.eqb_spec (Z.land flags (2 ^ k)) 0) as [H|]; [|reflexivity].
    assert (Hb : Z.testbit (Z.land flags (2 ^ k)) k = true) by (rewrite Z.land_spec, E, Z.pow2_bits_true by exact Hk; reflexivity).
    rewrite H, Z.bits_0 in Hb. discriminate.
  - destruct (Z.eqb_spec (Z.land flags (2 ^ k)) 0) as [|H]; [reflexivity|]. exfalso. apply H, Z.bits_inj'. intros n Hn.
    rewrite Z.land_spec, Z.bits_0. destruct (decide (n = k)) as [->|]; [rewrite E; reflexivity|].
    rewrite Z.pow2_bits_false by lia. apply andb_false_r.
Qed.

Lemma u16_bit x k : 0 <= k < 16 -> Z.testbit (u16 x) k = Z.testbit x k.
Proof. intros Hk. unfold u16. change 65536 with (2 ^ 16). apply Z.mod_pow2_bits_low; lia. Qed.

Definition bit (flags : Z) (k : Z) : bool := Z.testbit flags k.

Lemma bit_lor a b k : bit (Z.lor a b) k = bit a k || bit b k.
Proof. apply Z.lor_spec. Qed.

Lemma bit_land a b k : bit (Z.land a b) k = bit a k && bit b k.
Proof. apply Z.land_spec. Qed.

(** ** The queue *)

(** Only the newest [n] of some bytes. *)
Definition newest (n : Z) (l : list Z) : list Z := drop (length l - Z.to_nat n) l.

Lemma newest_short n l : Z.of_nat (length l) <= n -> newest n l = l.
Proof. intros H. unfold newest. replace (length l - Z.to_nat n)%nat with 0%nat by lia. reflexivity. Qed.

Lemma newest_length n l : 0 <= n -> Z.of_nat (length (newest n l)) <= n.
Proof. intros H. unfold newest. rewrite length_drop. lia. Qed.

Lemma queue_put_newest bufsz q c : 2 <= bufsz -> Z.of_nat (length q) <= bufsz - 1 -> queue_put bufsz q c = newest (bufsz - 1) (q ++ [c]).
Proof.
  intros Hb Hq. unfold queue_put, newest. rewrite length_app. cbn [length].
  destruct (Z.ltb_spec (Z.of_nat (length q)) (bufsz - 1)).
  - replace (length q + 1 - _)%nat with 0%nat by lia. reflexivity.
  - replace (length q + 1 - _)%nat with 1%nat by lia. destruct q; [cbn in *; lia | reflexivity].
Qed.

Lemma newest_app n l r : 0 <= n -> newest n (newest n l ++ r) = newest n (l ++ r).
Proof.
  intros Hn. unfold newest. rewrite !length_app, length_drop.
  destruct (le_lt_dec (length l) (Z.to_nat n)) as [H|H].
  - replace (length l - Z.to_nat n)%nat with 0%nat by lia. rewrite drop_0. f_equal. lia.
  - rewrite <- (drop_app_le l r (length l - Z.to_nat n)) by lia. rewrite drop_drop. f_equal. lia.
Qed.

(** ** The port *)

Class RxPort (H : Type) `{UartOps H} := {
  pending : H -> list Z;
  getc_empty h : pending h = [] -> exists h', uart_getc h = (h', -1);
  getc_next h c r : pending h = c :: r -> exists h', uart_getc h = (h', c) /\ pending h' = r /\ 0 <= c < 256
}.

Section Use.
Context {H : Type} {Ops : UartOps H} {Port : RxPort H}.
Abbreviation Dev := (SerialDevice H).

Definition cfg_bufsz (dev : Dev) : Z := bufsz (config (serial_of dev)).
Definition dev_heap (dev : Dev) : Heap := sys_heap (serial_of dev).

(** The blocks the device owns. *)
Definition buffers (dev : Dev) : Live :=
  match serial_rx (serial_of dev) with Some (p, _) => {[ p := sizeof_rx_fifo + cfg_bufsz dev ]} | None => ∅ end.

(** There is a receive buffer. *)
Definition listening (dev : Dev) : bool := match serial_rx (serial_of dev) with Some _ => true | None => false end.

(** How the application opens the device, and how the console does. *)
Definition int_rx_poll_tx (oflag : Z) : Prop :=
  bit oflag 8 = true /\ bit oflag 9 = false /\ bit oflag 10 = false /\ bit oflag 11 = false.
Definition polled_both (oflag : Z) : Prop :=
  bit oflag 8 = false /\ bit oflag 9 = false /\ bit oflag 10 = false /\ bit oflag 11 = false.

(** The device with the blocks of the other heap clients and the bytes received and not yet read. *)
Abbreviation use := (Dev * Live * list Z)%type.

Inductive serial_step : use -> use -> Prop :=
| use_init dev ol q dev' e :
    rt_device_init dev = Some (dev', e) -> serial_step (dev, ol, q) (dev', ol, q)
| use_open dev ol q oflag dev' e :
    int_rx_poll_tx oflag -> rt_device_open dev oflag = Some (dev', e) -> serial_step (dev, ol, q) (dev', ol, q)
| use_console dev ol q oflag dev' e :
    polled_both oflag -> listening dev = false -> rt_device_open dev oflag = Some (dev', e) -> serial_step (dev, ol, q) (dev', ol, q)
| use_close dev ol q dev' e :
    rt_device_close dev = Some (dev', e) -> serial_step (dev, ol, q) (dev', ol, if ref_count dev' =? 0 then [] else q)
| use_read dev ol q errno pos n e dev' bytes :
    rt_device_read errno dev pos n = Some (e, dev', bytes) ->
    serial_step (dev, ol, q) (dev', ol, drop (length bytes) q)
| use_write dev ol q errno pos data e dev' r :
    rt_device_write errno dev pos data = Some (e, dev', r) -> serial_step (dev, ol, q) (dev', ol, q)
| use_control dev ol q cmd arg dev' e :
    match arg with ArgConfig _ c => 2 <= bufsz c <= 65535 | ArgWord _ => True end ->
    rt_device_control dev cmd arg = Some (dev', e) -> serial_step (dev, ol, q) (dev', ol, q)
| use_set_rx_indicate dev ol q cb dev' e :
    rt_device_set_rx_indicate dev cb = Some (dev', e) -> serial_step (dev, ol, q) (dev', ol, q)
| use_set_tx_complete dev ol q cb dev' e :
    rt_device_set_tx_complete dev cb = Some (dev', e) -> serial_step (dev, ol, q) (dev', ol, q)
| use_isr dev ol q fuel dev' eff :
    (length (pending (port (serial_of dev))) < fuel)%nat ->
    rt_hw_serial_isr fuel dev RT_SERIAL_EVENT_RX_IND = Some (dev', eff) ->
    serial_step (dev, ol, q) (dev', ol, newest (cfg_bufsz dev - 1) (q ++ pending (port (serial_of dev))))
| use_hardware dev ol q h :
    serial_step (dev, ol, q) (set_port dev h, ol, q)
| use_heap dev ol q h' ol' :
    client_step (dev_heap dev, buffers dev ∪ ol) (h', buffers dev ∪ ol') -> buffers dev ##ₘ ol' ->
    serial_step (dev, ol, q) (on_serial dev (fun s => s <| sys_heap := h' |>), ol', q).

Definition serial_reach : use -> use -> Prop := rtc serial_step.

(** ** The invariant *)

Record serial_ok (u : use) : Prop := {
  su_class : object_class u.1.1 = RT_Object_Class_Device;
  su_heap : heap_good (dev_heap u.1.1) (buffers u.1.1 ∪ u.1.2);
  su_apart : buffers u.1.1 ##ₘ u.1.2;
  su_bufsz : 2 <= cfg_bufsz u.1.1 <= 65535;
  su_flag : bit (dev_flag u.1.1) 8 = true /\ bit (dev_flag u.1.1) 3 = false;
  su_ref : 0 <= ref_count u.1.1 < 256;
  su_tx : serial_tx (serial_of u.1.1) = None /\ bit (open_flag u.1.1) 10 = false;
  su_active : ref_count u.1.1 <> 0 -> activated u.1.1 = true;
  su_rx : match serial_rx (serial_of u.1.1) with
    | None => u.2 = [] /\ bit (open_flag u.1.1) 8 = false
    | Some (p, f) => ref_count u.1.1 <> 0 /\ bit (open_flag u.1.1) 8 = true /\ fifo_ok (cfg_bufsz u.1.1) f u.2
    end
}.

(** A change of the port, of the call backs and of unrelated flags keeps the invariant. *)
Lemma serial_ok_ext dev dev' ol q :
  serial_ok (dev, ol, q) -> object_class dev' = object_class dev -> ref_count dev' = ref_count dev ->
  bit (dev_flag dev') 8 = bit (dev_flag dev) 8 -> bit (dev_flag dev') 3 = bit (dev_flag dev) 3 ->
  (activated dev = true -> activated dev' = true) -> open_flag dev' = open_flag dev ->
  cfg_bufsz dev' = cfg_bufsz dev -> dev_heap dev' = dev_heap dev ->
  serial_rx (serial_of dev') = serial_rx (serial_of dev) -> serial_tx (serial_of dev') = serial_tx (serial_of dev) ->
  serial_ok (dev', ol, q).
Proof.
  intros [H1 H2 H3 H4 H5 H6 H7 H8 H9] E1 E2 E3 E4 E5 E6 E7 E8 E9 E10.
  cbn [fst snd] in *.
  assert (Eb : buffers dev' = buffers dev) by (unfold buffers; rewrite E9, E7; reflexivity).
  split; cbn [fst snd]; rewrite ?E1, ?E2, ?E3, ?E4, ?E6, ?E7, ?E8, ?E9, ?E10, ?Eb; auto.
Qed.

Ltac same_serial := eapply serial_ok_ext; [eassumption | ..]; auto.

Lemma activated_bit (dev : Dev) : activated dev = bit (dev_flag dev) 4.
Proof. apply (has_bit (dev_flag dev) 4). lia. Qed.

Lemma open_init_spec dev ol q : serial_ok (dev, ol, q) ->
  exists dev' e, open_init dev = Some (dev', e) /\ serial_ok (dev', ol, q) /\ ref_count dev' = ref_count dev /\
    dev_heap dev' = dev_heap dev /\ cfg_bufsz dev' = cfg_bufsz dev /\ open_flag dev' = open_flag dev /\ listening dev' = listening dev /\
    (e = RT_EOK -> activated dev' = true) /\
    (activated dev = true \/ (uart_configure (port (serial_of dev)) (config (serial_of dev))).2 = RT_EOK -> e = RT_EOK).
Proof.
  intros Hok. unfold open_init. destruct (activated dev) eqn:Ea.
  { exists dev, RT_EOK. split_ands; auto. }
  pose proof Hok as [H1 H2 H3 H4 H5 H6 H7 Hact H8]. cbn [fst snd] in *.
  assert (Er : ref_count dev = 0) by (destruct (Z.eq_dec (ref_count dev) 0); [assumption | rewrite Hact in Ea by assumption; discriminate]).
  assert (Erx : serial_rx (serial_of dev) = None) by (destruct (serial_rx (serial_of dev)) as [[? ?]|]; [destruct H8; contradiction | reflexivity]).
  rewrite Erx in H8. destruct H8 as [-> H8]. destruct H7 as [H7 H7'].
  assert (El : listening dev = false) by (unfold listening; rewrite Erx; reflexivity).
  unfold device_init, serial_driver, rt_serial_init. cbv zeta.
  change (config (serial_of (on_serial (on_serial dev _) _))) with (config (serial_of dev)).
  change (port (serial_of (on_serial (on_serial dev _) _))) with (port (serial_of dev)).
  destruct (uart_configure _ _) as [h e]. cbn [mbind option_bind snd].
  set (dev1 := set_port _ h).
  assert (Hok1 : serial_ok (dev1, ol, [])) by same_serial.
  destruct (Z.eqb_spec e RT_EOK) as [->|Hne]; cbn [negb].
  - assert (Ea1 : activated (set_activated dev1) = true).
    { rewrite activated_bit. unfold set_activated. change (dev_flag (dev1 <| dev_flag := ?x |>)) with x. rewrite bit_lor. apply orb_true_r. }
    exists (set_activated dev1), RT_EOK. split_ands; auto.
    eapply serial_ok_ext; [exact Hok1 | ..]; try reflexivity; [ | | auto];
      unfold set_activated; change (dev_flag (dev1 <| dev_flag := ?x |>)) with x; rewrite bit_lor; apply orb_false_r.
  - exists dev1, e. split_ands; auto; try contradiction; try (intros [E|E]; congruence).
Qed.

Lemma open_init_keeps dev dev' e : open_init dev = Some (dev', e) ->
  rx_indicate dev' = rx_indicate dev /\ config (serial_of dev') = config (serial_of dev).
Proof.
  unfold open_init. destruct (activated dev); [intros [= <- _]; auto|]. unfold device_init, serial_driver, rt_serial_init.
  cbv zeta. destruct (uart_configure _ _) as [h1 r]. cbn [mbind option_bind].
  destruct (negb (r =? RT_EOK)); intros [= <- _]; split; reflexivity.
Qed.

Lemma has_int_rx f : has f RT_DEVICE_FLAG_INT_RX = bit f 8. Proof. apply (has_bit f 8). lia. Qed.
Lemma has_dma_rx f : has f RT_DEVICE_FLAG_DMA_RX = bit f 9. Proof. apply (has_bit f 9). lia. Qed.
Lemma has_int_tx f : has f RT_DEVICE_FLAG_INT_TX = bit f 10. Proof. apply (has_bit f 10). lia. Qed.
Lemma has_dma_tx f : has f RT_DEVICE_FLAG_DMA_TX = bit f 11. Proof. apply (has_bit f 11). lia. Qed.
Lemma standalone_bit f : negb (Z.land f RT_DEVICE_FLAG_STANDALONE =? 0) = bit f 3. Proof. apply (has_bit f 3). lia. Qed.

(** The first opening allocates the receive buffer, the others only set the flag. *)
Lemma open_rx_spec dev ol q oflag :
  serial_ok (dev, ol, q) -> activated dev = true -> bit oflag 8 = true ->
  match open_rx (dev <| open_flag := Z.land oflag 255 |>) oflag with
  | Some dev' => heap_good (dev_heap dev') (buffers dev' ∪ ol) /\ buffers dev' ##ₘ ol /\
      (exists p f, serial_rx (serial_of dev') = Some (p, f) /\ fifo_ok (cfg_bufsz dev) f q) /\
      open_flag dev' = Z.lor (Z.land oflag 255) RT_DEVICE_FLAG_INT_RX /\
      object_class dev' = object_class dev /\ ref_count dev' = ref_count dev /\ dev_flag dev' = dev_flag dev /\
      cfg_bufsz dev' = cfg_bufsz dev /\ serial_tx (serial_of dev') = serial_tx (serial_of dev)
  | None => listening dev = false /\ rt_malloc 0 (dev_heap dev) (sizeof_rx_fifo + cfg_bufsz dev) = Some (dev_heap dev, 0)
  end.
Proof.
  intros [H1 H2 H3 H4 H5 H6 H7 _ H8] Ha Ho. cbn [fst snd] in *. unfold open_rx.
  change (serial_of (dev <| open_flag := _ |>)) with (serial_of dev). rewrite has_int_rx, Ho.
  destruct (serial_rx (serial_of dev)) as [[p f]|] eqn:Erx.
  - destruct H8 as (_ & _ & Hf). split_ands; auto. exists p, f. auto.
  - destruct H8 as [-> _]. assert (Eb : buffers dev = ∅) by (unfold buffers; rewrite Erx; reflexivity).
    rewrite Eb, map_empty_union in H2. cbv zeta.
    destruct (client_malloc _ _ (sizeof_rx_fifo + cfg_bufsz dev) H2) as [E|(h' & p & E & Hp & Hnew & Hg & _)];
      [unfold sizeof_rx_fifo, SIZE_LIMIT; lia | |]; fold (cfg_bufsz dev); fold (dev_heap dev); rewrite E; cbn [mbind option_bind].
    + cbn [Z.eqb]. split; [unfold listening; rewrite Erx; reflexivity | reflexivity].
    + destruct (Z.eqb_spec p 0); [lia|]. set (dev' := control_port _ _ _).
      assert (Eb' : buffers dev' = {[ p := sizeof_rx_fifo + cfg_bufsz dev ]}) by reflexivity.
      rewrite Eb', <- insert_union_singleton_l.
      split_ands; try reflexivity; [exact Hg | apply map_disjoint_singleton_l; exact Hnew |].
      exists p. eexists. split; [reflexivity|]. apply fresh_fifo_ok. exact H4.
Qed.

Lemma open_spec dev ol q oflag :
  serial_ok (dev, ol, q) -> int_rx_poll_tx oflag ->
  match rt_device_open dev oflag with
  | Some (dev', e) => serial_ok (dev', ol, q) /\ ref_count dev' = (if e =? RT_EOK then ref_count dev + 1 else ref_count dev) /\
      (activated dev = true \/ (uart_configure (port (serial_of dev)) (config (serial_of dev))).2 = RT_EOK -> e = RT_EOK) /\
      (e = RT_EOK -> listening dev' = true)
  | None => ref_count dev = 255 \/
      listening dev = false /\ rt_malloc 0 (dev_heap dev) (sizeof_rx_fifo + cfg_bufsz dev) = Some (dev_heap dev, 0)
  end.
Proof.
  intros Hok (O8 & O9 & O10 & O11). unfold rt_device_open. pose proof (su_class _ Hok) as Hc. cbn [fst] in Hc.
  rewrite Hc, Z.eqb_refl. cbn [negb].
  destruct (open_init_spec _ _ _ Hok) as (dev1 & e & -> & Hok1 & Er & Eh & Ecf & Eo & El & Hact & He). cbn [mbind option_bind].
  rewrite <- Eh, <- Ecf, <- Er, <- El.
  destruct (Z.eqb_spec e RT_EOK) as [->|Hne]; cbn [negb].
  2:{ split_ands; auto; try contradiction. destruct (Z.eqb_spec e RT_EOK); [contradiction | reflexivity]. }
  pose proof Hok1 as [H1 H2 H3 H4 H5 H6 H7 _ H8]. cbn [fst snd] in *. destruct H5 as [F8 F3], H7 as [T1 T2].
  rewrite standalone_bit, F3. cbn [andb]. unfold device_open, serial_driver, rt_serial_open.
  rewrite !has_dma_rx, !has_dma_tx, !has_int_rx, !has_int_tx, O8, O9, O10, O11, F8. cbn [andb negb]. cbv zeta.
  pose proof (open_rx_spec dev1 ol q oflag Hok1 (Hact eq_refl) O8) as Hrx.
  destruct (open_rx _ oflag) as [dev2|]; cbn [mbind option_bind]; [|auto].
  destruct Hrx as (R1 & R2 & (p & f & R3 & R4) & R5 & R6 & R7 & R8 & R9 & R10).
  unfold open_tx. rewrite R10, T1, has_int_tx, O10. cbn [mbind option_bind].
  set (st := if _ || _ then RT_DEVICE_FLAG_STREAM else 0).
  assert (Hst : bit st 8 = false /\ bit st 10 = false) by (unfold st; destruct (_ || _); auto). destruct Hst as [S8 S10]. clearbody st.
  cbn [Z.eqb RT_EOK orb]. set (fl := Z.lor (Z.lor (open_flag dev2) st) RT_DEVICE_OFLAG_OPEN).
  assert (G8 : bit fl 8 = true) by (unfold fl; rewrite !bit_lor, R5, bit_lor; apply orb_true_iff; left; rewrite orb_true_r; reflexivity).
  assert (G10 : bit fl 10 = false).
  { unfold fl. rewrite !bit_lor, R5, bit_lor, bit_land, S10. change (bit 255 10) with false. rewrite andb_false_r. reflexivity. }
  cbn -[bit u8 fl]. fold fl. rewrite R7.
  destruct (Z.eqb_spec (u8 (ref_count dev1 + 1)) 0) as [E0|E0]; cbn [negb].
  { left. unfold u8 in E0. destruct (Z.eq_dec (ref_count dev1) 255); [assumption|]. rewrite Z.mod_small in E0; lia. }
  assert (Hlt : ref_count dev1 + 1 < 256).
  { destruct (Z.eq_dec (ref_count dev1) 255) as [E|]; [rewrite E in E0; destruct E0; reflexivity | lia]. }
  rewrite u8_small by lia. assert (El2 : listening dev2 = true) by (unfold listening; rewrite R3; reflexivity). split; [|auto].
  match goal with |- serial_ok (?d, _, _) => set (dev3 := d) end.
  assert (E1 : object_class dev3 = object_class dev2) by reflexivity. assert (E2 : dev_flag dev3 = dev_flag dev2) by reflexivity.
  assert (E3 : serial_of dev3 = serial_of dev2) by reflexivity. assert (E4 : open_flag dev3 = fl) by reflexivity.
  assert (E5 : ref_count dev3 = ref_count dev1 + 1) by reflexivity. clearbody dev3.
  split; cbn [fst snd]; unfold buffers, dev_heap, cfg_bufsz, activated in *; rewrite ?E1, ?E2, ?E3, ?E4, ?E5; auto; rewrite ?R6, ?R8, ?R9, ?R10; auto; try lia.
  rewrite R3. split_ands; auto. lia.
Qed.

(** The console's opening before anybody listens. *)
Lemma console_spec dev ol q oflag :
  serial_ok (dev, ol, q) -> polled_both oflag -> listening dev = false ->
  match rt_device_open dev oflag with
  | Some (dev', e) => serial_ok (dev', ol, q) /\ listening dev' = false /\ config (serial_of dev') = config (serial_of dev) /\
      rx_indicate dev' = rx_indicate dev /\ dev_heap dev' = dev_heap dev /\
      ref_count dev' = (if e =? RT_EOK then ref_count dev + 1 else ref_count dev) /\
      (activated dev = true \/ (uart_configure (port (serial_of dev)) (config (serial_of dev))).2 = RT_EOK -> e = RT_EOK)
  | None => ref_count dev = 255
  end.
Proof.
  intros Hok (O8 & O9 & O10 & O11) Hl. unfold rt_device_open. pose proof (su_class _ Hok) as Hc. cbn [fst] in Hc.
  rewrite Hc, Z.eqb_refl. cbn [negb].
  destruct (open_init_spec _ _ _ Hok) as (dev1 & e & E & Hok1 & Er & Eh & Ecf & Eo & El & Hact & He).
  assert (Ei : rx_indicate dev1 = rx_indicate dev /\ config (serial_of dev1) = config (serial_of dev)) by apply (open_init_keeps _ _ _ E).
  destruct Ei as [Ei Ec]. rewrite E. cbn [mbind option_bind].
  destruct (Z.eqb_spec e RT_EOK) as [->|Hne]; cbn [negb].
  2:{ destruct (Z.eqb_spec e RT_EOK); [contradiction|]. split_ands; auto. congruence. }
  rewrite <- El in Hl. unfold listening in Hl. destruct (serial_rx (serial_of dev1)) as [[? ?]|] eqn:Erx; [discriminate|].
  pose proof Hok1 as [H1 H2 H3 H4 H5 H6 H7 H8 H9]. cbn [fst snd] in *. rewrite Erx in H9. destruct H5 as [F8 F3], H7 as [T1 T2], H9 as [-> _].
  rewrite standalone_bit, F3. cbn [andb]. unfold device_open, serial_driver, rt_serial_open.
  rewrite !has_dma_rx, !has_dma_tx, !has_int_rx, !has_int_tx, O8, O9, O10, O11. cbn [andb negb]. cbv zeta.
  unfold open_rx. change (serial_of (dev1 <| open_flag := ?x |>)) with (serial_of dev1). rewrite Erx, has_int_rx, O8.
  cbn [mbind option_bind]. unfold open_tx. change (serial_of (dev1 <| open_flag := ?x |>)) with (serial_of dev1).
  rewrite T1, has_int_tx, O10. cbn [mbind option_bind].
  set (st := if _ || _ then RT_DEVICE_FLAG_STREAM else 0).
  assert (Hst : bit st 8 = false /\ bit st 10 = false) by (unfold st; destruct (_ || _); auto). destruct Hst as [S8 S10]. clearbody st.
  cbn [Z.eqb RT_EOK orb]. set (fl := Z.lor (Z.lor (Z.land oflag 255) st) RT_DEVICE_OFLAG_OPEN).
  assert (Hfl : bit fl 8 = false /\ bit fl 10 = false).
  { unfold fl. rewrite !bit_lor, !bit_land, S8, S10. change (bit 255 8) with false. change (bit 255 10) with false. rewrite !andb_false_r. auto. }
  cbn -[bit u8 fl]. fold fl. rewrite <- Er.
  destruct (Z.eqb_spec (u8 (ref_count dev1 + 1)) 0) as [E0|E0]; cbn [negb].
  { unfold u8 in E0. destruct (Z.eq_dec (ref_count dev1) 255); [assumption|]. rewrite Z.mod_small in E0; lia. }
  assert (Hlt : ref_count dev1 + 1 < 256).
  { destruct (Z.eq_dec (ref_count dev1) 255) as [E9|]; [rewrite E9 in E0; destruct E0; reflexivity | lia]. }
  rewrite u8_small by lia. match goal with |- serial_ok (?d, _, _) /\ _ => set (dev3 := d) end.
  assert (E3 : serial_of dev3 = serial_of dev1) by reflexivity. assert (E4 : open_flag dev3 = fl) by reflexivity.
  assert (E5 : ref_count dev3 = ref_count dev1 + 1) by reflexivity. assert (E6 : dev_flag dev3 = dev_flag dev1) by reflexivity.
  assert (E7 : object_class dev3 = object_class dev1) by reflexivity. assert (E8 : rx_indicate dev3 = rx_indicate dev1) by reflexivity. clearbody dev3.
  assert (Eb : buffers dev3 = buffers dev1) by (unfold buffers, cfg_bufsz; rewrite E3; reflexivity).
  split; [|unfold listening, dev_heap; rewrite E3, Erx; split_ands; auto; congruence].
  split; cbn [fst snd]; unfold dev_heap, cfg_bufsz, activated in *; rewrite ?Eb, ?E3, ?E4, ?E5, ?E6, ?E7, ?Erx; auto; lia || tauto.
Qed.

(** The last closing releases the buffer. *)
Lemma close_rx_spec dev ol p f :
  bit (open_flag dev) 8 = true -> bit (open_flag dev) 10 = false -> serial_rx (serial_of dev) = Some (p, f) ->
  heap_good (dev_heap dev) (buffers dev ∪ ol) -> buffers dev ##ₘ ol ->
  exists dev', close_rx dev = Some dev' /\ serial_rx (serial_of dev') = None /\ heap_good (dev_heap dev') ol /\
    bit (open_flag dev') 10 = false /\ object_class dev' = object_class dev /\ ref_count dev' = ref_count dev /\
    dev_flag dev' = dev_flag dev /\ cfg_bufsz dev' = cfg_bufsz dev /\
    serial_tx (serial_of dev') = serial_tx (serial_of dev).
Proof.
  intros F8 F10 Erx Hg Hd. unfold close_rx. rewrite has_int_rx, F8, Erx. cbn [mbind option_bind].
  assert (Eb : buffers dev = {[ p := sizeof_rx_fifo + cfg_bufsz dev ]}) by (unfold buffers; rewrite Erx; reflexivity).
  rewrite Eb in Hg, Hd. apply map_disjoint_singleton_l in Hd.
  destruct (client_free (dev_heap dev) _ p (sizeof_rx_fifo + cfg_bufsz dev) Hg) as (h' & E & Hg' & _);
    [apply lookup_union_Some_l, lookup_singleton_eq|].
  rewrite delete_union, delete_singleton_eq, map_empty_union, delete_id in Hg' by exact Hd.
  unfold dev_heap in E. rewrite E. cbn [mbind option_bind]. eexists. split; [reflexivity|].
  split_ands; try reflexivity; [exact Hg'|].
  unfold control_port, clear_open_flag. change (open_flag (set_port ?x _)) with (open_flag x).
  change (open_flag (?x <| open_flag := ?y |>)) with y. unfold bit. rewrite u16_bit, Z.land_spec by lia.
  change (Z.testbit (open_flag dev) 10 && Z.testbit (Z.lnot RT_DEVICE_FLAG_INT_RX) 10 = false).
  unfold bit in F10. rewrite F10. reflexivity.
Qed.

Lemma close_rx_none (dev : Dev) : bit (open_flag dev) 8 = false -> close_rx dev = Some dev.
Proof. intros F8. unfold close_rx. rewrite has_int_rx, F8. reflexivity. Qed.

Lemma close_spec dev ol q :
  serial_ok (dev, ol, q) ->
  exists dev' e, rt_device_close dev = Some (dev', e) /\ serial_ok (dev', ol, if ref_count dev' =? 0 then [] else q) /\
    (if ref_count dev =? 0 then dev' = dev /\ e = - RT_ERROR
     else ref_count dev' = ref_count dev - 1 /\ e = RT_EOK /\ (ref_count dev = 1 -> listening dev' = false)).
Proof.
  intros Hok. pose proof Hok as [H1 H2 H3 H4 H5 H6 H7 Hact H8]. cbn [fst snd] in *. unfold rt_device_close.
  rewrite H1, Z.eqb_refl. cbn [negb]. destruct (Z.eqb_spec (ref_count dev) 0) as [Er|Er].
  { exists dev, (- RT_ERROR). split; [reflexivity|]. split; [|auto]. destruct (Z.eqb_spec (ref_count dev) 0); [|contradiction].
    destruct (serial_rx (serial_of dev)) as [[? ?]|]; [destruct H8; contradiction|]. destruct H8 as [-> _]. exact Hok. }
  specialize (Hact Er). destruct H7 as [T1 T2].
  change (ref_count (dev <| ref_count := ?x |>)) with x. rewrite u8_small by lia. cbv zeta.
  set (dev1 := dev <| ref_count := ref_count dev - 1 |>).
  destruct (Z.eqb_spec (ref_count dev - 1) 0) as [E1|E1]; cbn [negb].
  - unfold device_close, serial_driver, rt_serial_close. change (ref_count dev1) with (ref_count dev - 1). rewrite E1.
    change (1 <? 0) with false. cbv iota.
    assert (Hrx : exists dev', close_rx dev1 = Some dev' /\ serial_rx (serial_of dev') = None /\ heap_good (dev_heap dev') ol /\
      bit (open_flag dev') 10 = false /\ object_class dev' = object_class dev1 /\ ref_count dev' = ref_count dev1 /\
      dev_flag dev' = dev_flag dev1 /\ cfg_bufsz dev' = cfg_bufsz dev1 /\ serial_tx (serial_of dev') = serial_tx (serial_of dev1)).
    { destruct (serial_rx (serial_of dev)) as [[p f]|] eqn:Erx.
      - apply (close_rx_spec dev1 ol p f); auto. apply H8.
      - exists dev1. split; [apply close_rx_none, H8|]. split_ands; auto.
        unfold buffers in H2. rewrite Erx, map_empty_union in H2. exact H2. }
    destruct Hrx as (dev2 & -> & R1 & R2 & R3 & R4 & R5 & R6 & R7 & R8).
    cbn [mbind option_bind]. unfold close_tx. rewrite has_int_tx, R3. cbn [mbind option_bind Z.eqb orb RT_EOK].
    change (ref_count dev1) with (ref_count dev - 1) in R5.
    eexists _, _. split; [reflexivity|]. change (ref_count (dev2 <| open_flag := _ |>)) with (ref_count dev2).
    rewrite R5, E1, Z.eqb_refl. split; [|split_ands; auto; unfold listening; change (serial_of (dev2 <| open_flag := ?x |>)) with (serial_of dev2); rewrite R1; reflexivity].
    assert (Eb : buffers dev2 = ∅) by (unfold buffers; rewrite R1; reflexivity).
    split; cbn [fst snd].
    + change (object_class dev2 = RT_Object_Class_Device). rewrite R4. exact H1.
    + change (heap_good (dev_heap dev2) (buffers dev2 ∪ ol)). rewrite Eb, map_empty_union. exact R2.
    + change (buffers dev2 ##ₘ ol). rewrite Eb. apply map_disjoint_empty_l.
    + change (2 <= cfg_bufsz dev2 <= 65535). rewrite R7. exact H4.
    + change (bit (dev_flag dev2) 8 = true /\ bit (dev_flag dev2) 3 = false). rewrite R6. exact H5.
    + change (0 <= ref_count dev2 < 256). lia.
    + split; [|reflexivity]. change (serial_tx (serial_of dev2) = None). rewrite R8. exact T1.
    + change (ref_count dev2 <> 0 -> activated dev2 = true). rewrite R5, E1. contradiction.
    + change (serial_of (dev2 <| open_flag := _ |>)) with (serial_of dev2). rewrite R1. auto.
  - exists dev1, RT_EOK. split; [reflexivity|]. change (ref_count dev1) with (ref_count dev - 1).
    destruct (Z.eqb_spec (ref_count dev - 1) 0); [contradiction|]. split; [|split_ands; auto; lia].
    split; cbn [fst snd]; change (ref_count dev1) with (ref_count dev - 1); auto; try lia.
    change (serial_rx (serial_of dev1)) with (serial_rx (serial_of dev)). destruct (serial_rx (serial_of dev)) as [[p f]|]; [|exact H8].
    destruct H8 as (_ & F8 & Hf). auto.
Qed.

Lemma int_rx_loop_spec b n f q : 2 <= b <= 65535 -> fifo_ok b f q ->
  exists f', int_rx_loop b f n = Some (f', take n q) /\ fifo_ok b f' (drop n q).
Proof.
  intros Hb. revert f q. induction n as [|n IH]; intros f q Hf; cbn [int_rx_loop].
  { exists f. split; [reflexivity | exact Hf]. }
  pose proof (rx_take_spec b Hb f q Hf) as Ht. destruct q as [|c q].
  - rewrite Ht. cbn [mbind option_bind]. exists f. split; [reflexivity | exact Hf].
  - destruct Ht as (f1 & -> & Hf1). cbn [mbind option_bind]. destruct (IH f1 q Hf1) as (f2 & -> & Hf2).
    cbn [mbind option_bind]. exists f2. split; [reflexivity | exact Hf2].
Qed.

(** Only the contents of the receive buffer change. *)
Lemma serial_ok_fifo dev ol q p f q' f' :
  serial_ok (dev, ol, q) -> serial_rx (serial_of dev) = Some (p, f) -> fifo_ok (cfg_bufsz dev) f' q' ->
  serial_ok (on_serial dev (fun s => s <| serial_rx := Some (p, f') |>), ol, q').
Proof.
  intros [H1 H2 H3 H4 H5 H6 H7 H8 H9] Erx Hf'. cbn [fst snd] in *. set (dev' := on_serial _ _).
  assert (Eb : buffers dev' = buffers dev) by (unfold buffers at 2; rewrite Erx; reflexivity).
  rewrite Erx in H9. destruct H9 as (A & B & _).
  split; cbn [fst snd]; rewrite ?Eb; auto. cbn. auto.
Qed.

Lemma open_rx_fifo dev ol q : serial_ok (dev, ol, q) -> listening dev = true ->
  exists p f, serial_rx (serial_of dev) = Some (p, f) /\ fifo_ok (cfg_bufsz dev) f q /\ bit (open_flag dev) 8 = true.
Proof.
  intros Hok Hl. pose proof (su_rx _ Hok) as H9. cbn [fst snd] in H9. unfold listening in Hl.
  destruct (serial_rx (serial_of dev)) as [[p f]|]; [|discriminate]. destruct H9 as (_ & F8 & Hf). eauto.
Qed.

Lemma listening_open dev ol q : serial_ok (dev, ol, q) -> listening dev = true -> ref_count dev <> 0.
Proof.
  intros Hok Hl. pose proof (su_rx _ Hok) as H9. cbn [fst snd] in H9. unfold listening in Hl.
  destruct (serial_rx (serial_of dev)) as [[p f]|]; [apply H9 | discriminate].
Qed.

Lemma deaf_flag dev ol q : serial_ok (dev, ol, q) -> listening dev = false -> q = [] /\ bit (open_flag dev) 8 = false.
Proof.
  intros Hok Hl. pose proof (su_rx _ Hok) as H9. cbn [fst snd] in H9. unfold listening in Hl.
  destruct (serial_rx (serial_of dev)) as [[p f]|]; [discriminate | exact H9].
Qed.

(** What polling takes: up to the first line feed. *)
Fixpoint polled (n : nat) (l : list Z) : list Z :=
  match n, l with
  | S n, c :: l => c :: (if c =? 10 then [] else polled n l)
  | _, _ => []
  end.

Lemma poll_rx_spec n (dev : Dev) : exists h, _serial_poll_rx dev n = (set_port dev h, polled n (pending (port (serial_of dev)))).
Proof.
  revert dev. induction n as [|n IH]; intros dev; cbn [_serial_poll_rx].
  { exists (port (serial_of dev)). destruct dev as [? ? ? ? ? ? []]. reflexivity. }
  destruct (pending (port (serial_of dev))) as [|c r] eqn:Ep; cbn [polled].
  - destruct (getc_empty _ Ep) as [h' E]. rewrite E. exists h'. reflexivity.
  - destruct (getc_next _ _ _ Ep) as (h' & E & Er & Hc). rewrite E. destruct (Z.eqb_spec c (-1)); [lia|].
    rewrite (u8_small c) by lia. destruct (c =? 10); [exists h'; reflexivity|].
    destruct (IH (set_port dev h')) as [h2 E2]. rewrite E2. change (port (serial_of (set_port dev h'))) with h'. rewrite Er.
    exists h2. reflexivity.
Qed.


Lemma read_spec errno dev ol q pos n :
  serial_ok (dev, ol, q) ->
  exists e dev' bytes, rt_device_read errno dev pos n = Some (e, dev', bytes) /\ serial_ok (dev', ol, drop (length bytes) q) /\
    (if ref_count dev =? 0 then e = - RT_ERROR /\ dev' = dev /\ bytes = []
     else e = errno /\ bytes = if listening dev then take n q else polled n (pending (port (serial_of dev)))) /\
    ref_count dev' = ref_count dev /\ cfg_bufsz dev' = cfg_bufsz dev /\ listening dev' = listening dev.
Proof.
  intros Hok. unfold rt_device_read. pose proof (su_class _ Hok) as Hc. cbn [fst] in Hc. rewrite Hc, Z.eqb_refl. cbn [negb].
  destruct (Z.eqb_spec (ref_count dev) 0) as [Er|Er].
  { exists (- RT_ERROR), dev, []. split_ands; auto. }
  unfold device_read, serial_driver, rt_serial_read. destruct n as [|n].
  { exists errno, dev, []. cbn [mbind option_bind]. split_ands; auto. destruct (listening dev); reflexivity. }
  destruct (listening dev) eqn:El.
  - destruct (open_rx_fifo _ _ _ Hok El) as (p & f & Erx & Hf & F8). pose proof (su_bufsz _ Hok) as Hb. cbn [fst] in Hb.
    rewrite has_int_rx, F8. unfold _serial_int_rx. rewrite Erx. cbn [mbind option_bind]. fold (cfg_bufsz dev).
    destruct (int_rx_loop_spec (cfg_bufsz dev) (S n) f q Hb Hf) as (f' & -> & Hf'). cbn [mbind option_bind].
    eexists _, _, _. split; [reflexivity|]. split_ands; auto. apply (serial_ok_fifo dev ol q p f); auto.
    rewrite length_take. destruct (Nat.min_spec (S n) (length q)) as [[_ ->]|[Hlen ->]]; [exact Hf'|].
    rewrite drop_all. rewrite (drop_ge q (S n)) in Hf' by exact Hlen. exact Hf'.
  - destruct (deaf_flag _ _ _ Hok El) as [-> F8]. rewrite has_int_rx, F8.
    destruct (poll_rx_spec (S n) dev) as [h ->]. cbn [mbind option_bind].
    eexists _, _, _. split; [reflexivity|]. split_ands; auto. rewrite drop_nil. same_serial.
Qed.

Lemma isr_rx_loop_spec b fuel h f q : 2 <= b <= 65535 -> fifo_ok b f q -> (length (pending h) < fuel)%nat ->
  exists h' f', isr_rx_loop fuel h b f = Some (h', f') /\ fifo_ok b f' (newest (b - 1) (q ++ pending h)).
Proof.
  intros Hb. revert h f q. induction fuel as [|fuel IH]; intros h f q Hf Hfu; [lia|]. cbn [isr_rx_loop].
  destruct (pending h) as [|c r] eqn:Ep.
  - destruct (getc_empty h Ep) as [h' ->]. cbn [Z.eqb]. exists h', f. split; [reflexivity|].
    rewrite app_nil_r, newest_short by apply Hf. exact Hf.
  - destruct (getc_next h c r Ep) as (h' & -> & Er & Hc). destruct (Z.eqb_spec c (-1)); [lia|].
    destruct (rx_put_spec b Hb f q c Hf) as (f1 & -> & Hf1). cbn [mbind option_bind]. cbn [length] in Hfu.
    destruct (IH h' f1 _ Hf1) as (h2 & f2 & -> & Hf2); [rewrite Er; lia|]. exists h2, f2. split; [reflexivity|].
    rewrite Er, u8_small, queue_put_newest, newest_app, <- app_assoc in Hf2 by (try lia; apply Hf). exact Hf2.
Qed.

Lemma isr_spec fuel dev ol q :
  serial_ok (dev, ol, q) -> listening dev = true -> (length (pending (port (serial_of dev))) < fuel)%nat ->
  let q' := newest (cfg_bufsz dev - 1) (q ++ pending (port (serial_of dev))) in
  exists dev', rt_hw_serial_isr fuel dev RT_SERIAL_EVENT_RX_IND =
      Some (dev', if negb (rx_indicate dev =? 0) && negb (Z.of_nat (length q') =? 0)
                  then RxIndicate (rx_indicate dev) (Z.of_nat (length q')) else NoEffect) /\
    serial_ok (dev', ol, q') /\ ref_count dev' = ref_count dev /\ rx_indicate dev' = rx_indicate dev /\
    cfg_bufsz dev' = cfg_bufsz dev /\ listening dev' = true.
Proof.
  intros Hok Er Hfu q'. destruct (open_rx_fifo _ _ _ Hok Er) as (p & f & Erx & Hf & F8).
  pose proof (su_bufsz _ Hok) as Hb. cbn [fst] in Hb. unfold rt_hw_serial_isr.
  change (Z.land RT_SERIAL_EVENT_RX_IND 255 =? RT_SERIAL_EVENT_RX_IND) with true. cbv iota. rewrite Erx.
  cbn [mbind option_bind]. cbv zeta. fold (cfg_bufsz dev).
  destruct (isr_rx_loop_spec (cfg_bufsz dev) fuel _ f q Hb Hf Hfu) as (h' & f' & -> & Hf'). cbn [mbind option_bind].
  fold q' in Hf'. rewrite (rx_length_spec _ Hb _ _ Hf').
  eexists. split; [reflexivity|]. split_ands; auto.
  apply (serial_ok_fifo (set_port dev h') ol q p f); auto. same_serial.
Qed.

Lemma poll_tx_port dev data : exists h, (_serial_poll_tx dev data).1 = set_port dev h.
Proof.
  revert dev. induction data as [|c data IH]; intros dev; cbn [_serial_poll_tx].
  { exists (port (serial_of dev)). destruct dev as [? ? ? ? ? ? []]. reflexivity. }
  set (dev1 := putc _ _). destruct (IH dev1) as [h E]. destruct (_serial_poll_tx dev1 data) as [dev2 n].
  cbn [fst] in *. exists h. rewrite E. unfold dev1. destruct (_ && _); reflexivity.
Qed.

Lemma write_ok errno dev ol q pos data e dev' r :
  serial_ok (dev, ol, q) -> rt_device_write errno dev pos data = Some (e, dev', r) -> serial_ok (dev', ol, q).
Proof.
  intros Hok. unfold rt_device_write. destruct (negb _); [discriminate|]. destruct (_ =? _); [intros [= _ <- _]; exact Hok|].
  unfold device_write, serial_driver, rt_serial_write. destruct (su_tx _ Hok) as [_ T2]. cbn [fst] in T2.
  rewrite has_int_tx, T2. destruct data as [|c data]; [intros [= _ <- _]; exact Hok|].
  destruct (poll_tx_port dev (c :: data)) as [h E]. destruct (_serial_poll_tx dev (c :: data)) as [dev1 n].
  cbn [fst] in E. cbn [mbind option_bind]. intros [= _ <- _]. rewrite E. same_serial.
Qed.

(** Another configuration with a buffer of another size is only taken while the device is closed. *)
Lemma serial_ok_config dev ol q c :
  serial_ok (dev, ol, q) -> 2 <= bufsz c <= 65535 -> (bufsz c = cfg_bufsz dev \/ ref_count dev = 0) ->
  serial_ok (on_serial dev (fun s => s <| config := c |>), ol, q).
Proof.
  intros Hok Hc Hsame. set (dev' := on_serial _ _). destruct (Z.eq_dec (bufsz c) (cfg_bufsz dev)) as [E|Hne].
  { eapply serial_ok_ext; [exact Hok | ..]; auto. }
  destruct Hsame as [|Er]; [contradiction|]. destruct Hok as [H1 H2 H3 H4 H5 H6 H7 Ha H8]. cbn [fst snd] in *.
  destruct (serial_rx (serial_of dev)) as [[? ?]|] eqn:Erx; [destruct H8; contradiction|].
  assert (Eb : buffers dev' = buffers dev) by (unfold buffers; change (serial_rx (serial_of dev')) with (serial_rx (serial_of dev)); rewrite Erx; reflexivity).
  split; cbn [fst snd]; rewrite ?Eb; auto. change (serial_rx (serial_of dev')) with (serial_rx (serial_of dev)). rewrite Erx. exact H8.
Qed.

Lemma control_ok dev ol q cmd arg dev' e :
  match arg with ArgConfig _ c => 2 <= bufsz c <= 65535 | ArgWord _ => True end ->
  serial_ok (dev, ol, q) -> rt_device_control dev cmd arg = Some (dev', e) -> serial_ok (dev', ol, q).
Proof.
  intros Harg Hok. unfold rt_device_control. destruct (negb _); [discriminate|].
  unfold device_control, serial_driver, rt_serial_control. destruct (cmd =? _).
  { intros [= <- _]. eapply serial_ok_ext; [exact Hok | ..]; try reflexivity;
      [| |rewrite !activated_bit]; change (dev_flag (_ <| dev_flag := ?x |>)) with x; rewrite bit_lor; [apply orb_false_r..|].
    intros ->. reflexivity. }
  destruct (cmd =? _).
  { intros [= <- _]. eapply serial_ok_ext; [exact Hok | ..]; try reflexivity;
      [| |rewrite !activated_bit]; change (dev_flag (_ <| dev_flag := ?x |>)) with x; unfold bit;
      rewrite u16_bit, Z.land_spec by lia; [apply andb_true_r..|]. intros ->. reflexivity. }
  destruct (cmd =? _).
  - destruct arg as [p c|w]; [|destruct (w =? 0); [intros [= <- _]; exact Hok | discriminate]].
    destruct (p =? 0); [intros [= <- _]; exact Hok|].
    destruct (_ && _) eqn:Eg; [intros [= <- _]; exact Hok|]. intros [= <- _].
    assert (Hc : serial_ok (on_serial dev (fun s => s <| config := c |>), ol, q)).
    { apply serial_ok_config; auto. fold (cfg_bufsz dev) in Eg.
      destruct (Z.eqb_spec (bufsz c) (cfg_bufsz dev)); [auto|]. destruct (Z.eqb_spec (ref_count dev) 0); [auto | discriminate]. }
    clear Eg. match goal with |- context [if ?b then _ else _] => destruct b end; [same_serial | exact Hc].
  - destruct (uart_control _ _ _) as [h ret]. intros [= <- _]. same_serial.
Qed.

Lemma serial_step_ok u u' : serial_ok u -> serial_step u u' -> serial_ok u'.
Proof.
  intros Hok Hs. destruct Hs as [dev ol q dev' e E | dev ol q oflag dev' e Ho E | dev ol q oflag dev' e Ho Hl E | dev ol q dev' e E | dev ol q errno pos n e dev' bytes E
    | dev ol q errno pos data e dev' r E | dev ol q cmd arg dev' e Harg E | dev ol q cb dev' e E | dev ol q cb dev' e E
    | dev ol q fuel dev' eff Hfu E | dev ol q h | dev ol q h' ol' E Hd].
  - change (open_init dev = Some (dev', e)) in E. destruct (open_init_spec _ _ _ Hok) as (d & x & E' & Hok' & _). rewrite E' in E; injection E as <-; subst; assumption.
  - pose proof (open_spec dev ol q oflag Hok Ho) as Hs. rewrite E in Hs. apply Hs.
  - pose proof (console_spec dev ol q oflag Hok Ho Hl) as Hs. rewrite E in Hs. apply Hs.
  - destruct (close_spec _ _ _ Hok) as (d & x & E' & Hok' & _). rewrite E' in E; injection E as <-; subst; assumption.
  - destruct (read_spec errno dev ol q pos n Hok) as (x & d & b & E' & Hok' & _). rewrite E' in E; injection E as <-; subst; assumption.
  - apply (write_ok errno dev ol q pos data e dev' r); auto.
  - apply (control_ok dev ol q cmd arg dev' e); auto.
  - unfold rt_device_set_rx_indicate in E. destruct (negb _); [discriminate|]. injection E as <- _. same_serial.
  - unfold rt_device_set_tx_complete in E. destruct (negb _); [discriminate|]. injection E as <- _. same_serial.
  - destruct (listening dev) eqn:El.
    2:{ unfold rt_hw_serial_isr in E. unfold listening in El. destruct (serial_rx (serial_of dev)) as [[? ?]|]; discriminate. }
    destruct (isr_spec fuel dev ol q Hok El Hfu) as (d & E' & Hok' & _). rewrite E' in E; injection E as <-; subst; assumption.
  - same_serial.
  - destruct Hok as [H1 H2 H3 H4 H5 H6 H7 H8 H9]. cbn [fst snd] in *. split; cbn [fst snd]; auto.
    exact (client_step_good (_, _) (_, _) H2 E).
Qed.

(** The device as [rt_hw_serial_register] leaves it. *)
Record registered (dev : Dev) (ol : Live) : Prop := {
  rg_class : object_class dev = RT_Object_Class_Device;
  rg_heap : heap_good (dev_heap dev) ol;
  rg_bufsz : 2 <= cfg_bufsz dev <= 65535;
  rg_flag : bit (dev_flag dev) 8 = true /\ bit (dev_flag dev) 3 = false;
  rg_closed : ref_count dev = 0 /\ open_flag dev = 0;
  rg_buffers : serial_rx (serial_of dev) = None /\ serial_tx (serial_of dev) = None
}.

Lemma registered_ok dev ol : registered dev ol -> serial_ok (dev, ol, []).
Proof.
  intros [H1 H2 H3 H4 [H5 H6] [H7 H8]].
  assert (Eb : buffers dev = ∅) by (unfold buffers; rewrite H7; reflexivity).
  split; cbn [fst snd]; rewrite ?Eb, ?map_empty_union, ?H5, ?H6, ?H7; auto; try lia; apply map_disjoint_empty_l.
Qed.

(** Registered, and perhaps opened by the console since. *)
Definition prepared (dev : Dev) (ol : Live) : Prop :=
  registered dev ol \/ exists dev0 oflag, registered dev0 ol /\ polled_both oflag /\ rt_device_open dev0 oflag = Some (dev, RT_EOK).

Lemma prepared_ok dev ol : prepared dev ol -> serial_ok (dev, ol, []) /\ listening dev = false.
Proof.
  intros [Hr|(dev0 & oflag & Hr & Ho & E)].
  - split; [apply registered_ok, Hr|]. unfold listening. destruct (rg_buffers _ _ Hr) as [-> _]. reflexivity.
  - assert (Hl : listening dev0 = false) by (unfold listening; destruct (rg_buffers _ _ Hr) as [-> _]; reflexivity).
    pose proof (console_spec dev0 ol [] oflag (registered_ok _ _ Hr) Ho Hl) as Hc. rewrite E in Hc. tauto.
Qed.

(** The device's drivers and the rest of the system work on one heap. *)
Definition with_heap (h : Heap) (dev : Dev) : Dev := on_serial dev (fun s => s <| sys_heap := h |>).

(** Nobody reads the device yet; the console may have opened it. *)
Record quiet (dev : Dev) (ol : Live) : Prop := {
  qt_ok : serial_ok (dev, ol, []);
  qt_deaf : listening dev = false;
  qt_once : ref_count dev <= 1
}.

Lemma deaf_buffers dev : listening dev = false -> buffers dev = ∅.
Proof. unfold listening, buffers. destruct (serial_rx (serial_of dev)) as [[? ?]|]; [discriminate | reflexivity]. Qed.

Lemma registered_deaf dev ol : registered dev ol -> listening dev = false.
Proof. intros Hr. unfold listening. destruct (rg_buffers _ _ Hr) as [-> _]. reflexivity. Qed.

Lemma quiet_registered dev ol : registered dev ol -> quiet dev ol.
Proof. intros Hr. split; [apply registered_ok, Hr | apply (registered_deaf _ _ Hr) | destruct (rg_closed _ _ Hr) as [-> _]; lia]. Qed.

(** A quiet device owns no memory, so the heap may be any. *)
Lemma quiet_heap dev ol h ol' : quiet dev ol -> heap_good h ol' -> quiet (with_heap h dev) ol'.
Proof.
  intros [[H1 H2 H3 H4 H5 H6 H7 H8 H9] Hl Ho] Hg. pose proof (deaf_buffers _ Hl) as Hb. cbn [fst snd] in *. split; [|exact Hl | exact Ho].
  split; cbn [fst snd]; auto; change (buffers (with_heap h dev)) with (buffers dev); rewrite Hb.
  - rewrite map_empty_union. exact Hg.
  - apply map_disjoint_empty_l.
Qed.

(** The console opens a quiet device that nobody has opened. *)
Lemma quiet_console dev ol oflag : quiet dev ol -> polled_both oflag -> ref_count dev = 0 ->
  (uart_configure (port (serial_of dev)) (config (serial_of dev))).2 = RT_EOK ->
  exists dev', rt_device_open dev oflag = Some (dev', RT_EOK) /\ quiet dev' ol /\ ref_count dev' = 1 /\
    config (serial_of dev') = config (serial_of dev) /\ rx_indicate dev' = rx_indicate dev.
Proof.
  intros [Hok Hl _] Hf Hr Hc. pose proof (console_spec dev ol [] oflag Hok Hf Hl) as Hs.
  destruct (rt_device_open dev oflag) as [[dev' e]|]; [|rewrite Hr in Hs; discriminate].
  destruct Hs as (H1 & H2 & H3 & H4 & _ & H6 & H7). specialize (H7 (or_intror Hc)) as ->. rewrite Hr in H6. cbn in H6.
  exists dev'. split_ands; auto. split; [exact H1 | exact H2 | lia].
Qed.

(** Text sent with other flags, and the flags put back: only the port has moved. *)
Lemma put_port dev ol flag data : quiet dev ol -> bit flag 10 = false ->
  exists h dev' e r, rt_device_write 0 (dev <| open_flag := flag |>) 0 data = Some (e, dev', r) /\
    (dev' <| open_flag := open_flag dev |>) = set_port dev h.
Proof.
  intros [Hok _ _] Hf. pose proof (su_class _ Hok) as Hc. cbn [fst] in Hc. unfold rt_device_write.
  change (object_class (dev <| open_flag := flag |>)) with (object_class dev). rewrite Hc, Z.eqb_refl. cbn [negb].
  assert (Hsame : ((dev <| open_flag := flag |>) <| open_flag := open_flag dev |>) = set_port dev (port (serial_of dev))) by (destruct dev as [? ? ? ? ? ? []]; reflexivity).
  destruct (_ =? 0); [eexists _, _, _, _; split; [reflexivity | exact Hsame]|].
  unfold device_write, serial_driver, rt_serial_write. change (open_flag (dev <| open_flag := flag |>)) with flag. rewrite has_int_tx, Hf.
  destruct data as [|c data]; [eexists _, _, _, _; split; [reflexivity | exact Hsame]|].
  destruct (poll_tx_port (dev <| open_flag := flag |>) (c :: data)) as [h E]. destruct (_serial_poll_tx _ _) as [dev1 n].
  cbn [fst] in E. cbn [mbind option_bind]. exists h, dev1. eexists _, _. split; [reflexivity|]. rewrite E.
  destruct dev as [? ? ? ? ? ? []]. reflexivity.
Qed.

Lemma quiet_port dev ol h : quiet dev ol -> quiet (set_port dev h) ol.
Proof. intros [Hok Hl Ho]. split; [same_serial | exact Hl | exact Ho]. Qed.

(** The registration leaves the device so when its buffers are still zero. *)
Lemma register_registered container fuel s addr (dev0 : Dev) name flag s' dev ol :
  rt_hw_serial_register container fuel s addr dev0 name flag = Some (s', dev, RT_EOK) ->
  heap_good (dev_heap dev0) ol -> 2 <= cfg_bufsz dev0 <= 65535 -> bit flag 8 = true -> bit flag 3 = false ->
  serial_rx (serial_of dev0) = None -> serial_tx (serial_of dev0) = None -> registered dev ol.
Proof.
  unfold rt_hw_serial_register, rt_device_register. destruct (addr =? 0); [discriminate|].
  destruct (rt_device_find _ _ _ _) as [found|]; [|discriminate]. cbn [mbind option_bind].
  destruct (negb _); [discriminate|]. destruct (rt_object_init _ _ _ _ _ _) as [s1|]; [|discriminate].
  cbn [mbind option_bind]. intros [= _ <-] Hg Hb F8 F3 Hr Ht. split; auto.
  change (dev_flag (_ <| open_flag := 0 |>)) with (u16 flag). unfold bit in *. rewrite !u16_bit by lia. auto.
Qed.

Lemma serial_reach_ok u u' : serial_ok u -> serial_reach u u' -> serial_ok u'.
Proof. intros Hok Hr. induction Hr; eauto using serial_step_ok. Qed.

(** C13: A serial device behaves as a reference counted byte queue.  Whatever openers, readers, writers, interrupts,
    the hardware and the other clients of the heap do: at most bufsz - 1 bytes are kept; opening succeeds and
    counts, unless the port cannot be configured, the heap is full or 255 openings are exceeded; closing
    succeeds, and the last one gives the buffer back to the heap; a read gives the oldest bytes there are, in
    order (and, while only the console has the port open, what the port itself holds, up to a line feed); the interrupt takes everything the port has received, keeps the newest bufsz - 1 bytes, and tells
    the call back how many there are. *)
Theorem serial_refines_queue dev0 ol0 dev ol q :
  prepared dev0 ol0 -> serial_reach (dev0, ol0, []) (dev, ol, q) ->
  Z.of_nat (length q) <= cfg_bufsz dev - 1 /\
  (forall oflag, int_rx_poll_tx oflag -> ref_count dev < 255 ->
     activated dev = true \/ (uart_configure (port (serial_of dev)) (config (serial_of dev))).2 = RT_EOK ->
     (listening dev = false -> rt_malloc 0 (dev_heap dev) (sizeof_rx_fifo + cfg_bufsz dev) <> Some (dev_heap dev, 0)) ->
     exists dev', rt_device_open dev oflag = Some (dev', RT_EOK) /\ ref_count dev' = ref_count dev + 1) /\
  (exists dev' e, rt_device_close dev = Some (dev', e) /\
     if ref_count dev =? 0 then dev' = dev /\ e = - RT_ERROR
     else e = RT_EOK /\ ref_count dev' = ref_count dev - 1 /\
       (ref_count dev = 1 -> listening dev' = false /\ heap_good (dev_heap dev') ol)) /\
  (forall errno pos n, exists dev' e bytes, rt_device_read errno dev pos n = Some (e, dev', bytes) /\
     if ref_count dev =? 0 then e = - RT_ERROR /\ bytes = []
     else e = errno /\ bytes = if listening dev then take n q else polled n (pending (port (serial_of dev)))) /\
  (forall fuel, listening dev = true -> (length (pending (port (serial_of dev))) < fuel)%nat ->
     let q' := newest (cfg_bufsz dev - 1) (q ++ pending (port (serial_of dev))) in
     exists dev', rt_hw_serial_isr fuel dev RT_SERIAL_EVENT_RX_IND =
       Some (dev', if negb (rx_indicate dev =? 0) && negb (Z.of_nat (length q') =? 0)
                   then RxIndicate (rx_indicate dev) (Z.of_nat (length q')) else NoEffect)).
Proof.
  intros Hreg Hr. pose proof (serial_reach_ok _ _ (proj1 (prepared_ok _ _ Hreg)) Hr) as Hok. split_ands.
  - pose proof (su_rx _ Hok) as H8. pose proof (su_bufsz _ Hok) as Hb. cbn [fst snd] in *.
    destruct (serial_rx (serial_of dev)) as [[p f]|]; [apply H8 | destruct H8 as [-> _]; cbn; lia].
  - intros oflag Ho Hlt Hc Hm. pose proof (open_spec dev ol q oflag Hok Ho) as Hs.
    destruct (rt_device_open dev oflag) as [[dev' e]|].
    + destruct Hs as (_ & Er & He & _). rewrite (He Hc) in *. exists dev'. auto.
    + destruct Hs as [|[Hr0 Hm0]]; [lia|]. destruct (Hm Hr0 Hm0).
  - destruct (close_spec dev ol q Hok) as (dev' & e & E & Hok' & H1). exists dev', e. split; [exact E|].
    destruct (ref_count dev =? 0); [exact H1|]. destruct H1 as (H1 & H2 & H3). split_ands; auto.
    intros H4. specialize (H3 H4). split; [exact H3|]. pose proof (su_heap _ Hok') as Hg. cbn [fst snd] in Hg.
    unfold buffers in Hg. unfold listening in H3. destruct (serial_rx (serial_of dev')) as [[? ?]|]; [discriminate|].
    rewrite map_empty_union in Hg. exact Hg.
  - intros errno pos n. destruct (read_spec errno dev ol q pos n Hok) as (e & dev' & bytes & E & _ & H1 & _).
    exists dev', e, bytes. split; [exact E|]. destruct (_ =? _); tauto.
  - intros fuel El Hfu q'. destruct (isr_spec fuel dev ol q Hok El Hfu) as (dev' & E & _). exists dev'. exact E.
Qed.

(** Once a serial device is open its configuration can only be replaced by one with the same buffer size: any
    other is answered with a positive RT_EBUSY and nothing changes, not even the baud rate.  The GPS thread opens
    its port first and then asks for a larger buffer, so it keeps the one of 64 bytes. *)
Theorem serial_config_refused dev p c :
  object_class dev = RT_Object_Class_Device -> ref_count dev <> 0 -> p <> 0 ->
  rt_device_control dev RT_DEVICE_CTRL_CONFIG (ArgConfig p c) =
    if bufsz c =? cfg_bufsz dev then
      Some (set_port (on_serial dev (fun s => s <| config := c |>)) (fst (uart_configure (port (serial_of dev)) c)), RT_EOK)
    else Some (dev, RT_EBUSY).
Proof.
  intros Hc Hr Hp. unfold rt_device_control. rewrite Hc, Z.eqb_refl. cbn [negb].
  unfold device_control, serial_driver, rt_serial_control.
  change (RT_DEVICE_CTRL_CONFIG =? RT_DEVICE_CTRL_SUSPEND) with false.
  change (RT_DEVICE_CTRL_CONFIG =? RT_DEVICE_CTRL_RESUME) with false.
  change (RT_DEVICE_CTRL_CONFIG =? RT_DEVICE_CTRL_CONFIG) with true. cbv iota.
  destruct (Z.eqb_spec p 0); [contradiction|]. fold (cfg_bufsz dev).
  change (ref_count (on_serial dev _)) with (ref_count dev).
  destruct (Z.eqb_spec (ref_count dev) 0); [contradiction|]. cbn [negb]. rewrite andb_true_r.
  destruct (bufsz c =? cfg_bufsz dev); reflexivity.
Qed.
End Use.

(** ** A port that keeps its bytes in a list *)

#[global] Instance list_uart : UartOps (list Z) := {
  uart_configure h _ := (h, RT_EOK);
  uart_control h _ _ := (h, RT_EOK);
  uart_putc h _ := (h, 1);
  uart_getc h := match h with [] => ([], -1) | c :: h => (h, u8 c) end
}.

#[global] Instance list_port : RxPort (list Z).
Proof.
  refine {| pending := map u8 |}.
  - intros [|] E; [|discriminate]. exists []. reflexivity.
  - intros [|x h] c r [= <- <-]. exists h. split_ands; auto; apply u8_range.
Defined.

Definition demo_serial : SerialDevice (list Z) :=
  mk_device 9 259 0 0 7 0 (mk_serial RT_SERIAL_CONFIG_DEFAULT None None [] demo_heap).

Definition demo_open : SerialDevice (list Z) := (default (demo_serial, 0) (rt_device_open demo_serial RT_DEVICE_FLAG_INT_RX)).1.
Definition demo_arrived : SerialDevice (list Z) := set_port demo_open [65; 66; 67].
Definition demo_received : SerialDevice (list Z) := (default (demo_arrived, NoEffect) (rt_hw_serial_isr 9 demo_arrived 1)).1.

Lemma demo_registered : registered demo_serial ∅.
Proof.
  split; auto; try (split; reflexivity); [|split; discriminate].
  eexists. split; [apply demo_heap_ok | split; [intros p n Hx; rewrite lookup_empty in Hx; discriminate|] | vm_compute; discriminate | reflexivity].
  intros x ->%list_elem_of_singleton Hb. discriminate.
Qed.

Lemma demo_received_reach : serial_reach (demo_serial, ∅, []) (demo_received, ∅, [65; 66; 67]).
Proof.
  eapply rtc_l; [apply (use_open demo_serial ∅ [] RT_DEVICE_FLAG_INT_RX demo_open RT_EOK);
    [repeat split | vm_compute; reflexivity]|].
  eapply rtc_l; [apply (use_hardware demo_open ∅ [] [65; 66; 67])|].
  assert (Eq : newest (cfg_bufsz demo_arrived - 1) ([] ++ pending (port (serial_of demo_arrived))) = [65; 66; 67]) by (vm_compute; reflexivity).
  apply rtc_once. fold demo_arrived. rewrite <- Eq. apply (use_isr demo_arrived ∅ [] 9 demo_received (RxIndicate 7 3)); [vm_compute; lia | vm_compute; reflexivity].
Qed.

Lemma serial_refines_queue_witness :
  exists dev e bytes, rt_device_read 0 demo_received 0 2 = Some (e, dev, bytes) /\ bytes = [65; 66].
Proof.
  destruct (serial_refines_queue demo_serial ∅ demo_received ∅ _ (or_introl demo_registered) demo_received_reach) as (_ & _ & _ & Hr & _).
  destruct (Hr 0 0 2%nat) as (dev & e & bytes & E & Hb). exists dev, e, bytes. split; [exact E|].
  change (ref_count demo_received =? 0) with false in Hb. apply Hb.
Defined.

(** The GPS thread asks for 1024 bytes after it has opened its port. *)
Lemma serial_config_refused_witness :
  rt_device_control demo_open RT_DEVICE_CTRL_CONFIG
    (ArgConfig 1 (RT_SERIAL_CONFIG_DEFAULT <| bufsz := 1024 |>)) = Some (demo_open, RT_EBUSY).
Proof.
  assert (Hc : object_class demo_open = RT_Object_Class_Device) by (vm_compute; reflexivity).
  assert (Hr : ref_count demo_open <> 0) by (vm_compute; discriminate).
  pose proof (serial_config_refused demo_open 1 (RT_SERIAL_CONFIG_DEFAULT <| bufsz := 1024 |>) Hc Hr ltac:(discriminate)) as E.
  assert (Hb : (bufsz (RT_SERIAL_CONFIG_DEFAULT <| bufsz := 1024 |>) =? cfg_bufsz demo_open) = false) by (vm_compute; reflexivity).
  rewrite Hb in E. exact E.
Defined.
