(* ===== verification/Receiver.v ===== *)
(** * Interrupt, semaphore and reading thread

    How every port of the boat is read: the interrupt handler of serial.c fills the
    receive buffer and calls the application's call back, which releases a semaphore;
    the thread reads one byte at a time and takes the semaphore when there is none:

      while (rt_device_read(dev, 0, &ch, 1) != 1) rt_sem_take(&sem, RT_WAITING_FOREVER);

    The handler may come between any two calls of the thread, in particular between a
    read that found nothing and the take. *)

From S2P Require Import Prelude Kernel Scheduler Timer Thread Tick Ipc.
From S2P Require Import Memory Kservice Blocks Mem Heap Strings LinkedList Object Device Serial SerialUse.

(** Where the thread is: about to read, about to take after an empty read, or inside
    the take, waiting or on its way back. *)
Inductive reader_pc := Reading | Taking | Waiting.

Lemma sublist_eq_len {A} (l1 l2 : list A) : l1 `sublist_of` l2 -> (length l2 <= length l1)%nat -> l1 = l2.
Proof.
  intros Hs. induction Hs as [|a l1 l2 Hs IH|a l1 l2 Hs IH]; cbn [length]; intros Hl; [reflexivity | f_equal; apply IH; lia|].
  apply sublist_length in Hs. lia.
Qed.

Section Receiver.
Context {H : Type} {Ops : UartOps H} {Port : RxPort H}.
(** The reading thread and its semaphore. *)
Context (r s : nat).

Record Receiver := mk_receiver {
  rv_dev : SerialDevice H;
  rv_kernel : Kernel;
  rv_sem : Sem;
  rv_pc : reader_pc;
  rv_heap : Live;        (* blocks of the other heap clients *)
  rv_queue : list Z;     (* bytes in the buffer, oldest first *)
  rv_in : list Z;        (* bytes the port has handed over *)
  rv_got : list Z;       (* bytes the thread has read *)
  rv_lost : nat          (* bytes overwritten in the buffer *)
}.

Definition running (k : Kernel) : Prop :=
  rt_current_thread k = Some r /\ thread_stat (threads k r) = RT_THREAD_RUNNING.

(** The call backs of the applications, [rx_callback]. *)
Definition rx_callback (k : Kernel) (sem : Sem) (eff : isr_effect) : option (Kernel * Sem) :=
  match eff with
  | RxIndicate _ _ => '(k, sem, _) ← rt_sem_release k s sem; Some (k, sem)
  | _ => Some (k, sem)
  end.

Inductive receiver_step : Receiver -> Receiver -> Prop :=
| rv_isr dev k sem pc ol q ins got lost fuel dev' eff k' sem' :
    let bytes := pending (port (serial_of dev)) in
    let q' := newest (cfg_bufsz dev - 1) (q ++ bytes) in
    (length bytes < fuel)%nat -> value sem < 65535 ->
    rt_hw_serial_isr fuel dev RT_SERIAL_EVENT_RX_IND = Some (dev', eff) -> rx_callback k sem eff = Some (k', sem') ->
    receiver_step (mk_receiver dev k sem pc ol q ins got lost)
      (mk_receiver dev' k' sem' pc ol q' (ins ++ bytes) got (lost + (length (q ++ bytes) - length q')))
| rv_read dev k sem ol q ins got lost e dev' bytes :
    running k -> rt_device_read (error (threads k r)) dev 0 1 = Some (e, dev', bytes) ->
    receiver_step (mk_receiver dev k sem Reading ol q ins got lost)
      (mk_receiver dev' k sem (match bytes with [] => Taking | _ => Reading end) ol
         (drop (length bytes) q) ins (got ++ bytes) lost)
| rv_take dev k sem ol q ins got lost k' sem' out :
    running k -> rt_interrupt_nest k = 0 -> rt_sem_take k s sem RT_WAITING_FOREVER = Some (k', sem', out) ->
    receiver_step (mk_receiver dev k sem Taking ol q ins got lost)
      (mk_receiver dev k' sem' (match out with Returns _ => Reading | Waits => Waiting end) ol q ins got lost)
| rv_return dev k sem ol q ins got lost :
    running k ->
    receiver_step (mk_receiver dev k sem Waiting ol q ins got lost) (mk_receiver dev k sem Reading ol q ins got lost)
| rv_hardware dev k sem pc ol q ins got lost h :
    receiver_step (mk_receiver dev k sem pc ol q ins got lost) (mk_receiver (set_port dev h) k sem pc ol q ins got lost)
| rv_write dev k sem pc ol q ins got lost errno pos data e dev' w :
    rt_device_write errno dev pos data = Some (e, dev', w) ->
    receiver_step (mk_receiver dev k sem pc ol q ins got lost) (mk_receiver dev' k sem pc ol q ins got lost)
| rv_rest dev k sem pc ol q ins got lost k' :
    rest_step (SemWait s) k k' ->
    receiver_step (mk_receiver dev k sem pc ol q ins got lost) (mk_receiver dev k' sem pc ol q ins got lost).

Record receiver_ok (x : Receiver) : Prop := {
  rk_serial : serial_ok (rv_dev x, rv_heap x, rv_queue x);
  rk_open : listening (rv_dev x) = true /\ rx_indicate (rv_dev x) <> 0;
  rk_kernel : kernel_ok (rt_tick (rv_kernel x)) (rv_kernel x);
  rk_current : exists c, rt_current_thread (rv_kernel x) = Some c;
  rk_value : 0 <= value (rv_sem x) < 65536;
  rk_waiters : forall t, t ∈ lists (rv_kernel x) (SemWait s) -> t = r /\ rv_pc x = Waiting;
  rk_taking : rv_pc x = Taking -> rv_queue x <> [] -> 0 < value (rv_sem x);
  rk_asleep : r ∈ lists (rv_kernel x) (SemWait s) -> rv_queue x = [];
  rk_order : rv_got x ++ rv_queue x `sublist_of` rv_in x;
  rk_count : length (rv_in x) = (length (rv_got x) + length (rv_queue x) + rv_lost x)%nat
}.

Lemma write_keeps errno (dev : SerialDevice H) pos data e dev' w ol q :
  serial_ok (dev, ol, q) -> rt_device_write errno dev pos data = Some (e, dev', w) ->
  listening dev' = listening dev /\ rx_indicate dev' = rx_indicate dev.
Proof.
  intros Hok. unfold rt_device_write. destruct (negb _); [discriminate|]. destruct (_ =? _); [intros [= _ <- _]; auto|].
  unfold device_write, serial_driver, rt_serial_write. destruct (su_tx _ Hok) as [_ T2]. cbn [fst] in T2.
  rewrite has_int_tx, T2. destruct data as [|c data]; [intros [= _ <- _]; auto|].
  destruct (poll_tx_port dev (c :: data)) as [h E]. destruct (_serial_poll_tx dev (c :: data)) as [dev1 n].
  cbn [fst] in E. cbn [mbind option_bind]. intros [= _ <- _]. rewrite E. auto.
Qed.

Lemma read_indicate errno (dev : SerialDevice H) pos n e dev' bytes :
  rt_device_read errno dev pos n = Some (e, dev', bytes) -> bit (open_flag dev) 8 = true -> rx_indicate dev' = rx_indicate dev.
Proof.
  unfold rt_device_read. destruct (negb _); [discriminate|]. destruct (_ =? _); [intros [= _ <- _]; auto|].
  unfold device_read, serial_driver, rt_serial_read. intros E F8. revert E. rewrite has_int_rx, F8.
  destruct n; [intros [= _ <- _]; auto|]. unfold _serial_int_rx.
  destruct (serial_rx _) as [[p f]|]; [|discriminate]. cbn [mbind option_bind].
  destruct (int_rx_loop _ _ _) as [[f' b]|]; [|discriminate]. cbn [mbind option_bind]. intros [= _ <- _]. reflexivity.
Qed.

Lemma newest_suffix n l : newest n l `suffix_of` l.
Proof. exists (take (length l - Z.to_nat n) l). symmetry. apply take_drop. Qed.


(** The release of the call back: the waiting thread is made ready, or the semaphore counts. *)
Lemma release_spec k sem :
  kernel_ok (rt_tick k) k -> (exists c, rt_current_thread k = Some c) -> 0 <= value sem < 65535 ->
  (forall t, t ∈ lists k (SemWait s) -> t = r) ->
  exists k' sem', rt_sem_release k s sem = Some (k', sem', RT_EOK) /\
    kernel_ok (rt_tick k') k' /\ (exists c, rt_current_thread k' = Some c) /\ lists k' (SemWait s) = [] /\
    0 <= value sem' < 65536 /\ (lists k (SemWait s) = [] -> 0 < value sem') /\
    (r ∈ lists k (SemWait s) ->
     thread_stat (threads k' r) = RT_THREAD_READY \/ thread_stat (threads k' r) = RT_THREAD_RUNNING).
Proof.
  intros Hok [c Hc] Hv Hw. destruct (lists k (SemWait s)) as [|t q] eqn:Eq.
  - unfold rt_sem_release. rewrite Eq. exists k. eexists. split; [reflexivity|].
    change (value (sem <| value := ?x |>)) with x. rewrite u16_small by lia. split_ands; eauto; try lia.
    intros Hin. inversion Hin.
  - destruct (release_wakes k s sem c t q Hok Hc Eq) as (k' & E & Hok' & (c' & Hc' & _) & El & _ & Hst & _).
    assert (Et : t = r) by (apply Hw; left). subst t. exists k', sem. split; [exact E|]. split_ands; eauto; try lia.
    + rewrite El. destruct q as [|u q]; [reflexivity|]. exfalso.
      assert (Eu : u = r) by (apply Hw; right; left). subst u.
      pose proof (lo_nodup _ (so_lists _ (ko_sched _ _ Hok)) (SemWait s)) as Hn. rewrite Eq in Hn.
      apply NoDup_cons in Hn as [Hn _]. apply Hn. left.
    + discriminate.
Qed.

Lemma isr_ok dev k sem pc ol q ins got lost fuel dev' eff k' sem' :
  let bytes := pending (port (serial_of dev)) in
  let q' := newest (cfg_bufsz dev - 1) (q ++ bytes) in
  receiver_ok (mk_receiver dev k sem pc ol q ins got lost) ->
  (length bytes < fuel)%nat -> value sem < 65535 ->
  rt_hw_serial_isr fuel dev RT_SERIAL_EVENT_RX_IND = Some (dev', eff) -> rx_callback k sem eff = Some (k', sem') ->
  receiver_ok (mk_receiver dev' k' sem' pc ol q' (ins ++ bytes) got (lost + (length (q ++ bytes) - length q'))).
Proof.
  intros bytes q' [K1 [K2 K2'] K3 K4 K5 K6 K7 K8 K9 K10] Hfu Hv E Ecb.
  cbn [rv_dev rv_kernel rv_sem rv_pc rv_heap rv_queue rv_in rv_got rv_lost] in *.
  destruct (isr_spec fuel dev ol q K1 K2 Hfu) as (d & E' & Hok' & Er & Ei & Ec & Elis). fold bytes q' in E', Hok'.
  rewrite E in E'. injection E' as <- Ee.
  assert (Hsuf : q' `suffix_of` q ++ bytes) by apply newest_suffix.
  assert (Horder : got ++ q' `sublist_of` ins ++ bytes).
  { transitivity (got ++ (q ++ bytes)); [apply sublist_app; [reflexivity | destruct Hsuf as [z ->]; apply sublist_inserts_l; reflexivity]|].
    rewrite app_assoc. apply sublist_app; [exact K9 | reflexivity]. }
  assert (Hcount : length (ins ++ bytes) = (length got + length q' + (lost + (length (q ++ bytes) - length q')))%nat).
  { pose proof (suffix_length _ _ Hsuf). rewrite !length_app in *. lia. }
  destruct (decide (q' = [])) as [Hq|Hq].
  - assert (Hnone : eff = NoEffect) by (rewrite Ee, Hq; cbn; rewrite andb_false_r; reflexivity).
    rewrite Hnone in Ecb. injection Ecb as <- <-.
    split; cbn [rv_dev rv_kernel rv_sem rv_pc rv_heap rv_queue rv_in rv_got rv_lost]; auto. split; congruence.
  - assert (Hcb : eff = RxIndicate (rx_indicate dev) (Z.of_nat (length q'))).
    { rewrite Ee. destruct (Z.eqb_spec (rx_indicate dev) 0); [contradiction|]. cbn [negb andb].
      destruct (Z.eqb_spec (Z.of_nat (length q')) 0); [|reflexivity]. exfalso. apply Hq, nil_length_inv. lia. }
    rewrite Hcb in Ecb. cbn [rx_callback] in Ecb.
    destruct (release_spec k sem K3 K4 ltac:(lia)) as (k1 & sem1 & E1 & R1 & R2 & R3 & R4 & R5 & R6); [intros t Ht; apply K6, Ht|].
    rewrite E1 in Ecb. injection Ecb as <- <-.
    split; cbn [rv_dev rv_kernel rv_sem rv_pc rv_heap rv_queue rv_in rv_got rv_lost]; auto;
      try (rewrite R3; intros; match goal with Hx : _ ∈ [] |- _ => inversion Hx end); [split; congruence|].
    intros Hpc _. apply R5. destruct (lists k (SemWait s)) as [|t l] eqn:El; [reflexivity|].
    destruct (K6 t); [left|]. congruence.
Qed.

Lemma receiver_step_ok x y : receiver_ok x -> receiver_step x y -> receiver_ok y.
Proof.
  intros Hok Hs. destruct Hs as [dev k sem pc ol q ins got lost fuel dev' eff k' sem' bytes q' Hfu Hv E Ecb
    | dev k sem ol q ins got lost e dev' bytes [Hc Hrun] E | dev k sem ol q ins got lost k' sem' out [Hc Hrun] Hn E
    | dev k sem ol q ins got lost [Hc Hrun] | dev k sem pc ol q ins got lost h
    | dev k sem pc ol q ins got lost errno pos data e dev' w E | dev k sem pc ol q ins got lost k' [R1 R2 R3 R4]].
  - eapply isr_ok; eassumption.
  - destruct Hok as [K1 [K2 K2'] K3 K4 K5 K6 K7 K8 K9 K10].
    cbn [rv_dev rv_kernel rv_sem rv_pc rv_heap rv_queue rv_in rv_got rv_lost] in *.
    destruct (read_spec (error (threads k r)) dev ol q 0 1 K1) as (e1 & d & b & E' & Hok' & Hb & _ & _ & Elis).
    rewrite E in E'. injection E' as <- <- <-. destruct (Z.eqb_spec (ref_count dev) 0); [destruct (listening_open _ _ _ K1 K2); assumption|].
    rewrite K2 in Hb. destruct Hb as [_ Hb].
    assert (Hq : got ++ q = (got ++ bytes) ++ drop (length bytes) q).
    { rewrite <- app_assoc, Hb. destruct q; reflexivity. }
    split; cbn [rv_dev rv_kernel rv_sem rv_pc rv_heap rv_queue rv_in rv_got rv_lost]; auto.
    + split; [congruence|]. assert (Ei : rx_indicate dev' = rx_indicate dev) by (destruct (open_rx_fifo _ _ _ K1 K2) as (? & ? & _ & _ & F8); exact (read_indicate _ _ _ _ _ _ _ E F8)). congruence.
    + intros t Ht. destruct (K6 t Ht). discriminate.
    + rewrite Hb. destruct q as [|c q]; cbn; [contradiction | discriminate].
    + intros Ht. destruct (K6 r Ht). discriminate.
    + rewrite <- Hq. exact K9.
    + apply (f_equal length) in Hq. rewrite !length_app in *. lia.
  - destruct Hok as [K1 K2 K3 K4 K5 K6 K7 K8 K9 K10].
    cbn [rv_dev rv_kernel rv_sem rv_pc rv_heap rv_queue rv_in rv_got rv_lost] in *.
    assert (Hnil : lists k (SemWait s) = []).
    { destruct (lists k (SemWait s)) as [|t l] eqn:El; [reflexivity|]. destruct (K6 t); [left | discriminate]. }
    destruct (Z.lt_ge_cases 0 (value sem)) as [Hpos|Hzero].
    + unfold rt_sem_take in E. destruct (Z.ltb_spec 0 (value sem)); [|lia]. injection E as <- <- <-.
      split; cbn [rv_dev rv_kernel rv_sem rv_pc rv_heap rv_queue rv_in rv_got rv_lost]; auto; try discriminate.
      * change (value (sem <| value := ?x |>)) with x. apply u16_range.
      * rewrite Hnil. intros t Ht. inversion Ht.
    + assert (Hv : value sem = 0) by lia.
      destruct (take_waits k s sem r RT_WAITING_FOREVER K3 Hc Hrun Hn Hv) as (k1 & E1 & Hw & El & _); [discriminate | reflexivity|].
      rewrite E in E1. injection E1 as -> -> ->. destruct Hw as [W1 W2 W3 W4 (c' & W5 & _) W6].
      split; cbn [rv_dev rv_kernel rv_sem rv_pc rv_heap rv_queue rv_in rv_got rv_lost]; auto; try discriminate.
      * eauto.
      * rewrite El, Hnil. intros t Ht. apply enqueued_elem in Ht as [->|Ht]; [auto | inversion Ht].
      * intros _. destruct q; [reflexivity|]. exfalso. specialize (K7 eq_refl ltac:(discriminate)). lia.
  - destruct Hok as [K1 K2 K3 K4 K5 K6 K7 K8 K9 K10].
    cbn [rv_dev rv_kernel rv_sem rv_pc rv_heap rv_queue rv_in rv_got rv_lost] in *.
    assert (Hout : r ∉ lists k (SemWait s)) by (apply (running_unlinked k r); [apply (so_threads _ (ko_sched _ _ K3)) | exact Hrun]).
    split; cbn [rv_dev rv_kernel rv_sem rv_pc rv_heap rv_queue rv_in rv_got rv_lost]; auto; try discriminate.
    intros t Ht. destruct (K6 t Ht) as [-> _]. contradiction.
  - destruct Hok as [K1 K2 K3 K4 K5 K6 K7 K8 K9 K10].
    cbn [rv_dev rv_kernel rv_sem rv_pc rv_heap rv_queue rv_in rv_got rv_lost] in *.
    split; cbn [rv_dev rv_kernel rv_sem rv_pc rv_heap rv_queue rv_in rv_got rv_lost]; auto.
    eapply serial_ok_ext; [exact K1 | ..]; auto.
  - destruct Hok as [K1 K2 K3 K4 K5 K6 K7 K8 K9 K10].
    cbn [rv_dev rv_kernel rv_sem rv_pc rv_heap rv_queue rv_in rv_got rv_lost] in *.
    destruct (write_keeps errno dev pos data e dev' w ol q K1 E) as [E1 E2].
    split; cbn [rv_dev rv_kernel rv_sem rv_pc rv_heap rv_queue rv_in rv_got rv_lost]; auto; [|rewrite E1, E2; exact K2].
    apply (write_ok errno dev ol q pos data e dev' w); auto.
  - destruct Hok as [K1 K2 K3 K4 K5 K6 K7 K8 K9 K10].
    cbn [rv_dev rv_kernel rv_sem rv_pc rv_heap rv_queue rv_in rv_got rv_lost] in *.
    split; cbn [rv_dev rv_kernel rv_sem rv_pc rv_heap rv_queue rv_in rv_got rv_lost]; auto.
    + intros t Ht. apply K6, (elem_of_sublist _ _ _ Ht R3).
    + intros Ht. apply K8, (elem_of_sublist _ _ _ Ht R3).
Qed.

Definition receiver_start (dev : SerialDevice H) (k : Kernel) (sem : Sem) (ol : Live) : Receiver :=
  mk_receiver dev k sem Reading ol [] [] [] 0.

Lemma start_receiver_ok dev0 ol oflag cb dev1 dev e k0 k sem :
  prepared dev0 ol -> int_rx_poll_tx oflag -> cb <> 0 ->
  rt_device_open dev0 oflag = Some (dev1, RT_EOK) -> rt_device_set_rx_indicate dev1 cb = Some (dev, e) ->
  kernel_ok (rt_tick k0) k0 -> (exists c, rt_current_thread k0 = Some c) -> lists k0 (SemWait s) = [] ->
  rt_sem_init k0 s 0 RT_IPC_FLAG_FIFO = Some (k, sem, RT_EOK) ->
  receiver_ok (receiver_start dev k sem ol).
Proof.
  intros Hreg Ho Hcb Eo Es Hk Hc Hl Ei.
  pose proof (open_spec dev0 ol [] oflag (proj1 (prepared_ok _ _ Hreg)) Ho) as Hop. rewrite Eo in Hop. destruct Hop as (Hok & _ & _ & Hl1).
  specialize (Hl1 eq_refl).
  unfold rt_device_set_rx_indicate in Es. destruct (negb _); [discriminate|]. injection Es as <- _.
  destruct (sem_init_inv k0 s 0 RT_IPC_FLAG_FIFO Hk Hc ltac:(lia) Hl) as (k1 & sem1 & E1 & [S1 S2 S3 S4 S5 S6 S7]).
  rewrite Ei in E1. injection E1 as <- <-. cbn [sy_kernel sy_sem] in *.
  assert (El : lists k (SemWait s) = []).
  { unfold rt_sem_init in Ei. cbn in Ei. injection Ei as <- _. cbn. apply decide_True. reflexivity. }
  split; cbn [receiver_start rv_dev rv_kernel rv_sem rv_pc rv_heap rv_queue rv_in rv_got rv_lost]; auto; try discriminate.
  - eapply serial_ok_ext; [exact Hok | ..]; auto.
  - rewrite El. intros t Ht. inversion Ht.
Qed.

Lemma receiver_reach_ok x y : receiver_ok x -> rtc receiver_step x y -> receiver_ok y.
Proof. intros Hok Hr. induction Hr; eauto using receiver_step_ok. Qed.

(** C9: No byte waits while its reader sleeps.  Start from a port that was registered, perhaps opened by the console, and then opened for reading, its call back set and its semaphore
    initialised.  Whatever the order in which interrupts, the hardware, other writers, the rest of the kernel
    and the reading thread act (at most 65534 call backs ahead of the thread): while there are bytes in the
    buffer the thread is not in the semaphore's wait list, and if it is about to take the semaphore the take
    returns at once; an interrupt with bytes makes a sleeping thread ready; and what was read, followed by what
    is in the buffer, is what the port received, in order, without the bytes overwritten in a full buffer. *)
Theorem receiver_no_lost_wakeup dev0 ol oflag cb dev1 dev e k0 k sem x :
  prepared dev0 ol -> int_rx_poll_tx oflag -> cb <> 0 ->
  rt_device_open dev0 oflag = Some (dev1, RT_EOK) -> rt_device_set_rx_indicate dev1 cb = Some (dev, e) ->
  kernel_ok (rt_tick k0) k0 -> (exists c, rt_current_thread k0 = Some c) -> lists k0 (SemWait s) = [] ->
  rt_sem_init k0 s 0 RT_IPC_FLAG_FIFO = Some (k, sem, RT_EOK) ->
  rtc receiver_step (receiver_start dev k sem ol) x ->
  (rv_queue x <> [] -> r ∉ lists (rv_kernel x) (SemWait s)) /\
  (rv_pc x = Taking -> rv_queue x <> [] ->
     exists sem', rt_sem_take (rv_kernel x) s (rv_sem x) RT_WAITING_FOREVER = Some (rv_kernel x, sem', Returns RT_EOK)) /\
  (forall fuel, pending (port (serial_of (rv_dev x))) <> [] ->
     (length (pending (port (serial_of (rv_dev x)))) < fuel)%nat -> value (rv_sem x) < 65535 ->
     exists dev' eff k' sem', rt_hw_serial_isr fuel (rv_dev x) RT_SERIAL_EVENT_RX_IND = Some (dev', eff) /\
       rx_callback (rv_kernel x) (rv_sem x) eff = Some (k', sem') /\
       (r ∈ lists (rv_kernel x) (SemWait s) ->
        thread_stat (threads k' r) = RT_THREAD_READY \/ thread_stat (threads k' r) = RT_THREAD_RUNNING)) /\
  rv_got x ++ rv_queue x `sublist_of` rv_in x /\
  length (rv_in x) = (length (rv_got x ++ rv_queue x) + rv_lost x)%nat /\
  (rv_lost x = 0%nat -> rv_got x ++ rv_queue x = rv_in x).
Proof.
  intros Hreg Ho Hcb Eo Es Hk Hc Hl Ei Hr.
  destruct (receiver_reach_ok _ _ (start_receiver_ok _ _ _ _ _ _ _ _ _ _ Hreg Ho Hcb Eo Es Hk Hc Hl Ei) Hr)
    as [K1 [K2 K2'] K3 K4 K5 K6 K7 K8 K9 K10]. split_ands; auto.
  - intros Hpc Hq. unfold rt_sem_take. destruct (Z.ltb_spec 0 (value (rv_sem x))) as [|Hv]; [|specialize (K7 Hpc Hq); lia]. eauto.
  - intros fuel Hp Hfu Hv. destruct (isr_spec fuel _ _ _ K1 K2 Hfu) as (d & E & _).
    destruct (release_spec (rv_kernel x) (rv_sem x) K3 K4 ltac:(lia)) as (k1 & sem1 & E1 & _ & _ & _ & _ & _ & Hst); [apply K6|].
    destruct (Z.eqb_spec (rx_indicate (rv_dev x)) 0); [contradiction|]. cbn [negb andb] in E.
    destruct (Z.eqb_spec (Z.of_nat (length (newest (cfg_bufsz (rv_dev x) - 1) (rv_queue x ++ pending (port (serial_of (rv_dev x))))))) 0) as [E0|].
    { exfalso. pose proof (su_bufsz _ K1) as Hb. cbn [fst] in Hb. unfold newest in E0. rewrite length_drop, length_app in E0.
      destruct (pending _); [contradiction|]. cbn [length] in E0. lia. }
    eexists _, _, k1, sem1. split; [exact E|]. cbn [negb rx_callback]. rewrite E1. auto.
  - rewrite length_app. lia.
  - intros H0. apply sublist_eq_len; [exact K9|]. rewrite length_app. lia.
Qed.
End Receiver.

(** ** An interrupt between the empty read and the take *)

Definition demo_ready : SerialDevice (list Z) := demo_open <| rx_indicate := 7 |>.
Definition demo_late : SerialDevice (list Z) := set_port demo_ready [65; 66].
Definition demo_filled : SerialDevice (list Z) := (default (demo_late, NoEffect) (rt_hw_serial_isr 9 demo_late 1)).1.
Definition demo_kernel : Kernel := rt_ipc_object_init demo (SemWait 6).

Lemma demo_receiver_reach :
  rtc (receiver_step 0 6) (receiver_start demo_ready demo_kernel (mkSem 0 0) ∅)
    (mk_receiver demo_filled demo_kernel (mkSem 1 0) Taking ∅ [65; 66] [65; 66] [] 0).
Proof.
  assert (Hrun : running 0 demo_kernel) by (split; vm_compute; reflexivity).
  eapply rtc_l; [apply (rv_read 0 6 demo_ready demo_kernel (mkSem 0 0) ∅ [] [] [] 0 0 demo_ready []);
    [exact Hrun | vm_compute; reflexivity]|].
  eapply rtc_l; [apply (rv_hardware 0 6 demo_ready demo_kernel (mkSem 0 0) Taking ∅ [] [] [] 0 [65; 66])|].
  apply rtc_once. fold demo_late.
  assert (Eq : newest (cfg_bufsz demo_late - 1) ([] ++ pending (port (serial_of demo_late))) = [65; 66]) by (vm_compute; reflexivity).
  assert (Ep : pending (port (serial_of demo_late)) = [65; 66]) by (vm_compute; reflexivity).
  pose proof (rv_isr 0 6 demo_late demo_kernel (mkSem 0 0) Taking ∅ [] [] [] 0 9 demo_filled (RxIndicate 7 2)
    demo_kernel (mkSem 1 0)) as Hs. cbv zeta in Hs. rewrite Eq, Ep in Hs. apply Hs; [cbn; lia | cbn; lia | vm_compute; reflexivity|].
  vm_compute. reflexivity.
Qed.

Lemma receiver_no_lost_wakeup_witness :
  exists sem', rt_sem_take demo_kernel 6 (mkSem 1 0) RT_WAITING_FOREVER = Some (demo_kernel, sem', Returns RT_EOK).
Proof.
  destruct (receiver_no_lost_wakeup 0 6 demo_serial ∅ RT_DEVICE_FLAG_INT_RX 7 demo_open demo_ready RT_EOK demo
    demo_kernel (mkSem 0 0) (mk_receiver demo_filled demo_kernel (mkSem 1 0) Taking ∅ [65; 66] [65; 66] [] 0) (or_introl demo_registered)) as (_ & Ht & _).
  - repeat split.
  - discriminate.
  - vm_compute. reflexivity.
  - vm_compute. reflexivity.
  - exact demo_ok.
  - exists 0%nat. reflexivity.
  - reflexivity.
  - reflexivity.
  - exact demo_receiver_reach.
  - apply Ht; [reflexivity | discriminate].
Defined.
