(* ===== verification/MessageQueue.v ===== *)
(** * Message queues (src/rt-thread/src/ipc.c, rt_mq_init to rt_mq_control)

    Messages lie in a pool of equal blocks in memory, each with a link in front; the
    queue and the free blocks are linked lists.  [rt_mq_send_wait], [rt_mq_urgent] and
    [rt_mq_recv] have two critical sections with the copy of the message between them,
    where interrupts are enabled: a call is modelled by its three parts, so that other
    calls can come in between, and the whole call is their composition. *)

From S2P Require Import Prelude Memory Kservice Kernel Scheduler Timer Thread Tick Ipc Mailbox Chain.

(** ** Definitions *)

Record MessageQueue := mkMessageQueue {
  mq_pool : Z;             (* msg_pool *)
  mq_msg_size : Z;         (* rt_uint16_t, as the next two *)
  mq_max_msgs : Z;
  mq_entry : Z;
  msg_queue_head : Z;      (* pointers, 0 for RT_NULL *)
  msg_queue_tail : Z;
  msg_queue_free : Z;
  mq_flag : Z;
}.
#[export] Instance MessageQueue_rebuild : Rebuild MessageQueue := fun q =>
  mkMessageQueue (mq_pool q) (mq_msg_size q) (mq_max_msgs q) (mq_entry q)
                 (msg_queue_head q) (msg_queue_tail q) (msg_queue_free q) (mq_flag q).

(** [sizeof(struct rt_mq_message)] *)
Definition SIZEOF_MQ_MESSAGE : Z := 4.

(** One round of the loop that builds the free list. *)
Definition mq_init_round (pool size : Z) (s : Memory * Z) (temp : nat) : Memory * Z :=
  let '(m, free) := s in
  let head := pool + Z.of_nat temp * (size + SIZEOF_MQ_MESSAGE) in
  (store32 m head free, head).

Definition rt_mq_init (k : Kernel) (b : nat) (m : Memory) (msgpool msg_size pool_size flag : Z)
    : Kernel * Memory * MessageQueue * Z :=
  let k := rt_ipc_object_init k (MqRecvWait b) in
  let size := u16 (RT_ALIGN msg_size RT_ALIGN_SIZE) in
  let max_msgs := u16 (pool_size / (size + SIZEOF_MQ_MESSAGE)) in
  let '(m, free) := fold_left (mq_init_round msgpool size) (seq 0 (Z.to_nat max_msgs)) (m, 0) in
  let k := k <| lists := upd (lists k) (MqSendWait b) [] |> in
  (k, m, mkMessageQueue msgpool size max_msgs 0 0 0 free flag, RT_EOK).

Definition mq_resume_all (k : Kernel) (b : nat) : option Kernel :=
  k ← rt_ipc_list_resume_all k (MqRecvWait b);
  rt_ipc_list_resume_all k (MqSendWait b).

Definition rt_mq_detach (k : Kernel) (b : nat) : option (Kernel * Z) :=
  k ← mq_resume_all k b; Some (k, RT_EOK).

(** The first part of a call: it returns or waits, or goes on with the block [msg]. *)
Inductive mq_outcome := MqStops (o : mb_outcome) | MqTakes (msg : Z).

(** *** Sending *)

(** From the test of the loop to the end of the first critical section. *)
Definition mq_send_turn (k : Kernel) (b : nat) (mq : MessageQueue) (m : Memory) (timeout tick_delta : Z)
    : option (Kernel * MessageQueue * mq_outcome) :=
  let msg := msg_queue_free mq in
  if msg =? 0 then
    k ← reset_error k;
    if timeout =? 0 then Some (k, mq, MqStops (MbReturns (- RT_EFULL)))
    else
      '(k, o) ← mb_block k (MqSendWait b) (mq_flag mq) timeout tick_delta;
      Some (k, mq, MqStops o)
  else Some (k, mq <| msg_queue_free := load32 m msg |>, MqTakes msg).

Definition mq_send_begin (k : Kernel) (b : nat) (mq : MessageQueue) (m : Memory) (size timeout : Z)
    : option (Kernel * MessageQueue * mq_outcome) :=
  if mq_msg_size mq <? size then Some (k, mq, MqStops (MbReturns (- RT_ERROR)))
  else if (msg_queue_free mq =? 0) && (timeout =? 0) then Some (k, mq, MqStops (MbReturns (- RT_EFULL)))
  else mq_send_turn k b mq m timeout 0.

(** The call of thread [t] goes on. *)
Definition mq_send_resume (k : Kernel) (b : nat) (mq : MessageQueue) (m : Memory) (t : nat) (timeout tick_delta : Z)
    : option (Kernel * MessageQueue * mq_outcome) :=
  if negb (error (threads k t) =? RT_EOK) then Some (k, mq, MqStops (MbReturns (error (threads k t))))
  else let '(timeout, tick_delta) := time_left k timeout tick_delta in mq_send_turn k b mq m timeout tick_delta.

(** Between the critical sections. *)
Definition mq_send_fill (m : Memory) (msg buffer size : Z) : option Memory :=
  let m := store32 m msg 0 in
  rt_memcpy m (msg + SIZEOF_MQ_MESSAGE) buffer size.

(** The second critical section. *)
Definition mq_send_link (k : Kernel) (b : nat) (mq : MessageQueue) (m : Memory) (msg : Z)
    : option (Kernel * MessageQueue * Memory * Z) :=
  let m := if negb (msg_queue_tail mq =? 0) then store32 m (msg_queue_tail mq) msg else m in
  let mq := mq <| msg_queue_tail := msg |> in
  let mq := if msg_queue_head mq =? 0 then mq <| msg_queue_head := msg |> else mq in
  let mq := mq <| mq_entry := u16 (mq_entry mq + 1) |> in
  k ← mb_wake k (MqRecvWait b);
  Some (k, mq, m, RT_EOK).

(** The call without interruption. *)
Definition rt_mq_send_wait (k : Kernel) (b : nat) (mq : MessageQueue) (m : Memory) (buffer size timeout : Z)
    : option (Kernel * MessageQueue * Memory * mb_outcome) :=
  '(k, mq, o) ← mq_send_begin k b mq m size timeout;
  match o with
  | MqStops o => Some (k, mq, m, o)
  | MqTakes msg =>
      m ← mq_send_fill m msg buffer size;
      '(k, mq, m, e) ← mq_send_link k b mq m msg;
      Some (k, mq, m, MbReturns e)
  end.

Definition rt_mq_send (k : Kernel) (b : nat) (mq : MessageQueue) (m : Memory) (buffer size : Z) :=
  rt_mq_send_wait k b mq m buffer size 0.

(** *** Urgent messages *)

Definition mq_urgent_begin (mq : MessageQueue) (m : Memory) (size : Z) : MessageQueue * mq_outcome :=
  if mq_msg_size mq <? size then (mq, MqStops (MbReturns (- RT_ERROR)))
  else
    let msg := msg_queue_free mq in
    if msg =? 0 then (mq, MqStops (MbReturns (- RT_EFULL)))
    else (mq <| msg_queue_free := load32 m msg |>, MqTakes msg).

Definition mq_urgent_fill (m : Memory) (msg buffer size : Z) : option Memory :=
  rt_memcpy m (msg + SIZEOF_MQ_MESSAGE) buffer size.

Definition mq_urgent_link (k : Kernel) (b : nat) (mq : MessageQueue) (m : Memory) (msg : Z)
    : option (Kernel * MessageQueue * Memory * Z) :=
  let m := store32 m msg (msg_queue_head mq) in
  let mq := mq <| msg_queue_head := msg |> in
  let mq := if msg_queue_tail mq =? 0 then mq <| msg_queue_tail := msg |> else mq in
  let mq := mq <| mq_entry := u16 (mq_entry mq + 1) |> in
  k ← mb_wake k (MqRecvWait b);
  Some (k, mq, m, RT_EOK).

Definition rt_mq_urgent (k : Kernel) (b : nat) (mq : MessageQueue) (m : Memory) (buffer size : Z)
    : option (Kernel * MessageQueue * Memory * mb_outcome) :=
  let '(mq, o) := mq_urgent_begin mq m size in
  match o with
  | MqStops o => Some (k, mq, m, o)
  | MqTakes msg =>
      m ← mq_urgent_fill m msg buffer size;
      '(k, mq, m, e) ← mq_urgent_link k b mq m msg;
      Some (k, mq, m, MbReturns e)
  end.

(** *** Receiving *)

Definition mq_recv_turn (k : Kernel) (b : nat) (mq : MessageQueue) (m : Memory) (timeout tick_delta : Z)
    : option (Kernel * MessageQueue * mq_outcome) :=
  if mq_entry mq =? 0 then
    if negb (in_thread_context k) then None
    else
      k ← reset_error k;
      if timeout =? 0 then
        t ← rt_thread_self k;
        Some (set_thread k t (fun th => th <| error := - RT_ETIMEOUT |>), mq, MqStops (MbReturns (- RT_ETIMEOUT)))
      else
        '(k, o) ← mb_block k (MqRecvWait b) (mq_flag mq) timeout tick_delta;
        Some (k, mq, MqStops o)
  else
    let msg := msg_queue_head mq in
    let mq := mq <| msg_queue_head := load32 m msg |> in
    let mq := if msg_queue_tail mq =? msg then mq <| msg_queue_tail := 0 |> else mq in
    let mq := mq <| mq_entry := u16 (mq_entry mq - 1) |> in
    Some (k, mq, MqTakes msg).

Definition mq_recv_begin (k : Kernel) (b : nat) (mq : MessageQueue) (m : Memory) (timeout : Z)
    : option (Kernel * MessageQueue * mq_outcome) :=
  if (mq_entry mq =? 0) && (timeout =? 0) then Some (k, mq, MqStops (MbReturns (- RT_ETIMEOUT)))
  else mq_recv_turn k b mq m timeout 0.

Definition mq_recv_resume (k : Kernel) (b : nat) (mq : MessageQueue) (m : Memory) (t : nat) (timeout tick_delta : Z)
    : option (Kernel * MessageQueue * mq_outcome) :=
  if negb (error (threads k t) =? RT_EOK) then Some (k, mq, MqStops (MbReturns (error (threads k t))))
  else let '(timeout, tick_delta) := time_left k timeout tick_delta in mq_recv_turn k b mq m timeout tick_delta.

(** How many bytes a receiver with a buffer of [size] bytes gets. *)
Definition mq_copy_size (mq : MessageQueue) (size : Z) : Z := if mq_msg_size mq <? size then mq_msg_size mq else size.

Definition mq_recv_copy (mq : MessageQueue) (m : Memory) (msg buffer size : Z) : option Memory :=
  rt_memcpy m buffer (msg + SIZEOF_MQ_MESSAGE) (mq_copy_size mq size).

Definition mq_recv_release (k : Kernel) (b : nat) (mq : MessageQueue) (m : Memory) (msg : Z)
    : option (Kernel * MessageQueue * Memory * Z) :=
  let m := store32 m msg (msg_queue_free mq) in
  let mq := mq <| msg_queue_free := msg |> in
  k ← mb_wake k (MqSendWait b);
  Some (k, mq, m, RT_EOK).

Definition rt_mq_recv (k : Kernel) (b : nat) (mq : MessageQueue) (m : Memory) (buffer size timeout : Z)
    : option (Kernel * MessageQueue * Memory * mb_outcome) :=
  '(k, mq, o) ← mq_recv_begin k b mq m timeout;
  match o with
  | MqStops o => Some (k, mq, m, o)
  | MqTakes msg =>
      m ← mq_recv_copy mq m msg buffer size;
      '(k, mq, m, e) ← mq_recv_release k b mq m msg;
      Some (k, mq, m, MbReturns e)
  end.

(** *** Reset *)

(** One round of [while (mq->msg_queue_head != RT_NULL)]. *)
Definition mq_reset_round (s : MessageQueue * Memory) : MessageQueue * Memory :=
  let '(mq, m) := s in
  let msg := msg_queue_head mq in
  let mq := mq <| msg_queue_head := load32 m msg |> in
  let mq := if msg_queue_tail mq =? msg then mq <| msg_queue_tail := 0 |> else mq in
  let m := store32 m msg (msg_queue_free mq) in
  (mq <| msg_queue_free := msg |>, m).

Definition rt_mq_control (k : Kernel) (b : nat) (mq : MessageQueue) (m : Memory) (cmd : Z)
    : option (Kernel * MessageQueue * Memory * Z) :=
  if cmd =? RT_IPC_CMD_RESET then
    k ← mq_resume_all k b;
    '(mq, m) ← while (S (Z.to_nat (mq_max_msgs mq))) (fun s => negb (msg_queue_head s.1 =? 0)) mq_reset_round (mq, m);
    let mq := mq <| mq_entry := 0 |> in
    k ← rt_schedule k;
    Some (k, mq, m, RT_EOK)
  else Some (k, mq, m, - RT_ERROR).

(** ** The lists of blocks *)

Definition mq_stride (mq : MessageQueue) : Z := mq_msg_size mq + SIZEOF_MQ_MESSAGE.
Definition mq_blocks (mq : MessageQueue) : list Z := blocks (mq_pool mq) (mq_stride mq) (Z.to_nat (mq_max_msgs mq)).

(** The bytes of the message in a block. *)
Definition content (mq : MessageQueue) (m : Memory) (a : Z) : list Z :=
  bytes_at m (a + SIZEOF_MQ_MESSAGE) (Z.to_nat (mq_msg_size mq)).

(** The queue holds the blocks [q], [f] are free and [busy] in the hands of calls. *)
Record mq_ok (mq : MessageQueue) (m : Memory) (q f busy : list Z) : Prop := {
  mo_pool : 0 < mq_pool mq /\ mq_pool mq + mq_max_msgs mq * mq_stride mq <= 4294967296;
  mo_size : 0 <= mq_msg_size mq < 65536 /\ 0 <= mq_max_msgs mq < 65536;
  mo_queue : chain m (msg_queue_head mq) q;
  mo_tail : msg_queue_tail mq = default 0 (last q);
  mo_free : chain m (msg_queue_free mq) f;
  mo_entry : mq_entry mq = Z.of_nat (length q);
  mo_blocks : q ++ f ++ busy ≡ₚ mq_blocks mq;
}.

(** A call between its critical sections: a sender before and after the copy, a
    receiver before and after the copy, with the block it holds. *)
Inductive job :=
| JobSend (urgent : bool) (msg buffer size : Z)
| JobFilled (urgent : bool) (msg : Z) (data : list Z)
| JobRecv (msg buffer size : Z) (c : list Z)
| JobCopied (msg : Z).
Definition job_msg (j : job) : Z :=
  match j with JobSend _ msg _ _ | JobFilled _ msg _ | JobRecv msg _ _ _ | JobCopied msg => msg end.

(** A buffer outside the pool. *)
Definition client_buffer (mq : MessageQueue) (buffer size : Z) : Prop :=
  0 < size <= INT_MAX /\
  (buffer + size <= mq_pool mq \/ mq_pool mq + mq_max_msgs mq * mq_stride mq <= buffer).

Definition job_ok (mq : MessageQueue) (m : Memory) (j : job) : Prop :=
  match j with
  | JobSend _ _ buffer size => client_buffer mq buffer size /\ size <= mq_msg_size mq
  | JobFilled urgent msg data => data `prefix_of` content mq m msg /\ (urgent = false -> load32 m msg = 0)
  | JobRecv msg buffer size c => client_buffer mq buffer size /\ content mq m msg = c
  | JobCopied _ => True
  end.

(** The parts of the queue the lists depend on. *)
Definition same_frame (mq mq' : MessageQueue) : Prop :=
  mq_pool mq' = mq_pool mq /\ mq_msg_size mq' = mq_msg_size mq /\ mq_max_msgs mq' = mq_max_msgs mq.

Lemma same_frame_job mq mq' m j : same_frame mq mq' -> job_ok mq m j -> job_ok mq' m j.
Proof.
  intros (E1 & E2 & E3). unfold job_ok, client_buffer, content, mq_stride. destruct j; rewrite ?E1, ?E2, ?E3; auto.
Qed.

Section Lists.
Context (mq : MessageQueue) (m : Memory) (q f busy : list Z).
Hypothesis Hok : mq_ok mq m q f busy.

Lemma mq_stride4 : 4 <= mq_stride mq.
Proof. pose proof (mo_size _ _ _ _ _ Hok). unfold mq_stride, SIZEOF_MQ_MESSAGE. lia. Qed.

Lemma mq_block a : a ∈ q \/ a ∈ f \/ a ∈ busy -> a ∈ mq_blocks mq.
Proof. intros H. rewrite <- (mo_blocks _ _ _ _ _ Hok), !elem_of_app. tauto. Qed.

Lemma mq_block_range a :
  a ∈ mq_blocks mq -> mq_pool mq <= a /\ a + mq_stride mq <= mq_pool mq + mq_max_msgs mq * mq_stride mq.
Proof.
  intros H. pose proof (mo_size _ _ _ _ _ Hok).
  pose proof (block_range _ _ _ mq_stride4 _ H). rewrite Z2Nat.id in * by lia. lia.
Qed.

Lemma mq_block_pos a : a ∈ mq_blocks mq -> 0 < a < 4294967296.
Proof.
  intros H. pose proof (mq_block_range a H). pose proof (mo_pool _ _ _ _ _ Hok). pose proof mq_stride4. lia.
Qed.

Lemma mq_distinct : NoDup (q ++ f ++ busy).
Proof. rewrite (mo_blocks _ _ _ _ _ Hok). apply blocks_nodup, mq_stride4. Qed.

Lemma mq_queue_length : (length q <= Z.to_nat (mq_max_msgs mq))%nat.
Proof.
  pose proof (Permutation_length (mo_blocks _ _ _ _ _ Hok)) as H.
  unfold mq_blocks, blocks in H. rewrite length_map, length_seq, length_app in H. lia.
Qed.

Lemma mq_nonzero a : a ∈ q \/ a ∈ f \/ a ∈ busy -> a <> 0.
Proof. intros H. pose proof (mq_block_pos a (mq_block a H)). lia. Qed.

Lemma mq_head_zero : (msg_queue_head mq =? 0) = match q with [] => true | _ => false end.
Proof.
  pose proof (chain_head _ _ _ (fun a Ha => mq_nonzero a (or_introl Ha)) (mo_queue _ _ _ _ _ Hok)) as H. clear -H.
  destruct q; [apply Z.eqb_eq, H; reflexivity | apply Z.eqb_neq; intros E%H; discriminate].
Qed.

Lemma mq_free_zero : (msg_queue_free mq =? 0) = match f with [] => true | _ => false end.
Proof.
  pose proof (chain_head _ _ _ (fun a Ha => mq_nonzero a (or_intror (or_introl Ha))) (mo_free _ _ _ _ _ Hok)) as H. clear -H.
  destruct f; [apply Z.eqb_eq, H; reflexivity | apply Z.eqb_neq; intros E%H; discriminate].
Qed.

Lemma mq_tail_zero : (msg_queue_tail mq =? 0) = match q with [] => true | _ => false end.
Proof.
  rewrite (mo_tail _ _ _ _ _ Hok). assert (Hne : forall a, last q = Some a -> a <> 0).
  { intros a Ha. apply mq_nonzero. left. apply last_Some in Ha as (l & ->). apply elem_of_app. right. left. }
  clear -Hne. destruct q as [|a l]; [reflexivity|]. apply Z.eqb_neq.
  destruct (last (a :: l)) as [t|] eqn:El; [apply Hne; reflexivity | apply last_None in El; discriminate].
Qed.

(** ** Changes of memory *)

(** Blocks that keep their bytes keep their links and contents. *)
Definition kept (m' : Memory) (a : Z) : Prop := same_on m' m a (a + mq_stride mq).

Lemma kept_next m' a : kept m' a -> load32 m' a = load32 m a.
Proof. apply same_next, mq_stride4. Qed.

Lemma kept_content m' a : kept m' a -> content mq m' a = content mq m a.
Proof.
  intros H. unfold content. apply bytes_at_ext. intros i Hi. apply H. pose proof (mo_size _ _ _ _ _ Hok).
  unfold mq_stride, SIZEOF_MQ_MESSAGE in *. lia.
Qed.

Lemma kept_job m' j : kept m' (job_msg j) -> job_ok mq m j -> job_ok mq m' j.
Proof.
  intros H. unfold job_ok. destruct j; cbn [job_msg] in H; rewrite ?(kept_content _ _ H), ?(kept_next _ _ H); auto.
Qed.

Lemma kept_chain m' p l : (forall a, a ∈ l -> kept m' a) -> chain m p l -> chain m' p l.
Proof. intros H. apply chain_ext. intros a Ha. apply kept_next; auto. Qed.

Lemma kept_ok m' : (forall a, a ∈ q -> kept m' a) -> (forall a, a ∈ f -> kept m' a) -> mq_ok mq m' q f busy.
Proof.
  intros Hq Hf. destruct Hok. split; auto.
  - eapply kept_chain; [exact Hq | assumption].
  - eapply kept_chain; [exact Hf | assumption].
Qed.

(** What a write leaves alone: all blocks, or all blocks but [a]. *)
Lemma beside_kept m' a :
  same_on m' m (mq_pool mq) (mq_pool mq + mq_max_msgs mq * mq_stride mq) -> a ∈ mq_blocks mq -> kept m' a.
Proof. intros H Ha x Hx. apply H. pose proof (mq_block_range a Ha). lia. Qed.

Lemma within_kept m' a c :
  within (mq_stride mq) a m m' -> a ∈ mq_blocks mq -> c ∈ mq_blocks mq -> c <> a -> kept m' c.
Proof. intros H Ha Hc Hne. apply (within_other _ _ _ mq_stride4 a c m m' Ha Hc); auto. Qed.
End Lists.

(** ** What each part does to the lists *)

Lemma mq_ok_busy mq m q f busy busy' : busy ≡ₚ busy' -> mq_ok mq m q f busy -> mq_ok mq m q f busy'.
Proof. intros H []. split; auto. rewrite <- H. assumption. Qed.

Definition take_free (mq : MessageQueue) (m : Memory) : MessageQueue :=
  mq <| msg_queue_free := load32 m (msg_queue_free mq) |>.

Lemma take_free_ok mq m q a f busy :
  mq_ok mq m q (a :: f) busy -> msg_queue_free mq = a /\ mq_ok (take_free mq m) m q f (a :: busy).
Proof.
  intros []. destruct mo_free0 as [Ef Hf]. split; [exact Ef|]. unfold take_free. rewrite Ef. split; auto.
  rewrite <- perm_second. exact mo_blocks0.
Qed.

(** Copying a client's buffer into the block [a] that the call holds. *)
Lemma fill_ok mq m q f a rest m0 buffer size :
  mq_ok mq m q f (a :: rest) -> (m0 = m \/ m0 = store32 m a 0) ->
  client_buffer mq buffer size -> size <= mq_msg_size mq ->
  exists m', rt_memcpy m0 (a + SIZEOF_MQ_MESSAGE) buffer size = Some m' /\
    within (mq_stride mq) a m m' /\
    bytes_at m buffer (Z.to_nat size) `prefix_of` content mq m' a /\ load32 m' a = load32 m0 a.
Proof.
  intros Hok Hm0 [Hsize Hbuf] Hle. assert (Ha : a ∈ mq_blocks mq) by (eapply mq_block; [exact Hok|]; right; right; left).
  pose proof (mq_block_range _ _ _ _ _ Hok a Ha) as Hr. pose proof (mo_size _ _ _ _ _ Hok) as Hs.
  assert (Est : mq_stride mq = mq_msg_size mq + 4) by reflexivity. unfold SIZEOF_MQ_MESSAGE.
  destruct (rt_memcpy_spec m0 (a + 4) buffer size) as (m' & E & Hcopy); [lia | lia |].
  exists m'. split; [exact E|].
  assert (Hin : within (mq_stride mq) a m m0).
  { destruct Hm0 as [-> | ->]; [intros x _; reflexivity|]. apply store_next_within. pose proof (mq_stride4 _ _ _ _ _ Hok). lia. }
  split_ands.
  - intros x Hx. rewrite (Hcopy x), copy_other by lia. apply Hin. lia.
  - exists (bytes_at m' (a + 4 + size) (Z.to_nat (mq_msg_size mq - size))). unfold content, SIZEOF_MQ_MESSAGE.
    replace (Z.to_nat (mq_msg_size mq)) with (Z.to_nat size + Z.to_nat (mq_msg_size mq - size))%nat by lia.
    rewrite bytes_at_app. f_equal; [|f_equal; lia].
    apply bytes_at_ext. intros i Hi. rewrite (Hcopy _), load8_copy.
    destruct (Z.leb_spec (a + 4) (a + 4 + i)), (Z.ltb_spec (a + 4 + i) (a + 4 + size)); try lia. cbn [andb].
    replace (buffer + (a + 4 + i - (a + 4))) with (buffer + i) by lia. apply Hin. lia.
  - apply same_on_load32. intros x Hx. rewrite (Hcopy x). apply copy_other. lia.
Qed.

(** The queue with block [a] at its end. *)
Definition link_tail (mq : MessageQueue) (a : Z) : MessageQueue :=
  let mq := mq <| msg_queue_tail := a |> in
  let mq := if msg_queue_head mq =? 0 then mq <| msg_queue_head := a |> else mq in
  mq <| mq_entry := u16 (mq_entry mq + 1) |>.
Definition link_tail_memory (mq : MessageQueue) (m : Memory) (a : Z) : Memory :=
  if negb (msg_queue_tail mq =? 0) then store32 m (msg_queue_tail mq) a else m.

(** The contents of [l] are the same. *)
Definition same_contents (mq : MessageQueue) (m m' : Memory) (l : list Z) : Prop :=
  forall a, a ∈ l -> content mq m' a = content mq m a.

(** Changing the link of a block changes no content. *)
Lemma content_store mq m q f busy a b v :
  mq_ok mq m q f busy -> a ∈ mq_blocks mq -> b ∈ mq_blocks mq ->
  content mq (store32 m a v) b = content mq m b.
Proof.
  intros Hok Ha Hb. unfold content. apply bytes_at_ext. intros i Hi. apply load8_store32_other.
  pose proof (mo_size _ _ _ _ _ Hok). unfold SIZEOF_MQ_MESSAGE in *.
  destruct (blocks_apart _ _ _ (mq_stride4 _ _ _ _ _ Hok) a b Ha Hb) as [-> | [Hap|Hap]];
    unfold mq_stride, SIZEOF_MQ_MESSAGE in *; lia.
Qed.

Lemma mq_not_in mq m q f a rest :
  mq_ok mq m q f (a :: rest) -> (a ∉ q) /\ (a ∉ f) /\ (a ∉ rest) /\ NoDup q /\ (forall b, b ∈ rest -> b ∉ q).
Proof.
  intros Hok. pose proof (mq_distinct _ _ _ _ _ Hok) as H.
  apply NoDup_app in H as (Hq & Hqr & H). apply NoDup_app in H as (_ & Hf & H). apply NoDup_cons in H as [Hr _].
  split_ands; auto.
  - intros Ha. apply (Hqr a Ha). apply elem_of_app. right. left.
  - intros Ha. apply (Hf a Ha). left.
  - intros b Hb Hbq. apply (Hqr b Hbq). apply elem_of_app. right. right. exact Hb.
Qed.

Lemma u16_entry mq m q f a rest :
  mq_ok mq m q f (a :: rest) -> u16 (mq_entry mq + 1) = Z.of_nat (S (length q)).
Proof.
  intros Hok. rewrite (mo_entry _ _ _ _ _ Hok). pose proof (mo_size _ _ _ _ _ Hok).
  pose proof (Permutation_length (mo_blocks _ _ _ _ _ Hok)) as Hl.
  unfold mq_blocks, blocks in Hl. rewrite length_map, length_seq, !length_app in Hl. cbn [length] in Hl.
  rewrite u16_small by lia. lia.
Qed.

(** The last block of the queue, if there is one, is the only block written. *)
Lemma link_tail_kept mq m q f busy a b :
  mq_ok mq m q f busy -> b ∈ mq_blocks mq -> last q <> Some b -> kept mq m (link_tail_memory mq m a) b.
Proof.
  intros Hok Hb Hne. unfold link_tail_memory. rewrite (mq_tail_zero _ _ _ _ _ Hok), (mo_tail _ _ _ _ _ Hok).
  destruct (last q) as [t|] eqn:El; [|apply last_None in El; subst q; intros x _; reflexivity].
  assert (Ht : t ∈ mq_blocks mq).
  { apply (mq_block _ _ _ _ _ Hok). left. apply last_Some in El as (l & ->). apply elem_of_app. right. left. }
  destruct q as [|x q]; [discriminate El|]. cbn [negb].
  apply (within_kept mq m _ _ _ Hok _ t b); auto; [|congruence].
  apply store_next_within, (mq_stride4 _ _ _ _ _ Hok).
Qed.

Lemma link_tail_chain mq m q f a rest :
  mq_ok mq m q f (a :: rest) -> load32 m a = 0 ->
  chain (link_tail_memory mq m a) (if msg_queue_head mq =? 0 then a else msg_queue_head mq) (q ++ [a]).
Proof.
  intros Hok Ha. destruct (mq_not_in _ _ _ _ _ _ Hok) as (Naq & _ & _ & Hnd & _).
  pose proof (mq_block _ _ _ _ _ Hok) as Hin. pose proof (Hin a ltac:(right; right; left)) as Hab.
  pose proof (fun b => link_tail_kept mq m q f _ a b Hok) as Hkept.
  assert (Hnext : load32 (link_tail_memory mq m a) a = 0).
  { rewrite <- Ha. eapply kept_next; [exact Hok|]. apply Hkept; [exact Hab|]. intros E. apply Naq.
    apply last_Some in E as (l & ->). apply elem_of_app. right. left. }
  rewrite (mq_head_zero _ _ _ _ _ Hok). destruct (last q) as [t|] eqn:El.
  - pose proof El as El'. apply last_Some in El as (l & ->).
    assert (Emid : match l ++ [t] with [] => true | _ :: _ => false end = false) by (destruct l; reflexivity).
    rewrite Emid, <- app_assoc. apply (chain_snoc m _ (msg_queue_head mq) l t a); auto; [| |apply (mo_queue _ _ _ _ _ Hok)].
    + intros x Hx. eapply kept_next; [exact Hok|]. apply Hkept; [apply Hin; left; apply elem_of_app; auto|].
      intros [= ->]. apply NoDup_app in Hnd as (_ & Hd & _). apply (Hd x Hx). left.
    + unfold link_tail_memory. rewrite (mq_tail_zero _ _ _ _ _ Hok), Emid, (mo_tail _ _ _ _ _ Hok), El'. cbn [negb].
      rewrite load32_store32. apply u32_small. pose proof (mq_block_pos _ _ _ _ _ Hok a Hab). lia.
  - apply last_None in El. subst q. split; [reflexivity | exact Hnext].
Qed.

Lemma link_tail_ok mq m q f a rest :
  mq_ok mq m q f (a :: rest) -> load32 m a = 0 ->
  let m' := link_tail_memory mq m a in
  mq_ok (link_tail mq a) m' (q ++ [a]) f rest /\ same_contents mq m m' (mq_blocks mq) /\
  forall b, b ∈ rest -> kept mq m m' b.
Proof.
  intros Hok Ha m'. destruct (mq_not_in _ _ _ _ _ _ Hok) as (_ & _ & _ & _ & Hrest).
  pose proof (mq_block _ _ _ _ _ Hok) as Hin.
  assert (Hkept : forall b, b ∈ mq_blocks mq -> b ∉ q -> kept mq m m' b).
  { intros b Hb Hq. apply (link_tail_kept mq m q f _ a b Hok Hb). intros E. apply Hq.
    apply last_Some in E as (l & ->). apply elem_of_app. right. left. }
  assert (Hfq : forall b, b ∈ f -> b ∉ q).
  { intros b Hb Hq. pose proof (mq_distinct _ _ _ _ _ Hok) as Hd. apply NoDup_app in Hd as (_ & Hd & _).
    apply (Hd b Hq). apply elem_of_app. auto. }
  split_ands.
  - pose proof (link_tail_chain _ _ _ _ _ _ Hok Ha) as Hchain. pose proof (u16_entry _ _ _ _ _ _ Hok) as Hen.
    pose proof Hok as []. unfold link_tail. fold m' in Hchain.
    assert (Hperm : (q ++ [a]) ++ f ++ rest ≡ₚ mq_blocks mq) by (rewrite <- mo_blocks0; apply perm_last).
    assert (Hfree : chain m' (msg_queue_free mq) f) by (eapply kept_chain; [exact Hok | auto | exact mo_free0]).
    assert (Hlast : a = default 0 (last (q ++ [a]))) by (rewrite last_snoc; reflexivity).
    assert (Hlen : u16 (mq_entry mq + 1) = Z.of_nat (length (q ++ [a]))) by (rewrite Hen, length_app; cbn; lia).
    change (msg_queue_head (mq <| msg_queue_tail := a |>)) with (msg_queue_head mq).
    destruct (msg_queue_head mq =? 0); split; assumption.
  - intros b Hb. unfold m', link_tail_memory. rewrite (mq_tail_zero _ _ _ _ _ Hok), (mo_tail _ _ _ _ _ Hok).
    destruct (last q) as [t|] eqn:El; [|apply last_None in El; subst q; reflexivity].
    destruct q as [|x q]; [discriminate El|]. cbn [negb].
    apply (content_store _ _ _ _ _ _ _ _ Hok); [|exact Hb].
    apply Hin. left. apply last_Some in El as (l & ->). apply elem_of_app. right. left.
  - intros b Hb. apply Hkept; [apply Hin; right; right; right; exact Hb | auto].
Qed.

(** The queue with block [a] in front. *)
Definition link_head (mq : MessageQueue) (a : Z) : MessageQueue :=
  let mq := mq <| msg_queue_head := a |> in
  let mq := if msg_queue_tail mq =? 0 then mq <| msg_queue_tail := a |> else mq in
  mq <| mq_entry := u16 (mq_entry mq + 1) |>.

(** Writing the link of a block in the hands of a call. *)
Lemma busy_link mq m q f a rest v :
  mq_ok mq m q f (a :: rest) ->
  let m' := store32 m a v in
  (forall b, b ∈ mq_blocks mq -> b <> a -> kept mq m m' b) /\
  load32 m' a = u32 v /\ chain m' (msg_queue_head mq) q /\ chain m' (msg_queue_free mq) f /\
  same_contents mq m m' (mq_blocks mq) /\ (forall b, b ∈ rest -> kept mq m m' b).
Proof.
  intros Hok m'. destruct (mq_not_in _ _ _ _ _ _ Hok) as (Naq & Naf & Nar & _ & _).
  pose proof (mq_block _ _ _ _ _ Hok) as Hin. pose proof (Hin a ltac:(right; right; left)) as Ha.
  assert (Hkept : forall b, b ∈ mq_blocks mq -> b <> a -> kept mq m m' b).
  { intros b Hb Hne. apply (within_kept mq m _ _ _ Hok _ a b); auto. apply store_next_within, (mq_stride4 _ _ _ _ _ Hok). }
  split_ands; auto.
  - apply load32_store32.
  - eapply kept_chain; [exact Hok| |apply (mo_queue _ _ _ _ _ Hok)]. intros b Hb. apply Hkept; [auto|]. intros ->. contradiction.
  - eapply kept_chain; [exact Hok| |apply (mo_free _ _ _ _ _ Hok)]. intros b Hb. apply Hkept; [auto|]. intros ->. contradiction.
  - intros b Hb. apply (content_store _ _ _ _ _ _ _ _ Hok Ha Hb).
  - intros b Hb. apply Hkept; [apply Hin; right; right; right; exact Hb|]. intros ->. contradiction.
Qed.

Lemma link_head_ok mq m q f a rest :
  mq_ok mq m q f (a :: rest) ->
  let m' := store32 m a (msg_queue_head mq) in
  mq_ok (link_head mq a) m' (a :: q) f rest /\ same_contents mq m m' (mq_blocks mq) /\
  forall b, b ∈ rest -> kept mq m m' b.
Proof.
  intros Hok m'. destruct (busy_link _ _ _ _ _ _ (msg_queue_head mq) Hok) as (_ & Hl & Hq & Hf & Hc & Hk).
  split; [|auto]. pose proof (mq_tail_zero _ _ _ _ _ Hok) as Ht. pose proof (u16_entry _ _ _ _ _ _ Hok) as He.
  assert (Hhead : u32 (msg_queue_head mq) = msg_queue_head mq).
  { apply u32_small. pose proof (mo_queue _ _ _ _ _ Hok) as H. destruct q as [|h q']; cbn in H; [lia|].
    destruct H as [-> _]. pose proof (mq_block_pos _ _ _ _ _ Hok h (mq_block _ _ _ _ _ Hok h ltac:(left; left))). lia. }
  destruct Hok. unfold link_head. rewrite Hhead in Hl.
  assert (Hchain : chain m' a (a :: q)) by (split; [reflexivity|]; unfold m'; rewrite Hl; exact Hq).
  assert (Hperm : (a :: q) ++ f ++ rest ≡ₚ mq_blocks mq).
  { rewrite <- mo_blocks0. apply perm_first. }
  assert (Htl : (if msg_queue_tail mq =? 0 then a else msg_queue_tail mq) = default 0 (last (a :: q))).
  { rewrite Ht, mo_tail0. clear. destruct q as [|x q]; reflexivity. }
  change (msg_queue_tail (mq <| msg_queue_head := a |>)) with (msg_queue_tail mq).
  destruct (msg_queue_tail mq =? 0); split; assumption.
Qed.

(** The first block leaves the queue. *)
Definition unlink_head (mq : MessageQueue) (m : Memory) : MessageQueue :=
  let msg := msg_queue_head mq in
  let mq := mq <| msg_queue_head := load32 m msg |> in
  let mq := if msg_queue_tail mq =? msg then mq <| msg_queue_tail := 0 |> else mq in
  mq <| mq_entry := u16 (mq_entry mq - 1) |>.

Lemma unlink_head_ok mq m a q f busy :
  mq_ok mq m (a :: q) f busy -> msg_queue_head mq = a /\ mq_ok (unlink_head mq m) m q f (a :: busy).
Proof.
  intros Hok. pose proof (mq_distinct _ _ _ _ _ Hok) as Hd. cbn in Hd. apply NoDup_cons in Hd as [Hna _].
  pose proof (mo_queue _ _ _ _ _ Hok) as [Eh Hq]. split; [exact Eh|].
  destruct Hok. unfold unlink_head. rewrite Eh.
  assert (Htl : (if msg_queue_tail mq =? a then 0 else msg_queue_tail mq) = default 0 (last q)).
  { rewrite mo_tail0. destruct q as [|x q]; [cbn; rewrite Z.eqb_refl; reflexivity|].
    change (last (a :: x :: q)) with (last (x :: q)). destruct (last (x :: q)) as [t|] eqn:El; [|apply last_None in El; discriminate].
    change (default 0 (Some t)) with t. apply last_Some in El as (l & El). destruct (Z.eqb_spec t a) as [->|]; [|reflexivity].
    destruct Hna. rewrite El. apply elem_of_app. left. apply elem_of_app. right. left. }
  assert (Hen : u16 (mq_entry mq - 1) = Z.of_nat (length q)).
  { pose proof (Permutation_length mo_blocks0) as Hl. unfold mq_blocks, blocks in Hl.
    rewrite length_map, length_seq, !length_app in Hl. cbn [length] in Hl, mo_entry0. rewrite u16_small by lia. lia. }
  assert (Hperm : q ++ f ++ a :: busy ≡ₚ mq_blocks mq).
  { rewrite <- mo_blocks0. symmetry. apply perm_first. }
  change (msg_queue_tail (mq <| msg_queue_head := load32 m a |>)) with (msg_queue_tail mq).
  destruct (msg_queue_tail mq =? a); split; assumption.
Qed.

(** A block returns to the free list. *)
Lemma release_ok mq m q f a rest :
  mq_ok mq m q f (a :: rest) ->
  let m' := store32 m a (msg_queue_free mq) in
  mq_ok (mq <| msg_queue_free := a |>) m' q (a :: f) rest /\ same_contents mq m m' (mq_blocks mq) /\
  forall b, b ∈ rest -> kept mq m m' b.
Proof.
  intros Hok m'. destruct (busy_link _ _ _ _ _ _ (msg_queue_free mq) Hok) as (_ & Hl & Hq & Hf & Hc & Hk).
  split; [|auto].
  assert (Hfree : u32 (msg_queue_free mq) = msg_queue_free mq).
  { apply u32_small. pose proof (mo_free _ _ _ _ _ Hok) as H. destruct f as [|h f']; cbn in H; [lia|].
    destruct H as [-> _]. pose proof (mq_block_pos _ _ _ _ _ Hok h (mq_block _ _ _ _ _ Hok h ltac:(right; left; left))). lia. }
  destruct Hok. rewrite Hfree in Hl.
  assert (Hchain : chain m' a (a :: f)) by (split; [reflexivity|]; unfold m'; rewrite Hl; exact Hf).
  assert (Hperm : q ++ (a :: f) ++ rest ≡ₚ mq_blocks mq).
  { rewrite <- mo_blocks0. apply perm_second. }
  split; assumption.
Qed.

(** Emptying the queue: the blocks in the hands of calls are left alone. *)
Definition with_entry (mq : MessageQueue) (n : nat) : MessageQueue := mq <| mq_entry := Z.of_nat n |>.

Lemma reset_round_ok mq m a q f busy :
  mq_ok (with_entry mq (S (length q))) m (a :: q) f busy ->
  let s := mq_reset_round (mq, m) in
  mq_ok (with_entry s.1 (length q)) s.2 q (a :: f) busy /\ same_frame mq s.1 /\ mq_flag s.1 = mq_flag mq /\
  forall b, b ∈ busy -> kept mq m s.2 b.
Proof.
  intros Hok s. destruct (unlink_head_ok _ _ _ _ _ _ Hok) as [Eh Hok1].
  destruct (release_ok _ _ _ _ _ _ Hok1) as (Hok2 & _ & Hk). unfold s, mq_reset_round.
  change (msg_queue_head (with_entry mq (S (length q)))) with (msg_queue_head mq) in Eh. rewrite Eh.
  assert (Hlen : mq_entry (unlink_head (with_entry mq (S (length q))) m) = Z.of_nat (length q))
    by (apply (mo_entry _ _ _ _ _ Hok1)).
  unfold unlink_head in *.
  change (msg_queue_head (with_entry mq (S (length q)))) with (msg_queue_head mq) in *. rewrite Eh in *.
  change (msg_queue_tail (with_entry mq (S (length q)) <| msg_queue_head := load32 m a |>)) with (msg_queue_tail mq) in *.
  change (msg_queue_tail (mq <| msg_queue_head := load32 m a |>)) with (msg_queue_tail mq).
  destruct (msg_queue_tail mq =? a);
    (split; [destruct Hok2; split; auto; rewrite Hlen in *; reflexivity|]);
    (split; [unfold same_frame; split_ands; reflexivity|]); (split; [reflexivity | exact Hk]).
Qed.

Lemma reset_loop q : forall fuel mq m f busy,
  (length q < fuel)%nat -> mq_ok (with_entry mq (length q)) m q f busy ->
  exists mq' m' f', while fuel (fun s => negb (msg_queue_head s.1 =? 0)) mq_reset_round (mq, m) = Some (mq', m') /\
    mq_ok (with_entry mq' 0) m' [] f' busy /\ same_frame mq mq' /\ mq_flag mq' = mq_flag mq /\
    forall b, b ∈ busy -> kept mq m m' b.
Proof.
  induction q as [|a q IH]; intros fuel mq m f busy Hf Hok; destruct fuel as [|fuel]; cbn [length] in Hf; try lia;
    cbn [while fst]; pose proof (mq_head_zero _ _ _ _ _ Hok) as Hz;
    change (msg_queue_head (with_entry mq _)) with (msg_queue_head mq) in Hz; rewrite Hz; cbn [negb].
  - exists mq, m, f. split; [reflexivity|]. split; [exact Hok|]. split; [unfold same_frame; split_ands; reflexivity|].
    split; [reflexivity|]. intros b _ x _. reflexivity.
  - destruct (reset_round_ok _ _ _ _ _ _ Hok) as (Hok1 & (E1 & E2 & E3) & Ef & Hk).
    destruct (mq_reset_round (mq, m)) as [mq1 m1]. cbn [fst snd] in *.
    destruct (IH fuel mq1 m1 (a :: f) busy ltac:(lia) Hok1) as (mq' & m' & f' & E & Hok' & (E1' & E2' & E3') & Ef' & Hk').
    exists mq', m', f'. split; [exact E|]. split; [exact Hok'|]. split; [unfold same_frame; split_ands; congruence|].
    split; [congruence|]. intros b Hb x Hx. rewrite (Hk' b Hb), (Hk b Hb) by (unfold mq_stride in *; rewrite ?E2; exact Hx).
    reflexivity.
Qed.

(** ** A queue in use *)

(** The messages as they pass through the queue: a message is put at the end or, if
    urgent, in front; taken from the front; and copied to a receiver. *)
Inductive mq_label :=
| Sent (urgent : bool) (data : list Z) | Taken (c : list Z) | Delivered (c out : list Z) | Emptied | Silent.

(** The specification: a queue of messages of fixed size, the data sent followed by
    unspecified bytes. *)
Inductive queue_step : list (list Z) -> mq_label -> list (list Z) -> Prop :=
| q_sent Q data c : data `prefix_of` c -> queue_step Q (Sent false data) (Q ++ [c])
| q_urgent Q data c : data `prefix_of` c -> queue_step Q (Sent true data) (c :: Q)
| q_taken Q c : queue_step (c :: Q) (Taken c) Q
| q_delivered Q c out : out `prefix_of` c -> queue_step Q (Delivered c out) Q
| q_emptied Q : queue_step Q Emptied []
| q_silent Q : queue_step Q Silent Q.

Record mq_system := mkMqSystem {
  qs_kernel : Kernel;
  qs_mq : MessageQueue;
  qs_memory : Memory;
  qs_jobs : list job;
}.

Definition started (o : mq_outcome) (j : Z -> job) : list job :=
  match o with MqTakes msg => [j msg] | MqStops _ => [] end.
(** A receiver takes the message [Q] begins with. *)
Definition taken_label (mq : MessageQueue) (m : Memory) (o : mq_outcome) : mq_label :=
  match o with MqTakes msg => Taken (content mq m msg) | MqStops _ => Silent end.

Section Steps.
Variable b : nat.

Inductive mq_step : mq_system -> mq_label -> mq_system -> Prop :=
| qstep_send k mq m js c buffer size timeout k' mq' o :
    caller k c timeout -> client_buffer mq buffer size ->
    mq_send_begin k b mq m size timeout = Some (k', mq', o) ->
    mq_step (mkMqSystem k mq m js) Silent (mkMqSystem k' mq' m (started o (fun msg => JobSend false msg buffer size) ++ js))
| qstep_send_resume k mq m js t buffer size timeout delta k' mq' o :
    caller k t (fst (time_left k timeout delta)) -> error (threads k t) = RT_EOK ->
    client_buffer mq buffer size -> size <= mq_msg_size mq ->
    mq_send_resume k b mq m t timeout delta = Some (k', mq', o) ->
    mq_step (mkMqSystem k mq m js) Silent (mkMqSystem k' mq' m (started o (fun msg => JobSend false msg buffer size) ++ js))
| qstep_urgent k mq m js buffer size mq' o :
    client_buffer mq buffer size -> mq_urgent_begin mq m size = (mq', o) ->
    mq_step (mkMqSystem k mq m js) Silent (mkMqSystem k mq' m (started o (fun msg => JobSend true msg buffer size) ++ js))
| qstep_fill k mq m js1 (u : bool) msg buffer size js2 m' :
    (if u then mq_urgent_fill m msg buffer size else mq_send_fill m msg buffer size) = Some m' ->
    mq_step (mkMqSystem k mq m (js1 ++ JobSend u msg buffer size :: js2)) Silent
            (mkMqSystem k mq m' (js1 ++ JobFilled u msg (bytes_at m buffer (Z.to_nat size)) :: js2))
| qstep_link k mq m js1 (u : bool) msg data js2 k' mq' m' e :
    (if u then mq_urgent_link k b mq m msg else mq_send_link k b mq m msg) = Some (k', mq', m', e) ->
    mq_step (mkMqSystem k mq m (js1 ++ JobFilled u msg data :: js2)) (Sent u data) (mkMqSystem k' mq' m' (js1 ++ js2))
| qstep_recv k mq m js c buffer size timeout k' mq' o :
    caller k c timeout -> client_buffer mq buffer size ->
    mq_recv_begin k b mq m timeout = Some (k', mq', o) ->
    mq_step (mkMqSystem k mq m js) (taken_label mq m o)
            (mkMqSystem k' mq' m (started o (fun msg => JobRecv msg buffer size (content mq m msg)) ++ js))
| qstep_recv_resume k mq m js t buffer size timeout delta k' mq' o :
    caller k t (fst (time_left k timeout delta)) -> error (threads k t) = RT_EOK -> client_buffer mq buffer size ->
    mq_recv_resume k b mq m t timeout delta = Some (k', mq', o) ->
    mq_step (mkMqSystem k mq m js) (taken_label mq m o)
            (mkMqSystem k' mq' m (started o (fun msg => JobRecv msg buffer size (content mq m msg)) ++ js))
| qstep_copy k mq m js1 msg buffer size c js2 m' :
    mq_recv_copy mq m msg buffer size = Some m' ->
    mq_step (mkMqSystem k mq m (js1 ++ JobRecv msg buffer size c :: js2))
            (Delivered c (bytes_at m' buffer (Z.to_nat (mq_copy_size mq size))))
            (mkMqSystem k mq m' (js1 ++ JobCopied msg :: js2))
| qstep_release k mq m js1 msg js2 k' mq' m' e :
    mq_recv_release k b mq m msg = Some (k', mq', m', e) ->
    mq_step (mkMqSystem k mq m (js1 ++ JobCopied msg :: js2)) Silent (mkMqSystem k' mq' m' (js1 ++ js2))
| qstep_reset k mq m js k' mq' m' e :
    rt_mq_control k b mq m RT_IPC_CMD_RESET = Some (k', mq', m', e) ->
    mq_step (mkMqSystem k mq m js) Emptied (mkMqSystem k' mq' m' js)
| qstep_rest k mq m js k' m' :
    rest_step (MqRecvWait b) k k' -> rest_step (MqSendWait b) k k' ->
    same_on m' m (mq_pool mq) (mq_pool mq + mq_max_msgs mq * mq_stride mq) ->
    mq_step (mkMqSystem k mq m js) Silent (mkMqSystem k' mq m' js).

(** The messages [Q] are in the queue of system [y]. *)
Definition holds (y : mq_system) (Q : list (list Z)) : Prop :=
  let '(mkMqSystem k mq m js) := y in
  calm k k /\ exists q f, mq_ok mq m q f (map job_msg js) /\ Q = map (content mq m) q /\ Forall (job_ok mq m) js.
End Steps.

(** ** The first part of the calls *)

Section Turns.
Context (b : nat) (k : Kernel) (mq : MessageQueue) (m : Memory) (q f busy : list Z) (c : nat).
Hypothesis Hok : mq_ok mq m q f busy.
Hypothesis Hkok : kernel_ok (rt_tick k) k.
Hypothesis Hc : rt_current_thread k = Some c.
Hypothesis Hrun : thread_stat (threads k c) = RT_THREAD_RUNNING.

(** The queue after the first part: unchanged, or a block was taken. *)
Definition send_case (k' : Kernel) (mq' : MessageQueue) (o : mq_outcome) : Prop :=
  match o with
  | MqStops _ => mq' = mq /\ calm k k'
  | MqTakes msg => k' = k /\ mq' = take_free mq m /\ exists f', f = msg :: f'
  end.
Definition recv_case (k' : Kernel) (mq' : MessageQueue) (o : mq_outcome) : Prop :=
  match o with
  | MqStops _ => mq' = mq /\ calm k k'
  | MqTakes msg => k' = k /\ mq' = unlink_head mq m /\ exists q', q = msg :: q'
  end.

Lemma calm_same : calm k k.
Proof. split; [exact Hkok | eauto]. Qed.

Lemma mq_send_turn_cases timeout delta :
  timeout = 0 \/ rt_interrupt_nest k = 0 -> timeout < RT_TICK_HALF ->
  exists k' mq' o, mq_send_turn k b mq m timeout delta = Some (k', mq', o) /\ send_case k' mq' o.
Proof.
  intros Hn Ht. unfold mq_send_turn. rewrite (mq_free_zero _ _ _ _ _ Hok). destruct f as [|a f'] eqn:Ef.
  - destruct (Z.eqb_spec timeout 0) as [->|H0].
    + destruct (reset_error_spec k c Hkok Hc) as (k1 & -> & Hok1 & Ht1 & Hc1 & _). cbn [mbind option_bind].
      eexists _, _, _. split; [reflexivity|]. split; [reflexivity|]. split; [rewrite Ht1; exact Hok1 | eauto].
    + destruct (block_turn k (mq_flag mq) (MqSendWait b) c timeout delta) as (k1 & -> & k' & E & Hcm & _); auto; [tauto|].
      cbn [mbind option_bind]. rewrite E. cbn [mbind option_bind]. eexists _, _, _. split; [reflexivity|]. split; auto.
  - eexists _, _, _. split; [reflexivity|]. cbn. pose proof (mo_free _ _ _ _ _ Hok) as Hf.
    destruct Hf as [E _]. rewrite E. split; [reflexivity|].
    split; [unfold take_free; rewrite E; reflexivity | exists f'; exact Ef].
Qed.

Lemma mq_recv_turn_cases timeout delta :
  rt_interrupt_nest k = 0 \/ q <> [] -> timeout < RT_TICK_HALF ->
  exists k' mq' o, mq_recv_turn k b mq m timeout delta = Some (k', mq', o) /\ recv_case k' mq' o.
Proof.
  intros Hn Ht. unfold mq_recv_turn.
  assert (Hz : (mq_entry mq =? 0) = match q with [] => true | _ => false end).
  { rewrite (mo_entry _ _ _ _ _ Hok). destruct q; reflexivity. }
  rewrite Hz. destruct q as [|a q'] eqn:Eq.
  - assert (Hn0 : rt_interrupt_nest k = 0) by (destruct Hn; [assumption | contradiction]).
    assert (Hctx : in_thread_context k = true) by (unfold in_thread_context, rt_thread_self; rewrite Hc, Hn0; reflexivity).
    rewrite Hctx. cbn [negb].
    destruct (Z.eqb_spec timeout 0) as [->|H0].
    + destruct (reset_error_spec k c Hkok Hc) as (k1 & -> & Hok1 & Ht1 & Hc1 & _). cbn [mbind option_bind].
      unfold rt_thread_self. rewrite Hc1. cbn [mbind option_bind].
      eexists _, _, _. split; [reflexivity|]. split; [reflexivity|].
      assert (Hok2 : kernel_ok (rt_tick k1) (set_thread k1 c (fun th => th <| error := - RT_ETIMEOUT |>))).
      { apply set_thread_inert_ok; [intros th; auto|rewrite Ht1; exact Hok1]. }
      split; [exact Hok2 | eauto].
    + destruct (block_turn k (mq_flag mq) (MqRecvWait b) c timeout delta) as (k1 & -> & k' & E & Hcm & _); auto.
      cbn [mbind option_bind]. rewrite E. cbn [mbind option_bind]. eexists _, _, _. split; [reflexivity|]. split; auto.
  - eexists _, _, _. split; [reflexivity|]. cbn. pose proof (mo_queue _ _ _ _ _ Hok) as Hq.
    destruct Hq as [E _]. split; [reflexivity|]. split; [reflexivity|]. exists q'. rewrite E. exact Eq.
Qed.
End Turns.

(** ** Every part refines a step of the specification *)

Section Simulation.
Variable b : nat.

Lemma jobs_kept mq m q f busy m' js :
  mq_ok mq m q f busy -> (forall a, a ∈ map job_msg js -> kept mq m m' a) ->
  Forall (job_ok mq m) js -> Forall (job_ok mq m') js.
Proof.
  intros Hok Hk Hjs. apply List.Forall_forall. intros j Hj. rewrite List.Forall_forall in Hjs.
  eapply kept_job; [exact Hok | | apply Hjs; exact Hj]. apply Hk, list_elem_of_In, in_map, Hj.
Qed.

Lemma jobs_frame mq mq' m js : same_frame mq mq' -> Forall (job_ok mq m) js -> Forall (job_ok mq' m) js.
Proof. intros H Hjs. eapply Forall_impl; [exact Hjs|]. intros j. apply same_frame_job, H. Qed.

Lemma contents_same mq m m' l :
  same_contents mq m m' (mq_blocks mq) -> (forall a, a ∈ l -> a ∈ mq_blocks mq) ->
  map (content mq m') l = map (content mq m) l.
Proof. intros H Hl. apply map_ext_in. intros a Ha. apply H, Hl, list_elem_of_In, Ha. Qed.

(** The job [j] of a system, and the others. *)
Lemma jobs_split js1 j js2 : map job_msg (js1 ++ j :: js2) ≡ₚ job_msg j :: map job_msg (js1 ++ js2).
Proof. rewrite !map_app. symmetry. apply (Permutation_middle _ (map job_msg js2) (job_msg j)). Qed.

Lemma jobs_ok_split {mq m} js1 j js2 :
  Forall (job_ok mq m) (js1 ++ j :: js2) <-> job_ok mq m j /\ Forall (job_ok mq m) (js1 ++ js2).
Proof. rewrite !Forall_app, Forall_cons. tauto. Qed.

Lemma send_case_sim k mq m js Q k' mq' o u buffer size :
  holds (mkMqSystem k mq m js) Q -> client_buffer mq buffer size ->
  (forall q f, mq_ok mq m q f (map job_msg js) -> send_case k mq m f k' mq' o) ->
  (forall msg, o = MqTakes msg -> size <= mq_msg_size mq) ->
  holds (mkMqSystem k' mq' m (started o (fun msg => JobSend u msg buffer size) ++ js)) Q.
Proof.
  intros (Hcalm & q & f & Hok & HQ & Hjs) Hbuf Hcase Hle. specialize (Hcase q f Hok). destruct o as [o|msg]; cbn [send_case] in Hcase.
  - destruct Hcase as [-> [H1 H2]]. split; [split; assumption|]. exists q, f; auto.
  - destruct Hcase as (-> & -> & f' & ->). destruct (take_free_ok _ _ _ _ _ _ Hok) as [_ Hok'].
    split; [exact Hcalm|]. exists q, f'. split; [exact Hok'|]. split; [exact HQ|].
    apply Forall_cons. split; [split; [exact Hbuf | exact (Hle msg eq_refl)] | exact Hjs].
Qed.

Lemma recv_case_sim k mq m js Q k' mq' o buffer size :
  holds (mkMqSystem k mq m js) Q -> client_buffer mq buffer size ->
  (forall q f, mq_ok mq m q f (map job_msg js) -> recv_case k mq m q k' mq' o) ->
  exists Q', queue_step Q (taken_label mq m o) Q' /\
    holds (mkMqSystem k' mq' m (started o (fun msg => JobRecv msg buffer size (content mq m msg)) ++ js)) Q'.
Proof.
  intros (Hcalm & q & f & Hok & HQ & Hjs) Hbuf Hcase. specialize (Hcase q f Hok). destruct o as [o|msg]; cbn [recv_case] in Hcase.
  - destruct Hcase as [-> [H1 H2]]. exists Q. split; [apply q_silent|]. split; [split; assumption|]. exists q, f; auto.
  - destruct Hcase as (-> & -> & q' & ->). destruct (unlink_head_ok _ _ _ _ _ _ Hok) as [_ Hok'].
    assert (Hframe : same_frame mq (unlink_head mq m)).
    { unfold unlink_head. destruct (msg_queue_tail _ =? _); unfold same_frame; split_ands; reflexivity. }
    assert (Hcont : forall a, content (unlink_head mq m) m a = content mq m a).
    { intros a. unfold content. rewrite (proj1 (proj2 Hframe)). reflexivity. }
    exists (map (content mq m) q'). subst Q. split; [apply q_taken|]. split; [exact Hcalm|]. exists q', f.
    split; [exact Hok'|]. split; [apply map_ext; intros; symmetry; apply Hcont|].
    cbn [started app]. apply Forall_cons. split; [|apply (jobs_frame _ _ _ _ Hframe), Hjs].
    split; [|apply Hcont]. destruct Hframe as (E1 & E2 & E3). unfold client_buffer, mq_stride in *. rewrite E1, E2, E3. exact Hbuf.
Qed.

Lemma fill_sim k mq m js1 u msg buffer size js2 Q :
  holds (mkMqSystem k mq m (js1 ++ JobSend u msg buffer size :: js2)) Q ->
  exists m', (if u then mq_urgent_fill m msg buffer size else mq_send_fill m msg buffer size) = Some m' /\
    holds (mkMqSystem k mq m' (js1 ++ JobFilled u msg (bytes_at m buffer (Z.to_nat size)) :: js2)) Q.
Proof.
  intros (Hcalm & q & f & Hok & HQ & Hjs). apply jobs_ok_split in Hjs as [[Hbuf Hle] Hjs].
  pose proof (mq_ok_busy _ _ _ _ _ _ (jobs_split js1 (JobSend u msg buffer size) js2) Hok) as Hok1. cbn [job_msg] in Hok1.
  destruct (fill_ok _ _ _ _ _ _ (if u then m else store32 m msg 0) buffer size Hok1) as (m' & E & Hw & Hpre & Hnext); auto;
    [destruct u; auto|].
  exists m'. split; [destruct u; exact E|]. split; [exact Hcalm|]. exists q, f.
  pose proof (mq_block _ _ _ _ _ Hok1) as Hin. destruct (mq_not_in _ _ _ _ _ _ Hok1) as (Nq & Nf & Nr & _ & _).
  assert (Hk : forall a, a ∈ mq_blocks mq -> a <> msg -> kept mq m m' a).
  { intros a Ha Hne. apply (within_kept mq m _ _ _ Hok1 _ msg a); auto. apply Hin. right. right. left. }
  assert (Hkq : forall a, a ∈ q -> kept mq m m' a) by (intros a Ha; apply Hk; [auto | intros ->; contradiction]).
  split_ands.
  - apply (mq_ok_busy _ _ _ _ (msg :: map job_msg (js1 ++ js2))).
    + symmetry. apply (jobs_split js1 (JobFilled u msg _) js2).
    + apply (kept_ok _ _ _ _ _ Hok1); [exact Hkq|]. intros a Ha. apply Hk; [auto | intros ->; contradiction].
  - rewrite HQ. apply map_ext_in. intros a Ha. symmetry. eapply kept_content; [exact Hok|]. apply Hkq, list_elem_of_In, Ha.
  - apply jobs_ok_split. split.
    + split; [exact Hpre|]. intros ->. rewrite Hnext. rewrite load32_store32. reflexivity.
    + eapply jobs_kept; [exact Hok1 | | exact Hjs]. intros a Ha. apply Hk; [apply Hin; right; right; right; exact Ha|].
      intros ->. contradiction.
Qed.

(** What is left after a job ended with the lists [q'], [f']. *)
Lemma job_done k mq m js mq' m' q' f' k' busy q f Q :
  mq_ok mq m q f busy -> mq_ok mq' m' q' f' (map job_msg js) -> calm k k' -> same_frame mq mq' ->
  same_contents mq m m' (mq_blocks mq) -> (forall a, a ∈ q' -> a ∈ mq_blocks mq) -> Q = map (content mq m) q' ->
  (forall a, a ∈ map job_msg js -> kept mq m m' a) -> Forall (job_ok mq m) js ->
  holds (mkMqSystem k' mq' m' js) Q.
Proof.
  intros Hok Hok' [H1 H2] Hframe Hcont Hin HQ Hk Hjs. split; [split; assumption|]. exists q', f'.
  split; [exact Hok'|]. split.
  - rewrite HQ. rewrite <- (contents_same mq m m' q' Hcont Hin). apply map_ext. intros a. unfold content.
    rewrite (proj1 (proj2 Hframe)). reflexivity.
  - apply (jobs_frame _ _ _ _ Hframe). eapply jobs_kept; eauto.
Qed.

Lemma link_sim k mq m js1 (u : bool) msg data js2 Q :
  holds (mkMqSystem k mq m (js1 ++ JobFilled u msg data :: js2)) Q ->
  exists k' mq' m', (if u then mq_urgent_link k b mq m msg else mq_send_link k b mq m msg) = Some (k', mq', m', RT_EOK) /\
  exists Q', queue_step Q (Sent u data) Q' /\ holds (mkMqSystem k' mq' m' (js1 ++ js2)) Q'.
Proof.
  intros ([Hkok [c Hc]] & q & f & Hok & HQ & Hjs). apply jobs_ok_split in Hjs as [[Hpre Hnext] Hjs].
  pose proof (mq_ok_busy _ _ _ _ _ _ (jobs_split js1 (JobFilled u msg data) js2) Hok) as Hok1. cbn [job_msg] in Hok1.
  pose proof (mq_block _ _ _ _ _ Hok1) as Hin. pose proof (Hin msg ltac:(right; right; left)) as Hmsg.
  destruct (mb_wake_spec k (MqRecvWait b) c Hkok Hc eq_refl) as (k' & Ewake & Hcm & _).
  destruct u.
  - destruct (link_head_ok _ _ _ _ _ _ Hok1) as (Hok' & Hcont & Hk).
    exists k', (link_head mq msg), (store32 m msg (msg_queue_head mq)). split.
    { unfold mq_urgent_link. rewrite Ewake. reflexivity. }
    exists (content mq m msg :: Q). split; [apply q_urgent; exact Hpre|].
    eapply job_done; [exact Hok1 | exact Hok' | exact Hcm | | exact Hcont | | | exact Hk | exact Hjs].
    + unfold link_head. destruct (_ =? 0); unfold same_frame; split_ands; reflexivity.
    + intros a [->|Ha]%elem_of_cons; auto.
    + rewrite HQ. reflexivity.
  - destruct (link_tail_ok _ _ _ _ _ _ Hok1 (Hnext eq_refl)) as (Hok' & Hcont & Hk).
    exists k', (link_tail mq msg), (link_tail_memory mq m msg). split.
    { unfold mq_send_link. rewrite Ewake. reflexivity. }
    exists (Q ++ [content mq m msg]). split; [apply q_sent; exact Hpre|].
    eapply job_done; [exact Hok1 | exact Hok' | exact Hcm | | exact Hcont | | | exact Hk | exact Hjs].
    + unfold link_tail. destruct (_ =? 0); unfold same_frame; split_ands; reflexivity.
    + intros a [Ha | ->%list_elem_of_singleton]%elem_of_app; auto.
    + rewrite map_app, HQ. reflexivity.
Qed.

Lemma all_kept mq m m' q f busy :
  mq_ok mq m q f busy -> same_on m' m (mq_pool mq) (mq_pool mq + mq_max_msgs mq * mq_stride mq) ->
  mq_ok mq m' q f busy /\ same_contents mq m m' (mq_blocks mq) /\ forall a, a ∈ mq_blocks mq -> kept mq m m' a.
Proof.
  intros Hok Hb. pose proof (mq_block _ _ _ _ _ Hok) as Hin.
  assert (Hk : forall a, a ∈ mq_blocks mq -> kept mq m m' a) by (intros a; apply (beside_kept _ _ _ _ _ Hok); exact Hb).
  split_ands; auto.
  - apply (kept_ok _ _ _ _ _ Hok); auto.
  - intros a Ha. eapply kept_content; eauto.
Qed.

Lemma beside_sim k mq m js Q k' m' :
  holds (mkMqSystem k mq m js) Q -> calm k k' ->
  same_on m' m (mq_pool mq) (mq_pool mq + mq_max_msgs mq * mq_stride mq) ->
  holds (mkMqSystem k' mq m' js) Q.
Proof.
  intros (_ & q & f & Hok & HQ & Hjs) Hcalm Hb. destruct (all_kept _ _ _ _ _ _ Hok Hb) as (Hok' & Hcont & Hk).
  pose proof (mq_block _ _ _ _ _ Hok) as Hin.
  eapply (job_done k mq m js mq m' q f k'); eauto; unfold same_frame; split_ands; reflexivity.
Qed.

Lemma copy_sim k mq m js1 msg buffer size c js2 Q :
  holds (mkMqSystem k mq m (js1 ++ JobRecv msg buffer size c :: js2)) Q ->
  exists m', mq_recv_copy mq m msg buffer size = Some m' /\
    bytes_at m' buffer (Z.to_nat (mq_copy_size mq size)) `prefix_of` c /\
    holds (mkMqSystem k mq m' (js1 ++ JobCopied msg :: js2)) Q.
Proof.
  intros H. pose proof H as (Hcalm & q & f & Hok & HQ & Hjs). apply jobs_ok_split in Hjs as [[[Hs Hbuf] Hc] Hjs].
  pose proof (mq_ok_busy _ _ _ _ _ _ (jobs_split js1 (JobRecv msg buffer size c) js2) Hok) as Hok1. cbn [job_msg] in Hok1.
  pose proof (mq_block _ _ _ _ _ Hok1 msg ltac:(right; right; left)) as Hmsg.
  pose proof (mq_block_range _ _ _ _ _ Hok1 msg Hmsg) as Hr. pose proof (mo_size _ _ _ _ _ Hok) as Hms.
  set (n := mq_copy_size mq size). assert (Hn : 0 <= n <= mq_msg_size mq /\ n <= size).
  { unfold n, mq_copy_size. destruct (Z.ltb_spec (mq_msg_size mq) size); lia. }
  unfold mq_recv_copy. fold n. unfold mq_stride, SIZEOF_MQ_MESSAGE in *.
  destruct (rt_memcpy_spec m buffer (msg + 4) n) as (m' & E & Hcopy); [lia | unfold INT_MAX; lia |].
  exists m'. split; [exact E|]. split.
  - rewrite <- Hc. exists (bytes_at m (msg + 4 + n) (Z.to_nat (mq_msg_size mq - n))). unfold content, SIZEOF_MQ_MESSAGE.
    replace (Z.to_nat (mq_msg_size mq)) with (Z.to_nat n + Z.to_nat (mq_msg_size mq - n))%nat by lia.
    rewrite bytes_at_app. f_equal; [|f_equal; lia]. apply bytes_at_ext. intros i Hi. rewrite (Hcopy _), load8_copy.
    destruct (Z.leb_spec buffer (buffer + i)), (Z.ltb_spec (buffer + i) (buffer + n)); try lia. cbn [andb]. f_equal. lia.
  - assert (Hh : holds (mkMqSystem k mq m (js1 ++ JobCopied msg :: js2)) Q).
    { split; [exact Hcalm|]. exists q, f. split; [|split; [exact HQ|apply jobs_ok_split; split; [exact I | exact Hjs]]].
      apply (mq_ok_busy _ _ _ _ _ _ (Permutation_sym (jobs_split js1 (JobCopied msg) js2)) Hok1). }
    apply (beside_sim _ _ _ _ _ k m' Hh Hcalm). intros x Hx. rewrite (Hcopy x). apply copy_other.
    unfold mq_stride, SIZEOF_MQ_MESSAGE in *. lia.
Qed.

Lemma release_sim k mq m js1 msg js2 Q :
  holds (mkMqSystem k mq m (js1 ++ JobCopied msg :: js2)) Q ->
  exists k' mq' m', mq_recv_release k b mq m msg = Some (k', mq', m', RT_EOK) /\
    holds (mkMqSystem k' mq' m' (js1 ++ js2)) Q.
Proof.
  intros ([Hkok [c Hc]] & q & f & Hok & HQ & Hjs). apply jobs_ok_split in Hjs as [_ Hjs].
  pose proof (mq_ok_busy _ _ _ _ _ _ (jobs_split js1 (JobCopied msg) js2) Hok) as Hok1. cbn [job_msg] in Hok1.
  pose proof (mq_block _ _ _ _ _ Hok1) as Hin.
  destruct (mb_wake_spec k (MqSendWait b) c Hkok Hc eq_refl) as (k' & Ewake & Hcm & _).
  destruct (release_ok _ _ _ _ _ _ Hok1) as (Hok' & Hcont & Hk).
  exists k', (mq <| msg_queue_free := msg |>), (store32 m msg (msg_queue_free mq)). split.
  { unfold mq_recv_release. rewrite Ewake. reflexivity. }
  eapply (job_done k mq m (js1 ++ js2) _ _ q (msg :: f) k'); eauto.
  unfold same_frame; split_ands; reflexivity.
Qed.

Lemma reset_sim k mq m js Q k' mq' m' e :
  holds (mkMqSystem k mq m js) Q -> rt_mq_control k b mq m RT_IPC_CMD_RESET = Some (k', mq', m', e) ->
  holds (mkMqSystem k' mq' m' js) [].
Proof.
  intros ([Hok [c Hc]] & q & f & Hmq & _ & Hjs). unfold rt_mq_control, mq_resume_all. rewrite Z.eqb_refl.
  destruct (resume_all_spec _ k (MqRecvWait b) Hok eq_refl) as (k1 & -> & Hok1 & Ht1 & Hc1 & _).
  cbn [mbind option_bind]. rewrite Hc in Hc1.
  destruct (resume_all_spec _ k1 (MqSendWait b) Hok1 eq_refl) as (k2 & -> & Hok2 & Ht2 & Hc2 & _).
  cbn [mbind option_bind]. rewrite Hc1 in Hc2.
  assert (Hmq1 : mq_ok (with_entry mq (length q)) m q f (map job_msg js)).
  { pose proof Hmq as []. split; auto. }
  destruct (reset_loop q (S (Z.to_nat (mq_max_msgs mq))) mq m f (map job_msg js)) as (mq1 & m1 & f1 & -> & Hmq2 & Hfr & _ & Hk);
    [pose proof (mq_queue_length _ _ _ _ _ Hmq); lia | exact Hmq1 |].
  cbn [mbind option_bind]. destruct (schedule_kernel_ok _ k2 c Hok2 Hc2) as (k3 & c3 & -> & Hok3 & Hf & Hc3 & _).
  cbn [mbind option_bind]. intros [= <- <- <- <-].
  split; [split; [rewrite (sf_tick _ _ Hf), Ht2, Ht1; exact Hok3 | eauto]|].
  exists [], f1. split; [exact Hmq2|]. split; [reflexivity|].
  apply (jobs_frame mq); [exact Hfr|]. eapply jobs_kept; eauto.
Qed.

(** The first parts, from the entry points. *)
Lemma mq_send_begin_cases k mq m q f busy c size timeout :
  mq_ok mq m q f busy -> calm k k -> caller k c timeout ->
  exists k' mq' o, mq_send_begin k b mq m size timeout = Some (k', mq', o) /\ send_case k mq m f k' mq' o /\
    (forall msg, o = MqTakes msg -> size <= mq_msg_size mq).
Proof.
  intros Hok Hcalm [A1 A2 A3 A4]. unfold mq_send_begin.
  destruct (Z.ltb_spec (mq_msg_size mq) size).
  { eexists _, _, _. split; [reflexivity|]. split; [split; [reflexivity | exact Hcalm] | discriminate]. }
  destruct ((msg_queue_free mq =? 0) && (timeout =? 0)).
  { eexists _, _, _. split; [reflexivity|]. split; [split; [reflexivity | exact Hcalm] | discriminate]. }
  destruct (mq_send_turn_cases b k mq m q f busy c Hok (cm_ok _ _ Hcalm) A1 A2 timeout 0 A3 A4) as (k' & mq' & o & E & H').
  exists k', mq', o. auto.
Qed.

Lemma urgent_begin_cases k mq m q f busy size :
  mq_ok mq m q f busy -> calm k k ->
  let '(mq', o) := mq_urgent_begin mq m size in
  send_case k mq m f k mq' o /\ (forall msg, o = MqTakes msg -> size <= mq_msg_size mq).
Proof.
  intros Hok Hcalm. unfold mq_urgent_begin. destruct (Z.ltb_spec (mq_msg_size mq) size).
  { split; [split; [reflexivity | exact Hcalm] | discriminate]. }
  rewrite (mq_free_zero _ _ _ _ _ Hok). destruct f as [|a f'].
  { split; [split; [reflexivity | exact Hcalm] | discriminate]. }
  split; [|auto]. destruct (take_free_ok _ _ _ _ _ _ Hok) as [E _]. rewrite E.
  split; [reflexivity|]. split; [unfold take_free; rewrite E; reflexivity | exists f'; reflexivity].
Qed.

Lemma mq_recv_begin_cases k mq m q f busy c timeout :
  mq_ok mq m q f busy -> calm k k -> caller k c timeout ->
  exists k' mq' o, mq_recv_begin k b mq m timeout = Some (k', mq', o) /\ recv_case k mq m q k' mq' o.
Proof.
  intros Hok Hcalm [A1 A2 A3 A4]. unfold mq_recv_begin. rewrite (mo_entry _ _ _ _ _ Hok).
  destruct (Z.eqb_spec (Z.of_nat (length q)) 0) as [Eq|Eq]; [destruct (Z.eqb_spec timeout 0) as [Et|Et]|]; cbn [andb].
  - eexists _, _, _. split; [reflexivity|]. split; [reflexivity | exact Hcalm].
  - apply (mq_recv_turn_cases b k mq m q f busy c Hok (cm_ok _ _ Hcalm) A1 A2); [tauto | exact A4].
  - apply (mq_recv_turn_cases b k mq m q f busy c Hok (cm_ok _ _ Hcalm) A1 A2); [|exact A4].
    right. intros ->. apply Eq. reflexivity.
Qed.

(** A receiver that goes on with the time it has left. *)
Lemma recv_turn_some k mq m q f busy c timeout delta r :
  mq_ok mq m q f busy -> calm k k -> caller k c timeout ->
  mq_recv_turn k b mq m timeout delta = Some r -> recv_case k mq m q r.1.1 r.1.2 r.2.
Proof.
  intros Hok Hcalm [A1 A2 A3 A4] E.
  assert (Hn : rt_interrupt_nest k = 0 \/ q <> []).
  { destruct q as [|a q']; [left | right; discriminate]. unfold mq_recv_turn in E. rewrite (mo_entry _ _ _ _ _ Hok) in E.
    change (Z.of_nat (length []) =? 0) with true in E. unfold in_thread_context, rt_thread_self in E. rewrite A1 in E.
    destruct (Z.eqb_spec (rt_interrupt_nest k) 0); [assumption | discriminate E]. }
  destruct (mq_recv_turn_cases b k mq m q f busy c Hok (cm_ok _ _ Hcalm) A1 A2 timeout delta Hn A4) as (k' & mq' & o & E' & H').
  rewrite E in E'. injection E' as ->. exact H'.
Qed.

Lemma mq_step_sim y lab y' Q :
  holds y Q -> mq_step b y lab y' -> exists Q', queue_step Q lab Q' /\ holds y' Q'.
Proof.
  intros Hh Hstep. destruct Hstep as
    [k mq m js c buffer size timeout k' mq' o Hca Hbuf E
    |k mq m js t buffer size timeout delta k' mq' o Hca He Hbuf Hle E
    |k mq m js buffer size mq' o Hbuf E
    |k mq m js1 u msg buffer size js2 m' E|k mq m js1 u msg data js2 k' mq' m' e E
    |k mq m js c buffer size timeout k' mq' o Hca Hbuf E
    |k mq m js t buffer size timeout delta k' mq' o Hca He Hbuf E
    |k mq m js1 msg buffer size c js2 m' E|k mq m js1 msg js2 k' mq' m' e E|k mq m js k' mq' m' e E
    |k mq m js k' m' [R1 R2 R3 _] _ Hb]; pose proof Hh as (Hcalm & q0 & f0 & Hok0 & _).
  - exists Q. split; [apply q_silent|].
    destruct (mq_send_begin_cases k mq m q0 f0 _ c size timeout Hok0 Hcalm Hca) as (k2 & mq2 & o2 & E2 & _ & Hle).
    rewrite E in E2. injection E2 as <- <- <-. apply (send_case_sim _ _ _ _ _ _ _ _ _ _ _ Hh Hbuf); [|exact Hle].
    intros q f Hok. destruct (mq_send_begin_cases k mq m q f _ c size timeout Hok Hcalm Hca) as (k2 & mq2 & o2 & E2 & Hcase & _).
    rewrite E in E2. injection E2 as <- <- <-. exact Hcase.
  - exists Q. split; [apply q_silent|]. apply (send_case_sim _ _ _ _ _ _ _ _ _ _ _ Hh Hbuf); [|auto].
    intros q f Hok. unfold mq_send_resume in E. rewrite He in E. change (negb (RT_EOK =? RT_EOK)) with false in E. cbv iota in E.
    destruct (time_left k timeout delta) as [tm d]. cbn [fst] in *. destruct Hca as [A1 A2 A3 A4].
    destruct (mq_send_turn_cases b k mq m q f _ t Hok (cm_ok _ _ Hcalm) A1 A2 tm d A3 A4) as (k2 & mq2 & o2 & E2 & Hcase).
    rewrite E in E2. injection E2 as <- <- <-. exact Hcase.
  - exists Q. split; [apply q_silent|]. pose proof (urgent_begin_cases k mq m q0 f0 _ size Hok0 Hcalm) as H0. rewrite E in H0.
    apply (send_case_sim _ _ _ _ _ _ _ _ _ _ _ Hh Hbuf); [|apply H0].
    intros q f Hok. pose proof (urgent_begin_cases k mq m q f _ size Hok Hcalm) as H. rewrite E in H. apply H.
  - exists Q. split; [apply q_silent|]. destruct (fill_sim _ _ _ _ _ _ _ _ _ _ Hh) as (m2 & E2 & H2).
    rewrite E in E2. injection E2 as <-. exact H2.
  - destruct (link_sim _ _ _ _ _ _ _ _ _ Hh) as (k2 & mq2 & m2 & E2 & H2).
    rewrite E in E2. injection E2 as <- <- <- _. exact H2.
  - apply (recv_case_sim _ _ _ _ _ _ _ _ _ _ Hh Hbuf). intros q f Hok.
    destruct (mq_recv_begin_cases k mq m q f _ c timeout Hok Hcalm Hca) as (k2 & mq2 & o2 & E2 & Hcase).
    rewrite E in E2. injection E2 as <- <- <-. exact Hcase.
  - apply (recv_case_sim _ _ _ _ _ _ _ _ _ _ Hh Hbuf). intros q f Hok.
    unfold mq_recv_resume in E. rewrite He in E. change (negb (RT_EOK =? RT_EOK)) with false in E. cbv iota in E.
    destruct (time_left k timeout delta) as [tm d]. cbn [fst] in *.
    exact (recv_turn_some _ _ _ _ _ _ _ _ _ _ Hok Hcalm Hca E).
  - exists Q. destruct (copy_sim _ _ _ _ _ _ _ _ _ _ Hh) as (m2 & E2 & Hpre & H2). rewrite E in E2. injection E2 as <-.
    split; [apply q_delivered; exact Hpre | exact H2].
  - exists Q. split; [apply q_silent|]. destruct (release_sim _ _ _ _ _ _ _ Hh) as (k2 & mq2 & m2 & E2 & H2).
    rewrite E in E2. injection E2 as <- <- <- _. exact H2.
  - exists []. split; [apply q_emptied|]. eapply reset_sim; eauto.
  - exists Q. split; [apply q_silent|]. apply (beside_sim _ _ _ _ _ _ _ Hh); [split; assumption | exact Hb].
Qed.
End Simulation.

(** ** Initialisation *)

Lemma init_rounds pool size m n :
  0 < pool -> 0 <= size -> pool + Z.of_nat n * (size + SIZEOF_MQ_MESSAGE) <= 4294967296 ->
  let s := fold_left (mq_init_round pool size) (seq 0 n) (m, 0) in
  chain s.1 s.2 (rev (blocks pool (size + SIZEOF_MQ_MESSAGE) n)) /\ 0 <= s.2 < 4294967296.
Proof.
  unfold SIZEOF_MQ_MESSAGE. intros Hp Hs. induction n as [|n IH]; intros Hend; [split; [reflexivity|cbn; lia]|].
  destruct IH as [Hch Hr]; [lia|]. cbv zeta in *. rewrite seq_S, fold_left_app. cbn [fold_left plus].
  destruct (fold_left _ _ _) as [m1 free]. cbn [fst snd] in *. unfold mq_init_round, SIZEOF_MQ_MESSAGE. cbn [fst snd].
  set (h := pool + Z.of_nat n * (size + 4)). assert (Hh : h ∈ blocks pool (size + 4) (S n)) by (apply in_blocks; exists n; split; [lia|reflexivity]).
  split; [|lia]. unfold blocks. rewrite seq_S, map_app, rev_app_distr. cbn [map rev app plus chain].
  split; [reflexivity|]. rewrite load32_store32, u32_small by exact Hr.
  apply (chain_within pool (size + 4) (S n) ltac:(lia) h m1); auto.
  - intros a Ha. apply list_elem_of_In in Ha. apply in_rev, list_elem_of_In, in_blocks in Ha as (i & Hi & ->).
    apply in_blocks. exists i. split; [lia | reflexivity].
  - intros Ha. apply list_elem_of_In in Ha. apply in_rev, list_elem_of_In, in_blocks in Ha as (i & Hi & E). unfold h in E. nia.
  - apply store_next_within. lia.
Qed.

Lemma mq_init_holds k b m pool msg_size pool_size flag :
  kernel_ok (rt_tick k) k -> (exists c, rt_current_thread k = Some c) ->
  0 < pool -> 0 <= pool_size -> pool + pool_size <= 4294967296 ->
  lists k (MqRecvWait b) = [] -> lists k (MqSendWait b) = [] ->
  let '(k', m', mq, _) := rt_mq_init k b m pool msg_size pool_size flag in holds (mkMqSystem k' mq m' []) [].
Proof.
  intros Hok [c Hc] Hp Hps Hend Hr Hw. unfold rt_mq_init.
  set (size := u16 (RT_ALIGN msg_size RT_ALIGN_SIZE)). assert (Hsize : 0 <= size < 65536) by apply u16_range.
  set (n := u16 (pool_size / (size + SIZEOF_MQ_MESSAGE))).
  assert (Hn : 0 <= n < 65536 /\ n * (size + SIZEOF_MQ_MESSAGE) <= pool_size).
  { unfold n. split; [apply u16_range|]. unfold SIZEOF_MQ_MESSAGE.
    pose proof (Z.mul_div_le pool_size (size + 4) ltac:(lia)). pose proof (Z.div_pos pool_size (size + 4) Hps ltac:(lia)).
    pose proof (Z.mod_le (pool_size / (size + 4)) 65536 ltac:(lia) ltac:(lia)). unfold u16. nia. }
  destruct (init_rounds pool size m (Z.to_nat n)) as [Hch _]; [lia | lia | rewrite Z2Nat.id by lia; lia |].
  destruct (fold_left _ _ _) as [m' free]. cbn [fst snd] in Hch.
  pose proof (object_init_ok _ k (MqRecvWait b) Hok Hr) as Hok1.
  assert (Hw1 : lists (rt_ipc_object_init k (MqRecvWait b)) (MqSendWait b) = []).
  { cbn. rewrite upd_other by discriminate. exact Hw. }
  pose proof (object_init_ok _ _ (MqSendWait b) Hok1 Hw1) as Hok2.
  split; [split; [exact Hok2 | exists c; exact Hc]|].
  exists [], (rev (blocks pool (size + SIZEOF_MQ_MESSAGE) (Z.to_nat n))).
  split; [|split; [reflexivity | constructor]]. unfold mq_stride.
  split; cbn; unfold mq_stride; cbn; auto; try lia.
  rewrite app_nil_r. symmetry. apply Permutation_rev.
Qed.

(** ** Properties *)

Inductive mq_trace (b : nat) (y0 : mq_system) : list mq_label -> mq_system -> Prop :=
| mq_here : mq_trace b y0 [] y0
| mq_then tr y lab y' : mq_trace b y0 tr y -> mq_step b y lab y' -> mq_trace b y0 (tr ++ [lab]) y'.

Inductive queue_trace : list mq_label -> list (list Z) -> Prop :=
| q_start : queue_trace [] []
| q_then tr Q lab Q' : queue_trace tr Q -> queue_step Q lab Q' -> queue_trace (tr ++ [lab]) Q'.

Lemma mq_trace_refines b y0 tr y : holds y0 [] -> mq_trace b y0 tr y -> exists Q, queue_trace tr Q /\ holds y Q.
Proof.
  intros H0. induction 1 as [|tr y lab y' _ (Q & HQ & Hh) Hstep]; [exists []; split; [apply q_start | exact H0]|].
  destruct (mq_step_sim b y lab y' Q Hh Hstep) as (Q' & Hq & Hh'). exists Q'. split; [eapply q_then; eauto | exact Hh'].
Qed.

(** The part of a call that comes next does not fail. *)
Definition job_proceeds (b : nat) (y : mq_system) (j : job) : Prop :=
  let '(mkMqSystem k mq m _) := y in
  match j with
  | JobSend u msg buffer size => is_Some (if u then mq_urgent_fill m msg buffer size else mq_send_fill m msg buffer size)
  | JobFilled u msg _ => is_Some (if u then mq_urgent_link k b mq m msg else mq_send_link k b mq m msg)
  | JobRecv msg buffer size _ => is_Some (mq_recv_copy mq m msg buffer size)
  | JobCopied msg => is_Some (mq_recv_release k b mq m msg)
  end.

Lemma holds_proceeds b y Q j : holds y Q -> j ∈ qs_jobs y -> job_proceeds b y j.
Proof.
  destruct y as [k mq m js]. cbn [qs_jobs]. intros Hh (js1 & js2 & ->)%list_elem_of_split. destruct j as [u msg buffer size|u msg data|msg buffer size c|msg]; cbn.
  - destruct (fill_sim _ _ _ _ _ _ _ _ _ _ Hh) as (m' & -> & _). eauto.
  - destruct (link_sim b _ _ _ _ _ _ _ _ _ Hh) as (k' & mq' & m' & -> & _). eauto.
  - destruct (copy_sim _ _ _ _ _ _ _ _ _ _ Hh) as (m' & -> & _). eauto.
  - destruct (release_sim b _ _ _ _ _ _ _ Hh) as (k' & mq' & m' & -> & _). eauto.
Qed.

(** C12: a message queue refines a bounded queue of messages, although a call holds its
    message outside the queue while it copies: whatever calls of other threads come
    between the parts of a call, in the order of their critical sections sent messages
    go to the end, urgent ones to the front, receivers take the front; what is copied to
    a receiver is a prefix of the message that was sent; the count is the length of the
    queue and never above the capacity; and every call, and every part of a call under
    way, goes on without a fault. *)
Theorem message_queue_refines k b m pool msg_size pool_size flag :
  kernel_ok (rt_tick k) k -> (exists c, rt_current_thread k = Some c) ->
  0 < pool -> 0 <= pool_size -> pool + pool_size <= 4294967296 ->
  lists k (MqRecvWait b) = [] -> lists k (MqSendWait b) = [] ->
  let '(k', m', mq, _) := rt_mq_init k b m pool msg_size pool_size flag in
  forall tr y, mq_trace b (mkMqSystem k' mq m' []) tr y ->
    exists Q, queue_trace tr Q /\
      Z.of_nat (length Q) = mq_entry (qs_mq y) /\ mq_entry (qs_mq y) <= mq_max_msgs (qs_mq y) /\
      (forall c size timeout, caller (qs_kernel y) c timeout ->
         is_Some (mq_send_begin (qs_kernel y) b (qs_mq y) (qs_memory y) size timeout) /\
         is_Some (mq_recv_begin (qs_kernel y) b (qs_mq y) (qs_memory y) timeout)) /\
      forall j, j ∈ qs_jobs y -> job_proceeds b y j.
Proof.
  intros Hok Hc Hp Hps Hend Hr Hw.
  pose proof (mq_init_holds k b m pool msg_size pool_size flag Hok Hc Hp Hps Hend Hr Hw) as H0.
  destruct (rt_mq_init k b m pool msg_size pool_size flag) as [[[k' m'] mq] e]. intros tr y Htr.
  destruct (mq_trace_refines _ _ _ _ H0 Htr) as (Q & HQ & Hh). exists Q. split; [exact HQ|].
  pose proof (fun j => holds_proceeds b y Q j Hh) as Hjobs. destruct y as [k1 mq1 m1 js].
  destruct Hh as (Hcalm & q & f & Hmq & EQ & _). cbn [qs_mq qs_kernel qs_memory].
  pose proof (mq_queue_length _ _ _ _ _ Hmq). pose proof (mo_size _ _ _ _ _ Hmq). pose proof (mo_entry _ _ _ _ _ Hmq).
  split_ands; auto; [rewrite EQ, length_map; congruence | lia |].
  intros c size timeout Hca. split.
  - destruct (mq_send_begin_cases b _ _ _ _ _ _ c size timeout Hmq Hcalm Hca) as (? & ? & ? & -> & _). eauto.
  - destruct (mq_recv_begin_cases b _ _ _ _ _ _ c timeout Hmq Hcalm Hca) as (? & ? & ? & -> & _). eauto.
Qed.

(** The running thread sends three bytes to a queue of two messages. *)
Lemma message_queue_refines_witness :
  let '(k', m', mq, _) := rt_mq_init demo 10 (fun a => a) 4096 8 24 RT_IPC_FLAG_FIFO in
  exists y Q, mq_trace 10 (mkMqSystem k' mq m' []) [Silent; Silent; Sent false [200; 201; 202]] y /\
    queue_trace [Silent; Silent; Sent false [200; 201; 202]] Q /\
    Z.of_nat (length Q) = mq_entry (qs_mq y) /\ mq_entry (qs_mq y) <= 2.
Proof.
  pose proof (message_queue_refines demo 10 (fun a => a) 4096 8 24 RT_IPC_FLAG_FIFO demo_ok (ex_intro _ 0%nat eq_refl)
    ltac:(lia) ltac:(lia) ltac:(lia) eq_refl eq_refl) as H.
  unfold rt_mq_init in *. set (s := fold_left _ _ _) in *.
  assert (Es : s = (store32 (store32 (fun a => a) 4096 0) 4108 4096, 4108)) by reflexivity. rewrite Es in *. clear s Es.
  set (k0 := _ <| lists := _ |>) in *. set (m0 := store32 _ 4108 4096) in *. set (mq0 := mkMessageQueue _ _ _ _ _ _ _ _) in *.
  assert (Hca : caller k0 0 0) by (split; [reflexivity|reflexivity|left; reflexivity|reflexivity]).
  assert (Hbuf : client_buffer mq0 200 3) by (split; [unfold INT_MAX; lia | left; vm_compute; discriminate]).
  assert (E1 : mq_send_begin k0 10 mq0 m0 3 0 = Some (k0, take_free mq0 m0, MqTakes 4108)) by reflexivity.
  pose proof (mq_then 10 _ _ _ _ _ (mq_here _ (mkMqSystem k0 mq0 m0 [])) (qstep_send 10 k0 mq0 m0 [] 0%nat 200 3 0 _ _ _ Hca Hbuf E1)) as T1.
  cbn [started app] in T1. destruct (H _ _ T1) as (_ & _ & _ & _ & _ & J1).
  destruct (J1 (JobSend false 4108 200 3) ltac:(left)) as [m1 E2].
  pose proof (mq_then 10 _ _ _ _ _ T1 (qstep_fill 10 k0 _ m0 [] false 4108 200 3 [] m1 E2)) as T2.
  cbn [app] in T2. destruct (H _ _ T2) as (_ & _ & _ & _ & _ & J2).
  destruct (J2 (JobFilled false 4108 (bytes_at m0 200 (Z.to_nat 3))) ltac:(left)) as [[[[k2 mq2] m2] e] E3].
  pose proof (mq_then 10 _ _ _ _ _ T2 (qstep_link 10 k0 _ m1 [] false 4108 (bytes_at m0 200 (Z.to_nat 3)) [] k2 mq2 m2 e E3)) as T3.
  cbn [app] in T3. assert (Ed : bytes_at m0 200 (Z.to_nat 3) = [200; 201; 202]) by reflexivity. rewrite Ed in T3.
  destruct (H _ _ T3) as (Q & HQ & Hlen & Hmax & _). exists (mkMqSystem k2 mq2 m2 []), Q. split; [exact T3|].
  split; [exact HQ|]. split; [exact Hlen|].
  assert (Emax : mq_max_msgs mq2 = 2).
  { cbn [mq_send_link] in E3. unfold mq_send_link in E3. destruct (mb_wake k0 (MqRecvWait 10)); [|discriminate E3].
    cbn [mbind option_bind] in E3. injection E3 as _ <- _ _. reflexivity. }
  cbn [qs_mq] in *. rewrite <- Emax. exact Hmax.
Defined.
