(* ===== verification/Mempool.v ===== *)
(** * Memory pools (src/rt-thread/src/mempool.c)

    Blocks of one size in a region of memory.  The word in front of a block links it
    into the free list or, in use, points to the pool it belongs to.  A thread that
    finds no free block waits at the head of the wait list. *)

From S2P Require Import Prelude Memory Kernel Scheduler Timer Thread Tick Ipc Mailbox Chain.

(** ** Definitions *)

Record MemPool := mkMemPool {
  mp_address : Z;          (* where the control block lies *)
  start_address : Z;
  mp_size : Z;             (* rt_size_t, as the other counters *)
  block_size : Z;
  block_list : Z;          (* pointer, 0 for RT_NULL *)
  block_total_count : Z;
  block_free_count : Z;
}.
#[export] Instance MemPool_rebuild : Rebuild MemPool := fun p =>
  mkMemPool (mp_address p) (start_address p) (mp_size p) (block_size p) (block_list p)
            (block_total_count p) (block_free_count p).

(** [sizeof(rt_uint8_t * )] *)
Definition SIZEOF_POINTER : Z := 4.

(** One round of the loop that links the blocks. *)
Definition mp_init_round (start stride : Z) (m : Memory) (offset : nat) : Memory :=
  store32 m (start + Z.of_nat offset * stride) (start + (Z.of_nat offset + 1) * stride).

Definition rt_mp_init (k : Kernel) (b : nat) (m : Memory) (mp start size block_size : Z)
    : option (Kernel * Memory * MemPool * Z) :=
  if negb ((0 <? size) && (0 <? block_size)) then None
  else
    let size := RT_ALIGN_DOWN size RT_ALIGN_SIZE in
    let block_size := RT_ALIGN block_size RT_ALIGN_SIZE in
    let stride := u32 (block_size + SIZEOF_POINTER) in
    if stride =? 0 then None   (* division by zero *)
    else
      let total := size / stride in
      let k := k <| lists := upd (lists k) (MpWait b) [] |> in
      let m := fold_left (mp_init_round start stride) (seq 0 (Z.to_nat total)) m in
      let m := store32 m (u32 (start + (total - 1) * stride)) 0 in
      Some (k, m, mkMemPool mp start size block_size start total total, RT_EOK).

(** The loop is that of [rt_ipc_list_resume_all]. *)
Definition rt_mp_detach (k : Kernel) (b : nat) : option (Kernel * Z) :=
  k ← rt_ipc_list_resume_all k (MpWait b); Some (k, RT_EOK).

(** [rt_set_errno]: the error of the running thread; an interrupt sets a variable of
    its own, which is not part of the state. *)
Definition rt_set_errno (k : Kernel) (e : Z) : Kernel :=
  if negb (rt_interrupt_nest k =? 0) then k
  else match rt_thread_self k with
       | None => k
       | Some t => set_thread k t (fun th => th <| error := e |>)
       end.

Inductive mp_outcome := MpReturns (block : Z) | MpWaits (time before_sleep : Z).

(** From the test of the loop on. *)
Definition mp_alloc_turn (k : Kernel) (b : nat) (mp : MemPool) (m : Memory) (time before_sleep : Z)
    : option (Kernel * MemPool * Memory * mp_outcome) :=
  if block_free_count mp =? 0 then
    if time =? 0 then Some (rt_set_errno k (- RT_ETIMEOUT), mp, m, MpReturns 0)
    else if negb (rt_interrupt_nest k =? 0) then None
    else
      thread ← rt_thread_self k;
      let k := set_thread k thread (fun th => th <| error := RT_EOK |>) in
      '(k, _) ← rt_thread_suspend k thread;
      let k := tlist_insert_after k (MpWait b) thread in
      let before_sleep := if 0 <? time then rt_tick k else before_sleep in
      k ← (k ← (if 0 <? time then start_thread_timer k thread time else Some k); rt_schedule k);
      Some (k, mp, m, MpWaits time before_sleep)
  else
    let mp := mp <| block_free_count := u32 (block_free_count mp - 1) |> in
    let block_ptr := block_list mp in
    if block_ptr =? 0 then None
    else
      let mp := mp <| block_list := load32 m block_ptr |> in
      let m := store32 m block_ptr (mp_address mp) in
      Some (k, mp, m, MpReturns (block_ptr + SIZEOF_POINTER)).

Definition rt_mp_alloc (k : Kernel) (b : nat) (mp : MemPool) (m : Memory) (time : Z)
    : option (Kernel * MemPool * Memory * mp_outcome) :=
  mp_alloc_turn k b mp m time 0.

(** The call of thread [t] goes on. *)
Definition rt_mp_alloc_resume (k : Kernel) (b : nat) (mp : MemPool) (m : Memory) (t : nat) (time before_sleep : Z)
    : option (Kernel * MemPool * Memory * mp_outcome) :=
  if negb (error (threads k t) =? RT_EOK) then Some (k, mp, m, MpReturns 0)
  else mp_alloc_turn k b mp m (fst (time_left k time before_sleep)) before_sleep.

(** The first waiting thread resumes. *)
Definition mp_wake (k : Kernel) (l : list_head) : option Kernel :=
  match lists k l with
  | thread :: _ =>
      let k := set_thread k thread (fun th => th <| error := RT_EOK |>) in
      '(k, _) ← rt_thread_resume k thread;
      rt_schedule k
  | [] => Some k
  end.

(** A block of another pool is not ours to free. *)
Definition rt_mp_free (k : Kernel) (b : nat) (mp : MemPool) (m : Memory) (block : Z)
    : option (Kernel * MemPool * Memory) :=
  if block =? 0 then Some (k, mp, m)
  else
    let block_ptr := block - SIZEOF_POINTER in
    if negb (load32 m block_ptr =? mp_address mp) then None
    else
      let mp := mp <| block_free_count := u32 (block_free_count mp + 1) |> in
      let m := store32 m block_ptr (block_list mp) in
      let mp := mp <| block_list := block_ptr |> in
      k ← mp_wake k (MpWait b);
      Some (k, mp, m).

(** ** The free blocks and those in use *)

Definition mp_stride (mp : MemPool) : Z := block_size mp + SIZEOF_POINTER.
Definition mp_blocks (mp : MemPool) : list Z :=
  blocks (start_address mp) (mp_stride mp) (Z.to_nat (block_total_count mp)).

(** [f] are the free blocks in the order they will be given out, [u] the blocks of the
    clients; a block is named by the address of its first word. *)
Record mp_ok (mp : MemPool) (m : Memory) (f u : list Z) : Prop := {
  po_region : 0 < start_address mp /\
    start_address mp + block_total_count mp * mp_stride mp <= 4294967296;
  po_size : 0 <= block_size mp /\ 0 <= block_total_count mp < 4294967296;
  po_address : 0 <= mp_address mp < 4294967296;
  po_free : chain m (block_list mp) f;
  po_count : block_free_count mp = Z.of_nat (length f);
  po_blocks : f ++ u ≡ₚ mp_blocks mp;
  po_used : forall a, a ∈ u -> load32 m a = mp_address mp;
}.

Lemma mp_stride4 mp m f u : mp_ok mp m f u -> 4 <= mp_stride mp.
Proof. intros []. unfold mp_stride, SIZEOF_POINTER. lia. Qed.

Lemma mp_block mp m f u a : mp_ok mp m f u -> a ∈ f \/ a ∈ u -> a ∈ mp_blocks mp.
Proof. intros [] H. rewrite <- po_blocks0, elem_of_app. exact H. Qed.

Lemma mp_block_range mp m f u a :
  mp_ok mp m f u -> a ∈ mp_blocks mp ->
  start_address mp <= a /\ a + mp_stride mp <= start_address mp + block_total_count mp * mp_stride mp.
Proof.
  intros Hok H. pose proof (po_size _ _ _ _ Hok).
  pose proof (block_range _ _ _ (mp_stride4 _ _ _ _ Hok) _ H). rewrite Z2Nat.id in * by lia. lia.
Qed.

Lemma mp_block_pos mp m f u a : mp_ok mp m f u -> a ∈ mp_blocks mp -> 0 < a <= 4294967292.
Proof.
  intros Hok H. pose proof (mp_block_range _ _ _ _ _ Hok H). pose proof (po_region _ _ _ _ Hok).
  pose proof (mp_stride4 _ _ _ _ Hok). lia.
Qed.

Lemma mp_distinct mp m f u : mp_ok mp m f u -> NoDup (f ++ u).
Proof. intros Hok. rewrite (po_blocks _ _ _ _ Hok). apply blocks_nodup, (mp_stride4 _ _ _ _ Hok). Qed.

Lemma mp_count_bound mp m f u : mp_ok mp m f u -> Z.of_nat (length f + length u) = block_total_count mp.
Proof.
  intros Hok. pose proof (Permutation_length (po_blocks _ _ _ _ Hok)) as H. pose proof (po_size _ _ _ _ Hok).
  unfold mp_blocks, blocks in H. rewrite length_map, length_seq, length_app in H. lia.
Qed.

(** Writing the first word of a block. *)
Lemma store_block mp m f u a b v :
  mp_ok mp m f u -> a ∈ mp_blocks mp -> b ∈ mp_blocks mp -> b <> a -> load32 (store32 m a v) b = load32 m b.
Proof.
  intros Hok Ha Hb Hne. apply same_on_load32. intros x Hx. apply load8_store32_other.
  pose proof (mp_stride4 _ _ _ _ Hok) as Hs.
  destruct (blocks_apart _ _ _ Hs a b Ha Hb) as [E|[H|H]]; [congruence|lia|lia].
Qed.

(** ** Allocating and freeing *)

Definition alloc_pool (mp : MemPool) (m : Memory) : MemPool :=
  mp <| block_free_count := u32 (block_free_count mp - 1) |> <| block_list := load32 m (block_list mp) |>.

Lemma alloc_ok mp m a f u :
  mp_ok mp m (a :: f) u ->
  block_list mp = a /\ mp_ok (alloc_pool mp m) (store32 m a (mp_address mp)) f (a :: u).
Proof.
  intros Hok. pose proof (po_free _ _ _ _ Hok) as [Ea Hf]. split; [exact Ea|].
  pose proof (mp_distinct _ _ _ _ Hok) as Hd. cbn in Hd. apply NoDup_cons in Hd as [Ha _]. rewrite elem_of_app in Ha.
  assert (Hin : forall x, x ∈ a :: f \/ x ∈ u -> x ∈ mp_blocks mp) by (intros x; apply (mp_block _ _ _ _ _ Hok)).
  assert (Hother : forall x, x ∈ f \/ x ∈ u -> load32 (store32 m a (mp_address mp)) x = load32 m x).
  { intros x Hx. apply (store_block mp m (a :: f) u); auto.
    - apply Hin. left. left.
    - apply Hin. destruct Hx; [left; right; assumption | right; assumption].
    - intros ->. tauto. }
  pose proof (mp_count_bound _ _ _ _ Hok) as Hb. pose proof Hok as []. unfold alloc_pool. rewrite Ea. split; auto.
  - apply (chain_ext m); [intros x Hx; apply Hother; auto | exact Hf].
  - change (u32 (block_free_count mp - 1) = Z.of_nat (length f)). rewrite po_count0. cbn [length] in *. rewrite u32_small by lia. lia.
  - change (f ++ a :: u ≡ₚ mp_blocks mp). rewrite <- po_blocks0. symmetry. apply (Permutation_middle f u a).
  - intros x [->|Hx]%elem_of_cons; [rewrite load32_store32; apply u32_small; assumption|].
    rewrite Hother by auto. apply po_used0, Hx.
Qed.

Definition free_pool (mp : MemPool) (a : Z) : MemPool :=
  mp <| block_free_count := u32 (block_free_count mp + 1) |> <| block_list := a |>.

Lemma free_ok mp m a f u u1 u2 :
  u = u1 ++ a :: u2 -> mp_ok mp m f u -> mp_ok (free_pool mp a) (store32 m a (block_list mp)) (a :: f) (u1 ++ u2).
Proof.
  intros -> Hok. pose proof (mp_distinct _ _ _ _ Hok) as Hd.
  assert (Hperm : f ++ u1 ++ a :: u2 ≡ₚ a :: f ++ u1 ++ u2).
  { rewrite <- (Permutation_middle u1 u2 a), <- (Permutation_middle f (u1 ++ u2) a). reflexivity. }
  rewrite Hperm in Hd. apply NoDup_cons in Hd as [Ha _]. rewrite elem_of_app in Ha.
  assert (Hain : a ∈ mp_blocks mp) by (apply (mp_block _ _ _ _ _ Hok); right; apply elem_of_app; right; left).
  assert (Hother : forall x, x ∈ f \/ x ∈ u1 ++ u2 -> load32 (store32 m a (block_list mp)) x = load32 m x).
  { intros x Hx. apply (store_block mp m f (u1 ++ a :: u2)); auto.
    - apply (mp_block _ _ _ _ _ Hok). destruct Hx as [|Hx]; [auto|]. right.
      apply elem_of_app in Hx as [|]; apply elem_of_app; [left; assumption | right; right; assumption].
    - intros ->. tauto. }
  assert (Hlist : u32 (block_list mp) = block_list mp).
  { apply u32_small. pose proof (po_free _ _ _ _ Hok) as Hf. destruct f as [|h f']; cbn in Hf; [lia|].
    destruct Hf as [-> _]. pose proof (mp_block_pos _ _ _ _ h Hok (mp_block _ _ _ _ _ Hok ltac:(left; left))). lia. }
  pose proof (mp_count_bound _ _ _ _ Hok) as Hb. pose proof Hok as []. unfold free_pool. split; auto.
  - split; [reflexivity|]. rewrite load32_store32, Hlist. apply (chain_ext m); [intros x Hx; apply Hother; auto | exact po_free0].
  - change (u32 (block_free_count mp + 1) = Z.of_nat (length (a :: f))). rewrite po_count0, length_app in *. cbn [length] in *.
    rewrite u32_small by lia. lia.
  - change (a :: f ++ u1 ++ u2 ≡ₚ mp_blocks mp). rewrite <- Hperm. exact po_blocks0.
  - intros x Hx. rewrite Hother by auto. apply po_used0. apply elem_of_app in Hx as [|]; apply elem_of_app; [left; assumption | right; right; assumption].
Qed.

(** Writes that leave the first words of the blocks alone. *)
Lemma headers_ok mp m m' f u :
  mp_ok mp m f u -> (forall a, a ∈ mp_blocks mp -> load32 m' a = load32 m a) -> mp_ok mp m' f u.
Proof.
  intros Hok H. pose proof (fun a => mp_block _ _ _ _ a Hok) as Hin. pose proof Hok as []. split; auto.
  - apply (chain_ext m); [intros a Ha; apply H; auto | exact po_free0].
  - intros a Ha. rewrite H by auto. apply po_used0, Ha.
Qed.

(** ** Waiting and waking *)

Lemma mp_wake_spec k l c :
  kernel_ok (rt_tick k) k -> rt_current_thread k = Some c -> is_wait l = true ->
  exists k', mp_wake k l = Some k' /\ calm k k' /\ lists k' l = tail (lists k l) /\
    forall t, t ∈ woken k l -> awake_stat (threads k' t) /\ error (threads k' t) = RT_EOK.
Proof.
  intros Hok Hc Hl. unfold mp_wake, woken. destruct (lists k l) as [|t q] eqn:Eq.
  { exists k. split_ands; auto; [split; eauto | intros t H; inversion H]. }
  set (f := fun th => th <| error := RT_EOK |>).
  assert (Hok0 : kernel_ok (rt_tick k) (set_thread k t f)) by (apply set_thread_inert_ok; [intros th; auto|exact Hok]).
  destruct (list_resume_spec _ (set_thread k t f) l t q Hok0 Hl Eq) as (k1 & E1 & Hok1 & Hot & Haw & El & _).
  unfold rt_ipc_list_resume in E1. change (lists (set_thread k t f) l) with (lists k l) in E1. rewrite Eq in E1.
  destruct (rt_thread_resume (set_thread k t f) t) as [[k0 e]|]; [|discriminate]. cbn [mbind option_bind] in *.
  injection E1 as ->. destruct Hot as [F1 F2 F3 F4 F5 F6 F7 F8].
  destruct (schedule_kernel_ok _ k1 c Hok1) as (k2 & c' & -> & Hok2 & Hf & Hc' & _); [rewrite F2; exact Hc|].
  destruct (awake_thread _ _ _ _ Haw) as [S E].
  exists k2. split; [reflexivity|]. split_ands.
  - split; [rewrite (sf_tick _ _ Hf), F1; exact Hok2 | eauto].
  - pose proof (sf_lists _ _ Hf l) as Hs. destruct l; try discriminate Hl; rewrite Hs; exact El.
  - intros u ->%list_elem_of_singleton. split.
    + unfold awake_stat. destruct (sf_stat _ _ Hf t) as [->|[_ D]]; [exact S | exact D].
    + rewrite (sf_threads _ _ Hf t), E, set_thread_threads. reflexivity.
Qed.

(** The running thread waits in front of the threads that wait already. *)
Lemma mp_wait_spec k b c time :
  kernel_ok (rt_tick k) k -> rt_current_thread k = Some c -> thread_stat (threads k c) = RT_THREAD_RUNNING ->
  time < RT_TICK_HALF ->
  exists k1 e, rt_thread_suspend (set_thread k c (fun th => th <| error := RT_EOK |>)) c = Some (k1, e) /\ rt_tick k1 = rt_tick k /\
  exists k', (k ← (if 0 <? time then start_thread_timer (tlist_insert_after k1 (MpWait b) c) c time
                   else Some (tlist_insert_after k1 (MpWait b) c)); rt_schedule k) = Some k' /\
    waits (set_thread k c (fun th => th <| error := RT_EOK |>)) k' (MpWait b) c time (c :: lists k (MpWait b)).
Proof.
  intros Hok Hc Hrun Ht. set (k0 := set_thread k c _).
  assert (Hok0 : kernel_ok (rt_tick k0) k0) by (apply set_thread_inert_ok; [intros th; auto|exact Hok]).
  assert (Hrun0 : thread_stat (threads k0 c) = RT_THREAD_RUNNING) by (unfold k0; rewrite set_thread_threads; exact Hrun).
  destruct (suspend_insert_spec (rt_tick k0) k0 (MpWait b) c (fun k => tlist_insert_after k (MpWait b) c)
    (c :: lists k0 (MpWait b)) Hok0 Hc Hrun0 eq_refl) as (k1 & e & E & Hq).
  - intros k1 Ell _. rewrite <- Ell. apply front_inserted.
  - exists k1, e. split; [exact E|]. split; [apply (qd_tick _ _ _ _ _ _ Hq)|].
    apply (queued_waits k0 _ (MpWait b) c time _ Hq eq_refl Ht).
Qed.

(** What an allocation does: a block, a refusal, or a wait. *)
Inductive alloc_case (b : nat) (k : Kernel) (mp : MemPool) (m : Memory) (f : list Z) (c : nat) (time : Z)
    : Kernel -> MemPool -> Memory -> mp_outcome -> Prop :=
| alloc_gives a f' :
    f = a :: f' ->
    alloc_case b k mp m f c time k (alloc_pool mp m) (store32 m a (mp_address mp)) (MpReturns (a + SIZEOF_POINTER))
| alloc_refused k' :
    f = [] -> time = 0 -> calm k k' -> lists k' (MpWait b) = lists k (MpWait b) ->
    alloc_case b k mp m f c time k' mp m (MpReturns 0)
| alloc_waits k' start :
    f = [] -> time <> 0 -> calm k k' -> lists k' (MpWait b) = c :: lists k (MpWait b) ->
    waiting k k' c (deadline_of k time) -> error (threads k' c) = RT_EOK ->
    alloc_case b k mp m f c time k' mp m (MpWaits time start).

Lemma alloc_turn_cases b k mp m f u c time start :
  mp_ok mp m f u -> calm k k -> caller k c time ->
  exists k' mp' m' o, mp_alloc_turn k b mp m time start = Some (k', mp', m', o) /\
    alloc_case b k mp m f c time k' mp' m' o.
Proof.
  intros Hok [Hkok _] [A1 A2 A3 A4]. unfold mp_alloc_turn. rewrite (po_count _ _ _ _ Hok). destruct f as [|a f'].
  - cbn [length Z.of_nat Z.eqb]. destruct (Z.eqb_spec time 0) as [->|H0].
    + eexists _, _, _, _. split; [reflexivity|]. apply alloc_refused; auto; unfold rt_set_errno, rt_thread_self; rewrite A1;
        destruct (negb _); try reflexivity; (split; [|eauto]); [exact Hkok|].
      apply (set_thread_inert_ok (rt_tick k)); [intros th; auto | exact Hkok].
    + destruct A3 as [|Hn]; [contradiction|]. rewrite Hn. cbn [Z.eqb negb]. unfold rt_thread_self. rewrite A1. cbn [mbind option_bind].
      destruct (mp_wait_spec k b c time Hkok A1 A2 A4) as (k1 & e & -> & Et & k' & E & Hw & Hl & _ & He).
      cbn [mbind option_bind]. rewrite E. cbn [mbind option_bind]. eexists _, _, _, _. split; [reflexivity|].
      destruct Hw as [W1 W2 W3 W4 (c' & W5 & W5') W6].
      apply alloc_waits; auto; [split; eauto | |].
      * split; auto; [exists c'; auto |]. intros t. rewrite W6. unfold set_thread. cbn. unfold upd. destruct (decide _) as [->|]; reflexivity.
      * rewrite (proj1 (He c)), set_thread_threads. reflexivity.
  - destruct (Z.eqb_spec (Z.of_nat (length (a :: f'))) 0) as [E|_]; [cbn in E; lia|].
    destruct (alloc_ok _ _ _ _ _ Hok) as [Ea _].
    cbv zeta. change (block_list (mp <| block_free_count := _ |>)) with (block_list mp).
    pose proof (mp_block_pos _ _ _ _ a Hok (mp_block _ _ _ _ _ Hok ltac:(left; left))).
    rewrite Ea. destruct (Z.eqb_spec a 0); [lia|].
    exists k, (alloc_pool mp m), (store32 m a (mp_address mp)), (MpReturns (a + SIZEOF_POINTER)).
    split; [unfold alloc_pool; rewrite (po_count _ _ _ _ Hok), Ea; reflexivity|]. apply (alloc_gives b k mp m (a :: f') c time a f'). reflexivity.
Qed.

(** ** A pool in use *)

(** The pool with the blocks of the clients and the threads woken that have not gone
    on yet. *)
Record mp_system := mkMpSystem {
  ps_kernel : Kernel;
  ps_pool : MemPool;
  ps_memory : Memory;
  ps_used : list Z;
  ps_woken : list nat;
}.

(** The clients' view of a block in use: where its data starts. *)
Definition mp_data (a : Z) : Z := a + SIZEOF_POINTER.

Definition used_after (o : mp_outcome) (u : list Z) : list Z :=
  match o with MpReturns p => if p =? 0 then u else (p - SIZEOF_POINTER) :: u | MpWaits _ _ => u end.

Section PoolSteps.
Variable b : nat.

Inductive mp_step : mp_system -> mp_system -> Prop :=
| pstep_alloc k mp m u w c time k' mp' m' o :
    caller k c time -> rt_mp_alloc k b mp m time = Some (k', mp', m', o) ->
    mp_step (mkMpSystem k mp m u w) (mkMpSystem k' mp' m' (used_after o u) w)
| pstep_resume k mp m u w1 t w2 time start k' mp' m' o :
    caller k t (fst (time_left k time start)) -> error (threads k t) = RT_EOK ->
    rt_mp_alloc_resume k b mp m t time start = Some (k', mp', m', o) ->
    mp_step (mkMpSystem k mp m u (w1 ++ t :: w2)) (mkMpSystem k' mp' m' (used_after o u) (w1 ++ w2))
| pstep_free k mp m u1 a u2 w k' mp' m' :
    rt_mp_free k b mp m (mp_data a) = Some (k', mp', m') ->
    mp_step (mkMpSystem k mp m (u1 ++ a :: u2) w) (mkMpSystem k' mp' m' (u1 ++ u2) (w ++ woken k (MpWait b)))
| pstep_write k mp m u w m' :
    (forall x, (forall a, a ∈ u -> x < mp_data a \/ a + mp_stride mp <= x) ->
       start_address mp <= x < start_address mp + block_total_count mp * mp_stride mp -> load8 m' x = load8 m x) ->
    mp_step (mkMpSystem k mp m u w) (mkMpSystem k mp m' u w)
| pstep_rest k mp m u w k' :
    rest_step (MpWait b) k k' -> mp_step (mkMpSystem k mp m u w) (mkMpSystem k' mp m u w).

(** [f] are the free blocks: while threads wait, there are no more of them than
    threads on their way to take one. *)
Definition mp_inv (y : mp_system) : Prop :=
  calm (ps_kernel y) (ps_kernel y) /\
  exists f, mp_ok (ps_pool y) (ps_memory y) f (ps_used y) /\
    (lists (ps_kernel y) (MpWait b) <> [] -> (length f <= length (ps_woken y))%nat).

(** An allocation, by a thread that was counted as woken or was not. *)
Lemma alloc_inv k mp m u (w : list nat) c time k' mp' m' o f :
  mp_ok mp m f u -> (lists k (MpWait b) <> [] -> (length f <= length w + 1)%nat) -> calm k k -> alloc_case b k mp m f c time k' mp' m' o ->
  mp_inv (mkMpSystem k' mp' m' (used_after o u) w).
Proof.
  intros Hok Hw Hcalm Hcase. destruct Hcase as [a f' ->|k' -> _ [H1 H2] Hl|k' start -> H0 [H1 H2] Hl _ _].
  - destruct (alloc_ok _ _ _ _ _ Hok) as [Ea Hok'].
    assert (Ep : (a + SIZEOF_POINTER =? 0) = false).
    { apply Z.eqb_neq. pose proof (mp_block_pos _ _ _ _ a Hok (mp_block _ _ _ _ _ Hok ltac:(left; left))). unfold SIZEOF_POINTER. lia. }
    split; [exact Hcalm|]. exists f'. cbn [ps_pool ps_memory ps_used ps_kernel ps_woken used_after]. rewrite Ep.
    replace (a + SIZEOF_POINTER - SIZEOF_POINTER) with a by lia. split; [exact Hok'|]. intros H. specialize (Hw H). cbn in Hw. lia.
  - split; [split; assumption|]. exists []. split; [exact Hok | cbn; lia].
  - split; [split; assumption|]. exists []. split; [exact Hok | cbn; lia].
Qed.

Lemma mp_step_inv y y' : mp_inv y -> mp_step y y' -> mp_inv y'.
Proof.
  intros (Hcalm & f & Hok & Hw) Hstep. destruct Hstep as
    [k mp m u w c time k' mp' m' o Hca E|k mp m u w1 t w2 time start k' mp' m' o Hca He E
    |k mp m u1 a u2 w k' mp' m' E|k mp m u w m' H|k mp m u w k' [R1 R2 R3 _]];
    cbn [ps_kernel ps_pool ps_memory ps_used ps_woken] in *.
  - destruct (alloc_turn_cases b k mp m f u c time 0 Hok Hcalm Hca) as (k2 & mp2 & m2 & o2 & E2 & Hcase).
    unfold rt_mp_alloc in E. rewrite E in E2. injection E2 as <- <- <- <-.
    eapply (alloc_inv k mp m u w); eauto. intros H. specialize (Hw H). lia.
  - unfold rt_mp_alloc_resume in E. rewrite He in E. change (negb (RT_EOK =? RT_EOK)) with false in E. cbv iota in E.
    destruct (alloc_turn_cases b k mp m f u t _ start Hok Hcalm Hca) as (k2 & mp2 & m2 & o2 & E2 & Hcase).
    rewrite E in E2. injection E2 as <- <- <- <-. rewrite length_app in Hw. cbn [length] in Hw.
    eapply (alloc_inv k mp m u (w1 ++ w2)); eauto. rewrite length_app. intros H. specialize (Hw H). lia.
  - unfold rt_mp_free, mp_data in E.
    assert (Ha : a ∈ u1 ++ a :: u2) by (apply elem_of_app; right; left).
    pose proof (mp_block_pos _ _ _ _ a Hok (mp_block _ _ _ _ _ Hok (or_intror Ha))) as Hpos.
    destruct (Z.eqb_spec (a + SIZEOF_POINTER) 0) as [E0|_]; [unfold SIZEOF_POINTER in E0; lia|].
    replace (a + SIZEOF_POINTER - SIZEOF_POINTER) with a in E by lia.
    rewrite (po_used _ _ _ _ Hok a Ha), Z.eqb_refl in E. cbn [negb] in E.
    destruct Hcalm as [Hkok [c Hc]]. destruct (mp_wake_spec k (MpWait b) c Hkok Hc eq_refl) as (k2 & E2 & [H1 H2] & Hl & _).
    rewrite E2 in E. cbn [mbind option_bind] in E. injection E as <- <- <-.
    split; [split; assumption|]. exists (a :: f). split; [exact (free_ok _ _ _ _ _ _ _ eq_refl Hok)|].
    cbn [ps_kernel ps_woken]. rewrite Hl. intros H. apply tail_nonempty in H. rewrite length_app, woken_length by exact H.
    specialize (Hw H). cbn [length]. lia.
  - split; [exact Hcalm|]. exists f. split; [|exact Hw]. apply (headers_ok mp m); [exact Hok|]. intros a Ha.
    apply same_on_load32. intros x Hx. pose proof (mp_block_range _ _ _ _ a Hok Ha). pose proof (mp_stride4 _ _ _ _ Hok) as Hs.
    apply H; [|lia]. intros a' Ha'. pose proof (mp_block _ _ _ _ a' Hok (or_intror Ha')) as Hb'. unfold mp_data, SIZEOF_POINTER.
    destruct (blocks_apart _ _ _ Hs a a' Ha Hb') as [->|[|]]; lia.
  - split; [split; assumption|]. exists f. split; [exact Hok|]. intros H. apply Hw. intros E. rewrite E in R3.
    apply sublist_nil_r in R3. contradiction.
Qed.

Inductive mp_reach (y0 : mp_system) : mp_system -> Prop :=
| mp_here : mp_reach y0 y0
| mp_then y y' : mp_reach y0 y -> mp_step y y' -> mp_reach y0 y'.

Lemma mp_reach_inv y0 y : mp_inv y0 -> mp_reach y0 y -> mp_inv y.
Proof. intros H0 Hr. induction Hr; [exact H0|eapply mp_step_inv; eauto]. Qed.
End PoolSteps.

(** ** Initialisation *)

Lemma init_links start stride m n :
  0 < start -> 4 <= stride -> start + Z.of_nat n * stride <= 4294967296 ->
  forall i, (i < n)%nat ->
    load32 (fold_left (mp_init_round start stride) (seq 0 n) m) (start + Z.of_nat i * stride) =
    u32 (start + (Z.of_nat i + 1) * stride).
Proof.
  intros Hs Hst. induction n as [|n IH]; intros Hend i Hi; [lia|]. rewrite seq_S, fold_left_app. cbn [fold_left plus].
  unfold mp_init_round at 1. destruct (decide (i = n)) as [->|Hne]; [apply load32_store32|].
  rewrite <- IH by lia. apply same_on_load32. intros x Hx. apply load8_store32_other. nia.
Qed.

Lemma chain_links start stride m n j :
  (j < n)%nat ->
  (forall i, (j <= i < n)%nat -> load32 m (start + Z.of_nat i * stride) =
     if decide (S i = n) then 0 else start + Z.of_nat (S i) * stride) ->
  chain m (start + Z.of_nat j * stride) (map (fun i => start + Z.of_nat i * stride) (seq j (n - j))).
Proof.
  intros Hj H. remember (n - j)%nat as d eqn:Ed. revert j Hj H Ed. induction d as [|d IH]; intros j Hj H Ed; [lia|].
  cbn [seq map chain]. split; [reflexivity|]. rewrite H by lia. destruct (decide (S j = n)) as [E|Hne].
  - assert (d = 0%nat) as -> by lia. reflexivity.
  - apply IH; [lia | intros i Hi; apply H; lia | lia].
Qed.

Lemma mp_init_inv k b m mp start size bs :
  kernel_ok (rt_tick k) k -> (exists c, rt_current_thread k = Some c) -> lists k (MpWait b) = [] ->
  0 <= mp < 4294967296 -> 0 < start -> start + size <= 4294967296 -> 0 < bs <= 4294967280 -> bs + 7 <= size ->
  exists k' m' p, rt_mp_init k b m mp start size bs = Some (k', m', p, RT_EOK) /\ mp_inv b (mkMpSystem k' p m' [] []) /\
    block_total_count p = block_free_count p /\ 0 < block_total_count p /\ bs <= block_size p /\ start_address p = start.
Proof.
  intros Hok [c Hc] Hl Hmp Hs Hend Hbs Hsize. unfold rt_mp_init.
  destruct (Z.ltb_spec 0 size); [|lia]. destruct (Z.ltb_spec 0 bs); [|lia]. cbn [andb negb].
  rewrite RT_ALIGN_DOWN_4 by lia. assert (Ea : bs <= RT_ALIGN bs RT_ALIGN_SIZE <= bs + 3).
  { rewrite RT_ALIGN_4 by lia. Z.div_mod_to_equations. lia. }
  assert (Ea4 : RT_ALIGN bs RT_ALIGN_SIZE mod 4 = 0) by apply RT_ALIGN_mod4.
  set (s := RT_ALIGN bs RT_ALIGN_SIZE) in *. unfold SIZEOF_POINTER. rewrite (u32_small (s + 4)) by lia.
  destruct (Z.eqb_spec (s + 4) 0) as [|_]; [lia|]. set (sz := size - size mod 4).
  assert (Hsz : s + 4 <= sz <= size).
  { unfold sz. Z.div_mod_to_equations. lia. }
  set (total := sz / (s + 4)).
  assert (Ht : 0 < total /\ total * (s + 4) <= sz).
  { unfold total. split; [apply Z.div_str_pos; lia|]. rewrite Z.mul_comm. apply Z.mul_div_le. lia. }
  assert (Htb : total <= sz) by nia. set (n := Z.to_nat total). assert (En : Z.of_nat n = total) by lia.
  assert (Elast : u32 (start + (total - 1) * (s + 4)) = start + (total - 1) * (s + 4)) by (apply u32_small; nia).
  rewrite Elast. eexists _, _, _. split; [reflexivity|]. cbn [block_total_count block_free_count block_size start_address].
  split; [|split_ands; lia]. split.
  { split; [|exists c; exact Hc]. apply (object_init_ok _ k (MpWait b) Hok Hl). }
  set (m1 := fold_left _ _ m).
  exists (blocks start (s + 4) n). cbn [ps_kernel ps_pool ps_memory ps_used ps_woken]. split.
  - split; cbn [start_address block_size block_total_count block_free_count block_list mp_address];
      unfold mp_blocks, mp_stride; cbn [start_address block_size block_total_count]; unfold SIZEOF_POINTER; fold n; try lia.
    + replace start with (start + Z.of_nat 0 * (s + 4)) at 2 by lia. unfold blocks. replace (seq 0 n) with (seq 0 (n - 0)) by (f_equal; lia).
      apply (chain_links start (s + 4)); [lia|]. intros i Hi. destruct (decide (S i = n)) as [E|Hne].
      * replace (start + Z.of_nat i * (s + 4)) with (start + (total - 1) * (s + 4)) by (f_equal; f_equal; lia).
        rewrite load32_store32. reflexivity.
      * rewrite (same_on_load32 _ m1) by (intros x Hx; apply load8_store32_other; nia).
        unfold m1. rewrite init_links by (lia || nia). rewrite u32_small by nia. f_equal. f_equal. lia.
    + unfold blocks. rewrite length_map, length_seq. lia.
    + rewrite app_nil_r. reflexivity.
    + intros a Ha. inversion Ha.
  - intros H'. cbn in H'. rewrite upd_same in H'. contradiction.
Qed.

(** ** Properties *)

(** Storing a first word leaves the data of every block alone. *)
Lemma store_data mp m f u a b v :
  mp_ok mp m f u -> a ∈ mp_blocks mp -> b ∈ mp_blocks mp -> same_on m (store32 m a v) (mp_data b) (b + mp_stride mp).
Proof.
  intros Hok Ha Hb x Hx. symmetry. apply load8_store32_other. unfold mp_data, SIZEOF_POINTER in *.
  destruct (blocks_apart _ _ _ (mp_stride4 _ _ _ _ Hok) a b Ha Hb) as [->|[|]]; lia.
Qed.

(** What an allocation gives the client. *)
Definition fresh_block (mp : MemPool) (used : list Z) (p : Z) : Prop :=
  start_address mp + 4 <= p /\ p + block_size mp <= start_address mp + block_total_count mp * mp_stride mp /\
  forall a, a ∈ used -> p + block_size mp <= mp_data a \/ mp_data a + block_size mp <= p.

Lemma alloc_serves b k mp m f u c time :
  mp_ok mp m f u -> calm k k -> caller k c time ->
  exists k' mp' m' o, rt_mp_alloc k b mp m time = Some (k', mp', m', o) /\
    (forall a, a ∈ u -> same_on m m' (mp_data a) (a + mp_stride mp)) /\
    match o with
    | MpReturns p => if p =? 0 then f = [] /\ time = 0 else fresh_block mp u p
    | MpWaits _ _ => f = [] /\ time <> 0
    end.
Proof.
  intros Hok Hcalm Hca. destruct (alloc_turn_cases b k mp m f u c time 0 Hok Hcalm Hca) as (k' & mp' & m' & o & E & Hcase).
  exists k', mp', m', o. split; [exact E|]. pose proof (fun a => mp_block _ _ _ _ a Hok) as Hin.
  destruct Hcase as [a f' ->|k' -> -> _ _|k' start -> H0 _ _ _ _].
  - assert (Ha : a ∈ mp_blocks mp) by (apply Hin; left; left). split.
    + intros b' Hb'. apply (store_data _ _ _ _ _ _ _ Hok Ha). auto.
    + pose proof (mp_block_range _ _ _ _ _ Hok Ha) as Hr. pose proof (mp_block_pos _ _ _ _ _ Hok Ha).
      destruct (Z.eqb_spec (a + SIZEOF_POINTER) 0); [unfold SIZEOF_POINTER in *; lia|].
      unfold fresh_block, mp_data, mp_stride, SIZEOF_POINTER in *. split; [lia|]. split; [lia|]. intros b' Hb'.
      destruct (blocks_apart _ _ _ (mp_stride4 _ _ _ _ Hok) a b' Ha (Hin b' (or_intror Hb'))) as [->|[|]];
        unfold mp_stride, SIZEOF_POINTER in *; [|lia|lia].
      pose proof (mp_distinct _ _ _ _ Hok) as Hd. cbn in Hd. apply NoDup_cons in Hd as [Hd _]. destruct Hd. apply elem_of_app. auto.
  - split; [intros a _ x _; reflexivity | split; reflexivity].
  - split; [intros a _ x _; reflexivity | auto].
Qed.

Lemma free_serves b k mp m f u a :
  mp_ok mp m f u -> calm k k -> a ∈ u ->
  exists k' mp' m', rt_mp_free k b mp m (mp_data a) = Some (k', mp', m') /\
    (forall a', a' ∈ u -> same_on m m' (mp_data a') (a' + mp_stride mp)) /\
    block_free_count mp' = block_free_count mp + 1 /\
    lists k' (MpWait b) = tail (lists k (MpWait b)) /\
    forall t, t ∈ woken k (MpWait b) -> awake_stat (threads k' t) /\ error (threads k' t) = RT_EOK.
Proof.
  intros Hok [Hkok [c Hc]] Ha. pose proof (mp_block _ _ _ _ a Hok (or_intror Ha)) as Hb.
  pose proof (mp_block_pos _ _ _ _ _ Hok Hb). unfold rt_mp_free.
  assert (Emp : mp_data a - SIZEOF_POINTER = a) by (unfold mp_data; lia). rewrite Emp.
  destruct (Z.eqb_spec (mp_data a) 0) as [E|_]; [unfold mp_data, SIZEOF_POINTER in E; lia|].
  rewrite (po_used _ _ _ _ Hok a Ha), Z.eqb_refl. cbn [negb].
  destruct (mp_wake_spec k (MpWait b) c Hkok Hc eq_refl) as (k' & -> & _ & Hl & Hw). cbn [mbind option_bind].
  eexists _, _, _. split; [reflexivity|]. split_ands; auto.
  - intros a' Ha'. apply (store_data _ _ _ _ _ _ _ Hok Hb). apply (mp_block _ _ _ _ _ Hok). auto.
  - change (u32 (block_free_count mp + 1) = block_free_count mp + 1). apply u32_small.
    pose proof (mp_count_bound _ _ _ _ Hok) as Hn. rewrite (po_count _ _ _ _ Hok). pose proof (po_size _ _ _ _ Hok).
    assert (length u <> 0%nat) by (destruct u; [inversion Ha | discriminate]). lia.
Qed.

(** C27: in every state a memory pool reaches, whatever its clients write into their
    blocks: the free count and the blocks in use add up to all blocks of the pool, and
    no block is given out twice; an allocation by a running thread returns a
    block inside the pool that overlaps no block in use, or is refused or waits only
    when no block is free; every block in use can be freed; and neither call changes the
    data of a block in use. *)
Theorem mempool_serves k b m mp start size bs :
  kernel_ok (rt_tick k) k -> (exists c, rt_current_thread k = Some c) -> lists k (MpWait b) = [] ->
  0 <= mp < 4294967296 -> 0 < start -> start + size <= 4294967296 -> 0 < bs <= 4294967280 -> bs + 7 <= size ->
  exists k' m' p, rt_mp_init k b m mp start size bs = Some (k', m', p, RT_EOK) /\ bs <= block_size p /\
  forall y, mp_reach b (mkMpSystem k' p m' [] []) y ->
    let '(mkMpSystem k1 p1 m1 used _) := y in
    block_free_count p1 + Z.of_nat (length used) = block_total_count p1 /\ NoDup used /\
    (forall c time, caller k1 c time -> exists k2 p2 m2 o, rt_mp_alloc k1 b p1 m1 time = Some (k2, p2, m2, o) /\
      (forall a, a ∈ used -> same_on m1 m2 (mp_data a) (a + mp_stride p1)) /\
      match o with
      | MpReturns p => if p =? 0 then block_free_count p1 = 0 /\ time = 0 else fresh_block p1 used p
      | MpWaits _ _ => block_free_count p1 = 0 /\ time <> 0
      end) /\
    (forall a, a ∈ used -> exists k2 p2 m2, rt_mp_free k1 b p1 m1 (mp_data a) = Some (k2, p2, m2) /\
      (forall a', a' ∈ used -> same_on m1 m2 (mp_data a') (a' + mp_stride p1)) /\
      block_free_count p2 = block_free_count p1 + 1).
Proof.
  intros Hok Hc Hl Hmp Hs Hend Hbs Hsize.
  destruct (mp_init_inv k b m mp start size bs Hok Hc Hl Hmp Hs Hend Hbs Hsize) as (k' & m' & p & E & Hinv & _ & _ & Hb & _).
  exists k', m', p. split; [exact E|]. split; [exact Hb|]. intros y Hy.
  destruct (mp_reach_inv b _ _ Hinv Hy) as (Hcalm & f & Hmpok & _). destruct y as [k1 p1 m1 used w].
  cbn [ps_kernel ps_pool ps_memory ps_used] in *. pose proof (mp_count_bound _ _ _ _ Hmpok) as Hn.
  pose proof (mp_distinct _ _ _ _ Hmpok) as Hd. apply NoDup_app in Hd as (_ & _ & Hd).
  rewrite (po_count _ _ _ _ Hmpok). split; [lia|]. split; [exact Hd|]. split.
  - intros c time Hca. destruct (alloc_serves b _ _ _ _ _ c time Hmpok Hcalm Hca) as (k2 & p2 & m2 & o & E2 & Hk & Ho).
    exists k2, p2, m2, o. split; [exact E2|]. split; [exact Hk|].
    destruct o as [q|]; [destruct (q =? 0)|]; try (destruct Ho as [-> Ht]; split; [reflexivity | exact Ht]). exact Ho.
  - intros a Ha. destruct (free_serves b _ _ _ _ _ a Hmpok Hcalm Ha) as (k2 & p2 & m2 & E2 & Hk & Hcnt & _).
    exists k2, p2, m2. rewrite <- (po_count _ _ _ _ Hmpok). auto.
Qed.

(** Threads that wait for a block are served last in, first out: the caller waits in
    front of the others, a freed block wakes the thread in front, which is ready with no
    error; and no wake-up is lost: while threads wait, there are no more free blocks
    than threads already woken. *)
Theorem mempool_waiters k b m mp start size bs :
  kernel_ok (rt_tick k) k -> (exists c, rt_current_thread k = Some c) -> lists k (MpWait b) = [] ->
  0 <= mp < 4294967296 -> 0 < start -> start + size <= 4294967296 -> 0 < bs <= 4294967280 -> bs + 7 <= size ->
  exists k' m' p, rt_mp_init k b m mp start size bs = Some (k', m', p, RT_EOK) /\
  forall y, mp_reach b (mkMpSystem k' p m' [] []) y ->
    let '(mkMpSystem k1 p1 m1 used woken1) := y in
    (lists k1 (MpWait b) <> [] -> block_free_count p1 <= Z.of_nat (length woken1)) /\
    (forall c time, caller k1 c time -> time <> 0 -> block_free_count p1 = 0 ->
      exists k2 start, rt_mp_alloc k1 b p1 m1 time = Some (k2, p1, m1, MpWaits time start) /\
        lists k2 (MpWait b) = c :: lists k1 (MpWait b) /\ waiting k1 k2 c (deadline_of k1 time)) /\
    (forall a t q, a ∈ used -> lists k1 (MpWait b) = t :: q ->
      exists k2 p2 m2, rt_mp_free k1 b p1 m1 (mp_data a) = Some (k2, p2, m2) /\
        lists k2 (MpWait b) = q /\ awake_stat (threads k2 t) /\ error (threads k2 t) = RT_EOK).
Proof.
  intros Hok Hc Hl Hmp Hs Hend Hbs Hsize.
  destruct (mp_init_inv k b m mp start size bs Hok Hc Hl Hmp Hs Hend Hbs Hsize) as (k' & m' & p & E & Hinv & _).
  exists k', m', p. split; [exact E|]. intros y Hy.
  destruct (mp_reach_inv b _ _ Hinv Hy) as (Hcalm & f & Hmpok & Hw). destruct y as [k1 p1 m1 used w].
  cbn [ps_kernel ps_pool ps_memory ps_used ps_woken] in *. split_ands.
  - rewrite (po_count _ _ _ _ Hmpok). intros H. specialize (Hw H). lia.
  - intros c time Hca H0 Hz. destruct (alloc_turn_cases b k1 p1 m1 f used c time 0 Hmpok Hcalm Hca) as (k2 & mp2 & m2 & o & E2 & Hcase).
    rewrite (po_count _ _ _ _ Hmpok) in Hz. destruct Hcase as [a f' ->|k2 _ Ht _ _|k2 st _ _ _ Hlist Hwait _];
      [cbn in Hz; lia | contradiction|]. exists k2, st. auto.
  - intros a t q Ha Hq. destruct (free_serves b _ _ _ _ _ a Hmpok Hcalm Ha) as (k2 & p2 & m2 & E2 & _ & _ & Hl2 & Haw).
    unfold woken in Haw. rewrite Hq in *. exists k2, p2, m2. split; [exact E2|]. split; [exact Hl2|]. apply Haw. left.
Qed.

(** ** The properties at concrete values *)

(** A pool of two blocks of 8 bytes, its control block at 1000. *)
Definition demo_pool : MemPool := mkMemPool 1000 4096 24 8 4096 2 2.
Definition demo_pool_kernel : Kernel := demo <| lists := upd (lists demo) (MpWait 11) [] |>.

Lemma demo_pool_init : exists m', rt_mp_init demo 11 (fun a => a) 1000 4096 24 8 = Some (demo_pool_kernel, m', demo_pool, RT_EOK).
Proof. eexists. reflexivity. Qed.

Lemma demo_pool_caller time : time < RT_TICK_HALF -> caller demo_pool_kernel 0 time.
Proof. intros H. split; [reflexivity | reflexivity | right; reflexivity | exact H]. Qed.

Lemma mempool_serves_witness :
  exists m' k2 p2 m2 q k3 p3 m3, rt_mp_init demo 11 (fun a => a) 1000 4096 24 8 = Some (demo_pool_kernel, m', demo_pool, RT_EOK) /\
    rt_mp_alloc demo_pool_kernel 11 demo_pool m' 0 = Some (k2, p2, m2, MpReturns q) /\ fresh_block demo_pool [] q /\
    rt_mp_free k2 11 p2 m2 (mp_data (q - SIZEOF_POINTER)) = Some (k3, p3, m3).
Proof.
  destruct (mempool_serves demo 11 (fun a => a) 1000 4096 24 8 demo_ok (ex_intro _ 0%nat eq_refl) eq_refl
    ltac:(lia) ltac:(lia) ltac:(lia) ltac:(lia) ltac:(lia)) as (k' & m' & p & E & _ & H).
  destruct demo_pool_init as [m0 E0]. pose proof E as E1. rewrite E0 in E1. injection E1 as <- <- <-.
  destruct (H _ (mp_here 11 _)) as (_ & _ & Halloc & _).
  destruct (Halloc 0%nat 0 (demo_pool_caller 0 eq_refl)) as (k2 & p2 & m2 & o & Ea & _ & Ho).
  destruct o as [q|t d]; [|destruct Ho as [F _]; discriminate F].
  destruct (Z.eqb_spec q 0) as [Eq|Eq]; [destruct Ho as [F _]; discriminate F|].
  pose proof (mp_then 11 _ _ _ (mp_here 11 _) (pstep_alloc 11 _ _ _ [] [] 0%nat 0 _ _ _ _ (demo_pool_caller 0 eq_refl) Ea)) as Hr.
  destruct (H _ Hr) as (_ & _ & _ & Hfree). cbn [used_after] in Hfree. rewrite (proj2 (Z.eqb_neq q 0) Eq) in Hfree.
  destruct (Hfree (q - SIZEOF_POINTER) ltac:(left)) as (k3 & p3 & m3 & Ef & _).
  exists m0, k2, p2, m2, q, k3, p3, m3. auto.
Defined.

(** With one block, taken, the running thread waits for ten ticks. *)
Lemma mempool_waiters_witness :
  exists m1 p1 m2 k2 start, rt_mp_alloc demo_pool_kernel 11 (mkMemPool 1000 4096 12 8 4096 1 1) m1 0 =
      Some (demo_pool_kernel, p1, m2, MpReturns 4100) /\
    rt_mp_alloc demo_pool_kernel 11 p1 m2 10 = Some (k2, p1, m2, MpWaits 10 start) /\ lists k2 (MpWait 11) = [0%nat].
Proof.
  destruct (mempool_waiters demo 11 (fun a => a) 1000 4096 15 8 demo_ok (ex_intro _ 0%nat eq_refl) eq_refl
    ltac:(lia) ltac:(lia) ltac:(lia) ltac:(lia) ltac:(lia)) as (k' & m' & p & E & H).
  assert (E0 : exists m0, rt_mp_init demo 11 (fun a => a) 1000 4096 15 8 =
    Some (demo_pool_kernel, m0, mkMemPool 1000 4096 12 8 4096 1 1, RT_EOK)) by (eexists; reflexivity).
  destruct E0 as [m0 E0]. rewrite E0 in E. injection E as <- <- <-.
  set (p0 := mkMemPool 1000 4096 12 8 4096 1 1) in *.
  assert (Ea : rt_mp_alloc demo_pool_kernel 11 p0 m0 0 =
    Some (demo_pool_kernel, alloc_pool p0 m0, store32 m0 4096 1000, MpReturns 4100)) by reflexivity.
  pose proof (mp_then 11 _ _ _ (mp_here 11 _) (pstep_alloc 11 _ _ _ [] [] 0%nat 0 _ _ _ _ (demo_pool_caller 0 eq_refl) Ea)) as Hr.
  destruct (H _ Hr) as (_ & Hwait & _).
  destruct (Hwait 0%nat 10 (demo_pool_caller 10 eq_refl) ltac:(discriminate) eq_refl) as (k2 & start & Ew & El & _).
  exists m0, (alloc_pool p0 m0), (store32 m0 4096 1000), k2, start. split; [exact Ea|]. split; [exact Ew | exact El].
Defined.
