(* ===== verification/Create.v ===== *)
(** * Kernel objects and their memory (ipc.c, mempool.c, timer.c, thread.c)

    The calls that make and unmake kernel objects work on the kernel and on the object
    container with its heap.  An object of the kernel model is named by the number of
    its address.  The kernel's part of each call is the definition of the same name in
    the object's own file; the fields behind the header are in the object's record. *)

From S2P Require Import Prelude Kernel Scheduler Timer Thread Tick Ipc Mutex Event Mailbox.
From S2P Require Import Memory Kservice Blocks Mem Heap Strings LinkedList Object MessageQueue Mempool.

Definition key (address : Z) : nat := Z.to_nat address.

Section Calls.
Context (container : Z).

(** [RT_ASSERT(rt_object_get_type(o) == class)] and [RT_ASSERT(rt_object_is_systemobject(o) == static)] *)
Definition assert_object (s : Objects) (o class : Z) (static : bool) : option unit :=
  type ← rt_object_get_type s o;
  system ← rt_object_is_systemobject s o;
  if (type =? class) && Bool.eqb system static then Some tt else None.

(** [o->parent.flag = flag] *)
Definition set_flag (s : Objects) (o flag : Z) : Objects := on_memory s (fun m => set_object_flag m o flag).

Definition RT_KERNEL_MALLOC (k : Kernel) (s : Objects) (size : Z) : option (Objects * Z) :=
  '(h, p) ← rt_malloc (rt_interrupt_nest k) (obj_heap s) size;
  Some (s <| obj_heap := h |>, p).
Definition RT_KERNEL_FREE (k : Kernel) (s : Objects) (p : Z) : option Objects :=
  h ← rt_free (rt_interrupt_nest k) (obj_heap s) p;
  Some (s <| obj_heap := h |>).

(** [RT_DEBUG_NOT_IN_INTERRUPT] *)
Definition not_in_interrupt (k : Kernel) : option unit := if rt_interrupt_nest k =? 0 then Some tt else None.

(** What a creating call leaves: the new object with its address, or none. *)
Abbreviation created X := (option (Kernel * Objects * option (Z * X))).

(** ** Semaphores *)

Definition rt_sem_init (fuel : nat) (k : Kernel) (s : Objects) (sem name value flag : Z) : option (Kernel * Objects * Sem * Z) :=
  if negb (value <? 65536) then None
  else
    s ← rt_object_init container fuel s sem RT_Object_Class_Semaphore name;
    '(k, sm, r) ← Ipc.rt_sem_init k (key sem) value flag;
    Some (k, set_flag s sem flag, sm, r).

Definition rt_sem_detach (k : Kernel) (s : Objects) (sem : Z) (sm : Sem) : option (Kernel * Objects * Z) :=
  assert_object s sem RT_Object_Class_Semaphore true;;
  '(k, r) ← Ipc.rt_sem_detach k (key sem) sm;
  s ← rt_object_detach s sem;
  Some (k, s, r).

Definition rt_sem_create (k : Kernel) (s : Objects) (name value flag : Z) : created Sem :=
  not_in_interrupt k;;
  if negb (value <? 65536) then None
  else
    '(s, sem) ← rt_object_allocate container (rt_interrupt_nest k) s RT_Object_Class_Semaphore name;
    if sem =? 0 then Some (k, s, None)
    else
      '(k, sm, _) ← Ipc.rt_sem_init k (key sem) value flag;
      Some (k, set_flag s sem flag, Some (sem, sm)).

Definition rt_sem_delete (k : Kernel) (s : Objects) (sem : Z) (sm : Sem) : option (Kernel * Objects * Z) :=
  not_in_interrupt k;;
  assert_object s sem RT_Object_Class_Semaphore false;;
  '(k, r) ← Ipc.rt_sem_delete k (key sem) sm;
  s ← rt_object_delete (rt_interrupt_nest k) s sem;
  Some (k, s, r).

(** ** Mutexes *)

Definition rt_mutex_init (fuel : nat) (k : Kernel) (s : Objects) (mutex name flag : Z) : option (Kernel * Objects * Mutex * Z) :=
  s ← rt_object_init container fuel s mutex RT_Object_Class_Mutex name;
  let '(k, mu, r) := Mutex.rt_mutex_init k (key mutex) flag in
  Some (k, set_flag s mutex flag, mu, r).

Definition rt_mutex_detach (k : Kernel) (s : Objects) (mutex : Z) : option (Kernel * Objects * Z) :=
  assert_object s mutex RT_Object_Class_Mutex true;;
  '(k, r) ← Mutex.rt_mutex_detach k (key mutex);
  s ← rt_object_detach s mutex;
  Some (k, s, r).

Definition rt_mutex_create (k : Kernel) (s : Objects) (name flag : Z) : created Mutex :=
  not_in_interrupt k;;
  '(s, mutex) ← rt_object_allocate container (rt_interrupt_nest k) s RT_Object_Class_Mutex name;
  if mutex =? 0 then Some (k, s, None)
  else
    let '(k, mu, _) := Mutex.rt_mutex_init k (key mutex) flag in
    Some (k, set_flag s mutex flag, Some (mutex, mu)).

Definition rt_mutex_delete (k : Kernel) (s : Objects) (mutex : Z) : option (Kernel * Objects * Z) :=
  not_in_interrupt k;;
  assert_object s mutex RT_Object_Class_Mutex false;;
  '(k, r) ← Mutex.rt_mutex_delete k (key mutex);
  s ← rt_object_delete (rt_interrupt_nest k) s mutex;
  Some (k, s, r).

(** ** Events *)

Definition rt_event_init (fuel : nat) (k : Kernel) (s : Objects) (event name flag : Z) : option (Kernel * Objects * Event * Z) :=
  s ← rt_object_init container fuel s event RT_Object_Class_Event name;
  let s := set_flag s event flag in
  let '(k, ev, r) := Event.rt_event_init k (key event) flag in
  Some (k, s, ev, r).

Definition rt_event_detach (k : Kernel) (s : Objects) (event : Z) : option (Kernel * Objects * Z) :=
  assert_object s event RT_Object_Class_Event true;;
  '(k, r) ← Event.rt_event_detach k (key event);
  s ← rt_object_detach s event;
  Some (k, s, r).

Definition rt_event_create (k : Kernel) (s : Objects) (name flag : Z) : created Event :=
  not_in_interrupt k;;
  '(s, event) ← rt_object_allocate container (rt_interrupt_nest k) s RT_Object_Class_Event name;
  if event =? 0 then Some (k, s, None)
  else
    let s := set_flag s event flag in
    let '(k, ev, _) := Event.rt_event_init k (key event) flag in
    Some (k, s, Some (event, ev)).

Definition rt_event_delete (k : Kernel) (s : Objects) (event : Z) : option (Kernel * Objects * Z) :=
  assert_object s event RT_Object_Class_Event false;;
  not_in_interrupt k;;
  '(k, r) ← Event.rt_event_delete k (key event);
  s ← rt_object_delete (rt_interrupt_nest k) s event;
  Some (k, s, r).

(** ** Mailboxes *)

(** The [n] words at [p], whatever they hold. *)
Definition words_at (m : Memory) (p : Z) (n : nat) : list Z := map (fun i => load32 m (p + 4 * Z.of_nat i)) (seq 0 n).

Definition rt_mb_init (fuel : nat) (k : Kernel) (s : Objects) (mb name msgpool size flag : Z)
    : option (Kernel * Objects * Mailbox * Z) :=
  s ← rt_object_init container fuel s mb RT_Object_Class_MailBox name;
  let s := set_flag s mb flag in
  let '(k, m, r) := Mailbox.rt_mb_init k (key mb) (words_at (obj_mem s) msgpool (Z.to_nat (u16 size))) size flag in
  Some (k, s, m, r).

Definition rt_mb_detach (k : Kernel) (s : Objects) (mb : Z) : option (Kernel * Objects * Z) :=
  assert_object s mb RT_Object_Class_MailBox true;;
  '(k, r) ← Mailbox.rt_mb_detach k (key mb);
  s ← rt_object_detach s mb;
  Some (k, s, r).

(** The record and the address of its pool. *)
Definition rt_mb_create (k : Kernel) (s : Objects) (name size flag : Z) : created (Mailbox * Z) :=
  not_in_interrupt k;;
  '(s, mb) ← rt_object_allocate container (rt_interrupt_nest k) s RT_Object_Class_MailBox name;
  if mb =? 0 then Some (k, s, None)
  else
    let s := set_flag s mb flag in
    let k := rt_ipc_object_init k (MbRecvWait (key mb)) in
    '(s, pool) ← RT_KERNEL_MALLOC k s (u32 (u16 size * 4));
    if pool =? 0 then
      s ← rt_object_delete (rt_interrupt_nest k) s mb;
      Some (k, s, None)
    else
      let '(k, m, _) := Mailbox.rt_mb_init k (key mb) (words_at (obj_mem s) pool (Z.to_nat (u16 size))) size flag in
      Some (k, s, Some (mb, (m, pool))).

Definition rt_mb_delete (k : Kernel) (s : Objects) (mb pool : Z) : option (Kernel * Objects * Z) :=
  not_in_interrupt k;;
  assert_object s mb RT_Object_Class_MailBox false;;
  '(k, r) ← Mailbox.rt_mb_delete k (key mb);
  s ← RT_KERNEL_FREE k s pool;
  s ← rt_object_delete (rt_interrupt_nest k) s mb;
  Some (k, s, r).

(** ** Message queues *)

Definition rt_mq_init (fuel : nat) (k : Kernel) (s : Objects) (mq name msgpool msg_size pool_size flag : Z)
    : option (Kernel * Objects * MessageQueue * Z) :=
  s ← rt_object_init container fuel s mq RT_Object_Class_MessageQueue name;
  let s := set_flag s mq flag in
  let '(k, m, q, r) := MessageQueue.rt_mq_init k (key mq) (obj_mem s) msgpool msg_size pool_size flag in
  Some (k, on_memory s (fun _ => m), q, r).

Definition rt_mq_detach (k : Kernel) (s : Objects) (mq : Z) : option (Kernel * Objects * Z) :=
  assert_object s mq RT_Object_Class_MessageQueue true;;
  '(k, r) ← MessageQueue.rt_mq_detach k (key mq);
  s ← rt_object_detach s mq;
  Some (k, s, r).

Definition rt_mq_create (k : Kernel) (s : Objects) (name msg_size max_msgs flag : Z) : created MessageQueue :=
  not_in_interrupt k;;
  '(s, mq) ← rt_object_allocate container (rt_interrupt_nest k) s RT_Object_Class_MessageQueue name;
  if mq =? 0 then Some (k, s, None)
  else
    let s := set_flag s mq flag in
    let k := rt_ipc_object_init k (MqRecvWait (key mq)) in
    let msg_size := u16 (RT_ALIGN msg_size RT_ALIGN_SIZE) in
    let max_msgs := u16 max_msgs in
    '(s, pool) ← RT_KERNEL_MALLOC k s (u32 ((msg_size + SIZEOF_MQ_MESSAGE) * max_msgs));
    if pool =? 0 then
      s ← rt_object_delete (rt_interrupt_nest k) s mq;
      Some (k, s, None)
    else
      let '(m, free) := fold_left (mq_init_round pool msg_size) (seq 0 (Z.to_nat max_msgs)) (obj_mem s, 0) in
      let s := on_memory s (fun _ => m) in
      let k := k <| lists := upd (lists k) (MqSendWait (key mq)) [] |> in
      Some (k, s, Some (mq, mkMessageQueue pool msg_size max_msgs 0 0 0 free flag)).

Definition rt_mq_delete (k : Kernel) (s : Objects) (mq : Z) (q : MessageQueue) : option (Kernel * Objects * Z) :=
  not_in_interrupt k;;
  assert_object s mq RT_Object_Class_MessageQueue false;;
  k ← mq_resume_all k (key mq);
  s ← RT_KERNEL_FREE k s (mq_pool q);
  s ← rt_object_delete (rt_interrupt_nest k) s mq;
  Some (k, s, RT_EOK).

(** ** Memory pools *)

Definition rt_mp_init (fuel : nat) (k : Kernel) (s : Objects) (mp name start size block_size : Z)
    : option (Kernel * Objects * MemPool * Z) :=
  if (name =? 0) || (start =? 0) || negb ((0 <? size) && (0 <? block_size)) then None
  else
    s ← rt_object_init container fuel s mp RT_Object_Class_MemPool name;
    '(k, m, p, r) ← Mempool.rt_mp_init k (key mp) (obj_mem s) mp start size block_size;
    Some (k, on_memory s (fun _ => m), p, r).

Definition rt_mp_detach (k : Kernel) (s : Objects) (mp : Z) : option (Kernel * Objects * Z) :=
  assert_object s mp RT_Object_Class_MemPool true;;
  '(k, r) ← Mempool.rt_mp_detach k (key mp);
  s ← rt_object_detach s mp;
  Some (k, s, r).

Definition rt_mp_create (k : Kernel) (s : Objects) (name block_count block_size : Z) : created MemPool :=
  not_in_interrupt k;;
  if (name =? 0) || negb ((0 <? block_count) && (0 <? block_size)) then None
  else
    '(s, mp) ← rt_object_allocate container (rt_interrupt_nest k) s RT_Object_Class_MemPool name;
    if mp =? 0 then Some (k, s, None)
    else
      let block_size := RT_ALIGN block_size RT_ALIGN_SIZE in
      let stride := u32 (block_size + SIZEOF_POINTER) in
      let size := u32 (stride * block_count) in
      '(s, start) ← RT_KERNEL_MALLOC k s size;
      if start =? 0 then
        s ← rt_object_delete (rt_interrupt_nest k) s mp;
        Some (k, s, None)
      else
        let k := k <| lists := upd (lists k) (MpWait (key mp)) [] |> in
        let m := fold_left (mp_init_round start stride) (seq 0 (Z.to_nat block_count)) (obj_mem s) in
        let m := store32 m (u32 (start + (block_count - 1) * stride)) 0 in
        Some (k, on_memory s (fun _ => m), Some (mp, mkMemPool mp start size block_size start block_count block_count)).

Definition rt_mp_delete (k : Kernel) (s : Objects) (mp : Z) (p : MemPool) : option (Kernel * Objects * Z) :=
  not_in_interrupt k;;
  assert_object s mp RT_Object_Class_MemPool false;;
  k ← rt_ipc_list_resume_all k (MpWait (key mp));
  s ← RT_KERNEL_FREE k s (start_address p);
  s ← rt_object_delete (rt_interrupt_nest k) s mp;
  Some (k, s, RT_EOK).

(** ** Timers *)

Definition rt_timer_init (fuel : nat) (k : Kernel) (s : Objects) (timer name : Z) (timeout : timeout_fn) (time flag : Z)
    : option (Kernel * Objects) :=
  s ← rt_object_init container fuel s timer RT_Object_Class_Timer name;
  Some (Timer.rt_timer_init k (UserTimer (key timer)) timeout time flag,
        set_flag s timer (clear_bits flag RT_TIMER_FLAG_ACTIVATED)).

Definition rt_timer_detach (k : Kernel) (s : Objects) (timer : Z) : option (Kernel * Objects * Z) :=
  assert_object s timer RT_Object_Class_Timer true;;
  let k := Timer.rt_timer_detach k (UserTimer (key timer)) in
  s ← rt_object_detach s timer;
  Some (k, s, RT_EOK).

Definition rt_timer_create (k : Kernel) (s : Objects) (name : Z) (timeout : timeout_fn) (time flag : Z) : created unit :=
  '(s, timer) ← rt_object_allocate container (rt_interrupt_nest k) s RT_Object_Class_Timer name;
  if timer =? 0 then Some (k, s, None)
  else
    let k := set_timer k (UserTimer (key timer)) (fun _ => _rt_timer_init timeout time flag) in
    Some (k, set_flag s timer (clear_bits flag RT_TIMER_FLAG_ACTIVATED), Some (timer, tt)).

Definition rt_timer_delete (k : Kernel) (s : Objects) (timer : Z) : option (Kernel * Objects * Z) :=
  assert_object s timer RT_Object_Class_Timer false;;
  let k := _rt_timer_remove k (UserTimer (key timer)) in
  s ← rt_object_delete (rt_interrupt_nest k) s timer;
  Some (k, s, RT_EOK).
(** ** Threads *)

(** [struct rt_thread]: [sp] at 28, [entry] at 32, [parameter] at 36, [stack_addr] at 40,
    [stack_size] at 44, the thread's own timer at 76, [cleanup] at 120, [user_data] at
    124.  The fields in between are the kernel's record of the thread. *)
Definition thread_timer (thread : Z) : Z := thread + 76.
Definition stack_addr (m : Memory) (thread : Z) : Z := load32 m (thread + 40).
Definition cleanup_function (m : Memory) (thread : Z) : Z := load32 m (thread + 120).

(** The frame of sixteen words an exception return restores: r4 to r11, then r0 to r3,
    r12, lr, pc and psr. *)
Definition SIZEOF_STACK_FRAME : Z := 64.
Definition rt_hw_stack_init (m : Memory) (tentry parameter stack_top texit : Z) : Memory * Z :=
  let stk := RT_ALIGN_DOWN (u32 (stack_top + 4)) 8 in
  let stk := u32 (stk - SIZEOF_STACK_FRAME) in
  let m := fold_left (fun m i => store32 m (stk + 4 * Z.of_nat i) 3735928559) (seq 0 16) m in
  let m := store32 m (stk + 32) parameter in
  let m := store32 m (stk + 36) 0 in
  let m := store32 m (stk + 40) 0 in
  let m := store32 m (stk + 44) 0 in
  let m := store32 m (stk + 48) 0 in
  let m := store32 m (stk + 52) texit in
  let m := store32 m (stk + 56) tentry in
  let m := store32 m (stk + 60) 16777216 in
  (m, stk).

Context (rt_thread_exit_address rt_thread_inited_hook : Z).

(** The fields of the control block, the pattern and the first frame on the stack. *)
Definition thread_stack_init (s : Objects) (thread entry parameter stack_start stack_size : Z) : option Objects :=
  let m := store32 (obj_mem s) (thread + 32) entry in
  let m := store32 m (thread + 36) parameter in
  let m := store32 m (thread + 40) stack_start in
  let m := store32 m (thread + 44) stack_size in
  m ← rt_memset m stack_start (chr "#") stack_size;
  let '(m, sp) := rt_hw_stack_init m entry parameter (u32 (stack_start + stack_size - 4)) rt_thread_exit_address in
  Some (on_memory s (fun _ => store32 m (thread + 28) sp)).

Definition _rt_thread_init (fuel : nat) (k : Kernel) (s : Objects) (thread entry parameter stack_start stack_size priority tick : Z)
    (static : bool) : option (Kernel * Objects) :=
  s ← thread_stack_init s thread entry parameter stack_start stack_size;
  k ← Thread._rt_thread_init k (key thread) (u8 priority) (u32 tick) static;
  let s := on_memory s (fun m => store32 (store32 m (thread + 120) 0) (thread + 124) 0) in
  s ← rt_object_init container fuel s (thread_timer thread) RT_Object_Class_Timer thread;
  let s := set_flag s (thread_timer thread) (clear_bits 0 RT_TIMER_FLAG_ACTIVATED) in
  Some (k, RT_OBJECT_HOOK_CALL rt_thread_inited_hook thread s).

Definition rt_thread_init (fuel : nat) (k : Kernel) (s : Objects) (thread name entry parameter stack_start stack_size priority tick : Z)
    : option (Kernel * Objects * Z) :=
  if (thread =? 0) || (stack_start =? 0) then None
  else
    s ← rt_object_init container fuel s thread RT_Object_Class_Thread name;
    '(k, s) ← _rt_thread_init fuel k s thread entry parameter stack_start stack_size priority tick true;
    Some (k, s, RT_EOK).

Definition rt_thread_create (fuel : nat) (k : Kernel) (s : Objects) (name entry parameter stack_size priority tick : Z)
    : option (Kernel * Objects * Z) :=
  '(s, thread) ← rt_object_allocate container (rt_interrupt_nest k) s RT_Object_Class_Thread name;
  if thread =? 0 then Some (k, s, 0)
  else
    '(s, stack_start) ← RT_KERNEL_MALLOC k s (u32 stack_size);
    if stack_start =? 0 then
      s ← rt_object_delete (rt_interrupt_nest k) s thread;
      Some (k, s, 0)
    else
      '(k, s) ← _rt_thread_init fuel k s thread entry parameter stack_start (u32 stack_size) priority tick false;
      Some (k, s, thread).

(** The end of [rt_thread_exit] and [rt_thread_detach] on the object: a static thread
    without cleanup function leaves its class, any other stays until it is buried. *)
Definition dispose_object (k : Kernel) (s : Objects) (thread : Z) : option Objects :=
  static ← rt_object_is_systemobject s thread;
  if static && negb (cleanup (threads k (key thread))) then rt_object_detach s thread else Some s.

(** [rt_timer_detach(&thread->thread_timer)] on the object. *)
Definition timer_object_detach (s : Objects) (thread : Z) : option Objects :=
  assert_object s (thread_timer thread) RT_Object_Class_Timer true;;
  rt_object_detach s (thread_timer thread).

(** The running thread is the one at [thread]. *)
Definition rt_thread_exit (k : Kernel) (s : Objects) (thread : Z) : option (Kernel * Objects) :=
  s ← timer_object_detach s thread;
  s ← dispose_object k s thread;
  k ← Thread.rt_thread_exit k;
  Some (k, s).

Definition rt_thread_detach (k : Kernel) (s : Objects) (thread : Z) : option (Kernel * Objects * Z) :=
  assert_object s thread RT_Object_Class_Thread true;;
  '(k', r) ← Thread.rt_thread_detach k (key thread);
  s ← timer_object_detach s thread;
  s ← dispose_object k s thread;
  Some (k', s, r).

Definition rt_thread_delete (k : Kernel) (s : Objects) (thread : Z) : option (Kernel * Objects * Z) :=
  assert_object s thread RT_Object_Class_Thread false;;
  '(k, r) ← Thread.rt_thread_delete k (key thread);
  s ← timer_object_detach s thread;
  Some (k, s, r).

(** The traversal runs with the scheduler locked when a thread runs. *)
Definition rt_thread_find (fuel : nat) (k : Kernel) (s : Objects) (name : Z) : option (Kernel * Z) :=
  let lock := match rt_thread_self k with Some _ => true | None => false end in
  let k := if lock then rt_enter_critical k else k in
  information ← rt_object_get_information container RT_Object_Class_Thread;
  let head := object_list information in
  thread ← find_loop fuel (obj_mem s) head (node_next (obj_mem s) head) name;
  k ← (if lock then rt_exit_critical k else Some k);
  Some (k, thread).
End Calls.
