(* ===== verification/Idle.v ===== *)
(** * The idle thread and the interrupt counter (idle.c, irq.c)

    A thread that ended is buried by the idle thread: its cleanup function runs, then
    its stack and its control block go back to the heap.  The critical section of a
    burial and the two releases behind it are steps of their own, since interrupts are
    on in between.  Hooks and cleanup functions are foreign code and are logged. *)

From S2P Require Import Prelude Kernel Scheduler Timer Thread.
From S2P Require Import Memory Blocks Mem Heap Printf LinkedList Object Create.

(** ** Interrupt nesting (irq.c) *)

Section Interrupts.
Context (rt_interrupt_enter_hook rt_interrupt_leave_hook : Z).

Definition rt_interrupt_enter (k : Kernel) (s : Objects) : Kernel * Objects :=
  (k <| rt_interrupt_nest := u8 (rt_interrupt_nest k + 1) |>, RT_OBJECT_HOOK_CALL rt_interrupt_enter_hook 0 s).
Definition rt_interrupt_leave (k : Kernel) (s : Objects) : Kernel * Objects :=
  (k <| rt_interrupt_nest := u8 (rt_interrupt_nest k - 1) |>, RT_OBJECT_HOOK_CALL rt_interrupt_leave_hook 0 s).
Definition rt_interrupt_get_nest (k : Kernel) : Z := rt_interrupt_nest k.
End Interrupts.

(** ** The hooks of the idle thread *)

Definition RT_IDLE_HOOK_LIST_SIZE : nat := 4.

(** The first entry that is [old] becomes [new]. *)
Fixpoint replace_first (old new : Z) (l : list Z) : option (list Z) :=
  match l with
  | [] => None
  | h :: l => if h =? old then Some (new :: l) else cons h <$> replace_first old new l
  end.

Definition rt_thread_idle_sethook (idle_hook_list : list Z) (hook : Z) : list Z * Z :=
  match replace_first 0 hook idle_hook_list with
  | Some l => (l, RT_EOK)
  | None => (idle_hook_list, - RT_EFULL)
  end.
Definition rt_thread_idle_delhook (idle_hook_list : list Z) (hook : Z) : list Z * Z :=
  match replace_first hook 0 idle_hook_list with
  | Some l => (l, RT_EOK)
  | None => (idle_hook_list, - RT_ENOSYS)
  end.

(** ** Burying dead threads *)

Definition _has_defunct_thread (k : Kernel) : bool := match lists k Defunct with [] => false | _ => true end.

(** [if (thread->cleanup != RT_NULL) thread->cleanup(thread)] *)
Definition call_cleanup (k : Kernel) (s : Objects) (thread : Z) : Objects :=
  if cleanup (threads k (key thread)) then RT_OBJECT_HOOK_CALL (cleanup_function (obj_mem s) thread) thread s else s.

Inductive burial := nobody | static_thread | to_free (thread : Z).

(** The critical section of a round. *)
Definition idle_take (k : Kernel) (s : Objects) : option (Kernel * Objects * burial) :=
  match lists k Defunct with
  | [] => Some (k, s, nobody)
  | t :: _ =>
      let thread := Z.of_nat t in
      let k := rt_enter_critical (tlist_remove k t) in
      let s := call_cleanup k s thread in
      static ← rt_object_is_systemobject s thread;
      if static : bool then
        s ← rt_object_detach s thread;
        k ← rt_exit_critical k;
        Some (k, s, static_thread)
      else
        k ← rt_exit_critical k;
        Some (k, s, to_free thread)
  end.

(** The stack and the control block are released. *)
Definition idle_free (k : Kernel) (s : Objects) (thread : Z) : option Objects :=
  s ← RT_KERNEL_FREE k s (stack_addr (obj_mem s) thread);
  rt_object_delete (rt_interrupt_nest k) s thread.

(** One round for each dead thread. *)
Fixpoint idle_loop (fuel : nat) (k : Kernel) (s : Objects) : option (Kernel * Objects) :=
  if negb (_has_defunct_thread k) then Some (k, s)
  else
    match fuel with
    | O => None
    | S fuel =>
        not_in_interrupt k;;
        '(k, s, b) ← idle_take k s;
        match b with
        | to_free thread => s ← idle_free k s thread; idle_loop fuel k s
        | _ => Some (k, s)
        end
    end.
Definition rt_thread_idle_excute (k : Kernel) (s : Objects) : option (Kernel * Objects) :=
  idle_loop (length (lists k Defunct)) k s.

(** One round of [rt_thread_idle_entry]. *)
Definition call_idle_hooks (idle_hook_list : list Z) (s : Objects) : Objects :=
  fold_left (fun s hook => RT_OBJECT_HOOK_CALL hook 0 s) idle_hook_list s.
Definition rt_thread_idle_entry (idle_hook_list : list Z) (k : Kernel) (s : Objects) : option (Kernel * Objects) :=
  rt_thread_idle_excute k (call_idle_hooks idle_hook_list s).

(** ** The idle thread itself *)

Section IdleThread.
Context (container rt_thread_exit_address rt_thread_inited_hook : Z).
(** The addresses of [idle[0]], its stack, its entry and the name buffer. *)
Context (idle rt_thread_stack entry tidle_name : Z).
Definition IDLE_THREAD_STACK_SIZE : Z := 256.

Definition rt_thread_idle_init (fuel : nat) (k : Kernel) (s : Objects) : option (Kernel * Objects * Z) :=
  '(m, _) ← rt_sprintf (obj_mem s) tidle_name (map chr ["t"; "i"; "d"; "l"; "e"; "%"; "d"]%char) [Word 0];
  let s := on_memory s (fun _ => m) in
  '(k, s, _) ← rt_thread_init container rt_thread_exit_address rt_thread_inited_hook fuel k s idle tidle_name entry 0
    rt_thread_stack IDLE_THREAD_STACK_SIZE (RT_THREAD_PRIORITY_MAX - 1) 32;
  '(k, r) ← rt_thread_startup k (key idle);
  Some (k, s, r).

Definition rt_thread_idle_gethandler : Z := idle.
End IdleThread.
