(* ===== verification/Life.v ===== *)
(** * The life of kernel objects

    Creating, initialising, detaching and deleting the objects of ipc.c, mempool.c and
    thread.c, the idle thread's burials, blocking calls, wake-ups, ticks and the clients of the
    heap, in any order: no thread ever waits on an object that is gone, every thread and
    object keeps its memory to itself, and memory that is given up comes back. *)

From S2P Require Import Prelude Kernel Scheduler Timer Thread Tick Ipc Mutex Event Mailbox.
From S2P Require Import Memory Kservice Blocks Mem Heap Strings LinkedList Object MessageQueue Mempool Create Idle Layout Gentle.

(** The object, with its class, that owns a wait list. *)
Definition wait_object (l : list_head) : option (Z * nat) :=
  match l with
  | SemWait o => Some (RT_Object_Class_Semaphore, o)
  | MutexWait o => Some (RT_Object_Class_Mutex, o)
  | EventWait o => Some (RT_Object_Class_Event, o)
  | MbRecvWait o | MbSendWait o => Some (RT_Object_Class_MailBox, o)
  | MqRecvWait o | MqSendWait o => Some (RT_Object_Class_MessageQueue, o)
  | MpWait o => Some (RT_Object_Class_MemPool, o)
  | Ready _ | Defunct => None
  end.

Record Sys := mk_sys {
  sy_kernel : Kernel;
  sy_objects : Objects;
  sy_live : Live;           (* the blocks clients hold *)
  sy_ls : Registered;       (* the registered objects *)
  sy_pools : Pools          (* the pools and stacks *)
}.
#[export] Instance Sys_rebuild : Rebuild Sys := fun y =>
  mk_sys (sy_kernel y) (sy_objects y) (sy_live y) (sy_ls y) (sy_pools y).

Section System.
Context (container rt_thread_exit_address rt_thread_inited_hook : Z) {begun : Prop}.
Abbreviation table := (rt_object_container container).

(** ** The invariant *)

(** A registered thread: static or dynamic as the kernel believes, its timer registered
    until it is closed, its stack its own when it is dynamic. *)
Record thread_object (k : Kernel) (s : Objects) (ls : Registered) (pools : Pools) (o : Z) : Prop := {
  th_static : rt_object_is_systemobject s o = Some (systemobject (threads k (key o)));
  th_timer : if thread_stat (threads k (key o)) =? RT_THREAD_CLOSE then thread_timer o ∉ ls RT_Object_Class_Timer
    else thread_timer o ∈ ls RT_Object_Class_Timer /\ rt_object_is_systemobject s (thread_timer o) = Some true;
  th_stack : pools !! o = if systemobject (threads k (key o)) then None else Some (stack_addr (obj_mem s) o)
}.

Record threads_in (k : Kernel) (s : Objects) (ls : Registered) (pools : Pools) : Prop := {
  ti_object : forall o, o ∈ ls RT_Object_Class_Thread -> thread_object k s ls pools o;
  ti_live : forall t, live (thread_stat (threads k t)) = true -> Z.of_nat t ∈ ls RT_Object_Class_Thread;
  ti_defunct : forall t, t ∈ lists k Defunct -> Z.of_nat t ∈ ls RT_Object_Class_Thread;
  ti_current : forall c, rt_current_thread k = Some c -> Z.of_nat c ∈ ls RT_Object_Class_Thread;
  ti_pool : forall o p, pools !! o = Some p -> rt_object_is_systemobject s o = Some false
}.

Definition waits_in (k : Kernel) (ls : Registered) : Prop :=
  forall l c o t, wait_object l = Some (c, o) -> t ∈ lists k l -> Z.of_nat o ∈ ls c.

Record sys_state (y : Sys) : Prop := {
  yo_kernel : kernel_state begun (sy_kernel y);
  yo_nest : rt_interrupt_nest (sy_kernel y) = 0;
  yo_layout : layout_ok container (sy_objects y) (sy_live y) (sy_ls y) (sy_pools y);
  yo_waits : waits_in (sy_kernel y) (sy_ls y);
  yo_threads : threads_in (sy_kernel y) (sy_objects y) (sy_ls y) (sy_pools y)
}.
Abbreviation sys_ok := sys_state.

(** ** Memory that stays as it is *)

Definition the_threads : rt_object_information := mk_information RT_Object_Class_Thread (entry_list container 0) sizeof_thread.
Definition the_timers : rt_object_information := mk_information RT_Object_Class_Timer (entry_list container 8) sizeof_timer.
Lemma threads_in_table : the_threads ∈ table.
Proof. left. Qed.
Lemma timers_in_table : the_timers ∈ table.
Proof. do 8 right. left. Qed.

Section Facts.
Context (s : Objects) (live : Live) (ls : Registered) (pools : Pools).
Hypothesis Hla : layout_ok container s live ls pools.

(** The bytes behind the header of an object, its timer's header aside. *)
Definition body_byte (i : rt_object_information) (x a : Z) : Prop :=
  a = x + 8 \/ (x + SIZEOF_OBJECT <= a < x + object_size i /\
                (a < x + TIMER_OFFSET \/ x + TIMER_OFFSET + SIZEOF_OBJECT <= a)).

Lemma body_untouched i x j o a : i ∈ table -> x ∈ ls (oi_type i) -> j ∈ table ->
  (o ∈ ls (oi_type j) \/ vacant container ls j o) -> x <> o -> body_byte i x a -> untouched container ls o a.
Proof.
  intros Hi Hx Hj Ho Hne Ha. pose proof (la_objects _ _ _ _ _ Hla) as Hok. pose proof (size_pos _ _ Hi) as Hsi.
  pose proof (size_pos _ _ Hj) as Hsj.
  assert (Hreg : forall k y, k ∈ table -> y ∈ ls (oi_type k) -> y <> x -> a < y \/ y + SIZEOF_OBJECT <= a).
  { intros k y Hk Hy Hyx. pose proof (size_pos _ _ Hk). unfold body_byte, SIZEOF_OBJECT, TIMER_OFFSET in *.
    destruct (la_apart _ _ _ _ _ Hla i k x y Hi Hk Hx Hy) as [[_ E]|[|[|[(_ & _ & E)|(_ & _ & E)]]]]; try congruence;
      unfold TIMER_OFFSET in *; try lia. }
  pose proof (placed_range _ _ _ _ Hok x (registered_class _ _ _ _ Hok i x Hi Hx)) as Rx.
  split; [|split].
  - destruct (la_region _ _ _ _ _ Hla i x Hi Hx) as [(R1 & R2 & R3)|(p & n & Hl & R1 & R2)];
      unfold body_byte, SIZEOF_OBJECT in *; [lia|].
    destruct (oo_heap _ _ _ _ Hok) as [bs Hst]. destruct (live_region _ _ _ _ _ Hst Hl) as (_ & R & _).
    destruct (oo_low _ _ _ _ Hok). unfold HDR in *. lia.
  - destruct Ho as [Ho|Hv]; [apply (Hreg j); auto|]. unfold body_byte, SIZEOF_OBJECT, TIMER_OFFSET in *.
    destruct (Hv i x Hi Hx) as [|[|(_ & _ & ->)]]; unfold TIMER_OFFSET in *; lia.
  - intros y (k & Hk & Hy). destruct (decide (y = x)) as [->|Hyx].
    + unfold body_byte, list_node, SIZEOF_OBJECT in *. lia.
    + pose proof (Hreg k y Hk Hy Hyx). unfold list_node, SIZEOF_OBJECT in *. lia.
Qed.

Definition bodies_kept (s' : Objects) (o : Z) : Prop :=
  forall i x a, i ∈ table -> x ∈ ls (oi_type i) -> x <> o -> body_byte i x a -> load8 (obj_mem s') a = load8 (obj_mem s) a.

Lemma kept_type s' o i x : bodies_kept s' o -> i ∈ table -> x ∈ ls (oi_type i) -> x <> o ->
  rt_object_is_systemobject s' x = rt_object_is_systemobject s x.
Proof.
  intros Hk Hi Hx Hne. unfold rt_object_is_systemobject, object_type. rewrite (Hk i x (x + 8)); auto. left. reflexivity.
Qed.

Lemma kept_stack s' o x : bodies_kept s' o -> x ∈ ls RT_Object_Class_Thread -> x <> o ->
  stack_addr (obj_mem s') x = stack_addr (obj_mem s) x.
Proof.
  intros Hk Hx Hne. unfold stack_addr. apply same_on_load32. intros a Ha.
  apply (Hk the_threads x); [apply threads_in_table | exact Hx | exact Hne|]. right.
  unfold SIZEOF_OBJECT, TIMER_OFFSET. change (object_size the_threads) with 128. lia.
Qed.

(** The blocks of other objects outlive an object's own. *)
Lemma other_block i o j x p m : i ∈ table -> o ∈ ls (oi_type i) -> rt_object_is_systemobject s o = Some false ->
  (forall j b, j ∈ table -> b ∈ ls (oi_type j) -> ~ inside i o j b) ->
  j ∈ table -> x ∈ ls (oi_type j) -> x <> o -> live !! p = Some m -> p <= x -> x + object_size j <= p + m ->
  delete o live !! p = Some m.
Proof.
  intros Hi Ho Hsys Hins Hj Hx Hxo Hp H1 H2. apply lookup_delete_Some. split; [|exact Hp]. intros <-.
  pose proof (la_objects _ _ _ _ _ Hla) as Hok.
  assert (Hdyn : Z.land (object_type (obj_mem s) o) RT_Object_Class_Static = 0).
  { unfold rt_object_is_systemobject in Hsys. destruct (o =? 0); [discriminate|]. injection Hsys as E.
    apply negb_false_iff, Z.eqb_eq in E. exact E. }
  rewrite (oo_block _ _ _ _ Hok i o Hi Ho Hdyn) in Hp. injection Hp as <-. pose proof (size_pos _ _ Hj).
  destruct (la_apart _ _ _ _ _ Hla i j o x Hi Hj Ho Hx) as [[_ E]|[|[|[Hin|(_ & _ & E)]]]]; try congruence; try lia.
  - apply (Hins j x Hj Hx Hin).
  - unfold TIMER_OFFSET in E. lia.
Qed.

(** The frames of the operations, as [bodies_kept]. *)
Lemma frame_kept s' live' j o : j ∈ table -> (o ∈ ls (oi_type j) \/ vacant container ls j o) ->
  (forall i x p m, i ∈ table -> x ∈ ls (oi_type i) -> x <> o -> live !! p = Some m -> p <= x -> x + object_size i <= p + m ->
     live' !! p = Some m) ->
  (forall a, untouched container ls o a -> (exists i x, i ∈ table /\ x ∈ ls (oi_type i) /\ x <> o /\ body_byte i x a) ->
     steady (obj_heap s) live live' a -> load8 (obj_mem s') a = load8 (obj_mem s) a) ->
  bodies_kept s' o.
Proof.
  intros Hj Ho Hlive Hfr i x a Hi Hx Hne Ha. pose proof (size_pos _ _ Hi). apply Hfr.
  - apply (body_untouched i x j o a); auto.
  - eauto 8.
  - apply (region_steady container (obj_heap s) live live' x (object_size i)); [apply (la_region _ _ _ _ _ Hla); auto | |].
    + unfold body_byte, SIZEOF_OBJECT in Ha. lia.
    + intros p m H1 H2 H3. apply (Hlive i x); auto.
Qed.
End Facts.

(** ** Keeping the invariant *)

(** The threads do not care about a change of other objects. *)
Lemma threads_in_keep permit k s ls pools k' s' ls' pools' :
  kept permit k k' -> threads_in k s ls pools -> (forall t, starts permit = Some t -> Z.of_nat t ∈ ls RT_Object_Class_Thread) ->
  ls' RT_Object_Class_Thread = ls RT_Object_Class_Thread -> ls' RT_Object_Class_Timer = ls RT_Object_Class_Timer ->
  (forall x, x ∈ ls RT_Object_Class_Thread -> rt_object_is_systemobject s' x = rt_object_is_systemobject s x /\
     stack_addr (obj_mem s') x = stack_addr (obj_mem s) x /\ pools' !! x = pools !! x) ->
  (forall x, x ∈ ls RT_Object_Class_Timer -> rt_object_is_systemobject s' x = rt_object_is_systemobject s x) ->
  (forall x p, pools' !! x = Some p -> rt_object_is_systemobject s' x = Some false) ->
  threads_in k' s' ls' pools'.
Proof.
  intros Hk [H1 H2 H3 H4 _] Hst Et Em Hx Hm Hpl. split; rewrite ?Et; [| | | | exact Hpl].
  - intros o Ho. destruct (H1 o Ho) as [A1 A2 A3]. destruct (Hx o Ho) as (B1 & B2 & B3).
    split; rewrite ?B1, ?B2, ?B3, ?(kp_static _ _ _ Hk), ?Em; auto.
    pose proof (kp_closed _ _ _ Hk (key o)) as Hc.
    destruct (Z.eqb_spec (thread_stat (threads k (key o))) RT_THREAD_CLOSE) as [E|E].
    + apply Hc in E. rewrite E. exact A2.
    + destruct (Z.eqb_spec (thread_stat (threads k' (key o))) RT_THREAD_CLOSE) as [E'|E']; [destruct (E (proj1 Hc E'))|].
      destruct A2 as [A2 A2']. split; [exact A2|]. rewrite Hm by exact A2. exact A2'.
  - intros t Ht. destruct (kp_live _ _ _ Hk t Ht); auto.
  - intros t Ht. apply H3, (kp_defunct _ _ _ Hk), Ht.
  - intros c Hc. destruct (kp_current _ _ _ Hk c Hc) as [|[|]]; auto.
Qed.

Lemma kept_refl k base : kernel_ok base k -> kept nothing k k.
Proof. intros Hok. apply (gentle_refl nothing), (kernel_ready_live base), Hok. Qed.

Lemma inv_kept k : kernel_state begun k -> kept nothing k k.
Proof. intros Hi. apply (kept_refl k _ (ki_ok _ _ Hi)). Qed.

Definition other_class (i : rt_object_information) : Prop :=
  oi_type i <> RT_Object_Class_Thread /\ oi_type i <> RT_Object_Class_Timer.

Lemma set_class_other ls c l d : d <> c -> set_class ls c l d = ls d.
Proof. intros H. unfold set_class. apply Z.eqb_neq in H. rewrite H. reflexivity. Qed.

Lemma key_of o : 0 <= o -> Z.of_nat (key o) = o.
Proof. intros H. unfold key. lia. Qed.
(** ** Objects other than threads and their timers *)

Section Steps.
Context (y : Sys).
Hypothesis Hy : sys_ok y.
Abbreviation k := (sy_kernel y).
Abbreviation s := (sy_objects y).
Abbreviation live := (sy_live y).
Abbreviation ls := (sy_ls y).
Abbreviation pools := (sy_pools y).

Lemma reg_pos i o : i ∈ table -> o ∈ ls (oi_type i) -> 0 < o.
Proof.
  intros Hi Ho. pose proof (la_objects _ _ _ _ _ (yo_layout _ Hy)) as Hok.
  apply (placed_range _ _ _ _ Hok o (registered_class _ _ _ _ Hok i o Hi Ho)).
Qed.

(** Nobody waits on an object that is not registered. *)
Lemma no_waiter l c o : wait_object l = Some (c, key o) -> 0 <= o -> o ∉ ls c -> lists k l = [].
Proof.
  intros El Ho Hn. destruct (lists k l) as [|t q] eqn:E; [reflexivity|]. destruct Hn. rewrite <- (key_of o Ho).
  apply (yo_waits _ Hy l c (key o) t El). rewrite E. left.
Qed.

(** A thread's memory is untouched by a change of an object of another class. *)
Lemma other_threads i s' ls' o : i ∈ table -> other_class i ->
  (ls' = set_class ls (oi_type i) (o :: ls (oi_type i)) \/ ls' = without ls i o \/ ls' = ls) ->
  (o ∈ ls (oi_type i) \/ vacant container ls i o) ->
  pools !! o = None -> bodies_kept s ls s' o -> threads_in k s' ls' pools.
Proof.
  intros Hi [Ht Hm] Hls Ho Hp Hk. pose proof (la_objects _ _ _ _ _ (yo_layout _ Hy)) as Hok.
  assert (Hne : forall j x, j ∈ table -> x ∈ ls (oi_type j) -> oi_type j <> oi_type i -> x <> o).
  { intros j x Hj Hx Hji ->. pose proof (size_pos _ _ Hj). pose proof (size_pos _ _ Hi). destruct Ho as [Ho|Hv].
    - destruct (oo_apart _ _ _ _ Hok i j o o Hi Hj Ho Hx) as [[-> _]|Ha]; [congruence|]. unfold apart20, SIZEOF_OBJECT in Ha. lia.
    - destruct (Hv j o Hj Hx) as [|[|(_ & _ & E)]]; unfold TIMER_OFFSET in *; lia. }
  assert (Els : forall c, c <> oi_type i -> ls' c = ls c).
  { intros c Hc. destruct Hls as [->|[-> | ->]]; unfold without; rewrite ?set_class_other by exact Hc; reflexivity. }
  apply (threads_in_keep nothing k s ls pools); auto; try discriminate.
  - apply inv_kept, Hy.
  - apply Hy.
  - intros x Hx. assert (Hxo : x <> o) by (apply (Hne the_threads); auto; apply threads_in_table).
    split_ands; [apply (kept_type s ls s' o the_threads) | apply (kept_stack s ls s' o) |]; auto; apply threads_in_table.
  - intros x Hx. apply (kept_type s ls s' o the_timers); auto; [apply timers_in_table|].
    apply (Hne the_timers); auto. apply timers_in_table.
  - intros x p Hx. destruct (la_pool _ _ _ _ _ (yo_layout _ Hy) _ _ Hx) as [(j & Hj & Hxj) _].
    rewrite (kept_type s ls s' o j x); auto; [apply (ti_pool _ _ _ _ (yo_threads _ Hy) x p Hx) | congruence].
Qed.

Lemma waits_more ls' : (forall c x, x ∈ ls c -> x ∈ ls' c) -> waits_in k ls'.
Proof. intros H l c o t El Ht. apply H, (yo_waits _ Hy l c o t El Ht). Qed.

Lemma vacant_unpooled i o : i ∈ table -> vacant container ls i o -> pools !! o = None.
Proof.
  intros Hi Hv. destruct (pools !! o) as [p|] eqn:Ep; [|reflexivity].
  destruct (la_pool _ _ _ _ _ (yo_layout _ Hy) _ _ Ep) as [(j & Hj & Hx) _].
  pose proof (size_pos _ _ Hi). pose proof (size_pos _ _ Hj). destruct (Hv j o Hj Hx) as [|[|(_ & _ & E)]]; unfold TIMER_OFFSET in *; lia.
Qed.

(** [rt_object_init], [rt_object_allocate] *)
Lemma add_ok i s' live' o : i ∈ table -> other_class i -> vacant container ls i o ->
  layout_ok container s' live' (set_class ls (oi_type i) (o :: ls (oi_type i))) pools -> bodies_kept s ls s' o ->
  sys_ok (mk_sys k s' live' (set_class ls (oi_type i) (o :: ls (oi_type i))) pools).
Proof.
  intros Hi Hc Hv Hla Hk. pose proof (vacant_unpooled i o Hi Hv) as Hpo. split; cbn [sy_kernel sy_objects sy_live sy_ls sy_pools]; [apply Hy | apply Hy | exact Hla | |].
  - apply waits_more. intros c x Hx. unfold set_class. destruct (Z.eqb_spec c (oi_type i)) as [->|]; [right|]; exact Hx.
  - apply (other_threads i s' _ o); auto.
Qed.

Lemma init_ok fuel i o name : i ∈ table -> other_class i ->
  region container (obj_heap s) live o (object_size i) -> vacant container ls i o ->
  pools_clear live pools o (object_size i) -> (length (ls (oi_type i)) < fuel)%nat ->
  exists s', rt_object_init container fuel s o (oi_type i) name = Some s' /\
    sys_ok (mk_sys k s' live (set_class ls (oi_type i) (o :: ls (oi_type i))) pools) /\
    rt_object_is_systemobject s' o = Some true.
Proof.
  intros Hi Hc Hr Hv Hp Hf.
  destruct (lay_init container s live ls pools (yo_layout _ Hy) fuel i o name Hi Hr Hv Hp Hf) as (s' & E & Hla & _ & Hfr & Hsys).
  exists s'. split_ands; auto. apply add_ok; auto.
  apply (frame_kept s live ls pools (yo_layout _ Hy) s' live i o); auto.
Qed.

Lemma clear_vacant i o : clear_of container ls o (object_size i) -> vacant container ls i o.
Proof. intros H j x Hj Hx. destruct (H j x Hj Hx); auto. Qed.

(** Only the heap of the container's state counts. *)
Lemma same_heap_ok s' : obj_heap s' = obj_heap s -> sys_ok (y <| sy_objects := s' |>).
Proof.
  intros H. split; cbn; try apply Hy.
  - apply (lay_same container s); [apply Hy | exact H].
  - assert (Et : forall x, rt_object_is_systemobject s' x = rt_object_is_systemobject s x)
      by (intros x; unfold rt_object_is_systemobject, obj_mem; rewrite H; reflexivity).
    apply (threads_in_keep nothing k s ls pools); auto; try discriminate; [apply inv_kept, Hy | apply Hy | |].
    + intros x Hx. split_ands; auto. unfold obj_mem. rewrite H. reflexivity.
    + intros x p Hx. rewrite Et. apply (ti_pool _ _ _ _ (yo_threads _ Hy) x p Hx).
Qed.

Lemma allocate_ok i name : i ∈ table -> other_class i ->
  exists s' o, rt_object_allocate container 0 s (oi_type i) name = Some (s', o) /\
    (if o =? 0 then sys_ok (y <| sy_objects := s' |>)
     else sys_ok (mk_sys k s' (<[o := object_size i]> live) (set_class ls (oi_type i) (o :: ls (oi_type i))) pools) /\
       (o ∉ ls (oi_type i)) /\ 0 < o /\ live !! o = None /\ pools !! o = None /\ rt_object_is_systemobject s' o = Some false).
Proof.
  intros Hi Hc. destruct (lay_allocate container s live ls pools (yo_layout _ Hy) i name Hi) as (s' & o & E & H).
  exists s', o. split; [exact E|]. destruct (Z.eqb_spec o 0) as [|Hne].
  - apply same_heap_ok, H.
  - destruct H as (Hla & Eh & Hn & Hcl & Hfr & Hsys).
    assert (Ho : o ∈ set_class ls (oi_type i) (o :: ls (oi_type i)) (oi_type i)) by (unfold set_class; rewrite Z.eqb_refl; left).
    pose proof (la_objects _ _ _ _ _ Hla) as Hok'.
    pose proof (placed_range _ _ _ _ Hok' o (registered_class _ _ _ _ Hok' i o Hi Ho)) as Ro. pose proof (size_pos _ _ Hi).
    assert (Hv : vacant container ls i o) by (apply clear_vacant, Hcl).
    assert (Hfresh : o ∉ ls (oi_type i)).
    { intros Hx. specialize (Hcl i o Hi Hx). lia. }
    split_ands; auto; try lia.
    + apply add_ok; auto. apply (frame_kept s live ls pools (yo_layout _ Hy) s' (<[o := object_size i]> live) i o); auto.
      * intros j x p m Hj Hx Hxo Hp _ _. rewrite lookup_insert_ne; [exact Hp | congruence].
      * intros a Ha (j & x & Hj & Hx & Hxo & Hb) Hst. apply Hfr; auto. specialize (Hcl j x Hj Hx).
        unfold body_byte, SIZEOF_OBJECT in Hb. pose proof (size_pos _ _ Hj). lia.
    + apply (vacant_unpooled i); auto.
Qed.

(** [rt_object_detach], [rt_object_delete]: nobody may wait on the object. *)
Definition unwaited (kn : Kernel) (c o : Z) : Prop := forall l t, wait_object l = Some (c, key o) -> t ∉ lists kn l.

Lemma unregister_ok i s' live' o : i ∈ table -> other_class i -> o ∈ ls (oi_type i) -> pools !! o = None -> unwaited k (oi_type i) o ->
  layout_ok container s' live' (without ls i o) pools -> bodies_kept s ls s' o -> sys_ok (mk_sys k s' live' (without ls i o) pools).
Proof.
  intros Hi Hc Ho Hp Hw Hla Hk. pose proof (reg_pos i o Hi Ho) as Hpos.
  split; cbn [sy_kernel sy_objects sy_live sy_ls sy_pools]; [apply Hy | apply Hy | exact Hla | |].
  - intros l c q t El Ht. pose proof (yo_waits _ Hy l c q t El Ht) as Hq. unfold without, set_class.
    destruct (Z.eqb_spec c (oi_type i)) as [->|]; [|exact Hq]. apply list_elem_of_filter. split; [|exact Hq]. intros E.
    apply (Hw l t); [|exact Ht]. rewrite El. do 2 f_equal. unfold key. lia.
  - apply (other_threads i s' _ o); auto.
Qed.

Lemma detach_ok i o : i ∈ table -> other_class i -> o ∈ ls (oi_type i) -> pools !! o = None -> unwaited k (oi_type i) o ->
  exists s', rt_object_detach s o = Some s' /\ sys_ok (mk_sys k s' live (without ls i o) pools).
Proof.
  intros Hi Hc Ho Hp Hw.
  destruct (lay_detach container s live ls pools (yo_layout _ Hy) i o Hi Ho Hp) as (s' & E & Hla & _ & Hfr).
  exists s'. split; [exact E|]. apply unregister_ok; auto.
  apply (frame_kept s live ls pools (yo_layout _ Hy) s' live i o); auto.
Qed.

Lemma delete_ok i o : i ∈ table -> other_class i -> o ∈ ls (oi_type i) -> pools !! o = None ->
  rt_object_is_systemobject s o = Some false -> unwaited k (oi_type i) o ->
  exists s', rt_object_delete 0 s o = Some s' /\ sys_ok (mk_sys k s' (delete o live) (without ls i o) pools).
Proof.
  intros Hi Hc Ho Hp Hsys Hw.
  assert (Hins : forall j b, j ∈ table -> b ∈ ls (oi_type j) -> ~ inside i o j b) by (intros j b _ _ (E & _); apply (proj1 Hc), E).
  destruct (lay_delete container s live ls pools (yo_layout _ Hy) i o Hi Ho Hp Hsys Hins) as (s' & E & Hla & _ & Hfr).
  exists s'. split; [exact E|]. apply unregister_ok; auto.
  apply (frame_kept s live ls pools (yo_layout _ Hy) s' (delete o live) i o); auto.
  intros j x p m. apply (other_block s live ls pools (yo_layout _ Hy) i o); auto.
Qed.

(** Blocks of the heap and writes. *)
Lemma same_threads s' pools' : (forall x, x ∈ ls RT_Object_Class_Thread -> pools' !! x = pools !! x) ->
  (forall x p, pools' !! x = Some p -> registered container ls x /\ rt_object_is_systemobject s x = Some false) ->
  (forall i x a, i ∈ table -> x ∈ ls (oi_type i) -> body_byte i x a -> load8 (obj_mem s') a = load8 (obj_mem s) a) ->
  threads_in k s' ls pools'.
Proof.
  intros Hp Hpl Hk. assert (Ht : forall i x, i ∈ table -> x ∈ ls (oi_type i) -> rt_object_is_systemobject s' x = rt_object_is_systemobject s x).
  { intros i x Hi Hx. unfold rt_object_is_systemobject, object_type. rewrite (Hk i x); auto. left. reflexivity. }
  apply (threads_in_keep nothing k s ls pools); auto; try discriminate; [apply inv_kept, Hy | apply Hy | | |].
  - intros x Hx. split_ands; [apply (Ht the_threads); auto; apply threads_in_table | | apply Hp, Hx].
    unfold stack_addr. apply same_on_load32. intros a Ha. apply (Hk the_threads x); [apply threads_in_table | exact Hx |]. right.
    unfold SIZEOF_OBJECT, TIMER_OFFSET. change (object_size the_threads) with 128. lia.
  - intros x Hx. apply (Ht the_timers); auto. apply timers_in_table.
  - intros x p Hx. destruct (Hpl x p Hx) as [(j & Hj & Hxj) Hsys]. rewrite (Ht j x); auto.
Qed.

Lemma pools_dynamic x p : pools !! x = Some p -> registered container ls x /\ rt_object_is_systemobject s x = Some false.
Proof.
  intros Hx. split; [apply (la_pool _ _ _ _ _ (yo_layout _ Hy) _ _ Hx) | apply (ti_pool _ _ _ _ (yo_threads _ Hy) _ _ Hx)].
Qed.

Lemma heap_ok h' live' : layout_ok container (s <| obj_heap := h' |>) live' ls pools ->
  (forall a, steady (obj_heap s) live live' a -> load8 (memory h') a = load8 (obj_mem s) a) ->
  (forall i x p m, i ∈ table -> x ∈ ls (oi_type i) -> live !! p = Some m -> p <= x -> x + object_size i <= p + m ->
     live' !! p = Some m) ->
  sys_ok (mk_sys k (s <| obj_heap := h' |>) live' ls pools).
Proof.
  intros Hla Hfr Hlive. split; cbn [sy_kernel sy_objects sy_live sy_ls sy_pools]; try apply Hy; [exact Hla|].
  apply same_threads; [auto | apply pools_dynamic|]. intros i x a Hi Hx Ha. pose proof (size_pos _ _ Hi). apply Hfr.
  apply (region_steady container (obj_heap s) live live' x (object_size i)); [apply (la_region _ _ _ _ _ (yo_layout _ Hy)); auto | |].
  - unfold body_byte, SIZEOF_OBJECT in Ha. lia.
  - intros p m H1 H2 H3. apply (Hlive i x); auto.
Qed.

Lemma heap_types h' live' x : 
  (forall a, steady (obj_heap s) live live' a -> load8 (memory h') a = load8 (obj_mem s) a) ->
  (forall i x p m, i ∈ table -> x ∈ ls (oi_type i) -> live !! p = Some m -> p <= x -> x + object_size i <= p + m ->
     live' !! p = Some m) ->
  registered container ls x -> rt_object_is_systemobject (s <| obj_heap := h' |>) x = rt_object_is_systemobject s x.
Proof.
  intros Hfr Hlive (i & Hi & Hx). unfold rt_object_is_systemobject, object_type. unfold obj_mem at 1.
  change (memory (obj_heap (s <| obj_heap := h' |>))) with (memory h'). rewrite (Hfr (x + 8)); [reflexivity|].
  pose proof (size_pos _ _ Hi).
  apply (region_steady container (obj_heap s) live live' x (object_size i)); [apply (la_region _ _ _ _ _ (yo_layout _ Hy)); auto | lia|].
  intros p m H1 H2 H3. apply (Hlive i x); auto.
Qed.

Lemma malloc_ok size : 0 <= size <= SIZE_LIMIT ->
  RT_KERNEL_MALLOC k s size = Some (s <| obj_heap := obj_heap s |>, 0) \/
  exists h' p, RT_KERNEL_MALLOC k s size = Some (s <| obj_heap := h' |>, p) /\ p <> 0 /\ live !! p = None /\ 0 < size /\
    sys_ok (mk_sys k (s <| obj_heap := h' |>) (<[p := size]> live) ls pools) /\
    clear_of container ls p size /\ (forall o, pools !! o <> Some p) /\
    (forall x, registered container ls x -> rt_object_is_systemobject (s <| obj_heap := h' |>) x = rt_object_is_systemobject s x).
Proof.
  intros Hsize. unfold RT_KERNEL_MALLOC. rewrite (yo_nest _ Hy).
  destruct (Z.eq_dec size 0) as [->|Hne]; [left; reflexivity|].
  destruct (lay_malloc container s live ls pools (yo_layout _ Hy) size ltac:(lia)) as
    [E|(h' & p & E & Hp & Hn & Hla & _ & Hcl & Hpo & Hfr)]; rewrite E; [left; reflexivity|]. right. exists h', p.
  assert (Hlive : forall i x q m, i ∈ table -> x ∈ ls (oi_type i) -> live !! q = Some m -> q <= x -> x + object_size i <= q + m ->
            (<[p := size]> live) !! q = Some m).
  { intros i x q m _ _ Hq _ _. rewrite lookup_insert_ne; [exact Hq | congruence]. }
  split_ands; auto; try lia; [apply heap_ok; auto|]. intros x. apply (heap_types h' (<[p := size]> live)); auto.
Qed.

Lemma free_block_ok p n : live !! p = Some n -> clear_of container ls p n -> (forall o, pools !! o <> Some p) ->
  exists h', RT_KERNEL_FREE k s p = Some (s <| obj_heap := h' |>) /\
    sys_ok (mk_sys k (s <| obj_heap := h' |>) (delete p live) ls pools) /\
    (forall x, registered container ls x -> rt_object_is_systemobject (s <| obj_heap := h' |>) x = rt_object_is_systemobject s x).
Proof.
  intros Hl Hcl Hp. unfold RT_KERNEL_FREE. rewrite (yo_nest _ Hy).
  destruct (lay_free container s live ls pools (yo_layout _ Hy) p n Hl Hcl Hp) as (h' & E & Hla & _ & Hfr).
  assert (Hlive : forall i x q m, i ∈ table -> x ∈ ls (oi_type i) -> live !! q = Some m -> q <= x -> x + object_size i <= q + m ->
            delete p live !! q = Some m).
  { intros i x q m Hi Hx Hq H1 H2. apply lookup_delete_Some. split; [|exact Hq]. intros <-.
    rewrite Hl in Hq. injection Hq as <-. pose proof (size_pos _ _ Hi). specialize (Hcl i x Hi Hx). lia. }
  rewrite E. exists h'. split; [reflexivity|]. split; [apply heap_ok; auto|]. intros x. apply (heap_types h' (delete p live)); auto.
Qed.

Lemma not_thread o : o ∉ ls RT_Object_Class_Thread -> forall x, x ∈ ls RT_Object_Class_Thread -> x <> o.
Proof. intros H x Hx ->. contradiction. Qed.

Lemma pool_ok o p n : registered container ls o -> rt_object_is_systemobject s o = Some false -> o ∉ ls RT_Object_Class_Thread -> 0 < n -> live !! p = Some n ->
  clear_of container ls p n -> (forall o', pools !! o' <> Some p) -> sys_ok (y <| sy_pools := <[o := p]> pools |>).
Proof.
  intros Ho Hsys Ht Hn Hl Hcl Hp. split; cbn; try apply Hy.
  - apply (lay_pool container s live ls pools (yo_layout _ Hy) o p n); auto.
  - apply same_threads; auto.
    + intros x Hx. apply lookup_insert_ne. intros ->. contradiction.
    + intros x q Hx. apply lookup_insert_Some in Hx as [[<- _]|[_ Hx]]; [auto | apply (pools_dynamic _ _ Hx)].
Qed.

Lemma unpool_ok o : o ∉ ls RT_Object_Class_Thread -> sys_ok (y <| sy_pools := delete o pools |>).
Proof.
  intros Ht. split; cbn; try apply Hy.
  - apply lay_unpool, Hy.
  - apply same_threads; auto.
    + intros x Hx. apply lookup_delete_ne. intros ->. contradiction.
    + intros x q Hx. apply lookup_delete_Some in Hx as [_ Hx]. apply (pools_dynamic _ _ Hx).
Qed.

(** Bytes the system relies on: headers, the container, the heap's own and the bodies of registered objects. *)
Definition kernel_byte (a : Z) : Prop :=
  protected container (obj_heap s) live ls a \/ exists i x, i ∈ table /\ x ∈ ls (oi_type i) /\ body_byte i x a.

Lemma bytes_write_ok m' : (forall a, kernel_byte a -> load8 m' a = load8 (obj_mem s) a) ->
  sys_ok (y <| sy_objects := on_memory s (fun _ => m') |>).
Proof.
  intros Hm. split; cbn [sy_kernel sy_objects sy_live sy_ls sy_pools modify]; try apply Hy.
  - apply lay_write; [apply Hy|]. intros a Ha. apply Hm. left. exact Ha.
  - apply same_threads; [auto | apply pools_dynamic|]. intros i x a Hi Hx Ha. apply Hm. right. exists i, x. auto.
Qed.

Lemma block_end p n : live !! p = Some n -> 0 < p /\ p + n <= 4294967296.
Proof.
  intros Hl. pose proof (la_objects _ _ _ _ _ (yo_layout _ Hy)) as Hok. destruct (oo_heap _ _ _ _ Hok) as [bs Hst].
  destruct (live_region _ _ _ _ _ Hst Hl) as (_ & R1 & R2). destruct (oo_low _ _ _ _ Hok).
  pose proof (ok_shape _ _ (st_heap _ _ _ Hst)) as Hs. pose proof (sh_end _ _ Hs). pose proof (sh_space _ _ Hs). unfold HDR in *. lia.
Qed.

(** The bytes of a block without objects are the client's. *)
Lemma block_write_ok p n m' : live !! p = Some n -> clear_of container ls p n ->
  (forall a, a < p \/ p + n <= a -> load8 m' a = load8 (obj_mem s) a) ->
  sys_ok (y <| sy_objects := on_memory s (fun _ => m') |>).
Proof.
  intros Hl Hcl Hm. pose proof (la_objects _ _ _ _ _ (yo_layout _ Hy)) as Hok. apply bytes_write_ok. intros a Ha. apply Hm.
  destruct Ha as [Ha|(i & x & Hi & Hx & Ha)].
  - apply (block_free container s live ls Hok p n a Hl); [|exact Ha]. intros x (i & Hi & Hx). pose proof (size_pos _ _ Hi).
    specialize (Hcl i x Hi Hx). unfold SIZEOF_OBJECT. lia.
  - pose proof (size_pos _ _ Hi). specialize (Hcl i x Hi Hx). unfold body_byte, SIZEOF_OBJECT in Ha. lia.
Qed.

Lemma flag_ok o v : registered container ls o -> sys_ok (y <| sy_objects := set_flag s o v |>).
Proof.
  intros Ho. pose proof (yo_layout _ Hy) as Hla. unfold set_flag.
  split; cbn [sy_kernel sy_objects sy_live sy_ls sy_pools modify]; try apply Hy.
  - apply lay_flag; [apply Hy | exact Ho].
  - apply same_threads; [auto | apply pools_dynamic|]. intros i x a Hi Hx Ha.
    change (load8 (store8 (obj_mem s) (o + 9) v) a = load8 (obj_mem s) a). rewrite load8_store8.
    destruct (Z.eqb_spec a (o + 9)) as [->|]; [|reflexivity]. exfalso. destruct Ho as (j & Hj & Ho).
    pose proof (size_pos _ _ Hi). pose proof (size_pos _ _ Hj). unfold body_byte, SIZEOF_OBJECT, TIMER_OFFSET in Ha.
    destruct (la_apart _ _ _ _ _ Hla i j x o Hi Hj Hx Ho) as [[_ E]|[|[|[(_ & _ & E)|(_ & _ & E)]]]]; unfold TIMER_OFFSET in *; lia.
Qed.

(** The kernel moves on, threads entering only wait lists of registered objects. *)
Lemma kernel_ok_step permit k' : kernel_state begun k' -> gentle permit k k' ->
  (forall l, enters permit = Some l -> exists c o, wait_object l = Some (c, o) /\ Z.of_nat o ∈ ls c) ->
  (forall t, starts permit = Some t -> Z.of_nat t ∈ ls RT_Object_Class_Thread) ->
  sys_ok (y <| sy_kernel := k' |>).
Proof.
  intros Hi Hg He Hst. assert (Hk : kept permit k k') by (apply Hg, (kernel_ready_live _ _ (ki_ok _ _ (yo_kernel _ Hy)))).
  split; cbn [sy_kernel sy_objects sy_live sy_ls sy_pools]; [exact Hi | | apply Hy | |].
  - change (rt_interrupt_nest k' = 0). rewrite (kp_nest _ _ _ Hk). apply Hy.
  - intros l c o t El Ht. change (t ∈ lists k' l) in Ht. destruct (decide (enters permit = Some l)) as [E|Hne].
    + destruct (He l E) as (c' & o' & El' & Ho'). rewrite El in El'. injection El' as <- <-. exact Ho'.
    + apply (yo_waits _ Hy l c o t El). apply (kp_waits _ _ _ Hk); auto. destruct l; try discriminate; reflexivity.
  - apply (threads_in_keep permit k s ls pools); auto; [apply Hy | apply (ti_pool _ _ _ _ (yo_threads _ Hy))].
Qed.
End Steps.
End System.
Arguments sys_state : clear implicits.
