(* ===== verification/LifeCalls.v ===== *)
(** * The calls that make and unmake kernel objects, and their theorems *)

From S2P Require Import Prelude Kernel Scheduler Timer Thread Tick Ipc Mutex Event Mailbox.
From S2P Require Import Memory Kservice Blocks Mem Heap Strings LinkedList Object MessageQueue Mempool Create Idle Layout Gentle Life.
From Stdlib Require Import FunctionalExtensionality.

(** ** The kernel's invariant through waits and wake-ups *)

Lemma resume_grow k t k' e : rt_thread_resume k t = Some (k', e) -> timers_grow k k'.
Proof.
  unfold rt_thread_resume. destruct (negb _); [intros [= <- _]; apply grow_same; reflexivity|].
  assert (Hs : forall k0 x, timers_grow k0 (fst (rt_timer_stop k0 x))).
  { intros k0 x y Hy. right. unfold rt_timer_stop in Hy. destruct (negb _); [exact Hy|].
    cbn in Hy. apply list_elem_of_filter in Hy. apply Hy. }
  specialize (Hs (tlist_remove k t) (ThreadTimer t)). destruct (rt_timer_stop (tlist_remove k t) (ThreadTimer t)) as [k1 e1].
  destruct (rt_schedule_insert_thread k1 t) as [k2|] eqn:E2; [|discriminate]. intros [= <- _] x Hx. apply Hs. cbn [fst].
  unfold rt_schedule_insert_thread in E2. destruct (decide _); [injection E2 as <-; exact Hx|].
  cbv zeta in E2. destruct (_ <=? _); [discriminate|]. injection E2 as <-. exact Hx.
Qed.

Lemma resume_all_grow k l k' : rt_ipc_list_resume_all k l = Some k' -> timers_grow k k'.
Proof.
  unfold rt_ipc_list_resume_all. generalize (length (lists k l)). intros n. revert k. induction n as [|n IH]; intros k;
    cbn [resume_all_loop]; destruct (lists k l) as [|t q]; try discriminate; try (intros [= <-]; apply grow_same; reflexivity).
  cbv zeta. set (k1 := set_thread k t (fun th => th <| error := - RT_ERROR |>)).
  destruct (rt_thread_resume k1 t) as [[k2 e]|] eqn:E1; [|discriminate]. cbn [mbind option_bind]. intros E x Hx.
  destruct (IH k2 E x Hx) as [H|H]; [auto|]. apply (resume_grow _ _ _ _ E1 x H).
Qed.

(** Every waiter of the lists becomes ready with an error. *)
Fixpoint resume_lists (k : Kernel) (l : list list_head) : option Kernel :=
  match l with
  | [] => Some k
  | h :: l => k ← rt_ipc_list_resume_all k h; resume_lists k l
  end.

Record woken_up (k k' : Kernel) (l : list list_head) : Prop := {
  wu_tick : rt_tick k' = rt_tick k;
  wu_current : rt_current_thread k' = rt_current_thread k;
  wu_empty : forall h, h ∈ l -> lists k' h = [];
  wu_others : forall h, is_wait h = true -> h ∉ l -> lists k' h = lists k h;
  wu_woken : forall h t, h ∈ l -> t ∈ lists k h -> error (threads k' t) = - RT_ERROR /\
    (thread_stat (threads k' t) = RT_THREAD_READY \/ thread_stat (threads k' t) = RT_THREAD_RUNNING);
  wu_rest : forall t, (forall h, h ∈ l -> t ∉ lists k h) -> threads k' t = threads k t
}.

Lemma resume_lists_spec k l : kernel_inv k -> Forall (fun h => is_wait h = true) l -> NoDup l ->
  exists k', resume_lists k l = Some k' /\ kernel_inv k' /\ gentle nothing k k' /\ woken_up k k' l.
Proof.
  intros Hi Hl Hd. revert k Hi. induction Hl as [|h l Hh Hl IH]; intros k Hi; cbn [resume_lists].
  - exists k. split_ands; auto; [apply gentle_refl|]. split; auto; [intros h Hh | intros h t Hh]; inversion Hh.
  - apply NoDup_cons in Hd as [Hnl Hd]. pose proof Hi as [Hok Hcur Htm]. destruct (Hcur I) as [c Hc].
    destruct (resume_all_spec _ k h Hok Hh) as (k1 & E1 & Hok1 & Ht1 & Hc1 & _ & El1 & How & Hin & Hout).
    assert (Hi1 : kernel_inv k1).
    { apply (inv_after _ k k1 c); auto; [congruence | apply (resume_all_grow _ _ _ E1)]. }
    destruct (IH Hd k1 Hi1) as (k2 & E2 & Hi2 & Hg & [W1 W2 W3 W4 W5 W6]). rewrite E1. cbn [mbind option_bind].
    exists k2. split_ands; auto.
    { apply (gentle_trans _ k k1 k2); [apply (gentle_resume_all _ k h k1 E1) | exact Hg]. }
    assert (Hkeep : forall h' t, h' ∈ l -> t ∈ lists k h -> t ∉ lists k1 h').
    { intros h' t Hh' Ht Ht'. assert (Hne : h' <> h) by congruence.
      assert (Hw' : is_wait h' = true) by (rewrite Forall_forall in Hl; apply Hl, Hh').
      rewrite (How h' Hw' Hne) in Ht'. pose proof (lo_one _ (so_lists _ (ko_sched _ _ Hok)) t h h' Ht Ht'). congruence. }
    split; try congruence.
    + intros h' [->|Hh']%elem_of_cons; [|auto]. rewrite (W4 h); auto.
    + intros h' Hw' [Hne Hnl']%not_elem_of_cons. rewrite W4, How; auto.
    + intros h' t [->|Hh']%elem_of_cons Ht.
      * rewrite W6; [apply Hin, Ht|]. intros h' Hh'. apply Hkeep; auto.
      * assert (Hne : h' <> h) by congruence.
        assert (Hw' : is_wait h' = true) by (rewrite Forall_forall in Hl; apply Hl, Hh').
        apply (W5 h'); auto. rewrite (How h' Hw' Hne). exact Ht.
    + intros t Ht. rewrite W6; [apply Hout, Ht; left|]. intros h' Hh'. assert (Hne : h' <> h) by congruence.
      assert (Hw' : is_wait h' = true) by (rewrite Forall_forall in Hl; apply Hl, Hh').
      rewrite (How h' Hw' Hne). apply Ht. right. exact Hh'.
Qed.

(** ** The objects of ipc.c and mempool.c *)

(** The six kinds; a control block a call reads comes with its kind. *)
Inductive ipc_kind := KSem (sm : Sem) | KMutex | KEvent | KMb | KMq (q : MessageQueue) | KMp (p : MemPool).

Definition kind_waits (kd : ipc_kind) (o : nat) : list list_head :=
  match kd with
  | KSem _ => [SemWait o] | KMutex => [MutexWait o] | KEvent => [EventWait o]
  | KMb => [MbRecvWait o; MbSendWait o] | KMq _ => [MqRecvWait o; MqSendWait o] | KMp _ => [MpWait o]
  end.

Section Calls.
Context (container : Z).
Abbreviation table := (rt_object_container container).
Abbreviation sys_ok := (sys_state container True).

Definition kind_info (kd : ipc_kind) : rt_object_information :=
  match kd with
  | KSem _ => mk_information RT_Object_Class_Semaphore (entry_list container 1) sizeof_semaphore
  | KMutex => mk_information RT_Object_Class_Mutex (entry_list container 2) sizeof_mutex
  | KEvent => mk_information RT_Object_Class_Event (entry_list container 3) sizeof_event
  | KMb => mk_information RT_Object_Class_MailBox (entry_list container 4) sizeof_mailbox
  | KMq _ => mk_information RT_Object_Class_MessageQueue (entry_list container 5) sizeof_messagequeue
  | KMp _ => mk_information RT_Object_Class_MemPool (entry_list container 6) sizeof_mempool
  end.

Definition ipc_detach (kd : ipc_kind) (k : Kernel) (s : Objects) (o : Z) : option (Kernel * Objects * Z) :=
  match kd with
  | KSem sm => rt_sem_detach k s o sm | KMutex => rt_mutex_detach k s o | KEvent => rt_event_detach k s o
  | KMb => rt_mb_detach k s o | KMq _ => rt_mq_detach k s o | KMp _ => rt_mp_detach k s o
  end.

(** [pool] is the mailbox's [msg_pool]; the other pools are in the control blocks. *)
Definition ipc_delete (kd : ipc_kind) (pool : Z) (k : Kernel) (s : Objects) (o : Z) : option (Kernel * Objects * Z) :=
  match kd with
  | KSem sm => rt_sem_delete k s o sm | KMutex => rt_mutex_delete k s o | KEvent => rt_event_delete k s o
  | KMb => rt_mb_delete k s o pool | KMq q => rt_mq_delete k s o q | KMp p => rt_mp_delete k s o p
  end.
Definition kind_pool (kd : ipc_kind) (pool : Z) : option Z :=
  match kd with KMb => Some pool | KMq q => Some (mq_pool q) | KMp p => Some (start_address p) | _ => None end.

Lemma kind_in kd : kind_info kd ∈ table.
Proof.
  destruct kd; [do 1 right; left | do 2 right; left | do 3 right; left | do 4 right; left | do 5 right; left | do 6 right; left].
Qed.

Lemma kind_other kd : other_class (kind_info kd).
Proof. destruct kd; split; vm_compute; discriminate. Qed.

Lemma kind_waits_spec kd o : Forall (fun h => is_wait h = true) (kind_waits kd o) /\ NoDup (kind_waits kd o) /\
  forall l, wait_object l = Some (oi_type (kind_info kd), o) <-> l ∈ kind_waits kd o.
Proof.
  split; [destruct kd; repeat constructor|]. split.
  - destruct kd; cbn [kind_waits]; repeat (apply NoDup_cons; split; [rewrite ?elem_of_cons, ?elem_of_nil; intros H; repeat destruct H as [H|H]; try discriminate; contradiction|]); apply NoDup_nil_2.
  - intros l. destruct kd; cbn [kind_waits kind_info oi_type]; rewrite ?elem_of_cons, elem_of_nil;
      (split; [destruct l; cbn; intros [=]; subst; tauto |
               intros H; repeat destruct H as [->|H]; try contradiction; reflexivity]).
Qed.

(** All detaching calls, and all deleting ones, do the same. *)
Lemma ipc_detach_eq kd k s o :
  ipc_detach kd k s o =
    (assert_object s o (oi_type (kind_info kd)) true;;
     k ← resume_lists k (kind_waits kd (key o));
     s ← rt_object_detach s o; Some (k, s, RT_EOK)).
Proof.
  destruct kd; cbn [ipc_detach kind_info oi_type kind_waits resume_lists];
    unfold rt_sem_detach, Ipc.rt_sem_detach, rt_mutex_detach, Mutex.rt_mutex_detach, rt_event_detach, Event.rt_event_detach,
      rt_mb_detach, Mailbox.rt_mb_detach, mb_resume_all, rt_mq_detach, MessageQueue.rt_mq_detach, mq_resume_all,
      rt_mp_detach, Mempool.rt_mp_detach;
    (destruct (assert_object _ _ _ _); [|reflexivity]); cbn [mbind option_bind];
    repeat (match goal with |- context [rt_ipc_list_resume_all ?k ?l] => destruct (rt_ipc_list_resume_all k l) end;
            [|reflexivity]; cbn [mbind option_bind]); reflexivity.
Qed.

Lemma ipc_delete_eq kd pool k s o : rt_interrupt_nest k = 0 ->
  ipc_delete kd pool k s o =
    (assert_object s o (oi_type (kind_info kd)) false;;
     k ← resume_lists k (kind_waits kd (key o));
     s ← match kind_pool kd pool with Some p => RT_KERNEL_FREE k s p | None => Some s end;
     s ← rt_object_delete (rt_interrupt_nest k) s o; Some (k, s, RT_EOK)).
Proof.
  intros Hn. destruct kd; cbn [ipc_delete kind_info oi_type kind_waits resume_lists kind_pool];
    unfold rt_sem_delete, Ipc.rt_sem_delete, rt_mutex_delete, Mutex.rt_mutex_delete, rt_event_delete, Event.rt_event_delete,
      rt_mb_delete, Mailbox.rt_mb_delete, mb_resume_all, rt_mq_delete, mq_resume_all,
      rt_mp_delete, not_in_interrupt; rewrite Hn; cbn [Z.eqb negb mbind option_bind];
    (destruct (assert_object _ _ _ _); [|reflexivity]); cbn [mbind option_bind];
    repeat (match goal with |- context [rt_ipc_list_resume_all ?k ?l] => destruct (rt_ipc_list_resume_all k l) end;
            [|reflexivity]; cbn [mbind option_bind]); reflexivity.
Qed.

Section Delete.
Context (y : Sys).
Hypothesis Hy : sys_ok y.
Abbreviation k := (sy_kernel y).
Abbreviation s := (sy_objects y).
Abbreviation ls := (sy_ls y).

Lemma assert_spec i o static : i ∈ table -> o ∈ ls (oi_type i) -> rt_object_is_systemobject s o = Some static ->
  assert_object s o (oi_type i) static = Some tt.
Proof.
  intros Hi Ho Hs. pose proof (reg_pos container y Hy i o Hi Ho). pose proof (la_objects _ _ _ _ _ (yo_layout _ _ Hy)) as Hok.
  unfold assert_object. rewrite (get_type_spec s o (oi_type i)); [|lia | apply (oo_type _ _ _ _ Hok); auto].
  cbn [mbind option_bind]. rewrite Hs. cbn [mbind option_bind]. rewrite Z.eqb_refl. destruct static; reflexivity.
Qed.

(** The waiters of an object are woken before it goes. *)
Lemma wake_ok kd o : 
  exists k', resume_lists k (kind_waits kd (key o)) = Some k' /\ sys_ok (y <| sy_kernel := k' |>) /\
    woken_up k k' (kind_waits kd (key o)) /\ unwaited k' (oi_type (kind_info kd)) o.
Proof.
  destruct (kind_waits_spec kd (key o)) as (Hw & Hd & Hl).
  destruct (resume_lists_spec k _ (yo_kernel _ _ Hy) Hw Hd) as (k' & E & Hi & Hg & Hwu). exists k'. split_ands; auto.
  - apply (kernel_ok_step container y Hy nothing k' Hi Hg); discriminate.
  - intros l t El Ht. apply Hl in El. rewrite (wu_empty _ _ _ Hwu l El) in Ht. inversion Ht.
Qed.

Lemma ipc_detach_ok kd o : o ∈ ls (oi_type (kind_info kd)) -> rt_object_is_systemobject s o = Some true ->
  exists k' s', ipc_detach kd k s o = Some (k', s', RT_EOK) /\ woken_up k k' (kind_waits kd (key o)) /\
    sys_ok (mk_sys k' s' (sy_live y) (without ls (kind_info kd) o) (sy_pools y)).
Proof.
  intros Ho Hs. rewrite ipc_detach_eq, (assert_spec _ o true (kind_in kd) Ho Hs). cbn [mbind option_bind].
  destruct (wake_ok kd o) as (k' & -> & Hy' & Hwu & Hun). cbn [mbind option_bind].
  assert (Hp : sy_pools y !! o = None).
  { destruct (sy_pools y !! o) as [p|] eqn:E; [|reflexivity]. destruct (pools_dynamic container y Hy _ _ E). congruence. }
  destruct (detach_ok container (y <| sy_kernel := k' |>) Hy' (kind_info kd) o (kind_in kd) (kind_other kd) Ho Hp Hun)
    as (s' & E & Hy2). change (rt_object_detach s o = Some s') in E. rewrite E. exists k', s'. auto.
Qed.

Lemma ipc_delete_ok kd pool o : o ∈ ls (oi_type (kind_info kd)) -> rt_object_is_systemobject s o = Some false ->
  sy_pools y !! o = kind_pool kd pool ->
  exists k' s', ipc_delete kd pool k s o = Some (k', s', RT_EOK) /\ woken_up k k' (kind_waits kd (key o)) /\
    sys_ok (mk_sys k' s' (delete o (match kind_pool kd pool with Some p => delete p (sy_live y) | None => sy_live y end))
              (without ls (kind_info kd) o) (delete o (sy_pools y))).
Proof.
  intros Ho Hs Hp. rewrite ipc_delete_eq, (assert_spec _ o false (kind_in kd) Ho Hs) by apply Hy. cbn [mbind option_bind].
  destruct (wake_ok kd o) as (k' & -> & Hy' & Hwu & Hun). cbn [mbind option_bind].
  assert (Hnt : o ∉ ls RT_Object_Class_Thread).
  { intros Ht. pose proof (la_objects _ _ _ _ _ (yo_layout _ _ Hy)) as Hok.
    destruct (oo_apart _ _ _ _ Hok _ _ o o (kind_in kd) (threads_in_table container) Ho Ht) as [[E _]|Ha];
      [destruct kd; discriminate E | unfold apart20, SIZEOF_OBJECT in Ha; lia]. }
  pose proof (unpool_ok container _ Hy' o Hnt) as Hy1. set (y1 := y <| sy_kernel := k' |> <| sy_pools := _ |>) in Hy1.
  assert (Hfree : exists s1, match kind_pool kd pool with Some p => RT_KERNEL_FREE k' s p | None => Some s end = Some s1 /\
    sys_ok (mk_sys k' s1 (match kind_pool kd pool with Some p => delete p (sy_live y) | None => sy_live y end) ls (delete o (sy_pools y))) /\
    rt_object_is_systemobject s1 o = Some false).
  { destruct (kind_pool kd pool) as [p|]; [|exists s; auto].
    destruct (la_pool _ _ _ _ _ (yo_layout _ _ Hy) o p Hp) as [Hreg (n & Hn & Hl & Hcl)].
    destruct (free_block_ok container y1 Hy1 p n Hl Hcl) as (h' & E & Hy2 & Hty).
    { intros o' Ho'. change (delete o (sy_pools y) !! o' = Some p) in Ho'. apply lookup_delete_Some in Ho' as [Hne Ho'].
      apply Hne, (la_once _ _ _ _ _ (yo_layout _ _ Hy) _ _ p); auto. }
    exists (s <| obj_heap := h' |>). split; [exact E|]. split; [exact Hy2|]. rewrite <- Hs. apply (Hty o Hreg). }
  destruct Hfree as (s1 & E1 & Hy2 & Hs1). rewrite E1. cbn [mbind option_bind].
  replace (rt_interrupt_nest k') with 0 by (symmetry; apply Hy').
  destruct (delete_ok container _ Hy2 (kind_info kd) o (kind_in kd) (kind_other kd) Ho) as (s' & E & Hy3);
    [apply lookup_delete_eq | exact Hs1 | exact Hun|].
  cbn [sy_objects] in E. rewrite E. exists k', s'. auto.
Qed.
End Delete.

(** ** Creating *)

Inductive create_args :=
| CreateSem (value flag : Z) | CreateMutex (flag : Z) | CreateEvent (flag : Z)
| CreateMb (size flag : Z) | CreateMq (msg_size max_msgs flag : Z) | CreateMp (block_count block_size : Z).

Definition made {X} (pool : X -> option Z) (r : option (Z * X)) : option (Z * option Z) :=
  match r with Some (o, x) => Some (o, pool x) | None => None end.

(** The new object with its pool, if the call gives one. *)
Definition ipc_create (a : create_args) (k : Kernel) (s : Objects) (name : Z) : option (Kernel * Objects * option (Z * option Z)) :=
  match a with
  | CreateSem value flag => '(k, s, r) ← rt_sem_create container k s name value flag; Some (k, s, made (fun _ => None) r)
  | CreateMutex flag => '(k, s, r) ← rt_mutex_create container k s name flag; Some (k, s, made (fun _ => None) r)
  | CreateEvent flag => '(k, s, r) ← rt_event_create container k s name flag; Some (k, s, made (fun _ => None) r)
  | CreateMb size flag =>
      '(k, s, r) ← rt_mb_create container k s name size flag; Some (k, s, made (fun x => Some (snd x)) r)
  | CreateMq msg_size max_msgs flag =>
      '(k, s, r) ← rt_mq_create container k s name msg_size max_msgs flag;
      Some (k, s, made (fun q => Some (mq_pool q)) r)
  | CreateMp block_count block_size =>
      '(k, s, r) ← rt_mp_create container k s name block_count block_size;
      Some (k, s, made (fun p => Some (start_address p)) r)
  end.

(** The kind of what a call creates; the control blocks are of no matter here. *)
Definition args_kind (a : create_args) : ipc_kind :=
  match a with
  | CreateSem _ _ => KSem (mkSem 0 0) | CreateMutex _ => KMutex | CreateEvent _ => KEvent | CreateMb _ _ => KMb
  | CreateMq _ _ _ => KMq (mkMessageQueue 0 0 0 0 0 0 0 0) | CreateMp _ _ => KMp (mkMemPool 0 0 0 0 0 0 0)
  end.
(** The bytes of its pool. *)
Definition args_pool (a : create_args) : option Z :=
  match a with
  | CreateMb size _ => Some (u32 (u16 size * 4))
  | CreateMq msg_size max_msgs _ => Some (u32 ((u16 (RT_ALIGN msg_size RT_ALIGN_SIZE) + SIZEOF_MQ_MESSAGE) * u16 max_msgs))
  | CreateMp block_count block_size => Some (u32 (u32 (RT_ALIGN block_size RT_ALIGN_SIZE + SIZEOF_POINTER) * block_count))
  | _ => None
  end.
(** What the calls assert, and that the size of a memory pool does not wrap around. *)
Definition args_ok (a : create_args) (name : Z) : Prop :=
  match a with
  | CreateSem value _ => value < 65536
  | CreateMp block_count block_size => name <> 0 /\ 0 < block_count /\ 0 < block_size < 1073741824 /\
      (RT_ALIGN block_size RT_ALIGN_SIZE + SIZEOF_POINTER) * block_count <= SIZE_LIMIT
  | _ => True
  end.

Section Create.
Context (y : Sys).
Hypothesis Hy : sys_ok y.
Abbreviation k := (sy_kernel y).
Abbreviation s := (sy_objects y).
Abbreviation live := (sy_live y).
Abbreviation ls := (sy_ls y).
Abbreviation pools := (sy_pools y).

(** Emptying a list that is empty. *)
Lemma relist_same (kn : Kernel) (l : list_head) : lists kn l = [] -> kn <| lists := upd (lists kn) l [] |> = kn.
Proof.
  intros E. replace (upd (lists kn) l []) with (lists kn); [destruct kn; reflexivity|].
  apply functional_extensionality. intros h. unfold upd. destruct (decide (h = l)) as [->|]; [exact E | reflexivity].
Qed.

Lemma added_removed i o : o ∉ ls (oi_type i) -> without (set_class ls (oi_type i) (o :: ls (oi_type i))) i o = ls.
Proof.
  intros Ho. apply functional_extensionality. intros c. unfold without, set_class.
  destruct (Z.eqb_spec c (oi_type i)) as [->|]; [|reflexivity]. rewrite Z.eqb_refl.
  rewrite filter_cons_False by congruence. clear Hy. induction (ls (oi_type i)) as [|x l IH]; [reflexivity|].
  rewrite not_elem_of_cons in Ho. rewrite filter_cons_True by (intros ->; tauto). f_equal. apply IH. tauto.
Qed.

(** A header alone; the flag is set or not. *)
Definition flagged (v : option Z) (s' : Objects) (o : Z) : Objects := match v with Some v => set_flag s' o v | None => s' end.
Definition with_object (i : rt_object_information) (o : Z) (s' : Objects) : Sys :=
  mk_sys k s' (<[o := object_size i]> live) (set_class ls (oi_type i) (o :: ls (oi_type i))) pools.

Record fresh_object (kd : ipc_kind) (o : Z) (s' : Objects) : Prop := {
  fo_ok : sys_ok (with_object (kind_info kd) o s');
  fo_new : o ∉ ls (oi_type (kind_info kd));
  fo_pos : 0 < o;
  fo_block : live !! o = None;
  fo_pool : pools !! o = None;
  fo_dynamic : rt_object_is_systemobject s' o = Some false;
  fo_waits : forall l, l ∈ kind_waits kd (key o) -> lists k l = []
}.

Lemma header_ok kd name v :
  exists s1 o, rt_object_allocate container (rt_interrupt_nest k) s (oi_type (kind_info kd)) name = Some (s1, o) /\
    (if o =? 0 then sys_ok (y <| sy_objects := s1 |>) else fresh_object kd o (flagged v s1 o)).
Proof.
  rewrite (yo_nest _ _ Hy). destruct (allocate_ok container y Hy (kind_info kd) name (kind_in kd) (kind_other kd)) as (s1 & o & E & H).
  exists s1, o. split; [exact E|]. destruct (o =? 0); [exact H|]. destruct H as (Hy1 & Hno & Hpos & Hl & Hp & Hsys).
  assert (Hreg : registered container (sy_ls (with_object (kind_info kd) o s1)) o).
  { exists (kind_info kd). split; [apply kind_in|]. cbn. unfold set_class. rewrite Z.eqb_refl. left. }
  split; auto.
  - destruct v as [v|]; [apply (flag_ok container _ Hy1 o v Hreg) | exact Hy1].
  - destruct v as [v|]; [|exact Hsys].
    rewrite <- Hsys. unfold rt_object_is_systemobject. destruct (o =? 0); [reflexivity|].
    change (Some (negb (Z.land (load8 (store8 (obj_mem s1) (o + 9) v) (o + 8)) RT_Object_Class_Static =? 0)) =
            Some (negb (Z.land (load8 (obj_mem s1) (o + 8)) RT_Object_Class_Static =? 0))).
    rewrite load8_store8. destruct (Z.eqb_spec (o + 8) (o + 9)); [lia | reflexivity].
  - intros l Hl'. apply (no_waiter container y Hy l (oi_type (kind_info kd)) o); auto; [|lia].
    apply (kind_waits_spec kd (key o)), Hl'.
Qed.

(** The pool of a new object, or the end of the object. *)
Lemma pool_step kd o s1 n : fresh_object kd o s1 -> 0 <= n <= SIZE_LIMIT ->
  (exists s2 s3, RT_KERNEL_MALLOC k s1 n = Some (s2, 0) /\ rt_object_delete (rt_interrupt_nest k) s2 o = Some s3 /\
     sys_ok (y <| sy_objects := s3 |>)) \/
  (exists s2 p, RT_KERNEL_MALLOC k s1 n = Some (s2, p) /\ p <> 0 /\ live !! p = None /\ rt_object_is_systemobject s2 o = Some false /\
     forall m', (forall a, a < p \/ p + n <= a -> load8 m' a = load8 (obj_mem s2) a) ->
       sys_ok (mk_sys k (on_memory s2 (fun _ => m')) (<[p := n]> (<[o := object_size (kind_info kd)]> live))
                 (set_class ls (oi_type (kind_info kd)) (o :: ls (oi_type (kind_info kd)))) (<[o := p]> pools))).
Proof.
  intros [H1 H2 H3 H4 H5 H6 H7] Hn. pose proof (kind_in kd) as Hi.
  assert (Hreg : o ∈ sy_ls (with_object (kind_info kd) o s1) (oi_type (kind_info kd))).
  { cbn. unfold set_class. rewrite Z.eqb_refl. left. }
  destruct (malloc_ok container _ H1 n Hn) as [E|(h' & p & E & Hp & Hlp & Hn0 & Hy2 & Hcl & Hpo & Hty)];
    cbn [sy_kernel sy_objects with_object] in E.
  - left. assert (Hy2 : sys_ok (with_object (kind_info kd) o (s1 <| obj_heap := obj_heap s1 |>))).
    { destruct s1; exact H1. }
    destruct (delete_ok container _ Hy2 (kind_info kd) o Hi (kind_other kd) Hreg H5) as (s3 & E3 & Hy3).
    + rewrite <- H6. destruct s1; reflexivity.
    + intros l t El Ht. apply (kind_waits_spec kd (key o)) in El.
      change (t ∈ lists k l) in Ht. rewrite (H7 l El) in Ht. inversion Ht.
    + eexists _, s3. split; [exact E|]. rewrite (yo_nest _ _ Hy). split; [exact E3|].
      cbn [with_object sy_kernel sy_objects sy_live sy_ls sy_pools] in Hy3.
      rewrite added_removed, delete_insert_eq, delete_id in Hy3 by assumption. exact Hy3.
  - right. exists (s1 <| obj_heap := h' |>), p. split; [exact E|]. split; [exact Hp|].
    cbn [with_object sy_kernel sy_objects sy_live sy_ls sy_pools] in *.
    assert (Hlp' : live !! p = None) by (apply lookup_insert_None in Hlp; tauto). split; [exact Hlp'|].
    assert (Hdyn : rt_object_is_systemobject (s1 <| obj_heap := h' |>) o = Some false).
    { rewrite Hty; [exact H6|]. exists (kind_info kd). auto. } split; [exact Hdyn|]. intros m' Hm'.
    assert (Hnt : o ∉ set_class ls (oi_type (kind_info kd)) (o :: ls (oi_type (kind_info kd))) RT_Object_Class_Thread).
    { rewrite set_class_other by (destruct kd; discriminate). intros Ht.
      pose proof (la_objects _ _ _ _ _ (yo_layout _ _ H1)) as Hok.
      destruct (oo_apart _ _ _ _ Hok _ _ o o Hi (threads_in_table container) Hreg) as [[Ec _]|Ha].
      - cbn. rewrite set_class_other by (destruct kd; discriminate). exact Ht.
      - destruct kd; discriminate Ec.
      - unfold apart20, SIZEOF_OBJECT in Ha. lia. }
    pose proof (pool_ok container _ Hy2 o p n (ex_intro _ _ (conj Hi Hreg)) Hdyn Hnt Hn0 (lookup_insert_eq _ _ _) Hcl Hpo) as Hy3.
    apply (block_write_ok container _ Hy3 p n m' (lookup_insert_eq _ _ _) Hcl Hm').
Qed.

(** The loops that build the free lists stay inside their pools. *)
Lemma mq_rounds_frame pool size n m free a : 0 <= size ->
  a < pool \/ pool + Z.of_nat n * (size + SIZEOF_MQ_MESSAGE) <= a ->
  load8 (fold_left (mq_init_round pool size) (seq 0 n) (m, free)).1 a = load8 m a.
Proof.
  unfold SIZEOF_MQ_MESSAGE. intros Hs. induction n as [|n IH]; intros Ha; [reflexivity|].
  rewrite seq_S, fold_left_app. cbn [fold_left plus]. rewrite <- IH by lia.
  destruct (fold_left _ _ _) as [m1 f1]. unfold mq_init_round, SIZEOF_MQ_MESSAGE. cbn [fst]. apply load8_store32_other. nia.
Qed.

Lemma mp_rounds_frame start stride n m a : 4 <= stride -> a < start \/ start + Z.of_nat n * stride <= a ->
  load8 (fold_left (mp_init_round start stride) (seq 0 n) m) a = load8 m a.
Proof.
  intros Hs. induction n as [|n IH]; intros Ha; [reflexivity|].
  rewrite seq_S, fold_left_app. cbn [fold_left plus]. rewrite <- IH by lia. unfold mp_init_round. apply load8_store32_other. nia.
Qed.

(** What a creating call leaves. *)
Definition creates (a : create_args) (r : option (Z * option Z)) (s' : Objects) : Prop :=
  match r with
  | None => sys_ok (y <| sy_objects := s' |>)
  | Some (o, pool) =>
      let i := kind_info (args_kind a) in
      let live' := <[o := object_size i]> live in
      let ls' := set_class ls (oi_type i) (o :: ls (oi_type i)) in
      (o ∉ ls (oi_type i)) /\ 0 < o /\ live !! o = None /\ rt_object_is_systemobject s' o = Some false /\
      (forall l, l ∈ kind_waits (args_kind a) (key o) -> lists k l = []) /\
      match args_pool a, pool with
      | None, None => sys_ok (mk_sys k s' live' ls' pools)
      | Some n, Some p => p <> 0 /\ live !! p = None /\ sys_ok (mk_sys k s' (<[p := n]> live') ls' (<[o := p]> pools))
      | _, _ => False
      end
  end.

Lemma plain_created a o v s1 : args_pool a = None -> fresh_object (args_kind a) o (flagged v s1 o) ->
  creates a (Some (o, None)) (flagged v s1 o).
Proof. intros Ep [H1 H2 H3 H4 H5 H6 H7]. unfold creates. rewrite Ep. split_ands; auto. Qed.

Lemma relist kd o l s1 : fresh_object kd o s1 -> l ∈ kind_waits kd (key o) -> k <| lists := upd (lists k) l [] |> = k.
Proof. intros H Hl. apply relist_same, (fo_waits _ _ _ H), Hl. Qed.

Lemma plain_create_ok a name : args_pool a = None -> args_ok a name ->
  exists s' r, ipc_create a k s name = Some (k, s', r) /\ creates a r s'.
Proof.
  intros Ep Ha.
  assert (Hh : forall v, exists s1 o, rt_object_allocate container (rt_interrupt_nest k) s (oi_type (kind_info (args_kind a))) name = Some (s1, o) /\
    (if o =? 0 then creates a None s1 else creates a (Some (o, None)) (flagged v s1 o) /\ fresh_object (args_kind a) o (flagged v s1 o))).
  { intros v. destruct (header_ok (args_kind a) name v) as (s1 & o & E & H). exists s1, o. split; [exact E|].
    destruct (o =? 0); [exact H|]. split; [apply plain_created; auto | exact H]. }
  assert (Hn := yo_nest _ _ Hy).
  destruct a as [value flag | flag | flag | | |]; try discriminate Ep; destruct (Hh (Some flag)) as (s1 & o & E & H);
    cbn [ipc_create]; unfold rt_sem_create, rt_mutex_create, rt_event_create, not_in_interrupt; rewrite Hn;
    cbn [Z.eqb mbind option_bind args_kind kind_info oi_type] in *; rewrite Hn in E.
  - cbn [args_ok] in Ha. apply Z.ltb_lt in Ha as Hv. rewrite Hv. cbn [negb]. rewrite E. cbn [mbind option_bind].
    destruct (o =? 0); [exists s1, None; auto|]. destruct H as [H Hf]. unfold Ipc.rt_sem_init. rewrite Hv. cbn [negb mbind option_bind].
    unfold rt_ipc_object_init. rewrite (relist _ _ _ _ Hf) by left. eexists _, _. split; [reflexivity | exact H].
  - rewrite E. cbn [mbind option_bind]. destruct (o =? 0); [exists s1, None; auto|]. destruct H as [H Hf].
    unfold Mutex.rt_mutex_init, rt_ipc_object_init. rewrite (relist _ _ _ _ Hf) by left. eexists _, _. split; [reflexivity | exact H].
  - rewrite E. cbn [mbind option_bind]. destruct (o =? 0); [exists s1, None; auto|]. destruct H as [H Hf].
    unfold Event.rt_event_init, rt_ipc_object_init. rewrite (relist _ _ _ _ Hf) by left. eexists _, _. split; [reflexivity | exact H].
Qed.

(** An object with its pool. *)
Lemma pooled_created a o s1 n p s2 : args_pool a = Some n -> fresh_object (args_kind a) o s1 -> p <> 0 -> live !! p = None ->
  sys_ok (mk_sys k s2 (<[p := n]> (<[o := object_size (kind_info (args_kind a))]> live))
    (set_class ls (oi_type (kind_info (args_kind a))) (o :: ls (oi_type (kind_info (args_kind a))))) (<[o := p]> pools)) ->
  creates a (Some (o, Some p)) s2.
Proof.
  intros Ep [H1 H2 H3 H4 H5 H6 H7] Hp Hlp Hok. unfold creates. rewrite Ep. split_ands; auto.
  apply (ti_pool _ _ _ _ (yo_threads _ _ Hok) o p). cbn. apply lookup_insert_eq.
Qed.

Lemma on_memory_id s2 : on_memory s2 (fun _ => obj_mem s2) = s2.
Proof. destruct s2 as [[]]. reflexivity. Qed.

Lemma mb_create_ok size flag name :
  exists s' r, ipc_create (CreateMb size flag) k s name = Some (k, s', r) /\ creates (CreateMb size flag) r s'.
Proof.
  assert (Hn := yo_nest _ _ Hy). cbn [ipc_create]. unfold rt_mb_create, not_in_interrupt.
  destruct (header_ok KMb name (Some flag)) as (s1 & o & E & H). cbn [kind_info oi_type] in E. rewrite Hn in *.
  cbn [Z.eqb mbind option_bind] in *. rewrite E. cbn [mbind option_bind].
  destruct (o =? 0); [exists s1, None; auto|]. unfold rt_ipc_object_init. rewrite (relist _ _ _ _ H) by left.
  pose proof (u16_range size). set (n := u32 (u16 size * 4)).
  assert (En : n = u16 size * 4) by (apply u32_small; lia). cbn [flagged] in H.
  destruct (pool_step KMb o _ n H ltac:(unfold SIZE_LIMIT; lia)) as [(s2 & s3 & E2 & E3 & H3)|(s2 & p & E2 & Hp & Hlp & _ & Hok)];
    rewrite E2; cbn [mbind option_bind].
  - cbn [Z.eqb]. rewrite Hn in E3 |- *. rewrite E3. cbn [mbind option_bind made]. exists s3, None. auto.
  - destruct (Z.eqb_spec p 0); [contradiction|]. unfold Mailbox.rt_mb_init, rt_ipc_object_init.
    rewrite (relist _ _ _ _ H) by left. rewrite (relist _ _ _ _ H) by (right; left). cbn [made fst snd].
    eexists s2, _. split; [reflexivity|]. apply (pooled_created (CreateMb size flag) o _ n p s2 eq_refl H Hp Hlp).
    specialize (Hok (obj_mem s2) (fun _ _ => eq_refl)). rewrite on_memory_id in Hok. exact Hok.
Qed.

Lemma mq_create_ok msg_size max_msgs flag name :
  exists s' r, ipc_create (CreateMq msg_size max_msgs flag) k s name = Some (k, s', r) /\ creates (CreateMq msg_size max_msgs flag) r s'.
Proof.
  assert (Hn := yo_nest _ _ Hy). cbn [ipc_create]. unfold rt_mq_create, not_in_interrupt.
  set (q0 := mkMessageQueue 0 0 0 0 0 0 0 0).
  destruct (header_ok (KMq q0) name (Some flag)) as (s1 & o & E & H). cbn [kind_info oi_type] in E. rewrite Hn in *.
  cbn [Z.eqb mbind option_bind] in *. rewrite E. cbn [mbind option_bind].
  destruct (o =? 0); [exists s1, None; auto|]. unfold rt_ipc_object_init. rewrite (relist _ _ _ _ H) by left.
  set (sz := u16 (RT_ALIGN msg_size RT_ALIGN_SIZE)). set (cnt := u16 max_msgs). set (n := u32 ((sz + SIZEOF_MQ_MESSAGE) * cnt)).
  assert (Hsz : 0 <= sz <= 65532).
  { pose proof (u16_range (RT_ALIGN msg_size RT_ALIGN_SIZE)) as R. destruct (RT_ALIGN_mod4 msg_size) as [M _].
    unfold sz, u16 in *. revert R M. generalize (RT_ALIGN msg_size RT_ALIGN_SIZE). intros x R M. Z.div_mod_to_equations. lia. }
  assert (Hcnt : 0 <= cnt < 65536) by apply u16_range. unfold SIZEOF_MQ_MESSAGE in *.
  assert (En : n = (sz + 4) * cnt) by (apply u32_small; nia). cbn [flagged] in H.
  assert (Hlim : 0 <= n <= SIZE_LIMIT) by (unfold SIZE_LIMIT; rewrite En; nia).
  destruct (pool_step _ o _ n H Hlim) as [(s2 & s3 & E2 & E3 & H3)|(s2 & p & E2 & Hp & Hlp & _ & Hok)];
    rewrite E2; cbn [mbind option_bind].
  - cbn [Z.eqb]. rewrite Hn in E3 |- *. rewrite E3. cbn [mbind option_bind made]. exists s3, None. auto.
  - destruct (Z.eqb_spec p 0); [contradiction|].
    pose proof (mq_rounds_frame p sz (Z.to_nat cnt) (obj_mem s2) 0) as Hfr.
    destruct (fold_left _ _ _) as [m free]. cbn [fst] in Hfr. rewrite (relist _ _ _ _ H) by (right; left).
    cbn [mbind option_bind made mq_pool]. eexists _, _. split; [reflexivity|].
    apply (pooled_created (CreateMq msg_size max_msgs flag) o _ n p _ eq_refl H Hp Hlp). apply Hok.
    intros a Ha. apply Hfr; [lia|]. unfold SIZEOF_MQ_MESSAGE. rewrite Z2Nat.id by lia. lia.
Qed.

Lemma mp_create_ok block_count block_size name : args_ok (CreateMp block_count block_size) name ->
  exists s' r, ipc_create (CreateMp block_count block_size) k s name = Some (k, s', r) /\ creates (CreateMp block_count block_size) r s'.
Proof.
  intros (Hname & Hcnt & Hbs & Hlimit).
  assert (Hn := yo_nest _ _ Hy). cbn [ipc_create]. unfold rt_mp_create, not_in_interrupt.
  set (p0 := mkMemPool 0 0 0 0 0 0 0).
  destruct (header_ok (KMp p0) name None) as (s1 & o & E & H). cbn [kind_info oi_type] in E. rewrite Hn in *.
  cbn [Z.eqb mbind option_bind] in *. destruct (Z.eqb_spec name 0) as [|_]; [contradiction|].
  destruct (Z.ltb_spec 0 block_count); [|lia]. destruct (Z.ltb_spec 0 block_size); [|lia]. cbn [orb andb negb].
  rewrite E. cbn [mbind option_bind]. destruct (o =? 0); [exists s1, None; auto|].
  set (bs := RT_ALIGN block_size RT_ALIGN_SIZE) in *. unfold SIZEOF_POINTER in *.
  assert (Hal : block_size <= bs < block_size + 4).
  { unfold bs. rewrite RT_ALIGN_4 by lia. Z.div_mod_to_equations. lia. }
  assert (Es : u32 (bs + 4) = bs + 4) by (apply u32_small; lia). set (stride := u32 (bs + 4)) in *.
  set (n := u32 (stride * block_count)). unfold SIZE_LIMIT in *.
  assert (En : n = stride * block_count) by (apply u32_small; nia). cbn [flagged] in H.
  assert (Hlim : 0 <= n <= SIZE_LIMIT) by (unfold SIZE_LIMIT; rewrite En; nia).
  destruct (pool_step _ o _ n H Hlim) as [(s2 & s3 & E2 & E3 & H3)|(s2 & p & E2 & Hp & Hlp & _ & Hok)];
    rewrite E2; cbn [mbind option_bind].
  - cbn [Z.eqb]. rewrite Hn in E3. rewrite E3. cbn [mbind option_bind made]. exists s3, None. auto.
  - destruct (Z.eqb_spec p 0); [contradiction|]. rewrite (relist _ _ _ _ H) by left.
    cbn [mbind option_bind made start_address]. eexists _, _. split; [reflexivity|].
    apply (pooled_created (CreateMp block_count block_size) o _ n p _ eq_refl H Hp Hlp). apply Hok.
    assert (Hpe : 0 < p /\ p + n <= 4294967296).
    { pose proof (Hok (obj_mem s2) (fun _ _ => eq_refl)) as Hok2. apply (block_end container _ Hok2 p n). apply lookup_insert_eq. }
    intros a Ha. rewrite u32_small by nia. rewrite load8_store32_other by nia.
    apply mp_rounds_frame; [lia|]. rewrite Z2Nat.id by lia. lia.
Qed.

Lemma ipc_create_ok a name : args_ok a name -> exists s' r, ipc_create a k s name = Some (k, s', r) /\ creates a r s'.
Proof.
  intros Ha. destruct a; [apply plain_create_ok; auto .. | apply mb_create_ok | apply mq_create_ok | apply mp_create_ok, Ha].
Qed.
End Create.
End Calls.
