(* ===== verification/LifeThreads.v ===== *)
(** * The life of threads: creation, end and burial *)

From S2P Require Import Prelude Kernel Scheduler Timer Thread Tick Ipc.
From S2P Require Import Memory Kservice Blocks Mem Heap Strings LinkedList Object Create Idle Layout Gentle Life LifeCalls.
From Stdlib Require Import FunctionalExtensionality.

(** ** The kernel's part *)

Lemma remove_nothing k t : Scheduler.unlinked k t -> tlist_remove k t = k.
Proof.
  intros Hu. unfold tlist_remove. replace (fun l => filter (fun u => u <> t) (lists k l)) with (lists k); [destruct k; reflexivity|].
  apply functional_extensionality. intros l. symmetry. apply filter_none, Hu.
Qed.

Record started (begun : Prop) (k k' : Kernel) (t : nat) (priority : Z) (static : bool) : Prop := {
  st_inv : kernel_state begun k';
  st_nest : rt_interrupt_nest k' = rt_interrupt_nest k;
  st_current : rt_current_thread k' = rt_current_thread k;
  st_lists : lists k' = lists k;
  st_others : forall u, u <> t -> threads k' u = threads k u;
  st_stat : thread_stat (threads k' t) = RT_THREAD_INIT;
  st_static : systemobject (threads k' t) = static;
  st_priority : init_priority (threads k' t) = priority
}.

Lemma thread_init_spec begun k t priority tick static :
  kernel_state begun k -> Scheduler.unlinked k t -> live (thread_stat (threads k t)) = false -> rt_current_thread k <> Some t -> 0 <= priority < 32 ->
  exists k', Thread._rt_thread_init k t priority tick static = Some k' /\ started begun k k' t priority static.
Proof.
  intros [Hok Hcur Htm] Hu Hl Hc Hp. unfold Thread._rt_thread_init. rewrite remove_nothing by exact Hu.
  destruct (Z.ltb_spec priority RT_THREAD_PRIORITY_MAX); [|unfold RT_THREAD_PRIORITY_MAX in *; lia]. cbn [negb].
  eexists. split; [reflexivity|]. set (f := fun th => mkThread _ _ _ _ _ _ _ _ _ _ _). set (k1 := set_thread k t f).
  assert (Hnt : ThreadTimer t ∉ rt_timer_list k).
  { intros H'. destruct (to_linked _ _ (ko_timers _ _ Hok) t H') as [_ Hs]. rewrite Hs in Hl. discriminate. }
  assert (Et : threads k1 t = f (threads k t)) by apply set_thread_threads.
  assert (Hsch : sched_ok k1).
  { pose proof Hok as [[H1 H2 H3] _]. apply sched_ok_set_thread; auto; discriminate. }
  split; try reflexivity.
  - split; [split | exact Hcur | exact Htm].
    + apply (sched_ok_same k1); [split; reflexivity | exact Hsch].
    + pose proof (ko_timers _ _ Hok) as [T1 T2 T3 T4 T5 T6]. split; try assumption.
      * intros u. destruct (decide (u = t)) as [->|Hne].
        -- unfold Timer.rt_timer_init. rewrite set_timer_timers. split; [reflexivity|]. split; reflexivity.
        -- unfold Timer.rt_timer_init. rewrite set_timer_other by congruence. apply T3.
      * intros u Hin. assert (Hne : u <> t) by (intros ->; contradiction). unfold Timer.rt_timer_init.
        rewrite set_timer_other by congruence. destruct (T4 u Hin) as [A B]. split; [exact A|].
        change (thread_stat (threads k1 u) = RT_THREAD_SUSPEND). unfold k1. rewrite set_thread_other by exact Hne. exact B.
      * apply (timers_sorted_ext _ _ (fun y => timeout_tick (timers k y))); [|exact T6].
        intros y Hy. unfold Timer.rt_timer_init. destruct (decide (y = ThreadTimer t)) as [->|Hne]; [contradiction|].
        rewrite set_timer_other by exact Hne. reflexivity.
  - intros u Hne. unfold k1. apply (set_thread_other k t f u Hne).
  - change (thread_stat (threads k1 t) = RT_THREAD_INIT). rewrite Et. reflexivity.
  - change (systemobject (threads k1 t) = static). rewrite Et. reflexivity.
  - change (init_priority (threads k1 t) = priority). rewrite Et. reflexivity.
Qed.

(** A thread is closed; it stays registered until it is buried, unless it is static
    and has no cleanup function. *)
Definition stays (th : Thread) : bool := negb (systemobject th && negb (cleanup th)).

Record closes (k kd : Kernel) (t : nat) : Prop := {
  cl_nest : rt_interrupt_nest kd = rt_interrupt_nest k;
  cl_current : rt_current_thread kd = rt_current_thread k;
  cl_static : forall u, systemobject (threads kd u) = systemobject (threads k u);
  cl_others : forall u, u <> t -> threads kd u = threads k u;
  cl_closed : thread_stat (threads kd t) = RT_THREAD_CLOSE;
  cl_lists : forall l u, u ∈ lists kd l -> (u ∈ lists k l /\ u <> t) \/ (u = t /\ l = Defunct /\ stays (threads k t) = true);
  cl_ready : ready_live kd
}.

Lemma closed_closes k k1 t (dispose : bool) : kernel_inv k -> Scheduler.unlinked k1 t ->
  (forall l u, u ∈ lists k1 l -> u ∈ lists k l) -> threads k1 = threads k ->
  rt_interrupt_nest k1 = rt_interrupt_nest k -> rt_current_thread k1 = rt_current_thread k ->
  (dispose = true -> stays (threads k t) = true) ->
  closes k (if dispose then tlist_insert_after (closed k1 t) Defunct t else closed k1 t) t.
Proof.
  intros Hi Hu Hl Et En Ec Hd. set (kd := if dispose then _ else _).
  assert (E : threads kd = threads (closed k1 t)) by (unfold kd; destruct dispose; reflexivity).
  assert (Eo : forall u, u <> t -> threads kd u = threads k u).
  { intros u Hne. rewrite E, <- Et. unfold closed. change (threads (Timer.rt_timer_detach ?a ?b)) with (threads a).
    apply set_thread_other, Hne. }
  assert (Ett : threads kd t = threads k t <| stat := RT_THREAD_CLOSE |>).
  { rewrite E, <- Et. unfold closed. change (threads (Timer.rt_timer_detach ?a ?b)) with (threads a). apply set_thread_threads. }
  assert (Hls : forall l u, u ∈ lists kd l -> (u ∈ lists k l /\ u <> t) \/ (u = t /\ l = Defunct /\ stays (threads k t) = true)).
  { intros l u Hin. assert (Hin' : u ∈ lists k1 l \/ (dispose = true /\ u = t /\ l = Defunct)).
    { unfold kd in Hin. destruct dispose; [|left; exact Hin]. cbn in Hin. unfold upd in Hin.
      destruct (decide (l = Defunct)) as [->|]; [|left; exact Hin]. apply elem_of_cons in Hin as [->|Hin]; [right|left]; auto. }
    destruct Hin' as [H|(H1 & -> & ->)]; [left; split; [apply Hl, H | intros ->; apply (Hu _ H)] | right; auto]. }
  split; auto.
  - unfold kd. destruct dispose; exact En.
  - unfold kd. destruct dispose; exact Ec.
  - intros u. destruct (decide (u = t)) as [->|Hne]; [rewrite Ett | rewrite Eo by exact Hne]; reflexivity.
  - rewrite Ett. reflexivity.
  - intros p u Hin. destruct (Hls _ _ Hin) as [[H Hne]|(_ & H & _)]; [|discriminate].
    rewrite Eo by exact Hne. apply (kernel_ready_live _ _ (ki_ok _ _ Hi) p u H).
Qed.

(** Leaving the scheduler. *)
Lemma unschedule_unlinks k t : kernel_inv k ->
  live (thread_stat (threads k t)) = true \/ thread_stat (threads k t) = RT_THREAD_INIT ->
  exists k1, (if negb (thread_stat (threads k t) =? RT_THREAD_INIT) then rt_schedule_remove_thread k t else Some k) = Some k1 /\
    Scheduler.unlinked k1 t /\ (forall l u, u ∈ lists k1 l -> u ∈ lists k l) /\ threads k1 = threads k /\
    rt_interrupt_nest k1 = rt_interrupt_nest k /\ rt_current_thread k1 = rt_current_thread k.
Proof.
  intros [Hok _ _] Hl. destruct (Z.eqb_spec (thread_stat (threads k t)) RT_THREAD_INIT) as [Hin|Hne]; cbn [negb].
  - exists k. split_ands; auto. apply (init_unlinked _ _ _ Hok Hin).
  - destruct Hl as [Hl|]; [|contradiction].
    assert (Hp : prio_ok (threads k t)) by (apply (tk_prio _ _ (so_threads _ (ko_sched _ _ Hok) t) Hl)).
    unfold rt_schedule_remove_thread. cbv zeta. change (threads (tlist_remove k t)) with (threads k).
    destruct (Z.leb_spec RT_THREAD_PRIORITY_MAX (current_priority (threads k t))) as [Hge|];
      [pose proof (po_range _ Hp); unfold RT_THREAD_PRIORITY_MAX in Hge; lia|].
    eexists. split; [reflexivity|].
    destruct (decide _); cbn; (split_ands; auto;
      [intros l H'; apply list_elem_of_filter in H'; tauto | intros l u H'; apply list_elem_of_filter in H'; tauto]).
Qed.

(** ** The end of a thread *)

Section System.
Context (container : Z).
Abbreviation table := (rt_object_container container).
Abbreviation sys_ok := (sys_state container True).
Abbreviation the_threads := (the_threads container).
Abbreviation the_timers := (the_timers container).

Section End.
Context (y : Sys).
Hypothesis Hy : sys_ok y.
Abbreviation k := (sy_kernel y).
Abbreviation s := (sy_objects y).
Abbreviation live := (sy_live y).
Abbreviation ls := (sy_ls y).
Abbreviation pools := (sy_pools y).

Context (o : Z).
Hypothesis Ho : o ∈ ls RT_Object_Class_Thread.
Hypothesis Hopen : thread_stat (threads k (key o)) <> RT_THREAD_CLOSE.
Abbreviation th := (threads k (key o)).

Definition ls_closed : Registered := without ls the_timers (thread_timer o).
Definition ls_gone : Registered := if stays th then ls_closed else without ls_closed the_threads o.

Lemma thread_pos : 0 < o.
Proof. apply (reg_pos container y Hy the_threads o (threads_in_table container) Ho). Qed.

Lemma open_timer : (thread_timer o ∈ ls RT_Object_Class_Timer) /\ rt_object_is_systemobject s (thread_timer o) = Some true.
Proof.
  pose proof (th_timer _ _ _ _ _ (ti_object _ _ _ _ (yo_threads _ _ Hy) o Ho)) as H.
  apply Z.eqb_neq in Hopen. rewrite Hopen in H. exact H.
Qed.

Lemma static_unpooled x : rt_object_is_systemobject s x = Some true -> pools !! x = None.
Proof.
  intros Hs. destruct (pools !! x) as [p|] eqn:E; [|reflexivity].
  rewrite (ti_pool _ _ _ _ (yo_threads _ _ Hy) x p E) in Hs. discriminate.
Qed.

Lemma closed_threads : ls_closed RT_Object_Class_Thread = ls RT_Object_Class_Thread.
Proof. reflexivity. Qed.

Lemma closed_timers x : x ∈ ls_closed RT_Object_Class_Timer <-> (x ∈ ls RT_Object_Class_Timer) /\ x <> thread_timer o.
Proof.
  unfold ls_closed, without, set_class. change (oi_type the_timers) with RT_Object_Class_Timer.
  rewrite Z.eqb_refl, list_elem_of_filter. tauto.
Qed.

Lemma thread_not_timer x : x ∈ ls RT_Object_Class_Thread -> x ∉ ls RT_Object_Class_Timer.
Proof.
  intros Hx Hm. pose proof (la_objects _ _ _ _ _ (yo_layout _ _ Hy)) as Hok.
  destruct (oo_apart _ _ _ _ Hok the_threads the_timers _ _ (threads_in_table container) (timers_in_table container) Hx Hm)
    as [[E _]|Ha]; [discriminate E | unfold apart20, SIZEOF_OBJECT in Ha; lia].
Qed.

(** Both objects leave the container. *)
Lemma end_objects : exists s1 s', timer_object_detach s o = Some s1 /\ rt_object_is_systemobject s1 o = Some (systemobject th) /\
  dispose_object k s1 o = Some s' /\
  layout_ok container s' live ls_gone pools /\
  (forall i x, i ∈ table -> x ∈ ls (oi_type i) -> x <> thread_timer o -> (stays th = true \/ x <> o) ->
     rt_object_is_systemobject s' x = rt_object_is_systemobject s x) /\
  (forall x, x ∈ ls RT_Object_Class_Thread -> (stays th = true \/ x <> o) -> stack_addr (obj_mem s') x = stack_addr (obj_mem s) x).
Proof.
  destruct open_timer as [Hti Hsys]. pose proof thread_pos as Hpos.
  assert (Hne : forall x, x ∈ ls RT_Object_Class_Thread -> x <> thread_timer o).
  { intros x Hx ->. apply (thread_not_timer _ Hx Hti). }
  destruct (lay_detach container s live ls pools (yo_layout _ _ Hy) the_timers (thread_timer o) (timers_in_table container) Hti
    (static_unpooled _ Hsys)) as (s1 & E1 & Hla1 & _ & Hfr1).
  assert (Hk1 : bodies_kept container s ls s1 (thread_timer o)).
  { apply (frame_kept container s live ls pools (yo_layout _ _ Hy) s1 live the_timers (thread_timer o)); auto. apply timers_in_table. }
  unfold timer_object_detach. change RT_Object_Class_Timer with (oi_type the_timers). rewrite (assert_spec container y Hy the_timers _ true (timers_in_table container) Hti Hsys).
  cbn [mbind option_bind]. rewrite E1. exists s1. unfold dispose_object.
  assert (Ety : forall i x, i ∈ table -> x ∈ ls (oi_type i) -> x <> thread_timer o ->
    rt_object_is_systemobject s1 x = rt_object_is_systemobject s x).
  { intros i x Hi Hx Hxo. apply (kept_type container s ls s1 (thread_timer o) i x); auto. }
  assert (Esys : rt_object_is_systemobject s1 o = Some (systemobject th)).
  { rewrite (Ety the_threads) by (auto; apply threads_in_table). apply (ti_object _ _ _ _ (yo_threads _ _ Hy) o Ho). }
  assert (Est : forall x, x ∈ ls RT_Object_Class_Thread -> stack_addr (obj_mem s1) x = stack_addr (obj_mem s) x).
  { intros x Hx. apply (kept_stack container s ls s1 (thread_timer o)); auto. }
  rewrite Esys. cbn [mbind option_bind]. unfold ls_gone, stays in *.
  destruct (systemobject th && negb (cleanup th)) eqn:Ed; cbn [negb].
  - apply andb_prop in Ed as [Estat _].
    assert (Hpo : pools !! o = None).
    { apply static_unpooled. rewrite <- Estat. apply (ti_object _ _ _ _ (yo_threads _ _ Hy) o Ho). }
    destruct (lay_detach container s1 live ls_closed pools Hla1 the_threads o (threads_in_table container) Ho Hpo)
      as (s2 & E2 & Hla2 & _ & Hfr2). rewrite E2. exists s2.
    assert (Hk2 : bodies_kept container s1 ls_closed s2 o).
    { apply (frame_kept container s1 live ls_closed pools Hla1 s2 live the_threads o); auto. apply threads_in_table. }
    assert (Hin : forall i x, i ∈ table -> x ∈ ls (oi_type i) -> x <> thread_timer o -> x ∈ ls_closed (oi_type i)).
    { intros i x Hi Hx Hxo. unfold ls_closed, without, set_class. destruct (Z.eqb_spec (oi_type i) (oi_type the_timers)) as [E|]; [|exact Hx].
      rewrite <- E. apply list_elem_of_filter. auto. }
    split_ands; auto; try reflexivity.
    + intros i x Hi Hx Hxo [|Hxo2]; [discriminate|]. rewrite <- (Ety i x) by auto.
      apply (kept_type container s1 ls_closed s2 o i x); auto.
    + intros x Hx [|Hxo2]; [discriminate|]. rewrite <- (Est x) by auto. apply (kept_stack container s1 ls_closed s2 o); auto.
  - exists s1. split_ands; eauto.
Qed.

Lemma gone_class c x : c <> RT_Object_Class_Timer -> (stays th = true \/ c <> RT_Object_Class_Thread) -> x ∈ ls c -> x ∈ ls_gone c.
Proof.
  intros Hc Hs Hx. unfold ls_gone. assert (Hx1 : x ∈ ls_closed c).
  { unfold ls_closed, without. rewrite set_class_other by exact Hc. exact Hx. }
  destruct (stays th); [exact Hx1|]. destruct Hs as [|Hs]; [discriminate|].
  unfold without at 1. rewrite set_class_other by exact Hs. exact Hx1.
Qed.

Lemma gone_threads x : x ∈ ls_gone RT_Object_Class_Thread <-> (x ∈ ls RT_Object_Class_Thread) /\ (stays th = true \/ x <> o).
Proof.
  unfold ls_gone. destruct (stays th).
  - rewrite closed_threads. tauto.
  - unfold without, set_class. change (oi_type the_threads) with RT_Object_Class_Thread. rewrite Z.eqb_refl, list_elem_of_filter, closed_threads.
    split; [tauto|]. intros [H1 [H|H]]; [discriminate | auto].
Qed.

Lemma gone_timers x : x ∈ ls_gone RT_Object_Class_Timer <-> (x ∈ ls RT_Object_Class_Timer) /\ x <> thread_timer o.
Proof.
  rewrite <- closed_timers. unfold ls_gone. destruct (stays th); [reflexivity|].
  unfold without at 1. rewrite set_class_other by discriminate. reflexivity.
Qed.

(** The system once the thread is closed; the processor may have changed hands. *)
Lemma close_ok kd k' s' : closes k kd (key o) -> kernel_inv k' -> gentle nothing kd k' ->
  (stays th = true \/ rt_current_thread k' <> Some (key o)) ->
  timer_object_detach s o ≫= (fun s1 => dispose_object k s1 o) = Some s' ->
  sys_ok (mk_sys k' s' live ls_gone pools).
Proof.
  intros [C1 C2 C3 C4 C5 C6 C7] Hi Hg Hcur Es. pose proof (Hg C7) as Hk. pose proof thread_pos as Hpos.
  destruct end_objects as (s1 & s2 & E1 & _ & E2 & Hla & Hty & Hst).
  rewrite E1 in Es. cbn [mbind option_bind] in Es. rewrite E2 in Es. injection Es as <-.
  pose proof (yo_threads _ _ Hy) as Hth.
  assert (Hkey : forall x, x ∈ ls RT_Object_Class_Thread -> key x = key o -> x = o).
  { intros x Hx E. pose proof (reg_pos container y Hy the_threads x (threads_in_table container) Hx). unfold key in E. lia. }
  assert (Hnot : forall t, Z.of_nat t = o -> t = key o) by (intros t E; unfold key; lia).
  assert (Hstat : forall u, u <> key o -> thread_stat (threads k' u) = RT_THREAD_CLOSE <-> thread_stat (threads k u) = RT_THREAD_CLOSE).
  { intros u Hu. rewrite (kp_closed _ _ _ Hk), (C4 u Hu). reflexivity. }
  assert (Hclosed : thread_stat (threads k' (key o)) = RT_THREAD_CLOSE) by (apply (kp_closed _ _ _ Hk), C5).
  assert (Hlive : forall t, Scheduler.live (thread_stat (threads kd t)) = true -> t <> key o /\ Scheduler.live (thread_stat (threads k t)) = true).
  { intros t Ht. assert (Hne : t <> key o) by (intros ->; rewrite C5 in Ht; discriminate). rewrite (C4 t Hne) in Ht. auto. }
  split; cbn [sy_kernel sy_objects sy_live sy_ls sy_pools]; [exact Hi | rewrite (kp_nest _ _ _ Hk), C1; apply Hy | exact Hla | |].
  - intros l c x t El Ht. assert (Hw : is_wait l = true) by (destruct l; try discriminate El; reflexivity).
    apply (kp_waits _ _ _ Hk) in Ht; [|exact Hw | discriminate]. destruct (C6 _ _ Ht) as [[Ht' _]|(_ & -> & _)]; [|discriminate El].
    apply gone_class; [destruct l; try discriminate El; injection El as <- _; discriminate | right;
      destruct l; try discriminate El; injection El as <- _; discriminate |]. apply (yo_waits _ _ Hy l c x t El Ht').
  - split.
    + intros x [Hx Hxo]%gone_threads. destruct (ti_object _ _ _ _ Hth x Hx) as [A1 A2 A3].
      assert (Hxt : x <> thread_timer o) by (intros ->; apply (thread_not_timer _ Hx), open_timer).
      split; rewrite ?(kp_static _ _ _ Hk), ?C3.
      * rewrite (Hty the_threads) by (auto; apply threads_in_table). exact A1.
      * destruct (decide (x = o)) as [->|Hne].
        -- rewrite Hclosed, Z.eqb_refl. rewrite gone_timers. tauto.
        -- assert (Hkx : key x <> key o) by (intros E; apply Hne, Hkey; auto).
           assert (Htx : thread_timer x <> thread_timer o) by (unfold thread_timer; lia). pose proof (Hstat _ Hkx) as Hs.
           destruct (Z.eqb_spec (thread_stat (threads k (key x))) RT_THREAD_CLOSE) as [E|E].
           ++ apply Hs in E. rewrite E, Z.eqb_refl. rewrite gone_timers. tauto.
           ++ destruct (Z.eqb_spec (thread_stat (threads k' (key x))) RT_THREAD_CLOSE) as [E'|E']; [destruct (E (proj1 Hs E'))|].
              destruct A2 as [A2 A2']. rewrite gone_timers. split; [auto|]. rewrite <- A2'. apply (Hty the_timers); auto.
              ** apply timers_in_table.
              ** right. intros Ex. rewrite Ex in A2. apply (thread_not_timer _ Ho A2).
      * rewrite A3, (Hst x) by assumption. reflexivity.
    + intros t Ht. destruct (kp_live _ _ _ Hk t Ht) as [H|H]; [|discriminate]. destruct (Hlive t H) as [Hne Hl].
      apply gone_threads. split; [apply (ti_live _ _ _ _ Hth t Hl) | right; intros E; apply Hne, Hnot, E].
    + intros t Ht. apply (kp_defunct _ _ _ Hk) in Ht. apply gone_threads. destruct (C6 _ _ Ht) as [[Ht' Hne]|(-> & _ & Hs)].
      * split; [apply (ti_defunct _ _ _ _ Hth t Ht') | right; intros E; apply Hne, Hnot, E].
      * rewrite key_of by lia. auto.
    + intros c Hc. apply gone_threads. destruct (kp_current _ _ _ Hk c Hc) as [H|[H|H]]; [| |discriminate].
      * rewrite C2 in H. split; [apply (ti_current _ _ _ _ Hth c H)|]. destruct Hcur as [|Hcur]; [auto|]. right. intros E.
        apply Hcur. rewrite Hc. f_equal. apply Hnot, E.
      * destruct (Hlive c H) as [Hne Hl]. split; [apply (ti_live _ _ _ _ Hth c Hl) | right; intros E; apply Hne, Hnot, E].
    + intros x p Hx. destruct (pools_dynamic container y Hy x p Hx) as [(j & Hj & Hxj) Hs]. rewrite <- Hs.
      destruct open_timer as [_ Hts]. apply (Hty j); auto; [congruence|].
      destruct (stays th) eqn:Ed; [auto | right; intros ->]. unfold stays in Ed. apply negb_false_iff, andb_prop in Ed as [Ed _].
      pose proof (th_static _ _ _ _ _ (ti_object _ _ _ _ Hth o Ho)) as Hs'. congruence.
Qed.

(** *** Detaching, deleting, leaving *)

Lemma dispose_closed k1 : threads k1 = threads k ->
  thread_dispose (closed k1 (key o)) (key o) =
    if stays th then tlist_insert_after (closed k1 (key o)) Defunct (key o) else closed k1 (key o).
Proof.
  intros Eth. unfold thread_dispose, stays.
  change (threads (closed k1 (key o))) with (threads (set_thread k1 (key o) (fun th => th <| stat := RT_THREAD_CLOSE |>))).
  rewrite set_thread_threads, Eth. change (systemobject (th <| stat := RT_THREAD_CLOSE |>)) with (systemobject th).
  change (cleanup (th <| stat := RT_THREAD_CLOSE |>)) with (cleanup th). destruct (_ && _); reflexivity.
Qed.

Hypothesis Hlife : Scheduler.live (thread_stat th) = true \/ thread_stat th = RT_THREAD_INIT.

Lemma thread_delete_ok : rt_object_is_systemobject s o = Some false ->
  exists k' s', rt_thread_delete k s o = Some (k', s', RT_EOK) /\ sys_ok (mk_sys k' s' live ls_gone pools) /\
    key o ∈ lists k' Defunct.
Proof.
  intros Hs. pose proof (th_static _ _ _ _ _ (ti_object _ _ _ _ (yo_threads _ _ Hy) o Ho)) as Hst. rewrite Hs in Hst. injection Hst as Hst.
  pose proof (yo_kernel _ _ Hy) as Hi. pose proof Hi as [Hok Hcur _]. destruct (Hcur I) as [c Hc].
  destruct end_objects as (s1 & s' & E1 & Es1 & E2 & _). rewrite <- Hst in Es1.
  unfold rt_thread_delete. change RT_Object_Class_Thread with (oi_type the_threads).
  rewrite (assert_spec container y Hy the_threads o false (threads_in_table container) Ho Hs). cbn [mbind option_bind].
  destruct (delete_spec _ k (key o) Hok (eq_sym Hst) Hlife) as (k' & Ek & Hok' & Et & Ec & Hg & Hin). rewrite Ek, E1. cbn [mbind option_bind].
  assert (s' = s1) as ->.
  { unfold dispose_object in E2. rewrite Es1 in E2. cbn [mbind option_bind andb] in E2. congruence. }
  exists k', s1. split_ands; auto.
  assert (Hcl : closes k k' (key o)).
  { unfold Thread.rt_thread_delete in Ek. rewrite <- Hst in Ek.
    destruct (unschedule_unlinks k (key o) Hi Hlife) as (k1 & Ek1 & Hu & Hl & Eth & En & Ecu). rewrite Ek1 in Ek. injection Ek as <-.
    apply (closed_closes k k1 (key o) true); auto. intros _. unfold stays. rewrite <- Hst. reflexivity. }
  assert (Hi' : kernel_inv k') by (apply (inv_after _ k k' c); auto; congruence).
  apply (close_ok k' k' s1 Hcl Hi' (gentle_refl _ k')); [left; unfold stays; rewrite <- Hst; reflexivity|].
  rewrite E1. cbn [mbind option_bind]. exact E2.
Qed.

Lemma thread_detach_ok : rt_object_is_systemobject s o = Some true -> rt_current_thread k <> Some (key o) ->
  exists k' s', rt_thread_detach k s o = Some (k', s', RT_EOK) /\ sys_ok (mk_sys k' s' live ls_gone pools).
Proof.
  intros Hs Hcur. pose proof (th_static _ _ _ _ _ (ti_object _ _ _ _ (yo_threads _ _ Hy) o Ho)) as Hst. rewrite Hs in Hst. injection Hst as Hst.
  pose proof (yo_kernel _ _ Hy) as Hi. pose proof Hi as [Hok Hbegun _]. destruct (Hbegun I) as [c Hc].
  destruct end_objects as (s1 & s' & E1 & _ & E2 & _).
  unfold rt_thread_detach. change RT_Object_Class_Thread with (oi_type the_threads).
  rewrite (assert_spec container y Hy the_threads o true (threads_in_table container) Ho Hs). cbn [mbind option_bind].
  destruct (detach_spec _ k (key o) Hok (eq_sym Hst) Hlife) as (k' & Ek & Hok' & Hg & Et & Ec). rewrite Ek, E1. cbn [mbind option_bind].
  rewrite E2. exists k', s'. split; [reflexivity|].
  assert (Hcl : closes k k' (key o)).
  { unfold Thread.rt_thread_detach in Ek. rewrite <- Hst in Ek. cbn [negb] in Ek.
    destruct (unschedule_unlinks k (key o) Hi Hlife) as (k1 & Ek1 & Hu & Hl & Eth & En & Ecu). rewrite Ek1 in Ek. cbn [mbind option_bind] in Ek.
    injection Ek as <-.
    change (set_thread (Timer.rt_timer_detach k1 (ThreadTimer (key o))) (key o) (fun th => th <| stat := RT_THREAD_CLOSE |>)) with (closed k1 (key o)).
    rewrite (dispose_closed k1 Eth). apply (closed_closes k k1 (key o) (stays th)); auto. }
  assert (Hi' : kernel_inv k') by (apply (inv_after _ k k' c); auto; congruence).
  apply (close_ok k' k' s' Hcl Hi' (gentle_refl _ k')); [right; congruence|]. rewrite E1. exact E2.
Qed.

Lemma thread_exit_ok : rt_current_thread k = Some (key o) -> Scheduler.live (thread_stat th) = true ->
  exists k' s', rt_thread_exit k s o = Some (k', s') /\
    (stays th = true \/ rt_current_thread k' <> Some (key o) -> sys_ok (mk_sys k' s' live ls_gone pools)).
Proof.
  intros Hc Hl. pose proof (yo_kernel _ _ Hy) as Hi. pose proof Hi as [Hok _ _].
  destruct end_objects as (s1 & s' & E1 & _ & E2 & _).
  destruct (exit_spec _ k (key o) Hok Hc Hl) as (k' & c' & Ek & Hok' & Et & Hc' & Hg).
  unfold rt_thread_exit. rewrite E1. cbn [mbind option_bind]. rewrite E2. cbn [mbind option_bind]. rewrite Ek.
  exists k', s'. split; [reflexivity|]. intros Hstay.
  unfold Thread.rt_thread_exit, rt_thread_self in Ek. rewrite Hc in Ek. cbn [mbind option_bind] in Ek.
  destruct (unschedule_unlinks k (key o) Hi (or_introl Hl)) as (k1 & Ek1 & Hu & Hls & Eth & En & Ecu).
  destruct (Z.eqb_spec (thread_stat th) RT_THREAD_INIT) as [E|]; [rewrite E in Hl; discriminate|]. cbn [negb] in Ek1.
  rewrite Ek1 in Ek. cbn [mbind option_bind] in Ek.
  change (Timer.rt_timer_detach (set_thread k1 (key o) (fun th => th <| stat := RT_THREAD_CLOSE |>)) (ThreadTimer (key o))) with (closed k1 (key o)) in Ek.
  rewrite (dispose_closed k1 Eth) in Ek.
  pose proof (closed_closes k k1 (key o) (stays th) Hi Hu Hls Eth En Ecu (fun H => H)) as Hcl.
  apply (close_ok _ k' s' Hcl); [apply (inv_after _ k k' c'); auto | apply gentle_schedule, Ek | exact Hstay|].
  rewrite E1. exact E2.
Qed.
End End.
End System.
