(* ===== verification/LifeCreate.v ===== *)
(** * The creation of threads

    A new thread owns its control block, with its timer inside, and its stack; the frame
    at the top of the stack is what the first switch to the thread restores. *)

From S2P Require Import Prelude Kernel Scheduler Timer Thread Tick Ipc.
From S2P Require Import Memory Kservice Blocks Mem Heap Strings LinkedList Object Create Idle Layout Gentle Life LifeCalls LifeThreads.

(** ** The stack *)

(** What the exception return of the first switch loads. *)
Record first_frame (m : Memory) (sp entry parameter texit : Z) : Prop := {
  ff_aligned : sp mod 8 = 0;
  ff_r0 : load32 m (sp + 32) = u32 parameter;
  ff_lr : load32 m (sp + 52) = u32 texit;
  ff_pc : load32 m (sp + 56) = u32 entry;
  ff_psr : load32 m (sp + 60) = 16777216
}.

Lemma pattern_other stk n m a : a < stk \/ stk + 4 * Z.of_nat n <= a ->
  load8 (fold_left (fun m i => store32 m (stk + 4 * Z.of_nat i) 3735928559) (seq 0 n) m) a = load8 m a.
Proof.
  induction n as [|n IH]; intros Ha; [reflexivity|].
  rewrite seq_S, fold_left_app. cbn [fold_left plus]. rewrite load8_store32_other by lia. apply IH. lia.
Qed.

Lemma pattern_word stk n m i : (i < n)%nat ->
  load32 (fold_left (fun m i => store32 m (stk + 4 * Z.of_nat i) 3735928559) (seq 0 n) m) (stk + 4 * Z.of_nat i) = 3735928559.
Proof.
  induction n as [|n IH]; intros Hi; [lia|]. rewrite seq_S, fold_left_app. cbn [fold_left plus].
  destruct (decide (i = n)) as [->|Hne]; [apply load32_store32|]. rewrite load32_store32_other by lia. apply IH. lia.
Qed.

(** The frame lies below the end of the stack by at most 71 bytes. *)
Lemma hw_stack_spec m entry parameter top texit : 60 <= top -> top + 4 < 4294967296 ->
  exists m' sp, rt_hw_stack_init m entry parameter top texit = (m', sp) /\
    sp = top + 4 - (top + 4) mod 8 - 64 /\ first_frame m' sp entry parameter texit /\ load32 m' sp = 3735928559 /\
    (forall a, a < sp \/ sp + 64 <= a -> load8 m' a = load8 m a).
Proof.
  intros Ht1 Ht2. unfold rt_hw_stack_init, SIZEOF_STACK_FRAME. cbv zeta. rewrite (u32_small (top + 4)) by lia.
  rewrite RT_ALIGN_DOWN_8 by lia. pose proof (Z.mod_pos_bound (top + 4) 8 ltac:(lia)) as R.
  set (stk := top + 4 - (top + 4) mod 8). assert (Hm : stk mod 8 = 0).
  { unfold stk. rewrite Zminus_mod_idemp_r, Z.sub_diag. reflexivity. }
  assert (Hlow : 64 <= stk) by (unfold stk; Z.div_mod_to_equations; lia).
  rewrite (u32_small (stk - 64)) by (unfold stk in *; lia). eexists _, (stk - 64). split; [reflexivity|].
  split; [reflexivity|]. split; [|split].
  - split.
    + rewrite Zminus_mod, Hm. reflexivity.
    + do 7 rewrite load32_store32_other by lia. apply load32_store32.
    + do 2 rewrite load32_store32_other by lia. apply load32_store32.
    + rewrite load32_store32_other by lia. apply load32_store32.
    + apply load32_store32.
  - do 8 rewrite load32_store32_other by lia. pose proof (pattern_word (stk - 64) 16 m 0 ltac:(lia)) as H.
    rewrite Z.mul_0_r, Z.add_0_r in H. exact H.
  - intros a Ha. do 8 rewrite load8_store32_other by lia. apply pattern_other. lia.
Qed.

(** The control block's fields and the stack, and nothing else. *)
Lemma stack_init_spec texit s o entry parameter p n :
  0 <= o -> 0 < p -> 72 <= n -> p + n < 4294967296 -> o + 128 <= p \/ p + n <= o ->
  exists m' sp, thread_stack_init texit s o entry parameter p n = Some (on_memory s (fun _ => m')) /\
    p <= sp /\ sp + 64 <= p + n /\ first_frame m' sp entry parameter texit /\
    load32 m' (o + 28) = sp /\ stack_addr m' o = p /\
    (forall a, (a < o + 28 \/ o + 48 <= a) -> (a < p \/ p + n <= a) -> load8 m' a = load8 (obj_mem s) a).
Proof.
  intros Ho Hp Hn He Hd. unfold thread_stack_init. cbv zeta.
  set (m1 := store32 (store32 (store32 (store32 (obj_mem s) (o + 32) entry) (o + 36) parameter) (o + 40) p) (o + 44) n).
  destruct (rt_memset_spec m1 p (chr "#") n ltac:(lia)) as (m2 & E2 & H2). rewrite E2. cbn [mbind option_bind].
  assert (Hm2 : forall a, a < p \/ p + n <= a -> load8 m2 a = load8 m1 a).
  { intros a Ha. rewrite (H2 a), load8_fill. bool_cases; try lia; reflexivity. }
  rewrite (u32_small (p + n - 4)) by lia.
  destruct (hw_stack_spec m2 entry parameter (p + n - 4) texit ltac:(lia) ltac:(lia)) as (m3 & sp & E3 & Hsp0 & [F1 F2 F3 F4 F5] & _ & H3).
  assert (Hsp : sp <= p + n - 4 + 4 - 64 < sp + 8) by (pose proof (Z.mod_pos_bound (p + n - 4 + 4) 8 ltac:(lia)); lia).
  rewrite E3. exists (store32 m3 (o + 28) sp), sp. split; [reflexivity|].
  assert (H31 : forall a, a < p \/ p + n <= a -> load8 m3 a = load8 m1 a).
  { intros a Ha. rewrite H3 by lia. apply Hm2, Ha. }
  assert (Hsp2 : p <= sp /\ sp + 64 <= p + n) by lia. destruct Hsp2. split; [assumption|]. split; [assumption|].
  split; [|split; [|split]].
  - split; [exact F1 | | | |]; rewrite load32_store32_other by lia; assumption.
  - rewrite load32_store32. apply u32_small. lia.
  - unfold stack_addr. rewrite load32_store32_other by lia.
    rewrite (same_on_load32 m3 m1) by (intros a Ha; apply H31; lia). unfold m1.
    rewrite load32_store32_other by lia. rewrite load32_store32. apply u32_small. lia.
  - intros a Ha1 Ha2. rewrite load8_store32_other by lia. rewrite H31 by exact Ha2. unfold m1.
    do 4 rewrite load8_store32_other by lia. reflexivity.
Qed.

(** ** The bytes of a control block *)

Section System.
Context (container : Z) {begun : Prop}.
Abbreviation table := (rt_object_container container).
Abbreviation sys_ok := (sys_state container begun).
Abbreviation the_threads := (the_threads container).
Abbreviation the_timers := (the_timers container).
Definition with_thread (ls : Registered) (o : Z) : Registered := set_class ls RT_Object_Class_Thread (o :: ls RT_Object_Class_Thread).
Definition with_timer (ls : Registered) (x : Z) : Registered := set_class ls RT_Object_Class_Timer (x :: ls RT_Object_Class_Timer).

(** The container relies on the header of an object only. *)
Lemma body_free s live ls pools i x a : layout_ok container s live ls pools -> i ∈ table -> x ∈ ls (oi_type i) ->
  body_byte i x a -> a <> x + 8 -> ~ protected container (obj_heap s) live ls a.
Proof.
  intros Hla Hi Hx Ha Hne Hp. pose proof (la_objects _ _ _ _ _ Hla) as Hok. pose proof (size_pos _ _ Hi) as Hsi.
  unfold body_byte, SIZEOF_OBJECT in Ha.
  assert (Hhead : forall z, registered container ls z -> z <> x -> a < z \/ z + 20 <= a).
  { intros z (j & Hj & Hz) Hzx. pose proof (size_pos _ _ Hj). unfold TIMER_OFFSET in Ha.
    destruct (la_apart _ _ _ _ _ Hla i j x z Hi Hj Hx Hz) as [[_ E]|[|[|[(_ & _ & ->)|(_ & _ & ->)]]]]; try congruence;
      unfold TIMER_OFFSET in *; lia. }
  destruct Hp as [a Hc | z Hz | z a Hz Hn | a H1 H2]; unfold list_node in *.
  - destruct (la_region _ _ _ _ _ Hla i x Hi Hx) as [(R1 & R2 & R3)|(p & m & Hl & R1 & R2)]; [lia|].
    destruct (oo_heap _ _ _ _ Hok) as [bs Hst]. destruct (live_region _ _ _ _ _ Hst Hl) as (_ & R & _).
    pose proof (oo_low _ _ _ _ Hok). unfold HDR in *. lia.
  - destruct (decide (z = x)) as [->|Hzx]; [lia | specialize (Hhead z Hz Hzx); lia].
  - destruct (decide (z = x)) as [->|Hzx]; [lia | specialize (Hhead z Hz Hzx); lia].
  - destruct (la_region _ _ _ _ _ Hla i x Hi Hx) as [(R1 & R2 & R3)|(p & m & Hl & R1 & R2)]; [lia|].
    apply H2. exists p, m. split; [exact Hl | lia].
Qed.

Section Create.
Context (y : Sys).
Hypothesis Hy : sys_ok y.
Abbreviation k := (sy_kernel y).
Abbreviation s := (sy_objects y).
Abbreviation live := (sy_live y).
Abbreviation ls := (sy_ls y).
Abbreviation pools := (sy_pools y).

(** The kernel knows nothing of a thread that is not registered. *)
Lemma fresh_key o : 0 <= o -> o ∉ ls RT_Object_Class_Thread ->
  Scheduler.unlinked k (key o) /\ Scheduler.live (thread_stat (threads k (key o))) = false /\ rt_current_thread k <> Some (key o).
Proof.
  intros Ho Hn. pose proof (yo_threads _ _ Hy) as Hth. rewrite <- (key_of o Ho) in Hn.
  assert (Hl : Scheduler.live (thread_stat (threads k (key o))) = false).
  { apply not_true_iff_false. intros H. apply Hn, (ti_live _ _ _ _ Hth _ H). }
  split; [|split; [exact Hl|]].
  - intros l Hin. pose proof (tk_list _ _ (so_threads _ (ko_sched _ _ (ki_ok _ _ (yo_kernel _ _ Hy))) (key o)) l Hin) as Hs.
    destruct l; try (rewrite Hs in Hl; discriminate Hl); [destruct Hs as [Hs _]; rewrite Hs in Hl; discriminate Hl|].
    apply Hn, (ti_defunct _ _ _ _ Hth _ Hin).
  - intros Hc. apply Hn, (ti_current _ _ _ _ Hth _ Hc).
Qed.

(** A registered control block whose fields are still to be set, and its stack. *)
Record blank_thread (s1 : Objects) (live1 : Live) (pools1 : Pools) (o p n : Z) (static : bool) : Prop := {
  bt_layout : layout_ok container s1 live1 (with_thread ls o) pools1;
  bt_vacant : vacant container ls the_threads o;
  bt_pos : 0 < o;
  bt_kept : bodies_kept container s ls s1 o;
  bt_static : rt_object_is_systemobject s1 o = Some static;
  bt_pools : pools1 = if static then pools else <[o := p]> pools;
  bt_stack : 0 < p /\ 72 <= n /\ p + n < 4294967296;
  bt_apart : o + 128 <= p \/ p + n <= o;
  bt_free : forall a, p <= a < p + n -> ~ protected container (obj_heap s1) live1 (with_thread ls o) a /\
    forall i x, i ∈ table -> x ∈ with_thread ls o (oi_type i) -> ~ body_byte i x a
}.

Section Blank.
Context (s1 : Objects) (live1 : Live) (pools1 : Pools) (o p n : Z) (static : bool).
Hypothesis Hb : blank_thread s1 live1 pools1 o p n static.

Lemma blank_new : o ∉ ls RT_Object_Class_Thread.
Proof. intros Ho. pose proof (bt_vacant _ _ _ _ _ _ _ Hb the_threads o (threads_in_table container) Ho) as [H|[H|(_ & H & _)]];
  try discriminate H; change (object_size the_threads) with 128 in H; lia. Qed.

Lemma blank_in i x : i ∈ table -> x ∈ ls (oi_type i) -> x <> o /\ (x ∈ with_thread ls o (oi_type i)) /\ x <> thread_timer o /\
  (x + object_size i <= o \/ o + 128 <= x).
Proof.
  intros Hi Hx. pose proof (size_pos _ _ Hi) as Hs.
  assert (Hap : x + object_size i <= o \/ o + 128 <= x).
  { destruct (bt_vacant _ _ _ _ _ _ _ Hb i x Hi Hx) as [H|[H|(_ & H & _)]]; [left | right | discriminate H]; exact H. }
  split; [lia|]. split; [|split; [unfold thread_timer; lia | exact Hap]].
  unfold with_thread, set_class. destruct (Z.eqb_spec (oi_type i) RT_Object_Class_Thread) as [E|]; [rewrite <- E; right|]; exact Hx.
Qed.

Lemma blank_self : o ∈ with_thread ls o (oi_type the_threads).
Proof. unfold with_thread, set_class. cbn. left. Qed.

Lemma blank_field a : o + 20 <= a < o + 76 \/ o + 96 <= a < o + 128 -> ~ protected container (obj_heap s1) live1 (with_thread ls o) a.
Proof.
  intros Ha. apply (body_free _ _ _ _ the_threads o a (bt_layout _ _ _ _ _ _ _ Hb) (threads_in_table container) blank_self); [|lia].
  right. unfold SIZEOF_OBJECT, TIMER_OFFSET. change (object_size the_threads) with 128. lia.
Qed.

(** The fields, the frame and the two words behind the timer. *)
Lemma blank_write m' :
  (forall a, (a < o + 28 \/ o + 48 <= a) -> (a < o + 120 \/ o + 128 <= a) -> (a < p \/ p + n <= a) -> load8 m' a = load8 (obj_mem s1) a) ->
  blank_thread (on_memory s1 (fun _ => m')) live1 pools1 o p n static.
Proof.
  intros Hm. pose proof (bt_layout _ _ _ _ _ _ _ Hb) as Hla. split; try apply Hb.
  - apply lay_write; [exact Hla|]. intros a Ha. apply Hm.
    + destruct (Z.lt_ge_cases a (o + 28)), (Z.le_gt_cases (o + 48) a); auto. exfalso. apply (blank_field a); [lia | exact Ha].
    + destruct (Z.lt_ge_cases a (o + 120)), (Z.le_gt_cases (o + 128) a); auto. exfalso. apply (blank_field a); [lia | exact Ha].
    + destruct (Z.lt_ge_cases a p), (Z.le_gt_cases (p + n) a); auto. destruct (bt_free _ _ _ _ _ _ _ Hb a ltac:(lia)). contradiction.
  - intros i x a Hi Hx Hxo Ha. destruct (blank_in i x Hi Hx) as (_ & Hx' & _ & Hap).
    rewrite <- (bt_kept _ _ _ _ _ _ _ Hb i x a Hi Hx Hxo Ha). pose proof (size_pos _ _ Hi).
    assert (Hout : a < o \/ o + 128 <= a) by (unfold body_byte, SIZEOF_OBJECT in Ha; lia).
    change (load8 m' a = load8 (obj_mem s1) a). apply Hm; try lia.
    destruct (Z.lt_ge_cases a p), (Z.le_gt_cases (p + n) a); auto.
    destruct (bt_free _ _ _ _ _ _ _ Hb a ltac:(lia)) as [_ Hf]. destruct (Hf i x Hi Hx' Ha).
  - rewrite <- (bt_static _ _ _ _ _ _ _ Hb). unfold rt_object_is_systemobject. destruct (o =? 0); [reflexivity|].
    unfold object_type. change (obj_mem (on_memory s1 (fun _ => m'))) with m'. rewrite Hm; [reflexivity | lia | lia |].
    pose proof (bt_apart _ _ _ _ _ _ _ Hb). lia.
  - intros a Ha. destruct (bt_free _ _ _ _ _ _ _ Hb a Ha) as [H1 H2]. split; [|exact H2]. intros Hp. apply H1.
    destruct Hp as [b Hc | z Hz | z b Hz Hn | b Hc Hn];
      [apply prot_container | apply prot_type | apply (prot_node _ _ _ _ z) | apply prot_heap]; assumption.
Qed.

(** The timer inside the block. *)
Lemma timer_place : vacant container (with_thread ls o) the_timers (thread_timer o).
Proof.
  intros j x Hj Hx. unfold with_thread, set_class in Hx. destruct (Z.eqb_spec (oi_type j) RT_Object_Class_Thread) as [E|E].
  - destruct (table_apart container j the_threads Hj (threads_in_table container)) as [->|[Hne _]]; [|contradiction].
    apply elem_of_cons in Hx as [->|Hx]; [right; right; unfold inside; split_ands; reflexivity|].
    destruct (blank_in the_threads x Hj Hx) as (_ & _ & _ & H). change (object_size the_threads) with 128 in *.
    change (object_size the_timers) with 44. unfold thread_timer. lia.
  - destruct (blank_in j x Hj Hx) as (_ & _ & _ & H). pose proof (size_pos _ _ Hj).
    change (object_size the_timers) with 44. unfold thread_timer. lia.
Qed.

Lemma timer_region : region container (obj_heap s1) live1 (thread_timer o) (object_size the_timers).
Proof.
  apply (region_weaken _ _ _ o (object_size the_threads)).
  - apply (la_region _ _ _ _ _ (bt_layout _ _ _ _ _ _ _ Hb)); [apply threads_in_table | apply blank_self].
  - unfold thread_timer. lia.
  - change (object_size the_timers) with 44. change (object_size the_threads) with 128. unfold thread_timer. lia.
  - change (object_size the_timers) with 44. lia.
Qed.

Lemma timer_pools : pools_clear live1 pools1 (thread_timer o) (object_size the_timers).
Proof.
  intros o' q m Hq Hl. destruct (la_pool _ _ _ _ _ (bt_layout _ _ _ _ _ _ _ Hb) _ _ Hq) as [_ (m' & _ & Hl' & Hcl)].
  assert (m' = m) as -> by congruence. specialize (Hcl the_threads o (threads_in_table container) blank_self).
  change (object_size the_threads) with 128 in Hcl. change (object_size the_timers) with 44. unfold thread_timer. lia.
Qed.

Lemma timer_apart i x : i ∈ table -> x ∈ with_thread ls o (oi_type i) -> x <> thread_timer o.
Proof. intros Hi Hx ->. pose proof (size_pos _ _ Hi).
  destruct (timer_place i _ Hi Hx) as [H1|[H1|(_ & _ & H1)]]; [lia | change (object_size the_timers) with 44 in H1; lia|]. unfold TIMER_OFFSET in H1. lia.
Qed.

Lemma blank_timer fuel name : (length (ls RT_Object_Class_Timer) < fuel)%nat ->
  exists s2, rt_object_init container fuel s1 (thread_timer o) RT_Object_Class_Timer name = Some s2 /\
    layout_ok container s2 live1 (with_timer (with_thread ls o) (thread_timer o)) pools1 /\
    bodies_kept container s1 (with_thread ls o) s2 (thread_timer o) /\
    rt_object_is_systemobject s2 (thread_timer o) = Some true /\
    (forall a, p <= a < p + n -> load8 (obj_mem s2) a = load8 (obj_mem s1) a).
Proof.
  intros Hf. pose proof (bt_layout _ _ _ _ _ _ _ Hb) as Hla. pose proof (timers_in_table container) as Hi.
  destruct (lay_init container s1 live1 (with_thread ls o) pools1 Hla fuel the_timers (thread_timer o) name Hi
    timer_region timer_place timer_pools Hf) as (s2 & E & Hla2 & _ & Hfr & Hsys).
  exists s2. split; [exact E|]. split; [exact Hla2|]. split; [|split; [exact Hsys|]].
  - apply (frame_kept container s1 live1 (with_thread ls o) pools1 Hla s2 live1 the_timers (thread_timer o)); auto.
    right. apply timer_place.
  - intros a Ha. apply Hfr. destruct (bt_free _ _ _ _ _ _ _ Hb a Ha) as [Hp _]. pose proof (bt_apart _ _ _ _ _ _ _ Hb).
    split; [|split].
    + destruct (Z.lt_ge_cases a container), (Z.le_gt_cases (container + 144) a); auto. destruct Hp. apply prot_container. lia.
    + unfold thread_timer, SIZEOF_OBJECT. lia.
    + intros z Hz. destruct (Z.lt_ge_cases a (list_node z)), (Z.le_gt_cases (list_node z + 8) a); auto.
      destruct Hp. apply (prot_node _ _ _ _ z); [exact Hz | lia].
Qed.

Lemma with_thread_in i x : i ∈ table -> x ∈ with_thread ls o (oi_type i) -> (i = the_threads /\ x = o) \/ (x ∈ ls (oi_type i) /\ x <> o).
Proof.
  intros Hi Hx. assert (H : (i = the_threads /\ x = o) \/ x ∈ ls (oi_type i)).
  { unfold with_thread, set_class in Hx. destruct (Z.eqb_spec (oi_type i) RT_Object_Class_Thread) as [E|]; [|auto].
    destruct (table_apart container i the_threads Hi (threads_in_table container)) as [->|[Hne _]]; [|contradiction].
    apply elem_of_cons in Hx as [->|Hx]; auto. }
  destruct H as [H|H]; [left; exact H | right; split; [exact H | apply (blank_in i x Hi H)]].
Qed.

(** No object's own bytes are in the header of the timer. *)
Lemma body_not_timer i x a : i ∈ table -> x ∈ with_thread ls o (oi_type i) -> body_byte i x a -> a < o + 76 \/ o + 96 <= a.
Proof.
  intros Hi Hx Ha. pose proof (size_pos _ _ Hi). unfold body_byte, SIZEOF_OBJECT, TIMER_OFFSET in Ha.
  destruct (with_thread_in i x Hi Hx) as [[-> ->]|[Hx' _]]; [lia|]. destruct (blank_in i x Hi Hx') as (_ & _ & _ & H1). lia.
Qed.

(** The system with the new thread, whose fields are set. *)
Lemma blank_sys k' s' priority :
  started begun k k' (key o) priority static -> stack_addr (obj_mem s1) o = p ->
  layout_ok container s' live1 (with_timer (with_thread ls o) (thread_timer o)) pools1 ->
  bodies_kept container s1 (with_thread ls o) s' (thread_timer o) ->
  rt_object_is_systemobject s' (thread_timer o) = Some true ->
  sys_ok (mk_sys k' s' live1 (with_timer (with_thread ls o) (thread_timer o)) pools1).
Proof.
  intros [S1 S2 S3 S4 S5 S6 S7 S8] Hst Hla Hk Hsys. pose proof (yo_threads _ _ Hy) as Hth. pose proof (bt_pos _ _ _ _ _ _ _ Hb) as Hpos.
  pose proof (threads_in_table container) as Ht.
  assert (Hty : forall i x, i ∈ table -> x ∈ ls (oi_type i) -> rt_object_is_systemobject s' x = rt_object_is_systemobject s x).
  { intros i x Hi Hx. destruct (blank_in i x Hi Hx) as (Hxo & Hx' & Hxt & _).
    rewrite (kept_type container s1 (with_thread ls o) s' (thread_timer o) i x); auto.
    apply (kept_type container s ls s1 o i x); auto. apply Hb. }
  assert (Hot : o <> thread_timer o) by (unfold thread_timer; lia).
  assert (Hself : rt_object_is_systemobject s' o = Some static).
  { rewrite (kept_type container s1 (with_thread ls o) s' (thread_timer o) the_threads o); auto; [apply Hb | apply blank_self]. }
  assert (Hkey : forall x, x ∈ ls RT_Object_Class_Thread -> key x <> key o).
  { intros x Hx. pose proof (reg_pos container y Hy the_threads x Ht Hx). destruct (blank_in the_threads x Ht Hx). unfold key. lia. }
  assert (Hpo : pools1 !! o = if static then None else Some p).
  { rewrite (bt_pools _ _ _ _ _ _ _ Hb). destruct static; [|apply lookup_insert_eq].
    apply (vacant_unpooled container y Hy the_threads); [exact Ht | apply Hb]. }
  assert (Hpx : forall x, x <> o -> pools1 !! x = pools !! x).
  { intros x Hx. rewrite (bt_pools _ _ _ _ _ _ _ Hb). destruct static; [reflexivity|]. apply lookup_insert_ne. congruence. }
  assert (Hstack : forall x, x ∈ with_thread ls o RT_Object_Class_Thread -> stack_addr (obj_mem s') x = stack_addr (obj_mem s1) x).
  { intros x Hx. apply (kept_stack container s1 (with_thread ls o) s' (thread_timer o)); auto. apply (timer_apart the_threads); auto. }
  split; cbn [sy_kernel sy_objects sy_live sy_ls sy_pools]; [exact S1 | rewrite S2; apply Hy | exact Hla | |].
  - intros l c x t El Htl. rewrite S4 in Htl. pose proof (yo_waits _ _ Hy l c x t El Htl) as Hx.
    unfold with_timer, with_thread, set_class. destruct l; try discriminate El; injection El as <- <-; exact Hx.
  - split.
    + intros x Hx. change (x ∈ with_thread ls o (oi_type the_threads)) in Hx.
      destruct (with_thread_in the_threads x Ht Hx) as [[_ ->]|[Hx' Hxo]].
      * split; [rewrite S7; exact Hself | rewrite S6; cbn; split; [left | exact Hsys] | rewrite S7, Hpo, Hstack, Hst by exact Hx; reflexivity].
      * destruct (ti_object _ _ _ _ Hth x Hx') as [A1 A2 A3]. pose proof (Hkey x Hx') as Hkx.
        split; rewrite (S5 (key x) Hkx).
        -- rewrite (Hty the_threads) by assumption. exact A1.
        -- destruct (_ =? _); [|split; [right; apply A2 | rewrite (Hty the_timers); [apply A2 | apply timers_in_table | apply A2]]].
           intros [E|Hin]%elem_of_cons; [unfold thread_timer in E; lia | apply A2, Hin].
        -- rewrite Hpx, A3, Hstack by assumption. destruct (systemobject (threads k (key x))); [reflexivity|]. f_equal.
           symmetry. apply (kept_stack container s ls s1 o); auto. apply Hb.
    + intros t Hl. change (Z.of_nat t ∈ o :: ls RT_Object_Class_Thread). destruct (decide (t = key o)) as [->|Hne].
      * rewrite key_of by lia. left.
      * right. apply (ti_live _ _ _ _ Hth). rewrite <- S5 by exact Hne. exact Hl.
    + intros t Hin. rewrite S4 in Hin. right. apply (ti_defunct _ _ _ _ Hth t Hin).
    + intros c Hc. rewrite S3 in Hc. right. apply (ti_current _ _ _ _ Hth c Hc).
    + intros x q Hx. destruct (decide (x = o)) as [->|Hne].
      * rewrite Hself. rewrite Hpo in Hx. destruct static; [discriminate | reflexivity].
      * rewrite Hpx in Hx by exact Hne. destruct (pools_dynamic container y Hy x q Hx) as [(j & Hj & Hxj) Hs].
        rewrite (Hty j) by assumption. exact Hs.
Qed.

(** A flag in the header of the timer. *)
Lemma timer_flag_kept s2 v : bodies_kept container s1 (with_thread ls o) s2 (thread_timer o) ->
  bodies_kept container s1 (with_thread ls o) (set_flag s2 (thread_timer o) v) (thread_timer o).
Proof.
  intros Hk i x a Hi Hx Hne Ha. rewrite <- (Hk i x a Hi Hx Hne Ha). pose proof (body_not_timer i x a Hi Hx Ha).
  change (load8 (store8 (obj_mem s2) (thread_timer o + 9) v) a = load8 (obj_mem s2) a). rewrite load8_store8.
  destruct (Z.eqb_spec a (thread_timer o + 9)); [unfold thread_timer in *; lia | reflexivity].
Qed.
End Blank.

Lemma on_memory_const_twice s1 m f : on_memory (on_memory s1 (fun _ => m)) f = on_memory s1 (fun _ => f m).
Proof. destruct s1 as [[]]. reflexivity. Qed.

Context (texit hook : Z).

(** What a creating call leaves of the thread at [o]. *)
Record new_thread (y' : Sys) (o p n entry parameter priority : Z) (static : bool) : Prop := {
  nt_ok : sys_ok y';
  nt_registered : sy_ls y' = with_timer (with_thread ls o) (thread_timer o);
  nt_started : started begun k (sy_kernel y') (key o) priority static;
  nt_frame : exists sp, load32 (obj_mem (sy_objects y')) (o + 28) = sp /\ p <= sp /\ sp + 64 <= p + n /\
    first_frame (obj_mem (sy_objects y')) sp entry parameter texit
}.

Lemma thread_rest_ok fuel s1 live1 pools1 o p n static entry parameter priority tick :
  blank_thread s1 live1 pools1 o p n static -> (length (ls RT_Object_Class_Timer) < fuel)%nat -> 0 <= priority < 32 ->
  exists k' s', _rt_thread_init container texit hook fuel k s1 o entry parameter p n priority tick static = Some (k', s') /\
    new_thread (mk_sys k' s' live1 (with_timer (with_thread ls o) (thread_timer o)) pools1) o p n entry parameter priority static.
Proof.
  intros Hb Hf Hpr. unfold _rt_thread_init. pose proof (bt_pos _ _ _ _ _ _ _ Hb) as Hpos. pose proof (bt_apart _ _ _ _ _ _ _ Hb) as Hap.
  destruct (bt_stack _ _ _ _ _ _ _ Hb) as (Hp & Hn & He).
  destruct (stack_init_spec texit s1 o entry parameter p n ltac:(lia) Hp Hn He Hap) as (m2 & sp & E2 & Hsp1 & Hsp2 & Hff & Hl28 & Hst & Hm2).
  rewrite E2. cbn [mbind option_bind]. unfold u8. rewrite (Z.mod_small priority 256) by lia.
  destruct (fresh_key o ltac:(lia) (blank_new _ _ _ _ _ _ _ Hb)) as (Hu & Hl & Hc).
  destruct (thread_init_spec begun k (key o) priority (u32 tick) static (yo_kernel _ _ Hy) Hu Hl Hc Hpr) as (k' & Ek & Hs). rewrite Ek.
  cbn [mbind option_bind]. rewrite on_memory_const_twice. set (m3 := store32 (store32 m2 (o + 120) 0) (o + 124) 0).
  assert (Hm3 : forall a, a < o + 120 \/ o + 128 <= a -> load8 m3 a = load8 m2 a).
  { intros a Ha. unfold m3. rewrite !load8_store32_other by lia. reflexivity. }
  assert (Hb3 : blank_thread (on_memory s1 (fun _ => m3)) live1 pools1 o p n static).
  { apply blank_write; [exact Hb|]. intros a H1 H2 H3. rewrite Hm3 by exact H2. apply Hm2; assumption. }
  destruct (blank_timer _ _ _ _ _ _ _ Hb3 fuel o Hf) as (s4 & E4 & Hla4 & Hk4 & Hty4 & Hstack4). rewrite E4. cbn [mbind option_bind].
  set (v := clear_bits 0 RT_TIMER_FLAG_ACTIVATED).
  assert (Hv : forall s', obj_heap (RT_OBJECT_HOOK_CALL hook o s') = obj_heap s') by (intros s'; unfold RT_OBJECT_HOOK_CALL; destruct (hook =? 0); reflexivity).
  eexists k', _. split; [reflexivity|]. set (s5 := set_flag s4 (thread_timer o) v). set (s6 := RT_OBJECT_HOOK_CALL hook o s5).
  assert (Em : obj_mem s6 = store8 (obj_mem s4) (thread_timer o + 9) v) by (unfold obj_mem, s6; rewrite Hv; reflexivity).
  assert (Hreg : registered container (with_timer (with_thread ls o) (thread_timer o)) (thread_timer o)).
  { exists the_timers. split; [apply timers_in_table | left]. }
  assert (Hsame : forall a, p <= a < p + n \/ a = o + 28 \/ a = o + 29 \/ a = o + 30 \/ a = o + 31 -> load8 (obj_mem s6) a = load8 m2 a).
  { intros a Ha. rewrite Em, load8_store8. unfold thread_timer. destruct (Z.eqb_spec a (o + 76 + 9)); [lia|].
    assert (Ha' : p <= a < p + n \/ o + 20 <= a < o + 76) by lia. clear Ha. rewrite <- (Hm3 a) by lia. destruct Ha' as [Ha|Ha].
    - apply Hstack4, Ha.
    - apply (Hk4 the_threads o); [apply threads_in_table | apply blank_self | unfold thread_timer; lia|].
      right. unfold SIZEOF_OBJECT, TIMER_OFFSET. change (object_size the_threads) with 128. lia. }
  split; cbn [sy_kernel sy_objects sy_ls]; [| reflexivity | exact Hs |].
  - apply (blank_sys _ _ _ _ _ _ _ Hb3 k' s6 priority Hs).
    + rewrite <- Hst. unfold stack_addr. apply same_on_load32. intros a Ha. apply Hm3. lia.
    + apply (lay_same container s5); [|apply Hv]. apply lay_flag; assumption.
    + intros i x a Hi Hx Hne Ha. unfold obj_mem, s6. rewrite Hv. apply (timer_flag_kept _ _ _ _ _ _ _ Hb3 s4 v Hk4 i x a Hi Hx Hne Ha).
    + rewrite <- Hty4. unfold rt_object_is_systemobject, object_type. rewrite Em, load8_store8.
      destruct (Z.eqb_spec (thread_timer o + 8) (thread_timer o + 9)); [lia | reflexivity].
  - exists sp. split; [rewrite <- Hl28; apply same_on_load32; intros a Ha; apply Hsame; lia|]. split; [exact Hsp1|]. split; [exact Hsp2|].
    destruct Hff as [F1 F2 F3 F4 F5].
    split; [exact F1 | rewrite <- F2 | rewrite <- F3 | rewrite <- F4 | rewrite <- F5]; apply same_on_load32; intros a Ha; apply Hsame; lia.
Qed.

(** [rt_thread_init]: control block and stack are the caller's, in the static memory or in blocks of the heap. *)
Lemma thread_init_ok fuel o name p n entry parameter priority tick :
  region container (obj_heap s) live o 128 -> vacant container ls the_threads o -> pools_clear live pools o 128 -> 0 < o ->
  0 < p -> 72 <= n -> p + n < 4294967296 -> o + 128 <= p \/ p + n <= o ->
  (forall a, p <= a < p + n -> ~ protected container (obj_heap s) live (with_thread ls o) a /\
     forall i x, i ∈ table -> x ∈ with_thread ls o (oi_type i) -> ~ body_byte i x a) ->
  (length (ls RT_Object_Class_Thread) < fuel)%nat -> (length (ls RT_Object_Class_Timer) < fuel)%nat -> 0 <= priority < 32 ->
  exists k' s', rt_thread_init container texit hook fuel k s o name entry parameter p n priority tick = Some (k', s', RT_EOK) /\
    new_thread (mk_sys k' s' live (with_timer (with_thread ls o) (thread_timer o)) pools) o p n entry parameter priority true.
Proof.
  intros Hr Hv Hp Ho Hp1 Hn He Hap Hfree Hf1 Hf2 Hpr. unfold rt_thread_init.
  destruct (Z.eqb_spec o 0); [lia|]. destruct (Z.eqb_spec p 0); [lia|]. cbn [orb].
  pose proof (threads_in_table container) as Ht.
  destruct (lay_init container s live ls pools (yo_layout _ _ Hy) fuel the_threads o name Ht Hr Hv Hp Hf1) as (s1 & E & Hla & Eh & Hfr & Hsys).
  change (oi_type the_threads) with RT_Object_Class_Thread in E. rewrite E. cbn [mbind option_bind].
  assert (Hb : blank_thread s1 live pools o p n true).
  { split; auto.
    - apply (frame_kept container s live ls pools (yo_layout _ _ Hy) s1 live the_threads o); auto.
    - intros a Ha. destruct (Hfree a Ha) as [H1 H2]. split; [|exact H2]. intros H3. apply H1.
      destruct H3 as [b Hc | z Hz | z b Hz Hb | b Hc Hb];
        [apply prot_container | apply prot_type | apply (prot_node _ _ _ _ z) | apply prot_heap]; try assumption. rewrite <- Eh. exact Hc. }
  destruct (thread_rest_ok fuel _ _ _ _ _ _ _ entry parameter priority tick Hb Hf2 Hpr) as (k' & s' & E' & H'). rewrite E'.
  exists k', s'. split; [reflexivity | exact H'].
Qed.

Record allocated (s1 : Objects) (o : Z) : Prop := {
  al_pos : 0 < o;
  al_block : live !! o = None;
  al_vacant : vacant container ls the_threads o;
  al_dynamic : rt_object_is_systemobject s1 o = Some false;
  al_layout : layout_ok container s1 (<[o := 128]> live) (with_thread ls o) pools;
  al_kept : bodies_kept container s ls s1 o
}.

(** [rt_thread_create]: 0 when there is no memory, and then everything is as before. *)
Lemma thread_allocated name : exists s1 o, rt_object_allocate container (rt_interrupt_nest k) s RT_Object_Class_Thread name = Some (s1, o) /\
  (if o =? 0 then sys_ok (y <| sy_objects := s1 |>)
   else allocated s1 o).
Proof.
  rewrite (yo_nest _ _ Hy). pose proof (threads_in_table container) as Ht.
  destruct (lay_allocate container s live ls pools (yo_layout _ _ Hy) the_threads name Ht) as (s1 & o & E & H).
  exists s1, o. split; [exact E|]. destruct (Z.eqb_spec o 0) as [|Hne]; [apply (same_heap_ok container y Hy), H|].
  destruct H as (Hla & _ & Hn & Hcl & Hfr & Hsys).
  pose proof (la_objects _ _ _ _ _ Hla) as Hok.
  assert (Hreg : o ∈ with_thread ls o (oi_type the_threads)) by (unfold with_thread, set_class; cbn; left).
  pose proof (placed_range _ _ _ _ Hok o (registered_class _ _ _ _ Hok the_threads o Ht Hreg)) as Ro.
  split; auto; [lia | apply clear_vacant, Hcl |].
  apply (frame_kept container s live ls pools (yo_layout _ _ Hy) s1 (<[o := object_size the_threads]> live) the_threads o); auto.
  - right. apply clear_vacant, Hcl.
  - intros j x p m Hj Hx Hxo Hp _ _. rewrite lookup_insert_ne; [exact Hp | congruence].
  - intros a Ha (j & x & Hj & Hx & Hxo & Hb) Hst. apply Hfr; auto. specialize (Hcl j x Hj Hx).
    unfold body_byte, SIZEOF_OBJECT in Hb. pose proof (size_pos _ _ Hj). lia.
Qed.

Section Stack.
Context (s1 : Objects) (o : Z).
Hypothesis Ha : allocated s1 o.

Lemma allocated_new : o ∉ ls RT_Object_Class_Thread.
Proof.
  intros Ho. pose proof (al_vacant _ _ Ha the_threads o (threads_in_table container) Ho) as [H|[H|(_ & H & _)]];
    try discriminate H; change (object_size the_threads) with 128 in H; lia.
Qed.

Lemma allocated_in i x : i ∈ table -> x ∈ ls (oi_type i) -> x <> o /\ x ∈ with_thread ls o (oi_type i).
Proof.
  intros Hi Hx. pose proof (size_pos _ _ Hi) as Hs. split.
  - intros ->. destruct (al_vacant _ _ Ha i o Hi Hx) as [H|[H|(_ & H & _)]]; try discriminate H;
      [|change (object_size the_threads) with 128 in H]; lia.
  - unfold with_thread, set_class. destruct (Z.eqb_spec (oi_type i) RT_Object_Class_Thread) as [E|]; [rewrite <- E; right|]; exact Hx.
Qed.

(** Without a stack the control block goes back. *)
Lemma thread_given_up s2 : obj_heap s2 = obj_heap s1 ->
  exists s3, rt_object_delete (rt_interrupt_nest k) s2 o = Some s3 /\ sys_ok (y <| sy_objects := s3 |>).
Proof.
  intros Eh. pose proof (threads_in_table container) as Ht. pose proof (al_pos _ _ Ha). rewrite (yo_nest _ _ Hy).
  assert (Hreg : o ∈ with_thread ls o (oi_type the_threads)) by (unfold with_thread, set_class; cbn; left).
  pose proof (lay_same container _ _ _ _ (al_layout _ _ Ha) s2 Eh) as Hla.
  assert (Hsys : rt_object_is_systemobject s2 o = Some false).
  { rewrite <- (al_dynamic _ _ Ha). unfold rt_object_is_systemobject, obj_mem. rewrite Eh. reflexivity. }
  assert (Hno : forall j b, j ∈ table -> b ∈ with_thread ls o (oi_type j) -> ~ inside the_threads o j b).
  { intros j b Hj Hb (_ & Ej & ->). unfold with_thread in Hb. rewrite set_class_other in Hb by (rewrite Ej; discriminate).
    pose proof (size_pos _ _ Hj). destruct (al_vacant _ _ Ha j _ Hj Hb) as [H1|[H1|(_ & H1 & _)]]; try discriminate H1;
      unfold TIMER_OFFSET in H1; change (object_size the_threads) with 128 in *; lia. }
  destruct (lay_delete container s2 _ _ _ Hla the_threads o Ht Hreg (vacant_unpooled container y Hy _ _ Ht (al_vacant _ _ Ha)) Hsys Hno)
    as (s3 & E & Hla3 & _ & Hfr). exists s3. split; [exact E|].
  rewrite (delete_insert_id live o 128) in Hla3 by apply Ha. unfold with_thread in Hla3.
  change (without (set_class ls RT_Object_Class_Thread (o :: ls RT_Object_Class_Thread)) the_threads o)
    with (without (set_class ls (oi_type the_threads) (o :: ls (oi_type the_threads))) the_threads o) in Hla3.
  rewrite (added_removed y the_threads o allocated_new) in Hla3.
  split; cbn [sy_kernel sy_objects sy_live sy_ls sy_pools modify]; try apply Hy; [exact Hla3|].
  apply (same_threads container y Hy); [auto | apply (pools_dynamic container y Hy)|].
  intros i x a Hi Hx Hb. destruct (allocated_in i x Hi Hx) as [Hxo Hx'].
  rewrite <- (al_kept _ _ Ha i x a Hi Hx Hxo Hb). unfold obj_mem at 2. rewrite <- Eh.
  apply (frame_kept container s2 (<[o := 128]> live) (with_thread ls o) pools Hla s3 (delete o (<[o := 128]> live)) the_threads o) with i x; auto.
  intros j z p m. apply (other_block container s2 (<[o := 128]> live) (with_thread ls o) pools Hla the_threads o); auto.
Qed.

(** The stack is a block of its own. *)
Lemma stack_block n h' p : 72 <= n -> p <> 0 -> 
  layout_ok container (s1 <| obj_heap := h' |>) (<[p := n]> (<[o := 128]> live)) (with_thread ls o) pools ->
  clear_of container (with_thread ls o) p n -> (forall o', pools !! o' <> Some p) -> (<[o := 128]> live) !! p = None ->
  (forall a, steady (obj_heap s1) (<[o := 128]> live) (<[p := n]> (<[o := 128]> live)) a -> load8 (memory h') a = load8 (obj_mem s1) a) ->
  blank_thread (s1 <| obj_heap := h' |>) (<[p := n]> (<[o := 128]> live)) (<[o := p]> pools) o p n false.
Proof.
  intros Hn Hp Hla Hcl Hpo Hnew Hfr. pose proof (threads_in_table container) as Ht.
  assert (Hreg : o ∈ with_thread ls o (oi_type the_threads)) by (unfold with_thread, set_class; cbn; left).
  assert (Hkeep : forall q m, (<[o := 128]> live) !! q = Some m -> (<[p := n]> (<[o := 128]> live)) !! q = Some m).
  { intros q m Hq. rewrite lookup_insert_ne; [exact Hq | congruence]. }
  assert (Hbody : forall i x a, i ∈ table -> x ∈ with_thread ls o (oi_type i) -> body_byte i x a -> load8 (memory h') a = load8 (obj_mem s1) a).
  { intros i x a Hi Hx Hb. pose proof (size_pos _ _ Hi). apply Hfr.
    apply (region_steady container (obj_heap s1) (<[o := 128]> live) _ x (object_size i)); [apply (la_region _ _ _ _ _ (al_layout _ _ Ha)); auto | |].
    - unfold body_byte, SIZEOF_OBJECT in Hb. lia.
    - intros q m Hq _ _. apply Hkeep, Hq. }
  pose proof (la_objects _ _ _ _ _ Hla) as Hok. destruct (oo_heap _ _ _ _ Hok) as [bs Hst].
  destruct (live_region _ _ _ _ _ Hst (lookup_insert_eq _ _ _)) as (_ & R1 & R2). pose proof (oo_low _ _ _ _ Hok) as [Hc1 Hc2].
  pose proof (ok_shape _ _ (st_heap _ _ _ Hst)) as Hs. pose proof (sh_end _ _ Hs). pose proof (sh_space _ _ Hs). unfold HDR in *.
  split; try apply Ha.
  - apply (lay_pool container _ _ _ _ Hla o p n); auto; [exists the_threads; auto | lia | apply lookup_insert_eq].
  - intros i x a Hi Hx Hxo Hb. destruct (allocated_in i x Hi Hx) as [_ Hx'].
    rewrite <- (al_kept _ _ Ha i x a Hi Hx Hxo Hb). apply (Hbody i x a Hi Hx' Hb).
  - rewrite <- (al_dynamic _ _ Ha). unfold rt_object_is_systemobject. destruct (o =? 0); [reflexivity|]. unfold object_type.
    change (obj_mem (s1 <| obj_heap := h' |>)) with (memory h'). rewrite (Hbody the_threads o (o + 8)); auto. left. reflexivity.
  - reflexivity.
  - split; [lia|]. split; lia.
  - specialize (Hcl the_threads o Ht Hreg). exact Hcl.
  - intros a Hin. split.
    + intros Hpr. apply (block_free container _ _ _ Hok p n a (lookup_insert_eq _ _ _)) in Hpr; [lia|].
      intros x (i & Hi & Hx). pose proof (size_pos _ _ Hi). specialize (Hcl i x Hi Hx). unfold SIZEOF_OBJECT. lia.
    + intros i x Hi Hx Hb. specialize (Hcl i x Hi Hx). pose proof (size_pos _ _ Hi). unfold body_byte, SIZEOF_OBJECT in Hb. lia.
Qed.

Lemma thread_stack_ok n : 72 <= n <= SIZE_LIMIT ->
  (exists s2 s3, RT_KERNEL_MALLOC k s1 n = Some (s2, 0) /\ rt_object_delete (rt_interrupt_nest k) s2 o = Some s3 /\
     sys_ok (y <| sy_objects := s3 |>)) \/
  (exists s2 p, RT_KERNEL_MALLOC k s1 n = Some (s2, p) /\ p <> 0 /\ live !! p = None /\
     blank_thread s2 (<[p := n]> (<[o := 128]> live)) (<[o := p]> pools) o p n false).
Proof.
  intros Hn. unfold RT_KERNEL_MALLOC. assert (Hnest : rt_interrupt_nest k = 0) by apply Hy. rewrite Hnest.
  destruct (lay_malloc container s1 _ _ _ (al_layout _ _ Ha) n ltac:(lia)) as
    [E|(h' & p & E & Hp & Hnew & Hla & _ & Hcl & Hpo & Hfr)]; rewrite E; cbn [mbind option_bind].
  - left. pose (s2 := s1 <| obj_heap := obj_heap s1 |>).
    destruct (thread_given_up s2 eq_refl) as (s3 & E3 & H3).
    rewrite Hnest in E3. eexists _, s3. split; [reflexivity|]. split; [exact E3 | exact H3].
  - right. exists (s1 <| obj_heap := h' |>), p. split; [reflexivity|]. split; [exact Hp|].
    split; [apply lookup_insert_None in Hnew; tauto|]. apply stack_block; auto; lia.
Qed.
End Stack.

Lemma thread_create_ok fuel name entry parameter stack_size priority tick :
  72 <= stack_size <= SIZE_LIMIT -> 0 <= priority < 32 -> (length (ls RT_Object_Class_Timer) < fuel)%nat ->
  exists k' s' o, rt_thread_create container texit hook fuel k s name entry parameter stack_size priority tick = Some (k', s', o) /\
    (if o =? 0 then k' = k /\ sys_ok (y <| sy_objects := s' |>)
     else exists p, 0 < o /\ live !! o = None /\ live !! p = None /\
       new_thread (mk_sys k' s' (<[p := stack_size]> (<[o := 128]> live)) (with_timer (with_thread ls o) (thread_timer o)) (<[o := p]> pools))
         o p stack_size entry parameter priority false).
Proof.
  intros Hn Hpr Hf. unfold rt_thread_create. destruct (thread_allocated name) as (s1 & o & E & H). rewrite E. cbn [mbind option_bind].
  destruct (Z.eqb_spec o 0) as [->|Hne]; [exists k, s1, 0; cbn [Z.eqb] in *; auto|].
  rewrite u32_small by (unfold SIZE_LIMIT in Hn; lia).
  destruct (thread_stack_ok s1 o H stack_size Hn) as [(s2 & s3 & E2 & E3 & H3)|(s2 & p & E2 & Hp & Hlp & Hb)]; rewrite E2; cbn [mbind option_bind].
  - cbn [Z.eqb]. rewrite E3. exists k, s3, 0. cbn [Z.eqb]. auto.
  - destruct (Z.eqb_spec p 0); [contradiction|].
    destruct (thread_rest_ok fuel _ _ _ _ _ _ _ entry parameter priority tick Hb Hf Hpr) as (k' & s' & E' & H'). rewrite E'.
    exists k', s', o. split; [reflexivity|]. apply Z.eqb_neq in Hne. rewrite Hne. exists p. split_ands; auto; apply H.
Qed.
End Create.
End System.

(** ** The first frame of a thread *)

(** C38: The first frame of a thread whose stack has [stack_size] bytes from [stack_start]: it fills the sixteen words
    below the last address that is a multiple of 8, whatever the size, and the exception return of the first switch
    loads the entry, the parameter and the exit address from it.  It is inside the stack just when the size is at
    least 64 and the bytes the alignment costs; no caller checks that, and with a smaller size the words below the
    stack are overwritten. *)
Theorem stack_frame_bounds m entry parameter stack_start stack_size texit :
  0 < stack_start -> 0 < stack_size -> 64 <= stack_start + stack_size < 4294967296 ->
  exists m' sp, rt_hw_stack_init m entry parameter (u32 (stack_start + stack_size - 4)) texit = (m', sp) /\
    first_frame m' sp entry parameter texit /\ (stack_start <= sp <-> SIZEOF_STACK_FRAME + (stack_start + stack_size) mod 8 <= stack_size) /\
    sp + SIZEOF_STACK_FRAME <= stack_start + stack_size < sp + SIZEOF_STACK_FRAME + 8 /\
    (forall a, a < sp \/ sp + SIZEOF_STACK_FRAME <= a -> load8 m' a = load8 m a) /\
    (sp < stack_start -> load32 m' sp = 3735928559).
Proof.
  intros Hp Hn He. rewrite u32_small by lia.
  destruct (hw_stack_spec m entry parameter (stack_start + stack_size - 4) texit ltac:(lia) ltac:(lia)) as (m' & sp & E & Hsp & F & Hw & Hfr).
  replace (stack_start + stack_size - 4 + 4) with (stack_start + stack_size) in * by lia.
  pose proof (Z.mod_pos_bound (stack_start + stack_size) 8 ltac:(lia)). unfold SIZEOF_STACK_FRAME.
  exists m', sp. split_ands; auto; lia.
Qed.

Lemma stack_frame_bounds_witness :
  exists m' sp, rt_hw_stack_init no_heap.(memory) 9999 7 (u32 (1000 + 40 - 4)) 0 = (m', sp) /\ sp < 1000.
Proof.
  destruct (stack_frame_bounds no_heap.(memory) 9999 7 1000 40 0) as (m' & sp & E & _ & H & _); try lia.
  exists m', sp. split; [exact E|]. unfold SIZEOF_STACK_FRAME in H. change ((1000 + 40) mod 8) with 0 in H. lia.
Defined.
