(* ===== verification/LifeIdle.v ===== *)
(** * The idle thread buries the dead

    Every closed thread that is not yet buried is in the defunct list.  The idle thread
    takes it from there, and frees the stack and the control block of a dynamic one. *)

From S2P Require Import Prelude Kernel Scheduler Timer Thread Tick Ipc.
From S2P Require Import Memory Kservice Blocks Mem Heap Strings LinkedList Object Create Idle Layout Gentle Life LifeCalls LifeThreads.
From Stdlib Require Import FunctionalExtensionality.

(** ** The kernel's part *)

Lemma defunct_lists k t q l : kernel_inv k -> lists k Defunct = t :: q ->
  lists (tlist_remove k t) l = if decide (l = Defunct) then q else lists k l.
Proof.
  intros [[[[Hn Ho] _ _] _] _ _] Hd. assert (Hin : t ∈ lists k Defunct) by (rewrite Hd; left).
  cbn. destruct (decide (l = Defunct)) as [->|Hne].
  - rewrite Hd. apply filter_head. rewrite <- Hd. apply Hn.
  - apply filter_none. intros Hl. apply Hne, (Ho t); assumption.
Qed.

Lemma bury_inv k t q : kernel_inv k -> lists k Defunct = t :: q -> kernel_inv (tlist_remove k t).
Proof.
  intros Hi Hd. pose proof (fun l => defunct_lists k t q l Hi Hd) as El. pose proof Hi as [[[Hl [Hr Hb] Hth] Ht] Hc Htm].
  split; [split|exact Hc|exact Htm].
  - split; [apply tlist_remove_lists_ok, Hl | split; [exact Hr|] |].
    + intros p Hp. rewrite El. apply Hb, Hp.
    + intros u. destruct (Hth u) as [A1 A2 A3 A4 A5]. split; auto.
      * intros l [_ Hin]%elem_of_remove. apply A2, Hin.
      * intros Hs. change (threads (tlist_remove k t) u) with (threads k u) in *. rewrite El. apply A3, Hs.
  - apply (timers_ok_threads _ k); auto.
Qed.

Lemma exit_critical_inv k : kernel_inv k -> exists k', rt_exit_critical k = Some k' /\ kernel_inv k' /\
  (forall l, is_wait l = true \/ l = Defunct -> lists k' l = lists k l).
Proof.
  intros Hi. pose proof Hi as [_ Hcur _]. destruct (Hcur I) as [c Hc]. unfold rt_exit_critical. cbv zeta.
  destruct (_ <=? 0); [|eexists; split; [reflexivity|]; split; [apply lock_inv, Hi | reflexivity]].
  match goal with |- context [match rt_current_thread ?k0 with _ => _ end] =>
    assert (Hi2 : kernel_inv k0) by (do 2 apply lock_inv; exact Hi); change (rt_current_thread k0) with (rt_current_thread k);
    set (k1 := k0) in * end.
  rewrite Hc. destruct (schedule_kernel_ok _ k1 c (ki_ok _ _ Hi2) Hc) as (k' & c' & E & Hok' & Hf & Hc' & _).
  exists k'. split; [exact E|]. split.
  - apply (inv_after _ k1 k' c'); auto; [apply (sf_tick _ _ Hf) | apply grow_same, (sf_timer_list _ _ Hf)].
  - intros l Hl. pose proof (sf_lists _ _ Hf l) as H. destruct l; try (rewrite H; reflexivity). destruct Hl as [Hl|Hl]; discriminate Hl.
Qed.

Section System.
Context (container : Z).
Abbreviation table := (rt_object_container container).
Abbreviation sys_ok := (sys_state container True).
Abbreviation the_threads := (the_threads container).
Abbreviation the_timers := (the_timers container).

(** A dead thread that nothing refers to any more. *)
Record forgotten (k : Kernel) (ls : Registered) (o : Z) : Prop := {
  fg_thread : o ∈ ls RT_Object_Class_Thread;
  fg_closed : thread_stat (threads k (key o)) = RT_THREAD_CLOSE;
  fg_defunct : key o ∉ lists k Defunct;
  fg_current : rt_current_thread k <> Some (key o)
}.

Section Bury.
Context (y : Sys).
Hypothesis Hy : sys_ok y.
Abbreviation k := (sy_kernel y).
Abbreviation s := (sy_objects y).
Abbreviation live := (sy_live y).
Abbreviation ls := (sy_ls y).
Abbreviation pools := (sy_pools y).

Section Gone.
Context (o : Z).
Hypothesis Hg : forgotten k ls o.

Lemma gone_pos : 0 < o.
Proof. apply (reg_pos container y Hy the_threads o (threads_in_table container)), Hg. Qed.

Lemma without_thread i x : i ∈ table -> x ∈ without ls the_threads o (oi_type i) <-> (x ∈ ls (oi_type i)) /\ x <> o.
Proof.
  intros Hi. split.
  - intros Hx. pose proof (la_objects _ _ _ _ _ (yo_layout _ _ Hy)) as Hok.
    unfold without, set_class in Hx. destruct (Z.eqb_spec (oi_type i) (oi_type the_threads)) as [E|E].
    + apply list_elem_of_filter in Hx. rewrite E. tauto.
    + split; [exact Hx|]. intros ->. destruct (oo_apart _ _ _ _ Hok i the_threads o o Hi (threads_in_table container) Hx (fg_thread _ _ _ Hg)) as [[-> _]|Ha].
      * contradiction.
      * unfold apart20, SIZEOF_OBJECT in Ha. lia.
  - intros [Hx Hne]. unfold without, set_class. destruct (Z.eqb_spec (oi_type i) (oi_type the_threads)) as [E|E]; [|exact Hx].
    rewrite <- E. apply list_elem_of_filter. auto.
Qed.

(** The control block leaves the container. *)
Lemma gone_ok s' live' :
  layout_ok container s' live' (without ls the_threads o) (delete o pools) -> bodies_kept container s ls s' o ->
  sys_ok (mk_sys k s' live' (without ls the_threads o) (delete o pools)).
Proof.
  intros Hla Hk. pose proof (yo_threads _ _ Hy) as Hth. pose proof gone_pos as Hpos. pose proof (threads_in_table container) as Ht.
  assert (Hnot : forall t, t <> key o -> Z.of_nat t <> o) by (intros t H E; apply H; unfold key; lia).
  assert (Hty : forall i x, i ∈ table -> x ∈ ls (oi_type i) -> x <> o -> rt_object_is_systemobject s' x = rt_object_is_systemobject s x).
  { intros i x Hi Hx Hne. apply (kept_type container s ls s' o i x); auto. }
  split; cbn [sy_kernel sy_objects sy_live sy_ls sy_pools]; [apply Hy | apply Hy | exact Hla | |].
  - intros l c x t El Hin. pose proof (yo_waits _ _ Hy l c x t El Hin) as Hx. unfold without.
    rewrite set_class_other; [exact Hx|]. destruct l; try discriminate El; injection El as <- _; discriminate.
  - split.
    + intros x [Hx Hne]%(without_thread the_threads x Ht). destruct (ti_object _ _ _ _ Hth x Hx) as [A1 A2 A3].
      split; [rewrite (Hty the_threads) by assumption; exact A1 | |].
      * assert (Em : without ls the_threads o RT_Object_Class_Timer = ls RT_Object_Class_Timer) by (apply set_class_other; discriminate).
        rewrite Em. destruct (_ =? _); [exact A2|]. destruct A2 as [A2 A2']. split; [exact A2|]. rewrite <- A2'.
        apply (Hty the_timers); [apply timers_in_table | exact A2|]. intros E. rewrite E in A2.
        rewrite <- Em in A2. apply (without_thread the_timers o (timers_in_table container)) in A2. apply A2. reflexivity.
      * rewrite lookup_delete_ne by congruence. rewrite A3. destruct (systemobject _); [reflexivity|]. f_equal.
        symmetry. apply (kept_stack container s ls s' o); auto.
    + intros t Hl. apply (without_thread the_threads _ Ht). split; [apply (ti_live _ _ _ _ Hth t Hl)|]. apply Hnot.
      intros ->. rewrite (fg_closed _ _ _ Hg) in Hl. discriminate.
    + intros t Hin. apply (without_thread the_threads _ Ht). split; [apply (ti_defunct _ _ _ _ Hth t Hin)|]. apply Hnot.
      intros ->. apply (fg_defunct _ _ _ Hg), Hin.
    + intros c Hc. apply (without_thread the_threads _ Ht). split; [apply (ti_current _ _ _ _ Hth c Hc)|]. apply Hnot.
      intros ->. apply (fg_current _ _ _ Hg), Hc.
    + intros x p Hx. apply lookup_delete_Some in Hx as [Hne Hx]. destruct (pools_dynamic container y Hy x p Hx) as [(j & Hj & Hxj) Hs].
      rewrite (Hty j) by auto. exact Hs.
Qed.

(** The second half of a burial: stack and control block go back to the heap. *)
Lemma idle_free_ok : rt_object_is_systemobject s o = Some false ->
  exists s', idle_free k s o = Some s' /\
    sys_ok (mk_sys k s' (delete o (delete (stack_addr (obj_mem s) o) live)) (without ls the_threads o) (delete o pools)).
Proof.
  intros Hsys. pose proof (threads_in_table container) as Ht. pose proof (yo_layout _ _ Hy) as Hla.
  destruct (ti_object _ _ _ _ (yo_threads _ _ Hy) o (fg_thread _ _ _ Hg)) as [A1 A2 A3].
  rewrite Hsys in A1. injection A1 as A1. rewrite <- A1 in A3. set (p := stack_addr (obj_mem s) o) in *.
  rewrite (fg_closed _ _ _ Hg) in A2. cbn in A2.
  destruct (la_pool _ _ _ _ _ Hla _ _ A3) as [_ (n & Hn & Hl & Hcl)].
  assert (Hpo : forall x, delete o pools !! x <> Some p).
  { intros x [Hne Hx]%lookup_delete_Some. apply Hne. apply (la_once _ _ _ _ _ Hla _ _ _ A3 Hx). }
  pose proof (lay_unpool container s live ls pools Hla o) as Hla0.
  destruct (lay_free container s live ls (delete o pools) Hla0 p n Hl Hcl Hpo) as (h' & E & Hla1 & _ & Hfr1).
  unfold idle_free, RT_KERNEL_FREE. rewrite (yo_nest _ _ Hy). fold p. rewrite E. cbn [mbind option_bind].
  set (s1 := s <| obj_heap := h' |>) in *.
  assert (Hk1 : forall i x a, i ∈ table -> x ∈ ls (oi_type i) -> body_byte i x a -> load8 (obj_mem s1) a = load8 (obj_mem s) a).
  { intros i x a Hi Hx Ha. pose proof (size_pos _ _ Hi). apply Hfr1.
    apply (region_steady container (obj_heap s) live (delete p live) x (object_size i)); [apply (la_region _ _ _ _ _ Hla); auto | |].
    - unfold body_byte, SIZEOF_OBJECT in Ha. lia.
    - intros q m Hq H1 H2. apply lookup_delete_Some. split; [|exact Hq]. intros <-. assert (m = n) by congruence.
      specialize (Hcl i x Hi Hx). lia. }
  assert (Hsys1 : rt_object_is_systemobject s1 o = Some false).
  { rewrite <- Hsys. unfold rt_object_is_systemobject, object_type. rewrite (Hk1 the_threads o (o + 8)); [reflexivity | exact Ht | apply Hg | left; reflexivity]. }
  assert (Hins : forall j b, j ∈ table -> b ∈ ls (oi_type j) -> ~ inside the_threads o j b).
  { intros j b Hj Hb (_ & Ej & ->). rewrite Ej in Hb. contradiction. }
  destruct (lay_delete container s1 (delete p live) ls (delete o pools) Hla1 the_threads o Ht (fg_thread _ _ _ Hg)
    (lookup_delete_eq _ _) Hsys1 Hins) as (s2 & E2 & Hla2 & _ & Hfr2).
  exists s2. split; [exact E2|]. apply gone_ok; [exact Hla2|].
  intros i x a Hi Hx Hne Ha. rewrite <- (Hk1 i x a Hi Hx Ha).
  apply (frame_kept container s1 (delete p live) ls (delete o pools) Hla1 s2 (delete o (delete p live)) the_threads o) with i x; auto.
  - left. apply Hg.
  - intros j z q m. apply (other_block container s1 (delete p live) ls (delete o pools) Hla1 the_threads o); auto. apply Hg.
Qed.

(** A static thread only leaves the container. *)
Lemma gone_static_ok : rt_object_is_systemobject s o = Some true ->
  exists s', rt_object_detach s o = Some s' /\ sys_ok (mk_sys k s' live (without ls the_threads o) pools).
Proof.
  intros Hsys. pose proof (yo_layout _ _ Hy) as Hla. pose proof (threads_in_table container) as Ht.
  destruct (ti_object _ _ _ _ (yo_threads _ _ Hy) o (fg_thread _ _ _ Hg)) as [A1 _ A3].
  rewrite Hsys in A1. injection A1 as A1. rewrite <- A1 in A3.
  destruct (lay_detach container s live ls pools Hla the_threads o Ht (fg_thread _ _ _ Hg) A3) as (s' & E & Hla' & _ & Hfr).
  exists s'. split; [exact E|]. pose proof (gone_ok s' live) as H. rewrite (delete_id pools o A3) in H. apply H; [exact Hla'|].
  apply (frame_kept container s live ls pools Hla s' live the_threads o); auto. left. apply Hg.
Qed.
End Gone.

End Bury.

Section Take.
Context (y : Sys).
Hypothesis Hy : sys_ok y.
Abbreviation k := (sy_kernel y).
Abbreviation s := (sy_objects y).
Abbreviation live := (sy_live y).
Abbreviation ls := (sy_ls y).
Abbreviation pools := (sy_pools y).

(** The first half: the critical section. *)
Lemma idle_kernel t q : lists k Defunct = t :: q -> rt_current_thread k <> Some t ->
  exists k', rt_exit_critical (rt_enter_critical (tlist_remove k t)) = Some k' /\ kernel_inv k' /\ lists k' Defunct = q /\
    gentle nothing k k' /\ forgotten k' ls (Z.of_nat t).
Proof.
  intros Hd Hc. pose proof (yo_kernel _ _ Hy) as Hi. pose proof (ki_ok _ _ Hi) as Hok.
  assert (Hin : t ∈ lists k Defunct) by (rewrite Hd; left).
  pose proof (tk_list _ _ (so_threads _ (ko_sched _ _ Hok) t) Defunct Hin) as Hcl. cbv beta iota in Hcl.
  pose proof (bury_inv k t q Hi Hd) as Hi1.
  assert (Hi2 : kernel_inv (rt_enter_critical (tlist_remove k t))) by apply lock_inv, Hi1.
  destruct (exit_critical_inv _ Hi2) as (k' & E & Hi' & El). exists k'. split; [exact E|]. split; [exact Hi'|].
  assert (Ed : lists k' Defunct = q).
  { rewrite El by auto. change (lists (rt_enter_critical (tlist_remove k t)) Defunct) with (lists (tlist_remove k t) Defunct).
    rewrite (defunct_lists k t q Defunct Hi Hd). reflexivity. }
  assert (Hg : gentle nothing k k').
  { apply (gentle_trans _ _ (tlist_remove k t)); [apply gentle_remove|].
    apply (gentle_trans _ _ (rt_enter_critical (tlist_remove k t))); [apply gentle_same; reflexivity | apply gentle_exit_critical, E]. }
  split; [exact Ed|]. split; [exact Hg|]. pose proof (Hg (kernel_ready_live _ _ Hok)) as Hk.
  assert (Ek : key (Z.of_nat t) = t) by (unfold key; lia). split; rewrite ?Ek.
  - apply (ti_defunct _ _ _ _ (yo_threads _ _ Hy) t Hin).
  - apply (kp_closed _ _ _ Hk), Hcl.
  - rewrite Ed. pose proof (lo_nodup _ (so_lists _ (ko_sched _ _ Hok)) Defunct) as Hn. rewrite Hd in Hn. apply NoDup_cons in Hn. apply Hn.
  - intros Hct. destruct (kp_current _ _ _ Hk t Hct) as [H|[H|H]]; [|rewrite Hcl in H; discriminate | discriminate].
    contradiction.
Qed.

Lemma cleanup_heap kn o : obj_heap (call_cleanup kn s o) = obj_heap s.
Proof. unfold call_cleanup, RT_OBJECT_HOOK_CALL. destruct (cleanup _); [|reflexivity]. destruct (_ =? 0); reflexivity. Qed.

(** What the critical section leaves. *)
Definition taken (t : nat) (k' : Kernel) (s' : Objects) (b : burial) : Prop :=
  if systemobject (threads k t) then b = static_thread /\ sys_ok (mk_sys k' s' live (without ls the_threads (Z.of_nat t)) pools)
  else b = to_free (Z.of_nat t) /\ obj_heap s' = obj_heap s /\ rt_object_is_systemobject s (Z.of_nat t) = Some false /\
    sys_ok (mk_sys k' s' live ls pools) /\ forgotten k' ls (Z.of_nat t).

Lemma idle_take_ok t q : lists k Defunct = t :: q -> rt_current_thread k <> Some t ->
  exists k' s' b, idle_take k s = Some (k', s', b) /\ lists k' Defunct = q /\ gentle nothing k k' /\ taken t k' s' b.
Proof.
  intros Hd Hc. destruct (idle_kernel t q Hd Hc) as (k' & E & Hi' & Ed & Hg & Hf). unfold idle_take. rewrite Hd. cbv zeta.
  set (k2 := rt_enter_critical (tlist_remove k t)) in *. set (s1 := call_cleanup k2 s (Z.of_nat t)).
  assert (Eh : obj_heap s1 = obj_heap s) by apply cleanup_heap.
  assert (Hy1 : sys_ok (mk_sys k' s1 live ls pools)).
  { apply (kernel_ok_step container (y <| sy_objects := s1 |>) (same_heap_ok container y Hy s1 Eh) nothing k'); auto; discriminate. }
  assert (Hs : rt_object_is_systemobject s (Z.of_nat t) = Some (systemobject (threads k t))).
  { rewrite (th_static _ _ _ _ _ (ti_object _ _ _ _ (yo_threads _ _ Hy) (Z.of_nat t) (fg_thread _ _ _ Hf))).
    do 2 f_equal. f_equal. unfold key. lia. }
  assert (Hs1 : rt_object_is_systemobject s1 (Z.of_nat t) = Some (systemobject (threads k t))).
  { rewrite <- Hs. unfold rt_object_is_systemobject, obj_mem. rewrite Eh. reflexivity. }
  rewrite Hs1. cbn [mbind option_bind]. unfold taken. destruct (systemobject (threads k t)).
  - destruct (gone_static_ok _ Hy1 _ Hf Hs1) as (s2 & E2 & H2). cbn [sy_kernel sy_objects sy_live sy_ls sy_pools] in *.
    rewrite E2. cbn [mbind option_bind]. rewrite E. exists k', s2, static_thread. split_ands; auto.
  - rewrite E. exists k', s1, (to_free (Z.of_nat t)). split_ands; auto.
Qed.
End Take.

(** ** All of them, up to the first static thread *)

Fixpoint burying (pools : Pools) (d : list nat) : list Z :=
  match d with
  | [] => []
  | t :: d => Z.of_nat t :: match pools !! Z.of_nat t with Some _ => burying pools d | None => [] end
  end.
Fixpoint left_over (pools : Pools) (d : list nat) : list nat :=
  match d with
  | [] => []
  | t :: d => match pools !! Z.of_nat t with Some _ => left_over pools d | None => d end
  end.
(** The blocks that go back: control block and stack of the dynamic ones. *)
Definition released (pools : Pools) (l : list Z) : list Z :=
  flat_map (fun o => match pools !! o with Some p => [o; p] | None => [] end) l.

Lemma burying_ext pools pools' d : (forall t, t ∈ d -> pools' !! Z.of_nat t = pools !! Z.of_nat t) ->
  burying pools' d = burying pools d /\ left_over pools' d = left_over pools d /\
  released pools' (burying pools d) = released pools (burying pools d).
Proof.
  induction d as [|t d IH]; intros H; [auto|]. cbn [burying left_over]. rewrite H by left.
  destruct IH as (E1 & E2 & E3); [intros u Hu; apply H; right; exact Hu|].
  destruct (pools !! Z.of_nat t) as [p|] eqn:Ep; cbn [released flat_map]; rewrite ?H, ?Ep by left.
  - rewrite E1. unfold released in E3. rewrite E3. auto.
  - auto.
Qed.

Lemma burying_in pools d x : x ∈ burying pools d -> exists t, t ∈ d /\ x = Z.of_nat t.
Proof.
  induction d as [|t d IH]; cbn [burying]; [intros H; inversion H|]. intros [->|H]%elem_of_cons; [exists t; split; [left | reflexivity]|].
  destruct (pools !! _); [|inversion H]. destruct (IH H) as (u & Hu & ->). exists u. split; [right; exact Hu | reflexivity].
Qed.

Lemma burying_prefix pools d : burying pools d = map Z.of_nat (firstn (length (burying pools d)) d) /\
  left_over pools d = skipn (length (burying pools d)) d.
Proof.
  induction d as [|t d [IH1 IH2]]; [auto|]. cbn [burying left_over]. destruct (pools !! Z.of_nat t); cbn [length firstn skipn map].
  - rewrite <- IH1. auto.
  - auto.
Qed.

Lemma burying_stops pools d : left_over pools d <> [] -> exists o, last (burying pools d) = Some o /\ pools !! o = None.
Proof.
  induction d as [|t d IH]; [contradiction|]. cbn [burying left_over]. destruct (pools !! Z.of_nat t) as [p|] eqn:E.
  - intros H. destruct (IH H) as (o & Hl & Ho). exists o. split; [|exact Ho]. rewrite list.last_cons, Hl. reflexivity.
  - intros _. exists (Z.of_nat t). auto.
Qed.

Lemma elem_of_released pools l p : p ∈ released pools l <-> exists o q, o ∈ l /\ pools !! o = Some q /\ (p = o \/ p = q).
Proof.
  induction l as [|x l IH]; cbn [released flat_map].
  - split; [intros H; inversion H | intros (o & q & H & _); inversion H].
  - change (flat_map _ l) with (released pools l). rewrite elem_of_app, IH. split.
    + intros [H|(o & q & Ho & Hq & Hp)]; [|exists o, q; split_ands; auto; right; exact Ho].
      destruct (pools !! x) as [q|] eqn:E; [|inversion H]. exists x, q. split; [left|]. split; [exact E|].
      rewrite !elem_of_cons, elem_of_nil in H. tauto.
    + intros (o & q & [->|Ho]%elem_of_cons & Hq & Hp); [left | right; eauto 6].
      rewrite Hq, !elem_of_cons. tauto.
Qed.

Record buried (y y' : Sys) : Prop := {
  bu_ok : sys_ok y';
  bu_gentle : gentle nothing (sy_kernel y) (sy_kernel y');
  bu_defunct : lists (sy_kernel y') Defunct = left_over (sy_pools y) (lists (sy_kernel y) Defunct);
  bu_threads : sy_ls y' RT_Object_Class_Thread =
    filter (fun x => x ∉ burying (sy_pools y) (lists (sy_kernel y) Defunct)) (sy_ls y RT_Object_Class_Thread);
  bu_classes : forall c, c <> RT_Object_Class_Thread -> sy_ls y' c = sy_ls y c;
  bu_live : forall p n, sy_live y' !! p = Some n <->
    sy_live y !! p = Some n /\ p ∉ released (sy_pools y) (burying (sy_pools y) (lists (sy_kernel y) Defunct));
  bu_pools : forall x p, sy_pools y' !! x = Some p <->
    sy_pools y !! x = Some p /\ x ∉ burying (sy_pools y) (lists (sy_kernel y) Defunct)
}.

Definition awake (k : Kernel) : Prop := forall c, rt_current_thread k = Some c -> c ∉ lists k Defunct.

(** One thread gone. *)
Definition one_less (y : Sys) (o : Z) (k1 : Kernel) (s2 : Objects) : Sys :=
  mk_sys k1 s2 (match sy_pools y !! o with Some p => delete o (delete p (sy_live y)) | None => sy_live y end)
    (without (sy_ls y) the_threads o) (delete o (sy_pools y)).

Record round_ok (y : Sys) (t : nat) (q : list nat) (y1 : Sys) : Prop := {
  ro_ok : sys_ok y1;
  ro_gentle : gentle nothing (sy_kernel y) (sy_kernel y1);
  ro_defunct : lists (sy_kernel y1) Defunct = q;
  ro_awake : awake (sy_kernel y1);
  ro_thread : Z.of_nat t ∈ sy_ls y RT_Object_Class_Thread
}.

Lemma idle_round_ok y t q : sys_ok y -> lists (sy_kernel y) Defunct = t :: q -> awake (sy_kernel y) ->
  exists k1 s1 b s2, idle_take (sy_kernel y) (sy_objects y) = Some (k1, s1, b) /\
    match sy_pools y !! Z.of_nat t with
    | None => b = static_thread /\ s2 = s1
    | Some _ => b = to_free (Z.of_nat t) /\ idle_free k1 s1 (Z.of_nat t) = Some s2
    end /\ round_ok y t q (one_less y (Z.of_nat t) k1 s2).
Proof.
  intros Hy Ed Hcur. assert (Hne : rt_current_thread (sy_kernel y) <> Some t).
  { intros Hc. apply (Hcur t Hc). rewrite Ed. left. }
  destruct (idle_take_ok y Hy t q Ed Hne) as (k1 & s1 & b & E & Ed1 & Hg & Ht).
  assert (Hin : Z.of_nat t ∈ sy_ls y RT_Object_Class_Thread) by (apply (ti_defunct _ _ _ _ (yo_threads _ _ Hy)); rewrite Ed; left).
  assert (Ek : key (Z.of_nat t) = t) by (unfold key; lia).
  pose proof (th_stack _ _ _ _ _ (ti_object _ _ _ _ (yo_threads _ _ Hy) _ Hin)) as Hst. rewrite Ek in Hst.
  assert (Haw : awake k1).
  { intros c Hc H. pose proof (Hg (kernel_ready_live _ _ (ki_ok _ _ (yo_kernel _ _ Hy)))) as Hk. apply (kp_defunct _ _ _ Hk) in H.
    destruct (kp_current _ _ _ Hk c Hc) as [H1|[H1|H1]]; [apply (Hcur c H1 H) | | discriminate].
    pose proof (tk_list _ _ (so_threads _ (ko_sched _ _ (ki_ok _ _ (yo_kernel _ _ Hy))) c) Defunct H) as H2. cbv beta iota in H2.
    rewrite H2 in H1. discriminate. }
  unfold taken in Ht. unfold one_less. rewrite Hst. destruct (systemobject (threads (sy_kernel y) t)).
  - destruct Ht as [-> H1]. exists k1, s1, static_thread, s1. split; [exact E|]. split; [auto|].
    rewrite (delete_id (sy_pools y)) by exact Hst. split; auto.
  - destruct Ht as (-> & Eh & Hs & H1 & Hf).
    assert (Hs1 : rt_object_is_systemobject s1 (Z.of_nat t) = Some false).
    { rewrite <- Hs. unfold rt_object_is_systemobject, obj_mem. rewrite Eh. reflexivity. }
    destruct (idle_free_ok _ H1 _ Hf Hs1) as (s2 & E2 & H2). cbn [sy_kernel sy_objects sy_live sy_ls sy_pools] in *.
    exists k1, s1, (to_free (Z.of_nat t)), s2. split; [exact E|]. split; [auto|].
    replace (stack_addr (obj_mem s1) (Z.of_nat t)) with (stack_addr (obj_mem (sy_objects y)) (Z.of_nat t)) in H2
      by (unfold stack_addr, obj_mem; rewrite Eh; reflexivity).
    split; auto.
Qed.

Lemma round_threads y o : sys_ok y -> o ∈ sy_ls y RT_Object_Class_Thread ->
  without (sy_ls y) the_threads o RT_Object_Class_Thread = filter (fun x => x <> o) (sy_ls y RT_Object_Class_Thread) /\
  (forall c, c <> RT_Object_Class_Thread -> without (sy_ls y) the_threads o c = sy_ls y c).
Proof.
  intros Hy Ho. split; [|intros c Hc; apply set_class_other, Hc].
  unfold without, set_class. rewrite Z.eqb_refl. reflexivity.
Qed.

Lemma nothing_buried y : sys_ok y -> lists (sy_kernel y) Defunct = [] -> buried y y.
Proof.
  intros Hy Ed. split; rewrite ?Ed; cbn [burying left_over released flat_map]; auto.
  - apply gentle_refl.
  - induction (sy_ls y RT_Object_Class_Thread) as [|x l IH]; [reflexivity|].
    rewrite filter_cons_True by apply not_elem_of_nil. f_equal. exact IH.
  - intros p n. rewrite elem_of_nil. tauto.
  - intros x p. rewrite elem_of_nil. tauto.
Qed.

Lemma idle_loop_ok fuel : forall y, sys_ok y -> (length (lists (sy_kernel y) Defunct) <= fuel)%nat -> awake (sy_kernel y) ->
  exists y', idle_loop fuel (sy_kernel y) (sy_objects y) = Some (sy_kernel y', sy_objects y') /\ buried y y'.
Proof.
  induction fuel as [|fuel IH]; intros y Hy Hlen Hcur; cbn [idle_loop]; unfold _has_defunct_thread;
    destruct (lists (sy_kernel y) Defunct) as [|t q] eqn:Ed; cbn [length] in Hlen; try lia; cbn [negb];
    try (exists y; split; [reflexivity | apply nothing_buried; assumption]).
  unfold not_in_interrupt. rewrite (yo_nest _ _ Hy). cbn [Z.eqb mbind option_bind].
  destruct (idle_round_ok y t q Hy Ed Hcur) as (k1 & s1 & b & s2 & E & Hb & [R1 R2 R3 R4 R5]). rewrite E. cbn [mbind option_bind].
  destruct (round_threads y _ Hy R5) as [W1 W2]. unfold one_less in *. cbn [sy_kernel sy_objects sy_live sy_ls sy_pools] in *.
  destruct (sy_pools y !! Z.of_nat t) as [p|] eqn:Ep.
  - destruct Hb as [-> E2]. rewrite E2. cbn [mbind option_bind].
    destruct (IH _ R1 ltac:(cbn [sy_kernel]; rewrite R3; lia) R4) as (y' & E' & [B1 B2 B3 B4 B5 B6 B7]).
    cbn [sy_kernel sy_objects sy_live sy_ls sy_pools] in *. exists y'. split; [exact E'|].
    assert (Hn : t ∉ q).
    { pose proof (lo_nodup _ (so_lists _ (ko_sched _ _ (ki_ok _ _ (yo_kernel _ _ Hy)))) Defunct) as Hn. rewrite Ed in Hn.
      apply NoDup_cons in Hn. apply Hn. }
    destruct (burying_ext (sy_pools y) (delete (Z.of_nat t) (sy_pools y)) q) as (X1 & X2 & X3).
    { intros u Hu. apply lookup_delete_ne. intros H. apply Nat2Z.inj in H. congruence. }
    rewrite R3, X1, ?X2, ?X3 in *.
    split; rewrite ?Ed; cbn [burying left_over]; rewrite ?Ep; cbn [released flat_map]; rewrite ?Ep; auto.
    + apply (gentle_trans _ _ k1); assumption.
    + rewrite B4, W1, list_filter_filter. apply list_filter_iff. intros x. rewrite elem_of_cons. tauto.
    + intros c Hc. rewrite B5, W2 by exact Hc. reflexivity.
    + intros a n. rewrite B6, elem_of_app, !elem_of_cons, elem_of_nil, !lookup_delete_Some.
      change (flat_map _ (burying (sy_pools y) q)) with (released (sy_pools y) (burying (sy_pools y) q)). 
      split; [intros [(H1 & H2 & H3) H4]; split; [exact H3|]; intros [[H|[H|[]]]|H]; congruence || auto|].
      intros [H1 H2]. assert (Z.of_nat t <> a) by (intros <-; apply H2; auto). assert (p <> a) by (intros <-; apply H2; auto). tauto.
    + intros x a. rewrite B7, elem_of_cons, lookup_delete_Some. split; [intros [[H1 H2] H3]; split; [exact H2|]; intros [H|H]; congruence || auto|].
      intros [H1 H2]. assert (Z.of_nat t <> x) by (intros <-; apply H2; auto). tauto.
  - destruct Hb as [-> ->]. exists (one_less y (Z.of_nat t) k1 s1). unfold one_less. rewrite Ep. split; [reflexivity|].
    split; cbn [sy_kernel sy_objects sy_live sy_ls sy_pools]; rewrite ?Ed; cbn [burying left_over]; rewrite ?Ep; cbn [released flat_map]; rewrite ?Ep; auto.
    + rewrite W1. apply list_filter_iff. intros x. rewrite list_elem_of_singleton. reflexivity.
    + intros a n. rewrite elem_of_nil. tauto.
    + intros x a. rewrite list_elem_of_singleton, lookup_delete_Some. split; [intros [H1 H2] | intros [H1 H2]]; auto.
Qed.

(** The same in one piece. *)
Definition after_burial (y : Sys) (k' : Kernel) (s' : Objects) : Sys :=
  let gone := burying (sy_pools y) (lists (sy_kernel y) Defunct) in
  mk_sys k' s' (filter (fun b => b.1 ∉ released (sy_pools y) gone) (sy_live y))
    (set_class (sy_ls y) RT_Object_Class_Thread (filter (fun x => x ∉ gone) (sy_ls y RT_Object_Class_Thread)))
    (filter (fun b => b.1 ∉ gone) (sy_pools y)).

Lemma buried_eq y y' : buried y y' -> y' = after_burial y (sy_kernel y') (sy_objects y').
Proof.
  intros [_ _ _ B4 B5 B6 B7]. destruct y' as [k' s' live' ls' pools']. cbn [sy_kernel sy_objects sy_live sy_ls sy_pools] in *.
  unfold after_burial. f_equal.
  - apply map_eq. intros p. apply option_eq. intros n. rewrite B6, map_lookup_filter_Some. reflexivity.
  - apply functional_extensionality. intros c. unfold set_class. destruct (Z.eqb_spec c RT_Object_Class_Thread) as [->|Hne]; auto.
  - apply map_eq. intros x. apply option_eq. intros p. rewrite B7, map_lookup_filter_Some. reflexivity.
Qed.

Lemma idle_excute_ok y : sys_ok y -> awake (sy_kernel y) ->
  exists k' s', rt_thread_idle_excute (sy_kernel y) (sy_objects y) = Some (k', s') /\ sys_ok (after_burial y k' s') /\
    gentle nothing (sy_kernel y) k' /\ lists k' Defunct = left_over (sy_pools y) (lists (sy_kernel y) Defunct).
Proof.
  intros Hy Haw. destruct (idle_loop_ok _ y Hy (Nat.le_refl _) Haw) as (y' & E & Hb). exists (sy_kernel y'), (sy_objects y').
  split; [exact E|]. rewrite <- (buried_eq _ _ Hb). split; [apply Hb|]. split; apply Hb.
Qed.
End System.
