(* ===== verification/LifeRun.v ===== *)
(** * The system at work

    The calls that change a running system: objects are created, waited
    for, detached and deleted, threads are created, started, ended and buried, ticks
    pass, and clients use the heap and write into their blocks.  [run] executes a call
    on the kernel and the container; the blocks, objects and pools of [Sys] follow. *)

From S2P Require Import Prelude Kernel Scheduler Timer Thread Tick Ipc Mutex Event Mailbox.
From S2P Require Import Memory Kservice Blocks Mem Heap Strings LinkedList Object MessageQueue Mempool.
From S2P Require Import Create Idle Layout Gentle Life LifeCalls LifeThreads LifeCreate LifeIdle.

(** ** The kernel's invariant through a wait, a wake-up and the end of a thread *)

Lemma ipc_wait_inv k l c flag time : kernel_inv k -> running k c -> is_wait l = true -> time < RT_TICK_HALF ->
  exists k', ipc_wait k l c flag time = Some k' /\ kernel_inv k'.
Proof.
  intros Hi Hr Hl Ht. pose proof Hi as [Hok _ Htm]. pose proof (running_current _ k c Hi Hr) as Hc.
  destruct (ipc_wait_spec k l c flag time Hok Hc Hr Hl Ht) as (k' & E & [W1 W2 _ _ (c2 & W5 & _) _] & _).
  exists k'. split; [exact E|]. split; [exact W1 | eauto|]. revert E. unfold ipc_wait.
  destruct (list_suspend_spec _ k l c flag Hok Hc Hr Hl) as (k1 & E1 & Hq). rewrite E1. cbn [mbind option_bind].
  assert (Hg1 : timers_grow k k1).
  { destruct (suspend_spec _ k c Hok (or_intror Hr)) as (k0 & E0 & _ & Hot & _). unfold rt_ipc_list_suspend in E1. rewrite E0 in E1.
    injection E1 as <-. intros x Hx. apply (only_thread_grow _ _ _ Hot). revert Hx. unfold wait_list_insert.
    destruct (_ =? _); [auto|]. destruct (_ =? _); auto. }
  assert (Hst : thread_stat (threads k1 c) = RT_THREAD_SUSPEND) by (rewrite (qd_thread _ _ _ _ _ _ Hq); apply thread_stat_suspend).
  assert (H2 : exists k2, (if 0 <? time then start_thread_timer k1 c time else Some k1) = Some k2 /\ kernel_ok (rt_tick k) k2 /\
            timers_grow k1 k2 /\ rt_current_thread k2 = rt_current_thread k1).
  { destruct (Z.ltb_spec 0 time) as [Hpos|]; [|exists k1; split_ands; auto; [apply Hq | apply grow_same; reflexivity]].
    destruct (start_thread_timer_spec _ k1 c time (eq_sym (qd_tick _ _ _ _ _ _ Hq)) (qd_ok _ _ _ _ _ _ Hq) Hst ltac:(lia))
      as (k2 & E2 & Hok2 & Hss & _ & _ & Hx). exists k2. split_ands; auto; [|apply Hss].
    intros x Hin. destruct (decide (x = ThreadTimer c)) as [->|Hne]; [left; exists c; reflexivity | right; apply (Hx x Hne), Hin]. }
  destruct H2 as (k2 & -> & Hok2 & Hg2 & Ec2). cbn [mbind option_bind]. intros E.
  destruct (schedule_kernel_ok _ k2 c Hok2) as (k3 & c3 & E3 & _ & Hf & _); [rewrite Ec2; apply (qd_current _ _ _ _ _ _ Hq)|].
  assert (k3 = k') as -> by congruence. rewrite (sf_timer_list _ _ Hf).
  apply (grow_all k1 k2 Hg2), (grow_all k k1 Hg1), Htm.
Qed.

Lemma list_resume_inv k l : kernel_inv k -> is_wait l = true -> lists k l <> [] ->
  exists k', rt_ipc_list_resume k l = Some k' /\ kernel_inv k'.
Proof.
  intros Hi Hl Hne. pose proof Hi as [Hok Hcur _]. destruct (Hcur I) as [c Hc]. destruct (lists k l) as [|t q] eqn:Eq; [contradiction|].
  destruct (list_resume_spec _ k l t q Hok Hl Eq) as (k' & E & Hok' & Hot & _). exists k'. split; [exact E|].
  apply (inv_after _ k k' c); auto; [apply Hot | rewrite (ot_current _ _ _ Hot); exact Hc | apply (only_thread_grow _ _ _ Hot)].
Qed.

(** A semaphore given and taken. *)
Lemma sem_release_inv k n sem k' sem' e : kernel_inv k -> rt_sem_release k n sem = Some (k', sem', e) ->
  kernel_inv k' /\ gentle nothing k k'.
Proof.
  intros Hi. unfold rt_sem_release. destruct (lists k (SemWait n)) as [|t q] eqn:El; [intros [= <- _ _]; split; [exact Hi | apply gentle_refl]|].
  destruct (list_resume_inv k (SemWait n) Hi eq_refl) as (k1 & E1 & Hi1); [rewrite El; discriminate|].
  destruct (schedule_inv k1 Hi1) as (k2 & E2 & Hi2). rewrite E1. cbn [mbind option_bind]. rewrite E2. intros [= <- _ _].
  split; [exact Hi2|]. apply (gentle_trans _ _ k1); [apply (gentle_list_resume _ _ _ _ E1) | apply (gentle_schedule _ _ _ E2)].
Qed.

Lemma sem_take_inv k n sem c time k' sem' out : kernel_inv k -> rt_current_thread k = Some c -> running k c -> time < RT_TICK_HALF ->
  rt_sem_take k n sem time = Some (k', sem', out) -> kernel_inv k' /\ gentle (entering (SemWait n)) k k'.
Proof.
  intros Hi Hc Hr Ht. unfold rt_sem_take. destruct (0 <? value sem); [intros [= <- _ _]; split; [exact Hi | apply gentle_refl]|].
  destruct (time =? 0); [intros [= <- _ _]; split; [exact Hi | apply gentle_refl]|]. destruct (negb _); [discriminate|].
  unfold rt_thread_self. rewrite Hc. cbn [mbind option_bind]. cbv zeta. set (k1 := set_thread k c (fun th => th <| error := RT_EOK |>)).
  assert (Hi1 : kernel_inv k1).
  { apply (inv_after _ k k1 c Hi); [apply set_thread_inert_ok; [intros th; auto | apply Hi] | reflexivity | exact Hc | apply grow_same; reflexivity]. }
  assert (Hr1 : running k1 c) by (unfold running, k1; rewrite set_thread_threads; exact Hr).
  destruct (ipc_wait_inv k1 (SemWait n) c (sem_flag sem) time Hi1 Hr1 eq_refl Ht) as (k2 & E & Hi2). rewrite E. intros [= <- _ _].
  split; [exact Hi2|]. apply (gentle_trans _ _ k1); [apply gentle_field; intros th; repeat split|].
  apply (gentle_ipc_wait (entering (SemWait n)) k1 (SemWait n) c (sem_flag sem) time k2 eq_refl eq_refl E).
Qed.

(** A closed thread does not stay on an unlocked processor that another thread waits for. *)
Lemma closed_leaves base kd k' c u : kernel_ok base kd -> rt_current_thread kd = Some c -> rt_scheduler_lock_nest kd = 0 ->
  thread_stat (threads kd c) = RT_THREAD_CLOSE -> thread_stat (threads kd u) = RT_THREAD_READY ->
  rt_schedule kd = Some k' -> rt_current_thread k' <> Some c.
Proof.
  intros [Hok _] Hc Hlock Hcl Hu E Hc'. destruct (schedule_spec kd c Hok Hc Hlock) as (k2 & c2 & E2 & Hok2 & Hf & Hc2 & Hb & _).
  assert (k2 = k') as -> by congruence. assert (c2 = c) as -> by congruence.
  assert (Hclosed : thread_stat (threads k' c) = RT_THREAD_CLOSE).
  { destruct (sf_stat _ _ Hf c) as [->|[[H|H] _]]; [exact Hcl | rewrite Hcl in H; discriminate H ..]. }
  assert (Hu' : thread_stat (threads k' u) = RT_THREAD_READY).
  { destruct (sf_stat _ _ Hf u) as [->|[_ [H|H]]]; [exact Hu | exact H|].
    pose proof (tk_running _ _ (so_threads _ Hok2 u) H) as H1. assert (u = c) as -> by congruence. rewrite Hclosed in H. discriminate. }
  destruct (Hb u Hu') as [H _]. rewrite Hclosed in H. discriminate.
Qed.

Lemma exit_leaves k k' c u : kernel_inv k -> running k c -> rt_scheduler_lock_nest k = 0 ->
  thread_stat (threads k u) = RT_THREAD_READY -> Thread.rt_thread_exit k = Some k' -> rt_current_thread k' <> Some c.
Proof.
  intros Hi Hr Hlock Hu. pose proof (running_current _ k c Hi Hr) as Hc. unfold Thread.rt_thread_exit, rt_thread_self. rewrite Hc.
  cbn [mbind option_bind]. assert (Hl : live (thread_stat (threads k c)) = true) by (rewrite Hr; reflexivity).
  destruct (unschedule_spec _ k c (ki_ok _ _ Hi) Hl) as (k1 & E1 & Ec & Et & _ & _ & _ & Hd & _). rewrite E1. cbn [mbind option_bind].
  change (Timer.rt_timer_detach (set_thread k1 c (fun th => th <| stat := RT_THREAD_CLOSE |>)) (ThreadTimer c)) with (closed k1 c).
  assert (Hlock1 : rt_scheduler_lock_nest k1 = rt_scheduler_lock_nest k).
  { revert E1. unfold rt_schedule_remove_thread. cbv zeta. destruct (_ <=? _); [discriminate|]. intros [= <-].
    destruct (decide _); reflexivity. }
  assert (Hth : forall v, threads (thread_dispose (closed k1 c) c) v = threads (closed k1 c) v)
    by (intros v; unfold thread_dispose; destruct (_ && _); reflexivity).
  assert (Huc : u <> c) by (intros ->; unfold running in Hr; rewrite Hr in Hu; discriminate).
  apply (closed_leaves _ _ k' c u Hd); rewrite ?Hth.
  - unfold thread_dispose. destruct (_ && _); change (rt_current_thread k1 = Some c); congruence.
  - unfold thread_dispose. destruct (_ && _); change (rt_scheduler_lock_nest k1 = 0); congruence.
  - change (thread_stat (threads (set_thread k1 c (fun th => th <| stat := RT_THREAD_CLOSE |>)) c) = RT_THREAD_CLOSE).
    rewrite set_thread_threads. reflexivity.
  - change (thread_stat (threads (set_thread k1 c (fun th => th <| stat := RT_THREAD_CLOSE |>)) u) = RT_THREAD_READY).
    rewrite set_thread_other, Et by exact Huc. exact Hu.
Qed.

(** ** Calls *)

Inductive call :=
| Op (op : kernel_op)                                     (* sleeping, yielding, the tick, the scheduler lock *)
| Start (o : Z) | Wait (l : list_head) (flag time : Z) | Wake (l : list_head)
| CreateObject (a : create_args) (name : Z) | DetachObject (kd : ipc_kind) (o : Z) | DeleteObject (kd : ipc_kind) (pool o : Z)
| CreateThread (name entry parameter stack_size priority tick : Z)
| DeleteThread (o : Z) | DetachThread (o : Z) | ExitThread | Bury
| Malloc (n : Z) | Free (p : Z) | Write (m : Memory).

Section System.
Context (container texit hook : Z).
Abbreviation table := (rt_object_container container).
Abbreviation sys_ok := (sys_state container True).
Abbreviation the_threads := (the_threads container).
Abbreviation the_timers := (the_timers container).

(** What the answer of a creating call means for the system. *)
Definition after_create (a : create_args) (y : Sys) (k : Kernel) (s : Objects) (r : option (Z * option Z)) : Sys :=
  match r with
  | None => mk_sys k s (sy_live y) (sy_ls y) (sy_pools y)
  | Some (o, pool) =>
      let i := kind_info container (args_kind a) in
      let live := <[o := object_size i]> (sy_live y) in
      let ls := set_class (sy_ls y) (oi_type i) (o :: sy_ls y (oi_type i)) in
      match pool, args_pool a with
      | Some p, Some n => mk_sys k s (<[p := n]> live) ls (<[o := p]> (sy_pools y))
      | _, _ => mk_sys k s live ls (sy_pools y)
      end
  end.
Definition after_thread_create (y : Sys) (k : Kernel) (s : Objects) (o stack_size : Z) : Sys :=
  if o =? 0 then mk_sys k s (sy_live y) (sy_ls y) (sy_pools y)
  else
    let p := stack_addr (obj_mem s) o in
    mk_sys k s (<[p := stack_size]> (<[o := 128]> (sy_live y))) (with_timer (with_thread (sy_ls y) o) (thread_timer o))
      (<[o := p]> (sy_pools y)).
Definition after_delete (kd : ipc_kind) (pool o : Z) (y : Sys) (k : Kernel) (s : Objects) : Sys :=
  mk_sys k s (delete o (match kind_pool kd pool with Some p => delete p (sy_live y) | None => sy_live y end))
    (without (sy_ls y) (kind_info container kd) o) (delete o (sy_pools y)).

(** The bound of the container's search loops. *)
Definition all_threads (y : Sys) : nat := S (length (sy_ls y RT_Object_Class_Thread) + length (sy_ls y RT_Object_Class_Timer)).

Definition run (c : call) (y : Sys) : option Sys :=
  let k := sy_kernel y in
  let s := sy_objects y in
  match c with
  | Op op => k ← run_op no_callback k op; Some (y <| sy_kernel := k |>)
  | Start o => '(k, _) ← rt_thread_startup k (key o); Some (y <| sy_kernel := k |>)
  | Wait l flag time => t ← rt_thread_self k; k ← ipc_wait k l t flag time; Some (y <| sy_kernel := k |>)
  | Wake l => k ← rt_ipc_list_resume k l; Some (y <| sy_kernel := k |>)
  | CreateObject a name => '(k, s, r) ← ipc_create container a k s name; Some (after_create a y k s r)
  | DetachObject kd o =>
      '(k, s, _) ← ipc_detach kd k s o; Some (mk_sys k s (sy_live y) (without (sy_ls y) (kind_info container kd) o) (sy_pools y))
  | DeleteObject kd pool o => '(k, s, _) ← ipc_delete kd pool k s o; Some (after_delete kd pool o y k s)
  | CreateThread name entry parameter stack_size priority tick =>
      '(k, s, o) ← rt_thread_create container texit hook (all_threads y) k s name entry parameter stack_size priority tick;
      Some (after_thread_create y k s o stack_size)
  | DeleteThread o => '(k, s, _) ← rt_thread_delete k s o; Some (mk_sys k s (sy_live y) (ls_gone container y o) (sy_pools y))
  | DetachThread o => '(k, s, _) ← rt_thread_detach k s o; Some (mk_sys k s (sy_live y) (ls_gone container y o) (sy_pools y))
  | ExitThread =>
      t ← rt_thread_self k;
      '(k, s) ← rt_thread_exit k s (Z.of_nat t); Some (mk_sys k s (sy_live y) (ls_gone container y (Z.of_nat t)) (sy_pools y))
  | Bury => '(k, s) ← rt_thread_idle_excute k s; Some (after_burial y k s)
  | Malloc n =>
      '(s, p) ← RT_KERNEL_MALLOC k s n;
      Some (mk_sys k s (if p =? 0 then sy_live y else <[p := n]> (sy_live y)) (sy_ls y) (sy_pools y))
  | Free p => s ← RT_KERNEL_FREE k s p; Some (mk_sys k s (delete p (sy_live y)) (sy_ls y) (sy_pools y))
  | Write m => Some (y <| sy_objects := on_memory s (fun _ => m) |>)
  end.

(** What the callers have to see to. *)
Definition may_end (k : Kernel) (o : Z) : Prop :=
  Scheduler.live (thread_stat (threads k (key o))) = true \/ thread_stat (threads k (key o)) = RT_THREAD_INIT.
Definition own_block (y : Sys) (p n : Z) : Prop := sy_live y !! p = Some n /\ clear_of container (sy_ls y) p n.
Definition may_call (c : call) (y : Sys) : Prop :=
  let k := sy_kernel y in
  let s := sy_objects y in
  let ls := sy_ls y in
  match c with
  | Op op => everyday op = true /\ allowed k op
  | Start o => (o ∈ ls RT_Object_Class_Thread) /\ thread_stat (threads k (key o)) = RT_THREAD_INIT /\
      0 <= init_priority (threads k (key o)) < 32
  | Wait l _ time => (exists t, running k t) /\ time < RT_TICK_HALF /\
      exists c o, wait_object l = Some (c, o) /\ Z.of_nat o ∈ ls c
  | Wake l => is_wait l = true /\ lists k l <> []
  | CreateObject a name => args_ok a name
  | DetachObject kd o => (o ∈ ls (oi_type (kind_info container kd))) /\ rt_object_is_systemobject s o = Some true
  | DeleteObject kd pool o => (o ∈ ls (oi_type (kind_info container kd))) /\ rt_object_is_systemobject s o = Some false /\
      sy_pools y !! o = kind_pool kd pool
  | CreateThread _ _ _ stack_size priority _ => 72 <= stack_size <= SIZE_LIMIT /\ 0 <= priority < 32
  | DeleteThread o => (o ∈ ls RT_Object_Class_Thread) /\ rt_object_is_systemobject s o = Some false /\ may_end k o
  | DetachThread o => (o ∈ ls RT_Object_Class_Thread) /\ rt_object_is_systemobject s o = Some true /\ may_end k o /\
      rt_current_thread k <> Some (key o)
  | ExitThread => exists t, running k t /\
      (stays (threads k t) = true \/ rt_scheduler_lock_nest k = 0 /\ exists u, thread_stat (threads k u) = RT_THREAD_READY)
  | Bury => awake k
  | Malloc n => 0 <= n <= SIZE_LIMIT
  | Free p => (exists n, own_block y p n) /\ forall o, sy_pools y !! o <> Some p
  | Write m => exists p n, own_block y p n /\ forall a, a < p \/ p + n <= a -> load8 m a = load8 (obj_mem s) a
  end.

(** ** One call *)

Section Call.
Context (y : Sys).
Hypothesis Hy : sys_ok y.
Abbreviation k := (sy_kernel y).
Abbreviation s := (sy_objects y).

Lemma op_ok op : everyday op = true -> allowed k op -> exists y', run (Op op) y = Some y' /\ sys_ok y'.
Proof.
  intros He Ha. destruct (run_op_inv no_callback k op (yo_kernel _ _ Hy) Ha) as (k' & E & Hi'). cbn [run]. rewrite E.
  eexists. split; [reflexivity|]. apply (kernel_ok_step container y Hy nothing k' Hi'); try discriminate.
  apply (gentle_op nothing no_callback) with op; auto. intros n k1 k2 [= <-]. apply gentle_refl.
Qed.

Lemma start_thread_ok o : may_call (Start o) y -> exists y', run (Start o) y = Some y' /\ sys_ok y'.
Proof.
  intros (Ho & Hs & Hp). pose proof (yo_kernel _ _ Hy) as Hi.
  destruct (startup_spec _ k (key o) (ki_ok _ _ Hi) Hs Hp (ki_current _ _ Hi I)) as (k' & c' & E & Hok' & Et & Hc' & _ & _ & Hg & _).
  cbn [run]. rewrite E. eexists. split; [reflexivity|].
  apply (kernel_ok_step container y Hy (starting (key o)) k'); try discriminate.
  - apply (inv_after _ k k' c'); auto.
  - apply (gentle_startup (starting (key o)) k (key o) k' RT_EOK eq_refl E).
  - intros t [= <-]. rewrite key_of; [exact Ho|]. pose proof (reg_pos container y Hy the_threads o (threads_in_table container) Ho). lia.
Qed.

Lemma wait_is_wait l c o : wait_object l = Some (c, o) -> is_wait l = true.
Proof. destruct l; intros E; try discriminate E; reflexivity. Qed.

Lemma wait_ok l flag time : may_call (Wait l flag time) y -> exists y', run (Wait l flag time) y = Some y' /\ sys_ok y'.
Proof.
  intros ((c & Hr) & Ht & (cl & o & El & Ho)). pose proof (yo_kernel _ _ Hy) as Hi. pose proof (running_current _ k c Hi Hr) as Hc.
  pose proof (wait_is_wait _ _ _ El) as Hw. destruct (ipc_wait_inv k l c flag time Hi Hr Hw Ht) as (k' & E & Hi').
  cbn [run]. unfold rt_thread_self. rewrite Hc. cbn [mbind option_bind]. rewrite E. eexists. split; [reflexivity|].
  apply (kernel_ok_step container y Hy (entering l) k' Hi'); try discriminate.
  - apply (gentle_ipc_wait _ k l c flag time); auto.
  - intros l' [= <-]. eauto.
Qed.

Lemma wake_call_ok l : may_call (Wake l) y -> exists y', run (Wake l) y = Some y' /\ sys_ok y'.
Proof.
  intros (Hw & Hne). destruct (list_resume_inv k l (yo_kernel _ _ Hy) Hw Hne) as (k' & E & Hi'). cbn [run]. rewrite E.
  eexists. split; [reflexivity|]. apply (kernel_ok_step container y Hy nothing k' Hi'); try discriminate.
  apply (gentle_list_resume _ _ _ _ E).
Qed.

Lemma sem_release_ok n sem k' sem' e : rt_sem_release k n sem = Some (k', sem', e) -> sys_ok (y <| sy_kernel := k' |>).
Proof.
  intros E. destruct (sem_release_inv k n sem k' sem' e (yo_kernel _ _ Hy) E) as [Hi Hg].
  apply (kernel_ok_step container y Hy nothing k' Hi Hg); discriminate.
Qed.

Lemma sem_take_ok o sem c time k' sem' out : o ∈ sy_ls y RT_Object_Class_Semaphore -> 0 <= o -> rt_current_thread k = Some c -> running k c ->
  time < RT_TICK_HALF -> rt_sem_take k (key o) sem time = Some (k', sem', out) -> sys_ok (y <| sy_kernel := k' |>).
Proof.
  intros Ho Hpos Hc Hr Ht E. destruct (sem_take_inv k (key o) sem c time k' sem' out (yo_kernel _ _ Hy) Hc Hr Ht E) as [Hi Hg].
  apply (kernel_ok_step container y Hy (entering (SemWait (key o))) k' Hi Hg); [|discriminate]. intros l [= <-].
  exists RT_Object_Class_Semaphore, (key o). rewrite key_of by exact Hpos. auto.
Qed.

Lemma create_ok a name : args_ok a name -> exists y', run (CreateObject a name) y = Some y' /\ sys_ok y'.
Proof.
  intros Ha. destruct (ipc_create_ok container y Hy a name Ha) as (s' & r & E & H). cbn [run]. rewrite E.
  eexists. split; [reflexivity|]. unfold creates, after_create in *. destruct r as [[o pool]|]; [|exact H].
  destruct H as (_ & _ & _ & _ & _ & H). destruct (args_pool a), pool; try contradiction; [apply H | exact H].
Qed.

Lemma detach_object_ok kd o : may_call (DetachObject kd o) y -> exists y', run (DetachObject kd o) y = Some y' /\ sys_ok y'.
Proof.
  intros (Ho & Hs). destruct (ipc_detach_ok container y Hy kd o Ho Hs) as (k' & s' & E & _ & H). cbn [run]. rewrite E. eauto.
Qed.

Lemma delete_object_ok kd pool o : may_call (DeleteObject kd pool o) y -> exists y', run (DeleteObject kd pool o) y = Some y' /\ sys_ok y'.
Proof.
  intros (Ho & Hs & Hp). destruct (ipc_delete_ok container y Hy kd pool o Ho Hs Hp) as (k' & s' & E & _ & H). cbn [run]. rewrite E. eauto.
Qed.

Lemma create_thread_ok name entry parameter stack_size priority tick :
  may_call (CreateThread name entry parameter stack_size priority tick) y ->
  exists y', run (CreateThread name entry parameter stack_size priority tick) y = Some y' /\ sys_ok y'.
Proof.
  intros (Hn & Hp).
  destruct (thread_create_ok container y Hy texit hook (all_threads y) name entry parameter stack_size priority tick Hn Hp)
    as (k' & s' & o & E & H); [unfold all_threads; lia|]. cbn [run]. rewrite E. eexists. split; [reflexivity|].
  unfold after_thread_create. destruct (Z.eqb_spec o 0) as [->|Hne].
  - destruct H as [-> H]. exact H.
  - destruct H as (p & Hpos & _ & _ & [H _ [_ _ _ _ _ _ Hst _] _]). cbn [sy_kernel sy_objects] in *.
    pose proof (th_stack _ _ _ _ _ (ti_object _ _ _ _ (yo_threads _ _ H) o (ltac:(left)))) as Hsp.
    cbn [sy_kernel sy_objects sy_pools] in Hsp. rewrite Hst, lookup_insert_eq in Hsp. injection Hsp as <-. exact H.
Qed.

Lemma may_end_open kn o : may_end kn o -> thread_stat (threads kn (key o)) <> RT_THREAD_CLOSE.
Proof. intros [H|H] E; rewrite E in H; discriminate. Qed.

Lemma delete_thread_ok o : may_call (DeleteThread o) y -> exists y', run (DeleteThread o) y = Some y' /\ sys_ok y'.
Proof.
  intros (Ho & Hs & He). destruct (thread_delete_ok container y Hy o Ho (may_end_open _ _ He) He Hs) as (k' & s' & E & H & _).
  cbn [run]. rewrite E. eauto.
Qed.

Lemma detach_thread_ok o : may_call (DetachThread o) y -> exists y', run (DetachThread o) y = Some y' /\ sys_ok y'.
Proof.
  intros (Ho & Hs & He & Hc). destruct (thread_detach_ok container y Hy o Ho (may_end_open _ _ He) He Hs Hc) as (k' & s' & E & H).
  cbn [run]. rewrite E. eauto.
Qed.

Lemma exit_thread_ok : may_call ExitThread y -> exists y', run ExitThread y = Some y' /\ sys_ok y'.
Proof.
  intros (c & Hr & Hw). pose proof (yo_kernel _ _ Hy) as Hi. pose proof (running_current _ k c Hi Hr) as Hc.
  assert (Ek : key (Z.of_nat c) = c) by (unfold key; lia). pose proof (ti_current _ _ _ _ (yo_threads _ _ Hy) c Hc) as Ho.
  assert (Hl : Scheduler.live (thread_stat (threads k c)) = true) by (rewrite Hr; reflexivity).
  destruct (thread_exit_ok container y Hy (Z.of_nat c) Ho) as (k' & s' & E & H); rewrite ?Ek; auto.
  - intros E. rewrite E in Hl. discriminate.
  - cbn [run]. unfold rt_thread_self. rewrite Hc. cbn [mbind option_bind]. rewrite E. eexists. split; [reflexivity|].
    apply H. rewrite Ek. destruct Hw as [Hw|(Hlock & u & Hu)]; [left; exact Hw | right].
    apply (exit_leaves k k' c u Hi Hr Hlock Hu). unfold rt_thread_exit in E.
    destruct (timer_object_detach s (Z.of_nat c)) as [s1|]; [|discriminate]. cbn [mbind option_bind] in E.
    destruct (dispose_object k s1 (Z.of_nat c)) as [s2|]; [|discriminate]. cbn [mbind option_bind] in E.
    destruct (Thread.rt_thread_exit k) as [k2|]; [|discriminate]. cbn [mbind option_bind] in E. congruence.
Qed.

Lemma bury_ok : awake k -> exists y', run Bury y = Some y' /\ sys_ok y'.
Proof.
  intros Ha. destruct (idle_excute_ok container y Hy Ha) as (k' & s' & E & H & _). cbn [run]. rewrite E. eauto.
Qed.

Lemma malloc_call_ok n : 0 <= n <= SIZE_LIMIT -> exists y', run (Malloc n) y = Some y' /\ sys_ok y'.
Proof.
  intros Hn. cbn [run]. destruct (malloc_ok container y Hy n Hn) as [E|(h' & p & E & Hp & _ & _ & H & _)]; rewrite E; cbn [mbind option_bind].
  - eexists. split; [reflexivity|]. apply (same_heap_ok container y Hy (s <| obj_heap := obj_heap s |>)). reflexivity.
  - apply Z.eqb_neq in Hp. rewrite Hp. eauto.
Qed.

Lemma free_call_ok p : may_call (Free p) y -> exists y', run (Free p) y = Some y' /\ sys_ok y'.
Proof.
  intros [(n & Hl & Hc) Hp]. destruct (free_block_ok container y Hy p n Hl Hc Hp) as (h' & E & H & _). cbn [run]. rewrite E. eauto.
Qed.

Lemma write_call_ok m : may_call (Write m) y -> exists y', run (Write m) y = Some y' /\ sys_ok y'.
Proof.
  intros (p & n & (Hl & Hc) & Hm). cbn [run]. eexists. split; [reflexivity|]. apply (block_write_ok container y Hy p n m Hl Hc Hm).
Qed.

Lemma run_ok c : may_call c y -> exists y', run c y = Some y' /\ sys_ok y'.
Proof.
  destruct c; intros H.
  - apply op_ok; apply H.
  - apply start_thread_ok, H.
  - apply wait_ok, H.
  - apply wake_call_ok, H.
  - apply create_ok, H.
  - apply detach_object_ok, H.
  - apply delete_object_ok, H.
  - apply create_thread_ok, H.
  - apply delete_thread_ok, H.
  - apply detach_thread_ok, H.
  - apply exit_thread_ok, H.
  - apply bury_ok, H.
  - apply malloc_call_ok, H.
  - apply free_call_ok, H.
  - apply write_call_ok, H.
Qed.
End Call.

(** ** What follows a start *)

Inductive reached (y0 : Sys) : Sys -> Prop :=
| at_start : reached y0 y0
| after_call y c y' : reached y0 y -> may_call c y -> run c y = Some y' -> reached y0 y'.

Lemma reached_ok y0 y : sys_ok y0 -> reached y0 y -> sys_ok y.
Proof.
  intros H0 Hr. induction Hr as [|y c y' _ IH Hc E]; [exact H0|]. destruct (run_ok y IH c Hc) as (y2 & E2 & H2). congruence.
Qed.

End System.
