(* ===== verification/Startup.v ===== *)
(** * From reset to the first thread

    [rtthread_startup] of components.c with what it calls: the board's set-up (board.c,
    drv_common.c, drv_usart.c, pin.c), which builds the heap, registers the devices and
    opens the console, then the timer lists, the ready lists and the three threads every
    system has - main, the timer thread and the idle thread - and the start of the
    scheduler.  Interrupts are off but for the call of clk_init in hw_board_init, when no
    source of interrupts is set up yet, so the whole is one sequence.  The set-up of
    clocks and registers calls the vendor's library only and is left out; a port is what
    [UartOps] says. *)

From S2P Require Import Prelude Kernel Scheduler Timer Thread Tick Ipc Mutex Event Mailbox.
From S2P Require Import Memory Kservice Blocks Mem Heap Strings LinkedList Object Device Serial SerialUse.
From S2P Require Import MessageQueue Mempool Create Idle Layout Gentle Life LifeCalls LifeThreads LifeCreate LifeIdle LifeRun.
From S2P Require Printf.

(** ** The image: what the linker and the build configuration decide *)

Definition RT_MAIN_THREAD_STACK_SIZE : Z := 2048.
Definition RT_MAIN_THREAD_PRIORITY : Z := 10.
Definition RT_TIMER_THREAD_STACK_SIZE : Z := 512.
Definition RT_TIMER_THREAD_PRIO : Z := 4.

(** A device object with the address of its name. *)
Record listed := mk_listed { at_addr : Z; at_name : Z; at_flags : Z }.

Record image := mk_image {
  HEAP_BEGIN : Z;
  HEAP_END : Z;
  hw_pin : listed;                  (* _hw_pin of pin.c *)
  uart_obj : list listed;           (* drv_usart.c *)
  board_inits : list listed;        (* the devices the INIT_BOARD_EXPORT functions register *)
  console_name : Z;                 (* RT_CONSOLE_DEVICE_NAME *)
  version_lines : list (list Z);    (* the text of rt_show_version *)
  main_name : Z;
  main_thread_entry : Z;
  timer_thread_at : Z;
  timer_name : Z;
  rt_thread_timer_entry : Z;
  timer_thread_stack : Z;
  idle_at : Z;
  tidle_name : Z;                   (* the buffer of rt_thread_idle_init, on the stack of the start-up *)
  rt_thread_idle_entry : Z;
  rt_thread_stack : Z
}.

(** The variables of the kernel after reset: zero.  What a control block holds before
    its initialisation does not matter. *)
Definition reset_kernel (timer_thread : nat) : Kernel :=
  mkKernel 0
    (fun _ => mkThread RT_THREAD_INIT 0 0 0 0 0 0 0 0 false false)
    (fun x => match x with
              | ThreadTimer t => mkTimer 0 (rt_thread_timeout_fn t) 0 0
              | UserTimer n => mkTimer 0 (user_timeout_fn n) 0 0
              end)
    [] [] (fun _ => []) 0 None 0 0 0 timer_thread.

Section Startup.
Context {H : Type} {Ops : UartOps H} {Port : RxPort H}.
Context (container texit hook : Z) (img : image).
Abbreviation Dev := (SerialDevice H).

Record Boot := mk_boot {
  bt_sys : Sys;
  bt_uarts : list Dev;       (* in the order of [uart_obj] *)
  _console_device : Z
}.
#[global] Instance Boot_rebuild : Rebuild Boot := fun b => mk_boot (bt_sys b) (bt_uarts b) (_console_device b).

Abbreviation device_class y := (sy_ls y RT_Object_Class_Device).
Definition find_device (y : Sys) (name : Z) : option Z :=
  rt_device_find container (S (length (device_class y))) (sy_objects y) name.

(** A registration on the whole system: the object and its class. *)
Definition after_register (y : Sys) (s : Objects) (addr e : Z) : Sys :=
  mk_sys (sy_kernel y) s (sy_live y)
    (if e =? RT_EOK then set_class (sy_ls y) RT_Object_Class_Device (addr :: device_class y) else sy_ls y) (sy_pools y).

(** *** The devices of other drivers: pin, watchdog, converter, timers.  Nobody looks at the answer. *)
Definition rt_device_pin_register (y : Sys) (d : listed) : option Sys :=
  '(s, _, e) ← rt_device_register container (S (length (device_class y))) (sy_objects y) (at_addr d)
                 (mk_device 0 0 0 0 0 0 tt) (at_name d) (at_flags d);
  Some (after_register y s (at_addr d) e).
Fixpoint rt_components_board_init (y : Sys) (l : list listed) : option Sys :=
  match l with [] => Some y | d :: l => y ← rt_device_pin_register y d; rt_components_board_init y l end.

(** *** The serial ports: each registration is asserted *)
Definition fresh_uart (heap : Heap) (h : H) : Dev := mk_device 0 0 0 0 0 0 (mk_serial RT_SERIAL_CONFIG_DEFAULT None None h heap).
Definition UART_FLAGS : Z := Z.lor RT_DEVICE_FLAG_RDWR (Z.lor RT_DEVICE_FLAG_INT_RX RT_DEVICE_FLAG_INT_TX).

Fixpoint rt_hw_usart_init (y : Sys) (l : list listed) (ports : list H) : option (Sys * list Dev) :=
  match l, ports with
  | d :: l, h :: ports =>
      '(s, dev, result) ← rt_hw_serial_register container (S (length (device_class y))) (sy_objects y) (at_addr d)
                            (fresh_uart (obj_heap (sy_objects y)) h) (at_name d) (Z.lor UART_FLAGS (at_flags d));
      if result =? RT_EOK then
        '(y, devs) ← rt_hw_usart_init (after_register y s (at_addr d) result) l ports;
        Some (y, dev :: devs)
      else None
  | _, _ => Some (y, [])
  end.

(** *** The console (kservice.c) *)

(** A call on the serial device at an address; the devices of other drivers keep their state to themselves. *)
Fixpoint on_uart (addr : Z) (f : Dev -> option Dev) (l : list listed) (devs : list Dev) : option (list Dev) :=
  match l, devs with
  | d :: l, dev :: devs =>
      if at_addr d =? addr then dev ← f dev; Some (dev :: devs)
      else devs ← on_uart addr f l devs; Some (dev :: devs)
  | _, _ => Some devs
  end.

Definition rt_console_set_device (b : Boot) (name : Z) : option (Boot * Z) :=
  let old_device := _console_device b in
  new_device ← find_device (bt_sys b) name;
  if new_device =? 0 then Some (b, old_device)
  else
    devs ← (if old_device =? 0 then Some (bt_uarts b)
            else on_uart old_device (fun dev => fst <$> rt_device_close dev) (uart_obj img) (bt_uarts b));
    devs ← on_uart new_device (fun dev => fst <$> rt_device_open dev (Z.lor RT_DEVICE_OFLAG_RDWR RT_DEVICE_FLAG_STREAM))
             (uart_obj img) devs;
    Some (b <| bt_uarts := devs |> <| _console_device := new_device |>, old_device).

(** [rt_kprintf] with the text already formatted. *)
Definition rt_kputs (b : Boot) (text : list Z) : option Boot :=
  if _console_device b =? 0 then Some b
  else
    devs ← on_uart (_console_device b) (fun dev =>
             let old_flag := open_flag dev in
             let dev := dev <| open_flag := Z.lor (open_flag dev) RT_DEVICE_FLAG_STREAM |> in
             '(_, dev, _) ← rt_device_write 0 dev 0 text;
             Some (dev <| open_flag := old_flag |>)) (uart_obj img) (bt_uarts b);
    Some (b <| bt_uarts := devs |>).
Fixpoint rt_show_version (b : Boot) (lines : list (list Z)) : option Boot :=
  match lines with [] => Some b | text :: lines => b ← rt_kputs b text; rt_show_version b lines end.

(** *** The board *)
Definition hw_board_init (y : Sys) (ports : list H) : option (Sys * list Dev) :=
  y ← rt_device_pin_register y (hw_pin img);
  rt_hw_usart_init y (uart_obj img) ports.

Definition rt_hw_board_init (y : Sys) (ports : list H) : option Boot :=
  let s := sy_objects y in
  h ← rt_system_heap_init (rt_interrupt_nest (sy_kernel y)) (obj_heap s) (HEAP_BEGIN img) (HEAP_END img);
  '(y, devs) ← hw_board_init (y <| sy_objects := s <| obj_heap := h |> |>) ports;
  '(b, _) ← rt_console_set_device (mk_boot y devs 0) (console_name img);
  y ← rt_components_board_init (bt_sys b) (board_inits img);
  Some (b <| bt_sys := y |>).

(** *** The three threads *)
Definition start_thread (y : Sys) (thread : Z) : option Sys :=
  '(k, _) ← rt_thread_startup (sy_kernel y) (key thread);
  Some (y <| sy_kernel := k |>).

Definition rt_application_init (y : Sys) : option Sys :=
  '(k, s, tid) ← rt_thread_create container texit hook (all_threads y) (sy_kernel y) (sy_objects y) (main_name img)
                   (main_thread_entry img) 0 RT_MAIN_THREAD_STACK_SIZE RT_MAIN_THREAD_PRIORITY 20;
  if tid =? 0 then None
  else start_thread (after_thread_create y k s tid RT_MAIN_THREAD_STACK_SIZE) tid.

(** A static thread, initialised and started. *)
Definition static_thread (y : Sys) (thread name entry stack stack_size priority tick : Z) : option Sys :=
  '(k, s, _) ← rt_thread_init container texit hook (all_threads y) (sy_kernel y) (sy_objects y) thread name entry 0
                 stack stack_size priority tick;
  start_thread (mk_sys k s (sy_live y) (with_timer (with_thread (sy_ls y) thread) (thread_timer thread)) (sy_pools y)) thread.

Definition rt_system_timer_thread_init (y : Sys) : option Sys :=
  let y := y <| sy_kernel := Timer.rt_system_timer_thread_init (sy_kernel y) |> in
  static_thread y (timer_thread_at img) (timer_name img) (rt_thread_timer_entry img)
    (timer_thread_stack img) RT_TIMER_THREAD_STACK_SIZE RT_TIMER_THREAD_PRIO 10.

Definition rt_thread_idle_init (y : Sys) : option Sys :=
  '(k, s, _) ← Idle.rt_thread_idle_init container texit hook (idle_at img) (rt_thread_stack img) (rt_thread_idle_entry img)
                 (tidle_name img) (all_threads y) (sy_kernel y) (sy_objects y);
  Some (mk_sys k s (sy_live y) (with_timer (with_thread (sy_ls y) (idle_at img)) (thread_timer (idle_at img))) (sy_pools y)).

(** Everything up to the creation of main. *)
Definition before_main (s : Objects) (ports : list H) : option Boot :=
  let y := mk_sys (reset_kernel (key (timer_thread_at img))) s ∅ (fun _ => []) ∅ in
  b ← rt_hw_board_init y ports;
  b ← rt_show_version b (version_lines img);
  Some (b <| bt_sys := bt_sys b <| sy_kernel := rt_system_scheduler_init (rt_system_timer_init (sy_kernel (bt_sys b))) |> |>).

Definition rtthread_startup (s : Objects) (ports : list H) : option Boot :=
  b ← before_main s ports;
  y ← rt_application_init (bt_sys b);
  y ← rt_system_timer_thread_init y;
  y ← rt_thread_idle_init y;
  k ← rt_system_scheduler_start (sy_kernel y);
  Some (b <| bt_sys := y <| sy_kernel := k |> |> <| bt_uarts := with_heap (obj_heap (sy_objects y)) <$> bt_uarts b |>).

(** ** What the image has to provide *)

Definition apart2 (r r' : Z * Z) : Prop := r.1 + r.2 <= r'.1 \/ r'.1 + r'.2 <= r.1.

Definition device_place (d : listed) : Z * Z := (at_addr d, sizeof_device).
Definition thread_places : list (Z * Z) :=
  [(timer_thread_at img, sizeof_thread); (timer_thread_stack img, RT_TIMER_THREAD_STACK_SIZE);
   (tidle_name img, 8); (idle_at img, sizeof_thread); (rt_thread_stack img, IDLE_THREAD_STACK_SIZE)].
Definition ports_of : list listed := hw_pin img :: uart_obj img.

(** The static objects in the order of their initialisation, before the idle thread the buffer for its name, and the
    strings that name the ports. *)
Definition statics : list (Z * Z) := map device_place ports_of ++ map device_place (board_inits img) ++ thread_places.
Definition texts : list Z := console_name img :: map at_name ports_of.

Record image_ok (s : Objects) (ports : list H) : Prop := {
  im_heap : heap_start (obj_heap s) (HEAP_BEGIN img) (HEAP_END img);
  im_container : 0 < container /\ container + 144 <= HEAP_BEGIN img;
  im_lists : forall i, i ∈ rt_object_container container -> ring (obj_mem s) (object_list i) [];
  im_places : Forall (fun r => 0 < r.1 /\ r.1 + r.2 <= HEAP_BEGIN img /\ apart2 r (container, 144)) statics;
  im_apart : ForallOrdPairs apart2 statics;
  im_texts : Forall (fun n => n + 8 <= HEAP_BEGIN img /\ apart2 (n, 8) (container, 144) /\ Forall (apart2 (n, 8)) statics) texts;
  im_names : NoDup (map (fun d => name_at (obj_mem s) (at_name d)) ports_of);
  im_console : exists d, d ∈ uart_obj img /\ name_at (obj_mem s) (console_name img) = name_at (obj_mem s) (at_name d);
  im_flags : Forall (fun d => Z.testbit (at_flags d) 3 = false) (uart_obj img);
  im_ports : Forall2 (fun d h => (uart_configure h RT_SERIAL_CONFIG_DEFAULT).2 = RT_EOK) (uart_obj img) ports
}.

(** ** The heap *)

(** The first binding of a state is named. *)
Ltac name_let E y :=
  lazymatch type of E with (let x := ?v in @?f x) = ?r => pose (y := v); change (f y = r) in E; cbv beta in E end.

Lemma heap_init_low h b e h' : rt_system_heap_init 0 h b e = Some h' -> 0 < b <= 4294967200 ->
  forall a, a < b -> load8 (memory h') a = load8 (memory h) a.
Proof.
  intros E Hb. cbv beta delta [rt_system_heap_init] in E. name_let E mem. name_let E ea. change (negb (0 =? 0)) with false in E. cbv iota in E.
  assert (Hal : b <= mem) by (unfold mem; rewrite RT_ALIGN_4 by lia; Z.div_mod_to_equations; lia).
  destruct (_ && _); [|injection E as <-; auto]. clearbody mem ea.
  name_let E h0. assert (L0 : memory h0 = memory h) by reflexivity. clearbody h0.
  name_let E h1. assert (L1 : low h1 h1) by apply low_refl. assert (E1 : heap_ptr h1 = mem /\ memory h1 = memory h) by (split; [reflexivity | exact L0]).
  clearbody h1. name_let E m. assert (Hm : heap_ptr h1 <= m) by (unfold m; lia). clearbody m. name_let E ofs. clearbody ofs.
  name_let E g1. assert (L2 : low h1 g1) by exact (proj1 (low_put h1 _ _ _ L1 Hm)). clearbody g1.
  name_let E g2. assert (L3 : low h1 g2) by exact (proj1 (proj2 (proj2 (low_put h1 _ _ _ L2 Hm)))). clearbody g2.
  name_let E g3. assert (L4 : low h1 g3) by exact (proj2 (proj2 (proj2 (low_put h1 _ _ _ L3 Hm)))). clearbody g3.
  name_let E g4. assert (L5 : low h1 g4) by exact (proj1 (proj2 (low_put h1 _ _ _ L4 Hm))). clearbody g4.
  name_let E g5. assert (L6 : low h1 g5) by (apply (low_fields _ g4); [assumption | reflexivity | reflexivity]).
  assert (E6 : heap_ptr h1 <= heap_end g5) by apply (entry_low h1 g4 _ L5), next_nonneg. clearbody g5.
  name_let E g6. assert (E7 : heap_ptr h1 <= heap_end g6) by exact E6. assert (L7 : low h1 g6) by exact (proj1 (low_put h1 _ _ _ L6 E6)). clearbody g6.
  name_let E g7. assert (E8 : heap_ptr h1 <= heap_end g7) by exact E7. assert (L8 : low h1 g7) by exact (proj1 (proj2 (low_put h1 _ _ _ L7 E7))). clearbody g7.
  name_let E g8. assert (E9 : heap_ptr h1 <= heap_end g8) by exact E8. assert (L9 : low h1 g8) by exact (proj1 (proj2 (proj2 (low_put h1 _ _ _ L8 E8)))). clearbody g8.
  name_let E g9. assert (L10 : low h1 g9) by exact (proj2 (proj2 (proj2 (low_put h1 _ _ _ L9 E9)))). clearbody g9.
  injection E as <-. intros a Ha. destruct E1 as [<- <-]. apply L10. lia.
Qed.

(** ** Static memory nobody uses yet *)

Abbreviation sys_boot := (sys_state container False).
Abbreviation heap_of y := (obj_heap (sy_objects y)).
Abbreviation mem_of y := (obj_mem (sy_objects y)).

Definition free_place (y : Sys) (r : Z * Z) : Prop :=
  0 < r.1 /\ r.1 + r.2 <= heap_ptr (heap_of y) /\ apart2 r (container, 144) /\ clear_of container (sy_ls y) r.1 r.2.

Record booting (y : Sys) (todo : list (Z * Z)) : Prop := {
  bo_sys : sys_boot y;
  bo_free : Forall (free_place y) todo;
  bo_apart : ForallOrdPairs apart2 todo
}.

Lemma clear_add ls i o a n : i ∈ rt_object_container container -> clear_of container ls a n -> apart2 (a, n) (o, object_size i) ->
  clear_of container (set_class ls (oi_type i) (o :: ls (oi_type i))) a n.
Proof.
  intros Hi Hc Ha j x Hj Hx. unfold set_class in Hx. destruct (Z.eqb_spec (oi_type j) (oi_type i)) as [E|]; [|apply (Hc j x Hj Hx)].
  destruct (table_apart container j i Hj Hi) as [->|[Hne _]]; [|contradiction].
  apply elem_of_cons in Hx as [->|Hx]; [unfold apart2 in Ha; cbn [fst snd] in Ha; lia | apply (Hc i x Hi Hx)].
Qed.

Lemma place_region y live r : free_place y r -> region container (heap_of y) live r.1 r.2.
Proof. intros (H1 & H2 & H3 & _). left. unfold apart2 in H3. cbn [fst snd] in H3. lia. Qed.

(** Pools are blocks of the heap. *)
Lemma place_pools y r : sys_boot y -> free_place y r -> pools_clear (sy_live y) (sy_pools y) r.1 r.2.
Proof.
  intros Hy (_ & Hr & _) o p n _ Hl. destruct (oo_heap _ _ _ _ (la_objects _ _ _ _ _ (yo_layout _ _ Hy))) as [bs Hst].
  destruct (live_region _ _ _ _ _ Hst Hl) as (_ & R & _). unfold HDR in R. lia.
Qed.

Lemma booting_next y y' r todo i : booting y (r :: todo) -> i ∈ rt_object_container container -> r.2 = object_size i ->
  sys_boot y' -> heap_ptr (heap_of y') = heap_ptr (heap_of y) -> sy_ls y' = set_class (sy_ls y) (oi_type i) (r.1 :: sy_ls y (oi_type i)) ->
  booting y' todo.
Proof.
  intros [_ Hf Ha] Hi Hr Hy Hh El. apply Forall_cons in Hf as [_ Hf]. inversion Ha as [|? ? Hr0 Ha']; subst.
  split; [exact Hy | | exact Ha']. rewrite !Forall_forall in *. intros q Hq. destruct (Hf q Hq) as (Q1 & Q2 & Q3 & Q4).
  specialize (Hr0 q Hq). unfold free_place. rewrite Hh, El. split_ands; auto.
  apply clear_add; auto. unfold apart2 in *. cbn [fst snd]. rewrite <- Hr. lia.
Qed.

(** ** Registering devices *)

Definition the_devices : rt_object_information := mk_information RT_Object_Class_Device (entry_list container 7) sizeof_device.
Lemma devices_in_table : the_devices ∈ rt_object_container container.
Proof. unfold rt_object_container. do 7 right. left. Qed.

Lemma register_ok y d todo : booting y (device_place d :: todo) ->
  exists s', rt_object_init container (S (length (device_class y))) (sy_objects y) (at_addr d) RT_Object_Class_Device (at_name d) = Some s' /\
    booting (after_register y s' (at_addr d) RT_EOK) todo /\
    (apart2 (at_name d, 8) (device_place d) -> name_at (obj_mem s') (at_addr d) = name_at (mem_of y) (at_name d)) /\
    (forall a, untouched container (sy_ls y) (at_addr d) a -> load8 (obj_mem s') a = load8 (mem_of y) a).
Proof.
  intros Hb. pose proof Hb as [Hy Hf _]. apply Forall_cons in Hf as [Hf _]. pose proof devices_in_table as Hi.
  pose proof (place_region y (sy_live y) _ Hf) as Hr. pose proof (place_pools y _ Hy Hf) as Hp. destruct Hf as (F1 & F2 & F3 & F4).
  cbn [device_place fst snd] in *. change sizeof_device with (object_size the_devices) in *.
  assert (Hv : vacant container (sy_ls y) the_devices (at_addr d)) by (apply clear_vacant, F4).
  destruct (init_ok container y Hy (S (length (device_class y))) the_devices (at_addr d) (at_name d) Hi) as (s' & E & Hs & _);
    [split; discriminate | exact Hr | exact Hv | exact Hp | cbn [oi_type the_devices]; lia|].
  destruct (lay_init container (sy_objects y) (sy_live y) (sy_ls y) (sy_pools y) (yo_layout _ _ Hy) (S (length (device_class y)))
    the_devices (at_addr d) (at_name d) Hi Hr Hv Hp) as (s2 & E2 & _ & Eh & Hun & _); [cbn [oi_type the_devices]; lia|].
  destruct (init_spec container (sy_objects y) (sy_live y) (sy_ls y) (la_objects _ _ _ _ _ (yo_layout _ _ Hy)) the_devices Hi
    (S (length (device_class y))) (at_addr d) (at_name d)) as (s3 & E3 & _ & Hn & _);
    [apply (region_placed _ _ _ _ _ Hr); vm_compute; discriminate | apply (vacant_apart container _ the_devices); auto | cbn [oi_type the_devices]; lia|].
  assert (s2 = s') as -> by congruence. assert (s3 = s') as -> by congruence.
  exists s'. split; [exact E|]. split; [|split; [|exact Hun]].
  - apply (booting_next y _ _ todo the_devices Hb Hi eq_refl); [exact Hs | exact Eh | reflexivity].
  - intros Ha. apply Hn. unfold apart2 in Ha. cbn [fst snd device_place] in Ha. change sizeof_device with 64 in Ha. unfold SIZEOF_OBJECT. lia.
Qed.

(** The devices registered so far, the last one first, under names from the memory [m0]. *)
Section Enrolled.
Context (m0 : Memory).
Definition name_of (d : listed) : list Z := name_at m0 (at_name d).

Record enrolled (y : Sys) (todo : list (Z * Z)) (done : list listed) : Prop := {
  en_booting : booting y todo;
  en_devices : device_class y = map at_addr done;
  en_names : Forall (fun d => name_at (mem_of y) (at_addr d) = name_of d) done;
  en_texts : Forall (fun n => clear_of container (sy_ls y) n 8 /\ apart2 (n, 8) (container, 144) /\ name_at (mem_of y) n = name_at m0 n) texts
}.

Lemma find_enrolled y todo done n : enrolled y todo done -> n ∈ texts ->
  find_device y n = Some (default 0 (at_addr <$> List.find (fun d => bool_decide (name_of d = name_at m0 n)) done)).
Proof.
  intros [[Hy _ _] Hd Hn Ht] Hin. rewrite Forall_forall in Ht. destruct (Ht n Hin) as (_ & _ & En). unfold find_device.
  rewrite (device_find_spec container _ _ _ (la_objects _ _ _ _ _ (yo_layout _ _ Hy))) by lia. rewrite Hd, En. do 2 f_equal. clear -Hn.
  induction Hn as [|d done E _ IH]; [reflexivity|]. cbn [map List.find fmap option_fmap option_map]. rewrite E.
  destruct (bool_decide _); [reflexivity | exact IH].
Qed.

Lemma find_nobody y todo done n : enrolled y todo done -> n ∈ texts -> name_at m0 n ∉ map name_of done -> find_device y n = Some 0.
Proof.
  intros He Hn Hno. rewrite (find_enrolled _ _ _ _ He Hn). destruct (List.find _ done) as [d|] eqn:E; [|reflexivity].
  apply List.find_some in E as [Hd E]. apply bool_decide_eq_true in E. destruct Hno. rewrite <- E. apply list_elem_of_fmap_2, list_elem_of_In, Hd.
Qed.

(** With different names, the device that has the name is the one found. *)
Lemma find_named y todo done d n : enrolled y todo done -> n ∈ texts -> NoDup (map name_of done) -> d ∈ done -> name_of d = name_at m0 n ->
  find_device y n = Some (at_addr d).
Proof.
  intros He Hn Hnd Hd E. rewrite (find_enrolled _ _ _ _ He Hn). do 2 f_equal. clear -Hnd Hd E.
  induction done as [|x done IH]; [inversion Hd|]. cbn [map] in Hnd. apply NoDup_cons in Hnd as [Hx Hnd]. cbn [List.find].
  destruct (bool_decide_reflect (name_of x = name_at m0 n)) as [Ex|Ex].
  - apply elem_of_cons in Hd as [->|Hd]; [reflexivity|]. destruct Hx. rewrite Ex, <- E. apply list_elem_of_fmap_2, Hd.
  - apply elem_of_cons in Hd as [->|Hd]; [contradiction | apply (IH Hnd Hd)].
Qed.

Lemma enroll y d todo done : enrolled y (device_place d :: todo) done -> Forall (fun n => apart2 (n, 8) (device_place d)) texts ->
  at_name d ∈ texts ->
  exists s', rt_object_init container (S (length (device_class y))) (sy_objects y) (at_addr d) RT_Object_Class_Device (at_name d) = Some s' /\
    enrolled (after_register y s' (at_addr d) RT_EOK) todo (d :: done).
Proof.
  intros [Hb Hd Hn Ht] Hap Hin. destruct (register_ok y d todo Hb) as (s' & E & Hb' & Hname & Hun). exists s'. split; [exact E|].
  pose proof Hb as [Hy Hf _]. apply Forall_cons in Hf as [(F1 & F2 & F3 & F4) _]. cbn [device_place fst snd] in *. change sizeof_device with 64 in *.
  pose proof (la_objects _ _ _ _ _ (yo_layout _ _ Hy)) as Hok. pose proof devices_in_table as Hi.
  split; [exact Hb' | cbn; rewrite Hd; reflexivity | |].
  - change (Forall (fun d => name_at (obj_mem s') (at_addr d) = name_of d) (d :: done)). apply Forall_cons. split.
    + rewrite Hname by (rewrite Forall_forall in Hap; apply Hap, Hin). rewrite Forall_forall in Ht. apply (Ht _ Hin).
    + rewrite Forall_forall in *. intros x Hx. rewrite <- (Hn x Hx). apply name_at_ext. intros a Ha. apply Hun.
      assert (Hxd : at_addr x ∈ device_class y) by (rewrite Hd; apply list_elem_of_fmap_2, Hx).
      pose proof (placed_range _ _ _ _ Hok _ (registered_class _ _ _ _ Hok the_devices _ Hi Hxd)) as R. specialize (F4 the_devices _ Hi Hxd).
      change (object_size the_devices) with 64 in F4. unfold untouched, SIZEOF_OBJECT, list_node in *. split; [lia|]. split; [lia|].
      intros z (j & Hj & Hz). destruct (oo_apart _ _ _ _ Hok the_devices j _ z Hi Hj Hxd Hz) as [[_ <-]|H1]; [lia|].
      unfold apart20, SIZEOF_OBJECT in H1. lia.
  - rewrite Forall_forall in *. intros n Hnt. destruct (Ht n Hnt) as (T1 & T2 & T3). specialize (Hap n Hnt). split; [|split; [exact T2|]].
    + apply (clear_add (sy_ls y) the_devices); auto.
    + rewrite <- T3. apply name_at_ext. intros a Ha. apply Hun. unfold untouched, apart2, device_place, SIZEOF_OBJECT, list_node in *. cbn [fst snd] in *.
      split; [lia|]. split; [change sizeof_device with 64 in Hap; lia|]. intros z (j & Hj & Hz). specialize (T1 j z Hj Hz).
      pose proof (size_pos _ _ Hj). lia.
Qed.
End Enrolled.

(** ** A kernel without threads *)

Record asleep (k : Kernel) : Prop := {
  as_tick : rt_tick k = 0;
  as_lists : forall l, lists k l = [];
  as_threads : forall t, thread_stat (threads k t) = RT_THREAD_INIT;
  as_timers : forall t, timers k (ThreadTimer t) = mkTimer 0 (rt_thread_timeout_fn t) 0 0;
  as_timer_list : rt_timer_list k = [];
  as_soft_list : rt_soft_timer_list k = [];
  as_group : rt_thread_ready_priority_group k = 0;
  as_current : rt_current_thread k = None;
  as_nest : rt_interrupt_nest k = 0;
  as_lock : rt_scheduler_lock_nest k = 0
}.

Lemma reset_asleep t : asleep (reset_kernel t).
Proof. split; reflexivity. Qed.

Lemma system_init_asleep k : asleep k -> asleep (rt_system_scheduler_init (rt_system_timer_init k)).
Proof.
  intros [A1 A2 A3 A4 A5 A6 A7 A8 A9 A10]. split; auto. intros l. cbn. destruct l; auto. destruct (_ && _); auto.
Qed.

Lemma asleep_state k : asleep k -> kernel_state False k.
Proof.
  intros [A1 A2 A3 A4 A5 A6 A7 A8 A9 A10]. split; [split; [split; [split|split|]|split] | contradiction | rewrite A5; constructor].
  - intros l. rewrite A2. constructor.
  - intros t l l' Hin. rewrite A2 in Hin. inversion Hin.
  - rewrite A7. lia.
  - intros p Hp. rewrite A7, A2, Z.bits_0. reflexivity.
  - intros t. split; rewrite ?A3, ?A8; try discriminate. intros l Hin. rewrite A2 in Hin. inversion Hin.
  - rewrite A1. lia.
  - rewrite A5. constructor.
  - intros t. rewrite A4. split; [reflexivity|]. split; reflexivity.
  - intros t Hin. rewrite A5 in Hin. inversion Hin.
  - intros t Hin. rewrite A6 in Hin. inversion Hin.
  - rewrite A5. split; constructor.
Qed.

(** Devices only, and no block of the heap in use. *)
Record bare (k : Kernel) (y : Sys) : Prop := {
  ba_kernel : sy_kernel y = k;
  ba_live : sy_live y = ∅;
  ba_pools : sy_pools y = ∅;
  ba_threads : sy_ls y RT_Object_Class_Thread = [];
  ba_timers : sy_ls y RT_Object_Class_Timer = []
}.

Lemma bare_register k y s addr e : bare k y -> bare k (after_register y s addr e).
Proof. intros [B1 B2 B3 B4 B5]. unfold after_register. destruct (e =? RT_EOK); split; auto. Qed.

Lemma bare_sys k k' y : bare k y -> sys_boot y -> asleep k' -> sys_boot (y <| sy_kernel := k' |>).
Proof.
  intros [B1 B2 B3 B4 B5] Hy Ha. split; cbn [sy_kernel sy_objects sy_live sy_ls sy_pools modify].
  - apply asleep_state, Ha.
  - apply Ha.
  - apply Hy.
  - intros l c o t _ Hin. change (t ∈ lists k' l) in Hin. rewrite (as_lists _ Ha) in Hin. inversion Hin.
  - change (threads_in k' (sy_objects y) (sy_ls y) (sy_pools y)). split; rewrite ?B4, ?B3.
    + intros o Ho. inversion Ho.
    + intros t Hl. rewrite (as_threads _ Ha) in Hl. discriminate.
    + intros t Hin. rewrite (as_lists _ Ha) in Hin. inversion Hin.
    + intros c Hc. rewrite (as_current _ Ha) in Hc. discriminate.
    + intros o p Hp. rewrite lookup_empty in Hp. discriminate.
Qed.

(** ** Power on *)

Lemma power_on s ports : image_ok s ports ->
  exists h, rt_system_heap_init 0 (obj_heap s) (HEAP_BEGIN img) (HEAP_END img) = Some h /\
    let y := mk_sys (reset_kernel (key (timer_thread_at img))) (s <| obj_heap := h |>) ∅ (fun _ => []) ∅ in
    enrolled (obj_mem s) y statics [] /\ bare (reset_kernel (key (timer_thread_at img))) y.
Proof.
  intros [I1 [I2 I2'] I3 I4 I5 I6 I7 I8 I9 I10]. destruct (start_ok _ _ _ I1) as (h & E & Hst & Hp & _). exists h. split; [exact E|].
  pose proof (heap_init_low _ _ _ _ E (hs_begin _ _ _ I1)) as Hlow. set (k := reset_kernel _). cbv zeta. split; [|split; reflexivity].
  set (s' := s <| obj_heap := h |>).
  assert (Hla : layout_ok container s' ∅ (fun _ => []) ∅).
  { split.
    - split; auto.
      + change (heap_ptr (obj_heap s')) with (heap_ptr h). lia.
      + intros i Hi. specialize (I3 i Hi). pose proof (table_in _ _ Hi) as (T1 & T2 & _). unfold ring in *. cbn [map linked] in *.
        unfold node_next, node_prev in *. rewrite !(same_on_load32 (obj_mem s') (obj_mem s)); [exact I3 | | ];
          intros a Ha; apply Hlow; lia.
      + intros i o _ Ho. inversion Ho.
      + intros i o _ Ho. inversion Ho.
      + intros o (i & _ & Ho). inversion Ho.
      + intros i _. apply NoDup_nil_2.
      + intros i j a b _ _ Ha. inversion Ha.
    - intros i o _ Ho. inversion Ho.
    - intros i j a b _ _ Ha. inversion Ha.
    - intros o p Ho. rewrite lookup_empty in Ho. discriminate.
    - intros o o' p Ho. rewrite lookup_empty in Ho. discriminate. }
  assert (Hclear : forall a n, clear_of container (fun _ => []) a n) by (intros a n i x _ Hx; inversion Hx).
  split; [split | reflexivity | constructor |].
  - apply (bare_sys k k (mk_sys k s' ∅ (fun _ => []) ∅)); [split; reflexivity | | apply reset_asleep].
    split; cbn [sy_kernel sy_objects sy_live sy_ls sy_pools]; auto; [apply asleep_state, reset_asleep | intros l c o t _ Hin; inversion Hin|].
    split; try discriminate; [intros o Ho; inversion Ho | intros t Hin; inversion Hin].
  - rewrite Forall_forall in *. intros r Hr. destruct (I4 r Hr) as (R1 & R2 & R3). split; [exact R1|]. split; [|split; [exact R3 | apply Hclear]].
    change (r.1 + r.2 <= heap_ptr h). lia.
  - exact I5.
  - rewrite Forall_forall in *. intros n Hn. destruct (I6 n Hn) as (N1 & N2 & _). split; [apply Hclear|]. split; [exact N2|].
    apply name_at_ext. intros a Ha. apply Hlow. lia.
Qed.

(** ** The board *)

Definition named_apart (d : listed) : Prop := Forall (fun n => apart2 (n, 8) (device_place d)) texts.

Lemma pin_ok m0 y d todo done k : enrolled m0 y (device_place d :: todo) done -> bare k y -> named_apart d -> at_name d ∈ texts ->
  name_of m0 d ∉ map (name_of m0) done ->
  exists y', rt_device_pin_register y d = Some y' /\ enrolled m0 y' todo (d :: done) /\ bare k y'.
Proof.
  intros He Hb Ha Hn Hno. destruct (enroll m0 y d todo done He Ha Hn) as (s' & E & He').
  pose proof (bo_free _ _ (en_booting _ _ _ _ He)) as Hf. apply Forall_cons in Hf as [(F1 & _) _]. cbn [device_place fst] in F1.
  unfold rt_device_pin_register, rt_device_register. destruct (Z.eqb_spec (at_addr d) 0); [lia|].
  pose proof (find_nobody m0 y _ _ _ He Hn Hno) as Ef. unfold find_device in Ef. rewrite Ef. cbn [mbind option_bind Z.eqb negb].
  rewrite E. cbn [mbind option_bind]. eexists. split; [reflexivity|]. split; [exact He' | apply bare_register, Hb].
Qed.

(** Other devices may be refused. *)
Lemma others_ok k l : forall y todo, booting y (map device_place l ++ todo) -> bare k y ->
  exists y', rt_components_board_init y l = Some y' /\ booting y' todo /\ bare k y'.
Proof.
  induction l as [|d l IH]; intros y todo Hb Hk; cbn [rt_components_board_init map app] in *; [eauto|].
  pose proof Hb as [Hy Hf _]. apply Forall_cons in Hf as [(F1 & _) _]. cbn [device_place fst] in F1.
  unfold rt_device_pin_register, rt_device_register. destruct (Z.eqb_spec (at_addr d) 0); [lia|].
  rewrite (device_find_spec container _ _ _ (la_objects _ _ _ _ _ (yo_layout _ _ Hy))) by lia. cbn [mbind option_bind].
  destruct (negb _).
  - cbn [mbind option_bind]. apply IH; [|apply bare_register, Hk]. pose proof Hb as [_ Hf Ha]. apply Forall_cons in Hf as [_ Hf].
    inversion Ha; subst. unfold after_register. change (- RT_ERROR =? RT_EOK) with false. cbv iota. destruct y. split; assumption.
  - destruct (register_ok y d _ Hb) as (s' & -> & Hb' & _). cbn [mbind option_bind]. apply IH; [exact Hb' | apply bare_register, Hk].
Qed.

(** A registered port: nobody but the console has it open. *)
Record port_up (console : Z) (d : listed) (dev : Dev) : Prop := {
  up_quiet : quiet dev ∅;
  up_config : config (serial_of dev) = RT_SERIAL_CONFIG_DEFAULT;
  up_silent : rx_indicate dev = 0;
  up_count : ref_count dev = if at_addr d =? console then 1 else 0
}.
Definition port_fresh (d : listed) (dev : Dev) : Prop :=
  at_addr d <> 0 /\ port_up 0 d dev /\ (uart_configure (port (serial_of dev)) RT_SERIAL_CONFIG_DEFAULT).2 = RT_EOK.

Lemma usart_flags d : Z.testbit (at_flags d) 3 = false -> bit (Z.lor UART_FLAGS (at_flags d)) 8 = true /\ bit (Z.lor UART_FLAGS (at_flags d)) 3 = false.
Proof. intros H3. rewrite !bit_lor. change (bit (at_flags d) 3) with (Z.testbit (at_flags d) 3). rewrite H3. split; reflexivity. Qed.

Lemma usart_ok m0 k l ports : Forall2 (fun d h => (uart_configure h RT_SERIAL_CONFIG_DEFAULT).2 = RT_EOK) l ports ->
  forall y todo done, enrolled m0 y (map device_place l ++ todo) done -> bare k y ->
  Forall (fun d => named_apart d /\ (at_name d ∈ texts) /\ Z.testbit (at_flags d) 3 = false) l ->
  NoDup (map (name_of m0) (rev l ++ done)) ->
  exists y' devs, rt_hw_usart_init y l ports = Some (y', devs) /\ enrolled m0 y' todo (rev l ++ done) /\ bare k y' /\ Forall2 port_fresh l devs.
Proof.
  induction 1 as [|d h l ports Hc _ IH]; intros y todo done He Hb Hl Hnd; cbn [rt_hw_usart_init map app rev] in *.
  { exists y, []. split_ands; auto. }
  apply Forall_cons in Hl as [(L1 & L2 & L3) Hl]. rewrite <- app_assoc in *. cbn [app] in *.
  destruct (enroll m0 y d _ done He L1 L2) as (s' & E & He').
  pose proof (bo_free _ _ (en_booting _ _ _ _ He)) as Hf. apply Forall_cons in Hf as [(F1 & _) _]. cbn [device_place fst] in F1.
  assert (Hno : name_of m0 d ∉ map (name_of m0) done).
  { rewrite map_app in Hnd. apply NoDup_app in Hnd as (_ & _ & Hnd). cbn [map] in Hnd. apply NoDup_cons in Hnd. apply Hnd. }
  pose proof (find_nobody m0 y _ _ _ He L2 Hno) as Ef.
  assert (Hreg : exists dev, rt_hw_serial_register container (S (length (device_class y))) (sy_objects y) (at_addr d)
      (fresh_uart (heap_of y) h) (at_name d) (Z.lor UART_FLAGS (at_flags d)) = Some (s', dev, RT_EOK) /\ port_fresh d dev).
  { unfold rt_hw_serial_register, rt_device_register. destruct (Z.eqb_spec (at_addr d) 0) as [|Hne]; [lia|].
    unfold find_device in Ef. rewrite Ef. cbn [mbind option_bind Z.eqb negb]. rewrite E. cbn [mbind option_bind]. eexists. split; [reflexivity|].
    split; [exact Hne|]. split; [|exact Hc]. destruct (usart_flags d L3) as [G8 G3]. split; try reflexivity; [|apply Z.eqb_neq in Hne; rewrite Hne; reflexivity].
    apply quiet_registered. split; try reflexivity; [| vm_compute; split; discriminate | | split; reflexivity | split; reflexivity].
    - pose proof (oo_heap _ _ _ _ (la_objects _ _ _ _ _ (yo_layout _ _ (bo_sys _ _ (en_booting _ _ _ _ He))))) as Hg.
      rewrite (ba_live _ _ Hb) in Hg. exact Hg.
    - change (dev_flag (_ <| open_flag := 0 |>)) with (u16 (Z.lor UART_FLAGS (at_flags d))). unfold bit in *. rewrite !u16_bit by lia. auto. }
  destruct Hreg as (dev & -> & Hdev). cbn [mbind option_bind]. change (RT_EOK =? RT_EOK) with true. cbv iota.
  destruct (IH _ todo (d :: done) He' (bare_register _ _ _ _ _ Hb) Hl Hnd) as (y' & devs & -> & He2 & Hb2 & Hds). cbn [mbind option_bind].
  exists y', (dev :: devs). split_ands; auto.
Qed.

(** One device among the ports. *)
Lemma on_uart_ok (P Q : listed -> Dev -> Prop) addr f l devs : Forall2 P l devs -> NoDup (map at_addr l) ->
  (forall d dev, d ∈ l -> at_addr d = addr -> P d dev -> exists dev', f dev = Some dev' /\ Q d dev') ->
  (forall d dev, at_addr d <> addr -> P d dev -> Q d dev) ->
  exists devs', on_uart addr f l devs = Some devs' /\ Forall2 Q l devs'.
Proof.
  intros HP Hnd Hf Ho. induction HP as [|d dev l devs Hd HP IH]; cbn [on_uart map] in *; [eauto|].
  apply NoDup_cons in Hnd as [Hd' Hnd]. destruct (Z.eqb_spec (at_addr d) addr) as [E|E].
  - destruct (Hf d dev ltac:(left) E Hd) as (dev' & -> & HQ). cbn [mbind option_bind]. eexists. split; [reflexivity|]. constructor; [exact HQ|].
    clear IH Hf Hd. induction HP as [|d2 dev2 l devs H2 HP IH]; [constructor|]. cbn [map] in *. apply not_elem_of_cons in Hd' as [Hne Hd'].
    apply NoDup_cons in Hnd as [_ Hnd]. constructor; [apply Ho; [congruence | exact H2] | apply (IH Hd' Hnd)].
  - destruct IH as (devs' & -> & HQ); [exact Hnd | intros d2 dev2 Hin; apply Hf; right; exact Hin|]. cbn [mbind option_bind].
    eexists. split; [reflexivity|]. constructor; auto.
Qed.

Lemma console_ok m0 y todo devs d : enrolled m0 y todo (rev (uart_obj img) ++ [hw_pin img]) ->
  NoDup (map (name_of m0) (rev (uart_obj img) ++ [hw_pin img])) -> Forall2 port_fresh (uart_obj img) devs ->
  NoDup (map at_addr (uart_obj img)) -> d ∈ uart_obj img -> name_at m0 (console_name img) = name_of m0 d -> 0 < at_addr d ->
  exists devs', rt_console_set_device (mk_boot y devs 0) (console_name img) = Some (mk_boot y devs' (at_addr d), 0) /\
    Forall2 (port_up (at_addr d)) (uart_obj img) devs'.
Proof.
  intros He Hnd Hds Hu Hd En Hpos. unfold rt_console_set_device. cbn [bt_sys bt_uarts _console_device].
  rewrite (find_named m0 y todo (rev (uart_obj img) ++ [hw_pin img]) d (console_name img) He);
    [| left | exact Hnd | apply elem_of_app; left; apply list_elem_of_In, (proj1 (in_rev _ _)), list_elem_of_In, Hd | symmetry; exact En].
  cbn [mbind option_bind]. destruct (Z.eqb_spec (at_addr d) 0); [lia|]. cbn [Z.eqb]. cbn [mbind option_bind].
  destruct (on_uart_ok port_fresh (port_up (at_addr d)) (at_addr d)
    (fun dev => fst <$> rt_device_open dev (Z.lor RT_DEVICE_OFLAG_RDWR RT_DEVICE_FLAG_STREAM)) (uart_obj img) devs Hds Hu) as (devs' & -> & Hds').
  - intros d2 dev Hin Ed (Hz & [U1 U2 U3 U4] & Hc). apply Z.eqb_neq in Hz.
    assert (Hr : ref_count dev = 0) by (rewrite U4, Hz; reflexivity).
    destruct (quiet_console dev ∅ (Z.lor RT_DEVICE_OFLAG_RDWR RT_DEVICE_FLAG_STREAM) U1) as (dev' & -> & Q1 & Q2 & Q3 & Q4);
      [repeat split | exact Hr | rewrite U2; exact Hc|].
    exists dev'. split; [reflexivity|]. split; auto; [congruence | congruence | rewrite Q2, Ed, Z.eqb_refl; reflexivity].
  - intros d2 dev Hne (Hz & [U1 U2 U3 U4] & _). split; auto. apply Z.eqb_neq in Hne, Hz. rewrite Hne, U4, Hz. reflexivity.
  - cbn [mbind option_bind]. eexists. split; [reflexivity | exact Hds'].
Qed.

Lemma version_ok lines : forall b d, _console_device b = at_addr d -> 0 < at_addr d -> NoDup (map at_addr (uart_obj img)) ->
  Forall2 (port_up (at_addr d)) (uart_obj img) (bt_uarts b) ->
  exists devs, rt_show_version b lines = Some (b <| bt_uarts := devs |>) /\ Forall2 (port_up (at_addr d)) (uart_obj img) devs.
Proof.
  induction lines as [|text lines IH]; intros b d Ec Hpos Hnd Hu; cbn [rt_show_version].
  { exists (bt_uarts b). destruct b. auto. }
  unfold rt_kputs. rewrite Ec. destruct (Z.eqb_spec (at_addr d) 0); [lia|]. cbv zeta.
  match goal with |- context [on_uart _ ?f _ _] => destruct (on_uart_ok (port_up (at_addr d)) (port_up (at_addr d)) (at_addr d) f (uart_obj img) (bt_uarts b) Hu Hnd) as (devs & -> & Hds) end.
  - intros d2 dev _ _ [U1 U2 U3 U4]. pose proof (su_tx _ (qt_ok _ _ U1)) as [_ T]. cbn [fst] in T.
    destruct (put_port dev ∅ (Z.lor (open_flag dev) RT_DEVICE_FLAG_STREAM) text U1) as (h & dev' & e & r & -> & E);
      [rewrite bit_lor, T; reflexivity|]. cbn [mbind option_bind]. rewrite E. eexists. split; [reflexivity|].
    split; auto. apply quiet_port, U1.
  - auto.
  - cbn [mbind option_bind]. set (b1 := b <| bt_uarts := devs |>).
    destruct (IH b1 d Ec Hpos Hnd Hds) as (devs2 & -> & H2). exists devs2. split; [reflexivity | exact H2].
Qed.

Lemma places_apart l rest : ForallOrdPairs apart2 (map device_place l ++ rest) -> NoDup (map at_addr l).
Proof.
  induction l as [|d l IH]; intros Ha; cbn [map app] in *; [constructor|]. inversion Ha as [|? ? Hd Ha']; subst. constructor; [|apply IH, Ha'].
  intros Hin. apply list_elem_of_fmap in Hin as (d2 & E & Hd2). rewrite Forall_forall in Hd.
  specialize (Hd (device_place d2) ltac:(apply elem_of_app; left; apply list_elem_of_fmap_2, Hd2)).
  unfold apart2, device_place in Hd. cbn [fst snd] in Hd. change sizeof_device with 64 in Hd. lia.
Qed.

Lemma ports_named s ports : image_ok s ports ->
  Forall (fun d => named_apart d /\ (at_name d ∈ texts) /\ 0 < at_addr d) ports_of /\ NoDup (map at_addr (uart_obj img)) /\
  NoDup (map (name_of (obj_mem s)) (rev (uart_obj img) ++ [hw_pin img])).
Proof.
  intros [I1 I2 I3 I4 I5 I6 I7 I8 I9 I10]. split; [|split].
  - rewrite Forall_forall in I4. rewrite Forall_forall in I6. rewrite Forall_forall. intros d Hd. assert (Hs : device_place d ∈ statics) by (unfold statics; apply elem_of_app; left; apply list_elem_of_fmap_2, Hd).
    split; [|split].
    + unfold named_apart. rewrite Forall_forall. intros n Hn. destruct (I6 n Hn) as (_ & _ & H1). rewrite Forall_forall in H1. apply H1, Hs.
    + unfold texts. right. apply list_elem_of_fmap_2, Hd.
    + apply (I4 _ Hs).
  - unfold statics in I5. apply places_apart in I5. cbn [ports_of map] in I5. apply NoDup_cons in I5. apply I5.
  - assert (P : map (name_of (obj_mem s)) (rev (uart_obj img) ++ [hw_pin img]) ≡ₚ map (name_of (obj_mem s)) ports_of).
    { apply Permutation_map. change (rev (uart_obj img) ++ [hw_pin img]) with (rev ports_of). symmetry. apply Permutation_rev. }
    rewrite P. exact I7.
Qed.

(** What the board's set-up leaves to the rest of the start-up. *)
Record board_up (b : Boot) (d : listed) (k : Kernel) : Prop := {
  bu_console : (d ∈ uart_obj img) /\ _console_device b = at_addr d;
  bu_uarts : Forall2 (port_up (at_addr d)) (uart_obj img) (bt_uarts b);
  bu_booting : booting (bt_sys b) thread_places;
  bu_bare : bare k (bt_sys b);
  bu_asleep : asleep k
}.

Lemma before_main_ok s ports : image_ok s ports ->
  exists b d k, before_main s ports = Some b /\ board_up b d k /\ name_at (obj_mem s) (console_name img) = name_of (obj_mem s) d.
Proof.
  intros Hi. destruct (ports_named s ports Hi) as (Hp & Hnd & Hnn). destruct (power_on s ports Hi) as (h & Eh & He & Hb).
  set (k := reset_kernel (key (timer_thread_at img))) in *. cbv zeta in He, Hb.
  pose proof Hi as [_ _ _ _ _ _ _ (d & Hd & En) I9 I10]. set (m0 := obj_mem s) in *.
  unfold before_main. cbv zeta. unfold rt_hw_board_init. cbn [sy_kernel sy_objects]. fold k. change (rt_interrupt_nest k) with 0.
  rewrite Eh. cbn [mbind option_bind]. unfold hw_board_init.
  match goal with |- context [rt_device_pin_register ?y _] => change y with (mk_sys k (s <| obj_heap := h |>) ∅ (fun _ => []) ∅) end.
  set (y := mk_sys k _ _ _ _) in *. unfold statics, ports_of in He. cbn [map app] in He. unfold ports_of in Hp. apply Forall_cons in Hp as [(P1 & P2 & P3) Hp].
  destruct (pin_ok m0 y (hw_pin img) _ [] k He Hb P1 P2) as (y1 & -> & He1 & Hb1); [intros Hx; inversion Hx|]. cbn [mbind option_bind].
  destruct (usart_ok m0 k (uart_obj img) ports I10 y1 _ [hw_pin img] He1 Hb1) as (y2 & devs & -> & He2 & Hb2 & Hds); [|exact Hnn|].
  { rewrite Forall_forall in *. intros x Hx. destruct (Hp x Hx) as (X1 & X2 & _). auto. }
  cbn [mbind option_bind]. assert (Hpos : 0 < at_addr d) by (rewrite Forall_forall in Hp; apply (Hp d Hd)).
  destruct (console_ok m0 y2 _ devs d He2 Hnn Hds Hnd Hd En Hpos) as (devs2 & -> & Hds2). cbn [mbind option_bind bt_sys].
  destruct (others_ok k (board_inits img) y2 thread_places (en_booting _ _ _ _ He2) Hb2) as (y3 & -> & Hb3 & Hk3). cbn [mbind option_bind].
  set (b3 := mk_boot y2 devs2 (at_addr d) <| bt_sys := y3 |>). destruct (version_ok (version_lines img) b3 d eq_refl Hpos Hnd Hds2) as (devs3 & -> & Hds3).
  cbn [mbind option_bind]. eexists _, d, (rt_system_scheduler_init (rt_system_timer_init k)). split; [reflexivity|]. split; [|exact En].
  pose proof (system_init_asleep k (reset_asleep _)) as Ha. pose proof Hk3 as [B1 B2 B3 B4 B5].
  split; [auto | exact Hds3 | | | exact Ha].
  - change (booting (y3 <| sy_kernel := rt_system_scheduler_init (rt_system_timer_init (sy_kernel y3)) |>) thread_places).
    rewrite B1. destruct Hb3 as [S1 S2 S3]. split; [apply (bare_sys k _ _ Hk3 S1 Ha) | exact S2 | exact S3].
  - rewrite <- B1. split; auto.
Qed.

(** ** The threads *)

(** Creating a thread does not move the heap. *)
Lemma thread_rest_heap fuel k s o entry parameter p n priority tick static k' s' :
  _rt_thread_init container texit hook fuel k s o entry parameter p n priority tick static = Some (k', s') ->
  heap_ptr (obj_heap s') = heap_ptr (obj_heap s).
Proof.
  unfold _rt_thread_init, thread_stack_init. cbv zeta. destruct (rt_memset _ _ _ _) as [m|]; [|discriminate]. cbn [mbind option_bind].
  destruct (rt_hw_stack_init _ _ _ _ _) as [m2 sp]. destruct (Thread._rt_thread_init _ _ _ _ _) as [k1|]; [|discriminate]. cbn [mbind option_bind].
  destruct (rt_object_init _ _ _ _ _ _) as [s1|] eqn:E; [|discriminate]. cbn [mbind option_bind]. intros [= _ <-].
  rewrite hook_heap. apply (init_heap_ptr _ _ _ _ _ _ _ E).
Qed.

Lemma thread_init_heap fuel k s o name entry parameter p n priority tick k' s' e :
  rt_thread_init container texit hook fuel k s o name entry parameter p n priority tick = Some (k', s', e) ->
  heap_ptr (obj_heap s') = heap_ptr (obj_heap s).
Proof.
  unfold rt_thread_init. destruct (_ || _); [discriminate|]. destruct (rt_object_init _ _ _ _ _ _) as [s1|] eqn:E1; [|discriminate]. cbn [mbind option_bind].
  destruct (_rt_thread_init _ _ _ _ _ _ _ _ _ _ _ _ _ _) as [[k1 s2]|] eqn:E2; [|discriminate]. cbn [mbind option_bind]. intros [= _ <- _].
  rewrite (thread_rest_heap _ _ _ _ _ _ _ _ _ _ _ _ _ E2). apply (init_heap_ptr _ _ _ _ _ _ _ E1).
Qed.

Lemma thread_create_heap fuel k s name entry parameter n priority tick k' s' o :
  rt_thread_create container texit hook fuel k s name entry parameter n priority tick = Some (k', s', o) -> o <> 0 ->
  heap_ptr (obj_heap s') = heap_ptr (obj_heap s).
Proof.
  unfold rt_thread_create, rt_object_allocate. destruct (negb _); [discriminate|]. destruct (rt_object_get_information _ _) as [i|]; [|discriminate].
  cbn [mbind option_bind]. destruct (rt_malloc _ _ _) as [[h x]|] eqn:E1; [|discriminate]. cbn [mbind option_bind].
  apply rt_malloc_low in E1 as [E1 _]. destruct (Z.eqb_spec x 0) as [->|]; [intros [= _ _ <-]; contradiction|].
  destruct (rt_memset _ _ _ _) as [m|]; [|discriminate]. cbn [mbind option_bind]. destruct (Z.eqb_spec x 0); [contradiction|].
  set (s1 := on_memory _ _). assert (Es : heap_ptr (obj_heap s1) = heap_ptr (obj_heap s)).
  { unfold s1. rewrite on_memory_hook, !on_memory_twice. exact E1. }
  unfold RT_KERNEL_MALLOC. destruct (rt_malloc _ _ _) as [[h2 x2]|] eqn:E2; [|discriminate]. cbn [mbind option_bind].
  apply rt_malloc_low in E2 as [E2 _]. destruct (x2 =? 0).
  - destruct (rt_object_delete _ _ _); [|discriminate]. intros [= _ _ <-]. contradiction.
  - destruct (_rt_thread_init _ _ _ _ _ _ _ _ _ _ _ _ _ _) as [[k1 s2]|] eqn:E3; [|discriminate]. cbn [mbind option_bind]. intros [= _ <- _] _.
    rewrite (thread_rest_heap _ _ _ _ _ _ _ _ _ _ _ _ _ E3). cbn [obj_heap modify]. congruence.
Qed.

(** The ready lists when the threads [ts] have been started in this order, each with its priority. *)
Definition queue (ts : list (Z * Z)) (l : list_head) : list nat :=
  match l with Ready p => map (fun t => key t.1) (filter (fun t => t.2 = p) ts) | _ => [] end.

Lemma queue_snoc ts o pr l : queue (ts ++ [(o, pr)]) l = queue ts l ++ if decide (l = Ready pr) then [key o] else [].
Proof.
  unfold queue. destruct l as [q| | | | | | | | |]; try (destruct (decide _) as [E|]; [discriminate E | reflexivity]).
  rewrite filter_app, map_app, filter_cons, filter_nil. cbn [snd]. f_equal.
  destruct (decide (pr = q)), (decide (Ready q = Ready pr)); try congruence; reflexivity.
Qed.

(** The system while [ts] are started and [o], perhaps, is not yet. *)
Record crew (y : Sys) (todo : list (Z * Z)) (new : list Z) (ts : list (Z * Z)) : Prop := {
  cr_booting : booting y todo;
  cr_threads : sy_ls y RT_Object_Class_Thread = new ++ rev (map fst ts);
  cr_lists : forall l, lists (sy_kernel y) l = queue ts l;
  cr_current : rt_current_thread (sy_kernel y) = None
}.

Lemma start_crew y todo o ts priority : crew y todo [o] ts -> thread_stat (threads (sy_kernel y) (key o)) = RT_THREAD_INIT ->
  init_priority (threads (sy_kernel y) (key o)) = priority -> 0 <= priority < 32 ->
  exists y', start_thread y o = Some y' /\ crew y' todo [] (ts ++ [(o, priority)]) /\ sy_objects y' = sy_objects y /\ sy_live y' = sy_live y.
Proof.
  intros [[Hy Hf Ha] Ht Hl Hc] Hi Hp Hr. pose proof (yo_kernel _ _ Hy) as Hk. subst priority.
  destruct (startup_resumes (rt_tick (sy_kernel y)) (sy_kernel y) (key o) (ki_ok _ _ Hk) Hi Hr) as (k' & E & Hok & Hot & _ & _ & Hls).
  rewrite Hc in E. unfold start_thread. rewrite E. cbn [mbind option_bind]. eexists. split; [reflexivity|]. split; [|split; reflexivity].
  assert (Hk' : kernel_state False k') by (apply (state_after _ (sy_kernel y) k' Hk Hok (ot_tick _ _ _ Hot)); [contradiction | apply (only_thread_grow _ _ _ Hot)]).
  assert (Hreg : o ∈ sy_ls y RT_Object_Class_Thread) by (rewrite Ht; left).
  assert (Hpos : 0 < o) by (apply (reg_pos container y Hy (the_threads container) o (threads_in_table container) Hreg)).
  split.
  - split; [|exact Hf | exact Ha]. apply (kernel_ok_step container y Hy (starting (key o)) k' Hk'); try discriminate.
    + apply (gentle_startup (starting (key o)) (sy_kernel y) (key o) k' RT_EOK eq_refl E).
    + intros t [= <-]. rewrite key_of by lia. exact Hreg.
  - change (sy_ls y RT_Object_Class_Thread = rev (map fst (ts ++ [(o, init_priority (threads (sy_kernel y) (key o)))]))). rewrite map_app, rev_app_distr, Ht. reflexivity.
  - intros l. change (lists k' l = queue (ts ++ [(o, init_priority (threads (sy_kernel y) (key o)))]) l). rewrite queue_snoc, <- Hl. apply Hls. rewrite Hc. discriminate.
  - change (rt_current_thread k' = None). rewrite (ot_current _ _ _ Hot). exact Hc.
Qed.

(** A new thread and its timer at [o] leave the other places free. *)
Lemma thread_clear y o p n entry parameter priority static y' todo : sys_boot y -> Forall (free_place y) todo ->
  new_thread container (begun := False) y texit y' o p n entry parameter priority static ->
  heap_ptr (heap_of y') = heap_ptr (heap_of y) -> Forall (fun r => apart2 r (o, sizeof_thread)) todo -> Forall (free_place y') todo.
Proof.
  intros Hy Hf Hn Hh Ha. rewrite Forall_forall in *. intros r Hr. destruct (Hf r Hr) as (R1 & R2 & R3 & R4). specialize (Ha r Hr).
  unfold free_place. rewrite Hh, (nt_registered _ _ _ _ _ _ _ _ _ _ _ Hn). split_ands; auto.
  unfold apart2 in Ha. cbn [fst snd] in Ha. change sizeof_thread with 128 in Ha.
  apply (clear_add (with_thread (sy_ls y) o) (the_timers container)); [apply timers_in_table | |].
  - apply (clear_add (sy_ls y) (the_threads container)); [apply threads_in_table | exact R4|]. unfold apart2. cbn [fst snd].
    change (object_size (the_threads container)) with 128. lia.
  - unfold apart2, thread_timer. cbn [fst snd]. change (object_size (the_timers container)) with 44. lia.
Qed.

(** The system relies on no byte of a free place. *)
Lemma place_free y ls p n a : p + n <= heap_ptr (heap_of y) -> apart2 (p, n) (container, 144) -> clear_of container ls p n -> p <= a < p + n ->
  ~ protected container (heap_of y) (sy_live y) ls a /\ forall i x, i ∈ rt_object_container container -> x ∈ ls (oi_type i) -> ~ body_byte i x a.
Proof.
  intros P2 P3 Hcl Ha. unfold apart2 in *. cbn [fst snd] in *. split.
  - intros Hpr. revert Ha. destruct Hpr as [b Hb | x (i & Hi & Hx) | x b (i & Hi & Hx) Hb | b Hb _]; unfold list_node in *;
      try (specialize (Hcl i x Hi Hx); pose proof (size_pos _ _ Hi)); lia.
  - intros i x Hi Hx Hb. specialize (Hcl i x Hi Hx). pose proof (size_pos _ _ Hi). unfold body_byte, SIZEOF_OBJECT in Hb. lia.
Qed.

Lemma stack_free y o p n a : free_place y (o, sizeof_thread) -> free_place y (p, n) -> apart2 (o, sizeof_thread) (p, n) -> p <= a < p + n ->
  ~ protected container (heap_of y) (sy_live y) (with_thread (sy_ls y) o) a /\
  forall i x, i ∈ rt_object_container container -> x ∈ with_thread (sy_ls y) o (oi_type i) -> ~ body_byte i x a.
Proof.
  intros _ (P1 & P2 & P3 & P4) Hap Ha. apply (place_free y _ p n); auto. unfold apart2 in Hap. cbn [fst snd] in Hap.
  change sizeof_thread with 128 in Hap. apply (clear_add (sy_ls y) (the_threads container)); [apply threads_in_table | exact P4|].
  unfold apart2. cbn [fst snd]. change (object_size (the_threads container)) with 128. lia.
Qed.

(** A write into a free place. *)
Lemma write_crew y p n todo ts m' : crew y ((p, n) :: todo) [] ts -> (forall a, a < p \/ p + n <= a -> load8 m' a = load8 (mem_of y) a) ->
  crew (y <| sy_objects := on_memory (sy_objects y) (fun _ => m') |>) todo [] ts.
Proof.
  intros [[Hy Hf Ha] Ht Hl Hc] Hm. apply Forall_cons in Hf as [(P1 & P2 & P3 & P4) Hf]. inversion Ha as [|? ? _ Ha']; subst.
  split; [split; [|exact Hf | exact Ha'] | exact Ht | exact Hl | exact Hc]. apply (bytes_write_ok container y Hy). intros a Hk. apply Hm.
  destruct (decide (p <= a < p + n)) as [Hin|]; [exfalso | lia]. destruct (place_free y (sy_ls y) p n a P2 P3 P4 Hin) as [N1 N2].
  destruct Hk as [Hk|(i & x & Hi & Hx & Hk)]; [apply N1, Hk | apply (N2 i x Hi Hx Hk)].
Qed.

Lemma place_end y r : sys_boot y -> free_place y r -> r.1 + r.2 < 4294967296.
Proof.
  intros Hy (_ & R & _). destruct (oo_heap _ _ _ _ (la_objects _ _ _ _ _ (yo_layout _ _ Hy))) as [bs Hst].
  pose proof (ok_shape _ _ (st_heap _ _ _ Hst)) as Hs. pose proof (sh_end _ _ Hs). pose proof (sh_space _ _ Hs). pose proof (sh_min _ _ Hs). unfold HDR in *. lia.
Qed.

Lemma static_crew y todo ts o p n name entry priority tick : crew y ((o, sizeof_thread) :: (p, n) :: todo) [] ts -> 72 <= n -> 0 <= priority < 32 ->
  exists y', static_thread y o name entry p n priority tick = Some y' /\ crew y' todo [] (ts ++ [(o, priority)]) /\ sy_live y' = sy_live y.
Proof.
  intros [[Hy Hf Ha] Ht Hl Hc] Hn Hr. apply Forall_cons in Hf as [Fo Hf]. apply Forall_cons in Hf as [Fp Hf].
  inversion Ha as [|? ? Ao Ha']; subst. inversion Ha' as [|? ? _ Ha2]; subst. apply Forall_cons in Ao as [Aop Ao].
  pose proof (place_region y (sy_live y) _ Fo) as Hreg. pose proof (place_pools y _ Hy Fo) as Hpl. pose proof (place_end y _ Hy Fp) as He.
  assert (Hfree : forall a, p <= a < p + n -> _) by (intros a; apply (stack_free y o p n a Fo Fp Aop)).
  assert (Hap : o + 128 <= p \/ p + n <= o) by exact Aop.
  destruct Fo as (O1 & O2 & O3 & O4), Fp as (P1 & P2 & P3 & P4). cbn [fst snd] in *.
  destruct (thread_init_ok container y Hy texit hook (all_threads y) o name p n entry 0 priority tick Hreg (clear_vacant _ _ (the_threads container) _ O4) Hpl O1 P1 Hn He Hap Hfree)
    as (k' & s' & E & Hnew); [unfold all_threads; lia | unfold all_threads; lia | exact Hr|].
  pose proof (thread_init_heap _ _ _ _ _ _ _ _ _ _ _ _ _ _ E) as Hh.
  unfold static_thread. rewrite E. cbn [mbind option_bind]. set (y1 := mk_sys k' s' _ _ _) in *. pose proof (nt_started _ _ _ _ _ _ _ _ _ _ _ Hnew) as Hst.
  destruct (start_crew y1 todo o ts priority) as (y' & E' & Hcr & _ & Elive).
  - split.
    + split; [apply Hnew | | exact Ha2]. apply (thread_clear y o p n _ _ _ _ y1 todo Hy Hf Hnew Hh).
      rewrite Forall_forall in *. intros r Hr'. specialize (Ao r Hr'). unfold apart2 in *. cbn [fst snd] in *. lia.
    + change (o :: sy_ls y RT_Object_Class_Thread = [o] ++ rev (map fst ts)). rewrite Ht. reflexivity.
    + intros l. change (lists k' l = queue ts l). rewrite <- Hl. change k' with (sy_kernel y1). rewrite (st_lists _ _ _ _ _ _ Hst). reflexivity.
    + rewrite (st_current _ _ _ _ _ _ Hst). exact Hc.
  - apply (st_stat _ _ _ _ _ _ Hst).
  - apply (st_priority _ _ _ _ _ _ Hst).
  - exact Hr.
  - exists y'. split; [exact E' | split; [exact Hcr | exact Elive]].
Qed.

(** Only the kernel's list of soft timers. *)
Lemma soft_crew y todo ts : crew y todo [] ts -> crew (y <| sy_kernel := sy_kernel y <| rt_soft_timer_list := [] |> |>) todo [] ts.
Proof.
  intros [[Hy Hf Ha] Ht Hl Hc]. split; [split; [|exact Hf | exact Ha] | exact Ht | exact Hl | exact Hc].
  set (k' := sy_kernel y <| rt_soft_timer_list := [] |>). pose proof (yo_kernel _ _ Hy) as [[Hs Htm] _ Hth].
  assert (Hss : sched_same (sy_kernel y) k') by (split; reflexivity).
  apply (kernel_ok_step container y Hy nothing k'); try discriminate.
  - split; [split; [apply (sched_ok_same (sy_kernel y)); auto|] | contradiction | exact Hth].
    destruct Htm as [T1 T2 T3 T4 T5 T6]. split; auto. intros t Hin. inversion Hin.
  - intros Hrl. split; auto; intros; try reflexivity.
Qed.

(** The idle thread is a static thread whose name is printed first. *)
Lemma idle_crew y todo ts : crew y ((tidle_name img, 8) :: (idle_at img, sizeof_thread) :: (rt_thread_stack img, IDLE_THREAD_STACK_SIZE) :: todo) [] ts ->
  exists y', rt_thread_idle_init y = Some y' /\ crew y' todo [] (ts ++ [(idle_at img, RT_THREAD_PRIORITY_MAX - 1)]) /\ sy_live y' = sy_live y.
Proof.
  intros Hc. pose proof Hc as [[Hy Hf _] _ _ _]. apply Forall_cons in Hf as [Fn _]. pose proof (place_end y _ Hy Fn) as He.
  destruct Fn as (N1 & _). cbn [fst snd] in *.
  pose proof (Printf.vsnprintf_text (mem_of y) (tidle_name img) 4294967295 (map chr ["t"; "i"; "d"; "l"; "e"; "%"; "d"]%char) [Printf.Word 0]
    ltac:(lia) ltac:(lia)) as Hp.
  replace (Printf.formatted _ _) with (Some (map chr ["t"; "i"; "d"; "l"; "e"; "0"]%char)) in Hp by (vm_compute; reflexivity).
  destruct Hp as (m & E & Hm & _); [cbn; lia|]. cbn [length map Z.of_nat] in Hm.
  pose proof (write_crew y _ _ _ _ m Hc ltac:(intros a Ha; apply Hm; lia)) as Hw. clear Hm.
  destruct (static_crew _ _ _ _ _ _ (tidle_name img) (rt_thread_idle_entry img) (RT_THREAD_PRIORITY_MAX - 1) 32 Hw) as (y' & E' & Hc' & Hl');
    [unfold IDLE_THREAD_STACK_SIZE; lia | unfold RT_THREAD_PRIORITY_MAX; lia|]. exists y'. split; [|split; [exact Hc' | exact Hl']].
  rewrite <- E'. unfold rt_thread_idle_init, Idle.rt_thread_idle_init, static_thread, start_thread, Printf.rt_sprintf, Printf.rt_vsprintf.
  rewrite E. cbn [mbind option_bind]. destruct (rt_thread_init _ _ _ _ _ _ _ _ _ _ _ _ _ _) as [[[k s] e]|]; [|reflexivity]. cbn [mbind option_bind].
  destruct (rt_thread_startup _ _) as [[k' r]|]; reflexivity.
Qed.

Lemma main_crew k y : booting y thread_places -> bare k y -> asleep k ->
  match rt_application_init y with
  | Some y' => exists o p, 0 < o /\ crew y' thread_places [] [(o, RT_MAIN_THREAD_PRIORITY)] /\
      sy_live y' = <[p := RT_MAIN_THREAD_STACK_SIZE]> (<[o := sizeof_thread]> ∅)
  | None => exists s', rt_thread_create container texit hook (all_threads y) (sy_kernel y) (sy_objects y) (main_name img)
      (main_thread_entry img) 0 RT_MAIN_THREAD_STACK_SIZE RT_MAIN_THREAD_PRIORITY 20 = Some (sy_kernel y, s', 0)
  end.
Proof.
  intros [Hy Hf Ha] [B1 B2 B3 B4 B5] Has. unfold rt_application_init.
  destruct (thread_create_ok container y Hy texit hook (all_threads y) (main_name img) (main_thread_entry img) 0 RT_MAIN_THREAD_STACK_SIZE
    RT_MAIN_THREAD_PRIORITY 20) as (k' & s' & o & E & H1); [unfold RT_MAIN_THREAD_STACK_SIZE, SIZE_LIMIT; lia | unfold RT_MAIN_THREAD_PRIORITY; lia | unfold all_threads; lia|].
  rewrite E. cbn [mbind option_bind]. destruct (Z.eqb_spec o 0) as [->|Hne]; [destruct H1 as [-> _]; eauto|].
  destruct H1 as (p & Hpos & _ & _ & Hnew). set (y1 := mk_sys k' s' _ _ _) in *.
  pose proof (thread_create_heap _ _ _ _ _ _ _ _ _ _ _ _ E Hne) as Hh. pose proof (nt_ok _ _ _ _ _ _ _ _ _ _ _ Hnew) as Hy1.
  assert (Ep : stack_addr (obj_mem s') o = p).
  { pose proof (th_stack _ _ _ _ _ (ti_object _ _ _ _ (yo_threads _ _ Hy1) o (ltac:(left)))) as Hsp.
    rewrite (st_static _ _ _ _ _ _ (nt_started _ _ _ _ _ _ _ _ _ _ _ Hnew)) in Hsp.
    change (sy_pools y1) with (<[o := p]> (sy_pools y)) in Hsp. rewrite lookup_insert_eq in Hsp. injection Hsp as Hsp. symmetry. exact Hsp. }
  unfold after_thread_create. pose proof Hne as Hne'. apply Z.eqb_neq in Hne'. rewrite Hne', Ep. fold y1. pose proof (nt_started _ _ _ _ _ _ _ _ _ _ _ Hnew) as Hst.
  destruct (start_crew y1 thread_places o [] RT_MAIN_THREAD_PRIORITY) as (y' & -> & Hcr & _ & Elive).
  - split.
    + split; [exact Hy1 | | exact Ha]. apply (thread_clear y o p RT_MAIN_THREAD_STACK_SIZE (main_thread_entry img) 0 RT_MAIN_THREAD_PRIORITY false y1 thread_places Hy Hf Hnew Hh).
      destruct (oo_heap _ _ _ _ (la_objects _ _ _ _ _ (yo_layout _ _ Hy1))) as [bs Hbs].
      assert (Hlive : exists n, sy_live y1 !! o = Some n).
      { cbn [y1 sy_live]. destruct (decide (p = o)) as [->|]; [rewrite lookup_insert_eq | rewrite lookup_insert_ne, lookup_insert_eq by assumption]; eauto. }
      destruct Hlive as [n Hlive]. destruct (live_region _ _ _ _ _ Hbs Hlive) as (_ & R & _).
      rewrite Forall_forall in *. intros r Hr. destruct (Hf r Hr) as (_ & R2 & _). change (sy_objects y1) with s' in R. unfold apart2. cbn [fst snd]. unfold HDR in R. lia.
    + change (o :: sy_ls y RT_Object_Class_Thread = [o]). rewrite B4. reflexivity.
    + intros l. change (lists k' l = queue [] l). change k' with (sy_kernel y1). rewrite (st_lists _ _ _ _ _ _ Hst), B1, (as_lists _ Has). destruct l; reflexivity.
    + rewrite (st_current _ _ _ _ _ _ Hst), B1. apply Has.
  - apply (st_stat _ _ _ _ _ _ Hst).
  - apply (st_priority _ _ _ _ _ _ Hst).
  - unfold RT_MAIN_THREAD_PRIORITY. lia.
  - exists o, p. split; [exact Hpos|]. split; [exact Hcr|]. rewrite Elive. cbn [y1 sy_live]. rewrite B2. reflexivity.
Qed.

(** ** The scheduler begins *)

Lemma begin_spec k t q h : kernel_state False k -> rt_current_thread k = None -> 0 <= h < 32 -> lists k (Ready h) = t :: q ->
  (forall p, 0 <= p < h -> lists k (Ready p) = []) ->
  exists k', rt_system_scheduler_start k = Some k' /\ kernel_state True k' /\ gentle nothing k k' /\ rt_current_thread k' = Some t /\
    running k' t /\ forall l, lists k' l = filter (fun u => u <> t) (lists k l).
Proof.
  intros Hi Hc Hh Eq Hlow. pose proof Hi as [[[Hl Hg Hth] Htm] _ Htt].
  assert (Hne : rt_thread_ready_priority_group k <> 0).
  { intros E. pose proof (go_bits _ Hg h Hh) as Hb. rewrite E, Z.bits_0, Eq in Hb. discriminate. }
  destruct (get_highest_spec k Hg Hne) as (t2 & q2 & h2 & E & Hh2 & Eq2 & Hlow2).
  assert (h2 = h) as ->.
  { destruct (Z.lt_trichotomy h2 h) as [H1|[H1|H1]]; [| exact H1 |].
    - rewrite Hlow in Eq2 by lia. discriminate.
    - rewrite Hlow2 in Eq by lia. discriminate. }
  assert (t2 = t) as -> by congruence.
  assert (Hin : t ∈ lists k (Ready h)) by (rewrite Eq; left).
  destruct (tk_list _ _ (Hth t) _ Hin) as [Hst Hpr]. assert (Hlive : live (thread_stat (threads k t)) = true) by (rewrite Hst; reflexivity).
  unfold rt_system_scheduler_start. rewrite E. cbn [mbind option_bind]. set (k1 := k <| rt_current_thread := Some t |>).
  assert (Hl1 : lists_ok k1) by (destruct Hl; split; assumption). assert (Hg1 : group_ok k1) by (destruct Hg; split; assumption).
  destruct (remove_spec k1 t Hl1 Hg1 (tk_prio _ _ (Hth t) Hlive)) as (g & Er & Hl2 & Hg2 & Hu).
  { intros p Hp. destruct (tk_list _ _ (Hth t) _ Hp) as [_ H1]. symmetry. exact H1. }
  cbv zeta in *. rewrite Er. cbn [mbind option_bind]. set (k2 := tlist_remove k1 t <| rt_thread_ready_priority_group := g |>) in *.
  set (f := fun th : Thread => th <| stat := RT_THREAD_RUNNING |>). set (k3 := set_thread k2 t f).
  assert (Et : threads k3 t = f (threads k t)) by exact (set_thread_threads k2 t f).
  assert (Eo : forall u, u <> t -> threads k3 u = threads k u) by (intros u Hu2; unfold k3; rewrite set_thread_other by exact Hu2; reflexivity).
  assert (Hrun : thread_stat (threads k3 t) = RT_THREAD_RUNNING) by (rewrite Et; reflexivity).
  exists k3. split; [reflexivity|]. split; [|split; [|split; [reflexivity | split; [exact Hrun | reflexivity]]]].
  - split; [split; [split|] | eauto | exact Htt].
    + destruct Hl2; split; assumption.
    + destruct Hg2; split; assumption.
    + intros u. destruct (decide (u = t)) as [->|Hut].
      * split; rewrite ?Hrun; try discriminate; try reflexivity; [|intros l H1; destruct (Hu l H1) | intros _; split; discriminate].
        intros _. rewrite Et. destruct (tk_prio _ _ (Hth t) Hlive) as [P1 P2]. split; assumption.
      * pose proof (Hth u) as [A1 A2 A3 A4 A5]. assert (Els : forall l, u ∈ lists k3 l <-> u ∈ lists k l) by (intros l; cbn; rewrite list_elem_of_filter; tauto).
        split; rewrite ?(Eo u Hut); auto.
        -- intros l Hl3. apply A2, Els, Hl3.
        -- intros Hs. apply Els, A3, Hs.
        -- intros Hs. specialize (A4 Hs). rewrite Hc in A4. discriminate.
        -- intros Hs. change (Some t = Some u) in Hs. congruence.
    + apply (timers_ok_threads _ k); auto. intros u Hu2. destruct (decide (u = t)) as [->|Hut]; [|rewrite (Eo u Hut); reflexivity].
      destruct (to_linked _ _ Htm t Hu2) as [_ H1]. rewrite Hst in H1. discriminate.
  - apply (gentle_trans _ k k1).
    + apply gentle_switch; try reflexivity. intros c [= <-]. right. exact Hlive.
    + apply (gentle_trans _ k1 k2); [apply (gentle_schedule_remove _ _ t), Er|]. apply gentle_thread; try reflexivity. right. left. split; [reflexivity | intros _; exact Hlive].
Qed.

Lemma begun_sys y k' : sys_boot y -> kernel_state True k' -> gentle nothing (sy_kernel y) k' -> sys_state container True (y <| sy_kernel := k' |>).
Proof.
  intros Hy Hk Hg. assert (Hf : sys_boot (y <| sy_kernel := k' |>)).
  { apply (kernel_ok_step container y Hy nothing k'); try discriminate; [|exact Hg]. destruct Hk as [K1 _ K3]. split; [exact K1 | contradiction | exact K3]. }
  destruct Hf as [_ F2 F3 F4 F5]. split; assumption.
Qed.

(** What the start-up leaves: the timer thread runs, main and the idle thread are ready. *)
Record started_up (b : Boot) (console main : Z) : Prop := {
  su_sys : sys_state container True (bt_sys b);
  su_current : rt_current_thread (sy_kernel (bt_sys b)) = Some (key (timer_thread_at img)) /\ running (sy_kernel (bt_sys b)) (key (timer_thread_at img));
  su_ready : forall l, lists (sy_kernel (bt_sys b)) l =
    (if decide (l = Ready RT_MAIN_THREAD_PRIORITY) then [key main] else if decide (l = Ready (RT_THREAD_PRIORITY_MAX - 1)) then [key (idle_at img)] else []);
  su_threads : sy_ls (bt_sys b) RT_Object_Class_Thread = [idle_at img; timer_thread_at img; main];
  su_blocks : exists stack, sy_live (bt_sys b) = <[stack := RT_MAIN_THREAD_STACK_SIZE]> (<[main := sizeof_thread]> ∅);
  su_uarts : Forall2 (fun d dev => quiet dev (sy_live (bt_sys b)) /\ dev_heap dev = heap_of (bt_sys b) /\
    config (serial_of dev) = RT_SERIAL_CONFIG_DEFAULT /\ rx_indicate dev = 0 /\ ref_count dev = (if at_addr d =? console then 1 else 0))
    (uart_obj img) (bt_uarts b)
}.

Lemma started_queue main t idle l : key main <> key t /\ key idle <> key t ->
  filter (fun u => u <> key t) (queue [(main, RT_MAIN_THREAD_PRIORITY); (t, RT_TIMER_THREAD_PRIO); (idle, RT_THREAD_PRIORITY_MAX - 1)] l) =
  if decide (l = Ready RT_MAIN_THREAD_PRIORITY) then [key main] else if decide (l = Ready (RT_THREAD_PRIORITY_MAX - 1)) then [key idle] else [].
Proof.
  intros [Hm Hi]. unfold RT_MAIN_THREAD_PRIORITY, RT_TIMER_THREAD_PRIO, RT_THREAD_PRIORITY_MAX. change (32 - 1) with 31. unfold queue.
  destruct l as [q| | | | | | | | |]; try reflexivity. rewrite !filter_cons, filter_nil. cbn [snd].
  destruct (decide (10 = q)) as [<-|H10].
  { rewrite (decide_False (P := 4 = 10)), (decide_False (P := 31 = 10)) by lia. cbn. rewrite decide_True by exact Hm. reflexivity. }
  rewrite (decide_False (P := Ready q = Ready 10)) by congruence. destruct (decide (31 = q)) as [<-|H31].
  { rewrite (decide_False (P := 4 = 31)) by lia. cbn. rewrite decide_True by exact Hi. reflexivity. }
  rewrite (decide_False (P := Ready q = Ready 31)) by congruence. destruct (decide (4 = q)); [|reflexivity].
  cbn. rewrite decide_False by (intros Hx; apply Hx; reflexivity). reflexivity.
Qed.

Lemma start_up_ok s ports : image_ok s ports ->
  exists b d, before_main s ports = Some b /\ (d ∈ uart_obj img) /\ name_at (obj_mem s) (console_name img) = name_at (obj_mem s) (at_name d) /\
  match rtthread_startup s ports with
  | Some b' => exists main, 0 < main /\ started_up b' (at_addr d) main
  | None => exists k s', rt_thread_create container texit hook (all_threads (bt_sys b)) (sy_kernel (bt_sys b)) (sy_objects (bt_sys b)) (main_name img)
      (main_thread_entry img) 0 RT_MAIN_THREAD_STACK_SIZE RT_MAIN_THREAD_PRIORITY 20 = Some (k, s', 0)
  end.
Proof.
  intros Hi. destruct (before_main_ok s ports Hi) as (b & d & k & Eb & [[Hd Ec] Hu Hb Hk Ha] & En). exists b, d.
  split; [exact Eb|]. split; [exact Hd|]. split; [exact En|]. unfold rtthread_startup. rewrite Eb. cbn [mbind option_bind].
  pose proof (main_crew k (bt_sys b) Hb Hk Ha) as Hm. destruct (rt_application_init (bt_sys b)) as [y1|]; cbn [mbind option_bind]; [|destruct Hm as (s' & E); eauto].
  destruct Hm as (main & p & Hpos & Hc1 & Hl1). unfold rt_system_timer_thread_init, Timer.rt_system_timer_thread_init. cbv zeta.
  destruct (static_crew _ _ _ _ _ _ (timer_name img) (rt_thread_timer_entry img) RT_TIMER_THREAD_PRIO 10 (soft_crew _ _ _ Hc1)) as (y2 & -> & Hc2 & Hl2);
    [unfold RT_TIMER_THREAD_STACK_SIZE; lia | unfold RT_TIMER_THREAD_PRIO; lia|]. cbn [mbind option_bind].
  destruct (idle_crew _ _ _ Hc2) as (y3 & -> & Hc3 & Hl3). cbn [mbind option_bind app].
  destruct Hc3 as [[Hy Hf _] Ht Hls Hcur]. cbn [app] in *.
  destruct (begin_spec (sy_kernel y3) (key (timer_thread_at img)) [] 4 (yo_kernel _ _ Hy) Hcur) as (k' & -> & Hk' & Hg & Hc' & Hr' & Hls').
  { lia. } { rewrite Hls. reflexivity. }
  { intros q Hq. rewrite Hls. unfold queue, RT_MAIN_THREAD_PRIORITY, RT_TIMER_THREAD_PRIO, RT_THREAD_PRIORITY_MAX.
    rewrite !filter_cons, !decide_False by (cbn [snd]; lia). reflexivity. }
  cbn [mbind option_bind]. exists main. split; [exact Hpos|]. set (y4 := y3 <| sy_kernel := k' |>).
  assert (Hy4 : sys_state container True y4) by (apply (begun_sys y3 k' Hy Hk' Hg)).
  assert (Hnd : NoDup [idle_at img; timer_thread_at img; main]).
  { change [idle_at img; timer_thread_at img; main] with (rev (map fst ([(main, RT_MAIN_THREAD_PRIORITY); (timer_thread_at img, RT_TIMER_THREAD_PRIO); (idle_at img, RT_THREAD_PRIORITY_MAX - 1)]))).
    rewrite <- Ht. apply (oo_nodup _ _ _ _ (la_objects _ _ _ _ _ (yo_layout _ _ Hy)) (the_threads container)), threads_in_table. }
  assert (Hkey : forall o, o ∈ [idle_at img; timer_thread_at img; main] -> 0 < o).
  { intros o Ho. apply (reg_pos container y3 Hy (the_threads container) o (threads_in_table container)).
    change (o ∈ sy_ls y3 RT_Object_Class_Thread). rewrite Ht. exact Ho. }
  split.
  - exact Hy4.
  - split; [exact Hc' | exact Hr'].
  - intros l. change (lists k' l = if decide (l = Ready RT_MAIN_THREAD_PRIORITY) then [key main] else
      if decide (l = Ready (RT_THREAD_PRIORITY_MAX - 1)) then [key (idle_at img)] else []). rewrite Hls', Hls. apply started_queue.
    + apply NoDup_cons in Hnd as [H1 Hnd]. apply NoDup_cons in Hnd as [H2 _]. rewrite !not_elem_of_cons in *.
      pose proof (Hkey (idle_at img) ltac:(left)). pose proof (Hkey (timer_thread_at img) ltac:(right; left)). unfold key. split; lia.
  - exact Ht.
  - exists p. change (sy_live y3 = <[p := RT_MAIN_THREAD_STACK_SIZE]> (<[main := sizeof_thread]> ∅)). rewrite Hl3, Hl2. exact Hl1.
  - change (Forall2 (fun x dev => quiet dev (sy_live y4) /\ dev_heap dev = heap_of y4 /\
      config (serial_of dev) = RT_SERIAL_CONFIG_DEFAULT /\ rx_indicate dev = 0 /\ ref_count dev = (if at_addr x =? at_addr d then 1 else 0))
      (uart_obj img) (with_heap (heap_of y4) <$> bt_uarts b)). apply Forall2_fmap_r. eapply Forall2_impl; [exact Hu|].
    intros x dev [U1 U2 U3 U4]. split; [apply (quiet_heap dev ∅ _ _ U1), (oo_heap _ _ _ _ (la_objects _ _ _ _ _ (yo_layout _ _ Hy4)))|]. auto.
Qed.

(** C4: From reset to the first thread.  Let the linker's image be well formed: static objects, stacks and names apart
    from one another, from the container and from the heap, the ports' names all different, one of them the console's,
    and every port able to take the default configuration.  Then everything before the creation of main succeeds, and
    the start-up stops at that creation, when the heap has no room for it, or it ends with the invariant of the whole
    system, on which what happens later builds: the timer thread runs, main and the idle thread are ready, nobody else
    is; these three are the registered threads; main's control block and stack are the only blocks in use; and every
    serial port has the default configuration, no call back and no receive buffer, and is closed unless it is the
    console, which is open once. *)
Theorem system_comes_up s ports : image_ok s ports ->
  exists b console, before_main s ports = Some b /\ (console ∈ uart_obj img) /\
    name_at (obj_mem s) (console_name img) = name_at (obj_mem s) (at_name console) /\
  match rtthread_startup s ports with
  | None => exists k s', rt_thread_create container texit hook (all_threads (bt_sys b)) (sy_kernel (bt_sys b)) (sy_objects (bt_sys b))
      (main_name img) (main_thread_entry img) 0 RT_MAIN_THREAD_STACK_SIZE RT_MAIN_THREAD_PRIORITY 20 = Some (k, s', 0)
  | Some b' =>
      let y := bt_sys b' in let k := sy_kernel y in
      sys_state container True y /\ rt_current_thread k = Some (key (timer_thread_at img)) /\ running k (key (timer_thread_at img)) /\
      exists main stack, 0 < main /\ sy_ls y RT_Object_Class_Thread = [idle_at img; timer_thread_at img; main] /\
        sy_live y = <[stack := RT_MAIN_THREAD_STACK_SIZE]> (<[main := sizeof_thread]> ∅) /\
        lists k (Ready RT_MAIN_THREAD_PRIORITY) = [key main] /\ lists k (Ready (RT_THREAD_PRIORITY_MAX - 1)) = [key (idle_at img)] /\
        (forall l, l <> Ready RT_MAIN_THREAD_PRIORITY -> l <> Ready (RT_THREAD_PRIORITY_MAX - 1) -> lists k l = []) /\
        Forall2 (fun d dev => serial_ok (dev, sy_live y, []) /\ listening dev = false /\ dev_heap dev = obj_heap (sy_objects y) /\
          config (serial_of dev) = RT_SERIAL_CONFIG_DEFAULT /\ rx_indicate dev = 0 /\
          ref_count dev = if at_addr d =? at_addr console then 1 else 0) (uart_obj img) (bt_uarts b')
  end.
Proof.
  intros Hi. destruct (start_up_ok s ports Hi) as (b & d & Eb & Hd & En & H1). exists b, d. split_ands; auto.
  destruct (rtthread_startup s ports) as [b'|]; [|exact H1]. destruct H1 as (main & Hpos & [S1 [S2 S3] S4 S5 (stack & S6) S7]). cbv zeta.
  split_ands; auto. exists main, stack. split_ands; auto.
  - intros l H10 H31. rewrite S4, !decide_False by assumption. reflexivity.
  - eapply Forall2_impl; [exact S7|]. intros x dev ([Q1 Q2 _] & Q). auto.
Qed.

Lemma boots s ports b : image_ok s ports -> rtthread_startup s ports = Some b -> sys_state container True (bt_sys b).
Proof. intros Hi E. destruct (start_up_ok s ports Hi) as (b0 & d & _ & _ & _ & H1). rewrite E in H1. destruct H1 as (main & _ & H1). apply H1. Qed.
End Startup.

(** ** A small image

    The container is at 100, the names of four devices are at 20, 28, 36 and 44, and the heap begins at 4096. *)

Definition image_text : list Z :=
  [112; 105; 110; 0; 0; 0; 0; 0;          (* "pin" *)
   117; 97; 114; 116; 49; 0; 0; 0;        (* "uart1" *)
   117; 97; 114; 116; 50; 0; 0; 0;        (* "uart2" *)
   119; 100; 116; 0; 0; 0; 0; 0].         (* "wdt" *)
Definition image_memory : Memory :=
  fold_left (fun m i => rt_list_init m (object_list i)) (rt_object_container 100)
    (fun a => if a <? 20 then 0 else nth (Z.to_nat (a - 20)) image_text 0).
Definition image_objects : Objects := mk_objects (no_heap <| memory := image_memory |>) 0 0 0 0 0 [].

Definition small_image : image := {|
  HEAP_BEGIN := 4096; HEAP_END := 16384;
  hw_pin := mk_listed 300 20 RT_DEVICE_FLAG_RDWR;
  uart_obj := [mk_listed 400 28 0; mk_listed 500 36 0];
  board_inits := [mk_listed 600 44 0];
  console_name := 36;
  version_lines := [[92; 124; 47; 10]; [82; 84; 10]];
  main_name := 44; main_thread_entry := 9000;
  timer_thread_at := 700; timer_name := 44; rt_thread_timer_entry := 9100; timer_thread_stack := 900;
  idle_at := 1500; tidle_name := 1420; rt_thread_idle_entry := 9200; rt_thread_stack := 1700
|}.

(** Numbers apart, one pair at a time. *)
Ltac apart_pairs :=
  unfold statics, thread_places, texts, ports_of, device_place, apart2; cbn [map app hw_pin uart_obj board_inits small_image at_addr at_name
    console_name timer_thread_at timer_thread_stack tidle_name idle_at rt_thread_stack HEAP_BEGIN];
  change sizeof_device with 64; change sizeof_thread with 128; unfold RT_TIMER_THREAD_STACK_SIZE, IDLE_THREAD_STACK_SIZE;
  repeat first [apply FOP_cons | apply FOP_nil | constructor]; cbn [fst snd]; lia.

Lemma image_start : image_ok 100 small_image image_objects [[]; []].
Proof.
  split.
  - split; vm_compute; repeat split; congruence.
  - cbn. lia.
  - intros i Hi. unfold rt_object_container in Hi. rewrite !elem_of_cons, elem_of_nil in Hi.
    repeat destruct Hi as [->|Hi]; try contradiction; vm_compute; auto.
  - apart_pairs.
  - apart_pairs.
  - apart_pairs.
  - apply (bool_decide_eq_true_1 _). vm_compute. reflexivity.
  - exists (mk_listed 500 36 0). split; [right; left | reflexivity].
  - repeat constructor.
  - repeat constructor.
Qed.

Lemma default_some {A} (d : A) (o : option A) : bool_decide (is_Some o) = true -> o = Some (default d o).
Proof. destruct o; [reflexivity | discriminate]. Qed.

Definition no_boot : Boot (H := list Z) := mk_boot (mk_sys (reset_kernel 0) image_objects ∅ (fun _ => []) ∅) [] 0.
Definition small_boot : Boot (H := list Z) := default no_boot (rtthread_startup 100 0 0 small_image image_objects [[]; []]).

Lemma small_boots : rtthread_startup 100 0 0 small_image image_objects [[]; []] = Some small_boot.
Proof. apply (default_some no_boot). vm_compute. reflexivity. Qed.

(** Main is at 4108; the console is the second port. *)
Lemma system_comes_up_witness :
  rt_current_thread (sy_kernel (bt_sys small_boot)) = Some (key 700) /\ lists (sy_kernel (bt_sys small_boot)) (Ready 10) = [key 4108] /\
  map ref_count (bt_uarts small_boot) = [0; 1].
Proof.
  destruct (system_comes_up 100 0 0 small_image image_objects [[]; []] image_start) as (b & d & _ & Hd & En & H1).
  rewrite small_boots in H1. destruct H1 as (_ & Hc & _ & main & stack & _ & Ht & _ & Hm & _ & _ & Hu). split; [exact Hc|].
  assert (Em : sy_ls (bt_sys small_boot) RT_Object_Class_Thread = [1500; 700; 4108]) by (vm_compute; reflexivity).
  rewrite Em in Ht. injection Ht as <-. split; [exact Hm|].
  assert (Hd2 : at_addr d = 500).
  { cbn [small_image uart_obj] in Hd. rewrite !elem_of_cons, elem_of_nil in Hd. destruct Hd as [->|[->|[]]]; [|reflexivity].
    exfalso. revert En. apply (bool_decide_eq_true_1 _). vm_compute. reflexivity. }
  rewrite Hd2 in Hu. clear Hc Hm Em. revert Hu. generalize (bt_uarts small_boot). intros l Hu. cbn [small_image uart_obj] in Hu.
  apply Forall2_cons_inv_l in Hu as (dev1 & l1 & (_ & _ & _ & _ & _ & H1) & Hu & ->).
  apply Forall2_cons_inv_l in Hu as (dev2 & l2 & (_ & _ & _ & _ & _ & H2) & Hu & ->).
  apply Forall2_nil_inv_l in Hu as ->. cbn [map]. rewrite H1, H2. reflexivity.
Defined.
