(* ===== verification/SystemLife.v ===== *)
(** * Kernel objects and threads from start-up on: the theorems

    What holds in every state the calls of [LifeRun] lead to after [rtthread_startup],
    what deleting an object, creating a thread and burying the dead do there, and a
    small system as example. *)

From S2P Require Import Prelude Kernel Scheduler Timer Thread Tick Ipc Mutex Event Mailbox.
From S2P Require Import Memory Kservice Blocks Mem Heap Strings LinkedList Object Device Serial SerialUse MessageQueue Mempool.
From S2P Require Import Create Idle Layout Gentle Life LifeCalls LifeThreads LifeCreate LifeIdle LifeRun Startup.

(** ** Properties *)

Section System.
Context {U : Type} {Ops : UartOps U} {Port : RxPort U} (container texit hook : Z) (img : image).
Abbreviation table := (rt_object_container container).
Abbreviation reached := (reached container texit hook).
Abbreviation rtthread_startup := (rtthread_startup container texit hook img).

(** The states of a system that came up from a well formed image. *)
Definition since_reset (y : Sys) : Prop :=
  exists s ports b, image_ok container img s ports /\ rtthread_startup s ports = Some b /\ reached (bt_sys b) y.

Lemma running_ok y : since_reset y -> sys_state container True y.
Proof. intros (s & ports & b & Hs & Hb & Hr). apply (reached_ok container texit hook (bt_sys b) y (boots container texit hook img s ports b Hs Hb) Hr). Qed.

Lemma next_call c y y' : since_reset y -> may_call container c y -> run container texit hook c y = Some y' -> since_reset y'.
Proof. intros (s & ports & b & Hs & Hb & Hr) Hc E. exists s, ports, b. split; [exact Hs|]. split; [exact Hb|]. apply (after_call _ _ _ _ y c); auto. Qed.

(** C5: From start-up on, through every sequence of blocking calls, wake-ups, ticks, creations, deletions, thread
    ends, burials, heap calls and writes of clients into their own blocks: a thread waits only on an object that
    is registered with the type of its wait list, and is itself a registered thread; the control blocks of two
    objects are apart, save for the timer inside its thread; every pool and every stack is a block of the heap of
    its own, clear of every object; a dynamic thread's stack is the one its control block names; and the next call
    whose conditions hold ends, without failed assertion. *)
Theorem system_stays_sound y c :
  since_reset y ->
  (forall l cl o t, wait_object l = Some (cl, o) -> t ∈ lists (sy_kernel y) l ->
     (Z.of_nat o ∈ sy_ls y cl) /\ rt_object_get_type (sy_objects y) (Z.of_nat o) = Some cl /\
     Z.of_nat t ∈ sy_ls y RT_Object_Class_Thread) /\
  (forall i j a b, i ∈ table -> j ∈ table -> a ∈ sy_ls y (oi_type i) -> b ∈ sy_ls y (oi_type j) ->
     (i = j /\ a = b) \/ a + object_size i <= b \/ b + object_size j <= a \/ inside i a j b \/ inside j b i a) /\
  (forall o p, sy_pools y !! o = Some p ->
     exists n, sy_live y !! p = Some n /\ clear_of container (sy_ls y) p n /\ forall o', sy_pools y !! o' = Some p -> o' = o) /\
  (forall o, o ∈ sy_ls y RT_Object_Class_Thread -> rt_object_is_systemobject (sy_objects y) o = Some false ->
     sy_pools y !! o = Some (stack_addr (obj_mem (sy_objects y)) o)) /\
  (may_call container c y -> exists y', run container texit hook c y = Some y').
Proof.
  intros Hr. pose proof (running_ok y Hr) as Hy. pose proof (yo_layout _ _ Hy) as Hla. split_ands.
  - intros l cl o t El Ht. pose proof (yo_waits _ _ Hy l cl o t El Ht) as Ho. split; [exact Ho|]. split.
    + assert (Hi : exists i, i ∈ table /\ cl = oi_type i).
      { destruct l; try discriminate El; injection El as <- _; [exists (kind_info container (KSem (mkSem 0 0))) | exists (kind_info container KMutex) |
          exists (kind_info container KEvent) | exists (kind_info container KMb) .. | exists (kind_info container (KMq (mkMessageQueue 0 0 0 0 0 0 0 0))) |
          exists (kind_info container (KMq (mkMessageQueue 0 0 0 0 0 0 0 0))) | exists (kind_info container (KMp (mkMemPool 0 0 0 0 0 0 0)))];
          (split; [apply kind_in | reflexivity]). }
      destruct Hi as (i & Hi & ->). pose proof (reg_pos container y Hy i _ Hi Ho). apply get_type_spec; [lia|].
      apply (oo_type _ _ _ _ (la_objects _ _ _ _ _ Hla)); auto.
    + apply (ti_live _ _ _ _ (yo_threads _ _ Hy)). rewrite (wait_suspended (sy_kernel y) l t _ (ki_ok _ _ (yo_kernel _ _ Hy)) (wait_is_wait _ _ _ El) Ht). reflexivity.
  - apply (la_apart _ _ _ _ _ Hla).
  - intros o p Hp. destruct (la_pool _ _ _ _ _ Hla o p Hp) as [_ (n & _ & Hl & Hc)]. exists n. split_ands; auto.
    intros o' Ho'. apply (la_once _ _ _ _ _ Hla _ _ p); auto.
  - intros o Ho Hd. destruct (ti_object _ _ _ _ (yo_threads _ _ Hy) o Ho) as [A1 _ A3]. rewrite Hd in A1. injection A1 as A1.
    rewrite <- A1 in A3. exact A3.
  - intros Hc. destruct (run_ok container texit hook y Hy c Hc) as (y' & E & _). eauto.
Qed.

(** C6: Deleting a semaphore, mutex, event, mailbox, message queue or memory pool in any state reached: the call
    answers RT_EOK; every thread that waited on it is ready or running again with the error -RT_ERROR, no other
    thread and no other wait list has changed; the object is out of its class, and the heap holds the blocks it held
    before without the control block and the pool. *)
Theorem delete_wakes_and_frees y kd pool o :
  since_reset y -> may_call container (DeleteObject kd pool o) y ->
  exists k' s', ipc_delete kd pool (sy_kernel y) (sy_objects y) o = Some (k', s', RT_EOK) /\
    (forall h t, h ∈ kind_waits kd (key o) -> t ∈ lists (sy_kernel y) h -> error (threads k' t) = - RT_ERROR /\
       (thread_stat (threads k' t) = RT_THREAD_READY \/ thread_stat (threads k' t) = RT_THREAD_RUNNING)) /\
    (forall h, h ∈ kind_waits kd (key o) -> lists k' h = []) /\
    (forall t, (forall h, h ∈ kind_waits kd (key o) -> t ∉ lists (sy_kernel y) h) -> threads k' t = threads (sy_kernel y) t) /\
    (forall h, is_wait h = true -> h ∉ kind_waits kd (key o) -> lists k' h = lists (sy_kernel y) h) /\
    let y' := after_delete container kd pool o y k' s' in
    since_reset y' /\ (exists bs, state_ok (obj_heap s') bs (sy_live y')) /\
    (o ∉ sy_ls y' (oi_type (kind_info container kd))) /\ sy_live y' !! o = None /\
    (forall p, sy_pools y !! o = Some p -> sy_live y' !! p = None) /\
    (forall p n, p <> o -> sy_pools y !! o <> Some p -> sy_live y !! p = Some n -> sy_live y' !! p = Some n).
Proof.
  intros Hr Hc. pose proof (running_ok y Hr) as Hy. pose proof Hc as (Ho & Hd & Hp).
  destruct (ipc_delete_ok container y Hy kd pool o Ho Hd Hp) as (k' & s' & E & [_ _ W3 W4 W5 W6] & Hy'). exists k', s'.
  split; [exact E|]. split; [exact (fun h t Hh Ht => W5 h t Hh Ht)|]. split; [exact W3|]. split; [exact W6|]. split; [exact W4|].
  cbv zeta. split; [apply (next_call (DeleteObject kd pool o) y); auto; cbn [run]; rewrite E; reflexivity|].
  split; [apply (oo_heap _ _ _ _ (la_objects _ _ _ _ _ (yo_layout _ _ Hy')))|].
  unfold after_delete. cbn [sy_ls sy_live]. split; [|split; [apply lookup_delete_eq|split]].
  - intros H. unfold without, set_class in H. rewrite Z.eqb_refl in H. apply list_elem_of_filter in H as [H _]. contradiction.
  - intros p Hpp. rewrite Hpp in Hp. rewrite <- Hp. apply lookup_delete_None. right. apply lookup_delete_eq.
  - intros p n Hne Hnp Hl. rewrite lookup_delete_ne by congruence. destruct (kind_pool kd pool) as [q|]; [|exact Hl].
    rewrite lookup_delete_ne by congruence. exact Hl.
Qed.

(** C8: Creating a thread in any state reached, with a stack of at least 72 bytes: the call ends; it answers 0 and has
    changed no thread, no list and no block of the heap, or it answers the address of a control block that was free
    until then.  The new thread is not started yet, has the priority asked for and a stack of the size asked for in
    another block that was free; the saved stack pointer is inside this stack with room for the whole frame, aligned
    to 8, and the frame makes the first switch to the thread enter [entry] with [parameter] in r0 and return into
    [rt_thread_exit]; no other thread has changed. *)
Theorem create_thread_makes y name entry parameter stack_size priority tick :
  since_reset y ->
  may_call container (CreateThread name entry parameter stack_size priority tick) y ->
  exists k' s' o, rt_thread_create container texit hook (all_threads y) (sy_kernel y) (sy_objects y)
      name entry parameter stack_size priority tick = Some (k', s', o) /\
    let y' := after_thread_create y k' s' o stack_size in since_reset y' /\
    if o =? 0 then k' = sy_kernel y /\ (exists bs, state_ok (obj_heap s') bs (sy_live y))
    else
      let p := stack_addr (obj_mem s') o in
      sy_live y !! o = None /\ sy_live y !! p = None /\ sy_live y' !! o = Some 128 /\ sy_live y' !! p = Some stack_size /\
      thread_stat (threads k' (key o)) = RT_THREAD_INIT /\ init_priority (threads k' (key o)) = priority /\
      (forall t, t <> key o -> threads k' t = threads (sy_kernel y) t) /\ lists k' = lists (sy_kernel y) /\
      exists sp, load32 (obj_mem s') (o + 28) = sp /\ p <= sp /\ sp + SIZEOF_STACK_FRAME <= p + stack_size /\ sp mod 8 = 0 /\
        load32 (obj_mem s') (sp + 32) = u32 parameter /\ load32 (obj_mem s') (sp + 52) = u32 texit /\
        load32 (obj_mem s') (sp + 56) = u32 entry.
Proof.
  intros Hr Hc. pose proof (running_ok y Hr) as Hy. pose proof Hc as [Hn Hp].
  destruct (thread_create_ok container y Hy texit hook (all_threads y) name entry parameter stack_size priority tick Hn Hp)
    as (k' & s' & o & E & H); [unfold all_threads; lia|]. exists k', s', o. split; [exact E|]. cbv zeta.
  split; [eapply (next_call _ y); [exact Hr | exact Hc | cbn [run]; rewrite E; reflexivity]|].
  unfold after_thread_create. destruct (Z.eqb_spec o 0) as [->|Hne].
  - destruct H as [-> H]. split; [reflexivity|]. apply (oo_heap _ _ _ _ (la_objects _ _ _ _ _ (yo_layout _ _ H))).
  - destruct H as (p & _ & Ho & Hlp & [H _ [S1 S2 S3 S4 S5 S6 S7 S8] (sp & F1 & F2 & F3 & [F4 F5 F6 F7 _])]).
    cbn [sy_kernel sy_objects] in *.
    pose proof (th_stack _ _ _ _ _ (ti_object _ _ _ _ (yo_threads _ _ H) o (ltac:(left)))) as Hsp.
    cbn [sy_kernel sy_objects sy_pools] in Hsp. rewrite S7, lookup_insert_eq in Hsp. injection Hsp as <-. cbn [sy_live].
    assert (Hop : p <> o).
    { destruct (la_pool _ _ _ _ _ (yo_layout _ _ H) o p (lookup_insert_eq _ _ _)) as [_ (n & Hn1 & _ & Hcl)]. cbn [sy_ls] in Hcl.
      specialize (Hcl (the_threads container) o (threads_in_table container) ltac:(left)). change (object_size (the_threads container)) with 128 in Hcl. lia. }
    split_ands; auto; [|apply lookup_insert_eq|].
    + rewrite lookup_insert_ne by exact Hop. apply lookup_insert_eq.
    + exists sp. unfold SIZEOF_STACK_FRAME. split_ands; auto.
Qed.

(** C7: The idle thread in any state reached in which the running thread is not in the defunct list: its call ends; it
    buries the threads of the defunct list in order up to the first static one, that one included, and leaves those
    behind it; of every dynamic thread it buries, the control block and the stack go back to the heap, and no other
    block does; the buried threads are no longer registered, all others are. *)
Theorem idle_buries_the_dead y :
  since_reset y -> awake (sy_kernel y) ->
  exists k' s', rt_thread_idle_excute (sy_kernel y) (sy_objects y) = Some (k', s') /\
    let dead := lists (sy_kernel y) Defunct in
    let buried := burying (sy_pools y) dead in
    let y' := after_burial y k' s' in since_reset y' /\
    (exists n, n = length buried /\ map Z.of_nat (firstn n dead) = buried /\ lists k' Defunct = skipn n dead /\
       (lists k' Defunct <> [] -> exists o, last buried = Some o /\ rt_object_is_systemobject (sy_objects y) o = Some true)) /\
    (exists bs, state_ok (obj_heap s') bs (sy_live y')) /\
    (forall o, o ∈ buried -> rt_object_is_systemobject (sy_objects y) o = Some false ->
       sy_live y' !! o = None /\ sy_live y' !! stack_addr (obj_mem (sy_objects y)) o = None) /\
    (forall p n, sy_live y !! p = Some n -> (forall o, o ∈ buried -> p <> o /\ p <> stack_addr (obj_mem (sy_objects y)) o) ->
       sy_live y' !! p = Some n) /\
    (forall o, o ∈ sy_ls y' RT_Object_Class_Thread <-> (o ∈ sy_ls y RT_Object_Class_Thread) /\ o ∉ buried).
Proof.
  intros Hr Ha. pose proof (running_ok y Hr) as Hy. pose proof (yo_threads _ _ Hy) as Hth.
  destruct (idle_excute_ok container y Hy Ha) as (k' & s' & E & Hy' & _ & Ed). exists k', s'. split; [exact E|]. cbv zeta.
  set (d := lists (sy_kernel y) Defunct) in *. destruct (burying_prefix (sy_pools y) d) as [X1 X2].
  assert (Hin : forall o, o ∈ burying (sy_pools y) d -> (o ∈ sy_ls y RT_Object_Class_Thread) /\
            rt_object_is_systemobject (sy_objects y) o = Some (bool_decide (sy_pools y !! o = None)) /\
            forall p, sy_pools y !! o = Some p -> p = stack_addr (obj_mem (sy_objects y)) o).
  { intros o Ho. destruct (burying_in _ _ _ Ho) as (t & Ht & ->). pose proof (ti_defunct _ _ _ _ Hth t Ht) as Hreg.
    destruct (ti_object _ _ _ _ Hth _ Hreg) as [A1 _ A3]. rewrite A1, A3.
    destruct (systemobject _); split_ands; auto; intros p [=]; auto. }
  split; [apply (next_call Bury y); auto; cbn [run]; rewrite E; reflexivity|]. split; [|split; [|split; [|split]]].
  - exists (length (burying (sy_pools y) d)). split_ands; [reflexivity | symmetry; exact X1 | congruence|].
    intros Hne. rewrite Ed in Hne. destruct (burying_stops _ _ Hne) as (o & Hl & Ho). exists o. split; [exact Hl|].
    destruct (Hin o) as (_ & -> & _); [apply last_Some_elem_of, Hl | rewrite bool_decide_true by exact Ho; reflexivity].
  - apply (oo_heap _ _ _ _ (la_objects _ _ _ _ _ (yo_layout _ _ Hy'))).
  - intros o Ho Hd. destruct (Hin o Ho) as (_ & Hs1 & Hs2). rewrite Hs1 in Hd. injection Hd as Hd. apply bool_decide_eq_false in Hd.
    destruct (sy_pools y !! o) as [p|] eqn:Ep; [|contradiction]. rewrite <- (Hs2 p eq_refl). unfold after_burial. cbn [sy_live].
    split; apply map_lookup_filter_None; right; intros n _ H; apply H; apply elem_of_released; eauto 6.
  - intros p n Hl Hnot. unfold after_burial. cbn [sy_live]. apply map_lookup_filter_Some. split; [exact Hl|]. cbn [fst].
    intros (o & q & Ho & Hq & Hp)%elem_of_released. destruct (Hin o Ho) as (_ & _ & Hs2). destruct (Hnot o Ho) as [N1 N2].
    destruct Hp as [->| ->]; [apply N1; reflexivity | apply N2, Hs2, Hq].
  - intros o. unfold after_burial. cbn [sy_ls]. unfold set_class. rewrite Z.eqb_refl, list_elem_of_filter. tauto.
Qed.
End System.

(** ** A small system: the image of [Startup] *)

Abbreviation boot := (bt_sys small_boot).

(** A semaphore and a thread are created; the thread is started and waits for the semaphore. *)
Abbreviation go c y := (default boot (run 100 0 0 c y)).
Definition with_semaphore : Sys := go (CreateObject (CreateSem 0 0) 44) boot.
Definition with_worker : Sys := go (CreateThread 44 9999 7 256 3 5) with_semaphore.
Definition started_worker : Sys := go (Start 6352) with_worker.
Definition waiting_worker : Sys := go (Wait (SemWait (key 6308)) 0 (-1)) started_worker.

Abbreviation since_boot := (since_reset (U := list Z) 100 0 0 small_image).

Lemma go_reached c y : since_boot y -> may_call 100 c y -> since_boot (go c y).
Proof.
  intros Hr Hc. destruct (run_ok 100 0 0 y (running_ok 100 0 0 small_image y Hr) c Hc) as (y' & E & _).
  apply (next_call 100 0 0 small_image c y); [exact Hr | exact Hc | rewrite E; reflexivity].
Qed.

Lemma boot_reached : since_boot boot.
Proof. exists image_objects, [[]; []], small_boot. split; [exact image_start|]. split; [exact small_boots | apply at_start]. Qed.

Lemma semaphore_reached : since_boot with_semaphore.
Proof. apply go_reached; [exact boot_reached | cbn; lia]. Qed.

Lemma worker_allowed : may_call 100 (CreateThread 44 9999 7 256 3 5) with_semaphore.
Proof. unfold may_call, SIZE_LIMIT. lia. Qed.

Lemma worker_reached : since_boot with_worker.
Proof. apply go_reached; [exact semaphore_reached | exact worker_allowed]. Qed.

Lemma member_list (l l' : list Z) x : l = l' -> bool_decide (x ∈ l') = true -> x ∈ l.
Proof. intros -> H. apply bool_decide_eq_true in H. exact H. Qed.

Lemma started_reached : since_boot started_worker.
Proof.
  apply go_reached; [exact worker_reached|]. split; [eapply member_list; vm_compute; reflexivity|].
  split; [vm_compute; reflexivity|]. vm_compute. split; congruence.
Qed.

Lemma waiting_reached : since_boot waiting_worker.
Proof.
  apply go_reached; [exact started_reached|]. split; [exists (key 6352); vm_compute; reflexivity|].
  split; [reflexivity|]. exists 2, (key 6308). split; [reflexivity|]. eapply member_list; vm_compute; reflexivity.
Qed.

Lemma delete_allowed : may_call 100 (DeleteObject (KSem (mkSem 0 0)) 0 6308) waiting_worker.
Proof.
  split; [eapply member_list; vm_compute; reflexivity|]. split; vm_compute; reflexivity.
Qed.

Lemma system_stays_sound_witness :
  (key 6352 ∈ lists (sy_kernel waiting_worker) (SemWait (key 6308))) /\
  rt_object_get_type (sy_objects waiting_worker) (Z.of_nat (key 6308)) = Some 2 /\
  exists y', run 100 0 0 (DeleteObject (KSem (mkSem 0 0)) 0 6308) waiting_worker = Some y'.
Proof.
  destruct (system_stays_sound 100 0 0 small_image waiting_worker (DeleteObject (KSem (mkSem 0 0)) 0 6308) waiting_reached)
    as (H1 & _ & _ & _ & H5).
  assert (Hin : key 6352 ∈ lists (sy_kernel waiting_worker) (SemWait (key 6308))).
  { replace (lists (sy_kernel waiting_worker) (SemWait (key 6308))) with [key 6352] by (vm_compute; reflexivity). left. }
  split; [exact Hin|]. split; [apply (H1 (SemWait (key 6308)) 2 (key 6308) (key 6352)); [reflexivity | exact Hin] | apply H5, delete_allowed].
Defined.

Lemma delete_wakes_and_frees_witness :
  exists k' s', ipc_delete (KSem (mkSem 0 0)) 0 (sy_kernel waiting_worker) (sy_objects waiting_worker) 6308 = Some (k', s', RT_EOK) /\
    error (threads k' (key 6352)) = - RT_ERROR /\ lists k' (SemWait (key 6308)) = [].
Proof.
  destruct (delete_wakes_and_frees 100 0 0 small_image waiting_worker (KSem (mkSem 0 0)) 0 6308 waiting_reached delete_allowed)
    as (k' & s' & E & H1 & H2 & _). exists k', s'. split; [exact E|].
  split; [apply (H1 (SemWait (key 6308)) (key 6352)); [left|] | apply H2; left].
  replace (lists (sy_kernel waiting_worker) (SemWait (key 6308))) with [key 6352] by (vm_compute; reflexivity). left.
Defined.

Lemma create_thread_makes_witness :
  exists k' s', rt_thread_create 100 0 0 (all_threads with_semaphore) (sy_kernel with_semaphore) (sy_objects with_semaphore)
      44 9999 7 256 3 5 = Some (k', s', 6352) /\ thread_stat (threads k' (key 6352)) = RT_THREAD_INIT /\
    exists sp, load32 (obj_mem s') (6352 + 28) = sp /\ load32 (obj_mem s') (sp + 56) = u32 9999.
Proof.
  destruct (create_thread_makes 100 0 0 small_image with_semaphore 44 9999 7 256 3 5 semaphore_reached worker_allowed)
    as (k' & s' & o & E & _ & H).
  assert (Eo : o = 6352).
  { apply (f_equal (fun r => match r with Some (_, _, x) => x | None => 0 end)) in E. rewrite <- E. vm_compute. reflexivity. }
  subst o. change (6352 =? 0) with false in H. cbv iota zeta in H.
  destruct H as (_ & _ & _ & _ & Hst & _ & _ & _ & sp & Hsp & _ & _ & _ & _ & _ & Hpc).
  exists k', s'. split; [exact E|]. split; [exact Hst|]. exists sp. split; [exact Hsp | exact Hpc].
Defined.

(** The started thread leaves, and the idle thread buries it. *)
Definition dead_worker : Sys := go ExitThread started_worker.

Lemma dead_reached : since_boot dead_worker.
Proof.
  apply go_reached; [exact started_reached|]. exists (key 6352). split; [vm_compute; reflexivity | left; vm_compute; reflexivity].
Qed.

Lemma dead_awake : awake (sy_kernel dead_worker).
Proof.
  intros c. replace (rt_current_thread (sy_kernel dead_worker)) with (Some (key 700)) by (vm_compute; reflexivity). intros [= <-].
  replace (lists (sy_kernel dead_worker) Defunct) with [key 6352] by (vm_compute; reflexivity).
  intros H%list_elem_of_singleton. apply (f_equal Z.of_nat) in H. vm_compute in H. discriminate.
Qed.

Lemma idle_buries_the_dead_witness :
  exists k' s', rt_thread_idle_excute (sy_kernel dead_worker) (sy_objects dead_worker) = Some (k', s') /\
    lists k' Defunct = [] /\ sy_live (after_burial dead_worker k' s') !! 6352 = None.
Proof.
  destruct (idle_buries_the_dead 100 0 0 small_image dead_worker dead_reached dead_awake)
    as (k' & s' & E & _ & (n & -> & _ & Hd & _) & _ & Hfree & _). exists k', s'. split; [exact E|].
  assert (Eb : burying (sy_pools dead_worker) (lists (sy_kernel dead_worker) Defunct) = [6352]) by (vm_compute; reflexivity).
  rewrite Eb in *. split; [rewrite Hd; vm_compute; reflexivity|]. destruct (Hfree 6352) as [H _]; [left | vm_compute; reflexivity | exact H].
Defined.
