(* ===== verification/Ports.v ===== *)
(** * Bringing up the serial ports and their threads

    The start-up functions of the applications (init_lora and thread_lora of lora.c and
    their like in raspberry.c, water.c, gps.c and compass.c).  Each is a sequence of
    calls into the kernel; between any two of them the port may interrupt, the thread
    that reads the port runs once it is started, and so may the rest of the system.
    [perform] executes one call on the kernel, the object container, the device and the
    semaphore; a function is the list of its calls.  A port begins as the start-up of
    the system leaves it, the console included. *)

From S2P Require Import Prelude Kernel Scheduler Timer Thread Tick Ipc Mutex Event Mailbox.
From S2P Require Import Memory Kservice Blocks Mem Heap Strings LinkedList Object Device Serial SerialUse.
From S2P Require Import MessageQueue Mempool Create Idle Layout Gentle Life LifeCalls LifeThreads LifeCreate LifeIdle LifeRun Receiver Startup.

(** ** The calls *)

Definition EINVAL : Z := 22.

(** One call of a start-up function.  The [_or] forms return from the function when the
    call fails. *)
Inductive action :=
| Find (result : option Z)              (* rt_device_find, perhaps [if (dev == RT_NULL) return ..] *)
| Configure (c : serial_configure)      (* rt_device_control(dev, RT_DEVICE_CTRL_CONFIG, &config) *)
| Open (oflag : Z) (checked : bool)
| SetIndicate                           (* rt_device_set_rx_indicate(dev, callback) *)
| SemInit (checked : bool)              (* rt_sem_init(&sem, name, 0, RT_IPC_FLAG_FIFO) *)
| CreateTask (n : nat) (stack_size priority tick : Z)   (* rt_thread_create: the n-th thread of the file *)
| StartTask.                            (* if (thread != RT_NULL) rt_thread_startup(thread) *)

Definition function := list action.

(** *** lora.c *)
Definition lora_config : serial_configure := RT_SERIAL_CONFIG_DEFAULT
  <| baud_rate := BAUD_RATE_9600 |> <| data_bits := DATA_BITS_8 |> <| stop_bits := STOP_BITS_1 |> <| bufsz := 128 |> <| parity := PARITY_NONE |>.
Definition init_lora : function :=
  [Find None; Configure lora_config; Open RT_DEVICE_FLAG_INT_RX false; SemInit false; SetIndicate].
Definition thread_lora : list function := [init_lora; [CreateTask 0 2048 3 5; StartTask]].

(** *** raspberry.c *)
Definition raspberry_config : serial_configure := RT_SERIAL_CONFIG_DEFAULT
  <| baud_rate := BAUD_RATE_115200 |> <| data_bits := DATA_BITS_8 |> <| stop_bits := STOP_BITS_1 |> <| bufsz := 7000 |> <| parity := PARITY_NONE |>.
Definition init_raspberry : function :=
  [Find None; Configure raspberry_config; Open RT_DEVICE_FLAG_INT_RX false; SemInit false; SetIndicate].
Definition thread_raspberry : list function :=
  [init_raspberry; [CreateTask 0 8000 2 20; StartTask; CreateTask 1 2048 2 5; StartTask]].

(** *** water.c *)
Definition water_configs1 : serial_configure := RT_SERIAL_CONFIG_DEFAULT
  <| baud_rate := BAUD_RATE_9600 |> <| data_bits := DATA_BITS_8 |> <| stop_bits := STOP_BITS_1 |> <| bufsz := 700 |> <| parity := PARITY_NONE |>.
Definition init_water : function :=
  [Find None; Configure water_configs1; Open RT_DEVICE_FLAG_INT_RX false; SemInit false; SetIndicate].
Definition thread_water : list function :=
  [init_water; [CreateTask 0 2048 5 5; StartTask; CreateTask 1 2048 5 5; StartTask]].

(** *** compass.c *)
Definition compass_configs : serial_configure := RT_SERIAL_CONFIG_DEFAULT
  <| baud_rate := BAUD_RATE_115200 |> <| data_bits := DATA_BITS_8 |> <| stop_bits := STOP_BITS_1 |> <| bufsz := 512 |> <| parity := PARITY_NONE |>.
Definition init_compass : function :=
  [Find (Some (- EINVAL)); Configure compass_configs; SetIndicate;
   Open (Z.lor RT_DEVICE_OFLAG_RDWR RT_DEVICE_FLAG_INT_RX) true; SemInit true].
Definition thread_compass : list function := [init_compass; [CreateTask 0 2048 4 5; StartTask]].

(** *** gps.c: the port is opened before it is configured *)
Definition gps_configs : serial_configure := RT_SERIAL_CONFIG_DEFAULT
  <| baud_rate := BAUD_RATE_115200 |> <| data_bits := DATA_BITS_8 |> <| stop_bits := STOP_BITS_1 |> <| bufsz := 1024 |> <| parity := PARITY_NONE |>.
Definition init_gps : function :=
  [Find None; Open (Z.lor RT_DEVICE_OFLAG_RDWR RT_DEVICE_FLAG_INT_RX) true; Configure gps_configs; SetIndicate; SemInit true].
Definition thread_gps : list function := [init_gps; [CreateTask 0 2048 5 5; StartTask]].

(** ** One call *)

(** The static data of one application: the address of its device and the places of its
    names, semaphore, configuration and functions. *)
Record place := mk_place {
  dev_addr : Z;
  dev_name : Z;
  config_addr : Z;
  callback : Z;
  sem_addr : Z;
  sem_name : Z;
  task_name : nat -> Z;
  task_entry : nat -> Z
}.

Section Ports.
Context {H : Type} {Ops : UartOps H} {Port : RxPort H}.
Context (container texit hook : Z) (at_ : place).
Abbreviation Dev := (SerialDevice H).

Record port_state := mk_port {
  pt_sys : Sys;
  pt_dev : Dev;
  pt_sem : Sem;
  pt_handle : Z;       (* the application's device variable *)
  pt_task : Z;         (* the thread just created *)
  pt_reads : bool      (* whether it is the thread that reads the port *)
}.
#[global] Instance port_state_rebuild : Rebuild port_state := fun p =>
  mk_port (pt_sys p) (pt_dev p) (pt_sem p) (pt_handle p) (pt_task p) (pt_reads p).

Definition pt_heap (p : port_state) : Heap := obj_heap (sy_objects (pt_sys p)).

Definition set_sys (p : port_state) (y : Sys) : port_state :=
  p <| pt_sys := y |> <| pt_dev := with_heap (obj_heap (sy_objects y)) (pt_dev p) |>.
Definition set_dev (p : port_state) (dev : Dev) : port_state :=
  let y := pt_sys p in
  p <| pt_dev := dev |>
    <| pt_sys := mk_sys (sy_kernel y) ((sy_objects y) <| obj_heap := dev_heap dev |>) (buffers dev ∪ sy_live y) (sy_ls y) (sy_pools y) |>.

(** A device call asserts that the variable holds a device. *)
Definition on_device (p : port_state) (f : Dev -> option (Dev * Z)) : option (port_state * Z) :=
  if pt_handle p =? dev_addr at_ then
    '(dev, e) ← f (pt_dev p);
    Some (set_dev p dev, e)
  else None.

(** The call, and the value the function returns there, if it does. *)
Definition perform (a : action) (p : port_state) : option (port_state * option Z) :=
  let y := pt_sys p in
  match a with
  | Find result =>
      h ← rt_device_find container (S (length (sy_ls y RT_Object_Class_Device))) (sy_objects y) (dev_name at_);
      Some (p <| pt_handle := h |>, if h =? 0 then result else None)
  | Configure c =>
      '(p, _) ← on_device p (fun dev => rt_device_control dev RT_DEVICE_CTRL_CONFIG (ArgConfig (config_addr at_) c));
      Some (p, None)
  | Open oflag checked =>
      '(p, ret) ← on_device p (fun dev => rt_device_open dev oflag);
      Some (p, if checked && (ret <? 0) then Some ret else None)
  | SetIndicate =>
      '(p, _) ← on_device p (fun dev => rt_device_set_rx_indicate dev (callback at_));
      Some (p, None)
  | SemInit checked =>
      '(k, s, sm, ret) ← rt_sem_init container (S (length (sy_ls y RT_Object_Class_Semaphore))) (sy_kernel y) (sy_objects y)
                           (sem_addr at_) (sem_name at_) 0 RT_IPC_FLAG_FIFO;
      let ls := set_class (sy_ls y) RT_Object_Class_Semaphore (sem_addr at_ :: sy_ls y RT_Object_Class_Semaphore) in
      Some (set_sys p (mk_sys k s (sy_live y) ls (sy_pools y)) <| pt_sem := sm |>, if checked && (ret <? 0) then Some ret else None)
  | CreateTask n stack_size priority tick =>
      '(k, s, t) ← rt_thread_create container texit hook (all_threads y) (sy_kernel y) (sy_objects y) (task_name at_ n) (task_entry at_ n)
                     0 stack_size priority tick;
      Some (set_sys p (after_thread_create y k s t stack_size) <| pt_task := t |> <| pt_reads := (n =? 0)%nat |>, None)
  | StartTask =>
      if pt_task p =? 0 then Some (p, None)
      else
        '(k, _) ← rt_thread_startup (sy_kernel y) (key (pt_task p));
        Some (set_sys p (y <| sy_kernel := k |>), None)
  end.

Definition set_kernel (p : port_state) (k : Kernel) (sm : Sem) : port_state :=
  p <| pt_sys := pt_sys p <| sy_kernel := k |> |> <| pt_sem := sm |>.

(** The calls on the semaphore assert that they are given one. *)
Definition on_semaphore {A} (p : port_state) (f : Kernel -> nat -> Sem -> option (Kernel * Sem * A)) : option (port_state * A) :=
  type ← rt_object_get_type (sy_objects (pt_sys p)) (sem_addr at_);
  if type =? RT_Object_Class_Semaphore then
    '(k, sm, r) ← f (sy_kernel (pt_sys p)) (key (sem_addr at_)) (pt_sem p);
    Some (set_kernel p k sm, r)
  else None.

(** The receive interrupt of the port: [rt_hw_serial_isr] and the application's call back. *)
Definition call_back (p : port_state) : option port_state := '(p, _) ← on_semaphore p Ipc.rt_sem_release; Some p.
Definition port_isr (fuel : nat) (p : port_state) : option port_state :=
  '(dev, eff) ← rt_hw_serial_isr fuel (pt_dev p) RT_SERIAL_EVENT_RX_IND;
  let p := p <| pt_dev := dev |> in
  match eff with RxIndicate _ _ => call_back p | _ => Some p end.

(** The two calls of the reading thread [r]: [rt_device_read(dev, 0, &ch, 1)] and, when it gives nothing,
    [rt_sem_take(&sem, RT_WAITING_FOREVER)]. *)
Definition read_byte (r : nat) (p : port_state) : option (port_state * list Z) :=
  if pt_handle p =? dev_addr at_ then
    '(_, dev, bytes) ← rt_device_read (error (threads (sy_kernel (pt_sys p)) r)) (pt_dev p) 0 1;
    Some (p <| pt_dev := dev |>, bytes)
  else None.
Definition take_semaphore (p : port_state) : option (port_state * outcome) :=
  on_semaphore p (fun k s sm => Ipc.rt_sem_take k s sm RT_WAITING_FOREVER).

(** ** The start-up with everything around it *)

(** The bytes in the buffer, those the port has handed over, how many were overwritten and those the application has
    read; and the thread that reads the port with the place it is at, as in Receiver, once it is started: the first
    thread of every file. *)
Record trace := mk_trace {
  tr_queue : list Z;
  tr_in : list Z;
  tr_lost : nat;
  tr_got : list Z;
  tr_reader : option (nat * reader_pc)
}.
#[global] Instance trace_rebuild : Rebuild trace := fun t =>
  mk_trace (tr_queue t) (tr_in t) (tr_lost t) (tr_got t) (tr_reader t).

(** What a call of the start-up adds. *)
Definition started (a : action) (p : port_state) (tr : trace) : trace :=
  match a, tr_reader tr with
  | StartTask, None => if negb (pt_task p =? 0) && pt_reads p then tr <| tr_reader := Some (key (pt_task p), Reading) |> else tr
  | _, _ => tr
  end.

(** The functions when nothing comes between their calls. *)
Fixpoint run_function (l : function) (p : port_state) (tr : trace) : option (port_state * trace) :=
  match l with
  | [] => Some (p, tr)
  | a :: l => '(p', e) ← perform a p; match e with Some _ => Some (p', tr) | None => run_function l p' (started a p tr) end
  end.
Fixpoint run_functions (fs : list function) (p : port_state) (tr : trace) : option (port_state * trace) :=
  match fs with [] => Some (p, tr) | f :: fs => '(p, tr) ← run_function f p tr; run_functions fs p tr end.

Abbreviation boot := (list function * port_state * trace)%type.

Abbreviation sem_class y := (sy_ls y RT_Object_Class_Semaphore).
Abbreviation find_device y :=
  (rt_device_find container (S (length (sy_ls y RT_Object_Class_Device))) (sy_objects y) (dev_name at_)).

(** What the rest of the system leaves to this application: the name of its device, its
    semaphore, which only the reading thread takes, its receive buffer and a thread it
    has not started yet. *)
Record leaves (p : port_state) (y : Sys) : Prop := {
  lv_name : find_device y = find_device (pt_sys p);
  lv_sem : sem_addr at_ ∈ sem_class y <-> sem_addr at_ ∈ sem_class (pt_sys p);
  lv_storage : sem_addr at_ ∉ sem_class (pt_sys p) -> heap_ptr (obj_heap (sy_objects y)) = heap_ptr (pt_heap p) /\
    clear_of container (sy_ls y) (sem_addr at_) sizeof_semaphore /\
    object_type (obj_mem (sy_objects y)) (sem_addr at_) = object_type (obj_mem (sy_objects (pt_sys p))) (sem_addr at_);
  lv_buffer : buffers (pt_dev p) ⊆ sy_live y;
  lv_waiters : forall t, t ∈ lists (sy_kernel y) (SemWait (key (sem_addr at_))) ->
    t ∈ lists (sy_kernel (pt_sys p)) (SemWait (key (sem_addr at_)));
  lv_task : let t := pt_task p in t ∈ sy_ls (pt_sys p) RT_Object_Class_Thread ->
    thread_stat (threads (sy_kernel (pt_sys p)) (key t)) = RT_THREAD_INIT ->
    (t ∈ sy_ls y RT_Object_Class_Thread) /\ threads (sy_kernel y) (key t) = threads (sy_kernel (pt_sys p)) (key t)
}.

(** The reading thread runs when the scheduler lets it: at the latest [rt_thread_startup], whose last call is
    [rt_schedule], hands the processor to it.  Writing to the port, which has no transmit buffer, only changes the
    hardware. *)
Inductive boot_step : boot -> boot -> Prop :=
| bs_call a r fs p tr p' :
    perform a p = Some (p', None) -> boot_step ((a :: r) :: fs, p, tr) (r :: fs, p', started a p tr)
| bs_return a r fs p tr p' e :
    perform a p = Some (p', Some e) -> boot_step ((a :: r) :: fs, p, tr) (fs, p', tr)
| bs_end fs p tr : boot_step ([] :: fs, p, tr) (fs, p, tr)
| bs_isr fs p q ins lost got rd fuel p' :
    let bytes := pending (port (serial_of (pt_dev p))) in
    let q' := newest (cfg_bufsz (pt_dev p) - 1) (q ++ bytes) in
    listening (pt_dev p) = true -> (length bytes < fuel)%nat -> value (pt_sem p) < 65535 -> port_isr fuel p = Some p' ->
    boot_step (fs, p, mk_trace q ins lost got rd)
      (fs, p', mk_trace q' (ins ++ bytes) (lost + (length (q ++ bytes) - length q')) got rd)
| bs_read fs p q ins lost got r p' bytes :
    running r (sy_kernel (pt_sys p)) -> read_byte r p = Some (p', bytes) ->
    boot_step (fs, p, mk_trace q ins lost got (Some (r, Reading)))
      (fs, p', mk_trace (drop (length bytes) q) ins lost (got ++ bytes)
                 (Some (r, match bytes with [] => Taking | _ => Reading end)))
| bs_take fs p q ins lost got r p' out :
    running r (sy_kernel (pt_sys p)) -> take_semaphore p = Some (p', out) ->
    boot_step (fs, p, mk_trace q ins lost got (Some (r, Taking)))
      (fs, p', mk_trace q ins lost got (Some (r, match out with Returns _ => Reading | Waits => Waiting end)))
| bs_taken fs p q ins lost got r :
    running r (sy_kernel (pt_sys p)) ->
    boot_step (fs, p, mk_trace q ins lost got (Some (r, Waiting))) (fs, p, mk_trace q ins lost got (Some (r, Reading)))
| bs_hardware fs p tr h :
    boot_step (fs, p, tr) (fs, p <| pt_dev := set_port (pt_dev p) h |>, tr)
| bs_others fs p tr c y :
    may_call container c (pt_sys p) -> run container texit hook c (pt_sys p) = Some y -> leaves p y ->
    boot_step (fs, p, tr) (fs, set_sys p y, tr).

(** ** Well-formed start-up functions *)

(** How far the start-up is: the device found and opened, the semaphore initialised, the
    call back set, a thread just created. *)
Record stage := mk_stage { found : bool; opened : bool; inited : bool; indicated : bool; created : bool }.
#[global] Instance stage_rebuild : Rebuild stage := fun s =>
  mk_stage (found s) (opened s) (inited s) (indicated s) (created s).

Definition oflag_ok (oflag : Z) : bool :=
  bit oflag 8 && negb (bit oflag 9) && negb (bit oflag 10) && negb (bit oflag 11).

Definition next_stage (a : action) (s : stage) : stage :=
  let s := s <| created := false |> in
  match a with
  | Find _ => s <| found := true |>
  | Open _ _ => s <| opened := true |>
  | SemInit _ => s <| inited := true |>
  | SetIndicate => s <| indicated := true |>
  | CreateTask _ _ _ _ => s <| created := true |>
  | _ => s
  end.
Definition complete (s : stage) : bool := found s && opened s && inited s && indicated s.
Definition ready (a : action) (s : stage) : bool :=
  match a with
  | Find _ => negb (found s)
  | Configure c => found s && (2 <=? bufsz c) && (bufsz c <=? 65535)
  | Open oflag _ => found s && negb (opened s) && oflag_ok oflag
  | SetIndicate => found s
  | SemInit _ => found s && negb (inited s)
  | CreateTask _ n pr _ => complete s && (72 <=? n) && (n <=? SIZE_LIMIT) && (0 <=? pr) && (pr <? 32)
  | StartTask => complete s && created s
  end.
(** Every call comes when it may, and in the end the port is up. *)
Fixpoint plan_ok (s : stage) (l : list action) : bool :=
  match l with [] => complete s | a :: l => ready a s && plan_ok (next_stage a s) l end.

(** The call back is set only when the semaphore exists. *)
Fixpoint indicates_late (inited : bool) (l : list action) : bool :=
  match l with
  | [] => true
  | SemInit _ :: l => indicates_late true l
  | SetIndicate :: l => inited && indicates_late inited l
  | _ :: l => indicates_late inited l
  end.

(** The configuration that remains: an open port refuses another buffer size. *)
Fixpoint outcome (opened : bool) (c : serial_configure) (l : list action) : serial_configure :=
  match l with
  | [] => c
  | Configure c' :: l => outcome opened (if opened && negb (bufsz c' =? bufsz c) then c else c') l
  | Open _ _ :: l => outcome true c l
  | _ :: l => outcome opened c l
  end.

(** ** The invariant *)

Abbreviation sys_ok := (sys_state container True).
Abbreviation kernel_of p := (sy_kernel (pt_sys p)).
Abbreviation sem_key := (key (sem_addr at_)).

(** The semaphore is registered, or its storage is still untouched. *)
Definition sem_place (y : Sys) (sm : Sem) : Prop :=
  if decide (sem_addr at_ ∈ sem_class y) then 0 <= value sm < 65536
  else (0 < sem_addr at_ /\ sem_addr at_ + sizeof_semaphore <= heap_ptr (obj_heap (sy_objects y)) /\
        (sem_addr at_ + sizeof_semaphore <= container \/ container + 144 <= sem_addr at_)) /\
    clear_of container (sy_ls y) (sem_addr at_) sizeof_semaphore /\ object_type (obj_mem (sy_objects y)) (sem_addr at_) = 0.

(** Only the reading thread waits for the semaphore, and only when there is nothing to read; about to take it,
    it finds it given if there is. *)
Record reader_ok (k : Kernel) (sm : Sem) (tr : trace) : Prop := {
  rd_waiters : forall t, t ∈ lists k (SemWait sem_key) -> tr_reader tr = Some (t, Waiting) /\ tr_queue tr = [];
  rd_taking : forall r, tr_reader tr = Some (r, Taking) -> tr_queue tr <> [] -> 0 < value sm;
  rd_order : tr_got tr ++ tr_queue tr `sublist_of` tr_in tr;
  rd_count : length (tr_in tr) = (length (tr_got tr) + length (tr_queue tr) + tr_lost tr)%nat
}.

(** What there is when the reading thread is started. *)
Record up (p : port_state) : Prop := {
  up_found : pt_handle p = dev_addr at_;
  up_opened : listening (pt_dev p) = true;
  up_inited : sem_addr at_ ∈ sem_class (pt_sys p);
  up_indicated : rx_indicate (pt_dev p) <> 0
}.

Record port_ok (p : port_state) (tr : trace) : Prop := {
  po_sys : sys_ok (pt_sys p);
  po_heap : dev_heap (pt_dev p) = pt_heap p;
  po_serial : exists ol, sy_live (pt_sys p) = buffers (pt_dev p) ∪ ol /\ serial_ok (pt_dev p, ol, tr_queue tr);
  po_sem : sem_place (pt_sys p) (pt_sem p);
  po_name : pt_handle p = dev_addr at_ \/ find_device (pt_sys p) = Some (dev_addr at_);
  po_once : ref_count (pt_dev p) <= if listening (pt_dev p) then 2 else 1;
  po_reader : reader_ok (kernel_of p) (pt_sem p) tr;
  po_up : tr_reader tr <> None -> up p
}.

Definition stage_now (p : port_state) (c : bool) : stage :=
  mk_stage (bool_decide (pt_handle p = dev_addr at_)) (listening (pt_dev p))
    (bool_decide (sem_addr at_ ∈ sem_class (pt_sys p))) (negb (rx_indicate (pt_dev p) =? 0)) c.

Definition task_ready (p : port_state) : Prop :=
  pt_task p <> 0 -> (pt_task p ∈ sy_ls (pt_sys p) RT_Object_Class_Thread) /\
    thread_stat (threads (kernel_of p) (key (pt_task p))) = RT_THREAD_INIT /\
    0 <= init_priority (threads (kernel_of p) (key (pt_task p))) < 32.

(** ** The device *)

Lemma serial_moves (dev : Dev) ol q y : serial_ok (dev, ol, q) -> sys_ok y -> buffers dev ⊆ sy_live y ->
  exists ol', sy_live y = buffers dev ∪ ol' /\ serial_ok (with_heap (obj_heap (sy_objects y)) dev, ol', q).
Proof.
  intros [H1 H2 H3 H4 H5 H6 H7 H8] Hy Hb. cbn [fst snd] in *. exists (sy_live y ∖ buffers dev).
  assert (E : sy_live y = buffers dev ∪ (sy_live y ∖ buffers dev)) by (symmetry; apply map_difference_union, Hb).
  split; [exact E|]. split; cbn [fst snd]; auto.
  - change (heap_good (obj_heap (sy_objects y)) (buffers dev ∪ sy_live y ∖ buffers dev)). rewrite <- E.
    apply (oo_heap _ _ _ _ (la_objects _ _ _ _ _ (yo_layout _ _ Hy))).
  - change (buffers dev ##ₘ sy_live y ∖ buffers dev). apply map_disjoint_difference_r1; reflexivity.
Qed.

Lemma set_dev_same p dev : dev_heap dev = pt_heap p -> buffers dev ⊆ sy_live (pt_sys p) -> set_dev p dev = p <| pt_dev := dev |>.
Proof.
  intros Eh Hb. unfold set_dev, pt_heap in *. cbv zeta. rewrite Eh, map_subseteq_union by exact Hb.
  destruct p as [[k [] l ls pl] d sm h t]. reflexivity.
Qed.

Lemma reader_keep k sm tr k' sm' : reader_ok k sm tr ->
  (forall t, t ∈ lists k' (SemWait sem_key) -> t ∈ lists k (SemWait sem_key)) ->
  (tr_reader tr <> None -> value sm' = value sm) -> reader_ok k' sm' tr.
Proof.
  intros [R1 R2 R3 R4] Hl Hv. split; auto. intros r Hr Hq. rewrite Hv by congruence. apply (R2 r Hr Hq).
Qed.

Lemma set_sys_ok p tr y : port_ok p tr -> sys_ok y ->
  (pt_handle p = dev_addr at_ \/ find_device y = find_device (pt_sys p)) -> buffers (pt_dev p) ⊆ sy_live y ->
  (sem_addr at_ ∈ sem_class (pt_sys p) -> sem_addr at_ ∈ sem_class y) ->
  forall sm, sem_place y sm -> reader_ok (sy_kernel y) sm tr -> port_ok (set_sys p y <| pt_sem := sm |>) tr.
Proof.
  intros [P1 P2 (ol & P3 & P3') P5 P6 P9 P7 P8] Hy Hn Hb Hc sm Hsm Hrd.
  destruct (serial_moves _ _ _ y P3' Hy Hb) as (ol' & E & Hs).
  split; try assumption.
  - reflexivity.
  - exists ol'. split; [exact E | exact Hs].
  - change (pt_handle p = dev_addr at_ \/ find_device y = Some (dev_addr at_)). destruct P6 as [|P6]; [auto|].
    destruct Hn as [|Hn]; [auto | right; congruence].
  - intros Hr. destruct (P8 Hr) as [U1 U2 U3 U4]. split; auto.
Qed.

Lemma set_sys_keep p tr y : port_ok p tr -> sys_ok y ->
  (pt_handle p = dev_addr at_ \/ find_device y = find_device (pt_sys p)) -> buffers (pt_dev p) ⊆ sy_live y ->
  (sem_addr at_ ∈ sem_class (pt_sys p) -> sem_addr at_ ∈ sem_class y) ->
  (forall t, t ∈ lists (sy_kernel y) (SemWait sem_key) -> t ∈ lists (kernel_of p) (SemWait sem_key)) ->
  sem_place y (pt_sem p) -> port_ok (set_sys p y) tr.
Proof.
  intros Hok Hy Hn Hb Hc Hl Hsm.
  pose proof (set_sys_ok p tr y Hok Hy Hn Hb Hc _ Hsm (reader_keep _ _ _ _ _ (po_reader _ _ Hok) Hl (fun _ => eq_refl))) as H1.
  destruct p. exact H1.
Qed.

Lemma set_task_ok p tr t b : port_ok p tr -> port_ok (p <| pt_task := t |> <| pt_reads := b |>) tr.
Proof. intros [P1 P2 P3 P5 P6 P9 P7 P8]. split; try assumption. intros Hr. destruct (P8 Hr) as [U1 U2 U3 U4]. split; assumption. Qed.

(** The device's own fields change, and the kernel and the semaphore's count. *)
Lemma port_moves p tr dev k' sm tr' : port_ok p tr -> dev_heap dev = pt_heap p -> buffers dev = buffers (pt_dev p) ->
  ref_count dev = ref_count (pt_dev p) -> listening dev = listening (pt_dev p) ->
  (rx_indicate (pt_dev p) <> 0 -> rx_indicate dev <> 0) ->
  (forall ol, serial_ok (pt_dev p, ol, tr_queue tr) -> serial_ok (dev, ol, tr_queue tr')) ->
  sys_ok (pt_sys p <| sy_kernel := k' |>) -> sem_place (pt_sys p) sm -> reader_ok k' sm tr' ->
  (tr_reader tr' <> None -> tr_reader tr <> None) -> port_ok (set_kernel (p <| pt_dev := dev |>) k' sm) tr'.
Proof.
  intros [P1 P2 (ol & P3 & P3') P5 P6 P9 P7 P8] Eh Eb Hr Hl Hx Hs Hy Hsm Hrd Hn. split; try assumption.
  - exists ol. split; [|apply Hs, P3']. change (sy_live (pt_sys p) = buffers dev ∪ ol). rewrite Eb. exact P3.
  - change (ref_count dev <= if listening dev then 2 else 1). rewrite Hr, Hl. exact P9.
  - intros H1. destruct (P8 (Hn H1)) as [U1 U2 U3 U4]. split; auto. change (listening dev = true). congruence.
Qed.

Lemma same_kernel_ok y : sys_ok y -> sys_ok (y <| sy_kernel := sy_kernel y |>).
Proof. destruct y. auto. Qed.

Lemma set_kernel_same p : set_kernel p (kernel_of p) (pt_sem p) = p.
Proof. destruct p as [[] ? ? ? ? ?]. reflexivity. Qed.

(** Only the device's own fields change. *)
Lemma dev_ok p tr dev : port_ok p tr -> dev_heap dev = pt_heap p -> buffers dev = buffers (pt_dev p) -> ref_count dev = ref_count (pt_dev p) ->
  listening dev = listening (pt_dev p) -> (rx_indicate (pt_dev p) <> 0 -> rx_indicate dev <> 0) ->
  (forall ol, serial_ok (pt_dev p, ol, tr_queue tr) -> serial_ok (dev, ol, tr_queue tr)) -> port_ok (p <| pt_dev := dev |>) tr.
Proof.
  intros Hok Eh Eb Hr Hl Hx Hs. rewrite <- (set_kernel_same (p <| pt_dev := dev |>)).
  apply (port_moves p tr); auto; try apply Hok. apply same_kernel_ok, Hok.
Qed.

(** What the hardware and the linker provide. *)
Record sound : Prop := {
  so_device : dev_addr at_ <> 0;
  so_config : config_addr at_ <> 0;
  so_callback : callback at_ <> 0;
  so_configure : forall (h : H) c, (uart_configure h c).2 = RT_EOK
}.
Hypothesis Hso : sound.

Lemma port_buffers p tr : port_ok p tr -> buffers (pt_dev p) ⊆ sy_live (pt_sys p).
Proof. intros [_ _ (ol & -> & _) _ _ _ _ _]. apply map_union_subseteq_l. Qed.

Lemma port_class p tr : port_ok p tr -> object_class (pt_dev p) = RT_Object_Class_Device.
Proof. intros [_ _ (ol & _ & Hs) _ _ _ _ _]. apply (su_class _ Hs). Qed.

Lemma port_listens p tr : port_ok p tr -> listening (pt_dev p) = true -> ref_count (pt_dev p) <> 0.
Proof. intros [_ _ (ol & _ & Hs) _ _ _ _ _]. apply (listening_open _ _ _ Hs). Qed.

Lemma find_device_ok p tr result c : port_ok p tr -> found (stage_now p c) = false ->
  exists p', perform (Find result) p = Some (p', None) /\ port_ok p' tr /\
    stage_now p' false = (stage_now p false) <| found := true |> /\ pt_dev p' = pt_dev p /\ pt_sys p' = pt_sys p /\ pt_sem p' = pt_sem p.
Proof.
  intros Hok Hf. pose proof Hok as [P1 P2 P3 P5 P6 P9 P7 P8]. apply bool_decide_eq_false in Hf.
  destruct P6 as [|P6]; [contradiction|]. unfold perform. rewrite P6. cbn [mbind option_bind].
  destruct (Z.eqb_spec (dev_addr at_) 0) as [E|_]; [destruct (so_device Hso E)|].
  eexists. split; [reflexivity|]. split; [split; try assumption; [left; reflexivity|]; intros Hr; destruct (P8 Hr); contradiction|].
  split; [|split_ands; reflexivity].
  unfold stage_now. change (pt_handle (p <| pt_handle := ?x |>)) with x. rewrite bool_decide_eq_true_2 by reflexivity. reflexivity.
Qed.

(** A device call on the found device. *)
Lemma on_device_ok p tr (f : Dev -> option (Dev * Z)) dev e : port_ok p tr -> pt_handle p = dev_addr at_ ->
  f (pt_dev p) = Some (dev, e) -> dev_heap dev = dev_heap (pt_dev p) -> buffers dev = buffers (pt_dev p) ->
  on_device p f = Some (p <| pt_dev := dev |>, e).
Proof.
  intros Hok Hh Hf Eh Eb. unfold on_device. rewrite Hh, Z.eqb_refl, Hf. cbn [mbind option_bind].
  rewrite set_dev_same; [reflexivity | | rewrite Eb; apply (port_buffers p tr Hok)]. rewrite Eh. apply Hok.
Qed.

Lemma control_spec dev ol q c : serial_ok (dev, ol, q) -> 2 <= bufsz c <= 65535 ->
  exists dev' e, rt_device_control dev RT_DEVICE_CTRL_CONFIG (ArgConfig (config_addr at_) c) = Some (dev', e) /\
    dev_heap dev' = dev_heap dev /\ buffers dev' = buffers dev /\ ref_count dev' = ref_count dev /\ rx_indicate dev' = rx_indicate dev /\
    listening dev' = listening dev /\
    config (serial_of dev') = (if negb (ref_count dev =? 0) && negb (bufsz c =? cfg_bufsz dev) then config (serial_of dev) else c).
Proof.
  intros Hs Hc. pose proof (su_class _ Hs) as Hcl. cbn [fst] in Hcl.
  destruct (Z.eqb_spec (ref_count dev) 0) as [Er|Er].
  - unfold rt_device_control. rewrite Hcl. cbn [Z.eqb negb]. unfold device_control, serial_driver, rt_serial_control.
    change (RT_DEVICE_CTRL_CONFIG =? RT_DEVICE_CTRL_SUSPEND) with false. change (RT_DEVICE_CTRL_CONFIG =? RT_DEVICE_CTRL_RESUME) with false.
    change (RT_DEVICE_CTRL_CONFIG =? RT_DEVICE_CTRL_CONFIG) with true. cbv iota.
    destruct (Z.eqb_spec (config_addr at_) 0) as [E|_]; [destruct (so_config Hso E)|].
    rewrite Er. cbn [Z.eqb negb andb]. rewrite andb_false_r. change (ref_count (on_serial dev ?f)) with (ref_count dev).
    rewrite Er. cbn [Z.eqb negb]. eexists _, _. split; [reflexivity|]. split_ands; auto.
    destruct (listening dev) eqn:El; [destruct (listening_open _ _ _ Hs El Er)|]. unfold listening in El.
    unfold buffers. change (serial_rx (serial_of (on_serial dev (fun s => s <| config := c |>)))) with (serial_rx (serial_of dev)).
    destruct (serial_rx (serial_of dev)) as [[? ?]|]; [discriminate | reflexivity].
  - rewrite (serial_config_refused dev (config_addr at_) c Hcl Er (so_config Hso)). cbn [negb andb].
    destruct (Z.eqb_spec (bufsz c) (cfg_bufsz dev)) as [E|E]; cbn [negb]; eexists _, _; (split; [reflexivity|]); split_ands; auto.
    unfold buffers, cfg_bufsz in *. destruct (serial_rx (serial_of dev)) as [[b f]|] eqn:Erx.
    + change (serial_rx (serial_of (set_port (on_serial dev (fun s => s <| config := c |>)) (uart_configure (port (serial_of dev)) c).1)))
        with (serial_rx (serial_of dev)). rewrite Erx.
      change (bufsz (config (serial_of (set_port (on_serial dev (fun s => s <| config := c |>)) (uart_configure (port (serial_of dev)) c).1))))
        with (bufsz c). rewrite E. reflexivity.
    + change (serial_rx (serial_of (set_port (on_serial dev (fun s => s <| config := c |>)) (uart_configure (port (serial_of dev)) c).1)))
        with (serial_rx (serial_of dev)). rewrite Erx. reflexivity.
Qed.

Lemma configure_ok p tr c cr : port_ok p tr -> ready (Configure c) (stage_now p cr) = true ->
  exists dev, perform (Configure c) p = Some (p <| pt_dev := dev |>, None) /\ port_ok (p <| pt_dev := dev |>) tr /\
    ref_count dev = ref_count (pt_dev p) /\ rx_indicate dev = rx_indicate (pt_dev p) /\ listening dev = listening (pt_dev p) /\
    config (serial_of dev) = (if negb (ref_count (pt_dev p) =? 0) && negb (bufsz c =? cfg_bufsz (pt_dev p))
                              then config (serial_of (pt_dev p)) else c).
Proof.
  intros Hok Hr. cbn [ready] in Hr. apply andb_true_iff in Hr as [Hr Hb2]. apply andb_true_iff in Hr as [Hf Hb1].
  apply bool_decide_eq_true in Hf. apply Z.leb_le in Hb1, Hb2.
  pose proof Hok as [P1 P2 (ol & P3 & P3') P5 P6 P9 P7 P8].
  destruct (control_spec _ _ _ c P3' (conj Hb1 Hb2)) as (dev & e & E & Eh & Eb & Er & Ei & El & Ec). exists dev.
  split; [unfold perform; rewrite (on_device_ok p tr _ dev e Hok Hf E Eh Eb); reflexivity|]. split; [|auto].
  apply (dev_ok p tr dev Hok); auto; [congruence.. |].
  intros ol' Hs. apply (control_ok (pt_dev p) ol' (tr_queue tr) RT_DEVICE_CTRL_CONFIG (ArgConfig (config_addr at_) c) dev e); auto.
Qed.

Lemma indicate_ok p tr cr : port_ok p tr -> ready SetIndicate (stage_now p cr) = true ->
  perform SetIndicate p = Some (p <| pt_dev := pt_dev p <| rx_indicate := callback at_ |> |>, None) /\
  port_ok (p <| pt_dev := pt_dev p <| rx_indicate := callback at_ |> |>) tr.
Proof.
  intros Hok Hf. apply bool_decide_eq_true in Hf. set (dev := pt_dev p <| rx_indicate := callback at_ |>).
  assert (E : rt_device_set_rx_indicate (pt_dev p) (callback at_) = Some (dev, RT_EOK)).
  { unfold rt_device_set_rx_indicate. rewrite (port_class p tr Hok). reflexivity. }
  split; [unfold perform; rewrite (on_device_ok p tr _ dev RT_EOK Hok Hf E eq_refl eq_refl); reflexivity|].
  apply (dev_ok p tr dev Hok); auto; [apply Hok | intros _; exact (so_callback Hso)|].
  intros ol Hs. eapply serial_ok_ext; [exact Hs | ..]; auto.
Qed.

(** *** Opening *)

Lemma open_takes dev ol q oflag h b : serial_ok (dev, ol, q) -> int_rx_poll_tx oflag -> listening dev = false -> ref_count dev < 255 ->
  rt_malloc 0 (dev_heap dev) (sizeof_rx_fifo + cfg_bufsz dev) = Some (h, b) ->
  if b =? 0 then rt_device_open dev oflag = None
  else exists dev', rt_device_open dev oflag = Some (dev', RT_EOK) /\ dev_heap dev' = h /\
    buffers dev' = {[ b := sizeof_rx_fifo + cfg_bufsz dev ]} /\ config (serial_of dev') = config (serial_of dev) /\
    ref_count dev' = ref_count dev + 1 /\ rx_indicate dev' = rx_indicate dev /\ listening dev' = true /\ serial_ok (dev', ol, q).
Proof.
  intros Hs Ho Hl Hr E. pose proof (open_spec dev ol q oflag Hs Ho) as Hop.
  pose proof (su_class _ Hs) as Hc. cbn [fst] in Hc. destruct Ho as (O8 & O9 & O10 & O11).
  destruct (open_init_spec _ _ _ Hs) as (dev1 & e & E1 & Hs1 & R1 & R2 & R3 & R4 & Rl & _ & He).
  destruct (open_init_keeps _ _ _ E1) as [Ei Ec].
  assert (Hrx1 : serial_rx (serial_of dev1) = None).
  { rewrite Hl in Rl. unfold listening in Rl. destruct (serial_rx (serial_of dev1)) as [[? ?]|]; [discriminate | reflexivity]. }
  pose proof (su_ref _ Hs) as Hr0. cbn [fst] in Hr0.
  pose proof (su_tx _ Hs1) as [Htx1 _]. cbn [fst] in Htx1.
  pose proof (su_flag _ Hs1) as [F8 F3]. cbn [fst] in F8, F3. rewrite (He (or_intror (so_configure Hso _ _))) in E1.
  revert Hop. unfold rt_device_open. rewrite Hc, Z.eqb_refl. cbn [negb]. rewrite E1. cbn [mbind option_bind].
  change (RT_EOK =? RT_EOK) with true. cbn [negb]. rewrite standalone_bit, F3. cbn [andb].
  unfold device_open, serial_driver, rt_serial_open.
  rewrite !has_dma_rx, !has_dma_tx, !has_int_rx, !has_int_tx, O8, O9, O10, O11, F8. cbn [andb negb]. cbv zeta.
  unfold open_rx. change (serial_of (dev1 <| open_flag := ?x |>)) with (serial_of dev1). rewrite Hrx1, has_int_rx, O8.
  unfold dev_heap, cfg_bufsz in *. rewrite <- R2, <- R3 in E. rewrite E. cbn [mbind option_bind].
  destruct (Z.eqb_spec b 0); [reflexivity|]. unfold open_tx. cbn [mbind option_bind]. set (dev2 := control_port _ _ _).
  change (serial_tx (serial_of dev2)) with (serial_tx (serial_of dev1)).
  rewrite Htx1, has_int_tx, O10. cbn [mbind option_bind]. change (RT_EOK =? RT_EOK) with true. cbn [orb].
  match goal with |- context [u8 (ref_count ?d + 1)] => change (ref_count d) with (ref_count dev1) end.
  rewrite R1, u8_small by lia. match goal with |- context [if negb (ref_count ?d =? 0) then _ else _] => set (dev3 := d) end.
  assert (E3 : ref_count dev3 = ref_count dev + 1) by reflexivity. rewrite E3. destruct (Z.eqb_spec (ref_count dev + 1) 0); [lia|].
  cbn [negb]. change (RT_EOK =? RT_EOK) with true. cbv iota. intros (Hs' & _ & _ & Hl').
  exists dev3. split_ands; auto. unfold buffers, cfg_bufsz.
  change (serial_rx (serial_of dev3)) with (Some (b, mk_rx_fifo (repeat 0 (Z.to_nat (bufsz (config (serial_of dev1))))) 0 0 false)).
  change (config (serial_of dev3)) with (config (serial_of dev1)). rewrite Ec. reflexivity.
Qed.

Definition no_room (p : port_state) : Prop :=
  rt_malloc 0 (pt_heap p) (sizeof_rx_fifo + cfg_bufsz (pt_dev p)) = Some (pt_heap p, 0).

Lemma oflag_spec oflag : oflag_ok oflag = true -> int_rx_poll_tx oflag.
Proof.
  unfold oflag_ok, int_rx_poll_tx. destruct (bit oflag 8), (bit oflag 9), (bit oflag 10), (bit oflag 11); try discriminate. auto.
Qed.

(** The storage of the semaphore lies below the heap. *)
Lemma sem_place_heap p y sm : sem_place (pt_sys p) sm -> low (pt_heap p) (obj_heap (sy_objects y)) ->
  sy_ls y = sy_ls (pt_sys p) -> sem_place y sm.
Proof.
  intros Hp [Eptr Hlow] El. unfold sem_place in *. rewrite El. destruct (decide _); [exact Hp|].
  rewrite Eptr. destruct Hp as (H0 & H1 & H2). split; [exact H0|]. split; [exact H1|]. rewrite <- H2.
  unfold object_type, sizeof_semaphore, sizeof_ipc_object, SIZEOF_OBJECT, pt_heap in *. apply Hlow. lia.
Qed.

Lemma open_ok p tr oflag checked cr : port_ok p tr -> ready (Open oflag checked) (stage_now p cr) = true ->
  match perform (Open oflag checked) p with
  | Some (p', e) => e = None /\ port_ok p' tr /\ stage_now p' false = (stage_now p false) <| opened := true |> /\
      rx_indicate (pt_dev p') = rx_indicate (pt_dev p) /\ config (serial_of (pt_dev p')) = config (serial_of (pt_dev p))
  | None => no_room p
  end.
Proof.
  intros Hok Hr. cbn [ready] in Hr. apply andb_true_iff in Hr as [Hr Ho]. apply andb_true_iff in Hr as [Hf Hr].
  apply bool_decide_eq_true in Hf. apply oflag_spec in Ho. cbn [opened stage_now] in Hr. apply negb_true_iff in Hr.
  pose proof Hok as [P1 P2 (ol & P3 & P3') P5 P6 P9 P7 P8].
  assert (Hb0 : buffers (pt_dev p) = ∅).
  { unfold buffers. unfold listening in Hr. destruct (serial_rx (serial_of (pt_dev p))) as [[? ?]|]; [discriminate | reflexivity]. }
  assert (Hlow : ref_count (pt_dev p) < 255) by (rewrite Hr in P9; lia).
  pose proof (su_bufsz _ P3') as Hb. cbn [fst] in Hb. set (n := sizeof_rx_fifo + cfg_bufsz (pt_dev p)).
  assert (Hn : 0 < n <= SIZE_LIMIT) by (unfold n, sizeof_rx_fifo, SIZE_LIMIT; lia).
  unfold perform, on_device. rewrite Hf, Z.eqb_refl.
  destruct (lay_malloc container _ _ _ _ (yo_layout _ _ P1) n Hn) as [E|(h & b & E & Hbn & Hnew & _ & _ & _ & _ & _)].
  - pose proof (open_takes _ _ _ oflag (pt_heap p) 0 P3' Ho Hr Hlow) as Eo. rewrite P2 in Eo. rewrite (Eo E). exact E.
  - pose proof (open_takes _ _ _ oflag h b P3' Ho Hr Hlow) as Eo. rewrite P2 in Eo. specialize (Eo E).
    apply Z.eqb_neq in Hbn. rewrite Hbn in Eo. destruct Eo as (dev & Eo & Eh & Eb & Ec & Er & Ei & El & Hs). rewrite Eo. cbn [mbind option_bind].
    replace (checked && (RT_EOK <? 0)) with false by (destruct checked; reflexivity).
    assert (Hsys : exists h' q, RT_KERNEL_MALLOC (kernel_of p) (sy_objects (pt_sys p)) n = Some (sy_objects (pt_sys p) <| obj_heap := h' |>, q) /\
        q <> 0 /\ sys_ok (mk_sys (kernel_of p) (sy_objects (pt_sys p) <| obj_heap := h' |>) (<[q := n]> (sy_live (pt_sys p)))
                   (sy_ls (pt_sys p)) (sy_pools (pt_sys p)))).
    { destruct (malloc_ok container _ P1 n ltac:(lia)) as [E'|(h' & q & E' & Hq & _ & _ & Hy & _)]; [exfalso | eauto].
      unfold RT_KERNEL_MALLOC in E'. rewrite (yo_nest _ _ P1) in E'. cbv zeta in E'. rewrite E in E'. injection E' as _ E'. apply Z.eqb_neq in Hbn. congruence. }
    destruct Hsys as (h' & q & E' & Hq & Hy). unfold RT_KERNEL_MALLOC in E'. rewrite (yo_nest _ _ P1) in E'.
    rewrite E in E'. injection E' as Eh' ->.
    subst h'.
    assert (Hsame : mk_sys (kernel_of p) (sy_objects (pt_sys p) <| obj_heap := h |>) (<[q := n]> (sy_live (pt_sys p))) (sy_ls (pt_sys p)) (sy_pools (pt_sys p))
        = pt_sys (set_dev p dev)).
    { unfold set_dev. cbv zeta. rewrite Eh, Eb, insert_union_singleton_l. reflexivity. }
    rewrite Hsame in Hy. pose proof (rt_malloc_low _ _ _ _ _ E) as Hbelow.
    split; [reflexivity|]. split; [|split; [|split; [exact Ei | exact Ec]]].
    + split; try assumption.
      * change (dev_heap dev = dev_heap dev). reflexivity.
      * exists ol. split; [|exact Hs]. change (buffers dev ∪ sy_live (pt_sys p) = buffers dev ∪ ol). rewrite P3, Hb0, map_empty_union. reflexivity.
      * apply (sem_place_heap p); auto. change (low (pt_heap p) (dev_heap dev)). rewrite Eh. exact Hbelow.
      * left. exact Hf.
      * change (ref_count dev <= if listening dev then 2 else 1). rewrite El. rewrite Hr in P9. lia.
      * intros Hrd. destruct (P8 Hrd) as [_ U2 _ _]. congruence.
    + unfold stage_now. change (pt_dev (set_dev p dev)) with dev. rewrite El, Ei. reflexivity.
Qed.

(** *** The semaphore *)

Abbreviation the_semaphores := (kind_info container (KSem (mkSem 0 0))).

Lemma sem_storage p tr : port_ok p tr -> sem_addr at_ ∉ sem_class (pt_sys p) -> 0 < sem_addr at_ /\
  region container (pt_heap p) (sy_live (pt_sys p)) (sem_addr at_) (object_size the_semaphores) /\
  pools_clear (sy_live (pt_sys p)) (sy_pools (pt_sys p)) (sem_addr at_) (object_size the_semaphores) /\
  clear_of container (sy_ls (pt_sys p)) (sem_addr at_) (object_size the_semaphores).
Proof.
  intros Hok Hn. pose proof (po_sem _ _ Hok) as P5. unfold sem_place in P5. rewrite decide_False in P5 by exact Hn.
  destruct P5 as ((H1 & H2 & H3) & Hcl & _). split_ands; auto.
  - left. auto.
  - intros o b n _ Hb. right. (* pools and stacks are in the heap *)
    destruct (oo_heap _ _ _ _ (la_objects _ _ _ _ _ (yo_layout _ _ (po_sys _ _ Hok)))) as [bs Hst].
    destruct (live_region _ _ _ _ _ Hst Hb) as (_ & R & _). unfold HDR in *. change (object_size the_semaphores) with sizeof_semaphore. lia.
Qed.

Lemma sem_init_ok p tr checked cr : port_ok p tr -> ready (SemInit checked) (stage_now p cr) = true ->
  exists p', perform (SemInit checked) p = Some (p', None) /\ port_ok p' tr /\
    stage_now p' false = (stage_now p false) <| inited := true |> /\
    ref_count (pt_dev p') = ref_count (pt_dev p) /\ rx_indicate (pt_dev p') = rx_indicate (pt_dev p) /\
    config (serial_of (pt_dev p')) = config (serial_of (pt_dev p)).
Proof.
  intros Hok Hr. pose proof Hok as [P1 P2 P3 P5 P6 P9 P7 P8]. cbn [ready found inited stage_now] in Hr.
  apply andb_true_iff in Hr as [Hf Hr]. apply bool_decide_eq_true in Hf. apply negb_true_iff, bool_decide_eq_false in Hr. destruct (sem_storage p tr Hok Hr) as (Hpos & Hrg & Hpl & Hcl).
  set (y := pt_sys p) in *.
  destruct (init_ok container y P1 (S (length (sem_class y))) the_semaphores (sem_addr at_) (sem_name at_)) as (s' & E & Hy & _).
  - apply kind_in.
  - apply kind_other.
  - exact Hrg.
  - apply clear_vacant, Hcl.
  - exact Hpl.
  - change (length (sem_class y) < S (length (sem_class y)))%nat. lia.
  - assert (Hw : lists (sy_kernel y) (SemWait sem_key) = []).
    { apply (no_waiter container y P1 _ RT_Object_Class_Semaphore (sem_addr at_)); [reflexivity | lia | exact Hr]. }
    unfold perform. fold y. cbv zeta. unfold rt_sem_init. cbn [Z.ltb Z.compare negb].
    change (oi_type the_semaphores) with RT_Object_Class_Semaphore in E. rewrite E. cbn [mbind option_bind].
    unfold Ipc.rt_sem_init, rt_ipc_object_init. cbn [Z.ltb Z.compare negb mbind option_bind].
    rewrite (relist_same _ _ Hw). replace (checked && (RT_EOK <? 0)) with false by (destruct checked; reflexivity).
    set (ls := set_class _ _ _) in *. set (y1 := mk_sys (sy_kernel y) s' (sy_live y) ls (sy_pools y)) in Hy.
    assert (Hin : sem_addr at_ ∈ sem_class y1) by (cbn; unfold ls, set_class; cbn; left).
    assert (Hy2 : sys_ok (mk_sys (sy_kernel y) (set_flag s' (sem_addr at_) RT_IPC_FLAG_FIFO) (sy_live y) ls (sy_pools y))).
    { apply (flag_ok container y1 Hy). exists the_semaphores. split; [apply kind_in | exact Hin]. }
    eexists. split; [reflexivity|]. split; [|split; [|split_ands; reflexivity]].
    + apply (set_sys_ok p tr _ Hok Hy2).
      * left. exact Hf.
      * apply (port_buffers p tr Hok).
      * intros _. exact Hin.
      * unfold sem_place. rewrite decide_True by exact Hin. change (0 <= 0 < 65536). lia.
      * apply (reader_keep _ _ _ _ _ P7); [auto|]. intros Hrd. destruct (P8 Hrd). contradiction.
    + unfold stage_now. change (sem_class (pt_sys (set_sys p ?x <| pt_sem := ?z |>))) with (sem_class x).
      rewrite (bool_decide_eq_true_2 (sem_addr at_ ∈ _)) by exact Hin. reflexivity.
Qed.

(** *** The threads *)

Lemma sem_place_here y y' sm : sem_addr at_ ∈ sem_class y' -> (sem_addr at_ ∈ sem_class y) -> sem_place y sm -> sem_place y' sm.
Proof. intros H1 H2. unfold sem_place. rewrite !decide_True by assumption. auto. Qed.

Lemma complete_up p c : complete (stage_now p c) = true <-> up p.
Proof.
  unfold complete. cbn [found opened inited indicated stage_now]. rewrite !andb_true_iff, negb_true_iff, Z.eqb_neq, !bool_decide_eq_true.
  split; [intros [[[H1 H2] H3] H4] | intros [H1 H2 H3 H4]; split_ands; auto]. split; auto.
Qed.

Lemma create_task_ok p tr n stack_size priority tick cr : port_ok p tr -> ready (CreateTask n stack_size priority tick) (stage_now p cr) = true ->
  exists p', perform (CreateTask n stack_size priority tick) p = Some (p', None) /\ port_ok p' tr /\ task_ready p' /\
    stage_now p' true = (stage_now p true) /\ ref_count (pt_dev p') = ref_count (pt_dev p) /\
    rx_indicate (pt_dev p') = rx_indicate (pt_dev p) /\ config (serial_of (pt_dev p')) = config (serial_of (pt_dev p)).
Proof.
  intros Hok Hr. cbn [ready] in Hr. rewrite !andb_true_iff in Hr. destruct Hr as [[[[Hup H1] H2] H3] H4].
  apply complete_up in Hup as [Hf _ Hi _]. apply Z.leb_le in H1, H2, H3. apply Z.ltb_lt in H4.
  pose proof Hok as [P1 P2 P3 P5 P6 P9 P7 P8]. set (y := pt_sys p) in *.
  destruct (thread_create_ok container y P1 texit hook (all_threads y) (task_name at_ n) (task_entry at_ n) 0 stack_size priority tick
              (conj H1 H2) (conj H3 H4)) as (k' & s' & o & E & Hc); [unfold all_threads; lia|].
  unfold perform. fold y. cbv zeta. rewrite E. cbn [mbind option_bind].
  set (y' := after_thread_create y k' s' o stack_size).
  assert (Hy' : sys_ok y' /\ sem_class y' = sem_class y /\ (forall l, lists k' l = lists (sy_kernel y) l) /\ buffers (pt_dev p) ⊆ sy_live y' /\
    (o <> 0 -> (o ∈ sy_ls y' RT_Object_Class_Thread) /\ thread_stat (threads k' (key o)) = RT_THREAD_INIT /\
       0 <= init_priority (threads k' (key o)) < 32) /\ sy_kernel y' = k' /\ sy_objects y' = s').
  { unfold y', after_thread_create. destruct (Z.eqb_spec o 0) as [->|Hne].
    - destruct Hc as [-> Hc]. split_ands; auto; try contradiction. apply (port_buffers p tr Hok).
    - destruct Hc as (b & Hpos & Hlo & Hlb & Hnt). pose proof Hnt as [N1 N2 N3 N4]. cbn [sy_ls sy_kernel sy_objects] in *.
      assert (Hst : stack_addr (obj_mem s') o = b).
      { pose proof (th_stack _ _ _ _ _ (ti_object _ _ _ _ (yo_threads _ _ N1) o ltac:(left))) as Hsp.
        cbn [sy_kernel sy_objects sy_pools] in Hsp. rewrite (st_static _ _ _ _ _ _ N3), lookup_insert_eq in Hsp. congruence. }
      cbv zeta. rewrite Hst. split_ands; auto.
      + intros l. rewrite (st_lists _ _ _ _ _ _ N3). reflexivity.
      + cbn [sy_live]. pose proof (port_buffers p tr Hok) as Hb. fold y in Hb.
        apply map_subseteq_spec. intros x m Hx. pose proof (lookup_weaken _ _ _ _ Hx Hb).
        rewrite !lookup_insert_ne by congruence. assumption.
      + intros _. split; [left|]. split; [apply N3|]. rewrite (st_priority _ _ _ _ _ _ N3). lia. }
  destruct Hy' as (Hy' & Hcls & Hl & Hb & Ht & Ek & Es).
  eexists. split; [reflexivity|]. split; [|split; [|split; [|split_ands; reflexivity]]].
  - apply set_task_ok, (set_sys_keep p tr y' Hok Hy' (or_introl Hf) Hb); rewrite ?Hcls; auto; [intros t; rewrite Ek, Hl; auto|].
    apply (sem_place_here y); [rewrite Hcls; exact Hi | exact Hi | exact P5].
  - intros Hne. change (o <> 0) in Hne. change (kernel_of (set_sys p y' <| pt_task := o |> <| pt_reads := ?b |>)) with (sy_kernel y'). rewrite Ek.
    apply (Ht Hne).
  - unfold stage_now. change (sem_class (pt_sys (set_sys p y' <| pt_task := o |> <| pt_reads := ?b |>))) with (sem_class y'). rewrite Hcls. reflexivity.
Qed.

Lemma started_ok p tr a : port_ok p tr -> (a = StartTask -> up p) -> port_ok p (started a p tr).
Proof.
  intros Hok Hup. unfold started. destruct a; try exact Hok. specialize (Hup eq_refl). destruct tr as [q ins lost got [rd|]]; [exact Hok|].
  cbn [tr_reader]. destruct (negb _ && _); [|exact Hok]. destruct Hok as [P1 P2 P3 P5 P6 P9 [R1 R2 R3 R4] P8]. split; auto.
  split; auto; cbn; [|discriminate]. intros t Ht. destruct (R1 t Ht). discriminate.
Qed.

Lemma start_task_ok p tr cr : port_ok p tr -> up p -> task_ready p ->
  exists p', perform StartTask p = Some (p', None) /\ port_ok p' (started StartTask p tr) /\ stage_now p' cr = stage_now p cr /\
    ref_count (pt_dev p') = ref_count (pt_dev p) /\
    rx_indicate (pt_dev p') = rx_indicate (pt_dev p) /\ config (serial_of (pt_dev p')) = config (serial_of (pt_dev p)).
Proof.
  intros Hok0 Hup Ht. pose proof (started_ok p tr StartTask Hok0 (fun _ => Hup)) as Hok. destruct Hup as [Hf _ Hi _].
  pose proof Hok as [P1 P2 P3 P5 P6 P9 P7 P8]. unfold perform. cbv zeta.
  destruct (Z.eqb_spec (pt_task p) 0) as [|Hne]; [exists p; split_ands; auto|].
  pose proof (Ht Hne) as Hready. destruct (start_thread_ok container texit hook (pt_sys p) P1 (pt_task p) Hready) as (y' & E & Hy').
  cbn [run] in E. destruct (rt_thread_startup (kernel_of p) (key (pt_task p))) as [[k' e]|] eqn:Es; [|discriminate].
  cbn [mbind option_bind] in E |- *. injection E as <-. eexists. split; [reflexivity|]. split; [|split_ands; reflexivity].
  apply (set_sys_keep p _ _ Hok Hy' (or_introl Hf)); auto; [apply (port_buffers p _ Hok)|].
  intros t Hin. change (t ∈ lists k' (SemWait sem_key)) in Hin.
  pose proof (gentle_startup (starting (key (pt_task p))) (kernel_of p) (key (pt_task p)) k' e eq_refl Es
                (kernel_ready_live _ _ (ki_ok _ _ (yo_kernel _ _ P1)))) as Hk.
  apply (kp_waits _ _ _ Hk (SemWait sem_key) t); [reflexivity | discriminate | exact Hin].
Qed.

(** ** The interrupt *)

(** The call back can come before there is a semaphore. *)
Definition early (p : port_state) : Prop := rx_indicate (pt_dev p) <> 0 /\ sem_addr at_ ∉ sem_class (pt_sys p).

(** What the interrupt and the reading thread leave: the stage of the start-up, and a thread not started yet. *)
Record beside (p p' : port_state) : Prop := {
  bd_stage : forall c, stage_now p' c = stage_now p c;
  bd_ref : ref_count (pt_dev p') = ref_count (pt_dev p);
  bd_config : config (serial_of (pt_dev p')) = config (serial_of (pt_dev p));
  bd_indicate : rx_indicate (pt_dev p') = rx_indicate (pt_dev p);
  bd_class : sem_class (pt_sys p') = sem_class (pt_sys p);
  bd_task : task_ready p -> task_ready p'
}.

(** The device's own fields and the kernel, through calls that start no thread. *)
Lemma beside_moves p dev permit k' sm : sys_ok (pt_sys p) -> listening dev = listening (pt_dev p) -> ref_count dev = ref_count (pt_dev p) ->
  config (serial_of dev) = config (serial_of (pt_dev p)) -> rx_indicate dev = rx_indicate (pt_dev p) ->
  gentle permit (kernel_of p) k' -> starts permit = None -> beside p (set_kernel (p <| pt_dev := dev |>) k' sm).
Proof.
  intros Hy El Er Ec Ei Hg Hn. split; auto.
  - intros c. unfold stage_now. change (pt_dev (set_kernel (p <| pt_dev := dev |>) k' sm)) with dev. rewrite El, Ei. reflexivity.
  - intros Ht Hne. destruct (Ht Hne) as (T1 & T2 & T3). pose proof (Hg (kernel_ready_live _ _ (ki_ok _ _ (yo_kernel _ _ Hy)))) as Hk.
    change (kernel_of (set_kernel (p <| pt_dev := dev |>) k' sm)) with k'. change (pt_task (set_kernel (p <| pt_dev := dev |>) k' sm)) with (pt_task p).
    split; [exact T1|]. rewrite (kp_priority _ _ _ Hk). split; [|exact T3]. destruct (kp_initial _ _ _ Hk _ T2); [assumption | congruence].
Qed.

Lemma beside_dev p dev : sys_ok (pt_sys p) -> listening dev = listening (pt_dev p) -> ref_count dev = ref_count (pt_dev p) ->
  config (serial_of dev) = config (serial_of (pt_dev p)) -> rx_indicate dev = rx_indicate (pt_dev p) -> beside p (p <| pt_dev := dev |>).
Proof.
  intros Hy El Er Ec Ei. rewrite <- (set_kernel_same (p <| pt_dev := dev |>)).
  apply (beside_moves p dev nothing); auto. apply gentle_refl.
Qed.

Lemma sem_type p tr : port_ok p tr -> sem_addr at_ ∈ sem_class (pt_sys p) ->
  0 < sem_addr at_ /\ rt_object_get_type (sy_objects (pt_sys p)) (sem_addr at_) = Some RT_Object_Class_Semaphore.
Proof.
  intros Hok Hin. pose proof (po_sys _ _ Hok) as P1.
  assert (Hpos : 0 < sem_addr at_) by (apply (reg_pos container _ P1 the_semaphores); [apply kind_in | exact Hin]). split; [exact Hpos|].
  apply get_type_spec; [lia|]. apply (oo_type _ _ _ _ (la_objects _ _ _ _ _ (yo_layout _ _ P1)) the_semaphores); [apply kind_in | exact Hin].
Qed.

Lemma sem_value p tr : port_ok p tr -> sem_addr at_ ∈ sem_class (pt_sys p) -> 0 <= value (pt_sem p) < 65536.
Proof. intros Hok Hin. pose proof (po_sem _ _ Hok) as Hs. unfold sem_place in Hs. rewrite decide_True in Hs by exact Hin. exact Hs. Qed.

Lemma sem_place_value p sm : sem_addr at_ ∈ sem_class (pt_sys p) -> 0 <= value sm < 65536 -> sem_place (pt_sys p) sm.
Proof. intros Hin Hv. unfold sem_place. rewrite decide_True by exact Hin. exact Hv. Qed.

(** The call back wakes the reading thread, or the semaphore counts; without a semaphore it fails. *)
Lemma call_back_ok p tr : port_ok p tr -> sem_addr at_ ∈ sem_class (pt_sys p) -> value (pt_sem p) < 65535 ->
  exists k' sm, (forall dev, call_back (p <| pt_dev := dev |>) = Some (set_kernel (p <| pt_dev := dev |>) k' sm)) /\
    sys_ok (pt_sys p <| sy_kernel := k' |>) /\ gentle nothing (kernel_of p) k' /\ lists k' (SemWait sem_key) = [] /\
    0 <= value sm < 65536 /\ (lists (kernel_of p) (SemWait sem_key) = [] -> 0 < value sm).
Proof.
  intros Hok Hin Hv. destruct (sem_type p tr Hok Hin) as [_ Ht]. pose proof (sem_value p tr Hok Hin) as Hr.
  pose proof (yo_kernel _ _ (po_sys _ _ Hok)) as Hk. pose proof (rd_waiters _ _ _ (po_reader _ _ Hok)) as Hw.
  destruct (release_spec (default 0%nat (fst <$> tr_reader tr)) sem_key (kernel_of p) (pt_sem p) (ki_ok _ _ Hk) (ki_current _ _ Hk I) ltac:(lia))
    as (k' & sm & E & _ & _ & R3 & R4 & R5 & _); [intros t Hin'; destruct (Hw t Hin') as [-> _]; reflexivity|].
  exists k', sm. split; [|split; [apply (sem_release_ok container _ (po_sys _ _ Hok) _ _ _ _ _ E)|]].
  - intros dev. unfold call_back, on_semaphore. change (pt_sys (p <| pt_dev := dev |>)) with (pt_sys p).
    change (pt_sem (p <| pt_dev := dev |>)) with (pt_sem p). rewrite Ht. cbn [mbind option_bind Z.eqb Pos.eqb]. rewrite E. reflexivity.
  - split; [apply (sem_release_inv _ _ _ _ _ _ Hk E)|]. auto.
Qed.

Lemma call_back_early p tr dev : port_ok p tr -> sem_addr at_ ∉ sem_class (pt_sys p) -> call_back (p <| pt_dev := dev |>) = None.
Proof.
  intros Hok Hout. pose proof (po_sem _ _ Hok) as P5. unfold sem_place in P5. rewrite decide_False in P5 by exact Hout.
  destruct P5 as ((H1 & _) & _ & H2). unfold call_back, on_semaphore, rt_object_get_type. destruct (Z.eqb_spec (sem_addr at_) 0); [lia|].
  change (pt_sys (p <| pt_dev := dev |>)) with (pt_sys p). unfold obj_mem in *. rewrite H2. reflexivity.
Qed.

Lemma isr_frame fuel (dev dev' : Dev) eff : rt_hw_serial_isr fuel dev RT_SERIAL_EVENT_RX_IND = Some (dev', eff) ->
  config (serial_of dev') = config (serial_of dev) /\ dev_heap dev' = dev_heap dev /\ buffers dev' = buffers dev.
Proof.
  unfold rt_hw_serial_isr. change (Z.land RT_SERIAL_EVENT_RX_IND 255 =? RT_SERIAL_EVENT_RX_IND) with true. cbv iota zeta.
  destruct (serial_rx (serial_of dev)) as [[b f]|] eqn:Erx; [|discriminate]. cbn [mbind option_bind].
  destruct (isr_rx_loop _ _ _ _) as [[h f']|]; [|discriminate]. cbn [mbind option_bind]. intros [= <- _].
  split_ands; auto. unfold buffers at 2. rewrite Erx. reflexivity.
Qed.

(** The reader's record after an interrupt: no waiter is left when there are bytes. *)
Lemma reader_isr k sm k' sm' q ins lost got rd bytes n : let q' := newest n (q ++ bytes) in
  reader_ok k sm (mk_trace q ins lost got rd) ->
  (forall t, t ∈ lists k' (SemWait sem_key) -> t ∈ lists k (SemWait sem_key)) ->
  (q' <> [] -> lists k' (SemWait sem_key) = []) ->
  (forall r, q' <> [] -> rd = Some (r, Taking) -> lists k (SemWait sem_key) = [] -> 0 < value sm') ->
  reader_ok k' sm' (mk_trace q' (ins ++ bytes) (lost + (length (q ++ bytes) - length q')) got rd).
Proof.
  intros q' [R1 R2 R3 R4] Hl He Hv. cbn [tr_queue tr_in tr_lost tr_got tr_reader] in *.
  assert (Hsuf : q' `suffix_of` q ++ bytes) by apply newest_suffix. split; cbn [tr_queue tr_in tr_lost tr_got tr_reader].
  - intros t Ht. split; [apply (R1 t), Hl, Ht|]. destruct (decide (q' = [])) as [|Hq]; [assumption|]. rewrite (He Hq) in Ht. inversion Ht.
  - intros r Hr Hq. apply (Hv r Hq Hr). destruct (lists k (SemWait sem_key)) as [|t l]; [reflexivity|]. destruct (R1 t ltac:(left)). congruence.
  - transitivity (got ++ (q ++ bytes)); [apply sublist_app; [reflexivity | destruct Hsuf as [z ->]; apply sublist_inserts_l; reflexivity]|].
    rewrite app_assoc. apply sublist_app; [exact R3 | reflexivity].
  - pose proof (suffix_length _ _ Hsuf). rewrite !length_app in *. lia.
Qed.

Lemma port_isr_ok p q ins lost got rd fuel : port_ok p (mk_trace q ins lost got rd) ->
  let bytes := pending (port (serial_of (pt_dev p))) in
  let q' := newest (cfg_bufsz (pt_dev p) - 1) (q ++ bytes) in
  listening (pt_dev p) = true -> (length bytes < fuel)%nat -> (sem_addr at_ ∈ sem_class (pt_sys p) -> value (pt_sem p) < 65535) ->
  match port_isr fuel p with
  | Some p' => port_ok p' (mk_trace q' (ins ++ bytes) (lost + (length (q ++ bytes) - length q')) got rd) /\ beside p p' /\ ~ (early p /\ q' <> [])
  | None => early p /\ q' <> []
  end.
Proof.
  intros Hok bytes q' Hr Hfu Hv. pose proof Hok as [P1 P2 (ol & P3 & P3') P5 P6 P9 P7 P8]. cbn [tr_queue tr_reader] in *.
  destruct (isr_spec fuel _ _ _ P3' Hr Hfu) as (dev & E & Hs & Er & Ei & Ec & Elis). fold bytes q' in E, Hs. rewrite <- Hr in Elis.
  destruct (isr_frame _ _ _ _ E) as (F1 & F2 & F3). unfold port_isr. rewrite E. cbn [mbind option_bind].
  assert (Hser : forall ol, serial_ok (pt_dev p, ol, q) -> serial_ok (dev, ol, q')).
  { intros ol' Hol. pose proof (isr_spec fuel _ _ _ Hol Hr Hfu) as Hx. cbv zeta in Hx. destruct Hx as (dev2 & E2 & Hs2 & _).
    rewrite E in E2. injection E2 as <-. exact Hs2. }
  assert (Hmove : forall k' sm, sys_ok (pt_sys p <| sy_kernel := k' |>) -> sem_place (pt_sys p) sm ->
    reader_ok k' sm (mk_trace q' (ins ++ bytes) (lost + (length (q ++ bytes) - length q')) got rd) -> gentle nothing (kernel_of p) k' ->
    let p' := set_kernel (p <| pt_dev := dev |>) k' sm in
    port_ok p' (mk_trace q' (ins ++ bytes) (lost + (length (q ++ bytes) - length q')) got rd) /\ beside p p').
  { intros k' sm Hy Hsm Hrd Hg. split; [|apply (beside_moves p dev nothing); auto].
    apply (port_moves p (mk_trace q ins lost got rd) dev k' sm _ Hok); auto; congruence. }
  assert (Hquiet : (q' <> [] -> rx_indicate (pt_dev p) = 0) ->
    port_ok (p <| pt_dev := dev |>) (mk_trace q' (ins ++ bytes) (lost + (length (q ++ bytes) - length q')) got rd) /\ beside p (p <| pt_dev := dev |>)).
  { intros Hq. rewrite <- (set_kernel_same (p <| pt_dev := dev |>)). apply Hmove; [apply same_kernel_ok, P1 | exact P5 | | apply gentle_refl].
    assert (Hno : q' <> [] -> rd = None) by (intros H1; destruct rd as [x|]; [|reflexivity]; destruct P8 as [_ _ _ U4]; [discriminate|]; destruct U4; auto).
    apply (reader_isr (kernel_of p) (pt_sem p) (kernel_of p) (pt_sem p)); auto.
    - intros H1. destruct (lists (kernel_of p) (SemWait sem_key)) as [|t l] eqn:El; [reflexivity|]. destruct (rd_waiters _ _ _ P7 t) as [H2 _]; [rewrite El; left|].
      cbn [tr_reader] in H2. rewrite (Hno H1) in H2. discriminate.
    - intros r H1 H2. rewrite (Hno H1) in H2. discriminate. }
  unfold early. destruct (Z.eqb_spec (rx_indicate (pt_dev p)) 0) as [E0|E0]; cbn [negb andb].
  { destruct Hquiet as [H1 H2]; [auto|]. split_ands; auto. tauto. }
  destruct (Z.eqb_spec (Z.of_nat (length q')) 0) as [El|El]; cbn [negb].
  { assert (q' = []) by (apply nil_length_inv; lia). destruct Hquiet as [H1 H2]; [contradiction|]. split_ands; auto. tauto. }
  assert (Hne : q' <> []) by (intros E1; rewrite E1 in El; apply El; reflexivity).
  destruct (decide (sem_addr at_ ∈ sem_class (pt_sys p))) as [Hin|Hout]; [|rewrite (call_back_early p _ dev Hok Hout); auto].
  destruct (call_back_ok p _ Hok Hin (Hv Hin)) as (k' & sm & Ecb & Hy & Hg & Hl & Hvr & Hpos). rewrite Ecb.
  destruct (Hmove k' sm Hy (sem_place_value p sm Hin Hvr)) as [H1 H2]; [|exact Hg | split_ands; auto; tauto].
  apply (reader_isr (kernel_of p) (pt_sem p)); auto. intros t Ht. rewrite Hl in Ht. inversion Ht.
Qed.

(** The interrupt of the opened port fails exactly when it finds bytes too early. *)
Lemma isr_fails p tr fuel : port_ok p tr -> listening (pt_dev p) = true ->
  (length (pending (port (serial_of (pt_dev p)))) < fuel)%nat -> (sem_addr at_ ∈ sem_class (pt_sys p) -> value (pt_sem p) < 65535) ->
  port_isr fuel p = None <-> early p /\ tr_queue tr ++ pending (port (serial_of (pt_dev p))) <> [].
Proof.
  intros B1 Ho Hfu Hv. destruct tr as [q ins lost got rd]. pose proof (port_isr_ok p q ins lost got rd fuel B1 Ho Hfu Hv) as Hi. cbv zeta in Hi. cbn [tr_queue].
  assert (Hne : forall l, newest (cfg_bufsz (pt_dev p) - 1) l = [] <-> l = []).
  { destruct (po_serial _ _ B1) as (ol & _ & Hser). pose proof (su_bufsz _ Hser) as Hb. cbn [fst] in Hb. intros l. unfold newest.
    split; [|intros ->; destruct (Z.to_nat _); reflexivity]. intros E. apply (f_equal length) in E. rewrite length_drop in E. cbn in E.
    apply nil_length_inv. lia. }
  destruct (port_isr fuel p) as [p'|].
  - destruct Hi as (_ & _ & Hi). split; [discriminate|]. intros [H1 H2]. destruct Hi. split; [exact H1|]. rewrite Hne. exact H2.
  - destruct Hi as [H1 H2]. rewrite Hne in H2. tauto.
Qed.

(** ** The reading thread *)

(** An open port with its thread, or without one yet, is the receiver of Receiver. *)
Lemma up_receiver p tr r pc : port_ok p tr -> up p -> match tr_reader tr with Some rd => rd = (r, pc) | None => pc = Reading end ->
  exists ol, sy_live (pt_sys p) = buffers (pt_dev p) ∪ ol /\ receiver_ok r sem_key
    (mk_receiver (pt_dev p) (kernel_of p) (pt_sem p) pc ol (tr_queue tr) (tr_in tr) (tr_got tr) (tr_lost tr)).
Proof.
  intros Hok [Hf Ho Hi Hx] Hrd. pose proof Hok as [P1 P2 (ol & P3 & P3') P5 P6 P9 [R1 R2 R3 R4] P8]. exists ol. split; [exact P3|].
  assert (Hw : forall t, t ∈ lists (kernel_of p) (SemWait sem_key) -> (t = r /\ pc = Waiting) /\ tr_queue tr = []).
  { intros t Ht. destruct (R1 t Ht) as [E Hq]. rewrite E in Hrd. injection Hrd as <- <-. auto. }
  split; cbn [rv_dev rv_kernel rv_sem rv_pc rv_heap rv_queue rv_in rv_got rv_lost]; auto.
  - apply (ki_ok _ _ (yo_kernel _ _ P1)).
  - apply (ki_current _ _ (yo_kernel _ _ P1) I).
  - apply (sem_value p tr Hok Hi).
  - intros t Ht. apply (Hw t Ht).
  - intros ->. destruct (tr_reader tr) as [rd|] eqn:E; [subst rd; apply (R2 r eq_refl) | discriminate].
  - intros Ht. apply (Hw r Ht).
Qed.

Lemma receiver_reader r (x : Receiver (H := H)) : receiver_ok r sem_key x ->
  reader_ok (rv_kernel x) (rv_sem x) (mk_trace (rv_queue x) (rv_in x) (rv_lost x) (rv_got x) (Some (r, rv_pc x))).
Proof.
  intros [K1 K2 K3 K4 K5 K6 K7 K8 K9 K10]. split; cbn [tr_queue tr_in tr_lost tr_got tr_reader]; auto.
  - intros t Ht. destruct (K6 t Ht) as [-> ->]. auto.
  - intros r' [= _ E]. auto.
Qed.

Lemma read_frame errno (dev : Dev) pos n e dev' bytes :
  rt_device_read errno dev pos n = Some (e, dev', bytes) -> bit (open_flag dev) 8 = true ->
  dev_heap dev' = dev_heap dev /\ buffers dev' = buffers dev /\ config (serial_of dev') = config (serial_of dev).
Proof.
  unfold rt_device_read. destruct (negb _); [discriminate|]. destruct (_ =? _); [intros [= _ <- _]; auto|].
  unfold device_read, serial_driver, rt_serial_read. intros E F8. revert E. rewrite has_int_rx, F8.
  destruct n; [intros [= _ <- _]; auto|]. unfold _serial_int_rx.
  destruct (serial_rx _) as [[b f]|] eqn:Erx; [|discriminate]. cbn [mbind option_bind].
  destruct (int_rx_loop _ _ _) as [[f' bs]|]; [|discriminate]. cbn [mbind option_bind]. intros [= _ <- _].
  split_ands; auto. unfold buffers at 2. rewrite Erx. reflexivity.
Qed.

Lemma read_byte_ok p q ins lost got r : port_ok p (mk_trace q ins lost got (Some (r, Reading))) -> running r (kernel_of p) ->
  exists p' bytes, read_byte r p = Some (p', bytes) /\ beside p p' /\
    port_ok p' (mk_trace (drop (length bytes) q) ins lost (got ++ bytes) (Some (r, match bytes with [] => Taking | _ => Reading end))).
Proof.
  intros Hok Hrun. pose proof (po_up _ _ Hok ltac:(discriminate)) as Hup.
  destruct (up_receiver p _ r Reading Hok Hup eq_refl) as (ol & _ & Hrv). pose proof Hup as [Hf Ho _ _].
  pose proof (po_serial _ _ Hok) as (ol0 & P3 & P3'). cbn [tr_queue tr_in tr_lost tr_got tr_reader] in *.
  set (en := error (threads (kernel_of p) r)).
  destruct (read_spec en (pt_dev p) ol0 q 0 1 P3') as (e & dev & bytes & E & _ & _ & Er & _ & El).
  destruct (open_rx_fifo _ _ _ P3' Ho) as (? & ? & _ & _ & F8). destruct (read_frame _ _ _ _ _ _ _ E F8) as (Eh & Eb & Ec).
  pose proof (read_indicate _ _ _ _ _ _ _ E F8) as Ei.
  pose proof (receiver_reader r _ (receiver_step_ok r sem_key _ _ Hrv (rv_read r sem_key _ _ _ _ _ _ _ _ _ _ _ Hrun E))) as Hrd.
  cbn [rv_dev rv_kernel rv_sem rv_pc rv_heap rv_queue rv_in rv_got rv_lost] in Hrd.
  exists (p <| pt_dev := dev |>), bytes. split; [unfold read_byte; rewrite Hf, Z.eqb_refl; fold en; rewrite E; reflexivity|].
  split; [apply beside_dev; auto; apply Hok|]. rewrite <- (set_kernel_same (p <| pt_dev := dev |>)).
  eapply (port_moves p _ dev _ _ _ Hok); auto; [rewrite Eh; apply Hok | congruence | | apply same_kernel_ok, Hok | apply Hok].
  intros ol' Hs. cbn [tr_queue] in *. destruct (read_spec en (pt_dev p) ol' q 0 1 Hs) as (e1 & d1 & b1 & E1 & Hs1 & _).
  rewrite E in E1. injection E1 as <- <- <-. exact Hs1.
Qed.

Lemma take_ok p q ins lost got r : port_ok p (mk_trace q ins lost got (Some (r, Taking))) -> running r (kernel_of p) ->
  exists p' out, take_semaphore p = Some (p', out) /\ beside p p' /\
    port_ok p' (mk_trace q ins lost got (Some (r, match out with Returns _ => Reading | Waits => Waiting end))).
Proof.
  intros Hok Hrun. pose proof (po_up _ _ Hok ltac:(discriminate)) as Hup.
  destruct (up_receiver p _ r Taking Hok Hup eq_refl) as (ol & _ & Hrv). pose proof Hup as [_ _ Hin _].
  destruct (sem_type p _ Hok Hin) as [Hpos Ht]. pose proof (po_sys _ _ Hok) as Hy. pose proof Hrun as [Hc Hr]. cbn [tr_queue tr_in tr_lost tr_got] in Hrv.
  assert (E : exists k' sm out, Ipc.rt_sem_take (kernel_of p) sem_key (pt_sem p) RT_WAITING_FOREVER = Some (k', sm, out)).
  { pose proof (sem_value p _ Hok Hin) as Hv. destruct (Z.ltb_spec 0 (value (pt_sem p))) as [Hp|Hz]; [unfold Ipc.rt_sem_take; rewrite (proj2 (Z.ltb_lt _ _) Hp); eauto|].
    destruct (take_waits (kernel_of p) sem_key (pt_sem p) r RT_WAITING_FOREVER (ki_ok _ _ (yo_kernel _ _ Hy)) Hc Hr (yo_nest _ _ Hy))
      as (k' & E & _); [lia | discriminate | reflexivity | eauto]. }
  destruct E as (k' & sm & out & E).
  pose proof (receiver_step_ok r sem_key _ _ Hrv (rv_take r sem_key _ _ _ _ _ _ _ _ _ _ _ Hrun (yo_nest _ _ Hy) E)) as Hrv'.
  pose proof (receiver_reader r _ Hrv') as Hrd. pose proof (rk_value _ _ _ Hrv') as Hv'.
  cbn [rv_dev rv_kernel rv_sem rv_pc rv_heap rv_queue rv_in rv_got rv_lost] in Hrd, Hv'.
  exists (set_kernel p k' sm), out. split; [unfold take_semaphore, on_semaphore; rewrite Ht; cbn [mbind option_bind Z.eqb Pos.eqb]; rewrite E; reflexivity|].
  assert (Hg : gentle (entering (SemWait sem_key)) (kernel_of p) k').
  { apply (sem_take_inv (kernel_of p) sem_key (pt_sem p) r RT_WAITING_FOREVER k' sm out (yo_kernel _ _ Hy) Hc Hr); [reflexivity | exact E]. }
  assert (Hy' : sys_ok (pt_sys p <| sy_kernel := k' |>)).
  { apply (sem_take_ok container (pt_sys p) Hy (sem_addr at_) (pt_sem p) r RT_WAITING_FOREVER k' sm out Hin); auto; [lia | reflexivity]. }
  replace (set_kernel p k' sm) with (set_kernel (p <| pt_dev := pt_dev p |>) k' sm) by (destruct p; reflexivity).
  split; [apply (beside_moves p (pt_dev p) (entering (SemWait sem_key))); auto|].
  eapply (port_moves p _ (pt_dev p) _ _ _ Hok); auto; [apply Hok | apply sem_place_value; auto].
Qed.

Lemma taken_ok p q ins lost got r : port_ok p (mk_trace q ins lost got (Some (r, Waiting))) -> running r (kernel_of p) ->
  port_ok p (mk_trace q ins lost got (Some (r, Reading))).
Proof.
  intros Hok Hrun. pose proof (po_up _ _ Hok ltac:(discriminate)) as Hup.
  destruct (up_receiver p _ r Waiting Hok Hup eq_refl) as (ol & _ & Hrv). cbn [tr_queue tr_in tr_lost tr_got] in Hrv.
  pose proof (receiver_reader r _ (receiver_step_ok r sem_key _ _ Hrv (rv_return r sem_key _ _ _ _ _ _ _ _ Hrun))) as Hrd.
  destruct Hok as [P1 P2 P3 P5 P6 P9 P7 P8]. split; auto.
Qed.

(** ** The whole start-up *)

Record boot_ok (target : serial_configure) (late : bool) (b : boot) : Prop := {
  bo_port : port_ok b.1.2 b.2;
  bo_plan : exists c, plan_ok (stage_now b.1.2 c) (concat b.1.1) = true /\ (c = true -> task_ready b.1.2);
  bo_target : outcome (negb (ref_count (pt_dev b.1.2) =? 0)) (config (serial_of (pt_dev b.1.2))) (concat b.1.1) = target;
  bo_late : late = true -> indicates_late (bool_decide (sem_addr at_ ∈ sem_class (pt_sys b.1.2))) (concat b.1.1) = true /\
    ~ early b.1.2
}.

(** One call, whatever it is. *)
Lemma perform_ok p tr a c : port_ok p tr -> ready a (stage_now p c) = true -> (c = true -> task_ready p) ->
  match perform a p with
  | Some (p', e) => e = None /\ port_ok p' (started a p tr) /\ stage_now p' (created (next_stage a (stage_now p c))) = next_stage a (stage_now p c) /\
      (created (next_stage a (stage_now p c)) = true -> task_ready p') /\
      rx_indicate (pt_dev p') = (match a with SetIndicate => callback at_ | _ => rx_indicate (pt_dev p) end) /\
      forall l, outcome (negb (ref_count (pt_dev p') =? 0)) (config (serial_of (pt_dev p'))) l =
        outcome (negb (ref_count (pt_dev p) =? 0)) (config (serial_of (pt_dev p))) (a :: l)
  | None => (exists oflag checked, a = Open oflag checked) /\ no_room p
  end.
Proof.
  intros Hok Hr Ht. destruct a as [result|cf|oflag checked| |checked|n n2 pr tk|].
  - apply negb_true_iff in Hr. destruct (find_device_ok p tr result c Hok Hr) as (p' & -> & H1 & H2 & H3 & _).
    rewrite H3. split_ands; auto. discriminate.
  - destruct (configure_ok p tr cf c Hok Hr) as (dev & -> & H1 & H2 & H3 & Hl & H4). split; [reflexivity|]. split; [exact H1|].
    split; [unfold stage_now; change (pt_dev (p <| pt_dev := dev |>)) with dev; rewrite Hl, H3; reflexivity|].
    split; [discriminate|]. split; [exact H3|]. intros l. change (pt_dev (p <| pt_dev := dev |>)) with dev. cbn [outcome].
    rewrite H2, H4. reflexivity.
  - pose proof (open_ok p tr oflag checked c Hok Hr) as Ho. destruct (perform _ p) as [[p' e]|]; [|eauto].
    destruct Ho as (-> & H1 & H2 & H3 & H4). split; [reflexivity|]. split; [exact H1|]. split; [exact H2|]. split; [discriminate|].
    split; [exact H3|]. intros l. cbn [outcome]. rewrite H4. apply (f_equal opened) in H2. pose proof (port_listens _ _ H1 H2) as H5.
    destruct (Z.eqb_spec (ref_count (pt_dev p')) 0); [contradiction | reflexivity].
  - destruct (indicate_ok p tr c Hok Hr) as (-> & H1). split_ands; auto; [|discriminate].
    unfold stage_now. change (rx_indicate (pt_dev (p <| pt_dev := pt_dev p <| rx_indicate := ?x |> |>))) with x.
    destruct (Z.eqb_spec (callback at_) 0) as [E|_]; [destruct (so_callback Hso E) | reflexivity].
  - destruct (sem_init_ok p tr checked c Hok Hr) as (p' & -> & H1 & H2 & H3 & H4 & H5). rewrite H4. split_ands; auto; [discriminate|].
    intros l. rewrite H3, H5. reflexivity.
  - destruct (create_task_ok p tr n n2 pr tk c Hok Hr) as (p' & -> & H1 & H2 & H3 & H4 & H5 & H6). rewrite H5. split_ands; auto.
    intros l. rewrite H4, H6. reflexivity.
  - cbn [ready created] in Hr. apply andb_true_iff in Hr as [Hup Hc]. apply complete_up in Hup. change (c = true) in Hc.
    destruct (start_task_ok p tr false Hok Hup (Ht Hc)) as (p' & -> & H1 & H2 & H3 & H4 & H5). rewrite H4. split_ands; auto; [discriminate|].
    intros l. rewrite H3, H5. reflexivity.
Qed.

Lemma late_next a l p p' (i i' : bool) : indicates_late i (a :: l) = true -> ~ early p ->
  i = bool_decide (sem_addr at_ ∈ sem_class (pt_sys p)) -> i' = bool_decide (sem_addr at_ ∈ sem_class (pt_sys p')) ->
  i' = (match a with SemInit _ => true | _ => i end) ->
  rx_indicate (pt_dev p') = (match a with SetIndicate => callback at_ | _ => rx_indicate (pt_dev p) end) ->
  indicates_late i' l = true /\ ~ early p'.
Proof.
  intros Hl He Ei Ei' Ea Erx. unfold early in *. split; [destruct a; cbn [indicates_late] in Hl; subst i'; try exact Hl; rewrite Ea; auto|].
  - apply andb_true_iff in Hl. apply Hl.
  - rewrite Erx. intros [Hrx Hout]. assert (i' = false) by (rewrite Ei'; apply bool_decide_eq_false_2, Hout).
    assert (Hi : i = false) by (destruct a; congruence).
    assert (Hout' : sem_addr at_ ∉ sem_class (pt_sys p)) by (apply (proj1 (bool_decide_eq_false _)); congruence).
    destruct a; try (apply He; split; assumption). cbn [indicates_late] in Hl. rewrite Hi in Hl. discriminate.
Qed.

Lemma call_step target late a r fs p tr p' e : boot_ok target late ((a :: r) :: fs, p, tr) -> perform a p = Some (p', e) ->
  e = None /\ boot_ok target late (r :: fs, p', started a p tr).
Proof.
  intros [B1 (c & Hp & Ht) B3 B4] E. cbn [fst snd] in *. rewrite concat_cons in *. cbn [app plan_ok] in *.
  apply andb_true_iff in Hp as [Hr Hp]. pose proof (perform_ok p tr a c B1 Hr Ht) as H1. rewrite E in H1.
  destruct H1 as (-> & K1 & K2 & K3 & K4 & K5). split; [reflexivity|]. split; cbn [fst snd]; rewrite ?concat_cons; [exact K1 | | |].
  - exists (created (next_stage a (stage_now p c))). rewrite K2. auto.
  - rewrite <- B3. apply K5.
  - intros Hl. destruct (B4 Hl) as [B5 B6]. eapply late_next; [exact B5 | exact B6 | reflexivity | reflexivity | | exact K4].
    apply (f_equal inited) in K2. cbn in K2. rewrite K2. destruct a; reflexivity.
Qed.

Lemma others_step target late fs p tr c y : boot_ok target late (fs, p, tr) -> may_call container c (pt_sys p) ->
  run container texit hook c (pt_sys p) = Some y -> leaves p y -> boot_ok target late (fs, set_sys p y, tr).
Proof.
  intros [B1 (cr & Hp & Ht) B3 B4] Hc E [L2 L3 L4 L5 L6 L7]. cbn [fst snd] in *. pose proof B1 as [P1 P2 P3 P5 P6 P9 P7 P8].
  destruct (run_ok container texit hook (pt_sys p) P1 c Hc) as (y2 & E2 & Hy). assert (y2 = y) as -> by congruence.
  assert (Hst : forall x, stage_now (set_sys p y) x = stage_now p x).
  { intros x. unfold stage_now. change (sem_class (pt_sys (set_sys p y))) with (sem_class y). do 2 f_equal. apply bool_decide_ext, L3. }
  split; cbn [fst snd].
  - apply (set_sys_keep p tr y B1 Hy (or_intror L2) L5); [apply L3 | exact L6|]. unfold sem_place in *.
    destruct (decide (sem_addr at_ ∈ sem_class y)) as [Hin|Hout].
    + rewrite decide_True in P5 by (apply L3, Hin). exact P5.
    + assert (Hout' : sem_addr at_ ∉ sem_class (pt_sys p)) by (intros Hx; apply Hout, L3, Hx).
      rewrite decide_False in P5 by exact Hout'. destruct (L4 Hout') as (M1 & M2 & M3). destruct P5 as (Q1 & _ & Q3).
      unfold pt_heap in M1. rewrite M1, M3. auto.
  - exists cr. rewrite Hst. split; [exact Hp|]. intros Hcr Hne. change (pt_task p <> 0) in Hne. destruct (Ht Hcr Hne) as (T1 & T2 & T3).
    destruct (L7 T1 T2) as [M1 M2]. change (sy_kernel (pt_sys (set_sys p y))) with (sy_kernel y). change (pt_task (set_sys p y)) with (pt_task p).
    rewrite M2. auto.
  - exact B3.
  - intros Hl. destruct (B4 Hl) as [B5 B6]. unfold early in *. change (pt_sys (set_sys p y)) with y. change (rx_indicate (pt_dev (set_sys p y))) with (rx_indicate (pt_dev p)).
    rewrite (bool_decide_ext _ _ L3). split; [exact B5|]. intros [M1 M2]. apply B6. split; [exact M1|]. intros Hx. apply M2, L3, Hx.
Qed.

Lemma beside_step target late fs p tr p' tr' : boot_ok target late (fs, p, tr) -> port_ok p' tr' -> beside p p' ->
  boot_ok target late (fs, p', tr').
Proof.
  intros [B1 (c & Hp & Ht) B3 B4] Hok [D1 D2 D3 D4 D5 D6]. cbn [fst snd] in *. split; cbn [fst snd]; [exact Hok | | |].
  - exists c. rewrite D1. auto.
  - rewrite D2, D3. exact B3.
  - unfold early in *. rewrite D4, D5. exact B4.
Qed.

Lemma boot_step_ok target late b b' : boot_ok target late b -> boot_step b b' -> boot_ok target late b'.
Proof.
  intros Hok Hs. pose proof (bo_port _ _ _ Hok) as B1.
  destruct Hs as [a r fs p tr p' E | a r fs p tr p' e E | fs p tr | fs p q ins lost got rd fuel p' bytes q' Hr Hfu Hv E
    | fs p q ins lost got r p' bytes Hrun E | fs p q ins lost got r p' out Hrun E | fs p q ins lost got r Hrun
    | fs p tr h | fs p tr c y Hc E Hlv]; cbn [fst snd] in B1.
  - apply (call_step target late a r fs p tr p' None Hok E).
  - destruct (call_step target late a r fs p tr p' (Some e) Hok E) as [H1 _]. discriminate.
  - destruct Hok as [_ B2 B3 B4]. split; assumption.
  - pose proof (port_isr_ok p q ins lost got rd fuel B1 Hr Hfu (fun _ => Hv)) as Hi. cbv zeta in Hi. rewrite E in Hi.
    destruct Hi as (K1 & K2 & _). apply (beside_step target late fs p _ p' _ Hok K1 K2).
  - destruct (read_byte_ok p q ins lost got r B1 Hrun) as (p2 & b2 & E2 & K2 & K1). rewrite E in E2. injection E2 as <- <-.
    apply (beside_step target late fs p _ p' _ Hok K1 K2).
  - destruct (take_ok p q ins lost got r B1 Hrun) as (p2 & b2 & E2 & K2 & K1). rewrite E in E2. injection E2 as <- <-.
    apply (beside_step target late fs p _ p' _ Hok K1 K2).
  - pose proof (taken_ok p q ins lost got r B1 Hrun) as K1. destruct Hok as [_ B2 B3 B4]. split; assumption.
  - apply (beside_step target late fs p tr _ _ Hok); [|apply beside_dev; auto; apply B1].
    apply (dev_ok p tr _ B1); auto; [apply B1|]. intros ol Hs. eapply serial_ok_ext; [exact Hs | ..]; auto.
  - apply (others_step target late fs p tr c y); assumption.
Qed.

Lemma boot_reach_ok target late b b' : boot_ok target late b -> rtc boot_step b b' -> boot_ok target late b'.
Proof. intros Hok Hr. induction Hr; eauto using boot_step_ok. Qed.

(** ** From start-up on *)

Inductive application := Lora | Raspberry | Water | Compass | Gps.
Definition start_up (a : application) : list function :=
  match a with
  | Lora => thread_lora | Raspberry => thread_raspberry | Water => thread_water
  | Compass => thread_compass | Gps => thread_gps
  end.
(** The configuration the port ends up with, when nobody or the console has opened it before. *)
Definition configured (a : application) (console : bool) : serial_configure :=
  if console then RT_SERIAL_CONFIG_DEFAULT
  else match a with
       | Lora => lora_config | Raspberry => raspberry_config | Water => water_configs1
       | Compass => compass_configs | Gps => RT_SERIAL_CONFIG_DEFAULT
       end.
Definition semaphore_first (a : application) : bool := match a with Lora | Raspberry | Water => true | Compass | Gps => false end.

(** The board has registered the port with the default configuration, and perhaps made it the console; the
    semaphore's storage is zeroed static memory; the application's variables are zero. *)
Record port_start (p : port_state) : Prop := {
  ps_sys : sys_ok (pt_sys p);
  ps_name : find_device (pt_sys p) = Some (dev_addr at_);
  ps_device : quiet (pt_dev p) (sy_live (pt_sys p));
  ps_heap : dev_heap (pt_dev p) = pt_heap p;
  ps_config : config (serial_of (pt_dev p)) = RT_SERIAL_CONFIG_DEFAULT;
  ps_silent : rx_indicate (pt_dev p) = 0;
  ps_storage : (sem_addr at_ ∉ sem_class (pt_sys p)) /\ sem_place (pt_sys p) (pt_sem p);
  ps_zero : pt_handle p = 0
}.
Abbreviation nothing_yet := (mk_trace [] [] 0 [] None).

(** Every port of the image is in this state when the first thread runs. *)
Lemma booted_port img s ports b i d dev : image_ok container img s ports ->
  Startup.rtthread_startup container texit hook img s ports = Some b -> uart_obj img !! i = Some d -> bt_uarts b !! i = Some dev ->
  find_device (bt_sys b) = Some (dev_addr at_) -> (sem_addr at_ ∉ sem_class (bt_sys b)) -> sem_place (bt_sys b) (mkSem 0 0) ->
  port_start (mk_port (bt_sys b) dev (mkSem 0 0) 0 0 false).
Proof.
  intros Hi E Hd Hdev Hf Hn Hs. destruct (Startup.start_up_ok container texit hook img s ports Hi) as (b0 & c & _ & _ & _ & H1). rewrite E in H1.
  destruct H1 as (main & _ & [S1 _ _ _ _ S7]). destruct (Forall2_lookup_lr _ _ _ _ _ _ S7 Hd Hdev) as (Q1 & Q2 & Q3 & Q4 & _).
  split; cbn [pt_sys pt_dev pt_sem pt_handle]; auto.
Qed.

Lemma start_stage p : port_start p -> stage_now p false = mk_stage false false false false false.
Proof.
  intros [S1 S2 S3 S4 S5 S6 [S7 S8] S9]. unfold stage_now. rewrite (qt_deaf _ _ S3), S6, S9. rewrite (bool_decide_eq_false_2 (0 = dev_addr at_)) by (intros E; destruct (so_device Hso); auto).
  rewrite bool_decide_eq_false_2 by exact S7. reflexivity.
Qed.

Lemma sem_place_free y sm : sys_ok y -> sem_addr at_ ∉ sem_class y -> sem_place y sm ->
  forall t, t ∉ lists (sy_kernel y) (SemWait sem_key).
Proof.
  intros Hy Hn Hs t. unfold sem_place in Hs. rewrite decide_False in Hs by exact Hn.
  rewrite (no_waiter container y Hy _ RT_Object_Class_Semaphore (sem_addr at_)); [intros Ht; inversion Ht | reflexivity | lia | exact Hn].
Qed.

Lemma port_start_ok a p : port_start p ->
  boot_ok (configured a (negb (ref_count (pt_dev p) =? 0))) (semaphore_first a) (start_up a, p, nothing_yet).
Proof.
  intros Hs. pose proof (start_stage p Hs) as Hst. destruct Hs as [S1 S2 S3 S4 S5 S6 [S7 S8] S9].
  destruct S3 as [Q1 Q2 Q3].
  assert (Hb : buffers (pt_dev p) = ∅).
  { unfold buffers. unfold listening in Q2. destruct (serial_rx (serial_of (pt_dev p))) as [[? ?]|]; [discriminate | reflexivity]. }
  split; cbn [fst snd].
  - split; auto; [| rewrite Q2; exact Q3 | | contradiction].
    + exists (sy_live (pt_sys p)). split; [rewrite Hb, map_empty_union; reflexivity | exact Q1].
    + split; auto; [|discriminate]. intros t Ht. exfalso. destruct (sem_place_free _ _ S1 S7 S8 t Ht).
  - exists false. rewrite Hst. split; [destruct a; vm_compute; reflexivity | discriminate].
  - rewrite S5. destruct (negb _), a; reflexivity.
  - intros Hl. rewrite bool_decide_eq_false_2 by exact S7. unfold early. split; [destruct a; try discriminate Hl; reflexivity|].
    intros [H1 _]. contradiction.
Qed.

Definition is_task (a : action) : bool := match a with CreateTask _ _ _ _ | StartTask => true | _ => false end.

Lemma tasks_complete s l : forallb is_task l = true -> plan_ok s l = true -> complete s = true.
Proof.
  revert s. induction l as [|a l IH]; intros s Ht Hp; [exact Hp|]. cbn [forallb plan_ok] in *.
  apply andb_true_iff in Ht as [Ha Ht], Hp as [_ Hp]. specialize (IH _ Ht Hp). destruct a; try discriminate Ha; exact IH.
Qed.

(** C10: The start-up of a port, whatever comes in between.  Let the calls of an application's start-up be interleaved
    with interrupts of its port, bytes arriving at the hardware, the reading thread once it is started - it reads,
    and waits for the semaphore when there is nothing - and any allowed calls of the rest of the system that
    leave the port alone.  Then no call fails an assertion or returns early - except opening the port, when
    the heap has no room for the receive buffer; an interrupt of the opened port fails an assertion
    exactly when it finds bytes and the call back is set before the semaphore exists, which lora, raspberry and
    water exclude; the reading thread's calls return or wait; and from the time only the threads are left to
    create, the port and its reader, wherever the reader is, are in a state from which no
    byte is ever left waiting ([receiver_ok]), the newest of the bytes that came early are still there, and the port has the
    configuration asked for - but a port that is open already keeps its 64-byte buffer: the GPS port, which is
    opened before it is configured, and the port that is the console, raspberry's. *)
Theorem ports_come_up a p0 fs p tr :
  port_start p0 -> rtc boot_step (start_up a, p0, nothing_yet) (fs, p, tr) ->
  match fs with
  | (x :: _) :: _ => (exists p', perform x p = Some (p', None)) \/ (exists oflag checked, x = Open oflag checked) /\ no_room p
  | _ => True
  end /\
  (forall fuel, listening (pt_dev p) = true -> (length (pending (port (serial_of (pt_dev p)))) < fuel)%nat -> value (pt_sem p) < 65535 ->
     port_isr fuel p = None <-> early p /\ tr_queue tr ++ pending (port (serial_of (pt_dev p))) <> []) /\
  (semaphore_first a = true -> ~ early p) /\
  (forall r, running r (kernel_of p) ->
     (tr_reader tr = Some (r, Reading) -> exists p' bytes, read_byte r p = Some (p', bytes)) /\
     (tr_reader tr = Some (r, Taking) -> exists p' out, take_semaphore p = Some (p', out))) /\
  (forallb is_task (concat fs) = true ->
     (forall r pc, match tr_reader tr with Some rd => rd = (r, pc) | None => pc = Reading end ->
        exists ol, receiver_ok r sem_key
          (mk_receiver (pt_dev p) (kernel_of p) (pt_sem p) pc ol (tr_queue tr) (tr_in tr) (tr_got tr) (tr_lost tr))) /\
     config (serial_of (pt_dev p)) = configured a (negb (ref_count (pt_dev p0) =? 0))).
Proof.
  intros Hs Hr. destruct (boot_reach_ok _ _ _ _ (port_start_ok a p0 Hs) Hr) as [B1 (c & Hp & Ht) B3 B4]. cbn [fst snd] in *. split; [|split; [|split; [|split]]].
  - destruct fs as [|[|x r] fs]; auto. rewrite concat_cons in Hp. cbn [app plan_ok] in Hp. apply andb_true_iff in Hp as [Hx _].
    pose proof (perform_ok p tr x c B1 Hx Ht) as H1. destruct (perform x p) as [[p' e]|]; [|right; exact H1].
    destruct H1 as (-> & _). left. eauto.
  - intros fuel Ho Hfu Hv. apply (isr_fails p tr fuel B1 Ho Hfu (fun _ => Hv)).
  - intros Hl. apply B4, Hl.
  - intros r Hrun. destruct tr as [q ins lost got rd]. cbn [tr_reader]. split; intros ->.
    + destruct (read_byte_ok p q ins lost got r B1 Hrun) as (p' & bytes & E & _). eauto.
    + destruct (take_ok p q ins lost got r B1 Hrun) as (p' & out & E & _). eauto.
  - intros Htask. pose proof (proj1 (complete_up _ _) (tasks_complete _ _ Htask Hp)) as Hup. split.
    { intros r pc Hrd. destruct (up_receiver p tr r pc B1 Hup Hrd) as (ol & _ & H1). eauto. }
    rewrite <- B3. clear -Htask. generalize (negb (ref_count (pt_dev p) =? 0)) (config (serial_of (pt_dev p))).
    induction (concat fs) as [|x l IH]; intros b cf; [reflexivity|]. cbn [forallb] in Htask. apply andb_true_iff in Htask as [Hx Htask].
    destruct x; try discriminate Hx; cbn [outcome]; apply (IH Htask).
Qed.

Lemma run_function_reach l fs p p' tr tr' : run_function l p tr = Some (p', tr') -> rtc boot_step (l :: fs, p, tr) (fs, p', tr').
Proof.
  revert p tr. induction l as [|a l IH]; intros p tr; cbn [run_function]; [intros [= -> ->]; apply rtc_once, bs_end|].
  destruct (perform a p) as [[p1 [e|]]|] eqn:E; [| |discriminate]; cbn [mbind option_bind].
  - intros [= -> ->]. apply rtc_once, (bs_return _ _ _ _ _ _ e), E.
  - intros Hr. eapply rtc_l; [apply bs_call, E | apply IH, Hr].
Qed.

Lemma run_functions_reach fs p p' tr tr' : run_functions fs p tr = Some (p', tr') -> rtc boot_step (fs, p, tr) ([], p', tr').
Proof.
  revert p tr. induction fs as [|f fs IH]; intros p tr; cbn [run_functions]; [intros [= -> ->]; constructor|].
  destruct (run_function f p tr) as [[p1 tr1]|] eqn:E; [|discriminate]. cbn [mbind option_bind]. intros Hr.
  etransitivity; [apply run_function_reach, E | apply IH, Hr].
Qed.

(** An opened port whose call back is set too early does not survive a byte. *)
Lemma early_byte target late fs p tr h : boot_ok target late (fs, p, tr) -> early p -> listening (pt_dev p) = true ->
  pending h <> [] ->
  let p' := p <| pt_dev := set_port (pt_dev p) h |> in
  rtc boot_step (fs, p, tr) (fs, p', tr) /\ port (serial_of (pt_dev p')) = h /\ listening (pt_dev p') = true /\
  forall fuel, (length (pending h) < fuel)%nat -> port_isr fuel p' = None.
Proof.
  intros Hok He Hr Hp p'. assert (Hst : boot_step (fs, p, tr) (fs, p', tr)) by apply bs_hardware.
  split; [apply rtc_once, Hst|]. split; [reflexivity|]. split; [exact Hr|]. intros fuel Hfu.
  pose proof (bo_port _ _ _ (boot_step_ok _ _ _ _ Hok Hst)) as B1. cbn [fst snd] in B1.
  apply (isr_fails p' tr fuel B1 Hr Hfu (fun Hin => False_ind _ (proj2 He Hin))). split; [exact He|].
  change (tr_queue tr ++ pending h <> []). intros E. apply app_eq_nil in E. tauto.
Qed.

(** The calls that change the device only, and the opening. *)
Definition on_port (a : action) : bool := match a with Find _ | Configure _ | SetIndicate => true | _ => false end.

Lemma port_step p tr a : port_ok p tr -> ready a (stage_now p false) = true -> on_port a = true ->
  exists p', perform a p = Some (p', None) /\ port_ok p' tr /\ pt_heap p' = pt_heap p /\
    stage_now p' false = next_stage a (stage_now p false) /\
    config (serial_of (pt_dev p')) = outcome (negb (ref_count (pt_dev p) =? 0)) (config (serial_of (pt_dev p))) [a] /\
    ref_count (pt_dev p') = ref_count (pt_dev p).
Proof.
  intros Hok Hr Ha. pose proof (perform_ok p tr a false Hok Hr ltac:(discriminate)) as Hp.
  destruct (perform a p) as [[p' e]|] eqn:E; [|destruct Hp as [(o & c & ->) _]; discriminate Ha].
  destruct Hp as (-> & H1 & H2 & _ & _ & H5). exists p'. split; [reflexivity|].
  split; [destruct a; try discriminate Ha; exact H1|].
  assert (Hh : pt_heap p' = pt_heap p /\ ref_count (pt_dev p') = ref_count (pt_dev p)).
  { destruct a; try discriminate Ha; unfold pt_heap.
    - apply negb_true_iff in Hr. destruct (find_device_ok p tr result false Hok Hr) as (p2 & E2 & _ & _ & E4 & E3 & _).
      rewrite E in E2. injection E2 as <-. rewrite E3, E4. auto.
    - destruct (configure_ok p tr c false Hok Hr) as (dev & E2 & _ & E3 & _). rewrite E in E2. injection E2 as ->. auto.
    - destruct (indicate_ok p tr false Hok Hr) as (E2 & _). rewrite E in E2. injection E2 as ->. auto. }
  destruct Hh as [Hh Hc]. split; [exact Hh|]. split; [|split; [apply (H5 []) | exact Hc]].
  rewrite <- H2. destruct a; try discriminate Ha; reflexivity.
Qed.

Lemma open_step p tr oflag checked : port_ok p tr -> ready (Open oflag checked) (stage_now p false) = true -> ~ no_room p ->
  exists p', perform (Open oflag checked) p = Some (p', None) /\ port_ok p' tr /\
    stage_now p' false = next_stage (Open oflag checked) (stage_now p false).
Proof.
  intros Hok Hr Hroom. pose proof (open_ok p tr oflag checked false Hok Hr) as Ho.
  destruct (perform _ p) as [[p' e]|]; [|contradiction]. destruct Ho as (-> & H1 & H2 & _). eauto.
Qed.

Lemma stage_early p c i : stage_now p false = mk_stage true true false i c -> i = true -> early p /\ listening (pt_dev p) = true.
Proof.
  intros E ->. unfold stage_now in E. injection E as Hf Ho Hi Hx _. apply bool_decide_eq_false in Hi.
  apply negb_true_iff, Z.eqb_neq in Hx. unfold early. auto.
Qed.

(** C40: What ports_come_up excludes for the other two can happen to them.  The compass (radar) function sets its call
    back before it opens the port, and the GPS function right after, both before their semaphore exists: when the
    heap has room for the buffer, the start-up reaches, with nothing else happening, a state in which the port is open
    and a byte that arrives makes the receive interrupt fail the assertion of rt_sem_release. *)
Theorem early_byte_stops a p0 h :
  semaphore_first a = false -> port_start p0 -> pending h <> [] ->
  rt_malloc 0 (pt_heap p0) (sizeof_rx_fifo + bufsz (configured a (negb (ref_count (pt_dev p0) =? 0)))) <> Some (pt_heap p0, 0) ->
  exists fs p tr, rtc boot_step (start_up a, p0, nothing_yet) (fs, p, tr) /\ port (serial_of (pt_dev p)) = h /\
    listening (pt_dev p) = true /\ forall fuel, (length (pending h) < fuel)%nat -> port_isr fuel p = None.
Proof.
  intros Ha Hs Hh Hroom. pose proof (port_start_ok a p0 Hs) as Hok0. pose proof (start_stage p0 Hs) as G0. pose proof (ps_config _ Hs) as C0.
  pose proof (bo_port _ _ _ Hok0) as B0. cbn [fst snd] in B0.
  assert (Hfin : forall fs p i c, rtc boot_step (start_up a, p0, nothing_yet) (fs, p, nothing_yet) ->
      stage_now p false = mk_stage true true false i c -> i = true ->
      exists fs p tr, rtc boot_step (start_up a, p0, nothing_yet) (fs, p, tr) /\ port (serial_of (pt_dev p)) = h /\
        listening (pt_dev p) = true /\ forall fuel, (length (pending h) < fuel)%nat -> port_isr fuel p = None).
  { intros fs p i c Hr G Ei. destruct (stage_early p c i G Ei) as [He Ho].
    destruct (early_byte _ _ _ _ _ h (boot_reach_ok _ _ _ _ Hok0 Hr) He Ho Hh) as (Hr' & K).
    eexists fs, _, nothing_yet. split; [etransitivity; [exact Hr | exact Hr'] | exact K]. }
  destruct a; try discriminate Ha.
  - destruct (port_step p0 _ (Find (Some (- EINVAL))) B0) as (p1 & E1 & B1 & H1 & G1 & C1 & R1); [rewrite G0; reflexivity | reflexivity|].
    rewrite G0 in G1. destruct (port_step p1 _ (Configure compass_configs) B1) as (p2 & E2 & B2 & H2 & G2 & C2 & R2); [rewrite G1; reflexivity | reflexivity|].
    rewrite G1 in G2. destruct (port_step p2 _ SetIndicate B2) as (p3 & E3 & B3 & H3 & G3 & C3 & R3); [rewrite G2; reflexivity | reflexivity|].
    rewrite G2 in G3. destruct (open_step p3 _ (Z.lor RT_DEVICE_OFLAG_RDWR RT_DEVICE_FLAG_INT_RX) true B3) as (p4 & E4 & B4 & G4);
      [rewrite G3; reflexivity | |].
    { unfold no_room, cfg_bufsz. cbn [outcome] in C1, C2, C3. rewrite C3, C2, C1, R1, H3, H2, H1, C0.
      destruct (negb (ref_count (pt_dev p0) =? 0)); exact Hroom. }
    rewrite G3 in G4. eapply (Hfin _ p4 _ _); [|exact G4 | reflexivity].
    do 4 (eapply rtc_l; [apply bs_call; eassumption|]). constructor.
  - destruct (port_step p0 _ (Find None) B0) as (p1 & E1 & B1 & H1 & G1 & C1 & R1); [rewrite G0; reflexivity | reflexivity|].
    rewrite G0 in G1. destruct (open_step p1 _ (Z.lor RT_DEVICE_OFLAG_RDWR RT_DEVICE_FLAG_INT_RX) true B1) as (p2 & E2 & B2 & G2);
      [rewrite G1; reflexivity | |].
    { unfold no_room, cfg_bufsz. cbn [outcome] in C1. rewrite C1, C0, H1. cbn [configured] in Hroom. destruct (negb (ref_count (pt_dev p0) =? 0)); exact Hroom. }
    rewrite G1 in G2. destruct (port_step p2 _ (Configure gps_configs) B2) as (p3 & E3 & B3 & H3 & G3 & C3 & R3); [rewrite G2; reflexivity | reflexivity|].
    rewrite G2 in G3. destruct (port_step p3 _ SetIndicate B3) as (p4 & E4 & B4 & H4 & G4 & C4 & R4); [rewrite G3; reflexivity | reflexivity|].
    rewrite G3 in G4. eapply (Hfin _ p4 _ _); [|exact G4 | reflexivity].
    do 4 (eapply rtc_l; [apply bs_call; eassumption|]). constructor.
Qed.
End Ports.

(** ** A board with one port

    The image of Startup: LoRa's port at 400, the console at 500, and a semaphore for each. *)

Definition demo_place : place := mk_place 400 28 3000 9 2000 44 (fun _ => 44) (fun _ => 9999).
Definition console_place : place := mk_place 500 36 3000 9 2100 44 (fun _ => 44) (fun _ => 9999).

Definition board_port (i : nat) : SerialDevice (list Z) := nth i (bt_uarts small_boot) demo_serial.
Definition board (i : nat) : port_state := mk_port (bt_sys small_boot) (board_port i) (mkSem 0 0) 0 0 false.

Lemma demo_sound : sound demo_place (H := list Z).
Proof. split; try discriminate. reflexivity. Qed.
Lemma console_sound : sound console_place (H := list Z).
Proof. split; try discriminate. reflexivity. Qed.

Lemma clear_by_check ls a n :
  forallb (fun i => forallb (fun x => (x + object_size i <=? a) || (a + n <=? x)) (ls (oi_type i))) (rt_object_container 100) = true ->
  clear_of 100 ls a n.
Proof.
  intros Hf i x Hi Hx. rewrite forallb_forall in Hf. specialize (Hf i (proj1 (list_elem_of_In _ _) Hi)).
  rewrite forallb_forall in Hf. specialize (Hf x (proj1 (list_elem_of_In _ _) Hx)). apply orb_true_iff in Hf. rewrite !Z.leb_le in Hf. exact Hf.
Qed.

Lemma nth_there {A} (d : A) l i : (i <? length l)%nat = true -> l !! i = Some (nth i l d).
Proof. intros Hi%Nat.ltb_lt. destruct (nth_lookup_or_length l i d) as [E|]; [exact E | lia]. Qed.

(** One of the two ports, at the place of an application. *)
Ltac board_starts i :=
  apply (booted_port 100 0 0 _ small_image image_objects [[]; []] small_boot i (nth i (uart_obj small_image) (mk_listed 0 0 0)) (board_port i));
  [ exact image_start | exact small_boots | reflexivity
  | unfold board_port; refine (nth_there demo_serial (bt_uarts small_boot) i _); vm_compute; reflexivity
  | vm_compute; reflexivity | intros H1; vm_compute in H1; inversion H1
  | unfold sem_place; rewrite decide_False by (intros H1; vm_compute in H1; inversion H1);
    split; [split; [|split; [|right]]; vm_compute; try reflexivity; discriminate
           |split; [apply clear_by_check; vm_compute; reflexivity | vm_compute; reflexivity]] ].

Lemma lora_starts : port_start 100 demo_place (board 0).
Proof. board_starts 0%nat. Qed.

Lemma raspberry_starts : port_start 100 console_place (board 1).
Proof. board_starts 1%nat. Qed.

Abbreviation zero_trace := (mk_trace [] [] 0 [] None).
Definition lora_up : port_state * trace :=
  default (board 0, zero_trace) (run_functions 100 0 0 demo_place (start_up Lora) (board 0) zero_trace).
Definition raspberry_up : port_state * trace :=
  default (board 1, zero_trace) (run_functions 100 0 0 console_place (start_up Raspberry) (board 1) zero_trace).

(** LoRa's thread runs as soon as it is started: it finds nothing to read and goes to sleep; a byte wakes it, and it reads the byte. *)
Definition lora_thread : nat := key (pt_task lora_up.1).
Definition lora_idle : port_state * list Z := default (board 0, []) (read_byte demo_place lora_thread lora_up.1).
Definition lora_asleep : port_state * Ipc.outcome := default (board 0, Returns 0) (take_semaphore demo_place lora_idle.1).
Definition lora_byte : port_state := lora_asleep.1 <| pt_dev := set_port (pt_dev lora_asleep.1) [65] |>.
Definition lora_awake : port_state := default (board 0) (port_isr demo_place 2 lora_byte).
Definition lora_got : port_state * list Z := default (board 0, []) (read_byte demo_place lora_thread lora_awake).

Lemma lora_comes_up :
  rtc (boot_step 100 0 0 demo_place) (start_up Lora, board 0, zero_trace)
    ([], lora_up.1, mk_trace [] [] 0 [] (Some (lora_thread, Reading))).
Proof.
  assert (E : run_functions 100 0 0 demo_place (start_up Lora) (board 0) zero_trace = Some lora_up) by (apply default_some; vm_compute; reflexivity).
  assert (Et : lora_up.2 = mk_trace [] [] 0 [] (Some (lora_thread, Reading))) by (vm_compute; reflexivity).
  rewrite <- Et. apply run_functions_reach. rewrite E. destruct lora_up; reflexivity.
Qed.

Lemma lora_sleeps :
  rtc (boot_step 100 0 0 demo_place) (start_up Lora, board 0, zero_trace)
    ([], lora_asleep.1, mk_trace [] [] 0 [] (Some (lora_thread, Waiting))).
Proof.
  etransitivity; [exact lora_comes_up|]. eapply rtc_l; [|apply rtc_once].
  - apply (bs_read _ _ _ _ _ _ _ _ _ _ _ lora_idle.1 []); [split; vm_compute; reflexivity|].
    change (read_byte demo_place lora_thread lora_up.1 = Some (lora_idle.1, [])).
    assert (E : read_byte demo_place lora_thread lora_up.1 = Some lora_idle) by (apply default_some; vm_compute; reflexivity).
    rewrite E. assert (Eb : lora_idle.2 = []) by (vm_compute; reflexivity). rewrite <- Eb. destruct lora_idle; reflexivity.
  - apply (bs_take _ _ _ _ _ _ _ _ _ _ _ lora_asleep.1 Waits); [split; vm_compute; reflexivity|].
    assert (E : take_semaphore demo_place lora_idle.1 = Some lora_asleep) by (apply default_some; vm_compute; reflexivity).
    rewrite E. assert (Eb : lora_asleep.2 = Waits) by (vm_compute; reflexivity). rewrite <- Eb. destruct lora_asleep; reflexivity.
Qed.

Lemma lora_reads :
  rtc (boot_step 100 0 0 demo_place) (start_up Lora, board 0, zero_trace)
    ([], lora_got.1, mk_trace [] [65] 0 [65] (Some (lora_thread, Reading))).
Proof.
  etransitivity; [exact lora_sleeps|]. eapply rtc_l; [apply (bs_hardware _ _ _ _ _ _ _ [65])|]. fold lora_byte.
  assert (Ei : port_isr demo_place 2 lora_byte = Some lora_awake) by (apply default_some; vm_compute; reflexivity).
  assert (Ep : pending (port (serial_of (pt_dev lora_byte))) = [65]) by (vm_compute; reflexivity).
  assert (Eq : newest (cfg_bufsz (pt_dev lora_byte) - 1) ([] ++ [65]) = [65]) by (vm_compute; reflexivity).
  eapply rtc_l; [|eapply rtc_l; [|apply rtc_once]].
  - pose proof (bs_isr 100 0 0 demo_place [] lora_byte [] [] 0 [] (Some (lora_thread, Waiting)) 2 lora_awake) as Hs. cbv zeta in Hs.
    rewrite Ep, Eq in Hs. apply Hs; [vm_compute; reflexivity | cbn; lia | vm_compute; reflexivity | exact Ei].
  - apply bs_taken. split; vm_compute; reflexivity.
  - apply (bs_read _ _ _ _ _ _ [65] [65] 0 [] lora_thread lora_got.1 [65]); [split; vm_compute; reflexivity|].
    assert (E : read_byte demo_place lora_thread lora_awake = Some lora_got) by (apply default_some; vm_compute; reflexivity).
    rewrite E. assert (Eb : lora_got.2 = [65]) by (vm_compute; reflexivity). rewrite <- Eb. destruct lora_got; reflexivity.
Qed.

(** LoRa comes up with the buffer of 128 bytes it asked for, its thread asleep in the semaphore's list until a byte arrives, which it
    reads; the computer's application, on the console, comes up with 64. *)
Lemma ports_come_up_witness :
  lists (sy_kernel (pt_sys lora_asleep.1)) (SemWait (key 2000)) = [lora_thread] /\
  (exists ol, receiver_ok lora_thread (key 2000)
     (mk_receiver (pt_dev lora_asleep.1) (sy_kernel (pt_sys lora_asleep.1)) (pt_sem lora_asleep.1) Waiting ol [] [] [] 0)) /\
  (exists ol, receiver_ok lora_thread (key 2000)
     (mk_receiver (pt_dev lora_got.1) (sy_kernel (pt_sys lora_got.1)) (pt_sem lora_got.1) Reading ol [] [65] [65] 0)) /\
  bufsz (config (serial_of (pt_dev lora_asleep.1))) = 128 /\ bufsz (config (serial_of (pt_dev raspberry_up.1))) = 64.
Proof.
  assert (E1 : run_functions 100 0 0 console_place (start_up Raspberry) (board 1) zero_trace = Some (raspberry_up.1, raspberry_up.2)).
  { transitivity (Some raspberry_up); [apply default_some; vm_compute; reflexivity | destruct raspberry_up; reflexivity]. }
  pose proof (run_functions_reach 100 0 0 console_place _ _ _ _ _ E1) as Hr1.
  destruct (ports_come_up 100 0 0 demo_place demo_sound Lora (board 0) [] _ _ lora_starts lora_sleeps) as (_ & _ & _ & _ & H1).
  destruct (ports_come_up 100 0 0 demo_place demo_sound Lora (board 0) [] _ _ lora_starts lora_reads) as (_ & _ & _ & _ & H2).
  destruct (ports_come_up 100 0 0 console_place console_sound Raspberry (board 1) [] _ _ raspberry_starts Hr1) as (_ & _ & _ & _ & H3).
  destruct (H1 eq_refl) as [H4 H5]. destruct (H2 eq_refl) as [H6 _]. destruct (H3 eq_refl) as [_ H7].
  split; [vm_compute; reflexivity|]. split; [apply (H4 lora_thread Waiting eq_refl)|]. split; [apply (H6 lora_thread Reading eq_refl)|].
  rewrite H5, H7. split; vm_compute; reflexivity.
Defined.

(** The byte 65 is enough. *)
Lemma early_byte_stops_witness :
  exists fs p tr, rtc (boot_step 100 0 0 demo_place) (start_up Compass, board 0, zero_trace) (fs, p, tr) /\
  port (serial_of (pt_dev p)) = [65] /\ port_isr demo_place 2 p = None.
Proof.
  destruct (early_byte_stops 100 0 0 demo_place demo_sound Compass (board 0) [65] eq_refl lora_starts) as (fs & p & tr & Hr & Hp & _ & Hi).
  - discriminate.
  - intros E. apply (f_equal (fmap snd)) in E. vm_compute in E. discriminate.
  - exists fs, p, tr. split; [exact Hr|]. split; [exact Hp|]. apply Hi. cbn. lia.
Defined.
