(* ===== verification/System.v ===== *)
(** The application as a whole: its threads share the globals, the PWM targets and
    the pins, and take turns in any order, at any ticks, on any received bytes.
    main (src/applications/main.c) initialises the pins and starts the threads.  A
    turn is one pass of a thread's loop between two waits; that a turn is not
    interrupted in its middle by another thread's turn is the assumption of this
    file. *)

From Stdlib Require Import Floats.SpecFloat.
From S2P Require Import Prelude CFloat Gpio Pwm Globals Sensors Energy AutoCruise Manager.
From S2P Require Lora Raspberry.

(** ** Definitions *)

Record Firmware := mkFirmware {
  fw_world : World;
  fw_lora : Lora.LoraSt;
  fw_rasp : Raspberry.RaspSt;
  fw_send : Raspberry.SendSt;
  fw_gps : Coll;
  fw_water : Coll;
  fw_radar : RadarSt;
}.
#[export] Instance Firmware_rebuild : Rebuild Firmware := fun f =>
  mkFirmware (fw_world f) (fw_lora f) (fw_rasp f) (fw_send f) (fw_gps f) (fw_water f) (fw_radar f).

(** The state after [main]; [garbage] is what the receiver's stack held. *)
Definition firmware_init (garbage : list Z) : Firmware :=
  mkFirmware world_init Lora.lora_init (Raspberry.rasp_init garbage)
    (Raspberry.mkSendSt Raspberry.Top 0) coll_init coll_init radar_init.

(** One turn of one of the threads, with what the outside supplies. *)
Inductive turn :=
  | LoraByte (now c : Z)
  | RaspByte (e : Raspberry.RaspEv)
  | SendTurn (now now2 : Z)
  | GpsByte (b : Z)
  | WaterByte (b : Z)
  | RadarByte (now b : Z)
  | EnergyCycle (values : list Z)
  | ManagerTurn (tick : nat -> Z)
  | MotorTurn
  | GearTurn.

Section Firmware.
Context `{Libm}.

Definition put_globals (f : Firmware) (g : Globals) : Firmware :=
  f <| fw_world := fw_world f <| w_g := g |> |>.

Definition firmware_turn (f : Firmware) (e : turn) : option Firmware :=
  let w := fw_world f in
  let g := w_g w in
  match e with
  | LoraByte now c =>
      '(s, g) ← Lora.lora_rec_byte now c (fw_lora f) g; Some (put_globals (f <| fw_lora := s |>) g)
  | RaspByte e =>
      '(s, g) ← Raspberry.rasp_rec_byte e (fw_rasp f) g; Some (put_globals (f <| fw_rasp := s |>) g)
  | SendTurn now now2 =>
      '(s, t, _) ← Raspberry.rasp_send_step now now2 (fw_rasp f) (fw_send f) g;
      Some (f <| fw_rasp := s |> <| fw_send := t |>)
  | GpsByte b =>
      '(s, g) ← gps_rec_byte b (fw_gps f) g; Some (put_globals (f <| fw_gps := s |>) g)
  | WaterByte b =>
      '(s, g) ← water_rec_byte b (fw_water f) g; Some (put_globals (f <| fw_water := s |>) g)
  | RadarByte now b =>
      '(s, g) ← radar_rec_byte now b (fw_radar f) g; Some (put_globals (f <| fw_radar := s |>) g)
  | EnergyCycle values => Some (put_globals f (check_dump_energy values g))
  | ManagerTurn tick => Some (f <| fw_world := manager_iter tick w |>)
  | MotorTurn => Some (f <| fw_world := w <| w_motor := motor_next (w_motor w) |> |>)
  | GearTurn => Some (f <| fw_world := w <| w_gear := gear_next (w_gear w) |> |>)
  end.

Fixpoint firmware_run (es : list turn) (f : Firmware) : option Firmware :=
  match es with
  | [] => Some f
  | e :: es => f ← firmware_turn f e; firmware_run es f
  end.
End Firmware.

(** ** The arrays among the globals keep their sizes *)

Lemma set_key_wf i v g : globals_wf g -> globals_wf (set_key i v g).
Proof. intros (H1 & H2). split; [rewrite set_key_length; exact H1|exact H2]. Qed.

(** [arrays_kept H]: by cases over the matches of the call in [H]. *)
Ltac arrays_kept H :=
  unfold mbind, option_bind in H; repeat (case_match; simplify_eq);
  repeat apply set_key_wf; try assumption.

Lemma lora_decode_wf s g s' g' :
  globals_wf g -> Lora.lora_joystick s g = Some (s', g') \/ Lora.lora_keys s g = Some (s', g') -> globals_wf g'.
Proof. unfold Lora.lora_joystick, Lora.lora_keys. intros Hg [E|E]; arrays_kept E. Qed.

Lemma lora_end_wf now s g s' g' : globals_wf g -> Lora.lora_end now s g = Some (s', g') -> globals_wf g'.
Proof.
  intros Hg E. unfold Lora.lora_end in E.
  destruct (buf_set _ _ _) as [b|]; [|discriminate]. cbn [mbind option_bind] in E.
  destruct (if Lora.data_type _ =? 1 then _ else _) as [[s3 g3]|] eqn:E3; [|discriminate]. cbn [mbind option_bind] in E.
  destruct (if Lora.data_type s3 =? 2 then _ else _) as [[s4 g4]|] eqn:E4; [|discriminate]. cbn [mbind option_bind] in E.
  injection E as _ <-.
  assert (Hg3 : globals_wf g3).
  { clear E4. case_match; [exact (lora_decode_wf _ _ _ _ Hg (or_introl E3))|injection E3 as _ <-; exact Hg]. }
  clear E3. case_match; [exact (lora_decode_wf _ _ _ _ Hg3 (or_intror E4))|injection E4 as _ <-; exact Hg3].
Qed.

Lemma lora_globals_wf now c s g s' g' :
  globals_wf g -> Lora.lora_rec_byte now c s g = Some (s', g') -> globals_wf g'.
Proof.
  intros Hg E. unfold Lora.lora_rec_byte in E.
  destruct (Lora.lora_store c s) as [s1|]; [|discriminate]. cbn [mbind option_bind] in E.
  destruct ((c =? chr "Z") && _); [|cbn [mbind option_bind] in E; congruence].
  destruct (Lora.lora_end _ _ _) as [[s2 g2]|] eqn:E2; [|discriminate]. cbn [mbind option_bind] in E.
  injection E as _ <-. eapply lora_end_wf; eauto.
Qed.

Lemma rasp_pid_wf str s g s' g' : globals_wf g -> Raspberry.rasp_pid str s g = Some (s', g') -> globals_wf g'.
Proof.
  unfold Raspberry.rasp_pid. intros (H1 & H2 & H3) E. unfold mbind, option_bind in E.
  repeat (case_match; simplify_eq). split; [exact H1|]. split; [reflexivity|exact H3].
Qed.

Lemma rasp_end_wf now s g s' g' : globals_wf g -> Raspberry.rasp_end now s g = Some (s', g') -> globals_wf g'.
Proof.
  intros Hg E. unfold Raspberry.rasp_end in E.
  destruct (buf_set _ _ _) as [b|]; [|discriminate]. cbn [mbind option_bind] in E.
  destruct (Scan.cstr b) as [str|]; [|discriminate]. cbn [mbind option_bind] in E.
  destruct (if Raspberry.info_type _ =? 1 then _ else _) as [[s4 g4]|] eqn:E4; [|discriminate].
  cbn [mbind option_bind] in E. injection E as _ <-.
  repeat (case_match; [try (exact (rasp_pid_wf _ _ _ _ _ Hg E4))|]); try (injection E4 as _ <-; exact Hg).
  all: unfold Raspberry.rasp_target, Raspberry.rasp_bottle, Raspberry.rasp_control, Raspberry.rasp_settings,
    Raspberry.rasp_compass in E4; arrays_kept E4.
Qed.

Lemma rasp_globals_wf e s g s' g' :
  globals_wf g -> Raspberry.rasp_rec_byte e s g = Some (s', g') -> globals_wf g'.
Proof.
  intros Hg E. unfold Raspberry.rasp_rec_byte in E.
  destruct (Raspberry.rasp_store _ _ s) as [s1|]; [|discriminate]. cbn [mbind option_bind] in E.
  destruct ((Raspberry.ev_char e =? chr "Z") && _); [|cbn [mbind option_bind] in E; injection E as _ <-; exact Hg].
  destruct (Raspberry.rasp_end _ _ _) as [[s2 g2]|] eqn:E2; [|discriminate]. cbn [mbind option_bind] in E.
  injection E as _ <-. eapply rasp_end_wf; [|exact E2]. exact Hg.
Qed.

Section SystemLemmas.
Context `{Libm}.

Lemma gps_globals_wf b s g s' g' : globals_wf g -> gps_rec_byte b s g = Some (s', g') -> globals_wf g'.
Proof.
  intros Hg E. unfold gps_rec_byte in E. destruct (if b =? 85 then _ else _) as [s1|]; [|discriminate].
  cbn [mbind option_bind] in E. destruct (_ =? 11) in E; injection E as _ <-; [|exact Hg].
  unfold gps_message. repeat case_match; exact Hg.
Qed.

Lemma water_globals_wf b s g s' g' : globals_wf g -> water_rec_byte b s g = Some (s', g') -> globals_wf g'.
Proof.
  intros Hg E. unfold water_rec_byte in E. destruct (if b =? 6 then _ else _) as [s1|]; [|discriminate].
  cbn [mbind option_bind] in E. destruct (_ =? 12) in E; injection E as _ <-; exact Hg.
Qed.

Lemma timeouts_wf n1 n2 n3 g : globals_wf g -> globals_wf (manager_timeouts n1 n2 n3 g).
Proof.
  intros Hg. unfold manager_timeouts. repeat (case_match; try (apply set_key_wf)); exact Hg.
Qed.

Lemma prepare_wf tick w : globals_wf (w_g w) -> globals_wf (w_g (manager_prepare tick w)).
Proof.
  intros Hg. unfold manager_prepare. set (w1 := write_pins _ _).
  assert (H1 : globals_wf (w_g w1)) by apply timeouts_wf, Hg. clearbody w1. clear Hg.
  assert (H2 : globals_wf (w_g (upd_g manager_mode w1))).
  { change (globals_wf (manager_mode (w_g w1))). rewrite manager_mode_frame. exact H1. }
  clear H1. set (w2 := upd_g manager_mode w1) in *. clearbody w2. clear w1.
  unfold manager_drive. repeat case_match; try exact H2.
  - unfold manager_manual. destruct (manual_components _ _). exact H2.
  - unfold manager_auto. pose proof (auto_cruise_globals (w_g w2) (w_cruise w2)) as Hg.
    destruct (auto_cruise_pid (w_g w2) (w_cruise w2)) as [[c g] [l r]]. cbn [fst snd] in Hg.
    destruct Hg as [-> | [e ->]]; exact H2.
Qed.

Lemma manager_iter_wf tick w : globals_wf (w_g w) -> globals_wf (w_g (manager_iter tick w)).
Proof.
  intros Hg. rewrite manager_iter_eq. cbn zeta. pose proof (prepare_wf tick w Hg) as Hp.
  set (w1 := manager_prepare tick w) in *. clearbody w1.
  destruct (key_at (w_g w1) 0 =? 1).
  - unfold remote_draw. destruct (_ && _); [|exact Hp].
    destruct (draw_start_tick (w_g w1) =? 0); destruct (_ <? _); exact Hp.
  - unfold server_draw. destruct (_ && _); [|exact Hp].
    destruct (negb (current_gear_pwm (w_gear w1) =? _)); [exact Hp|].
    cbn [draw_start_tick]. destruct (_ =? 0); destruct (_ <? _); exact Hp.
Qed.

(** ** The sampling pins between two turns *)

(** The pump runs into exactly one open valve, or everything is closed. *)
Definition sampling_ok (pins : Pins) : Prop :=
  (pump_on pins = true /\ exists b, 1 <= b <= 8 /\ open_valves pins = [b]) \/
  (pump_on pins = false /\ open_valves pins = []).

Lemma draw_sampling_ok b pins : sampling_ok (run_writes (draw b) pins).
Proof.
  unfold sampling_ok. rewrite draw_pump, draw_open_eq. 
  destruct (Z.leb_spec 1 b), (Z.leb_spec b 8); cbn [andb]; auto. left. split; [reflexivity|]. exists b. auto.
Qed.

Lemma manager_iter_sampling tick w : sampling_ok (w_pins w) -> sampling_ok (w_pins (manager_iter tick w)).
Proof.
  intros Hs. rewrite manager_iter_eq. cbn zeta. destruct (prepare_pins tick w) as [H1 H2].
  assert (Hp : sampling_ok (w_pins (manager_prepare tick w))) by (unfold sampling_ok; rewrite H1, H2; exact Hs).
  set (w1 := manager_prepare tick w) in *. clearbody w1.
  destruct (key_at (w_g w1) 0 =? 1).
  - unfold remote_draw. destruct (_ && _); [|apply draw_sampling_ok].
    destruct (draw_start_tick (w_g w1) =? 0); destruct (_ <? _); apply draw_sampling_ok.
  - unfold server_draw. destruct (_ && _); [|apply draw_sampling_ok].
    destruct (negb (current_gear_pwm (w_gear w1) =? _)); [exact Hp|].
    cbn [draw_start_tick]. destruct (_ =? 0); destruct (_ <? _); apply draw_sampling_ok.
Qed.

Lemma manager_iter_motor tick w : motor_ok (w_motor w) -> motor_ok (w_motor (manager_iter tick w)).
Proof.
  intros (H1 & H2 & _ & _). destruct (manager_motor_safe tick w) as (A & B & C & D).
  unfold motor_ok, tgt_ok. rewrite C, D. auto.
Qed.

(** ** The invariant of the firmware *)

Record firmware_ok (f : Firmware) : Prop := {
  fo_globals : globals_wf (w_g (fw_world f));
  fo_motor : motor_ok (w_motor (fw_world f));
  fo_pins : sampling_ok (w_pins (fw_world f));
  fo_lora : Lora.lora_wf (fw_lora f);
  fo_rasp : Raspberry.rasp_wf (fw_rasp f);
  fo_frame : Raspberry.frame_ends (fw_rasp f);
  fo_gps : coll_wf 11 (fw_gps f);
  fo_water : coll_wf 12 (fw_water f);
  fo_radar : radar_wf (fw_radar f);
}.

(** What a received byte is: the drivers deliver bytes. *)
Definition turn_ok (e : turn) : Prop :=
  match e with RadarByte _ b => 0 <= b < 256 | _ => True end.

(** The turns that end in a memory error: an overlong field of a completed remote
    control frame; a type character or a completed command of the on-board
    computer that the C library's functions read or write out of bounds; and the
    confirmation of a command, which prints the frame received last as a format without
    arguments, when that frame asks for one. *)
Definition culprit (f : Firmware) (e : turn) : Prop :=
  match e with
  | LoraByte _ c => c = chr "Z" /\ Lora.lora_buffer_index (fw_lora f) <> 0 /\ Lora.frame_overflows (fw_lora f) = true
  | RaspByte e =>
      (Raspberry.lora_buffer_index (fw_rasp f) = 1 /\ Raspberry.ev_char e <> chr "S" /\
         Scan.atoi (Raspberry.ev_char e :: Raspberry.ev_after e) = None) \/
      (Raspberry.ev_char e = chr "Z" /\ Raspberry.lora_buffer_index (fw_rasp f) <> 0)
  | SendTurn _ _ =>
      Raspberry.send_pc (fw_send f) = Raspberry.Top /\ Raspberry.send_status_data (fw_rasp f) <> 1 /\
      Raspberry.send_confirm_data (fw_rasp f) = 1 /\ Raspberry.frame_no_format (fw_rasp f)
  | _ => False
  end.

Lemma put_globals_ok f g : firmware_ok f -> globals_wf g -> firmware_ok (put_globals f g).
Proof. intros [H1 H2 H3 H4 H5 H6 H7 H8 H9] Hg. split; assumption. Qed.

Lemma firmware_turn_ok f e :
  firmware_ok f -> turn_ok e ->
  match firmware_turn f e with Some f' => firmware_ok f' | None => culprit f e end.
Proof.
  intros Hf He. pose proof Hf as [Hg Hm Hp Hl Hr Hfe Hgps Hw Hrad].
  destruct e as [now c|e|now now2|b|b|now b|values|tick| |]; cbn [firmware_turn turn_ok culprit] in *.
  - destruct (Lora.lora_byte_cases now c (fw_lora f) (w_g (fw_world f)) Hl) as [Hn Hs].
    destruct (Lora.lora_rec_byte _ _ _ _) as [[s g]|] eqn:E; cbn [mbind option_bind]; [|apply Hn; reflexivity].
    destruct (Hs s g eq_refl) as [Hs' _]. apply put_globals_ok; [|eapply lora_globals_wf; eauto].
    split; assumption.
  - destruct (Raspberry.rasp_byte_cases e (fw_rasp f) (w_g (fw_world f)) Hr) as [Hs Hn].
    destruct (Raspberry.rasp_rec_byte _ _ _) as [[s g]|] eqn:E; cbn [mbind option_bind]; [|apply Hn; reflexivity].
    apply put_globals_ok; [|eapply rasp_globals_wf; eauto].
    pose proof (Raspberry.rasp_byte_ends _ _ _ _ _ Hr Hfe E) as Hfe'. split; try assumption. exact (Hs s g eq_refl).
  - pose proof (Raspberry.send_step_cases now now2 (fw_rasp f) (fw_send f) (w_g (fw_world f)) Hfe) as Hs.
    destruct (Raspberry.rasp_send_step _ _ _ _ _) as [[[s t] out]|]; cbn [mbind option_bind]; [|exact Hs].
    destruct Hr as [R1 R2 R3]. destruct Hs as [-> | ->]; (split; try assumption); split; assumption.
  - destruct (collect_safe 85 11 gps_message ltac:(lia) b (fw_gps f) (w_g (fw_world f)) Hgps) as (s & g & E & Hs).
    change (gps_rec_byte b (fw_gps f) (w_g (fw_world f)) = Some (s, g)) in E. rewrite E. cbn [mbind option_bind].
    apply put_globals_ok; [|eapply gps_globals_wf; eauto]. split; assumption.
  - destruct (collect_safe 6 12 water_message ltac:(lia) b (fw_water f) (w_g (fw_world f)) Hw) as (s & g & E & Hs).
    change (water_rec_byte b (fw_water f) (w_g (fw_world f)) = Some (s, g)) in E. rewrite E. cbn [mbind option_bind].
    apply put_globals_ok; [|eapply water_globals_wf; eauto]. split; assumption.
  - destruct (radar_byte_eq now b (fw_radar f) (w_g (fw_world f)) Hrad ltac:(lia) Hg) as (E & H1 & H2).
    rewrite E. destruct (radar_turn now b (fw_radar f) (w_g (fw_world f))) as [s g]. cbn [mbind option_bind fst snd] in *.
    apply put_globals_ok; [|exact H2]. split; assumption.
  - apply put_globals_ok; [exact Hf|exact Hg].
  - split; try assumption.
    + apply manager_iter_wf, Hg.
    + apply manager_iter_motor, Hm.
    + apply manager_iter_sampling, Hp.
  - split; try assumption. apply motor_next_ok, Hm.
  - split; assumption.
Qed.

Lemma firmware_run_ok es : forall f, firmware_ok f -> Forall turn_ok es ->
  match firmware_run es f with
  | Some f' => firmware_ok f'
  | None => exists es1 e es2 f', es = es1 ++ e :: es2 /\ firmware_run es1 f = Some f' /\ culprit f' e
  end.
Proof.
  induction es as [|e es IH]; intros f Hf Hes; cbn [firmware_run]; [exact Hf|].
  apply Forall_cons in Hes as [He Hes]. pose proof (firmware_turn_ok f e Hf He) as Hturn.
  destruct (firmware_turn f e) as [f1|] eqn:E; cbn [mbind option_bind].
  - specialize (IH f1 Hturn Hes). destruct (firmware_run es f1) as [f2|]; [exact IH|].
    destruct IH as (es1 & e' & es2 & f' & -> & E' & Hc). exists (e :: es1), e', es2, f'.
    split; [reflexivity|]. split; [|exact Hc]. cbn [firmware_run]. rewrite E. exact E'.
  - exists [], e, es, f. auto.
Qed.

Lemma firmware_init_ok garbage : length garbage = 20%nat -> firmware_ok (firmware_init garbage).
Proof.
  intros Hl. split.
  - exact globals_init_wf.
  - cbn. unfold motor_ok, chan_ok, tgt_ok; cbn. split_ands; lia || reflexivity.
  - right. split; vm_compute; reflexivity.
  - exact Lora.lora_init_wf.
  - split; [reflexivity|cbn; lia|repeat constructor; exact Hl].
  - reflexivity.
  - split; [reflexivity|cbn; lia].
  - split; [reflexivity|cbn; lia].
  - split; [reflexivity|cbn; lia|repeat constructor; lia].
Qed.
End SystemLemmas.

(** ** Properties *)

(** C1: the whole application, from start-up, through any turns of its threads in
    any order, on any received bytes and clock readings: either every turn
    completes, and then both motor outputs are between 1000 and 2000 us, the pump
    runs exactly when one valve is open (and never are two), and all buffers and
    global arrays are in shape; or the first turn that fails is one of the memory
    errors of [culprit]: those of the two command receivers, and the sender's print
    of a received frame that is a format asking for an argument, or with a width too large for an int - no
    other turn and no interleaving causes one. *)
Theorem firmware_safe `{Libm} garbage es :
  length garbage = 20%nat -> Forall turn_ok es ->
  match firmware_run es (firmware_init garbage) with
  | Some f =>
      1000 <= current_left_pwm (w_motor (fw_world f)) <= 2000 /\
      1000 <= current_right_pwm (w_motor (fw_world f)) <= 2000 /\
      (length (open_valves (w_pins (fw_world f))) <= 1)%nat /\
      (pump_on (w_pins (fw_world f)) = true <-> length (open_valves (w_pins (fw_world f))) = 1%nat) /\
      firmware_ok f
  | None => exists es1 e es2 f, es = es1 ++ e :: es2 /\
      firmware_run es1 (firmware_init garbage) = Some f /\ culprit f e
  end.
Proof.
  intros Hl Hes. pose proof (firmware_run_ok es _ (firmware_init_ok garbage Hl) Hes) as Hr.
  destruct (firmware_run es _) as [f|]; [|exact Hr]. pose proof Hr as [_ ((Hcl & _) & (Hcr & _) & _) Hs _ _ _ _ _ _].
  split; [exact Hcl|]. split; [exact Hcr|].
  destruct Hs as [[-> (b & _ & ->)]|[-> ->]]; cbn [length]; (split; [lia|]); (split; [|exact Hr]); split; (discriminate || auto).
Qed.

(** The remote control enables itself and pushes the stick forward; the manager and
    the motor thread take their turns. *)
Definition session : list turn :=
  [LoraByte 10 (chr "H"); LoraByte 11 (chr "1"); LoraByte 12 (chr "0"); LoraByte 13 (chr "Z");
   LoraByte 20 (chr "A"); LoraByte 21 (chr "2"); LoraByte 22 (chr "0"); LoraByte 23 (chr ",");
   LoraByte 24 (chr "5"); LoraByte 25 (chr "0"); LoraByte 26 (chr "Z");
   GpsByte 85; RadarByte 27 170; ManagerTurn (fun _ => 30); MotorTurn; GearTurn].

(** The on-board computer sends the way point "S1,%s,1Z"; the sender confirms it. *)
Definition percent_session : list turn :=
  map (fun c => RaspByte (Raspberry.ev_of c)) (map chr ["S"; "1"; ","; "%"; "s"; ","; "1"; "Z"]%char) ++ [SendTurn 20 20].

Lemma firmware_safe_witness :
  (exists f, @firmware_run toy_libm session (firmware_init (replicate 20 7)) = Some f /\
    current_left_pwm (w_motor (fw_world f)) = 1502 /\
    1000 <= current_left_pwm (w_motor (fw_world f)) <= 2000 /\
    (length (open_valves (w_pins (fw_world f))) <= 1)%nat) /\
  (exists es1 e es2 f, percent_session = es1 ++ e :: es2 /\
    @firmware_run toy_libm es1 (firmware_init (replicate 20 7)) = Some f /\ culprit f e).
Proof.
  split; [|assert (Hok : Forall turn_ok percent_session) by (repeat constructor);
    pose proof (@firmware_safe toy_libm (replicate 20 7) percent_session eq_refl Hok) as H;
    assert (E : @firmware_run toy_libm percent_session (firmware_init (replicate 20 7)) = None) by (vm_compute; reflexivity);
    rewrite E in H; exact H].
  assert (Hok : Forall turn_ok session) by (repeat constructor; cbn; lia).
  pose proof (@firmware_safe toy_libm (replicate 20 7) session eq_refl Hok) as H.
  assert (E : option_map (fun f => current_left_pwm (w_motor (fw_world f)))
                (@firmware_run toy_libm session (firmware_init (replicate 20 7))) = Some 1502) by (vm_compute; reflexivity).
  destruct (@firmware_run toy_libm session (firmware_init (replicate 20 7))) as [f|]; [|discriminate E].
  injection E as E. destruct H as (H1 & _ & H3 & _). exists f. split; [reflexivity|]. split; [exact E|]. split; assumption.
Defined.
